(* ===== verification/_CoqProject ===== *)
-Q . S2P
Prelude.v
Params.v
ChainConfig.v
ChainPresets.v
ChainTheorems.v
MultiGas.v
Uint256.v
Header.v
FeeMarket.v
Difficulty.v
VmCore.v
JumpDest.v
AccessList.v
State.v
Consensus.v
Ethash.v
Beacon.v
HeaderPipeline.v
ConsensusTheorems.v
StateRevert.v
StateFinalise.v
Rlp.v
RlpStream.v
RlpValues.v
RlpCodec.v
TxTypes.v
Transaction.v
TxEncoding.v
TrieKeys.v
TrieNode.v
Trie.v
TrieMap.v
TrieTheorems.v
Evm.v
VmGas.v
SstoreRefund.v
Instructions.v
JumpTable.v
Interpreter.v
FuelMono.v
GasAccounting.v
CallGas.v
GasConservation.v
GasTables.v
GasRun.v
GasTheorems.v
OpGuards.v
TxGas.v
StateTransition.v
StateTransitionGas.v
StateTransitionChecks.v
Signers.v
SignerTheorems.v
Messages.v
Blake2.v
Precompiles.v
ModExp.v
PrecompileTheorems.v
Lru.v
Clique.v
CliqueTheorems.v
CliqueSnapshots.v
Bloom.v
Receipts.v
StateProcessor.v
BlockGas.v
BlockValidator.v
