(* ===== verification/Prelude.v ===== *)
(** * Verification of the Arbitrum fork of go-ethereum

    The program is an Ethereum execution client adapted to Arbitrum chains.  Its core is
    the execution of blocks.  The state processor ([src/core/state_processor.go]) turns
    each transaction ([src/core/types]) into a message and runs the state transition
    ([src/core/state_transition.go]); this calls the virtual machine ([src/core/vm]),
    which runs contracts against the state database ([src/core/state]) and charges
    multi-dimensional gas ([src/arbitrum/multigas]).  The validator and the consensus
    engines ([src/consensus]) decide which blocks are accepted under a chain
    configuration ([src/params]); tries ([src/trie]) and RLP ([src/rlp]) are the data
    structures they commit to.  This library models that core and proves what makes it
    correct.

    ** Conventions

    A Go [uint64] is a [Z] in [0, 2^64), and every operation that wraps says so with
    [u64]; a 256-bit word is a [Z]; bytes are integers below 256; addresses and hashes
    are integers.  A function that may panic returns an [option], one that returns an
    error a [result]; methods that mutate take the old state and return the new one.  A
    map of Go is a [gmap].  Code outside the repository is a parameter: the class
    [U256.Ops] for [github.com/holiman/uint256], with its documented laws in
    [U256.Laws] and the reference implementation [U256.reference]; [Hasher] for
    Keccak-256; [Reader] for the database behind the state; [Crypto] for the curve of
    signatures, with [CryptoLaws]; [Libraries] for the hashes and curves behind the
    precompiled contracts, with [LibraryLaws]; the clock.  What a chain or a node
    configures is a parameter as well: [Env], [Chain] and [Precompiles] (the contracts
    of Arbitrum, with [GasHooks]), [TxProcessingHook] with [HookLaws], which allows it to
    end transactions, [BlockEnv] with [BlockLaws], the stored headers and blocks ([ChainReader], [ChainStore]).
    [HeaderHash] is the hash of a header, whose encoder is generated code.

    ** Files

    - [Prelude]: machine integers, errors, sums, the hint database and the tactics the
      other files share.
    - [Params]: [params/protocol_params.go], [params/config_arbitrum.go].
    - [MultiGas]: [arbitrum/multigas/resources.go].
    - [Uint256]: the interface to 256-bit integers, its laws and its reference.
    - [VmCore]: [core/vm/stack.go], [memory.go], [memory_table.go], [common.go].
    - [JumpDest]: [core/vm/analysis_legacy.go], [jumpdests.go].
    - [AccessList]: [core/state/access_list.go], [transient_storage.go].
    - [State], [StateRevert], [StateFinalise]: [core/state/statedb.go],
      [state_object.go], [journal.go] and their Arbitrum companions; the record
      [StateDB] has the fields of the Go struct, and a definition the name of the method
      it models.
    - [Evm], [VmGas]: [core/vm/contract.go], [gas.go], [gas_table.go],
      [operations_acl.go]; the monad [VM] threads the machine, the contract and the
      memory through a handler.
    - [SstoreRefund]: the refund counter under SSTORE.
    - [Instructions], [JumpTable], [Interpreter]: [core/vm/instructions.go],
      [jump_table.go], [eips.go], [interpreter.go], [evm.go]; the interpreter loop and
      the calls of [EVM], tied together by [Run].
    - [FuelMono], [GasAccounting], [CallGas], [GasConservation], [GasTables], [GasRun],
      [GasTheorems]: the accounts of a frame, and that gas is conserved and the
      interpreter terminates.
    - [OpGuards]: the jump tables against what the instructions do to the stack and the
      memory.
    - [ChainConfig], [ChainPresets], [ChainTheorems]: [params/config.go],
      [config_arbitrum.go], [forks/forks.go], [dao.go]; the methods of a configuration
      are in the Module [Config].
    - [Header], [FeeMarket]: [core/types/block.go], [consensus/misc] with [eip1559] and
      [eip4844].
    - [Difficulty]: [consensus/ethash/consensus.go], [difficulty.go].
    - [Consensus], [Ethash], [Beacon], [HeaderPipeline], [ConsensusTheorems]: the engines
      of [consensus]; [HeaderPipeline] has the goroutine that merges the results of two
      verifiers as a step relation.
    - [Lru]: [common/lru]; the Module [Ring] is the linked list over a heap, [BasicLRU]
      the cache, [SizeConstrainedCache] the one bounded in bytes.
    - [Clique], [CliqueTheorems], [CliqueSnapshots]: [consensus/clique].
    - [Rlp], [RlpStream], [RlpValues], [RlpCodec]: [rlp/raw.go], [encbuffer.go],
      [decode.go], [encode.go], [typecache.go]; the types that reflection sees are the
      inductive type of [RlpValues].
    - [TxTypes], [Transaction], [TxEncoding]: the types of transactions of [core/types],
      their methods and encodings.
    - [Signers], [SignerTheorems], [Messages]: [transaction_signing.go], its Arbitrum
      companion, and the messages of [core/state_transition.go].
    - [TxGas], [StateTransition], [StateTransitionGas], [StateTransitionChecks]:
      [core/gaspool.go], [state_transition.go].
    - [Precompiles], [Blake2], [ModExp], [PrecompileTheorems]: [core/vm/contracts.go],
      [crypto/blake2b].
    - [Bloom], [Receipts]: [core/types/bloom9.go], [receipt.go], [log.go], [hashing.go],
      [eth/filters/filter.go].
    - [StateProcessor], [BlockGas], [BlockValidator]: [core/state_processor.go],
      [block_validator.go].
    - [TrieKeys], [TrieNode], [Trie], [TrieMap], [TrieTheorems]: [trie/encoding.go],
      [node.go], [trie.go].
    ** What the theorems show

    - Gas.  [GasTheorems]: for every contract, input and state, a call or a creation
      given more fuel than gas does not run out of it, its outcome does not depend on
      the fuel, and when that is a result or an error, not a Go panic, what it used in
      every dimension and what it left add up to what it was given.
      [MultiGas]: the operations on multi-dimensional gas keep their counters in range
      and their total consistent, and detect exactly the overflows.  [SstoreRefund]: the
      refund counter never goes below zero, so [SubRefund] does not panic.
    - State.  [StateRevert]: reverting to a valid snapshot succeeds and restores every
      observable of the state, whatever allowed operations happened in between; an
      example of [StateFinalise] shows why the code of an account has to be read before
      it is set.  [StateFinalise]: what the
      end of a transaction does to every account, and that the balance bookkeeping is
      exact.  [AccessList]: the access list refines a set, and transient storage is
      canonical.
    - Machine.  [JumpDest]: the bitmap computed in chunks is the one of the definition,
      and a jump is accepted exactly on an instruction boundary that is a JUMPDEST.
      [OpGuards]: what the loop checks and pays for before an instruction keeps it from
      panicking, under every fork and for every opcode but SSTORE, whose refunds
      [SstoreRefund] is about; and the stack stays within its limit.  [VmCore]: after
      the expansion the interpreter does, a write to memory is in range.
    - Precompiled contracts, whose indexing and slicing panics out of bounds.
      [PrecompileTheorems]: each returns on every input with the gas accounted for, when
      that is below 2^59; [ecrecover] finds the signer.  [ModExp]: the price is that of
      the EIPs and the result the power.  [Blake2]: the interleaved rounds are those of
      the RFC.
    - Transactions.  [TxEncoding]: both encodings are read back, and only they are
      accepted.  [SignerTheorems]: signing and recovery agree, other chains reject a
      signature, the upper half of S is refused, caches stay coherent through copies,
      though not when a transaction is decoded into after they were filled.
    - State transition.  [StateTransitionGas]: it terminates, and when it does not panic
      gas is conserved, bounded by the limit and charged to the pool, refunds are
      bounded and the floor is respected, or the hook ended the transaction.
      [StateTransitionChecks], [TxGas]: exactly which messages are accepted, and what
      they cost before execution.
    - Blocks.  [BlockGas]: processing terminates, and its gas adds up when it returns a
      result, also with transactions that the hook ended.  [BlockValidator]: a valid
      block commits to what processing it did.  [Bloom]: no log is missed by a search.
      [Receipts]: the encoding is read back, with the status or the state root, and lists
      are hashed in key order.
    - Consensus.  [ConsensusTheorems]: on a chain without ArbOS whose schedules allow
      blobs, verification is total after the merge and keeps the invariants of a chain.  [HeaderPipeline]: results come out complete and in
      order.  [CliqueTheorems], [CliqueSnapshots]: signers change only by majority and wait
      their turn, and the snapshots found through caches are those of a replay; finding
      them does not panic on headers that can be sealed.
      [FeeMarket], [Difficulty]: the fees and the difficulty move as specified, and both
      difficulty calculators agree.  [ChainTheorems]: forks of a valid configuration without
      ArbOS are ordered, and compatible configurations have the same rules.
    - Data.  [TrieTheorems]: the trie refines a map.  [TrieNode]: nodes are read back, and
      decoding is total.  [Rlp], [RlpCodec]: splitter, buffer and codec read and write
      one canonical form.  [Lru]: the caches refine lists of entries and keep those used
      last.
    ** Fuel and bounds

    [Run] takes fuel, one unit per instruction of a frame and one per level of calls;
    [interpreter_terminates] shows that any amount above the gas of the contract gives
    the same result.  The conservation theorems are for gas below [gas_limit], 2^31,
    under which the accounts, which saturate at 2^64, provably do not: the lent gas of a
    frame can be counted once per instruction.  Arbitrum's limit per transaction is well
    below that.
    Block theorems take fuel above the gas limit of every transaction, and above the 30
    million of a system call when the block makes one.  Precompiled contracts need no
    fuel; the laws bound the price a caller can pay to 2^59.  The other fuels are
    computed from the input and shown to suffice: [fakeExponential_fuel]; the input
    length for RLP; two steps per nibble for a trie, [2 * len + 2]; the number of
    elements for a linked list.  The walk back of [Clique.snapshot] has fuel for one step
    per block to the genesis block.  The loop of [CheckCompatible] ends when the
    parameters of Arbitrum agree; in general it need not, and takes fuel as an argument.
    ** Not modelled

    - The EIP-4762 (Verkle) branches and tables: no chain this fork runs has the flag; the
      theorems take [IsEIP4762 chainRules = false] as a hypothesis.
    - Tracers, metrics, the address filter and the prefetcher, which observe.
    - The precompiled contracts of Arbitrum and [ExecuteWASM]: parameters, with the law
      that they account for the gas they take ([GasHooks]).
    - Hashing and committing of tries, iterators, proofs and databases ([src/triedb],
      [src/core/rawdb]); the state reads accounts through a parameter.
    - The storage form of receipts and [DeriveFields], the indexed search of logs, every
      JSON form, and the conversion of types for RPC.
    - Sealing, and the assembly of blocks; mutexes, except where a component is about
      interleaving ([HeaderPipeline]).
    - The chain's own orchestration, the transaction pools, networking, RPC, key stores
      and commands: databases, event loops, input and output around the core.

    ** Plan

    Next are the pools ([core/txpool]), the canonical chain and its reorganisations
    ([core/blockchain.go], [headerchain.go]), the storage form of receipts and
    [DeriveFields], and the hashing and committing of tries with iterators, proofs and
    the stack trie. *)

From stdpp Require Import base gmap list numbers option.
From Stdlib Require Import ZArith Lia.

Declare Scope go_scope.
Delimit Scope go_scope with go.
Open Scope Z_scope.

(** ** Machine integers

    A Go [uint64] is a [Z] in [0, 2^64); every operation that can wrap around
    says so with [u64].  The widths are written as literals so that [lia]
    reads them. *)

Abbreviation two8 := 256 (only parsing).
Abbreviation two64 := 18446744073709551616 (only parsing).
Abbreviation two256 :=
  115792089237316195423570985008687907853269984665640564039457584007913129639936
  (only parsing).

Definition u64 (x : Z) : Z := x mod two64.
Definition MaxUint64 : Z := 18446744073709551615.

(** The conversion to [int64]. *)
Definition i64 (x : Z) : Z := let x := u64 x in if x <? two64 / 2 then x else x - two64.

Definition is_u64 (x : Z) : Prop := 0 <= x < two64.
Definition is_byte (x : Z) : Prop := 0 <= x < two8.
Definition is_u256 (x : Z) : Prop := 0 <= x < two256.

#[global] Instance is_u64_dec x : Decision (is_u64 x).
Proof. unfold is_u64. apply _. Defined.
#[global] Instance is_byte_dec x : Decision (is_byte x).
Proof. unfold is_byte. apply _. Defined.
#[global] Instance is_u256_dec x : Decision (is_u256 x).
Proof. unfold is_u256. apply _. Defined.

(** [math/bits]: addition, subtraction and multiplication with the carry,
    the borrow or the high word as second result. *)

Definition Add64 (x y : Z) : Z * Z := (u64 (x + y), (x + y) / two64).
Definition Sub64 (x y : Z) : Z * Z := (u64 (x - y), if x <? y then 1 else 0).
Definition Mul64 (x y : Z) : Z * Z := ((x * y) / two64, u64 (x * y)).

Create HintDb go.
Create Rewrite HintDb go.

Ltac unfold_u64 :=
  unfold is_u64, is_byte, is_u256, u64, MaxUint64 in *.

(** Linear arithmetic with the wrap-around and division written out. *)
Ltac go_lia := unfold_u64; Z.to_euclidean_division_equations; lia.

(** Case split on every boolean comparison of integers in sight. *)
Ltac split_cmp :=
  repeat match goal with
  | |- context [?x <? ?y] => destruct (Z.ltb_spec x y)
  | |- context [?x <=? ?y] => destruct (Z.leb_spec x y)
  | |- context [?x =? ?y] => destruct (Z.eqb_spec x y)
  | H : context [?x <? ?y] |- _ => destruct (Z.ltb_spec x y)
  | H : context [?x <=? ?y] |- _ => destruct (Z.leb_spec x y)
  | H : context [?x =? ?y] |- _ => destruct (Z.eqb_spec x y)
  end; simpl in *.

Lemma u64_range x : is_u64 (u64 x).
Proof. unfold is_u64, u64. apply Z.mod_pos_bound. lia. Qed.

Lemma u64_small x : is_u64 x -> u64 x = x.
Proof. unfold is_u64, u64. intros. apply Z.mod_small. lia. Qed.

Lemma u64_idemp x : u64 (u64 x) = u64 x.
Proof. apply u64_small, u64_range. Qed.

#[export] Hint Resolve u64_range : go.
#[export] Hint Rewrite u64_idemp : go.

Lemma Add64_carry x y : is_u64 x -> is_u64 y ->
  Add64 x y = if x + y <? two64 then (x + y, 0) else (x + y - two64, 1).
Proof.
  intros Hx Hy. unfold Add64. destruct (Z.ltb_spec (x + y) two64); f_equal; go_lia.
Qed.

Lemma Sub64_borrow x y : is_u64 x -> is_u64 y ->
  Sub64 x y = if x <? y then (x - y + two64, 1) else (x - y, 0).
Proof.
  intros Hx Hy. unfold Sub64. destruct (Z.ltb_spec x y); f_equal; go_lia.
Qed.

Lemma Mul64_hi_zero x y : is_u64 x -> is_u64 y ->
  (fst (Mul64 x y) = 0 <-> x * y < two64).
Proof.
  intros Hx Hy. unfold Mul64. cbn [fst].
  assert (0 <= x * y) by (unfold_u64; nia).
  split; intros; go_lia.
Qed.

(** ** Errors

    A Go function that may panic is an [option] ([None] is the panic); one that
    returns [(value, error)] returns a [result]. *)

Inductive result (E A : Type) : Type :=
| Ok (a : A)
| Err (e : E).
Arguments Ok {E A} a.
Arguments Err {E A} e.

Definition result_bind {E A B} (r : result E A) (k : A -> result E B) : result E B :=
  match r with Ok a => k a | Err e => Err e end.

Notation "'let!' x := r 'in' k" := (result_bind r (fun x => k))
  (at level 10, x name, r at level 100, k at level 200) : go_scope.
Notation "'let!' ' p := r 'in' k" := (result_bind r (fun x => match x with p => k end))
  (at level 10, p pattern, r at level 100, k at level 200) : go_scope.

Lemma result_bind_Ok {E A B} (r : result E A) (k : A -> result E B) b :
  result_bind r k = Ok b <-> exists a, r = Ok a /\ k a = Ok b.
Proof.
  destruct r as [a|e]; simpl; split.
  - intros Hk. by exists a.
  - intros (a' & Ha & Hk). by simplify_eq.
  - done.
  - by intros (a' & Ha & _).
Qed.

(** ** Lists and sums *)

Definition sumZ (l : list Z) : Z := foldr Z.add 0 l.

Lemma sumZ_app l1 l2 : sumZ (l1 ++ l2) = sumZ l1 + sumZ l2.
Proof. induction l1 as [|x l1 IH]; simpl; [done|]. unfold sumZ in *. simpl. lia. Qed.

Lemma sumZ_nonneg l : Forall (fun x => 0 <= x) l -> 0 <= sumZ l.
Proof. induction 1; unfold sumZ in *; simpl; lia. Qed.

Lemma sumZ_insert l i x y :
  l !! i = Some x -> sumZ (<[i := y]> l) = sumZ l - x + y.
Proof.
  revert i. induction l as [|a l IH]; intros [|i] Hi; simplify_eq/=.
  - unfold sumZ; simpl; lia.
  - specialize (IH _ Hi). unfold sumZ in *; simpl; lia.
Qed.

Lemma sumZ_lookup_le l i x :
  Forall (fun x => 0 <= x) l -> l !! i = Some x -> x <= sumZ l.
Proof.
  intros Hl Hi. pose proof (sumZ_insert l i x 0 Hi) as E.
  assert (0 <= sumZ (<[i:=0]> l)); [|lia].
  apply sumZ_nonneg. apply Forall_insert; [done|lia].
Qed.
