(* ===== verification/Params.v ===== *)
(** Protocol constants and chain rules.

    [params/protocol_params.go] and [params/config_arbitrum.go]: every constant
    under its own name; [params.Rules]: the forks that are active. *)

From Stdlib Require Import ZArith.
From S2P Require Import Prelude.
Open Scope Z_scope.

(** ** Constants *)

Definition GasLimitBoundDivisor : Z := 1024.
Definition MinGasLimit : Z := 5000.
Definition MaxGasLimit : Z := 0x7fffffffffffffff.
Definition GenesisGasLimit : Z := 4712388.
Definition MaxTxGasRenamedForNitroMerges : Z := Z.shiftl 1 24.
Definition MaximumExtraDataSize : Z := 32.
Definition ExpByteGas : Z := 10.
Definition SloadGas : Z := 50.
Definition CallValueTransferGas : Z := 9000.
Definition CallNewAccountGas : Z := 25000.
Definition TxGas : Z := 21000.
Definition TxGasContractCreation : Z := 53000.
Definition TxDataZeroGas : Z := 4.
Definition QuadCoeffDiv : Z := 512.
Definition LogDataGas : Z := 8.
Definition CallStipend : Z := 2300.
Definition Keccak256Gas : Z := 30.
Definition Keccak256WordGas : Z := 6.
Definition InitCodeWordGas : Z := 2.
Definition SstoreSetGas : Z := 20000.
Definition SstoreResetGas : Z := 5000.
Definition SstoreClearGas : Z := 5000.
Definition SstoreRefundGas : Z := 15000.
Definition NetSstoreNoopGas : Z := 200.
Definition NetSstoreInitGas : Z := 20000.
Definition NetSstoreCleanGas : Z := 5000.
Definition NetSstoreDirtyGas : Z := 200.
Definition NetSstoreClearRefund : Z := 15000.
Definition NetSstoreResetRefund : Z := 4800.
Definition NetSstoreResetClearRefund : Z := 19800.
Definition SstoreSentryGasEIP2200 : Z := 2300.
Definition SstoreSetGasEIP2200 : Z := 20000.
Definition SstoreResetGasEIP2200 : Z := 5000.
Definition SstoreClearsScheduleRefundEIP2200 : Z := 15000.
Definition ColdAccountAccessCostEIP2929 : Z := 2600.
Definition ColdSloadCostEIP2929 : Z := 2100.
Definition WarmStorageReadCostEIP2929 : Z := 100.
Definition JumpdestGas : Z := 1.
Definition EpochDuration : Z := 30000.
Definition CreateDataGas : Z := 200.
Definition CallCreateDepth : Z := 1024.
Definition ExpGas : Z := 10.
Definition LogGas : Z := 375.
Definition CopyGas : Z := 3.
Definition TierStepGas : Z := 0.
Definition LogTopicGas : Z := 375.
Definition LogTopicBytes : Z := 32.
Definition LogTopicHistoryGas : Z := LogDataGas * LogTopicBytes.
Definition LogTopicComputationGas : Z := LogTopicGas - LogTopicHistoryGas.
Definition CreateGas : Z := 32000.
Definition Create2Gas : Z := 32000.
Definition CreateNGasEip4762 : Z := 1000.
Definition SelfdestructRefundGas : Z := 24000.
Definition MemoryGas : Z := 3.
Definition TxDataNonZeroGasFrontier : Z := 68.
Definition TxDataNonZeroGasEIP2028 : Z := 16.
Definition TxTokenPerNonZeroByte : Z := 4.
Definition TxCostFloorPerToken : Z := 10.
Definition TxAccessListAddressGas : Z := 2400.
Definition TxAccessListStorageKeyGas : Z := 1900.
Definition TxAuthTupleGas : Z := 12500.
Definition CallGasFrontier : Z := 40.
Definition CallGasEIP150 : Z := 700.
Definition BalanceGasFrontier : Z := 20.
Definition BalanceGasEIP150 : Z := 400.
Definition BalanceGasEIP1884 : Z := 700.
Definition ExtcodeSizeGasFrontier : Z := 20.
Definition ExtcodeSizeGasEIP150 : Z := 700.
Definition SloadGasFrontier : Z := 50.
Definition SloadGasEIP150 : Z := 200.
Definition SloadGasEIP1884 : Z := 800.
Definition SloadGasEIP2200 : Z := 800.
Definition ExtcodeHashGasConstantinople : Z := 400.
Definition ExtcodeHashGasEIP1884 : Z := 700.
Definition SelfdestructGasEIP150 : Z := 5000.
Definition ExpByteFrontier : Z := 10.
Definition ExpByteEIP158 : Z := 50.
Definition ExtcodeCopyBaseFrontier : Z := 20.
Definition ExtcodeCopyBaseEIP150 : Z := 700.
Definition CreateBySelfdestructGas : Z := 25000.
Definition DefaultBaseFeeChangeDenominator : Z := 8.
Definition DefaultElasticityMultiplier : Z := 2.
Definition InitialBaseFee : Z := 1000000000.
Definition DefaultMaxCodeSize : Z := 24576.
Definition DefaultMaxInitCodeSize : Z := 2 * DefaultMaxCodeSize.
Definition EcrecoverGas : Z := 3000.
Definition Sha256BaseGas : Z := 60.
Definition Sha256PerWordGas : Z := 12.
Definition Ripemd160BaseGas : Z := 600.
Definition Ripemd160PerWordGas : Z := 120.
Definition IdentityBaseGas : Z := 15.
Definition IdentityPerWordGas : Z := 3.
Definition Bn256AddGasByzantium : Z := 500.
Definition Bn256AddGasIstanbul : Z := 150.
Definition Bn256ScalarMulGasByzantium : Z := 40000.
Definition Bn256ScalarMulGasIstanbul : Z := 6000.
Definition Bn256PairingBaseGasByzantium : Z := 100000.
Definition Bn256PairingBaseGasIstanbul : Z := 45000.
Definition Bn256PairingPerPointGasByzantium : Z := 80000.
Definition Bn256PairingPerPointGasIstanbul : Z := 34000.
Definition Bls12381G1AddGas : Z := 375.
Definition Bls12381G1MulGas : Z := 12000.
Definition Bls12381G2AddGas : Z := 600.
Definition Bls12381G2MulGas : Z := 22500.
Definition Bls12381PairingBaseGas : Z := 37700.
Definition Bls12381PairingPerPairGas : Z := 32600.
Definition Bls12381MapG1Gas : Z := 5500.
Definition Bls12381MapG2Gas : Z := 23800.
Definition P256VerifyGas : Z := 6900.
Definition RefundQuotient : Z := 2.
Definition RefundQuotientEIP3529 : Z := 5.
Definition BlobTxBytesPerFieldElement : Z := 32.
Definition BlobTxFieldElementsPerBlob : Z := 4096.
Definition BlobTxBlobGasPerBlob : Z := Z.shiftl 1 17.
Definition BlobTxMinBlobGasprice : Z := 1.
Definition BlobTxPointEvaluationPrecompileGas : Z := 50000.
Definition BlobTxMaxBlobs : Z := 6.
Definition BlobBaseCost : Z := Z.shiftl 1 13.
Definition HistoryServeWindow : Z := 8191.
Definition MaxBlockSize : Z := 8388608.
Definition ArbosVersion_2 : Z := 2.
Definition ArbosVersion_3 : Z := 3.
Definition ArbosVersion_4 : Z := 4.
Definition ArbosVersion_5 : Z := 5.
Definition ArbosVersion_6 : Z := 6.
Definition ArbosVersion_7 : Z := 7.
Definition ArbosVersion_8 : Z := 8.
Definition ArbosVersion_9 : Z := 9.
Definition ArbosVersion_10 : Z := 10.
Definition ArbosVersion_11 : Z := 11.
Definition ArbosVersion_20 : Z := 20.
Definition ArbosVersion_30 : Z := 30.
Definition ArbosVersion_31 : Z := 31.
Definition ArbosVersion_32 : Z := 32.
Definition ArbosVersion_40 : Z := 40.
Definition ArbosVersion_41 : Z := 41.
Definition ArbosVersion_50 : Z := 50.
Definition ArbosVersion_51 : Z := 51.
Definition ArbosVersion_59 : Z := 59.
Definition ArbosVersion_60 : Z := 60.
Definition ArbosVersion_61 : Z := 61.
Definition ArbosVersion_FixRedeemGas : Z := ArbosVersion_11.
Definition ArbosVersion_Stylus : Z := ArbosVersion_30.
Definition ArbosVersion_StylusFixes : Z := ArbosVersion_31.
Definition ArbosVersion_StylusChargingFixes : Z := ArbosVersion_32.
Definition MaxArbosVersionSupported : Z := ArbosVersion_61.
Definition MaxDebugArbosVersionSupported : Z := ArbosVersion_61.
Definition ArbosVersion_Dia : Z := ArbosVersion_50.
Definition ArbosVersion_SingleGasConstraintsVersion : Z := ArbosVersion_50.
Definition ArbosVersion_MultiConstraintFix : Z := ArbosVersion_51.
Definition ArbosVersion_MultiGasConstraintsVersion : Z := ArbosVersion_60.
Definition ArbosVersion_StylusContractLimit : Z := ArbosVersion_60.
Definition ArbosVersion_TransactionFiltering : Z := ArbosVersion_60.
Definition ArbosVersion_StylusActivationGas : Z := ArbosVersion_60.
Definition ArbosVersion_MultiGasRefundFix : Z := ArbosVersion_61.
Definition SstoreClearsScheduleRefundEIP3529 : Z := SstoreResetGasEIP2200 - ColdSloadCostEIP2929 + TxAccessListStorageKeyGas.

(** ** Rules *)

Record Rules := mkRules {
  IsArbitrum : bool; IsStylus : bool; IsGreaterEqual41 : bool; IsDia : bool;
  IsGreaterEqual60 : bool; ChainID : Z; ArbOSVersion : Z;
  IsHomestead : bool; IsEIP150 : bool; IsEIP155 : bool; IsEIP158 : bool;
  IsEIP2929 : bool; IsEIP4762 : bool;
  IsByzantium : bool; IsConstantinople : bool; IsPetersburg : bool; IsIstanbul : bool;
  IsBerlin : bool; IsLondon : bool;
  IsMerge : bool; IsShanghai : bool; IsCancun : bool; IsPrague : bool; IsOsaka : bool;
  IsAmsterdam : bool; IsVerkle : bool
}.

(** ** The Arbitrum part of a chain configuration

    A size of zero stands for the default. *)

Record ArbitrumChainParams := mkArbitrumChainParams {
  EnableArbOS : bool;
  AllowDebugPrecompiles : bool;
  DataAvailabilityCommittee : bool;
  InitialArbOSVersion : Z;
  InitialChainOwner : Z;
  GenesisBlockNum : Z;
  acp_MaxCodeSize : Z;
  acp_MaxInitCodeSize : Z;
  acp_MaxUncompressedBatchSize : Z
}.

Definition DefaultMaxUncompressedBatchSize : Z := 16 * 1024 * 1024.

Definition MaxCodeSize (c : ArbitrumChainParams) : Z :=
  if acp_MaxCodeSize c =? 0 then DefaultMaxCodeSize else acp_MaxCodeSize c.

Definition MaxInitCodeSize (c : ArbitrumChainParams) : Z :=
  if acp_MaxInitCodeSize c =? 0 then u64 (MaxCodeSize c * 2) else acp_MaxInitCodeSize c.

Definition MaxUncompressedBatchSize (c : ArbitrumChainParams) : Z :=
  if acp_MaxUncompressedBatchSize c =? 0 then DefaultMaxUncompressedBatchSize
  else acp_MaxUncompressedBatchSize c.

Definition DebugMode (c : ArbitrumChainParams) : bool := AllowDebugPrecompiles c.

Definition DisableArbitrumParams : ArbitrumChainParams :=
  mkArbitrumChainParams false false false 0 0 0 0 0 0.
