(* ===== verification/ChainConfig.v ===== *)
(** Chain configurations: when every fork is active.

    [params/config.go], [params/config_arbitrum.go] and [params/forks/forks.go].  A nil
    block number or timestamp is [None]; a predicate of [ChainConfig] has the name of
    its method, in the module [Config]; [String] and [Description], which print a
    configuration, and [Ethash] and [Clique], which name the consensus engine, are left
    out. *)

From stdpp Require Import base gmap list numbers option strings.
From S2P Require Import Prelude Params.
Open Scope Z_scope.

(** ** Data *)

(** [BlobConfig]: [Target] and [Max] are Go [int]s. *)
Record BlobConfig := mkBlobConfig {
  Target : Z;
  Max : Z;
  UpdateFraction : Z
}.

Record BlobScheduleConfig := mkBlobScheduleConfig {
  bsc_Cancun : option BlobConfig;
  bsc_Prague : option BlobConfig;
  bsc_Osaka : option BlobConfig;
  bsc_Verkle : option BlobConfig;
  bsc_BPO1 : option BlobConfig;
  bsc_BPO2 : option BlobConfig;
  bsc_BPO3 : option BlobConfig;
  bsc_BPO4 : option BlobConfig;
  bsc_BPO5 : option BlobConfig;
  bsc_Amsterdam : option BlobConfig
}.

Definition emptyBlobSchedule : BlobScheduleConfig :=
  mkBlobScheduleConfig None None None None None None None None None None.

Record ChainConfig := mkChainConfig {
  cfg_ChainID : option Z;
  HomesteadBlock : option Z;
  DAOForkBlock : option Z;
  DAOForkSupport : bool;
  EIP150Block : option Z;
  EIP155Block : option Z;
  EIP158Block : option Z;
  ByzantiumBlock : option Z;
  ConstantinopleBlock : option Z;
  PetersburgBlock : option Z;
  IstanbulBlock : option Z;
  MuirGlacierBlock : option Z;
  BerlinBlock : option Z;
  LondonBlock : option Z;
  ArrowGlacierBlock : option Z;
  GrayGlacierBlock : option Z;
  MergeNetsplitBlock : option Z;
  ShanghaiTime : option Z;
  CancunTime : option Z;
  PragueTime : option Z;
  OsakaTime : option Z;
  BPO1Time : option Z;
  BPO2Time : option Z;
  BPO3Time : option Z;
  BPO4Time : option Z;
  BPO5Time : option Z;
  AmsterdamTime : option Z;
  VerkleTime : option Z;
  TerminalTotalDifficulty : option Z;
  DepositContractAddress : Z;
  EnableVerkleAtGenesis : bool;
  blobSchedule : option BlobScheduleConfig;
  arbitrum : ArbitrumChainParams
}.

(** ** Scheduled forks *)

Definition isBlockForked (s head : option Z) : bool :=
  match s, head with
  | Some s, Some head => s <=? head
  | _, _ => false
  end.

Definition configBlockEqual (x y : option Z) : bool :=
  match x, y with
  | None, None => true
  | Some x, Some y => x =? y
  | _, _ => false
  end.

Definition isForkBlockIncompatible (s1 s2 head : option Z) : bool :=
  (isBlockForked s1 head || isBlockForked s2 head) && negb (configBlockEqual s1 s2).

Definition isTimestampForked (s : option Z) (head : Z) : bool :=
  match s with Some s => s <=? head | None => false end.

Definition configTimestampEqual (x y : option Z) : bool :=
  match x, y with
  | None, None => true
  | Some x, Some y => x =? y
  | _, _ => false
  end.

Definition isForkTimestampIncompatible (s1 s2 : option Z) (head : Z) : bool :=
  (isTimestampForked s1 head || isTimestampForked s2 head) && negb (configTimestampEqual s1 s2).

Module Config.

Definition IsArbitrum (c : ChainConfig) : bool := EnableArbOS (arbitrum c).

Definition IsArbitrumNitro (c : ChainConfig) (num : option Z) : bool :=
  IsArbitrum c && isBlockForked (Some (GenesisBlockNum (arbitrum c))) num.

Definition IsHomestead (c : ChainConfig) (num : option Z) : bool := isBlockForked (HomesteadBlock c) num.
Definition IsDAOFork (c : ChainConfig) (num : option Z) : bool := isBlockForked (DAOForkBlock c) num.
Definition IsEIP150 (c : ChainConfig) (num : option Z) : bool := isBlockForked (EIP150Block c) num.
Definition IsEIP155 (c : ChainConfig) (num : option Z) : bool := isBlockForked (EIP155Block c) num.
Definition IsEIP158 (c : ChainConfig) (num : option Z) : bool := isBlockForked (EIP158Block c) num.
Definition IsByzantium (c : ChainConfig) (num : option Z) : bool := isBlockForked (ByzantiumBlock c) num.
Definition IsConstantinople (c : ChainConfig) (num : option Z) : bool :=
  isBlockForked (ConstantinopleBlock c) num.
Definition IsMuirGlacier (c : ChainConfig) (num : option Z) : bool :=
  isBlockForked (MuirGlacierBlock c) num.

Definition IsPetersburg (c : ChainConfig) (num : option Z) : bool :=
  isBlockForked (PetersburgBlock c) num
  || match PetersburgBlock c with
     | None => isBlockForked (ConstantinopleBlock c) num
     | Some _ => false
     end.

Definition IsIstanbul (c : ChainConfig) (num : option Z) : bool := isBlockForked (IstanbulBlock c) num.
Definition IsBerlin (c : ChainConfig) (num : option Z) : bool := isBlockForked (BerlinBlock c) num.

Definition IsLondon (c : ChainConfig) (num : option Z) : bool :=
  if IsArbitrum c then isBlockForked (Some (GenesisBlockNum (arbitrum c))) num
  else isBlockForked (LondonBlock c) num.

Definition IsArrowGlacier (c : ChainConfig) (num : option Z) : bool :=
  isBlockForked (ArrowGlacierBlock c) num.
Definition IsGrayGlacier (c : ChainConfig) (num : option Z) : bool :=
  isBlockForked (GrayGlacierBlock c) num.

Definition IsTerminalPoWBlock (c : ChainConfig) (parentTotalDiff totalDiff : Z) : bool :=
  match TerminalTotalDifficulty c with
  | None => false
  | Some ttd => (parentTotalDiff <? ttd) && (ttd <=? totalDiff)
  end.

Definition IsPostMerge (c : ChainConfig) (blockNum timestamp : Z) : bool :=
  match TerminalTotalDifficulty c with Some ttd => ttd =? 0 | None => false end
  || match MergeNetsplitBlock c with Some b => u64 b <=? blockNum | None => false end
  || match ShanghaiTime c with Some t => t <=? timestamp | None => false end.

Definition IsShanghai (c : ChainConfig) (num : option Z) (time currentArbosVersion : Z) : bool :=
  if IsArbitrum c then ArbosVersion_11 <=? currentArbosVersion
  else IsLondon c num && isTimestampForked (ShanghaiTime c) time.
Definition IsCancun (c : ChainConfig) (num : option Z) (time currentArbosVersion : Z) : bool :=
  if IsArbitrum c then ArbosVersion_20 <=? currentArbosVersion
  else IsLondon c num && isTimestampForked (CancunTime c) time.
Definition IsPrague (c : ChainConfig) (num : option Z) (time currentArbosVersion : Z) : bool :=
  if IsArbitrum c then ArbosVersion_40 <=? currentArbosVersion
  else IsLondon c num && isTimestampForked (PragueTime c) time.
Definition IsOsaka (c : ChainConfig) (num : option Z) (time currentArbosVersion : Z) : bool :=
  if IsArbitrum c then ArbosVersion_50 <=? currentArbosVersion
  else IsLondon c num && isTimestampForked (OsakaTime c) time.

Definition IsBPO1 (c : ChainConfig) (num : option Z) (time : Z) : bool :=
  IsLondon c num && isTimestampForked (BPO1Time c) time.
Definition IsBPO2 (c : ChainConfig) (num : option Z) (time : Z) : bool :=
  IsLondon c num && isTimestampForked (BPO2Time c) time.
Definition IsBPO3 (c : ChainConfig) (num : option Z) (time : Z) : bool :=
  IsLondon c num && isTimestampForked (BPO3Time c) time.
Definition IsBPO4 (c : ChainConfig) (num : option Z) (time : Z) : bool :=
  IsLondon c num && isTimestampForked (BPO4Time c) time.
Definition IsBPO5 (c : ChainConfig) (num : option Z) (time : Z) : bool :=
  IsLondon c num && isTimestampForked (BPO5Time c) time.
Definition IsAmsterdam (c : ChainConfig) (num : option Z) (time : Z) : bool :=
  IsLondon c num && isTimestampForked (AmsterdamTime c) time.
Definition IsVerkle (c : ChainConfig) (num : option Z) (time : Z) : bool :=
  IsLondon c num && isTimestampForked (VerkleTime c) time.
Definition IsVerkleGenesis (c : ChainConfig) : bool := EnableVerkleAtGenesis c.
Definition IsEIP4762 (c : ChainConfig) (num : option Z) (time : Z) : bool := IsVerkle c num time.

Definition BaseFeeChangeDenominator (c : ChainConfig) : Z := DefaultBaseFeeChangeDenominator.
Definition ElasticityMultiplier (c : ChainConfig) : Z := DefaultElasticityMultiplier.

Definition Rules (c : ChainConfig) (num : option Z) (isMerge : bool)
    (timestamp currentArbosVersion : Z) : Params.Rules :=
  let isMerge := isMerge && IsLondon c num in
  let isVerkle := isMerge && IsVerkle c num timestamp in
  let since v := IsArbitrum c && (v <=? currentArbosVersion) in
  {| Params.IsArbitrum := IsArbitrum c;
     IsStylus := since ArbosVersion_Stylus;
     IsGreaterEqual41 := since ArbosVersion_41;
     IsDia := since ArbosVersion_Dia;
     IsGreaterEqual60 := since ArbosVersion_60;
     ChainID := default 0 (cfg_ChainID c);
     ArbOSVersion := currentArbosVersion;
     Params.IsHomestead := IsHomestead c num;
     Params.IsEIP150 := IsEIP150 c num;
     Params.IsEIP155 := IsEIP155 c num;
     Params.IsEIP158 := IsEIP158 c num;
     Params.IsByzantium := IsByzantium c num;
     Params.IsConstantinople := IsConstantinople c num;
     Params.IsPetersburg := IsPetersburg c num;
     Params.IsIstanbul := IsIstanbul c num;
     Params.IsBerlin := IsBerlin c num;
     IsEIP2929 := IsBerlin c num && negb isVerkle;
     Params.IsLondon := IsLondon c num;
     IsMerge := isMerge;
     Params.IsShanghai := isMerge && IsShanghai c num timestamp currentArbosVersion;
     Params.IsCancun := isMerge && IsCancun c num timestamp currentArbosVersion;
     Params.IsPrague := isMerge && IsPrague c num timestamp currentArbosVersion;
     Params.IsOsaka := isMerge && IsOsaka c num timestamp currentArbosVersion;
     Params.IsAmsterdam := isMerge && IsAmsterdam c num timestamp;
     Params.IsVerkle := isVerkle;
     Params.IsEIP4762 := isVerkle |}.

End Config.

(** ** The order of the forks

    [CheckConfigForkOrder] goes through the forks in order; an optional one that is not
    set is skipped.  The forks up to the merge have a block, the others a timestamp, so
    the comparisons find both sides set. *)

Record fork := mkFork {
  fork_name : string;
  fork_block : option Z;
  fork_timestamp : option Z;
  optional : bool
}.

Inductive forkOrderError :=
| NotEnabledAtBlock (last cur : string) (block : Z)
| NotEnabledAtTime (last cur : string) (timestamp : Z)
| BlocksUnordered (last cur : string) (lastBlock curBlock : Z)
| TimesUnordered (last cur : string) (lastTime curTime : Z)
| RevertedToBlocks (last cur : string)
| InvalidBlobConfig (name : string) (why : string)
| MissingBlobConfig (name : string).

Definition is_set (f : fork) : bool :=
  match fork_block f, fork_timestamp f with None, None => false | _, _ => true end.

Definition gt_opt (x y : option Z) : bool :=
  match x, y with Some x, Some y => y <? x | _, _ => false end.
Definition both (x y : option Z) : bool :=
  match x, y with Some _, Some _ => true | _, _ => false end.

Definition check_successor (last cur : fork) : option forkOrderError :=
  if negb (is_set last) && is_set cur then
    match fork_block cur with
    | Some b => Some (NotEnabledAtBlock (fork_name last) (fork_name cur) b)
    | None => Some (NotEnabledAtTime (fork_name last) (fork_name cur)
                      (default 0 (fork_timestamp cur)))
    end
  else if both (fork_block last) (fork_block cur)
          || both (fork_timestamp last) (fork_timestamp cur) then
    if gt_opt (fork_block last) (fork_block cur) then
      Some (BlocksUnordered (fork_name last) (fork_name cur)
              (default 0 (fork_block last)) (default 0 (fork_block cur)))
    else if gt_opt (fork_timestamp last) (fork_timestamp cur) then
      Some (TimesUnordered (fork_name last) (fork_name cur)
              (default 0 (fork_timestamp last)) (default 0 (fork_timestamp cur)))
    else if both (fork_timestamp last) (fork_block cur) then
      Some (RevertedToBlocks (fork_name last) (fork_name cur))
    else None
  else None.

(** An optional fork that is not set is ignored by its successors. *)
Definition kept (f : fork) : bool := negb (optional f) || is_set f.

Fixpoint order_loop (lastFork : option fork) (forks : list fork) : option forkOrderError :=
  match forks with
  | [] => None
  | cur :: forks =>
      match (match lastFork with Some last => check_successor last cur | None => None end) with
      | Some err => Some err
      | None => order_loop (if kept cur then Some cur else lastFork) forks
      end
  end.

Definition at_block (name : string) (b : option Z) : fork := mkFork name b None false.
Definition at_block_opt (name : string) (b : option Z) : fork := mkFork name b None true.
Definition at_time (name : string) (t : option Z) : fork := mkFork name None t false.
Definition at_time_opt (name : string) (t : option Z) : fork := mkFork name None t true.

Definition block_forks (c : ChainConfig) : list fork :=
  [at_block "homesteadBlock" (HomesteadBlock c);
   at_block_opt "daoForkBlock" (DAOForkBlock c);
   at_block "eip150Block" (EIP150Block c);
   at_block "eip155Block" (EIP155Block c);
   at_block "eip158Block" (EIP158Block c);
   at_block "byzantiumBlock" (ByzantiumBlock c);
   at_block "constantinopleBlock" (ConstantinopleBlock c);
   at_block "petersburgBlock" (PetersburgBlock c);
   at_block "istanbulBlock" (IstanbulBlock c);
   at_block_opt "muirGlacierBlock" (MuirGlacierBlock c);
   at_block "berlinBlock" (BerlinBlock c);
   at_block "londonBlock" (LondonBlock c);
   at_block_opt "arrowGlacierBlock" (ArrowGlacierBlock c);
   at_block_opt "grayGlacierBlock" (GrayGlacierBlock c);
   at_block_opt "mergeNetsplitBlock" (MergeNetsplitBlock c)].

Definition time_forks (c : ChainConfig) : list fork :=
  [at_time "shanghaiTime" (ShanghaiTime c);
   at_time_opt "cancunTime" (CancunTime c);
   at_time_opt "pragueTime" (PragueTime c);
   at_time_opt "osakaTime" (OsakaTime c);
   at_time_opt "verkleTime" (VerkleTime c);
   at_time_opt "bpo1" (BPO1Time c);
   at_time_opt "bpo2" (BPO2Time c);
   at_time_opt "bpo3" (BPO3Time c);
   at_time_opt "bpo4" (BPO4Time c);
   at_time_opt "bpo5" (BPO5Time c);
   at_time_opt "amsterdam" (AmsterdamTime c)].

Definition fork_list (c : ChainConfig) : list fork := block_forks c ++ time_forks c.

(** [BlobConfig.validate], with the message of its error. *)
Definition validate (bc : BlobConfig) : option string :=
  if Max bc <? 0 then Some "max < 0"
  else if Target bc <? 0 then Some "target < 0"
  else if UpdateFraction bc =? 0 then Some "update fraction must be defined and non-zero"
  else None.

Definition check_blob_fork (cur : string * option Z * option BlobConfig) : option forkOrderError :=
  let '(name, timestamp, config) := cur in
  match config with
  | Some bc => match validate bc with Some why => Some (InvalidBlobConfig name why) | None => None end
  | None => match timestamp with Some _ => Some (MissingBlobConfig name) | None => None end
  end.

Definition blob_forks (c : ChainConfig) : list (string * option Z * option BlobConfig) :=
  let bsc := default emptyBlobSchedule (blobSchedule c) in
  [("cancun", CancunTime c, bsc_Cancun bsc);
   ("prague", PragueTime c, bsc_Prague bsc);
   ("osaka", OsakaTime c, bsc_Osaka bsc);
   ("bpo1", BPO1Time c, bsc_BPO1 bsc);
   ("bpo2", BPO2Time c, bsc_BPO2 bsc);
   ("bpo3", BPO3Time c, bsc_BPO3 bsc);
   ("bpo4", BPO4Time c, bsc_BPO4 bsc);
   ("bpo5", BPO5Time c, bsc_BPO5 bsc);
   ("amsterdam", AmsterdamTime c, bsc_Amsterdam bsc)]%string.

Fixpoint first_error {A E} (check : A -> option E) (l : list A) : option E :=
  match l with
  | [] => None
  | x :: l => match check x with Some e => Some e | None => first_error check l end
  end.

Definition CheckConfigForkOrder (c : ChainConfig) : option forkOrderError :=
  match order_loop None (fork_list c) with
  | Some err => Some err
  | None => first_error check_blob_fork (blob_forks c)
  end.

(** ** Compatibility with a stored configuration *)

Record ConfigCompatError := mkConfigCompatError {
  What : string;
  StoredBlock : option Z;
  NewBlock : option Z;
  StoredTime : option Z;
  NewTime : option Z;
  RewindToBlock : Z;
  RewindToTime : Z
}.

(** The earlier of two schedules; nil is never. *)
Definition earlier (stored new : option Z) : option Z :=
  match stored, new with
  | None, _ => new
  | _, None => stored
  | Some s, Some n => if s <? n then stored else new
  end.

Definition newBlockCompatError (what : string) (storedblock newblock : option Z) : ConfigCompatError :=
  mkConfigCompatError what storedblock newblock None None
    (match earlier storedblock newblock with
     | Some rew => if 0 <? rew then u64 (u64 rew - 1) else 0
     | None => 0
     end) 0.

Definition newTimestampCompatError (what : string) (storedtime newtime : option Z) : ConfigCompatError :=
  mkConfigCompatError what None None storedtime newtime 0
    (match earlier storedtime newtime with
     | Some rew => if rew =? 0 then 0 else rew - 1
     | None => 0
     end).

Definition block_check (what : string) (s1 s2 head : option Z) : option ConfigCompatError :=
  if isForkBlockIncompatible s1 s2 head then Some (newBlockCompatError what s1 s2) else None.

Definition time_check (what : string) (s1 s2 : option Z) (head : Z) : option ConfigCompatError :=
  if isForkTimestampIncompatible s1 s2 head then Some (newTimestampCompatError what s1 s2) else None.

Definition flag_check (what : string) (bad : bool) (s1 s2 : option Z) : option ConfigCompatError :=
  if bad then Some (newBlockCompatError what s1 s2) else None.

(** The first check that fails. *)
Definition first_failure {E} (l : list (option E)) : option E := first_error (fun e => e) l.

Definition checkArbitrumCompatible (c newcfg : ChainConfig) : option ConfigCompatError :=
  if negb (Bool.eqb (Config.IsArbitrum c) (Config.IsArbitrum newcfg)) then
    Some (newBlockCompatError "isArbitrum" (Some 0) (Some 0))
  else if negb (Config.IsArbitrum c) then None
  else
    let cArb := arbitrum c in
    let newArb := arbitrum newcfg in
    if negb (GenesisBlockNum cArb =? GenesisBlockNum newArb) then
      Some (newBlockCompatError "genesisblocknum" (Some (GenesisBlockNum cArb))
              (Some (GenesisBlockNum newArb)))
    else if negb (acp_MaxUncompressedBatchSize cArb =? acp_MaxUncompressedBatchSize newArb) then
      Some (newBlockCompatError "maxuncompressedbatchsize" (Some (acp_MaxUncompressedBatchSize cArb))
              (Some (acp_MaxUncompressedBatchSize newArb)))
    else None.

(** The checks of [checkCompatible] that look at the block number, and those that look
    at the timestamp. *)
Definition block_checks (c newcfg : ChainConfig) (head : option Z) : list (option ConfigCompatError) :=
  let same what f := block_check what (f c) (f newcfg) head in
  [same "Homestead fork block" HomesteadBlock;
   same "DAO fork block" DAOForkBlock;
   flag_check "DAO fork support flag"
     (Config.IsDAOFork c head && negb (Bool.eqb (DAOForkSupport c) (DAOForkSupport newcfg)))
     (DAOForkBlock c) (DAOForkBlock newcfg);
   same "EIP150 fork block" EIP150Block;
   same "EIP155 fork block" EIP155Block;
   same "EIP158 fork block" EIP158Block;
   flag_check "EIP158 chain ID"
     (Config.IsEIP158 c head && negb (configBlockEqual (cfg_ChainID c) (cfg_ChainID newcfg)))
     (EIP158Block c) (EIP158Block newcfg);
   checkArbitrumCompatible c newcfg;
   same "Byzantium fork block" ByzantiumBlock;
   same "Constantinople fork block" ConstantinopleBlock;
   flag_check "Petersburg fork block"
     (isForkBlockIncompatible (PetersburgBlock c) (PetersburgBlock newcfg) head
      && isForkBlockIncompatible (ConstantinopleBlock c) (PetersburgBlock newcfg) head)
     (PetersburgBlock c) (PetersburgBlock newcfg);
   same "Istanbul fork block" IstanbulBlock;
   same "Muir Glacier fork block" MuirGlacierBlock;
   same "Berlin fork block" BerlinBlock;
   same "London fork block" LondonBlock;
   same "Arrow Glacier fork block" ArrowGlacierBlock;
   same "Gray Glacier fork block" GrayGlacierBlock;
   same "Merge netsplit fork block" MergeNetsplitBlock]%string.

Definition time_checks (c newcfg : ChainConfig) (head : Z) : list (option ConfigCompatError) :=
  let same what f := time_check what (f c) (f newcfg) head in
  [same "Shanghai fork timestamp" ShanghaiTime;
   same "Cancun fork timestamp" CancunTime;
   same "Prague fork timestamp" PragueTime;
   same "Osaka fork timestamp" OsakaTime;
   same "Verkle fork timestamp" VerkleTime;
   same "BPO1 fork timestamp" BPO1Time;
   same "BPO2 fork timestamp" BPO2Time;
   same "BPO3 fork timestamp" BPO3Time;
   same "BPO4 fork timestamp" BPO4Time;
   same "BPO5 fork timestamp" BPO5Time;
   same "Amsterdam fork timestamp" AmsterdamTime]%string.

Definition checkCompatible (c newcfg : ChainConfig) (headNumber : option Z) (headTimestamp : Z) :
    option ConfigCompatError :=
  first_failure (block_checks c newcfg headNumber ++ time_checks c newcfg headTimestamp).

(** The loop of [CheckCompatible] rewinds the head to before each error it finds.  It
    takes fuel: [None] is that the fuel did not suffice. *)
Definition same_rewind (err lasterr : ConfigCompatError) : bool :=
  (RewindToBlock err =? RewindToBlock lasterr) && (RewindToTime err =? RewindToTime lasterr).

Fixpoint compat_loop (fuel : nat) (c newcfg : ChainConfig) (bhead btime : Z)
    (lasterr : option ConfigCompatError) : option (option ConfigCompatError) :=
  match fuel with
  | O => None
  | S fuel =>
      match checkCompatible c newcfg (Some bhead) btime with
      | None => Some lasterr
      | Some err =>
          if match lasterr with Some l => same_rewind err l | None => false end then Some lasterr
          else if 0 <? RewindToTime err then
            compat_loop fuel c newcfg bhead (RewindToTime err) (Some err)
          else compat_loop fuel c newcfg (RewindToBlock err) btime (Some err)
      end
  end.

Definition CheckCompatible (fuel : nat) (c newcfg : ChainConfig) (height time : Z) :
    option (option ConfigCompatError) :=
  compat_loop fuel c newcfg height time None.

(** ** The latest fork *)

Inductive Fork :=
| Frontier | FrontierThawing | Homestead | DAO | TangerineWhistle | SpuriousDragon | Byzantium
| Constantinople | Petersburg | Istanbul | MuirGlacier | Berlin | London | ArrowGlacier
| GrayGlacier | Paris | Shanghai | Cancun | Prague | Osaka
| BPO1 | BPO2 | BPO3 | BPO4 | BPO5 | Amsterdam.

#[export] Instance Fork_eq_dec : EqDecision Fork.
Proof. solve_decision. Defined.

Definition fork_number (f : Fork) : Z :=
  match f with
  | Frontier => 0 | FrontierThawing => 1 | Homestead => 2 | DAO => 3 | TangerineWhistle => 4
  | SpuriousDragon => 5 | Byzantium => 6 | Constantinople => 7 | Petersburg => 8 | Istanbul => 9
  | MuirGlacier => 10 | Berlin => 11 | London => 12 | ArrowGlacier => 13 | GrayGlacier => 14
  | Paris => 15 | Shanghai => 16 | Cancun => 17 | Prague => 18 | Osaka => 19
  | BPO1 => 20 | BPO2 => 21 | BPO3 => 22 | BPO4 => 23 | BPO5 => 24 | Amsterdam => 25
  end.

Definition LatestFork (c : ChainConfig) (time currentArbosVersion : Z) : Fork :=
  let london := LondonBlock c in
  if Config.IsAmsterdam c london time then Amsterdam
  else if Config.IsBPO5 c london time then BPO5
  else if Config.IsBPO4 c london time then BPO4
  else if Config.IsBPO3 c london time then BPO3
  else if Config.IsBPO2 c london time then BPO2
  else if Config.IsBPO1 c london time then BPO1
  else if Config.IsOsaka c london time currentArbosVersion then Osaka
  else if Config.IsPrague c london time currentArbosVersion then Prague
  else if Config.IsCancun c london time currentArbosVersion then Cancun
  else if Config.IsShanghai c london time currentArbosVersion then Shanghai
  else Paris.

(** [ChainConfig.BlobConfig]; it dereferences the schedule, which may be nil. *)
Definition ForkBlobConfig (c : ChainConfig) (f : Fork) : option (option BlobConfig) :=
  let entry (g : BlobScheduleConfig -> option BlobConfig) := g <$> blobSchedule c in
  if Config.IsArbitrum c then Some None
  else
    match f with
    | BPO5 => entry bsc_BPO5
    | BPO4 => entry bsc_BPO4
    | BPO3 => entry bsc_BPO3
    | BPO2 => entry bsc_BPO2
    | BPO1 => entry bsc_BPO1
    | Osaka => entry bsc_Osaka
    | Prague => entry bsc_Prague
    | Cancun => entry bsc_Cancun
    | _ => Some None
    end.

Definition BeaconRootsAddress : Z := 0x000F3df6D732807Ef1319fB7B8bB8522d0Beac02.
Definition HistoryStorageAddress : Z := 0x0000F90827F1C53a10cb7A02335B175320002935.
Definition WithdrawalQueueAddress : Z := 0x00000961Ef480Eb55e80D19ad83579A64c007002.
Definition ConsolidationQueueAddress : Z := 0x0000BBdDc7CE488642fb579F8B00f3a590007251.

Definition ActiveSystemContracts (c : ChainConfig) (time currentArbosVersion : Z) : gmap string Z :=
  let f := fork_number (LatestFork c time currentArbosVersion) in
  let active : gmap string Z := ∅ in
  let active :=
    if fork_number Prague <=? f then
      <["WITHDRAWAL_REQUEST_PREDEPLOY_ADDRESS"%string := WithdrawalQueueAddress]>
      (<["HISTORY_STORAGE_ADDRESS"%string := HistoryStorageAddress]>
      (<["DEPOSIT_CONTRACT_ADDRESS"%string := DepositContractAddress c]>
      (<["CONSOLIDATION_REQUEST_PREDEPLOY_ADDRESS"%string := ConsolidationQueueAddress]> active)))
    else active in
  let active :=
    if fork_number Cancun <=? f then <["BEACON_ROOTS_ADDRESS"%string := BeaconRootsAddress]> active
    else active in
  if Config.IsArbitrum c then
    delete "BEACON_ROOTS_ADDRESS"%string (delete "WITHDRAWAL_REQUEST_PREDEPLOY_ADDRESS"%string
      (delete "DEPOSIT_CONTRACT_ADDRESS"%string (delete "CONSOLIDATION_REQUEST_PREDEPLOY_ADDRESS"%string active)))
  else active.

(** On an Arbitrum chain the forks before the blob parameter ones count as active. *)
Definition Timestamp (c : ChainConfig) (f : Fork) : option Z :=
  let on t := if Config.IsArbitrum c then Some 0 else t in
  match f with
  | BPO5 => BPO5Time c
  | BPO4 => BPO4Time c
  | BPO3 => BPO3Time c
  | BPO2 => BPO2Time c
  | BPO1 => BPO1Time c
  | Osaka => on (OsakaTime c)
  | Prague => on (PragueTime c)
  | Cancun => on (CancunTime c)
  | Shanghai => on (ShanghaiTime c)
  | _ => None
  end.
