(* ===== verification/ChainPresets.v ===== *)
(** The chain configurations the program ships with: the variables of
    [params/config.go]. *)

From stdpp Require Import base list numbers option strings.
From S2P Require Import Prelude Params ChainConfig.
Open Scope Z_scope.

Definition DefaultCancunBlobConfig : BlobConfig := mkBlobConfig 3 6 3338477.
Definition DefaultPragueBlobConfig : BlobConfig := mkBlobConfig 6 9 5007716.
Definition DefaultOsakaBlobConfig : BlobConfig := mkBlobConfig 6 9 5007716.
Definition DefaultBPO1BlobConfig : BlobConfig := mkBlobConfig 10 15 8346193.
Definition DefaultBPO2BlobConfig : BlobConfig := mkBlobConfig 14 21 11684671.
Definition DefaultBPO3BlobConfig : BlobConfig := mkBlobConfig 21 32 20609697.
Definition DefaultBPO4BlobConfig : BlobConfig := mkBlobConfig 14 21 13739630.
Definition DefaultBlobSchedule : BlobScheduleConfig :=
  (mkBlobScheduleConfig (Some DefaultCancunBlobConfig) (Some DefaultPragueBlobConfig) (Some DefaultOsakaBlobConfig) None None None None None None None).

Definition MainnetTerminalTotalDifficulty : Z := 58750000000000000000000.

Definition MainnetChainConfig : ChainConfig := {|
  cfg_ChainID := Some 1;
  HomesteadBlock := Some 1150000;
  DAOForkBlock := Some 1920000;
  DAOForkSupport := true;
  EIP150Block := Some 2463000;
  EIP155Block := Some 2675000;
  EIP158Block := Some 2675000;
  ByzantiumBlock := Some 4370000;
  ConstantinopleBlock := Some 7280000;
  PetersburgBlock := Some 7280000;
  IstanbulBlock := Some 9069000;
  MuirGlacierBlock := Some 9200000;
  BerlinBlock := Some 12244000;
  LondonBlock := Some 12965000;
  ArrowGlacierBlock := Some 13773000;
  GrayGlacierBlock := Some 15050000;
  MergeNetsplitBlock := None;
  ShanghaiTime := Some 1681338455;
  CancunTime := Some 1710338135;
  PragueTime := Some 1746612311;
  OsakaTime := Some 1764798551;
  BPO1Time := Some 1765290071;
  BPO2Time := Some 1767747671;
  BPO3Time := None;
  BPO4Time := None;
  BPO5Time := None;
  AmsterdamTime := None;
  VerkleTime := None;
  TerminalTotalDifficulty := Some MainnetTerminalTotalDifficulty;
  DepositContractAddress := 0x00000000219ab540356cbb839cbe05303d7705fa;
  EnableVerkleAtGenesis := false;
  blobSchedule := (Some (mkBlobScheduleConfig (Some DefaultCancunBlobConfig) (Some DefaultPragueBlobConfig) (Some DefaultOsakaBlobConfig) None (Some DefaultBPO1BlobConfig) (Some DefaultBPO2BlobConfig) None None None None));
  arbitrum := DisableArbitrumParams
|}.

Definition HoleskyChainConfig : ChainConfig := {|
  cfg_ChainID := Some 17000;
  HomesteadBlock := Some 0;
  DAOForkBlock := None;
  DAOForkSupport := true;
  EIP150Block := Some 0;
  EIP155Block := Some 0;
  EIP158Block := Some 0;
  ByzantiumBlock := Some 0;
  ConstantinopleBlock := Some 0;
  PetersburgBlock := Some 0;
  IstanbulBlock := Some 0;
  MuirGlacierBlock := None;
  BerlinBlock := Some 0;
  LondonBlock := Some 0;
  ArrowGlacierBlock := None;
  GrayGlacierBlock := None;
  MergeNetsplitBlock := None;
  ShanghaiTime := Some 1696000704;
  CancunTime := Some 1707305664;
  PragueTime := Some 1740434112;
  OsakaTime := Some 1759308480;
  BPO1Time := Some 1759800000;
  BPO2Time := Some 1760389824;
  BPO3Time := None;
  BPO4Time := None;
  BPO5Time := None;
  AmsterdamTime := None;
  VerkleTime := None;
  TerminalTotalDifficulty := Some 0;
  DepositContractAddress := 0x4242424242424242424242424242424242424242;
  EnableVerkleAtGenesis := false;
  blobSchedule := (Some (mkBlobScheduleConfig (Some DefaultCancunBlobConfig) (Some DefaultPragueBlobConfig) (Some DefaultOsakaBlobConfig) None (Some DefaultBPO1BlobConfig) (Some DefaultBPO2BlobConfig) None None None None));
  arbitrum := DisableArbitrumParams
|}.

Definition SepoliaChainConfig : ChainConfig := {|
  cfg_ChainID := Some 11155111;
  HomesteadBlock := Some 0;
  DAOForkBlock := None;
  DAOForkSupport := true;
  EIP150Block := Some 0;
  EIP155Block := Some 0;
  EIP158Block := Some 0;
  ByzantiumBlock := Some 0;
  ConstantinopleBlock := Some 0;
  PetersburgBlock := Some 0;
  IstanbulBlock := Some 0;
  MuirGlacierBlock := Some 0;
  BerlinBlock := Some 0;
  LondonBlock := Some 0;
  ArrowGlacierBlock := None;
  GrayGlacierBlock := None;
  MergeNetsplitBlock := Some 1735371;
  ShanghaiTime := Some 1677557088;
  CancunTime := Some 1706655072;
  PragueTime := Some 1741159776;
  OsakaTime := Some 1760427360;
  BPO1Time := Some 1761017184;
  BPO2Time := Some 1761607008;
  BPO3Time := None;
  BPO4Time := None;
  BPO5Time := None;
  AmsterdamTime := None;
  VerkleTime := None;
  TerminalTotalDifficulty := Some 17000000000000000;
  DepositContractAddress := 0x7f02c3e3c98b133055b8b348b2ac625669ed295d;
  EnableVerkleAtGenesis := false;
  blobSchedule := (Some (mkBlobScheduleConfig (Some DefaultCancunBlobConfig) (Some DefaultPragueBlobConfig) (Some DefaultOsakaBlobConfig) None (Some DefaultBPO1BlobConfig) (Some DefaultBPO2BlobConfig) None None None None));
  arbitrum := DisableArbitrumParams
|}.

Definition HoodiChainConfig : ChainConfig := {|
  cfg_ChainID := Some 560048;
  HomesteadBlock := Some 0;
  DAOForkBlock := None;
  DAOForkSupport := true;
  EIP150Block := Some 0;
  EIP155Block := Some 0;
  EIP158Block := Some 0;
  ByzantiumBlock := Some 0;
  ConstantinopleBlock := Some 0;
  PetersburgBlock := Some 0;
  IstanbulBlock := Some 0;
  MuirGlacierBlock := Some 0;
  BerlinBlock := Some 0;
  LondonBlock := Some 0;
  ArrowGlacierBlock := None;
  GrayGlacierBlock := None;
  MergeNetsplitBlock := Some 0;
  ShanghaiTime := Some 0;
  CancunTime := Some 0;
  PragueTime := Some 1742999832;
  OsakaTime := Some 1761677592;
  BPO1Time := Some 1762365720;
  BPO2Time := Some 1762955544;
  BPO3Time := None;
  BPO4Time := None;
  BPO5Time := None;
  AmsterdamTime := None;
  VerkleTime := None;
  TerminalTotalDifficulty := Some 0;
  DepositContractAddress := 0x00000000219ab540356cBB839Cbe05303d7705Fa;
  EnableVerkleAtGenesis := false;
  blobSchedule := (Some (mkBlobScheduleConfig (Some DefaultCancunBlobConfig) (Some DefaultPragueBlobConfig) (Some DefaultOsakaBlobConfig) None (Some DefaultBPO1BlobConfig) (Some DefaultBPO2BlobConfig) None None None None));
  arbitrum := DisableArbitrumParams
|}.

Definition AllEthashProtocolChanges : ChainConfig := {|
  cfg_ChainID := Some 1337;
  HomesteadBlock := Some 0;
  DAOForkBlock := None;
  DAOForkSupport := false;
  EIP150Block := Some 0;
  EIP155Block := Some 0;
  EIP158Block := Some 0;
  ByzantiumBlock := Some 0;
  ConstantinopleBlock := Some 0;
  PetersburgBlock := Some 0;
  IstanbulBlock := Some 0;
  MuirGlacierBlock := Some 0;
  BerlinBlock := Some 0;
  LondonBlock := Some 0;
  ArrowGlacierBlock := Some 0;
  GrayGlacierBlock := Some 0;
  MergeNetsplitBlock := None;
  ShanghaiTime := None;
  CancunTime := None;
  PragueTime := None;
  OsakaTime := None;
  BPO1Time := None;
  BPO2Time := None;
  BPO3Time := None;
  BPO4Time := None;
  BPO5Time := None;
  AmsterdamTime := None;
  VerkleTime := None;
  TerminalTotalDifficulty := Some 9223372036854775807;
  DepositContractAddress := 0;
  EnableVerkleAtGenesis := false;
  blobSchedule := None;
  arbitrum := DisableArbitrumParams
|}.

Definition AllDevChainProtocolChanges : ChainConfig := {|
  cfg_ChainID := Some 1337;
  HomesteadBlock := Some 0;
  DAOForkBlock := None;
  DAOForkSupport := false;
  EIP150Block := Some 0;
  EIP155Block := Some 0;
  EIP158Block := Some 0;
  ByzantiumBlock := Some 0;
  ConstantinopleBlock := Some 0;
  PetersburgBlock := Some 0;
  IstanbulBlock := Some 0;
  MuirGlacierBlock := Some 0;
  BerlinBlock := Some 0;
  LondonBlock := Some 0;
  ArrowGlacierBlock := Some 0;
  GrayGlacierBlock := Some 0;
  MergeNetsplitBlock := None;
  ShanghaiTime := Some 0;
  CancunTime := Some 0;
  PragueTime := Some 0;
  OsakaTime := Some 0;
  BPO1Time := None;
  BPO2Time := None;
  BPO3Time := None;
  BPO4Time := None;
  BPO5Time := None;
  AmsterdamTime := None;
  VerkleTime := None;
  TerminalTotalDifficulty := Some 0;
  DepositContractAddress := 0;
  EnableVerkleAtGenesis := false;
  blobSchedule := (Some (mkBlobScheduleConfig (Some DefaultCancunBlobConfig) (Some DefaultPragueBlobConfig) (Some DefaultOsakaBlobConfig) None None None None None None None));
  arbitrum := DisableArbitrumParams
|}.

Definition AllCliqueProtocolChanges : ChainConfig := {|
  cfg_ChainID := Some 1337;
  HomesteadBlock := Some 0;
  DAOForkBlock := None;
  DAOForkSupport := false;
  EIP150Block := Some 0;
  EIP155Block := Some 0;
  EIP158Block := Some 0;
  ByzantiumBlock := Some 0;
  ConstantinopleBlock := Some 0;
  PetersburgBlock := Some 0;
  IstanbulBlock := Some 0;
  MuirGlacierBlock := Some 0;
  BerlinBlock := Some 0;
  LondonBlock := Some 0;
  ArrowGlacierBlock := None;
  GrayGlacierBlock := None;
  MergeNetsplitBlock := None;
  ShanghaiTime := None;
  CancunTime := None;
  PragueTime := None;
  OsakaTime := None;
  BPO1Time := None;
  BPO2Time := None;
  BPO3Time := None;
  BPO4Time := None;
  BPO5Time := None;
  AmsterdamTime := None;
  VerkleTime := None;
  TerminalTotalDifficulty := Some 9223372036854775807;
  DepositContractAddress := 0;
  EnableVerkleAtGenesis := false;
  blobSchedule := None;
  arbitrum := DisableArbitrumParams
|}.

Definition TestChainConfig : ChainConfig := {|
  cfg_ChainID := Some 1;
  HomesteadBlock := Some 0;
  DAOForkBlock := None;
  DAOForkSupport := false;
  EIP150Block := Some 0;
  EIP155Block := Some 0;
  EIP158Block := Some 0;
  ByzantiumBlock := Some 0;
  ConstantinopleBlock := Some 0;
  PetersburgBlock := Some 0;
  IstanbulBlock := Some 0;
  MuirGlacierBlock := Some 0;
  BerlinBlock := Some 0;
  LondonBlock := Some 0;
  ArrowGlacierBlock := Some 0;
  GrayGlacierBlock := Some 0;
  MergeNetsplitBlock := None;
  ShanghaiTime := None;
  CancunTime := None;
  PragueTime := None;
  OsakaTime := None;
  BPO1Time := None;
  BPO2Time := None;
  BPO3Time := None;
  BPO4Time := None;
  BPO5Time := None;
  AmsterdamTime := None;
  VerkleTime := None;
  TerminalTotalDifficulty := Some 9223372036854775807;
  DepositContractAddress := 0;
  EnableVerkleAtGenesis := false;
  blobSchedule := None;
  arbitrum := DisableArbitrumParams
|}.

Definition MergedTestChainConfig : ChainConfig := {|
  cfg_ChainID := Some 1;
  HomesteadBlock := Some 0;
  DAOForkBlock := None;
  DAOForkSupport := false;
  EIP150Block := Some 0;
  EIP155Block := Some 0;
  EIP158Block := Some 0;
  ByzantiumBlock := Some 0;
  ConstantinopleBlock := Some 0;
  PetersburgBlock := Some 0;
  IstanbulBlock := Some 0;
  MuirGlacierBlock := Some 0;
  BerlinBlock := Some 0;
  LondonBlock := Some 0;
  ArrowGlacierBlock := Some 0;
  GrayGlacierBlock := Some 0;
  MergeNetsplitBlock := Some 0;
  ShanghaiTime := Some 0;
  CancunTime := Some 0;
  PragueTime := Some 0;
  OsakaTime := Some 0;
  BPO1Time := None;
  BPO2Time := None;
  BPO3Time := None;
  BPO4Time := None;
  BPO5Time := None;
  AmsterdamTime := None;
  VerkleTime := None;
  TerminalTotalDifficulty := Some 0;
  DepositContractAddress := 0;
  EnableVerkleAtGenesis := false;
  blobSchedule := (Some (mkBlobScheduleConfig (Some DefaultCancunBlobConfig) (Some DefaultPragueBlobConfig) (Some DefaultOsakaBlobConfig) None None None None None None None));
  arbitrum := DisableArbitrumParams
|}.

Definition NonActivatedConfig : ChainConfig := {|
  cfg_ChainID := Some 1;
  HomesteadBlock := None;
  DAOForkBlock := None;
  DAOForkSupport := false;
  EIP150Block := None;
  EIP155Block := None;
  EIP158Block := None;
  ByzantiumBlock := None;
  ConstantinopleBlock := None;
  PetersburgBlock := None;
  IstanbulBlock := None;
  MuirGlacierBlock := None;
  BerlinBlock := None;
  LondonBlock := None;
  ArrowGlacierBlock := None;
  GrayGlacierBlock := None;
  MergeNetsplitBlock := None;
  ShanghaiTime := None;
  CancunTime := None;
  PragueTime := None;
  OsakaTime := None;
  BPO1Time := None;
  BPO2Time := None;
  BPO3Time := None;
  BPO4Time := None;
  BPO5Time := None;
  AmsterdamTime := None;
  VerkleTime := None;
  TerminalTotalDifficulty := Some 9223372036854775807;
  DepositContractAddress := 0;
  EnableVerkleAtGenesis := false;
  blobSchedule := None;
  arbitrum := DisableArbitrumParams
|}.

Definition presets : list ChainConfig :=
  [MainnetChainConfig;
   HoleskyChainConfig;
   SepoliaChainConfig;
   HoodiChainConfig;
   AllEthashProtocolChanges;
   AllDevChainProtocolChanges;
   AllCliqueProtocolChanges;
   TestChainConfig;
   MergedTestChainConfig;
   NonActivatedConfig].

(** Every one of them is in order. *)
Example presets_in_order : forallb (fun c => match CheckConfigForkOrder c with None => true | _ => false end) presets = true.
Proof. by vm_compute. Qed.
