(* ===== verification/ChainTheorems.v ===== *)
(** What a valid chain configuration guarantees about the forks, and when a stored
    configuration may be replaced by another. *)

From stdpp Require Import base gmap list numbers option strings.
From S2P Require Import Prelude Params ChainConfig ChainPresets.
Open Scope Z_scope.

(** ** The order of the forks *)

(** No fork of [l] is set without [last], and none comes before it. *)
Definition follows (last : fork) (f : fork) : Prop :=
  is_set f = true ->
  is_set last = true /\ gt_opt (fork_block last) (fork_block f) = false
  /\ gt_opt (fork_timestamp last) (fork_timestamp f) = false.

Lemma check_successor_follows last cur : check_successor last cur = None -> follows last cur.
Proof.
  unfold check_successor, follows. intros H Hc. rewrite Hc, andb_true_r in H.
  destruct (is_set last); [|by destruct (fork_block cur)]. simpl in H. split; [done|].
  destruct (fork_block last) as [a|], (fork_block cur) as [b|], (fork_timestamp last) as [x|],
    (fork_timestamp cur) as [y|]; simpl in *; repeat case_match; try done.
Qed.

(** A list of forks of one kind. *)
Definition blocks_only (l : list fork) : Prop := Forall (fun f => fork_timestamp f = None) l.
Definition times_only (l : list fork) : Prop := Forall (fun f => fork_block f = None) l.

Lemma follows_trans_blocks f g h :
  fork_timestamp f = None -> fork_timestamp g = None -> fork_timestamp h = None ->
  follows f g -> follows g h -> follows f h.
Proof.
  unfold follows, is_set, gt_opt. intros -> -> -> H1 H2 Hh. specialize (H2 Hh). destruct H2 as (Hg & H2 & _).
  specialize (H1 Hg). destruct H1 as (Hf & H1 & _). split; [done|]. split; [|done].
  destruct (fork_block f), (fork_block g), (fork_block h); try done.
  apply Z.ltb_ge in H1, H2. apply Z.ltb_ge. lia.
Qed.

Lemma follows_trans_times f g h :
  fork_block g = None -> fork_block h = None -> follows f g -> follows g h -> follows f h.
Proof.
  unfold follows, is_set, gt_opt. intros Eg Eh H1 H2 Hh. rewrite ?Eg, ?Eh in *.
  specialize (H2 Hh). destruct H2 as (Hg & _ & H2). specialize (H1 Hg). destruct H1 as (Hf & _ & H1).
  split; [done|]. split; [by destruct (fork_block f)|].
  destruct (fork_timestamp f), (fork_timestamp g), (fork_timestamp h); try done.
  apply Z.ltb_ge in H1, H2. apply Z.ltb_ge. lia.
Qed.

Lemma kept_unset f : kept f = false -> is_set f = false.
Proof. unfold kept. destruct (optional f), (is_set f); done. Qed.

(** Every fork that comes after one that is kept follows it. *)
Lemma order_loop_blocks l last :
  fork_timestamp last = None -> blocks_only l -> order_loop (Some last) l = None -> Forall (follows last) l.
Proof.
  intros Hb Hl. revert last Hb. induction Hl as [|cur l Hcur Hl IH]; intros last Hb H; [constructor|].
  simpl in H. destruct (check_successor last cur) eqn:E; [done|]. apply check_successor_follows in E.
  constructor; [done|]. destruct (kept cur) eqn:K; [|by apply IH].
  specialize (IH cur Hcur H). eapply Forall_impl; [exact (List.Forall_and IH Hl)|].
  intros h [Hh Ht]. by apply (follows_trans_blocks last cur h).
Qed.

Lemma order_loop_times l last :
  times_only l -> order_loop (Some last) l = None -> Forall (follows last) l.
Proof.
  intros Hl. revert last. induction Hl as [|cur l Hcur Hl IH]; intros last H; [constructor|].
  simpl in H. destruct (check_successor last cur) eqn:E; [done|]. apply check_successor_follows in E.
  constructor; [done|]. destruct (kept cur) eqn:K; [|by apply IH].
  specialize (IH cur H). eapply Forall_impl; [exact (List.Forall_and IH Hl)|].
  intros h [Hh Ht]. by apply (follows_trans_times last cur h).
Qed.

Lemma order_loop_app o l1 l2 : order_loop o (l1 ++ l2) = None ->
  order_loop o l1 = None /\ exists o', order_loop o' l2 = None.
Proof.
  revert o. induction l1 as [|f l1 IH]; intros o H; simpl in *; [eauto|].
  destruct (match o with Some last => check_successor last f | None => None end); [done|]. by apply IH.
Qed.

Lemma order_loop_after o l1 f l2 : order_loop o (l1 ++ f :: l2) = None -> kept f = true ->
  order_loop (Some f) l2 = None.
Proof.
  intros H K. revert o H. induction l1 as [|g l1 IH]; intros o H; simpl in H.
  - rewrite K in H. by destruct (match o with Some last => check_successor last f | None => None end).
  - destruct (match o with Some last => check_successor last g | None => None end); [done|]. by apply IH in H.
Qed.

(** Two positions of the list. *)
Lemma order_loop_pair o l i j f g :
  order_loop o l = None -> l !! i = Some f -> l !! j = Some g -> (i < j)%nat -> kept f = true ->
  (fork_timestamp f = None /\ blocks_only (take (j - i) (drop (S i) l))
   \/ times_only (take (j - i) (drop (S i) l))) ->
  follows f g.
Proof.
  intros H Hi Hj Hij K Hkind.
  rewrite <- (take_drop_middle l i f Hi) in H. apply order_loop_after in H; [|done].
  rewrite <- (take_drop (j - i) (drop (S i) l)) in H. apply order_loop_app in H as [H _].
  assert (g ∈ take (j - i) (drop (S i) l)) as Hg.
  { apply list_elem_of_lookup. exists (j - S i)%nat. rewrite lookup_take_lt by lia.
    rewrite lookup_drop. by replace (S i + (j - S i))%nat with j by lia. }
  destruct Hkind as [[Hf Hb]|Ht].
  - eapply list.Forall_forall in Hg; [|by apply order_loop_blocks]. done.
  - eapply list.Forall_forall in Hg; [|by apply order_loop_times]. done.
Qed.

Lemma order_valid c : CheckConfigForkOrder c = None -> order_loop None (fork_list c) = None.
Proof. unfold CheckConfigForkOrder. by destruct (order_loop _ _). Qed.

(** A fork that follows another is active only after it. *)
Lemma follows_block_active f g num :
  follows f g -> fork_timestamp f = None ->
  isBlockForked (fork_block g) num = true -> isBlockForked (fork_block f) num = true.
Proof.
  unfold follows, is_set, gt_opt, isBlockForked. intros H Ef Hg. rewrite Ef in H.
  destruct (fork_block g) as [b|]; [|done]. destruct num as [n|]; [|done].
  destruct (H eq_refl) as (Hs & H1 & _). destruct (fork_block f) as [a|]; [|done].
  apply Z.ltb_ge in H1. apply Z.leb_le in Hg. apply Z.leb_le. lia.
Qed.

Lemma follows_time_active f g t :
  follows f g -> fork_block f = None ->
  isTimestampForked (fork_timestamp g) t = true -> isTimestampForked (fork_timestamp f) t = true.
Proof.
  unfold follows, is_set, gt_opt, isTimestampForked. intros H Ef Hg. rewrite Ef in H.
  destruct (fork_timestamp g) as [b|]; [|done].
  assert (match fork_block g with Some _ => true | None => true end = true) as E by by destruct (fork_block g).
  destruct (H E) as (Hs & _ & H1). destruct (fork_timestamp f) as [a|]; [|done].
  apply Z.ltb_ge in H1. apply Z.leb_le in Hg. apply Z.leb_le. lia.
Qed.

Section Ordered.
Context (c : ChainConfig) (valid : CheckConfigForkOrder c = None).

Lemma block_forks_ordered i j f g num :
  fork_list c !! i = Some f -> fork_list c !! j = Some g -> (i < j < 15)%nat -> kept f = true ->
  isBlockForked (fork_block g) num = true -> isBlockForked (fork_block f) num = true.
Proof.
  intros Hi Hj Hij K.
  assert (Forall (fun f => fork_timestamp f = None) (take 15 (fork_list c))) as Hall by repeat constructor.
  assert (fork_timestamp f = None) as Ef.
  { apply (Forall_lookup_1 _ _ i f Hall). by rewrite lookup_take_lt by lia. }
  apply follows_block_active; [|done].
  eapply (order_loop_pair None (fork_list c) i j); [by apply order_valid|done..|lia|done|].
  left. split; [done|]. apply list.Forall_forall. intros x Hx.
  apply list_elem_of_lookup in Hx as [k Hk]. apply lookup_take_Some in Hk as [Hk Hlt]. rewrite lookup_drop in Hk.
  apply (Forall_lookup_1 _ _ (S i + k) x Hall). by rewrite lookup_take_lt by lia.
Qed.

Lemma time_forks_ordered i j f g t :
  fork_list c !! i = Some f -> fork_list c !! j = Some g -> (15 <= i < j)%nat -> kept f = true ->
  isTimestampForked (fork_timestamp g) t = true -> isTimestampForked (fork_timestamp f) t = true.
Proof.
  intros Hi Hj Hij K.
  assert (Forall (fun f => fork_block f = None) (drop 15 (fork_list c))) as Hall by repeat constructor.
  assert (forall k x, (15 <= k)%nat -> fork_list c !! k = Some x -> fork_block x = None) as Hk.
  { intros k x Hk Hx. apply (Forall_lookup_1 _ _ (k - 15) x Hall).
    rewrite lookup_drop. by replace (15 + (k - 15))%nat with k by lia. }
  apply follows_time_active; [|apply (Hk i f); [lia|done]].
  eapply (order_loop_pair None (fork_list c) i j); [by apply order_valid|done..|lia|done|].
  right. apply list.Forall_forall. intros x Hx.
  apply list_elem_of_lookup in Hx as [k Hx]. apply lookup_take_Some in Hx as [Hx _]. rewrite lookup_drop in Hx.
  apply (Hk (S i + k)%nat x); [lia|done].
Qed.
End Ordered.

(** The forks of [Rules], each only together with the ones before it.  The forks from
    Cancun on are optional: one that is not scheduled is skipped. *)
Record forks_in_order (c : ChainConfig) (r : Rules) : Prop := {
  fo_EIP150 : IsEIP150 r -> IsHomestead r;
  fo_EIP155 : IsEIP155 r -> IsEIP150 r;
  fo_EIP158 : IsEIP158 r -> IsEIP155 r;
  fo_Byzantium : IsByzantium r -> IsEIP158 r;
  fo_Constantinople : IsConstantinople r -> IsByzantium r;
  fo_Petersburg : IsPetersburg r -> IsConstantinople r;
  fo_Istanbul : IsIstanbul r -> IsPetersburg r;
  fo_Berlin : IsBerlin r -> IsIstanbul r;
  fo_London : IsLondon r -> IsBerlin r;
  fo_Merge : IsMerge r -> IsLondon r;
  fo_Shanghai : IsShanghai r -> IsMerge r;
  fo_Cancun : IsCancun r -> IsShanghai r;
  fo_Prague : IsPrague r -> IsShanghai r /\ (CancunTime c <> None -> IsCancun r);
  fo_Osaka : IsOsaka r -> IsShanghai r /\ (CancunTime c <> None -> IsCancun r)
                          /\ (PragueTime c <> None -> IsPrague r);
  fo_Verkle : IsVerkle r -> IsShanghai r /\ (OsakaTime c <> None -> IsOsaka r);
  fo_Amsterdam : IsAmsterdam r -> IsShanghai r /\ (OsakaTime c <> None -> IsOsaka r)
}.

(** The block forks before London, and what the timestamps of the later forks imply;
    a fork that may be skipped has to be scheduled. *)
Lemma block_forks_rules c num :
  CheckConfigForkOrder c = None -> Config.IsArbitrum c = false ->
  (Config.IsEIP150 c num -> Config.IsHomestead c num)
  /\ (Config.IsEIP155 c num -> Config.IsEIP150 c num)
  /\ (Config.IsEIP158 c num -> Config.IsEIP155 c num)
  /\ (Config.IsByzantium c num -> Config.IsEIP158 c num)
  /\ (Config.IsConstantinople c num -> Config.IsByzantium c num)
  /\ (isBlockForked (PetersburgBlock c) num -> Config.IsConstantinople c num)
  /\ (Config.IsIstanbul c num -> isBlockForked (PetersburgBlock c) num)
  /\ (Config.IsBerlin c num -> Config.IsIstanbul c num)
  /\ (Config.IsLondon c num -> Config.IsBerlin c num).
Proof.
  intros Hv Harb. unfold Config.IsLondon. rewrite Harb, !Is_true_true.
  pose proof (fun i j f g => block_forks_ordered c Hv i j f g num) as HB.
  pose (B i j := fun f g Hi Hj Hij K => HB i j f g Hi Hj Hij K).
  split_and!;
    [ exact (B 0%nat 2%nat _ _ eq_refl eq_refl ltac:(lia) eq_refl)
    | exact (B 2%nat 3%nat _ _ eq_refl eq_refl ltac:(lia) eq_refl)
    | exact (B 3%nat 4%nat _ _ eq_refl eq_refl ltac:(lia) eq_refl)
    | exact (B 4%nat 5%nat _ _ eq_refl eq_refl ltac:(lia) eq_refl)
    | exact (B 5%nat 6%nat _ _ eq_refl eq_refl ltac:(lia) eq_refl)
    | exact (B 6%nat 7%nat _ _ eq_refl eq_refl ltac:(lia) eq_refl)
    | exact (B 7%nat 8%nat _ _ eq_refl eq_refl ltac:(lia) eq_refl)
    | exact (B 8%nat 10%nat _ _ eq_refl eq_refl ltac:(lia) eq_refl)
    | exact (B 10%nat 11%nat _ _ eq_refl eq_refl ltac:(lia) eq_refl) ].
Qed.

Lemma time_forks_rules c time :
  CheckConfigForkOrder c = None ->
  let on t := isTimestampForked t time = true in
  (on (CancunTime c) -> on (ShanghaiTime c))
  /\ (on (PragueTime c) -> on (ShanghaiTime c) /\ (CancunTime c <> None -> on (CancunTime c)))
  /\ (on (OsakaTime c) -> on (ShanghaiTime c) /\ (CancunTime c <> None -> on (CancunTime c))
                          /\ (PragueTime c <> None -> on (PragueTime c)))
  /\ (on (VerkleTime c) -> on (ShanghaiTime c) /\ (OsakaTime c <> None -> on (OsakaTime c)))
  /\ (on (AmsterdamTime c) -> on (ShanghaiTime c) /\ (OsakaTime c <> None -> on (OsakaTime c))).
Proof.
  intros Hv on. subst on.
  pose proof (fun i j f g => time_forks_ordered c Hv i j f g time) as HT.
  assert (forall n t, t <> None -> kept (at_time_opt n t) = true) as K by by intros ? [].
  split_and!.
  - exact (HT 15 16 _ _ eq_refl eq_refl ltac:(lia) eq_refl)%nat.
  - intros H. split; [exact (HT 15 17 _ _ eq_refl eq_refl ltac:(lia) eq_refl H)%nat|].
    intros Hs. exact (HT 16 17 _ _ eq_refl eq_refl ltac:(lia) (K _ _ Hs) H)%nat.
  - intros H. split; [exact (HT 15 18 _ _ eq_refl eq_refl ltac:(lia) eq_refl H)%nat|]. split; intros Hs.
    + exact (HT 16 18 _ _ eq_refl eq_refl ltac:(lia) (K _ _ Hs) H)%nat.
    + exact (HT 17 18 _ _ eq_refl eq_refl ltac:(lia) (K _ _ Hs) H)%nat.
  - intros H. split; [exact (HT 15 19 _ _ eq_refl eq_refl ltac:(lia) eq_refl H)%nat|].
    intros Hs. exact (HT 18 19 _ _ eq_refl eq_refl ltac:(lia) (K _ _ Hs) H)%nat.
  - intros H. split; [exact (HT 15 25 _ _ eq_refl eq_refl ltac:(lia) eq_refl H)%nat|].
    intros Hs. exact (HT 18 25 _ _ eq_refl eq_refl ltac:(lia) (K _ _ Hs) H)%nat.
Qed.

(** C29.  A configuration of a chain without ArbOS that passes CheckConfigForkOrder
    activates its forks in order, at every block and timestamp: no fork is active without the ones it builds on.  Of
    the forks scheduled by time all but Shanghai may be left out, and then are skipped. *)
Theorem valid_config_orders_forks c num isMerge time version :
  CheckConfigForkOrder c = None -> Config.IsArbitrum c = false ->
  forks_in_order c (Config.Rules c num isMerge time version).
Proof.
  intros Hv Harb.
  pose proof (block_forks_rules c num Hv Harb) as HB. pose proof (time_forks_rules c time Hv) as HT.
  cbv zeta in HT. destruct_and! HB. destruct_and! HT.
  split; simpl; unfold Config.IsPetersburg, Config.IsShanghai, Config.IsCancun, Config.IsPrague,
    Config.IsOsaka, Config.IsVerkle, Config.IsAmsterdam; rewrite ?Harb; try done.
  - destruct (PetersburgBlock c); [|done]. rewrite orb_false_r. done.
  - intros Hi. apply orb_True. left. eauto.
  - rewrite !Is_true_true, !andb_true_iff. naive_solver.
  - rewrite !Is_true_true, !andb_true_iff. naive_solver.
  - rewrite !Is_true_true, !andb_true_iff. naive_solver.
  - rewrite !Is_true_true, !andb_true_iff. naive_solver.
  - rewrite !Is_true_true, !andb_true_iff. naive_solver.
  - rewrite !Is_true_true, !andb_true_iff. naive_solver.
  - rewrite !Is_true_true, !andb_true_iff. naive_solver.
Qed.

Lemma valid_config_orders_forks_witness :
  CheckConfigForkOrder MainnetChainConfig = None
  /\ forks_in_order MainnetChainConfig (Config.Rules MainnetChainConfig (Some 20000000) true 1750000000 0).
Proof. split; [by vm_compute|]. apply valid_config_orders_forks; [by vm_compute|done]. Defined.

(** On a chain with ArbOS London is active from the genesis block on, whether or not Berlin is scheduled, and the check
    of the order does not see that. *)
Example arbitrum_london_without_berlin :
  let c := mkChainConfig (Some 412346) (Some 0) None false (Some 0) (Some 0) (Some 0) (Some 0) (Some 0) (Some 0) (Some 0)
    None None None None None None None None None None None None None None None None None None 0 false None
    (mkArbitrumChainParams true false false 1 0 0 0 0 0) in
  let r := Config.Rules c (Some 10) true 0 1 in
  CheckConfigForkOrder c = None /\ Config.IsArbitrum c = true /\ IsLondon r = true /\ IsBerlin r = false.
Proof. by vm_compute. Qed.

(** ** Compatible configurations *)

Lemma first_failure_None {E} (l : list (option E)) : first_failure l = None <-> Forall (fun o => o = None) l.
Proof.
  unfold first_failure. induction l as [|[e|] l IH]; simpl.
  - by split; constructor.
  - split; [done|]. by inversion 1.
  - rewrite IH. split; [by constructor|by inversion 1].
Qed.

Lemma first_failure_app {E} (l1 l2 : list (option E)) :
  first_failure (l1 ++ l2) = match first_failure l1 with Some e => Some e | None => first_failure l2 end.
Proof. unfold first_failure. induction l1 as [|[e|] l1 IH]; simpl; done. Qed.

Lemma block_check_None what s1 s2 head : block_check what s1 s2 head = None <->
  isForkBlockIncompatible s1 s2 head = false.
Proof. unfold block_check. by destruct (isForkBlockIncompatible _ _ _). Qed.

Lemma time_check_None what s1 s2 head : time_check what s1 s2 head = None <->
  isForkTimestampIncompatible s1 s2 head = false.
Proof. unfold time_check. by destruct (isForkTimestampIncompatible _ _ _). Qed.

Lemma flag_check_None what bad s1 s2 : flag_check what bad s1 s2 = None <-> bad = false.
Proof. unfold flag_check. by destruct bad. Qed.

(** Up to the head, compatible schedules activate a fork at the same blocks. *)
Lemma block_compatible s1 s2 h num :
  isForkBlockIncompatible s1 s2 (Some h) = false -> num <= h ->
  isBlockForked s1 (Some num) = isBlockForked s2 (Some num).
Proof.
  unfold isForkBlockIncompatible, isBlockForked, configBlockEqual.
  destruct s1 as [a|], s2 as [b|]; simpl; rewrite ?andb_true_r, ?andb_false_r, ?orb_false_r; try done;
    intros H Hn; split_cmp; try done; lia.
Qed.

Lemma time_compatible s1 s2 h t :
  isForkTimestampIncompatible s1 s2 h = false -> t <= h ->
  isTimestampForked s1 t = isTimestampForked s2 t.
Proof.
  unfold isForkTimestampIncompatible, isTimestampForked, configTimestampEqual.
  destruct s1 as [a|], s2 as [b|]; simpl; rewrite ?andb_true_r, ?andb_false_r, ?orb_false_r; try done;
    intros H Hn; split_cmp; try done; lia.
Qed.

(** The block of Petersburg, which is that of Constantinople when it is nil. *)
Definition petersburg (c : ChainConfig) : option Z :=
  match PetersburgBlock c with Some b => Some b | None => ConstantinopleBlock c end.

Lemma IsPetersburg_block c num : Config.IsPetersburg c num = isBlockForked (petersburg c) num.
Proof. unfold Config.IsPetersburg, petersburg. destruct (PetersburgBlock c); simpl; [by rewrite orb_false_r|done]. Qed.

Definition without_chain_id (r : Rules) : Rules :=
  mkRules (IsArbitrum r) (IsStylus r) (IsGreaterEqual41 r) (IsDia r) (IsGreaterEqual60 r) 0
    (ArbOSVersion r) (IsHomestead r) (IsEIP150 r) (IsEIP155 r) (IsEIP158 r) (IsEIP2929 r)
    (IsEIP4762 r) (IsByzantium r) (IsConstantinople r) (IsPetersburg r) (IsIstanbul r)
    (IsBerlin r) (IsLondon r) (IsMerge r) (IsShanghai r) (IsCancun r) (IsPrague r) (IsOsaka r)
    (IsAmsterdam r) (IsVerkle r).

(** What the checks establish. *)
Lemma checkCompatible_None c new h t : checkCompatible c new (Some h) t = None ->
  let same_block f := forall num, num <= h ->
    isBlockForked (f c) (Some num) = isBlockForked (f new) (Some num) in
  let same_time f := forall time, time <= t ->
    isTimestampForked (f c) time = isTimestampForked (f new) time in
  (same_block HomesteadBlock /\ same_block EIP150Block /\ same_block EIP155Block /\ same_block EIP158Block
   /\ same_block ByzantiumBlock /\ same_block ConstantinopleBlock /\ same_block IstanbulBlock
   /\ same_block BerlinBlock /\ same_block LondonBlock)
  /\ (same_time ShanghaiTime /\ same_time CancunTime /\ same_time PragueTime /\ same_time OsakaTime
      /\ same_time VerkleTime /\ same_time AmsterdamTime)
  /\ checkArbitrumCompatible c new = None
  /\ (Config.IsEIP158 c (Some h) = true -> cfg_ChainID c = cfg_ChainID new).
Proof.
  unfold checkCompatible. rewrite first_failure_app. intros H.
  destruct (first_failure (block_checks _ _ _)) eqn:HB; [done|]. apply first_failure_None in HB, H.
  unfold block_checks in HB. unfold time_checks in H. cbv zeta in HB, H.
  repeat match goal with
  | HF : Forall _ (_ :: _) |- _ => apply List.Forall_cons_iff in HF as [? HF]
  end.
  rewrite ?block_check_None, ?time_check_None, ?flag_check_None in *.
  split_and!; intros; eauto using block_compatible, time_compatible.
  match goal with HC : (Config.IsEIP158 _ _ && _ = false) |- _ => rename HC into Hchain end.
  destruct (Config.IsEIP158 c (Some h)); [|done]. simpl in Hchain. apply negb_false_iff in Hchain.
  unfold configBlockEqual in Hchain. destruct (cfg_ChainID c), (cfg_ChainID new); try done.
  apply Z.eqb_eq in Hchain. by subst.
Qed.

(** A configuration that checkCompatible accepts for a chain replaces the stored one
    without changing its past: at every block and timestamp up to the head of the chain
    both give the same rules, the chain identifier included once EIP-158 is active.
    Petersburg, which the check treats more loosely, has to be compatible too. *)
Theorem compatible_configs_same_rules c new h t :
  checkCompatible c new (Some h) t = None ->
  isForkBlockIncompatible (petersburg c) (petersburg new) (Some h) = false ->
  forall num isMerge time version, num <= h -> time <= t ->
    let r c := Config.Rules c (Some num) isMerge time version in
    without_chain_id (r c) = without_chain_id (r new)
    /\ (Config.IsEIP158 c (Some h) = true -> r c = r new).
Proof.
  intros Hc Hp num isMerge time version Hn Ht r.
  destruct (checkCompatible_None c new h t Hc) as (HB & HT & Harb & Hid). destruct_and! HB. destruct_and! HT.
  assert (Config.IsArbitrum c = Config.IsArbitrum new
    /\ Config.IsLondon c (Some num) = Config.IsLondon new (Some num)) as [EA EL].
  { unfold checkArbitrumCompatible in Harb. unfold Config.IsLondon.
    destruct (Config.IsArbitrum c), (Config.IsArbitrum new); simpl in Harb; try done; split; auto.
    destruct (Z.eqb_spec (GenesisBlockNum (arbitrum c)) (GenesisBlockNum (arbitrum new))) as [->|]; done. }
  assert (Config.IsPetersburg c (Some num) = Config.IsPetersburg new (Some num)) as EP
    by (rewrite !IsPetersburg_block; by eapply block_compatible).
  assert (without_chain_id (r c) = without_chain_id (r new)) as E.
  { unfold r, without_chain_id, Config.Rules, Config.IsShanghai, Config.IsCancun, Config.IsPrague,
      Config.IsOsaka, Config.IsVerkle, Config.IsAmsterdam, Config.IsHomestead, Config.IsEIP150,
      Config.IsEIP155, Config.IsEIP158, Config.IsByzantium, Config.IsConstantinople,
      Config.IsIstanbul, Config.IsBerlin. simpl. rewrite EA, EL, EP.
    repeat match goal with
    | Hq : forall n, n <= h -> _ |- _ => rewrite (Hq num Hn); clear Hq
    | Hq : forall n, n <= t -> _ |- _ => rewrite (Hq time Ht); clear Hq
    end. done. }
  split; [done|]. intros H158. unfold r, without_chain_id, Config.Rules in *. simpl in *.
  rewrite (Hid H158). injection E. intros. f_equal; done.
Qed.

(** A configuration given by a few of its forks. *)
Definition simple_config (homestead constantinople petersburg shanghai : option Z)
    (arb : ArbitrumChainParams) : ChainConfig :=
  mkChainConfig (Some 1) homestead None false homestead homestead homestead homestead
    constantinople petersburg None None None None None None None
    shanghai None None None None None None None None None None None 0 false None arb.

Lemma compatible_configs_same_rules_witness :
  let c := simple_config (Some 0) (Some 5) (Some 5) None DisableArbitrumParams in
  let new := simple_config (Some 0) (Some 5) (Some 5) (Some 1000) DisableArbitrumParams in
  checkCompatible c new (Some 20) 900 = None /\ c <> new
  /\ Config.Rules c (Some 10) true 800 0 = Config.Rules new (Some 10) true 800 0.
Proof.
  intros c new. split; [done|]. split; [done|].
  refine (proj2 (compatible_configs_same_rules c new 20 900 eq_refl eq_refl 10 true 800 0 _ _) eq_refl); lia.
Defined.

(** The loose treatment of Petersburg accepts a change of the past: here the stored chain
    has run blocks 5 to 9 without the fork. *)
Example petersburg_moved_into_the_past :
  let c := simple_config (Some 0) (Some 5) (Some 10) None DisableArbitrumParams in
  let new := simple_config (Some 0) (Some 5) (Some 5) None DisableArbitrumParams in
  CheckConfigForkOrder c = None /\ CheckConfigForkOrder new = None
  /\ checkCompatible c new (Some 20) 0 = None
  /\ Config.IsPetersburg c (Some 7) = false /\ Config.IsPetersburg new (Some 7) = true.
Proof. by vm_compute. Qed.

(** ** The loop of CheckCompatible *)

(** What the errors of the checks rewind to: before the head, or to the genesis. *)
Definition rewinds (b t : Z) (e : ConfigCompatError) : Prop :=
  (RewindToTime e = 0 /\ 0 <= RewindToBlock e /\ (RewindToBlock e = 0 \/ RewindToBlock e < b))
  \/ (RewindToBlock e = 0 /\ 0 <= RewindToTime e < t).

Lemma newBlockCompatError_rewinds what s1 s2 b t :
  is_u64 b -> isBlockForked s1 (Some b) || isBlockForked s2 (Some b) = true ->
  rewinds b t (newBlockCompatError what s1 s2).
Proof.
  unfold rewinds, newBlockCompatError, isBlockForked, earlier. intros Hb H. simpl. left.
  destruct s1 as [x|], s2 as [y|]; simpl in *; split_cmp; try done; unfold_u64; go_lia.
Qed.

Definition nonneg (o : option Z) : Prop := match o with Some x => 0 <= x | None => True end.

Lemma newTimestampCompatError_rewinds what s1 s2 b t :
  nonneg s1 -> nonneg s2 -> isTimestampForked s1 t || isTimestampForked s2 t = true ->
  rewinds b t (newTimestampCompatError what s1 s2).
Proof.
  unfold rewinds, newTimestampCompatError, isTimestampForked, earlier, nonneg. intros H1 H2 H. simpl.
  destruct s1 as [x|], s2 as [y|]; simpl in *; split_cmp; try done; lia.
Qed.

(** The Arbitrum parameters whose errors do not depend on the head. *)
Definition same_arbitrum_params (c new : ChainConfig) : Prop :=
  Config.IsArbitrum c = true -> Config.IsArbitrum new = true ->
  GenesisBlockNum (arbitrum c) = GenesisBlockNum (arbitrum new)
  /\ acp_MaxUncompressedBatchSize (arbitrum c) = acp_MaxUncompressedBatchSize (arbitrum new).

Definition times_wf (c : ChainConfig) : Prop := Forall (fun f => nonneg (fork_timestamp f)) (time_forks c).

Definition all_rewind (b t : Z) (l : list (option ConfigCompatError)) : Prop :=
  Forall (fun o => forall e, o = Some e -> rewinds b t e) l.

Lemma first_failure_Some {E} (P : E -> Prop) (l : list (option E)) e :
  Forall (fun o => forall e, o = Some e -> P e) l -> first_failure l = Some e -> P e.
Proof.
  unfold first_failure. induction 1 as [|[e'|] l H Hl IH]; simpl; intros E'; [done| |by apply IH].
  injection E' as ->. by apply H.
Qed.

Lemma flag_check_rewinds what bad s1 s2 b t e :
  is_u64 b -> (bad = true -> isBlockForked s1 (Some b) || isBlockForked s2 (Some b) = true) ->
  flag_check what bad s1 s2 = Some e -> rewinds b t e.
Proof.
  unfold flag_check. intros Hb Hbad He. destruct bad; [|done]. injection He as <-.
  apply newBlockCompatError_rewinds; auto.
Qed.

Lemma block_check_rewinds what s1 s2 b t e :
  is_u64 b -> block_check what s1 s2 (Some b) = Some e -> rewinds b t e.
Proof.
  intros Hb. apply flag_check_rewinds; [done|]. unfold isForkBlockIncompatible.
  by intros [? _]%andb_true_iff.
Qed.

Lemma time_check_rewinds what s1 s2 b t e :
  nonneg s1 -> nonneg s2 -> time_check what s1 s2 t = Some e -> rewinds b t e.
Proof.
  intros H1 H2. unfold time_check, isForkTimestampIncompatible.
  destruct (_ && _) eqn:HE; [|done]. apply andb_true_iff in HE as [? _]. intros [= <-].
  by apply newTimestampCompatError_rewinds.
Qed.

Lemma arbitrum_check_rewinds c new b t e :
  same_arbitrum_params c new -> checkArbitrumCompatible c new = Some e -> rewinds b t e.
Proof.
  unfold checkArbitrumCompatible, same_arbitrum_params. intros Harb He.
  destruct (Config.IsArbitrum c), (Config.IsArbitrum new); simpl in He; try done;
    try (injection He as <-; left; simpl; lia).
  destruct (Harb eq_refl eq_refl) as [E1 E2]. by rewrite E1, E2, !Z.eqb_refl in He.
Qed.

Ltac each_check :=
  repeat apply List.Forall_cons; try apply List.Forall_nil; intros ?e ?He; cbv beta in *.

Lemma block_checks_rewind c new b t :
  is_u64 b -> same_arbitrum_params c new -> all_rewind b t (block_checks c new (Some b)).
Proof.
  intros Hb Harb. unfold all_rewind, block_checks.
  each_check; try (by eapply block_check_rewinds); try (by eapply arbitrum_check_rewinds);
    (eapply flag_check_rewinds; [done| |done]); intros [H _]%andb_true_iff.
  - unfold Config.IsDAOFork in H. by rewrite H.
  - unfold Config.IsEIP158 in H. by rewrite H.
  - unfold isForkBlockIncompatible in H. by apply andb_true_iff in H as [? _].
Qed.

Lemma time_checks_rewind c new b t :
  times_wf c -> times_wf new -> all_rewind b t (time_checks c new t).
Proof.
  unfold times_wf, time_forks, all_rewind, time_checks. intros Hc Hn.
  repeat match goal with
  | HF : Forall _ (_ :: _) |- _ => apply List.Forall_cons_iff in HF as [? HF]
  end.
  each_check; (eapply time_check_rewinds; [..|done]); done.
Qed.

Lemma checkCompatible_rewinds c new b t e :
  is_u64 b -> same_arbitrum_params c new -> times_wf c -> times_wf new ->
  checkCompatible c new (Some b) t = Some e -> rewinds b t e.
Proof.
  intros. eapply first_failure_Some; [|done].
  apply Forall_app. split; [by apply block_checks_rewind|by apply time_checks_rewind].
Qed.

(** The loop ends at a head where the configurations are compatible, at or before where
    it started, unless they conflict at the genesis already; the head is the one the
    error returned rewinds to. *)
Definition rewound (c new : ChainConfig) (height time : Z) (err : ConfigCompatError) : Prop :=
  (RewindToBlock err = 0 /\ RewindToTime err = 0)
  \/ exists b t, 0 <= b <= height /\ 0 <= t <= time /\ checkCompatible c new (Some b) t = None
     /\ (b = RewindToBlock err \/ 0 < RewindToTime err /\ t = RewindToTime err).

Definition at_error (last : option ConfigCompatError) (b t : Z) : Prop :=
  match last with
  | None => True
  | Some l => 0 < RewindToTime l /\ t = RewindToTime l
              \/ RewindToTime l = 0 /\ b = RewindToBlock l
  end.

(** The steps left: rewinding to the genesis happens once. *)
Definition steps_left (b t : Z) (last : option ConfigCompatError) : Z :=
  2 * (b + t) + match last with
                | Some l => if (RewindToBlock l =? 0) && (RewindToTime l =? 0) then 0 else 1
                | None => 1
                end.

(** The head after an error. *)
Definition next_head (b t : Z) (e : ConfigCompatError) : Z * Z :=
  if 0 <? RewindToTime e then (b, RewindToTime e) else (RewindToBlock e, t).

Lemma next_head_spec b t e last :
  is_u64 b -> 0 <= t -> rewinds b t e ->
  match last with Some l => same_rewind e l = false | None => True end ->
  let '(b', t') := next_head b t e in
  0 <= b' <= b /\ 0 <= t' <= t /\ at_error (Some e) b' t'
  /\ 0 <= steps_left b' t' (Some e) < steps_left b t last.
Proof.
  unfold is_u64, rewinds, next_head, at_error, steps_left, same_rewind. intros Hb Ht Hr Hl.
  destruct last as [l|]; [apply andb_false_iff in Hl|]; split_cmp; lia.
Qed.

Lemma repeated_error b t e l :
  rewinds b t e -> at_error (Some l) b t -> same_rewind e l = true ->
  RewindToBlock l = 0 /\ RewindToTime l = 0.
Proof.
  unfold rewinds, at_error, same_rewind. intros Hr Ha [E1%Z.eqb_eq E2%Z.eqb_eq]%andb_true_iff. lia.
Qed.

Lemma compat_loop_spec c new fuel b t last :
  same_arbitrum_params c new -> times_wf c -> times_wf new ->
  is_u64 b -> 0 <= t -> at_error last b t -> steps_left b t last < Z.of_nat fuel ->
  exists r, compat_loop fuel c new b t last = Some r
    /\ match r with
       | None => last = None /\ checkCompatible c new (Some b) t = None
       | Some e => rewound c new b t e /\ (last = None -> checkCompatible c new (Some b) t <> None)
       end.
Proof.
  intros Harb Hc Hn. revert b t last. induction fuel as [|fuel IH]; intros b t last Hb Ht Hl Hf.
  { unfold steps_left, is_u64 in *. repeat case_match; lia. }
  simpl. destruct (checkCompatible c new (Some b) t) as [e|] eqn:E.
  - pose proof (checkCompatible_rewinds c new b t e Hb Harb Hc Hn E) as Hr.
    destruct (match last with Some l => same_rewind e l | None => false end) eqn:Hs.
    + destruct last as [l|]; [|done]. exists (Some l). split; [done|]. split; [|done]. left.
      by eapply repeated_error.
    + pose proof (next_head_spec b t e last Hb Ht Hr ltac:(by destruct last)) as Hnh. unfold next_head in Hnh.
      assert (forall b' t', 0 <= b' <= b /\ 0 <= t' <= t /\ at_error (Some e) b' t'
        /\ steps_left b' t' (Some e) < steps_left b t last ->
        exists r, compat_loop fuel c new b' t' (Some e) = Some r /\
          match r with
          | None => last = None /\ Some e = None
          | Some e => rewound c new b t e /\ (last = None -> Some e <> None)
          end) as Hnext.
      { intros b' t' (? & ? & ? & ?).
        destruct (IH b' t' (Some e)) as (r & -> & Hres); [unfold is_u64 in *; lia|lia|done|lia|].
        exists r. split; [done|]. destruct r as [e'|]; [|by destruct Hres].
        destruct Hres as [[?|(b2 & t2 & ? & ? & ? & ?)] _]; (split; [|done]); [by left|].
        right. exists b2, t2. repeat split; try done; lia. }
      destruct (0 <? RewindToTime e); destruct Hnh as (? & ? & ? & ?);
        (edestruct Hnext as (r & -> & Hres);
           [split_and!; [lia|lia|lia|lia|eassumption|lia]|exists r; split; [done|]; destruct r; naive_solver]).
  - exists last. split; [done|]. destruct last as [l|]; [|done]. split; [|done]. right.
    exists b, t. unfold is_u64 in Hb. repeat split; try done; try lia. simpl in Hl. lia.
Qed.

(** CheckCompatible terminates when the Arbitrum parameters agree.  It returns nil
    exactly when the new configuration is compatible at the head; otherwise the head it
    rewound to, which the error names in block or in time, is compatible and not above
    the original one, unless the configurations conflict at the genesis. *)
Theorem CheckCompatible_returns c new height time :
  same_arbitrum_params c new -> times_wf c -> times_wf new -> is_u64 height -> 0 <= time ->
  exists fuel r, CheckCompatible fuel c new height time = Some r
    /\ match r with
       | None => checkCompatible c new (Some height) time = None
       | Some err => checkCompatible c new (Some height) time <> None /\ rewound c new height time err
       end.
Proof.
  intros Harb Hc Hn Hh Ht. exists (Z.to_nat (2 * (height + time) + 2)).
  edestruct (compat_loop_spec c new (Z.to_nat (2 * (height + time) + 2)) height time None)
    as (r & Er & Hr); try done.
  - unfold steps_left, is_u64 in *. lia.
  - exists r. split; [done|]. destruct r as [e|]; [|by destruct Hr]. destruct Hr as [? H]. split; [by apply H|done].
Qed.

Lemma CheckCompatible_returns_witness :
  let c := simple_config (Some 10) (Some 20) (Some 20) None DisableArbitrumParams in
  let new := simple_config (Some 12) (Some 20) (Some 20) None DisableArbitrumParams in
  checkCompatible c new (Some 15) 0 <> None
  /\ exists fuel r, CheckCompatible fuel c new 15 0 = Some (Some r) /\ rewound c new 15 0 r.
Proof.
  intros c new. split; [done|].
  destruct (CheckCompatible_returns c new 15 0) as (fuel & r & E & H);
    [done|by repeat constructor|by repeat constructor|done|done|].
  destruct r as [r|]; [exists fuel, r; naive_solver|by vm_compute in H].
Defined.

(** CheckCompatible may loop forever.  The error for a changed Arbitrum genesis block
    rewinds to before that block even when the head is lower, and so moves the head up; an
    earlier conflict, here the rescheduled Homestead, moves it down again, at every height
    of the chain. *)
Theorem CheckCompatible_may_not_return :
  let arb n := mkArbitrumChainParams true false false 1 0 n 0 0 0 in
  let c := simple_config (Some 5) (Some 7) (Some 7) None (arb 10) in
  let new := simple_config (Some 6) (Some 7) (Some 7) None (arb 20) in
  forall fuel height, CheckCompatible fuel c new height 0 = None.
Proof.
  intros arb c new fuel height. unfold CheckCompatible.
  set (e9 := newBlockCompatError "genesisblocknum" (Some 10) (Some 20)).
  set (e4 := newBlockCompatError "Homestead fork block" (Some 5) (Some 6)).
  assert (forall n, compat_loop n c new 9 0 (Some e9) = None /\ compat_loop n c new 4 0 (Some e4) = None) as H.
  { intros n. induction n as [|n [IH1 IH2]]; [done|]. split; [exact IH2|exact IH1]. }
  destruct fuel as [|n]; [done|]. destruct (H n) as [H9 H4].
  assert (checkCompatible c new (Some height) 0 = Some (if 5 <=? height then e4 else e9)) as E.
  { unfold checkCompatible, first_failure, block_checks, block_check, isForkBlockIncompatible,
      Config.IsDAOFork, Config.IsEIP158. simpl. split_cmp; done || lia. }
  simpl. rewrite E. by destruct (5 <=? height).
Qed.

(** The error returned is the last one found, not the lowest: here the time it names is
    after block 150, while the conflict of Homestead is at block 100. *)
Example time_error_hides_block_error :
  let c := simple_config (Some 100) (Some 500) (Some 500) (Some 1000) DisableArbitrumParams in
  let new := simple_config (Some 120) (Some 500) (Some 500) (Some 1100) DisableArbitrumParams in
  match CheckCompatible 5 c new 200 2000 with
  | Some (Some err) => RewindToBlock err = 0 /\ RewindToTime err = 999
      /\ checkCompatible c new (Some 150) 999 <> None
  | _ => False
  end.
Proof. by vm_compute. Qed.

(** The blob schedule that Amsterdam needs is never looked up. *)
Example amsterdam_blob_config :
  let cfg := mkBlobConfig 21 32 20609697 in
  let with_blobs c := mkChainConfig (cfg_ChainID c) (Some 0) None false (Some 0) (Some 0) (Some 0) (Some 0)
    (Some 0) (Some 0) (Some 0) None (Some 0) (Some 0) None None None (Some 0) (Some 0) (Some 0) (Some 0)
    None None None None None (Some 0) None None 0 false
    (Some (mkBlobScheduleConfig (Some cfg) (Some cfg) (Some cfg) None None None None None None (Some cfg)))
    DisableArbitrumParams in
  let c := with_blobs NonActivatedConfig in
  CheckConfigForkOrder c = None /\ LatestFork c 0 0 = Amsterdam /\ ForkBlobConfig c Amsterdam = Some None.
Proof. by vm_compute. Qed.
