(* ===== verification/MultiGas.v ===== *)
(** Multi-dimensional gas: [arbitrum/multigas/resources.go].

    [MultiGas] is the record of the same name: nine per-kind counters, the
    one-dimensional total and the refund.  The operations are the package's;
    the second component of a pair is the overflow (underflow) flag of the Go
    result. *)

From stdpp Require Import base list numbers option.
From S2P Require Import Prelude.
Open Scope Z_scope.

(** ** Data *)

Inductive ResourceKind :=
| ResourceKindUnknown
| ResourceKindComputation
| ResourceKindHistoryGrowth
| ResourceKindStorageAccessRead
| ResourceKindStorageAccessWrite
| ResourceKindStorageGrowth
| ResourceKindSingleDim
| ResourceKindL2Calldata
| ResourceKindWasmComputation.

Definition NumResourceKind : nat := 9.

(** The [iota] value of a kind: its index in the gas array. *)
Definition kind_index (k : ResourceKind) : nat :=
  match k with
  | ResourceKindUnknown => 0
  | ResourceKindComputation => 1
  | ResourceKindHistoryGrowth => 2
  | ResourceKindStorageAccessRead => 3
  | ResourceKindStorageAccessWrite => 4
  | ResourceKindStorageGrowth => 5
  | ResourceKindSingleDim => 6
  | ResourceKindL2Calldata => 7
  | ResourceKindWasmComputation => 8
  end.

Definition all_kinds : list ResourceKind :=
  [ResourceKindUnknown; ResourceKindComputation; ResourceKindHistoryGrowth;
   ResourceKindStorageAccessRead; ResourceKindStorageAccessWrite;
   ResourceKindStorageGrowth; ResourceKindSingleDim; ResourceKindL2Calldata;
   ResourceKindWasmComputation].

#[global] Instance ResourceKind_eq_dec : EqDecision ResourceKind.
Proof. solve_decision. Defined.

Record MultiGas := mkMultiGas {
  gas : list Z;
  total : Z;
  refund : Z
}.

#[global] Instance MultiGas_eq_dec : EqDecision MultiGas.
Proof. solve_decision. Defined.

(** [CheckResourceKind]: [None] is the "invalid resource id" error. *)
Definition CheckResourceKind (id : Z) : option ResourceKind :=
  if (id <=? 0) || (9 <=? id) then None else all_kinds !! Z.to_nat id.

(** ** Scalar helpers *)

Definition saturatingScalarAdd (a b : Z) : Z * bool :=
  let '(sum, carry) := Add64 a b in
  if negb (carry =? 0) then (MaxUint64, true) else (sum, false).

Definition saturatingScalarSub (a b : Z) : Z * bool :=
  let '(diff, borrow) := Sub64 a b in
  if negb (borrow =? 0) then (0, true) else (diff, false).

(** ** Constructors *)

Definition ZeroGas : MultiGas := mkMultiGas (replicate NumResourceKind 0) 0 0.

Definition NewMultiGas (kind : ResourceKind) (amount : Z) : MultiGas :=
  mkMultiGas (<[kind_index kind := amount]> (replicate NumResourceKind 0)) amount 0.

Definition ComputationGas := NewMultiGas ResourceKindComputation.
Definition HistoryGrowthGas := NewMultiGas ResourceKindHistoryGrowth.
Definition StorageAccessReadGas := NewMultiGas ResourceKindStorageAccessRead.
Definition StorageAccessWriteGas := NewMultiGas ResourceKindStorageAccessWrite.
Definition StorageGrowthGas := NewMultiGas ResourceKindStorageGrowth.
Definition SingleDimGas := NewMultiGas ResourceKindSingleDim.
Definition L2CalldataGas := NewMultiGas ResourceKindL2Calldata.
Definition WasmComputationGas := NewMultiGas ResourceKindWasmComputation.

(** [recomputeTotal] folds the counters from the left and stops, with the total
    at [MaxUint64], at the first overflow. *)
Fixpoint recompute_loop (acc : Z) (l : list Z) : Z * bool :=
  match l with
  | [] => (acc, false)
  | x :: l' =>
      let '(acc', overflow) := saturatingScalarAdd acc x in
      if overflow then (acc', true) else recompute_loop acc' l'
  end.

Definition recomputeTotal (z : MultiGas) : MultiGas * bool :=
  let '(t, overflow) := recompute_loop 0 (gas z) in
  (mkMultiGas (gas z) t (refund z), overflow).

(** A later pair of the same kind overwrites the earlier one; an overflow of
    the total panics. *)
Definition MultiGasFromPairs (pairs : list (ResourceKind * Z)) : option MultiGas :=
  let mg := foldl (fun mg p => mkMultiGas (<[kind_index p.1 := p.2]> (gas mg)) (total mg) (refund mg))
                  ZeroGas pairs in
  let '(mg', overflow) := recomputeTotal mg in
  if overflow then None else Some mg'.

(** ** Accessors *)

Definition Get (z : MultiGas) (kind : ResourceKind) : Z :=
  default 0 (gas z !! kind_index kind).

Definition GetRefund (z : MultiGas) : Z := refund z.

Definition WithRefund (z : MultiGas) (amount : Z) : MultiGas :=
  mkMultiGas (gas z) (total z) amount.

Definition SingleGas (z : MultiGas) : Z := u64 (total z - refund z).

Definition IsZero (z : MultiGas) : bool :=
  (total z =? 0) && (refund z =? 0) && forallb (Z.eqb 0) (gas z).

Definition With (z : MultiGas) (kind : ResourceKind) (amount : Z) : MultiGas * bool :=
  let '(t, overflow) := saturatingScalarAdd (u64 (total z - Get z kind)) amount in
  if overflow then (z, true)
  else (mkMultiGas (<[kind_index kind := amount]> (gas z)) t (refund z), false).

(** ** Addition and subtraction *)

(** The loop of [SafeAdd] and [SafeSub] over the two arrays, which leaves at
    the first overflow ([None]). *)
Fixpoint safe_zip (op : Z -> Z -> Z * bool) (zs xs : list Z) : option (list Z) :=
  match zs, xs with
  | z :: zs', x :: xs' =>
      let '(r, bad) := op z x in
      if bad then None else rs ← safe_zip op zs' xs'; Some (r :: rs)
  | _, _ => Some []
  end.

(** The loop of the saturating variants, which drops the flag. *)
Fixpoint saturating_zip (op : Z -> Z -> Z * bool) (zs xs : list Z) : list Z :=
  match zs, xs with
  | z :: zs', x :: xs' => (op z x).1 :: saturating_zip op zs' xs'
  | _, _ => []
  end.

Definition SafeAdd (z x : MultiGas) : MultiGas * bool :=
  match safe_zip saturatingScalarAdd (gas z) (gas x) with
  | None => (z, true)
  | Some g =>
      let '(t, overflow) := saturatingScalarAdd (total z) (total x) in
      if overflow then (z, true)
      else
        let '(r, overflow) := saturatingScalarAdd (refund z) (refund x) in
        if overflow then (z, true) else (mkMultiGas g t r, false)
  end.

Definition SaturatingAdd (z x : MultiGas) : MultiGas :=
  mkMultiGas (saturating_zip saturatingScalarAdd (gas z) (gas x))
             (saturatingScalarAdd (total z) (total x)).1
             (saturatingScalarAdd (refund z) (refund x)).1.

(** [SaturatingAddInto] writes the receiver; the model returns its new value. *)
Definition SaturatingAddInto (z x : MultiGas) : MultiGas :=
  let z1 := mkMultiGas (saturating_zip saturatingScalarAdd (gas z) (gas x)) (total z) (refund z) in
  let z2 := mkMultiGas (gas z1) (saturatingScalarAdd (total z1) (total x)).1 (refund z1) in
  mkMultiGas (gas z2) (total z2) (saturatingScalarAdd (refund z2) (refund x)).1.

Definition SafeSub (z x : MultiGas) : MultiGas * bool :=
  match safe_zip saturatingScalarSub (gas z) (gas x) with
  | None => (z, true)
  | Some g =>
      let '(r, underflow) := saturatingScalarSub (refund z) (refund x) in
      if underflow then (z, true)
      else ((recomputeTotal (mkMultiGas g (total z) r)).1, false)
  end.

Definition SaturatingSub (z x : MultiGas) : MultiGas :=
  (recomputeTotal
     (mkMultiGas (saturating_zip saturatingScalarSub (gas z) (gas x)) (total z)
                 (saturatingScalarSub (refund z) (refund x)).1)).1.

(** ** Increments *)

Definition SafeIncrement (z : MultiGas) (kind : ResourceKind) (amount : Z) : MultiGas * bool :=
  let '(g, overflow) := saturatingScalarAdd (Get z kind) amount in
  if overflow then (z, true)
  else
    let '(t, overflow) := saturatingScalarAdd (total z) amount in
    if overflow then (z, true)
    else (mkMultiGas (<[kind_index kind := g]> (gas z)) t (refund z), false).

Definition SaturatingIncrement (z : MultiGas) (kind : ResourceKind) (amount : Z) : MultiGas :=
  mkMultiGas (<[kind_index kind := (saturatingScalarAdd (Get z kind) amount).1]> (gas z))
             (saturatingScalarAdd (total z) amount).1 (refund z).

Definition SaturatingIncrementInto (z : MultiGas) (kind : ResourceKind) (amount : Z) : MultiGas :=
  let z1 := mkMultiGas (<[kind_index kind := (saturatingScalarAdd (Get z kind) amount).1]> (gas z))
                       (total z) (refund z) in
  mkMultiGas (gas z1) (saturatingScalarAdd (total z1) amount).1 (refund z1).

Definition SaturatingDecrement (z : MultiGas) (kind : ResourceKind) (amount : Z) : MultiGas :=
  let current := Get z kind in
  let '(reduced, g) := if current <? amount then (current, 0) else (amount, u64 (current - amount)) in
  mkMultiGas (<[kind_index kind := g]> (gas z))
             (if total z <? reduced then 0 else u64 (total z - reduced)) (refund z).

(** ** Well-formedness

    The shape the Go types impose: nine counters, every field a [uint64]. *)

Record wf (z : MultiGas) : Prop := mkWf {
  wf_length : length (gas z) = NumResourceKind;
  wf_gas : Forall is_u64 (gas z);
  wf_total : is_u64 (total z);
  wf_refund : is_u64 (refund z)
}.

(** The total is the sum of the counters, clamped like the saturating operations
    clamp it; [exact] when nothing was clamped. *)
Definition consistent (z : MultiGas) : Prop := total z = Z.min MaxUint64 (sumZ (gas z)).
Definition exact (z : MultiGas) : Prop := total z = sumZ (gas z).

Lemma saturatingScalarAdd_spec a b : is_u64 a -> is_u64 b ->
  saturatingScalarAdd a b = (Z.min MaxUint64 (a + b), two64 <=? a + b).
Proof.
  intros Ha Hb. unfold saturatingScalarAdd. rewrite Add64_carry by done.
  unfold_u64. split_cmp; f_equal; lia.
Qed.

Lemma saturatingScalarSub_spec a b : is_u64 a -> is_u64 b ->
  saturatingScalarSub a b = (Z.max 0 (a - b), a <? b).
Proof.
  intros Ha Hb. unfold saturatingScalarSub. rewrite Sub64_borrow by done.
  unfold_u64. split_cmp; f_equal; lia.
Qed.

Lemma saturatingScalarAdd_u64 a b : is_u64 a -> is_u64 b ->
  is_u64 (saturatingScalarAdd a b).1.
Proof. intros. rewrite saturatingScalarAdd_spec by done. unfold_u64; simpl; lia. Qed.

Lemma saturatingScalarSub_u64 a b : is_u64 a -> is_u64 b ->
  is_u64 (saturatingScalarSub a b).1.
Proof. intros. rewrite saturatingScalarSub_spec by done. unfold_u64; simpl; lia. Qed.

#[export] Hint Resolve saturatingScalarAdd_u64 saturatingScalarSub_u64 : go.
#[export] Hint Resolve wf_length wf_gas wf_total wf_refund : go.

Lemma kind_index_lt k : (kind_index k < NumResourceKind)%nat.
Proof. unfold NumResourceKind. destruct k; cbn; lia. Qed.

Lemma kind_index_inj k k' : kind_index k = kind_index k' -> k = k'.
Proof. by destruct k, k'. Qed.

Lemma wf_lookup z k : wf z -> gas z !! kind_index k = Some (Get z k).
Proof.
  intros W. unfold Get.
  destruct (lookup_lt_is_Some_2 (gas z) (kind_index k)) as [x E].
  { rewrite (wf_length _ W). apply kind_index_lt. }
  by rewrite E.
Qed.

Lemma wf_Get z k : wf z -> is_u64 (Get z k).
Proof.
  intros W. pose proof (wf_lookup z k W) as E.
  apply (Forall_lookup_1 _ _ _ _ (wf_gas _ W) E).
Qed.

Lemma wf_nonneg z : wf z -> Forall (fun x => 0 <= x) (gas z).
Proof. intros W. eapply Forall_impl, (wf_gas _ W). unfold_u64; intros; simpl; lia. Qed.

#[export] Hint Resolve wf_Get : go.

(** The two loops against their pointwise meaning. *)

Section Loops.
Context (op : Z -> Z -> Z * bool).
Hypothesis op_u64 : forall a b, is_u64 a -> is_u64 b -> is_u64 (op a b).1.

Lemma saturating_zip_length zs xs :
  length zs = length xs -> length (saturating_zip op zs xs) = length zs.
Proof. revert xs; induction zs; intros [|x xs] ?; simplify_eq/=; auto. Qed.

Lemma saturating_zip_u64 zs xs :
  Forall is_u64 zs -> Forall is_u64 xs -> Forall is_u64 (saturating_zip op zs xs).
Proof.
  intros Hz. revert xs.
  induction Hz; intros xs Hx; destruct Hx; simpl; constructor; auto.
Qed.

Lemma safe_zip_saturating zs xs rs :
  safe_zip op zs xs = Some rs -> rs = saturating_zip op zs xs.
Proof.
  revert xs rs. induction zs as [|z zs IH]; intros [|x xs] rs; simpl; try congruence.
  destruct (op z x) as [r []] eqn:E; [done|]. intros H.
  apply bind_Some in H as (rs' & H & ?); simplify_eq. by rewrite (IH _ _ H).
Qed.

Lemma safe_zip_Some zs xs :
  length zs = length xs ->
  is_Some (safe_zip op zs xs) <->
  (forall i z x, zs !! i = Some z -> xs !! i = Some x -> (op z x).2 = false).
Proof.
  revert xs. induction zs as [|z zs IH]; intros [|x xs] Hl; simplify_eq/=.
  - split; [intros _ [|i] ???; done|eauto].
  - specialize (IH _ Hl). destruct (op z x) as [r []] eqn:E; split.
    + by intros [? ?].
    + intros H. specialize (H 0%nat z x eq_refl eq_refl). by rewrite E in H.
    + intros [rs H]. apply bind_Some in H as (rs' & H & _).
      intros [|i] a b Ha Hb; simplify_eq/=; [by rewrite E|].
      eapply (proj1 IH); eauto.
    + intros H. destruct (proj2 IH) as [rs Hrs].
      { intros i a b. apply (H (S i)). }
      rewrite Hrs. eauto.
Qed.
End Loops.

Lemma u64_nonneg l : Forall is_u64 l -> 0 <= sumZ l.
Proof. intros H. apply sumZ_nonneg. eapply Forall_impl, H. unfold_u64; simpl; intros; lia. Qed.

Lemma recompute_loop_spec l acc : is_u64 acc -> Forall is_u64 l ->
  recompute_loop acc l = (Z.min MaxUint64 (acc + sumZ l), two64 <=? acc + sumZ l).
Proof.
  intros Hacc Hl. revert acc Hacc. induction Hl as [|x l Hx Hl IH]; intros acc Hacc; simpl.
  { unfold_u64. f_equal; [lia|]. symmetry. apply Z.leb_gt. unfold sumZ; simpl; lia. }
  pose proof (u64_nonneg l Hl). change (sumZ (x :: l)) with (x + sumZ l).
  rewrite saturatingScalarAdd_spec by done. destruct (Z.leb_spec two64 (acc + x)).
  - unfold_u64. f_equal; [lia|]. symmetry. apply Z.leb_le. lia.
  - rewrite IH by (unfold_u64; lia).
    replace (Z.min MaxUint64 (acc + x)) with (acc + x) by (unfold_u64; lia).
    by rewrite Z.add_assoc.
Qed.

Lemma sum_saturating_add zs xs : length zs = length xs ->
  Forall is_u64 zs -> Forall is_u64 xs ->
  Z.min MaxUint64 (sumZ (saturating_zip saturatingScalarAdd zs xs)) =
  Z.min MaxUint64 (sumZ zs + sumZ xs).
Proof.
  intros Hl Hz. revert xs Hl. induction Hz as [|z zs Hz Hzs IH]; intros [|x xs] Hl Hx;
    simplify_eq/=; [done|]. inversion_clear Hx as [|?? Hx0 Hxs]. specialize (IH xs Hl Hxs).
  rewrite saturatingScalarAdd_spec by done.
  change (sumZ (z :: zs)) with (z + sumZ zs). change (sumZ (x :: xs)) with (x + sumZ xs).
  change (sumZ (?a :: ?l)) with (a + sumZ l). simpl.
  pose proof (u64_nonneg _ Hzs). pose proof (u64_nonneg _ Hxs).
  pose proof (u64_nonneg _ (saturating_zip_u64 _ saturatingScalarAdd_u64 _ _ Hzs Hxs)).
  unfold_u64. lia.
Qed.

(** Building a well-formed record from well-formed parts. *)
Lemma wf_update z k g t r : wf z -> is_u64 g -> is_u64 t -> is_u64 r ->
  wf (mkMultiGas (<[kind_index k := g]> (gas z)) t r).
Proof.
  intros W ???. constructor; simpl; [|apply Forall_insert|..]; auto with go.
  rewrite length_insert. auto with go.
Qed.

Lemma wf_zip op z x t r :
  (forall a b, is_u64 a -> is_u64 b -> is_u64 (op a b).1) ->
  wf z -> wf x -> is_u64 t -> is_u64 r ->
  wf (mkMultiGas (saturating_zip op (gas z) (gas x)) t r).
Proof.
  intros Hop Wz Wx ??. constructor; simpl; auto with go.
  - rewrite saturating_zip_length; [auto with go|].
    by rewrite (wf_length _ Wz), (wf_length _ Wx).
  - apply saturating_zip_u64; auto with go.
Qed.

Lemma recomputeTotal_wf z : wf z -> wf (recomputeTotal z).1.
Proof.
  intros W. unfold recomputeTotal.
  rewrite recompute_loop_spec by (auto with go; unfold_u64; lia).
  constructor; simpl; auto with go. pose proof (u64_nonneg _ (wf_gas _ W)). unfold_u64. lia.
Qed.

Lemma recomputeTotal_consistent z : wf z -> consistent (recomputeTotal z).1.
Proof.
  intros W. unfold recomputeTotal, consistent.
  rewrite recompute_loop_spec by (auto with go; unfold_u64; lia). done.
Qed.

#[export] Hint Resolve recomputeTotal_wf wf_update wf_zip : go.

(** Results of the checked operations when the flag is not set. *)
Lemma SafeAdd_saturating z x y : SafeAdd z x = (y, false) -> y = SaturatingAdd z x.
Proof.
  unfold SafeAdd, SaturatingAdd. intros H.
  destruct (safe_zip _ _ _) as [g|] eqn:Eg; [|done].
  destruct (saturatingScalarAdd (total z) _) as [t []]; [done|].
  destruct (saturatingScalarAdd (refund z) _) as [r []]; [done|].
  simplify_eq/=. by rewrite (safe_zip_saturating _ _ _ _ Eg).
Qed.

Lemma SafeSub_saturating z x y : SafeSub z x = (y, false) -> y = SaturatingSub z x.
Proof.
  unfold SafeSub, SaturatingSub. intros H.
  destruct (safe_zip _ _ _) as [g|] eqn:Eg; [|done].
  destruct (saturatingScalarSub (refund z) _) as [r []]; [done|].
  simplify_eq/=. by rewrite (safe_zip_saturating _ _ _ _ Eg).
Qed.

Lemma SafeIncrement_saturating z k a y :
  SafeIncrement z k a = (y, false) -> y = SaturatingIncrement z k a.
Proof.
  unfold SafeIncrement, SaturatingIncrement. intros H.
  destruct (saturatingScalarAdd (Get z k) _) as [g []]; [done|].
  destruct (saturatingScalarAdd (total z) _) as [t []]; [done|]. by simplify_eq/=.
Qed.

Lemma flag_default {A} (p : A * bool) z (P : A -> Prop) :
  (p.2 = true -> p.1 = z) -> P z -> (forall y, p = (y, false) -> P y) -> P p.1.
Proof. destruct p as [y []]; simpl; intros H ??; [by rewrite H|auto]. Qed.

Lemma SafeAdd_flag z x : (SafeAdd z x).2 = true -> (SafeAdd z x).1 = z.
Proof. unfold SafeAdd. repeat (case_match; simpl; try done). Qed.
Lemma SafeSub_flag z x : (SafeSub z x).2 = true -> (SafeSub z x).1 = z.
Proof. unfold SafeSub. repeat (case_match; simpl; try done). Qed.
Lemma SafeIncrement_flag z k a : (SafeIncrement z k a).2 = true -> (SafeIncrement z k a).1 = z.
Proof. unfold SafeIncrement. repeat (case_match; simpl; try done). Qed.
Lemma With_flag z k a : (With z k a).2 = true -> (With z k a).1 = z.
Proof. unfold With. repeat (case_match; simpl; try done). Qed.

Lemma SaturatingAdd_wf z x : wf z -> wf x -> wf (SaturatingAdd z x).
Proof. intros. apply wf_zip; auto with go. Qed.
Lemma SaturatingSub_wf z x : wf z -> wf x -> wf (SaturatingSub z x).
Proof. intros. apply recomputeTotal_wf, wf_zip; auto with go. Qed.
Lemma SaturatingIncrement_wf z k a : wf z -> is_u64 a -> wf (SaturatingIncrement z k a).
Proof. intros. apply wf_update; auto with go. Qed.
Lemma NewMultiGas_wf k a : is_u64 a -> wf (NewMultiGas k a).
Proof.
  intros. constructor; simpl; auto; [|apply Forall_insert|]; try (unfold_u64; lia); auto.
  - by rewrite length_insert.
  - repeat constructor; unfold_u64; lia.
Qed.
Lemma ZeroGas_wf : wf ZeroGas.
Proof. constructor; simpl; [done|repeat constructor|..]; unfold_u64; lia. Qed.
Lemma SaturatingDecrement_wf z k a : wf z -> is_u64 a -> wf (SaturatingDecrement z k a).
Proof.
  intros W Ha. unfold SaturatingDecrement. destruct (Z.ltb_spec (Get z k) a);
    apply wf_update; auto with go; try (unfold_u64; lia);
    case_match; auto with go; unfold_u64; lia.
Qed.
Lemma With_wf z k a : wf z -> is_u64 a -> wf (With z k a).1.
Proof.
  intros W Ha. unfold With.
  pose proof (saturatingScalarAdd_u64 (u64 (total z - Get z k)) a (u64_range _) Ha).
  destruct (saturatingScalarAdd _ _) as [t []]; simpl in *; auto with go.
Qed.

#[export] Hint Resolve SaturatingAdd_wf SaturatingSub_wf SaturatingIncrement_wf
  NewMultiGas_wf ZeroGas_wf SaturatingDecrement_wf With_wf : go.

Lemma SafeAdd_wf z x : wf z -> wf x -> wf (SafeAdd z x).1.
Proof.
  intros. eapply flag_default; [apply SafeAdd_flag|done|].
  intros y ->%SafeAdd_saturating; auto with go.
Qed.
Lemma SafeSub_wf z x : wf z -> wf x -> wf (SafeSub z x).1.
Proof.
  intros. eapply flag_default; [apply SafeSub_flag|done|].
  intros y ->%SafeSub_saturating; auto with go.
Qed.
Lemma SafeIncrement_wf z k a : wf z -> is_u64 a -> wf (SafeIncrement z k a).1.
Proof.
  intros. eapply flag_default; [apply SafeIncrement_flag|done|].
  intros y ->%SafeIncrement_saturating; auto with go.
Qed.

#[export] Hint Resolve SafeAdd_wf SafeSub_wf SafeIncrement_wf : go.

(** *** Consistency of the total *)

Lemma SaturatingAdd_consistent z x :
  wf z -> wf x -> consistent z -> consistent x -> consistent (SaturatingAdd z x).
Proof.
  unfold consistent. intros Wz Wx Cz Cx. simpl.
  rewrite saturatingScalarAdd_spec, sum_saturating_add, Cz, Cx by
    (auto with go; by rewrite (wf_length _ Wz), (wf_length _ Wx)).
  pose proof (u64_nonneg _ (wf_gas _ Wz)). pose proof (u64_nonneg _ (wf_gas _ Wx)).
  unfold_u64. simpl. lia.
Qed.

Lemma SaturatingIncrement_consistent z k a :
  wf z -> is_u64 a -> consistent z -> consistent (SaturatingIncrement z k a).
Proof.
  unfold consistent. intros W Ha C. simpl.
  rewrite !saturatingScalarAdd_spec, C by auto with go.
  rewrite (sumZ_insert _ _ _ _ (wf_lookup z k W)).
  pose proof (sumZ_lookup_le _ _ _ (wf_nonneg _ W) (wf_lookup z k W)).
  pose proof (wf_Get z k W). unfold_u64. simpl. lia.
Qed.

Lemma NewMultiGas_exact k a : is_u64 a -> exact (NewMultiGas k a).
Proof.
  intros Ha. unfold exact. simpl.
  rewrite (sumZ_insert _ _ 0); [unfold sumZ; simpl; lia|].
  by destruct k.
Qed.

Lemma exact_consistent z : wf z -> exact z -> consistent z.
Proof. unfold exact, consistent. intros W <-. pose proof (wf_total _ W). unfold_u64. lia. Qed.

#[export] Hint Resolve SaturatingAdd_consistent SaturatingIncrement_consistent
  recomputeTotal_consistent NewMultiGas_exact exact_consistent : go.

(** The pairs a caller gives, one per kind at most. *)
Lemma MultiGasFromPairs_wf pairs mg :
  Forall (fun p => is_u64 p.2) pairs -> MultiGasFromPairs pairs = Some mg -> wf mg /\ exact mg.
Proof.
  intros Hp. unfold MultiGasFromPairs.
  set (mg0 := foldl _ _ _). assert (W : wf mg0).
  { subst mg0. generalize ZeroGas_wf. generalize ZeroGas. clear mg.
    induction Hp as [|p ps Hp Hps IH]; intros z W; simpl; [done|].
    apply IH. apply wf_update; auto with go. }
  clearbody mg0. pose proof (recomputeTotal_wf _ W) as W'. revert W'. unfold recomputeTotal.
  rewrite recompute_loop_spec by (auto with go; unfold_u64; lia).
  destruct (Z.leb_spec two64 (0 + sumZ (gas mg0))); simpl; [done|].
  intros W' [= <-]. split; [done|]. unfold exact; simpl. unfold_u64. lia.
Qed.

(** Typing: from well-formed arguments every operation of the package
    returns a well-formed value - nine counters, and every counter, the total
    and the refund in the [uint64] range - whether or not it flags an overflow. *)
Theorem multigas_operations_wf z x k a :
  wf z -> wf x -> is_u64 a ->
  wf ZeroGas /\ wf (NewMultiGas k a) /\ wf (With z k a).1 /\ wf (WithRefund z a) /\
  wf (SafeAdd z x).1 /\ wf (SaturatingAdd z x) /\ wf (SaturatingAddInto z x) /\
  wf (SafeSub z x).1 /\ wf (SaturatingSub z x) /\
  wf (SafeIncrement z k a).1 /\ wf (SaturatingIncrement z k a) /\
  wf (SaturatingIncrementInto z k a) /\ wf (SaturatingDecrement z k a) /\
  is_u64 (SingleGas z) /\ is_u64 (Get z k).
Proof.
  intros Wz Wx Ha. repeat split_and; auto with go.
  - destruct Wz; by constructor.
  - unfold SingleGas. auto with go.
Qed.

Lemma multigas_operations_wf_witness :
  wf (SafeAdd (ComputationGas 7) (StorageGrowthGas MaxUint64)).1.
Proof.
  destruct (multigas_operations_wf (ComputationGas 7) (StorageGrowthGas MaxUint64)
              ResourceKindUnknown 3) as (_ & _ & _ & _ & H & _).
  - apply NewMultiGas_wf. vm_compute; split; congruence.
  - apply NewMultiGas_wf. vm_compute; split; congruence.
  - vm_compute; split; congruence.
  - exact H.
Defined.

(** The clamped total: if the total of the arguments is the sum of their
    counters clamped to [MaxUint64], so is the total of every addition,
    subtraction and increment, saturating or checked, of the package, and of
    every value the constructors build. *)
Theorem multigas_total_consistent z x k a :
  wf z -> wf x -> is_u64 a -> consistent z -> consistent x ->
  consistent (NewMultiGas k a) /\
  consistent (SaturatingAdd z x) /\ consistent (SaturatingAddInto z x) /\
  consistent (SafeAdd z x).1 /\ consistent (SafeSub z x).1 /\ consistent (SaturatingSub z x) /\
  consistent (SafeIncrement z k a).1 /\ consistent (SaturatingIncrement z k a) /\
  consistent (SaturatingIncrementInto z k a) /\ consistent (WithRefund z a).
Proof.
  intros Wz Wx Ha Cz Cx. repeat split_and; auto with go.
  - eapply flag_default; [apply SafeAdd_flag|done|]. intros y ->%SafeAdd_saturating; auto with go.
  - eapply flag_default; [apply SafeSub_flag|done|]. intros y ->%SafeSub_saturating.
    apply recomputeTotal_consistent; auto with go.
  - apply recomputeTotal_consistent; auto with go.
  - eapply flag_default; [apply SafeIncrement_flag|done|].
    intros y ->%SafeIncrement_saturating; auto with go.
Qed.

Lemma multigas_total_consistent_witness :
  consistent (SaturatingAdd (ComputationGas MaxUint64) (StorageGrowthGas 5)).
Proof.
  apply (multigas_total_consistent (ComputationGas MaxUint64) (StorageGrowthGas 5)
           ResourceKindUnknown 1).
  - apply NewMultiGas_wf. vm_compute; split; congruence.
  - apply NewMultiGas_wf. vm_compute; split; congruence.
  - vm_compute; split; congruence.
  - reflexivity.
  - reflexivity.
Defined.

(** All sums that [SafeAdd] computes fit in a [uint64]. *)
Definition add_fits (z x : MultiGas) : Prop :=
  (forall k, Get z k + Get x k < two64) /\
  total z + total x < two64 /\ refund z + refund x < two64.

Lemma wf_index z i a : wf z -> gas z !! i = Some a -> exists k, kind_index k = i /\ Get z k = a.
Proof.
  intros W H. assert (i < 9)%nat.
  { apply lookup_lt_Some in H. by rewrite (wf_length _ W) in H. }
  destruct (nth_error all_kinds i) as [k|] eqn:E.
  - exists k. assert (kind_index k = i) as <-.
    { do 9 (destruct i as [|i]; [by injection E as <-|]). lia. }
    split; [done|]. unfold Get. by rewrite H.
  - apply nth_error_None in E. simpl in E. lia.
Qed.

Lemma SaturatingAdd_Get z x k : wf z -> wf x ->
  Get (SaturatingAdd z x) k = Z.min MaxUint64 (Get z k + Get x k).
Proof.
  intros Wz Wx.
  assert (forall zs xs i a b, zs !! i = Some a -> xs !! i = Some b ->
    saturating_zip saturatingScalarAdd zs xs !! i = Some (saturatingScalarAdd a b).1) as H.
  { induction zs; intros [|? xs] [|i] ????; simplify_eq/=; auto. }
  unfold Get at 1. simpl. erewrite H by (by apply wf_lookup). simpl.
  by rewrite saturatingScalarAdd_spec by auto with go.
Qed.

Lemma SafeAdd_fits z x : wf z -> wf x -> ((SafeAdd z x).2 = false <-> add_fits z x).
Proof.
  intros Wz Wx. assert (length (gas z) = length (gas x)) as Hl.
  { by rewrite (wf_length _ Wz), (wf_length _ Wx). }
  assert (is_Some (safe_zip saturatingScalarAdd (gas z) (gas x)) <->
          forall k, Get z k + Get x k < two64) as Hs.
  { rewrite safe_zip_Some by done. split.
    - intros H k. specialize (H _ _ _ (wf_lookup z k Wz) (wf_lookup x k Wx)).
      rewrite saturatingScalarAdd_spec in H by auto with go. apply Z.leb_gt in H. lia.
    - intros H i a b Ha Hb. destruct (wf_index _ _ _ Wz Ha) as (k & <- & <-).
      rewrite (wf_lookup x k Wx) in Hb. injection Hb as <-.
      rewrite saturatingScalarAdd_spec by auto with go. apply Z.leb_gt. apply H. }
  unfold SafeAdd, add_fits. rewrite <- Hs.
  rewrite !saturatingScalarAdd_spec by auto with go.
  destruct (safe_zip _ _ _) as [g|]; simpl.
  - split_cmp; split; intros Hf; simpl in *; try done; try lia; repeat split; eauto; lia.
  - split; [done|]. intros [[? ?] _]. done.
Qed.

(** [SafeAdd] is exact or refused: it raises its flag exactly when the sum
    of some counter, of the totals or of the refunds leaves the [uint64] range;
    flagged, it returns the receiver untouched, and otherwise every field of the
    result is the exact sum of the two fields. *)
Theorem SafeAdd_exact z x : wf z -> wf x ->
  ((SafeAdd z x).2 = true <-> ~ add_fits z x) /\
  ((SafeAdd z x).2 = true -> (SafeAdd z x).1 = z) /\
  ((SafeAdd z x).2 = false ->
     (forall k, Get (SafeAdd z x).1 k = Get z k + Get x k) /\
     total (SafeAdd z x).1 = total z + total x /\
     refund (SafeAdd z x).1 = refund z + refund x).
Proof.
  intros Wz Wx. pose proof (SafeAdd_fits z x Wz Wx) as F. repeat split_and.
  - rewrite <- F. destruct (SafeAdd z x).2; split; congruence.
  - apply SafeAdd_flag.
  - intros E. destruct (proj1 F E) as (Fk & Ft & Fr).
    destruct (SafeAdd z x) as [y b] eqn:Ey; simpl in *; subst b.
    apply SafeAdd_saturating in Ey as ->. repeat split_and.
    + intros k. rewrite SaturatingAdd_Get by done. specialize (Fk k). unfold MaxUint64. lia.
    + simpl. rewrite saturatingScalarAdd_spec by auto with go. unfold MaxUint64; simpl; lia.
    + simpl. rewrite saturatingScalarAdd_spec by auto with go. unfold MaxUint64; simpl; lia.
Qed.

Lemma SafeAdd_exact_witness :
  (SafeAdd (ComputationGas MaxUint64) (ComputationGas 1)).2 = true /\
  Get (SafeAdd (ComputationGas 4) (ComputationGas 5)).1 ResourceKindComputation = 9.
Proof.
  assert (forall a, is_u64 a -> wf (ComputationGas a)) as W by (intros; by apply NewMultiGas_wf).
  split.
  - apply (SafeAdd_exact (ComputationGas MaxUint64) (ComputationGas 1)).
    + apply W. vm_compute; split; congruence.
    + apply W. vm_compute; split; congruence.
    + intros (_ & H & _). vm_compute in H. congruence.
  - apply (SafeAdd_exact (ComputationGas 4) (ComputationGas 5)).
    + apply W. vm_compute; split; congruence.
    + apply W. vm_compute; split; congruence.
    + reflexivity.
Defined.

Lemma safe_zip_undo zs xs rs : length zs = length xs ->
  Forall is_u64 zs -> Forall is_u64 xs ->
  safe_zip saturatingScalarAdd zs xs = Some rs ->
  safe_zip saturatingScalarSub rs xs = Some zs.
Proof.
  intros Hl Hz. revert xs rs Hl.
  induction Hz as [|z zs Hz Hzs IH]; intros [|x xs] rs Hl Hx H; simplify_eq/=; [done|].
  inversion_clear Hx as [|?? Hx0 Hxs]. rewrite saturatingScalarAdd_spec in H by done.
  destruct (Z.leb_spec two64 (z + x)); [done|].
  apply bind_Some in H as (rs' & H & ?); simplify_eq/=.
  rewrite saturatingScalarSub_spec by (unfold_u64; lia).
  replace (Z.min MaxUint64 (z + x) <? x) with false by (unfold_u64; lia).
  rewrite (IH _ _ Hl Hxs H). simpl. do 2 f_equal. unfold_u64; lia.
Qed.

(** Charging and refunding: for a value whose total is the exact sum of its
    counters, subtracting what an unflagged [SafeAdd] added succeeds and gives the
    value back, field by field. *)
Theorem SafeSub_SafeAdd z x y : wf z -> wf x -> exact z ->
  SafeAdd z x = (y, false) -> SafeSub y x = (z, false).
Proof.
  intros Wz Wx Ez H. pose proof (SafeAdd_fits z x Wz Wx) as F. rewrite H in F; simpl in F.
  destruct (proj1 F eq_refl) as (_ & _ & Fr). clear F.
  unfold SafeAdd in H. destruct (safe_zip _ _ _) as [g|] eqn:Eg; [|done].
  rewrite !saturatingScalarAdd_spec in H by auto with go.
  repeat case_match; simplify_eq/=.
  unfold SafeSub; simpl. erewrite safe_zip_undo; [|..|exact Eg]; auto with go;
    [|by rewrite (wf_length _ Wz), (wf_length _ Wx)].
  pose proof (wf_refund _ Wz). pose proof (wf_refund _ Wx).
  rewrite saturatingScalarSub_spec by (unfold_u64; lia).
  replace (Z.min MaxUint64 (refund z + refund x) <? refund x) with false by (unfold_u64; lia).
  f_equal. unfold recomputeTotal; simpl.
  rewrite recompute_loop_spec by (auto with go; unfold_u64; lia). simpl.
  unfold exact in Ez. destruct z as [gz tz rz]; simpl in *. pose proof (wf_total _ Wz). simpl in *.
  f_equal; unfold_u64; lia.
Qed.

Lemma SafeSub_SafeAdd_witness :
  SafeSub (SafeAdd (ComputationGas 40) (StorageGrowthGas 2)).1 (StorageGrowthGas 2)
  = (ComputationGas 40, false).
Proof.
  apply (SafeSub_SafeAdd (ComputationGas 40) (StorageGrowthGas 2)).
  - apply NewMultiGas_wf. vm_compute; split; congruence.
  - apply NewMultiGas_wf. vm_compute; split; congruence.
  - reflexivity.
  - reflexivity.
Defined.
