(* ===== verification/Uint256.v ===== *)
(** The 256-bit integers of the virtual machine.

    [uint256.Int] comes from [github.com/holiman/uint256], which is not part of
    the repository: the model takes its methods as a parameter, the class [Ops],
    over values represented by [Z].  What that package documents of each method
    is the class [Laws]; [reference] is one implementation that satisfies it, so
    that every definition of the development can be evaluated. *)

From stdpp Require Import base list numbers.
From S2P Require Import Prelude.
Open Scope Z_scope.

Module U256.

Class Ops := {
  Add : Z -> Z -> Z;
  Sub : Z -> Z -> Z;
  Mul : Z -> Z -> Z;
  Div : Z -> Z -> Z;
  SDiv : Z -> Z -> Z;
  Mod : Z -> Z -> Z;
  SMod : Z -> Z -> Z;
  Exp : Z -> Z -> Z;
  AddMod : Z -> Z -> Z -> Z;
  MulMod : Z -> Z -> Z -> Z;
  ExtendSign : Z -> Z -> Z;
  Not : Z -> Z;
  And : Z -> Z -> Z;
  Or : Z -> Z -> Z;
  Xor : Z -> Z -> Z;
  Byte : Z -> Z -> Z;
  Lsh : Z -> Z -> Z;
  Rsh : Z -> Z -> Z;
  SRsh : Z -> Z -> Z;
  Lt : Z -> Z -> bool;
  Gt : Z -> Z -> bool;
  Slt : Z -> Z -> bool;
  Sgt : Z -> Z -> bool;
  Eq : Z -> Z -> bool;
  LtUint64 : Z -> Z -> bool;
  GtUint64 : Z -> Z -> bool;
  Cmp : Z -> Z -> Z;
  IsZero : Z -> bool;
  Sign : Z -> Z;
  BitLen : Z -> Z;
  IsUint64 : Z -> bool;
  Uint64 : Z -> Z;
  Uint64WithOverflow : Z -> Z * bool;
  SetUint64 : Z -> Z;
  SetBytes : list Z -> Z;
  FromBig : Z -> Z * bool;
  AddUint64 : Z -> Z -> Z;
  CmpBig : Z -> Z -> Z;
  SetAllOne : Z;
  PutUint256 : Z -> list Z;
  Bytes20 : Z -> Z;
  Bytes32 : Z -> Z
}.

(** Two's complement reading of a 256-bit value, and back. *)
Definition signed (x : Z) : Z := if x <? two256 / 2 then x else x - two256.
Definition wrap (x : Z) : Z := x mod two256.

(** Big-endian value of a byte string, and the [n] low bytes of a value. *)
Definition be_value (bs : list Z) : Z := foldl (fun acc b => acc * 256 + b) 0 bs.

Fixpoint be_bytes (n : nat) (x : Z) : list Z :=
  match n with
  | O => []
  | S n' => be_bytes n' (x / 256) ++ [x mod 256]
  end.

(** What the package documents.  [Lsh], [Rsh] and [SRsh] take a non-negative
    shift; [Byte x n] is the [n]-th byte from the most significant one. *)
Class Laws (U : Ops) : Prop := {
  Add_spec x y : is_u256 x -> is_u256 y -> Add x y = wrap (x + y);
  Sub_spec x y : is_u256 x -> is_u256 y -> Sub x y = wrap (x - y);
  Mul_spec x y : is_u256 x -> is_u256 y -> Mul x y = wrap (x * y);
  Div_spec x y : is_u256 x -> is_u256 y -> Div x y = if y =? 0 then 0 else x / y;
  SDiv_spec x y : is_u256 x -> is_u256 y ->
    SDiv x y = if y =? 0 then 0 else wrap (Z.quot (signed x) (signed y));
  Mod_spec x y : is_u256 x -> is_u256 y -> Mod x y = if y =? 0 then 0 else x mod y;
  SMod_spec x y : is_u256 x -> is_u256 y ->
    SMod x y = if y =? 0 then 0 else wrap (Z.rem (signed x) (signed y));
  Exp_spec x y : is_u256 x -> is_u256 y -> Exp x y = wrap (x ^ y);
  AddMod_spec x y m : is_u256 x -> is_u256 y -> is_u256 m ->
    AddMod x y m = if m =? 0 then 0 else (x + y) mod m;
  MulMod_spec x y m : is_u256 x -> is_u256 y -> is_u256 m ->
    MulMod x y m = if m =? 0 then 0 else (x * y) mod m;
  ExtendSign_spec x n : is_u256 x -> is_u256 n ->
    ExtendSign x n =
      if 31 <=? n then x
      else let w := 2 ^ (8 * (n + 1)) in
           if Z.testbit x (8 * (n + 1) - 1) then wrap (x mod w - w) else x mod w;
  Not_spec x : is_u256 x -> Not x = two256 - 1 - x;
  And_spec x y : is_u256 x -> is_u256 y -> And x y = Z.land x y;
  Or_spec x y : is_u256 x -> is_u256 y -> Or x y = Z.lor x y;
  Xor_spec x y : is_u256 x -> is_u256 y -> Xor x y = Z.lxor x y;
  Byte_spec x n : is_u256 x -> is_u256 n ->
    Byte x n = if n <? 32 then (x / 256 ^ (31 - n)) mod 256 else 0;
  Lsh_spec x n : is_u256 x -> 0 <= n -> Lsh x n = wrap (x * 2 ^ n);
  Rsh_spec x n : is_u256 x -> 0 <= n -> Rsh x n = x / 2 ^ n;
  SRsh_spec x n : is_u256 x -> 0 <= n -> SRsh x n = wrap (signed x / 2 ^ n);
  Lt_spec x y : is_u256 x -> is_u256 y -> Lt x y = (x <? y);
  Gt_spec x y : is_u256 x -> is_u256 y -> Gt x y = (y <? x);
  Slt_spec x y : is_u256 x -> is_u256 y -> Slt x y = (signed x <? signed y);
  Sgt_spec x y : is_u256 x -> is_u256 y -> Sgt x y = (signed y <? signed x);
  Eq_spec x y : is_u256 x -> is_u256 y -> Eq x y = (x =? y);
  LtUint64_spec x n : is_u256 x -> is_u64 n -> LtUint64 x n = (x <? n);
  GtUint64_spec x n : is_u256 x -> is_u64 n -> GtUint64 x n = (n <? x);
  Cmp_spec x y : is_u256 x -> is_u256 y ->
    Cmp x y = if x <? y then -1 else if x =? y then 0 else 1;
  IsZero_spec x : is_u256 x -> IsZero x = (x =? 0);
  Sign_spec x : is_u256 x -> Sign x = Z.sgn (signed x);
  BitLen_spec x : is_u256 x -> BitLen x = if x =? 0 then 0 else Z.log2 x + 1;
  Sign_IsZero x : (Sign x =? 0) = IsZero x;
  Uint64_range x : is_u64 (Uint64 x);
  IsUint64_spec x : is_u256 x -> IsUint64 x = (x <? two64);
  Uint64_spec x : is_u256 x -> Uint64 x = x mod two64;
  Uint64WithOverflow_spec x : is_u256 x ->
    Uint64WithOverflow x = (x mod two64, negb (x <? two64));
  SetUint64_spec x : is_u64 x -> SetUint64 x = x;
  SetBytes_spec bs : Forall is_byte bs -> SetBytes bs = wrap (be_value bs);
  FromBig_spec x : 0 <= x -> FromBig x = (wrap x, two256 <=? x);
  AddUint64_spec x n : is_u256 x -> is_u64 n -> AddUint64 x n = wrap (x + n);
  CmpBig_spec x y : is_u256 x -> CmpBig x y = if x <? y then -1 else if x =? y then 0 else 1;
  SetAllOne_spec : SetAllOne = two256 - 1;
  PutUint256_spec x : is_u256 x -> PutUint256 x = be_bytes 32 x;
  Bytes20_spec x : is_u256 x -> Bytes20 x = x mod 2 ^ 160;
  Bytes32_spec x : is_u256 x -> Bytes32 x = x
}.

(** A reference implementation, used by the witnesses. *)
Definition reference : Ops := {|
  Add x y := wrap (x + y);
  Sub x y := wrap (x - y);
  Mul x y := wrap (x * y);
  Div x y := if y =? 0 then 0 else x / y;
  SDiv x y := if y =? 0 then 0 else wrap (Z.quot (signed x) (signed y));
  Mod x y := if y =? 0 then 0 else x mod y;
  SMod x y := if y =? 0 then 0 else wrap (Z.rem (signed x) (signed y));
  Exp x y := wrap (x ^ y);
  AddMod x y m := if m =? 0 then 0 else (x + y) mod m;
  MulMod x y m := if m =? 0 then 0 else (x * y) mod m;
  ExtendSign x n :=
    if 31 <=? n then x
    else let w := 2 ^ (8 * (n + 1)) in
         if Z.testbit x (8 * (n + 1) - 1) then wrap (x mod w - w) else x mod w;
  Not x := two256 - 1 - x;
  And := Z.land;
  Or := Z.lor;
  Xor := Z.lxor;
  Byte x n := if n <? 32 then (x / 256 ^ (31 - n)) mod 256 else 0;
  Lsh x n := wrap (x * 2 ^ n);
  Rsh x n := x / 2 ^ n;
  SRsh x n := wrap (signed x / 2 ^ n);
  Lt := Z.ltb;
  Gt x y := y <? x;
  Slt x y := signed x <? signed y;
  Sgt x y := signed y <? signed x;
  Eq := Z.eqb;
  LtUint64 := Z.ltb;
  GtUint64 x n := n <? x;
  Cmp x y := if x <? y then -1 else if x =? y then 0 else 1;
  IsZero x := x =? 0;
  Sign x := if x =? 0 then 0 else if signed x <? 0 then -1 else 1;
  BitLen x := if x =? 0 then 0 else Z.log2 x + 1;
  IsUint64 x := x <? two64;
  Uint64 x := x mod two64;
  Uint64WithOverflow x := (x mod two64, negb (x <? two64));
  SetUint64 x := x;
  SetBytes bs := wrap (be_value bs);
  FromBig x := (wrap x, two256 <=? Z.abs x);
  AddUint64 x n := wrap (x + n);
  CmpBig x y := if x <? y then -1 else if x =? y then 0 else 1;
  SetAllOne := two256 - 1;
  PutUint256 x := be_bytes 32 x;
  Bytes20 x := x mod 2 ^ 160;
  Bytes32 x := x
|}.

#[global] Instance reference_laws : Laws reference.
Proof.
  split; intros; try reflexivity; simpl.
  - match goal with H : is_u256 ?x |- _ => unfold is_u256 in H; unfold signed end.
    destruct (Z.eqb_spec x 0) as [->|]; [done|].
    destruct (Z.ltb_spec x (two256 / 2)); split_cmp; go_lia.
  - destruct (Z.eqb_spec x 0); [done|]. by destruct (signed x <? 0).
  - apply u64_range.
  - by rewrite Z.abs_eq.
Qed.

Lemma be_bytes_length n x : length (be_bytes n x) = n.
Proof. revert x; induction n; intros; simpl; [done|]. rewrite length_app, IHn; simpl. lia. Qed.

Lemma be_bytes_byte n x : Forall is_byte (be_bytes n x).
Proof.
  revert x; induction n; intros; simpl; [constructor|]. apply Forall_app_2; [auto|].
  constructor; [|constructor]. unfold is_byte. apply Z.mod_pos_bound. lia.
Qed.

Lemma be_value_snoc bs b : be_value (bs ++ [b]) = be_value bs * 256 + b.
Proof. unfold be_value. by rewrite foldl_app. Qed.

Lemma be_value_bytes n x : be_value (be_bytes n x) = x mod 256 ^ Z.of_nat n.
Proof.
  revert x; induction n as [|n IH]; intros x; [simpl; by rewrite Z.mod_1_r|].
  simpl be_bytes. rewrite be_value_snoc, IH.
  replace (Z.of_nat (S n)) with (Z.of_nat n + 1) by lia.
  rewrite Z.pow_add_r, Z.pow_1_r by lia. rewrite (Z.mul_comm (256 ^ _) 256).
  rewrite Z.rem_mul_r by lia. lia.
Qed.

Lemma be_value_bound bs : Forall is_byte bs -> 0 <= be_value bs < 256 ^ Z.of_nat (length bs).
Proof.
  induction bs as [|b bs IH] using rev_ind; intros H; [simpl; unfold be_value; simpl; lia|].
  apply Forall_app in H as [H Hb]. inversion_clear Hb as [|?? Hb0 _]. specialize (IH H).
  rewrite be_value_snoc, length_app. simpl length.
  replace (Z.of_nat (length bs + 1)) with (Z.of_nat (length bs) + 1) by lia.
  rewrite Z.pow_add_r by lia. unfold is_byte in *. lia.
Qed.

Lemma be_bytes_value bs : Forall is_byte bs -> be_bytes (length bs) (be_value bs) = bs.
Proof.
  induction bs as [|b bs IH] using rev_ind; intros H; [done|].
  apply Forall_app in H as [H Hb]. inversion_clear Hb as [|?? Hb0 _]. unfold is_byte in Hb0.
  rewrite be_value_snoc, length_app. simpl length. rewrite Nat.add_comm. simpl be_bytes.
  rewrite Z.div_add_l, (Z.div_small b 256), Z.add_0_r, IH by (done || lia).
  f_equal. f_equal. rewrite Z.add_comm, Z.mod_add by lia. apply Z.mod_small. lia.
Qed.

End U256.
