(* ===== verification/Header.v ===== *)
(** Block headers, and the rules about their gas limit, base fee, blob gas and extra
    data: [core/types/block.go] and the header part of [arb_types.go],
    [consensus/misc/gaslimit.go], [dao.go], [eip1559/eip1559.go], [eip4844/eip4844.go].

    The difficulty and the number of a header are never nil.  A hash is an integer, but
    the mix digest, which ArbOS uses as a record, is its 32 bytes. *)

From stdpp Require Import base gmap list numbers option strings.
From S2P Require Import Prelude Params ChainConfig Uint256.
Open Scope Z_scope.

Record Header := mkHeader {
  ParentHash : Z;
  UncleHash : Z;
  Coinbase : Z;
  Root : Z;
  TxHash : Z;
  ReceiptHash : Z;
  Bloom : list Z;
  Difficulty : Z;
  Number : Z;
  GasLimit : Z;
  GasUsed : Z;
  Time : Z;
  Extra : list Z;
  MixDigest : list Z;
  Nonce : Z;
  BaseFee : option Z;
  WithdrawalsHash : option Z;
  BlobGasUsed : option Z;
  ExcessBlobGas : option Z;
  ParentBeaconRoot : option Z;
  RequestsHash : option Z
}.

Definition EmptyUncleHash : Z := 0x1dcc4de8dec75d7aab85b567b6ccd41ad312451b948a7413f0a142fd40d49347.

(** ** Errors *)

Inductive headerError :=
| ErrGasLimitBounds (have want limit : Z)
| ErrGasLimitBelowMinimum
| ErrMissingBaseFee
| ErrInvalidBaseFee (have want : Z)
| ErrMissingExcessBlobGas
| ErrMissingBlobGasUsed
| ErrBlobGasUsedTooHigh (used allowance : Z)
| ErrBlobGasUsedNotMultiple (used : Z)
| ErrInvalidExcessBlobGas (have want : Z)
| ErrBadProDAOExtra
| ErrBadNoDAOExtra
| ErrExtraDataTooLong (length : Z)
| ErrFutureBlock
| ErrOlderBlockTime
| ErrInvalidTimestamp
| ErrInvalidDifficulty (have want : Z)
| ErrGasLimitTooBig (have : Z)
| ErrGasUsedTooHigh (used limit : Z)
| ErrBaseFeeBeforeFork (have : Z)
| ErrInvalidNumber
| ErrUnsupportedFork (fork : string)
| ErrUnexpectedField (field : string)
| ErrMissingField (field : string)
| ErrInvalidTesterPow
| ErrInvalidNonce
| ErrInvalidUncleHash
| ErrUnknownAncestor
| ErrInvalidTerminalBlock
| ErrTooManyUncles
| ErrDuplicateUncle
| ErrUncleIsAncestor
| ErrDanglingUncle.

(** A check that may panic: [None] is the panic, [Some (Some e)] the error [e]. *)
Definition checked : Type := option (option headerError).
Definition accept : checked := Some None.
Definition reject (e : headerError) : checked := Some (Some e).
Definition check_if (bad : bool) (e : headerError) : checked := if bad then reject e else accept.

(** [if err := a; err != nil { return err }; b] *)
Definition and_then (a b : checked) : checked :=
  match a with Some None => b | r => r end.

Declare Scope header_scope.
Delimit Scope header_scope with header.
Open Scope header_scope.
Notation "a 'then!' b" := (and_then a b) (at level 60, right associativity) : header_scope.

Lemma and_then_accept a b : (a then! b) = accept <-> a = accept /\ b = accept.
Proof. unfold accept. destruct a as [[e|]|]; simpl; naive_solver. Qed.

Lemma check_if_accept b e : check_if b e = accept <-> b = false.
Proof. by destruct b. Qed.

(** ** The gas limit *)

Definition VerifyGaslimit (parentGasLimit headerGasLimit : Z) : checked :=
  let diff := i64 (i64 parentGasLimit - i64 headerGasLimit) in
  let diff := if diff <? 0 then i64 (- diff) else diff in
  let limit := parentGasLimit / GasLimitBoundDivisor in
  if limit <=? u64 diff then reject (ErrGasLimitBounds headerGasLimit parentGasLimit (u64 (limit - 1)))
  else if headerGasLimit <? MinGasLimit then reject ErrGasLimitBelowMinimum
  else accept.

(** ** EIP-1559 *)

Definition CalcBaseFee (config : ChainConfig) (parent : Header) : option Z :=
  if negb (Config.IsLondon config (Some (Number parent))) then Some InitialBaseFee
  else
    let parentGasTarget := GasLimit parent / Config.ElasticityMultiplier config in
    parentBaseFee ← BaseFee parent;
    if GasUsed parent =? parentGasTarget then Some parentBaseFee
    else if parentGasTarget <? GasUsed parent then
      let num := (GasUsed parent - parentGasTarget) * parentBaseFee in
      if parentGasTarget =? 0 then None
      else
        let num := num / parentGasTarget / Config.BaseFeeChangeDenominator config in
        if num <? 1 then Some (parentBaseFee + 1) else Some (parentBaseFee + num)
    else
      let num := (parentGasTarget - GasUsed parent) * parentBaseFee in
      let num := num / parentGasTarget / Config.BaseFeeChangeDenominator config in
      let baseFee := parentBaseFee - num in
      Some (if baseFee <? 0 then 0 else baseFee).

Definition VerifyEIP1559Header (config : ChainConfig) (parent header : Header) : checked :=
  let parentGasLimit :=
    if negb (Config.IsLondon config (Some (Number parent)))
    then u64 (GasLimit parent * Config.ElasticityMultiplier config)
    else GasLimit parent in
  VerifyGaslimit parentGasLimit (GasLimit header) then!
  match BaseFee header with
  | None => reject ErrMissingBaseFee
  | Some fee =>
      match CalcBaseFee config parent with
      | None => None
      | Some expectedBaseFee =>
          check_if (negb (fee =? expectedBaseFee)) (ErrInvalidBaseFee fee expectedBaseFee)
      end
  end.

(** ** EIP-4844 *)

(** The loop of [fakeExponential], from iteration [i] on: it ends when [accum] is not
    positive.  [None] is that the fuel did not suffice. *)
Fixpoint fakeExponential_loop (fuel : nat) (i output accum numerator denominator : Z) : option Z :=
  match fuel with
  | O => None
  | S fuel =>
      if 0 <? accum then
        fakeExponential_loop fuel (i + 1) (output + accum)
          (accum * numerator / denominator / i) numerator denominator
      else Some output
  end.

(** Enough iterations: up to twice the quotient the terms may grow, from then on each is
    at most half of the one before. *)
Definition fakeExponential_fuel (factor numerator denominator : Z) : nat :=
  let q := numerator / denominator in
  Z.to_nat (2 * (q + 1) + (Z.log2 (factor * denominator) + 1 + 2 * (q + 1) * (Z.log2 (q + 1) + 1)) + 1).

(** The division by zero panics. *)
Definition fakeExponential (factor numerator denominator : Z) : option Z :=
  output ← fakeExponential_loop (fakeExponential_fuel factor numerator denominator) 1 0
             (factor * denominator) numerator denominator;
  if denominator =? 0 then None else Some (output / denominator).

Module Eip4844.

Definition minBlobGasPrice : Z := BlobTxMinBlobGasprice.

Definition maxBlobGas (bc : BlobConfig) : Z := u64 (u64 (Max bc) * BlobTxBlobGasPerBlob).

Definition blobBaseFee (bc : BlobConfig) (excessBlobGas : Z) : option Z :=
  fakeExponential minBlobGasPrice excessBlobGas (UpdateFraction bc).

Definition blobPrice (bc : BlobConfig) (excessBlobGas : Z) : option Z :=
  f ← blobBaseFee bc excessBlobGas;
  Some (f * BlobTxBlobGasPerBlob).

(** The schedule of the latest fork that has one. *)
Definition latestBlobConfig (cfg : ChainConfig) (time : Z) : option BlobConfig :=
  s ← blobSchedule cfg;
  let london := LondonBlock cfg in
  let pick (active : bool) (bc rest : option BlobConfig) : option BlobConfig :=
    if active then match bc with Some b => Some b | None => rest end else rest in
  pick (Config.IsBPO5 cfg london time) (bsc_BPO5 s)
  (pick (Config.IsBPO4 cfg london time) (bsc_BPO4 s)
  (pick (Config.IsBPO3 cfg london time) (bsc_BPO3 s)
  (pick (Config.IsBPO2 cfg london time) (bsc_BPO2 s)
  (pick (Config.IsBPO1 cfg london time) (bsc_BPO1 s)
  (pick (Config.IsOsaka cfg london time 0) (bsc_Osaka s)
  (pick (Config.IsPrague cfg london time 0) (bsc_Prague s)
  (pick (Config.IsCancun cfg london time 0) (bsc_Cancun s) None))))))).

Definition calcExcessBlobGas (isOsaka : bool) (bcfg : BlobConfig) (parent : Header) : option Z :=
  '(parentExcessBlobGas, parentBlobGasUsed) ←
    match ExcessBlobGas parent with
    | Some excess => used ← BlobGasUsed parent; Some (excess, used)
    | None => Some (0, 0)
    end;
  let excessBlobGas := u64 (parentExcessBlobGas + parentBlobGasUsed) in
  let targetGas := u64 (u64 (Target bcfg) * BlobTxBlobGasPerBlob) in
  if excessBlobGas <? targetGas then Some 0
  else if isOsaka then
    parentBaseFee ← BaseFee parent;
    blobPrice ← blobPrice bcfg parentExcessBlobGas;
    if blobPrice <? BlobBaseCost * parentBaseFee then
      if u64 (Max bcfg) =? 0 then None
      else
        let scaledExcess :=
          u64 (parentBlobGasUsed * u64 (Max bcfg - Target bcfg)) / u64 (Max bcfg) in
        Some (u64 (parentExcessBlobGas + scaledExcess))
    else Some (excessBlobGas - targetGas)
  else Some (excessBlobGas - targetGas).

Definition CalcExcessBlobGas (config : ChainConfig) (parent : Header) (headTimestamp : Z) : option Z :=
  let isOsaka := Config.IsOsaka config (LondonBlock config) headTimestamp 0 in
  match latestBlobConfig config headTimestamp with
  | None => Some 0
  | Some bcfg => calcExcessBlobGas isOsaka bcfg parent
  end.

Definition VerifyEIP4844Header (config : ChainConfig) (parent header : Header) : checked :=
  if negb (u64 (Number header) =? u64 (u64 (Number parent) + 1)) then None
  else
    match latestBlobConfig config (Time header) with
    | None => None
    | Some bcfg =>
        match ExcessBlobGas header, BlobGasUsed header with
        | None, _ => reject ErrMissingExcessBlobGas
        | _, None => reject ErrMissingBlobGasUsed
        | Some excess, Some used =>
            check_if (maxBlobGas bcfg <? used) (ErrBlobGasUsedTooHigh used (maxBlobGas bcfg)) then!
            check_if (negb (used mod BlobTxBlobGasPerBlob =? 0)) (ErrBlobGasUsedNotMultiple used) then!
            match CalcExcessBlobGas config parent (Time header) with
            | None => None
            | Some expected =>
                check_if (negb (excess =? expected)) (ErrInvalidExcessBlobGas excess expected)
            end
        end
    end.

Definition CalcBlobFee (config : ChainConfig) (header : Header) : option Z :=
  if Config.IsArbitrum config then Some 0
  else
    blobConfig ← latestBlobConfig config (Time header);
    excess ← ExcessBlobGas header;
    blobBaseFee blobConfig excess.

Definition MaxBlobsPerBlock (cfg : ChainConfig) (time : Z) : Z :=
  match latestBlobConfig cfg time with None => 0 | Some bc => Max bc end.

Definition MaxBlobGasPerBlock (cfg : ChainConfig) (time : Z) : Z :=
  u64 (u64 (MaxBlobsPerBlock cfg time) * BlobTxBlobGasPerBlob).

Definition LatestMaxBlobsPerBlock (cfg : ChainConfig) : Z := MaxBlobsPerBlock cfg MaxUint64.

Definition CalcBlobFeeWithConfig (bc : option BlobConfig) (excessBlobGas : option Z) : option Z :=
  match bc, excessBlobGas with
  | Some bc, Some excess => blobBaseFee bc excess
  | _, _ => Some 0
  end.

End Eip4844.

(** ** The DAO fork *)

Definition DAOForkBlockExtra : list Z :=
  [0x64; 0x61; 0x6f; 0x2d; 0x68; 0x61; 0x72; 0x64; 0x2d; 0x66; 0x6f; 0x72; 0x6b].
Definition DAOForkExtraRange : Z := 10.
Definition DAORefundContract : Z := 0xbf4ed7b27f1d666546e30d74d50d173d20bca754.

Definition VerifyDAOHeaderExtraData (config : ChainConfig) (header : Header) : checked :=
  match DAOForkBlock config with
  | None => accept
  | Some fork =>
      let limit := fork + DAOForkExtraRange in
      if (Number header <? fork) || (limit <=? Number header) then accept
      else if DAOForkSupport config then
        check_if (negb (bool_decide (Extra header = DAOForkBlockExtra))) ErrBadProDAOExtra
      else check_if (bool_decide (Extra header = DAOForkBlockExtra)) ErrBadNoDAOExtra
  end.

(** ** What ArbOS keeps in a header *)

Record HeaderInfo := mkHeaderInfo {
  SendRoot : list Z;
  SendCount : Z;
  L1BlockNumber : Z;
  ArbOSFormatVersion : Z;
  CollectTips : bool
}.

Definition ArbosVersionCollectTipsOld : Z := ArbosVersion_9.
Definition emptyHeaderInfo : HeaderInfo := mkHeaderInfo (replicate 32 0) 0 0 0 false.

Definition extra (info : HeaderInfo) : list Z := SendRoot info.

Definition mixDigest (info : HeaderInfo) : list Z :=
  U256.be_bytes 8 (SendCount info) ++ U256.be_bytes 8 (L1BlockNumber info)
  ++ U256.be_bytes 8 (ArbOSFormatVersion info)
  ++ [0; if CollectTips info && negb (ArbOSFormatVersion info =? ArbosVersionCollectTipsOld) then 1 else 0]
  ++ replicate 6 0.

Definition UpdateHeaderWithInfo (info : HeaderInfo) (h : Header) : Header :=
  mkHeader (ParentHash h) (UncleHash h) (Coinbase h) (Root h) (TxHash h) (ReceiptHash h) (Bloom h)
    (Difficulty h) (Number h) (GasLimit h) (GasUsed h) (Time h) (extra info) (mixDigest info)
    (Nonce h) (BaseFee h) (WithdrawalsHash h) (BlobGasUsed h) (ExcessBlobGas h) (ParentBeaconRoot h)
    (RequestsHash h).

(** The cutoff [legacyZeroBaseFeeUntil] is a global variable. *)
Definition DeserializeHeaderExtraInformation (legacyZeroBaseFeeUntil : Z) (header : option Header) :
    HeaderInfo :=
  match header with
  | None => emptyHeaderInfo
  | Some h =>
      match BaseFee h with
      | None => emptyHeaderInfo
      | Some baseFee =>
          if negb (Nat.eqb (length (Extra h)) 32) || negb (Difficulty h =? 1) then emptyHeaderInfo
          else
            let version := U256.be_value (take 8 (drop 16 (MixDigest h))) in
            if (version <=? ArbosVersion_40) && (baseFee =? 0) && (Time h <? legacyZeroBaseFeeUntil)
            then emptyHeaderInfo
            else
              {| SendRoot := Extra h;
                 SendCount := U256.be_value (take 8 (MixDigest h));
                 L1BlockNumber := U256.be_value (take 8 (drop 8 (MixDigest h)));
                 ArbOSFormatVersion := version;
                 CollectTips := (version =? ArbosVersionCollectTipsOld)
                                || (Z.land (default 0 (MixDigest h !! 25%nat)) 1 =? 1) |}
      end
  end.
