(* ===== verification/FeeMarket.v ===== *)
(** The fee markets: how the base fee follows the gas used, and the blob base fee the
    excess blob gas. *)

From stdpp Require Import base gmap list numbers option strings.
From S2P Require Import Prelude Params ChainConfig Uint256 Header.
Open Scope Z_scope.

(** ** The base fee *)

(** Rounded down, [a * b / t / 8] grows with [a]. *)
Lemma fee_delta_mono a1 a2 b t : 0 <= a1 <= a2 -> 0 <= b -> 0 < t -> a1 * b / t / 8 <= a2 * b / t / 8.
Proof. intros. apply Z.div_le_mono; [lia|]. apply Z.div_le_mono; [lia|]. nia. Qed.

Lemma fee_delta_nonneg a b t : 0 <= a -> 0 <= b -> 0 < t -> 0 <= a * b / t / 8.
Proof. intros. apply Z.div_pos; [|lia]. apply Z.div_pos; [|lia]. nia. Qed.

Lemma fee_delta_le_eighth a b t : 0 <= a <= t -> 0 <= b -> 0 < t -> a * b / t / 8 <= b / 8.
Proof.
  intros. apply Z.div_le_mono; [lia|]. apply Z.div_le_upper_bound; nia.
Qed.

(** The base fee as a function of the gas used. *)
Definition next_base_fee (target b used : Z) : Z :=
  if used =? target then b
  else if target <? used then b + Z.max 1 ((used - target) * b / target / 8)
  else b - (target - used) * b / target / 8.

Lemma CalcBaseFee_value config parent b :
  Config.IsLondon config (Some (Number parent)) = true -> BaseFee parent = Some b -> 0 <= b ->
  2 <= GasLimit parent -> 0 <= GasUsed parent ->
  CalcBaseFee config parent = Some (next_base_fee (GasLimit parent / 2) b (GasUsed parent)).
Proof.
  intros HL HB Hb Hg Hu. unfold CalcBaseFee, next_base_fee. rewrite HL, HB. simpl.
  change (Config.ElasticityMultiplier config) with 2. change (Config.BaseFeeChangeDenominator config) with 8.
  set (t := GasLimit parent / 2). assert (1 <= t) by (subst t; apply Z.div_le_lower_bound; lia).
  destruct (Z.eqb_spec (GasUsed parent) t); [done|]. destruct (Z.ltb_spec t (GasUsed parent)).
  - destruct (Z.eqb_spec t 0); [lia|]. destruct (Z.ltb_spec ((GasUsed parent - t) * b / t / 8) 1); f_equal; lia.
  - pose proof (fee_delta_le_eighth (t - GasUsed parent) b t ltac:(lia) Hb ltac:(lia)).
    destruct (Z.ltb_spec (b - (t - GasUsed parent) * b / t / 8) 0); [go_lia|done].
Qed.

(** The next base fee exists and is not negative. *)
Lemma base_fee_bounds_of config parent b :
  Config.IsLondon config (Some (Number parent)) = true -> BaseFee parent = Some b -> 0 <= b ->
  2 <= GasLimit parent -> 0 <= GasUsed parent -> GasUsed parent <= GasLimit parent ->
  exists f, CalcBaseFee config parent = Some f /\ 0 <= f.
Proof.
  intros HL HB Hb Hg Hu Hl. eexists. split; [by apply CalcBaseFee_value|]. unfold next_base_fee.
  assert (1 <= GasLimit parent / 2) by (apply Z.div_le_lower_bound; lia).
  destruct (Z.eqb_spec (GasUsed parent) (GasLimit parent / 2)); [done|].
  destruct (Z.ltb_spec (GasLimit parent / 2) (GasUsed parent)); [lia|].
  pose proof (fee_delta_le_eighth (GasLimit parent / 2 - GasUsed parent) b (GasLimit parent / 2)
    ltac:(lia) Hb ltac:(lia)). go_lia.
Qed.

(** C37.  The base fee follows the gas used by the parent block.  On a parent after
    London CalcBaseFee returns; the fee stays at the target, rises above it, by at most
    an eighth or one wei (the remainder of an odd gas limit aside), and falls below it,
    by at most an eighth and never under zero; and more gas used never gives a lower
    fee. *)
Theorem base_fee_follows_gas_used config p1 p2 b :
  Config.IsLondon config (Some (Number p1)) = true -> Number p2 = Number p1 ->
  BaseFee p1 = Some b -> BaseFee p2 = Some b -> 0 <= b ->
  2 <= GasLimit p1 -> GasLimit p2 = GasLimit p1 ->
  0 <= GasUsed p1 <= GasUsed p2 -> GasUsed p2 <= GasLimit p2 ->
  exists f1 f2, CalcBaseFee config p1 = Some f1 /\ CalcBaseFee config p2 = Some f2
    /\ f1 <= f2
    /\ let target := GasLimit p1 / 2 in
       (GasUsed p1 = target -> f1 = b)
       /\ (target < GasUsed p1 -> b < f1 <= b + Z.max 1 ((b + b / target) / 8))
       /\ (GasUsed p1 < target -> 0 <= f1 /\ b - b / 8 <= f1 <= b).
Proof.
  intros HL HN HB1 HB2 Hb Hg HG Hu Hu2.
  exists (next_base_fee (GasLimit p1 / 2) b (GasUsed p1)), (next_base_fee (GasLimit p1 / 2) b (GasUsed p2)).
  split; [by apply CalcBaseFee_value; try done; lia|].
  split; [rewrite <- HG; apply CalcBaseFee_value; rewrite ?HN; try done; lia|].
  set (t := GasLimit p1 / 2). assert (1 <= t) by (subst t; apply Z.div_le_lower_bound; lia).
  assert (GasLimit p1 <= 2 * t + 1) as Hlim by (subst t; go_lia).
  pose proof (fun a H => fee_delta_nonneg a b t H Hb ltac:(lia)) as H0.
  pose proof (fun a H => fee_delta_le_eighth a b t H Hb ltac:(lia)) as H8.
  pose proof (fun a1 a2 H => fee_delta_mono a1 a2 b t H Hb ltac:(lia)) as Hm.
  unfold next_base_fee. split.
  { destruct (Z.eqb_spec (GasUsed p1) t), (Z.eqb_spec (GasUsed p2) t), (Z.ltb_spec t (GasUsed p1)),
      (Z.ltb_spec t (GasUsed p2)); try lia;
      first
        [ specialize (Hm (GasUsed p1 - t) (GasUsed p2 - t) ltac:(lia)); lia
        | specialize (Hm (t - GasUsed p2) (t - GasUsed p1) ltac:(lia)); lia
        | specialize (H0 (t - GasUsed p1) ltac:(lia)); lia ]. }
  split_and!; intros Hc.
  - subst t. by rewrite Hc, Z.eqb_refl.
  - destruct (Z.eqb_spec (GasUsed p1) t); [lia|]. destruct (Z.ltb_spec t (GasUsed p1)); [|lia].
    assert ((GasUsed p1 - t) * b / t / 8 <= (b + b / t) / 8); [|lia].
    apply Z.div_le_mono; [lia|]. rewrite <- Z.div_add_l by lia. apply Z.div_le_mono; [lia|].
    assert (GasUsed p1 - t <= t + 1) by lia. nia.
  - destruct (Z.eqb_spec (GasUsed p1) t); [lia|]. destruct (Z.ltb_spec t (GasUsed p1)); [lia|].
    specialize (H0 (t - GasUsed p1) ltac:(lia)). specialize (H8 (t - GasUsed p1) ltac:(lia)). go_lia.
Qed.

(** ** The blob base fee *)

Lemma fakeExponential_loop_end fuel i output numerator denominator :
  (0 < fuel)%nat -> fakeExponential_loop fuel i output 0 numerator denominator = Some output.
Proof. by destruct fuel; [lia|]. Qed.

(** Late terms halve. *)
Lemma fakeExponential_halving m : forall fuel i output accum numerator denominator,
  0 <= accum < 2 ^ Z.of_nat m -> (m < fuel)%nat -> 0 <= numerator -> 0 < denominator ->
  2 * (numerator / denominator + 1) <= i ->
  exists r, fakeExponential_loop fuel i output accum numerator denominator = Some r.
Proof.
  induction m as [|m IH]; intros fuel i output accum n d Ha Hf Hn Hd Hi.
  - replace accum with 0 by (simpl in Ha; lia). exists output. apply fakeExponential_loop_end. lia.
  - destruct fuel as [|fuel]; [lia|]. simpl. destruct (Z.ltb_spec 0 accum); [|by eexists].
    apply IH; try lia. rewrite Nat2Z.inj_succ, Z.pow_succ_r in Ha by lia.
    assert (n < d * (n / d + 1)) by go_lia. assert (0 <= n / d) by (apply Z.div_pos; lia).
    rewrite Z.div_div by lia. split; [apply Z.div_pos; nia|]. apply Z.div_lt_upper_bound; [nia|].
    set (P := 2 ^ Z.of_nat m) in *. set (Q := d * (n / d + 1)) in *.
    assert (2 * Q <= d * i) by (subst Q; nia). clearbody P Q.
    assert (accum * n <= accum * Q) by nia. assert (accum * Q < 2 * P * Q) by nia. nia.
Qed.

(** Early terms grow by a bounded factor. *)
Lemma fakeExponential_growing k m g : forall fuel i output accum numerator denominator,
  0 <= numerator -> 0 < denominator -> numerator / denominator + 1 <= 2 ^ g -> 0 <= g ->
  0 <= accum -> accum * 2 ^ (g * Z.of_nat k) < 2 ^ Z.of_nat m -> (k + m < fuel)%nat ->
  1 <= i -> 2 * (numerator / denominator + 1) <= i + Z.of_nat k ->
  exists r, fakeExponential_loop fuel i output accum numerator denominator = Some r.
Proof.
  induction k as [|k IH]; intros fuel i output accum n d Hn Hd Hg Hg0 Ha Hm Hf Hi Hk.
  - apply (fakeExponential_halving m); try lia. rewrite Z.mul_0_r, Z.pow_0_r in Hm. lia.
  - destruct fuel as [|fuel]; [lia|]. simpl. destruct (Z.ltb_spec 0 accum); [|by eexists].
    assert (0 <= accum * n / d / i <= accum * 2 ^ g) as [H1 H2].
    { assert (n < d * (n / d + 1)) by go_lia. rewrite Z.div_div by lia.
      split; [apply Z.div_pos; nia|]. apply Z.div_le_upper_bound; [nia|].
      set (G := 2 ^ g) in *. clearbody G. assert (n <= d * G) by nia. assert (0 <= d * G) by nia.
      assert (accum * n <= accum * (d * G)) by nia.
      assert (accum * (d * G) <= i * (accum * (d * G))) by nia. lia. }
    apply IH; try lia. eapply Z.le_lt_trans; [|exact Hm].
    replace (g * Z.of_nat (S k)) with (g + g * Z.of_nat k) by lia. rewrite Z.pow_add_r by lia.
    assert (0 < 2 ^ (g * Z.of_nat k)) by (apply Z.pow_pos_nonneg; lia). nia.
Qed.

Lemma fakeExponential_returns factor numerator denominator :
  0 <= factor -> 0 <= numerator -> 0 < denominator ->
  exists r, fakeExponential_loop (fakeExponential_fuel factor numerator denominator) 1 0
    (factor * denominator) numerator denominator = Some r.
Proof.
  intros Hf Hn Hd. set (q := numerator / denominator). assert (0 <= q) by (apply Z.div_pos; lia).
  assert (numerator / denominator + 1 <= 2 ^ (Z.log2 (q + 1) + 1)) as Hq.
  { pose proof (Z.log2_spec (q + 1) ltac:(lia)). subst q. rewrite Z.add_1_r in *. lia. }
  pose proof (Z.log2_nonneg (q + 1)). pose proof (Z.log2_nonneg (factor * denominator)).
  set (M := Z.log2 (factor * denominator) + 1 + 2 * (q + 1) * (Z.log2 (q + 1) + 1)).
  assert (0 <= M) by nia.
  apply (fakeExponential_growing (Z.to_nat (2 * (q + 1))) (Z.to_nat M) (Z.log2 (q + 1) + 1));
    try done; try lia; try nia.
  - rewrite !Z2Nat.id by lia. assert (factor * denominator < 2 ^ (Z.log2 (factor * denominator) + 1)).
    { destruct (Z.eq_dec (factor * denominator) 0) as [->|]; [done|].
      pose proof (Z.log2_spec (factor * denominator) ltac:(nia)). rewrite Z.add_1_r. lia. }
    subst M. rewrite (Z.pow_add_r 2 (_ + _)) by nia.
    rewrite (Z.mul_comm (Z.log2 (q + 1) + 1) (2 * (q + 1))). apply Z.mul_lt_mono_pos_r; [|done].
    apply Z.pow_pos_nonneg; nia.
  - unfold fakeExponential_fuel. fold q. fold M. lia.
Qed.

(** The output only grows, and more so with a larger numerator. *)
Lemma fakeExponential_loop_ge fuel i output accum n d r :
  fakeExponential_loop fuel i output accum n d = Some r ->
  output <= r /\ (0 < accum -> output + accum <= r).
Proof.
  revert i output accum. induction fuel as [|fuel IH]; intros i output accum H; [done|]. simpl in H.
  destruct (Z.ltb_spec 0 accum); [|injection H as <-; lia]. apply IH in H as [H _]. lia.
Qed.

Lemma fakeExponential_loop_mono fuel1 : forall fuel2 i o1 o2 a1 a2 n1 n2 d r1 r2,
  1 <= i -> 0 < d -> 0 <= n1 <= n2 -> o1 <= o2 -> 0 <= a1 <= a2 ->
  fakeExponential_loop fuel1 i o1 a1 n1 d = Some r1 ->
  fakeExponential_loop fuel2 i o2 a2 n2 d = Some r2 -> r1 <= r2.
Proof.
  induction fuel1 as [|fuel1 IH]; intros fuel2 i o1 o2 a1 a2 n1 n2 d r1 r2 Hi Hd Hn Ho Ha H1 H2; [done|].
  simpl in H1. destruct (Z.ltb_spec 0 a1).
  - destruct fuel2 as [|fuel2]; [done|]. simpl in H2. destruct (Z.ltb_spec 0 a2); [|lia].
    refine (IH fuel2 (i + 1) _ _ _ _ n1 n2 d r1 r2 _ Hd Hn _ _ H1 H2); [lia|lia|]. split.
    + rewrite Z.div_div by lia. apply Z.div_pos; nia.
    + apply Z.div_le_mono; [lia|]. apply Z.div_le_mono; [lia|]. nia.
  - injection H1 as <-. apply fakeExponential_loop_ge in H2 as [? _]. lia.
Qed.

(** The blob base fee is total, at least the minimum price of one wei, exactly that
    without excess blob gas, and grows with the excess: the loop of fakeExponential
    terminates for every numerator and every positive update fraction. *)
Theorem blob_base_fee_monotone bc excess1 excess2 :
  0 < UpdateFraction bc -> 0 <= excess1 <= excess2 ->
  exists f1 f2, Eip4844.blobBaseFee bc excess1 = Some f1 /\ Eip4844.blobBaseFee bc excess2 = Some f2
    /\ Eip4844.minBlobGasPrice <= f1 <= f2
    /\ (excess1 = 0 -> f1 = Eip4844.minBlobGasPrice).
Proof.
  intros Hd He. unfold Eip4844.blobBaseFee, fakeExponential. set (d := UpdateFraction bc) in *.
  change Eip4844.minBlobGasPrice with 1.
  destruct (fakeExponential_returns 1 excess1 d) as [r1 E1]; [lia..|].
  destruct (fakeExponential_returns 1 excess2 d) as [r2 E2]; [lia..|].
  rewrite E1, E2. cbn [mbind option_bind]. destruct (Z.eqb_spec d 0) as [|_]; [lia|].
  exists (r1 / d), (r2 / d). split; [done|]. split; [done|].
  assert (0 <= 1 * d <= 1 * d) as Hdd by lia.
  pose proof (fakeExponential_loop_mono _ _ _ _ _ _ _ _ _ _ _ _ (Z.le_refl 1) Hd He (Z.le_refl 0)
    Hdd E1 E2) as Hle.
  pose proof (fakeExponential_loop_ge _ _ _ _ _ _ _ E1) as [_ Hge]. specialize (Hge ltac:(lia)).
  split; [split; [apply Z.div_le_lower_bound; lia|by apply Z.div_le_mono]|].
  intros ->. unfold fakeExponential_fuel in E1. rewrite Z.div_0_l in E1 by lia.
  set (fuel := Z.to_nat _) in E1. assert (2 <= fuel)%nat as Hf.
  { subst fuel. pose proof (Z.log2_nonneg (1 * d)). change (Z.log2 (0 + 1)) with 0. lia. }
  destruct fuel as [|[|fuel]]; [lia..|]. simpl in E1. destruct (Z.ltb_spec 0 (1 * d)); [|lia].
  rewrite Z.mul_0_r, Z.div_0_l in E1 by lia. simpl in E1. injection E1 as <-.
  rewrite Z.mul_1_l. by apply Z.div_same; lia.
Qed.

(** ** Witnesses *)

Definition header_with (number gasLimit gasUsed : Z) (baseFee : option Z) : Header :=
  mkHeader 0 EmptyUncleHash 0 0 0 0 [] 0 number gasLimit gasUsed 0 [] [] 0 baseFee None None None None None.

Lemma base_fee_follows_gas_used_witness :
  let config := mkChainConfig (Some 1) None None false None None None None None None None None None (Some 0)
    None None None None None None None None None None None None None None None 0 false None
    DisableArbitrumParams in
  exists f1 f2, CalcBaseFee config (header_with 1 30000000 15000000 (Some 1000)) = Some f1
    /\ CalcBaseFee config (header_with 1 30000000 30000000 (Some 1000)) = Some f2
    /\ f1 = 1000 /\ f2 = 1125 /\ f1 <= f2.
Proof.
  intros config.
  destruct (base_fee_follows_gas_used config (header_with 1 30000000 15000000 (Some 1000))
    (header_with 1 30000000 30000000 (Some 1000)) 1000) as (f1 & f2 & E1 & E2 & Hle & Hb & _);
    try done; simpl; try lia.
  exists f1, f2. split; [done|]. split; [done|]. split; [by apply Hb|]. split; [|done].
  vm_compute in E2. by injection E2.
Defined.

(** The blob fee of the Cancun schedule at an excess of ten million. *)
Lemma blob_base_fee_monotone_witness :
  exists f1 f2, Eip4844.blobBaseFee (mkBlobConfig 3 6 3338477) 0 = Some f1
    /\ Eip4844.blobBaseFee (mkBlobConfig 3 6 3338477) 10000000 = Some f2 /\ 1 <= f1 <= f2 /\ f2 = 19.
Proof.
  destruct (blob_base_fee_monotone (mkBlobConfig 3 6 3338477) 0 10000000) as (f1 & f2 & E1 & E2 & Hle & _);
    [done|lia|].
  exists f1, f2. split; [done|]. split; [done|]. split; [exact Hle|]. vm_compute in E2. by injection E2.
Defined.
