(* ===== verification/Difficulty.v ===== *)
(** The difficulty of proof-of-work blocks: the algorithms of
    [consensus/ethash/consensus.go] over big integers and the ones of
    [consensus/ethash/difficulty.go] over 256-bit integers, which agree. *)

From stdpp Require Import base gmap list numbers option strings.
From S2P Require Import Prelude Params ChainConfig Uint256 Header.
Open Scope Z_scope.

Definition DifficultyBoundDivisor : Z := 2048.
Definition MinimumDifficulty : Z := 131072.
Definition DurationLimit : Z := 13.
Definition expDiffPeriod : Z := 100000.

(** ** Over big integers *)

(** The exponential factor, "the bomb". *)
Definition add_bomb (x periodCount : Z) : Z :=
  if 1 <? periodCount then x + 2 ^ (periodCount - 2) else x.

Definition makeDifficultyCalculator (bombDelay time : Z) (parent : Header) : Z :=
  let bombDelayFromParent := bombDelay - 1 in
  let x := (time - Time parent) / 9 in
  let x := if UncleHash parent =? EmptyUncleHash then 1 - x else 2 - x in
  let x := if x <? -99 then -99 else x in
  let y := Difficulty parent / DifficultyBoundDivisor in
  let x := Difficulty parent + y * x in
  let x := if x <? MinimumDifficulty then MinimumDifficulty else x in
  let fakeBlockNumber :=
    if bombDelayFromParent <=? Number parent then Number parent - bombDelayFromParent else 0 in
  add_bomb x (fakeBlockNumber / expDiffPeriod).

Definition calcDifficultyHomestead (time : Z) (parent : Header) : Z :=
  let x := 1 - (time - Time parent) / 10 in
  let x := if x <? -99 then -99 else x in
  let y := Difficulty parent / DifficultyBoundDivisor in
  let x := Difficulty parent + y * x in
  let x := if x <? MinimumDifficulty then MinimumDifficulty else x in
  add_bomb x ((Number parent + 1) / expDiffPeriod).

Definition calcDifficultyFrontier (time : Z) (parent : Header) : Z :=
  let adjust := Difficulty parent / DifficultyBoundDivisor in
  let diff :=
    if time - Time parent <? DurationLimit then Difficulty parent + adjust
    else Difficulty parent - adjust in
  let diff := if diff <? MinimumDifficulty then MinimumDifficulty else diff in
  let periodCount := (Number parent + 1) / expDiffPeriod in
  if 1 <? periodCount then
    let diff := diff + 2 ^ (periodCount - 2) in
    if diff <? MinimumDifficulty then MinimumDifficulty else diff
  else diff.

Definition calcDifficultyEip5133 := makeDifficultyCalculator 11400000.
Definition calcDifficultyEip4345 := makeDifficultyCalculator 10700000.
Definition calcDifficultyEip3554 := makeDifficultyCalculator 9700000.
Definition calcDifficultyEip2384 := makeDifficultyCalculator 9000000.
Definition calcDifficultyConstantinople := makeDifficultyCalculator 5000000.
Definition calcDifficultyByzantium := makeDifficultyCalculator 3000000.

Definition CalcDifficulty (config : ChainConfig) (time : Z) (parent : Header) : Z :=
  let next := Some (Number parent + 1) in
  if Config.IsGrayGlacier config next then calcDifficultyEip5133 time parent
  else if Config.IsArrowGlacier config next then calcDifficultyEip4345 time parent
  else if Config.IsLondon config next then calcDifficultyEip3554 time parent
  else if Config.IsMuirGlacier config next then calcDifficultyEip2384 time parent
  else if Config.IsConstantinople config next then calcDifficultyConstantinople time parent
  else if Config.IsByzantium config next then calcDifficultyByzantium time parent
  else if Config.IsHomestead config next then calcDifficultyHomestead time parent
  else calcDifficultyFrontier time parent.

(** ** Over 256-bit integers *)

Definition frontierDurationLimit : Z := 13.
Definition minimumDifficulty : Z := 131072.
Definition expDiffPeriodUint : Z := 100000.
Definition difficultyBoundDivisor : Z := 11.

Section Uint.
Context {U : U256.Ops}.

Definition at_least_minimum (x : Z) : Z :=
  if U256.LtUint64 x minimumDifficulty then U256.SetUint64 minimumDifficulty else x.

(** [SetOne], shifted. *)
Definition two_to (n : Z) : Z := U256.Lsh (U256.SetUint64 1) n.

Definition CalcDifficultyFrontierU256 (time : Z) (parent : Header) : Z :=
  let '(pDiff, _) := U256.FromBig (Difficulty parent) in
  let adjust := U256.Rsh pDiff difficultyBoundDivisor in
  let pDiff :=
    if u64 (time - Time parent) <? frontierDurationLimit then U256.Add pDiff adjust
    else U256.Sub pDiff adjust in
  let pDiff := at_least_minimum pDiff in
  let periodCount := u64 (u64 (Number parent) + 1) / expDiffPeriodUint in
  if 1 <? periodCount then U256.Add pDiff (two_to (periodCount - 2)) else pDiff.

Definition CalcDifficultyHomesteadU256 (time : Z) (parent : Header) : Z :=
  let '(pDiff, _) := U256.FromBig (Difficulty parent) in
  let adjust := U256.Rsh pDiff difficultyBoundDivisor in
  let x := u64 (time - Time parent) / 10 in
  let '(x, neg) := if x =? 0 then (1, false) else if 100 <=? x then (99, true) else (x - 1, true) in
  let z := U256.SetUint64 x in
  let adjust := U256.Mul adjust z in
  let pDiff := if neg : bool then U256.Sub pDiff adjust else U256.Add pDiff adjust in
  let pDiff := at_least_minimum pDiff in
  let periodCount := u64 (1 + u64 (Number parent)) / expDiffPeriodUint in
  if 1 <? periodCount then U256.Add pDiff (two_to (periodCount - 2)) else pDiff.

Definition MakeDifficultyCalculatorU256 (bombDelay time : Z) (parent : Header) : Z :=
  let bombDelayFromParent := u64 (u64 bombDelay - 1) in
  let x := u64 (time - Time parent) / 9 in
  let c := if UncleHash parent =? EmptyUncleHash then 1 else 2 in
  let xNeg := c <=? x in
  let x := if xNeg then x - c else c - x in
  let x := if 99 <? x then 99 else x in
  let '(y, _) := U256.FromBig (Difficulty parent) in
  let pDiff := y in
  let z := U256.SetUint64 x in
  let y := U256.Rsh y difficultyBoundDivisor in
  let z := U256.Mul y z in
  let y := if xNeg then U256.Sub pDiff z else U256.Add pDiff z in
  let y := at_least_minimum y in
  let pNum := u64 (Number parent) in
  if bombDelayFromParent <=? pNum then
    let fakeBlockNumber := pNum - bombDelayFromParent in
    if 2 * expDiffPeriodUint <=? fakeBlockNumber then
      U256.Add (two_to (fakeBlockNumber / expDiffPeriodUint - 2)) y
    else y
  else y.

(** ** Agreement *)

Context {L : U256.Laws U}.

(** A parent whose child has a difficulty below 2^256: the bomb is below 2^253. *)
Record bounded_parent (time : Z) (parent : Header) : Prop := {
  bp_diff : 0 <= Difficulty parent < 2 ^ 254;
  bp_number : 0 <= Number parent < 25500000;
  bp_time : 0 <= Time parent <= time;
  bp_now : time < two64
}.

Lemma at_least_minimum_spec x : is_u256 x ->
  at_least_minimum x = if x <? MinimumDifficulty then MinimumDifficulty else x.
Proof.
  intros Hx. unfold at_least_minimum. change minimumDifficulty with MinimumDifficulty.
  rewrite U256.LtUint64_spec, U256.SetUint64_spec by done. done.
Qed.

Lemma pow_252 n : 0 <= n <= 253 -> 0 < 2 ^ n <= 2 ^ 253.
Proof. intros. split; [apply Z.pow_pos_nonneg; lia|]. apply Z.pow_le_mono_r; lia. Qed.

Lemma two_to_spec n : 0 <= n <= 253 -> two_to n = 2 ^ n.
Proof.
  intros Hn. unfold two_to. rewrite U256.SetUint64_spec by done. rewrite U256.Lsh_spec; [|done|lia].
  pose proof (pow_252 n Hn). unfold U256.wrap. rewrite Z.mul_1_l. apply Z.mod_small.
  change two256 with (2 ^ 256). change (2 ^ 253) with (2 ^ 253) in *.
  assert (2 ^ 253 < 2 ^ 256) by reflexivity. lia.
Qed.

Lemma FromBig_difficulty d : 0 <= d < 2 ^ 254 -> U256.FromBig d = (d, false) /\ is_u256 d.
Proof.
  intros Hd. change (2 ^ 254) with 28948022309329048855892746252171976963317496166410141009864396001978282409984 in Hd.
  rewrite U256.FromBig_spec by lia. split; [|unfold is_u256; lia]. unfold U256.wrap.
  rewrite Z.mod_small by lia. destruct (Z.leb_spec two256 d); [lia|done].
Qed.

Lemma Rsh_difficulty d : 0 <= d < 2 ^ 254 ->
  U256.Rsh d difficultyBoundDivisor = d / 2048 /\ 0 <= d / 2048 <= d /\ 2048 * (d / 2048) <= d.
Proof.
  intros Hd. pose proof (FromBig_difficulty d Hd) as [_ Hu].
  rewrite U256.Rsh_spec by done. change (2 ^ difficultyBoundDivisor) with 2048. split; [done|]. go_lia.
Qed.

Lemma Mul_adjust a k d : 0 <= a -> 2048 * a <= d -> d < 2 ^ 254 -> 0 <= k <= 99 ->
  U256.Mul a (U256.SetUint64 k) = a * k /\ 0 <= a * k <= d.
Proof.
  intros Ha Had Hd Hk. change (2 ^ 254) with 28948022309329048855892746252171976963317496166410141009864396001978282409984 in Hd.
  rewrite U256.SetUint64_spec by (unfold is_u64; lia). rewrite U256.Mul_spec by (unfold is_u256; lia).
  unfold U256.wrap. split; [apply Z.mod_small|]; nia.
Qed.

(** The difficulty before the bomb: the parent's, plus or minus the adjustment. *)
Lemma adjusted_spec (d a : Z) (neg : bool) : 0 <= d < 2 ^ 254 -> 0 <= a <= d ->
  let x := if neg then d - a else d + a in
  at_least_minimum (if neg then U256.Sub d a else U256.Add d a)
  = (if x <? MinimumDifficulty then MinimumDifficulty else x)
  /\ 0 <= (if x <? MinimumDifficulty then MinimumDifficulty else x) < 2 ^ 255.
Proof.
  intros Hd Ha x. pose proof (FromBig_difficulty d Hd) as [_ Hu].
  change (2 ^ 254) with 28948022309329048855892746252171976963317496166410141009864396001978282409984 in Hd.
  change (2 ^ 255) with 57896044618658097711785492504343953926634992332820282019728792003956564819968.
  assert (is_u256 a) by (unfold is_u256 in *; lia).
  assert ((if neg then U256.Sub d a else U256.Add d a) = x /\ 0 <= x < two256) as [-> Hx].
  { subst x. destruct neg; rewrite ?U256.Sub_spec, ?U256.Add_spec by done; unfold U256.wrap;
      rewrite Z.mod_small by lia; lia. }
  split; [by apply at_least_minimum_spec|].
  destruct (Z.ltb_spec x MinimumDifficulty); subst x; destruct neg; unfold MinimumDifficulty in *; lia.
Qed.

(** Adding the bomb does not overflow. *)
Lemma Add_bomb d p : 0 <= d < 2 ^ 255 -> 0 <= p <= 253 ->
  U256.Add d (two_to p) = d + 2 ^ p /\ U256.Add (two_to p) d = d + 2 ^ p.
Proof.
  intros Hd Hp. rewrite two_to_spec by done. pose proof (pow_252 p Hp) as [H1 H2].
  change (2 ^ 253) with 14474011154664524427946373126085988481658748083205070504932198000989141204992 in H2.
  change (2 ^ 255) with 57896044618658097711785492504343953926634992332820282019728792003956564819968 in Hd.
  rewrite !U256.Add_spec by (unfold is_u256; lia). unfold U256.wrap. rewrite !Z.mod_small by lia. lia.
Qed.

(** The period of the bomb. *)
Lemma bounded_period time parent : bounded_parent time parent ->
  u64 (u64 (Number parent) + 1) = Number parent + 1 /\ u64 (time - Time parent) = time - Time parent
  /\ 0 <= (Number parent + 1) / 100000 <= 255.
Proof.
  intros [_ Hn Ht Hnow]. rewrite (u64_small (Number parent)) by (unfold is_u64; lia).
  rewrite !u64_small by (unfold is_u64; lia). split; [done|]. split; [done|]. go_lia.
Qed.

(** Frontier checks the minimum again after the bomb, which is not needed. *)
Lemma bomb_above_minimum x p : 0 < p ->
  let y := if x <? MinimumDifficulty then MinimumDifficulty else x in
  (if y + p <? MinimumDifficulty then MinimumDifficulty else y + p) = y + p.
Proof.
  intros Hp y. subst y. destruct (Z.ltb_spec x MinimumDifficulty);
    match goal with |- context [Z.ltb ?a MinimumDifficulty] => destruct (Z.ltb_spec a MinimumDifficulty) end; lia.
Qed.

Lemma frontier_agrees time parent : bounded_parent time parent ->
  CalcDifficultyFrontierU256 time parent = calcDifficultyFrontier time parent.
Proof.
  intros Hp. destruct (bounded_period _ _ Hp) as (En & Et & Hperiod). destruct Hp as [Hd _ Ht _].
  unfold CalcDifficultyFrontierU256, calcDifficultyFrontier.
  destruct (FromBig_difficulty _ Hd) as [-> _]. destruct (Rsh_difficulty _ Hd) as (-> & Ha & _).
  rewrite En, Et. change DifficultyBoundDivisor with 2048. change frontierDurationLimit with DurationLimit.
  change expDiffPeriodUint with 100000. change expDiffPeriod with 100000.
  pose proof (adjusted_spec (Difficulty parent) (Difficulty parent / 2048)
    (negb (time - Time parent <? DurationLimit)) Hd Ha) as [E Hx]. cbv zeta in E, Hx.
  destruct (time - Time parent <? DurationLimit); simpl negb in *; cbv iota in *; rewrite E;
    (destruct (Z.ltb_spec 1 ((Number parent + 1) / 100000)); [|done]);
    destruct (Add_bomb _ ((Number parent + 1) / 100000 - 2) Hx ltac:(lia)) as [-> _];
    pose proof (pow_252 ((Number parent + 1) / 100000 - 2) ltac:(lia)) as [Hpw _];
    by rewrite bomb_above_minimum.
Qed.

Lemma homestead_agrees time parent : bounded_parent time parent ->
  CalcDifficultyHomesteadU256 time parent = calcDifficultyHomestead time parent.
Proof.
  intros Hp. destruct (bounded_period _ _ Hp) as (En & Et & Hperiod). destruct Hp as [Hd _ Ht _].
  unfold CalcDifficultyHomesteadU256, calcDifficultyHomestead, add_bomb.
  destruct (FromBig_difficulty _ Hd) as [-> _]. destruct (Rsh_difficulty _ Hd) as (-> & Ha & Ha2).
  rewrite (Z.add_comm 1 (u64 _)), En, Et. change DifficultyBoundDivisor with 2048.
  change expDiffPeriodUint with 100000. change expDiffPeriod with 100000.
  set (x := (time - Time parent) / 10). assert (0 <= x) by (apply Z.div_pos; lia).
  set (k := if x =? 0 then (1, false) else if 100 <=? x then (99, true) else (x - 1, true)).
  assert (0 <= k.1 <= 99 /\ (if 1 - x <? -99 then -99 else 1 - x) = if k.2 then - k.1 else k.1) as [Hk Ek].
  { subst k. destruct (Z.eqb_spec x 0), (Z.leb_spec 100 x), (Z.ltb_spec (1 - x) (-99)); simpl; lia. }
  rewrite Ek. destruct k as [k neg]. simpl in Hk |- *.
  destruct (Mul_adjust (Difficulty parent / 2048) k (Difficulty parent)) as [-> Hb]; [lia..|].
  destruct (adjusted_spec (Difficulty parent) (Difficulty parent / 2048 * k) neg Hd Hb) as [-> Hx].
  assert ((if neg then Difficulty parent - Difficulty parent / 2048 * k
           else Difficulty parent + Difficulty parent / 2048 * k)
    = Difficulty parent + Difficulty parent / 2048 * (if neg then - k else k)) as E by (destruct neg; lia).
  rewrite E in *. destruct (Z.ltb_spec 1 ((Number parent + 1) / 100000)); [|done].
  by destruct (Add_bomb _ ((Number parent + 1) / 100000 - 2) Hx ltac:(lia)) as [-> _].
Qed.

Lemma byzantium_agrees bombDelay time parent : bounded_parent time parent -> 1 <= bombDelay < two64 ->
  MakeDifficultyCalculatorU256 bombDelay time parent = makeDifficultyCalculator bombDelay time parent.
Proof.
  intros Hp Hdelay. destruct (bounded_period _ _ Hp) as (En & Et & Hperiod). destruct Hp as [Hd Hn Ht _].
  unfold MakeDifficultyCalculatorU256, makeDifficultyCalculator, add_bomb.
  destruct (FromBig_difficulty _ Hd) as [-> _]. destruct (Rsh_difficulty _ Hd) as (-> & Ha & Ha2).
  rewrite Et, (u64_small bombDelay), (u64_small (bombDelay - 1)), (u64_small (Number parent))
    by (unfold is_u64; lia).
  change DifficultyBoundDivisor with 2048. change expDiffPeriodUint with 100000. change expDiffPeriod with 100000.
  set (x := (time - Time parent) / 9). assert (0 <= x) by (apply Z.div_pos; lia).
  set (c := if UncleHash parent =? EmptyUncleHash then 1 else 2).
  replace (if UncleHash parent =? EmptyUncleHash then 1 - x else 2 - x) with (c - x)
    by (subst c; by destruct (_ =? _)).
  assert (1 <= c <= 2) as Hc by (subst c; destruct (_ =? _); lia). clearbody c.
  set (k := if 99 <? (if c <=? x then x - c else c - x) then 99 else if c <=? x then x - c else c - x).
  assert (0 <= k <= 99 /\ (if c - x <? -99 then -99 else c - x) = if c <=? x then - k else k) as [Hk Ek].
  { subst k. destruct (Z.leb_spec c x), (Z.ltb_spec (c - x) (-99)); split_cmp; lia. }
  rewrite Ek. clearbody k. set (neg := c <=? x) in *. clearbody neg.
  destruct (Mul_adjust (Difficulty parent / 2048) k (Difficulty parent)) as [-> Hb]; [lia..|].
  destruct (adjusted_spec (Difficulty parent) (Difficulty parent / 2048 * k) neg Hd Hb) as [-> Hx].
  assert ((if neg then Difficulty parent - Difficulty parent / 2048 * k
           else Difficulty parent + Difficulty parent / 2048 * k)
    = Difficulty parent + Difficulty parent / 2048 * (if neg then - k else k)) as E by (destruct neg; lia).
  rewrite E in *. destruct (Z.leb_spec (bombDelay - 1) (Number parent)); [|done].
  set (n := Number parent - (bombDelay - 1)) in *. assert (0 <= n / 100000 <= 255) by (subst n; go_lia).
  destruct (Z.leb_spec (2 * 100000) n), (Z.ltb_spec 1 (n / 100000)); try done; try go_lia.
  by destruct (Add_bomb _ (n / 100000 - 2) Hx ltac:(lia)) as [_ ->].
Qed.

(** C38.  The difficulty algorithms over 256-bit words compute what the ones over big
    integers do, for every parent below block 25,500,000 with a difficulty below 2^254
    and every later timestamp: Frontier, Homestead, and the Byzantium rules with any bomb
    delay.  Up to there no addition, subtraction or shift overflows. *)
Theorem difficulty_calculators_agree time parent :
  bounded_parent time parent ->
  CalcDifficultyFrontierU256 time parent = calcDifficultyFrontier time parent
  /\ CalcDifficultyHomesteadU256 time parent = calcDifficultyHomestead time parent
  /\ forall bombDelay, 1 <= bombDelay < two64 ->
       MakeDifficultyCalculatorU256 bombDelay time parent = makeDifficultyCalculator bombDelay time parent.
Proof.
  intros Hp. split; [by apply frontier_agrees|]. split; [by apply homestead_agrees|].
  intros. by apply byzantium_agrees.
Qed.
End Uint.

(** Block 15,049,999 of the main network, roughly. *)
Lemma difficulty_calculators_agree_witness :
  let parent := mkHeader 0 EmptyUncleHash 0 0 0 0 [] 14000000000000000 15049999 30000000 15000000 1656586434
    [] [] 0 None None None None None None in
  MakeDifficultyCalculatorU256 (U := U256.reference) 11400000 1656586444 parent = 14000017179869184.
Proof.
  intros parent.
  refine (eq_trans (proj2 (proj2 (difficulty_calculators_agree (U := U256.reference) 1656586444 parent _)) 11400000 _) _).
  - split; cbn -[Z.pow]; lia.
  - done.
  - by vm_compute.
Defined.
