(* ===== verification/VmCore.v ===== *)
(** Stack, memory and sizes of the virtual machine:
    [core/vm/stack.go], [memory.go], [common.go], [memory_table.go],
    [stack_table.go], [common/bytes.go] and [common/math/integer.go].

    A stack is the list of its words with the top first, so that the Go index
    [len(data)-1-n] is position [n]; [None] is an index out of range, which
    panics.  A memory is its bytes and the fee already paid for its size. *)

From stdpp Require Import base list numbers option.
From S2P Require Import Prelude Uint256.
Open Scope Z_scope.

(** ** common/math/integer.go *)

Module GoMath.

Definition SafeSub (x y : Z) : Z * bool :=
  let '(diff, borrowOut) := Sub64 x y in (diff, negb (borrowOut =? 0)).
Definition SafeAdd (x y : Z) : Z * bool :=
  let '(sum, carryOut) := Add64 x y in (sum, negb (carryOut =? 0)).
Definition SafeMul (x y : Z) : Z * bool :=
  let '(hi, lo) := Mul64 x y in (lo, negb (hi =? 0)).

Lemma SafeAdd_spec x y : is_u64 x -> is_u64 y ->
  SafeAdd x y = (u64 (x + y), negb (x + y <? two64)).
Proof.
  intros. unfold SafeAdd. rewrite Add64_carry by done.
  destruct (Z.ltb_spec (x + y) two64); f_equal; go_lia.
Qed.

Lemma SafeMul_spec x y : is_u64 x -> is_u64 y ->
  SafeMul x y = (u64 (x * y), negb (x * y <? two64)).
Proof.
  intros Hx Hy. unfold SafeMul. pose proof (Mul64_hi_zero x y Hx Hy) as H.
  unfold Mul64 in *. simpl in H. f_equal.
  destruct (Z.eqb_spec ((x * y) / two64) 0), (Z.ltb_spec (x * y) two64); simpl; try done; exfalso; lia.
Qed.

End GoMath.

(** ** core/vm/stack.go *)

Module Stack.

Definition t := list Z.

Definition push (d : Z) (st : t) : t := d :: st.

Definition pop (st : t) : option (Z * t) :=
  match st with
  | [] => None
  | x :: st' => Some (x, st')
  end.

Definition len (st : t) : Z := Z.of_nat (length st).

Definition Back (st : t) (n : nat) : option Z := (st : list Z) !! n.

Definition peek (st : t) : option Z := Back st 0.

(** [peek] returns a pointer that the instructions write through. *)
Definition set_top (v : Z) (st : t) : option t :=
  match st with
  | [] => None
  | _ :: st' => Some (v :: st')
  end.

Definition dup (n : nat) (st : t) : option t :=
  match n with
  | O => None
  | S m => v ← Back st m; Some (push v st)
  end.

(** [swap1] .. [swap16]: exchange the top with the [n]-th word below it. *)
Definition swap (n : nat) (st : t) : option t :=
  a ← Back st 0; b ← Back st n; Some (<[n := a]> (<[O := b]> (st : list Z))).

(** [Data] is the backing array, bottom first. *)
Definition Data (st : t) : list Z := reverse st.

Definition StackLimit : Z := 1024.
Definition maxStack (pops push : Z) : Z := StackLimit + pops - push.
Definition minStack (pops push : Z) : Z := pops.
Definition minSwapStack (n : Z) : Z := minStack n n.
Definition maxSwapStack (n : Z) : Z := maxStack n n.
Definition minDupStack (n : Z) : Z := minStack n (n + 1).
Definition maxDupStack (n : Z) : Z := maxStack n (n + 1).

End Stack.

(** ** core/vm/common.go and common/bytes.go *)

Definition RightPadBytes (slice : list Z) (l : Z) : list Z :=
  if l <=? Z.of_nat (length slice) then slice
  else slice ++ replicate (Z.to_nat l - length slice) 0.

Definition toWordSize (size : Z) : Z :=
  if MaxUint64 - 31 <? size then MaxUint64 / 32 + 1 else u64 (size + 31) / 32.

(** The sub-slice [data[a:b]] for bounds within the length. *)
Definition slice (a b : Z) (data : list Z) : list Z :=
  take (Z.to_nat (b - a)) (drop (Z.to_nat a) data).

(** Conversion of a [uint64] to the 64-bit [int]. *)
Definition to_int (x : Z) : Z := if x <? two64 / 2 then x else x - two64.

(** [end := start + size] wraps; a wrapped [end] below [start] is a slice
    expression out of range. *)
Definition getData (data : list Z) (start size : Z) : option (list Z) :=
  let length := Z.of_nat (length data) in
  let start := if length <? start then length else start in
  let end_ := u64 (start + size) in
  let end_ := if length <? end_ then length else end_ in
  if end_ <? start then None else Some (RightPadBytes (slice start end_ data) (to_int size)).

Section Sizes.
Context {U : U256.Ops}.

Definition calcMemSize64WithUint (off length64 : Z) : Z * bool :=
  if length64 =? 0 then (0, false)
  else
    let '(offset64, overflow) := U256.Uint64WithOverflow off in
    if overflow then (0, true)
    else let val := u64 (offset64 + length64) in (val, val <? offset64).

Definition calcMemSize64 (off l : Z) : Z * bool :=
  if negb (U256.IsUint64 l) then (0, true)
  else calcMemSize64WithUint off (U256.Uint64 l).

(** *** core/vm/memory_table.go: the memory an instruction touches *)

Definition memorySizeFunc := Stack.t -> option (Z * bool).

Definition memsize_at (o l : nat) : memorySizeFunc := fun st =>
  off ← Stack.Back st o; len ← Stack.Back st l; Some (calcMemSize64 off len).

Definition memoryKeccak256 : memorySizeFunc := memsize_at 0 1.
Definition memoryCallDataCopy : memorySizeFunc := memsize_at 0 2.
Definition memoryReturnDataCopy : memorySizeFunc := memsize_at 0 2.
Definition memoryCodeCopy : memorySizeFunc := memsize_at 0 2.
Definition memoryExtCodeCopy : memorySizeFunc := memsize_at 1 3.
Definition memoryMLoad : memorySizeFunc := fun st =>
  off ← Stack.Back st 0; Some (calcMemSize64WithUint off 32).
Definition memoryMStore8 : memorySizeFunc := fun st =>
  off ← Stack.Back st 0; Some (calcMemSize64WithUint off 1).
Definition memoryMStore : memorySizeFunc := fun st =>
  off ← Stack.Back st 0; Some (calcMemSize64WithUint off 32).
Definition memoryMcopy : memorySizeFunc := fun st =>
  dst ← Stack.Back st 0; src ← Stack.Back st 1; len ← Stack.Back st 2;
  let mStart := if U256.Gt src dst then src else dst in
  Some (calcMemSize64 mStart len).
Definition memoryCreate : memorySizeFunc := memsize_at 1 2.
Definition memoryCreate2 : memorySizeFunc := memsize_at 1 2.
Definition memoryReturn : memorySizeFunc := memsize_at 0 1.
Definition memoryRevert : memorySizeFunc := memsize_at 0 1.
Definition memoryLog : memorySizeFunc := memsize_at 0 1.

(** The larger of the output and the input range of a call. *)
Definition memsize_call (ro rl io il : nat) : memorySizeFunc := fun st =>
  '(x, overflow) ← memsize_at ro rl st;
  if overflow : bool then Some (0, true)
  else
    '(y, overflow) ← memsize_at io il st;
    if overflow : bool then Some (0, true)
    else if y <? x then Some (x, false) else Some (y, false).

Definition memoryCall : memorySizeFunc := memsize_call 5 6 3 4.
Definition memoryDelegateCall : memorySizeFunc := memsize_call 4 5 2 3.
Definition memoryStaticCall : memorySizeFunc := memsize_call 4 5 2 3.

End Sizes.

(** ** core/vm/memory.go *)

Module Memory.

Record t := mk { store : list Z; lastGasCost : Z }.

Definition NewMemory : t := mk [] 0.

Definition Len (m : t) : Z := Z.of_nat (length (store m)).

(** [copy(m.store[off:off+n], value)] for a range within the store. *)
Definition overwrite (off n : nat) (value : list Z) (st : list Z) : list Z :=
  let v := take n value in
  take off st ++ v ++ drop (off + length v) st.

Definition Set_ (m : t) (offset size : Z) (value : list Z) : option t :=
  if 0 <? size then
    if Len m <? u64 (offset + size) then None
    else if u64 (offset + size) <? offset then None
    else Some (mk (overwrite (Z.to_nat offset) (Z.to_nat size) value (store m)) (lastGasCost m))
  else Some m.

Definition Resize (m : t) (size : Z) : t :=
  if Len m <? size then mk (store m ++ replicate (Z.to_nat (size - Len m)) 0) (lastGasCost m)
  else m.

(** The range [offset, offset+size) of the store; out of the length is a panic. *)
Definition range (m : t) (offset size : Z) : option (list Z) :=
  let end_ := u64 (offset + size) in
  if (end_ <? offset) || (Len m <? end_) then None
  else Some (slice offset end_ (store m)).

Definition GetCopy (m : t) (offset size : Z) : option (list Z) :=
  if size =? 0 then Some [] else range m offset size.

Definition GetPtr (m : t) (offset size : Z) : option (list Z) :=
  if size =? 0 then Some [] else range m offset size.

Definition Data (m : t) : list Z := store m.

Definition Copy (m : t) (dst src len : Z) : option t :=
  if len =? 0 then Some m
  else
    v ← range m src len;
    if Len m <? dst then None
    else Some (mk (overwrite (Z.to_nat dst) (Z.to_nat (Len m - dst)) v (store m)) (lastGasCost m)).

Section Words.
Context {U : U256.Ops}.

Definition Set32 (m : t) (offset val : Z) : option t :=
  if Len m <? u64 (offset + 32) then None
  else if Len m <? offset then None
  else
    let bs := U256.PutUint256 val in
    if Len m - offset <? 32 then None
    else Some (mk (overwrite (Z.to_nat offset) 32 bs (store m)) (lastGasCost m)).

(** [m.store[off] = b] of [opMstore8]. *)
Definition SetByte (m : t) (off b : Z) : option t :=
  if Len m <=? off then None
  else Some (mk (<[Z.to_nat off := b]> (store m)) (lastGasCost m)).

End Words.

End Memory.

(** ** Lemmas *)

Lemma toWordSize_spec size : is_u64 size -> toWordSize size = (size + 31) / 32.
Proof.
  intros H. unfold toWordSize. destruct (Z.ltb_spec (MaxUint64 - 31) size); go_lia.
Qed.

Lemma length_slice a b data : 0 <= a <= b -> b <= Z.of_nat (length data) ->
  Z.of_nat (length (slice a b data)) = b - a.
Proof. intros. unfold slice. rewrite length_take, length_drop. lia. Qed.

Lemma slice_lookup a b data i : 0 <= a -> (i < Z.to_nat (b - a))%nat ->
  slice a b data !! i = data !! (Z.to_nat a + i)%nat.
Proof. intros. unfold slice. rewrite lookup_take_lt by lia. by rewrite lookup_drop. Qed.

Section SizeSpecs.
Context {U : U256.Ops} {UL : U256.Laws U}.

Lemma calcMemSize64_spec off l : is_u256 off -> is_u256 l ->
  calcMemSize64 off l =
    if l =? 0 then (0, false)
    else if negb (l <? two64) || negb (off <? two64) then (0, true)
    else (u64 (off + l), two64 <=? off + l).
Proof.
  intros Ho Hl. unfold calcMemSize64, calcMemSize64WithUint.
  rewrite U256.IsUint64_spec, U256.Uint64_spec, U256.Uint64WithOverflow_spec by done.
  unfold is_u256 in *. destruct (Z.ltb_spec l two64); simpl.
  2:{ destruct (Z.eqb_spec l 0); [lia|done]. }
  rewrite Z.mod_small by lia. destruct (Z.eqb_spec l 0); [done|].
  destruct (Z.ltb_spec off two64); simpl; [|done].
  rewrite Z.mod_small by lia. f_equal.
  destruct (Z.ltb_spec (u64 (off + l)) off), (Z.leb_spec two64 (off + l)); try done; exfalso; go_lia.
Qed.

(** The size of a range that does not overflow, for the checks of the
    interpreter: the range ends at the computed size. *)
Lemma calcMemSize64_ok off l sz : is_u256 off -> is_u256 l ->
  calcMemSize64 off l = (sz, false) ->
  is_u64 sz /\ U256.Uint64 l = l /\
  (l = 0 \/ U256.Uint64 off = off /\ is_u64 off /\ sz = off + l).
Proof.
  intros Ho Hl. rewrite calcMemSize64_spec by done. rewrite !U256.Uint64_spec by done.
  unfold is_u256 in *. split_cmp; intros [= <-]; try discriminate; try lia;
    repeat split; try go_lia; try (apply Z.mod_small; lia); auto.
Qed.

End SizeSpecs.

Module MemoryFacts.
Import Memory.

(** A memory read as an infinite byte string, zero beyond its length. *)
Definition byte_at (m : t) (i : nat) : Z := default 0 (store m !! i).

Lemma overwrite_length off n v st : (off + n <= length st)%nat ->
  length (overwrite off n v st) = length st.
Proof.
  intros. unfold overwrite. rewrite !length_app, length_drop, !length_take. lia.
Qed.

Lemma overwrite_lookup off n v st i : (off + n <= length st)%nat ->
  overwrite off n v st !! i =
    if decide (off <= i < off + Nat.min n (length v))%nat then v !! (i - off)%nat else st !! i.
Proof.
  intros H. unfold overwrite.
  destruct (decide (i < off)%nat).
  { rewrite lookup_app_l, lookup_take_lt by (rewrite ?length_take; lia). case_decide; [lia|done]. }
  rewrite lookup_app_r by (rewrite length_take; lia).
  rewrite length_take, Nat.min_l by lia.
  destruct (decide (i < off + Nat.min n (length v))%nat).
  - rewrite lookup_app_l, lookup_take_lt by (rewrite ?length_take; lia). case_decide; [done|lia].
  - rewrite lookup_app_r by (rewrite length_take; lia). rewrite lookup_drop, length_take.
    case_decide; [lia|]. f_equal. lia.
Qed.

Lemma Resize_Len m size : Len (Resize m size) = Z.max (Len m) size.
Proof.
  unfold Resize, Len. destruct (Z.ltb_spec (Z.of_nat (length (store m))) size); simpl; [|lia].
  rewrite length_app, length_replicate. lia.
Qed.

Lemma Resize_byte_at m size i : byte_at (Resize m size) i = byte_at m i.
Proof.
  unfold Resize, byte_at. case_match; [|done]. simpl.
  destruct (decide (i < length (store m))%nat).
  - by rewrite lookup_app_l.
  - rewrite lookup_app_r by lia. rewrite (lookup_ge_None_2 (store m)) by lia.
    destruct (replicate _ 0 !! _) eqn:E; [|done].
    apply lookup_replicate in E as [-> _]. done.
Qed.

Lemma range_spec m offset size : 0 <= offset -> 0 <= size -> offset + size <= Len m < two64 ->
  exists bs, range m offset size = Some bs /\ Z.of_nat (length bs) = size /\
    forall i, (i < length bs)%nat -> bs !! i = Some (byte_at m (Z.to_nat offset + i)).
Proof.
  intros Ho Hs Hl. unfold range, Len in *. rewrite u64_small by (unfold is_u64; lia).
  rewrite (proj2 (Z.ltb_ge _ _)), (proj2 (Z.ltb_ge _ _)) by lia. simpl.
  eexists; split; [done|]. split; [rewrite length_slice; lia|].
  intros i Hi. assert (Z.of_nat (length (slice offset (offset + size) (store m))) = size) as E
    by (rewrite length_slice; lia).
  rewrite slice_lookup by lia. unfold byte_at.
  destruct (lookup_lt_is_Some_2 (store m) (Z.to_nat offset + i)) as [x Hx]; [lia|]. by rewrite Hx.
Qed.

Lemma Set_spec m offset size value : 0 <= offset -> 0 < size -> offset + size <= Len m < two64 ->
  exists m', Set_ m offset size value = Some m' /\ Len m' = Len m /\
    lastGasCost m' = lastGasCost m /\
    forall i, byte_at m' i =
      if decide (Z.to_nat offset <= i < Z.to_nat offset + Nat.min (Z.to_nat size) (length value))%nat
      then default 0 (value !! (i - Z.to_nat offset)%nat) else byte_at m i.
Proof.
  intros Ho Hs Hl. unfold Set_, Len in *. rewrite u64_small by (unfold is_u64; lia).
  rewrite (proj2 (Z.ltb_lt 0 size)), !(proj2 (Z.ltb_ge _ _)) by lia.
  eexists; split; [done|]. simpl. split; [by rewrite overwrite_length by lia|]. split; [done|].
  intros i. unfold byte_at; simpl. rewrite overwrite_lookup by lia. by case_decide.
Qed.

Section Expansion.
Context {U : U256.Ops} {UL : U256.Laws U}.

(** The expansion the interpreter loop performs before it executes an operation:
    the memory size of the operation rounded up to words, [None] when the
    rounding overflows. *)
Definition expand (m : t) (memSize : Z) : option t :=
  let '(memorySize, overflow) := GoMath.SafeMul (toWordSize memSize) 32 in
  if overflow then None
  else Some (if 0 <? memorySize then Resize m memorySize else m).

Lemma expand_spec m sz m' : is_u64 sz -> is_u64 (Len m) -> expand m sz = Some m' ->
  is_u64 (Len m') /\ Len m <= Len m' /\ sz <= Len m' /\ (forall i, byte_at m' i = byte_at m i).
Proof.
  intros Hsz Hm. unfold expand. rewrite toWordSize_spec by done.
  rewrite GoMath.SafeMul_spec by go_lia.
  destruct (Z.ltb_spec ((sz + 31) / 32 * 32) two64); simpl; [|done].
  rewrite u64_small by go_lia. intros [= <-].
  destruct (Z.ltb_spec 0 ((sz + 31) / 32 * 32)).
  - rewrite Resize_Len. repeat split; try go_lia. intros. apply Resize_byte_at.
  - repeat split; go_lia.
Qed.

(** Memory accesses of an operation are in bounds: when the memory size
    computed for a range does not overflow and the interpreter has expanded the
    memory to it, reading the range succeeds and yields the bytes of the memory
    read as zero-extended, and writing a value of the range's length succeeds,
    reads back as that value and leaves every other byte as it was. *)
Theorem memory_expansion_safe m off l sz m' value :
  is_u256 off -> is_u256 l -> is_u64 (Len m) ->
  calcMemSize64 off l = (sz, false) -> expand m sz = Some m' ->
  Z.of_nat (length value) = l ->
  let o := U256.Uint64 off in let n := U256.Uint64 l in
  (exists bs, GetCopy m' o n = Some bs /\ Z.of_nat (length bs) = l /\
     forall i, (i < length bs)%nat -> bs !! i = Some (byte_at m (Z.to_nat o + i))) /\
  (exists m2, Set_ m' o n value = Some m2 /\ Len m2 = Len m' /\ GetCopy m2 o n = Some value /\
     forall i, ~ (Z.to_nat o <= i < Z.to_nat o + Z.to_nat n)%nat -> byte_at m2 i = byte_at m i).
Proof.
  intros Ho Hl Hm Hsz Hex Hv o n. subst o n.
  destruct (calcMemSize64_ok _ _ _ Ho Hl Hsz) as (Bsz & -> & Hcase).
  destruct (expand_spec _ _ _ Bsz Hm Hex) as (Bm' & _ & Hfit & Hbytes).
  unfold GetCopy. destruct (Z.eqb_spec l 0) as [->|Hl0].
  { destruct value; [|simpl in Hv; lia]. split.
    - exists []. repeat split. intros i Hi. simpl in Hi. lia.
    - exists m'. unfold Set_. simpl. repeat split. auto. }
  destruct Hcase as [?|(-> & Bo & ->)]; [done|]. unfold is_u64, is_u256 in *.
  split.
  - destruct (range_spec m' off l) as (bs & E & Lb & Hb); [lia..|].
    exists bs. repeat split; auto. intros i Hi. rewrite Hb, Hbytes by done. done.
  - destruct (Set_spec m' off l value) as (m2 & E & L2 & _ & H2); [lia..|].
    exists m2. repeat split; auto.
    + destruct (range_spec m2 off l) as (bs & E2 & Lb & Hb); [lia..|]. rewrite E2. f_equal.
      apply list_eq_same_length with (length bs); [lia|lia|]. intros i x y Hi Hx Hy.
      rewrite Hb in Hx by done. injection Hx as <-. rewrite H2.
      case_decide; [|lia]. replace (Z.to_nat off + i - Z.to_nat off)%nat with i by lia. by rewrite Hy.
    + intros i Hi. rewrite H2. case_decide; [lia|auto].
Qed.

End Expansion.

Lemma memory_expansion_safe_witness :
  exists m2, Set_ (Resize NewMemory 64) 40 3 [7; 8; 9] = Some m2 /\
    GetCopy m2 40 3 = Some [7; 8; 9].
Proof.
  destruct (memory_expansion_safe (U := U256.reference) (UL := U256.reference_laws)
              NewMemory 40 3 43 (Resize NewMemory 64) [7; 8; 9]) as (_ & m2 & H1 & _ & H2 & _).
  - vm_compute; split; congruence.
  - vm_compute; split; congruence.
  - vm_compute; split; congruence.
  - reflexivity.
  - reflexivity.
  - reflexivity.
  - exists m2. split; [exact H1|exact H2].
Defined.

End MemoryFacts.
