(* ===== verification/JumpDest.v ===== *)
(** Jump destination analysis: [core/vm/analysis_legacy.go],
    [core/vm/jumpdests.go] and the [validJumpdest]/[isCode] part of
    [core/vm/contract.go].

    A bit vector is its list of bytes; [None] is an index out of range. *)

From stdpp Require Import base list numbers option gmap.
From S2P Require Import Prelude Uint256.
Open Scope Z_scope.

Definition JUMPDEST : Z := 0x5b.
Definition PUSH1 : Z := 0x60.
Definition PUSH32 : Z := 0x7f.

Definition BitVec := list Z.

(** [bits[i] |= v] and [bits[i] = v]. *)
Definition or_byte (i : nat) (v : Z) (bits : BitVec) : option BitVec :=
  b ← (bits : list Z) !! i; Some (<[i := Z.lor b v]> (bits : list Z)).
Definition put_byte (i : nat) (v : Z) (bits : BitVec) : option BitVec :=
  _ ← (bits : list Z) !! i; Some (<[i := v]> (bits : list Z)).

Definition set1 (bits : BitVec) (pos : nat) : option BitVec :=
  or_byte (pos / 8) (Z.shiftl 1 (Z.of_nat (pos mod 8))) bits.

Definition setN (bits : BitVec) (flag : Z) (pos : nat) : option BitVec :=
  let a := Z.shiftl flag (Z.of_nat (pos mod 8)) mod 65536 in
  bits ← or_byte (pos / 8) (a mod 256) bits;
  let b := Z.shiftr a 8 mod 256 in
  if negb (b =? 0) then put_byte (pos / 8 + 1) b bits else Some bits.

Definition set8 (bits : BitVec) (pos : nat) : option BitVec :=
  let a := Z.shiftl 255 (Z.of_nat (pos mod 8)) mod 256 in
  bits ← or_byte (pos / 8) a bits;
  put_byte (pos / 8 + 1) (255 - a) bits.

Definition set16 (bits : BitVec) (pos : nat) : option BitVec :=
  let a := Z.shiftl 255 (Z.of_nat (pos mod 8)) mod 256 in
  bits ← or_byte (pos / 8) a bits;
  bits ← put_byte (pos / 8 + 1) 255 bits;
  put_byte (pos / 8 + 2) (255 - a) bits.

Definition codeSegment (bits : BitVec) (pos : nat) : option bool :=
  b ← (bits : list Z) !! (pos / 8)%nat;
  Some (Z.land (Z.shiftr b (Z.of_nat (pos mod 8))) 1 =? 0).

(** [int8(op)]. *)
Definition int8 (op : Z) : Z := if op <? 128 then op else op - 256.

(** The two inner loops over [numbits]; [fuel] bounds their iterations. *)
Fixpoint set16_loop (fuel numbits pc : nat) (bits : BitVec) : option (nat * nat * BitVec) :=
  match fuel with
  | O => None
  | S fuel' =>
      if (16 <=? numbits)%nat then
        bits ← set16 bits pc; set16_loop fuel' (numbits - 16) (pc + 16) bits
      else Some (numbits, pc, bits)
  end.

Fixpoint set8_loop (fuel numbits pc : nat) (bits : BitVec) : option (nat * nat * BitVec) :=
  match fuel with
  | O => None
  | S fuel' =>
      if (8 <=? numbits)%nat then
        bits ← set8 bits pc; set8_loop fuel' (numbits - 8) (pc + 8) bits
      else Some (numbits, pc, bits)
  end.

Definition set2BitsMask : Z := 3.
Definition set3BitsMask : Z := 7.
Definition set4BitsMask : Z := 15.
Definition set5BitsMask : Z := 31.
Definition set6BitsMask : Z := 63.
Definition set7BitsMask : Z := 127.

Definition set_rest (numbits pc : nat) (bits : BitVec) : option (nat * BitVec) :=
  match numbits with
  | 1 => bits ← set1 bits pc; Some (pc + 1, bits)
  | 2 => bits ← setN bits set2BitsMask pc; Some (pc + 2, bits)
  | 3 => bits ← setN bits set3BitsMask pc; Some (pc + 3, bits)
  | 4 => bits ← setN bits set4BitsMask pc; Some (pc + 4, bits)
  | 5 => bits ← setN bits set5BitsMask pc; Some (pc + 5, bits)
  | 6 => bits ← setN bits set6BitsMask pc; Some (pc + 6, bits)
  | 7 => bits ← setN bits set7BitsMask pc; Some (pc + 7, bits)
  | _ => Some (pc, bits)
  end%nat.

(** One iteration of the loop of [codeBitmapInternal], from [pc]. *)
Definition bitmap_step (op : Z) (pc : nat) (bits : BitVec) : option (nat * BitVec) :=
  let pc := (pc + 1)%nat in
  if int8 op <? int8 PUSH1 then Some (pc, bits)
  else
    let numbits := Z.to_nat (op - PUSH1 + 1) in
    '(numbits, pc, bits) ←
      (if (8 <=? numbits)%nat then
         '(numbits, pc, bits) ← set16_loop 33 numbits pc bits;
         set8_loop 33 numbits pc bits
       else Some (numbits, pc, bits));
    set_rest numbits pc bits.

(** The loop visits at most one opcode per byte of code, so [length code]
    iterations reach its end. *)
Fixpoint codeBitmap_loop (fuel : nat) (code : list Z) (pc : nat) (bits : BitVec) : option BitVec :=
  if decide (pc < length code)%nat then
    match fuel with
    | O => None
    | S fuel' =>
        op ← code !! pc;
        '(pc, bits) ← bitmap_step op pc bits;
        codeBitmap_loop fuel' code pc bits
    end
  else Some bits.

Definition codeBitmapInternal (code : list Z) (bits : BitVec) : option BitVec :=
  codeBitmap_loop (length code) code 0 bits.

Definition codeBitmap (code : list Z) : option BitVec :=
  codeBitmapInternal code (replicate (length code / 8 + 1 + 4) 0).

(** ** Contracts and the analysis cache *)

(** The part of a contract the analysis uses.  The cache [mapJumpDests] is
    shared by the frames of an EVM instance. *)
Record CodeContract := mkCodeContract {
  cc_Code : list Z;
  cc_CodeHash : Z;
  cc_analysis : option BitVec
}.

Abbreviation JumpDests := (gmap Z BitVec).

Definition JumpDests_Load (j : JumpDests) (h : Z) : option BitVec := j !! h.
Definition JumpDests_Store (j : JumpDests) (h : Z) (v : BitVec) : JumpDests := <[h := v]> j.

(** [isCode]: the result with the updated contract and cache. *)
Definition isCode (c : CodeContract) (j : JumpDests) (udest : nat)
  : option (bool * CodeContract * JumpDests) :=
  match cc_analysis c with
  | Some a => r ← codeSegment a udest; Some (r, c, j)
  | None =>
      if negb (cc_CodeHash c =? 0) then
        '(analysis, j') ←
          (match JumpDests_Load j (cc_CodeHash c) with
           | Some a => Some (a, j)
           | None => a ← codeBitmap (cc_Code c); Some (a, JumpDests_Store j (cc_CodeHash c) a)
           end);
        r ← codeSegment analysis udest;
        Some (r, mkCodeContract (cc_Code c) (cc_CodeHash c) (Some analysis), j')
      else
        a ← codeBitmap (cc_Code c);
        r ← codeSegment a udest;
        Some (r, mkCodeContract (cc_Code c) (cc_CodeHash c) (Some a), j)
  end.

Definition validJumpdest {U : U256.Ops} (c : CodeContract) (j : JumpDests) (dest : Z)
  : option (bool * CodeContract * JumpDests) :=
  let '(udest, overflow) := U256.Uint64WithOverflow dest in
  if overflow || (Z.of_nat (length (cc_Code c)) <=? udest) then Some (false, c, j)
  else
    op ← cc_Code c !! Z.to_nat udest;
    if negb (op =? JUMPDEST) then Some (false, c, j) else isCode c j (Z.to_nat udest).

(** ** Specification

    The positions of a code where an instruction starts: position 0, and the
    position after an instruction together with the data a PUSH carries. *)

Definition push_size (op : Z) : nat :=
  if (PUSH1 <=? op) && (op <=? PUSH32) then Z.to_nat (op - PUSH1 + 1) else 0.

Inductive instr_start (code : list Z) : nat -> Prop :=
| instr_first : instr_start code 0
| instr_next pc op : instr_start code pc -> code !! pc = Some op ->
    instr_start code (pc + 1 + push_size op).

(** The bit of a position. *)
Definition bit (bits : BitVec) (i : nat) : bool :=
  Z.testbit (default 0 ((bits : list Z) !! (i / 8)%nat)) (Z.of_nat (i mod 8)).

(** ** Bit masks *)

Definition below8 : list nat := seq 0 8.

Lemma below8_all (P : nat -> bool) :
  forallb P below8 = true -> forall r, (r < 8)%nat -> P r = true.
Proof.
  intros H r Hr. eapply forallb_forall in H; [exact H|]. apply in_seq. lia.
Qed.

Lemma below8_all2 (P : nat -> nat -> bool) :
  forallb (fun r => forallb (P r) below8) below8 = true ->
  forall r j, (r < 8)%nat -> (j < 8)%nat -> P r j = true.
Proof.
  intros H r j Hr Hj. apply (below8_all (P r)); [|done].
  apply (below8_all (fun r => forallb (P r) below8)); done.
Qed.

Lemma mask_one r j : (r < 8)%nat -> (j < 8)%nat ->
  Z.testbit (Z.shiftl 1 (Z.of_nat r)) (Z.of_nat j) = (r =? j)%nat.
Proof.
  intros Hr Hj. apply eqb_prop.
  exact (below8_all2 (fun r j => eqb (Z.testbit (Z.shiftl 1 (Z.of_nat r)) (Z.of_nat j)) (r =? j)%nat)
           eq_refl r j Hr Hj).
Qed.

Lemma mask_low r j : (r < 8)%nat -> (j < 8)%nat ->
  Z.testbit (Z.shiftl 255 (Z.of_nat r) mod 256) (Z.of_nat j) = (r <=? j)%nat.
Proof.
  intros Hr Hj. apply eqb_prop.
  exact (below8_all2 (fun r j =>
           eqb (Z.testbit (Z.shiftl 255 (Z.of_nat r) mod 256) (Z.of_nat j)) (r <=? j)%nat)
           eq_refl r j Hr Hj).
Qed.

Lemma mask_low_not r j : (r < 8)%nat -> (j < 8)%nat ->
  Z.testbit (255 - Z.shiftl 255 (Z.of_nat r) mod 256) (Z.of_nat j) = (j <? r)%nat.
Proof.
  intros Hr Hj. apply eqb_prop.
  exact (below8_all2 (fun r j =>
           eqb (Z.testbit (255 - Z.shiftl 255 (Z.of_nat r) mod 256) (Z.of_nat j)) (j <? r)%nat)
           eq_refl r j Hr Hj).
Qed.

Lemma mask_full j : (j < 8)%nat -> Z.testbit 255 (Z.of_nat j) = true.
Proof. intros Hj. exact (below8_all (fun j => Z.testbit 255 (Z.of_nat j)) eq_refl j Hj). Qed.

(** The masks [set2BitsMask] .. [set7BitsMask] shifted: [n] bits from [r] on,
    the overflow in the second byte. *)
Definition flag_of (n : nat) : Z := Z.ones (Z.of_nat n).

Lemma mask_flag n r j : (n < 8)%nat -> (r < 8)%nat -> (j < 8)%nat ->
  let a := Z.shiftl (flag_of n) (Z.of_nat r) mod 65536 in
  Z.testbit (a mod 256) (Z.of_nat j) = ((r <=? j) && (j <? r + n))%nat /\
  Z.testbit (Z.shiftr a 8 mod 256) (Z.of_nat j) = (j + 8 <? r + n)%nat.
Proof.
  intros Hn Hr Hj a.
  assert (forallb (fun n => forallb (fun r => forallb (fun j =>
    let a := Z.shiftl (flag_of n) (Z.of_nat r) mod 65536 in
    eqb (Z.testbit (a mod 256) (Z.of_nat j)) ((r <=? j) && (j <? r + n))%nat &&
    eqb (Z.testbit (Z.shiftr a 8 mod 256) (Z.of_nat j)) (j + 8 <? r + n)%nat)
    below8) below8) below8 = true) as H by (vm_compute; reflexivity).
  pose proof (below8_all2 _ (below8_all _ H n Hn) r j Hr Hj) as E. cbv beta zeta in E.
  apply andb_true_iff in E as [E1 E2]. split; by apply eqb_prop.
Qed.

(** ** Reading and writing bytes *)

Lemma bit_or_byte k v bits bits' i : or_byte k v bits = Some bits' ->
  bit bits' i = if decide (i / 8 = k)%nat then bit bits i || Z.testbit v (Z.of_nat (i mod 8))
                else bit bits i.
Proof.
  unfold or_byte, bit. intros H. apply bind_Some in H as (b & Hb & [= <-]).
  case_decide as E; subst.
  - rewrite list_lookup_insert_eq by (by eapply lookup_lt_Some). rewrite Hb. simpl.
    apply Z.lor_spec.
  - by rewrite list_lookup_insert_ne by done.
Qed.

Lemma bit_put_byte k v bits bits' i : put_byte k v bits = Some bits' ->
  bit bits' i = if decide (i / 8 = k)%nat then Z.testbit v (Z.of_nat (i mod 8)) else bit bits i.
Proof.
  unfold put_byte, bit. intros H. apply bind_Some in H as (b & Hb & [= <-]).
  case_decide as E; subst.
  - by rewrite list_lookup_insert_eq by (by eapply lookup_lt_Some).
  - by rewrite list_lookup_insert_ne by done.
Qed.

Lemma or_byte_Some k v bits : (k < length bits)%nat ->
  exists bits', or_byte k v bits = Some bits' /\ length bits' = length bits.
Proof.
  intros H. destruct (lookup_lt_is_Some_2 bits k H) as [b Hb]. unfold or_byte. rewrite Hb. simpl.
  eexists; split; [done|]. apply length_insert.
Qed.

Lemma put_byte_Some k v bits : (k < length bits)%nat ->
  exists bits', put_byte k v bits = Some bits' /\ length bits' = length bits.
Proof.
  intros H. destruct (lookup_lt_is_Some_2 bits k H) as [b Hb]. unfold put_byte. rewrite Hb. simpl.
  eexists; split; [done|]. apply length_insert.
Qed.

(** [bits'] is [bits] with the [n] positions from [pos] on marked. *)
Definition marks (n pos : nat) (bits bits' : BitVec) : Prop :=
  length bits' = length bits /\
  forall i, bit bits' i = bit bits i || ((pos <=? i) && (i <? pos + n))%nat.

Definition clear_from (pos : nat) (bits : BitVec) : Prop :=
  forall i, (pos <= i)%nat -> bit bits i = false.

(** Room for the [k] bytes after its own that a setter touches. *)
Definition room (k pos : nat) (bits : BitVec) : Prop := (pos / 8 + k < length bits)%nat.

Ltac nat_cmp :=
  repeat match goal with
  | |- context [(?x <? ?y)%nat] => destruct (Nat.ltb_spec x y)
  | |- context [(?x <=? ?y)%nat] => destruct (Nat.leb_spec x y)
  | |- context [(?x =? ?y)%nat] => destruct (Nat.eqb_spec x y)
  end; simpl.

Ltac div8 i := pose proof (Nat.div_mod_eq i 8); pose proof (Nat.mod_upper_bound i 8 ltac:(lia)).

(** Close a goal about the new bit of [i] once the masks are rewritten. *)
Ltac close_bit Hc i :=
  nat_cmp; rewrite ?orb_true_r, ?orb_false_r; try done; try (exfalso; lia);
  try (symmetry; apply Hc; lia); try (apply Hc; lia); try (rewrite Hc by lia; done).

Lemma set1_marks bits pos : room 0 pos bits -> clear_from pos bits ->
  exists bits', set1 bits pos = Some bits' /\ marks 1 pos bits bits'.
Proof.
  intros R Hc. unfold room in R.
  destruct (or_byte_Some (pos / 8) (Z.shiftl 1 (Z.of_nat (pos mod 8))) bits) as (b1 & E1 & L1); [lia|].
  exists b1. split; [done|]. split; [done|]. intros i. rewrite (bit_or_byte _ _ _ _ i E1).
  div8 i. div8 pos. case_decide; [rewrite mask_one by lia|]; close_bit Hc i.
Qed.

Lemma set8_marks bits pos : room 1 pos bits -> clear_from pos bits ->
  exists bits', set8 bits pos = Some bits' /\ marks 8 pos bits bits'.
Proof.
  intros R Hc. unfold room in R. unfold set8.
  set (a := Z.shiftl 255 (Z.of_nat (pos mod 8)) mod 256).
  destruct (or_byte_Some (pos / 8) a bits) as (b1 & E1 & L1); [lia|].
  destruct (put_byte_Some (pos / 8 + 1) (255 - a) b1) as (b2 & E2 & L2); [lia|].
  exists b2. rewrite E1. split; [done|]. split; [lia|]. intros i.
  rewrite (bit_put_byte _ _ _ _ i E2), (bit_or_byte _ _ _ _ i E1).
  div8 i. div8 pos. unfold a.
  case_decide; [rewrite mask_low_not by lia|case_decide; [rewrite mask_low by lia|]];
    close_bit Hc i.
Qed.

Lemma set16_marks bits pos : room 2 pos bits -> clear_from pos bits ->
  exists bits', set16 bits pos = Some bits' /\ marks 16 pos bits bits'.
Proof.
  intros R Hc. unfold room in R. unfold set16.
  set (a := Z.shiftl 255 (Z.of_nat (pos mod 8)) mod 256).
  destruct (or_byte_Some (pos / 8) a bits) as (b1 & E1 & L1); [lia|].
  destruct (put_byte_Some (pos / 8 + 1) 255 b1) as (b2 & E2 & L2); [lia|].
  destruct (put_byte_Some (pos / 8 + 2) (255 - a) b2) as (b3 & E3 & L3); [lia|].
  exists b3. rewrite E1. cbn [mbind option_bind]. rewrite E2. split; [done|]. split; [lia|]. intros i.
  rewrite (bit_put_byte _ _ _ _ i E3), (bit_put_byte _ _ _ _ i E2), (bit_or_byte _ _ _ _ i E1).
  div8 i. div8 pos. unfold a.
  case_decide; [rewrite mask_low_not by lia|case_decide; [rewrite mask_full by lia|
    case_decide; [rewrite mask_low by lia|]]]; close_bit Hc i.
Qed.

Lemma setN_marks n bits pos : (n < 8)%nat -> room 1 pos bits -> clear_from pos bits ->
  exists bits', setN bits (flag_of n) pos = Some bits' /\ marks n pos bits bits'.
Proof.
  intros Hn R Hc. unfold room in R. unfold setN.
  set (a := Z.shiftl (flag_of n) (Z.of_nat (pos mod 8)) mod 65536). div8 pos.
  destruct (or_byte_Some (pos / 8) (a mod 256) bits) as (b1 & E1 & L1); [lia|]. rewrite E1.
  cbn [mbind option_bind].
  destruct (Z.eqb_spec (Z.shiftr a 8 mod 256) 0) as [Z0|Z0]; cbn [negb].
  - exists b1. split; [done|]. split; [done|]. intros i. rewrite (bit_or_byte _ _ _ _ i E1). div8 i.
    destruct (mask_flag n (pos mod 8) (i mod 8) Hn) as [M1 M2]; [lia..|]. fold a in M1, M2.
    rewrite Z0, Z.testbit_0_l in M2. case_decide; [rewrite M1|]; revert M2; close_bit Hc i.
    all: intros; try done.
  - destruct (put_byte_Some (pos / 8 + 1) (Z.shiftr a 8 mod 256) b1) as (b2 & E2 & L2); [lia|].
    exists b2. split; [done|]. split; [lia|]. intros i.
    rewrite (bit_put_byte _ _ _ _ i E2), (bit_or_byte _ _ _ _ i E1). div8 i.
    destruct (mask_flag n (pos mod 8) (i mod 8) Hn) as [M1 M2]; [lia..|]. fold a in M1, M2.
    case_decide; [rewrite M2|case_decide; [rewrite M1|]]; close_bit Hc i.
Qed.

Lemma marks_0 pos bits : marks 0 pos bits bits.
Proof. split; [done|]. intros i. nat_cmp; rewrite ?orb_false_r; try done; lia. Qed.

Lemma marks_trans n m pos b0 b1 b2 :
  marks n pos b0 b1 -> marks m (pos + n) b1 b2 -> marks (n + m) pos b0 b2.
Proof.
  intros [L1 H1] [L2 H2]. split; [congruence|]. intros i. rewrite H2, H1.
  nat_cmp; rewrite ?orb_true_r, ?orb_false_r; try done; lia.
Qed.

Lemma marks_clear n pos b0 b1 : clear_from pos b0 -> marks n pos b0 b1 -> clear_from (pos + n) b1.
Proof. intros Hc [_ H] i Hi. rewrite H, Hc by lia. nat_cmp; try done; lia. Qed.

Lemma set16_loop_marks fuel numbits pc bits :
  (numbits < 16 * fuel)%nat -> (pc / 8 + 2 * (numbits / 16) < length bits)%nat ->
  clear_from pc bits ->
  exists bits', set16_loop fuel numbits pc bits
      = Some (numbits mod 16, pc + 16 * (numbits / 16), bits')%nat /\
    marks (16 * (numbits / 16)) pc bits bits'.
Proof.
  revert numbits pc bits. induction fuel as [|fuel IH]; intros numbits pc bits Hf Hr Hc; [lia|].
  cbn [set16_loop]. destruct (Nat.leb_spec 16 numbits) as [Hn|Hn].
  - assert (numbits / 16 = S ((numbits - 16) / 16))%nat as Eq.
    { replace numbits with ((numbits - 16) + 1 * 16)%nat at 1 by lia. rewrite Nat.div_add by lia. lia. }
    assert ((numbits - 16) mod 16 = numbits mod 16)%nat as Em.
    { replace numbits with ((numbits - 16) + 1 * 16)%nat at 2 by lia. by rewrite Nat.Div0.mod_add. }
    destruct (set16_marks bits pc) as (b1 & E1 & M1); [unfold room; lia|done|].
    assert ((pc + 16) / 8 = pc / 8 + 2)%nat as Ep
      by (replace (pc + 16)%nat with (pc + 2 * 8)%nat by lia; rewrite Nat.div_add; lia).
    destruct (IH (numbits - 16)%nat (pc + 16)%nat b1) as (b2 & E2 & M2); [lia| |by eapply marks_clear|].
    { rewrite (proj1 M1). lia. }
    exists b2. rewrite E1. cbn [mbind option_bind]. rewrite E2, Em, Eq. split.
    + do 2 f_equal. f_equal. lia.
    + replace (16 * S ((numbits - 16) / 16))%nat with (16 + 16 * ((numbits - 16) / 16))%nat by lia.
      by eapply marks_trans.
  - exists bits. rewrite Nat.div_small, Nat.mod_small by lia. split; [do 2 f_equal; f_equal; lia|].
    apply marks_0.
Qed.

Lemma set8_loop_marks fuel numbits pc bits :
  (numbits < 8 * fuel)%nat -> (pc / 8 + numbits / 8 < length bits)%nat ->
  clear_from pc bits ->
  exists bits', set8_loop fuel numbits pc bits
      = Some (numbits mod 8, pc + 8 * (numbits / 8), bits')%nat /\
    marks (8 * (numbits / 8)) pc bits bits'.
Proof.
  revert numbits pc bits. induction fuel as [|fuel IH]; intros numbits pc bits Hf Hr Hc; [lia|].
  cbn [set8_loop]. destruct (Nat.leb_spec 8 numbits) as [Hn|Hn].
  - assert (numbits / 8 = S ((numbits - 8) / 8))%nat as Eq.
    { replace numbits with ((numbits - 8) + 1 * 8)%nat at 1 by lia. rewrite Nat.div_add by lia. lia. }
    assert ((numbits - 8) mod 8 = numbits mod 8)%nat as Em.
    { replace numbits with ((numbits - 8) + 1 * 8)%nat at 2 by lia. by rewrite Nat.Div0.mod_add. }
    destruct (set8_marks bits pc) as (b1 & E1 & M1); [unfold room; lia|done|].
    assert ((pc + 8) / 8 = pc / 8 + 1)%nat as Ep
      by (replace (pc + 8)%nat with (pc + 1 * 8)%nat by lia; rewrite Nat.div_add; lia).
    destruct (IH (numbits - 8)%nat (pc + 8)%nat b1) as (b2 & E2 & M2); [lia| |by eapply marks_clear|].
    { rewrite (proj1 M1). lia. }
    exists b2. rewrite E1. cbn [mbind option_bind]. rewrite E2, Em, Eq. split.
    + do 2 f_equal. f_equal. lia.
    + replace (8 * S ((numbits - 8) / 8))%nat with (8 + 8 * ((numbits - 8) / 8))%nat by lia.
      by eapply marks_trans.
  - exists bits. rewrite Nat.div_small, Nat.mod_small by lia. split; [do 2 f_equal; f_equal; lia|].
    apply marks_0.
Qed.

Lemma set_rest_marks n pc bits : (n < 8)%nat -> (n = 0%nat \/ room 1 pc bits) -> clear_from pc bits ->
  exists bits', set_rest n pc bits = Some ((pc + n)%nat, bits') /\ marks n pc bits bits'.
Proof.
  intros Hn Hr Hc. destruct (decide (n = 0%nat)) as [->|N0].
  { exists bits. rewrite Nat.add_0_r. split; [done|apply marks_0]. }
  destruct Hr as [?|Hr]; [done|]. destruct (decide (n = 1%nat)) as [->|N1].
  { destruct (set1_marks bits pc) as (b & E & M); [unfold room in *; lia|done|].
    exists b. cbn [set_rest]. by rewrite E. }
  destruct (setN_marks n bits pc Hn Hr Hc) as (b & E & M). exists b. split; [|done].
  do 8 (destruct n as [|n]; [try done; cbn [set_rest];
    change set2BitsMask with (flag_of 2) || change set3BitsMask with (flag_of 3) ||
    change set4BitsMask with (flag_of 4) || change set5BitsMask with (flag_of 5) ||
    change set6BitsMask with (flag_of 6) || change set7BitsMask with (flag_of 7);
    by rewrite E|]). lia.
Qed.

Lemma push_size_le op : (push_size op <= 32)%nat.
Proof. unfold push_size, PUSH1, PUSH32. split_cmp; lia. Qed.

Lemma bitmap_step_marks op pc bits :
  is_byte op -> ((pc + 1) / 8 + 4 < length bits)%nat -> clear_from (pc + 1) bits ->
  exists bits', bitmap_step op pc bits = Some ((pc + 1 + push_size op)%nat, bits') /\
    marks (push_size op) (pc + 1) bits bits'.
Proof.
  intros Hop Hr Hc. unfold bitmap_step, push_size. unfold is_byte in Hop.
  assert ((int8 op <? int8 PUSH1) = negb ((PUSH1 <=? op) && (op <=? PUSH32))) as ->.
  { unfold int8, PUSH1, PUSH32. change (96 <? 128) with true. cbv iota.
    destruct (Z.ltb_spec op 128); split_cmp; try done; lia. }
  destruct ((PUSH1 <=? op) && (op <=? PUSH32)) eqn:Ep; cbn [negb].
  2:{ exists bits. rewrite Nat.add_0_r. split; [done|apply marks_0]. }
  apply andb_true_iff in Ep as [E1%Z.leb_le E2%Z.leb_le]. unfold PUSH1, PUSH32 in *.
  set (n := Z.to_nat (op - 96 + 1)). assert (1 <= n <= 32)%nat as Hn by lia. clearbody n.
  set (P := (pc + 1)%nat) in *. clearbody P.
  pose proof (Nat.div_mod_eq n 8). pose proof (Nat.mod_upper_bound n 8 ltac:(lia)).
  destruct (Nat.leb_spec 8 n) as [H8|H8].
  - pose proof (Nat.div_mod_eq n 16). pose proof (Nat.mod_upper_bound n 16 ltac:(lia)).
    destruct (set16_loop_marks 33 n P bits) as (b1 & F1 & M1); [lia|lia|done|]. rewrite F1.
    cbn [mbind option_bind]. set (q := (n / 16)%nat) in *. set (r := (n mod 16)%nat) in *.
    pose proof (Nat.div_mod_eq r 8). pose proof (Nat.mod_upper_bound r 8 ltac:(lia)).
    assert ((P + 16 * q) / 8 = P / 8 + 2 * q)%nat as EP
      by (replace (P + 16 * q)%nat with (P + (2 * q) * 8)%nat by lia; rewrite Nat.div_add; lia).
    assert (length b1 = length bits) as L1 by apply M1.
    destruct (set8_loop_marks 33 r (P + 16 * q) b1) as (b2 & F2 & M2);
      [lia|lia|by eapply marks_clear|]. rewrite F2. cbn [mbind option_bind].
    pose proof (marks_trans _ _ _ _ _ _ M1 M2) as M12. assert (length b2 = length b1) as L2 by apply M2.
    set (q8 := (r / 8)%nat) in *. set (r8 := (r mod 8)%nat) in *.
    assert ((P + 16 * q + 8 * q8) / 8 = P / 8 + (2 * q + q8))%nat as EP2
      by (replace (P + 16 * q + 8 * q8)%nat with (P + (2 * q + q8) * 8)%nat by lia;
          rewrite Nat.div_add; lia).
    destruct (set_rest_marks r8 (P + 16 * q + 8 * q8) b2) as (b3 & F3 & M3);
      [lia|unfold room; lia| |].
    { replace (P + 16 * q + 8 * q8)%nat with (P + (16 * q + 8 * q8))%nat by lia.
      by eapply marks_clear. }
    rewrite F3. exists b3. split; [do 2 f_equal; lia|].
    replace n with ((16 * q + 8 * q8) + r8)%nat by lia.
    eapply marks_trans; [exact M12|]. by rewrite Nat.add_assoc.
  - cbn [mbind option_bind]. destruct (set_rest_marks n P bits) as (b3 & F3 & M3);
      [lia|unfold room; lia|done|]. rewrite F3. exists b3. done.
Qed.

(** *** Instruction starts *)

Lemma instr_start_gap code q : forall p op, instr_start code p -> instr_start code q ->
  code !! p = Some op -> (p < q)%nat -> (p + 1 + push_size op <= q)%nat.
Proof.
  induction q as [q IH] using lt_wf_ind. intros p op Hp Hq Hop Hlt.
  destruct Hq as [|q' opq Hq' Hopq]; [lia|].
  destruct (lt_eq_lt_dec p q') as [[Hl|He]|Hg].
  - pose proof (IH q' ltac:(lia) p op Hp Hq' Hop Hl). lia.
  - subst q'. rewrite Hop in Hopq. injection Hopq as <-. lia.
  - pose proof (IH p ltac:(lia) q' opq Hq' Hp Hopq Hg). lia.
Qed.

(** The loop invariant: positions below [pc] are marked exactly when they hold
    data, and no position from [pc] on is marked. *)
Record bitmap_inv (code : list Z) (pc : nat) (bits : BitVec) : Prop := mkBitmapInv {
  bi_length : (length bits = length code / 8 + 5)%nat;
  bi_start : instr_start code pc;
  bi_clear : clear_from pc bits;
  bi_below : forall i, (i < pc)%nat -> bit bits i = false <-> instr_start code i
}.

Lemma bitmap_inv_step code pc bits op :
  Forall is_byte code -> code !! pc = Some op -> bitmap_inv code pc bits ->
  exists bits', bitmap_step op pc bits = Some ((pc + 1 + push_size op)%nat, bits') /\
    bitmap_inv code (pc + 1 + push_size op) bits'.
Proof.
  intros Hb Hop [Hl Hs Hc Hi].
  pose proof (lookup_lt_Some _ _ _ Hop) as Hpc.
  assert ((pc + 1) / 8 <= length code / 8)%nat by (apply Nat.Div0.div_le_mono; lia).
  destruct (bitmap_step_marks op pc bits) as (b' & E & M); [|lia| |].
  { by eapply Forall_lookup_1 in Hb. }
  { intros i ?. apply Hc. lia. }
  exists b'. split; [done|]. destruct M as [L M]. split.
  - by rewrite L.
  - by econstructor.
  - intros i Hip. rewrite M, Hc by lia. nat_cmp; try done; lia.
  - intros i Hip. rewrite M. destruct (decide (i < pc)%nat).
    + rewrite <- (Hi i) by done. nat_cmp; rewrite ?orb_false_r; try done; lia.
    + rewrite Hc by lia. cbn [orb]. destruct (decide (i = pc)) as [->|].
      * nat_cmp; try lia; done.
      * split; [nat_cmp; try done; lia|]. intros Hst.
        pose proof (instr_start_gap code i pc op Hs Hst Hop). lia.
Qed.

Lemma codeBitmap_loop_inv fuel code pc bits :
  Forall is_byte code -> (length code <= pc + fuel)%nat -> bitmap_inv code pc bits ->
  exists bits' pc', codeBitmap_loop fuel code pc bits = Some bits' /\
    (length code <= pc')%nat /\ bitmap_inv code pc' bits'.
Proof.
  intros Hb. revert pc bits. induction fuel as [|fuel IH]; intros pc bits Hf Hinv;
    cbn [codeBitmap_loop]; (case_decide as Hpc; [|exists bits, pc; auto with lia]); [lia|].
  destruct (lookup_lt_is_Some_2 code pc Hpc) as [op Hop]. rewrite Hop. cbn [mbind option_bind].
  destruct (bitmap_inv_step code pc bits op Hb Hop Hinv) as (b' & E & Hinv').
  rewrite E. cbn [mbind option_bind]. apply IH; [lia|done].
Qed.

Lemma bit_replicate n i : bit (replicate n 0) i = false.
Proof.
  unfold bit. destruct (replicate n 0 !! _) eqn:E; [|apply Z.testbit_0_l].
  apply lookup_replicate in E as [-> _]. apply Z.testbit_0_l.
Qed.

Lemma codeSegment_bit bits pos : (pos / 8 < length bits)%nat ->
  codeSegment bits pos = Some (negb (bit bits pos)).
Proof.
  intros H. destruct (lookup_lt_is_Some_2 bits (pos / 8) H) as [b Hb].
  unfold codeSegment, bit. rewrite Hb. cbn [mbind option_bind default]. f_equal.
  change 1 with (Z.ones 1). rewrite Z.land_ones, Z.pow_1_r by lia. rewrite <- Z.bit0_mod, Z.shiftr_spec by lia.
  simpl. by destruct (Z.testbit b _).
Qed.

Lemma codeBitmap_spec code : Forall is_byte code ->
  exists bits, codeBitmap code = Some bits /\
    forall pos, (pos < length code)%nat ->
      exists b, codeSegment bits pos = Some b /\ (b = true <-> instr_start code pos).
Proof.
  intros Hb. unfold codeBitmap, codeBitmapInternal.
  destruct (codeBitmap_loop_inv (length code) code 0 (replicate (length code / 8 + 1 + 4) 0))
    as (bits & pc' & E & Hpc & [Hl _ _ Hi]); [done|lia|split|].
  - rewrite length_replicate. lia.
  - constructor.
  - intros i _. apply bit_replicate.
  - lia.
  - exists bits. split; [done|]. intros pos Hpos. exists (negb (bit bits pos)). split.
    + apply codeSegment_bit. rewrite Hl.
      assert (pos / 8 <= length code / 8)%nat by (apply Nat.Div0.div_le_mono; lia). lia.
    + rewrite <- (Hi pos) by lia. destruct (bit bits pos); simpl; split; congruence.
Qed.

(** C11.  The jump analysis is total and correct: for every byte code the bitmap
    is computed without an index out of range, and a position of the code reads
    as a code segment exactly when an instruction starts there - it is reachable
    from position 0 by stepping over whole instructions with their PUSH data. *)
Theorem codeBitmap_correct code : Forall is_byte code ->
  exists bits, codeBitmap code = Some bits /\
    forall pos, (pos < length code)%nat ->
      exists b, codeSegment bits pos = Some b /\ (b = true <-> instr_start code pos).
Proof. apply codeBitmap_spec. Qed.

Lemma codeBitmap_correct_witness :
  exists bits, codeBitmap [0x60; 0x5b; 0x5b] = Some bits /\
    codeSegment bits 1 = Some false /\ codeSegment bits 2 = Some true.
Proof.
  destruct (codeBitmap_correct [0x60; 0x5b; 0x5b]) as (bits & E & H).
  - repeat constructor; vm_compute; congruence.
  - exists bits. split; [exact E|]. injection E as <-. split; reflexivity.
Defined.

(** *** The cached analysis

    [codes] gives the code behind each hash: entries of the shared cache and the
    analysis held by a contract belong to that code. *)

Definition cache_coherent (codes : gmap Z (list Z)) (j : JumpDests) : Prop :=
  forall h a, j !! h = Some a -> exists code, codes !! h = Some code /\ codeBitmap code = Some a.

Definition contract_coherent (codes : gmap Z (list Z)) (c : CodeContract) : Prop :=
  Forall is_byte (cc_Code c) /\
  (cc_CodeHash c <> 0 -> codes !! cc_CodeHash c = Some (cc_Code c)) /\
  (forall a, cc_analysis c = Some a -> codeBitmap (cc_Code c) = Some a).

Lemma isCode_coherent codes c j udest :
  contract_coherent codes c -> cache_coherent codes j -> (udest < length (cc_Code c))%nat ->
  exists b c' j', isCode c j udest = Some (b, c', j') /\
    (b = true <-> instr_start (cc_Code c) udest) /\
    cc_Code c' = cc_Code c /\ contract_coherent codes c' /\ cache_coherent codes j'.
Proof.
  intros (Hb & Hh & Ha) Hj Hd.
  destruct (codeBitmap_spec _ Hb) as (bits & Eb & Hs).
  destruct (Hs _ Hd) as (b & Es & Hb').
  assert (contract_coherent codes (mkCodeContract (cc_Code c) (cc_CodeHash c) (Some bits))) as Hc'.
  { split; [done|]. split; [done|]. simpl. by intros a [= <-]. }
  unfold isCode. destruct (cc_analysis c) as [a|] eqn:Ea.
  { specialize (Ha a eq_refl). assert (a = bits) as -> by congruence. rewrite Es. simpl.
    exists b, c, j. repeat split; try done; try apply Hb'; intros a [= <-]%(eq_trans (eq_sym Ea)); done. }
  destruct (Z.eqb_spec (cc_CodeHash c) 0) as [E0|E0]; simpl.
  { rewrite Eb. simpl. rewrite Es. simpl. do 3 eexists. repeat split; try apply Hb'; try done; apply Hc'. }
  unfold JumpDests_Load. destruct (j !! cc_CodeHash c) as [a|] eqn:El; simpl.
  - destruct (Hj _ _ El) as (code & Ec & Ea'). rewrite (Hh E0) in Ec. injection Ec as <-.
    assert (a = bits) as -> by congruence. rewrite Es. simpl.
    do 3 eexists. repeat split; try apply Hb'; try done; apply Hc'.
  - rewrite Eb. simpl. rewrite Es. simpl.
    do 3 eexists. repeat split; try apply Hb'; try done; try apply Hc'.
    intros h a. unfold JumpDests_Store. rewrite lookup_insert. case_decide as E; [|apply Hj].
    intros [= <-]. subst h. eauto.
Qed.

(** [validJumpdest] accepts a destination exactly when it is a position of
    the code that holds a JUMPDEST opcode at which an instruction starts; it never
    panics, whichever of the three caching paths it takes, and leaves the analysis
    of the contract and the shared cache coherent with the codes. *)
Theorem validJumpdest_correct {U : U256.Ops} {UL : U256.Laws U} codes c j dest :
  contract_coherent codes c -> cache_coherent codes j -> is_u256 dest ->
  Z.of_nat (length (cc_Code c)) < two64 ->
  exists b c' j', validJumpdest c j dest = Some (b, c', j') /\
    (b = true <-> cc_Code c !! Z.to_nat dest = Some JUMPDEST /\
                  instr_start (cc_Code c) (Z.to_nat dest)) /\
    cc_Code c' = cc_Code c /\ contract_coherent codes c' /\ cache_coherent codes j'.
Proof.
  intros Hc Hj Hd Hlen. unfold validJumpdest. rewrite U256.Uint64WithOverflow_spec by done.
  unfold is_u256 in Hd.
  assert (forall P : Prop, (false = true <-> cc_Code c !! Z.to_nat dest = Some JUMPDEST /\ P) <->
            ~ (cc_Code c !! Z.to_nat dest = Some JUMPDEST /\ P)) as Hf
    by (intros; split; [intros H H'; by apply H in H'|intros H; split; [done|tauto]]).
  destruct (Z.ltb_spec dest two64) as [H64|H64]; cbn [negb orb].
  2:{ exists false, c, j. split; [done|]. split; [|done]. apply Hf. intros [H _].
      apply lookup_lt_Some in H. lia. }
  rewrite Z.mod_small by lia.
  destruct (Z.leb_spec (Z.of_nat (length (cc_Code c))) dest) as [Hge|Hlt].
  { exists false, c, j. split; [done|]. split; [|done]. apply Hf. intros [H _].
    apply lookup_lt_Some in H. lia. }
  destruct (lookup_lt_is_Some_2 (cc_Code c) (Z.to_nat dest)) as [op Hop]; [lia|].
  rewrite Hop. cbn [mbind option_bind]. destruct (Z.eqb_spec op JUMPDEST) as [->|Hne]; cbn [negb].
  - destruct (isCode_coherent codes c j (Z.to_nat dest)) as (b & c' & j' & E & Hb & Hrest); [done..|lia|].
    exists b, c', j'. split; [done|]. split; [|done]. rewrite Hb. tauto.
  - exists false, c, j. split; [done|]. split; [|done]. rewrite Hop in Hf. apply Hf.
    intros [[= H] _]. done.
Qed.

Lemma validJumpdest_correct_witness :
  exists c' j', validJumpdest (U := U256.reference)
    (mkCodeContract [0x60; 0x5b; 0x5b] 77 None) ∅ 2 = Some (true, c', j').
Proof.
  destruct (validJumpdest_correct (U := U256.reference) (UL := U256.reference_laws)
    {[ 77 := [0x60; 0x5b; 0x5b] ]} (mkCodeContract [0x60; 0x5b; 0x5b] 77 None) ∅ 2)
    as (b & c' & j' & E & Hb & _).
  - split; [repeat constructor; vm_compute; congruence|]. split; [reflexivity|done].
  - intros h a H. done.
  - vm_compute; split; congruence.
  - vm_compute; congruence.
  - exists c', j'. rewrite E. do 3 f_equal. apply Hb. split; [reflexivity|].
    apply (instr_next _ 0 0x60); [constructor|reflexivity].
Defined.
