(* ===== verification/AccessList.v ===== *)
(** The per-transaction access list ([core/state/access_list.go]) and the
    transient storage ([core/state/transient_storage.go]).

    The access list keeps, per address, an index into a slice of slot sets, or
    [-1] when the address has no slots.  The abstract object it implements is a
    set of addresses with a set of (address, slot) pairs; [represents] is the
    abstraction relation and the operations are shown to simulate it. *)

From stdpp Require Import base gmap list numbers option sets.
From S2P Require Import Prelude.
Open Scope Z_scope.

Module AccessList.

Record accessList := {
  addresses : gmap Z Z;
  slots : list (gset Z)
}.

Definition newAccessList : accessList := {| addresses := ∅; slots := [] |}.

(** [al.slots[idx]] with a Go [int] index: out of range panics. *)
Definition slot_at (al : accessList) (idx : Z) : option (gset Z) :=
  if idx <? 0 then None else slots al !! Z.to_nat idx.

Definition ContainsAddress (al : accessList) (address : Z) : bool :=
  match addresses al !! address with Some _ => true | None => false end.

Definition Contains (al : accessList) (address slot : Z) : option (bool * bool) :=
  match addresses al !! address with
  | None => Some (false, false)
  | Some idx =>
      if idx =? -1 then Some (true, false)
      else m ← slot_at al idx; Some (true, bool_decide (slot ∈ m))
  end.

Definition Copy (al : accessList) : accessList :=
  {| addresses := addresses al; slots := map (fun m => m) (slots al) |}.

Definition AddAddress (al : accessList) (address : Z) : accessList * bool :=
  if ContainsAddress al address then (al, false)
  else ({| addresses := <[address := -1]> (addresses al); slots := slots al |}, true).

Definition AddSlot (al : accessList) (address slot : Z) :
    option (accessList * (bool * bool)) :=
  let fresh (addrPresent : bool) :=
    ({| addresses := <[address := Z.of_nat (length (slots al))]> (addresses al);
        slots := slots al ++ [ {[ slot ]} ] |}, (negb addrPresent, true)) in
  match addresses al !! address with
  | None => Some (fresh false)
  | Some idx =>
      if idx =? -1 then Some (fresh true)
      else
        slotmap ← slot_at al idx;
        if bool_decide (slot ∈ slotmap) then Some (al, (false, false))
        else Some ({| addresses := addresses al;
                      slots := <[Z.to_nat idx := {[ slot ]} ∪ slotmap]> (slots al) |},
                   (false, true))
  end.

Definition DeleteSlot (al : accessList) (address slot : Z) : option accessList :=
  idx ← addresses al !! address;
  slotmap ← slot_at al idx;
  let slotmap' := slotmap ∖ {[ slot ]} in
  if bool_decide (slotmap' = ∅) then
    Some {| addresses := <[address := -1]> (addresses al);
            slots := take (Z.to_nat idx) (slots al) |}
  else
    Some {| addresses := addresses al;
            slots := <[Z.to_nat idx := slotmap']> (slots al) |}.

Definition DeleteAddress (al : accessList) (address : Z) : accessList :=
  {| addresses := delete address (addresses al); slots := slots al |}.

(** ** Invariant *)

(** Every index is [-1] or points into the slice, no two addresses share an
    index, and no slot set is empty. *)
Record wf (al : accessList) : Prop := {
  wf_range a i : addresses al !! a = Some i -> i = -1 \/ 0 <= i < Z.of_nat (length (slots al));
  wf_inj a b i : addresses al !! a = Some i -> addresses al !! b = Some i ->
    i <> -1 -> a = b;
  wf_nonempty : Forall (fun m => m ≠ ∅) (slots al)
}.

Lemma wf_new : wf newAccessList.
Proof. split; [done..|constructor]. Qed.

Lemma slot_at_lookup al (i : Z) : 0 <= i -> slot_at al i = slots al !! Z.to_nat i.
Proof. intros Hi. unfold slot_at. by destruct (Z.ltb_spec i 0); [lia|]. Qed.

Lemma wf_slot_at al a i :
  wf al -> addresses al !! a = Some i -> i <> -1 ->
  exists m, slot_at al i = Some m /\ slots al !! Z.to_nat i = Some m /\ m ≠ ∅ /\ 0 <= i.
Proof.
  intros Hwf Ha Hi. destruct (wf_range _ Hwf _ _ Ha) as [|Hr]; [done|].
  destruct (lookup_lt_is_Some_2 (slots al) (Z.to_nat i)) as [m Hm]; [lia|].
  exists m. rewrite slot_at_lookup by lia. repeat split; [done..| |lia].
  eapply (proj1 (Forall_lookup _ _) (wf_nonempty _ Hwf)); eauto.
Qed.

(** Every sequence of additions is undone by deletions in reverse order, to the
    identical list, as the journal does it. *)
Lemma DeleteAddress_AddAddress al a :
  ContainsAddress al a = false ->
  DeleteAddress (fst (AddAddress al a)) a = al.
Proof.
  unfold AddAddress, ContainsAddress, DeleteAddress. destruct al as [ad sl]; simpl.
  destruct (ad !! a) eqn:Ha; [done|]. intros _. simpl. f_equal. by apply delete_insert_id.
Qed.

Lemma DeleteSlot_fresh ad (sl : list (gset Z)) (a k : Z) :
  DeleteSlot {| addresses := <[a := Z.of_nat (length sl)]> ad; slots := sl ++ [ {[ k ]} ] |} a k
    = Some {| addresses := <[a := -1]> ad; slots := sl |}.
Proof.
  unfold DeleteSlot; simpl. rewrite lookup_insert_eq; cbn [mbind option_bind].
  rewrite slot_at_lookup by lia. simpl. rewrite Nat2Z.id, lookup_app_r by lia.
  rewrite Nat.sub_diag. cbn [lookup list_lookup mbind option_bind].
  rewrite bool_decide_true by set_solver.
  rewrite insert_insert_eq. by rewrite take_app_length.
Qed.

Lemma DeleteSlot_AddSlot al a k al' fl :
  wf al -> AddSlot al a k = Some (al', fl) ->
  match fl with
  | (true, _) => exists al1, DeleteSlot al' a k = Some al1 /\ DeleteAddress al1 a = al
                   /\ snd fl = true /\ ContainsAddress al a = false
  | (false, true) => DeleteSlot al' a k = Some al
  | (false, false) => al' = al
  end.
Proof.
  intros Hwf. unfold AddSlot. destruct al as [ad sl]; cbn [addresses slots].
  destruct (ad !! a) as [i|] eqn:Ha.
  - destruct (Z.eqb_spec i (-1)) as [->|Hi].
    + intros [= <- <-]. cbn [negb].
      rewrite DeleteSlot_fresh. by rewrite insert_id.
    + destruct (wf_slot_at _ _ _ Hwf Ha Hi) as (m & Hm & Hm' & Hne & Hi0).
      rewrite Hm; cbn [mbind option_bind]. simpl in Hm'.
      case_bool_decide; intros [= <- <-]; [done|].
      unfold DeleteSlot; cbn [addresses]. rewrite Ha; cbn [mbind option_bind].
      rewrite slot_at_lookup by lia. cbn [slots].
      rewrite list_lookup_insert_eq by (by eapply lookup_lt_Some).
      cbn [mbind option_bind].
      replace (({[k]} ∪ m) ∖ {[k]}) with m by set_solver.
      rewrite bool_decide_false by done.
      rewrite list_insert_insert_eq. by rewrite list_insert_id.
  - intros [= <- <-]. cbn [negb].
    rewrite DeleteSlot_fresh. eexists. repeat split.
    + unfold DeleteAddress; simpl. f_equal. by apply delete_insert_id.
    + unfold ContainsAddress; simpl. by rewrite Ha.
Qed.

Lemma AddAddress_wf al a : wf al -> wf (fst (AddAddress al a)).
Proof.
  intros [Hr Hi Hn]. unfold AddAddress. destruct (ContainsAddress al a); [done|].
  split; simpl; [| |done].
  - intros b i Hb. destruct (decide (a = b)) as [->|]; simplify_map_eq; eauto.
  - intros b c i Hb Hc Hne.
    destruct (decide (a = b)) as [<-|], (decide (a = c)) as [<-|]; simplify_map_eq; eauto.
Qed.

Lemma AddSlot_fresh_wf al a k :
  wf al ->
  wf {| addresses := <[a := Z.of_nat (length (slots al))]> (addresses al);
        slots := slots al ++ [ {[ k ]} ] |}.
Proof.
  intros [Hr Hi Hn]. split; simpl.
  - rewrite length_app; simpl. intros b i Hb.
    destruct (decide (a = b)) as [->|]; simplify_map_eq; [right; lia|].
    destruct (Hr _ _ Hb) as [->|]; [by left|right; lia].
  - intros b c i Hb Hc Hne.
    destruct (decide (a = b)) as [<-|], (decide (a = c)) as [<-|]; simplify_map_eq; eauto.
    + destruct (Hr _ _ Hc); lia.
    + destruct (Hr _ _ Hb); lia.
  - apply Forall_app. split; [done|]. constructor; [set_solver|constructor].
Qed.

Lemma AddSlot_wf al a k : wf al -> exists al' fl, AddSlot al a k = Some (al', fl) /\ wf al'.
Proof.
  intros Hwf. unfold AddSlot. destruct (addresses al !! a) as [i|] eqn:Ha.
  - destruct (Z.eqb_spec i (-1)) as [->|Hi].
    + eexists _, _. split; [done|]. by apply AddSlot_fresh_wf.
    + destruct (wf_slot_at _ _ _ Hwf Ha Hi) as (m & -> & Hm' & Hne & Hi0). simpl.
      case_bool_decide; eexists _, _; (split; [done|]); [done|].
      destruct Hwf as [Hr Hj Hn]. split; simpl.
      * rewrite length_insert. eauto.
      * eauto.
      * apply Forall_insert; [done|set_solver].
  - eexists _, _. split; [done|]. by apply AddSlot_fresh_wf.
Qed.

(** ** Abstract specification *)

(** The pair is in the slot set of its address. *)
Definition has_pair (al : accessList) (a k : Z) : Prop :=
  exists i m, addresses al !! a = Some i /\ i <> -1 /\ slot_at al i = Some m /\ k ∈ m.

(** [al] represents the set [A] of addresses and the set [P] of pairs. *)
Record represents (al : accessList) (A : gset Z) (P : gset (Z * Z)) : Prop := {
  rep_wf : wf al;
  rep_addr a : a ∈ A <-> is_Some (addresses al !! a);
  rep_pair a k : (a, k) ∈ P <-> has_pair al a k
}.

Lemma represents_new : represents newAccessList ∅ ∅.
Proof.
  split; [apply wf_new| |].
  - intros a. simpl. rewrite lookup_empty. split; [set_solver|by intros []].
  - intros a k. split; [set_solver|]. by intros (i & m & Ha & _).
Qed.

Lemma ContainsAddress_spec al A P a :
  represents al A P -> ContainsAddress al a = bool_decide (a ∈ A).
Proof.
  intros Hr. unfold ContainsAddress. pose proof (rep_addr _ _ _ Hr a) as Ha.
  destruct (addresses al !! a).
  - symmetry. apply bool_decide_true, Ha. eauto.
  - symmetry. apply bool_decide_false. rewrite Ha. by intros [].
Qed.

Lemma Contains_spec al A P a k :
  represents al A P ->
  Contains al a k = Some (bool_decide (a ∈ A), bool_decide ((a, k) ∈ P)).
Proof.
  intros Hr. unfold Contains. pose proof (rep_addr _ _ _ Hr a) as Ha.
  pose proof (rep_pair _ _ _ Hr a k) as Hp. unfold has_pair in Hp.
  destruct (addresses al !! a) as [i|] eqn:E.
  - rewrite (bool_decide_true (a ∈ A)) by (apply Ha; eauto).
    destruct (Z.eqb_spec i (-1)) as [->|Hi].
    + rewrite bool_decide_false; [done|]. rewrite Hp. intros (?&?&?&?&?). by simplify_eq.
    + destruct (wf_slot_at _ _ _ (rep_wf _ _ _ Hr) E Hi) as (m & Hm & _).
      rewrite Hm. simpl. do 2 f_equal. apply bool_decide_ext. rewrite Hp.
      split; [by eauto 8|]. intros (i' & m' & ? & _ & ? & ?). by simplify_eq.
  - rewrite !bool_decide_false; [done| |].
    + rewrite Hp. intros (?&?&?&_). by simplify_eq.
    + rewrite Ha. by intros [].
Qed.

Lemma AddAddress_represents al A P a :
  represents al A P ->
  represents (fst (AddAddress al a)) ({[a]} ∪ A) P
  /\ snd (AddAddress al a) = bool_decide (a ∉ A).
Proof.
  intros Hr. pose proof (ContainsAddress_spec _ _ _ a Hr) as Hc.
  pose proof (AddAddress_wf al a (rep_wf _ _ _ Hr)) as Hwf.
  unfold AddAddress in *. rewrite Hc in *. case_bool_decide as Ha.
  - rewrite bool_decide_false by tauto. split; [|done].
    by replace ({[a]} ∪ A) with A by set_solver.
  - rewrite bool_decide_true by done. split; [|done]. simpl in *. split; [done| |]; simpl.
    + intros b. rewrite lookup_insert_is_Some', <- (rep_addr _ _ _ Hr). set_solver.
    + intros b k. rewrite (rep_pair _ _ _ Hr). unfold has_pair, slot_at; simpl.
      rewrite (rep_addr _ _ _ Hr) in Ha.
      destruct (decide (a = b)) as [<-|Hab].
      * rewrite lookup_insert_eq. split; intros (i & m & E & ? & _); simplify_eq.
        destruct Ha; eauto.
      * by rewrite lookup_insert_ne.
Qed.

(** A slot set is only read through the index of its own address. *)
Lemma has_pair_fresh al a k b j :
  wf al -> addresses al !! a = None \/ addresses al !! a = Some (-1) ->
  has_pair {| addresses := <[a := Z.of_nat (length (slots al))]> (addresses al);
              slots := slots al ++ [ {[ k ]} ] |} b j
  <-> (b, j) = (a, k) \/ has_pair al b j.
Proof.
  intros Hwf Ha. unfold has_pair; simpl. destruct (decide (a = b)) as [<-|Hab].
  - rewrite lookup_insert_eq. split.
    + intros (i & m & [= <-] & _ & Hm & Hj). rewrite slot_at_lookup in Hm by lia. simpl in Hm.
      rewrite Nat2Z.id, lookup_app_r, Nat.sub_diag in Hm by lia. simplify_eq/=. set_solver.
    + intros [[= ->]|(i & m & E & Hi & _)]; [|by destruct Ha; simplify_eq].
      eexists _, _. split_and!; [done|lia| |by apply elem_of_singleton].
      rewrite slot_at_lookup by lia. simpl. by rewrite Nat2Z.id, lookup_app_r, Nat.sub_diag by lia.
  - rewrite lookup_insert_ne by done. split.
    + intros (i & m & E & Hi & Hm & Hj). right. exists i, m. split_and!; [done..| |done].
      destruct (wf_range _ Hwf _ _ E) as [|Hr]; [done|].
      rewrite slot_at_lookup in * by lia. simpl in Hm. by rewrite lookup_app_l in Hm by lia.
    + intros [[= -> ->]|(i & m & E & Hi & Hm & Hj)]; [done|].
      exists i, m. split_and!; [done..| |done]. destruct (wf_range _ Hwf _ _ E) as [|Hr]; [done|].
      rewrite slot_at_lookup in * by lia. simpl. by rewrite lookup_app_l by lia.
Qed.

Lemma has_pair_add al a k i m b j :
  wf al -> addresses al !! a = Some i -> i <> -1 -> slot_at al i = Some m ->
  has_pair {| addresses := addresses al;
              slots := <[Z.to_nat i := {[ k ]} ∪ m]> (slots al) |} b j
  <-> (b, j) = (a, k) \/ has_pair al b j.
Proof.
  intros Hwf Ha Hi Hm. destruct (wf_slot_at _ _ _ Hwf Ha Hi) as (m' & Hm1 & Hm2 & _ & Hi0).
  simplify_eq. unfold has_pair; simpl. destruct (decide (a = b)) as [<-|Hab].
  - rewrite Ha. split.
    + intros (i' & m1 & [= <-] & _ & E & Hj). rewrite slot_at_lookup in E by lia. simpl in E.
      rewrite list_lookup_insert_eq in E by (by eapply lookup_lt_Some). simplify_eq.
      apply elem_of_union in Hj as [->%elem_of_singleton|Hj]; [by left|right; eauto 8].
    + intros Hj. exists i, ({[k]} ∪ m). split_and!; [done..| |].
      * rewrite slot_at_lookup by lia. simpl. by rewrite list_lookup_insert_eq by (by eapply lookup_lt_Some).
      * destruct Hj as [[= ->]|(i1 & m1 & E & _ & E2 & Hj)]; [set_solver|].
        simplify_eq. set_solver.
  - assert (forall i' m1, addresses al !! b = Some i' -> i' <> -1 ->
      slot_at {| addresses := addresses al; slots := <[Z.to_nat i := {[ k ]} ∪ m]> (slots al) |} i'
        = Some m1 <-> slot_at al i' = Some m1) as Hsame.
    { intros i' m1 E Hn. destruct (wf_range _ Hwf _ _ E) as [|Hr]; [done|].
      rewrite !slot_at_lookup by lia. simpl.
      rewrite list_lookup_insert_ne; [done|]. intros Heq.
      apply Hab, (wf_inj _ Hwf _ _ i); [done| |done]. by replace i with i' by lia. }
    split.
    + intros (i' & m1 & E & Hn & E1 & Hj). right. exists i', m1. rewrite <- Hsame by done. eauto.
    + intros [[= -> ->]|(i' & m1 & E & Hn & E1 & Hj)]; [done|].
      exists i', m1. rewrite Hsame by done. eauto.
Qed.

Lemma AddSlot_represents al A P a k :
  represents al A P ->
  exists al' , AddSlot al a k = Some (al', (bool_decide (a ∉ A), bool_decide ((a, k) ∉ P)))
    /\ represents al' ({[a]} ∪ A) ({[(a, k)]} ∪ P).
Proof.
  intros Hr. pose proof (rep_wf _ _ _ Hr) as Hwf.
  destruct (AddSlot_wf al a k Hwf) as (al' & fl & E & Hwf'). exists al'. rewrite E.
  pose proof (rep_addr _ _ _ Hr) as RA. pose proof (rep_pair _ _ _ Hr) as RP.
  assert (forall ad sl b, addresses al !! a = None \/ addresses al !! a = Some (-1) ->
    {| addresses := ad; slots := sl |} = al' -> ad = <[a := b]> (addresses al) ->
    sl = slots al ++ [ {[ k ]} ] -> b = Z.of_nat (length (slots al)) ->
    represents al' ({[a]} ∪ A) ({[(a, k)]} ∪ P) /\ (a, k) ∉ P) as Hfresh.
  { intros ad sl b Ha <- -> -> ->. split; [split; [done| |]|].
    - intros c. simpl. rewrite lookup_insert_is_Some', <- RA. set_solver.
    - intros c j. rewrite has_pair_fresh by done. rewrite <- RP. set_solver.
    - rewrite RP. intros (i & m & Ei & Hi & _). by destruct Ha; simplify_eq. }
  unfold AddSlot in E. destruct (addresses al !! a) as [i|] eqn:Ha.
  - assert (a ∈ A) as HA by (apply RA; eauto).
    rewrite (bool_decide_false (a ∉ A)) by tauto.
    destruct (Z.eqb_spec i (-1)) as [->|Hi]; simplify_eq.
    + edestruct Hfresh as [? Hn]; [by right|done..|]. by rewrite bool_decide_true by done.
    + destruct (wf_slot_at _ _ _ Hwf Ha Hi) as (m & Hm & _ & _ & _).
      rewrite Hm in E; simpl in E. assert ((a, k) ∈ P <-> k ∈ m) as Hk.
      { rewrite RP. split; [|by intros; exists i, m]. intros (i1 & m1 & ? & _ & ? & ?). by simplify_eq. }
      case_bool_decide; simplify_eq.
      * rewrite bool_decide_false by tauto. split; [done|].
        replace ({[a]} ∪ A) with A by set_solver.
        by replace ({[(a, k)]} ∪ P) with P by set_solver.
      * rewrite bool_decide_true by tauto. split; [done|]. split; [done| |].
        -- intros c. simpl. rewrite <- RA. set_solver.
        -- intros c j. rewrite (has_pair_add al a k i m) by done. rewrite <- RP. set_solver.
  - assert (a ∉ A) as HA by (rewrite RA; intros [? HS]; congruence). simplify_eq.
    edestruct Hfresh as [? Hn]; [by left|done..|]. by rewrite !bool_decide_true by done.
Qed.
End AccessList.

Module Transient.

Abbreviation transientStorage := (gmap Z (gmap Z Z)).

Definition newTransientStorage : transientStorage := ∅.

Definition Set_ (t : transientStorage) (addr key value : Z) : transientStorage :=
  if value =? 0 then
    match t !! addr with
    | Some m =>
        let m' := delete key m in
        if bool_decide (m' = ∅) then delete addr t else <[addr := m']> t
    | None => t
    end
  else
    let m := default ∅ (t !! addr) in
    <[addr := <[key := value]> m]> t.

Definition Get (t : transientStorage) (addr key : Z) : Z :=
  match t !! addr with
  | None => 0
  | Some m => default 0 (m !! key)
  end.

(** The store never holds an empty map or a zero value. *)
Definition normal (t : transientStorage) : Prop :=
  forall a m, t !! a = Some m -> m ≠ ∅ /\ forall k, m !! k <> Some 0.

Lemma Get_Set t a k v b j :
  Get (Set_ t a k v) b j = if decide ((b, j) = (a, k)) then v else Get t b j.
Proof.
  unfold Get, Set_. destruct (Z.eqb_spec v 0) as [->|Hv].
  - destruct (t !! a) as [m|] eqn:Ha.
    + cbv zeta. case_bool_decide as Hm; destruct (decide (a = b)) as [<-|Hab].
      * rewrite lookup_delete_eq, Ha. case_decide as Hd; [done|].
        assert (k <> j) by congruence.
        by rewrite <- (lookup_delete_ne m k j), Hm, lookup_empty.
      * rewrite lookup_delete_ne by done. by rewrite decide_False by congruence.
      * rewrite lookup_insert_eq, Ha. case_decide as Hd; simplify_eq.
        -- by rewrite lookup_delete_eq.
        -- by rewrite lookup_delete_ne by congruence.
      * rewrite lookup_insert_ne by done. by rewrite decide_False by congruence.
    + case_decide; [|done]. simplify_eq. by rewrite Ha.
  - destruct (decide (a = b)) as [<-|Hab].
    + rewrite lookup_insert_eq. case_decide as Hd; simplify_eq.
      * by rewrite lookup_insert_eq.
      * rewrite lookup_insert_ne by congruence. by destruct (t !! a).
    + rewrite lookup_insert_ne by done. by rewrite decide_False by congruence.
Qed.

Lemma Set_normal t a k v : normal t -> normal (Set_ t a k v).
Proof.
  intros Hn b m. unfold Set_. destruct (Z.eqb_spec v 0) as [->|Hv].
  - destruct (t !! a) as [m'|] eqn:Ha; [|apply Hn].
    destruct (Hn _ _ Ha) as [_ H0]. case_bool_decide.
    + intros [_ ?]%lookup_delete_Some. by eapply Hn.
    + intros [[<- <-]|[_ ?]]%lookup_insert_Some; [|by eapply Hn].
      split; [done|]. intros j [_ ?]%lookup_delete_Some. by eapply H0.
  - intros [[<- <-]|[_ ?]]%lookup_insert_Some; [|by eapply Hn].
    split; [apply insert_non_empty|]. intros j [[_ ?]|[_ Hj]]%lookup_insert_Some; [done|].
    destruct (t !! a) as [m'|] eqn:Ha; [|done]. by eapply Hn.
Qed.

(** Normal stores are determined by what [Get] returns. *)
Lemma normal_ext t1 t2 :
  normal t1 -> normal t2 -> (forall a k, Get t1 a k = Get t2 a k) -> t1 = t2.
Proof.
  assert (forall t a m, normal t -> t !! a = Some m -> exists k, Get t a k <> 0) as Hne.
  { intros t a m Hn Ha. destruct (Hn _ _ Ha) as [Hm H0].
    destruct (map_choose _ Hm) as (k & x & Hk). exists k. unfold Get. rewrite Ha, Hk. simpl.
    intros ->. by apply (H0 k). }
  assert (forall t a m k, normal t -> t !! a = Some m ->
    m !! k = (let x := Get t a k in if x =? 0 then None else Some x)) as Hmk.
  { intros t a m k Hn Ha. unfold Get. rewrite Ha. destruct (Hn _ _ Ha) as [_ H0].
    destruct (m !! k) as [x|] eqn:E; simpl; [|done].
    destruct (Z.eqb_spec x 0) as [->|]; [|done]. by destruct (H0 k). }
  intros H1 H2 HG. apply map_eq. intros a.
  destruct (t1 !! a) as [m1|] eqn:E1, (t2 !! a) as [m2|] eqn:E2; [|exfalso..|done].
  - f_equal. apply map_eq. intros k. rewrite (Hmk t1 a m1 k), (Hmk t2 a m2 k) by done.
    by rewrite HG.
  - destruct (Hne t1 a m1 H1 E1) as [k Hk]. apply Hk. rewrite HG. unfold Get. by rewrite E2.
  - destruct (Hne t2 a m2 H2 E2) as [k Hk]. apply Hk. rewrite <- HG. unfold Get. by rewrite E1.
Qed.

End Transient.

(** * Properties *)

Import AccessList.

(** The access list implements a set of addresses and a set of (address,
    slot) pairs: from any represented state, [AddAddress] and [AddSlot] never
    panic, add exactly their arguments, return true flags exactly for what was
    new, [Contains] answers membership, and [DeleteSlot] followed by
    [DeleteAddress] for every true flag restores the identical list. *)
Theorem accessList_refines (al : accessList) (A : gset Z) (P : gset (Z * Z)) (a k : Z)
  (Hrep : represents al A P) :
  Contains al a k = Some (bool_decide (a ∈ A), bool_decide ((a, k) ∈ P))
  /\ ContainsAddress al a = bool_decide (a ∈ A)
  /\ (exists al', AddAddress al a = (al', bool_decide (a ∉ A))
        /\ represents al' ({[a]} ∪ A) P
        /\ (a ∉ A -> DeleteAddress al' a = al))
  /\ (exists al', AddSlot al a k = Some (al', (bool_decide (a ∉ A), bool_decide ((a, k) ∉ P)))
        /\ represents al' ({[a]} ∪ A) ({[(a, k)]} ∪ P)
        /\ ((a, k) ∉ P -> exists al1, DeleteSlot al' a k = Some al1
              /\ (if bool_decide (a ∉ A) then DeleteAddress al1 a else al1) = al)).
Proof.
  pose proof (rep_wf _ _ _ Hrep) as Hwf.
  split; [by apply Contains_spec|]. split; [by eapply ContainsAddress_spec|]. split.
  - destruct (AddAddress_represents _ _ _ a Hrep) as [Hr Hf]. exists (fst (AddAddress al a)).
    rewrite <- Hf, <- surjective_pairing. split; [done|]. split; [done|]. intros Ha.
    apply DeleteAddress_AddAddress. rewrite (ContainsAddress_spec _ _ _ a Hrep).
    by apply bool_decide_false.
  - destruct (AddSlot_represents _ _ _ a k Hrep) as (al' & E & Hr). exists al'.
    split; [done|]. split; [done|]. intros Hp.
    pose proof (DeleteSlot_AddSlot _ _ _ _ _ Hwf E) as D.
    rewrite (bool_decide_true ((a, k) ∉ P)) in D by done.
    destruct (bool_decide (a ∉ A)).
    + destruct D as (al1 & ? & ? & _). eauto.
    + eauto.
Qed.

Lemma accessList_refines_witness :
  represents newAccessList ∅ ∅ /\
  exists al', AddSlot newAccessList 7 9 = Some (al', (true, true)) /\ DeleteSlot al' 7 9 <> None.
Proof.
  split; [apply represents_new|].
  destruct (accessList_refines newAccessList ∅ ∅ 7 9 represents_new)
    as (_ & _ & _ & al' & E & _ & D).
  exists al'. split; [exact E|]. destruct D as (al1 & -> & _); [set_solver|done].
Defined.

(** Transient storage behaves as a total map with default zero, and its
    representation stays canonical: stores that hold no empty map or zero value
    are closed under [Set_], and two of them that answer every [Get] alike are
    equal, so undoing a write with the previous value restores the very map. *)
Theorem transient_storage_canonical (t : Transient.transientStorage) (a k v : Z)
  (Hn : Transient.normal t) :
  (forall b j, Transient.Get (Transient.Set_ t a k v) b j
     = if decide ((b, j) = (a, k)) then v else Transient.Get t b j)
  /\ Transient.normal (Transient.Set_ t a k v)
  /\ Transient.Set_ (Transient.Set_ t a k v) a k (Transient.Get t a k) = t.
Proof.
  split; [intros; apply Transient.Get_Set|]. split; [by apply Transient.Set_normal|].
  apply Transient.normal_ext; [by apply Transient.Set_normal, Transient.Set_normal|done|].
  intros b j. rewrite !Transient.Get_Set. case_decide; [|done]. by simplify_eq.
Qed.

Lemma transient_storage_canonical_witness :
  Transient.normal Transient.newTransientStorage /\
  Transient.Set_ (Transient.Set_ Transient.newTransientStorage 1 2 3) 1 2 0
    = Transient.newTransientStorage.
Proof.
  assert (Transient.normal Transient.newTransientStorage) as Hn by (intros a m Hm; done).
  split; [exact Hn|].
  exact (proj2 (proj2 (transient_storage_canonical Transient.newTransientStorage 1 2 3 Hn))).
Defined.
