(* ===== verification/State.v ===== *)
(** The state database: data and operations.

    [core/state/statedb.go], [state_object.go], [journal.go],
    [journal_arbitrum.go] and [statedb_arbitrum.go].  Addresses, hashes and
    storage words are integers.  A state object is a Go pointer held in the map
    of live objects; a method of a state object takes the object and returns the
    new one, and its caller in [StateDB] writes it back ([write_back]).

    Outside the repository, or behind one of its interfaces, and therefore
    parameters: the database reader (class [Reader], the interface of
    [core/state/reader.go]), the wasm store, and Keccak-256 (class [Hasher]).
    Timers, metrics, the prefetcher and the witness collection do not influence
    any value and are left out; so is everything that touches tries
    ([IntermediateRoot] after [Finalise], [commit]).

    The journal keeps its entries newest first ([entries] in Go is the reverse). *)

From stdpp Require Import base gmap list numbers option sets strings.
From S2P Require Import Prelude Params Uint256 AccessList.
Import AccessList.
Open Scope Z_scope.

(** ** Parameters *)

(** Errors that a read memoises in [dbErr]; [ReaderErr] is the reader's own. *)
Inductive dbError :=
| ReaderErr (code : Z)
| ErrGetStateObject (addr : Z) (e : dbError)
| ErrLoadCode (hash : Z) (e : dbError)
| ErrLoadCodeSize (hash : Z) (e : dbError)
| ErrCodeNotFound (hash : Z).

Record StateAccount := mkAccount {
  Nonce : Z;
  Balance : Z;
  Root : Z;
  CodeHash : Z
}.

Definition set_Nonce (v : Z) (x : StateAccount) : StateAccount :=
    mkAccount v (Balance x) (Root x) (CodeHash x).
Definition set_Balance (v : Z) (x : StateAccount) : StateAccount :=
    mkAccount (Nonce x) v (Root x) (CodeHash x).
Definition set_Root (v : Z) (x : StateAccount) : StateAccount :=
    mkAccount (Nonce x) (Balance x) v (CodeHash x).
Definition set_CodeHash (v : Z) (x : StateAccount) : StateAccount :=
    mkAccount (Nonce x) (Balance x) (Root x) v.

(** The account, storage and code reader bound to a state root, and the store of
    compiled wasm modules.  [r_Code] and [r_CodeSize] return a value even when
    they fail. *)
Class Reader := {
  r_Account : Z -> result dbError (option StateAccount);
  r_Storage : Z -> Z -> result dbError Z;
  r_Code : Z -> Z -> list Z * option dbError;
  r_CodeSize : Z -> Z -> Z * option dbError;
  db_ActivatedAsm : string -> Z -> list Z;
  LocalTarget : string
}.

Class Hasher := { keccak256 : list Z -> Z }.

Section Model.
Context {U : U256.Ops} {HS : Hasher} {R : Reader}.

Definition EmptyCodeHash : Z := keccak256 [].
Definition EmptyRootHash : Z :=
  0x56e81f171bcc55a6ff8345e692c0f86e5b48e01b996cadc001622fb5e363b421.
Definition ripemd : Z := 3.

Definition NewEmptyStateAccount : StateAccount :=
  mkAccount 0 0 EmptyRootHash EmptyCodeHash.

End Model.

(** ** State objects *)

Record stateObject := mkObject {
  so_address : Z;
  so_origin : option StateAccount;
  so_data : StateAccount;
  so_code : list Z;
  originStorage : gmap Z Z;
  dirtyStorage : gmap Z Z;
  pendingStorage : gmap Z Z;
  uncommittedStorage : gmap Z Z;
  dirtyCode : bool;
  selfDestructed : bool;
  newContract : bool
}.

Definition set_so_address (v : Z) (x : stateObject) : stateObject :=
    mkObject v (so_origin x) (so_data x) (so_code x) (originStorage x) (dirtyStorage x)
    (pendingStorage x) (uncommittedStorage x) (dirtyCode x) (selfDestructed x)
    (newContract x).
Definition set_so_origin (v : option StateAccount) (x : stateObject) : stateObject :=
    mkObject (so_address x) v (so_data x) (so_code x) (originStorage x) (dirtyStorage x)
    (pendingStorage x) (uncommittedStorage x) (dirtyCode x) (selfDestructed x)
    (newContract x).
Definition set_so_data (v : StateAccount) (x : stateObject) : stateObject :=
    mkObject (so_address x) (so_origin x) v (so_code x) (originStorage x) (dirtyStorage
    x) (pendingStorage x) (uncommittedStorage x) (dirtyCode x) (selfDestructed x)
    (newContract x).
Definition set_so_code (v : list Z) (x : stateObject) : stateObject :=
    mkObject (so_address x) (so_origin x) (so_data x) v (originStorage x) (dirtyStorage
    x) (pendingStorage x) (uncommittedStorage x) (dirtyCode x) (selfDestructed x)
    (newContract x).
Definition set_originStorage (v : gmap Z Z) (x : stateObject) : stateObject :=
    mkObject (so_address x) (so_origin x) (so_data x) (so_code x) v (dirtyStorage x)
    (pendingStorage x) (uncommittedStorage x) (dirtyCode x) (selfDestructed x)
    (newContract x).
Definition set_dirtyStorage (v : gmap Z Z) (x : stateObject) : stateObject :=
    mkObject (so_address x) (so_origin x) (so_data x) (so_code x) (originStorage x) v
    (pendingStorage x) (uncommittedStorage x) (dirtyCode x) (selfDestructed x)
    (newContract x).
Definition set_pendingStorage (v : gmap Z Z) (x : stateObject) : stateObject :=
    mkObject (so_address x) (so_origin x) (so_data x) (so_code x) (originStorage x)
    (dirtyStorage x) v (uncommittedStorage x) (dirtyCode x) (selfDestructed x)
    (newContract x).
Definition set_uncommittedStorage (v : gmap Z Z) (x : stateObject) : stateObject :=
    mkObject (so_address x) (so_origin x) (so_data x) (so_code x) (originStorage x)
    (dirtyStorage x) (pendingStorage x) v (dirtyCode x) (selfDestructed x) (newContract
    x).
Definition set_dirtyCode (v : bool) (x : stateObject) : stateObject :=
    mkObject (so_address x) (so_origin x) (so_data x) (so_code x) (originStorage x)
    (dirtyStorage x) (pendingStorage x) (uncommittedStorage x) v (selfDestructed x)
    (newContract x).
Definition set_selfDestructed (v : bool) (x : stateObject) : stateObject :=
    mkObject (so_address x) (so_origin x) (so_data x) (so_code x) (originStorage x)
    (dirtyStorage x) (pendingStorage x) (uncommittedStorage x) (dirtyCode x) v
    (newContract x).
Definition set_newContract (v : bool) (x : stateObject) : stateObject :=
    mkObject (so_address x) (so_origin x) (so_data x) (so_code x) (originStorage x)
    (dirtyStorage x) (pendingStorage x) (uncommittedStorage x) (dirtyCode x)
    (selfDestructed x) v.

(** ** Journal *)

Inductive journalEntry :=
| createObjectChange (account : Z)
| createZombieChange (account : Z)
| createContractChange (account : Z)
| selfDestructChange (account : Z)
| balanceChange (account prev : Z)
| nonceChange (account prev : Z)
| storageChange (account key prevvalue origvalue : Z)
| codeChange (account : Z) (prevCode : list Z)
| refundChange (prev : Z)
| addLogChange (txhash : Z)
| touchChange (account : Z)
| accessListAddAccountChange (address : Z)
| accessListAddSlotChange (address slot : Z)
| transientStorageChange (account key prevalue : Z)
| wasmActivation (moduleHash : Z)
| CacheWasm (ModuleHash Version Tag : Z) (Debug : bool)
| EvictWasm (ModuleHash Version Tag : Z) (Debug : bool).

Record revision := mkRevision {
  id : Z;
  journalIndex : Z;
  rev_unexpectedBalanceDelta : Z
}.

Record journal := mkJournal {
  zombieEntries : gmap Z Z;
  entries : list journalEntry;
  dirties : gmap Z Z;
  validRevisions : list revision;
  nextRevisionId : Z
}.

Definition set_zombieEntries (v : gmap Z Z) (x : journal) : journal :=
    mkJournal v (entries x) (dirties x) (validRevisions x) (nextRevisionId x).
Definition set_entries (v : list journalEntry) (x : journal) : journal :=
    mkJournal (zombieEntries x) v (dirties x) (validRevisions x) (nextRevisionId x).
Definition set_dirties (v : gmap Z Z) (x : journal) : journal :=
    mkJournal (zombieEntries x) (entries x) v (validRevisions x) (nextRevisionId x).
Definition set_validRevisions (v : list revision) (x : journal) : journal :=
    mkJournal (zombieEntries x) (entries x) (dirties x) v (nextRevisionId x).
Definition set_nextRevisionId (v : Z) (x : journal) : journal :=
    mkJournal (zombieEntries x) (entries x) (dirties x) (validRevisions x) v.

(** ** The state database *)

Inductive mutationType := update | deletion.
Record mutation := mkMutation { typ : mutationType; applied : bool }.

Record Log := mkLog {
  LogAddress : Z;
  Topics : list Z;
  LogData : list Z;
  BlockNumber : Z;
  LogTxHash : Z;
  LogTxIndex : Z;
  BlockHash : Z;
  BlockTimestamp : Z;
  LogIndex : Z
}.

Definition set_LogAddress (v : Z) (x : Log) : Log :=
    mkLog v (Topics x) (LogData x) (BlockNumber x) (LogTxHash x) (LogTxIndex x)
    (BlockHash x) (BlockTimestamp x) (LogIndex x).
Definition set_Topics (v : list Z) (x : Log) : Log :=
    mkLog (LogAddress x) v (LogData x) (BlockNumber x) (LogTxHash x) (LogTxIndex x)
    (BlockHash x) (BlockTimestamp x) (LogIndex x).
Definition set_LogData (v : list Z) (x : Log) : Log :=
    mkLog (LogAddress x) (Topics x) v (BlockNumber x) (LogTxHash x) (LogTxIndex x)
    (BlockHash x) (BlockTimestamp x) (LogIndex x).
Definition set_BlockNumber (v : Z) (x : Log) : Log :=
    mkLog (LogAddress x) (Topics x) (LogData x) v (LogTxHash x) (LogTxIndex x)
    (BlockHash x) (BlockTimestamp x) (LogIndex x).
Definition set_LogTxHash (v : Z) (x : Log) : Log :=
    mkLog (LogAddress x) (Topics x) (LogData x) (BlockNumber x) v (LogTxIndex x)
    (BlockHash x) (BlockTimestamp x) (LogIndex x).
Definition set_LogTxIndex (v : Z) (x : Log) : Log :=
    mkLog (LogAddress x) (Topics x) (LogData x) (BlockNumber x) (LogTxHash x) v
    (BlockHash x) (BlockTimestamp x) (LogIndex x).
Definition set_BlockHash (v : Z) (x : Log) : Log :=
    mkLog (LogAddress x) (Topics x) (LogData x) (BlockNumber x) (LogTxHash x)
    (LogTxIndex x) v (BlockTimestamp x) (LogIndex x).
Definition set_BlockTimestamp (v : Z) (x : Log) : Log :=
    mkLog (LogAddress x) (Topics x) (LogData x) (BlockNumber x) (LogTxHash x)
    (LogTxIndex x) (BlockHash x) v (LogIndex x).
Definition set_LogIndex (v : Z) (x : Log) : Log :=
    mkLog (LogAddress x) (Topics x) (LogData x) (BlockNumber x) (LogTxHash x)
    (LogTxIndex x) (BlockHash x) (BlockTimestamp x) v.

(** Compiled code per target. *)
Abbreviation ActivatedWasm := (gmap string (list Z)).

(** Calls to the Rust-side program cache ([CacheWasmRust], [EvictWasmRust]),
    recorded newest first. *)
Inductive rustCall :=
| CacheWasmRust (asm : list Z) (moduleHash version tag : Z) (debug : bool)
| EvictWasmRust (moduleHash version tag : Z) (debug : bool).

Record ArbitrumExtraData := mkArb {
  unexpectedBalanceDelta : Z;
  userWasms : option (gmap Z ActivatedWasm);
  openWasmPages : Z;
  everWasmPages : Z;
  activatedWasms : gmap Z ActivatedWasm;
  arbTxFilter : bool
}.

Definition set_unexpectedBalanceDelta (v : Z) (x : ArbitrumExtraData) : ArbitrumExtraData :=
    mkArb v (userWasms x) (openWasmPages x) (everWasmPages x) (activatedWasms x)
    (arbTxFilter x).
Definition set_userWasms (v : option (gmap Z ActivatedWasm)) (x : ArbitrumExtraData) : ArbitrumExtraData :=
    mkArb (unexpectedBalanceDelta x) v (openWasmPages x) (everWasmPages x)
    (activatedWasms x) (arbTxFilter x).
Definition set_openWasmPages (v : Z) (x : ArbitrumExtraData) : ArbitrumExtraData :=
    mkArb (unexpectedBalanceDelta x) (userWasms x) v (everWasmPages x) (activatedWasms
    x) (arbTxFilter x).
Definition set_everWasmPages (v : Z) (x : ArbitrumExtraData) : ArbitrumExtraData :=
    mkArb (unexpectedBalanceDelta x) (userWasms x) (openWasmPages x) v (activatedWasms
    x) (arbTxFilter x).
Definition set_activatedWasms (v : gmap Z ActivatedWasm) (x : ArbitrumExtraData) : ArbitrumExtraData :=
    mkArb (unexpectedBalanceDelta x) (userWasms x) (openWasmPages x) (everWasmPages x) v
    (arbTxFilter x).
Definition set_arbTxFilter (v : bool) (x : ArbitrumExtraData) : ArbitrumExtraData :=
    mkArb (unexpectedBalanceDelta x) (userWasms x) (openWasmPages x) (everWasmPages x)
    (activatedWasms x) v.

Record StateDB := mkStateDB {
  arbExtraData : ArbitrumExtraData;
  stateObjects : gmap Z stateObject;
  stateObjectsDestruct : gmap Z stateObject;
  mutations : gmap Z mutation;
  dbErr : option dbError;
  refund : Z;
  thash : Z;
  txIndex : Z;
  logs : gmap Z (list Log);
  logSize : Z;
  preimages : gmap Z (list Z);
  al : accessList;
  transient : Transient.transientStorage;
  jrnl : journal;
  deterministic : bool;
  recording : bool;
  rustCalls : list rustCall
}.

Definition set_arbExtraData (v : ArbitrumExtraData) (x : StateDB) : StateDB :=
    mkStateDB v (stateObjects x) (stateObjectsDestruct x) (mutations x) (dbErr x)
    (refund x) (thash x) (txIndex x) (logs x) (logSize x) (preimages x) (al x)
    (transient x) (jrnl x) (deterministic x) (recording x) (rustCalls x).
Definition set_stateObjects (v : gmap Z stateObject) (x : StateDB) : StateDB :=
    mkStateDB (arbExtraData x) v (stateObjectsDestruct x) (mutations x) (dbErr x)
    (refund x) (thash x) (txIndex x) (logs x) (logSize x) (preimages x) (al x)
    (transient x) (jrnl x) (deterministic x) (recording x) (rustCalls x).
Definition set_stateObjectsDestruct (v : gmap Z stateObject) (x : StateDB) : StateDB :=
    mkStateDB (arbExtraData x) (stateObjects x) v (mutations x) (dbErr x) (refund x)
    (thash x) (txIndex x) (logs x) (logSize x) (preimages x) (al x) (transient x) (jrnl
    x) (deterministic x) (recording x) (rustCalls x).
Definition set_mutations (v : gmap Z mutation) (x : StateDB) : StateDB :=
    mkStateDB (arbExtraData x) (stateObjects x) (stateObjectsDestruct x) v (dbErr x)
    (refund x) (thash x) (txIndex x) (logs x) (logSize x) (preimages x) (al x)
    (transient x) (jrnl x) (deterministic x) (recording x) (rustCalls x).
Definition set_dbErr (v : option dbError) (x : StateDB) : StateDB :=
    mkStateDB (arbExtraData x) (stateObjects x) (stateObjectsDestruct x) (mutations x) v
    (refund x) (thash x) (txIndex x) (logs x) (logSize x) (preimages x) (al x)
    (transient x) (jrnl x) (deterministic x) (recording x) (rustCalls x).
Definition set_refund (v : Z) (x : StateDB) : StateDB :=
    mkStateDB (arbExtraData x) (stateObjects x) (stateObjectsDestruct x) (mutations x)
    (dbErr x) v (thash x) (txIndex x) (logs x) (logSize x) (preimages x) (al x)
    (transient x) (jrnl x) (deterministic x) (recording x) (rustCalls x).
Definition set_thash (v : Z) (x : StateDB) : StateDB :=
    mkStateDB (arbExtraData x) (stateObjects x) (stateObjectsDestruct x) (mutations x)
    (dbErr x) (refund x) v (txIndex x) (logs x) (logSize x) (preimages x) (al x)
    (transient x) (jrnl x) (deterministic x) (recording x) (rustCalls x).
Definition set_txIndex (v : Z) (x : StateDB) : StateDB :=
    mkStateDB (arbExtraData x) (stateObjects x) (stateObjectsDestruct x) (mutations x)
    (dbErr x) (refund x) (thash x) v (logs x) (logSize x) (preimages x) (al x)
    (transient x) (jrnl x) (deterministic x) (recording x) (rustCalls x).
Definition set_logs (v : gmap Z (list Log)) (x : StateDB) : StateDB :=
    mkStateDB (arbExtraData x) (stateObjects x) (stateObjectsDestruct x) (mutations x)
    (dbErr x) (refund x) (thash x) (txIndex x) v (logSize x) (preimages x) (al x)
    (transient x) (jrnl x) (deterministic x) (recording x) (rustCalls x).
Definition set_logSize (v : Z) (x : StateDB) : StateDB :=
    mkStateDB (arbExtraData x) (stateObjects x) (stateObjectsDestruct x) (mutations x)
    (dbErr x) (refund x) (thash x) (txIndex x) (logs x) v (preimages x) (al x)
    (transient x) (jrnl x) (deterministic x) (recording x) (rustCalls x).
Definition set_preimages (v : gmap Z (list Z)) (x : StateDB) : StateDB :=
    mkStateDB (arbExtraData x) (stateObjects x) (stateObjectsDestruct x) (mutations x)
    (dbErr x) (refund x) (thash x) (txIndex x) (logs x) (logSize x) v (al x) (transient
    x) (jrnl x) (deterministic x) (recording x) (rustCalls x).
Definition set_al (v : accessList) (x : StateDB) : StateDB :=
    mkStateDB (arbExtraData x) (stateObjects x) (stateObjectsDestruct x) (mutations x)
    (dbErr x) (refund x) (thash x) (txIndex x) (logs x) (logSize x) (preimages x) v
    (transient x) (jrnl x) (deterministic x) (recording x) (rustCalls x).
Definition set_transient (v : Transient.transientStorage) (x : StateDB) : StateDB :=
    mkStateDB (arbExtraData x) (stateObjects x) (stateObjectsDestruct x) (mutations x)
    (dbErr x) (refund x) (thash x) (txIndex x) (logs x) (logSize x) (preimages x) (al x)
    v (jrnl x) (deterministic x) (recording x) (rustCalls x).
Definition set_jrnl (v : journal) (x : StateDB) : StateDB :=
    mkStateDB (arbExtraData x) (stateObjects x) (stateObjectsDestruct x) (mutations x)
    (dbErr x) (refund x) (thash x) (txIndex x) (logs x) (logSize x) (preimages x) (al x)
    (transient x) v (deterministic x) (recording x) (rustCalls x).
Definition set_deterministic (v : bool) (x : StateDB) : StateDB :=
    mkStateDB (arbExtraData x) (stateObjects x) (stateObjectsDestruct x) (mutations x)
    (dbErr x) (refund x) (thash x) (txIndex x) (logs x) (logSize x) (preimages x) (al x)
    (transient x) (jrnl x) v (recording x) (rustCalls x).
Definition set_recording (v : bool) (x : StateDB) : StateDB :=
    mkStateDB (arbExtraData x) (stateObjects x) (stateObjectsDestruct x) (mutations x)
    (dbErr x) (refund x) (thash x) (txIndex x) (logs x) (logSize x) (preimages x) (al x)
    (transient x) (jrnl x) (deterministic x) v (rustCalls x).
Definition set_rustCalls (v : list rustCall) (x : StateDB) : StateDB :=
    mkStateDB (arbExtraData x) (stateObjects x) (stateObjectsDestruct x) (mutations x)
    (dbErr x) (refund x) (thash x) (txIndex x) (logs x) (logSize x) (preimages x) (al x)
    (transient x) (jrnl x) (deterministic x) (recording x) v.

Section Operations.
Context {U : U256.Ops} {HS : Hasher} {R : Reader}.

(** ** Journal operations that do not touch the state *)

Definition newJournal : journal := mkJournal ∅ [] ∅ [] 0.

Definition reset (j : journal) : journal :=
  mkJournal (zombieEntries j) [] ∅ [] 0.

Definition dirtied (e : journalEntry) : option Z :=
  match e with
  | createObjectChange a | createZombieChange a | selfDestructChange a
  | balanceChange a _ | nonceChange a _ | storageChange a _ _ _ | codeChange a _
  | touchChange a => Some a
  | createContractChange _ | refundChange _ | addLogChange _
  | accessListAddAccountChange _ | accessListAddSlotChange _ _
  | transientStorageChange _ _ _ | wasmActivation _ | CacheWasm _ _ _ _
  | EvictWasm _ _ _ _ => None
  end.

Definition isZombie (e : journalEntry) : bool :=
  match e with createZombieChange _ => true | _ => false end.

Definition length_ (j : journal) : Z := Z.of_nat (length (entries j)).

(** [m[a]++] and [m[a]--] on a Go map of counters. *)
Definition incr (m : gmap Z Z) (a : Z) : gmap Z Z := <[a := default 0 (m !! a) + 1]> m.

Definition append (e : journalEntry) (j : journal) : journal :=
  let j := set_entries (e :: entries j) j in
  match dirtied e with
  | Some a =>
      let j := set_dirties (incr (dirties j) a) j in
      if isZombie e then set_zombieEntries (incr (zombieEntries j) a) j else j
  | None => j
  end.

Definition dirty (a : Z) (j : journal) : journal := set_dirties (incr (dirties j) a) j.

Definition snapshot (delta : Z) (j : journal) : Z * journal :=
  let id := nextRevisionId j in
  let j := set_nextRevisionId (nextRevisionId j + 1) j in
  (id, set_validRevisions
         (validRevisions j ++ [mkRevision id (length_ j) delta]) j).

(** The dirty tracking that [revert] drops with an entry. *)
Definition decr_delete (m : gmap Z Z) (a : Z) : gmap Z Z * bool :=
  let n := default 0 (m !! a) - 1 in
  if n =? 0 then (delete a m, true) else (<[a := n]> m, false).

Definition undirty (e : journalEntry) (j : journal) : journal :=
  match dirtied e with
  | Some a =>
      let '(d, zero) := decr_delete (dirties j) a in
      let j := set_dirties d j in
      if zero && isZombie e
      then set_zombieEntries (fst (decr_delete (zombieEntries j) a)) j
      else j
  | None => j
  end.

(** [sort.Search]: the loop of the Go standard library, [fuel] bounding the
    number of halvings. *)
Fixpoint search_loop (fuel : nat) (f : Z -> bool) (i j : Z) : Z :=
  match fuel with
  | O => i
  | S fuel' =>
      if i <? j then
        let h := (i + j) / 2 in
        if f h then search_loop fuel' f i h else search_loop fuel' f (h + 1) j
      else i
  end.
Definition Search (n : Z) (f : Z -> bool) : Z := search_loop (Z.to_nat n) f 0 n.

(** ** Methods of state objects *)

Definition empty_ (o : stateObject) : bool :=
  (Nonce (so_data o) =? 0) && U256.IsZero (Balance (so_data o))
  && (CodeHash (so_data o) =? EmptyCodeHash).

Definition newObject (address : Z) (acct : option StateAccount) : stateObject :=
  mkObject address acct (default NewEmptyStateAccount acct) [] ∅ ∅ ∅ ∅ false false false.

Definition journal_append (e : journalEntry) (s : StateDB) : StateDB :=
  set_jrnl (append e (jrnl s)) s.

Definition setError (e : dbError) (s : StateDB) : StateDB :=
  match dbErr s with None => set_dbErr (Some e) s | Some _ => s end.

Definition markSelfdestructed (o : stateObject) : stateObject := set_selfDestructed true o.

Definition touchChange_ (a : Z) (s : StateDB) : StateDB :=
  let s := journal_append (touchChange a) s in
  if a =? ripemd then set_jrnl (dirty a (jrnl s)) s else s.

Definition obj_touch (o : stateObject) (s : StateDB) : StateDB := touchChange_ (so_address o) s.

Definition obj_GetCommittedState (o : stateObject) (key : Z) (s : StateDB) :
    Z * stateObject * StateDB :=
  match pendingStorage o !! key with
  | Some value => (value, o, s)
  | None =>
  match originStorage o !! key with
  | Some value => (value, o, s)
  | None =>
  match stateObjectsDestruct s !! so_address o with
  | Some _ => (0, set_originStorage (<[key := 0]> (originStorage o)) o, s)
  | None =>
  match r_Storage (so_address o) key with
  | Err e => (0, o, setError e s)
  | Ok value => (value, set_originStorage (<[key := value]> (originStorage o)) o, s)
  end end end end.

Definition obj_getState (o : stateObject) (key : Z) (s : StateDB) :
    (Z * Z) * stateObject * StateDB :=
  let '(origin, o, s) := obj_GetCommittedState o key s in
  match dirtyStorage o !! key with
  | Some value => ((value, origin), o, s)
  | None => ((origin, origin), o, s)
  end.

Definition obj_GetState (o : stateObject) (key : Z) (s : StateDB) : Z * stateObject * StateDB :=
  let '((value, _), o, s) := obj_getState o key s in (value, o, s).

Definition obj_setState (key value origin : Z) (o : stateObject) : stateObject :=
  if value =? origin then set_dirtyStorage (delete key (dirtyStorage o)) o
  else set_dirtyStorage (<[key := value]> (dirtyStorage o)) o.

Definition obj_SetState (o : stateObject) (key value : Z) (s : StateDB) :
    Z * stateObject * StateDB :=
  let '((prev, origin), o, s) := obj_getState o key s in
  if prev =? value then (prev, o, s)
  else
    let s := journal_append (storageChange (so_address o) key prev origin) s in
    (prev, obj_setState key value origin o, s).

(** One iteration of the loop of [finalise] over the dirty slots. *)
Definition finalise_slot (os : stateObject * StateDB) (kv : Z * Z) : stateObject * StateDB :=
  let '(o, s) := os in
  let '(key, value) := kv in
  let '(o, s) :=
    match uncommittedStorage o !! key with
    | Some origin =>
        if origin =? value
        then (set_uncommittedStorage (delete key (uncommittedStorage o)) o, s)
        else (o, s)
    | None =>
        let '(v, o, s) := obj_GetCommittedState o key s in
        (set_uncommittedStorage (<[key := v]> (uncommittedStorage o)) o, s)
    end in
  (set_pendingStorage (<[key := value]> (pendingStorage o)) o, s).

Definition obj_finalise (o : stateObject) (s : StateDB) : stateObject * StateDB :=
  let '(o, s) := foldl finalise_slot (o, s) (map_to_list (dirtyStorage o)) in
  (set_newContract false (set_dirtyStorage ∅ o), s).

Definition obj_setBalance (amount : Z) (o : stateObject) : stateObject :=
  set_so_data (set_Balance amount (so_data o)) o.

Definition obj_SetBalance (o : stateObject) (amount : Z) (s : StateDB) :
    Z * stateObject * StateDB :=
  let prev := Balance (so_data o) in
  let s := journal_append (balanceChange (so_address o) prev) s in
  (prev, obj_setBalance amount o, s).

Definition obj_AddBalance (o : stateObject) (amount : Z) (s : StateDB) :
    Z * stateObject * StateDB :=
  if U256.IsZero amount then
    (Balance (so_data o), o, if empty_ o then obj_touch o s else s)
  else obj_SetBalance o (U256.Add (Balance (so_data o)) amount) s.

Definition obj_setNonce (nonce : Z) (o : stateObject) : stateObject :=
  set_so_data (set_Nonce nonce (so_data o)) o.

Definition obj_SetNonce (o : stateObject) (nonce : Z) (s : StateDB) : stateObject * StateDB :=
  (obj_setNonce nonce o,
   journal_append (nonceChange (so_address o) (Nonce (so_data o))) s).

Definition obj_setCode (codeHash : Z) (code : list Z) (o : stateObject) : stateObject :=
  set_dirtyCode true
    (set_so_data (set_CodeHash codeHash (so_data o)) (set_so_code code o)).

Definition obj_SetCode (o : stateObject) (codeHash : Z) (code : list Z) (s : StateDB) :
    list Z * stateObject * StateDB :=
  let prev := so_code o in
  let s := journal_append (codeChange (so_address o) prev) s in
  (prev, obj_setCode codeHash code o, s).

Definition obj_Code (o : stateObject) (s : StateDB) : list Z * stateObject * StateDB :=
  if negb (bool_decide (so_code o = [])) then (so_code o, o, s)
  else if CodeHash (so_data o) =? EmptyCodeHash then ([], o, s)
  else
    let hash := CodeHash (so_data o) in
    let '(code, err) := r_Code (so_address o) hash in
    let s := match err with Some e => setError (ErrLoadCode hash e) s | None => s end in
    let s := if bool_decide (code = []) then setError (ErrCodeNotFound hash) s else s in
    (code, set_so_code code o, s).

Definition obj_CodeSize (o : stateObject) (s : StateDB) : Z * StateDB :=
  if negb (bool_decide (so_code o = [])) then (Z.of_nat (length (so_code o)), s)
  else if CodeHash (so_data o) =? EmptyCodeHash then (0, s)
  else
    let hash := CodeHash (so_data o) in
    let '(size, err) := r_CodeSize (so_address o) hash in
    let s := match err with Some e => setError (ErrLoadCodeSize hash e) s | None => s end in
    let s := if size =? 0 then setError (ErrCodeNotFound hash) s else s in
    (size, s).

(** ** Loading and creating objects *)

Definition setStateObject (o : stateObject) (s : StateDB) : StateDB :=
  set_stateObjects (<[so_address o := o]> (stateObjects s)) s.

(** What a method did to the object that was found under [addr]. *)
Definition write_back (addr : Z) (o : stateObject) (s : StateDB) : StateDB :=
  set_stateObjects (<[addr := o]> (stateObjects s)) s.

Definition getStateObject (addr : Z) (s : StateDB) : option stateObject * StateDB :=
  match stateObjects s !! addr with
  | Some obj => (Some obj, s)
  | None =>
  match stateObjectsDestruct s !! addr with
  | Some _ => (None, s)
  | None =>
  match r_Account addr with
  | Err e => (None, setError (ErrGetStateObject addr e) s)
  | Ok None => (None, s)
  | Ok (Some acct) =>
      let obj := newObject addr (Some acct) in (Some obj, setStateObject obj s)
  end end end.

Definition createObject (addr : Z) (s : StateDB) : stateObject * StateDB :=
  let obj := newObject addr None in
  let s := journal_append (createObjectChange addr) s in
  (obj, setStateObject obj s).

Definition createZombie (addr : Z) (s : StateDB) : stateObject * StateDB :=
  let obj := newObject addr None in
  let s := journal_append (createZombieChange addr) s in
  (obj, setStateObject obj s).

Definition getOrNewStateObject (addr : Z) (s : StateDB) : stateObject * StateDB :=
  match getStateObject addr s with
  | (Some obj, s) => (obj, s)
  | (None, s) => createObject addr s
  end.

(** ** Transaction filter, errors, logs, preimages and refunds *)

Definition set_delta (v : Z) (s : StateDB) : StateDB :=
  set_arbExtraData (set_unexpectedBalanceDelta v (arbExtraData s)) s.
Definition delta (s : StateDB) : Z := unexpectedBalanceDelta (arbExtraData s).

Definition NewWithReader : StateDB :=
  mkStateDB (mkArb 0 None 0 0 ∅ false) ∅ ∅ ∅ None 0 0 0 ∅ 0 ∅ newAccessList
    Transient.newTransientStorage newJournal false false [].

Definition FilterTx (s : StateDB) : StateDB :=
  set_arbExtraData (set_arbTxFilter true (arbExtraData s)) s.
Definition ClearTxFilter (s : StateDB) : StateDB :=
  set_arbExtraData (set_arbTxFilter false (arbExtraData s)) s.
Definition IsTxFiltered (s : StateDB) : bool := arbTxFilter (arbExtraData s).

Definition AddLog (log : Log) (s : StateDB) : StateDB :=
  let s := journal_append (addLogChange (thash s)) s in
  let log := set_LogIndex (logSize s) (set_LogTxIndex (txIndex s) (set_LogTxHash (thash s) log)) in
  let s := set_logs (<[thash s := default [] (logs s !! thash s) ++ [log]]> (logs s)) s in
  set_logSize (u64 (logSize s + 1)) s.

(** Annotates the stored logs in place and returns them. *)
Definition GetLogs (hash blockNumber blockHash blockTime : Z) (s : StateDB) :
    list Log * StateDB :=
  match logs s !! hash with
  | None => ([], s)
  | Some ls =>
      let ls := map (fun l => set_BlockTimestamp blockTime
                       (set_BlockHash blockHash (set_BlockNumber blockNumber l))) ls in
      (ls, set_logs (<[hash := ls]> (logs s)) s)
  end.

Definition GetCurrentTxLogs (s : StateDB) : list Log := default [] (logs s !! thash s).

Definition AddPreimage (hash : Z) (preimage : list Z) (s : StateDB) : StateDB :=
  match preimages s !! hash with
  | Some _ => s
  | None => set_preimages (<[hash := preimage]> (preimages s)) s
  end.

Definition AddRefund (gas : Z) (s : StateDB) : StateDB :=
  let s := journal_append (refundChange (refund s)) s in
  set_refund (u64 (refund s + gas)) s.

Definition SubRefund (gas : Z) (s : StateDB) : option StateDB :=
  let s := journal_append (refundChange (refund s)) s in
  if refund s <? gas then None else Some (set_refund (refund s - gas) s).

Definition GetRefund (s : StateDB) : Z := refund s.

(** ** Readers of accounts *)

Definition Exist (addr : Z) (s : StateDB) : bool * StateDB :=
  match getStateObject addr s with
  | (Some _, s) => (true, s)
  | (None, s) => (false, s)
  end.

Definition Empty (addr : Z) (s : StateDB) : bool * StateDB :=
  match getStateObject addr s with
  | (Some so, s) => (empty_ so, s)
  | (None, s) => (true, s)
  end.

Definition GetBalance (addr : Z) (s : StateDB) : Z * StateDB :=
  match getStateObject addr s with
  | (Some so, s) => (Balance (so_data so), s)
  | (None, s) => (0, s)
  end.

Definition GetNonce (addr : Z) (s : StateDB) : Z * StateDB :=
  match getStateObject addr s with
  | (Some so, s) => (Nonce (so_data so), s)
  | (None, s) => (0, s)
  end.

Definition GetStorageRoot (addr : Z) (s : StateDB) : Z * StateDB :=
  match getStateObject addr s with
  | (Some so, s) => (Root (so_data so), s)
  | (None, s) => (0, s)
  end.

Definition GetCode (addr : Z) (s : StateDB) : list Z * StateDB :=
  match getStateObject addr s with
  | (Some so, s) => let '(c, so, s) := obj_Code so s in (c, write_back addr so s)
  | (None, s) => ([], s)
  end.

Definition GetCodeSize (addr : Z) (s : StateDB) : Z * StateDB :=
  match getStateObject addr s with
  | (Some so, s) => obj_CodeSize so s
  | (None, s) => (0, s)
  end.

Definition GetCodeHash (addr : Z) (s : StateDB) : Z * StateDB :=
  match getStateObject addr s with
  | (Some so, s) => (CodeHash (so_data so), s)
  | (None, s) => (0, s)
  end.

Definition GetState (addr hash : Z) (s : StateDB) : Z * StateDB :=
  match getStateObject addr s with
  | (Some so, s) => let '(v, so, s) := obj_GetState so hash s in (v, write_back addr so s)
  | (None, s) => (0, s)
  end.

Definition GetCommittedState (addr hash : Z) (s : StateDB) : Z * StateDB :=
  match getStateObject addr s with
  | (Some so, s) =>
      let '(v, so, s) := obj_GetCommittedState so hash s in (v, write_back addr so s)
  | (None, s) => (0, s)
  end.

Definition GetStateAndCommittedState (addr hash : Z) (s : StateDB) : (Z * Z) * StateDB :=
  match getStateObject addr s with
  | (Some so, s) => let '(v, so, s) := obj_getState so hash s in (v, write_back addr so s)
  | (None, s) => ((0, 0), s)
  end.

Definition HasSelfDestructed (addr : Z) (s : StateDB) : bool * StateDB :=
  match getStateObject addr s with
  | (Some so, s) => (selfDestructed so, s)
  | (None, s) => (false, s)
  end.

(** ** Setters *)

Definition AddBalance (addr amount : Z) (s : StateDB) : Z * StateDB :=
  let '(so, s) := getOrNewStateObject addr s in
  let s := set_delta (delta s + amount) s in
  let '(prev, so, s) := obj_AddBalance so amount s in
  (prev, write_back addr so s).

Definition SubBalance (addr amount : Z) (s : StateDB) : Z * StateDB :=
  let '(so, s) := getOrNewStateObject addr s in
  if U256.IsZero amount then (Balance (so_data so), s)
  else
    let s := set_delta (delta s - amount) s in
    let '(prev, so, s) := obj_SetBalance so (U256.Sub (Balance (so_data so)) amount) s in
    (prev, write_back addr so s).

(** A nil amount is [None]. *)
Definition SetBalance (addr : Z) (amount : option Z) (s : StateDB) : StateDB :=
  let '(so, s) := getOrNewStateObject addr s in
  let amount := default 0 amount in
  let prevBalance := Balance (so_data so) in
  let s := set_delta (delta s + amount) s in
  let s := set_delta (delta s - prevBalance) s in
  let '(_, so, s) := obj_SetBalance so amount s in
  write_back addr so s.

Definition ExpectBalanceBurn (amount : Z) (s : StateDB) : option StateDB :=
  if amount <? 0 then None else Some (set_delta (delta s + amount) s).

Definition ExpectBalanceMint (amount : Z) (s : StateDB) : option StateDB :=
  if amount <? 0 then None else Some (set_delta (delta s - amount) s).

Definition GetUnexpectedBalanceDelta (s : StateDB) : Z := delta s.

Definition SetNonce (addr nonce : Z) (s : StateDB) : StateDB :=
  let '(so, s) := getOrNewStateObject addr s in
  let '(so, s) := obj_SetNonce so nonce s in
  write_back addr so s.

Definition SetCode (addr : Z) (code : list Z) (s : StateDB) : list Z * StateDB :=
  let '(so, s) := getOrNewStateObject addr s in
  let '(prev, so, s) := obj_SetCode so (keccak256 code) code s in
  (prev, write_back addr so s).

Definition SetState (addr key value : Z) (s : StateDB) : Z * StateDB :=
  let '(so, s) := getOrNewStateObject addr s in
  let '(prev, so, s) := obj_SetState so key value s in
  (prev, write_back addr so s).

Definition SetStorage (addr : Z) (storage : gmap Z Z) (s : StateDB) : StateDB :=
  let '(obj, s) := getStateObject addr s in
  let s :=
    match obj, stateObjectsDestruct s !! addr with
    | Some o, None => set_stateObjectsDestruct (<[addr := o]> (stateObjectsDestruct s)) s
    | _, _ => s
    end in
  let '(newObj, s) := createObject addr s in
  let '(newObj, s) :=
    foldl (fun '(o, s) '(k, v) => let '(_, o, s) := obj_SetState o k v s in (o, s))
      (newObj, s) (map_to_list storage) in
  match obj with
  | None => write_back addr newObj s
  | Some o =>
      let '(_, newObj, s) := obj_SetCode newObj (CodeHash (so_data o)) (so_code o) s in
      let '(newObj, s) := obj_SetNonce newObj (Nonce (so_data o)) s in
      let '(_, newObj, s) := obj_SetBalance newObj (Balance (so_data o)) s in
      write_back addr newObj s
  end.

Definition SelfDestruct (addr : Z) (s : StateDB) : Z * StateDB :=
  match getStateObject addr s with
  | (None, s) => (0, s)
  | (Some so, s) =>
      let prevBalance := Balance (so_data so) in
      let '(so, s) :=
        if U256.IsZero (Balance (so_data so)) then (so, s)
        else
          let s := set_delta (delta s - Balance (so_data so)) s in
          let '(_, so, s) := obj_SetBalance so 0 s in (so, s) in
      let '(so, s) :=
        if selfDestructed so then (so, s)
        else (markSelfdestructed so, journal_append (selfDestructChange addr) s) in
      (prevBalance, write_back addr so s)
  end.

Definition SelfDestruct6780 (addr : Z) (s : StateDB) : (Z * bool) * StateDB :=
  match getStateObject addr s with
  | (None, s) => ((0, false), s)
  | (Some so, s) =>
      if newContract so then let '(b, s) := SelfDestruct addr s in ((b, true), s)
      else ((Balance (so_data so), false), s)
  end.

Definition setTransientState (addr key value : Z) (s : StateDB) : StateDB :=
  set_transient (Transient.Set_ (transient s) addr key value) s.

Definition GetTransientState (addr key : Z) (s : StateDB) : Z :=
  Transient.Get (transient s) addr key.

Definition SetTransientState (addr key value : Z) (s : StateDB) : StateDB :=
  let prev := GetTransientState addr key s in
  if prev =? value then s
  else setTransientState addr key value
         (journal_append (transientStorageChange addr key prev) s).

Definition CreateAccount (addr : Z) (s : StateDB) : StateDB := snd (createObject addr s).

(** Dereferences a nil object when the account does not exist. *)
Definition CreateContract (addr : Z) (s : StateDB) : option StateDB :=
  match getStateObject addr s with
  | (None, _) => None
  | (Some obj, s) =>
      if newContract obj then Some s
      else Some (journal_append (createContractChange addr)
                   (write_back addr (set_newContract true obj) s))
  end.

Definition CreateZombieIfDeleted (addr : Z) (s : StateDB) : StateDB :=
  match getStateObject addr s with
  | (Some _, s) => s
  | (None, s) =>
      match stateObjectsDestruct s !! addr with
      | Some _ => snd (createZombie addr s)
      | None => s
      end
  end.

(** ** Access list *)

Definition AddAddressToAccessList (addr : Z) (s : StateDB) : StateDB :=
  let '(l, changed) := AddAddress (al s) addr in
  let s := set_al l s in
  if changed then journal_append (accessListAddAccountChange addr) s else s.

Definition AddSlotToAccessList (addr slot : Z) (s : StateDB) : option StateDB :=
  '(l, (addrMod, slotMod)) ← AddSlot (al s) addr slot;
  let s := set_al l s in
  let s := if addrMod : bool then journal_append (accessListAddAccountChange addr) s else s in
  Some (if slotMod : bool then journal_append (accessListAddSlotChange addr slot) s else s).

Definition AddressInAccessList (addr : Z) (s : StateDB) : bool := ContainsAddress (al s) addr.
Definition SlotInAccessList (addr slot : Z) (s : StateDB) : option (bool * bool) :=
  Contains (al s) addr slot.

Definition prepare_tuple (l : option accessList) (el : Z * list Z) : option accessList :=
  l ← l;
  let l := fst (AddAddress l (fst el)) in
  foldl (fun l key => l ← l; r ← AddSlot l (fst el) key; Some (fst r)) (Some l) (snd el).

Definition Prepare (rules : Rules) (sender coinbase : Z) (dst : option Z)
    (precompiles : list Z) (list_ : list (Z * list Z)) (s : StateDB) : option StateDB :=
  if IsEIP2929 rules && IsEIP4762 rules then None
  else
    s ← (if IsEIP2929 rules then
           let l := fst (AddAddress newAccessList sender) in
           let l := match dst with Some d => fst (AddAddress l d) | None => l end in
           let l := foldl (fun l a => fst (AddAddress l a)) l precompiles in
           l ← foldl prepare_tuple (Some l) list_;
           Some (set_al (if IsShanghai rules then fst (AddAddress l coinbase) else l) s)
         else Some s);
    Some (set_transient Transient.newTransientStorage s).

(** ** Stylus *)

Definition CraneliftTarget (target : string) : option string :=
  if decide (target = "arm64") then Some "arm64-cranelift"
  else if decide (target = "amd64") then Some "amd64-cranelift"
  else if decide (target = "host") then Some "host-cranelift"
  else None.

Definition BaseTarget (target : string) : option string :=
  if decide (target = "arm64-cranelift") then Some "arm64"
  else if decide (target = "amd64-cranelift") then Some "amd64"
  else if decide (target = "host-cranelift") then Some "host"
  else None.

Definition has_key {A} (m : gmap string A) (k : option string) : bool :=
  match k with Some k => bool_decide (is_Some (m !! k)) | None => false end.

Definition hasAsmForTarget (asmMap : ActivatedWasm) (target : string) : bool :=
  has_key asmMap (Some target) || has_key asmMap (CraneliftTarget target)
  || has_key asmMap (BaseTarget target).

(** Some entry of the map of earlier activations is inspected, the first one in
    the iteration order; [true] in the result is the error
    "inconsistent stylus compile targets". *)
Definition ActivateWasm (moduleHash : Z) (asmMap : ActivatedWasm) (s : StateDB) :
    bool * StateDB :=
  let inconsistent :=
    match map_to_list (activatedWasms (arbExtraData s)) with
    | [] => false
    | (_, previouslyActivated) :: _ =>
        negb (Nat.eqb (size asmMap) (size previouslyActivated))
        || negb (forallb (fun kv => hasAsmForTarget asmMap (fst kv))
                   (map_to_list previouslyActivated))
    end in
  if inconsistent then (true, s)
  else
    match activatedWasms (arbExtraData s) !! moduleHash with
    | Some _ => (false, s)
    | None =>
        let arb := arbExtraData s in
        let s := set_arbExtraData
                   (set_activatedWasms (<[moduleHash := asmMap]> (activatedWasms arb)) arb) s in
        (false, journal_append (wasmActivation moduleHash) s)
    end.

Definition ActivatedAsm (target : string) (moduleHash : Z) (s : StateDB) : list Z :=
  match activatedWasms (arbExtraData s) !! moduleHash with
  | Some asmMap =>
      match asmMap !! target with
      | Some asm => asm
      | None => db_ActivatedAsm target moduleHash
      end
  | None => db_ActivatedAsm target moduleHash
  end.

(** [Err] carries the target that is missing from a newly activated module. *)
Definition ActivatedAsmMap (targets : list string) (moduleHash : Z) (s : StateDB) :
    result string (ActivatedWasm * list string) :=
  match activatedWasms (arbExtraData s) !! moduleHash with
  | Some asmMap =>
      match List.find (fun t => negb (hasAsmForTarget asmMap t)) targets with
      | Some t => Err t
      | None => Ok (asmMap, [])
      end
  | None =>
      Ok (foldl (fun '(m, missing) t =>
                   let asm := db_ActivatedAsm t moduleHash in
                   if bool_decide (asm = []) then (m, missing ++ [t])
                   else (<[t := asm]> m, missing)) (∅, []) targets)
  end.

Definition StartRecording (s : StateDB) : StateDB :=
  set_arbExtraData (set_userWasms (Some ∅) (arbExtraData s)) s.

(** [true] in the result is the error "can't find activated wasm". *)
Definition RecordProgram (targets : list string) (moduleHash : Z) (s : StateDB) :
    bool * StateDB :=
  if bool_decide (targets = []) then (false, s)
  else match ActivatedAsmMap targets moduleHash s with
       | Err _ => (true, s)
       | Ok (asmMap, missing) =>
           if negb (bool_decide (missing = [])) then (true, s)
           else match userWasms (arbExtraData s) with
                | None => (false, s)
                | Some uw =>
                    (false, set_arbExtraData
                              (set_userWasms (Some (<[moduleHash := asmMap]> uw))
                                 (arbExtraData s)) s)
                end
       end.

Definition RecordCacheWasm (h v t : Z) (d : bool) (s : StateDB) : StateDB :=
  set_jrnl (set_entries (CacheWasm h v t d :: entries (jrnl s)) (jrnl s)) s.
Definition RecordEvictWasm (h v t : Z) (d : bool) (s : StateDB) : StateDB :=
  set_jrnl (set_entries (EvictWasm h v t d :: entries (jrnl s)) (jrnl s)) s.

Definition GetStylusPages (s : StateDB) : Z * Z :=
  (openWasmPages (arbExtraData s), everWasmPages (arbExtraData s)).
Definition GetStylusPagesOpen (s : StateDB) : Z := openWasmPages (arbExtraData s).

Definition SetStylusPages (open ever : Z) (s : StateDB) : StateDB :=
  set_arbExtraData (set_everWasmPages ever (set_openWasmPages open (arbExtraData s))) s.
Definition SetStylusPagesOpen (open : Z) (s : StateDB) : StateDB :=
  set_arbExtraData (set_openWasmPages open (arbExtraData s)) s.

(** [common.SaturatingUAdd] and [common.MaxInt] at [uint16]. *)
Definition SaturatingUAdd (a b : Z) : Z :=
  let sum := (a + b) mod 65536 in
  if (sum <? a) || (sum <? b) then 65535 else sum.
Definition MaxInt (value floor : Z) : Z := if value <? floor then floor else value.

Definition AddStylusPages (new : Z) (s : StateDB) : (Z * Z) * StateDB :=
  let '(open, ever) := GetStylusPages s in
  let s := SetStylusPagesOpen (SaturatingUAdd open new) s in
  let ever' := MaxInt ever (openWasmPages (arbExtraData s)) in
  ((open, ever), set_arbExtraData (set_everWasmPages ever' (arbExtraData s)) s).

Definition AddStylusPagesEver (new : Z) (s : StateDB) : StateDB :=
  set_arbExtraData
    (set_everWasmPages (SaturatingUAdd (everWasmPages (arbExtraData s)) new) (arbExtraData s)) s.

(** ** Snapshot and revert *)

(** [s.getStateObject(a).f()]: panics when there is no such object. *)
Definition with_object (a : Z) (f : stateObject -> stateObject) (s : StateDB) : option StateDB :=
  match getStateObject a s with
  | (Some o, s) => Some (write_back a (f o) s)
  | (None, _) => None
  end.

(** The [revert] methods of the journal entries. *)
Definition revert_entry (e : journalEntry) (s : StateDB) : option StateDB :=
  match e with
  | createObjectChange a | createZombieChange a =>
      Some (set_stateObjects (delete a (stateObjects s)) s)
  | createContractChange a => with_object a (set_newContract false) s
  | selfDestructChange a =>
      match getStateObject a s with
      | (Some o, s) => Some (write_back a (set_selfDestructed false o) s)
      | (None, s) => Some s
      end
  | balanceChange a prev => with_object a (obj_setBalance prev) s
  | nonceChange a prev => with_object a (obj_setNonce prev) s
  | codeChange a prevCode => with_object a (obj_setCode (keccak256 prevCode) prevCode) s
  | storageChange a key prev orig => with_object a (obj_setState key prev orig) s
  | touchChange _ => Some s
  | transientStorageChange a key prev => Some (setTransientState a key prev s)
  | refundChange prev => Some (set_refund prev s)
  | addLogChange h =>
      let ls := default [] (logs s !! h) in
      l ← (if Nat.eqb (length ls) 1 then Some (delete h (logs s))
           else if Nat.eqb (length ls) 0 then None
           else Some (<[h := take (length ls - 1) ls]> (logs s)));
      Some (set_logSize (u64 (logSize s - 1)) (set_logs l s))
  | accessListAddAccountChange a => Some (set_al (DeleteAddress (al s) a) s)
  | accessListAddSlotChange a k => l ← DeleteSlot (al s) a k; Some (set_al l s)
  | wasmActivation h =>
      let arb := arbExtraData s in
      Some (set_arbExtraData (set_activatedWasms (delete h (activatedWasms arb)) arb) s)
  | CacheWasm h v t d => Some (set_rustCalls (EvictWasmRust h v t d :: rustCalls s) s)
  | EvictWasm h v t d =>
      let asm := ActivatedAsm LocalTarget h s in
      if bool_decide (asm = []) then Some s
      else Some (set_rustCalls (CacheWasmRust asm h v t d :: rustCalls s) s)
  end.

(** [journal.revert]: undo the [n] newest entries. *)
Fixpoint revert_loop (n : nat) (s : StateDB) : option StateDB :=
  match n with
  | O => Some s
  | S n' =>
      match entries (jrnl s) with
      | [] => None
      | e :: es =>
          s ← revert_entry e s;
          revert_loop n' (set_jrnl (set_entries es (undirty e (jrnl s))) s)
      end
  end.

Definition journal_revert (snap : Z) (s : StateDB) : option StateDB :=
  revert_loop (Z.to_nat (length_ (jrnl s) - snap)) s.

Definition Snapshot (s : StateDB) : Z * StateDB :=
  let '(id, j) := snapshot (delta s) (jrnl s) in (id, set_jrnl j s).

Definition RevertToSnapshot (revid : Z) (s : StateDB) : option StateDB :=
  let revs := validRevisions (jrnl s) in
  let at_ i := revs !! Z.to_nat i in
  let idx := Search (Z.of_nat (length revs))
               (fun i => match at_ i with Some r => revid <=? id r | None => false end) in
  r ← at_ idx;
  if negb (id r =? revid) then None
  else
    let s := set_delta (rev_unexpectedBalanceDelta r) s in
    s ← journal_revert (journalIndex r) s;
    Some (set_jrnl (set_validRevisions (take (Z.to_nat idx) revs) (jrnl s)) s).

(** ** End of a transaction *)

Definition mark (t : mutationType) (addr : Z) (s : StateDB) : StateDB :=
  set_mutations (<[addr := mkMutation t false]> (mutations s)) s.
Definition markDelete : Z -> StateDB -> StateDB := mark deletion.
Definition markUpdate : Z -> StateDB -> StateDB := mark update.

Definition clearJournalAndRefund (s : StateDB) : StateDB :=
  set_refund 0 (set_jrnl (reset (jrnl s)) s).

(** One iteration of the loop of [Finalise] over the dirty addresses. *)
Definition finalise_addr (deleteEmptyObjects : bool) (s : StateDB) (addr : Z) : StateDB :=
  let dirtyCount := default 0 (dirties (jrnl s) !! addr) in
  let isZombie := default 0 (zombieEntries (jrnl s) !! addr) =? dirtyCount in
  match stateObjects s !! addr with
  | None => s
  | Some obj =>
      if selfDestructed obj || (deleteEmptyObjects && empty_ obj && negb isZombie) then
        let s := set_stateObjects (delete (so_address obj) (stateObjects s)) s in
        let s := markDelete addr s in
        match stateObjectsDestruct s !! so_address obj with
        | None => set_stateObjectsDestruct
                    (<[so_address obj := obj]> (stateObjectsDestruct s)) s
        | Some _ => s
        end
      else
        let '(obj, s) := obj_finalise obj s in
        markUpdate addr (write_back addr obj s)
  end.

Definition Finalise (deleteEmptyObjects : bool) (s : StateDB) : StateDB :=
  clearJournalAndRefund
    (foldl (finalise_addr deleteEmptyObjects) s (map fst (map_to_list (dirties (jrnl s))))).

Definition SetTxContext (hash ti : Z) (s : StateDB) : StateDB :=
  SetStylusPages 0 0 (set_txIndex ti (set_thash hash s)).

Definition GetSelfDestructs (s : StateDB) : list Z :=
  List.filter (fun a => match stateObjects s !! a with
                        | Some obj => selfDestructed obj
                        | None => false
                        end) (map fst (map_to_list (dirties (jrnl s)))).

(** [Copy]: every map is cloned; the flags [deterministic] and [recording] are
    not among the copied fields. *)
Definition Copy_state (s : StateDB) : StateDB :=
  mkStateDB (arbExtraData s) (stateObjects s) (stateObjectsDestruct s) (mutations s)
    (dbErr s) (refund s) (thash s) (txIndex s) (logs s) (logSize s) (preimages s)
    (Copy (al s)) (transient s) (jrnl s) false false (rustCalls s).

End Operations.
