(* ===== verification/Ethash.v ===== *)
(** The proof-of-work engine: [consensus/ethash/consensus.go]. *)

From stdpp Require Import base gmap list numbers option strings.
From S2P Require Import Prelude Params ChainConfig Uint256 Header FeeMarket Difficulty AccessList State Consensus.
Open Scope Z_scope.
Open Scope header_scope.

Definition FrontierBlockReward : Z := 5000000000000000000.
Definition ByzantiumBlockReward : Z := 3000000000000000000.
Definition ConstantinopleBlockReward : Z := 2000000000000000000.
Definition maxUncles : Z := 2.
Definition allowedFutureBlockTimeSeconds : Z := 15.

(** The engine's settings, all of them for tests. *)
Record Ethash := mkEthash { fakeFail : option Z; fakeFull : bool }.

Section Engine.
Context {U : U256.Ops} {HS : Hasher} {R : Reader} {HH : HeaderHash}.
(** The clock, [time.Now().Unix()], and the global cutoff of [arb_types.go]. *)
Context (unixNow legacyZeroBaseFeeUntil : Z).

Definition verifyHeader (ethash : Ethash) (chain : ChainReader) (header parent : Header) (uncle : bool) :
    checked :=
  let config := chain_Config chain in
  let length := Z.of_nat (length (Extra header)) in
  check_if (MaximumExtraDataSize <? length) (ErrExtraDataTooLong length) then!
  check_if (negb uncle && (u64 (unixNow + allowedFutureBlockTimeSeconds) <? Time header))
    ErrFutureBlock then!
  check_if (Time header <=? Time parent) ErrOlderBlockTime then!
  let expected := CalcDifficulty config (Time header) parent in
  check_if (negb (expected =? Difficulty header)) (ErrInvalidDifficulty (Difficulty header) expected) then!
  check_if (MaxGasLimit <? GasLimit header) (ErrGasLimitTooBig (GasLimit header)) then!
  check_if (GasLimit header <? GasUsed header) (ErrGasUsedTooHigh (GasUsed header) (GasLimit header)) then!
  (if negb (Config.IsLondon config (Some (Number header))) then
     match BaseFee header with
     | Some fee => reject (ErrBaseFeeBeforeFork fee)
     | None => VerifyGaslimit (GasLimit parent) (GasLimit header)
     end
   else VerifyEIP1559Header config parent header) then!
  check_if (negb (Number header - Number parent =? 1)) ErrInvalidNumber then!
  check_if (Config.IsShanghai config (Some (Number header)) (Time header) (arbosVersion legacyZeroBaseFeeUntil header))
    (ErrUnsupportedFork "shanghai") then!
  no_field "withdrawalsHash" (WithdrawalsHash header) then!
  check_if (Config.IsCancun config (Some (Number header)) (Time header) (arbosVersion legacyZeroBaseFeeUntil header))
    (ErrUnsupportedFork "cancun") then!
  no_field "excessBlobGas" (ExcessBlobGas header) then!
  no_field "blobGasUsed" (BlobGasUsed header) then!
  no_field "parentBeaconRoot" (ParentBeaconRoot header) then!
  check_if (match fakeFail ethash with Some n => n =? u64 (Number header) | None => false end)
    ErrInvalidTesterPow then!
  VerifyDAOHeaderExtraData config header.

Definition VerifyHeader (ethash : Ethash) (chain : ChainReader) (header : Header) : checked :=
  match GetHeader chain (header_hash header) (u64 (Number header)) with
  | Some _ => accept
  | None =>
      match stored_parent chain header with
      | None => reject ErrUnknownAncestor
      | Some parent => verifyHeader ethash chain header parent false
      end
  end.

Definition VerifyHeaders (ethash : Ethash) (chain : ChainReader) (headers : list Header) : list checked :=
  if fakeFull ethash then map (fun _ => accept) headers
  else
    match headers with
    | [] => []
    | first :: _ =>
        verify_from (fun header parent => verifyHeader ethash chain header parent false)
          (stored_parent chain first) headers
    end.

(** The ancestors within seven generations, and their uncles. *)
Fixpoint gather (chain : ChainReader) (n : nat) (parent number : Z)
    (acc : gset Z * gmap Z Header) : gset Z * gmap Z Header :=
  match n with
  | O => acc
  | S n =>
      match GetHeader chain parent number with
      | None => acc
      | Some ancestorHeader =>
          let '(uncles, ancestors) := acc in
          let ancestors := <[parent := ancestorHeader]> ancestors in
          let next := gather chain n (ParentHash ancestorHeader) (u64 (number - 1)) in
          if UncleHash ancestorHeader =? EmptyUncleHash then next (uncles, ancestors)
          else
            match GetBlock chain parent number with
            | None => (uncles, ancestors)
            | Some ancestor =>
                next (foldl (fun us u => {[header_hash u]} ∪ us) uncles
                        (b_Uncles (block_body ancestor)), ancestors)
            end
      end
  end.

Fixpoint verify_each_uncle (ethash : Ethash) (chain : ChainReader) (blockParent : Z)
    (ancestors : gmap Z Header) (uncles : gset Z) (todo : list Header) : checked :=
  match todo with
  | [] => accept
  | uncle :: todo =>
      let hash := header_hash uncle in
      if decide (hash ∈ uncles) then reject ErrDuplicateUncle
      else
        let uncles := {[hash]} ∪ uncles in
        match ancestors !! hash with
        | Some _ => reject ErrUncleIsAncestor
        | None =>
            match ancestors !! ParentHash uncle with
            | None => reject ErrDanglingUncle
            | Some parent =>
                if ParentHash uncle =? blockParent then reject ErrDanglingUncle
                else
                  verifyHeader ethash chain uncle parent true then!
                  verify_each_uncle ethash chain blockParent ancestors uncles todo
            end
        end
  end.

Definition VerifyUncles (ethash : Ethash) (chain : ChainReader) (block : Block) : checked :=
  let header := block_header block in
  let blockUncles := b_Uncles (block_body block) in
  if fakeFull ethash then accept
  else if maxUncles <? Z.of_nat (length blockUncles) then reject ErrTooManyUncles
  else
    match blockUncles with
    | [] => accept
    | _ =>
        let '(uncles, ancestors) :=
          gather chain 7 (ParentHash header) (u64 (u64 (Number header) - 1)) (∅, ∅) in
        let hash := header_hash header in
        verify_each_uncle ethash chain (ParentHash header) (<[hash := header]> ancestors)
          ({[hash]} ∪ uncles) blockUncles
    end.

Definition Prepare (chain : ChainReader) (header : Header) : result headerError Header :=
  match stored_parent chain header with
  | None => Err ErrUnknownAncestor
  | Some parent => Ok (set_Difficulty (CalcDifficulty (chain_Config chain) (Time header) parent) header)
  end.

(** The reward of an uncle's miner, and what it adds to the block's. *)
Definition uncle_reward (blockReward hNum : Z) (uncle : Header) : Z :=
  let '(uNum, _) := U256.FromBig (Number uncle) in
  U256.Rsh (U256.Mul (U256.Sub (U256.AddUint64 uNum 8) hNum) blockReward) 3.

Definition block_reward (config : ChainConfig) (header : Header) : Z :=
  let number := Some (Number header) in
  if Config.IsConstantinople config number then ConstantinopleBlockReward
  else if Config.IsByzantium config number then ByzantiumBlockReward
  else FrontierBlockReward.

Definition accumulateRewards (config : ChainConfig) (header : Header) (uncles : list Header) (s : StateDB) :
    StateDB :=
  let blockReward := block_reward config header in
  let '(hNum, _) := U256.FromBig (Number header) in
  let '(s, reward) :=
    foldl (fun '(s, reward) uncle =>
             (snd (AddBalance (Coinbase uncle) (uncle_reward blockReward hNum uncle) s),
              U256.Add reward (U256.Rsh blockReward 5)))
      (s, blockReward) uncles in
  snd (AddBalance (Coinbase header) reward s).

Definition engine (ethash : Ethash) : Engine := {|
  Author := Coinbase;
  Consensus.VerifyHeader := VerifyHeader ethash;
  Consensus.VerifyHeaders := VerifyHeaders ethash;
  Consensus.VerifyUncles := VerifyUncles ethash;
  Prepare_header := Prepare;
  Finalize chain header body s := accumulateRewards (chain_Config chain) header (b_Uncles body) s;
  engine_CalcDifficulty chain time parent := CalcDifficulty (chain_Config chain) time parent
|}.

End Engine.
