(* ===== verification/Beacon.v ===== *)
(** The proof-of-stake engine: [consensus/beacon/consensus.go].  It hands the headers from
    before the merge to an inner engine. *)

From stdpp Require Import base gmap list numbers option strings.
From S2P Require Import Prelude Params ChainConfig Uint256 Header FeeMarket Difficulty AccessList State Consensus.
Open Scope Z_scope.
Open Scope header_scope.

Definition beaconDifficulty : Z := 0.
Definition beaconNonce : Z := 0.
Definition GWei : Z := 1000000000.

Definition IsPoSHeader (header : Header) : bool := Difficulty header =? beaconDifficulty.

Section Engine.
Context {U : U256.Ops} {HS : Hasher} {R : Reader} {HH : HeaderHash}.
(** The clock, [time.Now().Unix()], and the global cutoff of [arb_types.go]. *)
Context (unixNow legacyZeroBaseFeeUntil : Z).

Definition verifyHeader (chain : ChainReader) (header parent : Header) : checked :=
  let config := chain_Config chain in
  let length := Z.of_nat (length (Extra header)) in
  check_if (MaximumExtraDataSize <? length) (ErrExtraDataTooLong length) then!
  check_if (negb (Header.Nonce header =? beaconNonce)) ErrInvalidNonce then!
  check_if (negb (UncleHash header =? EmptyUncleHash)) ErrInvalidUncleHash then!
  check_if (Time header <=? Time parent) ErrInvalidTimestamp then!
  check_if (negb (beaconDifficulty =? Difficulty header))
    (ErrInvalidDifficulty (Difficulty header) beaconDifficulty) then!
  check_if (MaxGasLimit <? GasLimit header) (ErrGasLimitTooBig (GasLimit header)) then!
  check_if (GasLimit header <? GasUsed header) (ErrGasUsedTooHigh (GasUsed header) (GasLimit header)) then!
  check_if (negb (Number header - Number parent =? 1)) ErrInvalidNumber then!
  VerifyEIP1559Header config parent header then!
  let shanghai := Config.IsShanghai config (Some (Number header)) (Time header) (arbosVersion legacyZeroBaseFeeUntil header) in
  check_if (shanghai && match WithdrawalsHash header with None => true | Some _ => false end)
    (ErrMissingField "withdrawalsHash") then!
  check_if (negb shanghai && match WithdrawalsHash header with Some _ => true | None => false end)
    (ErrUnexpectedField "withdrawalsHash") then!
  if negb (Config.IsCancun config (Some (Number header)) (Time header) (arbosVersion legacyZeroBaseFeeUntil header)) then
    no_field "excessBlobGas" (ExcessBlobGas header) then!
    no_field "blobGasUsed" (BlobGasUsed header) then!
    no_field "parentBeaconRoot" (ParentBeaconRoot header)
  else
    check_if (match ParentBeaconRoot header with None => true | Some _ => false end)
      (ErrMissingField "beaconRoot") then!
    Eip4844.VerifyEIP4844Header config parent header.

(** The headers before the first one with difficulty zero, and the rest. *)
Fixpoint splitHeaders (headers : list Header) : list Header * list Header :=
  match headers with
  | [] => ([], [])
  | header :: rest =>
      if Z.sgn (Difficulty header) =? 0 then ([], headers)
      else let '(pre, post) := splitHeaders rest in (header :: pre, post)
  end.

Definition verifyHeaders (chain : ChainReader) (headers : list Header) (ancestor : option Header) :
    list checked :=
  match headers with
  | [] => []
  | first :: _ =>
      verify_from (verifyHeader chain)
        (match ancestor with Some a => Some a | None => stored_parent chain first end) headers
  end.

Variable ethone : Engine.

Definition VerifyHeader (chain : ChainReader) (header : Header) : checked :=
  match stored_parent chain header with
  | None => reject ErrUnknownAncestor
  | Some parent =>
      if (Z.sgn (Difficulty parent) =? 0) && (0 <? Z.sgn (Difficulty header)) then
        reject ErrInvalidTerminalBlock
      else if 0 <? Z.sgn (Difficulty header) then Consensus.VerifyHeader ethone chain header
      else verifyHeader chain header parent
  end.

Definition VerifyUncles (chain : ChainReader) (block : Block) : checked :=
  if negb (IsPoSHeader (block_header block)) then Consensus.VerifyUncles ethone chain block
  else
    check_if (0 <? Z.of_nat (length (b_Uncles (block_body block)))) ErrTooManyUncles.

Definition Prepare (chain : ChainReader) (header : Header) : result headerError Header :=
  if negb (Config.IsPostMerge (chain_Config chain) (u64 (Number header)) (Time header)) then
    Prepare_header ethone chain header
  else Ok (set_Difficulty beaconDifficulty header).

Definition Author (header : Header) : Z :=
  if negb (IsPoSHeader header) then Consensus.Author ethone header else Coinbase header.

Definition withdraw (s : StateDB) (w : Withdrawal) : StateDB :=
  snd (AddBalance (w_Address w)
         (U256.Mul (U256.SetUint64 (w_Amount w)) (U256.SetUint64 GWei)) s).

Definition Finalize (chain : ChainReader) (header : Header) (body : Body) (s : StateDB) : StateDB :=
  if negb (IsPoSHeader header) then Consensus.Finalize ethone chain header body s
  else foldl withdraw s (b_Withdrawals body).

Definition CalcDifficulty (chain : ChainReader) (time : Z) (parent : Header) : Z :=
  if negb (Config.IsPostMerge (chain_Config chain) (u64 (u64 (Number parent) + 1)) time) then
    engine_CalcDifficulty ethone chain time parent
  else beaconDifficulty.

End Engine.
