(* ===== verification/HeaderPipeline.v ===== *)
(** The concurrent part of [Beacon.VerifyHeaders]: two verifiers, one for the headers
    before the merge and one for those after it, report on their own channels, and a
    goroutine merges what they report into one channel.  The collector is a state
    machine; which of two pending results it receives next is up to the scheduler.  An
    abort by the caller, which stops it, is left out. *)

From stdpp Require Import base list numbers option relations.
From S2P Require Import Prelude Params ChainConfig Uint256 Header.

(** ** The collector *)

(** The variables of the goroutine; [results] is what it has sent.  A result is an
    error, nil for a valid header. *)
Record collector := mkCollector {
  old : nat;
  new : nat;
  out : nat;
  errors : list (option headerError);
  done_ : list bool;
  results : list (option headerError);
  finished : bool
}.

Definition start (preHeaders headers : nat) : collector :=
  mkCollector 0 preHeaders 0 (replicate headers None) (replicate headers false) [] false.

(** [for ; done[out]; out++ { results <- errors[out]; if out == len(headers)-1 { return } }] *)
Fixpoint deliver (fuel : nat) (c : collector) : collector :=
  match fuel with
  | O => c
  | S fuel =>
      if default false (done_ c !! out c) then
        let c' := mkCollector (old c) (new c) (out c) (errors c) (done_ c)
                    (results c ++ [default None (errors c !! out c)]) (finished c) in
        if Nat.eqb (out c) (length (errors c) - 1) then
          mkCollector (old c') (new c') (out c') (errors c') (done_ c') (results c') true
        else
          deliver fuel (mkCollector (old c') (new c') (S (out c')) (errors c') (done_ c') (results c')
                          (finished c'))
      else c
  end.

Definition receive_old (err : option headerError) (c : collector) : collector :=
  let c' :=
    if default false (done_ c !! old c) then c
    else mkCollector (old c) (new c) (out c) (<[old c := err]> (errors c)) (<[old c := true]> (done_ c))
           (results c) (finished c) in
  mkCollector (S (old c')) (new c') (out c') (errors c') (done_ c') (results c') (finished c').

Definition receive_new (err : option headerError) (c : collector) : collector :=
  mkCollector (old c) (S (new c)) (out c) (<[new c := err]> (errors c)) (<[new c := true]> (done_ c))
    (results c) (finished c).

(** The results still to come on the two channels, and the collector. *)
Record pipeline := mkPipeline {
  oldResult : list (option headerError);
  newResult : list (option headerError);
  collected : collector
}.

Definition iterate (c : collector) : collector := deliver (length (errors c)) c.

Inductive pipeline_step : pipeline -> pipeline -> Prop :=
| recv_old err oldR newR c : finished c = false ->
    pipeline_step (mkPipeline (err :: oldR) newR c) (mkPipeline oldR newR (iterate (receive_old err c)))
| recv_new err oldR newR c : finished c = false ->
    pipeline_step (mkPipeline oldR (err :: newR) c) (mkPipeline oldR newR (iterate (receive_new err c))).

Definition pipeline_start (pre post : list (option headerError)) : pipeline :=
  mkPipeline pre post (iterate (start (length pre) (length pre + length post))).

(** ** The invariant *)

Section Order.
Context (pre post : list (option headerError)).
Context (pre_some : pre <> []) (post_some : post <> []).
Let all := pre ++ post.

(** After [k] results of the first verifier and [l] of the second. *)
Definition is_done (k l i : nat) : bool :=
  Nat.ltb i k || (Nat.leb (length pre) i && Nat.ltb i (length pre + l)).

Record collected_ok (k l : nat) (c : collector) : Prop := {
  co_old : old c = k;
  co_new : new c = (length pre + l)%nat;
  co_k : (k <= length pre)%nat;
  co_l : (l <= length post)%nat;
  co_errors : length (errors c) = length all;
  co_done : done_ c = map (is_done k l) (seq 0 (length all));
  co_recorded : forall i, (i < length all)%nat -> is_done k l i = true -> errors c !! i = all !! i;
  co_results : results c = if finished c then all else take (out c) all;
  co_out : (out c < length all)%nat
}.

(** Nothing is left to deliver. *)
Definition settled (k l : nat) (c : collector) : Prop := finished c = true \/ is_done k l (out c) = false.

Lemma all_nonempty : (0 < length all)%nat.
Proof. unfold all. rewrite length_app. destruct pre; simpl; [done|lia]. Qed.

Lemma done_lookup k l c i : collected_ok k l c -> (i < length all)%nat ->
  default false (done_ c !! i) = is_done k l i.
Proof.
  intros H Hi. rewrite (co_done _ _ _ H), list_lookup_fmap, lookup_seq_lt by done. done.
Qed.

Lemma deliver_ok k l fuel c :
  collected_ok k l c -> finished c = false -> (length all - out c <= fuel)%nat ->
  collected_ok k l (deliver fuel c) /\ settled k l (deliver fuel c).
Proof.
  revert c. induction fuel as [|fuel IH]; intros c H Hf Hfuel; [pose proof (co_out _ _ _ H); lia|].
  simpl. rewrite (done_lookup k l) by (try done; apply H).
  destruct (is_done k l (out c)) eqn:Hd; [|split; [done|by right]].
  assert (default None (errors c !! out c) = default None (all !! out c)) as ->
    by (by rewrite (co_recorded _ _ _ H) by (try done; apply H)).
  pose proof (co_out _ _ _ H) as Hout. destruct (lookup_lt_is_Some_2 all (out c) Hout) as [e He].
  rewrite He. simpl. pose proof (co_results _ _ _ H) as Hr. rewrite Hf in Hr. rewrite Hr.
  assert (take (out c) all ++ [e] = take (S (out c)) all) as -> by (by rewrite (take_S_r _ _ e)).
  destruct (Nat.eqb_spec (out c) (length (errors c) - 1)) as [El|Hne]; rewrite (co_errors _ _ _ H) in *.
  - split; [|by left]. destruct H. split; simpl; try done. apply take_ge. lia.
  - apply IH; simpl; [|done|lia]. destruct H. split; simpl; try done; [by rewrite Hf|lia].
Qed.

Lemma is_done_old k l i : is_done (S k) l i = Nat.eqb i k || is_done k l i.
Proof.
  unfold is_done. destruct (Nat.eqb_spec i k), (Nat.ltb_spec i (S k)), (Nat.ltb_spec i k); simpl; lia || done.
Qed.

Lemma is_done_new k l i : is_done k (S l) i = Nat.eqb i (length pre + l) || is_done k l i.
Proof.
  unfold is_done. destruct (Nat.eqb_spec i (length pre + l)), (Nat.ltb_spec i k), (Nat.leb_spec (length pre) i),
    (Nat.ltb_spec i (length pre + S l)), (Nat.ltb_spec i (length pre + l)); simpl; lia || done.
Qed.

(** Recording the result of header [j]. *)
Lemma insert_done k l k' l' (j : nat) :
  (forall i, is_done k' l' i = Nat.eqb i j || is_done k l i) -> (j < length all)%nat ->
  <[j := true]> (map (is_done k l) (seq 0 (length all))) = map (is_done k' l') (seq 0 (length all)).
Proof.
  intros Hd Hj. apply list_eq. intros i. destruct (decide (i < length all)%nat) as [Hi|Hi].
  - rewrite (list_lookup_fmap (is_done k' l')), lookup_seq_lt by done. simpl. rewrite Hd.
    destruct (Nat.eqb_spec i j) as [->|Hne]; simpl.
    + apply list_lookup_insert_eq. by rewrite length_map, length_seq.
    + rewrite list_lookup_insert_ne by done. by rewrite list_lookup_fmap, lookup_seq_lt by done.
  - rewrite !lookup_ge_None_2; [done|rewrite length_map, length_seq; lia|].
    rewrite length_insert, length_map, length_seq. lia.
Qed.

Lemma insert_recorded k l k' l' (j : nat) err (es : list (option headerError)) :
  (forall i, is_done k' l' i = Nat.eqb i j || is_done k l i) -> all !! j = Some err ->
  length es = length all ->
  (forall i, (i < length all)%nat -> is_done k l i = true -> es !! i = all !! i) ->
  forall i, (i < length all)%nat -> is_done k' l' i = true -> <[j := err]> es !! i = all !! i.
Proof.
  intros Hd Hj Hl H i Hi. rewrite Hd. destruct (Nat.eqb_spec i j) as [->|Hne]; simpl; intros Hi'.
  - rewrite list_lookup_insert_eq by lia. done.
  - rewrite list_lookup_insert_ne by done. by apply H.
Qed.

Lemma receive_old_ok k l c err :
  collected_ok k l c -> finished c = false -> pre !! k = Some err ->
  collected_ok (S k) l (receive_old err c) /\ finished (receive_old err c) = false.
Proof.
  intros H Hf Hk. pose proof (lookup_lt_Some _ _ _ Hk) as Hlt.
  assert (all !! k = Some err) as Ha by (unfold all; by rewrite lookup_app_l).
  pose proof (lookup_lt_Some _ _ _ Ha) as Hla. unfold receive_old.
  rewrite (done_lookup k l) by (rewrite ?(co_old _ _ _ H); done). rewrite (co_old _ _ _ H).
  assert (is_done k l k = false) as ->.
  { unfold is_done. destruct (Nat.ltb_spec k k), (Nat.leb_spec (length pre) k); lia || done. }
  destruct H. split; [split|done]; simpl; try done; try lia.
  - by rewrite length_insert.
  - rewrite co_done0. apply insert_done; [apply is_done_old|done].
  - eapply insert_recorded; [apply is_done_old|done..].
Qed.

Lemma receive_new_ok k l c err :
  collected_ok k l c -> finished c = false -> post !! l = Some err ->
  collected_ok k (S l) (receive_new err c) /\ finished (receive_new err c) = false.
Proof.
  intros H Hf Hl. pose proof (lookup_lt_Some _ _ _ Hl) as Hlt.
  assert (all !! (length pre + l)%nat = Some err) as Ha.
  { unfold all. rewrite lookup_app_r by lia. by replace (length pre + l - length pre)%nat with l by lia. }
  pose proof (lookup_lt_Some _ _ _ Ha) as Hla. unfold receive_new. rewrite (co_new _ _ _ H).
  destruct H. split; [split|done]; simpl; try done; try lia.
  - by rewrite length_insert.
  - rewrite co_done0. apply insert_done; [apply is_done_new|done].
  - eapply insert_recorded; [apply is_done_new|done..].
Qed.

(** What every reachable state satisfies. *)
Definition pipeline_ok (p : pipeline) : Prop :=
  exists k l, oldResult p = drop k pre /\ newResult p = drop l post
    /\ collected_ok k l (collected p) /\ settled k l (collected p).

Lemma start_ok : collected_ok 0 0 (start (length pre) (length pre + length post)).
Proof.
  split; simpl; try done; try lia.
  - by rewrite length_replicate, <- length_app.
  - apply list_eq. intros i. rewrite <- length_app. fold all. rewrite list_lookup_fmap.
    destruct (decide (i < length all)%nat) as [Hi|Hi].
    + rewrite lookup_replicate_2, lookup_seq_lt by done. simpl. f_equal. unfold is_done.
      destruct (Nat.leb_spec (length pre) i), (Nat.ltb_spec i (length pre + 0)); simpl; lia || done.
    + rewrite lookup_seq_ge by lia. apply lookup_replicate_None. lia.
  - intros i _. unfold is_done. destruct (Nat.leb_spec (length pre) i), (Nat.ltb_spec i (length pre + 0));
      simpl; lia || done.
  - apply all_nonempty.
Qed.

Lemma iterate_ok k l c : collected_ok k l c -> finished c = false ->
  collected_ok k l (iterate c) /\ settled k l (iterate c).
Proof. intros H Hf. apply deliver_ok; [done|done|]. rewrite (co_errors _ _ _ H). lia. Qed.

Lemma pipeline_start_ok : pipeline_ok (pipeline_start pre post).
Proof. exists 0%nat, 0%nat. split; [done|]. split; [done|]. apply iterate_ok; [apply start_ok|done]. Qed.

Lemma drop_cons {A} (l : list A) k x r : x :: r = drop k l -> l !! k = Some x /\ r = drop (S k) l.
Proof.
  intros H. assert (l !! k = Some x) as Hk by (by rewrite <- (Nat.add_0_r k), <- lookup_drop, <- H).
  split; [done|]. rewrite (drop_S l x k Hk) in H. by injection H.
Qed.

Lemma pipeline_step_ok p q : pipeline_step p q -> pipeline_ok p -> pipeline_ok q.
Proof.
  intros Hs (k & l & Ho & Hn & Hc & _). destruct Hs as [err oldR newR c Hf|err oldR newR c Hf]; simpl in *.
  - apply drop_cons in Ho as [Hk ->]. destruct (receive_old_ok k l c err Hc Hf Hk) as [H1 H2].
    exists (S k), l. split; [done|]. split; [done|]. by apply iterate_ok.
  - apply drop_cons in Hn as [Hk ->]. destruct (receive_new_ok k l c err Hc Hf Hk) as [H1 H2].
    exists k, (S l). split; [done|]. split; [done|]. by apply iterate_ok.
Qed.

(** Some result is pending until the collector has finished. *)
Lemma pipeline_progress p : pipeline_ok p -> finished (collected p) = false -> exists q, pipeline_step p q.
Proof.
  intros (k & l & Ho & Hn & Hc & Hs) Hf. destruct p as [oldR newR c]; simpl in *.
  destruct oldR as [|e oldR]; [|by eexists; constructor]. destruct newR as [|e newR]; [|by eexists; constructor].
  exfalso. destruct Hs as [Hs|Hs]; [congruence|]. pose proof (co_out _ _ _ Hc) as Hout.
  assert (length pre <= k)%nat by (pose proof (length_drop pre k) as E; rewrite <- Ho in E; simpl in E; lia).
  assert (length post <= l)%nat by (pose proof (length_drop post l) as E; rewrite <- Hn in E; simpl in E; lia).
  unfold is_done in Hs. unfold all in Hout. rewrite length_app in Hout.
  destruct (Nat.ltb_spec (out c) k), (Nat.leb_spec (length pre) (out c)),
    (Nat.ltb_spec (out c) (length pre + l)); simpl in Hs; lia || done.
Qed.
End Order.

(** C36.  The results of VerifyHeaders come in the order of the headers, under every
    scheduling of the two verifiers: what the collector has sent is always a prefix of
    the results of the old headers followed by those of the new ones, it sends them all
    before it stops, and it does not stop earlier. *)
Theorem results_in_header_order pre post p :
  pre <> [] -> post <> [] ->
  rtc pipeline_step (pipeline_start pre post) p ->
  results (collected p) `prefix_of` pre ++ post
  /\ (nf pipeline_step p <-> results (collected p) = pre ++ post).
Proof.
  intros Hpre Hpost Hr.
  assert (pipeline_ok pre post p) as Hok.
  { assert (pipeline_ok pre post (pipeline_start pre post)) as H by by apply pipeline_start_ok.
    revert H. induction Hr; [done|]. intros. by eapply IHHr, pipeline_step_ok. }
  pose proof Hok as (k & l & Ho & Hn & Hc & Hs). pose proof (co_results _ _ _ _ _ Hc) as Hres.
  pose proof (co_out _ _ _ _ _ Hc) as Hout.
  destruct (finished (collected p)) eqn:Hf.
  - split; [by rewrite Hres|]. split; [done|]. intros _ [q Hq]. destruct Hq; simpl in Hf; congruence.
  - split; [rewrite Hres; apply prefix_take|]. split.
    + intros Hnf. destruct Hnf. by eapply (pipeline_progress pre post).
    + intros E. rewrite Hres in E. apply (f_equal length) in E. rewrite length_take in E. lia.
Qed.

(** The new header is checked first. *)
Lemma results_in_header_order_witness :
  exists p, rtc pipeline_step (pipeline_start [None; Some ErrInvalidNumber] [Some ErrInvalidNonce]) p
    /\ results (collected p) = [None; Some ErrInvalidNumber; Some ErrInvalidNonce].
Proof.
  eexists. split.
  - eapply rtc_l; [by apply recv_new|]. eapply rtc_l; [by apply recv_old|].
    eapply rtc_l; [by apply recv_old|]. apply rtc_refl.
  - eapply (proj1 (proj2 (results_in_header_order [None; Some ErrInvalidNumber] [Some ErrInvalidNonce] _
      ltac:(done) ltac:(done) _))). 
    intros [q Hq]. inversion Hq; subst; vm_compute in *; congruence.
    Unshelve. eapply rtc_l; [by apply recv_new|]. eapply rtc_l; [by apply recv_old|].
    eapply rtc_l; [by apply recv_old|]. apply rtc_refl.
Defined.
