(* ===== verification/ConsensusTheorems.v ===== *)
(** What the consensus rules guarantee of a chain of headers, and the round trip of the
    record ArbOS keeps in a header. *)

From stdpp Require Import base gmap list numbers option strings.
From S2P Require Import Prelude Params ChainConfig ChainPresets ChainTheorems Uint256 Header FeeMarket.
From S2P Require Import Difficulty AccessList State Consensus Ethash Beacon.
Open Scope Z_scope.
Open Scope header_scope.

(** ** Headers *)

Definition opt_u64 (o : option Z) : Prop := match o with Some x => is_u64 x | None => True end.

(** The types of the fields the rules look at. *)
Record header_typed (h : Header) : Prop := {
  ht_number : 0 <= Number h < two64 - 1;
  ht_gasLimit : is_u64 (GasLimit h);
  ht_gasUsed : is_u64 (GasUsed h);
  ht_time : is_u64 (Time h);
  ht_blobGas : opt_u64 (BlobGasUsed h);
  ht_excess : opt_u64 (ExcessBlobGas h)
}.

(** What holds of every header of a chain after the merge. *)
Record good_header (config : ChainConfig) (h : Header) : Prop := {
  gh_typed : header_typed h;
  gh_london : Config.IsLondon config (Some (Number h)) = true;
  gh_limit : MinGasLimit <= GasLimit h <= MaxGasLimit;
  gh_used : GasUsed h <= GasLimit h;
  gh_fee : exists b, BaseFee h = Some b /\ 0 <= b;
  gh_blob : ExcessBlobGas h <> None -> BlobGasUsed h <> None
}.

(** How a header follows its parent. *)
Record follows_parent (config : ChainConfig) (parent h : Header) : Prop := {
  fp_number : Number h = Number parent + 1;
  fp_time : Time parent < Time h;
  fp_difficulty : Difficulty h = 0;
  fp_limit : Z.abs (GasLimit h - GasLimit parent) < GasLimit parent / GasLimitBoundDivisor;
  fp_fee : CalcBaseFee config parent = BaseFee h;
  fp_withdrawals : WithdrawalsHash h <> None <-> Config.IsShanghai config (Some (Number h)) (Time h) 0 = true;
  fp_blob : ExcessBlobGas h <> None <-> Config.IsCancun config (Some (Number h)) (Time h) 0 = true;
  fp_excess : ExcessBlobGas h <> None -> Eip4844.CalcExcessBlobGas config parent (Time h) = ExcessBlobGas h
}.

(** ** The gas limit *)

Lemma VerifyGaslimit_exact p h : 0 <= p <= MaxGasLimit -> 0 <= h <= MaxGasLimit ->
  (VerifyGaslimit p h = accept <-> Z.abs (h - p) < p / GasLimitBoundDivisor /\ MinGasLimit <= h)
  /\ VerifyGaslimit p h <> None.
Proof.
  unfold MaxGasLimit. intros Hp Hh. unfold VerifyGaslimit.
  assert (forall x, 0 <= x <= 0x7fffffffffffffff -> i64 x = x) as E.
  { intros x Hx. unfold i64. rewrite u64_small by (unfold is_u64; lia). destruct (Z.ltb_spec x (two64 / 2)); [done|go_lia]. }
  rewrite (E p Hp), (E h Hh). clear E.
  assert ((if i64 (p - h) <? 0 then i64 (- i64 (p - h)) else i64 (p - h)) = Z.abs (h - p)) as Ed.
  { unfold i64, u64. cbv zeta. split_cmp; go_lia. }
  cbv zeta. rewrite Ed.
  rewrite u64_small by (unfold is_u64; lia).
  split; [|by repeat case_match]. unfold reject, accept.
  destruct (Z.leb_spec (p / GasLimitBoundDivisor) (Z.abs (h - p))), (Z.ltb_spec h MinGasLimit); naive_solver lia.
Qed.

(** ** Configurations with blobs *)

(** What the excess blob gas needs of the parameters of a fork. *)
Definition blob_config_ok (bc : BlobConfig) : Prop :=
  0 < UpdateFraction bc /\ 0 < Max bc < two64 /\ 0 <= Target bc.

(** The parameters have their Go types and allow at least one blob, which the validation of a configuration does not
    check: it only refuses a negative [Max]. *)
Definition allows_blobs (bc : BlobConfig) : Prop := 0 < Max bc < 2 ^ 63 /\ is_u64 (UpdateFraction bc).

Definition schedule_ok (config : ChainConfig) : Prop :=
  forall s, blobSchedule config = Some s -> forall o,
    o ∈ [bsc_Cancun s; bsc_Prague s; bsc_Osaka s; bsc_BPO1 s; bsc_BPO2 s; bsc_BPO3 s; bsc_BPO4 s; bsc_BPO5 s] ->
    match o with Some bc => allows_blobs bc | None => True end.

Lemma first_error_None {A E} (check : A -> option E) l :
  first_error check l = None -> Forall (fun x => check x = None) l.
Proof.
  induction l as [|x l IH]; simpl; [by constructor|]. destruct (check x) eqn:E'; [done|].
  intros. constructor; auto.
Qed.

Lemma valid_config_schedules_blobs config : CheckConfigForkOrder config = None ->
  CancunTime config <> None -> exists s, blobSchedule config = Some s /\ bsc_Cancun s <> None.
Proof.
  unfold CheckConfigForkOrder. intros H Hc. destruct (order_loop _ _); [done|].
  apply first_error_None in H. unfold blob_forks in H. apply List.Forall_cons_iff in H as [H _].
  unfold check_blob_fork in H. destruct (blobSchedule config) as [s|].
  - exists s. split; [done|]. simpl in H. destruct (bsc_Cancun s); [done|]. by destruct (CancunTime config).
  - simpl in H. by destruct (CancunTime config).
Qed.

(** The validation checks the rest. *)
Lemma valid_schedule config s o : CheckConfigForkOrder config = None -> schedule_ok config -> blobSchedule config = Some s ->
  o ∈ [bsc_Cancun s; bsc_Prague s; bsc_Osaka s; bsc_BPO1 s; bsc_BPO2 s; bsc_BPO3 s; bsc_BPO4 s; bsc_BPO5 s] ->
  match o with Some bc => blob_config_ok bc | None => True end.
Proof.
  unfold CheckConfigForkOrder. intros H Hok Hs Ho. pose proof (Hok s Hs o Ho) as Hb. destruct o as [bc|]; [|done].
  destruct (order_loop _ _); [done|]. apply first_error_None in H. unfold blob_forks in H. rewrite Hs in H.
  cbn [default] in H.
  assert (exists x, check_blob_fork (x, Some bc) = None) as [[name t] Hc].
  { rewrite list.Forall_forall in H.
    repeat (apply elem_of_cons in Ho as [Ho|Ho]); [..|by apply elem_of_nil in Ho];
      eexists (_, _); apply H; rewrite Ho; repeat (apply elem_of_cons; (by left) || right). }
  cbn [check_blob_fork] in Hc. unfold validate in Hc. destruct Hb as [Hm Hu]. unfold is_u64, blob_config_ok in *.
  repeat match type of Hc with context [if ?b then _ else _] => destruct b eqn:? end; try done. lia.
Qed.

Lemma latestBlobConfig_some config s bc time :
  blobSchedule config = Some s -> Eip4844.latestBlobConfig config time = Some bc ->
  CheckConfigForkOrder config = None -> schedule_ok config -> blob_config_ok bc.
Proof.
  intros Hs H Hv Hok. pose proof (fun o => valid_schedule config s o Hv Hok Hs) as Hsch. unfold Eip4844.latestBlobConfig in H. rewrite Hs in H.
  cbn [mbind option_bind] in H.
  assert (forall o, o ∈ [bsc_Cancun s; bsc_Prague s; bsc_Osaka s; bsc_BPO1 s; bsc_BPO2 s; bsc_BPO3 s; bsc_BPO4 s; bsc_BPO5 s] ->
    o = Some bc -> blob_config_ok bc) as Hin by (intros o Ho ->; exact (Hsch _ Ho)).
  repeat match type of H with
  | (if ?b then _ else _) = _ => destruct b
  | match ?o with _ => _ end = _ => destruct o eqn:?
  end; (done || injection H as <-);
    match goal with E : ?o = Some ?b |- blob_config_ok ?b => apply (Hin o); [|exact E] end;
    apply list_elem_of_In; simpl; repeat (first [left; congruence | right]).
Qed.

Lemma latestBlobConfig_cancun config s num time :
  Config.IsArbitrum config = false -> LondonBlock config <> None ->
  blobSchedule config = Some s -> bsc_Cancun s <> None ->
  Config.IsCancun config num time 0 = true -> Eip4844.latestBlobConfig config time <> None.
Proof.
  intros Harb Hl Hs Hc Ht. unfold Config.IsCancun in Ht. rewrite Harb in Ht. apply andb_true_iff in Ht as [_ Ht].
  unfold Eip4844.latestBlobConfig. rewrite Hs. cbn [mbind option_bind].
  assert (Config.IsCancun config (LondonBlock config) time 0 = true) as ->.
  { unfold Config.IsCancun, Config.IsLondon. rewrite Harb, Ht, andb_true_r.
    destruct (LondonBlock config); [|done]. simpl. apply Z.leb_refl. }
  destruct (bsc_Cancun s); [|done]. repeat case_match; done.
Qed.

(** ** Excess blob gas *)

Lemma blobBaseFee_returns bc e : blob_config_ok bc -> 0 <= e ->
  exists f, Eip4844.blobBaseFee bc e = Some f.
Proof.
  intros (Hd & _) He. unfold Eip4844.blobBaseFee, fakeExponential.
  change Eip4844.minBlobGasPrice with 1.
  destruct (fakeExponential_returns 1 e (UpdateFraction bc)) as [r ->]; [lia..|]. cbn [mbind option_bind].
  destruct (Z.eqb_spec (UpdateFraction bc) 0); [lia|]. by eexists.
Qed.

Lemma calcExcessBlobGas_returns config isOsaka bc parent :
  blob_config_ok bc -> good_header config parent ->
  exists e, Eip4844.calcExcessBlobGas isOsaka bc parent = Some e.
Proof.
  intros Hbc Hp. unfold Eip4844.calcExcessBlobGas.
  assert (exists p, match ExcessBlobGas parent with
    | Some excess => used ← BlobGasUsed parent; Some (excess, used)
    | None => Some (0, 0) end = Some p /\ 0 <= p.1) as (p & -> & Hp1).
  { pose proof (gh_blob _ _ Hp) as Hb. pose proof (ht_excess _ (gh_typed _ _ Hp)) as He.
    destruct (ExcessBlobGas parent) as [e|]; [|by eexists].
    destruct (BlobGasUsed parent) as [u|]; [|by exfalso; apply Hb]. eexists. split; [done|].
    simpl in *. unfold is_u64 in He. lia. }
  destruct p as [excess used]. simpl in Hp1. cbn [mbind option_bind].
  destruct (_ <? _); [by eexists|]. destruct isOsaka; [|by eexists].
  destruct (gh_fee _ _ Hp) as (b & -> & _). cbn [mbind option_bind]. unfold Eip4844.blobPrice.
  destruct (blobBaseFee_returns bc excess Hbc Hp1) as [f ->]. cbn [mbind option_bind].
  destruct (_ <? _); [|by eexists]. destruct Hbc as (_ & [Hm1 Hm2] & _).
  rewrite (u64_small (Max bc)) by (unfold is_u64; lia).
  destruct (Z.eqb_spec (Max bc) 0); [lia|]. by eexists.
Qed.

(** ** One header *)

Section Chain.
Context {HH : HeaderHash}.
Context (legacy : Z) (chain : ChainReader).
Let config := chain_Config chain.
Context (valid : CheckConfigForkOrder config = None) (not_arbitrum : Config.IsArbitrum config = false)
  (blobs : schedule_ok config).

Lemma fork_versions num time v :
  Config.IsShanghai config num time v = Config.IsShanghai config num time 0
  /\ Config.IsCancun config num time v = Config.IsCancun config num time 0.
Proof. unfold Config.IsShanghai, Config.IsCancun. by rewrite not_arbitrum. Qed.

Lemma london_next n : Config.IsLondon config (Some n) = true -> Config.IsLondon config (Some (n + 1)) = true.
Proof.
  unfold Config.IsLondon. rewrite not_arbitrum. unfold isBlockForked. destruct (LondonBlock config); [|done].
  rewrite !Z.leb_le. lia.
Qed.

Lemma VerifyEIP1559Header_good parent h :
  good_header config parent -> header_typed h -> GasLimit h <= MaxGasLimit ->
  (VerifyEIP1559Header config parent h = accept <->
     Z.abs (GasLimit h - GasLimit parent) < GasLimit parent / GasLimitBoundDivisor
     /\ MinGasLimit <= GasLimit h /\ BaseFee h = CalcBaseFee config parent)
  /\ VerifyEIP1559Header config parent h <> None
  /\ exists f, CalcBaseFee config parent = Some f /\ 0 <= f.
Proof.
  intros Hp Ht Hmax. destruct (gh_fee _ _ Hp) as (b & Eb & Hb).
  pose proof (ht_gasUsed _ (gh_typed _ _ Hp)) as Hu. pose proof (gh_limit _ _ Hp) as [Hl1 Hl2].
  pose proof (gh_used _ _ Hp) as Hu2. pose proof (ht_gasLimit _ Ht) as Hg. unfold is_u64 in *.
  destruct (base_fee_bounds_of config parent b) as (f & Ef & Hf); [apply Hp|done|done|unfold MinGasLimit in *; lia|lia|lia|].
  unfold VerifyEIP1559Header. rewrite (gh_london _ _ Hp). simpl negb. cbv iota. rewrite Ef.
  destruct (VerifyGaslimit_exact (GasLimit parent) (GasLimit h)) as [Hex Hnp]; [unfold MinGasLimit in *; lia|lia|].
  split; [|split; [|by exists f]].
  - rewrite and_then_accept, Hex. destruct (BaseFee h) as [fee|]; [|naive_solver].
    rewrite check_if_accept, negb_false_iff, Z.eqb_eq. naive_solver.
  - destruct (VerifyGaslimit _ _) as [[|]|]; [done| |done]. simpl. destruct (BaseFee h); [|done].
    unfold check_if. by destruct (negb _).
Qed.
(** *** Blob gas *)

Lemma no_field_accept {A} f (v : option A) : no_field f v = accept <-> v = None.
Proof. unfold no_field. rewrite check_if_accept. by destruct v. Qed.

Lemma check_if_total b e : check_if b e <> None.
Proof. by destruct b. Qed.

Lemma and_then_total a b : a <> None -> (a = accept -> b <> None) -> (a then! b) <> None.
Proof. unfold accept. destruct a as [[e|]|]; simpl; auto. Qed.

Lemma VerifyEIP4844Header_good parent h :
  good_header config parent -> header_typed h -> Number h = Number parent + 1 -> LondonBlock config <> None ->
  Config.IsCancun config (Some (Number h)) (Time h) 0 = true ->
  Eip4844.VerifyEIP4844Header config parent h <> None
  /\ (Eip4844.VerifyEIP4844Header config parent h = accept ->
      ExcessBlobGas h <> None /\ BlobGasUsed h <> None
      /\ Eip4844.CalcExcessBlobGas config parent (Time h) = ExcessBlobGas h).
Proof.
  intros Hp Ht Hn Hl Hc. unfold Eip4844.VerifyEIP4844Header.
  pose proof (ht_number _ Ht) as Hr. pose proof (ht_number _ (gh_typed _ _ Hp)) as Hr2.
  rewrite (u64_small (Number h)), (u64_small (Number parent)), u64_small by (unfold is_u64; lia).
  destruct (Z.eqb_spec (Number h) (Number parent + 1)) as [_|]; [|lia]. simpl negb. cbv iota.
  assert (CancunTime config <> None) as Hct.
  { unfold Config.IsCancun in Hc. rewrite not_arbitrum in Hc. apply andb_true_iff in Hc as [_ Hc].
    by destruct (CancunTime config). }
  destruct (valid_config_schedules_blobs config valid Hct) as (s & Hs & Hbs).
  pose proof (latestBlobConfig_cancun config s _ _ not_arbitrum Hl Hs Hbs Hc) as Hlatest.
  unfold Eip4844.CalcExcessBlobGas.
  destruct (Eip4844.latestBlobConfig config (Time h)) as [bc|] eqn:Ebc; [|done].
  pose proof (latestBlobConfig_some config s bc _ Hs Ebc valid blobs) as Hbc.
  destruct (calcExcessBlobGas_returns config (Config.IsOsaka config (LondonBlock config) (Time h) 0) bc parent Hbc Hp)
    as [e He].
  destruct (ExcessBlobGas h) as [excess|]; [|done]. destruct (BlobGasUsed h) as [used|]; [|done].
  rewrite He. split.
  - repeat (apply and_then_total; [apply check_if_total|intros _]). apply check_if_total.
  - rewrite !and_then_accept, !check_if_accept, !negb_false_iff, !Z.eqb_eq. by intros (_ & _ & ->).
Qed.

Lemma is_None_bool {A} (o : option A) :
  (match o with None => true | Some _ => false end = false <-> o <> None)
  /\ (match o with Some _ => true | None => false end = false <-> o = None).
Proof. by destruct o. Qed.

(** *** The whole check *)

Lemma verifyHeader_good parent h :
  good_header config parent -> header_typed h -> LondonBlock config <> None ->
  Beacon.verifyHeader legacy chain h parent <> None
  /\ (Beacon.verifyHeader legacy chain h parent = accept ->
      follows_parent config parent h /\ good_header config h).
Proof.
  intros Hp Ht Hl. unfold Beacon.verifyHeader. fold config.
  destruct (fork_versions (Some (Number h)) (Time h) (arbosVersion legacy h)) as [-> ->]. cbv zeta.
  split.
  - do 6 (apply and_then_total; [apply check_if_total|intros ?]).
    apply and_then_total; [apply check_if_total|intros Hlim].
    apply and_then_total; [apply check_if_total|intros Hnum].
    rewrite check_if_accept, negb_false_iff, Z.eqb_eq in Hnum.
    match goal with H : check_if (MaxGasLimit <? _) _ = accept |- _ => rename H into Hmax end.
    rewrite check_if_accept, Z.ltb_ge in Hmax.
    apply and_then_total; [by apply VerifyEIP1559Header_good|intros _].
    apply and_then_total; [apply check_if_total|intros _].
    apply and_then_total; [apply check_if_total|intros _].
    destruct (Config.IsCancun _ _ _ _) eqn:Hc; simpl negb; cbv iota.
    + apply and_then_total; [apply check_if_total|intros _].
      apply VerifyEIP4844Header_good; try done. lia.
    + do 2 (apply and_then_total; [apply check_if_total|intros _]). apply check_if_total.
  - rewrite !and_then_accept, !check_if_accept, !negb_false_iff, !Z.ltb_ge, !Z.leb_gt, !Z.eqb_eq,
      !andb_false_iff, !negb_false_iff.
    intros (_ & _ & _ & Htime & Hdiff & Hmax & Hused & Hnum & Hfee & Hw1 & Hw2 & Hblob).
    destruct (VerifyEIP1559Header_good parent h Hp Ht Hmax) as (Hacc & _ & f & Ef & Hf).
    apply Hacc in Hfee as (Hlimit & Hmin & Efee).
    rewrite (proj1 (is_None_bool (WithdrawalsHash h))) in Hw1.
    rewrite (proj2 (is_None_bool (WithdrawalsHash h))) in Hw2.
    assert (match Config.IsCancun config (Some (Number h)) (Time h) 0 with
            | true => ExcessBlobGas h <> None /\ BlobGasUsed h <> None
                      /\ Eip4844.CalcExcessBlobGas config parent (Time h) = ExcessBlobGas h
            | false => ExcessBlobGas h = None end) as Hb.
    { destruct (Config.IsCancun _ _ _ _) eqn:Hc; simpl negb in Hblob; cbv iota in Hblob.
      - rewrite and_then_accept in Hblob. destruct Hblob as [_ Hblob].
        apply VerifyEIP4844Header_good; try done. lia.
      - rewrite and_then_accept, no_field_accept in Hblob. apply Hblob. }
    split; split; try done; try lia.
    + destruct (Config.IsShanghai _ _ _ _); naive_solver.
    + destruct (Config.IsCancun _ _ _ _); naive_solver.
    + destruct (Config.IsCancun _ _ _ _); naive_solver.
    + replace (Number h) with (Number parent + 1) by lia. apply london_next, Hp.
    + exists f. by rewrite Efee.
    + destruct (Config.IsCancun _ _ _ _); naive_solver.
Qed.

(** ** The chain *)

(** The headers the beacon engine accepts one after the other, from a first one on. *)
Inductive verified_chain (first : Header) : Header -> Prop :=
| verified_first : verified_chain first first
| verified_next parent h :
    verified_chain first parent -> header_typed h ->
    Beacon.verifyHeader legacy chain h parent = accept -> verified_chain first h.

(** C30.  Verification is total and keeps the invariants of a chain after the merge: on a
    configuration without ArbOS that passes CheckConfigForkOrder, sets London and whose
    blob schedules allow at least one blob ([schedule_ok]; CheckConfigForkOrder does not
    ensure that, see [no_blobs_panics]), every header accepted on top of accepted headers continues its
    parent (number, later time, zero difficulty, gas limit within a 1024th, the base fee
    and the excess blob gas the parent determines, blob and withdrawal fields exactly
    when their forks are active) and is itself a good parent, so verifying any further
    header returns, without a panic. *)
Theorem verified_chain_is_good first h :
  LondonBlock config <> None -> good_header config first -> verified_chain first h ->
  good_header config h
  /\ (h = first \/ exists parent, verified_chain first parent /\ follows_parent config parent h)
  /\ forall next, header_typed next -> Beacon.verifyHeader legacy chain next h <> None.
Proof.
  intros Hl Hfirst Hc.
  assert (good_header config h /\ (h = first \/ exists parent, verified_chain first parent /\ follows_parent config parent h))
    as [Hg Hp].
  { induction Hc as [|parent h Hc IH Ht Hv]; [by split; [|left]|]. destruct IH as [Hg _].
    destruct (verifyHeader_good parent h Hg Ht Hl) as [_ H]. destruct (H Hv) as [Hf Hg'].
    split; [done|]. right. by exists parent. }
  split; [done|]. split; [done|]. intros next Hn. by apply verifyHeader_good.
Qed.
End Chain.

(** ** The record of ArbOS *)

Record info_typed (info : HeaderInfo) : Prop := {
  it_root : length (SendRoot info) = 32%nat;
  it_count : is_u64 (SendCount info);
  it_block : is_u64 (L1BlockNumber info);
  it_version : is_u64 (ArbOSFormatVersion info)
}.

Lemma be_value_u64 x : is_u64 x -> U256.be_value (U256.be_bytes 8 x) = x.
Proof. intros Hx. rewrite U256.be_value_bytes. apply Z.mod_small. change (256 ^ Z.of_nat 8) with two64. exact Hx. Qed.

Lemma take_be8 x r : take 8 (U256.be_bytes 8 x ++ r) = U256.be_bytes 8 x.
Proof. apply take_app_length'. by rewrite U256.be_bytes_length. Qed.

Lemma drop_be8 n x r : drop (8 + n) (U256.be_bytes 8 x ++ r) = drop n r.
Proof. rewrite drop_app_ge; rewrite U256.be_bytes_length; [f_equal; lia|lia]. Qed.

Lemma lookup_be8 n x r : (U256.be_bytes 8 x ++ r) !! (8 + n)%nat = r !! n.
Proof. rewrite lookup_app_r; rewrite U256.be_bytes_length; [f_equal; lia|lia]. Qed.

(** What ArbOS writes into the extra data and the mix digest of a header is what a
    reader gets back: the send root and count, the L1 block number, the format version
    and whether tips are collected, except that version 9 always collects them; the
    header must be one of an Arbitrum chain, with a base fee and difficulty one, and
    outside the legacy range of headers without a base fee. *)
Theorem header_info_roundtrip info h fee legacy :
  info_typed info -> BaseFee h = Some fee -> Difficulty h = 1 ->
  (ArbOSFormatVersion info <= ArbosVersion_40 -> fee = 0 -> legacy <= Time h) ->
  DeserializeHeaderExtraInformation legacy (Some (UpdateHeaderWithInfo info h))
  = mkHeaderInfo (SendRoot info) (SendCount info) (L1BlockNumber info) (ArbOSFormatVersion info)
      (CollectTips info || (ArbOSFormatVersion info =? ArbosVersionCollectTipsOld)).
Proof.
  intros [Hr Hc Hb Hv] Hf Hd Hl. unfold DeserializeHeaderExtraInformation, UpdateHeaderWithInfo, extra.
  cbn [Header.BaseFee Extra Difficulty MixDigest Time]. rewrite Hf, Hd, Hr.
  change (negb (Nat.eqb 32 32) || negb (1 =? 1)) with false. cbv beta iota zeta.
  unfold mixDigest. rewrite take_be8.
  rewrite (drop_be8 8 (SendCount info)), (drop_be8 0 (L1BlockNumber info)).
  rewrite (drop_be8 0 (SendCount info)), !drop_0, !take_be8.
  rewrite (be_value_u64 _ Hc), (be_value_u64 _ Hb), (be_value_u64 _ Hv).
  assert ((ArbOSFormatVersion info <=? ArbosVersion_40) && (fee =? 0) && (Time h <? legacy) = false) as ->.
  { destruct (Z.leb_spec (ArbOSFormatVersion info) ArbosVersion_40), (Z.eqb_spec fee 0),
      (Z.ltb_spec (Time h) legacy); simpl; try done. lia. }
  f_equal. rewrite (lookup_be8 17), (lookup_be8 9), (lookup_be8 1). simpl.
  destruct (CollectTips info), (ArbOSFormatVersion info =? ArbosVersionCollectTipsOld); done.
Qed.

Lemma header_info_roundtrip_witness :
  let info := mkHeaderInfo (replicate 32 7) 3 20000000 50 true in
  DeserializeHeaderExtraInformation 0
    (Some (UpdateHeaderWithInfo info (set_Difficulty 1 (header_with 5 32000000 0 (Some 100000000))))) = info.
Proof. intros info. by apply (header_info_roundtrip info _ 100000000 0). Defined.

(** A chain of two headers on a configuration with the merge at genesis: the second
    header uses its gas target, so the base fee stays. *)
Definition pos_header (parentHash number time : Z) (fee : Z) : Header :=
  mkHeader parentHash EmptyUncleHash 0 0 0 0 [] 0 number 30000000 15000000 time [] [] 0 (Some fee)
    (Some 0) (Some 0) (Some 0) (Some 0) None.

Lemma verified_chain_is_good_witness :
  let chain := mkChainReader MergedTestChainConfig (fun _ _ => None) (fun _ _ => None) in
  let h0 := pos_header 0 0 10 1000 in
  let h1 := pos_header 1 1 20 1000 in
  Beacon.verifyHeader 0 chain h1 h0 = accept
  /\ good_header MergedTestChainConfig h1
  /\ forall next, header_typed next -> Beacon.verifyHeader 0 chain next h1 <> None.
Proof.
  intros chain h0 h1.
  assert (header_typed h0 /\ header_typed h1) as [T0 T1]
    by (split; split; unfold is_u64, opt_u64; simpl; lia || (unfold is_u64; lia)).
  assert (Beacon.verifyHeader 0 chain h1 h0 = accept) as Hv by by vm_compute.
  destruct (verified_chain_is_good 0 chain) with (first := h0) (h := h1) as (Hg & _ & Hn); try done.
  - intros s Hs o Ho. injection Hs as <-. unfold blob_config_ok. set_unfold in Ho.
    destruct_or! Ho; subst; simpl; try done; unfold DefaultCancunBlobConfig, DefaultPragueBlobConfig,
      DefaultOsakaBlobConfig; simpl; lia.
  - split; try done; simpl; try lia. by exists 1000.
  - by eapply verified_next; [apply verified_first|..].
Defined.

(** A schedule without blobs passes the validation; when a block of the parent pays more for its blobs' gas than they
    would cost, the excess is scaled by [Max] and the verification of the next header divides by zero. *)
Example no_blobs_panics :
  let bc := mkBlobConfig 0 0 5007716 in
  let c := mkChainConfig (Some 1) (Some 0) None false (Some 0) (Some 0) (Some 0) (Some 0) (Some 0) (Some 0) (Some 0) None
    (Some 0) (Some 0) None None (Some 0) (Some 0) (Some 0) (Some 0) (Some 0) None None None None None None None (Some 0) 0
    false (Some (mkBlobScheduleConfig (Some bc) (Some bc) (Some bc) None None None None None None None))
    DisableArbitrumParams in
  let chain := mkChainReader c (fun _ _ => None) (fun _ _ => None) in
  CheckConfigForkOrder c = None /\ Config.IsArbitrum c = false
  /\ Beacon.verifyHeader 0 chain (pos_header 1 1 20 1000) (pos_header 0 0 10 1000) = None.
Proof. by vm_compute. Qed.
