(* ===== verification/StateRevert.v ===== *)
(** Snapshots and reverts of the state database.

    [equiv] is observational equivalence of two databases: what a reader of
    accounts, storage, code, logs, refund, access list, transient storage and
    activated programs can see, up to the read caches.  Every operation is
    shown to append journal entries that, replayed backwards, lead back to an
    equivalent state ([undoes]); the journal's [revert] methods respect the
    equivalence; so reverting to any snapshot that is still valid restores the
    state the snapshot was taken in, whatever happened in between. *)

From stdpp Require Import base gmap list numbers option sets strings sorting.
From S2P Require Import Prelude Params Uint256 AccessList State.
Import AccessList.
Open Scope Z_scope.

Section Revert.
Context {U : U256.Ops} {HS : Hasher} {R : Reader}.

(** ** What a state shows *)

(** The object at an address when no live object is cached. *)
Definition base_acct (D : gmap Z stateObject) (a : Z) : option stateObject :=
  match D !! a with
  | Some _ => None
  | None => match r_Account a with
            | Ok (Some acct) => Some (newObject a (Some acct))
            | _ => None
            end
  end.

Definition acct_in (m D : gmap Z stateObject) (a : Z) : option stateObject :=
  match m !! a with Some o => Some o | None => base_acct D a end.

Definition acct (s : StateDB) (a : Z) : option stateObject :=
  acct_in (stateObjects s) (stateObjectsDestruct s) a.

Definition committed (D : gmap Z stateObject) (o : stateObject) (k : Z) : Z :=
  match pendingStorage o !! k with
  | Some v => v
  | None =>
  match originStorage o !! k with
  | Some v => v
  | None =>
  match D !! so_address o with
  | Some _ => 0
  | None => match r_Storage (so_address o) k with Ok v => v | Err _ => 0 end
  end end end.

Definition current (D : gmap Z stateObject) (o : stateObject) (k : Z) : Z :=
  default (committed D o k) (dirtyStorage o !! k).

Definition code_of (o : stateObject) : list Z :=
  if negb (bool_decide (so_code o = [])) then so_code o
  else if CodeHash (so_data o) =? EmptyCodeHash then []
  else fst (r_Code (so_address o) (CodeHash (so_data o))).

(** Objects that agree on everything but their caches and [dirtyCode]. *)
Record obj_equiv (D : gmap Z stateObject) (o1 o2 : stateObject) : Prop := {
  oe_address : so_address o1 = so_address o2;
  oe_origin : so_origin o1 = so_origin o2;
  oe_data : so_data o1 = so_data o2;
  oe_pending : pendingStorage o1 = pendingStorage o2;
  oe_uncommitted : uncommittedStorage o1 = uncommittedStorage o2;
  oe_destructed : selfDestructed o1 = selfDestructed o2;
  oe_new : newContract o1 = newContract o2;
  oe_committed k : committed D o1 k = committed D o2 k;
  oe_current k : current D o1 k = current D o2 k;
  oe_code : code_of o1 = code_of o2
}.

(** The journalled part of the state other than the accounts. *)
Record rest_eq (s1 s2 : StateDB) : Prop := {
  re_destruct : stateObjectsDestruct s1 = stateObjectsDestruct s2;
  re_refund : refund s1 = refund s2;
  re_logs h : default [] (logs s1 !! h) = default [] (logs s2 !! h);
  re_logSize : logSize s1 = logSize s2;
  re_al : al s1 = al s2;
  re_transient a k : Transient.Get (transient s1) a k = Transient.Get (transient s2) a k;
  re_wasms : activatedWasms (arbExtraData s1) = activatedWasms (arbExtraData s2)
}.

Record equiv (s1 s2 : StateDB) : Prop := {
  eq_rest : rest_eq s1 s2;
  eq_acct a : option_Forall2 (obj_equiv (stateObjectsDestruct s1)) (acct s1 a) (acct s2 a)
}.

#[global] Instance obj_equiv_equivalence D : Equivalence (obj_equiv D).
Proof.
  split.
  - intros o. by split.
  - intros o1 o2 []. by split.
  - intros o1 o2 o3 [] []. split; intros; etrans; eauto.
Qed.

#[global] Instance rest_eq_equivalence : Equivalence rest_eq.
Proof.
  split.
  - intros s. by split.
  - intros s1 s2 []. by split.
  - intros s1 s2 s3 [] []. split; intros; etrans; eauto.
Qed.

#[global] Instance equiv_equivalence : Equivalence equiv.
Proof.
  split.
  - intros s. split; [done|]. intros a. reflexivity.
  - intros s1 s2 [Hr Ha]. split; [done|]. intros a. rewrite <- (re_destruct _ _ Hr).
    by symmetry.
  - intros s1 s2 s3 [Hr Ha] [Hr' Ha']. split; [by etrans|]. intros a.
    specialize (Ha' a). rewrite <- (re_destruct _ _ Hr) in Ha'. etrans; [apply Ha|done].
Qed.

(** ** Loading objects *)

Lemma acct_in_insert m D a o b :
  acct_in (<[a := o]> m) D b = if decide (a = b) then Some o else acct_in m D b.
Proof.
  unfold acct_in. destruct (decide (a = b)) as [->|].
  - by rewrite lookup_insert_eq.
  - by rewrite lookup_insert_ne.
Qed.

Lemma acct_in_delete m D a b :
  acct_in (delete a m) D b = if decide (a = b) then base_acct D b else acct_in m D b.
Proof.
  unfold acct_in. destruct (decide (a = b)) as [->|].
  - by rewrite lookup_delete_eq.
  - by rewrite lookup_delete_ne.
Qed.

(** A load returns the effective account and changes only the cache of live
    objects and the memoised error. *)
Lemma getStateObject_spec a s :
  exists m e, getStateObject a s = (acct s a, set_dbErr e (set_stateObjects m s))
    /\ (forall b, acct_in m (stateObjectsDestruct s) b = acct s b)
    /\ m !! a = acct s a.
Proof.
  unfold getStateObject, acct, acct_in, base_acct.
  destruct (stateObjects s !! a) as [o|] eqn:Ho.
  { exists (stateObjects s), (dbErr s). split; [by destruct s|]. by rewrite Ho. }
  destruct (stateObjectsDestruct s !! a) as [o|] eqn:Hd.
  { exists (stateObjects s), (dbErr s). split; [by destruct s|]. by rewrite Ho. }
  destruct (r_Account a) as [[ac|]|e] eqn:Er.
  - eexists (<[a := newObject a (Some ac)]> (stateObjects s)), (dbErr s).
    split; [by destruct s|]. split; [|by rewrite lookup_insert_eq].
    intros b. pose proof (acct_in_insert (stateObjects s) (stateObjectsDestruct s) a
      (newObject a (Some ac)) b) as E. unfold acct_in, base_acct in E. rewrite E.
    destruct (decide (a = b)) as [<-|]; [|done]. by rewrite Ho, Hd, Er.
  - exists (stateObjects s), (dbErr s). split; [by destruct s|]. by rewrite Ho.
  - unfold setError. destruct (dbErr s) as [e'|] eqn:Ee.
    + exists (stateObjects s), (dbErr s). split; [by destruct s|]. by rewrite Ho.
    + exists (stateObjects s), (Some (ErrGetStateObject a e)).
      split; [by destruct s|]. by rewrite Ho.
Qed.

(** States that differ only in the cache of live objects and the memoised error
    and hold the same effective accounts. *)
Definition reloads (s s' : StateDB) : Prop :=
  exists m e, s' = set_dbErr e (set_stateObjects m s)
    /\ forall b, acct_in m (stateObjectsDestruct s) b = acct s b.

Lemma reloads_acct s s' b : reloads s s' -> acct s' b = acct s b.
Proof. intros (m & e & -> & Hm). unfold acct at 1. simpl. apply Hm. Qed.

Lemma getStateObject_reloads a s r s' :
  getStateObject a s = (r, s') -> r = acct s a /\ reloads s s' /\ stateObjects s' !! a = r.
Proof.
  destruct (getStateObject_spec a s) as (m & e & -> & Hm & Ha).
  intros [= <- <-]. split; [done|]. split; [|done]. by exists m, e.
Qed.

Lemma with_object_spec a f s o :
  acct s a = Some o ->
  exists s', with_object a f s = Some s' /\ rest_eq s' s
    /\ (forall b, acct s' b = if decide (a = b) then Some (f o) else acct s b)
    /\ jrnl s' = jrnl s.
Proof.
  intros Ha. unfold with_object. destruct (getStateObject a s) as [r s1] eqn:E.
  apply getStateObject_reloads in E as (-> & (m & e & -> & Hm) & _). rewrite Ha.
  eexists. split; [done|]. split; [by split|]. split; [|done].
  intros b. unfold acct at 1. simpl. rewrite acct_in_insert, Hm. done.
Qed.

Lemma with_object_None a f s : acct s a = None -> with_object a f s = None.
Proof.
  intros Ha. unfold with_object. destruct (getStateObject a s) as [r s1] eqn:E.
  apply getStateObject_reloads in E as (-> & _). by rewrite Ha.
Qed.

(** ** The revert methods respect equivalence *)

Definition respects (f : stateObject -> stateObject) : Prop :=
  forall D o1 o2, obj_equiv D o1 o2 -> obj_equiv D (f o1) (f o2).

Ltac split_equiv := split; simpl; try done; try congruence.

Lemma respects_flags b :
  respects (set_newContract b) /\ respects (set_selfDestructed b).
Proof. split; intros D o1 o2 []; by split. Qed.

(** Replacing the account data keeps storage; the code follows the code hash. *)
Lemma respects_setBalance v : respects (obj_setBalance v).
Proof.
  intros D o1 o2 [Ha Ho Hd Hp Hu Hs Hn Hc Hcu Hcode].
  split; [done|done|by simpl; rewrite Hd|done..|].
  unfold code_of in *. simpl. by rewrite Hd in *.
Qed.

Lemma respects_setNonce v : respects (obj_setNonce v).
Proof.
  intros D o1 o2 [Ha Ho Hd Hp Hu Hs Hn Hc Hcu Hcode].
  split; [done|done|by simpl; rewrite Hd|done..|].
  unfold code_of in *. simpl. by rewrite Hd in *.
Qed.

Lemma respects_setCode h c : respects (obj_setCode h c).
Proof.
  intros D o1 o2 [Ha Ho Hd Hp Hu Hs Hn Hc Hcu Hcode].
  split; [done|done|by simpl; rewrite Hd|done..|].
  unfold code_of in *. simpl. by rewrite Ha.
Qed.

Lemma current_setState D o k v orig j :
  current D (obj_setState k v orig o) j
  = if decide (k = j) then (if v =? orig then committed D o k else v) else current D o j.
Proof.
  unfold current, obj_setState. destruct (v =? orig); simpl;
    (destruct (decide (k = j)) as [<-|]; [rewrite ?lookup_delete_eq, ?lookup_insert_eq; done|];
     rewrite ?lookup_delete_ne, ?lookup_insert_ne by done; done).
Qed.

Lemma respects_setState k v orig : respects (obj_setState k v orig).
Proof.
  intros D o1 o2 [Ha Ho Hd Hp Hu Hs Hn Hc Hcu Hcode].
  assert (forall j, current D (obj_setState k v orig o1) j
    = current D (obj_setState k v orig o2) j) as Hcur.
  { intros j. rewrite !current_setState, Hc, Hcu. done. }
  revert Hcur. unfold obj_setState. destruct (v =? orig); intros Hcur; by split.
Qed.

(** A simulation step: what one state can do, an equivalent one can. *)
Definition sim_step (f : StateDB -> option StateDB) : Prop :=
  forall s1 s2 s1', equiv s1 s2 -> f s1 = Some s1' ->
    exists s2', f s2 = Some s2' /\ equiv s1' s2'.

Lemma equiv_acct s1 s2 a : equiv s1 s2 ->
  match acct s1 a, acct s2 a with
  | Some o1, Some o2 => obj_equiv (stateObjectsDestruct s1) o1 o2
  | None, None => True
  | _, _ => False
  end.
Proof.
  intros [_ Ha]. specialize (Ha a). destruct Ha; done.
Qed.

Lemma equiv_update s1 s2 s1' s2' a o1 o2 :
  equiv s1 s2 -> rest_eq s1' s1 -> rest_eq s2' s2 ->
  (forall b, acct s1' b = if decide (a = b) then Some o1 else acct s1 b) ->
  (forall b, acct s2' b = if decide (a = b) then Some o2 else acct s2 b) ->
  obj_equiv (stateObjectsDestruct s1) o1 o2 -> equiv s1' s2'.
Proof.
  intros Heq H1 H2 A1 A2 Ho. split.
  - etrans; [done|]. etrans; [apply (eq_rest _ _ Heq)|]. by symmetry.
  - intros b. rewrite A1, A2, (re_destruct _ _ H1). case_decide; [by constructor|].
    apply (eq_acct _ _ Heq).
Qed.

Lemma with_object_sim a f : respects f -> sim_step (with_object a f).
Proof.
  intros Hf s1 s2 s1' Heq H1. pose proof (equiv_acct _ _ a Heq) as Ha.
  destruct (acct s1 a) as [o1|] eqn:E1, (acct s2 a) as [o2|] eqn:E2; try done.
  - destruct (with_object_spec a f s1 o1 E1) as (t1 & W1 & R1 & A1 & _).
    destruct (with_object_spec a f s2 o2 E2) as (t2 & W2 & R2 & A2 & _).
    rewrite W1 in H1. simplify_eq. exists t2. split; [done|].
    eapply equiv_update; eauto.
  - by rewrite with_object_None in H1.
Qed.

Lemma reloads_equiv s s' : reloads s s' -> equiv s' s.
Proof.
  intros Hr. split.
  - destruct Hr as (m & e & -> & _). by split.
  - intros a. rewrite (reloads_acct s) by done. reflexivity.
Qed.

Lemma selfDestruct_revert_sim a : sim_step (revert_entry (selfDestructChange a)).
Proof.
  intros s1 s2 s1' Heq H1. pose proof (equiv_acct _ _ a Heq) as Ha. cbn [revert_entry] in *.
  destruct (getStateObject a s1) as [r1 t1] eqn:G1, (getStateObject a s2) as [r2 t2] eqn:G2.
  apply getStateObject_reloads in G1 as (-> & L1 & _), G2 as (-> & L2 & _).
  assert (equiv t1 t2) as Ht.
  { etrans; [by apply reloads_equiv|]. etrans; [done|]. symmetry. by apply reloads_equiv. }
  destruct (acct s1 a) as [o1|] eqn:E1, (acct s2 a) as [o2|] eqn:E2; try done; simplify_eq;
    [|by eauto].
  eexists. split; [done|]. apply (equiv_update t1 t2 _ _ a (set_selfDestructed false o1)
    (set_selfDestructed false o2)); [done|by split..| | |].
  - intros b. unfold acct at 1; simpl. by rewrite acct_in_insert.
  - intros b. unfold acct at 1; simpl. by rewrite acct_in_insert.
  - apply respects_flags. destruct L1 as (m & e & -> & _). done.
Qed.

(** Changes outside the accounts. *)
Lemma equiv_rest_step s1 s2 s1' s2' :
  equiv s1 s2 -> rest_eq s1' s2' -> stateObjects s1' = stateObjects s1 ->
  stateObjects s2' = stateObjects s2 -> stateObjectsDestruct s1' = stateObjectsDestruct s1 ->
  stateObjectsDestruct s2' = stateObjectsDestruct s2 -> equiv s1' s2'.
Proof.
  intros [_ Ha] Hr O1 O2 D1 D2. split; [done|]. intros a. specialize (Ha a).
  unfold acct in *. by rewrite O1, O2, D1, D2.
Qed.

Ltac rest_step Heq :=
  eapply equiv_rest_step; [exact Heq| |done..]; destruct (eq_rest _ _ Heq);
  split; simpl; try done; try congruence.

Lemma addLog_revert_sim h : sim_step (revert_entry (addLogChange h)).
Proof.
  intros s1 s2 s1' Heq H1. cbn [revert_entry] in *.
  pose proof (re_logs _ _ (eq_rest _ _ Heq)) as Hl. rewrite <- (Hl h).
  set (ls := default [] (logs s1 !! h)) in *.
  destruct (Nat.eqb (length ls) 1) eqn:N1; [|destruct (Nat.eqb (length ls) 0) eqn:N0; [done|]];
    simpl in *; simplify_eq; eexists; (split; [done|]); rest_step Heq.
  - intros h'. destruct (decide (h = h')) as [->|].
    + by rewrite !lookup_delete_eq.
    + by rewrite !lookup_delete_ne.
  - intros h'. destruct (decide (h = h')) as [->|].
    + by rewrite !lookup_insert_eq.
    + by rewrite !lookup_insert_ne.
Qed.

Lemma createObject_revert_sim a :
  sim_step (fun s => Some (set_stateObjects (delete a (stateObjects s)) s)).
Proof.
  intros s1 s2 s1' Heq [= <-]. eexists. split; [done|].
  pose proof (re_destruct _ _ (eq_rest _ _ Heq)) as Hd.
  split; [by destruct (eq_rest _ _ Heq); split|].
  intros b. unfold acct; simpl. rewrite !acct_in_delete.
  case_decide; [|apply (eq_acct _ _ Heq)]. rewrite Hd. reflexivity.
Qed.

Lemma revert_entry_sim e : sim_step (revert_entry e).
Proof.
  destruct e;
    try (apply with_object_sim; auto using respects_setBalance, respects_setNonce,
           respects_setCode, respects_setState; apply respects_flags);
    try apply createObject_revert_sim;
    auto using selfDestruct_revert_sim, addLog_revert_sim.
  all: intros s1 s2 s1' Heq H1; pose proof (eq_rest _ _ Heq) as Hre;
    destruct Hre; cbn [revert_entry] in *.
  - simplify_eq. eexists. split; [done|]. rest_step Heq.
  - simplify_eq. by eexists.
  - simplify_eq. eexists. split; [done|]. rest_step Heq.
  - rewrite <- re_al0. destruct (DeleteSlot (al s1) address slot); simplify_eq/=.
    eexists. split; [done|]. rest_step Heq.
  - simplify_eq. eexists. split; [done|]. rest_step Heq.
    intros a k. rewrite !Transient.Get_Set. by case_decide.
  - simplify_eq. eexists. split; [done|]. rest_step Heq.
  - simplify_eq. eexists. split; [done|]. rest_step Heq.
  - assert (ActivatedAsm LocalTarget ModuleHash s1 = ActivatedAsm LocalTarget ModuleHash s2) as HA
      by (unfold ActivatedAsm; by rewrite re_wasms0).
    rewrite <- HA. case_bool_decide; simplify_eq; eexists; (split; [done|]); rest_step Heq.
Qed.

(** ** Operations are undone by their journal entries *)

Fixpoint undo_list (es : list journalEntry) (s : StateDB) : option StateDB :=
  match es with
  | [] => Some s
  | e :: es => s ← revert_entry e s; undo_list es s
  end.

Lemma undo_list_app es1 es2 s :
  undo_list (es1 ++ es2) s = (s ← undo_list es1 s; undo_list es2 s).
Proof.
  revert s. induction es1 as [|e es1 IH]; intros s; [done|]. simpl.
  destruct (revert_entry e s); simpl; [apply IH|done].
Qed.

Lemma undo_list_sim es : sim_step (undo_list es).
Proof.
  induction es as [|e es IH]; intros s1 s2 s1' Heq H1; simpl in *; [simplify_eq; eauto|].
  destruct (revert_entry e s1) as [t1|] eqn:E1; simpl in H1; [|done].
  destruct (revert_entry_sim e _ _ _ Heq E1) as (t2 & -> & Ht). simpl. eauto.
Qed.

(** From [s], [s1] was reached by appending entries that undo the difference. *)
Definition undoes (s s1 : StateDB) : Prop :=
  validRevisions (jrnl s1) = validRevisions (jrnl s)
  /\ nextRevisionId (jrnl s1) = nextRevisionId (jrnl s)
  /\ exists es s', entries (jrnl s1) = es ++ entries (jrnl s)
       /\ undo_list es s1 = Some s' /\ equiv s' s.

Lemma undoes_trans s s1 s2 : undoes s s1 -> undoes s1 s2 -> undoes s s2.
Proof.
  intros (V1 & N1 & es1 & t1 & E1 & U1 & Q1) (V2 & N2 & es2 & t2 & E2 & U2 & Q2).
  split; [congruence|]. split; [congruence|].
  destruct (undo_list_sim es1 s1 t2 t1) as (t3 & U3 & Q3); [by symmetry|done|].
  exists (es2 ++ es1), t3. rewrite undo_list_app, U2. simpl. split_and!.
  - by rewrite E2, E1, (assoc (++)).
  - done.
  - etrans; [|exact Q1]. by symmetry.
Qed.

Lemma undoes_equiv s s1 : jrnl s1 = jrnl s -> equiv s1 s -> undoes s s1.
Proof.
  intros Hj Hq. unfold undoes. rewrite Hj. split_and!; [done..|]. by exists [], s1.
Qed.

Lemma undoes_refl s : undoes s s.
Proof. by apply undoes_equiv. Qed.

Lemma undoes_reloads s s1 : reloads s s1 -> undoes s s1.
Proof.
  intros Hr. apply undoes_equiv; [|by apply reloads_equiv].
  by destruct Hr as (m & e & -> & _).
Qed.

(** [s1]'s journal is [s]'s with [e] appended, up to the dirty counters. *)
Definition journals (e : journalEntry) (s s1 : StateDB) : Prop :=
  entries (jrnl s1) = e :: entries (jrnl s)
  /\ validRevisions (jrnl s1) = validRevisions (jrnl s)
  /\ nextRevisionId (jrnl s1) = nextRevisionId (jrnl s).

Lemma journals_append e s s1 : jrnl s1 = append e (jrnl s) -> journals e s s1.
Proof.
  unfold journals. intros ->. unfold append. destruct (dirtied e), (isZombie e); done.
Qed.

Lemma undoes_entry s s1 e s' :
  journals e s s1 -> revert_entry e s1 = Some s' -> equiv s' s -> undoes s s1.
Proof.
  intros (E & V & N) Hu Hq. split; [done|]. split; [done|].
  exists [e], s'. simpl. by rewrite Hu.
Qed.

(** A journalled change of one object. *)
Lemma undoes_object s s1 a o o1 e f :
  journals e s s1 -> rest_eq s1 s -> acct s a = Some o ->
  (forall b, acct s1 b = if decide (a = b) then Some o1 else acct s b) ->
  (forall s', is_Some (acct s' a) -> exists t, revert_entry e s' = Some t
     /\ with_object a f s' = Some t) ->
  obj_equiv (stateObjectsDestruct s) (f o1) o -> undoes s s1.
Proof.
  intros Hj Hr Ha A1 Hrev Ho.
  assert (acct s1 a = Some o1) as Ha1 by (rewrite A1; by rewrite decide_True).
  destruct (Hrev s1) as (t & Ht & W); [eauto|].
  destruct (with_object_spec a f s1 o1 Ha1) as (t' & W' & R' & A' & _). simplify_eq.
  eapply undoes_entry; [done..|]. split; [by etrans|].
  intros b. rewrite A', A1. rewrite (re_destruct _ _ R'), (re_destruct _ _ Hr).
  case_decide as Hb; [|reflexivity]. subst. rewrite Ha. by constructor.
Qed.

(** Changes of an object that no entry records, visible only to its caches. *)
Lemma undoes_cache s s1 a o o1 :
  jrnl s1 = jrnl s -> rest_eq s1 s -> acct s a = Some o ->
  (forall b, acct s1 b = if decide (a = b) then Some o1 else acct s b) ->
  obj_equiv (stateObjectsDestruct s) o1 o -> undoes s s1.
Proof.
  intros Hj Hr Ha A1 Ho. apply undoes_equiv; [done|]. split; [done|].
  intros b. rewrite A1, (re_destruct _ _ Hr). case_decide; [|reflexivity].
  subst. rewrite Ha. by constructor.
Qed.

(** ** Well-formed states *)

Record wf_state (s : StateDB) : Prop := {
  ws_addr a o : stateObjects s !! a = Some o -> so_address o = a;
  ws_al : AccessList.wf (al s);
  ws_logSize : is_u64 (logSize s)
}.

Lemma acct_address s a o : wf_state s -> acct s a = Some o -> so_address o = a.
Proof.
  intros Hwf. unfold acct, acct_in, base_acct.
  destruct (stateObjects s !! a) eqn:E; [intros; simplify_eq; by eapply ws_addr|].
  destruct (stateObjectsDestruct s !! a); [done|].
  destruct (r_Account a) as [[]|]; intros; by simplify_eq.
Qed.

Lemma acct_live s a o : stateObjects s !! a = Some o -> acct s a = Some o.
Proof. unfold acct, acct_in. by intros ->. Qed.

(** Same live objects up to one at [a], same access list, log size in range. *)
Lemma wf_state_update s s1 a o :
  wf_state s -> stateObjects s1 = <[a := o]> (stateObjects s) -> so_address o = a ->
  al s1 = al s -> logSize s1 = logSize s -> wf_state s1.
Proof.
  intros [Hw Hal Hls] Ho Ha Eal El. split; [|by rewrite Eal|by rewrite El].
  intros b o'. rewrite Ho. intros [[<- <-]|[_ ?]]%lookup_insert_Some; eauto.
Qed.

Lemma wf_same s s1 :
  wf_state s -> stateObjects s1 = stateObjects s -> al s1 = al s -> logSize s1 = logSize s ->
  wf_state s1.
Proof. intros [Hw Hal Hls] Ho Ea El. split; rewrite ?Ho, ?Ea, ?El; done. Qed.

Lemma getStateObject_wf a s r s1 :
  wf_state s -> getStateObject a s = (r, s1) -> wf_state s1.
Proof.
  intros Hwf. unfold getStateObject.
  destruct (stateObjects s !! a); [by intros; simplify_eq|].
  destruct (stateObjectsDestruct s !! a); [by intros; simplify_eq|].
  destruct (r_Account a) as [[ac|]|e]; intros; simplify_eq; [|done|].
  - eapply wf_state_update; eauto.
  - unfold setError. destruct (dbErr s); [done|]. eapply wf_same; eauto.
Qed.

(** What an operation on the object at [a] can rely on after the lookup. *)
Record found (s : StateDB) (a : Z) (o : stateObject) (s1 : StateDB) : Prop := {
  fo_wf : wf_state s1;
  fo_live : stateObjects s1 !! a = Some o;
  fo_address : so_address o = a;
  fo_undoes : undoes s s1
}.

Lemma getStateObject_found a s r s1 :
  wf_state s -> getStateObject a s = (r, s1) ->
  r = acct s a /\ match r with
                  | Some o => found s a o s1
                  | None => undoes s s1 /\ wf_state s1 /\ acct s1 a = None
                  end.
Proof.
  intros Hwf E. pose proof (getStateObject_wf _ _ _ _ Hwf E) as Hwf1.
  apply getStateObject_reloads in E as (-> & Hr & Hl). split; [done|].
  destruct (acct s a) as [o|] eqn:Ha.
  - split; [done|done| |by apply undoes_reloads]. exact (acct_address s a o Hwf Ha).
  - split; [by apply undoes_reloads|]. split; [done|]. by rewrite (reloads_acct s).
Qed.

Lemma undoes_create s s1 a e :
  (forall t, revert_entry e t = Some (set_stateObjects (delete a (stateObjects t)) t)) ->
  journals e s s1 -> rest_eq s1 s -> acct s a = None ->
  stateObjects s1 = <[a := newObject a None]> (stateObjects s) -> undoes s s1.
Proof.
  intros He Hj Hr Ha Ho. eapply undoes_entry; [done|apply He|]. split.
  - etrans; [|exact Hr]. by split.
  - intros b. unfold acct; simpl. rewrite Ho, (re_destruct _ _ Hr), delete_insert_eq.
    unfold acct, acct_in in Ha. destruct (stateObjects s !! a) eqn:E; [done|].
    rewrite acct_in_delete. case_decide; [|reflexivity]. subst.
    unfold acct_in. rewrite E. reflexivity.
Qed.

Lemma createObject_found a s o s1 :
  wf_state s -> acct s a = None -> createObject a s = (o, s1) -> found s a o s1.
Proof.
  intros Hwf Ha [= <- <-]. split; simpl.
  - eapply wf_state_update; eauto.
  - by rewrite lookup_insert_eq.
  - done.
  - apply (undoes_create s _ a (createObjectChange a)); [done|by apply journals_append|by split|done|done].
Qed.

Lemma getOrNewStateObject_found a s o s1 :
  wf_state s -> getOrNewStateObject a s = (o, s1) -> found s a o s1.
Proof.
  intros Hwf. unfold getOrNewStateObject.
  destruct (getStateObject a s) as [[o'|] s2] eqn:E;
    apply getStateObject_found in E as [Hr H2]; [|done| |done].
  - by intros [= <- <-].
  - destruct H2 as (Hu & Hwf2 & Ha). intros Hc.
    destruct (createObject_found _ _ _ _ Hwf2 Ha Hc) as [? ? ? ?].
    split; [done..|]. by eapply undoes_trans.
Qed.

(** ** Each operation *)

Definition good (s s1 : StateDB) : Prop := undoes s s1 /\ wf_state s1.

Lemma found_good s a o s1 : found s a o s1 -> good s s1.
Proof. by intros []. Qed.

Lemma good_trans s s1 s2 : good s s1 -> good s1 s2 -> good s s2.
Proof. intros [] []. split; [by eapply undoes_trans|done]. Qed.

Lemma acct_update s1 s2 a o b :
  stateObjects s2 = <[a := o]> (stateObjects s1) ->
  stateObjectsDestruct s2 = stateObjectsDestruct s1 ->
  acct s2 b = if decide (a = b) then Some o else acct s1 b.
Proof. intros Ho Hd. unfold acct. rewrite Ho, Hd. apply acct_in_insert. Qed.

Definition reverts_by (e : journalEntry) (a : Z) (f : stateObject -> stateObject) : Prop :=
  forall s, is_Some (acct s a) -> exists t, revert_entry e s = Some t /\ with_object a f s = Some t.

Lemma with_object_reverts e a f :
  (forall s, revert_entry e s = with_object a f s) -> reverts_by e a f.
Proof.
  intros He s [o Ho]. destruct (with_object_spec a f s o Ho) as (t & Ht & _).
  exists t. by rewrite He.
Qed.

Lemma selfDestruct_reverts a : reverts_by (selfDestructChange a) a (set_selfDestructed false).
Proof.
  intros s [o Ho]. unfold with_object. cbn [revert_entry].
  destruct (getStateObject a s) as [r s1] eqn:E.
  apply getStateObject_reloads in E as (-> & _). rewrite Ho. by eexists.
Qed.

Lemma good_object s a o s1 s2 o2 e f :
  found s a o s1 -> journals e s1 s2 -> rest_eq s2 s1 ->
  stateObjects s2 = <[a := o2]> (stateObjects s1) -> so_address o2 = a ->
  reverts_by e a f -> obj_equiv (stateObjectsDestruct s1) (f o2) o -> good s s2.
Proof.
  intros Hf Hj Hr Ho Ha He Hq. destruct Hf as [Hwf Hl Hao Hu].
  pose proof (acct_live _ _ _ Hl) as Hacc. split.
  - eapply undoes_trans; [done|].
    eapply undoes_object; [done..| |exact He|done].
    intros b. apply acct_update; [done|]. by apply re_destruct.
  - eapply wf_state_update; [exact Hwf|done|done|by apply re_al|by apply re_logSize].
Qed.

Lemma good_cache s a o s1 s2 o2 :
  found s a o s1 -> jrnl s2 = jrnl s1 -> rest_eq s2 s1 ->
  stateObjects s2 = <[a := o2]> (stateObjects s1) ->
  obj_equiv (stateObjectsDestruct s1) o2 o -> good s s2.
Proof.
  intros Hf Hj Hr Ho Hq. destruct Hf as [Hwf Hl Hao Hu].
  pose proof (acct_live _ _ _ Hl) as Hacc. split.
  - eapply undoes_trans; [done|].
    eapply undoes_cache; [done..| |done].
    intros b. apply acct_update; [done|]. by apply re_destruct.
  - eapply wf_state_update; [exact Hwf|done| |by apply re_al|by apply re_logSize].
    by rewrite (oe_address _ _ _ Hq).
Qed.

(** Changes that no entry records and no reader of the journalled state sees. *)
Lemma good_same s s1 :
  wf_state s -> jrnl s1 = jrnl s -> rest_eq s1 s -> stateObjects s1 = stateObjects s -> good s s1.
Proof.
  intros Hwf Hj Hr Ho. split.
  - apply undoes_equiv; [done|]. split; [done|]. intros a. unfold acct.
    rewrite Ho, (re_destruct _ _ Hr). reflexivity.
  - eapply wf_same; eauto using re_al, re_logSize.
Qed.

Lemma good_entry s s1 s' e :
  journals e s s1 -> stateObjects s1 = stateObjects s -> wf_state s1 ->
  revert_entry e s1 = Some s' -> rest_eq s' s -> stateObjects s' = stateObjects s -> good s s1.
Proof.
  intros Hj Ho Hwf Hrev Hr Ho'. split; [|done]. eapply undoes_entry; [done..|].
  split; [done|]. intros a. unfold acct. rewrite Ho', (re_destruct _ _ Hr). reflexivity.
Qed.

Lemma obj_GetCommittedState_spec o k s v o' s' :
  obj_GetCommittedState o k s = (v, o', s') ->
  v = committed (stateObjectsDestruct s) o k
  /\ obj_equiv (stateObjectsDestruct s) o' o
  /\ dirtyStorage o' = dirtyStorage o
  /\ exists e, s' = set_dbErr e s.
Proof.
  unfold obj_GetCommittedState, committed. intros H.
  assert (s = set_dbErr (dbErr s) s) as Hs by (by destruct s).
  assert (forall x, pendingStorage o !! k = None -> originStorage o !! k = None ->
     committed (stateObjectsDestruct s) o k = x ->
     obj_equiv (stateObjectsDestruct s) (set_originStorage (<[k := x]> (originStorage o)) o) o)
    as Hq.
  { intros x Hp Ho Hx.
    assert (forall j, committed (stateObjectsDestruct s)
       (set_originStorage (<[k := x]> (originStorage o)) o) j
       = committed (stateObjectsDestruct s) o j) as Hc.
    { intros j. destruct (decide (k = j)) as [<-|Hj].
      - rewrite Hx. unfold committed; simpl. by rewrite Hp, lookup_insert_eq.
      - unfold committed; simpl. by rewrite lookup_insert_ne. }
    split; try done. intros j. unfold current. by rewrite Hc. }
  destruct (pendingStorage o !! k) eqn:Ep; [simplify_eq; split_and!; eauto; reflexivity|].
  destruct (originStorage o !! k) eqn:Eo; [simplify_eq; split_and!; eauto; reflexivity|].
  unfold committed in Hq. rewrite Ep, Eo in Hq.
  destruct (stateObjectsDestruct s !! so_address o) eqn:Ed; [simplify_eq; split_and!; eauto|].
  destruct (r_Storage (so_address o) k) eqn:Er; simplify_eq; split_and!; eauto; try reflexivity.
  unfold setError. destruct (dbErr s); eauto.
Qed.

Lemma getStateObject_good a s r s1 : wf_state s -> getStateObject a s = (r, s1) -> good s s1.
Proof.
  intros Hwf E. destruct (getStateObject_found _ _ _ _ Hwf E) as [_ H].
  destruct r; [by eapply found_good|]. by destruct H as (? & ? & _).
Qed.

Ltac lookup_object s E Hf :=
  match goal with
  | |- context [getStateObject ?a s] =>
      let r := fresh "r" in let s1 := fresh "s1" in
      destruct (getStateObject a s) as [r s1] eqn:E;
      pose proof (getStateObject_good _ _ _ _ ltac:(eassumption) E);
      apply getStateObject_found in E as [E Hf]; [|eassumption]; destruct r
  end.

Ltac new_object s Hf :=
  match goal with
  | |- context [getOrNewStateObject ?a s] =>
      let o := fresh "o" in let s1 := fresh "s1" in let E := fresh "E" in
      destruct (getOrNewStateObject a s) as [o s1] eqn:E;
      apply getOrNewStateObject_found in E as Hf; [|eassumption]; clear E
  end.

Lemma GetCode_good a s : wf_state s -> good s (snd (GetCode a s)).
Proof.
  intros Hwf. unfold GetCode. lookup_object s E Hf; [|done]. unfold obj_Code.
  case_bool_decide as Hc; cbn [negb].
  2:{ eapply good_cache; [done|done|by split|done|reflexivity]. }
  destruct (CodeHash (so_data s0) =? EmptyCodeHash) eqn:Hh.
  { eapply good_cache; [done|done|by split|done|reflexivity]. }
  destruct (r_Code (so_address s0) (CodeHash (so_data s0))) as [code err] eqn:Hr.
  assert (obj_equiv (stateObjectsDestruct s1) (set_so_code code s0) s0) as Hq.
  { split; try done. unfold code_of; simpl. rewrite Hc, Hh, Hr.
    rewrite (bool_decide_true ([] = [])) by done. simpl. case_bool_decide; by subst. }
  unfold setError. destruct err, (dbErr s1) eqn:He; case_bool_decide; simpl; rewrite ?He; simpl;
    eapply good_cache; try done; by split.
Qed.

Lemma GetCodeSize_good a s : wf_state s -> good s (snd (GetCodeSize a s)).
Proof.
  intros Hwf. unfold GetCodeSize. lookup_object s E Hf; [|done]. unfold obj_CodeSize.
  case_bool_decide; cbn [negb]; [|done].
  destruct (CodeHash (so_data s0) =? EmptyCodeHash); [done|].
  destruct (r_CodeSize (so_address s0) (CodeHash (so_data s0))) as [n err].
  eapply good_trans; [done|]. pose proof (fo_wf _ _ _ _ Hf) as Hwf1.
  unfold setError. destruct err, (dbErr s1) eqn:He, (n =? 0); simpl; rewrite ?He; simpl;
    apply good_same; try done; by split.
Qed.

Lemma obj_getState_spec o k s p o' s' :
  obj_getState o k s = (p, o', s') ->
  p = (current (stateObjectsDestruct s) o k, committed (stateObjectsDestruct s) o k)
  /\ obj_equiv (stateObjectsDestruct s) o' o
  /\ dirtyStorage o' = dirtyStorage o
  /\ exists e, s' = set_dbErr e s.
Proof.
  unfold obj_getState. destruct (obj_GetCommittedState o k s) as [[v o1] s1] eqn:E.
  apply obj_GetCommittedState_spec in E as (-> & Hq & Hd & He).
  unfold current. rewrite Hd. by destruct (dirtyStorage o !! k); intros; simplify_eq.
Qed.

Lemma read_slot_good s a o s1 p (o' : stateObject) s2 :
  found s a o s1 -> obj_equiv (stateObjectsDestruct s1) o' o -> (exists e, s2 = set_dbErr e s1) ->
  good s (snd (p : Z, write_back a o' s2)).
Proof.
  intros Hf Hq [e ->]. eapply good_cache; [exact Hf|done|by split|done|done].
Qed.

Lemma GetCommittedState_good a k s : wf_state s -> good s (snd (GetCommittedState a k s)).
Proof.
  intros Hwf. unfold GetCommittedState. lookup_object s E Hf; [|done].
  destruct (obj_GetCommittedState s0 k s1) as [[v o'] s2] eqn:E2.
  apply obj_GetCommittedState_spec in E2 as (_ & Hq & _ & He).
  by eapply read_slot_good.
Qed.

Lemma GetStateAndCommittedState_good a k s :
  wf_state s -> good s (snd (GetStateAndCommittedState a k s)).
Proof.
  intros Hwf. unfold GetStateAndCommittedState. lookup_object s E Hf; [|done].
  destruct (obj_getState s0 k s1) as [[v o'] s2] eqn:E2.
  apply obj_getState_spec in E2 as (_ & Hq & _ & He).
  by eapply (read_slot_good _ _ _ _ 0).
Qed.

Lemma GetState_good a k s : wf_state s -> good s (snd (GetState a k s)).
Proof.
  intros Hwf. unfold GetState. lookup_object s E Hf; [|done].
  unfold obj_GetState. destruct (obj_getState s0 k s1) as [[[v v'] o'] s2] eqn:E2.
  apply obj_getState_spec in E2 as (_ & Hq & _ & He).
  by eapply read_slot_good.
Qed.

Lemma setBalance_undo D o v :
  obj_equiv D (obj_setBalance (Balance (so_data o)) (obj_setBalance v o)) o.
Proof. destruct o as [? ? [] ? ? ? ? ? ? ? ?]. by split. Qed.

Lemma set_balance_good s a o s1 v d s2 :
  found s a o s1 ->
  s2 = write_back a (obj_setBalance v o)
         (journal_append (balanceChange a (Balance (so_data o))) (set_delta d s1)) ->
  good s s2.
Proof.
  intros Hf ->. pose proof (fo_address _ _ _ _ Hf).
  eapply good_object; [exact Hf|by apply journals_append|by split|done|done| |].
  - by apply with_object_reverts.
  - apply setBalance_undo.
Qed.

Lemma touch_good s : forall a, wf_state s -> good s (touchChange_ a s).
Proof.
  intros a Hwf. unfold touchChange_. destruct (a =? ripemd).
  - eapply (good_entry _ _ _ (touchChange a)); [|done| |done|by split|done].
    + split; [done|]. by split.
    + eapply wf_same; eauto.
  - eapply (good_entry _ _ _ (touchChange a)); [|done| |done|by split|done].
    + by apply journals_append.
    + eapply wf_same; eauto.
Qed.

Lemma set_delta_same s : s = set_delta (delta s) s.
Proof. destruct s as [[] ? ? ? ? ? ? ? ? ? ? ? ? ? ? ? ?]. done. Qed.

Lemma AddBalance_good a v s : wf_state s -> good s (snd (AddBalance a v s)).
Proof.
  intros Hwf. unfold AddBalance. new_object s Hf. unfold obj_AddBalance.
  pose proof (fo_address _ _ _ _ Hf) as Ha.
  destruct (U256.IsZero v).
  - assert (forall t, good s1 t -> stateObjects t = stateObjects s1 ->
      good s (snd (Balance (so_data o), write_back a o t))) as Hwb.
    { intros t Ht Ho. eapply good_trans; [by eapply found_good|].
      eapply good_trans; [done|]. destruct Ht as [_ Hwft].
      replace (write_back a o t) with t; [by split; [apply undoes_refl|]|].
      unfold write_back. rewrite Ho, insert_id by (by apply fo_live in Hf). rewrite <- Ho.
      by destruct t. }
    assert (good s1 (set_delta (delta s1 + v) s1)) as Hd.
    { pose proof (fo_wf _ _ _ _ Hf). apply good_same; try done. }
    destruct (empty_ o); apply Hwb; try done.
    + eapply good_trans; [done|]. unfold obj_touch. apply touch_good, Hd.
    + unfold obj_touch, touchChange_. destruct (_ =? _); done.
  - eapply set_balance_good; [done|]. simpl. by rewrite Ha.
Qed.

Lemma SubBalance_good a v s : wf_state s -> good s (snd (SubBalance a v s)).
Proof.
  intros Hwf. unfold SubBalance. new_object s Hf. pose proof (fo_address _ _ _ _ Hf) as Ha.
  destruct (U256.IsZero v); [by eapply found_good|].
  eapply set_balance_good; [done|]. simpl. by rewrite Ha.
Qed.

Lemma SetBalance_good a v s : wf_state s -> good s (SetBalance a v s).
Proof.
  intros Hwf. unfold SetBalance. new_object s Hf. pose proof (fo_address _ _ _ _ Hf) as Ha.
  eapply set_balance_good; [done|]. simpl. rewrite Ha. by destruct s1 as [[] ? ? ? ? ? ? ? ? ? ? ? ? ? ? ? ?].
Qed.

Lemma SetNonce_good a n s : wf_state s -> good s (SetNonce a n s).
Proof.
  intros Hwf. unfold SetNonce. new_object s Hf. pose proof (fo_address _ _ _ _ Hf) as Ha.
  unfold obj_SetNonce. rewrite Ha.
  eapply good_object; [exact Hf|by apply journals_append|by split|done|done| |].
  - by apply with_object_reverts.
  - destruct o as [? ? [] ? ? ? ? ? ? ? ?]. by split.
Qed.

(** [SetCode] journals the cached code: it can be undone only when that is the
    code of the account. *)
Definition code_loaded (s : StateDB) (a : Z) : Prop :=
  forall o, acct s a = Some o -> keccak256 (so_code o) = CodeHash (so_data o).

Lemma SetCode_good a c s : wf_state s -> code_loaded s a -> good s (snd (SetCode a c s)).
Proof.
  intros Hwf Hc. unfold SetCode, getOrNewStateObject.
  assert (forall o s1, found s a o s1 -> keccak256 (so_code o) = CodeHash (so_data o) ->
    good s (write_back a (obj_setCode (keccak256 c) c o)
              (journal_append (codeChange (so_address o) (so_code o)) s1))) as Hgo.
  { intros o s1 Hf Hk. pose proof (fo_address _ _ _ _ Hf) as Ha. rewrite Ha.
    eapply good_object; [exact Hf|by apply journals_append|by split|done|done| |].
    - by apply with_object_reverts.
    - destruct o as [? ? [] ? ? ? ? ? ? ? ?]. simpl in *. rewrite Hk. by split. }
  lookup_object s E Hf.
  - apply Hgo; [done|]. apply Hc. done.
  - destruct Hf as (Hu & Hwf1 & Ha1). eapply Hgo; [|done].
    destruct (createObject_found a s1 _ _ Hwf1 Ha1 eq_refl) as [].
    split; [done..|]. by eapply undoes_trans.
Qed.

(** Setting the previous value with the committed value recorded at the write
    brings every slot back. *)
Lemma setState_undo D o o' k v :
  obj_equiv D o' o ->
  obj_equiv D (obj_setState k (current D o k) (committed D o k)
                 (obj_setState k v (committed D o k) o')) o.
Proof.
  intros Hq.
  assert (forall j, current D (obj_setState k (current D o k) (committed D o k)
            (obj_setState k v (committed D o k) o')) j = current D o j) as Hcur.
  { intros j. rewrite !current_setState.
    destruct (decide (k = j)) as [<-|]; [|by apply oe_current].
    replace (committed D (obj_setState k v (committed D o k) o') k) with (committed D o k).
    2:{ rewrite <- (oe_committed _ _ _ Hq k). unfold obj_setState. by destruct (_ =? _). }
    by destruct (Z.eqb_spec (current D o k) (committed D o k)). }
  revert Hcur. unfold obj_setState. destruct Hq.
  destruct (v =? _), (_ =? committed D o k); intros Hcur; by split.
Qed.

Lemma SetState_good a k v s : wf_state s -> good s (snd (SetState a k v s)).
Proof.
  intros Hwf. unfold SetState. new_object s Hf. pose proof (fo_address _ _ _ _ Hf) as Ha.
  unfold obj_SetState. destruct (obj_getState o k s1) as [[p o'] s2] eqn:E.
  apply obj_getState_spec in E as (-> & Hq & _ & [e ->]).
  assert (so_address o' = a) as Ha' by (by rewrite (oe_address _ _ _ Hq)).
  destruct (_ =? v).
  - eapply good_cache; [exact Hf|done|by split|done|done].
  - simpl. rewrite Ha'.
    eapply good_object; [exact Hf|by apply journals_append|by split|done| | |].
    + unfold obj_setState. by destruct (_ =? _).
    + by apply with_object_reverts.
    + by apply setState_undo.
Qed.

Lemma SelfDestruct_good a s : wf_state s -> good s (snd (SelfDestruct a s)).
Proof.
  intros Hwf. unfold SelfDestruct. lookup_object s E Hf; [|done].
  assert (forall o t, found s a o t ->
    good s (snd (Balance (so_data s0),
      if selfDestructed o then write_back a o t
      else write_back a (markSelfdestructed o) (journal_append (selfDestructChange a) t))))
    as Hmark.
  { intros o t Hft. simpl. destruct (selfDestructed o) eqn:Hs.
    - eapply good_cache; [exact Hft|done|by split|done|done].
    - pose proof (fo_address _ _ _ _ Hft).
      eapply good_object; [exact Hft|by apply journals_append|by split|done|done| |].
      + apply selfDestruct_reverts.
      + by split. }
  destruct (U256.IsZero (Balance (so_data s0))); simpl.
  - specialize (Hmark _ _ Hf). by destruct (selfDestructed s0).
  - pose proof (fo_address _ _ _ _ Hf) as Ha.
    set (o1 := obj_setBalance 0 s0).
    set (t1 := journal_append (balanceChange (so_address s0) (Balance (so_data s0)))
                 (set_delta (delta s1 - Balance (so_data s0)) s1)).
    assert (good s (write_back a o1 t1)) as [Hu Hw].
    { eapply set_balance_good; [exact Hf|]. unfold t1. by rewrite Ha. }
    assert (found s a o1 (write_back a o1 t1)) as Hf1.
    { split; [done| |done|done]. simpl. by rewrite lookup_insert_eq. }
    specialize (Hmark _ _ Hf1). simpl in Hmark.
    assert (forall o' t', write_back a o' (write_back a o1 t') = write_back a o' t') as Hww.
    { intros. unfold write_back. simpl. by rewrite insert_insert_eq. }
    change (selfDestructed (obj_setBalance 0 s0)) with (selfDestructed s0) in *.
    change (selfDestructed o1) with (selfDestructed s0) in Hmark.
    destruct (selfDestructed s0); simpl in *.
    + by rewrite Hww in Hmark.
    + replace (journal_append (selfDestructChange a) (write_back a o1 t1))
        with (write_back a o1 (journal_append (selfDestructChange a) t1)) in Hmark by done.
      by rewrite Hww in Hmark.
Qed.

Lemma SelfDestruct6780_good a s : wf_state s -> good s (snd (SelfDestruct6780 a s)).
Proof.
  intros Hwf. unfold SelfDestruct6780. lookup_object s E Hf; [|done].
  destruct (newContract s0); [|done]. eapply good_trans; [done|].
  pose proof (SelfDestruct_good a s1 (fo_wf _ _ _ _ Hf)) as Hs.
  by destruct (SelfDestruct a s1).
Qed.

Lemma SetTransientState_good a k v s : wf_state s -> good s (SetTransientState a k v s).
Proof.
  intros Hwf. unfold SetTransientState. destruct (_ =? v); [by split; [apply undoes_refl|]|].
  eapply (good_entry _ _ _ (transientStorageChange a k (GetTransientState a k s)));
    [by apply journals_append|done| |done| |done].
  - by eapply wf_same.
  - split; try done. intros b j. simpl. rewrite !Transient.Get_Set.
    case_decide; by simplify_eq.
Qed.

Lemma CreateAccount_good a s : wf_state s -> acct s a = None -> good s (CreateAccount a s).
Proof.
  intros Hwf Ha. unfold CreateAccount. destruct (createObject a s) as [o s1] eqn:E.
  by eapply found_good, createObject_found.
Qed.

Lemma CreateContract_good a s t : wf_state s -> CreateContract a s = Some t -> good s t.
Proof.
  intros Hwf. unfold CreateContract. lookup_object s E Hf; [|done].
  destruct (newContract s0) eqn:Hn; intros; simplify_eq; [done|].
  eapply good_object; [exact Hf|by apply journals_append|by split|done|by apply fo_address in Hf| |].
  - by apply with_object_reverts.
  - by split.
Qed.

Lemma CreateZombieIfDeleted_good a s : wf_state s -> good s (CreateZombieIfDeleted a s).
Proof.
  intros Hwf. unfold CreateZombieIfDeleted. lookup_object s E Hf; [done|].
  destruct Hf as (Hu & Hwf1 & Ha1). destruct (stateObjectsDestruct s1 !! a); [|done].
  eapply good_trans; [done|]. split.
  - apply (undoes_create s1 _ a (createZombieChange a)); [done|by apply journals_append|by split|done|done].
  - by eapply wf_state_update.
Qed.

Lemma AddLog_good l s : wf_state s -> good s (AddLog l s).
Proof.
  intros Hwf. pose proof (ws_logSize _ Hwf) as Hls. unfold AddLog.
  set (l' := set_LogIndex _ _). set (ls := default [] (logs s !! thash s)).
  assert (forall x, is_u64 x -> u64 (u64 (x + 1) - 1) = x) as Hwrap by (intros; go_lia).
  set (m := if Nat.eqb (length (ls ++ [l'])) 1 then delete (thash s) (<[thash s := ls ++ [l']]> (logs s))
            else <[thash s := take (length (ls ++ [l']) - 1) (ls ++ [l'])]>
                   (<[thash s := ls ++ [l']]> (logs s))).
  eapply (good_entry _ _
    (set_logSize (u64 (u64 (logSize s + 1) - 1)) (set_logs m
      (set_logSize (u64 (logSize s + 1)) (set_logs (<[thash s := ls ++ [l']]> (logs s))
         (journal_append (addLogChange (thash s)) s)))))
    (addLogChange (thash s))); [by apply journals_append|done| | | |done].
  - destruct Hwf. split; [done|done|]. apply u64_range.
  - cbn [revert_entry]. simpl. rewrite lookup_insert_eq. simpl. fold ls. fold l'.
    unfold m. destruct (Nat.eqb (length (ls ++ [l'])) 1); [done|].
    rewrite length_app. simpl. rewrite Nat.add_1_r. done.
  - split; try done; simpl; [|by apply Hwrap].
    intros h. unfold m. rewrite length_app; simpl.
    destruct (decide (thash s = h)) as [<-|Hne].
    + destruct ls eqn:Els; simpl.
      * rewrite lookup_delete_eq. fold ls. by rewrite Els.
      * rewrite Nat.add_1_r. simpl. rewrite lookup_insert_eq. simpl. fold ls. rewrite Els.
        by rewrite take_app_length.
    + destruct (Nat.eqb (length ls + 1) 1).
      * by rewrite lookup_delete_ne, lookup_insert_ne.
      * by rewrite !lookup_insert_ne.
Qed.

Lemma AddRefund_good g s : wf_state s -> good s (AddRefund g s).
Proof.
  intros Hwf. unfold AddRefund.
  eapply (good_entry _ _ _ (refundChange (refund s)));
    [by apply journals_append|done|by eapply wf_same|done|by split|done].
Qed.

Lemma SubRefund_good g s s1 : wf_state s -> SubRefund g s = Some s1 -> good s s1.
Proof.
  intros Hwf. unfold SubRefund. destruct (_ <? g); [done|]. intros [= <-].
  eapply (good_entry _ _ _ (refundChange (refund s)));
    [by apply journals_append|done|by eapply wf_same|done|by split|done].
Qed.

Lemma AddAddressToAccessList_good a s : wf_state s -> good s (AddAddressToAccessList a s).
Proof.
  intros Hwf. unfold AddAddressToAccessList.
  pose proof (DeleteAddress_AddAddress (al s) a) as Hd.
  pose proof (AddAddress_wf (al s) a (ws_al _ Hwf)) as Hw.
  unfold AddAddress in *. destruct (ContainsAddress (al s) a).
  - apply good_same; try done.
  - eapply (good_entry _ _ _ (accessListAddAccountChange a));
      [by apply journals_append|done| |done| |done].
    + destruct Hwf. by split.
    + split; try done. simpl in *. by apply Hd.
Qed.

Lemma AddSlotToAccessList_good a k s s1 :
  wf_state s -> AddSlotToAccessList a k s = Some s1 -> good s s1.
Proof.
  intros Hwf. unfold AddSlotToAccessList.
  destruct (AddSlot_wf (al s) a k (ws_al _ Hwf)) as (l & [am sm] & E & Hw). rewrite E.
  cbn [mbind option_bind]. intros [= <-].
  pose proof (DeleteSlot_AddSlot _ _ _ _ _ (ws_al _ Hwf) E) as D.
  assert (forall s', stateObjects s' = stateObjects s -> al s' = l -> logSize s' = logSize s ->
    wf_state s') as Hwf1 by (destruct Hwf; intros s' Ho Ha Hl; split; rewrite ?Ho, ?Ha, ?Hl; done).
  destruct am, sm; simpl in D.
  - destruct D as (l1 & D1 & D2 & _ & _). split; [|by apply Hwf1].
    split; [done|]. split; [done|].
    exists [accessListAddSlotChange a k; accessListAddAccountChange a]. eexists.
    split; [done|]. split; [simpl; by rewrite D1|].
    split; [by split|]. intros b. reflexivity.
  - by destruct D as (_ & _ & _ & ? & _).
  - eapply (good_entry _ _ _ (accessListAddSlotChange a k));
      [by apply journals_append|done|by apply Hwf1|simpl; by rewrite D|by split|done].
  - subst l. apply good_same; try done.
Qed.

Lemma ActivateWasm_good h m s : wf_state s -> good s (snd (ActivateWasm h m s)).
Proof.
  intros Hwf. assert (good s s) as Hs by (split; [apply undoes_refl|done]).
  unfold ActivateWasm. destruct (match _ with [] => false | _ => _ end); [done|].
  destruct (activatedWasms (arbExtraData s) !! h) eqn:E; [done|].
  eapply (good_entry _ _ _ (wasmActivation h)); [by apply journals_append|done| |done| |done].
  - by eapply wf_same.
  - split; try done. simpl. by rewrite delete_insert_id.
Qed.

Lemma RecordWasm_good e s f :
  wf_state s -> (e = CacheWasm f.1.1 f.1.2 f.2.1 f.2.2 \/ e = EvictWasm f.1.1 f.1.2 f.2.1 f.2.2) ->
  good s (set_jrnl (set_entries (e :: entries (jrnl s)) (jrnl s)) s).
Proof.
  intros Hwf [-> | ->].
  - eapply (good_entry _ _ _ (CacheWasm _ _ _ _)); [done|done|by eapply wf_same|done|by split|done].
  - set (s1 := set_jrnl _ s).
    assert (exists c, revert_entry (EvictWasm f.1.1 f.1.2 f.2.1 f.2.2) s1
      = Some (set_rustCalls c s1)) as [c Hc].
    { cbn [revert_entry]. case_bool_decide; [exists (rustCalls s1)|by eexists]. by destruct s1. }
    eapply (good_entry _ _ _ (EvictWasm _ _ _ _)); [done|done|by eapply wf_same|exact Hc|by split|done].
Qed.

(** ** The operations as data *)

Inductive op :=
| OExist (a : Z) | OEmpty (a : Z) | OGetBalance (a : Z) | OGetNonce (a : Z)
| OGetStorageRoot (a : Z) | OGetCode (a : Z) | OGetCodeSize (a : Z) | OGetCodeHash (a : Z)
| OGetState (a k : Z) | OGetCommittedState (a k : Z) | OGetStateAndCommittedState (a k : Z)
| OHasSelfDestructed (a : Z)
| OAddBalance (a v : Z) | OSubBalance (a v : Z) | OSetBalance (a : Z) (v : option Z)
| OExpectBalanceBurn (v : Z) | OExpectBalanceMint (v : Z)
| OSetNonce (a n : Z) | OSetCode (a : Z) (c : list Z) | OSetState (a k v : Z)
| OSelfDestruct (a : Z) | OSelfDestruct6780 (a : Z) | OSetTransientState (a k v : Z)
| OCreateAccount (a : Z) | OCreateContract (a : Z) | OCreateZombieIfDeleted (a : Z)
| OAddLog (l : Log) | OAddPreimage (h : Z) (p : list Z)
| OAddRefund (g : Z) | OSubRefund (g : Z)
| OAddAddressToAccessList (a : Z) | OAddSlotToAccessList (a k : Z)
| OActivateWasm (h : Z) (m : ActivatedWasm)
| ORecordCacheWasm (h v t : Z) (d : bool) | ORecordEvictWasm (h v t : Z) (d : bool)
| OSetStylusPages (open ever : Z) | OSetStylusPagesOpen (open : Z)
| OAddStylusPages (new : Z) | OAddStylusPagesEver (new : Z)
| OFilterTx | OClearTxFilter | OSetTxContext (h i : Z).

Definition exec (o : op) (s : StateDB) : option StateDB :=
  match o with
  | OExist a => Some (snd (Exist a s))
  | OEmpty a => Some (snd (Empty a s))
  | OGetBalance a => Some (snd (GetBalance a s))
  | OGetNonce a => Some (snd (GetNonce a s))
  | OGetStorageRoot a => Some (snd (GetStorageRoot a s))
  | OGetCode a => Some (snd (GetCode a s))
  | OGetCodeSize a => Some (snd (GetCodeSize a s))
  | OGetCodeHash a => Some (snd (GetCodeHash a s))
  | OGetState a k => Some (snd (GetState a k s))
  | OGetCommittedState a k => Some (snd (GetCommittedState a k s))
  | OGetStateAndCommittedState a k => Some (snd (GetStateAndCommittedState a k s))
  | OHasSelfDestructed a => Some (snd (HasSelfDestructed a s))
  | OAddBalance a v => Some (snd (AddBalance a v s))
  | OSubBalance a v => Some (snd (SubBalance a v s))
  | OSetBalance a v => Some (SetBalance a v s)
  | OExpectBalanceBurn v => ExpectBalanceBurn v s
  | OExpectBalanceMint v => ExpectBalanceMint v s
  | OSetNonce a n => Some (SetNonce a n s)
  | OSetCode a c => Some (snd (SetCode a c s))
  | OSetState a k v => Some (snd (SetState a k v s))
  | OSelfDestruct a => Some (snd (SelfDestruct a s))
  | OSelfDestruct6780 a => Some (snd (SelfDestruct6780 a s))
  | OSetTransientState a k v => Some (SetTransientState a k v s)
  | OCreateAccount a => Some (CreateAccount a s)
  | OCreateContract a => CreateContract a s
  | OCreateZombieIfDeleted a => Some (CreateZombieIfDeleted a s)
  | OAddLog l => Some (AddLog l s)
  | OAddPreimage h p => Some (AddPreimage h p s)
  | OAddRefund g => Some (AddRefund g s)
  | OSubRefund g => SubRefund g s
  | OAddAddressToAccessList a => Some (AddAddressToAccessList a s)
  | OAddSlotToAccessList a k => AddSlotToAccessList a k s
  | OActivateWasm h m => Some (snd (ActivateWasm h m s))
  | ORecordCacheWasm h v t d => Some (RecordCacheWasm h v t d s)
  | ORecordEvictWasm h v t d => Some (RecordEvictWasm h v t d s)
  | OSetStylusPages o e => Some (SetStylusPages o e s)
  | OSetStylusPagesOpen o => Some (SetStylusPagesOpen o s)
  | OAddStylusPages n => Some (snd (AddStylusPages n s))
  | OAddStylusPagesEver n => Some (AddStylusPagesEver n s)
  | OFilterTx => Some (FilterTx s)
  | OClearTxFilter => Some (ClearTxFilter s)
  | OSetTxContext h i => Some (SetTxContext h i s)
  end.

(** What the callers guarantee: [CreateAccount] is called for addresses without
    an account (it "assumes that the account did not previously exist"), and
    [SetCode] for accounts whose code is cached. *)
Definition allowed (o : op) (s : StateDB) : Prop :=
  match o with
  | OSetCode a _ => code_loaded s a
  | OCreateAccount a => acct s a = None
  | _ => True
  end.

Ltac simple_read Hwf :=
  match goal with
  | |- context [getStateObject ?a ?s] =>
      let r := fresh "r" in let s1 := fresh "s1" in let E := fresh "E" in
      destruct (getStateObject a s) as [[r|] s1] eqn:E; simpl;
      by apply getStateObject_good in E
  end.

Lemma exec_good o s s1 : wf_state s -> allowed o s -> exec o s = Some s1 -> good s s1.
Proof.
  intros Hwf Hal He. destruct o; cbn [exec] in He;
    try (injection He as <-); simpl in Hal;
    try (first [apply GetCode_good | apply GetCodeSize_good | apply GetState_good |
           apply GetCommittedState_good | apply GetStateAndCommittedState_good |
           apply AddBalance_good | apply SubBalance_good | apply SetBalance_good
           | apply SetNonce_good | apply SetCode_good | apply SetState_good |
           apply SelfDestruct_good | apply SelfDestruct6780_good | apply
           SetTransientState_good | apply CreateAccount_good | apply
           CreateZombieIfDeleted_good | apply AddLog_good | apply AddRefund_good
           | apply AddAddressToAccessList_good | apply ActivateWasm_good]; assumption);
    try (eapply CreateContract_good; eassumption);
    try (eapply SubRefund_good; eassumption);
    try (eapply AddSlotToAccessList_good; eassumption);
    try (unfold Exist, Empty, GetBalance, GetNonce, GetStorageRoot, GetCodeHash,
           HasSelfDestructed; simple_read Hwf);
    try (apply good_same; try done; by split).
  - unfold ExpectBalanceBurn in He. destruct (_ <? 0); simplify_eq. apply good_same; try done.
  - unfold ExpectBalanceMint in He. destruct (_ <? 0); simplify_eq. apply good_same; try done.
  - unfold AddPreimage. destruct (preimages s !! h); apply good_same; try done.
  - apply (RecordWasm_good _ s ((h, v), (t, d))); [done|by left].
  - apply (RecordWasm_good _ s ((h, v), (t, d))); [done|by right].
Qed.

(** ** [sort.Search] *)

Lemma search_loop_spec f n fuel i j :
  0 <= i <= j -> j <= n -> j - i <= Z.of_nat fuel ->
  (forall x y, 0 <= x <= y -> y < n -> f x = true -> f y = true) ->
  (forall x, 0 <= x < i -> f x = false) -> (forall x, j <= x < n -> f x = true) ->
  let r := search_loop fuel f i j in
  0 <= r <= n /\ (forall x, 0 <= x < r -> f x = false) /\ (forall x, r <= x < n -> f x = true).
Proof.
  intros Hij Hjn Hfuel Hmono. revert i j Hij Hjn Hfuel.
  induction fuel as [|fuel IH]; intros i j Hij Hjn Hfuel Hlo Hhi; simpl.
  { assert (i = j) as -> by lia. split; [lia|]. done. }
  destruct (Z.ltb_spec i j) as [Hlt|Hge].
  2:{ assert (i = j) as -> by lia. split; [lia|]. done. }
  set (h := (i + j) / 2). assert (i <= h < j) as Hh by (unfold h; Z.to_euclidean_division_equations; lia).
  destruct (f h) eqn:Ef.
  - apply IH; [lia|lia|lia|done|]. intros x Hx. apply (Hmono h x); [lia|lia|done].
  - apply IH; [lia|lia|lia| |done]. intros x Hx.
    destruct (f x) eqn:Ex; [|done]. rewrite (Hmono x h) in Ef; [done|lia|lia|done].
Qed.

Lemma Search_spec f n :
  0 <= n -> (forall x y, 0 <= x <= y -> y < n -> f x = true -> f y = true) ->
  0 <= Search n f <= n /\ (forall x, 0 <= x < Search n f -> f x = false)
  /\ (forall x, Search n f <= x < n -> f x = true).
Proof.
  intros Hn Hmono. unfold Search. apply (search_loop_spec f n); try done; try lia.
Qed.

(** ** Replaying the journal *)

Lemma with_object_frame a f s s' :
  (forall o, so_address (f o) = so_address o) -> with_object a f s = Some s' ->
  jrnl s' = jrnl s /\ delta s' = delta s /\ logSize s' = logSize s
  /\ ((forall b o, stateObjects s !! b = Some o -> so_address o = b) ->
      forall b o, stateObjects s' !! b = Some o -> so_address o = b).
Proof.
  intros Hf. unfold with_object. destruct (getStateObject a s) as [[o|] s1] eqn:E; [|done].
  intros [= <-]. apply getStateObject_reloads in E as (Ha & (m & e & -> & Hm) & Hl).
  split_and!; [done..|]. intros Hok b o'. simpl in *.
  assert (forall c o1, m !! c = Some o1 -> so_address o1 = c) as Hok'.
  { intros c o1 Hc. pose proof (Hm c) as Hmc. unfold acct, acct_in in Hmc. rewrite Hc in Hmc.
    destruct (stateObjects s !! c) eqn:Ec; [simplify_eq; eauto|].
    unfold base_acct in Hmc. destruct (stateObjectsDestruct s !! c); [done|].
    destruct (r_Account c) as [[]|]; by simplify_eq. }
  intros [[<- <-]|[_ ?]]%lookup_insert_Some; [|eauto]. rewrite Hf. eauto.
Qed.

Lemma revert_entry_frame e s s' :
  revert_entry e s = Some s' ->
  jrnl s' = jrnl s /\ delta s' = delta s /\ (is_u64 (logSize s) -> is_u64 (logSize s'))
  /\ ((forall b o, stateObjects s !! b = Some o -> so_address o = b) ->
      forall b o, stateObjects s' !! b = Some o -> so_address o = b).
Proof.
  assert (forall a f, (forall o, so_address (f o) = so_address o) ->
    with_object a f s = Some s' ->
    jrnl s' = jrnl s /\ delta s' = delta s /\ (is_u64 (logSize s) -> is_u64 (logSize s'))
    /\ ((forall b o, stateObjects s !! b = Some o -> so_address o = b) ->
        forall b o, stateObjects s' !! b = Some o -> so_address o = b)) as Hw.
  { intros a f Hf H. destruct (with_object_frame _ _ _ _ Hf H) as (? & ? & -> & ?). done. }
  destruct e; cbn [revert_entry]; intros H;
    try (by injection H as <-);
    try (by eapply Hw; [|exact H]; intros o; done).
  - injection H as <-. split_and!; [done..|]. simpl. intros Hok b o [_ ?]%lookup_delete_Some. eauto.
  - injection H as <-. split_and!; [done..|]. simpl. intros Hok b o [_ ?]%lookup_delete_Some. eauto.
  - destruct (getStateObject account s) as [[o|] s1] eqn:E.
    + eapply (Hw account (set_selfDestructed false)); [done|]. unfold with_object. by rewrite E.
    + injection H as <-. pose proof E as E'.
      apply getStateObject_reloads in E as (Ha & (m & e & -> & Hm) & Hl).
      split_and!; [done..|]. intros Hok b o Hb. simpl in *.
      pose proof (Hm b) as Hmb. unfold acct, acct_in in Hmb. rewrite Hb in Hmb.
      destruct (stateObjects s !! b) eqn:Eb; [simplify_eq; eauto|].
      unfold base_acct in Hmb. destruct (stateObjectsDestruct s !! b); [done|].
      destruct (r_Account b) as [[]|]; by simplify_eq.
  - eapply Hw; [|exact H]. intros o. unfold obj_setState. by destruct (_ =? _).
  - destruct (if Nat.eqb _ 1 then _ else _); simplify_eq/=. split_and!; [done..| |done].
    intros _. apply u64_range.
  - destruct (DeleteSlot (al s) address slot); by simplify_eq/=.
  - case_bool_decide; by simplify_eq.
Qed.

Lemma revert_loop_undo n s s' :
  (n <= length (entries (jrnl s)))%nat -> undo_list (take n (entries (jrnl s))) s = Some s' ->
  exists t, revert_loop n s = Some t /\ equiv t s'
    /\ entries (jrnl t) = drop n (entries (jrnl s))
    /\ validRevisions (jrnl t) = validRevisions (jrnl s)
    /\ nextRevisionId (jrnl t) = nextRevisionId (jrnl s)
    /\ delta t = delta s /\ (is_u64 (logSize s) -> is_u64 (logSize t))
    /\ ((forall b o, stateObjects s !! b = Some o -> so_address o = b) ->
        forall b o, stateObjects t !! b = Some o -> so_address o = b).
Proof.
  revert s s'. induction n as [|n IH]; intros s s' Hn Hu; simpl in *.
  { simplify_eq. exists s'. rewrite drop_0. done. }
  destruct (entries (jrnl s)) as [|e es] eqn:E; simpl in *; [lia|].
  destruct (revert_entry e s) as [s1|] eqn:Er; simpl in *; [|done].
  destruct (revert_entry_frame _ _ _ Er) as (Hj & Hd & Hl & Ho).
  set (s2 := set_jrnl (set_entries es (undirty e (jrnl s1))) s1).
  assert (equiv s1 s2) as Hq by (split; [by split|intros b; reflexivity]).
  assert (entries (jrnl s2) = es) as E2 by done.
  assert (validRevisions (jrnl s2) = validRevisions (jrnl s)
    /\ nextRevisionId (jrnl s2) = nextRevisionId (jrnl s)) as [V2 N2].
  { unfold s2; simpl. rewrite Hj. unfold undirty.
    destruct (dirtied e); [|done]. destruct (decr_delete _ _) as [d zero]. simpl.
    by destruct (zero && isZombie e). }
  destruct (undo_list_sim _ _ _ _ Hq Hu) as (s3 & Hu3 & Hq3).
  destruct (IH s2 s3) as (t & Ht & Hqt & Et & Vt & Nt & Dt & Lt & Ot); [rewrite E2; lia|by rewrite E2|].
  exists t. split; [done|]. split; [etrans; [done|by symmetry]|].
  rewrite Et, E2, Vt, Nt, Dt. split_and!; [done|done|done|exact Hd|tauto|].
  intros Hok. apply Ot. by apply Ho.
Qed.

(** ** Histories *)

(** A history of operations, with the states in which the snapshots that are
    still valid were taken.  [Finalise] and [Prepare] delimit transactions:
    the first invalidates every snapshot, and the second, which nothing
    journals, is applied when there is none. *)
Inductive reach : StateDB -> list (Z * StateDB) -> Prop :=
| reach_new : reach NewWithReader []
| reach_op s gs o s1 : reach s gs -> allowed o s -> exec o s = Some s1 -> reach s1 gs
| reach_snapshot s gs i s1 : reach s gs -> Snapshot s = (i, s1) -> reach s1 (gs ++ [(i, s)])
| reach_revert s gs1 i g gs2 s1 :
    reach s (gs1 ++ (i, g) :: gs2) -> RevertToSnapshot i s = Some s1 -> reach s1 gs1
| reach_finalise s gs b : reach s gs -> reach (Finalise b s) []
| reach_prepare s rules sender coinbase dst pre tl s1 :
    reach s [] -> Prepare rules sender coinbase dst pre tl s = Some s1 -> reach s1 [].

(** A revision of the journal remembers the state [ig] it was taken in. *)
Record remembers (s : StateDB) (r : revision) (ig : Z * StateDB) : Prop := {
  rm_id : id r = fst ig;
  rm_next : id r < nextRevisionId (jrnl s);
  rm_index : 0 <= journalIndex r <= length_ (jrnl s);
  rm_delta : rev_unexpectedBalanceDelta r = delta (snd ig);
  rm_wf : wf_state (snd ig);
  rm_undo : exists s', undo_list (take (Z.to_nat (length_ (jrnl s) - journalIndex r))
                                    (entries (jrnl s))) s = Some s' /\ equiv s' (snd ig)
}.

Definition ordered (r1 r2 : revision) : Prop := id r1 < id r2 /\ journalIndex r1 <= journalIndex r2.

Record invariant (s : StateDB) (gs : list (Z * StateDB)) : Prop := {
  inv_wf : wf_state s;
  inv_revs : Forall2 (remembers s) (validRevisions (jrnl s)) gs;
  inv_ordered : StronglySorted ordered (validRevisions (jrnl s))
}.

Lemma remembers_undoes s s1 r ig : undoes s s1 -> remembers s r ig -> remembers s1 r ig.
Proof.
  intros (V & N & es & s' & E & Hu & Hq) [Hid Hn Hi Hd Hw (t & Ht & Hqt)].
  assert (length_ (jrnl s1) = Z.of_nat (length es) + length_ (jrnl s)) as Hlen.
  { unfold length_. rewrite E, length_app. lia. }
  unfold length_ in *. split; try done; [by rewrite N|unfold length_ in *; lia|].
  destruct (undo_list_sim _ _ s' _ (symmetry Hq) Ht) as (t' & Ht' & Hqt').
  exists t'. unfold length_. rewrite Hlen, E.
  replace (Z.to_nat (Z.of_nat (length es) + Z.of_nat (length (entries (jrnl s))) - journalIndex r))
    with (length es + Z.to_nat (Z.of_nat (length (entries (jrnl s))) - journalIndex r))%nat by lia.
  rewrite take_app_add, undo_list_app, Hu. simpl. split; [done|].
  etrans; [|exact Hqt]. by symmetry.
Qed.

Lemma invariant_good s s1 gs : invariant s gs -> good s s1 -> invariant s1 gs.
Proof.
  intros [Hw Hr Ho] [Hu Hw1]. pose proof Hu as (V & _). split; [done| |by rewrite V].
  rewrite V. eapply Forall2_impl; [exact Hr|]. intros r ig. by apply remembers_undoes.
Qed.

Lemma sorted_snoc {A} (P : A -> A -> Prop) l x :
  StronglySorted P l -> Forall (fun y => P y x) l -> StronglySorted P (l ++ [x]).
Proof.
  induction 1 as [|y l Hs IH Hy]; simpl; intros Hx; [by repeat constructor|].
  inversion Hx; subst. constructor; [by apply IH|]. apply Forall_app. by repeat constructor.
Qed.

Lemma sorted_take {A} (P : A -> A -> Prop) l n :
  StronglySorted P l -> StronglySorted P (take n l).
Proof.
  intros Hs. revert n. induction Hs as [|x l Hs IH Hx]; intros [|n]; simpl; [constructor..|].
  constructor; [done|]. by apply Forall_take.
Qed.

Lemma sorted_lookup {A} (P : A -> A -> Prop) l i j x y :
  StronglySorted P l -> (i < j)%nat -> l !! i = Some x -> l !! j = Some y -> P x y.
Proof.
  intros Hs. revert i j. induction Hs as [|z l Hs IH Hz]; intros [|i] [|j] Hij Hi Hj;
    simplify_eq/=; try lia.
  - eapply (proj1 (Forall_lookup _ _) Hz); eauto.
  - eapply IH; [|done..]. lia.
Qed.

Lemma invariant_snapshot s gs i s1 :
  invariant s gs -> Snapshot s = (i, s1) -> invariant s1 (gs ++ [(i, s)]).
Proof.
  intros [Hw Hr Ho] [= <- <-].
  set (s1 := set_jrnl _ s). assert (equiv s s1) as Hq by (split; [by split|intros b; reflexivity]).
  assert (forall r ig, remembers s r ig -> remembers s1 r ig) as Hmono.
  { intros r ig [Hid Hn Hi Hd Hwf (t & Ht & Hqt)]. split; try done; simpl; [lia|].
    destruct (undo_list_sim _ _ _ _ Hq Ht) as (t' & Ht' & Hqt'). exists t'.
    split; [exact Ht'|]. etrans; [|exact Hqt]. by symmetry. }
  split; simpl.
  - by eapply wf_same.
  - apply Forall2_app; [by eapply Forall2_impl|]. constructor; [|constructor].
    split; simpl; try done; [lia|unfold length_; simpl; lia|].
    exists s1. unfold length_; simpl. rewrite Z.sub_diag. simpl. split; [done|]. by symmetry.
  - apply sorted_snoc; [done|]. apply Forall_forall. intros r Hin.
    apply list_elem_of_lookup in Hin as [k Hk].
    destruct (Forall2_lookup_l _ _ _ _ _ Hr Hk) as (ig & _ & Hrem).
    split; simpl; [apply Hrem|]. pose proof (rm_index _ _ _ Hrem). unfold length_ in *. simpl. lia.
Qed.

(** The binary search finds the revision of a valid snapshot. *)
Lemma RevertToSnapshot_unfold s gs1 i g gs2 :
  invariant s (gs1 ++ (i, g) :: gs2) ->
  exists r, validRevisions (jrnl s) !! length gs1 = Some r /\ remembers s r (i, g)
    /\ RevertToSnapshot i s =
       (t ← journal_revert (journalIndex r) (set_delta (rev_unexpectedBalanceDelta r) s);
        Some (set_jrnl (set_validRevisions (take (length gs1) (validRevisions (jrnl s)))
                (jrnl t)) t)).
Proof.
  intros [Hw Hr Ho]. set (revs := validRevisions (jrnl s)) in *.
  destruct (Forall2_lookup_r _ _ _ (length gs1) (i, g) Hr) as (r & Hrl & Hrem).
  { by rewrite lookup_app_r, Nat.sub_diag by lia. }
  exists r. split; [done|]. split; [done|].
  pose proof (rm_id _ _ _ Hrem) as Hid. simpl in Hid.
  assert (forall x y rx ry, (x < y)%nat -> revs !! x = Some rx -> revs !! y = Some ry ->
    id rx < id ry) as Hsorted.
  { intros x y rx ry Hxy Hx Hy. by destruct (sorted_lookup _ _ _ _ _ _ Ho Hxy Hx Hy). }
  set (f := fun j => match revs !! Z.to_nat j with Some r => i <=? id r | None => false end).
  assert (forall x, 0 <= x < Z.of_nat (length revs) -> exists rx, revs !! Z.to_nat x = Some rx
     /\ f x = (i <=? id rx)) as Hf.
  { intros x Hx. destruct (lookup_lt_is_Some_2 revs (Z.to_nat x)) as [rx Hrx]; [lia|].
    exists rx. split; [done|]. unfold f. by rewrite Hrx. }
  pose proof (lookup_lt_Some _ _ _ Hrl) as Hlen.
  destruct (Search_spec f (Z.of_nat (length revs))) as (S1 & S2 & S3); [lia| |].
  { intros x y Hxy Hy. destruct (Hf x) as (rx & Hrx & Efx); [lia|].
    destruct (Hf y) as (ry & Hry & Efy); [lia|]. rewrite Efx, Efy.
    destruct (decide (x = y)) as [->|]; [by simplify_eq|].
    pose proof (Hsorted (Z.to_nat x) (Z.to_nat y) rx ry ltac:(lia) Hrx Hry).
    rewrite !Z.leb_le. lia. }
  assert (Search (Z.of_nat (length revs)) f = Z.of_nat (length gs1)) as Hs.
  { assert (f (Z.of_nat (length gs1)) = true) as Hft.
    { unfold f. rewrite Nat2Z.id, Hrl. apply Z.leb_le. lia. }
    destruct (Z.lt_trichotomy (Search (Z.of_nat (length revs)) f) (Z.of_nat (length gs1)))
      as [Hlt|[?|Hgt]]; [|done|].
    - specialize (S3 (Search (Z.of_nat (length revs)) f) ltac:(lia)).
      destruct (Hf (Search (Z.of_nat (length revs)) f)) as (rx & Hrx & Efx); [lia|].
      rewrite Efx in S3. apply Z.leb_le in S3.
      assert (Z.to_nat (Search (Z.of_nat (length revs)) f) < length gs1)%nat as Hx by lia.
      pose proof (Hsorted _ _ _ _ Hx Hrx Hrl). lia.
    - rewrite S2 in Hft; [done|lia]. }
  unfold RevertToSnapshot. fold revs. fold f. rewrite Hs, Nat2Z.id, Hrl.
  cbn [mbind option_bind]. by rewrite (proj2 (Z.eqb_eq _ _) Hid).
Qed.

Lemma invariant_revert s gs1 i g gs2 :
  invariant s (gs1 ++ (i, g) :: gs2) ->
  exists s1, RevertToSnapshot i s = Some s1 /\ equiv s1 g /\ delta s1 = delta g
    /\ invariant s1 gs1.
Proof.
  intros Hinv. destruct (RevertToSnapshot_unfold _ _ _ _ _ Hinv) as (r & Hrl & Hrem & ->).
  destruct Hinv as [Hw Hr Ho]. destruct Hrem as [Hid Hn Hi Hd Hwg (s' & Hu & Hq)]. simpl in *.
  set (sd := set_delta (rev_unexpectedBalanceDelta r) s).
  assert (equiv s sd) as Hsd by (split; [by split|intros b; reflexivity]).
  set (n := Z.to_nat (length_ (jrnl s) - journalIndex r)) in *.
  destruct (undo_list_sim _ _ _ _ Hsd Hu) as (sd' & Hud & Hqd).
  destruct (revert_loop_undo n sd sd') as (t & Ht & Hqt & Et & Vt & Nt & Dt & Lt & Ot);
    [unfold n, length_; simpl; lia|done|].
  unfold journal_revert. change (length_ (jrnl sd)) with (length_ (jrnl s)). fold n. rewrite Ht. simpl.
  eexists. split; [done|].
  set (s1 := set_jrnl _ t). assert (equiv s1 t) as Hs1 by (split; [by split|intros b; reflexivity]).
  assert (equiv s1 g) as Hs1g.
  { etrans; [done|]. etrans; [done|]. etrans; [|exact Hq]. by symmetry. }
  split; [done|]. split; [by rewrite <- Hd|].
  assert (length_ (jrnl s1) = journalIndex r) as Hlen.
  { unfold length_, s1. simpl. rewrite Et, length_drop. unfold n, length_. simpl. unfold length_ in Hi. lia. }
  split.
  - destruct Hw as [W1 W2 W3]. split; [by apply Ot| |by apply Lt].
    rewrite (re_al _ _ (eq_rest _ _ Hs1g)). apply Hwg.
  - simpl. apply Forall2_take with (n := length gs1) in Hr as Hr1.
    rewrite take_app_length in Hr1.
    assert (Forall (fun r' => journalIndex r' <= journalIndex r) (take (length gs1) (validRevisions (jrnl s)))) as Hle.
    { apply Forall_lookup. intros j rj Hj. apply lookup_take_Some in Hj as [Hj Hjl].
      by destruct (sorted_lookup _ _ _ _ _ _ Ho Hjl Hj Hrl). }
    apply Forall2_same_length_lookup. split; [by eapply Forall2_length|].
    intros j rj ig Hj Hg. pose proof (Forall2_lookup_lr _ _ _ _ _ _ Hr1 Hj Hg) as Hrem.
    pose proof (proj1 (Forall_lookup _ _) Hle _ _ Hj) as Hjle. simpl in Hjle.
    destruct Hrem as [Jid Jn Ji Jd Jw (tj & Jt & Jq)].
    split; try done; [by simpl; rewrite Nt|rewrite Hlen; lia|].
    rewrite Hlen. unfold s1 at 1. simpl. rewrite Et.
    replace (Z.to_nat (length_ (jrnl s) - journalIndex rj))
      with (n + Z.to_nat (journalIndex r - journalIndex rj))%nat in Jt by (unfold n; lia).
    rewrite <- take_take_drop, undo_list_app, Hu in Jt. simpl in Jt.
    assert (equiv s' s1) as Hs's1 by (etrans; [exact Hq|by symmetry]).
    destruct (undo_list_sim _ _ _ _ Hs's1 Jt) as (tj' & Jt' & Jq').
    exists tj'. split; [done|]. etrans; [|done]. by symmetry.
  - simpl. by apply sorted_take.
Qed.

(** ** Transaction boundaries *)

Lemma foldl_inv {A B} (P : A -> Prop) (f : A -> B -> A) l a :
  (forall a b, P a -> P (f a b)) -> P a -> P (foldl f a l).
Proof. intros Hf. revert a. induction l; simpl; eauto. Qed.

Lemma obj_GetCommittedState_frame o k s v o' s' :
  obj_GetCommittedState o k s = (v, o', s') ->
  so_address o' = so_address o /\ stateObjects s' = stateObjects s /\ al s' = al s
  /\ logSize s' = logSize s /\ jrnl s' = jrnl s /\ validRevisions (jrnl s') = validRevisions (jrnl s).
Proof.
  intros E. apply obj_GetCommittedState_spec in E as (_ & Hq & _ & [e ->]).
  split; [by apply (oe_address _ _ _ Hq)|done].
Qed.

Lemma obj_finalise_frame o s o' s' :
  obj_finalise o s = (o', s') ->
  so_address o' = so_address o /\ stateObjects s' = stateObjects s /\ al s' = al s
  /\ logSize s' = logSize s.
Proof.
  unfold obj_finalise.
  assert (forall l o1 s1 o2 s2, foldl finalise_slot (o1, s1) l = (o2, s2) ->
    so_address o2 = so_address o1 /\ stateObjects s2 = stateObjects s1 /\ al s2 = al s1
    /\ logSize s2 = logSize s1) as Hl.
  { induction l as [|[k v] l IH]; intros o1 s1 o2 s2; simpl; [by intros [= <- <-]|].
    destruct (uncommittedStorage o1 !! k) as [x|].
    - destruct (x =? v); intros E; apply IH in E as (-> & -> & -> & ->); done.
    - destruct (obj_GetCommittedState o1 k s1) as [[w o3] s3] eqn:E3.
      apply obj_GetCommittedState_frame in E3 as (Ha & Ho & Hal & Hls & _).
      intros E. apply IH in E as (-> & -> & -> & ->). done. }
  destruct (foldl finalise_slot (o, s) _) as [o1 s1] eqn:E. apply Hl in E as (Ha & Ho & Hal & Hls).
  by intros [= <- <-].
Qed.

Lemma finalise_addr_wf b s a : wf_state s -> wf_state (finalise_addr b s a).
Proof.
  intros Hwf. unfold finalise_addr. destruct (stateObjects s !! a) as [o|] eqn:Eo; [|done].
  pose proof (ws_addr _ Hwf _ _ Eo) as Ha.
  destruct (selfDestructed o || _).
  - assert (forall s1, stateObjects s1 = delete (so_address o) (stateObjects s) ->
      al s1 = al s -> logSize s1 = logSize s -> wf_state s1) as Hd.
    { destruct Hwf as [W1 W2 W3]. intros s1 Ho Hal Hls. split; rewrite ?Ho, ?Hal, ?Hls; [|done..].
      intros c o' [_ ?]%lookup_delete_Some. eauto. }
    simpl. destruct (stateObjectsDestruct s !! so_address o); by apply Hd.
  - destruct (obj_finalise o s) as [o1 s1] eqn:Ef.
    apply obj_finalise_frame in Ef as (Ha1 & Ho1 & Hal & Hls).
    eapply (wf_state_update s _ a o1); [done|simpl; by rewrite Ho1|congruence|done|done].
Qed.

Lemma Finalise_wf b s : wf_state s -> wf_state (Finalise b s).
Proof.
  intros Hwf. unfold Finalise, clearJournalAndRefund.
  set (t := foldl _ s _). apply (wf_same t); [|done..].
  apply (foldl_inv wf_state); [|done]. intros t' a. apply finalise_addr_wf.
Qed.

Lemma prepare_tuple_wf l el :
  AccessList.wf l -> exists l', prepare_tuple (Some l) el = Some l' /\ AccessList.wf l'.
Proof.
  intros Hw. unfold prepare_tuple. cbn [mbind option_bind].
  apply (AddAddress_wf _ (fst el)) in Hw. revert Hw.
  generalize (fst (AddAddress l (fst el))). clear l.
  induction (snd el) as [|k ks IH]; intros l Hw; simpl; [eauto|].
  destruct (AddSlot_wf l (fst el) k Hw) as (l' & fl & -> & Hw'). simpl. eauto.
Qed.

(** [Prepare] panics only when both access-event schemes are switched on. *)
Lemma Prepare_wf rules sender coinbase dst pre tl s :
  wf_state s -> IsEIP2929 rules && IsEIP4762 rules = false ->
  exists s1, Prepare rules sender coinbase dst pre tl s = Some s1 /\ wf_state s1
    /\ validRevisions (jrnl s1) = validRevisions (jrnl s).
Proof.
  intros Hwf Hr. unfold Prepare. rewrite Hr. destruct (IsEIP2929 rules); simpl.
  2:{ eexists. split; [done|]. split; [by eapply wf_same|done]. }
  set (l0 := foldl _ _ pre).
  assert (AccessList.wf l0) as Hl0.
  { apply foldl_inv; [intros; by apply AddAddress_wf|].
    destruct dst; repeat apply AddAddress_wf; apply AccessList.wf_new. }
  assert (exists l, foldl prepare_tuple (Some l0) tl = Some l /\ AccessList.wf l) as (l & -> & Hl).
  { clearbody l0. revert l0 Hl0. induction tl as [|el tl IH]; intros l0 Hl0; cbn [foldl]; [eauto|].
    destruct (prepare_tuple_wf l0 el Hl0) as (l1 & -> & Hl1). eauto. }
  simpl. eexists. split; [done|]. split; [|done]. destruct Hwf as [W1 W2 W3].
  split; simpl; [done| |done]. destruct (IsShanghai rules); [by apply AddAddress_wf|done].
Qed.

Lemma reach_invariant s gs : reach s gs -> invariant s gs.
Proof.
  induction 1 as [|s gs o s1 _ IH Hal He|s gs i s1 _ IH Hs|s gs1 i g gs2 s1 _ IH Hr
    |s gs b _ IH|s rules sender coinbase dst pre tl s1 _ IH Hp].
  - split; [|constructor..]. split; simpl; [done|apply AccessList.wf_new|done].
  - eapply invariant_good; [done|]. eapply exec_good; [apply IH|done..].
  - by eapply invariant_snapshot.
  - destruct (invariant_revert _ _ _ _ _ IH) as (t & Ht & _ & _ & Hinv). by simplify_eq.
  - split; [apply Finalise_wf, IH|constructor..].
  - destruct (IsEIP2929 rules && IsEIP4762 rules) eqn:Hb;
      [unfold Prepare in Hp; by rewrite Hb in Hp|].
    destruct (Prepare_wf rules sender coinbase dst pre tl s (inv_wf _ _ IH) Hb)
      as (t & Ht & Hw & Hv). simplify_eq.
    destruct IH as [_ Hr _]. apply Forall2_nil_inv_r in Hr.
    split; [done|rewrite Hv, Hr; constructor..].
Qed.
End Revert.

(** * Properties *)

(** A concrete environment: the reference 256-bit arithmetic, a toy hash and a
    database that holds one account with code and one storage slot. *)
Definition toy_hasher : Hasher := {| keccak256 bs := 1000 + foldl Z.add 0 bs |}.
Definition toy_reader : Reader := {|
  r_Account a := if a =? 5 then Ok (Some (mkAccount 1 100 7 1003)) else Ok None;
  r_Storage a k := if (a =? 5) && (k =? 1) then Ok 42 else Ok 0;
  r_Code a h := if a =? 5 then ([1; 2], None) else ([], None);
  r_CodeSize a h := if a =? 5 then (2, None) else (0, None);
  db_ActivatedAsm t h := [];
  LocalTarget := "amd64"%string
|}.

(** C10. Whatever allowed operations, nested snapshots, reverts and transaction ends led to
    a state, reverting to any snapshot that is still valid does not panic and
    gives a state equivalent to the one the snapshot was taken in: same accounts,
    balances, nonces, code, storage, self-destruct and new-contract flags,
    refund, logs, access list, transient storage and activated programs, and
    the same unexpected balance delta.  Every operation is [allowed] but for two:
    [CreateAccount] of an address that has an account already, which its comment excludes,
    and [SetCode] of an account whose code is in the database and was not read before: the
    journal then records empty code, and reverting loses the code (Example
    [StateFinalise.SetCode_revert_needs_loaded_code]). *)
Theorem revert_to_snapshot_restores {U : U256.Ops} {HS : Hasher} {R : Reader}
  (s : StateDB) (gs : list (Z * StateDB)) (i : Z) (g : StateDB)
  (Hreach : reach s gs) (Hin : (i, g) ∈ gs) :
  exists s', RevertToSnapshot i s = Some s' /\ equiv s' g /\ delta s' = delta g.
Proof.
  apply list_elem_of_split in Hin as (gs1 & gs2 & ->).
  apply reach_invariant in Hreach.
  destruct (invariant_revert _ _ _ _ _ Hreach) as (s' & Hs & Hq & Hd & _). eauto.
Qed.

Definition toy_ops1 : list op :=
  [OAddBalance 5 10; OSetState 5 1 43; OGetCode 5; OSetTransientState 5 1 2].
Definition toy_ops2 : list op :=
  [OSetState 5 1 44; OSetState 5 2 1; OAddBalance 6 3; OSelfDestruct 5; OSetNonce 5 9;
   OSetCode 5 [9]; OAddSlotToAccessList 5 1; OAddLog (mkLog 5 [] [] 0 0 0 0 0 0);
   OAddRefund 77; OSetTransientState 5 1 0].

(** Running operations with the callers' guarantees checked. *)
Definition allowed_b {HS : Hasher} {R : Reader} (o : op) (s : StateDB) : bool :=
  match o with
  | OSetCode a _ =>
      match acct s a with
      | Some ob => keccak256 (so_code ob) =? CodeHash (so_data ob)
      | None => true
      end
  | OCreateAccount a => match acct s a with None => true | Some _ => false end
  | _ => true
  end.

Fixpoint run {U : U256.Ops} {HS : Hasher} {R : Reader} (ops : list op) (s : StateDB) :
    option StateDB :=
  match ops with
  | [] => Some s
  | o :: ops => if allowed_b o s then s ← exec o s; run ops s else None
  end.

Lemma run_reach {U : U256.Ops} {HS : Hasher} {R : Reader} ops s gs s' :
  reach s gs -> run ops s = Some s' -> reach s' gs.
Proof.
  revert s. induction ops as [|o ops IH]; intros s Hr; simpl; [by intros [= <-]|].
  destruct (allowed_b o s) eqn:Hb; [|done].
  destruct (exec o s) as [s1|] eqn:He; simpl; [|done]. apply IH.
  eapply reach_op; [done| |done].
  destruct o; simpl in *; try done.
  - intros ob Hob. rewrite Hob in Hb. by apply Z.eqb_eq.
  - by destruct (acct s a).
Qed.

Lemma revert_to_snapshot_restores_witness :
  let U := U256.reference in let HS := toy_hasher in let R := toy_reader in
  exists s1 s2 s3 s', run toy_ops1 NewWithReader = Some s1 /\ Snapshot s1 = (0, s2)
    /\ run toy_ops2 s2 = Some s3
    /\ RevertToSnapshot 0 s3 = Some s' /\ fst (GetBalance 5 s3) = 0 /\ fst (GetBalance 5 s') = 110.
Proof.
  intros U HS R.
  destruct (run toy_ops1 NewWithReader) as [s1|] eqn:E1; [|vm_compute in E1; discriminate].
  destruct (Snapshot s1) as [i s2] eqn:Es.
  destruct (run toy_ops2 s2) as [s3|] eqn:E2.
  2:{ vm_compute in E1. injection E1 as <-. vm_compute in Es. injection Es as <- <-.
      vm_compute in E2. discriminate. }
  assert (reach s3 [(i, s1)]) as Hreach.
  { apply (run_reach toy_ops2 s2); [|exact E2]. apply (reach_snapshot s1 []); [|exact Es].
    exact (run_reach _ _ _ _ reach_new E1). }
  destruct (revert_to_snapshot_restores s3 [(i, s1)] i s1 Hreach) as (s' & Hs' & _ & _);
    [by left|].
  exists s1, s2, s3, s'.
  vm_compute in E1. injection E1 as <-. vm_compute in Es. injection Es as <- <-.
  vm_compute in E2. injection E2 as <-.
  split; [reflexivity|]. split; [reflexivity|]. split; [reflexivity|].
  split; [exact Hs'|]. split; [reflexivity|].
  vm_compute in Hs'. injection Hs' as <-. reflexivity.
Defined.
