(* ===== verification/StateFinalise.v ===== *)
(** The end of a transaction ([StateDB.Finalise]) and the bookkeeping of the
    total balance ([unexpectedBalanceDelta]). *)

From stdpp Require Import base gmap list numbers option sets strings fin_maps.
From S2P Require Import Prelude Params Uint256 AccessList State StateRevert.
Import AccessList.
Open Scope Z_scope.

Section Finalise.
Context {U : U256.Ops} {HS : Hasher} {R : Reader}.

(** ** One object *)

(** Everything [finalise] of an object keeps. *)
Definition same_account (o o' : stateObject) : Prop :=
  so_address o' = so_address o /\ so_data o' = so_data o /\ so_code o' = so_code o
  /\ so_origin o' = so_origin o /\ selfDestructed o' = selfDestructed o
  /\ dirtyCode o' = dirtyCode o.

(** States that differ only in the memoised error. *)
Definition only_err (s s' : StateDB) : Prop := exists e, s' = set_dbErr e s.

Lemma only_err_refl s : only_err s s.
Proof. exists (dbErr s). by destruct s. Qed.

Lemma only_err_trans s1 s2 s3 : only_err s1 s2 -> only_err s2 s3 -> only_err s1 s3.
Proof. intros [e ->] [e' ->]. by exists e'. Qed.

Lemma committed_pending D o k v j :
  committed D (set_pendingStorage (<[k := v]> (pendingStorage o)) o) j
  = if decide (k = j) then v else committed D o j.
Proof.
  unfold committed; simpl. destruct (decide (k = j)) as [<-|].
  - by rewrite lookup_insert_eq.
  - by rewrite lookup_insert_ne.
Qed.

Lemma GetCommittedState_same o k s v o' s' :
  obj_GetCommittedState o k s = (v, o', s') ->
  same_account o o' /\ only_err s s' /\ dirtyStorage o' = dirtyStorage o
  /\ uncommittedStorage o' = uncommittedStorage o
  /\ forall j, committed (stateObjectsDestruct s) o' j = committed (stateObjectsDestruct s) o j.
Proof.
  intros E. pose proof E as E'.
  apply obj_GetCommittedState_spec in E' as (-> & Hq & Hd & He).
  split; [|split; [done|split; [done|split; [by destruct Hq|by destruct Hq]]]].
  unfold obj_GetCommittedState in E. unfold same_account.
  destruct (pendingStorage o !! k); [by simplify_eq|].
  destruct (originStorage o !! k); [by simplify_eq|].
  destruct (stateObjectsDestruct s !! so_address o); [by simplify_eq|].
  destruct (r_Storage (so_address o) k); by simplify_eq.
Qed.

Lemma finalise_slot_spec o s k v o' s' :
  finalise_slot (o, s) (k, v) = (o', s') ->
  same_account o o' /\ only_err s s'
  /\ forall j, committed (stateObjectsDestruct s) o' j
       = if decide (k = j) then v else committed (stateObjectsDestruct s) o j.
Proof.
  unfold finalise_slot. destruct (uncommittedStorage o !! k) as [x|].
  - destruct (x =? v); intros [= <- <-];
      (split; [done|]; split; [apply only_err_refl|]; intros j;
       first [apply committed_pending
             |apply (committed_pending _ (set_uncommittedStorage (delete k (uncommittedStorage o)) o))]).
  - destruct (obj_GetCommittedState o k s) as [[w o1] s1] eqn:E.
    apply GetCommittedState_same in E as (Ha & He & _ & _ & Hc).
    intros [= <- <-]. split; [done|]. split; [done|]. intros j. rewrite <- Hc.
    unfold committed; simpl. destruct (decide (k = j)) as [<-|].
    + by rewrite lookup_insert_eq.
    + by rewrite lookup_insert_ne.
Qed.

Lemma same_account_trans o1 o2 o3 : same_account o1 o2 -> same_account o2 o3 -> same_account o1 o3.
Proof. unfold same_account. intros (?&?&?&?&?&?) (?&?&?&?&?&?). split_and!; congruence. Qed.

Lemma finalise_slots_spec l o s o' s' :
  NoDup (l.*1) -> foldl finalise_slot (o, s) l = (o', s') ->
  same_account o o' /\ only_err s s'
  /\ forall j, committed (stateObjectsDestruct s) o' j
       = default (committed (stateObjectsDestruct s) o j) ((list_to_map l : gmap Z Z) !! j).
Proof.
  revert o s. induction l as [|[k v] l IH]; intros o s Hnd; cbn [foldl].
  { intros [= <- <-]. split; [done|]. split; [apply only_err_refl|done]. }
  apply NoDup_cons in Hnd as [Hk Hnd].
  destruct (finalise_slot (o, s) (k, v)) as [o1 s1] eqn:E1.
  apply finalise_slot_spec in E1 as (Ha1 & He1 & Hc1). intros E.
  apply IH in E as (Ha & He & Hc); [|done].
  split; [by eapply same_account_trans|]. split; [by eapply only_err_trans|].
  destruct He1 as [e1 ->]. intros j. simpl in Hc. rewrite Hc, Hc1. simpl.
  destruct (decide (k = j)) as [<-|Hkj].
  - rewrite lookup_insert_eq. simpl. by rewrite not_elem_of_list_to_map_1.
  - by rewrite lookup_insert_ne.
Qed.

(** Every dirty slot becomes the committed value; nothing else changes value. *)
Lemma obj_finalise_spec o s o' s' :
  obj_finalise o s = (o', s') ->
  same_account o o' /\ only_err s s' /\ dirtyStorage o' = ∅ /\ newContract o' = false
  /\ forall k, committed (stateObjectsDestruct s) o' k = current (stateObjectsDestruct s) o k.
Proof.
  unfold obj_finalise. destruct (foldl finalise_slot (o, s) _) as [o1 s1] eqn:E.
  apply finalise_slots_spec in E as (Ha & He & Hc); [|apply NoDup_fst_map_to_list].
  intros [= <- <-]. split; [done|]. split; [done|]. split; [done|]. split; [done|].
  intros k. specialize (Hc k). rewrite list_to_map_to_list in Hc.
  unfold current. rewrite <- Hc. done.
Qed.

(** ** One address, then all of them *)

(** The deletion condition of [Finalise]. *)
Definition deletes (b : bool) (j : journal) (a : Z) (o : stateObject) : bool :=
  selfDestructed o
  || (b && empty_ o && negb (default 0 (zombieEntries j !! a) =? default 0 (dirties j !! a))).

(** What [Finalise] makes of the object at a dirty address. *)
Definition finalised (b : bool) (s s' : StateDB) (a : Z) (o : stateObject) : Prop :=
  if deletes b (jrnl s) a o then
    stateObjects s' !! a = None /\ mutations s' !! a = Some (mkMutation deletion false)
    /\ stateObjectsDestruct s' !! a = Some (default o (stateObjectsDestruct s !! a))
  else
    exists o', stateObjects s' !! a = Some o' /\ mutations s' !! a = Some (mkMutation update false)
      /\ stateObjectsDestruct s' !! a = stateObjectsDestruct s !! a
      /\ same_account o o' /\ dirtyStorage o' = ∅ /\ newContract o' = false
      /\ forall k, committed (stateObjectsDestruct s') o' k = current (stateObjectsDestruct s) o k.

(** The parts of the state at address [a] that [Finalise] works on. *)
Definition same_at (s s' : StateDB) (a : Z) : Prop :=
  stateObjects s' !! a = stateObjects s !! a /\ mutations s' !! a = mutations s !! a
  /\ stateObjectsDestruct s' !! a = stateObjectsDestruct s !! a.

Lemma same_at_trans s1 s2 s3 a : same_at s1 s2 a -> same_at s2 s3 a -> same_at s1 s3 a.
Proof. unfold same_at. intros (?&?&?) (?&?&?). split_and!; congruence. Qed.

Lemma committed_D D D' o k :
  D !! so_address o = D' !! so_address o -> committed D o k = committed D' o k.
Proof. unfold committed. by intros ->. Qed.

Lemma finalise_addr_spec b s a :
  wf_state s ->
  jrnl (finalise_addr b s a) = jrnl s
  /\ (forall c, c <> a -> same_at s (finalise_addr b s a) c)
  /\ match stateObjects s !! a with
     | None => finalise_addr b s a = s
     | Some o => finalised b s (finalise_addr b s a) a o
     end.
Proof.
  intros Hwf. unfold finalised, deletes, finalise_addr, markDelete, markUpdate, mark.
  destruct (stateObjects s !! a) as [o|] eqn:Eo; [|by split_and!].
  pose proof (ws_addr _ Hwf _ _ Eo) as Ha.
  destruct (selfDestructed o || _) eqn:Hdel.
  - simpl. rewrite Ha. destruct (stateObjectsDestruct s !! a) eqn:Ed.
    + simpl. split_and!; [done| |by rewrite lookup_delete_eq|by rewrite lookup_insert_eq|done].
      intros c Hc. unfold same_at; simpl.
      by rewrite lookup_delete_ne, lookup_insert_ne by done.
    + simpl. split_and!; [done| |by rewrite lookup_delete_eq|by rewrite lookup_insert_eq
        |by rewrite lookup_insert_eq].
      intros c Hc. unfold same_at; simpl.
      by rewrite lookup_delete_ne, !lookup_insert_ne by done.
  - destruct (obj_finalise o s) as [o1 s1] eqn:Ef.
    apply obj_finalise_spec in Ef as (Hsa & [e ->] & Hd & Hn & Hc). simpl.
    split_and!; [done| |].
    + intros c Hne. unfold same_at; simpl. by rewrite !lookup_insert_ne by done.
    + exists o1. rewrite !lookup_insert_eq. done.
Qed.

Lemma foldl_finalise b l s :
  wf_state s -> NoDup l ->
  let s' := foldl (finalise_addr b) s l in
  jrnl s' = jrnl s
  /\ (forall a, a ∉ l -> same_at s s' a)
  /\ forall a, a ∈ l -> match stateObjects s !! a with
                        | None => same_at s s' a
                        | Some o => finalised b s s' a o
                        end.
Proof.
  revert s. induction l as [|x l IH]; intros s Hwf Hnd; cbn [foldl].
  { split; [done|]. split; [done|]. intros a Ha. by apply elem_of_nil in Ha. }
  apply NoDup_cons in Hnd as [Hx Hnd].
  destruct (finalise_addr_spec b s x Hwf) as (Hj & Hoth & Hfin).
  destruct (IH (finalise_addr b s x)) as (Hj' & Hout & Hin); [by apply finalise_addr_wf|done|].
  set (s1 := finalise_addr b s x) in *. set (s' := foldl _ s1 l) in *.
  split; [congruence|]. split.
  - intros a [Hax Hal]%not_elem_of_cons. eapply same_at_trans; [by apply Hoth|by apply Hout].
  - intros a [->|Hal]%elem_of_cons.
    + destruct (Hout x Hx) as (O1 & O2 & O3).
      destruct (stateObjects s !! x) as [o|] eqn:Eo.
      2:{ unfold same_at in *. rewrite Hfin in *. split_and!; congruence. }
      unfold finalised in *. destruct (deletes b (jrnl s) x o).
      * rewrite O1, O2, O3. done.
      * destruct Hfin as (o' & F1 & F2 & F3 & F4 & F5 & F6 & F7). exists o'.
        rewrite O1, O2, O3. split_and!; try done. intros k. rewrite <- F7.
        apply committed_D. destruct F4 as (-> & _). by rewrite (ws_addr _ Hwf _ _ Eo).
    + assert (a <> x) as Hne by (intros ->; done).
      destruct (Hoth a Hne) as (O1 & O2 & O3). specialize (Hin a Hal). rewrite O1 in Hin.
      destruct (stateObjects s !! a) as [o|] eqn:Eo.
      2:{ eapply same_at_trans; [by apply Hoth|done]. }
      unfold finalised in *. rewrite Hj in Hin. destruct (deletes b (jrnl s) a o).
      * by rewrite <- O3.
      * destruct Hin as (o' & F1 & F2 & F3 & F4 & F5 & F6 & F7). exists o'.
        split_and!; try done; [congruence|]. intros k. rewrite F7. unfold current. f_equal.
        apply committed_D. by rewrite (ws_addr _ Hwf _ _ Eo).
Qed.

(** ** Balances *)

Definition balance_of (s : StateDB) (a : Z) : Z :=
  match acct s a with Some o => Balance (so_data o) | None => 0 end.

Definition total (X : list Z) (s : StateDB) : Z := sumZ (map (balance_of s) X).

Lemma total_update X s s' a v :
  NoDup X -> a ∈ X -> (forall b, b <> a -> balance_of s' b = balance_of s b) ->
  balance_of s' a = balance_of s a + v -> total X s' = total X s + v.
Proof.
  intros Hnd Ha Hother Hv. unfold total. induction Hnd as [|x X Hx Hnd IH]; [by apply elem_of_nil in Ha|].
  unfold sumZ in *. simpl. apply elem_of_cons in Ha as [<-|Ha].
  - rewrite Hv. assert (map (balance_of s') X = map (balance_of s) X) as ->; [|lia].
    apply map_ext_in. intros b Hb. apply Hother. intros ->. apply Hx. by apply list_elem_of_In.
  - rewrite (IH Ha), Hother; [lia|]. intros ->. done.
Qed.

(** The accounts after an operation on the object at [a] that writes balance [v]. *)
Lemma getOrNew_balance a s o s1 :
  getOrNewStateObject a s = (o, s1) ->
  Balance (so_data o) = balance_of s a /\ delta s1 = delta s
  /\ (forall b, balance_of s1 b = balance_of s b).
Proof.
  unfold getOrNewStateObject. destruct (getStateObject a s) as [[o'|] s2] eqn:E;
    apply getStateObject_reloads in E as (Ha & Hr & Hl).
  - intros [= <- <-]. unfold balance_of at 1. rewrite <- Ha. split; [done|]. split.
    + by destruct Hr as (m & e & -> & _).
    + intros b. unfold balance_of. by rewrite (reloads_acct s).
  - unfold createObject. intros [= <- <-]. unfold balance_of at 1. rewrite <- Ha. split; [done|].
    split; [by destruct Hr as (m & e & -> & _)|].
    intros b. unfold balance_of. rewrite (acct_update s2 _ a (newObject a None)); [|done..].
    case_decide; [|by rewrite (reloads_acct s)]. subst. by rewrite <- Ha.
Qed.

Lemma write_balance s1 s2 a o v :
  stateObjects s2 = <[a := o]> (stateObjects s1) ->
  stateObjectsDestruct s2 = stateObjectsDestruct s1 -> Balance (so_data o) = v ->
  balance_of s2 a = v /\ forall b, b <> a -> balance_of s2 b = balance_of s1 b.
Proof.
  intros Ho Hd Hv. split.
  - unfold balance_of. by rewrite (acct_update s1 s2 a o), decide_True.
  - intros b Hb. unfold balance_of. rewrite (acct_update s1 s2 a o) by done.
    by rewrite decide_False.
Qed.

Context {L : U256.Laws U}.

Lemma AddBalance_balance a v s :
  is_u256 v -> is_u256 (balance_of s a) -> balance_of s a + v < two256 ->
  let s' := snd (AddBalance a v s) in
  delta s' = delta s + v /\ balance_of s' a = balance_of s a + v
  /\ forall b, b <> a -> balance_of s' b = balance_of s b.
Proof.
  intros Hv Hb Hsum. unfold AddBalance.
  destruct (getOrNewStateObject a s) as [o s1] eqn:E.
  apply getOrNew_balance in E as (Hbo & Hd & Hsame). unfold obj_AddBalance.
  rewrite U256.IsZero_spec by done. rewrite Hbo. destruct (Z.eqb_spec v 0) as [->|Hv0].
  - set (t := if empty_ o then _ else _).
    assert (stateObjects t = stateObjects s1 /\ stateObjectsDestruct t = stateObjectsDestruct s1
      /\ delta t = delta s1 + 0) as (T1 & T2 & T3).
    { unfold t. destruct (empty_ o); [|done]. unfold obj_touch, touchChange_.
      destruct (_ =? _); done. }
    destruct (write_balance s1 (write_back a o t) a o (balance_of s a)) as [W1 W2];
      [by simpl; rewrite T1|done|done|].
    simpl. rewrite W1. split_and!; [change (delta t = delta s + 0); lia|lia|].
    intros b Hne. by rewrite W2, Hsame.
  - simpl. rewrite U256.Add_spec by done.
    destruct (write_balance s1 (write_back a (obj_setBalance (U256.wrap (balance_of s a + v)) o)
       (journal_append (balanceChange (so_address o) (Balance (so_data o)))
          (set_delta (delta s1 + v) s1))) a
       (obj_setBalance (U256.wrap (balance_of s a + v)) o) (balance_of s a + v)) as [W1 W2];
      [done|done| |].
    { simpl. unfold U256.wrap. apply Z.mod_small. unfold is_u256 in *. lia. }
    rewrite Hbo in *. rewrite W1. split_and!; [simpl; unfold delta in *; simpl; lia|done|].
    intros b Hne. by rewrite W2, Hsame.
Qed.

Lemma SubBalance_balance a v s :
  is_u256 v -> is_u256 (balance_of s a) -> v <= balance_of s a ->
  let s' := snd (SubBalance a v s) in
  delta s' = delta s - v /\ balance_of s' a = balance_of s a - v
  /\ forall b, b <> a -> balance_of s' b = balance_of s b.
Proof.
  intros Hv Hb Hle. unfold SubBalance.
  destruct (getOrNewStateObject a s) as [o s1] eqn:E.
  apply getOrNew_balance in E as (Hbo & Hd & Hsame).
  rewrite U256.IsZero_spec by done. destruct (Z.eqb_spec v 0) as [->|Hv0].
  - simpl. rewrite Hsame. split_and!; [lia|lia|done].
  - simpl. rewrite Hbo, U256.Sub_spec by done.
    edestruct (write_balance s1 (write_back a (obj_setBalance (U256.wrap (balance_of s a - v)) o)
       (journal_append (balanceChange (so_address o) (balance_of s a))
          (set_delta (delta s1 - v) s1))) a) as [W1 W2]; [done|done|done|].
    rewrite W1. simpl. split_and!; [unfold delta in *; simpl; lia| |].
    + unfold U256.wrap. apply Z.mod_small. unfold is_u256 in *. lia.
    + intros b Hne. by rewrite W2, Hsame.
Qed.

Lemma SetBalance_balance a v s :
  let s' := SetBalance a v s in
  delta s' = delta s + (default 0 v - balance_of s a) /\ balance_of s' a = default 0 v
  /\ forall b, b <> a -> balance_of s' b = balance_of s b.
Proof.
  unfold SetBalance. destruct (getOrNewStateObject a s) as [o s1] eqn:E.
  apply getOrNew_balance in E as (Hbo & Hd & Hsame). simpl. rewrite Hbo.
  edestruct (write_balance s1 (write_back a (obj_setBalance (default 0 v) o)
     (journal_append (balanceChange (so_address o) (balance_of s a))
        (set_delta (delta s1 + default 0 v - balance_of s a) s1))) a) as [W1 W2]; [done|done|done|].
  assert (forall t t', stateObjects t = stateObjects t' ->
    stateObjectsDestruct t = stateObjectsDestruct t' -> forall b, balance_of t b = balance_of t' b)
    as Hext by (intros t t' E1 E2 b; unfold balance_of, acct; by rewrite E1, E2).
  split_and!; [unfold delta in *; simpl; lia|exact W1|].
  intros b Hne. transitivity (balance_of s1 b); [|apply Hsame]. rewrite <- (W2 b Hne). by apply Hext.
Qed.

Lemma SelfDestruct_balance a s :
  is_u256 (balance_of s a) ->
  let s' := snd (SelfDestruct a s) in
  delta s' = delta s - balance_of s a /\ balance_of s' a = 0
  /\ forall b, b <> a -> balance_of s' b = balance_of s b.
Proof.
  intros Hb. unfold SelfDestruct. destruct (getStateObject a s) as [[o|] s1] eqn:E;
    apply getStateObject_reloads in E as (Ha & Hr & Hl).
  2:{ simpl. assert (forall b, balance_of s1 b = balance_of s b) as Hs.
      { intros b. unfold balance_of. by rewrite (reloads_acct s). }
      rewrite Hs. unfold balance_of at 1 2. rewrite <- Ha. split_and!; [|done|done].
      destruct Hr as (m & e & -> & _). unfold delta; simpl. lia. }
  assert (Balance (so_data o) = balance_of s a) as Hbo by (unfold balance_of; by rewrite <- Ha).
  assert (forall b, balance_of s1 b = balance_of s b) as Hsame.
  { intros b. unfold balance_of. by rewrite (reloads_acct s). }
  assert (delta s1 = delta s) as Hd by (by destruct Hr as (m & e & -> & _)).
  assert (forall t o1, stateObjects t = <[a := o1]> (stateObjects s1) ->
     stateObjectsDestruct t = stateObjectsDestruct s1 -> Balance (so_data o1) = 0 ->
     balance_of t a = 0 /\ forall b, b <> a -> balance_of t b = balance_of s b) as Hfin.
  { intros t o1 E1 E2 E3. destruct (write_balance s1 t a o1 0 E1 E2 E3) as [W1 W2].
    split; [done|]. intros b Hne. by rewrite W2, Hsame. }
  rewrite Hbo, U256.IsZero_spec by done. destruct (Z.eqb_spec (balance_of s a) 0) as [E0|].
  - destruct (selfDestructed o) eqn:Es; simpl.
    + split; [unfold delta in *; simpl; lia|]. eapply Hfin; [done|done|congruence].
    + split; [unfold delta in *; simpl; lia|]. eapply Hfin; [done|done|simpl; congruence].
  - destruct (selfDestructed (obj_setBalance 0 o)) eqn:Es; simpl in *; rewrite Es; simpl.
    + split; [unfold delta in *; simpl; lia|]. by eapply Hfin.
    + split; [unfold delta in *; simpl; lia|]. by eapply Hfin.
Qed.
End Finalise.

(** * Properties *)

(** C39. [Finalise], from any well-formed state: an address that was not dirtied is
    left alone; a dirtied account that is self-destructed, or empty when empty
    objects are deleted and not kept as a zombie, disappears, is remembered
    with its first destructed value and scheduled for deletion; every other
    dirtied account keeps its data, every slot's committed value becomes what
    the transaction saw, its new-contract flag is cleared and it is scheduled
    for an update; the journal, the snapshots and the refund are reset. *)
Theorem Finalise_spec {U : U256.Ops} {HS : Hasher} {R : Reader}
  (b : bool) (s : StateDB) (Hwf : wf_state s) :
  let s' := Finalise b s in
  entries (jrnl s') = [] /\ dirties (jrnl s') = ∅ /\ validRevisions (jrnl s') = []
  /\ refund s' = 0
  /\ forall a, match dirties (jrnl s) !! a, stateObjects s !! a with
               | Some _, Some o => finalised b s s' a o
               | _, _ => same_at s s' a
               end.
Proof.
  cbv zeta. unfold Finalise, clearJournalAndRefund.
  destruct (foldl_finalise b (map fst (map_to_list (dirties (jrnl s)))) s Hwf) as (_ & Hout & Hin);
    [apply NoDup_fst_map_to_list|].
  set (s1 := foldl _ s _) in *. split_and!; [done..|]. intros a.
  assert (a ∈ map fst (map_to_list (dirties (jrnl s))) <-> is_Some (dirties (jrnl s) !! a)) as Hd.
  { rewrite list_elem_of_fmap. split.
    - intros ([k v] & -> & Hk%elem_of_map_to_list). simpl. eauto.
    - intros [v Hv]. exists (a, v). split; [done|]. by apply elem_of_map_to_list. }
  destruct (dirties (jrnl s) !! a) eqn:Ed.
  - assert (a ∈ map fst (map_to_list (dirties (jrnl s)))) as Ha by (apply Hd; eauto).
    specialize (Hin a Ha). destruct (stateObjects s !! a); done.
  - assert (a ∉ map fst (map_to_list (dirties (jrnl s)))) as Ha.
    { rewrite Hd. by intros []. }
    specialize (Hout a Ha). destruct (stateObjects s !! a); done.
Qed.

Lemma Finalise_spec_witness :
  let U := U256.reference in let HS := toy_hasher in let R := toy_reader in
  exists s, run [OSetState 5 1 43; OAddBalance 6 0] NewWithReader = Some s
    /\ wf_state s /\ stateObjects (Finalise true s) !! 6 = None.
Proof.
  intros U HS R.
  destruct (run [OSetState 5 1 43; OAddBalance 6 0] NewWithReader) as [s|] eqn:E;
    [|vm_compute in E; discriminate].
  exists s. split; [reflexivity|].
  assert (wf_state s) as Hwf by (eapply inv_wf, reach_invariant, (run_reach _ _ _ _ reach_new E)).
  split; [exact Hwf|].
  pose proof (Finalise_spec true s Hwf) as (_ & _ & _ & _ & H). specialize (H 6).
  vm_compute in E. injection E as <-. exact (proj1 H).
Defined.

(** [unexpectedBalanceDelta] is exact: when no addition overflows and no
    subtraction underflows 256 bits, each of [AddBalance], [SubBalance],
    [SetBalance] and [SelfDestruct] moves it by exactly the change of the total
    balance over any set of accounts that contains the one it touches. *)
Theorem unexpectedBalanceDelta_exact {U : U256.Ops} {L : U256.Laws U} {HS : Hasher} {R : Reader}
  (X : list Z) (s : StateDB) (a v : Z)
  (HX : NoDup X) (Ha : a ∈ X) (Hb : is_u256 (balance_of s a)) (Hv : is_u256 v) :
  (balance_of s a + v < two256 ->
     let s' := snd (AddBalance a v s) in
     total X s' - delta s' = total X s - delta s /\ delta s' = delta s + v)
  /\ (v <= balance_of s a ->
     let s' := snd (SubBalance a v s) in
     total X s' - delta s' = total X s - delta s /\ delta s' = delta s - v)
  /\ (let s' := SetBalance a (Some v) s in
     total X s' - delta s' = total X s - delta s /\ balance_of s' a = v)
  /\ (let s' := snd (SelfDestruct a s) in
     total X s' - delta s' = total X s - delta s /\ balance_of s' a = 0).
Proof.
  split_and!.
  - intros Hsum. destruct (AddBalance_balance a v s Hv Hb Hsum) as (D & B & O).
    cbv zeta. rewrite (total_update X s _ a v HX Ha O B). lia.
  - intros Hle. destruct (SubBalance_balance a v s Hv Hb Hle) as (D & B & O).
    cbv zeta. rewrite (total_update X s _ a (- v) HX Ha O) by lia. lia.
  - destruct (SetBalance_balance a (Some v) s) as (D & B & O). simpl in D, B.
    cbv zeta. rewrite (total_update X s _ a (v - balance_of s a) HX Ha O) by lia. lia.
  - destruct (SelfDestruct_balance a s Hb) as (D & B & O).
    cbv zeta. rewrite (total_update X s _ a (- balance_of s a) HX Ha O) by lia. lia.
Qed.

Lemma unexpectedBalanceDelta_exact_witness :
  let U := U256.reference in let HS := toy_hasher in let R := toy_reader in
  let s' := snd (AddBalance 5 7 NewWithReader) in
  total [4; 5] s' - delta s' = total [4; 5] NewWithReader - delta NewWithReader
  /\ delta s' = 7.
Proof.
  intros U HS R s'.
  assert (NoDup [4; 5]) as HX by (apply (bool_decide_unpack _); vm_compute; exact I).
  assert (5 ∈ [4; 5]) as Ha by (right; left).
  assert (is_u256 (balance_of NewWithReader 5)) as Hb by (vm_compute; split; congruence).
  assert (is_u256 7) as Hv by (vm_compute; split; congruence).
  pose proof (@unexpectedBalanceDelta_exact U U256.reference_laws HS R [4; 5] NewWithReader 5 7
    HX Ha Hb Hv) as [Hadd _].
  apply Hadd. vm_compute. reflexivity.
Defined.

(** ** A counter that outlives its transaction

    [journal.reset] is documented as similar to [newJournal], but keeps
    [zombieEntries]. *)

(** The account 6 is destroyed in one transaction, resurrected as a zombie in
    the next, and touched in a third one. *)
Definition zombie_history {U : U256.Ops} {HS : Hasher} {R : Reader} : option StateDB :=
  s ← run [OAddBalance 6 1; OSelfDestruct 6] NewWithReader;
  s ← run [OCreateZombieIfDeleted 6] (Finalise true s);
  run [OAddBalance 6 0] (Finalise true s).

(** [reset] gives a new journal only when no zombie was recorded, and the
    difference shows: an empty account that was kept as a zombie in one
    transaction is not removed when a later transaction touches it, although the
    touch is the only change of that transaction and empty accounts are deleted. *)
Theorem reset_keeps_zombies :
  (forall j, reset j = newJournal <-> zombieEntries j = ∅)
  /\ (let U := U256.reference in let HS := toy_hasher in let R := toy_reader in
      exists s o, zombie_history = Some s
        /\ entries (jrnl s) = [touchChange 6]
        /\ stateObjects s !! 6 = Some o /\ empty_ o = true
        /\ (exists o', stateObjects (Finalise true s) !! 6 = Some o')
        /\ stateObjects (Finalise true (set_jrnl (set_zombieEntries ∅ (jrnl s)) s)) !! 6 = None).
Proof.
  split.
  - intros [z e d r n]. unfold reset, newJournal. simpl. split; [by intros [= ->]|by intros ->].
  - vm_compute. eexists _, _. split; [reflexivity|]. split; [reflexivity|].
    split; [reflexivity|]. split; [reflexivity|]. split; [eexists; reflexivity|reflexivity].
Qed.

(** Take a snapshot, do [pre], set the code of account 5, and revert. *)
Definition set_code_and_revert {U : U256.Ops} {HS : Hasher} {R : Reader}
    (pre : StateDB -> StateDB) : option StateDB :=
  RevertToSnapshot 0 (snd (SetCode 5 [9] (pre (snd (Snapshot NewWithReader))))).

(** The guard on [SetCode] is needed: [stateObject.SetCode] journals the cached
    code, which is empty until the code has been read, so for an account whose
    code is only in the database, reverting a [SetCode] leaves the hash of the
    empty code instead of the account's; after [GetCode] the revert is exact. *)
Theorem SetCode_revert_needs_loaded_code :
  let U := U256.reference in let HS := toy_hasher in let R := toy_reader in
  fst (GetCodeHash 5 NewWithReader) = 1003
  /\ (exists s, set_code_and_revert (fun s => s) = Some s
        /\ fst (GetCodeHash 5 s) = keccak256 [])
  /\ (exists s, set_code_and_revert (fun s => snd (GetCode 5 s)) = Some s
        /\ fst (GetCodeHash 5 s) = 1003 /\ fst (GetCode 5 s) = [1; 2]).
Proof.
  intros U HS R. split; [reflexivity|]. split.
  - vm_compute. eexists. split; reflexivity.
  - vm_compute. eexists. split; [reflexivity|]. split; reflexivity.
Qed.
