(* ===== verification/Rlp.v ===== *)
(** Recursive length prefix encoding: the splitter of [rlp/raw.go] and the encoder of
    [rlp/encbuffer.go] and [rlp/encode.go].

    A byte slice is the list of its bytes, and the sub-slices the splitter returns are
    lists of their own.  The encoder that reflects on Go values is not modelled: its
    writers are the methods of [encBuffer] modelled here.

    [encode] is the reference: the encoding of a tree of strings and lists.  The
    splitter accepts exactly the encodings, in their only form, and the buffer, which
    collects the headers of lists apart from their contents, produces exactly them. *)

From stdpp Require Import base list numbers option.
From S2P Require Import Prelude Uint256.
Import U256(be_value, be_bytes, be_bytes_length, be_bytes_byte, be_value_bytes, be_value_bound,
  be_bytes_value, be_value_snoc).
Open Scope Z_scope.
Open Scope go_scope.

(** ** Integers in headers, encode.go *)

Definition putint (i : Z) : list Z :=
  if i <? 2 ^ 8 then be_bytes 1 i
  else if i <? 2 ^ 16 then be_bytes 2 i
  else if i <? 2 ^ 24 then be_bytes 3 i
  else if i <? 2 ^ 32 then be_bytes 4 i
  else if i <? 2 ^ 40 then be_bytes 5 i
  else if i <? 2 ^ 48 then be_bytes 6 i
  else if i <? 2 ^ 56 then be_bytes 7 i
  else be_bytes 8 i.

(** [bits.Len64] *)
Definition Len64 (i : Z) : Z := if i =? 0 then 0 else Z.log2 i + 1.

Definition intsize (i : Z) : Z := if i =? 0 then 1 else (Len64 i + 7) / 8.

Definition headsize (size : Z) : Z := if size <? 56 then 1 else 1 + intsize size.

Definition puthead (smalltag largetag size : Z) : list Z :=
  if size <? 56 then [smalltag + size]
  else let s := putint size in largetag + Z.of_nat (length s) :: s.

(** ** The splitter, raw.go *)

Inductive Kind := Byte | String | List.

Inductive rlpError :=
| ErrUnexpectedEOF
| ErrExpectedString
| ErrExpectedList
| ErrCanonInt
| ErrCanonSize
| ErrValueTooLarge
| errUintOverflow.

Definition len (b : list Z) : Z := Z.of_nat (length b).

Definition readSize (b : list Z) (slen : Z) : result rlpError Z :=
  if len b <? slen then Err ErrUnexpectedEOF
  else
    let s := be_value (take (Z.to_nat slen) b) in
    if (s <? 56) || (default 0 (b !! 0%nat) =? 0) then Err ErrCanonSize else Ok s.

Definition readKind (buf : list Z) : result rlpError (Kind * Z * Z) :=
  match buf with
  | [] => Err ErrUnexpectedEOF
  | b :: tl =>
      let! '(k, tagsize, contentsize) :=
        if b <? 0x80 then Ok (Byte, 0, 1)
        else if b <? 0xB8 then
          let contentsize := b - 0x80 in
          if (contentsize =? 1) && (1 <? len buf) && (default 0 (tl !! 0%nat) <? 128)
          then Err ErrCanonSize
          else Ok (String, 1, contentsize)
        else if b <? 0xC0 then
          let! contentsize := readSize tl (b - 0xB7) in Ok (String, b - 0xB7 + 1, contentsize)
        else if b <? 0xF8 then Ok (List, 1, b - 0xC0)
        else
          let! contentsize := readSize tl (b - 0xF7) in Ok (List, b - 0xF7 + 1, contentsize) in
      if u64 (len buf - tagsize) <? contentsize then Err ErrValueTooLarge
      else Ok (k, tagsize, contentsize)
  end.

Definition Split (b : list Z) : result rlpError (Kind * list Z * list Z) :=
  let! '(k, ts, cs) := readKind b in
  let content := drop (Z.to_nat ts) b in
  Ok (k, take (Z.to_nat cs) content, drop (Z.to_nat cs) content).

Definition SplitString (b : list Z) : result rlpError (list Z * list Z) :=
  let! '(k, content, rest) := Split b in
  match k with List => Err ErrExpectedString | _ => Ok (content, rest) end.

Definition SplitList (b : list Z) : result rlpError (list Z * list Z) :=
  let! '(k, content, rest) := Split b in
  match k with List => Ok (content, rest) | _ => Err ErrExpectedList end.

Definition SplitUint64 (b : list Z) : result rlpError (Z * list Z) :=
  let! '(content, rest) := SplitString b in
  match content with
  | [] => Ok (0, rest)
  | [c] => if c =? 0 then Err ErrCanonInt else Ok (c, rest)
  | _ =>
      if 8 <? len content then Err errUintOverflow
      else
        match readSize content (len content) with
        | Ok x => Ok (x, rest)
        | Err _ => Err ErrCanonInt
        end
  end.

(** The loop of [CountValues] removes at least one byte per round. *)
Fixpoint count_values (fuel : nat) (b : list Z) : option (result rlpError Z) :=
  match b with
  | [] => Some (Ok 0)
  | _ =>
      match fuel with
      | O => None
      | S fuel =>
          match readKind b with
          | Err e => Some (Err e)
          | Ok (_, tagsize, size) =>
              match count_values fuel (drop (Z.to_nat (tagsize + size)) b) with
              | Some (Ok i) => Some (Ok (i + 1))
              | r => r
              end
          end
      end
  end.
Definition CountValues (b : list Z) : option (result rlpError Z) := count_values (length b) b.

(** ** Sizes *)

Definition BytesSize (b : list Z) : Z :=
  match b with
  | [] => 1
  | [c] => if c <=? 0x7f then 1 else 2
  | _ => u64 (headsize (len b) + len b)
  end.
Definition ListSize (contentSize : Z) : Z := u64 (headsize contentSize + contentSize).
Definition IntSize (x : Z) : Z := if x <? 0x80 then 1 else 1 + intsize x.

Definition AppendUint64 (b : list Z) (i : Z) : list Z :=
  if i =? 0 then b ++ [0x80]
  else if i <? 128 then b ++ [i]
  else if i <? 2 ^ 8 then b ++ 0x81 :: be_bytes 1 i
  else if i <? 2 ^ 16 then b ++ 0x82 :: be_bytes 2 i
  else if i <? 2 ^ 24 then b ++ 0x83 :: be_bytes 3 i
  else if i <? 2 ^ 32 then b ++ 0x84 :: be_bytes 4 i
  else if i <? 2 ^ 40 then b ++ 0x85 :: be_bytes 5 i
  else if i <? 2 ^ 48 then b ++ 0x86 :: be_bytes 6 i
  else if i <? 2 ^ 56 then b ++ 0x87 :: be_bytes 7 i
  else b ++ 0x88 :: be_bytes 8 i.

(** ** The encoder buffer, encbuffer.go

    The strings are collected in [str]; the header of a list is kept apart, with the
    position in [str] it goes to, because its size is known only at the end of the
    list. *)

Record listhead := mkListhead { offset : Z; lh_size : Z }.
Record encBuffer := mkEncBuffer { str : list Z; lheads : list listhead; lhsize : Z }.

Definition newEncBuffer : encBuffer := mkEncBuffer [] [] 0.
Definition size (buf : encBuffer) : Z := len (str buf) + lhsize buf.

Definition encode_head (head : listhead) : list Z := puthead 0xC0 0xF7 (lh_size head).

(** [copyTo] into a slice that is large enough; [copy_heads] is its loop. *)
Fixpoint copy_heads (heads : list listhead) (strpos : Z) (s : list Z) : list Z * Z :=
  match heads with
  | [] => ([], strpos)
  | head :: heads =>
      let piece := take (Z.to_nat (offset head - strpos)) (drop (Z.to_nat strpos) s) in
      let '(out, strpos) := copy_heads heads (strpos + len piece) s in
      (piece ++ encode_head head ++ out, strpos)
  end.
Definition copyTo (buf : encBuffer) : list Z :=
  let '(out, strpos) := copy_heads (lheads buf) 0 (str buf) in
  out ++ drop (Z.to_nat strpos) (str buf).

(** [makeBytes] allocates [size] bytes; [copy] drops what does not fit. *)
Definition makeBytes (buf : encBuffer) : list Z :=
  let out := take (Z.to_nat (size buf)) (copyTo buf) in
  out ++ replicate (Z.to_nat (size buf) - length out) 0.

Definition write (b : list Z) (buf : encBuffer) : encBuffer :=
  mkEncBuffer (str buf ++ b) (lheads buf) (lhsize buf).

Definition writeBool (b : bool) (buf : encBuffer) : encBuffer :=
  write (if b then [0x01] else [0x80]) buf.

Definition writeUint64 (i : Z) (buf : encBuffer) : encBuffer :=
  if i =? 0 then write [0x80] buf
  else if i <? 128 then write [i] buf
  else let s := putint i in write (0x80 + len s :: s) buf.

Definition encodeStringHeader (size : Z) (buf : encBuffer) : encBuffer :=
  if size <? 56 then write [0x80 + size] buf
  else let s := putint size in write (0xB7 + len s :: s) buf.

Definition writeBytes (b : list Z) (buf : encBuffer) : encBuffer :=
  match b with
  | [c] => if c <=? 0x7F then write [c] buf else write b (encodeStringHeader (len b) buf)
  | _ => write b (encodeStringHeader (len b) buf)
  end.

Definition list_ (buf : encBuffer) : nat * encBuffer :=
  (length (lheads buf),
   mkEncBuffer (str buf) (lheads buf ++ [mkListhead (len (str buf)) (lhsize buf)]) (lhsize buf)).

(** [None] is an index out of range. *)
Definition listEnd (index : nat) (buf : encBuffer) : option encBuffer :=
  lh ← lheads buf !! index;
  let sz := size buf - offset lh - lh_size lh in
  Some (mkEncBuffer (str buf) (<[index := mkListhead (offset lh) sz]> (lheads buf))
          (lhsize buf + (if sz <? 56 then 1 else 1 + intsize sz))).

(** ** The reference *)

Inductive item :=
| Str (s : list Z)
| Lst (l : list item).

Definition encode_string (s : list Z) : list Z :=
  match s with
  | [c] => if c <? 128 then [c] else puthead 0x80 0xB7 1 ++ s
  | _ => puthead 0x80 0xB7 (len s) ++ s
  end.

Definition encode_list (content : list Z) : list Z := puthead 0xC0 0xF7 (len content) ++ content.

Fixpoint encode (x : item) : list Z :=
  match x with
  | Str s => encode_string s
  | Lst l => encode_list (concat (map encode l))
  end.

(** The writers of a byte slice and of a slice, encode.go: the elements of a list are
    written between [list] and [listEnd], and an empty one is written at once. *)
Fixpoint write_item (x : item) (w : encBuffer) : option encBuffer :=
  match x with
  | Str b => Some (writeBytes b w)
  | Lst [] => Some (write [0xC0] w)
  | Lst l =>
      let '(listOffset, w) := list_ w in
      w ← foldl (fun ow x => w ← ow; write_item x w) (Some w) l;
      listEnd listOffset w
  end.

(** [EncodeToBytes] *)
Definition EncodeToBytes (x : item) : option (list Z) :=
  buf ← write_item x newEncBuffer; Some (makeBytes buf).

(** The encoding of one value given its kind and content. *)
Definition encode_value (k : Kind) (content : list Z) : list Z :=
  match k with
  | Byte => content
  | String => puthead 0x80 0xB7 (len content) ++ content
  | List => encode_list content
  end.

(** A kind fits a content: single bytes below 128 are of kind [Byte], and only they. *)
Definition kind_ok (k : Kind) (content : list Z) : Prop :=
  match k, content with
  | Byte, [c] => c < 128
  | Byte, _ => False
  | String, [c] => 128 <= c
  | _, _ => True
  end.

(** ** Lemmas on integers *)

Lemma be_bytes_cons n x : 0 <= x -> be_bytes (S n) x = (x / 256 ^ Z.of_nat n) mod 256 :: be_bytes n x.
Proof.
  revert x. induction n as [|n IH]; intros x Hx; [simpl; by rewrite Z.div_1_r|].
  change (be_bytes (S (S n)) x) with (be_bytes (S n) (x / 256) ++ [x mod 256]).
  rewrite IH by (apply Z.div_pos; lia). change (be_bytes (S n) x) with (be_bytes n (x / 256) ++ [x mod 256]).
  simpl. f_equal. rewrite Z.div_div by (try apply Z.pow_nonzero; lia). f_equal. f_equal.
  replace (Z.of_nat (S n)) with (Z.of_nat n + 1) by lia. rewrite Z.pow_add_r, Z.pow_1_r by lia. lia.
Qed.

Lemma be_value_cons b bs : be_value (b :: bs) = b * 256 ^ len bs + be_value bs.
Proof.
  induction bs as [|c bs IH] using rev_ind; [unfold be_value, len; simpl; lia|].
  rewrite (app_comm_cons bs [c] b), !be_value_snoc, IH. unfold len. rewrite length_app. simpl length.
  replace (Z.of_nat (length bs + 1)) with (Z.of_nat (length bs) + 1) by lia.
  rewrite Z.pow_add_r, Z.pow_1_r by lia. lia.
Qed.

(** The width of an integer: the [n] for which it takes [n] bytes without a leading zero. *)
Definition width_of (i : Z) (n : nat) : Prop :=
  (1 <= n <= 8)%nat /\ i < 256 ^ Z.of_nat n /\ (256 ^ Z.of_nat (n - 1) <= i \/ i = 0 /\ n = 1%nat).

Lemma putint_width i : is_u64 i -> exists n, putint i = be_bytes n i /\ width_of i n.
Proof.
  unfold is_u64, putint, width_of. intros Hi.
  destruct (Z.ltb_spec i (2 ^ 8)); [exists 1%nat; simpl; split; [done|]; lia|].
  destruct (Z.ltb_spec i (2 ^ 16)); [exists 2%nat; simpl; split; [done|]; lia|].
  destruct (Z.ltb_spec i (2 ^ 24)); [exists 3%nat; simpl; split; [done|]; lia|].
  destruct (Z.ltb_spec i (2 ^ 32)); [exists 4%nat; simpl; split; [done|]; lia|].
  destruct (Z.ltb_spec i (2 ^ 40)); [exists 5%nat; simpl; split; [done|]; lia|].
  destruct (Z.ltb_spec i (2 ^ 48)); [exists 6%nat; simpl; split; [done|]; lia|].
  destruct (Z.ltb_spec i (2 ^ 56)); [exists 7%nat; simpl; split; [done|]; lia|].
  exists 8%nat. simpl. split; [done|]. lia.
Qed.

Lemma width_unique i n m : 0 <= i -> width_of i n -> width_of i m -> n = m.
Proof.
  intros Hi (Hn & Un & Ln) (Hm & Um & Lm).
  assert (forall a b : nat, (a < b)%nat -> i < 256 ^ Z.of_nat a ->
    256 ^ Z.of_nat (b - 1) <= i \/ i = 0 /\ b = 1%nat -> (1 <= a)%nat -> False) as Hlt.
  { intros a b Hab Hu [Hl|[_ ->]]; [|lia].
    assert (256 ^ Z.of_nat a <= 256 ^ Z.of_nat (b - 1)) by (apply Z.pow_le_mono_r; lia). lia. }
  destruct (Nat.lt_trichotomy n m) as [H|[H|H]]; [|done|]; exfalso.
  - by apply (Hlt n m); [| | |lia].
  - by apply (Hlt m n); [| | |lia].
Qed.

Lemma putint_value i : is_u64 i -> be_value (putint i) = i.
Proof.
  intros Hi. destruct (putint_width i Hi) as (n & -> & _ & Hu & _). rewrite be_value_bytes.
  apply Z.mod_small. unfold is_u64 in Hi. lia.
Qed.

Lemma putint_byte i : Forall is_byte (putint i).
Proof. unfold putint. repeat case_match; apply be_bytes_byte. Qed.

(** The bytes of an integer without a leading zero are the ones [putint] writes. *)
Lemma be_value_putint bs :
  Forall is_byte bs -> (1 <= length bs <= 8)%nat -> default 0 (bs !! 0%nat) <> 0 -> putint (be_value bs) = bs.
Proof.
  intros Hb Hl Hh. pose proof (be_value_bound bs Hb) as Hv.
  assert (is_u64 (be_value bs)) as Hu.
  { unfold is_u64. split; [lia|]. apply Z.lt_le_trans with (256 ^ Z.of_nat (length bs)); [lia|].
    change two64 with (256 ^ 8). apply Z.pow_le_mono_r; lia. }
  destruct (putint_width _ Hu) as (n & E & W). rewrite E.
  assert (n = length bs) as ->; [|by apply be_bytes_value].
  apply (width_unique (be_value bs)); [lia|exact W|]. split; [done|]. split; [lia|]. left.
  destruct bs as [|b bs]; [simpl in Hl; lia|]. simpl in Hh. inversion_clear Hb as [|? ? Hb0 Hb'].
  rewrite be_value_cons. pose proof (be_value_bound bs Hb'). unfold is_byte in Hb0.
  simpl length. replace (S (length bs) - 1)%nat with (length bs) by lia. unfold len.
  assert (0 < 256 ^ Z.of_nat (length bs)) by (apply Z.pow_pos_nonneg; lia). nia.
Qed.

Lemma putint_length i : is_u64 i -> (1 <= length (putint i) <= 8)%nat.
Proof. intros Hi. destruct (putint_width i Hi) as (n & -> & Hn & _). by rewrite be_bytes_length. Qed.

Lemma putint_head i : is_u64 i -> 0 < i -> default 0 (putint i !! 0%nat) <> 0.
Proof.
  intros Hi H0. destruct (putint_width i Hi) as (n & -> & Hn & Hu & Hl). destruct n as [|n]; [lia|].
  rewrite be_bytes_cons by lia. simpl. destruct Hl as [Hl|[? _]]; [|lia].
  replace (S n - 1)%nat with n in Hl by lia.
  replace (Z.of_nat (S n)) with (Z.of_nat n + 1) in Hu by lia. rewrite Z.pow_add_r, Z.pow_1_r in Hu by lia.
  assert (0 < 256 ^ Z.of_nat n) by (apply Z.pow_pos_nonneg; lia).
  assert (1 <= i / 256 ^ Z.of_nat n) by (apply Z.div_le_lower_bound; lia).
  assert (i / 256 ^ Z.of_nat n < 256) by (apply Z.div_lt_upper_bound; lia).
  rewrite Z.mod_small by lia. lia.
Qed.

Lemma intsize_putint i : is_u64 i -> intsize i = len (putint i).
Proof.
  intros Hi. destruct (putint_width i Hi) as (n & -> & Hn & Hu & Hl). unfold len. rewrite be_bytes_length.
  unfold intsize, Len64. destruct (Z.eqb_spec i 0) as [->|H0]; [destruct Hl as [Hl|[_ ->]]; [|done]|].
  - assert (0 < 256 ^ Z.of_nat (n - 1)) by (apply Z.pow_pos_nonneg; lia). lia.
  - destruct Hl as [Hl|[? _]]; [|done]. unfold is_u64 in Hi.
    change 256 with (2 ^ 8) in Hu, Hl.
    rewrite <- Z.pow_mul_r in Hu, Hl by lia.
    apply Z.log2_lt_pow2 in Hu; [|lia]. apply Z.log2_le_pow2 in Hl; [|lia].
    assert (8 * Z.of_nat (n - 1) + 1 <= Z.log2 i + 1 <= 8 * Z.of_nat n) by lia.
    Z.to_euclidean_division_equations. lia.
Qed.

(** ** The splitter accepts exactly the encodings *)

Lemma readSize_ok b slen v : Forall is_byte b -> 1 <= slen <= 8 ->
  readSize b slen = Ok v <->
  slen <= len b /\ 56 <= v /\ is_u64 v /\ take (Z.to_nat slen) b = putint v.
Proof.
  intros Hb Hs. unfold readSize, len. set (t := take (Z.to_nat slen) b).
  assert (Forall is_byte t) as Ht by (by apply Forall_take).
  assert (slen <= Z.of_nat (length b) -> length t = Z.to_nat slen) as Hl
    by (intros; unfold t; rewrite length_take; lia).
  assert (slen <= Z.of_nat (length b) -> default 0 (t !! 0%nat) = default 0 (b !! 0%nat)) as Hh.
  { intros. unfold t. rewrite lookup_take_lt by lia. done. }
  destruct (Z.ltb_spec (Z.of_nat (length b)) slen) as [Hlt|Hge]; [split; [done|lia]|].
  specialize (Hl Hge). specialize (Hh Hge). split.
  - destruct (Z.ltb_spec (be_value t) 56); [done|]. simpl.
    destruct (Z.eqb_spec (default 0 (b !! 0%nat)) 0) as [|Hn]; [done|]. intros [= <-].
    rewrite be_value_putint; [|done|rewrite Hl; lia|by rewrite Hh]. split; [done|]. split; [done|]. split; [|done].
    pose proof (be_value_bound t Ht) as Hv. rewrite Hl in Hv. unfold is_u64.
    assert (256 ^ Z.of_nat (Z.to_nat slen) <= 256 ^ 8) by (apply Z.pow_le_mono_r; lia).
    change (256 ^ 8) with two64 in *. lia.
  - intros (_ & Hv & Hu & E). rewrite E in *. rewrite putint_value by done.
    rewrite (proj2 (Z.ltb_ge _ _)) by lia. pose proof (putint_head v Hu ltac:(lia)) as Hp.
    rewrite Hh in Hp. by rewrite (proj2 (Z.eqb_neq _ _)).
Qed.

Lemma len_nonneg b : 0 <= len b.
Proof. unfold len. lia. Qed.
Lemma len_cons x b : len (x :: b) = len b + 1.
Proof. unfold len. simpl. lia. Qed.
Lemma len_app a b : len (a ++ b) = len a + len b.
Proof. unfold len. rewrite length_app. lia. Qed.

Lemma take_drop_len cs b : 0 <= cs <= len b ->
  exists c rest, b = c ++ rest /\ len c = cs /\ take (Z.to_nat cs) b = c /\ drop (Z.to_nat cs) b = rest.
Proof.
  intros H. exists (take (Z.to_nat cs) b), (drop (Z.to_nat cs) b). rewrite take_drop. split; [done|].
  split; [|done]. unfold len in *. rewrite length_take. lia.
Qed.

(** A header that the rest of the slice satisfies. *)
Definition split_rest (k : Kind) (ts cs : Z) (b : list Z) : result rlpError (Kind * list Z * list Z) :=
  if u64 (len b - ts) <? cs then Err ErrValueTooLarge
  else Ok (k, take (Z.to_nat cs) (drop (Z.to_nat ts) b), drop (Z.to_nat cs) (drop (Z.to_nat ts) b)).

Lemma split_rest_ok k ts cs h b kk c rest : len h = ts -> 0 <= cs -> len (h ++ b) < two64 ->
  split_rest k ts cs (h ++ b) = Ok (kk, c, rest) <-> kk = k /\ b = c ++ rest /\ len c = cs.
Proof.
  intros Hh Hc Hl. rewrite len_app in Hl. pose proof (len_nonneg b). pose proof (len_nonneg h).
  unfold split_rest. rewrite len_app. rewrite drop_app_length' by (unfold len in *; lia).
  rewrite u64_small by (unfold is_u64; lia).
  replace (len h + len b - ts) with (len b) by lia. split.
  - destruct (Z.ltb_spec (len b) cs) as [|Hle]; [done|]. intros [= <- <- <-].
    destruct (take_drop_len cs b ltac:(lia)) as (c' & r' & E & El & -> & ->). done.
  - intros (-> & -> & El). rewrite len_app. pose proof (len_nonneg rest).
    rewrite (proj2 (Z.ltb_ge _ _)) by lia.
    rewrite take_app_length', drop_app_length' by (unfold len in *; lia). done.
Qed.

Lemma Split_unfold b0 tl :
  Split (b0 :: tl) =
    if b0 <? 0x80 then split_rest Byte 0 1 (b0 :: tl)
    else if b0 <? 0xB8 then
      if (b0 - 0x80 =? 1) && (1 <? len (b0 :: tl)) && (default 0 (tl !! 0%nat) <? 128)
      then Err ErrCanonSize else split_rest String 1 (b0 - 0x80) (b0 :: tl)
    else if b0 <? 0xC0 then
      match readSize tl (b0 - 0xB7) with
      | Ok cs => split_rest String (b0 - 0xB7 + 1) cs (b0 :: tl)
      | Err e => Err e
      end
    else if b0 <? 0xF8 then split_rest List 1 (b0 - 0xC0) (b0 :: tl)
    else
      match readSize tl (b0 - 0xF7) with
      | Ok cs => split_rest List (b0 - 0xF7 + 1) cs (b0 :: tl)
      | Err e => Err e
      end.
Proof.
  unfold Split, readKind, split_rest.
  repeat (match goal with |- context [if ?b then _ else _] => destruct b eqn:? end; simpl; try done);
    destruct (readSize _ _); simpl; try done; by case_match.
Qed.

(** The two forms of a header. *)
Lemma puthead_short s l n : n < 56 -> puthead s l n = [s + n].
Proof. intros. unfold puthead. by rewrite (proj2 (Z.ltb_lt _ _)). Qed.
Lemma puthead_long s l n : 56 <= n -> puthead s l n = l + len (putint n) :: putint n.
Proof. intros. unfold puthead. by rewrite (proj2 (Z.ltb_ge _ _)). Qed.

(** A long header in front of a slice, for strings ([l = 0xB7]) and lists. *)
Lemma long_header k l tl slen kk c rest :
  Forall is_byte tl -> 1 <= slen <= 8 -> len tl + 1 < two64 ->
  match readSize tl slen with
  | Ok cs => split_rest k (slen + 1) cs (l + slen :: tl)
  | Err e => Err e
  end = Ok (kk, c, rest)
  <-> kk = k /\ l + slen :: tl = puthead 0 l (len c) ++ c ++ rest /\ 56 <= len c.
Proof.
  intros Hb Hs Hl. split.
  - destruct (readSize tl slen) as [cs|] eqn:E; [|done].
    apply readSize_ok in E as (Hle & H56 & Hu & Et); [|done..].
    destruct (take_drop_len slen tl ltac:(lia)) as (p & r & Ep & Elp & Etp & _).
    rewrite Etp in Et. subst p tl. intros Hsp.
    change (l + slen :: putint cs ++ r) with ((l + slen :: putint cs) ++ r) in Hsp.
    rewrite len_app in Hl. apply split_rest_ok in Hsp as (-> & -> & <-);
      [|rewrite len_cons; lia|lia|rewrite len_app, len_cons; lia].
    split; [done|]. split; [|done]. rewrite puthead_long by done. by rewrite Elp.
  - intros (-> & E & H56). rewrite puthead_long in E by done. simpl in E. injection E as El ->.
    assert (is_u64 (len c)) as Hu.
    { rewrite !len_app in Hl. unfold is_u64. pose proof (len_nonneg rest).
      pose proof (len_nonneg (putint (len c))). lia. }
    assert (readSize (putint (len c) ++ c ++ rest) slen = Ok (len c)) as ->.
    { apply readSize_ok; [done|done|]. split; [|split; [done|split; [done|]]].
      - rewrite !len_app. pose proof (len_nonneg c). pose proof (len_nonneg rest). lia.
      - apply take_app_length'. unfold len in *. lia. }
    change (l + slen :: putint (len c) ++ c ++ rest) with ((l + slen :: putint (len c)) ++ c ++ rest).
    rewrite !len_app in Hl. apply split_rest_ok; rewrite ?len_app, ?len_cons; try lia; done.
Qed.

Lemma puthead_tag s1 s2 l n : 56 <= n -> puthead s1 l n = puthead s2 l n.
Proof. intros. by rewrite !puthead_long. Qed.

Lemma puthead_cons s l n : exists x h, puthead s l n = x :: h.
Proof. unfold puthead. case_match; eauto. Qed.

(** A short header in front of a slice, for strings ([s = 0x80]) and lists. *)
Lemma short_header k s l b0 tl kk c rest :
  s <= b0 < s + 56 -> len tl + 1 < two64 ->
  split_rest k 1 (b0 - s) (b0 :: tl) = Ok (kk, c, rest)
  <-> kk = k /\ b0 :: tl = puthead s l (len c) ++ c ++ rest /\ len c < 56.
Proof.
  intros Hb Hl. change (b0 :: tl) with ([b0] ++ tl) at 1.
  rewrite split_rest_ok by (rewrite ?len_app, ?len_cons; change (len []) with 0; try lia; done).
  split.
  - intros (-> & -> & El). split; [done|]. split; [|lia]. rewrite puthead_short by lia. simpl.
    f_equal. lia.
  - intros (-> & E & H56). rewrite puthead_short in E by done. simplify_eq/=. split; [done|]. split; [done|lia].
Qed.

Lemma long_header_tag k s l b0 tl kk c rest :
  Forall is_byte tl -> 1 <= b0 - l <= 8 -> len tl + 1 < two64 ->
  match readSize tl (b0 - l) with
  | Ok cs => split_rest k (b0 - l + 1) cs (b0 :: tl)
  | Err e => Err e
  end = Ok (kk, c, rest)
  <-> kk = k /\ b0 :: tl = puthead s l (len c) ++ c ++ rest /\ 56 <= len c.
Proof.
  intros Hb Hs Hl. pose proof (long_header k l tl (b0 - l) kk c rest Hb Hs Hl) as H.
  replace (l + (b0 - l)) with b0 in H by lia. rewrite H. split; intros (? & ? & ?); split_and!; try done;
    [rewrite (puthead_tag s 0)|rewrite (puthead_tag 0 s)]; done.
Qed.

Lemma Split_sound b k c rest : Forall is_byte b -> len b < two64 ->
  Split b = Ok (k, c, rest) -> b = encode_value k c ++ rest /\ kind_ok k c.
Proof.
  intros Hb Hl. destruct b as [|b0 tl]; [done|]. inversion_clear Hb as [|? ? Hb0 Htl].
  unfold is_byte in Hb0. rewrite len_cons in Hl. rewrite Split_unfold. unfold encode_value, encode_list.
  destruct (Z.ltb_spec b0 0x80).
  { change (b0 :: tl) with ([] ++ (b0 :: tl)).
    intros (-> & E & El)%split_rest_ok; [|done|lia|simpl; rewrite len_cons; lia].
    destruct c as [|x [|]]; [done| |exfalso; rewrite !len_cons in El; pose proof (len_nonneg l); lia]. simplify_eq/=.
    done. }
  destruct (Z.ltb_spec b0 0xB8).
  { destruct ((b0 - 0x80 =? 1) && (1 <? len (b0 :: tl)) && (default 0 (tl !! 0%nat) <? 128)) eqn:Ec; [done|].
    intros (-> & E & H56)%(short_header _ _ 0xB7); [|lia..]. rewrite <- app_assoc. split; [done|].
    destruct c as [|x [|]]; [done| |done]. simpl. rewrite puthead_short in E by done. simplify_eq/=.
    rewrite !len_cons in Ec. pose proof (len_nonneg rest). rewrite (proj2 (Z.ltb_lt 1 _)) in Ec by lia.
    change (len [x]) with 1 in Ec. simpl in Ec. by apply Z.ltb_ge in Ec. }
  destruct (Z.ltb_spec b0 0xC0).
  { intros (-> & E & H56)%(long_header_tag _ 0x80); [|done|lia..]. rewrite <- app_assoc. split; [done|].
    destruct c as [|x [|]]; [done| |done]. by change (len [x]) with 1 in H56. }
  destruct (Z.ltb_spec b0 0xF8).
  { intros (-> & E & H56)%(short_header _ _ 0xF7); [|lia..]. rewrite <- app_assoc.
    split; [done|]. by destruct c as [|x [|]]. }
  intros (-> & E & H56)%(long_header_tag _ 0xC0); [|done|lia..]. rewrite <- app_assoc.
  split; [done|]. by destruct c as [|x [|]].
Qed.

Lemma short_byte s l n b0 t u : n < 56 -> b0 :: t = puthead s l n ++ u -> b0 = s + n /\ t = u.
Proof. intros H E. rewrite puthead_short in E by done. by simplify_eq/=. Qed.
Lemma long_byte s l n b0 t u : 56 <= n < two64 -> b0 :: t = puthead s l n ++ u ->
  1 <= b0 - l <= 8 /\ t = putint n ++ u.
Proof.
  intros H E. rewrite puthead_long in E by lia. simplify_eq/=. split; [|done].
  pose proof (putint_length n ltac:(unfold is_u64; lia)). unfold len. lia.
Qed.

Lemma Split_complete b k c rest : Forall is_byte b -> len b < two64 ->
  b = encode_value k c ++ rest -> kind_ok k c -> Split b = Ok (k, c, rest).
Proof.
  intros Hb Hl E Hk.
  assert (len c <= len b) as Hlc.
  { rewrite E. unfold encode_value, encode_list. destruct k; rewrite ?len_app;
    pose proof (len_nonneg rest); pose proof (len_nonneg (puthead 0x80 0xB7 (len c)));
    pose proof (len_nonneg (puthead 0xC0 0xF7 (len c))); lia. }
  destruct b as [|b0 tl].
  { exfalso. destruct k; simpl in E, Hk; [by destruct c| |]; unfold encode_list in E; symmetry in E;
      apply app_nil in E as [E _]; apply app_nil in E as [E _];
      [destruct (puthead_cons 0x80 0xB7 (len c)) as (?&?&E')|destruct (puthead_cons 0xC0 0xF7 (len c)) as (?&?&E')];
      by rewrite E' in E. }
  inversion_clear Hb as [|? ? Hb0 Htl]. unfold is_byte in Hb0. rewrite !len_cons in *.
  rewrite Split_unfold. pose proof (len_nonneg c).
  destruct k; unfold encode_value, encode_list in E; simpl in Hk.
  - destruct c as [|x [|]]; [done| |done]. simplify_eq/=. rewrite (proj2 (Z.ltb_lt _ _)) by done.
    change (x :: rest) with ([] ++ (x :: rest)).
    apply split_rest_ok; [done|lia|simpl; rewrite len_cons; lia|done].
  - rewrite <- app_assoc in E. destruct (Z.lt_ge_cases (len c) 56) as [H56|H56].
    + pose proof (short_byte _ _ _ _ _ _ H56 E) as [E0 Et].
      rewrite (proj2 (Z.ltb_ge _ 0x80)), (proj2 (Z.ltb_lt _ 0xB8)) by lia.
      destruct ((b0 - 0x80 =? 1) && (1 <? len (b0 :: tl)) && (default 0 (tl !! 0%nat) <? 128)) eqn:Ec.
      * exfalso. assert (len c = 1) by lia. destruct c as [|x [|]]; simplify_eq/=;
          [change (len []) with 0 in *|]; try lia. pose proof (len_nonneg l). rewrite !len_cons in *. lia.
      * by apply (short_header _ _ 0xB7); [lia..|].
    + pose proof (long_byte _ _ (len c) _ _ _ ltac:(lia) E) as [E0 Et].
      rewrite (proj2 (Z.ltb_ge _ 0x80)), (proj2 (Z.ltb_ge _ 0xB8)), (proj2 (Z.ltb_lt _ 0xC0)) by lia.
      by apply (long_header_tag _ 0x80); [done|lia..|].
  - rewrite <- app_assoc in E. destruct (Z.lt_ge_cases (len c) 56) as [H56|H56].
    + pose proof (short_byte _ _ _ _ _ _ H56 E) as [E0 Et].
      rewrite (proj2 (Z.ltb_ge _ 0x80)), (proj2 (Z.ltb_ge _ 0xB8)), (proj2 (Z.ltb_ge _ 0xC0)),
        (proj2 (Z.ltb_lt _ 0xF8)) by lia.
      by apply (short_header _ _ 0xF7); [lia..|].
    + pose proof (long_byte _ _ (len c) _ _ _ ltac:(lia) E) as [E0 Et].
      rewrite (proj2 (Z.ltb_ge _ 0x80)), (proj2 (Z.ltb_ge _ 0xB8)), (proj2 (Z.ltb_ge _ 0xC0)),
        (proj2 (Z.ltb_ge _ 0xF8)) by lia.
      by apply (long_header_tag _ 0xC0); [done|lia..|].
Qed.

(** ** The encoder buffer produces the encoding *)

Lemma item_ind' (P : item -> Prop) :
  (forall s, P (Str s)) -> (forall l, Forall P l -> P (Lst l)) -> forall x, P x.
Proof.
  intros HS HL. fix IH 1. intros [s|l]; [apply HS|]. apply HL. induction l; constructor; auto.
Qed.

(** The heads of a stretch of the buffer lie in order between its ends. *)
Fixpoint heads_in (lo : Z) (hs : list listhead) (hi : Z) : Prop :=
  match hs with
  | [] => lo <= hi
  | h :: hs => lo <= offset h /\ heads_in (offset h) hs hi
  end.

(** The output of a stretch that starts at position [pos]. *)
Fixpoint render (pos : Z) (hs : list listhead) (s : list Z) : list Z :=
  match hs with
  | [] => s
  | h :: hs =>
      take (Z.to_nat (offset h - pos)) s ++ encode_head h ++
      render (offset h) hs (drop (Z.to_nat (offset h - pos)) s)
  end.

Lemma heads_in_le lo hs hi : heads_in lo hs hi -> lo <= hi.
Proof. revert lo. induction hs as [|h hs IH]; simpl; [done|]. intros lo [? ?%IH]. lia. Qed.

Lemma heads_in_app lo hs mid hs' hi : heads_in lo hs mid -> heads_in mid hs' hi -> heads_in lo (hs ++ hs') hi.
Proof.
  revert lo. induction hs as [|h hs IH]; simpl; intros lo H H'.
  - destruct hs' as [|h' hs']; simpl in *; [lia|]. destruct H'. split; [lia|done].
  - destruct H as [? H]. split; [done|]. by apply IH.
Qed.

Lemma render_app lo hs hs' s s' :
  heads_in lo hs (lo + len s) -> heads_in (lo + len s) hs' (lo + len s + len s') ->
  render lo (hs ++ hs') (s ++ s') = render lo hs s ++ render (lo + len s) hs' s'.
Proof.
  revert lo s. induction hs as [|h hs IH]; intros lo s H H'; simpl.
  - destruct hs' as [|h' hs']; simpl in *; [done|]. destruct H' as [Hl H'].
    apply heads_in_le in H'. rewrite take_app, drop_app. unfold len in *.
    rewrite (take_ge s), (drop_ge s) by lia. rewrite <- app_assoc. simpl.
    replace (Z.to_nat (offset h' - lo) - length s)%nat
      with (Z.to_nat (offset h' - (lo + Z.of_nat (length s)))) by lia. done.
  - destruct H as [Hl H]. pose proof (heads_in_le _ _ _ H) as Hle.
    assert (len s = offset h - lo + len (drop (Z.to_nat (offset h - lo)) s)) as El.
    { unfold len in *. rewrite length_drop. lia. }
    rewrite take_app_le, drop_app_le by (unfold len in *; lia). rewrite <- !app_assoc.
    do 2 f_equal.
    assert (offset h + len (drop (Z.to_nat (offset h - lo)) s) = lo + len s) as Eo by lia.
    rewrite IH; rewrite Eo; done.
Qed.

Lemma copy_heads_render hs pos s : 0 <= pos -> heads_in pos hs (len s) ->
  let '(out, p) := copy_heads hs pos s in
  out ++ drop (Z.to_nat p) s = render pos hs (drop (Z.to_nat pos) s).
Proof.
  revert pos. induction hs as [|h hs IH]; intros pos Hp H; simpl; [done|].
  destruct H as [Hl H]. pose proof (heads_in_le _ _ _ H) as Hle.
  assert (pos + len (take (Z.to_nat (offset h - pos)) (drop (Z.to_nat pos) s)) = offset h) as ->.
  { unfold len in *. rewrite length_take, length_drop. lia. }
  specialize (IH (offset h) ltac:(lia) H). destruct (copy_heads hs (offset h) s) as [out p].
  rewrite <- !app_assoc, IH, drop_drop. repeat f_equal. lia.
Qed.

(** A stretch [s], [hs] of the buffer, with the size [n] of its headers, at position [lo]. *)
Record stretch (lo : Z) (s : list Z) (hs : list listhead) (n : Z) (out : list Z) : Prop := {
  stretch_in : heads_in lo hs (lo + len s);
  stretch_out : render lo hs s = out;
  stretch_size : len s + n = len out }.

Definition extend (w : encBuffer) (s : list Z) (hs : list listhead) (n : Z) : encBuffer :=
  mkEncBuffer (str w ++ s) (lheads w ++ hs) (lhsize w + n).

Lemma stretch_write lo s : stretch lo s [] 0 s.
Proof. split; simpl; [pose proof (len_nonneg s); lia|done|lia]. Qed.

Lemma stretch_app lo s hs n out s' hs' n' out' :
  stretch lo s hs n out -> stretch (lo + len s) s' hs' n' out' ->
  stretch lo (s ++ s') (hs ++ hs') (n + n') (out ++ out').
Proof.
  intros [Hi Ho Hs] [Hi' Ho' Hs']. split.
  - rewrite len_app, Z.add_assoc. by eapply heads_in_app.
  - rewrite render_app by done. by rewrite Ho, Ho'.
  - rewrite !len_app. lia.
Qed.

Lemma extend_extend w s hs n s' hs' n' :
  extend (extend w s hs n) s' hs' n' = extend w (s ++ s') (hs ++ hs') (n + n').
Proof. unfold extend. simpl. by rewrite !app_assoc, Z.add_assoc. Qed.

Lemma write_extend b w : write b w = extend w b [] 0.
Proof. unfold write, extend. by rewrite app_nil_r, Z.add_0_r. Qed.

Lemma writeBytes_extend b w : writeBytes b w = extend w (encode_string b) [] 0.
Proof.
  assert (forall n, encodeStringHeader n w = write (puthead 0x80 0xB7 n) w) as Hh.
  { intros n. unfold encodeStringHeader, puthead. by case_match. }
  assert (write b (encodeStringHeader (len b) w) = extend w (puthead 0x80 0xB7 (len b) ++ b) [] 0) as E.
  { rewrite Hh, !write_extend, extend_extend. done. }
  unfold writeBytes, encode_string. destruct b as [|c [|]]; try done.
  destruct (Z.leb_spec c 0x7F); [rewrite (proj2 (Z.ltb_lt _ _)) by lia; apply write_extend|].
  by rewrite (proj2 (Z.ltb_ge _ _)) by lia.
Qed.

Lemma puthead_len s l n : is_u64 n -> len (puthead s l n) = headsize n.
Proof.
  intros Hn. unfold puthead, headsize. case_match; [done|]. rewrite len_cons, intsize_putint by done. lia.
Qed.

Definition writes (f : encBuffer -> option encBuffer) (out : list Z) : Prop :=
  forall w, exists s hs n, f w = Some (extend w s hs n) /\ stretch (len (str w)) s hs n out.

Lemma writes_write b : writes (fun w => Some (write b w)) b.
Proof. intros w. exists b, [], 0. rewrite write_extend. split; [done|]. apply stretch_write. Qed.

Lemma writes_bytes b : writes (fun w => Some (writeBytes b w)) (encode_string b).
Proof. intros w. exists (encode_string b), [], 0. rewrite writeBytes_extend. split; [done|]. apply stretch_write. Qed.

Lemma writes_bind f g a b : writes f a -> writes g b -> writes (fun w => w ← f w; g w) (a ++ b).
Proof.
  intros Hf Hg w. destruct (Hf w) as (s & hs & n & E & Hs). rewrite E. simpl.
  destruct (Hg (extend w s hs n)) as (s' & hs' & n' & -> & Hs').
  exists (s ++ s'), (hs ++ hs'), (n + n'). split; [by rewrite extend_extend|].
  eapply stretch_app; [done|]. simpl in Hs'. by rewrite len_app in Hs'.
Qed.

Lemma writes_loop {A} (f : A -> encBuffer -> option encBuffer) (e : A -> list Z) l :
  Forall (fun x => writes (f x) (e x)) l ->
  writes (fun w => foldl (fun ow x => w ← ow; f x w) (Some w) l) (concat (map e l)).
Proof.
  induction 1 as [|x l Hx _ IH]; intros w; simpl.
  - exists [], [], 0. split; [by rewrite <- write_extend; unfold write; rewrite app_nil_r; destruct w|].
    apply stretch_write.
  - destruct (Hx w) as (s & hs & n & -> & Hs). destruct (IH (extend w s hs n)) as (s' & hs' & n' & -> & Hs').
    exists (s ++ s'), (hs ++ hs'), (n + n'). split; [by rewrite extend_extend|].
    eapply stretch_app; [done|]. simpl in Hs'. by rewrite len_app in Hs'.
Qed.

Lemma concat_le {A} (e : A -> list Z) l x : x ∈ l -> len (e x) <= len (concat (map e l)).
Proof.
  induction l as [|y l IH]; [by intros ?%elem_of_nil|]. simpl. rewrite len_app.
  pose proof (len_nonneg (e y)). pose proof (len_nonneg (concat (map e l))).
  intros [->|H1]%elem_of_cons; [lia|]. specialize (IH H1). lia.
Qed.

Lemma list_listEnd f content w :
  writes f content -> len content < two64 ->
  exists s hs n,
    (let '(i, w) := list_ w in w ← f w; listEnd i w) = Some (extend w s hs n)
    /\ stretch (len (str w)) s hs n (encode_list content).
Proof.
  intros Hf Hl. simpl.
  destruct (Hf (mkEncBuffer (str w) (lheads w ++ [mkListhead (len (str w)) (lhsize w)]) (lhsize w)))
    as (s & hs & n & -> & [Hi Ho Hs]). simpl in Hi, Ho.
  unfold listEnd, extend. simpl. rewrite <- app_assoc. simpl.
  rewrite list_lookup_middle by done. simpl.
  assert (size (mkEncBuffer (str w ++ s) (lheads w ++ mkListhead (len (str w)) (lhsize w) :: hs) (lhsize w + n))
    - len (str w) - lhsize w = len content) as ->.
  { unfold size. simpl. rewrite len_app. lia. }
  replace (length (lheads w)) with (length (lheads w) + 0)%nat by lia.
  rewrite insert_app_r. simpl.
  exists s, (mkListhead (len (str w)) (len content) :: hs), (n + headsize (len content)).
  split; [by rewrite Z.add_assoc|]. split.
  - simpl. split; [lia|done].
  - simpl. rewrite Z.sub_diag. simpl. rewrite ?take_0, ?drop_0. simpl. rewrite Ho. done.
  - unfold encode_list. rewrite len_app, puthead_len by (unfold is_u64; pose proof (len_nonneg content); lia). lia.
Qed.

Lemma writes_in_list f c : writes f c -> len c < two64 ->
  writes (fun w => let '(i, w) := list_ w in w ← f w; listEnd i w) (encode_list c).
Proof. intros Hf Hc w. by apply list_listEnd. Qed.

Lemma encode_list_le content : len content <= len (encode_list content).
Proof. unfold encode_list. rewrite len_app. pose proof (len_nonneg (puthead 0xC0 0xF7 (len content))). lia. Qed.

Lemma encode_string_le s : len s <= len (encode_string s).
Proof.
  unfold encode_string. destruct s as [|x [|]]; [unfold len; simpl; lia|case_match; [done|]|];
    rewrite len_app; [pose proof (len_nonneg (puthead 128 183 1))|
      pose proof (len_nonneg (puthead 128 183 (len (x :: z :: l))))]; lia.
Qed.

Lemma puthead_bytes s l n : is_u64 n -> 0 <= s <= 0xC0 -> 0 <= l <= 0xF7 -> Forall is_byte (puthead s l n).
Proof.
  intros Hn Hs Hl. unfold puthead. destruct (Z.ltb_spec n 56).
  - apply Forall_singleton. unfold is_byte, is_u64 in *. lia.
  - pose proof (putint_length n Hn). apply Forall_cons; [unfold is_byte; lia|apply putint_byte].
Qed.

Lemma encode_string_bytes s : len s < two64 -> Forall is_byte s -> Forall is_byte (encode_string s).
Proof.
  intros Hl Hs. assert (is_u64 (len s)) by (unfold is_u64; pose proof (len_nonneg s); lia).
  assert (Forall is_byte (puthead 0x80 0xB7 (len s) ++ s)) by (apply Forall_app; split; [apply puthead_bytes; [done|lia..]|done]).
  unfold encode_string. destruct s as [|c [|]]; try done. by case_match.
Qed.

Lemma encode_list_bytes c : len c < two64 -> Forall is_byte c -> Forall is_byte (encode_list c).
Proof.
  intros Hl Hs. assert (is_u64 (len c)) by (unfold is_u64; pose proof (len_nonneg c); lia).
  apply Forall_app; split; [apply puthead_bytes; [done|lia..]|done].
Qed.

Lemma write_item_writes x : len (encode x) < two64 -> writes (write_item x) (encode x).
Proof.
  induction x as [s|l IH] using item_ind'; intros Hl w.
  - exists (encode_string s), [], 0. simpl. rewrite writeBytes_extend. split; [done|]. apply stretch_write.
  - simpl in Hl. pose proof (encode_list_le (concat (map encode l))).
    assert (Forall (fun x => writes (write_item x) (encode x)) l) as Hw.
    { clear -IH H Hl. assert (len (concat (map encode l)) < two64) as Hc by lia. clear H Hl.
      induction IH as [|x l Hx IH IHl]; [constructor|]. simpl in Hc. rewrite len_app in Hc.
      pose proof (len_nonneg (encode x)). pose proof (len_nonneg (concat (map encode l))).
      constructor; [apply Hx; lia|apply IHl; lia]. }
    destruct l as [|x l]; [|by apply (list_listEnd _ _ w (writes_loop _ _ _ Hw)); lia].
    exists [0xC0], [], 0. simpl. rewrite write_extend. split; [done|]. apply stretch_write.
Qed.

Lemma writes_makeBytes f out : writes f out ->
  (w ← f newEncBuffer; Some (makeBytes w)) = Some out.
Proof.
  intros Hf. destruct (Hf newEncBuffer) as (s & hs & n & E & [Hi Ho Hs]). rewrite E. simpl. f_equal.
  unfold makeBytes, copyTo, size, extend. simpl in *.
  pose proof (copy_heads_render hs 0 s ltac:(done) Hi) as Hc. destruct (copy_heads hs 0 s) as [out' p].
  rewrite Hc, drop_0. replace (0 + n) with n by lia. unfold len in *.
  change (Z.of_nat (length (@nil Z))) with 0 in Ho. change (Z.to_nat 0) with 0%nat. rewrite Ho.
  rewrite take_ge by lia. replace (_ - _)%nat with 0%nat by lia. simpl. by rewrite app_nil_r.
Qed.

(** ** Strings and integers *)

Lemma encode_string_value c :
  exists k, kind_ok k c /\ k <> List /\ encode_string c = encode_value k c.
Proof.
  destruct c as [|x [|]]; [by exists String| |by exists String].
  destruct (Z.ltb_spec x 128) as [H|H]; simpl.
  - exists Byte. split; [done|]. split; [done|]. by rewrite (proj2 (Z.ltb_lt _ _)).
  - exists String. split; [done|]. split; [done|]. by rewrite (proj2 (Z.ltb_ge _ _)).
Qed.

Lemma encode_value_string k c : kind_ok k c -> k <> List -> encode_value k c = encode_string c.
Proof.
  destruct k; simpl; [| |done]; destruct c as [|x [|]]; simpl; try done; intros H _.
  - by rewrite (proj2 (Z.ltb_lt _ _)).
  - by rewrite (proj2 (Z.ltb_ge _ _)).
Qed.

Lemma SplitString_ok b c rest : Forall is_byte b -> len b < two64 ->
  SplitString b = Ok (c, rest) <-> b = encode_string c ++ rest.
Proof.
  intros Hb Hl. unfold SplitString. split.
  - intros ([[k c'] r'] & Hs & Hk)%result_bind_Ok.
    apply Split_sound in Hs as [E Ho]; [|done..].
    destruct k; simplify_eq/=; f_equal;
      [apply (encode_value_string Byte)|apply (encode_value_string String)]; done.
  - intros E. destruct (encode_string_value c) as (k & Hk & Hn & Ek). rewrite Ek in E.
    rewrite (Split_complete b k c rest) by done. by destruct k.
Qed.

(** The content of an integer: its bytes without leading zeros. *)
Definition uint_content (i : Z) : list Z := if i =? 0 then [] else putint i.

Lemma uint_content_encode i : is_u64 i ->
  encode_string (uint_content i) =
    if i =? 0 then [0x80] else if i <? 128 then [i] else 0x80 + len (putint i) :: putint i.
Proof.
  intros Hi. unfold uint_content. destruct (Z.eqb_spec i 0); [done|].
  destruct (Z.ltb_spec i 128) as [H|H].
  - unfold putint. rewrite (proj2 (Z.ltb_lt _ _)) by lia. simpl. unfold is_u64 in Hi.
    rewrite Z.mod_small by lia. by rewrite (proj2 (Z.ltb_lt _ _)) by lia.
  - pose proof (putint_length i Hi) as Hlen. pose proof (putint_value i Hi) as Hv.
    destruct (putint i) as [|x [|y l]] eqn:E; [simpl in Hlen; lia| |].
    + unfold be_value in Hv. simpl in Hv. simpl. rewrite (proj2 (Z.ltb_ge _ _)) by lia. done.
    + unfold encode_string. rewrite puthead_short by (unfold len in *; lia). done.
Qed.

Lemma AppendUint64_encode b i : is_u64 i -> AppendUint64 b i = b ++ encode_string (uint_content i).
Proof.
  intros Hi. rewrite uint_content_encode by done. unfold AppendUint64.
  destruct (i =? 0); [done|]. destruct (i <? 128); [done|]. unfold putint. repeat (case_match; [done|]). done.
Qed.

Lemma writeUint64_encode i w : is_u64 i -> writeUint64 i w = write (encode_string (uint_content i)) w.
Proof.
  intros Hi. rewrite uint_content_encode by done. unfold writeUint64. by repeat case_match.
Qed.

(** The value of a content that is a canonical integer. *)
Lemma uint_content_value c x : Forall is_byte c ->
  (match c with
   | [] => Ok 0
   | [y] => if y =? 0 then Err ErrCanonInt else Ok y
   | _ => if 8 <? len c then Err errUintOverflow
          else match readSize c (len c) with Ok v => Ok v | Err _ => Err ErrCanonInt end
   end = Ok x) <-> is_u64 x /\ c = uint_content x.
Proof.
  intros Hc. unfold uint_content. split.
  - destruct c as [|y [|z c]]; [by intros [= <-]| |].
    + destruct (Z.eqb_spec y 0); [done|]. intros [= <-]. inversion_clear Hc as [|? ? Hy _]. unfold is_byte in Hy.
      rewrite (proj2 (Z.eqb_neq _ _)) by done. unfold is_u64. split; [lia|]. unfold putint.
      rewrite (proj2 (Z.ltb_lt _ _)) by lia. simpl. by rewrite Z.mod_small by lia.
    + destruct (Z.ltb_spec 8 (len (y :: z :: c))) as [|H8]; [done|].
      destruct (readSize _ _) eqn:E; [|done]. intros [= ->].
      apply readSize_ok in E as (_ & H56 & Hu & E); [|done|rewrite !len_cons in *; pose proof (len_nonneg c); lia].
      rewrite take_ge in E by (unfold len; lia). rewrite (proj2 (Z.eqb_neq _ _)) by lia. done.
  - intros [Hu ->]. destruct (Z.eqb_spec x 0) as [H0|Hx]; [by rewrite H0|].
    pose proof (putint_length x Hu) as Hl. pose proof (putint_value x Hu) as Hv.
    unfold is_u64 in Hu. pose proof (putint_head x ltac:(done) ltac:(lia)) as Hh.
    destruct (putint x) as [|y [|z c]] eqn:E; [simpl in Hl; lia| |].
    + unfold be_value in Hv. simpl in Hv, Hh. rewrite (proj2 (Z.eqb_neq _ _)) by done. f_equal. lia.
    + rewrite (proj2 (Z.ltb_ge _ _)) by (unfold len; lia). rewrite <- E in *.
      assert (readSize (putint x) (len (putint x)) = Ok x) as ->; [|done].
      apply readSize_ok; [done|unfold len; lia|]. split; [lia|].
      split; [|split; [done|rewrite take_ge by (unfold len; lia); done]].
      destruct (Z.lt_ge_cases x 56) as [H|H]; [|done]. exfalso.
      unfold putint in E. rewrite (proj2 (Z.ltb_lt x (2 ^ 8))) in E by lia. simpl in E. done.
Qed.

Lemma SplitUint64_content b : SplitUint64 b =
  match SplitString b with
  | Ok (c, rest) =>
      match (match c with
             | [] => Ok 0
             | [y] => if y =? 0 then Err ErrCanonInt else Ok y
             | _ => if 8 <? len c then Err errUintOverflow
                    else match readSize c (len c) with Ok v => Ok v | Err _ => Err ErrCanonInt end
             end) with
      | Ok x => Ok (x, rest)
      | Err e => Err e
      end
  | Err e => Err e
  end.
Proof.
  unfold SplitUint64. destruct (SplitString b) as [[c rest]|]; [|done]. simpl.
  destruct c as [|y [|z c]]; [done|by case_match|]. case_match; [done|]. by case_match.
Qed.

(** ** Counting values *)

Lemma Split_readKind b : Split b =
  match readKind b with
  | Ok (k, ts, cs) => Ok (k, take (Z.to_nat cs) (drop (Z.to_nat ts) b), drop (Z.to_nat cs) (drop (Z.to_nat ts) b))
  | Err e => Err e
  end.
Proof. unfold Split. by destruct (readKind b) as [[[? ?] ?]|]. Qed.

Lemma readSize_range b n v : Forall is_byte b -> readSize b n = Ok v -> 56 <= v.
Proof. unfold readSize. intros Hb. repeat (case_match; try done). intros [= <-]. apply orb_false_iff in H0 as [H0 _]. by apply Z.ltb_ge in H0. Qed.

Lemma readKind_sizes b k ts cs : Forall is_byte b -> readKind b = Ok (k, ts, cs) -> 0 <= ts /\ 0 <= cs /\ 1 <= ts + cs.
Proof.
  intros Hb. destruct b as [|b0 tl]; [done|]. inversion_clear Hb as [|? ? Hb0 Htl]. unfold is_byte in Hb0.
  unfold readKind. intros H. apply result_bind_Ok in H as ([[k' ts'] cs'] & H & E).
  assert (k = k' /\ ts = ts' /\ cs = cs') as (-> & -> & ->) by (case_match; by simplify_eq). clear E.
  split_cmp; simplify_eq/=; try lia; repeat case_match; simplify_eq/=; try lia;
    apply result_bind_Ok in H as (v & Hv & Ho); apply readSize_range in Hv; simplify_eq/=; try done; lia.
Qed.

(** A sequence of values. *)
Definition encode_values (vs : list (Kind * list Z)) : list Z :=
  concat (map (fun '(k, c) => encode_value k c) vs).

Lemma count_values_S fuel b0 tl : count_values (S fuel) (b0 :: tl) =
  match readKind (b0 :: tl) with
  | Err e => Some (Err e)
  | Ok (_, tagsize, size) =>
      match count_values fuel (drop (Z.to_nat (tagsize + size)) (b0 :: tl)) with
      | Some (Ok i) => Some (Ok (i + 1))
      | r => r
      end
  end.
Proof. done. Qed.

Lemma count_values_spec fuel b : Forall is_byte b -> len b < two64 -> (length b <= fuel)%nat ->
  exists r, count_values fuel b = Some r /\
    forall n, r = Ok n <->
      exists vs, Forall (fun '(k, c) => kind_ok k c) vs /\ b = encode_values vs /\ n = Z.of_nat (length vs).
Proof.
  revert b. induction fuel as [|fuel IH]; intros b Hb Hl Hf.
  all: destruct b as [|b0 tl]; [exists (Ok 0); split; [done|]; intros n; split;
    [intros [= <-]; by exists []|] | try (simpl in Hf; lia)].
  1, 2: intros ([|[k c] vs] & Hvs & E & ->); [done|]; exfalso; inversion_clear Hvs as [|? ? Hk _];
    symmetry in E; apply app_nil in E as [E _];
    pose proof (Split_complete [] k c [] ltac:(constructor) ltac:(done) ltac:(by rewrite E) Hk); done.
  rewrite count_values_S. set (b := b0 :: tl) in *.
  pose proof (Split_readKind b) as HS. destruct (readKind b) as [[[k ts] cs]|e] eqn:EK.
  - pose proof (readKind_sizes b k ts cs Hb EK) as (Hts & Hcs & H1).
    rewrite drop_drop, <- Z2Nat.inj_add in HS by lia.
    pose proof (Split_sound b _ _ _ Hb Hl HS) as [E Hk].
    assert (length (drop (Z.to_nat (ts + cs)) b) <= fuel)%nat as Hf'
      by (rewrite length_drop; simpl in *; lia).
    destruct (IH (drop (Z.to_nat (ts + cs)) b) ltac:(by apply Forall_drop)
      ltac:(unfold len in *; rewrite length_drop; lia) Hf') as (r & -> & Hr).
    destruct r as [i|e]; eexists; (split; [done|]); intros n; split.
    + intros [= <-]. destruct (proj1 (Hr i) eq_refl) as (vs & Hvs & Ev & Ei).
      exists ((k, take (Z.to_nat cs) (drop (Z.to_nat ts) b)) :: vs). split; [by constructor|].
      split; [by rewrite E at 1; rewrite Ev|]. simpl. lia.
    + intros (vs & Hvs & Ev & ->). destruct vs as [|[k' c'] vs]; [done|]. inversion_clear Hvs as [|? ? Hk' Hvs'].
      rewrite (Split_complete b k' c' (encode_values vs)) in HS by done. injection HS as _ _ Er.
      rewrite <- Er in Hr. assert (Ok i = @Ok rlpError Z (Z.of_nat (length vs))) as [= ->]; [|simpl; f_equal; lia].
      apply Hr. by exists vs.
    + done.
    + intros (vs & Hvs & Ev & ->). exfalso. destruct vs as [|[k' c'] vs]; [done|]. inversion_clear Hvs as [|? ? Hk' Hvs'].
      rewrite (Split_complete b k' c' (encode_values vs)) in HS by done. injection HS as _ _ Er.
      rewrite <- Er in Hr. assert (Err e = @Ok rlpError Z (Z.of_nat (length vs))); [|done].
      apply Hr. by exists vs.
  - eexists; split; [done|]. intros n. split; [done|]. intros (vs & Hvs & Ev & ->). exfalso.
    destruct vs as [|[k' c'] vs]; [done|]. inversion_clear Hvs as [|? ? Hk' Hvs'].
    by rewrite (Split_complete b k' c' (encode_values vs)) in HS.
Qed.

(** ** What the encoding promises *)

(** C18. [Split] accepts a byte slice exactly when it starts with the encoding of a
    value in its only valid form, and then returns that value's kind and content and
    the bytes after it: no slice splits in two ways, and no value has two encodings. *)
Theorem split_accepts_encodings b k c rest : Forall is_byte b -> len b < two64 ->
  Split b = Ok (k, c, rest) <-> b = encode_value k c ++ rest /\ kind_ok k c.
Proof.
  intros Hb Hl. split; [by apply Split_sound|]. intros [E Hk]. by apply Split_complete.
Qed.

Definition sample : list Z := [0xc8; 0x83; 0x61; 0x62; 0x63; 0x83; 0x64; 0x65; 0x66; 0x07].

Lemma split_accepts_encodings_witness :
  sample = encode_value List [0x83; 0x61; 0x62; 0x63; 0x83; 0x64; 0x65; 0x66] ++ [0x07]
  /\ kind_ok List [0x83; 0x61; 0x62; 0x63; 0x83; 0x64; 0x65; 0x66].
Proof.
  apply (split_accepts_encodings sample); [|vm_compute; done|vm_compute; done].
  repeat constructor; vm_compute; intuition congruence.
Defined.

(** C19. The encoder buffer, which learns the size of a list only after its contents are
    written and keeps list headers apart until the output is copied out, produces
    exactly the encoding, of the size it announced. *)
Theorem encode_buffer_agrees x : len (encode x) < two64 ->
  exists buf, write_item x newEncBuffer = Some buf
    /\ size buf = len (encode x) /\ EncodeToBytes x = Some (encode x).
Proof.
  intros Hl. pose proof (write_item_writes x Hl) as Hw.
  destruct (Hw newEncBuffer) as (s & hs & n & E & [Hi Ho Hs]).
  exists (extend newEncBuffer s hs n). split; [done|]. split; [unfold size; simpl; lia|].
  by apply writes_makeBytes.
Qed.

Lemma encode_buffer_agrees_witness :
  EncodeToBytes (Lst [Str [0x63; 0x61; 0x74]; Lst []; Lst [Str [1]; Str [0x80]]])
  = Some [0xc9; 0x83; 0x63; 0x61; 0x74; 0xc0; 0xc3; 0x01; 0x81; 0x80].
Proof.
  destruct (encode_buffer_agrees (Lst [Str [0x63; 0x61; 0x74]; Lst []; Lst [Str [1]; Str [0x80]]]))
    as (buf & _ & _ & E); [vm_compute; done|]. exact E.
Defined.

(** [CountValues] terminates on every byte slice, and succeeds exactly on a sequence
    of encoded values, with their number. *)
Theorem count_values_counts b : Forall is_byte b -> len b < two64 ->
  exists r, CountValues b = Some r /\
    forall n, r = Ok n <->
      exists vs, Forall (fun '(k, c) => kind_ok k c) vs /\ b = encode_values vs /\ n = Z.of_nat (length vs).
Proof. intros Hb Hl. by apply count_values_spec. Qed.

Lemma count_values_counts_witness : exists r, CountValues [0x01; 0xc0; 0x82; 0x80; 0x80] = Some r /\ r = Ok 3.
Proof.
  destruct (count_values_counts [0x01; 0xc0; 0x82; 0x80; 0x80]) as (r & E & Hr);
    [repeat constructor; vm_compute; intuition congruence|vm_compute; done|].
  exists r. split; [exact E|]. apply Hr.
  exists [(Byte, [0x01]); (List, []); (String, [0x80; 0x80])].
  split; [repeat constructor|]. split; [vm_compute; reflexivity|reflexivity].
Defined.

(** [SplitUint64] reads back every integer that [AppendUint64] and the encoder
    buffer write, and accepts nothing else: no leading zeros and no larger integer. *)
Theorem uint64_roundtrip b x rest : Forall is_byte b -> len b < two64 ->
  (SplitUint64 b = Ok (x, rest) <-> is_u64 x /\ b = AppendUint64 [] x ++ rest)
  /\ (is_u64 x -> writeUint64 x newEncBuffer = write (AppendUint64 [] x) newEncBuffer
       /\ IntSize x = len (AppendUint64 [] x)).
Proof.
  intros Hb Hl. split.
  - rewrite SplitUint64_content. split.
    + destruct (SplitString b) as [[c r]|] eqn:ES; [|done].
      apply SplitString_ok in ES; [|done..].
      assert (Forall is_byte c) as Hc.
      { destruct (encode_string_value c) as (k & Hk & _ & Ek). rewrite ES, Ek in Hb.
        apply Forall_app in Hb as [Hb _].
        destruct k; simpl in Hb; [done| |]; unfold encode_list in Hb; by apply Forall_app in Hb as [_ Hb]. }
      match goal with |- match ?m with _ => _ end = _ -> _ => destruct m eqn:E; [|done] end.
      intros [= -> ->]. apply uint_content_value in E as [Hu ->]; [|done].
      by rewrite AppendUint64_encode.
    + intros [Hu E]. rewrite AppendUint64_encode in E by done. simpl in E.
      rewrite (proj2 (SplitString_ok b (uint_content x) rest Hb Hl)) by done.
      pose proof (proj2 (uint_content_value (uint_content x) x
        ltac:(unfold uint_content; case_match; [constructor|apply putint_byte])) (conj Hu eq_refl)) as E'.
      by rewrite E'.
  - intros Hu. split; [by rewrite writeUint64_encode, AppendUint64_encode|].
    rewrite AppendUint64_encode, uint_content_encode by done. unfold IntSize.
    destruct (Z.eqb_spec x 0) as [->|Hx]; [done|]. unfold is_u64 in Hu. simpl.
    destruct (x <? 128); [done|]. rewrite intsize_putint by done. rewrite len_cons. lia.
Qed.

Lemma uint64_roundtrip_witness : is_u64 1024 /\ [0x82; 0x04; 0x00; 0xff] = AppendUint64 [] 1024 ++ [0xff].
Proof.
  apply (uint64_roundtrip [0x82; 0x04; 0x00; 0xff] 1024 [0xff]);
    [repeat constructor; vm_compute; intuition congruence|vm_compute; done|vm_compute; done].
Defined.
