(* ===== verification/RlpStream.v ===== *)
(** The stream decoder of [rlp/decode.go], over a reader of a byte slice.

    A stream keeps the input, the bytes it may still read, the sizes of the lists it is
    in, and the kind and size of the value ahead once they have been read.  An
    operation returns a result and the new stream; contexts of errors are left out. *)

From stdpp Require Import base list numbers option strings.
From S2P Require Import Prelude Uint256 Rlp.
Import U256(be_value, be_bytes, be_bytes_length, be_bytes_byte, be_value_bytes, be_value_bound,
  be_bytes_value, be_value_snoc).
Open Scope Z_scope.

(** ** Errors *)

(** The messages of [decodeError]. *)
Inductive decodeError :=
| NonCanonicalInteger
| NonCanonicalSize
| ExpectedInputList
| ExpectedInputString
| InputStringTooLong
| InputStringTooShort
| InputListTooMany
| InputListTooFew
| TooFewElements
| WrongKindOfEmptyValue.

(** [NoFuel] is no error of the code: the model uses it where a loop does not end. *)
Inductive streamError :=
| EOL
| EOF
| UnexpectedEOF
| SExpectedString
| SExpectedList
| SCanonInt
| SCanonSize
| ElemTooLarge
| SValueTooLarge
| MoreThanOneValue
| NotInList
| NotAtEOL
| SUintOverflow
| Uint256Large
| InvalidBoolean (num : Z)
| WrongSize (size want : Z)
| DecodeError (e : decodeError)
| NoFuel.

#[global] Instance decodeError_eq_dec : EqDecision decodeError.
Proof. solve_decision. Defined.
#[global] Instance streamError_eq_dec : EqDecision streamError.
Proof. solve_decision. Defined.

Definition wrapStreamError (e : streamError) : streamError :=
  match e with
  | SCanonInt => DecodeError NonCanonicalInteger
  | SCanonSize => DecodeError NonCanonicalSize
  | SExpectedList => DecodeError ExpectedInputList
  | SExpectedString => DecodeError ExpectedInputString
  | SUintOverflow => DecodeError InputStringTooLong
  | NotAtEOL => DecodeError InputListTooMany
  | e => e
  end.

(** ** Streams *)

(** [kind] is [None] for -1; the head of [stack] is the innermost list. *)
Record Stream := mkStream {
  input : list Z;
  remaining : Z;
  limited : bool;
  stack : list Z;
  kind : option Kind;
  st_size : Z;
  kinderr : option streamError;
  byteval : Z
}.

Definition set_input (v : list Z) (s : Stream) : Stream :=
  mkStream v (remaining s) (limited s) (stack s) (kind s) (st_size s) (kinderr s) (byteval s).
Definition set_remaining (v : Z) (s : Stream) : Stream :=
  mkStream (input s) v (limited s) (stack s) (kind s) (st_size s) (kinderr s) (byteval s).
Definition set_stack (v : list Z) (s : Stream) : Stream :=
  mkStream (input s) (remaining s) (limited s) v (kind s) (st_size s) (kinderr s) (byteval s).
Definition set_kind (v : option Kind) (s : Stream) : Stream :=
  mkStream (input s) (remaining s) (limited s) (stack s) v (st_size s) (kinderr s) (byteval s).
Definition set_size (v : Z) (s : Stream) : Stream :=
  mkStream (input s) (remaining s) (limited s) (stack s) (kind s) v (kinderr s) (byteval s).
Definition set_kinderr (v : option streamError) (s : Stream) : Stream :=
  mkStream (input s) (remaining s) (limited s) (stack s) (kind s) (st_size s) v (byteval s).
Definition set_byteval (v : Z) (s : Stream) : Stream :=
  mkStream (input s) (remaining s) (limited s) (stack s) (kind s) (st_size s) (kinderr s) v.

(** [Reset] with a limit above 0, or none; [old] is what a pooled stream remembers. *)
Definition Reset (r : list Z) (inputLimit : Z) (old : Z) : Stream :=
  if 0 <? inputLimit then mkStream r inputLimit true [] None 0 None 0
  else mkStream r old false [] None 0 None 0.

Definition SM (A : Type) : Type := Stream -> result streamError A * Stream.

Definition sm_ret {A} (a : A) : SM A := fun s => (Ok a, s).
Definition sm_throw {A} (e : streamError) : SM A := fun s => (Err e, s).
Definition sm_bind {A B} (m : SM A) (k : A -> SM B) : SM B := fun s =>
  match m s with
  | (Ok a, s') => k a s'
  | (Err e, s') => (Err e, s')
  end.
Definition sm_get {A} (f : Stream -> A) : SM A := fun s => (Ok (f s), s).
Definition sm_put (f : Stream -> Stream) : SM unit := fun s => (Ok tt, f s).
(** An error that is looked at. *)
Definition sm_catch {A B} (m : SM A) (k : A -> SM B) (h : streamError -> SM B) : SM B := fun s =>
  match m s with
  | (Ok a, s') => k a s'
  | (Err e, s') => h e s'
  end.
(** [if err != nil { return wrapStreamError(err, typ) }] *)
Definition sm_wrap {A} (m : SM A) : SM A := sm_catch m sm_ret (fun e => sm_throw (wrapStreamError e)).

Declare Scope stream_scope.
Notation "'do' x <- m ; k" := (sm_bind m (fun x => k))
  (at level 10, x name, m at level 100, k at level 200) : stream_scope.
Notation "'do' ' p <- m ; k" := (sm_bind m (fun x => match x with p => k end))
  (at level 10, p pattern, m at level 100, k at level 200) : stream_scope.
Notation "m ;; k" := (sm_bind m (fun _ => k)) (at level 100, right associativity) : stream_scope.
Open Scope stream_scope.

Definition rearm : SM unit := sm_put (set_kind None).

(** ** Reading *)

Definition listLimit (s : Stream) : option Z := head (stack s).

Definition set_listLimit (limit : Z) (s : Stream) : Stream :=
  set_stack (match stack s with [] => [] | _ :: st => limit :: st end) s.

Definition willRead (n : Z) : SM unit :=
  rearm ;;
  do limit <- sm_get listLimit;
  (match limit with
   | Some limit => if limit <? n then sm_throw ElemTooLarge else sm_put (set_listLimit (u64 (limit - n)))
   | None => sm_ret tt
   end) ;;
  do lim <- sm_get limited;
  if lim : bool then
    do left_ <- sm_get remaining;
    if left_ <? n then sm_throw SValueTooLarge else sm_put (set_remaining (u64 (left_ - n)))
  else sm_ret tt.

Definition readFull (n : Z) : SM (list Z) :=
  willRead n ;;
  do inp <- sm_get input;
  sm_put (set_input (drop (Z.to_nat n) inp)) ;;
  if len inp <? n then sm_throw UnexpectedEOF else sm_ret (take (Z.to_nat n) inp).

Definition readByte : SM Z :=
  willRead 1 ;;
  do inp <- sm_get input;
  match inp with
  | [] => sm_throw UnexpectedEOF
  | b :: inp => sm_put (set_input inp) ;; sm_ret b
  end.

Definition readUint (size : Z) : SM Z :=
  if size =? 0 then rearm ;; sm_ret 0
  else if size =? 1 then readByte
  else
    do buf <- readFull size;
    if default 0 (buf !! 0%nat) =? 0 then sm_throw SCanonSize else sm_ret (be_value buf).

(** At the top level a missing tag is the end of the input. *)
Definition tag_error (st : list Z) (e : streamError) : streamError :=
  match st, e with
  | [], UnexpectedEOF => EOF
  | [], SValueTooLarge => EOF
  | _, e => e
  end.

Definition long_size (n : Z) : SM Z :=
  do size <- readUint n;
  if size <? 56 then sm_throw SCanonSize else sm_ret size.

(** [(kind, size, err)]: the kind is returned with an error too. *)
Definition Stream_readKind (s : Stream) : Kind * Z * option streamError * Stream :=
  match readByte s with
  | (Err e, s) => (Byte, 0, Some (tag_error (stack s) e), s)
  | (Ok b, s) =>
      let s := set_byteval 0 s in
      let long k n := match long_size n s with
                      | (Ok size, s) => (k, size, None, s)
                      | (Err e, s) => (k, 0, Some e, s)
                      end in
      if b <? 0x80 then (Byte, 0, None, set_byteval b s)
      else if b <? 0xB8 then (String, b - 0x80, None, s)
      else if b <? 0xC0 then long String (b - 0xB7)
      else if b <? 0xF8 then (List, b - 0xC0, None, s)
      else long List (b - 0xF7)
  end.

(** The limits the value ahead has to respect. *)
Definition size_error (limit : option Z) (size : Z) (s : Stream) : option streamError :=
  if match limit with Some limit => limit <? size | None => false end then Some ElemTooLarge
  else if limited s && (remaining s <? size) then Some SValueTooLarge
  else None.

Definition stream_Kind : SM (Kind * Z) := fun s =>
  let answer k size err s :=
    match err with None => (Ok (k, size), s) | Some e => (Err e, s) end in
  match kind s with
  | Some k => answer k (st_size s) (kinderr s) s
  | None =>
      let limit := listLimit s in
      match limit with
      | Some 0 => (Err EOL, s)
      | _ =>
          let '(k, size, err, s) := Stream_readKind s in
          (* the list was as long before its header was read *)
          let err := match err with Some e => Some e | None => size_error limit size s end in
          let s := set_kinderr err (set_size size (set_kind (Some k) s)) in
          answer k size err s
      end
  end.

(** ** Values *)

Definition Bytes : SM (list Z) :=
  do ' (k, size) <- stream_Kind;
  match k with
  | Byte => rearm ;; do b <- sm_get byteval; sm_ret [b]
  | String =>
      do b <- readFull size;
      if (size =? 1) && (default 0 (b !! 0%nat) <? 128) then sm_throw SCanonSize else sm_ret b
  | List => sm_throw SExpectedString
  end.

(** [ReadBytes] into a slice of length [want]. *)
Definition ReadBytes (want : Z) : SM (list Z) :=
  do ' (k, size) <- stream_Kind;
  match k with
  | Byte =>
      if negb (want =? 1) then sm_throw (WrongSize 1 want)
      else do b <- sm_get byteval; rearm ;; sm_ret [b]
  | String =>
      if negb (want =? size) then sm_throw (WrongSize size want)
      else
        do b <- readFull want;
        if (size =? 1) && (default 0 (b !! 0%nat) <? 128) then sm_throw SCanonSize else sm_ret b
  | List => sm_throw SExpectedString
  end.

Definition Raw : SM (list Z) :=
  do ' (k, size) <- stream_Kind;
  match k with
  | Byte => rearm ;; do b <- sm_get byteval; sm_ret [b]
  | String => do b <- readFull size; sm_ret (puthead 0x80 0xB7 size ++ b)
  | List => do b <- readFull size; sm_ret (puthead 0xC0 0xF7 size ++ b)
  end.

Definition stream_uint (maxbits : Z) : SM Z :=
  do ' (k, size) <- stream_Kind;
  match k with
  | Byte =>
      do b <- sm_get byteval;
      if b =? 0 then sm_throw SCanonInt else rearm ;; sm_ret b
  | String =>
      if maxbits / 8 <? size then sm_throw SUintOverflow
      else
        sm_catch (readUint size)
          (fun v => if (0 <? size) && (v <? 128) then sm_throw SCanonSize else sm_ret v)
          (fun e => sm_throw (match e with SCanonSize => SCanonInt | e => e end))
  | List => sm_throw SExpectedString
  end.

Definition Uint64 : SM Z := stream_uint 64.
Definition Uint32 : SM Z := stream_uint 32.
Definition Uint16 : SM Z := stream_uint 16.
Definition Uint8 : SM Z := stream_uint 8.

Definition stream_Bool : SM bool :=
  do num <- stream_uint 8;
  if num =? 0 then sm_ret false else if num =? 1 then sm_ret true else sm_throw (InvalidBoolean num).

Definition stream_List : SM Z :=
  do ' (k, size) <- stream_Kind;
  match k with
  | List =>
      (* what is left of the outer list once the inner one has been read *)
      do limit <- sm_get listLimit;
      (match limit with Some limit => sm_put (set_listLimit (u64 (limit - size))) | None => sm_ret tt end) ;;
      do st <- sm_get stack;
      sm_put (set_stack (size :: st)) ;;
      rearm ;;
      sm_put (set_size 0) ;;
      sm_ret size
  | _ => sm_throw SExpectedList
  end.

Definition stream_ListEnd : SM unit :=
  do limit <- sm_get listLimit;
  match limit with
  | None => sm_throw NotInList
  | Some limit =>
      if 0 <? limit then sm_throw NotAtEOL
      else
        do st <- sm_get stack;
        sm_put (set_stack (tail st)) ;;
        rearm ;;
        sm_put (set_size 0)
  end.

Definition MoreDataInList (s : Stream) : bool :=
  match listLimit s with Some limit => 0 <? limit | None => false end.

(** The bytes of an integer: at most [max] of them, for [ReadUint256]. *)
Definition int_buffer (max : option Z) : SM (list Z) :=
  do ' (k, size) <- stream_Kind;
  match k with
  | List => sm_throw SExpectedString
  | Byte => do b <- sm_get byteval; rearm ;; sm_ret [b]
  | String =>
      if size =? 0 then rearm ;; sm_ret []
      else if size <=? 32 then
        do b <- readFull size;
        if (size =? 1) && (default 0 (b !! 0%nat) <? 128) then sm_throw SCanonSize else sm_ret b
      else
        match max with
        | Some _ => sm_throw Uint256Large
        | None => readFull size
        end
  end.

Definition int_of_buffer (buffer : list Z) : SM Z :=
  if (0 <? len buffer) && (default 0 (buffer !! 0%nat) =? 0) then sm_throw SCanonInt
  else sm_ret (be_value buffer).

Definition decodeBigInt : SM Z := do buffer <- int_buffer None; int_of_buffer buffer.
Definition ReadUint256 : SM Z := do buffer <- int_buffer (Some 32); int_of_buffer buffer.

(** [decodeByteArray] into an array of [n] bytes. *)
Definition decodeByteArray (n : nat) : SM (list Z) :=
  do ' (k, size) <- stream_Kind;
  match k with
  | Byte =>
      if Nat.eqb n 0 then sm_throw (DecodeError InputStringTooLong)
      else if Nat.ltb 1 n then sm_throw (DecodeError InputStringTooShort)
      else do b <- sm_get byteval; rearm ;; sm_ret [b]
  | String =>
      if Z.of_nat n <? size then sm_throw (DecodeError InputStringTooLong)
      else if size <? Z.of_nat n then sm_throw (DecodeError InputStringTooShort)
      else
        do b <- readFull (Z.of_nat n);
        if (size =? 1) && (default 0 (b !! 0%nat) <? 128) then sm_throw (DecodeError NonCanonicalSize)
        else sm_ret b
  | List => sm_throw (DecodeError ExpectedInputString)
  end.

Definition sample_stream (b : list Z) : Stream := Reset b (len b) 0.

Example reads_list :
  (do n <- stream_List; do a <- Bytes; do x <- Uint64; stream_ListEnd ;; sm_ret (n, a, x))
    (sample_stream [0xc5; 0x82; 0x61; 0x62; 0x81; 0x80])
  = (Ok (5, [0x61; 0x62], 0x80), mkStream [] 0 true [] None 0 None 0).
Proof. by vm_compute. Qed.

(** A list whose content is longer than the list around it by its own header is not
    found out when it is entered, and the limit of the outer list wraps around; the
    error comes only at the end of the outer list. *)
Example inner_list_too_large :
  fst ((do _ <- stream_List; do _ <- stream_List; do x <- Uint64; stream_ListEnd ;; stream_ListEnd)
    (sample_stream [0xc1; 0xc1; 0x05])) = Err NotAtEOL.
Proof. by vm_compute. Qed.

(** ** Positions

    [after n s]: [s] once [n] bytes have been read. *)

Definition after (n : Z) (s : Stream) : Stream :=
  set_input (drop (Z.to_nat n) (input s))
    (set_remaining (if limited s then remaining s - n else remaining s)
       (set_stack (match stack s with [] => [] | l :: st => l - n :: st end) (set_kind None s))).

Record wf_stream (s : Stream) : Prop := {
  ws_bytes : Forall is_byte (input s);
  ws_remaining : is_u64 (remaining s);
  ws_stack : Forall is_u64 (stack s)
}.

(** [n] bytes can be read. *)
Record readable (n : Z) (s : Stream) : Prop := {
  rd_nonneg : 0 <= n;
  rd_input : n <= len (input s);
  rd_remaining : limited s = true -> n <= remaining s;
  rd_list l : listLimit s = Some l -> n <= l
}.

Lemma sm_bind_Ok {A B} (m : SM A) (k : A -> SM B) s b s' :
  sm_bind m k s = (Ok b, s') <-> exists a s1, m s = (Ok a, s1) /\ k a s1 = (Ok b, s').
Proof.
  unfold sm_bind. destruct (m s) as [[a|e] s1]; split; [|naive_solver|naive_solver|naive_solver].
  intros E. by exists a, s1.
Qed.

Lemma drop_len_app {A} (h rest : list A) n : n = Z.of_nat (length h) -> drop (Z.to_nat n) (h ++ rest) = rest.
Proof. intros ->. rewrite Nat2Z.id. apply drop_app_length. Qed.
Lemma take_len_app {A} (h rest : list A) n : n = Z.of_nat (length h) -> take (Z.to_nat n) (h ++ rest) = h.
Proof. intros ->. rewrite Nat2Z.id. apply take_app_length. Qed.

Lemma after_wf n s : wf_stream s -> readable n s -> wf_stream (after n s).
Proof.
  intros [Hb Hr Hs] [H0 _ H1 H2]. split; simpl.
  - by apply Forall_drop.
  - destruct (limited s); [|done]. specialize (H1 eq_refl). unfold is_u64 in *. lia.
  - unfold listLimit in H2. destruct (stack s) as [|l st]; [done|]. inversion_clear Hs as [|?? Hl Hst].
    constructor; [|done]. specialize (H2 l eq_refl). unfold is_u64 in *. lia.
Qed.

Lemma after_after n m s : 0 <= n -> 0 <= m -> after m (after n s) = after (n + m) s.
Proof.
  intros Hn Hm. unfold after, set_input, set_remaining, set_stack, set_kind. simpl. f_equal.
  - rewrite drop_drop. f_equal. lia.
  - destruct (limited s); lia.
  - destruct (stack s); [done|]. f_equal. lia.
Qed.

Lemma after_0 s : kind s = None -> after 0 s = s.
Proof.
  destruct s as [i r l st k z e b]. simpl. intros ->. unfold after, set_input, set_remaining, set_stack, set_kind.
  simpl. f_equal; [destruct l; lia|]. destruct st; [done|]. f_equal. lia.
Qed.

Lemma len_drop n (b : list Z) : 0 <= n <= len b -> len (drop (Z.to_nat n) b) = len b - n.
Proof. unfold len. rewrite length_drop. lia. Qed.

Lemma readable_add n m s : 0 <= n -> 0 <= m ->
  readable n s /\ readable m (after n s) <-> readable (n + m) s.
Proof.
  intros Hn Hm. split.
  - intros [[_ A B C] [_ A' B' C']]. simpl in *. rewrite len_drop in A' by lia. unfold listLimit in *.
    split; [lia|lia| |].
    + intros Hl. specialize (B' Hl). rewrite Hl in B'. lia.
    + intros l Hl. unfold listLimit in Hl. simpl in C', Hl. destruct (stack s); simplify_eq/=.
      specialize (C' _ eq_refl). lia.
  - intros [_ A B C]. assert (readable n s) as H.
    { split; [lia|lia|intros Hl; specialize (B Hl); lia|intros l Hl; specialize (C l Hl); lia]. }
    split; [done|]. split; [done| | |].
    + simpl. rewrite len_drop by lia. lia.
    + simpl. intros Hl. specialize (B Hl). rewrite Hl. lia.
    + intros l Hl. unfold listLimit in *. simpl in Hl. destruct (stack s); simplify_eq/=.
      specialize (C _ eq_refl). lia.
Qed.

(** ** The readers *)

Lemma willRead_Ok n s s' : wf_stream s -> 0 <= n ->
  willRead n s = (Ok tt, s') <->
  (limited s = true -> n <= remaining s) /\ (forall l, listLimit s = Some l -> n <= l)
  /\ s' = set_input (input s) (after n s).
Proof.
  intros [_ Hr Hs] Hn. unfold willRead, rearm, sm_bind, sm_put, sm_get, sm_ret, sm_throw, listLimit. simpl.
  assert (forall l, is_u64 l -> n <= l -> u64 (l - n) = l - n) as Hu
    by (intros; apply u64_small; unfold is_u64 in *; lia).
  destruct s as [i r lim st k z e b]. simpl in *.
  destruct st as [|l st]; simpl.
  - unfold after, set_input, set_remaining, set_stack, set_kind. simpl. destruct lim; simpl.
    + destruct (Z.ltb_spec r n); [naive_solver lia|]. rewrite Hu by done. naive_solver.
    + naive_solver.
  - inversion_clear Hs as [|?? Hl _]. destruct (Z.ltb_spec l n) as [H|H].
    { split; [done|]. intros (_ & H1 & _). specialize (H1 l eq_refl). lia. }
    rewrite Hu by done. unfold after, set_listLimit, set_input, set_remaining, set_stack, set_kind. simpl.
    destruct lim; simpl.
    + destruct (Z.ltb_spec r n) as [H1|H1].
      { split; [done|]. intros (H2 & _). specialize (H2 eq_refl). lia. }
      rewrite Hu by done. split; [intros [= <-]; split_and!; naive_solver|by intros (_ & _ & ->)].
    + split; [intros [= <-]; split_and!; naive_solver|by intros (_ & _ & ->)].
Qed.

Lemma readFull_Ok n s b s' : wf_stream s -> 0 <= n ->
  readFull n s = (Ok b, s') <-> readable n s /\ b = take (Z.to_nat n) (input s) /\ s' = after n s.
Proof.
  intros Hw Hn. unfold readFull. rewrite sm_bind_Ok. split.
  - intros ([] & s1 & (Hr & Hl & ->)%willRead_Ok & E); [|done..].
    unfold sm_bind, sm_get, sm_put, sm_ret, sm_throw in E. simpl in E.
    destruct (Z.ltb_spec (len (input s)) n); simplify_eq. by split.
  - intros ([_ Hi Hr Hl] & -> & ->). exists tt, (set_input (input s) (after n s)). split; [by apply willRead_Ok|].
    unfold sm_bind, sm_get, sm_put, sm_ret, sm_throw. simpl. rewrite (proj2 (Z.ltb_ge _ _)) by done. done.
Qed.

Lemma readByte_Ok s b s' : wf_stream s ->
  readByte s = (Ok b, s') <-> readable 1 s /\ input s !! 0%nat = Some b /\ s' = after 1 s.
Proof.
  intros Hw. unfold readByte. rewrite sm_bind_Ok. split.
  - intros ([] & s1 & (Hr & Hl & ->)%willRead_Ok & E); [|done..].
    unfold sm_bind, sm_get, sm_put, sm_ret, sm_throw in E. simpl in E.
    destruct (input s) as [|x i] eqn:Ei; simplify_eq.
    split; [|split; [done|by unfold after; rewrite Ei]].
    split; [done|rewrite Ei, len_cons; pose proof (len_nonneg i); lia|done|done].
  - intros ([_ Hi Hr Hl] & E & ->). exists tt, (set_input (input s) (after 1 s)). split; [by apply willRead_Ok|].
    unfold sm_bind, sm_get, sm_put, sm_ret, sm_throw. simpl. unfold after. destruct (input s); simplify_eq/=. done.
Qed.

Lemma long_size_Ok n s size s' : wf_stream s -> 1 <= n <= 8 ->
  long_size n s = (Ok size, s') <->
  readable n s /\ 56 <= size /\ is_u64 size /\ take (Z.to_nat n) (input s) = putint size /\ s' = after n s.
Proof.
  intros Hw Hn. unfold long_size. rewrite sm_bind_Ok.
  assert (readSize (input s) n = Ok size <->
    n <= len (input s) /\ 56 <= size /\ is_u64 size /\ take (Z.to_nat n) (input s) = putint size) as HR
    by (apply readSize_ok; [apply ws_bytes, Hw|done]).
  unfold readSize in HR. unfold readUint. rewrite (proj2 (Z.eqb_neq n 0)) by lia.
  destruct (Z.eqb_spec n 1) as [->|Hn1].
  - split.
    + intros (v & s1 & (Hr & Hv & ->)%readByte_Ok & E); [|done].
      destruct (Z.ltb_spec v 56) as [|H56]; simplify_eq/=. unfold sm_ret in E. injection E as <- <-.
      pose proof (rd_input _ _ Hr) as Hlen. split; [done|]. destruct HR as [HR _].
      destruct (input s) as [|x i]; simplify_eq/=. rewrite (proj2 (Z.ltb_ge _ _)) in HR by done.
      unfold be_value in HR. simpl in HR. rewrite (proj2 (Z.ltb_ge _ _)) in HR by done.
      rewrite (proj2 (Z.eqb_neq _ _)) in HR by lia. destruct HR as (_ & ? & ? & ?); done.
    + intros (Hr & H56 & Hu & Ht & ->). destruct (input s) as [|x i] eqn:Ei.
      { pose proof (rd_input _ _ Hr) as Hl. rewrite Ei in Hl. by vm_compute in Hl. }
      simpl in Ht. exists x, (after 1 s). split; [apply readByte_Ok; by rewrite ?Ei|].
      assert (x = size) as ->.
      { pose proof (putint_value size Hu) as Hv. rewrite <- Ht in Hv. unfold be_value in Hv. simpl in Hv. lia. }
      by rewrite (proj2 (Z.ltb_ge _ _)).
  - split.
    + intros (v & s1 & E1 & E). apply sm_bind_Ok in E1 as (buf & s2 & (Hr & -> & ->)%readFull_Ok & E1); [|done|lia].
      assert (n <= len (input s)) as Hlen by apply (rd_input _ _ Hr).
      rewrite (proj2 (Z.ltb_ge (len (input s)) n)) in HR by done.
      assert (default 0 (take (Z.to_nat n) (input s) !! 0%nat) = default 0 (input s !! 0%nat)) as Eh
        by (by rewrite lookup_take_lt by lia). rewrite Eh in E1.
      destruct (default 0 (input s !! 0%nat) =? 0) eqn:E0; simplify_eq/=. unfold sm_ret in E1. injection E1 as <- <-.
      destruct (Z.ltb_spec (be_value (take (Z.to_nat n) (input s))) 56); simplify_eq/=. unfold sm_ret in E.
      injection E as <- <-. split; [done|]. destruct HR as [HR _]. destruct HR as (_ & ? & ? & ?); done.
    + intros (Hr & H56 & Hu & Ht & ->). exists size, (after n s). split; [|by rewrite (proj2 (Z.ltb_ge _ _))].
      apply sm_bind_Ok. exists (take (Z.to_nat n) (input s)), (after n s). split; [apply readFull_Ok; done || lia|].
      rewrite Ht. pose proof (putint_head size Hu ltac:(lia)) as Hh. rewrite (proj2 (Z.eqb_neq _ _)) by done.
      by rewrite putint_value.
Qed.

(** ** The value ahead *)

(** [h] is the header of a value of kind [k] and size [size]; a single byte is its own
    header, and is kept in [byteval]. *)
Definition header (k : Kind) (size b : Z) (h : list Z) : Prop :=
  match k with
  | Byte => size = 0 /\ h = [b] /\ 0 <= b < 128
  | String => h = puthead 0x80 0xB7 size /\ b = 0 /\ is_u64 size
  | List => h = puthead 0xC0 0xF7 size /\ b = 0 /\ is_u64 size
  end.

Definition tok (k : Kind) (size b : Z) (s : Stream) : Stream :=
  set_kinderr None (set_size size (set_kind (Some k) (set_byteval b s))).

Lemma lookup_0_app (x : Z) l : l !! 0%nat = Some x -> exists rest, l = x :: rest.
Proof. destruct l as [|y l]; intros; simplify_eq/=. eauto. Qed.

(** A tag that announces a size of its own. *)
Lemma long_tag s b n l size s' : wf_stream s -> 1 <= n <= 8 -> b = l + n -> input s !! 0%nat = Some b -> readable 1 s ->
  long_size n (set_byteval 0 (after 1 s)) = (Ok size, s') <->
  56 <= size /\ is_u64 size /\
  exists rest, input s = (b :: putint size) ++ rest /\ len (putint size) = n
    /\ readable (1 + n) s /\ s' = set_byteval 0 (after (1 + n) s).
Proof.
  intros Hw Hn -> Hb Hr.
  assert (wf_stream (set_byteval 0 (after 1 s))) as Hw1 by (destruct (after_wf 1 s Hw Hr); by split).
  rewrite long_size_Ok by done. destruct (lookup_0_app _ _ Hb) as (i & Ei).
  change (after n (set_byteval 0 (after 1 s))) with (set_byteval 0 (after n (after 1 s))).
  rewrite after_after by lia. change (input (set_byteval 0 (after 1 s))) with (drop 1 (input s)).
  assert (readable n (set_byteval 0 (after 1 s)) <-> readable (1 + n) s) as Hrd.
  { rewrite <- readable_add by lia. split; [intros [????]; by split; [|split]|intros [_ []]; by split]. }
  rewrite Hrd, Ei. simpl drop. rewrite drop_0. split.
  - intros (Hr' & H56 & Hu & Ht & ->). split; [done|]. split; [done|]. exists (drop (Z.to_nat n) i).
    pose proof (rd_input _ _ Hr') as Hl. rewrite Ei, len_cons in Hl. rewrite <- Ht. simpl. rewrite take_drop.
    split; [done|]. split; [unfold len in *; rewrite length_take; lia|done].
  - intros (H56 & Hu & rest & E & Hl & Hr' & ->). split_and!; try done. simpl in E. injection E as ->.
    apply take_len_app. by rewrite <- Hl.
Qed.

(** The first byte of a header decides the case. *)
Lemma header_tag k size b' h rest b i : header k size b' h -> h ++ rest = b :: i ->
  match k with
  | Byte => b < 128 /\ b' = b /\ h = [b] /\ size = 0
  | String => b' = 0 /\ (b = 0x80 + size /\ 0 <= size < 56 /\ h = [b] \/ 0xB8 <= b < 0xC0)
  | List => b' = 0 /\ (b = 0xC0 + size /\ 0 <= size < 56 /\ h = [b] \/ 0xF8 <= b)
  end.
Proof.
  destruct k; simpl; intros (-> & Hh2 & Hh3) E; (split; [done || lia|]) || idtac.
  - subst. simpl in E. injection E as -> _. split_and!; done || lia.
  - unfold puthead in *. destruct (Z.ltb_spec size 56); simpl in E; injection E as <- _; [left|right].
    + unfold is_u64 in Hh3. split_and!; done || lia.
    + pose proof (putint_length size Hh3). lia.
  - unfold puthead in *. destruct (Z.ltb_spec size 56); simpl in E; injection E as <- _; [left|right].
    + unfold is_u64 in Hh3. split_and!; done || lia.
    + pose proof (putint_length size Hh3). lia.
Qed.

Lemma header_long k l size h rest i n :
  (k = String /\ l = 0xB7 \/ k = List /\ l = 0xF7) -> header k size 0 h -> i = h ++ rest -> i !! 0%nat = Some (l + n) ->
  1 <= n <= 8 -> 56 <= size /\ h = (l + n) :: putint size /\ len (putint size) = n.
Proof.
  intros Hk Hh -> Hb Hn.
  assert (exists s0, h = puthead s0 l size /\ s0 + 55 = l /\ is_u64 size) as (s0 & -> & Hs & Hu).
  { destruct Hk as [[-> ->]|[-> ->]]; simpl in Hh; destruct Hh as (-> & _ & ?); eexists; split_and!; done. }
  unfold puthead in *. destruct (Z.ltb_spec size 56); simpl in Hb; injection Hb as Hb.
  - lia.
  - fold (len (putint size)) in *. split; [done|]. split; [|lia]. f_equal. lia.
Qed.

(** The tag has been read: what [readKind] does next, and what it stands for. *)
Definition tagged (s : Stream) (k : Kind) (size : Z) (s' : Stream) : Prop :=
  exists b h rest, header k size b h /\ input s = h ++ rest /\ readable (len h) s
    /\ s' = set_byteval b (after (len h) s).

Lemma tagged_short s b i k size b' k' size' s' : readable 1 s -> input s = b :: i ->
  header k' size' b' [b] ->
  (forall b2 h rest, header k size b2 h -> h ++ rest = b :: i -> k = k' /\ size = size' /\ b2 = b' /\ h = [b]) ->
  (k', size', None, set_byteval b' (after 1 s)) = (k, size, @None streamError, s') <-> tagged s k size s'.
Proof.
  intros Hr Ei Hh Honly. split.
  - intros [= <- <- <-]. by exists b', [b], i.
  - intros (b2 & h & rest & Hh2 & Ei2 & Hr2 & ->). rewrite Ei in Ei2.
    by destruct (Honly b2 h rest Hh2 (eq_sym Ei2)) as (-> & -> & -> & ->).
Qed.

Lemma tagged_long s b i k size k' l n s' : wf_stream s -> readable 1 s -> input s = b :: i ->
  (k' = String /\ l = 0xB7 \/ k' = List /\ l = 0xF7) -> b = l + n -> 1 <= n <= 8 ->
  (forall b2 h rest, header k size b2 h -> h ++ rest = b :: i -> k = k' /\ b2 = 0) ->
  match long_size n (set_byteval 0 (after 1 s)) with
  | (Ok size, s) => (k', size, None, s)
  | (Err e, s) => (k', 0, Some e, s)
  end = (k, size, None, s') <-> tagged s k size s'.
Proof.
  intros Hw Hr Ei Hk Hbn Hn Honly. assert (input s !! 0%nat = Some b) as Hb by (by rewrite Ei). split.
  - destruct (long_size n _) as [[sz|] s2] eqn:El; [|done]. intros [= <- <- <-].
    apply (long_tag s b n l) in El as (H56 & Hu & rest & Er & Hln & Hrd & ->); [|done..].
    exists 0, (b :: putint sz), rest. rewrite len_cons, Hln.
    replace (n + 1) with (1 + n) by lia. split; [|done].
    destruct Hk as [[-> ->]|[-> ->]]; simpl; rewrite puthead_long, Hbn, <- Hln by done; done.
  - intros (b2 & h & rest & Hh & Er & Hrd & ->). rewrite Ei in Er.
    destruct (Honly _ _ _ Hh (eq_sym Er)) as [-> ->].
    destruct (header_long k' l size h rest (b :: i) n Hk Hh Er) as (H56 & -> & Hln); [by rewrite Hbn|done|].
    rewrite len_cons, Hln in *. replace (n + 1) with (1 + n) in * by lia.
    assert (long_size n (set_byteval 0 (after 1 s)) = (Ok size, set_byteval 0 (after (1 + n) s))) as ->; [|done].
    apply (long_tag s b n l); try done. split; [done|]. split; [destruct Hk as [[-> _]|[-> _]]; simpl in Hh; tauto|].
    exists rest. by rewrite Ei, Er, Hbn.
Qed.

Lemma tagged_readByte s k size s' : wf_stream s -> tagged s k size s' -> exists b, readByte s = (Ok b, after 1 s).
Proof.
  intros Hw (b & h & rest & Hh & Ei & Hr & ->).
  assert (exists x h', h = x :: h') as (x & h' & ->).
  { destruct k; simpl in Hh; destruct Hh as (? & ? & ?); subst; eauto using puthead_cons. }
  exists x. apply readByte_Ok; [done|]. rewrite Ei. split; [|done].
  rewrite len_cons, Z.add_comm in Hr. apply readable_add in Hr as [? _]; [done|lia|apply len_nonneg].
Qed.

Lemma readKind_Ok s k size s' : wf_stream s -> Stream_readKind s = (k, size, None, s') <-> tagged s k size s'.
Proof.
  intros Hw. unfold Stream_readKind. destruct (readByte s) as [[b|e] s1] eqn:Eb.
  2:{ split; [done|]. intros (b & E)%tagged_readByte; [congruence|done]. }
  apply readByte_Ok in Eb as (Hr & Hb & ->); [|done].
  assert (is_byte b) as Hbyte by (apply (Forall_lookup_1 _ _ _ _ (ws_bytes _ Hw) Hb)). unfold is_byte in Hbyte.
  destruct (lookup_0_app _ _ Hb) as (i & Ei).
  pose proof (fun b2 h rest (H : header k size b2 h) => header_tag k size b2 h rest b i H) as Htag.
  destruct (Z.ltb_spec b 0x80).
  { apply (tagged_short s b i k size b Byte 0); [done|done|simpl; split_and!; done || lia|]. intros b2 h rest Hh Eh. specialize (Htag _ _ _ Hh Eh).
    destruct k; [tauto|lia..]. }
  destruct (Z.ltb_spec b 0xB8).
  { apply (tagged_short s b i k size 0 String (b - 0x80)); [done|done| |].
    - unfold header, is_u64. rewrite puthead_short by lia. split_and!; try lia. f_equal. lia.
    - intros b2 h rest Hh Eh. specialize (Htag _ _ _ Hh Eh). destruct k; [lia| |lia].
      destruct Htag as (-> & [(-> & _ & ->)|?]); [|lia]. split_and!; try done. lia. }
  destruct (Z.ltb_spec b 0xC0).
  { apply (tagged_long s b i k size String 0xB7); try done; [by left|lia|lia|].
    intros b2 h rest Hh Eh. specialize (Htag _ _ _ Hh Eh). destruct k; [lia|tauto|lia]. }
  destruct (Z.ltb_spec b 0xF8).
  { apply (tagged_short s b i k size 0 List (b - 0xC0)); [done|done| |].
    - unfold header, is_u64. rewrite puthead_short by lia. split_and!; try lia. f_equal. lia.
    - intros b2 h rest Hh Eh. specialize (Htag _ _ _ Hh Eh). destruct k; [lia|lia|].
      destruct Htag as (-> & [(-> & _ & ->)|?]); [|lia]. split_and!; try done. lia. }
  apply (tagged_long s b i k size List 0xF7); try done; [by right|lia|lia|].
  intros b2 h rest Hh Eh. specialize (Htag _ _ _ Hh Eh). destruct k; [lia|lia|tauto].
Qed.

(** [Kind] on a stream that has not looked at the next value. *)
Lemma stream_Kind_Ok s k size s' : wf_stream s -> kind s = None ->
  stream_Kind s = (Ok (k, size), s') <->
  exists b h rest, header k size b h /\ input s = h ++ rest /\ readable (len h) s
    /\ listLimit s <> Some 0 /\ size_error (listLimit s) size (after (len h) s) = None
    /\ s' = tok k size b (after (len h) s).
Proof.
  intros Hw Hk. unfold stream_Kind. rewrite Hk. split.
  - intros E. assert (listLimit s <> Some 0) as Hne by (intros H0; by rewrite H0 in E).
    assert (match Stream_readKind s with (k, size, err, s1) =>
              match (match err with Some e => Some e | None => size_error (listLimit s) size s1 end) with
              | None => (Ok (k, size), set_kinderr None (set_size size (set_kind (Some k) s1)))
              | Some e => (Err e, set_kinderr (Some e) (set_size size (set_kind (Some k) s1)))
              end end = (Ok (k, size), s')) as E1.
    { destruct (listLimit s) as [[]|]; try done; destruct (Stream_readKind s) as [[[k1 sz] err] s1];
        destruct err; try done; cbv zeta in E |- *; by destruct (size_error _ _ _). }
    destruct (Stream_readKind s) as [[[k1 sz] err] s1] eqn:Er. destruct err; [done|].
    destruct (size_error _ _ _) eqn:Es; [done|]. injection E1 as -> -> <-.
    apply readKind_Ok in Er as (b & h & rest & Hh & Ei & Hr & ->); [|done]. exists b, h, rest. by split_and!.
  - intros (b & h & rest & Hh & Ei & Hr & Hne & Hs & ->).
    assert (Stream_readKind s = (k, size, None, set_byteval b (after (len h) s))) as Er
      by (apply readKind_Ok; [done|]; by exists b, h, rest).
    rewrite Er. assert (size_error (listLimit s) size (set_byteval b (after (len h) s)) = None) as Hs' by exact Hs.
    rewrite Hs'. destruct (listLimit s) as [[]|]; done.
Qed.

(** ** The end of a list

    Only the start of a value reports it, and only a loop can run out of fuel. *)

Definition signal (e : streamError) : bool := bool_decide (e = EOL) || bool_decide (e = NoFuel).

Definition quiet {A} (m : SM A) : Prop := forall s e s', m s = (Err e, s') -> signal e = false.

Definition EOL_at_end {A} (m : SM A) : Prop := forall s e s',
  kind s = None -> m s = (Err e, s') -> signal e = true -> e = EOL /\ listLimit s = Some 0 /\ s' = s.

Create HintDb quiet.

Lemma quiet_ret {A} (a : A) : quiet (sm_ret a).
Proof. done. Qed.
Lemma quiet_get {A} (f : Stream -> A) : quiet (sm_get f).
Proof. done. Qed.
Lemma quiet_put f : quiet (sm_put f).
Proof. done. Qed.
Lemma quiet_throw {A} e : signal e = false -> quiet (A := A) (sm_throw e).
Proof. by intros He s ? s' [= <- _]. Qed.
Lemma quiet_bind {A B} (m : SM A) (k : A -> SM B) : quiet m -> (forall a, quiet (k a)) -> quiet (sm_bind m k).
Proof.
  intros Hm Hk s e0 s'. unfold sm_bind. destruct (m s) as [[a|e] s1] eqn:E; [apply Hk|].
  intros [= <- <-]. by eapply Hm.
Qed.
Lemma quiet_if {A} (b : bool) (m n : SM A) : quiet m -> quiet n -> quiet (if b then m else n).
Proof. by destruct b. Qed.
#[export] Hint Resolve quiet_ret quiet_get quiet_put quiet_bind quiet_if : quiet.
#[export] Hint Extern 1 (quiet (sm_throw _)) => apply quiet_throw; reflexivity : quiet.
#[export] Hint Extern 2 (quiet (match ?x with _ => _ end)) => destruct x : quiet.

Lemma quiet_willRead n : quiet (willRead n).
Proof. unfold willRead, rearm. eauto 12 with quiet. Qed.
#[export] Hint Resolve quiet_willRead : quiet.
Lemma quiet_readFull n : quiet (readFull n).
Proof. unfold readFull. eauto 12 with quiet. Qed.
Lemma quiet_readByte : quiet readByte.
Proof. unfold readByte. eauto 12 with quiet. Qed.
#[export] Hint Resolve quiet_readFull quiet_readByte : quiet.
Lemma quiet_readUint n : quiet (readUint n).
Proof. unfold readUint, rearm. eauto 12 with quiet. Qed.
#[export] Hint Resolve quiet_readUint : quiet.
Lemma quiet_long_size n : quiet (long_size n).
Proof. unfold long_size. eauto 12 with quiet. Qed.

Lemma readKind_quiet s k size e s' : Stream_readKind s = (k, size, Some e, s') -> signal e = false.
Proof.
  unfold Stream_readKind. destruct (readByte s) as [[b|e0] s1] eqn:E.
  - assert (forall k0 n, match long_size n (set_byteval 0 s1) with
                         | (Ok size, s) => (k0, size, None, s) | (Err e, s) => (k0, 0, Some e, s) end
                         = (k, size, Some e, s') -> signal e = false) as Hl.
    { intros k0 n. destruct (long_size n (set_byteval 0 s1)) as [[sz|e0] s2] eqn:El; [done|].
      intros [= _ _ <- _]. by eapply quiet_long_size. }
    cbv zeta. repeat (case_match; [done || apply Hl|]). apply Hl.
  - apply quiet_readByte in E. intros [= _ _ <- _]. unfold tag_error. by repeat case_match.
Qed.

Lemma stream_Kind_EOL : EOL_at_end stream_Kind.
Proof.
  intros s e s' Hk E He. unfold stream_Kind in E. rewrite Hk in E.
  assert (forall x, (match Stream_readKind s with (k, size, err, s1) =>
      match (match err with Some e => Some e | None => size_error (listLimit s) size s1 end) with
      | None => (Ok (k, size), set_kinderr None (set_size size (set_kind (Some k) s1)))
      | Some e => (Err e, set_kinderr (Some e) (set_size size (set_kind (Some k) s1)))
      end end) = x -> x = (Err e, s') -> False) as Hne.
  { intros x <-. destruct (Stream_readKind s) as [[[k size] [e0|]] s1] eqn:Er.
    - intros [= -> _]. apply readKind_quiet in Er. congruence.
    - destruct (size_error (listLimit s) size s1) as [e0|] eqn:Es; [|done]. intros [= -> _].
      unfold size_error in Es. by repeat case_match; simplify_eq. }
  specialize (Hne _ eq_refl). destruct (Stream_readKind s) as [[[k size] err] s1].
  destruct (listLimit s) as [[|p|p]|]; [by injection E as <- <-|..]; exfalso; apply Hne; rewrite <- E;
    (destruct err; [done|]; cbv zeta; by destruct (size_error _ _ _)).
Qed.

Lemma EOL_at_end_bind {A B} (m : SM A) (k : A -> SM B) : EOL_at_end m -> (forall x, quiet (k x)) -> EOL_at_end (sm_bind m k).
Proof.
  intros Hm Hk s e s' Hs. unfold sm_bind. destruct (m s) as [[x|e0] s1] eqn:E.
  - intros H. by apply Hk in H as ->.
  - intros [= <- <-]. by eapply Hm.
Qed.
#[export] Hint Resolve stream_Kind_EOL EOL_at_end_bind : quiet.

(** At the end of a list every value is missing. *)
Lemma stream_Kind_at_end s : kind s = None -> listLimit s = Some 0 -> stream_Kind s = (Err EOL, s).
Proof. intros Hk Hl. unfold stream_Kind. by rewrite Hk, Hl. Qed.
