(* ===== verification/RlpValues.v ===== *)
(** What the operations of the stream decoder of [rlp/decode.go] read.

    For strings, byte arrays, integers, booleans and lists: what an operation returns it
    has read in its only valid form ([sound]), and it reads every value in that form
    ([complete]), wherever in the nesting of lists the stream stands. *)

From stdpp Require Import base list numbers option strings.
From S2P Require Import Prelude Uint256 Rlp RlpStream.
Import U256(be_value, be_bytes, be_bytes_length, be_bytes_byte, be_value_bytes, be_value_bound,
  be_bytes_value, be_value_snoc).
Open Scope Z_scope.
Open Scope stream_scope.

(** ** Decoders and the bytes they read

    [moved n s s']: [s'] is [s] with [n] bytes read, ready for the next value.  The limit
    of the list around it is taken modulo 2^64, as [List] computes it. *)

Record moved (n : Z) (s s' : Stream) : Prop := {
  mv_nonneg : 0 <= n;
  mv_input : input s' = drop (Z.to_nat n) (input s);
  mv_le : n <= len (input s);
  mv_limited : limited s' = limited s;
  mv_remaining : remaining s' = if limited s then remaining s - n else remaining s;
  mv_bound : limited s = true -> n <= remaining s;
  mv_stack : stack s' = match stack s with [] => [] | l :: st => u64 (l - n) :: st end;
  mv_kind : kind s' = None
}.

(** A stream that is ready for the next value. *)
Record ready (s : Stream) : Prop := {
  rs_wf : wf_stream s;
  rs_kind : kind s = None;
  rs_len : len (input s) < two64
}.

(** What [m] returns, it has read in the form [P] allows. *)
Definition sound {A} (m : SM A) (P : A -> list Z -> Prop) : Prop := forall s a s',
  ready s -> m s = (Ok a, s') -> exists c rest, P a c /\ input s = c ++ rest /\ moved (len c) s s'.

(** [m] reads everything [P] allows. *)
Definition complete {A} (m : SM A) (P : A -> list Z -> Prop) : Prop := forall s a c rest,
  ready s -> P a c -> input s = c ++ rest -> readable (len c) s -> 0 < len c ->
  exists s', m s = (Ok a, s') /\ moved (len c) s s'.

(** The same in a list of which [c] is all that is left. *)
Definition fills {A} (m : SM A) (P : A -> list Z -> Prop) : Prop := forall s a c rest,
  ready s -> P a c -> input s = c ++ rest -> readable (len c) s -> listLimit s = Some (len c) ->
  exists s', m s = (Ok a, s') /\ moved (len c) s s'.

Lemma moved_ready n s s' : ready s -> moved n s s' -> ready s'.
Proof.
  intros [[Hb Hr Hs] Hk Hl] [H0 Ei Hle El Er Hbd Est Hk']. split; [split| |].
  - rewrite Ei. by apply Forall_drop.
  - rewrite Er. destruct (limited s); [|done]. specialize (Hbd eq_refl). unfold is_u64 in *. lia.
  - rewrite Est. destruct (stack s); [done|]. inversion_clear Hs. constructor; [apply u64_range|done].
  - done.
  - rewrite Ei, len_drop by lia. lia.
Qed.

Lemma u64_sub_sub a n m : u64 (u64 (a - n) - m) = u64 (a - (n + m)).
Proof. unfold u64. rewrite Zminus_mod_idemp_l. f_equal. lia. Qed.

Lemma moved_moved n m s s1 s2 : moved n s s1 -> moved m s1 s2 -> moved (n + m) s s2.
Proof.
  intros [H0 Ei Hle El Er Hbd Est Hk] [H0' Ei' Hle' El' Er' Hbd' Est' Hk'].
  rewrite Ei, len_drop in Hle' by lia. split; try lia; try done.
  - rewrite Ei', Ei, drop_drop. f_equal. lia.
  - congruence.
  - rewrite Er', El, Er. destruct (limited s); lia.
  - intros Hl. rewrite El in Hbd'. specialize (Hbd Hl). specialize (Hbd' Hl). rewrite Er, Hl in Hbd'. lia.
  - rewrite Est', Est. destruct (stack s); [done|]. by rewrite u64_sub_sub.
Qed.

Lemma after_moved n s s' : wf_stream s -> readable n s -> input s' = input (after n s) -> remaining s' = remaining (after n s) ->
  limited s' = limited s -> stack s' = stack (after n s) -> kind s' = None -> moved n s s'.
Proof.
  intros Hw Hr Ei Er El Est Hk. pose proof (after_wf n s Hw Hr) as Hw'. destruct Hr as [H0 Hi Hrm Hl].
  split; try done. rewrite Est. simpl. pose proof (ws_stack _ Hw') as Hst. simpl in Hst. destruct (stack s); [done|].
  inversion_clear Hst. by rewrite u64_small.
Qed.

(** A part that has been read leaves the rest to be read. *)
Lemma moved_readable n m s s' : ready s -> 0 <= n -> 0 <= m -> readable (n + m) s -> moved n s s' -> readable m s'.
Proof.
  intros Hrd Hn Hm H Hmv. apply readable_add in H as [Hr1 Hr2]; [|done..].
  destruct Hr2 as [_ A B C]. destruct Hmv as [H0 Ei Hle El Er Hbd Est Hk]. simpl in *.
  split; [done|by rewrite Ei| |].
  - rewrite El, Er. intros E. specialize (B E). by rewrite E in *.
  - intros l. unfold listLimit in *. rewrite Est. destruct (stack s) as [|l0 st] eqn:Es; [done|]. intros [= <-].
    specialize (C (l0 - n)). simpl in C. rewrite Es in C. specialize (C eq_refl). destruct Hr1 as [_ _ _ D]. unfold listLimit in D. rewrite Es in D. specialize (D _ eq_refl).
    pose proof (ws_stack _ (rs_wf _ Hrd)) as Hst. rewrite Es in Hst. inversion_clear Hst as [|?? Hl0 _].
    unfold is_u64 in *. rewrite u64_small; unfold is_u64; lia.
Qed.

(** ** The token ahead *)

(** The value ahead has been looked at: its header [h] has been read. *)
Lemma Kind_sound s k size s1 : ready s -> stream_Kind s = (Ok (k, size), s1) ->
  exists b h rest, header k size b h /\ input s = h ++ rest /\ readable (len h) s
    /\ s1 = tok k size b (after (len h) s) /\ wf_stream s1.
Proof.
  intros [Hw Hk Hl] E. apply stream_Kind_Ok in E as (b & h & rest & Hh & Ei & Hr & _ & _ & ->); [|done..].
  exists b, h, rest. split_and!; try done. destruct (after_wf _ _ Hw Hr). by split.
Qed.

Lemma Kind_complete s k size b h rest : ready s -> header k size b h -> input s = h ++ rest ->
  readable (len h + match k with Byte => 0 | _ => size end) s ->
  stream_Kind s = (Ok (k, size), tok k size b (after (len h) s)) /\ wf_stream (tok k size b (after (len h) s)).
Proof.
  intros [Hw Hk Hl] Hh Ei Hr.
  assert (0 < len h /\ 0 <= size) as [Hlen Hsz].
  { destruct k; simpl in Hh; destruct Hh as (Hh1 & Hh2 & Hh3); subst; unfold is_u64 in *;
      [split; done|..]; (split; [|lia]); destruct (puthead_cons 0x80 0xB7 size) as (x & t & E);
      destruct (puthead_cons 0xC0 0xF7 size) as (x' & t' & E'); rewrite ?E, ?E', len_cons;
      pose proof (len_nonneg t); pose proof (len_nonneg t'); lia. }
  assert (0 <= match k with Byte => 0 | _ => size end) as Hsz' by (destruct k; lia).
  apply readable_add in Hr as [Hr1 Hr2]; [|lia..].
  split; [|destruct (after_wf _ _ Hw Hr1); by split].
  apply stream_Kind_Ok; [done..|]. exists b, h, rest. split_and!; try done.
  - intros E. pose proof (rd_list _ _ Hr1 0 E). lia.
  - unfold size_error.
    assert (match listLimit s with Some limit => limit <? size | None => false end = false) as ->.
    { destruct (listLimit s) as [l|] eqn:El; [|done]. apply Z.ltb_ge.
      pose proof (rd_list _ _ Hr1 l El). destruct k; [simpl in Hh; lia|..];
        (unfold listLimit in El; destruct (stack s) as [|l0 st] eqn:Es; simplify_eq/=;
         pose proof (rd_list _ _ Hr2 (l - len h)) as H2; unfold listLimit in H2; simpl in H2; rewrite Es in H2;
         specialize (H2 eq_refl); lia). }
    destruct (limited (after (len h) s)) eqn:Elim; [|done]. simpl.
    rewrite (proj2 (Z.ltb_ge _ _)); [done|]. pose proof (rd_remaining _ _ Hr2 Elim) as H2. simpl in *.
    destruct k; [simpl in Hh|lia|lia]. destruct Hh as [-> _]. simpl in Elim. rewrite Elim in H2 |- *. lia.
Qed.

(** A content of the announced size is read after the header. *)
Lemma content_sound s k size b h rest c s2 : ready s -> input s = h ++ rest -> readable (len h) s -> 0 <= size ->
  wf_stream (tok k size b (after (len h) s)) -> readFull size (tok k size b (after (len h) s)) = (Ok c, s2) ->
  exists rest', rest = c ++ rest' /\ len c = size /\ moved (len h + size) s s2.
Proof.
  intros Hs Ei Hh H0 Hw E. apply readFull_Ok in E as (Hr & -> & ->); [|done..].
  pose proof (rd_input _ _ Hr) as Hle. unfold tok in Hle. simpl in Hle. simpl.
  rewrite Ei in *. rewrite drop_len_app in * by done. exists (drop (Z.to_nat size) rest). rewrite take_drop.
  split; [done|]. split; [unfold len in *; rewrite length_take; lia|].
  apply (after_moved (len h + size)); [apply Hs| |rewrite <- ?after_after by (apply len_nonneg || done); done..].
  apply readable_add; [apply len_nonneg|done|]. split; [done|]. by destruct Hr; split.
Qed.

Lemma content_complete s k b h c rest : ready s -> input s = h ++ c ++ rest -> readable (len h + len c) s ->
  wf_stream (tok k (len c) b (after (len h) s)) ->
  exists s2, readFull (len c) (tok k (len c) b (after (len h) s)) = (Ok c, s2) /\ moved (len h + len c) s s2.
Proof.
  intros Hs Ei Hr Hw. pose proof (len_nonneg c). pose proof (len_nonneg h).
  assert (readable (len c) (tok k (len c) b (after (len h) s))) as Hr2.
  { apply readable_add in Hr as [_ [????]]; [|done..]. by split. }
  eexists. split; [apply readFull_Ok; [done..|]; split; [done|]; split; [|done]|].
  - simpl. rewrite Ei, drop_len_app, take_len_app by done. done.
  - apply (after_moved (len h + len c)); [apply Hs|done|rewrite <- ?after_after by done; done..].
Qed.

(** A single byte is its own header. *)
Lemma byte_moved s b : ready s -> readable 1 s -> moved 1 s (set_kind None (tok Byte 0 b (after 1 s))).
Proof. intros Hs Hr. apply (after_moved 1); [apply Hs|done..]. Qed.

(** A string whose only byte is below 128 has no header. *)
Definition single (b : list Z) : bool := match b with [x] => x <? 128 | _ => false end.

Lemma encode_string_single b : encode_string b = if single b then b else puthead 0x80 0xB7 (len b) ++ b.
Proof. destruct b as [|x [|y b]]; [done| |done]. simpl. by destruct (x <? 128). Qed.

Lemma single_size b size : len b = size -> (size =? 1) && (default 0 (b !! 0%nat) <? 128) = single b.
Proof.
  intros <-. destruct b as [|x [|y b]]; [done|done|]. rewrite !len_cons.
  rewrite (proj2 (Z.eqb_neq _ _)); [done|]. pose proof (len_nonneg b). lia.
Qed.

Lemma encode_string_pos b : 0 < len (encode_string b).
Proof.
  rewrite encode_string_single. destruct (single b) eqn:E.
  - destruct b as [|x b]; [done|]. rewrite len_cons. pose proof (len_nonneg b). lia.
  - destruct (puthead_cons 0x80 0xB7 (len b)) as (x & t & ->). rewrite len_app, len_cons.
    pose proof (len_nonneg t). pose proof (len_nonneg b). lia.
Qed.

Lemma Forall_in_input s h c rest : ready s -> input s = h ++ c ++ rest -> Forall is_byte c.
Proof.
  intros Hs E. pose proof (ws_bytes _ (rs_wf _ Hs)) as H. rewrite E in H.
  apply Forall_app in H as [_ H]. by apply Forall_app in H as [H _].
Qed.

(** What is ahead when the next value is a string. *)
Lemma string_ahead s c rest : ready s -> len c < two64 -> input s = encode_string c ++ rest ->
  Forall is_byte c -> readable (len (encode_string c)) s ->
  (exists b, c = [b] /\ 0 <= b < 128 /\ stream_Kind s = (Ok (Byte, 0), tok Byte 0 b (after 1 s))
     /\ moved (len (encode_string c)) s (set_kind None (tok Byte 0 b (after 1 s))))
  \/ (single c = false /\ let h := puthead 0x80 0xB7 (len c) in
      len (encode_string c) = len h + len c /\ input s = h ++ c ++ rest /\ readable (len h + len c) s
      /\ stream_Kind s = (Ok (String, len c), tok String (len c) 0 (after (len h) s))
      /\ wf_stream (tok String (len c) 0 (after (len h) s))).
Proof.
  intros Hs Hl Ei Hb Hr. rewrite encode_string_single in *. destruct (single c) eqn:E1; [left|right].
  - destruct c as [|b [|? ?]]; [done| |done]. apply Z.ltb_lt in E1. inversion_clear Hb as [|?? Hb0 _]. unfold is_byte in Hb0.
    exists b. split; [done|]. split; [lia|]. split; [|by apply byte_moved].
    apply (Kind_complete s Byte 0 b [b] rest); try done. simpl; split_and!; done || lia.
  - split; [done|]. intros h. rewrite len_app in *. rewrite <- app_assoc in Ei. split_and!; try done.
    + apply (Kind_complete s String (len c) 0 h (c ++ rest)); try done. split_and!; try done. unfold is_u64. pose proof (len_nonneg c). lia.
    + apply (Kind_complete s String (len c) 0 h (c ++ rest)); try done. split_and!; try done. unfold is_u64. pose proof (len_nonneg c). lia.
Qed.

(** And what has been read when it was looked at as one. *)
Lemma string_behind s k size s1 : ready s -> stream_Kind s = (Ok (k, size), s1) ->
  match k with
  | Byte => exists b rest, 0 <= b < 128 /\ input s = [b] ++ rest /\ byteval s1 = b /\ moved 1 s (set_kind None s1)
  | String => is_u64 size /\ forall c s2, readFull size s1 = (Ok c, s2) ->
      exists rest, input s = puthead 0x80 0xB7 size ++ c ++ rest /\ len c = size
        /\ moved (len (puthead 0x80 0xB7 size) + size) s s2
  | List => True
  end.
Proof.
  intros Hs E. apply Kind_sound in E as (b & h & rest & Hh & Ei & Hr & -> & Hw); [|done].
  destruct k; [| |done].
  - destruct Hh as (-> & -> & Hb). exists b, rest. split_and!; try done; try lia; by apply byte_moved.
  - destruct Hh as (-> & -> & Hu). split; [done|]. intros c s2 E.
    apply (content_sound s String size 0 _ rest c s2) in E as (rest' & -> & Hl & Hm); try done; [|apply Hu].
    by exists rest'.
Qed.

(** ** Strings *)

Definition string_form (ok : list Z -> Prop) (b c : list Z) : Prop :=
  ok b /\ Forall is_byte b /\ len b < two64 /\ c = encode_string b.

Lemma string_form_read (ok : list Z -> Prop) s c rest size s2 : ready s ->
  ok c -> single c = false -> is_u64 size -> input s = puthead 0x80 0xB7 size ++ c ++ rest -> len c = size ->
  moved (len (puthead 0x80 0xB7 size) + size) s s2 ->
  exists c' rest', string_form ok c c' /\ input s = c' ++ rest' /\ moved (len c') s s2.
Proof.
  intros Hs Hok H1 Hu Ei Hl Hm. exists (encode_string c), rest. rewrite encode_string_single, H1, Hl.
  split; [|by rewrite <- app_assoc, len_app, Hl].
  split; [done|]. split; [by eapply Forall_in_input|]. rewrite encode_string_single, H1, Hl.
  split; [|done]. unfold is_u64 in Hu. lia.
Qed.

Lemma string_form_byte (ok : list Z -> Prop) s b rest s2 : ok [b] -> 0 <= b < 128 -> input s = [b] ++ rest -> moved 1 s s2 ->
  exists c' rest', string_form ok [b] c' /\ input s = c' ++ rest' /\ moved (len c') s s2.
Proof.
  intros Hok Hb Ei Hm. exists [b], rest. split; [|done]. split; [done|].
  split; [constructor; [unfold is_byte; lia|constructor]|]. split; [done|].
  rewrite encode_string_single. simpl. by rewrite (proj2 (Z.ltb_lt _ _)) by lia.
Qed.

Ltac sm_unfold := unfold sm_bind, sm_get, sm_put, sm_ret, sm_throw, rearm in *.

Lemma Bytes_sound : sound Bytes (string_form (fun _ => True)).
Proof.
  intros s b s' Hs E. apply sm_bind_Ok in E as ([k size] & s1 & Hk & E). pose proof (string_behind _ _ _ _ Hs Hk) as Hb.
  destruct k; [| |done].
  - sm_unfold. injection E as <- <-. destruct Hb as (x & rest & Hx & Ei & Hv & Hm).
    apply (string_form_byte _ s (byteval s1) rest); [done|by rewrite Hv|by rewrite Hv|done].
  - apply sm_bind_Ok in E as (c & s2 & Hc & E). destruct Hb as [Hu Hb]. destruct (Hb _ _ Hc) as (rest & Ei & Hl & Hm).
    rewrite (single_size c size Hl) in E. destruct (single c) eqn:H1; [done|]. sm_unfold. injection E as -> ->.
    by apply (string_form_read _ s b rest size).
Qed.

Lemma Bytes_complete : complete Bytes (string_form (fun _ => True)).
Proof.
  intros s b c rest Hs (_ & Hb & Hl & ->) Ei Hr _. unfold Bytes.
  destruct (string_ahead s b rest Hs Hl Ei Hb Hr) as [(x & -> & Hx & Hk & Hm)|(H1 & Hlen & Ei' & Hr' & Hk & Hw)].
  - eexists. split; [|exact Hm]. apply sm_bind_Ok. eexists _, _. split; [exact Hk|done].
  - destruct (content_complete s String 0 _ b rest Hs Ei' Hr' Hw) as (s2 & Hf & Hm). rewrite Hlen. exists s2. split; [|done].
    apply sm_bind_Ok. eexists _, _. split; [exact Hk|]. apply sm_bind_Ok. exists b, s2. split; [done|].
    by rewrite (single_size b) , H1 by done.
Qed.

(** ** Byte arrays *)

Lemma decodeByteArray_sound n : sound (decodeByteArray n) (string_form (fun b => length b = n)).
Proof.
  intros s b s' Hs E. apply sm_bind_Ok in E as ([k size] & s1 & Hk & E). pose proof (string_behind _ _ _ _ Hs Hk) as Hb.
  destruct k; [| |done].
  - destruct (Nat.eqb_spec n 0); [done|]. destruct (Nat.ltb_spec 1 n); [done|]. sm_unfold. injection E as <- <-.
    destruct Hb as (x & rest & Hx & Ei & Hv & Hm).
    apply (string_form_byte _ s (byteval s1) rest); [simpl; lia|by rewrite Hv|by rewrite Hv|done].
  - destruct (Z.ltb_spec (Z.of_nat n) size); [done|]. destruct (Z.ltb_spec size (Z.of_nat n)); [done|].
    assert (Z.of_nat n = size) as En by lia. rewrite En in E.
    apply sm_bind_Ok in E as (c & s2 & Hc & E). destruct Hb as [Hu Hb]. destruct (Hb _ _ Hc) as (rest & Ei & Hl & Hm).
    rewrite (single_size c size Hl) in E. destruct (single c) eqn:H1; [done|]. sm_unfold. injection E as -> ->.
    apply (string_form_read _ s b rest size); try done. unfold len in Hl. lia.
Qed.

Lemma decodeByteArray_complete n : complete (decodeByteArray n) (string_form (fun b => length b = n)).
Proof.
  intros s b c rest Hs (Hn & Hb & Hl & ->) Ei Hr _. unfold decodeByteArray.
  destruct (string_ahead s b rest Hs Hl Ei Hb Hr) as [(x & -> & Hx & Hk & Hm)|(H1 & Hlen & Ei' & Hr' & Hk & Hw)].
  - eexists. split; [|exact Hm]. apply sm_bind_Ok. eexists _, _. split; [exact Hk|]. by subst n.
  - destruct (content_complete s String 0 _ b rest Hs Ei' Hr' Hw) as (s2 & Hf & Hm). rewrite Hlen. exists s2. split; [|done].
    apply sm_bind_Ok. eexists _, _. split; [exact Hk|]. assert (Z.of_nat n = len b) as -> by (unfold len; lia).
    rewrite Z.ltb_irrefl. apply sm_bind_Ok. exists b, s2. split; [done|].
    by rewrite (single_size b), H1 by done.
Qed.

(** ** Integers *)

(** [big.Int.BitLen] *)
Definition BitLen (i : Z) : Z := if i =? 0 then 0 else Z.log2 (Z.abs i) + 1.

(** The bytes of an integer, without leading zeros. *)
Definition int_content (i : Z) : list Z := be_bytes (Z.to_nat ((BitLen i + 7) / 8)) i.

Definition minimal (c : list Z) : Prop := c = [] \/ default 0 (c !! 0%nat) <> 0.

Lemma byte_width i : 0 < i -> let n := Z.to_nat ((BitLen i + 7) / 8) in
  (1 <= n)%nat /\ 256 ^ Z.of_nat (n - 1) <= i < 256 ^ Z.of_nat n.
Proof.
  intros Hi. cbv zeta. unfold BitLen. rewrite (proj2 (Z.eqb_neq _ _)), Z.abs_eq by lia. simpl.
  set (n := Z.to_nat ((Z.log2 i + 1 + 7) / 8)).
  pose proof (Z.log2_nonneg i). pose proof (Z.log2_spec i Hi) as [H1 H2].
  assert (1 <= (Z.log2 i + 1 + 7) / 8) by (apply Z.div_le_lower_bound; lia).
  assert (Z.of_nat n = (Z.log2 i + 1 + 7) / 8) as En by (unfold n; lia). split; [lia|].
  assert (Z.of_nat (n - 1) = (Z.log2 i + 1 + 7) / 8 - 1) as En1 by lia.
  change 256 with (2 ^ 8). rewrite <- !Z.pow_mul_r by lia. rewrite En, En1. split.
  - apply Z.le_trans with (2 ^ Z.log2 i); [|done]. apply Z.pow_le_mono_r; [lia|]. Z.to_euclidean_division_equations. lia.
  - apply Z.lt_le_trans with (2 ^ Z.succ (Z.log2 i)); [done|]. apply Z.pow_le_mono_r; [lia|]. Z.to_euclidean_division_equations. lia.
Qed.

Lemma int_content_value i : 0 <= i -> be_value (int_content i) = i.
Proof.
  intros Hi. unfold int_content. rewrite be_value_bytes. destruct (Z.eq_dec i 0) as [->|H0]; [done|].
  destruct (byte_width i) as (_ & H); [lia|]. apply Z.mod_small. lia.
Qed.

Lemma int_content_minimal i : 0 <= i -> minimal (int_content i).
Proof.
  intros Hi. destruct (Z.eq_dec i 0) as [->|H0]; [by left|]. right. unfold int_content.
  destruct (byte_width i) as (Hn & Hl & Hu); [lia|]. set (n := Z.to_nat _) in *. destruct n as [|n]; [lia|].
  rewrite be_bytes_cons by done. simpl. rewrite Nat.sub_1_r in Hl. simpl in Hl.
  replace (Z.of_nat (S n)) with (Z.of_nat n + 1) in Hu by lia. rewrite Z.pow_add_r, Z.pow_1_r in Hu by lia.
  assert (0 < 256 ^ Z.of_nat n) by (apply Z.pow_pos_nonneg; lia).
  assert (1 <= i / 256 ^ Z.of_nat n) by (apply Z.div_le_lower_bound; lia).
  assert (i / 256 ^ Z.of_nat n < 256) by (apply Z.div_lt_upper_bound; lia).
  rewrite Z.mod_small by lia. lia.
Qed.

Lemma int_content_bytes i : Forall is_byte (int_content i).
Proof. apply be_bytes_byte. Qed.

(** Without leading zeros the bytes are determined by the value. *)
Lemma minimal_unique c : Forall is_byte c -> minimal c -> int_content (be_value c) = c.
Proof.
  intros Hb [->|Hh]; [done|]. destruct c as [|b c]; [done|]. simpl in Hh. inversion_clear Hb as [|?? Hb0 Hb'].
  unfold is_byte in Hb0. pose proof (be_value_bound c Hb') as Hv.
  assert (0 < 256 ^ len c) by (apply Z.pow_pos_nonneg; unfold len; lia).
  assert (256 ^ len c <= be_value (b :: c) < 256 ^ len (b :: c)) as Hr.
  { rewrite be_value_cons, len_cons, Z.pow_add_r, Z.pow_1_r by (unfold len; lia). fold (len c) in Hv. nia. }
  assert (Forall is_byte (b :: c)) as Hall by (by constructor).
  destruct (byte_width (be_value (b :: c))) as (Hn & Hl & Hu); [lia|].
  unfold int_content. set (n := Z.to_nat _) in *.
  assert (n = length (b :: c)) as ->; [|by apply be_bytes_value].
  destruct (Nat.lt_trichotomy n (length (b :: c))) as [H1|[H1|H1]]; [|done|]; exfalso; simpl in H1.
  - assert (256 ^ Z.of_nat n <= 256 ^ len c) by (apply Z.pow_le_mono_r; unfold len; lia). lia.
  - rewrite len_cons in Hr. assert (256 ^ (len c + 1) <= 256 ^ Z.of_nat (n - 1)) by (apply Z.pow_le_mono_r; unfold len; lia). lia.
Qed.

Lemma uint_content_int i : is_u64 i -> uint_content i = int_content i.
Proof.
  intros Hi. unfold uint_content. destruct (Z.eqb_spec i 0) as [->|H0]; [done|].
  rewrite <- (minimal_unique (putint i)); [by rewrite putint_value|apply putint_byte|].
  right. apply putint_head; [done|]. unfold is_u64 in Hi. lia.
Qed.

Lemma int_content_length i n : 0 <= i < 256 ^ n -> 0 <= n -> len (int_content i) <= n.
Proof.
  intros Hi Hn. destruct (Z.eq_dec i 0) as [->|H0]; [unfold len; simpl; lia|].
  destruct (byte_width i) as (H1 & Hl & Hu); [lia|]. unfold int_content, len. rewrite be_bytes_length.
  set (k := Z.to_nat _) in *. destruct (Z.le_gt_cases (Z.of_nat k) n); [done|]. exfalso.
  assert (256 ^ n <= 256 ^ Z.of_nat (k - 1)) by (apply Z.pow_le_mono_r; lia). lia.
Qed.

Definition int_form (ok : Z -> Prop) (i : Z) (c : list Z) : Prop :=
  0 <= i /\ ok i /\ len (int_content i) < two64 /\ c = encode_string (int_content i).

Definition fits_buffer (max : option Z) (b : list Z) : Prop := max <> None -> len b <= 32.

Lemma int_buffer_sound max : sound (int_buffer max) (string_form (fits_buffer max)).
Proof.
  intros s b s' Hs E. apply sm_bind_Ok in E as ([k size] & s1 & Hk & E).
  pose proof (string_behind _ _ _ _ Hs Hk) as Hb. destruct k; [| |done].
  - sm_unfold. injection E as <- <-. destruct Hb as (x & rest & Hx & Ei & Hv & Hm).
    apply (string_form_byte _ s (byteval s1) rest); [done|by rewrite Hv|by rewrite Hv|done].
  - destruct Hb as [Hu Hb]. destruct (Z.eqb_spec size 0) as [->|H0].
    { sm_unfold. injection E as <- <-. apply Kind_sound in Hk as (b & h & rest & Hh & Ei & Hr & -> & Hw); [|done].
      destruct Hh as (-> & -> & _). apply (string_form_read _ s [] rest 0); try done.
      apply (after_moved 1); [apply Hs|done..]. }
    assert (forall c s2, readFull size s1 = (Ok c, s2) -> single c = false -> fits_buffer max c ->
      exists c' rest, string_form (fits_buffer max) c c' /\ input s = c' ++ rest /\ moved (len c') s s2) as Hread.
    { intros c s2 Hc H1 Hf. destruct (Hb _ _ Hc) as (rest & Ei & Hl & Hm). by apply (string_form_read _ s c rest size). }
    destruct (Z.leb_spec size 32).
    + apply sm_bind_Ok in E as (c & s2 & Hc & E). destruct (Hb _ _ Hc) as (rest & Ei & Hl & Hm).
      rewrite (single_size c size Hl) in E. destruct (single c) eqn:H1; [done|]. sm_unfold. injection E as -> ->.
      apply (Hread _ _ Hc H1). intros _. lia.
    + destruct max; [done|]. destruct (Hb _ _ E) as (rest & Ei & Hl & Hm). apply (Hread _ _ E); [|by intros []].
      destruct b as [|? [|? ?]]; try done. unfold len in Hl. simpl in Hl. lia.
Qed.

Lemma int_buffer_complete max : complete (int_buffer max) (string_form (fits_buffer max)).
Proof.
  intros s b c rest Hs (Hf & Hb & Hl & ->) Ei Hr _. unfold int_buffer.
  destruct (string_ahead s b rest Hs Hl Ei Hb Hr) as [(x & -> & Hx & Hk & Hm)|(H1 & Hlen & Ei' & Hr' & Hk & Hw)].
  { eexists. split; [|exact Hm]. apply sm_bind_Ok. eexists _, _. split; [exact Hk|done]. }
  destruct (content_complete s String 0 _ b rest Hs Ei' Hr' Hw) as (s2 & Hrd & Hm). rewrite Hlen.
  destruct (Z.eqb_spec (len b) 0) as [H0|H0].
  { assert (b = []) as -> by (destruct b; [done|rewrite len_cons in H0; pose proof (len_nonneg b); lia]).
    eexists. split; [apply sm_bind_Ok; eexists _, _; split; [exact Hk|done]|].
    apply (after_moved 1); [apply Hs|exact Hr|done..]. }
  exists s2. split; [|done]. apply sm_bind_Ok. eexists _, _. split; [exact Hk|].
  cbv beta iota. rewrite (proj2 (Z.eqb_neq _ _)) by done. destruct (Z.leb_spec (len b) 32) as [H32|H32].
  - apply sm_bind_Ok. exists b, s2. split; [done|]. by rewrite (single_size b), H1 by done.
  - destruct max; [|done]. exfalso. specialize (Hf ltac:(done)). lia.
Qed.

Lemma int_of_buffer_Ok c s i s' : Forall is_byte c ->
  int_of_buffer c s = (Ok i, s') <-> 0 <= i /\ c = int_content i /\ s' = s.
Proof.
  intros Hc. unfold int_of_buffer. split.
  - intros E. assert (minimal c) as Hm.
    { destruct c as [|x c]; [by left|right]. rewrite len_cons in E. pose proof (len_nonneg c).
      rewrite (proj2 (Z.ltb_lt _ _)) in E by lia. simpl in *. by destruct (Z.eqb_spec x 0). }
    pose proof (be_value_bound c Hc).
    destruct (_ && _); [done|]. sm_unfold. injection E as <- <-. split; [lia|]. by rewrite minimal_unique.
  - intros (Hi & -> & ->). rewrite int_content_value by done. destruct (int_content_minimal i Hi) as [->|Hm]; [done|].
    rewrite (proj2 (Z.eqb_neq _ _)) by done. by rewrite andb_false_r.
Qed.

(** A buffer that is read and then taken for an integer. *)
Lemma int_sound max (ok : Z -> Prop) : (forall i, 0 <= i -> fits_buffer max (int_content i) -> ok i) ->
  sound (do b <- int_buffer max; int_of_buffer b) (int_form ok).
Proof.
  intros Hok s i s' Hs E. apply sm_bind_Ok in E as (b & s1 & Eb & E).
  apply int_buffer_sound in Eb as (c & rest & (Hf & Hb & Hl & ->) & Ei & Hm); [|done].
  apply int_of_buffer_Ok in E as (Hi & -> & ->); [|done]. exists (encode_string (int_content i)), rest.
  split; [|done]. split; [done|]. split; [by apply Hok|done].
Qed.

Lemma int_complete max (ok : Z -> Prop) : (forall i, 0 <= i -> ok i -> fits_buffer max (int_content i)) ->
  complete (do b <- int_buffer max; int_of_buffer b) (int_form ok).
Proof.
  intros Hok s i c rest Hs (Hi & Ho & Hl & ->) Ei Hr Hpos.
  destruct (int_buffer_complete max s (int_content i) (encode_string (int_content i)) rest) as (s1 & E & Hm); try done.
  { split; [by apply Hok|]. split; [apply int_content_bytes|done]. }
  exists s1. split; [|done]. apply sm_bind_Ok. exists (int_content i), s1. split; [done|].
  by apply int_of_buffer_Ok; [apply int_content_bytes|].
Qed.

Lemma decodeBigInt_sound : sound decodeBigInt (int_form (fun _ => True)).
Proof. by apply int_sound. Qed.
Lemma decodeBigInt_complete : complete decodeBigInt (int_form (fun _ => True)).
Proof. apply int_complete. by intros i _ _ []. Qed.

Lemma ReadUint256_sound : sound ReadUint256 (int_form is_u256).
Proof.
  apply int_sound. intros i Hi Hf. specialize (Hf ltac:(done)).
  pose proof (be_value_bound _ (int_content_bytes i)) as Hv. rewrite int_content_value in Hv by done.
  fold (len (int_content i)) in Hv. split; [done|].
  assert (256 ^ len (int_content i) <= 256 ^ 32) by (apply Z.pow_le_mono_r; lia).
  change (256 ^ 32) with two256 in *. lia.
Qed.
Lemma ReadUint256_complete : complete ReadUint256 (int_form is_u256).
Proof. apply int_complete. intros i Hi Hu _. apply int_content_length; [exact Hu|done]. Qed.

(** An unsigned integer of [bits] bits. *)
Lemma readUint_readFull size s v s' : wf_stream s -> 1 <= size ->
  readUint size s = (Ok v, s') <->
  exists c, readFull size s = (Ok c, s') /\ v = be_value c /\ (size = 1 \/ default 0 (c !! 0%nat) <> 0).
Proof.
  intros Hw H1. unfold readUint. rewrite (proj2 (Z.eqb_neq size 0)) by lia. destruct (Z.eqb_spec size 1) as [->|Hne].
  - rewrite readByte_Ok by done. split.
    + intros (Hr & Hv & ->). exists [v]. split; [|split; [unfold be_value; simpl; lia|by left]].
      apply readFull_Ok; [done..|]. split; [done|]. split; [|done]. by destruct (input s); simplify_eq/=.
    + intros (c & (Hr & -> & ->)%readFull_Ok & -> & _); [|done..]. split; [done|]. split; [|done].
      pose proof (rd_input _ _ Hr) as Hl. destruct (input s); [by vm_compute in Hl|]. done.
  - rewrite sm_bind_Ok. split.
    + intros (c & s1 & Hc & E). destruct (Z.eqb_spec (default 0 (c !! 0%nat)) 0); [done|]. sm_unfold.
      injection E as <- <-. exists c. split; [done|]. split; [done|by right].
    + intros (c & Hc & -> & [|Hh]); [done|]. exists c, s'. split; [done|]. by rewrite (proj2 (Z.eqb_neq _ _)).
Qed.

Lemma stream_uint_sound bits : 0 < bits -> bits mod 8 = 0 -> sound (stream_uint bits) (int_form (fun i => i < 2 ^ bits)).
Proof.
  intros Hb0 Hb8 s v s' Hs E. apply sm_bind_Ok in E as ([k size] & s1 & Hk & E).
  pose proof (string_behind _ _ _ _ Hs Hk) as Hb. destruct k; [| |done].
  - destruct Hb as (x & rest & Hx & Ei & Hv & Hm). apply sm_bind_Ok in E as (b & s2 & E1 & E). sm_unfold.
    injection E1 as <- <-. destruct (Z.eqb_spec (byteval s1) 0); [done|]. injection E as <- <-.
    assert (int_content (byteval s1) = [byteval s1]) as Ec.
    { rewrite <- (minimal_unique [byteval s1]); [unfold be_value; simpl; do 2 f_equal; lia| |by right].
      constructor; [unfold is_byte; lia|constructor]. }
    exists [x], rest. split; [|done]. split; [lia|]. rewrite Ec. split; [|split; [done|]].
    + assert (2 ^ 8 <= 2 ^ bits) by (apply Z.pow_le_mono_r; Z.to_euclidean_division_equations; lia). lia.
    + rewrite Hv, encode_string_single. simpl. by rewrite (proj2 (Z.ltb_lt _ _)) by lia.
  - destruct Hb as [Hu Hb]. destruct (Z.ltb_spec (bits / 8) size) as [|Hsz]; [done|].
    assert (exists c s2, (size = 0 /\ c = [] /\ moved 1 s s2 /\ (exists rest, input s = [0x80] ++ rest)
        \/ readFull size s1 = (Ok c, s2) /\ single c = false)
      /\ v = be_value c /\ minimal c /\ s' = s2) as (c & s2 & Hc & -> & Hmin & ->).
    { unfold sm_catch in E. destruct (readUint size s1) as [[u|e] s2] eqn:Eu; [|by destruct e].
      assert (u = v /\ s' = s2 /\ ((0 <? size) && (u <? 128) = false)) as (-> & -> & H128).
      { destruct (_ && _); [done|]. sm_unfold. by injection E. }
      apply Kind_sound in Hk as (b & h & rest & Hh & Ei & Hr & -> & Hw); [|done]. destruct Hh as (-> & -> & _).
      destruct (Z.eq_dec size 0) as [->|H0].
      - unfold readUint in Eu. simpl in Eu. sm_unfold. injection Eu as <- <-.
        exists [], (set_kind None (tok String 0 0 (after 1 s))).
        split; [left; split_and!; [done|done|apply (after_moved 1); [apply Hs|done..]|by exists rest]|].
        split_and!; [done|by left|done].
      - unfold is_u64 in Hu. apply readUint_readFull in Eu as (c & Hc & -> & Hh); [|done|lia].
        rewrite (proj2 (Z.ltb_lt 0 size)) in H128 by lia. simpl in H128. apply Z.ltb_ge in H128.
        destruct (Hb _ _ Hc) as (rest' & _ & Hl & _). exists c, s2.
        assert (minimal c) as Hm.
        { destruct Hh as [->|Hh]; [|by right]. destruct c as [|x [|y l]]; [done| |rewrite !len_cons in Hl; pose proof (len_nonneg l); lia].
          right. unfold be_value in H128. simpl in *. lia. }
        split_and!; try done. right. split; [done|]. destruct c as [|x [|? ?]]; try done.
        unfold be_value in H128. simpl in *. apply Z.ltb_ge. lia. }
    assert (forall c, Forall is_byte c -> minimal c -> len c = size -> 0 <= be_value c < 2 ^ bits) as Hrange.
    { intros c' Hb' _ Hl. pose proof (be_value_bound c' Hb') as Hv. fold (len c') in Hv. split; [lia|].
      apply Z.lt_le_trans with (256 ^ len c'); [lia|]. change 256 with (2 ^ 8). rewrite <- Z.pow_mul_r by (unfold len; lia).
      apply Z.pow_le_mono_r; [lia|]. Z.to_euclidean_division_equations. lia. }
    destruct Hc as [(-> & -> & Hm & rest & Ei)|(Hc & H1)].
    + exists [0x80], rest. split; [|done]. split; [done|]. split; [|done]. apply (Hrange []); [constructor|by left|done].
    + destruct (Hb _ _ Hc) as (rest & Ei & Hl & Hm).
      assert (Forall is_byte c) as Hby by (by eapply Forall_in_input).
      destruct (string_form_read (fun _ => True) s c rest size s2) as (c' & rest' & (_ & _ & Hl' & ->) & Ei' & Hm'); try done.
      exists (encode_string c), rest'. split; [|done]. pose proof (Hrange c Hby Hmin Hl). split; [lia|]. split; [lia|].
      by rewrite minimal_unique.
Qed.

Lemma stream_uint_complete bits : 0 < bits -> bits mod 8 = 0 ->
  complete (stream_uint bits) (int_form (fun i => i < 2 ^ bits)).
Proof.
  intros Hb0 Hb8 s i c rest Hs (Hi & Hu & Hl & ->) Ei Hr _. unfold stream_uint.
  destruct (string_ahead s (int_content i) rest Hs Hl Ei (int_content_bytes i) Hr)
    as [(x & Ec & Hx & Hk & Hm)|(H1 & Hlen & Ei' & Hr' & Hk & Hw)].
  - assert (i = x) as -> by (rewrite <- (int_content_value i Hi), Ec; unfold be_value; simpl; lia).
    eexists. split; [|exact Hm]. apply sm_bind_Ok. eexists _, _. split; [exact Hk|]. sm_unfold. simpl.
    destruct (int_content_minimal x Hi) as [E|E]; rewrite Ec in E; [done|]. simpl in E. by rewrite (proj2 (Z.eqb_neq _ _)).
  - destruct (content_complete s String 0 _ (int_content i) rest Hs Ei' Hr' Hw) as (s2 & Hf & Hm). rewrite Hlen.
    assert (len (int_content i) <= bits / 8) as Hle.
    { apply int_content_length; [|apply Z.div_pos; lia]. split; [done|]. change 256 with (2 ^ 8).
      rewrite <- Z.pow_mul_r by (Z.to_euclidean_division_equations; lia).
      replace (8 * (bits / 8)) with bits by (Z.to_euclidean_division_equations; lia). done. }
    destruct (Z.eq_dec (len (int_content i)) 0) as [E0|E0].
    + assert (int_content i = []) as Ec by (destruct (int_content i) as [|? l]; [done|rewrite len_cons in E0; pose proof (len_nonneg l); lia]).
      assert (i = 0) as -> by (rewrite <- (int_content_value i Hi), Ec; done).
      rewrite Ec in *. eexists. split; [apply sm_bind_Ok; eexists _, _; split; [exact Hk|]|].
      * cbv beta iota. rewrite (proj2 (Z.ltb_ge _ _)) by done. done.
      * apply (after_moved 1); [apply Hs|exact Hr'|done..].
    + exists s2. split; [|done]. apply sm_bind_Ok. eexists _, _. split; [exact Hk|]. cbv beta iota.
      rewrite (proj2 (Z.ltb_ge _ _)) by done. pose proof (len_nonneg (int_content i)).
      assert (readUint (len (int_content i)) (tok String (len (int_content i)) 0 (after (len (puthead 0x80 0xB7 (len (int_content i)))) s))
        = (Ok i, s2)) as Eu.
      { apply readUint_readFull; [done|lia|]. exists (int_content i). rewrite int_content_value by done.
        split; [done|]. split; [done|right]. destruct (int_content_minimal i Hi) as [E|]; [by rewrite E in E0|done]. }
      unfold sm_catch. rewrite Eu. assert (128 <= i) as H128.
      { destruct (Z.le_gt_cases 128 i) as [|Hlt]; [done|]. exfalso.
        assert (int_content i = [i]) as Ec.
        { rewrite <- (minimal_unique [i]); [unfold be_value; simpl; f_equal; lia| |right; simpl].
          - constructor; [unfold is_byte; lia|constructor].
          - intros ->. done. }
        rewrite Ec in H1. simpl in H1. apply Z.ltb_ge in H1. lia. }
      by rewrite (proj2 (Z.ltb_ge i 128)), andb_false_r by done.
Qed.

Definition bool_form (b : bool) (c : list Z) : Prop := c = encode_string (int_content (if b then 1 else 0)).

Lemma stream_Bool_sound : sound stream_Bool bool_form.
Proof.
  intros s b s' Hs E. apply sm_bind_Ok in E as (i & s1 & Ei & E).
  apply stream_uint_sound in Ei as (c & rest & (_ & _ & _ & ->) & Ei & Hm); [|done..].
  exists (encode_string (int_content i)), rest. sm_unfold. unfold bool_form.
  destruct (Z.eqb_spec i 0) as [->|]; [by injection E as <- <-|]. destruct (Z.eqb_spec i 1) as [->|]; [|done].
  by injection E as <- <-.
Qed.

Lemma stream_Bool_complete : complete stream_Bool bool_form.
Proof.
  intros s b c rest Hs Hc Ei Hr Hp.
  destruct (stream_uint_complete 8 ltac:(done) ltac:(done) s (if b then 1 else 0) c rest Hs) as (s1 & E & Hm); try done.
  { unfold bool_form in Hc. subst c. by destruct b; vm_compute. }
  exists s1. split; [|done]. apply sm_bind_Ok. eexists _, _. split; [exact E|]. by destruct b.
Qed.

(** ** Lists *)

(** In a list: its size is on the stack, and the list around it has been charged. *)
Record entered (h size : Z) (s s' : Stream) : Prop := {
  en_input : input s' = drop (Z.to_nat h) (input s);
  en_limited : limited s' = limited s;
  en_remaining : remaining s' = if limited s then remaining s - h else remaining s;
  en_bound : limited s = true -> h <= remaining s;
  en_stack : stack s' = size :: match stack s with [] => [] | l :: st => u64 (l - h - size) :: st end;
  en_kind : kind s' = None
}.

Lemma entered_ready h size s s' : ready s -> 0 <= h <= len (input s) -> is_u64 size -> entered h size s s' -> ready s'.
Proof.
  intros [[Hb Hr Hs] Hk Hl] Hh Hu [Ei El Er Hbd Est Hk']. split; [split| |].
  - rewrite Ei. by apply Forall_drop.
  - rewrite Er. destruct (limited s); [|done]. specialize (Hbd eq_refl). unfold is_u64 in *. lia.
  - rewrite Est. constructor; [done|]. destruct (stack s); [done|]. inversion_clear Hs. constructor; [apply u64_range|done].
  - done.
  - rewrite Ei, len_drop by lia. lia.
Qed.

Definition entering (size : Z) (s : Stream) : Stream :=
  let s := match listLimit s with Some limit => set_listLimit (u64 (limit - size)) s | None => s end in
  set_size 0 (set_kind None (set_stack (size :: stack s) s)).

Lemma stream_List_Ok s size s' :
  stream_List s = (Ok size, s') <-> exists s1, stream_Kind s = (Ok (List, size), s1) /\ s' = entering size s1.
Proof.
  unfold stream_List. rewrite sm_bind_Ok. split.
  - intros ([k size0] & s1 & Hk & E). destruct k; [done|done|]. exists s1. sm_unfold. unfold entering.
    destruct (listLimit s1); injection E as <- <-; done.
  - intros (s1 & Hk & ->). exists (List, size), s1. split; [done|]. sm_unfold. unfold entering. by destruct (listLimit s1).
Qed.

Lemma entering_entered s h size b : wf_stream s -> readable h s ->
  entered h size s (entering size (tok List size b (after h s))).
Proof.
  intros Hw Hr. unfold entering, listLimit. simpl.
  destruct (stack s) as [|l st] eqn:Es; split; simpl; rewrite ?Es; try done; apply Hr.
Qed.

Lemma List_sound s size s1 : ready s -> stream_List s = (Ok size, s1) ->
  let h := puthead 0xC0 0xF7 size in
  is_u64 size /\ exists rest, input s = h ++ rest /\ entered (len h) size s s1 /\ ready s1 /\ input s1 = rest.
Proof.
  intros Hs E h. apply stream_List_Ok in E as (s0 & Hk & ->).
  apply Kind_sound in Hk as (b & h0 & rest & (-> & -> & Hu) & Ei & Hr & -> & Hw); [|done].
  pose proof (rd_nonneg _ _ Hr). pose proof (rd_input _ _ Hr).
  pose proof (entering_entered s (len h) size 0 (rs_wf _ Hs) Hr) as Hen.
  split; [done|]. exists rest. split; [done|]. split; [done|]. split; [by eapply entered_ready|].
  pose proof (en_input _ _ _ _ Hen) as Hi. by rewrite Ei, drop_len_app in Hi.
Qed.

Lemma List_complete s c rest : ready s -> len c < two64 -> input s = encode_list c ++ rest ->
  readable (len (encode_list c)) s ->
  let h := len (puthead 0xC0 0xF7 (len c)) in
  exists s1, stream_List s = (Ok (len c), s1) /\ entered h (len c) s s1 /\ ready s1 /\ input s1 = c ++ rest
    /\ readable (len c) s1 /\ listLimit s1 = Some (len c).
Proof.
  intros Hs Hl Ei Hr h. unfold encode_list in *. rewrite len_app in Hr. rewrite <- app_assoc in Ei.
  assert (is_u64 (len c)) as Hu by (unfold is_u64; pose proof (len_nonneg c); lia).
  destruct (Kind_complete s List (len c) 0 _ (c ++ rest) Hs ltac:(done) Ei Hr) as [Hk Hw].
  pose proof (len_nonneg c). pose proof (len_nonneg (puthead 0xC0 0xF7 (len c))).
  pose proof Hr as Hr'. apply readable_add in Hr' as [Hr1 Hr2]; [|done..].
  pose proof (entering_entered s h (len c) 0 (rs_wf _ Hs) Hr1) as Hen.
  exists (entering (len c) (tok List (len c) 0 (after h s))). split; [apply stream_List_Ok; by eexists|].
  split; [exact Hen|].
  assert (0 <= h <= len (input s)) as Hh by (split; [done|apply Hr1]).
  split; [by eapply entered_ready|]. split; [pose proof (en_input _ _ _ _ Hen) as Hi; by rewrite Ei, drop_len_app in Hi|].
  split; [|unfold listLimit; by rewrite (en_stack _ _ _ _ Hen)].
  split; [done| | |].
  - rewrite (en_input _ _ _ _ Hen). apply (rd_input _ _ Hr2).
  - rewrite (en_limited _ _ _ _ Hen), (en_remaining _ _ _ _ Hen). apply (rd_remaining _ _ Hr2).
  - unfold listLimit. rewrite (en_stack _ _ _ _ Hen). simpl. by intros l [= <-].
Qed.

(** What is read in a list that is left again is the whole of it. *)
Lemma ListEnd_sound s s1 s2 s3 h size n : ready s -> 0 <= h <= len (input s) -> is_u64 size ->
  entered h size s s1 -> moved n s1 s2 -> stream_ListEnd s2 = (Ok tt, s3) -> n = size /\ moved (h + size) s s3.
Proof.
  intros Hs Hh Hu Hen Hm E. pose proof (entered_ready _ _ _ _ Hs Hh Hu Hen) as Hs1.
  pose proof Hen as [Ei El Er Hbd Est Hk]. pose proof Hm as [H0 Mi Mle Ml Mr Mb Mst Mk].
  rewrite Est in Mst. unfold stream_ListEnd in E. sm_unfold. unfold listLimit in E. rewrite Mst in E. simpl in E.
  destruct (Z.ltb_spec 0 (u64 (size - n))) as [|Hle]; [done|]. injection E as <-.
  pose proof (u64_range (size - n)) as Hrg. pose proof (rs_len _ Hs1) as Hlen.
  assert (n = size) as ->.
  { assert (u64 (size - n) = 0) as Hz by (unfold is_u64 in Hrg; lia). unfold u64 in Hz.
    apply Z.mod_divide in Hz as [q Hq]; [|done]. unfold is_u64 in Hu. assert (q = 0) by nia. nia. }
  split; [done|]. rewrite Ei, len_drop in Mle by lia.
  split; simpl; [lia| |lia|congruence| | | |done].
  - rewrite Mi, Ei, drop_drop. f_equal. lia.
  - rewrite Mr, El, Er. destruct (limited s); lia.
  - intros L. rewrite El, Er, L in Mb. specialize (Mb eq_refl). lia.
  - rewrite Mst. simpl. destruct (stack s); [done|]. f_equal. f_equal. lia.
Qed.

Lemma ListEnd_complete s s1 s2 h size : ready s -> 0 <= h <= len (input s) -> is_u64 size ->
  entered h size s s1 -> moved size s1 s2 -> exists s3, stream_ListEnd s2 = (Ok tt, s3) /\ moved (h + size) s s3.
Proof.
  intros Hs Hh Hu Hen Hm. pose proof (mv_stack _ _ _ Hm) as Est. rewrite (en_stack _ _ _ _ Hen), Z.sub_diag in Est.
  assert (exists s3, stream_ListEnd s2 = (Ok tt, s3)) as [s3 E].
  { eexists. unfold stream_ListEnd. sm_unfold. unfold listLimit. rewrite Est. reflexivity. }
  exists s3. split; [done|]. by eapply (ListEnd_sound s s1 s2).
Qed.

Lemma quiet_ListEnd : quiet stream_ListEnd.
Proof. unfold stream_ListEnd, rearm. eauto 12 with quiet. Qed.
#[export] Hint Resolve quiet_ListEnd : quiet.
