(* ===== verification/RlpCodec.v ===== *)
(** The codec that reflects on Go types: the writers of [rlp/encode.go] and the decoders
    of [rlp/decode.go] for integers, booleans, strings, byte arrays, pointers, slices and
    structs with optional fields, over an inductive type of the Go types they serve.

    The writers of a type produce the encoding of a tree of strings and lists, and the
    decoder reads it back; for types without optional fields it accepts nothing else.
    Interfaces, arrays other than of bytes, types with methods of their own, raw values
    and the "tail" tag are left out. *)

From stdpp Require Import base list numbers option strings.
From S2P Require Import Prelude Uint256 Rlp RlpStream RlpValues.
Import U256(be_value, be_bytes, be_bytes_length, be_bytes_byte, be_value_bytes, be_value_bound,
  be_bytes_value, be_value_snoc).
Open Scope Z_scope.
Open Scope stream_scope.

(** ** Go types

    [TBig] is a [*big.Int] that is not nil, [TU256] a [uint256.Int] or a pointer to one,
    [TBytes] a byte slice or a string, [TNilPtr] a pointer with the tag "nil"; the
    second list of a struct are its optional fields. *)

Inductive gotype :=
| TUint (bits : Z)
| TBool
| TBig
| TU256
| TBytes
| TByteArray (n : nat)
| TPtr (t : gotype)
| TNilPtr (t : gotype)
| TSlice (t : gotype)
| TStruct (fields optional : list gotype).

Lemma gotype_ind' (P : gotype -> Prop)
  (HUint : forall bits, P (TUint bits)) (HBool : P TBool) (HBig : P TBig) (HU256 : P TU256) (HBytes : P TBytes)
  (HArray : forall n, P (TByteArray n)) (HPtr : forall t, P t -> P (TPtr t)) (HNil : forall t, P t -> P (TNilPtr t))
  (HSlice : forall t, P t -> P (TSlice t))
  (HStruct : forall fs os, Forall P fs -> Forall P os -> P (TStruct fs os)) : forall t, P t.
Proof.
  refine (fix IH t {struct t} := _). destruct t as [bits| | | | |n|t|t|t|fs os]; [done..| | | |].
  - apply HPtr, IH.
  - apply HNil, IH.
  - apply HSlice, IH.
  - apply HStruct.
    + refine ((fix go l : Forall P l := _) fs). destruct l as [|t l]; constructor; [apply IH|apply go].
    + refine ((fix go l : Forall P l := _) os). destruct l as [|t l]; constructor; [apply IH|apply go].
Qed.

(** The values of the fields of a struct. *)
Fixpoint tuple (f : gotype -> Type) (ts : list gotype) : Type :=
  match ts with
  | [] => unit
  | t :: ts => (f t * tuple f ts)%type
  end.

Fixpoint denote (t : gotype) : Type :=
  match t with
  | TUint _ | TBig | TU256 => Z
  | TBool => bool
  | TBytes | TByteArray _ => list Z
  | TPtr t | TNilPtr t => option (denote t)
  | TSlice t => list (denote t)
  | TStruct fs os => (tuple denote fs * tuple denote os)%type
  end.

#[global] Instance Kind_eq_dec : EqDecision Kind.
Proof. solve_decision. Defined.

(** [DefaultNilValue]: what a nil pointer to the type is encoded as. *)
Definition nil_kind (t : gotype) : Kind :=
  match t with
  | TUint _ | TBool | TBytes | TByteArray _ => String
  | _ => List
  end.

(** [writeBigIntPtr] and [writeU256IntPtr] write a nil pointer as an empty string. *)
Definition nilEncoding (t : gotype) : Z :=
  match t with
  | TBig | TU256 => 0x80
  | _ => match nil_kind t with String => 0x80 | _ => 0xC0 end
  end.

(** The zero value, and whether a value is it; optional fields are numbers, booleans,
    arrays or pointers. *)
Section Tuples.
Context (zero : forall t, denote t).
Fixpoint zero_tuple (ts : list gotype) : tuple denote ts :=
  match ts with [] => tt | t :: ts => (zero t, zero_tuple ts) end.
End Tuples.

Fixpoint zero_val (t : gotype) : denote t :=
  match t with
  | TUint _ | TBig | TU256 => 0
  | TBool => false
  | TBytes => []
  | TByteArray n => replicate n 0
  | TPtr _ | TNilPtr _ => None
  | TSlice _ => []
  | TStruct fs os => (zero_tuple zero_val fs, zero_tuple zero_val os)
  end.

Definition is_zero (t : gotype) : denote t -> bool :=
  match t with
  | TUint _ => fun i => i =? 0
  | TBool => negb
  | TByteArray n => fun b => bool_decide (b = replicate n 0)
  | TPtr _ | TNilPtr _ => fun o => match o with None => true | Some _ => false end
  | _ => fun _ => false
  end.

(** How many of the optional fields are encoded: those up to the last that is not zero. *)
Fixpoint kept (ts : list gotype) : tuple denote ts -> nat :=
  match ts with
  | [] => fun _ => 0%nat
  | t :: ts => fun '(v, vs) =>
      match kept ts vs with
      | O => if is_zero t v then 0%nat else 1%nat
      | S n => S (S n)
      end
  end.

(** ** Writers, encode.go *)

Definition writeBigInt (i : Z) (w : encBuffer) : encBuffer :=
  let bitlen := BitLen i in
  if bitlen <=? 64 then writeUint64 (u64 i) w
  else
    let length := Z.shiftr (Z.land (bitlen + 7) (-8)) 3 in
    write (be_bytes (Z.to_nat length) i) (encodeStringHeader length w).

(** The buffer has a byte for the header in front of the 32 bytes of the integer. *)
Definition writeUint256 (z : Z) (w : encBuffer) : encBuffer :=
  let bitlen := BitLen z in
  if bitlen <=? 64 then writeUint64 (u64 z) w
  else
    let nBytes := (bitlen + 7) / 8 in
    let b := <[Z.to_nat (32 - nBytes) := 0x80 + nBytes]> (0 :: be_bytes 32 z) in
    write (drop (Z.to_nat (32 - nBytes)) b) w.

(** [makeByteArrayWriter] *)
Definition writeByteArray (n : nat) (b : list Z) (w : encBuffer) : encBuffer :=
  match n with
  | O => write [0x80] w
  | S O => let x := default 0 (b !! 0%nat) in write (if x <=? 0x7f then [x] else [0x81; x]) w
  | _ => write b (encodeStringHeader (len b) w)
  end.

Section Writers.
Context (write_val : forall t, denote t -> encBuffer -> option encBuffer).

(** The first [n] fields. *)
Fixpoint write_fields (n : nat) (ts : list gotype) {struct ts} : tuple denote ts -> encBuffer -> option encBuffer :=
  match n, ts with
  | S n, t :: ts => fun '(v, vs) w => w ← write_val t v w; write_fields n ts vs w
  | _, _ => fun _ w => Some w
  end.
End Writers.

(** [None] is the error of a negative integer. *)
Definition writeBigIntNoPtr (i : Z) (w : encBuffer) : option encBuffer :=
  if i <? 0 then None else Some (writeBigInt i w).

Definition makePtrWriter {A} (nilEncoding : Z) (writer : A -> encBuffer -> option encBuffer)
    (o : option A) (w : encBuffer) : option encBuffer :=
  match o with
  | Some v => writer v w
  | None => Some (write [nilEncoding] w)
  end.

Definition makeSliceWriter {A} (writer : A -> encBuffer -> option encBuffer) (l : list A) (w : encBuffer) :
    option encBuffer :=
  match l with
  | [] => Some (write [0xC0] w)
  | _ =>
      let '(listOffset, w) := list_ w in
      w ← foldl (fun ow v => w ← ow; writer v w) (Some w) l;
      listEnd listOffset w
  end.

Definition makeStructWriter (write_val : forall t, denote t -> encBuffer -> option encBuffer) (fs os : list gotype)
    (v : tuple denote fs) (o : tuple denote os) (w : encBuffer) : option encBuffer :=
  let '(lh, w) := list_ w in
  w ← write_fields write_val (length fs) fs v w;
  w ← write_fields write_val (kept os o) os o w;
  listEnd lh w.

Arguments makePtrWriter {_} _ _ !_ _ /.
Arguments makeSliceWriter {_} _ _ _ /.
Arguments makeStructWriter _ _ _ _ _ _ /.

(** [makeWriter] *)
Fixpoint write_val (t : gotype) : denote t -> encBuffer -> option encBuffer :=
  match t with
  | TUint _ => fun i w => Some (writeUint64 i w)
  | TBool => fun b w => Some (writeBool b w)
  | TBig => writeBigIntNoPtr
  | TU256 => fun i w => Some (writeUint256 i w)
  | TBytes => fun b w => Some (writeBytes b w)
  | TByteArray n => fun b w => Some (writeByteArray n b w)
  | TPtr t | TNilPtr t => makePtrWriter (nilEncoding t) (write_val t)
  | TSlice t => makeSliceWriter (write_val t)
  | TStruct fs os => fun '(v, o) => makeStructWriter write_val fs os v o
  end.

Definition EncodeVal (t : gotype) (v : denote t) : option (list Z) :=
  w ← write_val t v newEncBuffer; Some (makeBytes w).

(** ** Decoders, decode.go *)

(** [decodeSliceElems]; each element takes a byte at least. *)
Fixpoint decode_elems {A} (elemdec : SM A) (fuel : nat) : SM (list A) :=
  match fuel with
  | O => sm_throw NoFuel
  | S fuel =>
      sm_catch elemdec
        (fun a => do l <- decode_elems elemdec fuel; sm_ret (a :: l))
        (fun e => if bool_decide (e = EOL) then sm_ret [] else sm_throw e)
  end.

Section Decoders.
Context (decode_val : forall t, SM (denote t)).

Fixpoint decode_fields (ts : list gotype) : SM (tuple denote ts) :=
  match ts with
  | [] => sm_ret tt
  | t :: ts =>
      sm_catch (decode_val t)
        (fun v => do vs <- decode_fields ts; sm_ret (v, vs))
        (fun e => sm_throw (if bool_decide (e = EOL) then DecodeError TooFewElements else e))
  end.

(** At the end of the list the remaining fields are zeroed. *)
Fixpoint decode_optional (ts : list gotype) : SM (tuple denote ts) :=
  match ts with
  | [] => sm_ret tt
  | t :: ts =>
      sm_catch (decode_val t)
        (fun v => do vs <- decode_optional ts; sm_ret (v, vs))
        (fun e => if bool_decide (e = EOL) then sm_ret (zero_tuple zero_val (t :: ts)) else sm_throw e)
  end.
End Decoders.

Definition makeSimplePtrDecoder {A} (elemdec : SM A) : SM (option A) := do v <- elemdec; sm_ret (Some v).

(** An empty value is nil; it is read by looking at the next one. *)
Definition makeNilPtrDecoder {A} (nilKind : Kind) (elemdec : SM A) : SM (option A) :=
  do ' (k, size) <- sm_wrap stream_Kind;
  if negb (bool_decide (k = Byte)) && (size =? 0) then
    if negb (bool_decide (k = nilKind)) then sm_throw (DecodeError WrongKindOfEmptyValue)
    else rearm ;; sm_ret None
  else do v <- elemdec; sm_ret (Some v).

Definition decodeListSlice {A} (elemdec : SM A) : SM (list A) :=
  do size <- sm_wrap stream_List;
  if size =? 0 then stream_ListEnd ;; sm_ret []
  else
    do fuel <- sm_get (fun s => S (length (input s)));
    do l <- decode_elems elemdec fuel;
    stream_ListEnd ;; sm_ret l.

Definition makeStructDecoder (decode_val : forall t, SM (denote t)) (fs os : list gotype) :
    SM (tuple denote fs * tuple denote os) :=
  do _ <- sm_wrap stream_List;
  do v <- decode_fields decode_val fs;
  do o <- decode_optional decode_val os;
  sm_wrap stream_ListEnd ;; sm_ret (v, o).

Arguments makeSimplePtrDecoder {_} _ /.
Arguments makeNilPtrDecoder {_} _ _ /.
Arguments decodeListSlice {_} _ /.
Arguments makeStructDecoder _ _ _ /.

(** [makeDecoder] *)
Fixpoint decode_val (t : gotype) : SM (denote t) :=
  match t with
  | TUint bits => sm_wrap (stream_uint bits)
  | TBool => sm_wrap stream_Bool
  | TBig => sm_wrap decodeBigInt
  | TU256 => sm_wrap ReadUint256
  | TBytes => sm_wrap Bytes
  | TByteArray n => decodeByteArray n
  | TPtr t => makeSimplePtrDecoder (decode_val t)
  | TNilPtr t => makeNilPtrDecoder (nil_kind t) (decode_val t)
  | TSlice t => decodeListSlice (decode_val t)
  | TStruct fs os => makeStructDecoder decode_val fs os
  end.

(** [DecodeBytes]; [old] is the limit a pooled stream remembers. *)
Definition DecodeBytes (old : Z) (t : gotype) (b : list Z) : result streamError (denote t) :=
  match decode_val t (Reset b (len b) old) with
  | (Ok v, s) => match input s with [] => Ok v | _ => Err MoreThanOneValue end
  | (Err e, _) => Err e
  end.

(** ** The tree of a value

    What the writers of a type mean to produce, for values in the range of the type; the
    optional fields that are not kept are zero. *)

Definition nil_item (t : gotype) : item := if nilEncoding t =? 0x80 then Str [] else Lst [].

Section Items.
Context (value_item : forall t, denote t -> item) (typed : forall t, denote t -> Prop).

Fixpoint field_items (n : nat) (ts : list gotype) {struct ts} : tuple denote ts -> list item :=
  match n, ts with
  | S n, t :: ts => fun '(v, vs) => value_item t v :: field_items n ts vs
  | _, _ => fun _ => []
  end.

Fixpoint fields_typed (n : nat) (ts : list gotype) {struct ts} : tuple denote ts -> Prop :=
  match n, ts with
  | S n, t :: ts => fun '(v, vs) => typed t v /\ fields_typed n ts vs
  | _, _ => fun _ => True
  end.
End Items.

Fixpoint value_item (t : gotype) : denote t -> item :=
  match t with
  | TUint _ | TBig | TU256 => fun i => Str (int_content i)
  | TBool => fun b => Str (int_content (if b then 1 else 0))
  | TBytes | TByteArray _ => Str
  | TPtr t | TNilPtr t => fun o => match o with Some v => value_item t v | None => nil_item t end
  | TSlice t => fun l => Lst (map (value_item t) l)
  | TStruct fs os => fun '(v, o) =>
      Lst (field_items value_item (length fs) fs v ++ field_items value_item (kept os o) os o)
  end.

(** A plain pointer is not nil: a nil one is written, but not read back as nil. *)
Fixpoint typed (t : gotype) : denote t -> Prop :=
  match t with
  | TUint bits => fun i => 0 <= i < 2 ^ bits
  | TBool => fun _ => True
  | TBig => fun i => 0 <= i
  | TU256 => is_u256
  | TBytes => Forall is_byte
  | TByteArray n => fun b => length b = n /\ Forall is_byte b
  | TPtr t => fun o => match o with Some v => typed t v | None => False end
  | TNilPtr t => fun o => match o with Some v => typed t v | None => True end
  | TSlice t => Forall (typed t)
  | TStruct fs os => fun '(v, o) =>
      fields_typed typed (length fs) fs v /\ fields_typed typed (kept os o) os o
  end.

(** No value of the type has an empty encoding, which would be read as nil. *)
Definition never_empty (t : gotype) : bool :=
  match t with
  | TByteArray n => negb (Nat.eqb n 0)
  | TStruct fs _ => negb (Nat.eqb (length fs) 0)
  | _ => false
  end.

(** Types whose zero value is that of [is_zero]. *)
Definition may_be_optional (t : gotype) : bool :=
  match t with
  | TUint _ | TBool | TByteArray _ | TPtr _ | TNilPtr _ => true
  | _ => false
  end.

Fixpoint wf_type (t : gotype) : bool :=
  match t with
  | TUint bits => (0 <? bits) && (bits <=? 64) && (bits mod 8 =? 0)
  | TPtr t => wf_type t
  | TNilPtr t => never_empty t && wf_type t
  | TSlice t => wf_type t
  | TStruct fs os => forallb wf_type fs && forallb wf_type os && forallb may_be_optional os
  | _ => true
  end.

(** Types with one encoding for each value. *)
Fixpoint canonical_type (t : gotype) : bool :=
  match t with
  | TPtr t | TNilPtr t | TSlice t => canonical_type t
  | TStruct fs os => forallb canonical_type fs && Nat.eqb (length os) 0
  | _ => true
  end.

(** A struct with a number, a nil pointer, a slice and an optional field. *)
Definition sample_type : gotype := TStruct [TUint 64; TNilPtr (TByteArray 2); TSlice TBytes] [TUint 64].
Definition sample_value (opt : Z) : denote sample_type := ((300, (None, ([[1]; []], tt))), (opt, tt)).

Example struct_codec :
  EncodeVal sample_type (sample_value 0) = Some [0xc7; 0x82; 0x01; 0x2c; 0x80; 0xc2; 0x01; 0x80]
  /\ DecodeBytes 0 sample_type [0xc7; 0x82; 0x01; 0x2c; 0x80; 0xc2; 0x01; 0x80] = Ok (sample_value 0).
Proof. by vm_compute. Qed.

(** ** What the writers write *)

Lemma writes_ext f g out : (forall w, f w = g w) -> writes g out -> writes f out.
Proof. intros E H w. rewrite E. apply H. Qed.

Lemma writes_header b : single b = false ->
  writes (fun w => Some (write b (encodeStringHeader (len b) w))) (encode_string b).
Proof.
  intros H. apply (writes_ext _ (fun w => Some (write (encode_string b) w))); [|apply writes_write].
  intros w. rewrite encode_string_single, H. f_equal.
  assert (encodeStringHeader (len b) w = write (puthead 0x80 0xB7 (len b)) w) as ->
    by (unfold encodeStringHeader, puthead; by case_match).
  unfold write. simpl. by rewrite <- app_assoc.
Qed.

Lemma writes_uint i : is_u64 i -> writes (fun w => Some (writeUint64 i w)) (encode_string (int_content i)).
Proof.
  intros Hi. apply (writes_ext _ (fun w => Some (write (encode_string (uint_content i)) w))).
  - intros w. by rewrite writeUint64_encode.
  - rewrite uint_content_int by done. apply writes_write.
Qed.

Lemma BitLen_u64 i : 0 <= i -> BitLen i <= 64 -> is_u64 i.
Proof.
  intros H0. unfold BitLen, is_u64. destruct (Z.eqb_spec i 0) as [->|]; [done|]. rewrite Z.abs_eq by done. intros H.
  pose proof (Z.log2_spec i ltac:(lia)) as [_ Hu]. split; [done|].
  apply Z.lt_le_trans with (1 := Hu). change two64 with (2 ^ 64). apply Z.pow_le_mono_r; lia.
Qed.

Lemma BitLen_length i : len (int_content i) = (BitLen i + 7) / 8.
Proof.
  unfold int_content, len. rewrite be_bytes_length. apply Z2Nat.id. apply Z.div_pos; [|done].
  unfold BitLen. case_match; [done|]. pose proof (Z.log2_nonneg (Z.abs i)). lia.
Qed.

Lemma single_long b : 2 <= len b -> single b = false.
Proof. destruct b as [|? [|? ?]]; done. Qed.

Lemma writes_big i : 0 <= i -> writes (fun w => Some (writeBigInt i w)) (encode_string (int_content i)).
Proof.
  intros H0. unfold writeBigInt. destruct (Z.leb_spec (BitLen i) 64) as [H|H].
  - pose proof (BitLen_u64 i H0 H). rewrite u64_small by done. by apply writes_uint.
  - assert (Z.shiftr (Z.land (BitLen i + 7) (-8)) 3 = len (int_content i)) as ->.
    { rewrite BitLen_length, Z.shiftr_land. change (Z.shiftr (-8) 3) with (-1). rewrite Z.land_m1_r, Z.shiftr_div_pow2 by done. done. }
    replace (be_bytes (Z.to_nat (len (int_content i))) i) with (int_content i)
      by (unfold int_content at 1; by rewrite BitLen_length).
    apply writes_header, single_long. rewrite BitLen_length. apply Z.div_le_lower_bound; lia.
Qed.

Lemma be_bytes_mod n x : be_bytes n (x mod 256 ^ Z.of_nat n) = be_bytes n x.
Proof. rewrite <- be_value_bytes. rewrite <- (be_bytes_length n x) at 1. apply U256.be_bytes_value, U256.be_bytes_byte. Qed.

Lemma be_bytes_app k n x : be_bytes (k + n) x = be_bytes k (x / 256 ^ Z.of_nat n) ++ be_bytes n x.
Proof.
  revert x. induction n as [|n IH]; intros x; simpl.
  - by rewrite Nat.add_0_r, Z.div_1_r, app_nil_r.
  - rewrite Nat.add_succ_r. simpl. rewrite IH, app_assoc. do 3 f_equal.
    rewrite Z.div_div by (try apply Z.pow_nonzero; lia). f_equal.
    rewrite <- Z.pow_succ_r by lia. f_equal. lia.
Qed.

Lemma writes_u256 z : is_u256 z -> writes (fun w => Some (writeUint256 z w)) (encode_string (int_content z)).
Proof.
  intros Hz. unfold writeUint256. destruct (Z.leb_spec (BitLen z) 64) as [H|H].
  - pose proof (BitLen_u64 z ltac:(apply Hz) H). rewrite u64_small by done. by apply writes_uint.
  - set (n := (BitLen z + 7) / 8). pose proof (BitLen_length z) as Hl. fold n in Hl.
    assert (n <= 32) as H32.
    { rewrite <- Hl. apply int_content_length; [|done]. exact Hz. }
    assert (9 <= n) as H9 by (apply Z.div_le_lower_bound; lia).
    apply (writes_ext _ (fun w => Some (write (encode_string (int_content z)) w))); [|apply writes_write].
    intros w. f_equal. f_equal.
    rewrite encode_string_single, single_long, Hl by lia. rewrite puthead_short by lia.
    assert (be_bytes 32 z = be_bytes (Z.to_nat (32 - n)) (z / 256 ^ n) ++ int_content z) as ->.
    { unfold int_content. fold n. rewrite <- (Z2Nat.id n) at 2 by lia. rewrite <- be_bytes_app. f_equal. lia. }
    set (pre := be_bytes _ _). assert (length (0 :: pre) = S (Z.to_nat (32 - n))) as Hp by (unfold pre; simpl; by rewrite be_bytes_length).
    change (0 :: pre ++ int_content z) with ((0 :: pre) ++ int_content z).
    rewrite insert_app_l by lia. rewrite drop_app_le by (rewrite length_insert; lia). simpl app. f_equal.
    destruct (lookup_lt_is_Some_2 (0 :: pre) (Z.to_nat (32 - n)) ltac:(lia)) as [y Hy].
    assert (exists l, 0 :: pre = l ++ [y] /\ length l = Z.to_nat (32 - n)) as (l & -> & El).
    { exists (take (Z.to_nat (32 - n)) (0 :: pre)). split; [|rewrite length_take; lia].
      rewrite <- take_S_r by done. by rewrite take_ge by lia. }
    rewrite <- El, insert_app_r_alt, Nat.sub_diag by lia. simpl. by rewrite drop_app_length.
Qed.

Lemma writes_array n b : length b = n -> writes (fun w => Some (writeByteArray n b w)) (encode_string b).
Proof.
  intros <-. destruct b as [|x [|y b]].
  - apply (writes_write [0x80]).
  - simpl. apply (writes_ext _ (fun w => Some (write (encode_string [x]) w))); [|apply writes_write].
    intros w. simpl. destruct (Z.leb_spec x 127), (Z.ltb_spec x 128); done || lia.
  - by apply (writes_header (x :: y :: b)).
Qed.

Lemma concat_pos (xs : list item) : Z.of_nat (length xs) <= len (concat (map encode xs)).
Proof.
  induction xs as [|x xs IH]; [done|]. simpl. rewrite len_app.
  assert (0 < len (encode x)); [|lia]. destruct x; simpl; [apply encode_string_pos|].
  unfold encode_list. rewrite len_app. pose proof (len_nonneg (concat (map encode l))).
  destruct (puthead_cons 0xC0 0xF7 (len (concat (map encode l)))) as (b & t & ->). rewrite len_cons. pose proof (len_nonneg t). lia.
Qed.

Lemma encode_pos x : 0 < len (encode x).
Proof. pose proof (concat_pos [x]) as H. simpl in H. rewrite app_nil_r in H. lia. Qed.

(** A value is written as the tree it stands for. *)
Definition written (t : gotype) : Prop := forall v, wf_type t = true -> typed t v ->
  len (encode (value_item t v)) < two64 -> writes (write_val t v) (encode (value_item t v)).

Lemma writes_fields n ts v : Forall written ts -> forallb wf_type ts = true -> fields_typed typed n ts v ->
  len (concat (map encode (field_items value_item n ts v))) < two64 ->
  writes (write_fields write_val n ts v) (concat (map encode (field_items value_item n ts v))).
Proof.
  intros H. revert n v. induction H as [|t ts Ht _ IH]; intros n v Hw Hty Hl.
  { destruct n; apply (writes_loop (fun (_ : item) w => Some w) encode []); constructor. }
  destruct n as [|n]; [apply (writes_loop (fun (_ : item) w => Some w) encode []); constructor|].
  destruct v as [v vs]. simpl in *. apply andb_true_iff in Hw as [Hw1 Hw2]. destruct Hty as [Hty1 Hty2].
  rewrite len_app in Hl. pose proof (len_nonneg (encode (value_item t v))).
  pose proof (len_nonneg (concat (map encode (field_items value_item n ts vs)))).
  apply writes_bind; [apply Ht; done || lia|apply IH; done || lia].
Qed.

Lemma nil_item_encoding t : encode (nil_item t) = [nilEncoding t].
Proof. unfold nil_item, nilEncoding. destruct t; done. Qed.

Lemma write_val_writes t : written t.
Proof.
  induction t as [bits| | | | |n|t IH|t IH|t IH|fs os IHf IHo] using gotype_ind'; intros v Hw Hty Hl.
  - simpl in *. apply andb_true_iff in Hw as [[Hb1%Z.ltb_lt Hb2%Z.leb_le]%andb_true_iff _]. apply writes_uint. unfold is_u64.
    assert (2 ^ bits <= 2 ^ 64) by (apply Z.pow_le_mono_r; lia). change two64 with (2 ^ 64).
    change (2 ^ 64) with 18446744073709551616 in *. lia.
  - simpl. destruct v; apply writes_write.
  - simpl in *. apply (writes_ext _ (fun w => Some (writeBigInt v w))); [|by apply writes_big].
    intros w. unfold writeBigIntNoPtr. by rewrite (proj2 (Z.ltb_ge _ _)).
  - by apply writes_u256.
  - apply writes_bytes.
  - apply writes_array. by destruct Hty.
  - destruct v as [v|]; [|done]. by apply IH.
  - simpl in Hw. apply andb_true_iff in Hw as [_ Hw]. destruct v as [v|]; [by apply IH|].
    simpl. rewrite nil_item_encoding. apply writes_write.
  - simpl in *. assert (len (concat (map encode (map (value_item t) v))) < two64) as Hc.
    { pose proof (encode_list_le (concat (map encode (map (value_item t) v)))). lia. }
    rewrite map_map in *. destruct v as [|x v]; [apply (writes_write [0xC0])|].
    apply (writes_in_list (fun w => foldl (fun ow v => w ← ow; write_val t v w) (Some w) (x :: v))); [|done].
    apply writes_loop. apply Forall_forall. intros y Hy. apply IH; [done|by apply (proj1 (Forall_forall _ _) Hty)|].
    eapply Z.le_lt_trans; [apply (concat_le (fun x => encode (value_item t x)) (x :: v) y Hy)|exact Hc].
  - destruct v as [v o]. simpl in *. rewrite map_app, concat_app in *. apply andb_true_iff in Hw as [[Hw1 Hw2]%andb_true_iff _].
    destruct Hty as [Hty1 Hty2]. pose proof (encode_list_le (concat (map encode (field_items value_item (length fs) fs v)) ++
      concat (map encode (field_items value_item (kept os o) os o)))) as Hle. rewrite len_app in Hle.
    pose proof (len_nonneg (concat (map encode (field_items value_item (length fs) fs v)))).
    pose proof (len_nonneg (concat (map encode (field_items value_item (kept os o) os o)))).
    apply (writes_ext _ (fun w => let '(i, w) := list_ w in
      w ← (w ← write_fields write_val (length fs) fs v w; write_fields write_val (kept os o) os o w); listEnd i w)).
    { intros w. simpl. by destruct (write_fields _ _ _ _ _). }
    apply writes_in_list; [|rewrite len_app; lia]. apply writes_bind; apply writes_fields; done || lia.
Qed.

(** ** The start of a value *)

Definition at_end {A} (m : SM A) : Prop := forall s,
  kind s = None -> listLimit s = Some 0 -> m s = (Err EOL, s).

(** [m] looks at the value ahead first, so it makes no difference if that has been done. *)
Definition starts_with_Kind {A} (m : SM A) : Prop := forall s x s1,
  kind s = None -> stream_Kind s = (Ok x, s1) -> m s1 = m s.

Create HintDb codec.

Lemma sm_wrap_Ok {A} (m : SM A) s a s' : sm_wrap m s = (Ok a, s') <-> m s = (Ok a, s').
Proof. unfold sm_wrap, sm_catch. by destruct (m s) as [[?|?] ?]. Qed.

Lemma sm_wrap_EOL {A} (m : SM A) s s' : sm_wrap m s = (Err EOL, s') <-> m s = (Err EOL, s').
Proof.
  unfold sm_wrap, sm_catch. destruct (m s) as [[?|e] ?]; [done|]. unfold sm_throw. split; [|by intros [= -> ->]].
  intros [= He ->]. by destruct e.
Qed.

Lemma sound_wrap {A} (m : SM A) P : sound m P -> sound (sm_wrap m) P.
Proof. intros H s a s' Hs E. exact (H s a s' Hs (proj1 (sm_wrap_Ok m s a s') E)). Qed.
Lemma complete_wrap {A} (m : SM A) P : complete m P -> complete (sm_wrap m) P.
Proof.
  intros H s a c rest Hs HP Ei Hr Hl. destruct (H s a c rest Hs HP Ei Hr Hl) as (s' & E & Hm).
  exists s'. by rewrite sm_wrap_Ok.
Qed.
#[export] Hint Resolve sound_wrap complete_wrap : codec.

Lemma at_end_Kind : at_end stream_Kind.
Proof. intros s Hk Hl. by apply stream_Kind_at_end. Qed.
Lemma at_end_bind {A B} (m : SM A) (k : A -> SM B) : at_end m -> at_end (sm_bind m k).
Proof. intros H s Hk Hl. unfold sm_bind. by rewrite H. Qed.
Lemma at_end_wrap {A} (m : SM A) : at_end m -> at_end (sm_wrap m).
Proof. intros H s Hk Hl. apply sm_wrap_EOL. by apply H. Qed.
#[export] Hint Resolve at_end_Kind at_end_bind at_end_wrap : codec.

Lemma Kind_again s x s1 : kind s = None -> stream_Kind s = (Ok x, s1) -> stream_Kind s1 = (Ok x, s1).
Proof.
  intros Hk. unfold stream_Kind at 1. rewrite Hk.
  assert (forall k size err s0, match err with
    | None => (Ok (k, size), set_kinderr err (set_size size (set_kind (Some k) s0)))
    | Some e => (Err e, set_kinderr err (set_size size (set_kind (Some k) s0))) end = (Ok x, s1) ->
    stream_Kind s1 = (Ok x, s1)) as H by (intros k size [e|] s0; [done|by intros [= <- <-]]).
  destruct (listLimit s) as [[|p|p]|]; [done|..]; destruct (Stream_readKind s) as [[[k size] err] s0]; apply H.
Qed.

Lemma starts_Kind : starts_with_Kind stream_Kind.
Proof. intros s x s1 Hk E. rewrite E. by eapply Kind_again. Qed.
Lemma starts_Kind_bind {B} (k : Kind * Z -> SM B) : starts_with_Kind (sm_bind stream_Kind k).
Proof. intros s x s1 Hk E. unfold sm_bind. by rewrite (Kind_again s x s1 Hk E), E. Qed.
Lemma starts_bind {A B} (m : SM A) (k : A -> SM B) : starts_with_Kind m -> starts_with_Kind (sm_bind m k).
Proof. intros H s x s1 Hk E. unfold sm_bind. by rewrite (H s x s1 Hk E). Qed.
Lemma starts_wrap {A} (m : SM A) : starts_with_Kind m -> starts_with_Kind (sm_wrap m).
Proof. intros H s x s1 Hk E. unfold sm_wrap, sm_catch. by rewrite (H s x s1 Hk E). Qed.
#[export] Hint Resolve starts_Kind starts_Kind_bind starts_bind starts_wrap : codec.

Lemma decode_val_starts t : at_end (decode_val t) /\ starts_with_Kind (decode_val t).
Proof.
  induction t as [bits| | | | |n|t IH|t IH|t IH|fs os IHf IHo] using gotype_ind'; simpl;
    unfold stream_Bool, stream_uint, decodeBigInt, ReadUint256, int_buffer, Bytes, decodeByteArray, stream_List;
    try destruct IH; auto 8 with codec.
Qed.

Lemma decode_val_at_end t : at_end (decode_val t).
Proof. apply decode_val_starts. Qed.

(** ** What the decoders read *)

Definition form (t : gotype) (v : denote t) (c : list Z) : Prop :=
  typed t v /\ len c < two64 /\ c = encode (value_item t v).

Lemma moved_refl s : ready s -> moved 0 s s.
Proof.
  intros [[Hb Hr Hst] Hk Hl]. split; try done.
  - apply len_nonneg.
  - destruct (limited s); lia.
  - intros _. apply Hr.
  - destruct (stack s); [done|]. inversion_clear Hst. by rewrite Z.sub_0_r, u64_small.
Qed.

Lemma moved_listLimit n s s' l : moved n s s' -> listLimit s = Some l -> listLimit s' = Some (u64 (l - n)).
Proof. intros Hm. unfold listLimit. rewrite (mv_stack _ _ _ Hm). destruct (stack s); [done|]. by intros [= ->]. Qed.

Lemma moved_input s s' c rest : moved (len c) s s' -> input s = c ++ rest -> input s' = rest.
Proof. intros Hm Ei. rewrite (mv_input _ _ _ Hm), Ei. by apply drop_len_app. Qed.

(** One value, and then the rest of what is ahead. *)
Lemma complete_step {A} (m : SM A) P s a c cs rest : complete m P -> ready s -> P a c -> 0 < len c ->
  input s = (c ++ cs) ++ rest -> readable (len (c ++ cs)) s ->
  exists s1, m s = (Ok a, s1) /\ moved (len c) s s1 /\ ready s1 /\ input s1 = cs ++ rest /\ readable (len cs) s1.
Proof.
  intros Hm Hs HP Hpos Ei Hr. rewrite <- app_assoc in Ei. rewrite len_app in Hr. pose proof (len_nonneg cs).
  assert (readable (len c) s) as Hr1 by (apply readable_add in Hr; [apply Hr|lia..]).
  destruct (Hm s a c (cs ++ rest) Hs HP Ei Hr1 Hpos) as (s1 & E & Hmv). exists s1. split_and!; try done.
  - by eapply moved_ready.
  - by eapply moved_input.
  - eapply moved_readable; [exact Hs| | |exact Hr|exact Hmv]; lia.
Qed.

(** The same when it is all that is left of a list. *)
Lemma complete_step_list {A} (m : SM A) P s a c cs rest : complete m P -> ready s -> P a c -> 0 < len c ->
  input s = (c ++ cs) ++ rest -> readable (len (c ++ cs)) s -> listLimit s = Some (len (c ++ cs)) ->
  exists s1, m s = (Ok a, s1) /\ moved (len c) s s1 /\ ready s1 /\ input s1 = cs ++ rest /\ readable (len cs) s1
    /\ listLimit s1 = Some (len cs).
Proof.
  intros Hm Hs HP Hpos Ei Hr Hl. destruct (complete_step m P s a c cs rest) as (s1 & E & Hmv & Hs1 & Ei1 & Hr1); try done.
  exists s1. split_and!; try done. rewrite (moved_listLimit _ _ _ _ Hmv Hl), len_app. f_equal.
  replace (len c + len cs - len c) with (len cs) by lia. apply u64_small. pose proof (len_nonneg cs).
  split; [done|]. pose proof (rd_input _ _ Hr1). pose proof (rs_len _ Hs1). lia.
Qed.

Lemma decode_elems_complete {A} (m : SM A) (P : A -> list Z -> Prop) e l : complete m P -> at_end m ->
  Forall (fun a => P a (e a) /\ 0 < len (e a)) l -> forall fuel s rest,
  let c := concat (map e l) in
  ready s -> input s = c ++ rest -> readable (len c) s -> listLimit s = Some (len c) -> (length l < fuel)%nat ->
  exists s', decode_elems m fuel s = (Ok l, s') /\ moved (len c) s s'.
Proof.
  intros Hm Hend. induction 1 as [|a l [HP Hpos] _ IH]; intros fuel s rest c Hs Ei Hr Hl Hf;
    (destruct fuel as [|fuel]; [simpl in Hf; lia|]); simpl decode_elems; unfold sm_catch.
  - rewrite Hend; [|apply Hs|exact Hl]. exists s. split; [done|]. by apply moved_refl.
  - destruct (complete_step_list m P s a (e a) (concat (map e l)) rest) as (s1 & -> & Hmv & Hs1 & Ei1 & Hr1 & Hl1); try done.
    destruct (IH fuel s1 rest) as (s2 & E & Hmv2); try done; [simpl in Hf; lia|].
    exists s2. split; [apply sm_bind_Ok; by exists l, s2|]. unfold c. simpl. rewrite len_app. by eapply moved_moved.
Qed.

Definition decodes (t : gotype) : Prop := wf_type t = true -> complete (decode_val t) (form t).

Lemma decode_fields_complete ts v : Forall decodes ts -> forallb wf_type ts = true ->
  fields_typed typed (length ts) ts v -> forall s rest,
  let c := concat (map encode (field_items value_item (length ts) ts v)) in
  ready s -> input s = c ++ rest -> readable (len c) s ->
  exists s', decode_fields decode_val ts s = (Ok v, s') /\ moved (len c) s s'.
Proof.
  intros H. revert v. induction H as [|t ts Ht _ IH]; simpl; intros v Hw Hty s rest Hs Ei Hr.
  { destruct v. exists s. split; [done|]. by apply moved_refl. }
  destruct v as [v vs]. apply andb_true_iff in Hw as [Hw1 Hw2]. destruct Hty as [Hty1 Hty2]. simpl in *.
  set (cs := concat (map encode (field_items value_item (length ts) ts vs))) in *.
  destruct (complete_step (decode_val t) (form t) s v (encode (value_item t v)) cs rest (Ht Hw1) Hs) as (s1 & E1 & Hmv & Hs1 & Ei1 & Hr1);
    try done; [|apply encode_pos|].
  { split; [done|]. split; [|done]. pose proof (rd_input _ _ Hr). rewrite len_app in *. pose proof (rs_len _ Hs).
    pose proof (len_nonneg cs). lia. }
  unfold sm_catch. rewrite E1. destruct (IH vs Hw2 Hty2 s1 rest) as (s2 & E2 & Hmv2); try done.
  exists s2. split; [apply sm_bind_Ok; by exists vs, s2|]. rewrite len_app. by eapply moved_moved.
Qed.

Lemma is_zero_val t v : is_zero t v = true -> v = zero_val t.
Proof.
  destruct t; simpl; try done.
  - apply Z.eqb_eq.
  - by destruct v.
  - apply bool_decide_eq_true.
  - by destruct v.
  - by destruct v.
Qed.

Lemma kept_0 ts v : kept ts v = 0%nat -> v = zero_tuple zero_val ts.
Proof.
  induction ts as [|t ts IH]; simpl; [by destruct v|]. destruct v as [v vs]. destruct (kept ts vs) eqn:E; [|done].
  destruct (is_zero t v) eqn:Ez; [|done]. intros _. by rewrite (IH vs E), (is_zero_val _ _ Ez).
Qed.

Lemma kept_S t ts v vs n : kept (t :: ts) (v, vs) = S n -> n = kept ts vs.
Proof. simpl. destruct (kept ts vs); [by destruct (is_zero t v); intros [= <-]|]. by intros [= <-]. Qed.

Lemma decode_optional_complete ts v : Forall decodes ts -> forallb wf_type ts = true ->
  fields_typed typed (kept ts v) ts v -> forall s rest,
  let c := concat (map encode (field_items value_item (kept ts v) ts v)) in
  ready s -> input s = c ++ rest -> readable (len c) s -> listLimit s = Some (len c) ->
  exists s', decode_optional decode_val ts s = (Ok v, s') /\ moved (len c) s s'.
Proof.
  intros H. revert v. induction H as [|t ts Ht _ IH]; intros v Hw Hty s rest c Hs Ei Hr Hl; subst c.
  { destruct v. exists s. split; [done|]. by apply moved_refl. }
  destruct v as [v vs]. simpl decode_optional. unfold sm_catch. destruct (kept (t :: ts) (v, vs)) as [|n] eqn:Ek.
  - rewrite (decode_val_at_end t); [|apply Hs|exact Hl]. apply kept_0 in Ek. simpl in Ek. rewrite <- Ek.
    exists s. split; [done|]. by apply moved_refl.
  - apply kept_S in Ek as ->. simpl in Hw, Hty. apply andb_true_iff in Hw as [Hw1 Hw2]. destruct Hty as [Hty1 Hty2]. simpl in *.
    set (cs := concat (map encode (field_items value_item (kept ts vs) ts vs))) in *.
    destruct (complete_step_list (decode_val t) (form t) s v (encode (value_item t v)) cs rest (Ht Hw1) Hs)
      as (s1 & E1 & Hmv & Hs1 & Ei1 & Hr1 & Hl1); try done; [|apply encode_pos|].
    { split; [done|]. split; [|done]. pose proof (rd_input _ _ Hr). rewrite len_app in *. pose proof (rs_len _ Hs).
      pose proof (len_nonneg cs). lia. }
    rewrite E1. destruct (IH vs Hw2 Hty2 s1 rest) as (s2 & E2 & Hmv2); try done.
    exists s2. split; [apply sm_bind_Ok; by exists vs, s2|]. rewrite len_app. by eapply moved_moved.
Qed.

(** The header of a value that is never empty does not look like that of nil. *)
Definition looks_nil (x : Kind * Z) : bool := let '(k, size) := x in negb (bool_decide (k = Byte)) && (size =? 0).

Lemma not_nil_ahead t v s rest : never_empty t = true -> form t v (encode (value_item t v)) -> ready s ->
  input s = encode (value_item t v) ++ rest -> readable (len (encode (value_item t v))) s ->
  exists x s1, stream_Kind s = (Ok x, s1) /\ looks_nil x = false.
Proof.
  intros Hn (Hty & Hl & _) Hs Ei Hr. destruct t as [| | | | |n| | | |fs os]; try done.
  - destruct Hty as [Hlen Hb]. simpl in *. pose proof (encode_string_le v) as Hle.
    destruct (string_ahead s v rest Hs ltac:(lia) Ei Hb Hr) as [(x & _ & _ & Hk & _)|(_ & _ & _ & _ & Hk & _)];
      (eexists _, _; split; [exact Hk|]); [done|]. simpl. apply Z.eqb_neq. unfold len. destruct n; [done|]. lia.
  - destruct v as [v o]. simpl in *. set (c := concat _) in *. pose proof (encode_list_le c) as Hle.
    destruct (List_complete s c rest Hs ltac:(lia) Ei Hr) as (s1 & E & _).
    apply stream_List_Ok in E as (s0 & Hk & _). eexists _, _. split; [exact Hk|]. simpl. apply Z.eqb_neq.
    destruct fs as [|t fs]; [done|]. subst c. destruct v as [v vs]. simpl. rewrite len_app.
    pose proof (encode_pos (value_item t v)).
    pose proof (len_nonneg (concat (map encode (field_items value_item (length fs) fs vs ++ field_items value_item (kept os o) os o)))). lia.
Qed.

(** The empty value of the kind of nil. *)
Lemma nil_ahead t s rest : never_empty t = true -> ready s -> input s = encode (nil_item t) ++ rest ->
  readable (len (encode (nil_item t))) s ->
  exists s1, stream_Kind s = (Ok (nil_kind t, 0), s1) /\ moved (len (encode (nil_item t))) s (set_kind None s1).
Proof.
  intros Hn Hs Ei Hr. assert (encode (nil_item t) = encode_value (nil_kind t) []) as E by by destruct t.
  rewrite E in *. assert (nil_kind t <> Byte) as Hb by by destruct t.
  destruct (Kind_complete s (nil_kind t) 0 0 (encode_value (nil_kind t) []) rest Hs) as [Hk _].
  - destruct (nil_kind t); done.
  - exact Ei.
  - destruct (nil_kind t); done.
  - eexists. split; [exact Hk|]. apply after_moved; [apply Hs|exact Hr|done..].
Qed.

Lemma decode_ptr_complete t : complete (decode_val t) (form t) ->
  complete (do v <- decode_val t; sm_ret (Some v)) (form (TPtr t)).
Proof.
  intros H s [v|] c rest Hs HP Ei Hr Hpos; [|by destruct HP].
  destruct (H s v c rest Hs HP Ei Hr Hpos) as (s1 & E & Hm). exists s1. split; [|done].
  apply sm_bind_Ok. by exists v, s1.
Qed.

Lemma decode_nilptr_complete t : never_empty t = true -> complete (decode_val t) (form t) ->
  complete (decode_val (TNilPtr t)) (form (TNilPtr t)).
Proof.
  intros Hn H s o c rest Hs (Hty & Hl & ->) Ei Hr Hpos. simpl. destruct o as [v|].
  - simpl in *. destruct (not_nil_ahead t v s rest Hn) as (x & s0 & Hk & Hx); try done.
    destruct (H s v (encode (value_item t v)) rest Hs) as (s1 & E & Hm); try done. exists s1. split; [|done].
    apply sm_bind_Ok. exists x, s0. split; [by apply sm_wrap_Ok|]. destruct x as [k size]. simpl in Hx. rewrite Hx.
    apply sm_bind_Ok. exists v, s1. split; [|done].
    rewrite <- E. apply (proj2 (decode_val_starts t) s (k, size)); [apply Hs|done].
  - simpl in *. destruct (nil_ahead t s rest Hn Hs Ei Hr) as (s1 & Hk & Hm). eexists. split; [|exact Hm].
    apply sm_bind_Ok. eexists _, _. split; [apply sm_wrap_Ok, Hk|].
    cbv beta iota. rewrite bool_decide_eq_false_2 by (by destruct t). rewrite bool_decide_eq_true_2 by done. done.
Qed.

(** A list is entered, read to its end and left. *)
Lemma list_complete {A} (body : SM A) s c rest a : ready s -> len (encode_list c) < two64 ->
  input s = encode_list c ++ rest -> readable (len (encode_list c)) s ->
  (forall s1, ready s1 -> input s1 = c ++ rest -> readable (len c) s1 -> listLimit s1 = Some (len c) ->
     exists s2, body s1 = (Ok a, s2) /\ moved (len c) s1 s2) ->
  exists s1 s2 s3, stream_List s = (Ok (len c), s1) /\ body s1 = (Ok a, s2) /\ stream_ListEnd s2 = (Ok tt, s3)
    /\ moved (len (encode_list c)) s s3 /\ len c <= len (input s1).
Proof.
  intros Hs Hl Ei Hr Hbody. pose proof (encode_list_le c) as Hle. pose proof (len_nonneg c).
  destruct (List_complete s c rest Hs ltac:(lia) Ei Hr) as (s1 & E & Hen & Hs1 & Ei1 & Hr1 & Hl1).
  destruct (Hbody s1) as (s2 & E2 & Hm); try done.
  pose proof (rd_input _ _ Hr) as Hin. unfold encode_list in Hin, Hl. rewrite len_app in Hin, Hl.
  destruct (ListEnd_complete s s1 s2 (len (puthead 0xC0 0xF7 (len c))) (len c)) as (s3 & E3 & Hm3); try done.
  - split; [apply len_nonneg|]. lia.
  - unfold is_u64. pose proof (len_nonneg (puthead 0xC0 0xF7 (len c))). lia.
  - exists s1, s2, s3. split_and!; try done; [unfold encode_list; by rewrite len_app|apply Hr1].
Qed.

Lemma decode_slice_complete t : wf_type t = true -> complete (decode_val t) (form t) ->
  complete (decode_val (TSlice t)) (form (TSlice t)).
Proof.
  intros Hw H s l ? rest Hs (Hty & Hl & ->) Ei Hr Hpos. change (denote (TSlice t)) with (list (denote t)) in l. simpl in *.
  set (e := fun v : denote t => encode (value_item t v)). rewrite map_map in *. fold e in Ei, Hr, Hl, Hpos |- *. remember (concat (map e l)) as c eqn:Ec.
  pose proof (encode_list_le c) as Hle.
  assert (Forall (fun v => form t v (e v) /\ 0 < len (e v)) l) as Hfs.
  { apply Forall_forall. intros v Hv. split; [|apply encode_pos]. split; [exact (proj1 (Forall_forall _ _) Hty v Hv)|].
    split; [|done]. pose proof (concat_le e l v Hv). rewrite <- Ec in *. lia. }
  assert (Z.of_nat (length l) <= len c) as Hn 
    by (rewrite Ec; unfold e; rewrite <- (map_map (value_item t) encode), <- (length_map (value_item t) l); apply concat_pos).
  destruct l as [|x l].
  { simpl in Ec. subst c. destruct (list_complete (sm_ret []) s [] rest (@nil (denote t))) as (s1 & s2 & s3 & E1 & E2 & E3 & Hm & _); try done.
    { intros s1 Hs1 _ _ _. exists s1. split; [done|]. by apply moved_refl. }
    exists s3. split; [|done]. apply sm_bind_Ok. exists 0, s1. split; [by apply sm_wrap_Ok|]. injection E2 as <-.
    apply sm_bind_Ok. by exists tt, s3. }
  destruct (list_complete (do fuel <- sm_get (fun s => S (length (input s))); decode_elems (decode_val t) fuel) s c rest (x :: l))
    as (s1 & s2 & s3 & E1 & E2 & E3 & Hm & _); try done.
  { intros s1 Hs1 Ei1 Hr1 Hl1. change (sm_bind _ _ s1) with (decode_elems (decode_val t) (S (length (input s1))) s1).
    pose proof (rd_input _ _ Hr1). rewrite Ec in *.
    apply (decode_elems_complete _ (form t) e (x :: l) H (decode_val_at_end t) Hfs _ _ rest); try done. unfold len in *. lia. }
  exists s3. split; [|done]. apply sm_bind_Ok. exists (len c), s1. split; [by apply sm_wrap_Ok|].
  rewrite (proj2 (Z.eqb_neq _ _)) by (simpl length in Hn; lia).
  change (sm_bind _ _ s1) with ((do l <- decode_elems (decode_val t) (S (length (input s1))); stream_ListEnd ;; sm_ret l) s1).
  apply sm_bind_Ok. exists (x :: l), s2. split; [exact E2|]. apply sm_bind_Ok. by exists tt, s3.
Qed.

Lemma decode_struct_complete fs os : wf_type (TStruct fs os) = true -> Forall decodes fs -> Forall decodes os ->
  complete (decode_val (TStruct fs os)) (form (TStruct fs os)).
Proof.
  intros Hw Hf Ho s [v o] c0 rest Hs (Hty & Hl & ->) Ei Hr Hpos. simpl in Hw, Hty, Hl, Ei, Hr, Hpos |- *.
  apply andb_true_iff in Hw as [[Hw1 Hw2]%andb_true_iff _]. destruct Hty as [Hty1 Hty2].
  rewrite map_app, concat_app in *. set (c := _ ++ _) in *.
  destruct (list_complete (do v <- decode_fields decode_val fs; do o <- decode_optional decode_val os; sm_ret (v, o))
    s c rest (v, o)) as (s1 & s2 & s3 & E1 & E2 & E3 & Hm & _); try done.
  { intros s1 Hs1 Ei1 Hr1 Hl1. subst c. set (c1 := concat (map encode (field_items _ _ fs v))) in *.
    set (c2 := concat (map encode (field_items value_item (kept os o) os o))) in *. rewrite len_app in *. rewrite <- app_assoc in Ei1.
    pose proof (len_nonneg c1). pose proof (len_nonneg c2).
    assert (readable (len c1) s1) as Hr1'. { apply readable_add in Hr1; [apply Hr1|done..]. }
    destruct (decode_fields_complete fs v Hf Hw1 Hty1 s1 (c2 ++ rest)) as (s2 & E1 & Hm1); try done. fold c1 in Hm1.
    destruct (decode_optional_complete os o Ho Hw2 Hty2 s2 rest) as (s3 & E2 & Hm2).
    - by eapply moved_ready.
    - by eapply moved_input.
    - by apply (moved_readable (len c1) (len c2) s1 s2).
    - rewrite (moved_listLimit _ _ _ _ Hm1 Hl1). replace (len c1 + len c2 - len c1) with (len c2) by lia. fold c2.
      rewrite u64_small; [done|]. unfold is_u64. pose proof (rd_input _ _ Hr1). pose proof (rs_len _ Hs1). lia.
    - exists s3. split; [|by eapply moved_moved]. apply sm_bind_Ok. exists v, s2. split; [done|].
      apply sm_bind_Ok. by exists o, s3. }
  exists s3. split; [|done]. apply sm_bind_Ok. exists (len c), s1. split; [by apply sm_wrap_Ok|].
  apply sm_bind_Ok in E2 as (v' & s4 & E2 & E4). apply sm_bind_Ok in E4 as (o' & s5 & E4 & E5). injection E5 as -> -> ->.
  apply sm_bind_Ok. exists v, s4. split; [done|]. apply sm_bind_Ok. exists o, s2. split; [done|].
  apply sm_bind_Ok. exists tt, s3. split; [by apply sm_wrap_Ok|done].
Qed.

Lemma complete_weaken {A} (m : SM A) (P Q : A -> list Z -> Prop) :
  complete m P -> (forall a c, Q a c -> P a c) -> complete m Q.
Proof. intros H HPQ s a c rest Hs HQ. apply H; [done|by apply HPQ]. Qed.

Lemma decode_val_complete t : decodes t.
Proof.
  unfold decodes. induction t as [bits| | | | |n|t IH|t IH|t IH|fs os IHf IHo] using gotype_ind'; intros Hw.
  - simpl in Hw. apply andb_true_iff in Hw as [[Hb1%Z.ltb_lt Hb2]%andb_true_iff Hb3%Z.eqb_eq].
    apply complete_wrap. eapply complete_weaken; [by apply stream_uint_complete|].
    intros i c ([H1 H2] & Hl & ->). pose proof (encode_string_le (int_content i)). split_and!; simpl in *; done || lia.
  - apply complete_wrap. eapply complete_weaken; [apply stream_Bool_complete|]. by intros b c (_ & _ & ->).
  - apply complete_wrap. eapply complete_weaken; [apply decodeBigInt_complete|].
    intros i c (H1 & Hl & ->). pose proof (encode_string_le (int_content i)). split_and!; simpl in *; done || lia.
  - apply complete_wrap. eapply complete_weaken; [apply ReadUint256_complete|].
    intros i c (H1 & Hl & ->). pose proof (encode_string_le (int_content i)). simpl in *. split; [apply H1|]. split_and!; done || lia.
  - apply complete_wrap. eapply complete_weaken; [apply Bytes_complete|].
    intros b c (H1 & Hl & ->). pose proof (encode_string_le b). split_and!; simpl in *; done || lia.
  - eapply complete_weaken; [apply decodeByteArray_complete|].
    intros b c ([H1 H2] & Hl & ->). pose proof (encode_string_le b). split_and!; simpl in *; done || lia.
  - apply decode_ptr_complete. by apply IH.
  - simpl in Hw. apply andb_true_iff in Hw as [Hn Hw]. apply decode_nilptr_complete; auto.
  - apply decode_slice_complete; auto.
  - by apply decode_struct_complete.
Qed.

(** ** What the decoders accept

    A decoder reads at least a byte, and for a type with one encoding for each value it
    accepts nothing but the encoding of what it returns. *)

Definition reads (t : gotype) (v : denote t) (c : list Z) : Prop :=
  0 < len c /\ (canonical_type t = true -> typed t v /\ c = encode (value_item t v)).

(** It gives a signal only at the end of a list, as [EOL]. *)
Definition orderly {A} (m : SM A) : Prop := forall s e s', ready s ->
  m s = (Err e, s') -> signal e = true -> e = EOL /\ listLimit s = Some 0 /\ s' = s.

Definition quiet_from {A} (m : SM A) (s : Stream) : Prop := forall e s', m s = (Err e, s') -> signal e = false.

Lemma EOL_at_end_orderly {A} (m : SM A) : EOL_at_end m -> orderly m.
Proof. intros H s e s' Hs. apply H, Hs. Qed.

Lemma signal_wrap e : signal (wrapStreamError e) = signal e.
Proof. by destruct e. Qed.

Lemma sm_wrap_Err {A} (m : SM A) s e s' :
  sm_wrap m s = (Err e, s') -> signal e = true -> m s = (Err e, s').
Proof.
  unfold sm_wrap, sm_catch. destruct (m s) as [[?|e0] ?]; [done|]. intros [= <- <-]. rewrite signal_wrap.
  destruct e0; done.
Qed.

Lemma EOL_at_end_wrap {A} (m : SM A) : EOL_at_end m -> EOL_at_end (sm_wrap m).
Proof. intros H s e s' Hk E He. eapply H; [done|by apply sm_wrap_Err|done]. Qed.
Lemma quiet_wrap {A} (m : SM A) : quiet m -> quiet (sm_wrap m).
Proof.
  intros H s e s' E. destruct (signal e) eqn:He; [|done]. apply sm_wrap_Err in E; [|done]. by rewrite (H _ _ _ E) in He.
Qed.
#[export] Hint Resolve EOL_at_end_wrap quiet_wrap : quiet.
#[export] Hint Extern 1 (quiet rearm) => apply quiet_put : quiet.
#[export] Hint Extern 1 (quiet (int_of_buffer _)) => unfold int_of_buffer : quiet.

Lemma quiet_uint_tail size : quiet (sm_catch (readUint size)
    (fun v => if (0 <? size) && (v <? 128) then sm_throw SCanonSize else sm_ret v)
    (fun e => sm_throw (match e with SCanonSize => SCanonInt | e => e end))).
Proof.
  intros s e s'. unfold sm_catch. destruct (readUint size s) as [[v|e0] s1] eqn:E.
  - destruct (_ && _); [|done]. by intros [= <- _].
  - apply quiet_readUint in E. intros [= <- _]. by destruct e0.
Qed.
#[export] Hint Resolve quiet_uint_tail : quiet.

(** The decoders of plain values. *)
Lemma EOL_Bytes : EOL_at_end Bytes.
Proof. unfold Bytes. eauto 10 with quiet. Qed.
Lemma EOL_byteArray n : EOL_at_end (decodeByteArray n).
Proof. unfold decodeByteArray. eauto 12 with quiet. Qed.
Lemma EOL_uint bits : EOL_at_end (stream_uint bits).
Proof. unfold stream_uint. eauto 10 with quiet. Qed.
Lemma EOL_int_buffer max : EOL_at_end (int_buffer max).
Proof. unfold int_buffer. eauto 12 with quiet. Qed.
Lemma EOL_List : EOL_at_end stream_List.
Proof. unfold stream_List. eauto 12 with quiet. Qed.
#[export] Hint Resolve EOL_Bytes EOL_byteArray EOL_uint EOL_int_buffer EOL_List : quiet.
Lemma EOL_Bool : EOL_at_end stream_Bool.
Proof. unfold stream_Bool. eauto 12 with quiet. Qed.
Lemma EOL_bigInt : EOL_at_end decodeBigInt.
Proof. unfold decodeBigInt. eauto 12 with quiet. Qed.
Lemma EOL_u256 : EOL_at_end ReadUint256.
Proof. unfold ReadUint256. eauto 12 with quiet. Qed.
#[export] Hint Resolve EOL_Bool EOL_bigInt EOL_u256 : quiet.

Lemma orderly_bind {A B} (m : SM A) (k : A -> SM B) : orderly m ->
  (forall s a s1, ready s -> m s = (Ok a, s1) -> quiet_from (k a) s1) -> orderly (sm_bind m k).
Proof.
  intros Hm Hk s e s' Hs. unfold sm_bind. destruct (m s) as [[a|e0] s1] eqn:E.
  - intros H He. by rewrite (Hk s a s1 Hs E e s' H) in He.
  - intros [= <- <-]. by eapply Hm.
Qed.

Lemma quiet_from_bind {A B} (m : SM A) (k : A -> SM B) s : quiet_from m s ->
  (forall a s1, m s = (Ok a, s1) -> quiet_from (k a) s1) -> quiet_from (sm_bind m k) s.
Proof.
  intros Hm Hk e s'. unfold sm_bind. destruct (m s) as [[a|e0] s1] eqn:E; [by apply (Hk a s1 eq_refl)|].
  intros [= <- <-]. by eapply Hm.
Qed.

Lemma quiet_from_quiet {A} (m : SM A) s : quiet m -> quiet_from m s.
Proof. intros H e s'. apply H. Qed.

(** Reading on after a value. *)
Lemma read_on s s1 c1 c2 rest1 rest s2 : ready s -> input s = c1 ++ rest1 -> moved (len c1) s s1 ->
  input s1 = c2 ++ rest -> moved (len c2) s1 s2 ->
  input s = (c1 ++ c2) ++ rest /\ moved (len (c1 ++ c2)) s s2.
Proof.
  intros Hs Ei Hm Ei2 Hm2. rewrite (moved_input _ _ _ _ Hm Ei) in Ei2. subst rest1.
  rewrite len_app, <- app_assoc. split; [done|by eapply moved_moved].
Qed.

Lemma decode_elems_sound {A} (m : SM A) P : sound m P -> orderly m -> forall fuel s l s', ready s ->
  decode_elems m fuel s = (Ok l, s') ->
  exists cs rest, Forall2 P l cs /\ input s = concat cs ++ rest /\ moved (len (concat cs)) s s'.
Proof.
  intros Hm Ho. induction fuel as [|fuel IH]; intros s l s' Hs; [done|]. simpl. unfold sm_catch.
  destruct (m s) as [[a|e] s1] eqn:E.
  - intros (l' & s2 & E2 & E3)%sm_bind_Ok. injection E3 as <- <-.
    destruct (Hm s a s1 Hs E) as (c & rest1 & HP & Ei & Hmv). pose proof (moved_ready _ _ _ Hs Hmv) as Hs1.
    destruct (IH s1 l' s2 Hs1 E2) as (cs & rest & HPs & Ei2 & Hmv2). exists (c :: cs), rest.
    split; [by constructor|]. by eapply read_on.
  - destruct (bool_decide_reflect (e = EOL)) as [->|]; [|done]. intros [= <- <-].
    destruct (Ho s EOL s1 Hs E eq_refl) as (_ & _ & ->). exists [], (input s). split; [constructor|].
    split; [done|]. by apply moved_refl.
Qed.

Lemma decode_elems_quiet {A} (m : SM A) P : sound m P -> (forall a c, P a c -> 0 < len c) -> orderly m ->
  forall fuel s, ready s -> (length (input s) < fuel)%nat -> quiet_from (decode_elems m fuel) s.
Proof.
  intros Hm Hpos Ho. induction fuel as [|fuel IH]; intros s Hs Hf e s'; [lia|]. simpl. unfold sm_catch.
  destruct (m s) as [[a|e0] s1] eqn:E.
  - apply quiet_from_bind; [|by intros]. destruct (Hm s a s1 Hs E) as (c & rest & HP & Ei & Hmv).
    apply IH; [by eapply moved_ready|]. rewrite (moved_input _ _ _ _ Hmv Ei). apply Hpos in HP.
    rewrite Ei, length_app in Hf. unfold len in HP. lia.
  - destruct (bool_decide_reflect (e0 = EOL)) as [->|Hne]; [done|]. intros [= <- <-].
    destruct (signal e0) eqn:He; [|done]. by destruct (Ho s e0 s1 Hs E He) as [? _].
Qed.

Lemma list_sound {A} (body : SM A) (Q : A -> list Z -> Prop) s size s1 a s2 s3 : ready s ->
  stream_List s = (Ok size, s1) -> body s1 = (Ok a, s2) ->
  (ready s1 -> exists c rest, Q a c /\ input s1 = c ++ rest /\ moved (len c) s1 s2) ->
  stream_ListEnd s2 = (Ok tt, s3) ->
  exists c rest, Q a c /\ input s = encode_list c ++ rest /\ moved (len (encode_list c)) s s3.
Proof.
  intros Hs E1 E2 Hbody E3. apply List_sound in E1 as (Hu & rest & Ei & Hen & Hs1 & Ei1); [|done].
  destruct (Hbody Hs1) as (c & rest' & HQ & Ei2 & Hm). exists c, rest'. split; [done|].
  destruct (ListEnd_sound s s1 s2 s3 (len (puthead 0xC0 0xF7 size)) size (len c)) as [<- Hm3]; try done.
  { rewrite Ei, len_app. split; [apply len_nonneg|]. pose proof (len_nonneg rest). lia. }
  unfold encode_list. rewrite len_app, <- app_assoc. split; [|done]. by rewrite Ei, <- Ei2, Ei1.
Qed.

Lemma List_ready s size s1 : ready s -> stream_List s = (Ok size, s1) -> ready s1.
Proof. intros Hs E. apply List_sound in E as (_ & rest & _ & _ & H & _); done. Qed.

(** The types of a list of fields. *)
Definition sound_orderly (t : gotype) : Prop :=
  wf_type t = true -> sound (decode_val t) (reads t) /\ orderly (decode_val t).

Lemma decode_fields_sound ts : Forall sound_orderly ts -> forallb wf_type ts = true -> forall s v s', ready s ->
  decode_fields decode_val ts s = (Ok v, s') ->
  exists c rest, (forallb canonical_type ts = true ->
      fields_typed typed (length ts) ts v /\ c = concat (map encode (field_items value_item (length ts) ts v)))
    /\ input s = c ++ rest /\ moved (len c) s s'.
Proof.
  induction 1 as [|t ts Ht _ IH]; simpl; intros Hw s v s' Hs E.
  { injection E as <- <-. exists [], (input s). split; [done|]. split; [done|]. by apply moved_refl. }
  apply andb_true_iff in Hw as [Hw1 Hw2]. destruct (Ht Hw1) as [Hsd _]. unfold sm_catch in E.
  destruct (decode_val t s) as [[a|e] s1] eqn:E1; [|done]. apply sm_bind_Ok in E as (vs & s2 & E2 & E3). injection E3 as <- <-.
  destruct (Hsd s a s1 Hs E1) as (c1 & rest1 & HP & Ei & Hmv). pose proof (moved_ready _ _ _ Hs Hmv) as Hs1.
  destruct (IH Hw2 s1 vs s2 Hs1 E2) as (c2 & rest & HPs & Ei2 & Hmv2). exists (c1 ++ c2), rest.
  split; [|by eapply read_on]. intros [Hc1 Hc2]%andb_true_iff. destruct HP as [_ HP].
  destruct (HP Hc1) as [? ->], (HPs Hc2) as [? ->]. done.
Qed.

Lemma decode_optional_sound ts : Forall sound_orderly ts -> forallb wf_type ts = true -> forall s v s', ready s ->
  decode_optional decode_val ts s = (Ok v, s') ->
  exists c rest, (ts = [] -> c = []) /\ input s = c ++ rest /\ moved (len c) s s'.
Proof.
  induction 1 as [|t ts Ht _ IH]; simpl; intros Hw s v s' Hs E.
  { injection E as <- <-. exists [], (input s). split; [done|]. split; [done|]. by apply moved_refl. }
  apply andb_true_iff in Hw as [Hw1 Hw2]. destruct (Ht Hw1) as [Hsd Ho]. unfold sm_catch in E.
  destruct (decode_val t s) as [[a|e] s1] eqn:E1.
  - apply sm_bind_Ok in E as (vs & s2 & E2 & E3). injection E3 as <- <-.
    destruct (Hsd s a s1 Hs E1) as (c1 & rest1 & HP & Ei & Hmv). pose proof (moved_ready _ _ _ Hs Hmv) as Hs1.
    destruct (IH Hw2 s1 vs s2 Hs1 E2) as (c2 & rest & HPs & Ei2 & Hmv2). exists (c1 ++ c2), rest.
    split; [done|]. by eapply read_on.
  - destruct (bool_decide_reflect (e = EOL)) as [->|]; [|done]. injection E as <- <-.
    destruct (Ho s EOL s1 Hs E1 eq_refl) as (_ & _ & ->). exists [], (input s). split; [done|].
    split; [done|]. by apply moved_refl.
Qed.

Lemma decode_fields_quiet ts : Forall sound_orderly ts -> forallb wf_type ts = true -> forall s, ready s ->
  quiet_from (decode_fields decode_val ts) s.
Proof.
  induction 1 as [|t ts Ht _ IH]; simpl; intros Hw s Hs e s'; [done|].
  apply andb_true_iff in Hw as [Hw1 Hw2]. destruct (Ht Hw1) as [Hsd Ho]. unfold sm_catch.
  destruct (decode_val t s) as [[a|e0] s1] eqn:E1.
  - apply quiet_from_bind; [|by intros]. destruct (Hsd s a s1 Hs E1) as (c1 & rest1 & _ & _ & Hmv).
    apply IH; [done|by eapply moved_ready].
  - intros [= <- <-]. destruct (bool_decide_reflect (e0 = EOL)) as [->|Hne]; [done|].
    destruct (signal e0) eqn:He; [|done]. by destruct (Ho s e0 s1 Hs E1 He) as [? _].
Qed.

Lemma decode_optional_quiet ts : Forall sound_orderly ts -> forallb wf_type ts = true -> forall s, ready s ->
  quiet_from (decode_optional decode_val ts) s.
Proof.
  induction 1 as [|t ts Ht _ IH]; simpl; intros Hw s Hs e s'; [done|].
  apply andb_true_iff in Hw as [Hw1 Hw2]. destruct (Ht Hw1) as [Hsd Ho]. unfold sm_catch.
  destruct (decode_val t s) as [[a|e0] s1] eqn:E1.
  - apply quiet_from_bind; [|by intros]. destruct (Hsd s a s1 Hs E1) as (c1 & rest1 & _ & _ & Hmv).
    apply IH; [done|by eapply moved_ready].
  - destruct (bool_decide_reflect (e0 = EOL)) as [->|Hne]; [done|]. intros [= <- <-].
    destruct (signal e0) eqn:He; [|done]. by destruct (Ho s e0 s1 Hs E1 He) as [? _].
Qed.

Lemma sm_wrap_inv {A} (m : SM A) s a s' : sm_wrap m s = (Ok a, s') -> m s = (Ok a, s').
Proof. apply sm_wrap_Ok. Qed.

Lemma encode_list_pos c : 0 < len (encode_list c).
Proof.
  unfold encode_list. rewrite len_app. destruct (puthead_cons 0xC0 0xF7 (len c)) as (b & t & ->).
  rewrite len_cons. pose proof (len_nonneg t). pose proof (len_nonneg c). lia.
Qed.

Lemma sound_weaken {A} (m : SM A) (P Q : A -> list Z -> Prop) :
  sound m P -> (forall a c, P a c -> Q a c) -> sound m Q.
Proof. intros H HPQ s a s' Hs E. destruct (H s a s' Hs E) as (c & rest & HP & ?). exists c, rest. auto. Qed.

Lemma decode_nilptr_sound t : never_empty t = true -> sound (decode_val t) (reads t) -> orderly (decode_val t) ->
  sound (decode_val (TNilPtr t)) (reads (TNilPtr t)) /\ orderly (decode_val (TNilPtr t)).
Proof.
  intros Hn Hsd Ho. split.
  - intros s o s' Hs E. simpl in E. apply sm_bind_Ok in E as ([k size] & s1 & Hk%sm_wrap_inv & E).
    destruct (negb (bool_decide (k = Byte)) && (size =? 0)) eqn:Hnil.
    + destruct (bool_decide_reflect (k = nil_kind t)) as [->|]; [|done]. apply sm_bind_Ok in E as ([] & s2 & E2 & E3).
      injection E2 as <-. injection E3 as <- <-. apply andb_true_iff in Hnil as [_ ->%Z.eqb_eq].
      apply Kind_sound in Hk as (b & h & rest & Hh & Ei & Hr & -> & Hw); [|done].
      assert (h = encode (nil_item t)) as -> by (by destruct t; simpl in Hh; destruct Hh as (-> & -> & _)).
      exists (encode (nil_item t)), rest. split; [split; [apply encode_pos|done]|]. split; [done|].
      apply after_moved; [apply Hs|exact Hr|done..].
    + apply sm_bind_Ok in E as (v & s2 & E2 & E3). injection E3 as <- <-.
      rewrite (proj2 (decode_val_starts t) s (k, size) s1 (rs_kind _ Hs) Hk) in E2.
      exact (Hsd s v s2 Hs E2).
  - simpl. apply orderly_bind; [apply EOL_at_end_orderly; auto with quiet|]. intros s [k size] s1 Hs Hk%sm_wrap_inv.
    destruct (_ && _); [apply quiet_from_quiet; destruct (negb _); auto with quiet|].
    apply quiet_from_bind; [|by intros]. intros e s'.
    rewrite (proj2 (decode_val_starts t) s (k, size) s1 (rs_kind _ Hs) Hk). intros E.
    destruct (signal e) eqn:He; [|done]. destruct (Ho s e s' Hs E He) as (_ & Hl & _).
    by rewrite stream_Kind_at_end in Hk by (done || apply Hs).
Qed.

Lemma decode_slice_sound t : sound (decode_val t) (reads t) -> orderly (decode_val t) ->
  sound (decode_val (TSlice t)) (reads (TSlice t)) /\ orderly (decode_val (TSlice t)).
Proof.
  intros Hsd Ho. split.
  - intros s l s' Hs E. change (denote (TSlice t)) with (list (denote t)) in l. simpl in E.
    assert (exists cs rest, Forall2 (reads t) l cs /\ input s = encode_list (concat cs) ++ rest
      /\ moved (len (encode_list (concat cs))) s s') as (cs & rest & Hcs & Ei & Hm).
    { apply sm_bind_Ok in E as (size & s1 & E1%sm_wrap_inv & E). destruct (Z.eqb_spec size 0) as [->|Hne].
      - apply sm_bind_Ok in E as ([] & s2 & E2 & E3). injection E3 as <- <-.
        destruct (list_sound (sm_ret tt) (fun _ c => c = []) s 0 s1 tt s1 s2) as (c & rest & -> & Ei & Hm); try done.
        { intros Hs1. exists [], (input s1). split; [done|]. split; [done|]. by apply moved_refl. }
        exists [], rest. split; [constructor|done].
      - change (sm_bind _ _ s1) with ((do l <- decode_elems (decode_val t) (S (length (input s1))); stream_ListEnd ;; sm_ret l) s1) in E.
        apply sm_bind_Ok in E as (l' & s2 & E2 & E). apply sm_bind_Ok in E as ([] & s3 & E3 & E4). injection E4 as <- <-.
        destruct (list_sound (decode_elems (decode_val t) (S (length (input s1))))
          (fun l c => exists cs, Forall2 (reads t) l cs /\ c = concat cs) s size s1 l' s2 s3)
          as (c & rest & (cs & Hcs & ->) & Ei & Hm); try done.
        { intros Hs1. destruct (decode_elems_sound _ (reads t) Hsd Ho _ _ _ _ Hs1 E2) as (cs & rest & Hcs & Ei & Hm).
          exists (concat cs), rest. split; [by exists cs|done]. }
        by exists cs, rest. }
    exists (encode_list (concat cs)), rest. split; [|done].
    split; [apply encode_list_pos|].
    intros Hc. simpl in Hc |- *. rewrite map_map. clear -Hcs Hc.
    assert (Forall (typed t) l /\ cs = map (fun v => encode (value_item t v)) l) as [? ->]; [|done].
    induction Hcs as [|v c l cs [_ H] _ [IH1 ->]]; [done|]. destruct (H Hc) as [? ->]. by split; [constructor|].
  - simpl. apply orderly_bind; [apply EOL_at_end_orderly; auto with quiet|]. intros s size s1 Hs E%sm_wrap_inv.
    destruct (size =? 0); [apply quiet_from_quiet; auto with quiet|]. apply quiet_from_bind; [by intros|].
    intros fuel s2 [= <- <-]. apply List_ready in E; [|done]. apply quiet_from_bind.
    + eapply decode_elems_quiet; [exact Hsd|by intros ? ? []|exact Ho|exact E|lia].
    + intros. apply quiet_from_quiet. auto with quiet.
Qed.

Lemma decode_struct_sound fs os : wf_type (TStruct fs os) = true -> Forall sound_orderly fs -> Forall sound_orderly os ->
  sound (decode_val (TStruct fs os)) (reads (TStruct fs os)) /\ orderly (decode_val (TStruct fs os)).
Proof.
  intros Hw Hf Ho. simpl in Hw. apply andb_true_iff in Hw as [[Hw1 Hw2]%andb_true_iff _]. split.
  - intros s [v o] s' Hs E. simpl in E.
    apply sm_bind_Ok in E as (size & s1 & E1%sm_wrap_inv & E). apply sm_bind_Ok in E as (v' & s2 & E2 & E).
    apply sm_bind_Ok in E as (o' & s3 & E3 & E). apply sm_bind_Ok in E as ([] & s4 & E4%sm_wrap_inv & E5). injection E5 as <- <- <-.
    destruct (list_sound (do v <- decode_fields decode_val fs; do o <- decode_optional decode_val os; sm_ret (v, o))
      (fun '(v, o) c => forallb canonical_type fs = true -> os = [] ->
         fields_typed typed (length fs) fs v /\ c = concat (map encode (field_items value_item (length fs) fs v)))
      s size s1 (v', o') s3 s4) as (c & rest & HQ & Ei & Hm); try done.
    { apply sm_bind_Ok. exists v', s2. split; [done|]. apply sm_bind_Ok. by exists o', s3. }
    { intros Hs1. destruct (decode_fields_sound fs Hf Hw1 _ _ _ Hs1 E2) as (c1 & rest1 & Hc1 & Ei1 & Hm1).
      destruct (decode_optional_sound os Ho Hw2 s2 o' s3 ltac:(by eapply moved_ready) E3) as (c2 & rest2 & Hc2 & Ei2 & Hm2).
      exists (c1 ++ c2), rest2. split; [|by eapply read_on]. intros Hcan Hos. rewrite (Hc2 Hos), app_nil_r. by apply Hc1. }
    exists (encode_list c), rest. split; [|done]. split; [apply encode_list_pos|].
    intros [Hcan Hos]%andb_true_iff. apply Nat.eqb_eq in Hos. destruct os; [|done].
    destruct (HQ Hcan eq_refl) as [Hty ->]. simpl. by rewrite app_nil_r.
  - simpl. apply orderly_bind; [apply EOL_at_end_orderly; auto with quiet|]. intros s size s1 Hs E%sm_wrap_inv.
    pose proof (List_ready _ _ _ Hs E) as Hs1. apply quiet_from_bind; [by apply decode_fields_quiet|].
    intros v s2 E2. destruct (decode_fields_sound fs Hf Hw1 _ _ _ Hs1 E2) as (c1 & rest1 & _ & _ & Hm1).
    apply quiet_from_bind; [apply decode_optional_quiet; [done..|by eapply moved_ready]|].
    intros. apply quiet_from_quiet. auto with quiet.
Qed.

Lemma decode_val_sound t : sound_orderly t.
Proof.
  unfold sound_orderly. induction t as [bits| | | | |n|t IH|t IH|t IH|fs os IHf IHo] using gotype_ind'; intros Hw.
  1-6: split; [|apply EOL_at_end_orderly; simpl; auto with quiet].
  - simpl in Hw. apply andb_true_iff in Hw as [[Hb1%Z.ltb_lt Hb2]%andb_true_iff Hb3%Z.eqb_eq].
    simpl. apply sound_wrap. eapply sound_weaken; [by apply stream_uint_sound|].
    intros i c (H1 & H2 & _ & ->). split; [apply encode_string_pos|done].
  - simpl. apply sound_wrap. eapply sound_weaken; [apply stream_Bool_sound|]. intros b c ->. split; [apply encode_string_pos|done].
  - simpl. apply sound_wrap. eapply sound_weaken; [apply decodeBigInt_sound|].
    intros i c (H1 & _ & _ & ->). split; [apply encode_string_pos|done].
  - simpl. apply sound_wrap. eapply sound_weaken; [apply ReadUint256_sound|].
    intros i c (_ & H1 & _ & ->). split; [apply encode_string_pos|done].
  - simpl. apply sound_wrap. eapply sound_weaken; [apply Bytes_sound|].
    intros b c (_ & H1 & _ & ->). split; [apply encode_string_pos|done].
  - eapply sound_weaken; [apply decodeByteArray_sound|].
    intros b c (H0 & H1 & _ & ->). split; [apply encode_string_pos|done].
  - destruct (IH Hw) as [Hsd Ho]. split.
    + intros s o s' Hs E. simpl in E. apply sm_bind_Ok in E as (v & s1 & E1 & E2). injection E2 as <- <-. exact (Hsd s v s1 Hs E1).
    + apply orderly_bind; [done|]. by intros.
  - simpl in Hw. apply andb_true_iff in Hw as [Hn Hw]. destruct (IH Hw). by apply decode_nilptr_sound.
  - destruct (IH Hw). by apply decode_slice_sound.
  - by apply decode_struct_sound.
Qed.

(** ** Whole inputs *)

Lemma Reset_ready b old : Forall is_byte b -> len b < two64 -> is_u64 old -> ready (Reset b (len b) old).
Proof.
  intros Hb Hl Hold. unfold Reset. destruct (Z.ltb_spec 0 (len b)); split; try done; split; try done; simpl.
  unfold is_u64. lia.
Qed.

Lemma Reset_input b old : input (Reset b (len b) old) = b.
Proof. unfold Reset. by destruct (0 <? len b). Qed.

Lemma Reset_readable b old : readable (len b) (Reset b (len b) old).
Proof.
  split; rewrite ?Reset_input; try done; [apply len_nonneg| |]; unfold Reset; by destruct (0 <? len b).
Qed.

(** An encoding consists of bytes. *)
Definition bytes_encoded (t : gotype) : Prop := forall v, typed t v ->
  len (encode (value_item t v)) < two64 -> Forall is_byte (encode (value_item t v)).

Lemma fields_bytes n ts v : Forall bytes_encoded ts -> fields_typed typed n ts v ->
  len (concat (map encode (field_items value_item n ts v))) < two64 ->
  Forall is_byte (concat (map encode (field_items value_item n ts v))).
Proof.
  intros H. revert n v. induction H as [|t ts Ht _ IH]; intros [|n] v Hty Hl; try by constructor.
  destruct v as [v vs]. simpl in *. destruct Hty as [Hty1 Hty2]. rewrite len_app in Hl.
  pose proof (len_nonneg (encode (value_item t v))).
  pose proof (len_nonneg (concat (map encode (field_items value_item n ts vs)))).
  apply Forall_app. split; [apply Ht; done || lia|apply IH; done || lia].
Qed.

Lemma value_item_bytes t : bytes_encoded t.
Proof.
  induction t as [bits| | | | |n|t IH|t IH|t IH|fs os IHf IHo] using gotype_ind'; intros v Hty Hl; simpl in Hty, Hl |- *.
  1-4: apply encode_string_bytes; [exact (Z.le_lt_trans _ _ _ (encode_string_le _) Hl)|apply int_content_bytes].
  1-2: apply encode_string_bytes; [exact (Z.le_lt_trans _ _ _ (encode_string_le _) Hl)|apply Hty].
  - destruct v; [by apply IH|done].
  - destruct v; [by apply IH|]. rewrite nil_item_encoding. constructor; [|constructor].
    unfold nilEncoding. by destruct t.
  - apply encode_list_bytes; [exact (Z.le_lt_trans _ _ _ (encode_list_le _) Hl)|]. pose proof (encode_list_le (concat (map encode (map (value_item t) v)))) as Hle.
    rewrite map_map in *. apply Forall_concat, Forall_map, Forall_forall. intros x Hx. apply IH.
    + exact (proj1 (Forall_forall _ _) Hty x Hx).
    + pose proof (concat_le (fun x => encode (value_item t x)) v x Hx). simpl in *. lia.
  - destruct v as [v o]. simpl in *. apply encode_list_bytes; [exact (Z.le_lt_trans _ _ _ (encode_list_le _) Hl)|]. destruct Hty as [Hty1 Hty2].
    pose proof (encode_list_le (concat (map encode (field_items value_item (length fs) fs v ++ field_items value_item (kept os o) os o)))) as Hle.
    rewrite map_app, concat_app in *. rewrite len_app in Hle.
    pose proof (len_nonneg (concat (map encode (field_items value_item (length fs) fs v)))).
    pose proof (len_nonneg (concat (map encode (field_items value_item (kept os o) os o)))).
    apply Forall_app. split; apply fields_bytes; done || lia.
Qed.

(** C16.  The codec reads back what it writes: for every type of the universe and every
    value in its range whose encoding has a length below 2^64, the encoder returns the
    encoding of the tree of the value, and the decoder returns the value, whatever limit
    the pooled stream remembers. *)
Theorem codec_roundtrip t v old : wf_type t = true -> typed t v -> is_u64 old ->
  len (encode (value_item t v)) < two64 ->
  exists b, EncodeVal t v = Some b /\ b = encode (value_item t v) /\ DecodeBytes old t b = Ok v.
Proof.
  intros Hw Hty Hold Hl. exists (encode (value_item t v)).
  split; [by apply writes_makeBytes, write_val_writes|]. split; [done|].
  pose proof (value_item_bytes t v Hty Hl) as Hb. set (b := encode _) in *.
  destruct (decode_val_complete t Hw (Reset b (len b) old) v b []) as (s' & E & Hm).
  - by apply Reset_ready.
  - by split.
  - by rewrite Reset_input, app_nil_r.
  - apply Reset_readable.
  - apply encode_pos.
  - unfold DecodeBytes. rewrite E, (moved_input _ _ b [] Hm); [done|]. by rewrite Reset_input, app_nil_r.
Qed.

(** C17.  The codec is canonical: decoding terminates on every byte slice, and for a type
    without optional fields a slice is accepted only if it is what the encoder writes
    for the value returned, which is in the range of the type. *)
Theorem codec_canonical t b old : wf_type t = true -> Forall is_byte b -> len b < two64 -> is_u64 old ->
  DecodeBytes old t b <> Err NoFuel
  /\ forall v, canonical_type t = true -> DecodeBytes old t b = Ok v -> typed t v /\ EncodeVal t v = Some b.
Proof.
  intros Hw Hb Hl Hold. destruct (decode_val_sound t Hw) as [Hsd Ho]. pose proof (Reset_ready b old Hb Hl Hold) as Hs.
  unfold DecodeBytes. split.
  - destruct (decode_val t _) as [[v|e] s'] eqn:E; [by destruct (input s')|]. intros [= ->].
    by destruct (Ho _ _ _ Hs E eq_refl).
  - intros v Hc. destruct (decode_val t _) as [[v'|e] s'] eqn:E; [|done]. destruct (input s') eqn:Ei; [|done]. intros [= ->].
    destruct (Hsd _ _ _ Hs E) as (c & rest & [_ HP] & Ei0 & Hm). destruct (HP Hc) as [Hty ->]. split; [done|].
    rewrite (moved_input _ _ _ _ Hm Ei0) in Ei. subst rest. rewrite Reset_input, app_nil_r in Ei0. subst b.
    by apply writes_makeBytes, write_val_writes.
Qed.

(** The hypotheses hold for the struct above, with and without its optional field. *)
Lemma codec_roundtrip_witness :
  exists b, EncodeVal sample_type (sample_value 7) = Some b /\ DecodeBytes 0 sample_type b = Ok (sample_value 7).
Proof.
  assert (typed sample_type (sample_value 7)) as Hty by (simpl; repeat constructor; unfold is_byte; lia).
  destruct (codec_roundtrip sample_type (sample_value 7) 0 ltac:(by vm_compute) Hty ltac:(by vm_compute) ltac:(by vm_compute))
    as (b & E & _ & D).
  by exists b.
Defined.

Lemma codec_canonical_witness :
  let t := TStruct [TUint 64; TBool] [] in
  DecodeBytes 0 t [0xc4; 0x82; 0x01; 0x2c; 0x01] = Ok ((300, (true, tt)), tt)
  /\ EncodeVal t ((300, (true, tt)), tt) = Some [0xc4; 0x82; 0x01; 0x2c; 0x01].
Proof.
  intros t.
  assert (DecodeBytes 0 t [0xc4; 0x82; 0x01; 0x2c; 0x01] = Ok ((300, (true, tt)), tt)) as E by by vm_compute.
  assert (Forall is_byte [0xc4; 0x82; 0x01; 0x2c; 0x01]) as Hb by (repeat constructor; unfold is_byte; lia).
  destruct (codec_canonical t _ 0 ltac:(by vm_compute) Hb ltac:(by vm_compute) ltac:(by vm_compute)) as [_ H].
  split; [exact E|]. by destruct (H _ ltac:(by vm_compute) E).
Defined.
