(* ===== verification/TxTypes.v ===== *)
(** The data of transactions, [core/types/tx_legacy.go], [tx_access_list.go],
    [tx_dynamic_fee.go], [tx_blob.go], [tx_setcode.go], [arb_types.go] and
    [arbitrum_legacy_tx.go]: a record per struct of Go, each with the codec that the
    [rlp] package derives from its fields.

    Big integers are never nil here: [NewTx] copies every transaction, which initializes
    them, and decoding does so too. *)

From stdpp Require Import base list numbers option strings.
From S2P Require Import Prelude Params Uint256 Rlp RlpStream RlpValues RlpCodec.
Import U256(be_value, be_bytes, be_bytes_length, be_bytes_byte, be_value_bytes, be_value_bound,
  be_bytes_value).
Open Scope Z_scope.

(** ** Codecs

    A type of the model and the Go type its values have: [c_ok] is the range of the
    values, [c_to] and [c_of] go there and back. *)

Record codec (A : Type) := mkCodec {
  c_type : gotype;
  c_ok : A -> Prop;
  c_to : A -> denote c_type;
  c_of : denote c_type -> A
}.
Arguments mkCodec {_}.
Arguments c_type {_}.
Arguments c_ok {_}.
Arguments c_to {_}.
Arguments c_of {_}.

(** What makes the codec read back what it writes, and accept nothing else. *)
Class CodecLaws {A} (c : codec A) : Prop := {
  c_wf : wf_type (c_type c) = true;
  c_to_typed a : c_ok c a -> typed (c_type c) (c_to c a);
  c_of_to a : c_ok c a -> c_of c (c_to c a) = a
}.

Class CanonicalLaws {A} (c : codec A) : Prop := {
  c_canonical : canonical_type (c_type c) = true;
  c_typed_of v : typed (c_type c) v -> c_ok c (c_of c v) /\ c_to c (c_of c v) = v
}.

(** Codecs of the fields of a struct. *)
Record fields (A : Type) := mkFields {
  f_types : list gotype;
  f_ok : A -> Prop;
  f_to : A -> tuple denote f_types;
  f_of : tuple denote f_types -> A
}.
Arguments mkFields {_}.
Arguments f_types {_}.
Arguments f_ok {_}.
Arguments f_to {_}.
Arguments f_of {_}.

Class FieldsLaws {A} (f : fields A) : Prop := {
  f_wf : forallb wf_type (f_types f) = true;
  f_to_typed n a : f_ok f a -> fields_typed typed n (f_types f) (f_to f a);
  f_of_to a : f_ok f a -> f_of f (f_to f a) = a
}.

Class CanonicalFields {A} (f : fields A) : Prop := {
  f_canonical : forallb canonical_type (f_types f) = true;
  f_typed_of v : fields_typed typed (length (f_types f)) (f_types f) v ->
    f_ok f (f_of f v) /\ f_to f (f_of f v) = v
}.

Definition c_uint (bits : Z) : codec Z := mkCodec (TUint bits) (fun i => 0 <= i < 2 ^ bits) (fun i => i) (fun i => i).
Definition c_big : codec Z := mkCodec TBig (fun i => 0 <= i) (fun i => i) (fun i => i).
Definition c_u256 : codec Z := mkCodec TU256 is_u256 (fun i => i) (fun i => i).
Definition c_bytes : codec (list Z) := mkCodec TBytes (Forall is_byte) (fun b => b) (fun b => b).
(** An address or a hash, kept as an integer. *)
Definition c_array (n : nat) : codec Z :=
  mkCodec (TByteArray n) (fun a => 0 <= a < 256 ^ Z.of_nat n) (be_bytes n) be_value.
(** A fixed number of bytes. *)
Definition c_fixed (n : nat) : codec (list Z) :=
  mkCodec (TByteArray n) (fun b => length b = n /\ Forall is_byte b) (fun b => b) (fun b => b).
Definition c_ptr {A} (c : codec A) : codec A :=
  mkCodec (TPtr (c_type c)) (c_ok c) (fun a => Some (c_to c a))
    (fun o => c_of c (match o with Some v => v | None => zero_val (c_type c) end)).
(** The tag "nil". *)
Definition c_nilptr {A} (c : codec A) : codec (option A) :=
  mkCodec (TNilPtr (c_type c)) (fun o => match o with Some a => c_ok c a | None => True end)
    (option_map (c_to c)) (option_map (c_of c)).
Definition c_slice {A} (c : codec A) : codec (list A) :=
  mkCodec (TSlice (c_type c)) (Forall (c_ok c)) (map (c_to c)) (map (c_of c)).

Definition f_nil : fields unit := mkFields [] (fun _ => True) (fun _ => tt) (fun _ => tt).
Definition f_cons {A B} (c : codec A) (f : fields B) : fields (A * B) :=
  mkFields (c_type c :: f_types f) (fun '(a, b) => c_ok c a /\ f_ok f b)
    (fun '(a, b) => (c_to c a, f_to f b)) (fun '(v, vs) => (c_of c v, f_of f vs)).

Declare Scope fields_scope.
Delimit Scope fields_scope with fields.
Notation "c ,, f" := (f_cons c f) (at level 60, right associativity) : fields_scope.

Definition c_struct {A} (f : fields A) : codec A :=
  mkCodec (TStruct (f_types f) []) (f_ok f) (fun a => (f_to f a, tt)) (fun '(v, _) => f_of f v).
(** With optional fields. *)
Definition c_struct_opt {A B} (f : fields A) (o : fields B) : codec (A * B) :=
  mkCodec (TStruct (f_types f) (f_types o)) (fun '(a, b) => f_ok f a /\ f_ok o b)
    (fun '(a, b) => (f_to f a, f_to o b)) (fun '(v, w) => (f_of f v, f_of o w)).
(** A record for its tuple of fields. *)
Definition c_record {A B} (to : A -> B) (of_ : B -> A) (c : codec B) : codec A :=
  mkCodec (c_type c) (fun a => c_ok c (to a)) (fun a => c_to c (to a)) (fun v => of_ (c_of c v)).

(** ** Their laws *)

#[export] Instance uint_laws bits : (0 <? bits) && (bits <=? 64) && (bits mod 8 =? 0) = true -> CodecLaws (c_uint bits).
Proof. by split. Qed.
#[export] Instance uint_canonical bits : CanonicalLaws (c_uint bits).
Proof. by split. Qed.
#[export] Instance big_laws : CodecLaws c_big.
Proof. by split. Qed.
#[export] Instance big_canonical : CanonicalLaws c_big.
Proof. by split. Qed.
#[export] Instance u256_laws : CodecLaws c_u256.
Proof. by split. Qed.
#[export] Instance u256_canonical : CanonicalLaws c_u256.
Proof. by split. Qed.
#[export] Instance bytes_laws : CodecLaws c_bytes.
Proof. by split. Qed.
#[export] Instance bytes_canonical : CanonicalLaws c_bytes.
Proof. by split. Qed.
#[export] Instance fixed_laws n : CodecLaws (c_fixed n).
Proof. by split. Qed.
#[export] Instance fixed_canonical n : CanonicalLaws (c_fixed n).
Proof. by split. Qed.

#[export] Instance array_laws n : CodecLaws (c_array n).
Proof.
  split; [done| |].
  - intros a Ha. split; [apply be_bytes_length|apply be_bytes_byte].
  - intros a Ha. simpl. rewrite be_value_bytes. by apply Z.mod_small.
Qed.
#[export] Instance array_canonical n : CanonicalLaws (c_array n).
Proof.
  split; [done|]. intros v [Hn Hb]. simpl in *. split; [|rewrite <- Hn; by apply be_bytes_value].
  pose proof (be_value_bound v Hb). rewrite <- Hn. lia.
Qed.

#[export] Instance ptr_laws {A} (c : codec A) : CodecLaws c -> CodecLaws (c_ptr c).
Proof. intros [H1 H2 H3]. by split. Qed.
#[export] Instance ptr_canonical {A} (c : codec A) : CanonicalLaws c -> CanonicalLaws (c_ptr c).
Proof.
  intros [H1 H2]. split; [done|]. intros [v|] Hv; [|done]. destruct (H2 v Hv) as [? E]. split; [done|].
  simpl. by rewrite E.
Qed.

#[export] Instance nilptr_laws {A} (c : codec A) : never_empty (c_type c) = true -> CodecLaws c -> CodecLaws (c_nilptr c).
Proof.
  intros Hn [H1 H2 H3]. split; [simpl; by rewrite Hn|..]; intros [a|] Ha; simpl; auto. by rewrite H3.
Qed.
#[export] Instance nilptr_canonical {A} (c : codec A) : CanonicalLaws c -> CanonicalLaws (c_nilptr c).
Proof.
  intros [H1 H2]. split; [done|]. intros [v|] Hv; [|done]. destruct (H2 v Hv) as [? E]. split; [done|].
  simpl. by rewrite E.
Qed.

#[export] Instance slice_laws {A} (c : codec A) : CodecLaws c -> CodecLaws (c_slice c).
Proof.
  intros [H1 H2 H3]. split; [done|..]; intros l Hl; simpl in *.
  - apply Forall_map. by eapply Forall_impl.
  - induction Hl as [|a l Ha _ IH]; [done|]. simpl. by rewrite IH, H3.
Qed.
#[export] Instance slice_canonical {A} (c : codec A) : CanonicalLaws c -> CanonicalLaws (c_slice c).
Proof.
  intros [H1 H2]. split; [done|]. intros l Hl. simpl in *. induction Hl as [|v l Hv _ [IH1 IH2]]; [done|].
  destruct (H2 v Hv) as [? E]. simpl. rewrite E, IH2. split; [by constructor|done].
Qed.

#[export] Instance nil_laws : FieldsLaws f_nil.
Proof. split; [done|by intros []|by intros []]. Qed.
#[export] Instance nil_canonical : CanonicalFields f_nil.
Proof. split; [done|by intros []]. Qed.
#[export] Instance cons_laws {A B} (c : codec A) (f : fields B) : CodecLaws c -> FieldsLaws f -> FieldsLaws (f_cons c f).
Proof.
  intros [H1 H2 H3] [H4 H5 H6]. split; [simpl; by rewrite H1, H4|..].
  - intros [|n] [a b] [Ha Hb]; [done|]. simpl. auto.
  - intros [a b] [Ha Hb]. simpl. by rewrite H3, H6.
Qed.
#[export] Instance cons_canonical {A B} (c : codec A) (f : fields B) :
  CanonicalLaws c -> CanonicalFields f -> CanonicalFields (f_cons c f).
Proof.
  intros [H1 H2] [H3 H4]. split; [simpl; by rewrite H1, H3|]. intros [v vs] [Hv Hvs].
  destruct (H2 v Hv) as [? E], (H4 vs Hvs) as [? E']. simpl. by rewrite E, E'.
Qed.

#[export] Instance struct_laws {A} (f : fields A) : FieldsLaws f -> CodecLaws (c_struct f).
Proof.
  intros [H1 H2 H3]. split; [simpl; by rewrite H1|..]; intros a Ha; simpl; [|by apply H3].
  split; [by apply H2|done].
Qed.
#[export] Instance struct_canonical {A} (f : fields A) : CanonicalFields f -> CanonicalLaws (c_struct f).
Proof.
  intros [H1 H2]. split; [simpl; by rewrite H1|]. intros [v []] [Hv _]. destruct (H2 v Hv) as [? E].
  simpl. by rewrite E.
Qed.
#[export] Instance struct_opt_laws {A B} (f : fields A) (o : fields B) :
  FieldsLaws f -> FieldsLaws o -> forallb may_be_optional (f_types o) = true -> CodecLaws (c_struct_opt f o).
Proof.
  intros [H1 H2 H3] [H4 H5 H6] Ho. split; [simpl; by rewrite H1, H4, Ho|..]; intros [a b] [Ha Hb]; simpl.
  - split; [by apply H2|by apply H5].
  - by rewrite H3, H6.
Qed.
#[export] Hint Extern 0 (_ = true) => reflexivity : typeclass_instances.

Lemma record_laws {A B} (to : A -> B) (of_ : B -> A) (c : codec B) :
  (forall a, of_ (to a) = a) -> CodecLaws c -> CodecLaws (c_record to of_ c).
Proof.
  intros Hto [H1 H2 H3]. split; [done|..]; intros a Ha; simpl in *; [by apply H2|]. by rewrite H3.
Qed.
Lemma record_canonical {A B} (to : A -> B) (of_ : B -> A) (c : codec B) :
  (forall b, to (of_ b) = b) -> CanonicalLaws c -> CanonicalLaws (c_record to of_ c).
Proof. intros Hof [H1 H2]. split; [done|]. intros v Hv. simpl. rewrite Hof. by apply H2. Qed.

Ltac record_codec := apply record_laws || apply record_canonical; [intros; repeat (match goal with
  | x : unit |- _ => destruct x | x : prod _ _ |- _ => destruct x end); try match goal with |- _ = ?x => is_var x; destruct x end; reflexivity|
  apply _].

(** ** Parts *)

Definition u64_codec := c_uint 64.
Definition address_codec := c_array 20.
Definition hash_codec := c_array 32.
(** [*common.Address] with the tag "nil". *)
Definition to_codec := c_nilptr address_codec.

(** An entry of an access list: an address and storage keys. *)
Abbreviation AccessTuple := (Z * list Z)%type (only parsing).

Definition tuple_codec : codec (Z * list Z) :=
  c_record (fun '(a, ks) => (a, (ks, tt))) (fun '(a, (ks, _)) => (a, ks))
    (c_struct (address_codec ,, c_slice hash_codec ,, f_nil)%fields).
Definition accessList_codec := c_slice tuple_codec.

Definition StorageKeys (al : list AccessTuple) : Z :=
  foldl (fun sum tuple => sum + Z.of_nat (length (snd tuple))) 0 al.

Record SetCodeAuthorization := mkSetCodeAuthorization {
  auth_ChainID : Z;
  auth_Address : Z;
  auth_Nonce : Z;
  auth_V : Z;
  auth_R : Z;
  auth_S : Z
}.

Definition auth_codec : codec SetCodeAuthorization :=
  c_record (fun a => (auth_ChainID a, (auth_Address a, (auth_Nonce a, (auth_V a, (auth_R a, (auth_S a, tt)))))))
    (fun '(c, (a, (n, (v, (r, (s, _)))))) => mkSetCodeAuthorization c a n v r s)
    (c_struct (c_u256 ,, address_codec ,, u64_codec ,, c_uint 8 ,, c_u256 ,, c_u256 ,, f_nil)%fields).

#[export] Instance u64_codec_laws : CodecLaws u64_codec := _.
#[export] Instance tuple_laws : CodecLaws tuple_codec.
Proof. record_codec. Qed.
#[export] Instance tuple_canonical : CanonicalLaws tuple_codec.
Proof. record_codec. Qed.
#[export] Instance auth_laws : CodecLaws auth_codec.
Proof. record_codec. Qed.
#[export] Instance auth_canonical : CanonicalLaws auth_codec.
Proof. record_codec. Qed.

Definition authList_codec := c_slice auth_codec.

(** ** Transactions *)

Module LegacyTx.
Record t := mk {
  Nonce : Z; GasPrice : Z; Gas : Z; To : option Z; Value : Z; Data : list Z; V : Z; R : Z; S : Z
}.
Definition codec_ : codec t :=
  c_record (fun x => (Nonce x, (GasPrice x, (Gas x, (To x, (Value x, (Data x, (V x, (R x, (S x, tt))))))))))
    (fun '(n, (p, (g, (to, (v, (d, (sv, (r, (s, _))))))))) => mk n p g to v d sv r s)
    (c_struct (u64_codec ,, c_big ,, u64_codec ,, to_codec ,, c_big ,, c_bytes ,, c_big ,, c_big ,, c_big ,, f_nil)%fields).
#[global] Instance laws : CodecLaws codec_.
Proof. record_codec. Qed.
#[global] Instance canonical : CanonicalLaws codec_.
Proof. record_codec. Qed.
End LegacyTx.

Module AccessListTx.
Record t := mk {
  ChainID : Z; Nonce : Z; GasPrice : Z; Gas : Z; To : option Z; Value : Z; Data : list Z;
  AccessList : list AccessTuple; V : Z; R : Z; S : Z
}.
Definition codec_ : codec t :=
  c_record (fun x => (ChainID x, (Nonce x, (GasPrice x, (Gas x, (To x, (Value x, (Data x, (AccessList x,
      (V x, (R x, (S x, tt))))))))))))
    (fun '(c, (n, (p, (g, (to, (v, (d, (al, (sv, (r, (s, _))))))))))) => mk c n p g to v d al sv r s)
    (c_struct (c_big ,, u64_codec ,, c_big ,, u64_codec ,, to_codec ,, c_big ,, c_bytes ,, accessList_codec ,,
       c_big ,, c_big ,, c_big ,, f_nil)%fields).
#[global] Instance laws : CodecLaws codec_.
Proof. record_codec. Qed.
#[global] Instance canonical : CanonicalLaws codec_.
Proof. record_codec. Qed.
End AccessListTx.

Module DynamicFeeTx.
Record t := mk {
  ChainID : Z; Nonce : Z; GasTipCap : Z; GasFeeCap : Z; Gas : Z; To : option Z; Value : Z; Data : list Z;
  AccessList : list AccessTuple; V : Z; R : Z; S : Z
}.
Definition codec_ : codec t :=
  c_record (fun x => (ChainID x, (Nonce x, (GasTipCap x, (GasFeeCap x, (Gas x, (To x, (Value x, (Data x, (AccessList x,
      (V x, (R x, (S x, tt)))))))))))))
    (fun '(c, (n, (tip, (fee, (g, (to, (v, (d, (al, (sv, (r, (s, _)))))))))))) => mk c n tip fee g to v d al sv r s)
    (c_struct (c_big ,, u64_codec ,, c_big ,, c_big ,, u64_codec ,, to_codec ,, c_big ,, c_bytes ,, accessList_codec ,,
       c_big ,, c_big ,, c_big ,, f_nil)%fields).
#[global] Instance laws : CodecLaws codec_.
Proof. record_codec. Qed.
#[global] Instance canonical : CanonicalLaws codec_.
Proof. record_codec. Qed.
End DynamicFeeTx.

Record BlobTxSidecar := mkSidecar {
  Version : Z;
  Blobs : list (list Z);
  Commitments : list (list Z);
  Proofs : list (list Z)
}.

(** The sidecar has the tag "-": it is no field of the encoding. *)
Module BlobTx.
Record t := mk {
  ChainID : Z; Nonce : Z; GasTipCap : Z; GasFeeCap : Z; Gas : Z; To : Z; Value : Z; Data : list Z;
  AccessList : list AccessTuple; BlobFeeCap : Z; BlobHashes : list Z; Sidecar : option BlobTxSidecar;
  V : Z; R : Z; S : Z
}.
(** [withSidecar], [withoutSidecar] *)
Definition set_sidecar (sc : option BlobTxSidecar) (x : t) : t :=
  mk (ChainID x) (Nonce x) (GasTipCap x) (GasFeeCap x) (Gas x) (To x) (Value x) (Data x) (AccessList x)
    (BlobFeeCap x) (BlobHashes x) sc (V x) (R x) (S x).
Definition fields_ := (c_u256 ,, u64_codec ,, c_u256 ,, c_u256 ,, u64_codec ,, address_codec ,, c_u256 ,, c_bytes ,,
  accessList_codec ,, c_u256 ,, c_slice hash_codec ,, c_u256 ,, c_u256 ,, c_u256 ,, f_nil)%fields.
Definition to_tuple (x : t) :=
  (ChainID x, (Nonce x, (GasTipCap x, (GasFeeCap x, (Gas x, (To x, (Value x, (Data x, (AccessList x,
    (BlobFeeCap x, (BlobHashes x, (V x, (R x, (S x, tt)))))))))))))).
Definition of_tuple : _ -> t :=
  fun '(c, (n, (tip, (fee, (g, (to, (v, (d, (al, (bf, (bh, (sv, (r, (s, tt)))))))))))))) =>
    mk c n tip fee g to v d al bf bh None sv r s.
Definition codec_ : codec t :=
  mkCodec (c_type (c_struct fields_)) (fun x => c_ok (c_struct fields_) (to_tuple x) /\ Sidecar x = None)
    (fun x => c_to (c_struct fields_) (to_tuple x)) (fun v => of_tuple (c_of (c_struct fields_) v)).
#[global] Instance laws : CodecLaws codec_.
Proof.
  split; [apply (c_wf (c := c_struct fields_))|..]; intros x [Hx Hs]; [by apply (c_to_typed (c := c_struct fields_))|].
  change (of_tuple (c_of (c_struct fields_) (c_to (c_struct fields_) (to_tuple x))) = x).
  rewrite c_of_to by done. destruct x. simpl in Hs. by subst.
Qed.
#[global] Instance canonical : CanonicalLaws codec_.
Proof.
  split; [apply (c_canonical (c := c_struct fields_))|]. intros v Hv. destruct (c_typed_of (c := c_struct fields_) v Hv) as [Hok E].
  assert (forall p, to_tuple (of_tuple p) = p) as Ht by (by intros (?&?&?&?&?&?&?&?&?&?&?&?&?&?&[])).
  split; [|change (c_to (c_struct fields_) (to_tuple (of_tuple (c_of (c_struct fields_) v))) = v); by rewrite Ht].
  split; [change (c_ok (c_struct fields_) (to_tuple (of_tuple (c_of (c_struct fields_) v)))); by rewrite Ht|].
  change (Sidecar (of_tuple (c_of (c_struct fields_) v)) = None).
  by destruct (c_of (c_struct fields_) v) as (?&?&?&?&?&?&?&?&?&?&?&?&?&?&[]).
Qed.
End BlobTx.

Module SetCodeTx.
Record t := mk {
  ChainID : Z; Nonce : Z; GasTipCap : Z; GasFeeCap : Z; Gas : Z; To : Z; Value : Z; Data : list Z;
  AccessList : list AccessTuple; AuthList : list SetCodeAuthorization; V : Z; R : Z; S : Z
}.
Definition codec_ : codec t :=
  c_record (fun x => (ChainID x, (Nonce x, (GasTipCap x, (GasFeeCap x, (Gas x, (To x, (Value x, (Data x, (AccessList x,
      (AuthList x, (V x, (R x, (S x, tt))))))))))))))
    (fun '(c, (n, (tip, (fee, (g, (to, (v, (d, (al, (au, (sv, (r, (s, _))))))))))))) => mk c n tip fee g to v d al au sv r s)
    (c_struct (c_u256 ,, u64_codec ,, c_u256 ,, c_u256 ,, u64_codec ,, address_codec ,, c_u256 ,, c_bytes ,,
       accessList_codec ,, authList_codec ,, c_u256 ,, c_u256 ,, c_u256 ,, f_nil)%fields).
#[global] Instance laws : CodecLaws codec_.
Proof. record_codec. Qed.
#[global] Instance canonical : CanonicalLaws codec_.
Proof. record_codec. Qed.
End SetCodeTx.

(** The network form of a blob transaction, with its sidecar. *)
Definition blob_codec := c_fixed (Z.to_nat 131072).
Definition commitment_codec := c_fixed 48.

Definition blobTxWithBlobsV0 : codec (BlobTx.t * (list (list Z) * (list (list Z) * (list (list Z) * unit)))) :=
  c_struct (c_ptr BlobTx.codec_ ,, c_slice blob_codec ,, c_slice commitment_codec ,, c_slice commitment_codec ,, f_nil)%fields.
Definition blobTxWithBlobsV1 : codec (BlobTx.t * (Z * (list (list Z) * (list (list Z) * (list (list Z) * unit))))) :=
  c_struct (c_ptr BlobTx.codec_ ,, c_uint 8 ,, c_slice blob_codec ,, c_slice commitment_codec ,,
    c_slice commitment_codec ,, f_nil)%fields.

Module ArbitrumUnsignedTx.
Record t := mk {
  ChainId : Z; From : Z; Nonce : Z; GasFeeCap : Z; Gas : Z; To : option Z; Value : Z; Data : list Z
}.
Definition codec_ : codec t :=
  c_record (fun x => (ChainId x, (From x, (Nonce x, (GasFeeCap x, (Gas x, (To x, (Value x, (Data x, tt)))))))))
    (fun '(c, (f, (n, (fee, (g, (to, (v, (d, _)))))))) => mk c f n fee g to v d)
    (c_struct (c_big ,, address_codec ,, u64_codec ,, c_big ,, u64_codec ,, to_codec ,, c_big ,, c_bytes ,, f_nil)%fields).
#[global] Instance laws : CodecLaws codec_.
Proof. record_codec. Qed.
#[global] Instance canonical : CanonicalLaws codec_.
Proof. record_codec. Qed.
End ArbitrumUnsignedTx.

Module ArbitrumContractTx.
Record t := mk {
  ChainId : Z; RequestId : Z; From : Z; GasFeeCap : Z; Gas : Z; To : option Z; Value : Z; Data : list Z
}.
Definition codec_ : codec t :=
  c_record (fun x => (ChainId x, (RequestId x, (From x, (GasFeeCap x, (Gas x, (To x, (Value x, (Data x, tt)))))))))
    (fun '(c, (q, (f, (fee, (g, (to, (v, (d, _)))))))) => mk c q f fee g to v d)
    (c_struct (c_big ,, hash_codec ,, address_codec ,, c_big ,, u64_codec ,, to_codec ,, c_big ,, c_bytes ,, f_nil)%fields).
#[global] Instance laws : CodecLaws codec_.
Proof. record_codec. Qed.
#[global] Instance canonical : CanonicalLaws codec_.
Proof. record_codec. Qed.
End ArbitrumContractTx.

Module ArbitrumRetryTx.
Record t := mk {
  ChainId : Z; Nonce : Z; From : Z; GasFeeCap : Z; Gas : Z; To : option Z; Value : Z; Data : list Z;
  TicketId : Z; RefundTo : Z; MaxRefund : Z; SubmissionFeeRefund : Z
}.
Definition codec_ : codec t :=
  c_record (fun x => (ChainId x, (Nonce x, (From x, (GasFeeCap x, (Gas x, (To x, (Value x, (Data x, (TicketId x,
      (RefundTo x, (MaxRefund x, (SubmissionFeeRefund x, tt)))))))))))))
    (fun '(c, (n, (f, (fee, (g, (to, (v, (d, (ti, (rt, (mr, (sr, _)))))))))))) => mk c n f fee g to v d ti rt mr sr)
    (c_struct (c_big ,, u64_codec ,, address_codec ,, c_big ,, u64_codec ,, to_codec ,, c_big ,, c_bytes ,, hash_codec ,,
       address_codec ,, c_big ,, c_big ,, f_nil)%fields).
#[global] Instance laws : CodecLaws codec_.
Proof. record_codec. Qed.
#[global] Instance canonical : CanonicalLaws codec_.
Proof. record_codec. Qed.
End ArbitrumRetryTx.

Module ArbitrumSubmitRetryableTx.
Record t := mk {
  ChainId : Z; RequestId : Z; From : Z; L1BaseFee : Z; DepositValue : Z; GasFeeCap : Z; Gas : Z;
  RetryTo : option Z; RetryValue : Z; Beneficiary : Z; MaxSubmissionFee : Z; FeeRefundAddr : Z; RetryData : list Z
}.
Definition codec_ : codec t :=
  c_record (fun x => (ChainId x, (RequestId x, (From x, (L1BaseFee x, (DepositValue x, (GasFeeCap x, (Gas x,
      (RetryTo x, (RetryValue x, (Beneficiary x, (MaxSubmissionFee x, (FeeRefundAddr x, (RetryData x, tt))))))))))))))
    (fun '(c, (q, (f, (l1, (dv, (fee, (g, (to, (v, (b, (ms, (fr, (d, _))))))))))))) => mk c q f l1 dv fee g to v b ms fr d)
    (c_struct (c_big ,, hash_codec ,, address_codec ,, c_big ,, c_big ,, c_big ,, u64_codec ,, to_codec ,, c_big ,,
       address_codec ,, c_big ,, address_codec ,, c_bytes ,, f_nil)%fields).
#[global] Instance laws : CodecLaws codec_.
Proof. record_codec. Qed.
#[global] Instance canonical : CanonicalLaws codec_.
Proof. record_codec. Qed.
End ArbitrumSubmitRetryableTx.

Module ArbitrumDepositTx.
Record t := mk { ChainId : Z; L1RequestId : Z; From : Z; To : Z; Value : Z }.
Definition codec_ : codec t :=
  c_record (fun x => (ChainId x, (L1RequestId x, (From x, (To x, (Value x, tt))))))
    (fun '(c, (q, (f, (to, (v, _))))) => mk c q f to v)
    (c_struct (c_big ,, hash_codec ,, address_codec ,, address_codec ,, c_big ,, f_nil)%fields).
#[global] Instance laws : CodecLaws codec_.
Proof. record_codec. Qed.
#[global] Instance canonical : CanonicalLaws codec_.
Proof. record_codec. Qed.
End ArbitrumDepositTx.

Module ArbitrumInternalTx.
Record t := mk { ChainId : Z; Data : list Z }.
Definition codec_ : codec t :=
  c_record (fun x => (ChainId x, (Data x, tt))) (fun '(c, (d, _)) => mk c d)
    (c_struct (c_big ,, c_bytes ,, f_nil)%fields).
#[global] Instance laws : CodecLaws codec_.
Proof. record_codec. Qed.
#[global] Instance canonical : CanonicalLaws codec_.
Proof. record_codec. Qed.
End ArbitrumInternalTx.

(** The embedded [LegacyTx] is a field; the sender is optional and may be nil. *)
Module ArbitrumLegacyTxData.
Record t := mk {
  LegacyTx_ : LegacyTx.t; HashOverride : Z; EffectiveGasPrice : Z; L1BlockNumber : Z; Sender : option Z
}.
Definition codec_ : codec t :=
  c_record (fun x => ((LegacyTx_ x, (HashOverride x, (EffectiveGasPrice x, (L1BlockNumber x, tt)))), (Sender x, tt)))
    (fun '((l, (h, (p, (b, _)))), (s, _)) => mk l h p b s)
    (c_struct_opt (LegacyTx.codec_ ,, hash_codec ,, u64_codec ,, u64_codec ,, f_nil)%fields (to_codec ,, f_nil)%fields).
#[global] Instance laws : CodecLaws codec_.
Proof. record_codec. Qed.
End ArbitrumLegacyTxData.

#[export] Instance V0_laws : CodecLaws blobTxWithBlobsV0 := _.
#[export] Instance V0_canonical : CanonicalLaws blobTxWithBlobsV0 := _.
#[export] Instance V1_laws : CodecLaws blobTxWithBlobsV1 := _.
#[export] Instance V1_canonical : CanonicalLaws blobTxWithBlobsV1 := _.
