(* ===== verification/Transaction.v ===== *)
(** Transactions, [core/types/transaction.go]: the types of transaction behind the
    interface [TxData], their accessors and hashes, and the two encodings: the one of
    [MarshalBinary] and [UnmarshalBinary], and the one inside other RLP values of
    [EncodeRLP] and [DecodeRLP].

    The time a transaction was first seen is left out. *)

From stdpp Require Import base gmap list numbers option strings.
From S2P Require Import State.
From S2P Require Import Prelude Params Uint256 Rlp RlpStream RlpValues RlpCodec TxTypes.
Open Scope Z_scope.
Open Scope stream_scope.
Open Scope go_scope.

(** ** Errors *)

Inductive txError :=
| ErrRlp (e : streamError)
| ErrSplit (e : rlpError)
| ErrNegativeBigInt
| errShortTypedTx
| ErrTxTypeNotSupported
| ErrUnsupportedSidecar
| ErrUnsupportedBlobTxVersion (version : Z)
| ErrBufferTooLarge (size : Z)
| ErrUint256Overflow
| ErrGasFeeCapTooLow
| ErrInvalidSig
| ErrUnexpectedProtection
| ErrInvalidChainId (have want : Z)
| ErrRecovery
| ErrSigning
| ErrInvalidPublicKey.

(** ** Types *)

Definition ArbitrumDepositTxType : Z := 0x64.
Definition ArbitrumUnsignedTxType : Z := 0x65.
Definition ArbitrumContractTxType : Z := 0x66.
Definition ArbitrumRetryTxType : Z := 0x68.
Definition ArbitrumSubmitRetryableTxType : Z := 0x69.
Definition ArbitrumInternalTxType : Z := 0x6A.
Definition ArbitrumLegacyTxType : Z := 0x78.
Definition LegacyTxType : Z := 0x00.
Definition AccessListTxType : Z := 0x01.
Definition DynamicFeeTxType : Z := 0x02.
Definition BlobTxType : Z := 0x03.
Definition SetCodeTxType : Z := 0x04.

(** The implementations of the interface. *)
Inductive TxData :=
| Legacy (tx : LegacyTx.t)
| AccessListed (tx : AccessListTx.t)
| DynamicFee (tx : DynamicFeeTx.t)
| Blob (tx : BlobTx.t)
| SetCode (tx : SetCodeTx.t)
| Unsigned (tx : ArbitrumUnsignedTx.t)
| Contract_ (tx : ArbitrumContractTx.t)
| Retry (tx : ArbitrumRetryTx.t)
| SubmitRetryable (tx : ArbitrumSubmitRetryableTx.t)
| Deposit (tx : ArbitrumDepositTx.t)
| Internal (tx : ArbitrumInternalTx.t)
| ArbLegacy (tx : ArbitrumLegacyTxData.t).

Definition txType (d : TxData) : Z :=
  match d with
  | Legacy _ => LegacyTxType
  | AccessListed _ => AccessListTxType
  | DynamicFee _ => DynamicFeeTxType
  | Blob _ => BlobTxType
  | SetCode _ => SetCodeTxType
  | Unsigned _ => ArbitrumUnsignedTxType
  | Contract_ _ => ArbitrumContractTxType
  | Retry _ => ArbitrumRetryTxType
  | SubmitRetryable _ => ArbitrumSubmitRetryableTxType
  | Deposit _ => ArbitrumDepositTxType
  | Internal _ => ArbitrumInternalTxType
  | ArbLegacy _ => ArbitrumLegacyTxType
  end.

(** ** Accessors *)

Definition BitLen (i : Z) : Z := if i =? 0 then 0 else Z.log2 (Z.abs i) + 1.

(** For the [v] of a legacy signature; [Uint64] takes the low bits of the magnitude. *)
Definition deriveChainId (v : Z) : Z :=
  if BitLen v <=? 64 then
    let v := u64 (Z.abs v) in
    if (v =? 27) || (v =? 28) then 0 else u64 (v - 35) / 2
  else Z.shiftr (v - 35) 1.

Definition isProtectedV (V : Z) : bool :=
  if BitLen V <=? 8 then
    let v := u64 (Z.abs V) in
    negb (v =? 27) && negb (v =? 28) && negb (v =? 1) && negb (v =? 0)
  else true.

(** The methods of the interface that read a transaction. *)
Record TxMethods := mkMethods {
  m_chainID : Z;
  m_accessList : option (list AccessTuple);
  m_data : list Z;
  m_gas : Z;
  m_gasPrice : Z;
  m_gasTipCap : Z;
  m_gasFeeCap : Z;
  m_value : Z;
  m_nonce : Z;
  m_to : option Z;
  m_effectiveGasPrice : option Z -> Z;
  m_rawSignatureValues : Z * Z * Z
}.

Definition legacy_methods (tx : LegacyTx.t) : TxMethods := {|
  m_chainID := deriveChainId (LegacyTx.V tx);
  m_accessList := None;
  m_data := LegacyTx.Data tx;
  m_gas := LegacyTx.Gas tx;
  m_gasPrice := LegacyTx.GasPrice tx;
  m_gasTipCap := LegacyTx.GasPrice tx;
  m_gasFeeCap := LegacyTx.GasPrice tx;
  m_value := LegacyTx.Value tx;
  m_nonce := LegacyTx.Nonce tx;
  m_to := LegacyTx.To tx;
  m_effectiveGasPrice := fun _ => LegacyTx.GasPrice tx;
  m_rawSignatureValues := (LegacyTx.V tx, LegacyTx.R tx, LegacyTx.S tx)
|}.

Definition accessList_methods (tx : AccessListTx.t) : TxMethods := {|
  m_chainID := AccessListTx.ChainID tx;
  m_accessList := Some (AccessListTx.AccessList tx);
  m_data := AccessListTx.Data tx;
  m_gas := AccessListTx.Gas tx;
  m_gasPrice := AccessListTx.GasPrice tx;
  m_gasTipCap := AccessListTx.GasPrice tx;
  m_gasFeeCap := AccessListTx.GasPrice tx;
  m_value := AccessListTx.Value tx;
  m_nonce := AccessListTx.Nonce tx;
  m_to := AccessListTx.To tx;
  m_effectiveGasPrice := fun _ => AccessListTx.GasPrice tx;
  m_rawSignatureValues := (AccessListTx.V tx, AccessListTx.R tx, AccessListTx.S tx)
|}.

(** The base fee and the tip, below the fee cap; [None] is a base fee of nil. *)
Definition tip_price (tipCap feeCap : Z) (baseFee : option Z) : Z :=
  match baseFee with
  | None => feeCap
  | Some baseFee =>
      let tip := feeCap - baseFee in
      let tip := if tipCap <? tip then tipCap else tip in
      tip + baseFee
  end.

Definition dynamicFee_methods (tx : DynamicFeeTx.t) : TxMethods := {|
  m_chainID := DynamicFeeTx.ChainID tx;
  m_accessList := Some (DynamicFeeTx.AccessList tx);
  m_data := DynamicFeeTx.Data tx;
  m_gas := DynamicFeeTx.Gas tx;
  m_gasPrice := DynamicFeeTx.GasFeeCap tx;
  m_gasTipCap := DynamicFeeTx.GasTipCap tx;
  m_gasFeeCap := DynamicFeeTx.GasFeeCap tx;
  m_value := DynamicFeeTx.Value tx;
  m_nonce := DynamicFeeTx.Nonce tx;
  m_to := DynamicFeeTx.To tx;
  m_effectiveGasPrice := tip_price (DynamicFeeTx.GasTipCap tx) (DynamicFeeTx.GasFeeCap tx);
  m_rawSignatureValues := (DynamicFeeTx.V tx, DynamicFeeTx.R tx, DynamicFeeTx.S tx)
|}.

Definition blob_methods (tx : BlobTx.t) : TxMethods := {|
  m_chainID := BlobTx.ChainID tx;
  m_accessList := Some (BlobTx.AccessList tx);
  m_data := BlobTx.Data tx;
  m_gas := BlobTx.Gas tx;
  m_gasPrice := BlobTx.GasFeeCap tx;
  m_gasTipCap := BlobTx.GasTipCap tx;
  m_gasFeeCap := BlobTx.GasFeeCap tx;
  m_value := BlobTx.Value tx;
  m_nonce := BlobTx.Nonce tx;
  m_to := Some (BlobTx.To tx);
  m_effectiveGasPrice := tip_price (BlobTx.GasTipCap tx) (BlobTx.GasFeeCap tx);
  m_rawSignatureValues := (BlobTx.V tx, BlobTx.R tx, BlobTx.S tx)
|}.

Definition setCode_methods (tx : SetCodeTx.t) : TxMethods := {|
  m_chainID := SetCodeTx.ChainID tx;
  m_accessList := Some (SetCodeTx.AccessList tx);
  m_data := SetCodeTx.Data tx;
  m_gas := SetCodeTx.Gas tx;
  m_gasPrice := SetCodeTx.GasFeeCap tx;
  m_gasTipCap := SetCodeTx.GasTipCap tx;
  m_gasFeeCap := SetCodeTx.GasFeeCap tx;
  m_value := SetCodeTx.Value tx;
  m_nonce := SetCodeTx.Nonce tx;
  m_to := Some (SetCodeTx.To tx);
  m_effectiveGasPrice := tip_price (SetCodeTx.GasTipCap tx) (SetCodeTx.GasFeeCap tx);
  m_rawSignatureValues := (SetCodeTx.V tx, SetCodeTx.R tx, SetCodeTx.S tx)
|}.

(** The transactions of Arbitrum pay the base fee, and no tip. *)
Definition unsigned_methods (tx : ArbitrumUnsignedTx.t) : TxMethods := {|
  m_chainID := ArbitrumUnsignedTx.ChainId tx;
  m_accessList := None;
  m_data := ArbitrumUnsignedTx.Data tx;
  m_gas := ArbitrumUnsignedTx.Gas tx;
  m_gasPrice := ArbitrumUnsignedTx.GasFeeCap tx;
  m_gasTipCap := 0;
  m_gasFeeCap := ArbitrumUnsignedTx.GasFeeCap tx;
  m_value := ArbitrumUnsignedTx.Value tx;
  m_nonce := ArbitrumUnsignedTx.Nonce tx;
  m_to := ArbitrumUnsignedTx.To tx;
  m_effectiveGasPrice := fun baseFee => default (ArbitrumUnsignedTx.GasFeeCap tx) baseFee;
  m_rawSignatureValues := (0, 0, 0)
|}.

Definition contract_methods (tx : ArbitrumContractTx.t) : TxMethods := {|
  m_chainID := ArbitrumContractTx.ChainId tx;
  m_accessList := None;
  m_data := ArbitrumContractTx.Data tx;
  m_gas := ArbitrumContractTx.Gas tx;
  m_gasPrice := ArbitrumContractTx.GasFeeCap tx;
  m_gasTipCap := 0;
  m_gasFeeCap := ArbitrumContractTx.GasFeeCap tx;
  m_value := ArbitrumContractTx.Value tx;
  m_nonce := 0;
  m_to := ArbitrumContractTx.To tx;
  m_effectiveGasPrice := fun baseFee => default (ArbitrumContractTx.GasFeeCap tx) baseFee;
  m_rawSignatureValues := (0, 0, 0)
|}.

Definition retry_methods (tx : ArbitrumRetryTx.t) : TxMethods := {|
  m_chainID := ArbitrumRetryTx.ChainId tx;
  m_accessList := None;
  m_data := ArbitrumRetryTx.Data tx;
  m_gas := ArbitrumRetryTx.Gas tx;
  m_gasPrice := ArbitrumRetryTx.GasFeeCap tx;
  m_gasTipCap := 0;
  m_gasFeeCap := ArbitrumRetryTx.GasFeeCap tx;
  m_value := ArbitrumRetryTx.Value tx;
  m_nonce := ArbitrumRetryTx.Nonce tx;
  m_to := ArbitrumRetryTx.To tx;
  m_effectiveGasPrice := fun baseFee => default (ArbitrumRetryTx.GasFeeCap tx) baseFee;
  m_rawSignatureValues := (0, 0, 0)
|}.

Definition ArbosAddress : Z := 0xa4b05.
Definition ArbRetryableTxAddress : Z := 0x6e.

Definition word (x : Z) : list Z := U256.be_bytes 32 x.

(** The call of [ArbRetryableTx.submitRetryable] that the transaction stands for. *)
Definition submit_data (tx : ArbitrumSubmitRetryableTx.t) : list Z :=
  let data :=
    word (ArbitrumSubmitRetryableTx.RequestId tx)
    ++ word (ArbitrumSubmitRetryableTx.L1BaseFee tx)
    ++ word (ArbitrumSubmitRetryableTx.DepositValue tx)
    ++ word (ArbitrumSubmitRetryableTx.RetryValue tx)
    ++ word (ArbitrumSubmitRetryableTx.GasFeeCap tx)
    ++ word (ArbitrumSubmitRetryableTx.Gas tx)
    ++ word (ArbitrumSubmitRetryableTx.MaxSubmissionFee tx)
    ++ replicate 12 0 ++ U256.be_bytes 20 (ArbitrumSubmitRetryableTx.FeeRefundAddr tx)
    ++ replicate 12 0 ++ U256.be_bytes 20 (ArbitrumSubmitRetryableTx.Beneficiary tx)
    ++ replicate 12 0 ++ U256.be_bytes 20 (default 0 (ArbitrumSubmitRetryableTx.RetryTo tx)) in
  let retryData := ArbitrumSubmitRetryableTx.RetryData tx in
  let offset := len data + 32 in
  let data := data ++ word offset ++ word (len retryData) ++ retryData in
  let extra := len retryData mod 32 in
  let data := if 0 <? extra then data ++ replicate (Z.to_nat (32 - extra)) 0 else data in
  [0xc9; 0xf9; 0x5d; 0x32] ++ data.

Definition submitRetryable_methods (tx : ArbitrumSubmitRetryableTx.t) : TxMethods := {|
  m_chainID := ArbitrumSubmitRetryableTx.ChainId tx;
  m_accessList := None;
  m_data := submit_data tx;
  m_gas := ArbitrumSubmitRetryableTx.Gas tx;
  m_gasPrice := ArbitrumSubmitRetryableTx.GasFeeCap tx;
  m_gasTipCap := 0;
  m_gasFeeCap := ArbitrumSubmitRetryableTx.GasFeeCap tx;
  m_value := 0;
  m_nonce := 0;
  m_to := Some ArbRetryableTxAddress;
  m_effectiveGasPrice := fun baseFee => default (ArbitrumSubmitRetryableTx.GasFeeCap tx) baseFee;
  m_rawSignatureValues := (0, 0, 0)
|}.

Definition deposit_methods (tx : ArbitrumDepositTx.t) : TxMethods := {|
  m_chainID := ArbitrumDepositTx.ChainId tx;
  m_accessList := None;
  m_data := [];
  m_gas := 0;
  m_gasPrice := 0;
  m_gasTipCap := 0;
  m_gasFeeCap := 0;
  m_value := ArbitrumDepositTx.Value tx;
  m_nonce := 0;
  m_to := Some (ArbitrumDepositTx.To tx);
  m_effectiveGasPrice := fun _ => 0;
  m_rawSignatureValues := (0, 0, 0)
|}.

Definition internal_methods (tx : ArbitrumInternalTx.t) : TxMethods := {|
  m_chainID := ArbitrumInternalTx.ChainId tx;
  m_accessList := None;
  m_data := ArbitrumInternalTx.Data tx;
  m_gas := 0;
  m_gasPrice := 0;
  m_gasTipCap := 0;
  m_gasFeeCap := 0;
  m_value := 0;
  m_nonce := 0;
  m_to := Some ArbosAddress;
  m_effectiveGasPrice := fun _ => 0;
  m_rawSignatureValues := (0, 0, 0)
|}.

(** [ArbitrumLegacyTxData] embeds a legacy transaction, with its methods. *)
Definition methods (d : TxData) : TxMethods :=
  match d with
  | Legacy tx => legacy_methods tx
  | AccessListed tx => accessList_methods tx
  | DynamicFee tx => dynamicFee_methods tx
  | Blob tx => blob_methods tx
  | SetCode tx => setCode_methods tx
  | Unsigned tx => unsigned_methods tx
  | Contract_ tx => contract_methods tx
  | Retry tx => retry_methods tx
  | SubmitRetryable tx => submitRetryable_methods tx
  | Deposit tx => deposit_methods tx
  | Internal tx => internal_methods tx
  | ArbLegacy tx => legacy_methods (ArbitrumLegacyTxData.LegacyTx_ tx)
  end.

Definition chainID (d : TxData) : Z := m_chainID (methods d).
Definition accessList (d : TxData) : option (list AccessTuple) := m_accessList (methods d).
Definition data (d : TxData) : list Z := m_data (methods d).
Definition gas (d : TxData) : Z := m_gas (methods d).
Definition gasPrice (d : TxData) : Z := m_gasPrice (methods d).
Definition gasTipCap (d : TxData) : Z := m_gasTipCap (methods d).
Definition gasFeeCap (d : TxData) : Z := m_gasFeeCap (methods d).
Definition value (d : TxData) : Z := m_value (methods d).
Definition nonce (d : TxData) : Z := m_nonce (methods d).
Definition to (d : TxData) : option Z := m_to (methods d).
Definition effectiveGasPrice (d : TxData) : option Z -> Z := m_effectiveGasPrice (methods d).
Definition rawSignatureValues (d : TxData) : Z * Z * Z := m_rawSignatureValues (methods d).

(** [chainID] is nil for the signers of unprotected transactions, which sign legacy ones
    only.  Words of 256 bits take the low bits; the chain id of a set-code transaction
    panics when it does not fit. *)
Definition set_legacy_signature (v r s : Z) (tx : LegacyTx.t) : LegacyTx.t :=
  LegacyTx.mk (LegacyTx.Nonce tx) (LegacyTx.GasPrice tx) (LegacyTx.Gas tx) (LegacyTx.To tx) (LegacyTx.Value tx)
    (LegacyTx.Data tx) v r s.

Definition u256 (x : Z) : Z := x mod two256.

Definition set_accessList_signature (chainID v r s : Z) (tx : AccessListTx.t) : AccessListTx.t :=
  AccessListTx.mk chainID (AccessListTx.Nonce tx) (AccessListTx.GasPrice tx) (AccessListTx.Gas tx) (AccessListTx.To tx)
        (AccessListTx.Value tx) (AccessListTx.Data tx) (AccessListTx.AccessList tx) v r s.

Definition set_dynamicFee_signature (chainID v r s : Z) (tx : DynamicFeeTx.t) : DynamicFeeTx.t :=
  DynamicFeeTx.mk chainID (DynamicFeeTx.Nonce tx) (DynamicFeeTx.GasTipCap tx) (DynamicFeeTx.GasFeeCap tx)
        (DynamicFeeTx.Gas tx) (DynamicFeeTx.To tx) (DynamicFeeTx.Value tx) (DynamicFeeTx.Data tx)
        (DynamicFeeTx.AccessList tx) v r s.

Definition set_blob_signature (chainID v r s : Z) (tx : BlobTx.t) : BlobTx.t :=
  BlobTx.mk (u256 chainID) (BlobTx.Nonce tx) (BlobTx.GasTipCap tx) (BlobTx.GasFeeCap tx) (BlobTx.Gas tx) (BlobTx.To tx)
        (BlobTx.Value tx) (BlobTx.Data tx) (BlobTx.AccessList tx) (BlobTx.BlobFeeCap tx) (BlobTx.BlobHashes tx)
        (BlobTx.Sidecar tx) (u256 v) (u256 r) (u256 s).

(** [None] is the panic. *)
Definition set_setCode_signature (chainID v r s : Z) (tx : SetCodeTx.t) : option SetCodeTx.t :=
  if two256 <=? chainID then None
  else Some (SetCodeTx.mk chainID (SetCodeTx.Nonce tx) (SetCodeTx.GasTipCap tx) (SetCodeTx.GasFeeCap tx) (SetCodeTx.Gas tx)
          (SetCodeTx.To tx) (SetCodeTx.Value tx) (SetCodeTx.Data tx) (SetCodeTx.AccessList tx) (SetCodeTx.AuthList tx)
          (u256 v) (u256 r) (u256 s)).

Definition setSignatureValues (chainID v r s : Z) (d : TxData) : option TxData :=
  match d with
  | Legacy tx => Some (Legacy (set_legacy_signature v r s tx))
  | AccessListed tx => Some (AccessListed (set_accessList_signature chainID v r s tx))
  | DynamicFee tx => Some (DynamicFee (set_dynamicFee_signature chainID v r s tx))
  | Blob tx => Some (Blob (set_blob_signature chainID v r s tx))
  | SetCode tx => tx ← set_setCode_signature chainID v r s tx; Some (SetCode tx)
  | ArbLegacy tx => Some (ArbLegacy
      (ArbitrumLegacyTxData.mk (set_legacy_signature v r s (ArbitrumLegacyTxData.LegacyTx_ tx))
        (ArbitrumLegacyTxData.HashOverride tx) (ArbitrumLegacyTxData.EffectiveGasPrice tx)
        (ArbitrumLegacyTxData.L1BlockNumber tx) (ArbitrumLegacyTxData.Sender tx)))
  | _ => Some d
  end.

Definition skipNonceChecks (d : TxData) : bool :=
  match d with
  | Contract_ _ | Retry _ | SubmitRetryable _ | Deposit _ | Internal _ => true
  | _ => false
  end.

Definition skipTransactionChecks (d : TxData) : bool :=
  match d with
  | Contract_ _ | Retry _ | SubmitRetryable _ | Deposit _ | Internal _ => true
  | _ => false
  end.

(** ** RLP *)

Definition Encode {A} (c : codec A) (a : A) : option (list Z) := EncodeVal (c_type c) (c_to c a).
Definition Decode {A} (c : codec A) (b : list Z) : result txError A :=
  match DecodeBytes 0 (c_type c) b with
  | Ok v => Ok (c_of c v)
  | Err e => Err (ErrRlp e)
  end.

Definition written (o : option (list Z)) : result txError (list Z) :=
  match o with Some b => Ok b | None => Err ErrNegativeBigInt end.

(** What reflection makes of the struct: [rlp.Encode(w, tx.inner)]. *)
Definition inner_rlp (d : TxData) : option (list Z) :=
  match d with
  | Legacy tx => Encode LegacyTx.codec_ tx
  | AccessListed tx => Encode AccessListTx.codec_ tx
  | DynamicFee tx => Encode DynamicFeeTx.codec_ tx
  | Blob tx => Encode BlobTx.codec_ tx
  | SetCode tx => Encode SetCodeTx.codec_ tx
  | Unsigned tx => Encode ArbitrumUnsignedTx.codec_ tx
  | Contract_ tx => Encode ArbitrumContractTx.codec_ tx
  | Retry tx => Encode ArbitrumRetryTx.codec_ tx
  | SubmitRetryable tx => Encode ArbitrumSubmitRetryableTx.codec_ tx
  | Deposit tx => Encode ArbitrumDepositTx.codec_ tx
  | Internal tx => Encode ArbitrumInternalTx.codec_ tx
  | ArbLegacy tx => Encode ArbitrumLegacyTxData.codec_ tx
  end.

(** [BlobTx.encode] *)
Definition blob_encode (tx : BlobTx.t) : result txError (list Z) :=
  match BlobTx.Sidecar tx with
  | None => written (Encode BlobTx.codec_ tx)
  | Some sc =>
      if Version sc =? 0 then
        written (Encode blobTxWithBlobsV0 (tx, (Blobs sc, (Commitments sc, (Proofs sc, tt)))))
      else if Version sc =? 1 then
        written (Encode blobTxWithBlobsV1 (tx, (Version sc, (Blobs sc, (Commitments sc, (Proofs sc, tt))))))
      else Err ErrUnsupportedSidecar
  end.

(** [TxData.encode]: [None] is the panic on a legacy transaction. *)
Definition inner_encode (d : TxData) : option (result txError (list Z)) :=
  match d with
  | Legacy _ => None
  | Blob tx => Some (blob_encode tx)
  | _ => Some (written (inner_rlp d))
  end.

Definition split_err {A} (r : result rlpError A) : result txError A :=
  match r with Ok a => Ok a | Err e => Err (ErrSplit e) end.

(** [BlobTx.decode]: the forms with and without a sidecar. *)
Definition blob_decode (input : list Z) : result txError BlobTx.t :=
  let! '(firstElem, _) := split_err (SplitList input) in
  let! '(firstElemKind, _, secondElem) := split_err (Split firstElem) in
  match firstElemKind with
  | List =>
      let! '(secondElemKind, _, _) := split_err (Split secondElem) in
      match secondElemKind with
      | List =>
          let! '(tx, (blobs, (commitments, (proofs, _)))) := Decode blobTxWithBlobsV0 input in
          Ok (BlobTx.set_sidecar (Some (mkSidecar 0 blobs commitments proofs)) tx)
      | _ =>
          let! '(tx, (version, (blobs, (commitments, (proofs, _))))) := Decode blobTxWithBlobsV1 input in
          if negb (version =? 1) then Err (ErrUnsupportedBlobTxVersion version)
          else Ok (BlobTx.set_sidecar (Some (mkSidecar 1 blobs commitments proofs)) tx)
      end
  | _ => Decode BlobTx.codec_ input
  end.

(** ** Transactions with their caches *)

(** The signers of [transaction_signing.go] and [arbitrum_signer.go]; the set of
    transaction types is a bitmap of two words. *)
Inductive Signer :=
| FrontierSigner
| HomesteadSigner
| EIP155Signer (chainId : Z)
| modernSigner (txtypes : Z * Z) (chainID : Z) (legacy : Signer)
| arbitrumSigner (s : Signer).

(** A size of 0 is none; [from] is the signer and the sender it gave. *)
Record Transaction := mkTransaction {
  inner : TxData;
  calldataUnits : Z;
  tx_hash : option Z;
  tx_size : Z;
  from : option (Signer * Z)
}.

(** [setDecoded] on the transaction [tx]: the content and a size that is not 0 are set; the
    other caches stay as they are. *)
Definition setDecoded (tx : Transaction) (inner : TxData) (size : Z) : Transaction :=
  mkTransaction inner (calldataUnits tx) (tx_hash tx) (if 0 <? size then size else tx_size tx) (from tx).

(** [new(Transaction)] has empty caches; its content, nil in the code, is not read before it is set. *)
Definition new_transaction (unset : TxData) : Transaction := mkTransaction unset 0 None 0 None.

Definition NewTx (inner : TxData) : Transaction := setDecoded (new_transaction inner) inner 0.

Definition Type_ (tx : Transaction) : Z := txType (inner tx).

(** [Transaction.encodeTyped] *)
Definition encodeTyped (d : TxData) : option (result txError (list Z)) :=
  r ← inner_encode d;
  Some (let! b := r in Ok (txType d :: b)).

Definition MarshalBinary (tx : Transaction) : option (result txError (list Z)) :=
  if Type_ tx =? LegacyTxType then Some (written (inner_rlp (inner tx)))
  else encodeTyped (inner tx).

(** A typed transaction is a string. *)
Definition EncodeRLP (tx : Transaction) : option (result txError (list Z)) :=
  if Type_ tx =? LegacyTxType then Some (written (inner_rlp (inner tx)))
  else
    r ← encodeTyped (inner tx);
    Some (let! b := r in written (Encode c_bytes b)).

(** [decodeTyped]: the decoder of a type, and the types that are read only where
    [arbParsing] says so. *)
Definition lift {A} (f : A -> TxData) (r : result txError A) : result txError TxData :=
  let! a := r in Ok (f a).

Definition decode_arb (ty : Z) (input : list Z) : option (result txError TxData) :=
  if ty =? ArbitrumDepositTxType then Some (lift Deposit (Decode ArbitrumDepositTx.codec_ input))
  else if ty =? ArbitrumInternalTxType then Some (lift Internal (Decode ArbitrumInternalTx.codec_ input))
  else if ty =? ArbitrumUnsignedTxType then Some (lift Unsigned (Decode ArbitrumUnsignedTx.codec_ input))
  else if ty =? ArbitrumContractTxType then Some (lift Contract_ (Decode ArbitrumContractTx.codec_ input))
  else if ty =? ArbitrumRetryTxType then Some (lift Retry (Decode ArbitrumRetryTx.codec_ input))
  else if ty =? ArbitrumSubmitRetryableTxType then
    Some (lift SubmitRetryable (Decode ArbitrumSubmitRetryableTx.codec_ input))
  else if ty =? ArbitrumLegacyTxType then Some (lift ArbLegacy (Decode ArbitrumLegacyTxData.codec_ input))
  else None.

Definition decode_eth (ty : Z) (input : list Z) : result txError TxData :=
  if ty =? AccessListTxType then lift AccessListed (Decode AccessListTx.codec_ input)
  else if ty =? DynamicFeeTxType then lift DynamicFee (Decode DynamicFeeTx.codec_ input)
  else if ty =? BlobTxType then lift Blob (blob_decode input)
  else if ty =? SetCodeTxType then lift SetCode (Decode SetCodeTx.codec_ input)
  else Err ErrTxTypeNotSupported.

Definition decodeTyped (b : list Z) (arbParsing : bool) : result txError TxData :=
  match b with
  | [] | [_] => Err errShortTypedTx
  | ty :: input =>
      match (if arbParsing then decode_arb ty input else None) with
      | Some r => r
      | None => decode_eth ty input
      end
  end.

(** Into the transaction [tx], which an error leaves as it is. *)
Definition UnmarshalBinary (tx : Transaction) (b : list Z) : result txError Transaction :=
  match b with
  | b0 :: _ =>
      if 0x7f <? b0 then
        let! data := Decode LegacyTx.codec_ b in Ok (setDecoded tx (Legacy data) (len b))
      else let! inner := decodeTyped b false in Ok (setDecoded tx inner (len b))
  | [] => let! inner := decodeTyped b false in Ok (setDecoded tx inner (len b))
  end.

(** [MaxInt] of the buffer of a payload. *)
Definition MaxBuffer : Z := 2 ^ 63 - 1.

(** On a stream of RLP values, into the transaction [tx]. *)
Definition DecodeRLP (tx : Transaction) (s : Stream) : result txError Transaction * Stream :=
  match stream_Kind s with
  | (Err e, s) => (Err (ErrRlp e), s)
  | (Ok (List, size), s) =>
      match decode_val (c_type LegacyTx.codec_) s with
      | (Ok v, s) => (Ok (setDecoded tx (Legacy (c_of LegacyTx.codec_ v)) (ListSize size)), s)
      | (Err e, s) => (Err (ErrRlp e), s)
      end
  | (Ok (Byte, _), s) => (Err errShortTypedTx, s)
  | (Ok (String, size), s) =>
      if MaxBuffer <? size then (Err (ErrBufferTooLarge size), s)
      else
        match ReadBytes size s with
        | (Ok b, s) => (let! inner := decodeTyped b true in Ok (setDecoded tx inner size), s)
        | (Err e, s) => (Err (ErrRlp e), s)
        end
  end.

(** ** Hashes *)

Section Hashes.
Context {HS : Hasher}.

(** A value that cannot be encoded adds nothing to the hash. *)
Definition rlpHash (x : option (list Z)) : Z := keccak256 (default [] x).
Definition prefixedRlpHash (prefix : Z) (x : option (list Z)) : Z := keccak256 (prefix :: default [] x).

(** What the signature hash covers: the prefix, if any, and the list that is encoded, a
    value with its codec.  The elements of a list of interfaces have the encodings of the
    fields of a struct. *)
Inductive encodable :=
| enc (A : Type) (c : codec A) (a : A).
Arguments enc {_}.
Definition encode_any (e : encodable) : option (list Z) := match e with @enc _ c a => Encode c a end.
Definition sig_list {A} (f : fields A) (a : A) : encodable := enc (c_struct f) a.

Definition legacy_sig_fields :=
  (u64_codec ,, c_big ,, u64_codec ,, to_codec ,, c_big ,, c_bytes ,, c_big ,, u64_codec ,, u64_codec ,, f_nil)%fields.
Definition accessList_sig_fields :=
  (c_big ,, u64_codec ,, c_big ,, u64_codec ,, to_codec ,, c_big ,, c_bytes ,, accessList_codec ,, f_nil)%fields.
Definition dynamicFee_sig_fields :=
  (c_big ,, u64_codec ,, c_big ,, c_big ,, u64_codec ,, to_codec ,, c_big ,, c_bytes ,, accessList_codec ,, f_nil)%fields.
Definition blob_sig_fields :=
  (c_big ,, u64_codec ,, c_u256 ,, c_u256 ,, u64_codec ,, address_codec ,, c_u256 ,, c_bytes ,, accessList_codec ,,
   c_u256 ,, c_slice hash_codec ,, f_nil)%fields.
Definition setCode_sig_fields :=
  (c_big ,, u64_codec ,, c_u256 ,, c_u256 ,, u64_codec ,, address_codec ,, c_u256 ,, c_bytes ,, accessList_codec ,,
   authList_codec ,, f_nil)%fields.

Definition legacy_sig_list (chainID : Z) (tx : LegacyTx.t) : encodable :=
  sig_list legacy_sig_fields
    (LegacyTx.Nonce tx, (LegacyTx.GasPrice tx, (LegacyTx.Gas tx, (LegacyTx.To tx, (LegacyTx.Value tx, (LegacyTx.Data tx,
      (chainID, (0, (0, tt))))))))).

Definition accessList_sig_list (chainID : Z) (tx : AccessListTx.t) : encodable :=
  sig_list accessList_sig_fields
      (chainID, (AccessListTx.Nonce tx, (AccessListTx.GasPrice tx, (AccessListTx.Gas tx, (AccessListTx.To tx,
        (AccessListTx.Value tx, (AccessListTx.Data tx, (AccessListTx.AccessList tx, tt)))))))).

Definition dynamicFee_sig_list (chainID : Z) (tx : DynamicFeeTx.t) : encodable :=
  sig_list dynamicFee_sig_fields
      (chainID, (DynamicFeeTx.Nonce tx, (DynamicFeeTx.GasTipCap tx, (DynamicFeeTx.GasFeeCap tx, (DynamicFeeTx.Gas tx,
        (DynamicFeeTx.To tx, (DynamicFeeTx.Value tx, (DynamicFeeTx.Data tx, (DynamicFeeTx.AccessList tx, tt))))))))).

Definition blob_sig_list (chainID : Z) (tx : BlobTx.t) : encodable :=
  sig_list blob_sig_fields
      (chainID, (BlobTx.Nonce tx, (BlobTx.GasTipCap tx, (BlobTx.GasFeeCap tx, (BlobTx.Gas tx, (BlobTx.To tx,
        (BlobTx.Value tx, (BlobTx.Data tx, (BlobTx.AccessList tx, (BlobTx.BlobFeeCap tx, (BlobTx.BlobHashes tx, tt))))))))))).

Definition setCode_sig_list (chainID : Z) (tx : SetCodeTx.t) : encodable :=
  sig_list setCode_sig_fields
      (chainID, (SetCodeTx.Nonce tx, (SetCodeTx.GasTipCap tx, (SetCodeTx.GasFeeCap tx, (SetCodeTx.Gas tx, (SetCodeTx.To tx,
        (SetCodeTx.Value tx, (SetCodeTx.Data tx, (SetCodeTx.AccessList tx, (SetCodeTx.AuthList tx, tt)))))))))).

Definition unsigned_sig_list (chainID : Z) (tx : ArbitrumUnsignedTx.t) : encodable :=
  enc ArbitrumUnsignedTx.codec_
      (ArbitrumUnsignedTx.mk chainID (ArbitrumUnsignedTx.From tx) (ArbitrumUnsignedTx.Nonce tx)
        (ArbitrumUnsignedTx.GasFeeCap tx) (ArbitrumUnsignedTx.Gas tx) (ArbitrumUnsignedTx.To tx)
        (ArbitrumUnsignedTx.Value tx) (ArbitrumUnsignedTx.Data tx)).

Definition contract_sig_list (chainID : Z) (tx : ArbitrumContractTx.t) : encodable :=
  enc ArbitrumContractTx.codec_
      (ArbitrumContractTx.mk chainID (ArbitrumContractTx.RequestId tx) (ArbitrumContractTx.From tx)
        (ArbitrumContractTx.GasFeeCap tx) (ArbitrumContractTx.Gas tx) (ArbitrumContractTx.To tx)
        (ArbitrumContractTx.Value tx) (ArbitrumContractTx.Data tx)).

Definition retry_sig_list (chainID : Z) (tx : ArbitrumRetryTx.t) : encodable :=
  enc ArbitrumRetryTx.codec_
      (ArbitrumRetryTx.mk chainID (ArbitrumRetryTx.Nonce tx) (ArbitrumRetryTx.From tx) (ArbitrumRetryTx.GasFeeCap tx)
        (ArbitrumRetryTx.Gas tx) (ArbitrumRetryTx.To tx) (ArbitrumRetryTx.Value tx) (ArbitrumRetryTx.Data tx)
        (ArbitrumRetryTx.TicketId tx) (ArbitrumRetryTx.RefundTo tx) (ArbitrumRetryTx.MaxRefund tx)
        (ArbitrumRetryTx.SubmissionFeeRefund tx)).

Definition submitRetryable_sig_list (chainID : Z) (tx : ArbitrumSubmitRetryableTx.t) : encodable :=
  enc ArbitrumSubmitRetryableTx.codec_
      (ArbitrumSubmitRetryableTx.mk chainID (ArbitrumSubmitRetryableTx.RequestId tx) (ArbitrumSubmitRetryableTx.From tx)
        (ArbitrumSubmitRetryableTx.L1BaseFee tx) (ArbitrumSubmitRetryableTx.DepositValue tx)
        (ArbitrumSubmitRetryableTx.GasFeeCap tx) (ArbitrumSubmitRetryableTx.Gas tx) (ArbitrumSubmitRetryableTx.RetryTo tx)
        (ArbitrumSubmitRetryableTx.RetryValue tx) (ArbitrumSubmitRetryableTx.Beneficiary tx)
        (ArbitrumSubmitRetryableTx.MaxSubmissionFee tx) (ArbitrumSubmitRetryableTx.FeeRefundAddr tx)
        (ArbitrumSubmitRetryableTx.RetryData tx)).

Definition deposit_sig_list (chainID : Z) (tx : ArbitrumDepositTx.t) : encodable :=
  enc ArbitrumDepositTx.codec_
      (ArbitrumDepositTx.mk chainID (ArbitrumDepositTx.L1RequestId tx) (ArbitrumDepositTx.From tx)
        (ArbitrumDepositTx.To tx) (ArbitrumDepositTx.Value tx)).

Definition internal_sig_list (chainID : Z) (tx : ArbitrumInternalTx.t) : encodable :=
  enc ArbitrumInternalTx.codec_
      (ArbitrumInternalTx.mk chainID (ArbitrumInternalTx.Data tx)).

(** The prefix, and the encoding of the list. *)
Definition sig_payload (chainID : Z) (d : TxData) : option Z * encodable :=
  match d with
  | Legacy tx => (None, legacy_sig_list chainID tx)
  | ArbLegacy tx => (None, legacy_sig_list chainID (ArbitrumLegacyTxData.LegacyTx_ tx))
  | AccessListed tx => (Some AccessListTxType, accessList_sig_list chainID tx)
  | DynamicFee tx => (Some DynamicFeeTxType, dynamicFee_sig_list chainID tx)
  | Blob tx => (Some BlobTxType, blob_sig_list chainID tx)
  | SetCode tx => (Some SetCodeTxType, setCode_sig_list chainID tx)
  | Unsigned tx => (Some ArbitrumUnsignedTxType, unsigned_sig_list chainID tx)
  | Contract_ tx => (Some ArbitrumContractTxType, contract_sig_list chainID tx)
  | Retry tx => (Some ArbitrumRetryTxType, retry_sig_list chainID tx)
  | SubmitRetryable tx => (Some ArbitrumSubmitRetryableTxType, submitRetryable_sig_list chainID tx)
  | Deposit tx => (Some ArbitrumRetryTxType, deposit_sig_list chainID tx)
  | Internal tx => (Some ArbitrumInternalTxType, internal_sig_list chainID tx)
  end.

Definition sigHash (chainID : Z) (d : TxData) : Z :=
  match sig_payload chainID d with
  | (None, x) => rlpHash (encode_any x)
  | (Some prefix, x) => prefixedRlpHash prefix (encode_any x)
  end.

(** [Transaction.Hash], without the cache. *)
Definition computed_hash (d : TxData) : Z :=
  match d with
  | Legacy _ => rlpHash (inner_rlp d)
  | ArbLegacy tx => ArbitrumLegacyTxData.HashOverride tx
  | _ => prefixedRlpHash (txType d) (inner_rlp d)
  end.

Definition set_hash (h : option Z) (tx : Transaction) : Transaction :=
  mkTransaction (inner tx) (calldataUnits tx) h (tx_size tx) (from tx).

Definition Hash (tx : Transaction) : Z * Transaction :=
  match tx_hash tx with
  | Some h => (h, tx)
  | None => let h := computed_hash (inner tx) in (h, set_hash (Some h) tx)
  end.

End Hashes.

(** ** Sizes *)

Definition sum_sizes (l : list (list Z)) : Z := foldl (fun sum b => u64 (sum + BytesSize b)) 0 l.

Definition encodedSize (sc : BlobTxSidecar) : Z :=
  u64 (ListSize (sum_sizes (Blobs sc)) + ListSize (sum_sizes (Commitments sc)) + ListSize (sum_sizes (Proofs sc))).

Definition BlobTxSidecar_ (d : TxData) : option BlobTxSidecar :=
  match d with Blob tx => BlobTx.Sidecar tx | _ => None end.

(** [Transaction.Size], without the cache. *)
Definition computed_size (d : TxData) : Z :=
  let size := len (default [] (inner_rlp d)) in
  let size := match BlobTxSidecar_ d with Some sc => u64 (size + ListSize (encodedSize sc)) | None => size end in
  if negb (txType d =? LegacyTxType) then u64 (size + 1) else size.

Definition set_tx_size (n : Z) (tx : Transaction) : Transaction :=
  mkTransaction (inner tx) (calldataUnits tx) (tx_hash tx) n (from tx).

Definition Size (tx : Transaction) : Z * Transaction :=
  if 0 <? tx_size tx then (tx_size tx, tx)
  else let n := computed_size (inner tx) in (n, set_tx_size n tx).

(** ** Blobs *)

Definition BlobGas (d : TxData) : Z :=
  match d with Blob tx => u64 (BlobTxBlobGasPerBlob * len (BlobTx.BlobHashes tx)) | _ => 0 end.

Definition BlobGasFeeCap (d : TxData) : option Z :=
  match d with Blob tx => Some (BlobTx.BlobFeeCap tx) | _ => None end.

Definition BlobHashes (d : TxData) : option (list Z) :=
  match d with Blob tx => Some (BlobTx.BlobHashes tx) | _ => None end.

(** The cached size is that of the transaction with its sidecar. *)
Definition WithoutBlobTxSidecar (tx : Transaction) : Transaction :=
  match inner tx with
  | Blob b =>
      match BlobTx.Sidecar b with
      | None => tx
      | Some sc =>
          let size := if tx_size tx =? 0 then 0 else u64 (tx_size tx - ListSize (encodedSize sc)) in
          mkTransaction (Blob (BlobTx.set_sidecar None b)) 0 (tx_hash tx) size (from tx)
      end
  | _ => tx
  end.

Definition WithBlobTxSidecar (sideCar : BlobTxSidecar) (tx : Transaction) : Transaction :=
  match inner tx with
  | Blob b => mkTransaction (Blob (BlobTx.set_sidecar (Some sideCar) b)) 0 (tx_hash tx) 0 (from tx)
  | _ => tx
  end.

Definition authorizations (d : TxData) : option (list SetCodeAuthorization) :=
  match d with SetCode tx => Some (SetCodeTx.AuthList tx) | _ => None end.

(** ** Prices *)

(** [Cost]; a transaction that is no blob transaction has no blob fee. *)
Definition Cost (d : TxData) : Z :=
  let total := gasPrice d * gas d in
  let total := if txType d =? BlobTxType then total + default 0 (BlobGasFeeCap d) * BlobGas d else total in
  total + value d.

(** [calcEffectiveGasTip] for a base fee that is a word: the tip and the error. *)
Definition calcEffectiveGasTip (d : TxData) (baseFee : Z) : Z * option txError :=
  if two256 <=? gasFeeCap d then (u256 (gasFeeCap d), Some ErrUint256Overflow)
  else
    let err := if gasFeeCap d <? baseFee then Some ErrGasFeeCapTooLow else None in
    let dst := u256 (gasFeeCap d - baseFee) in
    if two256 <=? gasTipCap d then (dst, Some ErrUint256Overflow)
    else (if gasTipCap d <? dst then gasTipCap d else dst, err).

Definition EffectiveGasTip (d : TxData) (baseFee : option Z) : result txError Z :=
  let base := default 0 baseFee in
  if two256 <=? base then Err ErrUint256Overflow
  else
    match calcEffectiveGasTip d base with
    | (tip, None) => Ok tip
    | (_, Some e) => Err e
    end.

(** ** The cache of the calldata units of Arbitrum

    The top 8 bits are the compression level. *)

Definition GetRawCachedCalldataUnits (tx : Transaction) : Z * Z :=
  (Z.shiftr (calldataUnits tx) 56, Z.land (calldataUnits tx) (2 ^ 56 - 1)).

Definition GetCachedCalldataUnits (requestedCompressionLevel : Z) (tx : Transaction) : option Z :=
  let '(cachedCompressionLevel, cachedUnits) := GetRawCachedCalldataUnits tx in
  if cachedUnits =? 0 then None
  else if negb (cachedCompressionLevel =? requestedCompressionLevel) then None
  else Some cachedUnits.

Definition SetCachedCalldataUnits (compressionLevel units : Z) (tx : Transaction) : Transaction :=
  let repr :=
    if (compressionLevel <? 2 ^ 8) && (units <? 2 ^ 56) then Z.lor (Z.shiftl compressionLevel 56) units else 0 in
  mkTransaction (inner tx) repr (tx_hash tx) (tx_size tx) (from tx).
