(* ===== verification/TxEncoding.v ===== *)
(** The encodings of transactions are inverse to their decoders, and canonical: what
    [UnmarshalBinary] accepts is what [MarshalBinary] writes, the Arbitrum types are read
    only inside other RLP values, and what is signed determines the transaction. *)

From stdpp Require Import base gmap list numbers option strings.
From S2P Require Import State.
From S2P Require Import Prelude Params Uint256 Rlp RlpStream RlpValues RlpCodec TxTypes Transaction.
Import U256(be_value, be_bytes, be_bytes_length, be_bytes_byte, be_value_bytes, be_value_bound,
  be_bytes_value).
Open Scope Z_scope.
Open Scope stream_scope.
Open Scope go_scope.

(** ** Codecs *)

(** The tree of a value, and its encoding when it is not too long. *)
Definition c_item {A} (c : codec A) (a : A) : item := value_item (c_type c) (c_to c a).
Definition short (x : item) : Prop := len (encode x) < two64.

Lemma Encode_item {A} (c : codec A) `{!CodecLaws c} a : c_ok c a -> short (c_item c a) ->
  Encode c a = Some (encode (c_item c a)).
Proof.
  intros Ha Hs. unfold Encode, EncodeVal. apply writes_makeBytes, write_val_writes; [apply c_wf|by apply c_to_typed|done].
Qed.

Lemma item_bytes {A} (c : codec A) `{!CodecLaws c} a : c_ok c a -> short (c_item c a) ->
  Forall is_byte (encode (c_item c a)).
Proof. intros Ha Hs. apply value_item_bytes; [by apply c_to_typed|done]. Qed.

Lemma DecodeBytes_value t v : wf_type t = true -> typed t v -> len (encode (value_item t v)) < two64 ->
  DecodeBytes 0 t (encode (value_item t v)) = Ok v.
Proof.
  intros Hw Hty Hl. pose proof (value_item_bytes t v Hty Hl) as Hb. set (b := encode _) in *.
  destruct (decode_val_complete t Hw (Reset b (len b) 0) v b []) as (s' & E & Hm).
  - by apply Reset_ready.
  - by split.
  - by rewrite Reset_input, app_nil_r.
  - apply Reset_readable.
  - apply encode_pos.
  - unfold DecodeBytes. rewrite E, (moved_input _ _ b [] Hm); [done|]. by rewrite Reset_input, app_nil_r.
Qed.

Lemma Decode_item {A} (c : codec A) `{!CodecLaws c} a : c_ok c a -> short (c_item c a) ->
  Decode c (encode (c_item c a)) = Ok a.
Proof.
  intros Ha Hs. unfold Decode, c_item. rewrite (DecodeBytes_value (c_type c) (c_to c a)).
  - by rewrite c_of_to.
  - apply c_wf.
  - by apply c_to_typed.
  - done.
Qed.

(** What is decoded is in range, and is encoded as it was. *)
Lemma Decode_canonical {A} (c : codec A) `{!CodecLaws c} `{!CanonicalLaws c} b a : Forall is_byte b -> len b < two64 ->
  Decode c b = Ok a -> c_ok c a /\ b = encode (c_item c a).
Proof.
  intros Hb Hl. unfold Decode. destruct (DecodeBytes 0 (c_type c) b) as [v|e] eqn:E; [|done]. intros [= <-].
  destruct (decode_val_sound (c_type c) c_wf) as [Hsd _].
  unfold DecodeBytes in E. destruct (decode_val _ _) as [[v'|e] s'] eqn:Ed; [|done]. destruct (input s') eqn:Ei; [|done].
  injection E as ->.
  destruct (Hsd _ _ _ (Reset_ready b 0 Hb Hl ltac:(done)) Ed) as (c0 & rest & [_ HP] & Ei0 & Hm).
  destruct (HP c_canonical) as [Hty ->]. destruct (c_typed_of v Hty) as [Hok Hto]. split; [done|].
  rewrite (moved_input _ _ _ _ Hm Ei0) in Ei. subst rest. rewrite Reset_input, app_nil_r in Ei0.
  unfold c_item. by rewrite Hto.
Qed.

(** ** Splitting encodings *)

Lemma Split_item x rest : Forall is_byte (encode x ++ rest) -> len (encode x ++ rest) < two64 ->
  exists k, Split (encode x ++ rest) = Ok (k, match x with Str s => s | Lst l => concat (map encode l) end, rest)
    /\ (k = List <-> exists l, x = Lst l).
Proof.
  intros Hb Hl. destruct x as [s|l].
  - destruct (encode_string_value s) as (k & Hk & Hn & E). exists k. split; [|split; [done|by intros [l ?]]].
    apply Split_complete; [done..| |done]. simpl. by rewrite E.
  - exists List. split; [|split; [by exists l|done]]. by apply Split_complete.
Qed.

Lemma Forall_app_l {A} (P : A -> Prop) l k : Forall P (l ++ k) -> Forall P l.
Proof. by intros [H _]%Forall_app. Qed.

(** Encodings determine the trees, also one after the other. *)
Lemma encode_prefix x : forall y r r', Forall is_byte (encode x ++ r) -> len (encode x ++ r) < two64 ->
  encode x ++ r = encode y ++ r' -> x = y /\ r = r'.
Proof.
  induction x as [s|l IH] using item_ind'; intros y r r' Hb Hl E;
    destruct (Split_item _ r Hb Hl) as (k & Ek & Hk); rewrite E in Hb, Hl;
    destruct (Split_item y r' Hb Hl) as (k' & Ek' & Hk'); rewrite <- E in Ek'; rewrite Ek in Ek';
    injection Ek' as -> Ec Er; subst r'.
  - destruct y as [s'|l']; [by subst|]. destruct (proj1 Hk (proj2 Hk' (ex_intro _ l' eq_refl))) as [? ?]. done.
  - destruct y as [s'|l']; [by destruct (proj1 Hk' (proj2 Hk (ex_intro _ l eq_refl)))|]. split; [|done]. f_equal.
    assert (Forall is_byte (concat (map encode l)) /\ len (concat (map encode l)) < two64) as [Hb1 Hl1].
    { rewrite Ec. simpl in Hb, Hl. unfold encode_list in Hb, Hl. rewrite <- app_assoc, !len_app in *.
      apply Forall_app in Hb as [_ [Hb _]%Forall_app]. split; [done|].
      pose proof (len_nonneg r). pose proof (len_nonneg (puthead 0xC0 0xF7 (len (concat (map encode l'))))). lia. }
    clear E Ek Hk Hk' Hb Hl. revert l' Ec. induction IH as [|x l Hx _ IHl]; intros [|y l'] Ec; simpl in *; [done|..].
    + symmetry in Ec. apply app_nil in Ec as [Ey _]. pose proof (encode_pos y) as Hp. by rewrite Ey in Hp.
    + apply app_nil in Ec as [Ey _]. pose proof (encode_pos x) as Hp. by rewrite Ey in Hp.
    + destruct (Hx y _ _ Hb1 Hl1 Ec) as [-> E2]. f_equal. apply IHl; [..|done].
      * by apply Forall_app in Hb1 as [_ ?].
      * rewrite len_app in Hl1. pose proof (len_nonneg (encode y)). lia.
Qed.

Lemma encode_inj x y : Forall is_byte (encode x) -> short x -> encode x = encode y -> x = y.
Proof.
  intros Hb Hs E. destruct (encode_prefix x y [] []) as [? _]; rewrite ?app_nil_r; done.
Qed.

Lemma c_item_inj {A} (c : codec A) `{!CodecLaws c} a a' : c_ok c a -> c_ok c a' -> short (c_item c a) ->
  encode (c_item c a) = encode (c_item c a') -> a = a'.
Proof.
  intros Ha Ha' Hs E. pose proof (Decode_item c a Ha Hs) as H. assert (short (c_item c a')) as Hs' by (unfold short; by rewrite <- E).
  rewrite E, (Decode_item c a' Ha' Hs') in H. by injection H.
Qed.

(** ** Transactions in range *)

Definition sidecar_ok (sc : BlobTxSidecar) : Prop :=
  (Version sc = 0 \/ Version sc = 1) /\ Forall (c_ok blob_codec) (Blobs sc)
  /\ Forall (c_ok commitment_codec) (Commitments sc) /\ Forall (c_ok commitment_codec) (Proofs sc).

Definition blob_ok (tx : BlobTx.t) : Prop :=
  c_ok BlobTx.codec_ (BlobTx.set_sidecar None tx)
  /\ match BlobTx.Sidecar tx with Some sc => sidecar_ok sc | None => True end.

Definition in_range (d : TxData) : Prop :=
  match d with
  | Legacy tx => c_ok LegacyTx.codec_ tx
  | AccessListed tx => c_ok AccessListTx.codec_ tx
  | DynamicFee tx => c_ok DynamicFeeTx.codec_ tx
  | Blob tx => blob_ok tx
  | SetCode tx => c_ok SetCodeTx.codec_ tx
  | Unsigned tx => c_ok ArbitrumUnsignedTx.codec_ tx
  | Contract_ tx => c_ok ArbitrumContractTx.codec_ tx
  | Retry tx => c_ok ArbitrumRetryTx.codec_ tx
  | SubmitRetryable tx => c_ok ArbitrumSubmitRetryableTx.codec_ tx
  | Deposit tx => c_ok ArbitrumDepositTx.codec_ tx
  | Internal tx => c_ok ArbitrumInternalTx.codec_ tx
  | ArbLegacy tx => c_ok ArbitrumLegacyTxData.codec_ tx
  end.

(** The tree of the struct; the one of a blob transaction with its sidecar. *)
Definition blob_item (tx : BlobTx.t) : item :=
  let tx0 := BlobTx.set_sidecar None tx in
  match BlobTx.Sidecar tx with
  | None => c_item BlobTx.codec_ tx0
  | Some sc =>
      if Version sc =? 0 then c_item blobTxWithBlobsV0 (tx0, (Blobs sc, (Commitments sc, (Proofs sc, tt))))
      else c_item blobTxWithBlobsV1 (tx0, (Version sc, (Blobs sc, (Commitments sc, (Proofs sc, tt)))))
  end.

Definition tx_item (d : TxData) : item :=
  match d with
  | Legacy tx => c_item LegacyTx.codec_ tx
  | AccessListed tx => c_item AccessListTx.codec_ tx
  | DynamicFee tx => c_item DynamicFeeTx.codec_ tx
  | Blob tx => blob_item tx
  | SetCode tx => c_item SetCodeTx.codec_ tx
  | Unsigned tx => c_item ArbitrumUnsignedTx.codec_ tx
  | Contract_ tx => c_item ArbitrumContractTx.codec_ tx
  | Retry tx => c_item ArbitrumRetryTx.codec_ tx
  | SubmitRetryable tx => c_item ArbitrumSubmitRetryableTx.codec_ tx
  | Deposit tx => c_item ArbitrumDepositTx.codec_ tx
  | Internal tx => c_item ArbitrumInternalTx.codec_ tx
  | ArbLegacy tx => c_item ArbitrumLegacyTxData.codec_ tx
  end.

Lemma Encode_set_sidecar sc tx : Encode BlobTx.codec_ (BlobTx.set_sidecar sc tx) = Encode BlobTx.codec_ tx.
Proof. done. Qed.

Lemma Encode_V0 tx x : Encode blobTxWithBlobsV0 (tx, x) = Encode blobTxWithBlobsV0 (BlobTx.set_sidecar None tx, x).
Proof. done. Qed.
Lemma Encode_V1 tx x : Encode blobTxWithBlobsV1 (tx, x) = Encode blobTxWithBlobsV1 (BlobTx.set_sidecar None tx, x).
Proof. done. Qed.

Lemma blob_encode_item tx : blob_ok tx -> short (blob_item tx) -> blob_encode tx = Ok (encode (blob_item tx)).
Proof.
  intros [Htx Hsc] Hs. unfold blob_encode, blob_item in *. destruct (BlobTx.Sidecar tx) as [sc|] eqn:Es.
  - destruct Hsc as ([Hv|Hv] & Hb & Hc & Hp); rewrite Hv in *; simpl Z.eqb in *; cbv iota in *.
    + rewrite Encode_V0, (Encode_item blobTxWithBlobsV0); [done| |done]. split; [exact Htx|]. by split_and!.
    + rewrite Encode_V1, (Encode_item blobTxWithBlobsV1); [done| |done]. split; [exact Htx|]. split; [done|]. by split_and!.
  - by rewrite <- (Encode_set_sidecar None tx), (Encode_item BlobTx.codec_).
Qed.

Lemma list_content l : Forall is_byte (encode (Lst l)) -> short (Lst l) ->
  Forall is_byte (concat (map encode l)) /\ len (concat (map encode l)) < two64.
Proof.
  unfold short. simpl. intros Hb Hs. pose proof (encode_list_le (concat (map encode l))). unfold encode_list in Hb.
  apply Forall_app in Hb as [_ ?]. split; [done|lia].
Qed.

Lemma SplitList_item l : Forall is_byte (encode (Lst l)) -> short (Lst l) ->
  SplitList (encode (Lst l)) = Ok (concat (map encode l), []).
Proof.
  intros Hb Hs. unfold SplitList. destruct (Split_item (Lst l) []) as (k & E & Hk); rewrite ?app_nil_r; try done.
  rewrite app_nil_r in E. rewrite E. simpl. by rewrite (proj2 Hk) by (by exists l).
Qed.

Lemma Split_items x l : Forall is_byte (concat (map encode (x :: l))) -> len (concat (map encode (x :: l))) < two64 ->
  exists k c, Split (concat (map encode (x :: l))) = Ok (k, c, concat (map encode l))
    /\ (k = List <-> exists l', x = Lst l').
Proof. intros Hb Hs. destruct (Split_item x (concat (map encode l)) Hb Hs) as (k & E & Hk). exists k. by eexists. Qed.

(** The kinds of the first two elements. *)
Lemma Split_two x y l : Forall is_byte (encode (Lst (x :: y :: l))) -> short (Lst (x :: y :: l)) ->
  exists c r k k' c' r', SplitList (encode (Lst (x :: y :: l))) = Ok (c, [])
    /\ (exists c0, Split c = Ok (k, c0, r)) /\ Split r = Ok (k', c', r')
    /\ (k = List <-> exists l', x = Lst l') /\ (k' = List <-> exists l', y = Lst l').
Proof.
  intros Hb Hs. destruct (list_content _ Hb Hs) as [Hb1 Hs1]. destruct (Split_items _ _ Hb1 Hs1) as (k & c & E1 & Hk).
  assert (Forall is_byte (concat (map encode (y :: l))) /\ len (concat (map encode (y :: l))) < two64) as [Hb2 Hs2].
  { change (concat (map encode (x :: y :: l))) with (encode x ++ concat (map encode (y :: l))) in *.
    apply Forall_app in Hb1 as [_ ?]. rewrite len_app in Hs1. pose proof (len_nonneg (encode x)). split; [done|lia]. }
  destruct (Split_items _ _ Hb2 Hs2) as (k' & c' & E2 & Hk').
  exists (concat (map encode (x :: y :: l))), (concat (map encode (y :: l))), k, k', c', (concat (map encode l)).
  split; [by apply SplitList_item|]. split; [by exists c|]. by split.
Qed.

Lemma set_sidecar_back sc tx : BlobTx.Sidecar tx = sc -> BlobTx.set_sidecar sc (BlobTx.set_sidecar None tx) = tx.
Proof. by intros <-; destruct tx. Qed.

Lemma Str_not_list s : ~ exists l, Str s = Lst l.
Proof. by intros [l ?]. Qed.

Lemma blob_decode_item tx : blob_ok tx -> short (blob_item tx) -> Forall is_byte (encode (blob_item tx)) ->
  blob_decode (encode (blob_item tx)) = Ok tx.
Proof.
  intros [Htx Hsc] Hs Hb. unfold blob_item in *. destruct (BlobTx.Sidecar tx) as [[ver bl cm pr]|] eqn:Es.
  - destruct Hsc as (Hv & Hbl & Hc & Hp). cbn [Version Blobs Commitments Proofs] in *.
    destruct Hv as [->| ->]; simpl Z.eqb in *; cbv iota in *.
    + set (v := (BlobTx.set_sidecar None tx, _)) in *.
      assert (exists l1 l2 r, c_item blobTxWithBlobsV0 v = Lst (Lst l1 :: Lst l2 :: r)) as (l1 & l2 & r & Ev) by (by do 3 eexists).
      assert (Decode blobTxWithBlobsV0 (encode (c_item blobTxWithBlobsV0 v)) = Ok v) as Ed.
      { apply (Decode_item blobTxWithBlobsV0); [|done]. split; [exact Htx|]. by split_and!. }
      rewrite Ev in *. destruct (Split_two _ _ _ Hb Hs) as (c & r0 & k & k' & c' & r' & E0 & (c0 & E1) & E2 & Hk & Hk').
      unfold blob_decode. rewrite E0. cbn [split_err result_bind]. rewrite E1, (proj2 Hk) by (by exists l1).
      cbn [split_err result_bind]. rewrite E2, (proj2 Hk') by (by exists l2). cbn [split_err result_bind]. rewrite Ed.
      subst v. cbn [result_bind]. f_equal. by apply set_sidecar_back.
    + set (v := (BlobTx.set_sidecar None tx, _)) in *.
      assert (exists l1 s2 r, c_item blobTxWithBlobsV1 v = Lst (Lst l1 :: Str s2 :: r)) as (l1 & s2 & r & Ev) by (by do 3 eexists).
      assert (Decode blobTxWithBlobsV1 (encode (c_item blobTxWithBlobsV1 v)) = Ok v) as Ed.
      { apply (Decode_item blobTxWithBlobsV1); [|done]. split; [exact Htx|]. split; [done|]. by split_and!. }
      rewrite Ev in *. destruct (Split_two _ _ _ Hb Hs) as (c & r0 & k & k' & c' & r' & E0 & (c0 & E1) & E2 & Hk & Hk').
      assert (k' <> List) as Hne by (intros ->; by apply (Str_not_list s2), Hk').
      unfold blob_decode. rewrite E0. cbn [split_err result_bind]. rewrite E1, (proj2 Hk) by (by exists l1).
      cbn [split_err result_bind]. rewrite E2. cbn [split_err result_bind]. rewrite Ed.
      subst v. cbn [result_bind]. simpl negb. cbv iota.
      rewrite (set_sidecar_back (Some (mkSidecar 1 bl cm pr)) tx) by done. by destruct k'.
  - set (v := BlobTx.set_sidecar None tx) in *.
    assert (exists s1 y r, c_item BlobTx.codec_ v = Lst (Str s1 :: y :: r)) as (s1 & y & r & Ev) by (by do 3 eexists).
    assert (Decode BlobTx.codec_ (encode (c_item BlobTx.codec_ v)) = Ok v) as Ed by (by apply (Decode_item BlobTx.codec_)).
    rewrite Ev in *. destruct (Split_two _ _ _ Hb Hs) as (c & r0 & k & k' & c' & r' & E0 & (c0 & E1) & E2 & Hk & Hk').
    assert (k <> List) as Hne by (intros ->; by apply (Str_not_list s1), Hk).
    unfold blob_decode. rewrite E0. cbn [split_err result_bind]. rewrite E1. cbn [split_err result_bind]. rewrite Ed.
    assert (v = tx) as -> by (by apply set_sidecar_back). by destruct k.
Qed.

Lemma set_sidecar_none sc tx : BlobTx.Sidecar tx = None -> BlobTx.set_sidecar None (BlobTx.set_sidecar sc tx) = tx.
Proof. destruct tx. simpl. by intros ->. Qed.

(** What is decoded as a blob transaction is in range, and is encoded as it was. *)
Lemma blob_decode_canonical b tx : Forall is_byte b -> len b < two64 -> blob_decode b = Ok tx ->
  blob_ok tx /\ b = encode (blob_item tx).
Proof.
  intros Hb Hl E. unfold blob_decode in E. apply result_bind_Ok in E as ([c rest] & E0 & E).
  apply result_bind_Ok in E as ([[k c0] r] & E1 & E).
  assert (forall tx, Decode BlobTx.codec_ b = Ok tx -> blob_ok tx /\ b = encode (blob_item tx)) as Hplain.
  { intros tx0 E'. apply Decode_canonical in E' as [Hok ->]; [|apply _..|done|done].
    pose proof (proj2 Hok) as Hn. assert (BlobTx.set_sidecar None tx0 = tx0) as Heq by (by apply (set_sidecar_none None)).
    unfold blob_ok, blob_item. by rewrite Hn, Heq. }
  destruct k; [by apply Hplain|by apply Hplain|].
  apply result_bind_Ok in E as ([[k' c'] r'] & E2 & E).
  assert (forall P : Prop, (k' = List -> P) -> (k' <> List -> P) -> P) as Hcase by (intros P; destruct k'; auto).
  apply Hcase; intros Hk'.
  - subst k'. apply result_bind_Ok in E as ([tx0 [bl [cm [pr []]]]] & E3 & E). injection E as <-.
    apply Decode_canonical in E3 as [(Hok & Hbl & Hcm & Hpr & _) ->]; [|apply _..|done|done].
    unfold blob_ok, blob_item. rewrite set_sidecar_none by apply Hok. cbn [BlobTx.Sidecar BlobTx.set_sidecar Version Blobs Commitments Proofs].
    split; [|done]. split; [exact Hok|]. split; [by left|]. by split_and!.
  - assert (exists tx0 ver bl cm pr, Decode blobTxWithBlobsV1 b = Ok (tx0, (ver, (bl, (cm, (pr, tt)))))
      /\ ver = 1 /\ tx = BlobTx.set_sidecar (Some (mkSidecar 1 bl cm pr)) tx0) as (tx0 & ver & bl & cm & pr & E3 & -> & ->).
    { destruct k'; [..|done]; apply result_bind_Ok in E as ([tx0 [ver [bl [cm [pr []]]]]] & E3 & E);
        (destruct (Z.eqb_spec ver 1) as [->|]; [|done]); simpl in E; injection E as <-; by do 5 eexists. }
    apply Decode_canonical in E3 as [(Hok & _ & Hbl & Hcm & Hpr & _) ->]; [|apply _..|done|done].
    unfold blob_ok, blob_item. rewrite set_sidecar_none by apply Hok. cbn [BlobTx.Sidecar BlobTx.set_sidecar Version Blobs Commitments Proofs].
    split; [|done]. split; [exact Hok|]. split; [by right|]. by split_and!.
Qed.

(** ** Any transaction *)

Definition is_arb (d : TxData) : bool :=
  match d with
  | Unsigned _ | Contract_ _ | Retry _ | SubmitRetryable _ | Deposit _ | Internal _ | ArbLegacy _ => true
  | _ => false
  end.

Definition is_legacy (d : TxData) : bool := match d with Legacy _ => true | _ => false end.

Lemma inner_rlp_item d : in_range d -> BlobTxSidecar_ d = None -> short (tx_item d) ->
  inner_rlp d = Some (encode (tx_item d)).
Proof.
  destruct d as [x|x|x|x|x|x|x|x|x|x|x|x]; simpl; intros Hr Hsc Hs; try (by apply Encode_item; [apply _|..]).
  unfold blob_item in *. rewrite Hsc in *. rewrite <- (Encode_set_sidecar None x).
  apply (Encode_item BlobTx.codec_); [apply Hr|done].
Qed.

Lemma inner_encode_item d : in_range d -> is_legacy d = false -> short (tx_item d) ->
  inner_encode d = Some (Ok (encode (tx_item d))).
Proof.
  intros Hr Hl Hs. assert (match d with Blob _ | Legacy _ => False | _ => True end -> inner_encode d = Some (Ok (encode (tx_item d)))) as H.
  { intros Hd. assert (inner_encode d = Some (written (inner_rlp d))) as -> by by destruct d.
    rewrite inner_rlp_item; try done. by destruct d. }
  destruct d; try (by apply H). simpl. f_equal. by apply blob_encode_item.
Qed.

Lemma blob_item_bytes tx : blob_ok tx -> short (blob_item tx) -> Forall is_byte (encode (blob_item tx)).
Proof.
  intros [Htx Hsc] Hs. unfold blob_item in *. destruct (BlobTx.Sidecar tx) as [sc|].
  - destruct Hsc as (Hv & Hbl & Hc & Hp). destruct Hv as [Hv|Hv]; rewrite Hv in *; simpl Z.eqb in *; cbv iota in *.
    + apply (item_bytes blobTxWithBlobsV0); [split; [exact Htx|by split_and!]|done].
    + apply (item_bytes blobTxWithBlobsV1); [split; [exact Htx|split; [done|by split_and!]]|done].
  - by apply (item_bytes BlobTx.codec_).
Qed.

Lemma tx_item_bytes d : in_range d -> short (tx_item d) -> Forall is_byte (encode (tx_item d)).
Proof.
  destruct d; cbn [tx_item in_range]; intros Hr Hs;
    lazymatch goal with |- context [c_item ?c _] => by apply (item_bytes c) | _ => by apply blob_item_bytes end.
Qed.

Lemma tx_item_list d : exists l, tx_item d = Lst l.
Proof.
  destruct d as [x|x|x|x|x|x|x|x|x|x|x|x]; try (by eexists). simpl. unfold blob_item.
  destruct (BlobTx.Sidecar x) as [sc|]; [destruct (_ =? _)|]; by eexists.
Qed.

(** A list starts with a byte above those of the types. *)
Lemma encode_list_head l : exists b t, encode (Lst l) = b :: t /\ 0xC0 <= b.
Proof.
  simpl. unfold encode_list, puthead. destruct (Z.ltb_spec (len (concat (map encode l))) 56) as [H|H].
  - pose proof (len_nonneg (concat (map encode l))). eexists _, _. split; [reflexivity|]. lia.
  - eexists _, _. split; [reflexivity|]. lia.
Qed.

Lemma decodeTyped_item d arb : in_range d -> is_legacy d = false -> short (tx_item d) ->
  decodeTyped (txType d :: encode (tx_item d)) arb = if negb arb && is_arb d then Err ErrTxTypeNotSupported else Ok d.
Proof.
  intros Hr Hl Hs. destruct (tx_item_list d) as [l El]. destruct (encode_list_head l) as (b & t & E & _).
  pose proof (tx_item_bytes d Hr Hs) as Hb. rewrite El in *.
  assert (decodeTyped (txType d :: encode (Lst l)) arb
    = match (if arb then decode_arb (txType d) (encode (Lst l)) else None) with
      | Some r => r | None => decode_eth (txType d) (encode (Lst l)) end) as -> by (by rewrite E).
  rewrite <- El in *. clear E El.
  assert (forall A (c : codec A) (f : A -> TxData) (a : A), Decode c (encode (tx_item d)) = Ok a -> f a = d ->
    lift f (Decode c (encode (tx_item d))) = Ok d) as Hlift by (by intros A c f a -> <-).
  assert (is_arb d = true -> decode_arb (txType d) (encode (tx_item d)) = Some (Ok d)
    /\ decode_eth (txType d) (encode (tx_item d)) = Err ErrTxTypeNotSupported) as Harb.
  { intros Ha. destruct d; try done; (split; [|done]); simpl in Hr, Hs;
      unfold decode_arb; cbn -[lift Decode tx_item encode]; f_equal;
      (eapply Hlift; [cbn [tx_item] in *; apply Decode_item; [apply _|done..]|done]). }
  assert (is_arb d = false -> decode_arb (txType d) (encode (tx_item d)) = None
    /\ decode_eth (txType d) (encode (tx_item d)) = Ok d) as Heth.
  { intros Ha. destruct d as [x|x|x|x|x|x|x|x|x|x|x|x]; try done; (split; [done|]); simpl in Hr, Hs; unfold decode_eth; cbn -[lift Decode tx_item encode blob_decode].
    - eapply Hlift; [by apply (Decode_item AccessListTx.codec_)|done].
    - eapply Hlift; [by apply (Decode_item DynamicFeeTx.codec_)|done].
    - change (tx_item (Blob x)) with (blob_item x). by rewrite blob_decode_item.
    - eapply Hlift; [by apply (Decode_item SetCodeTx.codec_)|done]. }
  destruct (is_arb d).
  - destruct (Harb eq_refl) as [H1 H2]. destruct arb; [by rewrite H1|by rewrite H2].
  - destruct (Heth eq_refl) as [H1 H2]. destruct arb; [by rewrite H1, H2|by rewrite H2].
Qed.

(** C20. [UnmarshalBinary] reads back what [MarshalBinary] writes: for every transaction of the Ethereum types whose
    fields are in range, with or without a blob sidecar, the encoding succeeds, and decoding it, into whatever
    transaction, sets the content and the cached size to the transaction and the size of the encoding, and leaves the
    other caches alone; an encoded transaction of an Arbitrum type is refused as of an unsupported type. *)
Theorem binary_roundtrip d : in_range d -> len (encode (tx_item d)) + 1 < two64 ->
  exists b, MarshalBinary (NewTx d) = Some (Ok b) /\ 0 < len b
    /\ forall tx, UnmarshalBinary tx b = (if is_arb d then Err ErrTxTypeNotSupported else Ok (setDecoded tx d (len b))).
Proof.
  intros Hr Hl. assert (short (tx_item d)) as Hs by (unfold short; lia).
  destruct (tx_item_list d) as [l El]. destruct (encode_list_head l) as (b0 & t & E & H0).
  unfold MarshalBinary. destruct (is_legacy d) eqn:Hleg.
  - destruct d as [x| | | | | | | | | | |]; try done. exists (encode (tx_item (Legacy x))).
    change (inner (NewTx (Legacy x))) with (Legacy x). change (Type_ (NewTx (Legacy x)) =? LegacyTxType) with true. cbv iota.
    rewrite inner_rlp_item by done. split; [done|]. split; [apply encode_pos|]. intros tx.
    unfold UnmarshalBinary. rewrite El, E, (proj2 (Z.ltb_lt _ _)) by lia.
    rewrite <- E, <- El. simpl tx_item. rewrite Decode_item by (apply _ || done). done.
  - exists (txType d :: encode (tx_item d)).
    assert ((Type_ (NewTx d) =? LegacyTxType) = false) as -> by by destruct d.
    change (inner (NewTx d)) with d. unfold encodeTyped. rewrite inner_encode_item by done. split; [done|].
    split; [rewrite len_cons; pose proof (encode_pos (tx_item d)); lia|]. intros tx. unfold UnmarshalBinary. assert ((0x7f <? txType d) = false) as -> by by destruct d.
    rewrite decodeTyped_item by done. simpl. by destruct (is_arb d).
Qed.

Lemma decode_eth_canonical ty b d : Forall is_byte b -> len b < two64 -> decode_eth ty b = Ok d ->
  is_arb d = false /\ is_legacy d = false /\ ty = txType d /\ in_range d /\ b = encode (tx_item d).
Proof.
  intros Hb Hl. unfold decode_eth, lift.
  destruct (Z.eqb_spec ty AccessListTxType) as [->|_];
    [|destruct (Z.eqb_spec ty DynamicFeeTxType) as [->|_];
      [|destruct (Z.eqb_spec ty BlobTxType) as [->|_]; [|destruct (Z.eqb_spec ty SetCodeTxType) as [->|_]; [|done]]]];
    intros (x & E & [= <-])%result_bind_Ok; (split; [done|]); (split; [done|]); (split; [done|]).
  - by apply (Decode_canonical AccessListTx.codec_).
  - by apply (Decode_canonical DynamicFeeTx.codec_).
  - by apply blob_decode_canonical.
  - by apply (Decode_canonical SetCodeTx.codec_).
Qed.

(** C21. Transactions have one binary encoding: a byte slice that [UnmarshalBinary] accepts, into whatever transaction,
    is what [MarshalBinary] writes for the transaction it makes, whose fields are in range, whose cached size is that of
    the slice and whose other caches are those it had; so the hash of its content, that of this encoding, is not
    malleable by its encoding, and [Hash] returns it when no other hash was cached before. *)
Theorem binary_canonical {HS : Hasher} b tx0 tx : Forall is_byte b -> len b < two64 -> UnmarshalBinary tx0 b = Ok tx ->
  in_range (inner tx) /\ tx = setDecoded tx0 (inner tx) (len b) /\ MarshalBinary tx = Some (Ok b)
  /\ (BlobTxSidecar_ (inner tx) = None ->
      computed_hash (inner tx) = keccak256 b /\ (tx_hash tx0 = None -> fst (Hash tx) = keccak256 b)).
Proof.
  intros Hb Hl E. unfold UnmarshalBinary in E.
  assert (forall d, decodeTyped b false = Ok d -> in_range d /\ MarshalBinary (setDecoded tx0 d (len b)) = Some (Ok b)
    /\ (BlobTxSidecar_ d = None -> computed_hash d = keccak256 b)) as Hty.
  { intros d Ed. unfold decodeTyped in Ed. destruct b as [|ty [|b1 bs]]; [done..|]. set (bs' := b1 :: bs) in *.
    rewrite len_cons in Hl. inversion_clear Hb as [|?? _ Hb'].
    apply decode_eth_canonical in Ed as (Ha & Hleg & -> & Hr & Ebs); [|done|lia].
    assert (short (tx_item d)) as Hs by (unfold short; rewrite <- Ebs; lia). split; [done|].
    assert (Some (Ok (txType d :: bs')) = encodeTyped d) as E1
      by (unfold encodeTyped; rewrite inner_encode_item by done; simpl; by rewrite Ebs).
    assert ((txType d =? LegacyTxType) = false) as Hne by by destruct d.
    split; [unfold MarshalBinary, Type_; simpl; by rewrite Hne|]. intros Hsc.
    assert (computed_hash d = prefixedRlpHash (txType d) (inner_rlp d)) as -> by by destruct d.
    rewrite inner_rlp_item by done. unfold prefixedRlpHash. simpl. by rewrite Ebs. }
  assert (forall d, Ok (setDecoded tx0 d (len b)) = Ok (E := txError) tx -> in_range d /\ MarshalBinary (setDecoded tx0 d (len b)) = Some (Ok b)
    /\ (BlobTxSidecar_ d = None -> computed_hash d = keccak256 b) -> in_range (inner tx) /\ tx = setDecoded tx0 (inner tx) (len b)
      /\ MarshalBinary tx = Some (Ok b) /\ (BlobTxSidecar_ (inner tx) = None ->
        computed_hash (inner tx) = keccak256 b /\ (tx_hash tx0 = None -> fst (Hash tx) = keccak256 b))) as Hfin.
  { intros d [= <-] (H1 & H2 & H3). split; [done|]. split; [done|]. split; [done|]. intros Hsc.
    specialize (H3 Hsc). split; [done|]. intros Hh. unfold Hash. cbn [setDecoded tx_hash inner]. by rewrite Hh. }
  destruct b as [|b0 bs]; [done|]. destruct (0x7f <? b0).
  - apply result_bind_Ok in E as (x & E & E'). apply (Hfin _ E').
    apply (Decode_canonical LegacyTx.codec_) in E as [Hok Eb]; [|done..].
    assert (short (tx_item (Legacy x))) as Hs by (unfold short; simpl tx_item; by rewrite <- Eb).
    assert (inner_rlp (Legacy x) = Some (b0 :: bs)) as Er by (rewrite inner_rlp_item by done; by rewrite Eb).
    split; [done|]. split; [unfold MarshalBinary; cbn [Type_ txType inner setDecoded]; simpl Z.eqb; cbv iota; by rewrite Er|].
    intros _. unfold computed_hash, rlpHash. by rewrite Er.
  - apply result_bind_Ok in E as (d & E & E'). apply (Hfin _ E'). by apply Hty.
Qed.

(** ** In a stream *)

Lemma ReadBytes_complete c s rest : ready s -> single c = false -> len c < two64 -> Forall is_byte c ->
  input s = encode_string c ++ rest -> readable (len (encode_string c)) s ->
  exists s1 s2, stream_Kind s = (Ok (String, len c), s1) /\ ReadBytes (len c) s1 = (Ok c, s2)
    /\ moved (len (encode_string c)) s s2.
Proof.
  intros Hs H1 Hl Hb Ei Hr.
  destruct (string_ahead s c rest Hs Hl Ei Hb Hr) as [(x & -> & Hx & _)|(_ & Hlen & Ei' & Hr' & Hk & Hw)].
  { simpl in H1. apply Z.ltb_ge in H1. lia. }
  destruct (content_complete s String 0 _ c rest Hs Ei' Hr' Hw) as (s2 & Hf & Hm). rewrite Hlen.
  eexists _, s2. split; [exact Hk|]. split; [|done]. unfold ReadBytes. apply sm_bind_Ok. eexists _, _.
  split; [eapply Kind_again; [apply Hs|exact Hk]|]. cbv beta iota. rewrite Z.eqb_refl. simpl negb. cbv iota.
  apply sm_bind_Ok. exists c, s2. split; [done|]. by rewrite (single_size c), H1 by done.
Qed.

Lemma ListSize_item l : short (Lst l) -> ListSize (len (concat (map encode l))) = len (encode (Lst l)).
Proof.
  unfold short. simpl. intros Hs. set (c := concat _) in *. pose proof (encode_list_le c) as Hle. pose proof (len_nonneg c).
  assert (is_u64 (len c)) as Hu by (unfold is_u64; lia).
  assert (len (encode_list c) = headsize (len c) + len c) as E by (unfold encode_list; by rewrite len_app, puthead_len).
  unfold ListSize. rewrite <- E. apply u64_small. unfold is_u64. lia.
Qed.

(** Inside other RLP values transactions of every type are read back: when what [EncodeRLP] writes for a
    transaction whose fields are in range is next in a stream, in or outside of a list, [DecodeRLP] sets the content
    and the cached size of a transaction to it and the size of its binary encoding and leaves the stream behind it. *)
Theorem rlp_roundtrip d tx s rest : in_range d -> len (encode (tx_item d)) < MaxBuffer ->
  exists b, EncodeRLP (NewTx d) = Some (Ok b) /\
    (ready s -> input s = b ++ rest -> readable (len b) s ->
     exists m s', MarshalBinary (NewTx d) = Some (Ok m) /\ DecodeRLP tx s = (Ok (setDecoded tx d (len m)), s')
       /\ moved (len b) s s').
Proof.
  intros Hr Hl. change MaxBuffer with 9223372036854775807 in Hl. assert (short (tx_item d)) as Hs by (unfold short; lia).
  destruct (tx_item_list d) as [l El]. unfold EncodeRLP, MarshalBinary. destruct (is_legacy d) eqn:Hleg.
  - destruct d as [x| | | | | | | | | | |]; try done. exists (encode (tx_item (Legacy x))).
    change (inner (NewTx (Legacy x))) with (Legacy x). change (Type_ (NewTx (Legacy x)) =? LegacyTxType) with true. cbv iota.
    rewrite inner_rlp_item by done. split; [done|]. intros Hrd Ei Hread.
    destruct (decode_val_complete (c_type LegacyTx.codec_) c_wf s (c_to LegacyTx.codec_ x) (encode (tx_item (Legacy x))) rest)
      as (s' & E & Hm); try done.
    { split; [by apply c_to_typed|done]. }
    { apply encode_pos. }
    eexists _, s'. split; [done|]. split; [|done]. unfold DecodeRLP.
    destruct (List_complete s (concat (map encode l)) rest Hrd) as (s0 & EL & _); rewrite <- ?El in *; try done.
    { pose proof (encode_list_le (concat (map encode l))). unfold short in Hs. rewrite El in Hs. simpl in Hs. lia. }
    { by rewrite Ei, El. }
    { rewrite El in Hread. exact Hread. }
    apply stream_List_Ok in EL as (s1 & Ek & _). rewrite Ek.
    rewrite (proj2 (decode_val_starts _) s _ s1 (rs_kind _ Hrd) Ek), E. cbv iota.
    rewrite c_of_to by done. rewrite ListSize_item by (by rewrite <- El). by rewrite El.
  - set (p := txType d :: encode (tx_item d)). exists (encode_string p).
    assert ((Type_ (NewTx d) =? LegacyTxType) = false) as -> by by destruct d.
    change (inner (NewTx d)) with d. unfold encodeTyped. rewrite inner_encode_item by done. cbn [mbind option_bind result_bind]. fold p.
    assert (len p = len (encode (tx_item d)) + 1) as Hlp by (unfold p; by rewrite len_cons).
    assert (Forall is_byte p) as Hb.
    { constructor; [by destruct d|]. by apply tx_item_bytes. }
    assert (single p = false) as H1.
    { apply single_long. pose proof (encode_pos (tx_item d)). lia. }
    split.
    { do 2 f_equal. unfold Encode, EncodeVal. rewrite (writes_makeBytes _ (encode_string p)); [done|]. apply writes_bytes. }
    intros Hrd Ei Hread.
    destruct (ReadBytes_complete p s rest Hrd H1) as (s1 & s2 & Ek & Er & Hm); try done.
    { lia. }
    exists p, s2. split; [done|]. split; [|done]. unfold DecodeRLP. rewrite Ek, (proj2 (Z.ltb_ge _ _)) by (change MaxBuffer with 9223372036854775807; lia).
    rewrite Er. unfold p at 1. rewrite decodeTyped_item by done. done.
Qed.

(** ** What is signed *)

Definition payload_item (e : encodable) : item := match e with @enc _ c a => c_item c a end.

Definition payload_ok (e : encodable) : Prop := match e with @enc _ c a => CodecLaws c /\ c_ok c a end.

(** The bytes that are hashed for a signature. *)
Definition signed_bytes (p : option Z * encodable) : list Z :=
  match fst p with Some prefix => [prefix] | None => [] end ++ encode (payload_item (snd p)).

Lemma sigHash_bytes {HS : Hasher} c d : payload_ok (snd (sig_payload c d)) -> short (payload_item (snd (sig_payload c d))) ->
  sigHash c d = keccak256 (signed_bytes (sig_payload c d)).
Proof.
  intros Hok Hs. unfold sigHash, signed_bytes. destruct (sig_payload c d) as [[p|] [A cd a]]; simpl in *;
    destruct Hok as [Hlaws Hok]; unfold prefixedRlpHash, rlpHash; by rewrite Encode_item.
Qed.

(** A transaction without its signature and sidecar, with its chain id replaced. *)
Definition unsigned (chainID : Z) (d : TxData) : TxData :=
  match d with
  | Legacy tx => Legacy (set_legacy_signature 0 0 0 tx)
  | ArbLegacy tx => Legacy (set_legacy_signature 0 0 0 (ArbitrumLegacyTxData.LegacyTx_ tx))
  | AccessListed tx => AccessListed
      (AccessListTx.mk chainID (AccessListTx.Nonce tx) (AccessListTx.GasPrice tx) (AccessListTx.Gas tx) (AccessListTx.To tx)
        (AccessListTx.Value tx) (AccessListTx.Data tx) (AccessListTx.AccessList tx) 0 0 0)
  | DynamicFee tx => DynamicFee
      (DynamicFeeTx.mk chainID (DynamicFeeTx.Nonce tx) (DynamicFeeTx.GasTipCap tx) (DynamicFeeTx.GasFeeCap tx)
        (DynamicFeeTx.Gas tx) (DynamicFeeTx.To tx) (DynamicFeeTx.Value tx) (DynamicFeeTx.Data tx)
        (DynamicFeeTx.AccessList tx) 0 0 0)
  | Blob tx => Blob
      (BlobTx.mk chainID (BlobTx.Nonce tx) (BlobTx.GasTipCap tx) (BlobTx.GasFeeCap tx) (BlobTx.Gas tx) (BlobTx.To tx)
        (BlobTx.Value tx) (BlobTx.Data tx) (BlobTx.AccessList tx) (BlobTx.BlobFeeCap tx) (BlobTx.BlobHashes tx) None 0 0 0)
  | SetCode tx => SetCode
      (SetCodeTx.mk chainID (SetCodeTx.Nonce tx) (SetCodeTx.GasTipCap tx) (SetCodeTx.GasFeeCap tx) (SetCodeTx.Gas tx)
        (SetCodeTx.To tx) (SetCodeTx.Value tx) (SetCodeTx.Data tx) (SetCodeTx.AccessList tx) (SetCodeTx.AuthList tx) 0 0 0)
  | Unsigned tx => Unsigned
      (ArbitrumUnsignedTx.mk chainID (ArbitrumUnsignedTx.From tx) (ArbitrumUnsignedTx.Nonce tx)
        (ArbitrumUnsignedTx.GasFeeCap tx) (ArbitrumUnsignedTx.Gas tx) (ArbitrumUnsignedTx.To tx)
        (ArbitrumUnsignedTx.Value tx) (ArbitrumUnsignedTx.Data tx))
  | Contract_ tx => Contract_
      (ArbitrumContractTx.mk chainID (ArbitrumContractTx.RequestId tx) (ArbitrumContractTx.From tx)
        (ArbitrumContractTx.GasFeeCap tx) (ArbitrumContractTx.Gas tx) (ArbitrumContractTx.To tx)
        (ArbitrumContractTx.Value tx) (ArbitrumContractTx.Data tx))
  | Retry tx => Retry
      (ArbitrumRetryTx.mk chainID (ArbitrumRetryTx.Nonce tx) (ArbitrumRetryTx.From tx) (ArbitrumRetryTx.GasFeeCap tx)
        (ArbitrumRetryTx.Gas tx) (ArbitrumRetryTx.To tx) (ArbitrumRetryTx.Value tx) (ArbitrumRetryTx.Data tx)
        (ArbitrumRetryTx.TicketId tx) (ArbitrumRetryTx.RefundTo tx) (ArbitrumRetryTx.MaxRefund tx)
        (ArbitrumRetryTx.SubmissionFeeRefund tx))
  | SubmitRetryable tx => SubmitRetryable
      (ArbitrumSubmitRetryableTx.mk chainID (ArbitrumSubmitRetryableTx.RequestId tx) (ArbitrumSubmitRetryableTx.From tx)
        (ArbitrumSubmitRetryableTx.L1BaseFee tx) (ArbitrumSubmitRetryableTx.DepositValue tx)
        (ArbitrumSubmitRetryableTx.GasFeeCap tx) (ArbitrumSubmitRetryableTx.Gas tx) (ArbitrumSubmitRetryableTx.RetryTo tx)
        (ArbitrumSubmitRetryableTx.RetryValue tx) (ArbitrumSubmitRetryableTx.Beneficiary tx)
        (ArbitrumSubmitRetryableTx.MaxSubmissionFee tx) (ArbitrumSubmitRetryableTx.FeeRefundAddr tx)
        (ArbitrumSubmitRetryableTx.RetryData tx))
  | Deposit tx => Deposit
      (ArbitrumDepositTx.mk chainID (ArbitrumDepositTx.L1RequestId tx) (ArbitrumDepositTx.From tx)
        (ArbitrumDepositTx.To tx) (ArbitrumDepositTx.Value tx))
  | Internal tx => Internal (ArbitrumInternalTx.mk chainID (ArbitrumInternalTx.Data tx))
  end.

Lemma sig_payload_ok c d : in_range d -> 0 <= c -> payload_ok (snd (sig_payload c d)).
Proof.
  destruct d as [x|x|x|x|x|x|x|x|x|x|x|x]; cbn [in_range sig_payload legacy_sig_list sig_list snd payload_ok];
    intros Hr Hc; (split; [apply _|]); simpl in Hr |- *; unfold blob_ok in Hr; simpl in Hr; intuition (try done).
Qed.

Lemma enc_inj {A} (c : codec A) `{!CodecLaws c} a a' : c_ok c a -> c_ok c a' -> short (c_item c a) ->
  c_item c a = c_item c a' -> a = a'.
Proof. intros Ha Ha' Hs E. apply (c_item_inj c); [done..|by rewrite E]. Qed.

(** What is signed determines the transaction: when the bytes hashed for the signatures of two transactions whose
    fields are in range agree, so do the chain ids they were signed for and the transactions up to their signatures,
    chain ids and sidecars; a legacy transaction in its Arbitrum envelope is signed as the legacy one. *)
Theorem signed_bytes_determine c d c' d' : in_range d -> in_range d' -> 0 <= c -> 0 <= c' ->
  short (payload_item (snd (sig_payload c d))) ->
  signed_bytes (sig_payload c d) = signed_bytes (sig_payload c' d') ->
  c = c' /\ unsigned c d = unsigned c' d'.
Proof.
  intros Hr Hr' Hc Hc' Hs E. pose proof (sig_payload_ok c d Hr Hc) as Hok. pose proof (sig_payload_ok c' d' Hr' Hc') as Hok'.
  assert (fst (sig_payload c d) = fst (sig_payload c' d')
    /\ payload_item (snd (sig_payload c d)) = payload_item (snd (sig_payload c' d'))) as [Ep Ei].
  { assert (forall c d, exists l, payload_item (snd (sig_payload c d)) = Lst l) as Hlst
      by (clear; intros c [x|x|x|x|x|x|x|x|x|x|x|x]; by eexists).
    assert (forall c d, match fst (sig_payload c d) with Some p => p < 0xC0 | None => True end) as Hp
      by (clear; intros c [x|x|x|x|x|x|x|x|x|x|x|x]; by simpl).
    assert (Forall is_byte (encode (payload_item (snd (sig_payload c d))))) as Hb.
    { destruct (snd (sig_payload c d)) as [A cd a]. destruct Hok as [? ?]. by apply item_bytes. }
    specialize (Hp c d) as H1. specialize (Hp c' d') as H2. destruct (Hlst c d) as [l El], (Hlst c' d') as [l' El'].
    unfold signed_bytes in E. rewrite El, El' in *.
    destruct (encode_list_head l) as (b & t & Eb & Hb0), (encode_list_head l') as (b' & t' & Eb' & Hb0').
    destruct (fst (sig_payload c d)), (fst (sig_payload c' d')); cbn [app] in E.
    - injection E as -> E. split; [done|]. by apply encode_inj.
    - rewrite Eb' in E. injection E as -> _. lia.
    - rewrite Eb in E. injection E as -> _. lia.
    - split; [done|]. by apply encode_inj. }
  clear E. destruct d as [x|x|x|x|x|x|x|x|x|x|x|x], d' as [y|y|y|y|y|y|y|y|y|y|y|y]; try discriminate Ep; clear Ep Hr Hr';
    cbn [sig_payload legacy_sig_list sig_list snd payload_item payload_ok] in *;
    destruct Hok as [_ Hok], Hok' as [_ Hok']; try (exfalso; clear -Ei; discriminate Ei);
    (apply enc_inj in Ei; [clear Hok Hok' Hs; cbn [unsigned]; unfold set_legacy_signature|apply _|done..]).
  all: injection Ei; clear Ei; intros; (split; [assumption|]); f_equal; f_equal; assumption.
Qed.

(** ** Sizes, prices and identifiers *)

(** Without a sidecar the size is that of the binary encoding. *)
Lemma computed_size_item d : in_range d -> BlobTxSidecar_ d = None -> len (encode (tx_item d)) + 1 < two64 ->
  computed_size d = len (encode (tx_item d)) + (if is_legacy d then 0 else 1).
Proof.
  intros Hr Hsc Hl. unfold computed_size. rewrite inner_rlp_item by (done || unfold short; lia). rewrite Hsc. simpl default.
  pose proof (len_nonneg (encode (tx_item d))).
  assert ((txType d =? LegacyTxType) = is_legacy d) as -> by by destruct d.
  destruct (is_legacy d); cbn [negb]; [lia|]. apply u64_small. unfold is_u64. lia.
Qed.

Definition sample_blob_tx (sc : option BlobTxSidecar) : TxData :=
  Blob (BlobTx.mk 1 0 1 1 21000 0 0 [] [] 1 [] sc 0 1 1).

(** The size of a transaction with a sidecar of version 1 leaves out its version byte:
    the one computed is too small, and the one left when the sidecar is taken off a
    transaction that was decoded is too large. *)
Example sidecar_v1_size :
  let d := sample_blob_tx (Some (mkSidecar 1 [] [] [])) in
  exists b tx, MarshalBinary (NewTx d) = Some (Ok b) /\ UnmarshalBinary (new_transaction d) b = Ok tx
    /\ fst (Size tx) = len b /\ fst (Size (NewTx d)) = len b - 1
    /\ fst (Size (WithoutBlobTxSidecar tx)) = computed_size (sample_blob_tx None) + 1.
Proof. eexists _, _. split; [by vm_compute|]. split; [by vm_compute|]. by vm_compute. Qed.

(** The chain id of a legacy transaction that has not been signed is not zero. *)
Example unsigned_chain_id : chainID (Legacy (LegacyTx.mk 0 1 21000 None 0 [] 0 0 0)) = (two64 - 35) / 2.
Proof. by vm_compute. Qed.

(** [deriveChainId] and [isProtectedV] on the values of EIP-155. *)
Lemma BitLen_le i n : 0 <= i -> 0 <= n -> BitLen i <= n <-> i < 2 ^ n.
Proof.
  intros Hi Hn. unfold BitLen. destruct (Z.eqb_spec i 0) as [->|]; [split; [|lia]; intros; apply Z.pow_pos_nonneg; lia|].
  rewrite Z.abs_eq by done. pose proof (Z.log2_lt_pow2 i n ltac:(lia)). lia.
Qed.

Lemma eip155_v id v : 0 < id -> v = 0 \/ v = 1 ->
  isProtectedV (v + 35 + 2 * id) = true /\ deriveChainId (v + 35 + 2 * id) = id.
Proof.
  intros Hid Hv. remember (v + 35 + 2 * id) as V eqn:HV. split.
  - unfold isProtectedV. destruct (Z.leb_spec (BitLen V) 8) as [H|]; [|done]. apply BitLen_le in H; [|lia..].
    rewrite Z.abs_eq, u64_small by (unfold is_u64; lia). rewrite !(proj2 (Z.eqb_neq _ _)) by lia. done.
  - unfold deriveChainId. destruct (Z.leb_spec (BitLen V) 64) as [H|H].
    + apply BitLen_le in H; [|lia..]. change (2 ^ 64) with two64 in H.
      rewrite Z.abs_eq, u64_small by (unfold is_u64; lia). rewrite !(proj2 (Z.eqb_neq _ _)) by lia. simpl.
      rewrite u64_small by (unfold is_u64; lia). subst V. Z.to_euclidean_division_equations. lia.
    + rewrite Z.shiftr_div_pow2 by done. subst V. change (2 ^ 1) with 2. Z.to_euclidean_division_equations. lia.
Qed.

(** Unfolds the methods of a transaction of a known type. *)
Ltac tx_methods :=
  unfold effectiveGasPrice, gasPrice, gasTipCap, gasFeeCap, chainID, rawSignatureValues in *;
  cbn [methods legacy_methods accessList_methods dynamicFee_methods blob_methods setCode_methods unsigned_methods
    contract_methods retry_methods submitRetryable_methods deposit_methods internal_methods m_effectiveGasPrice
    m_gasPrice m_gasTipCap m_gasFeeCap m_chainID m_rawSignatureValues] in *.

(** The tip and the price of a transaction agree: given a base fee, the effective tip is the smaller one of the
    tip cap and what the fee cap leaves above the base fee, it is an error exactly when the fee cap is below the base
    fee, and the sender then pays the base fee and the tip. *)
Theorem effective_tip_and_price d baseFee : in_range d -> is_u256 baseFee -> is_u256 (gasFeeCap d) -> is_u256 (gasTipCap d) ->
  match EffectiveGasTip d (Some baseFee) with
  | Ok tip => baseFee <= gasFeeCap d /\ tip = Z.min (gasTipCap d) (gasFeeCap d - baseFee)
      /\ effectiveGasPrice d (Some baseFee) = baseFee + tip
  | Err e => e = ErrGasFeeCapTooLow /\ gasFeeCap d < baseFee
  end.
Proof.
  intros Hr Hb Hf Ht. unfold EffectiveGasTip, calcEffectiveGasTip, u256. simpl default. unfold is_u256 in *.
  rewrite !(proj2 (Z.leb_gt _ _)) by tauto. destruct (Z.ltb_spec (gasFeeCap d) baseFee) as [H|H]; [done|].
  rewrite Z.mod_small by lia. split; [done|].
  assert (forall t c, (if t <? c then t else c) = Z.min t c) as Hmin by (intros t c; destruct (Z.ltb_spec t c); lia).
  rewrite Hmin. split; [done|].
  destruct d as [x|x|x|x|x|x|x|x|x|x|x|x]; clear Hr; tx_methods; unfold tip_price;
    cbn [default from_option] in *; rewrite ?Hmin; unfold Datatypes.id; lia.
Qed.

(** ** Concrete transactions *)

Definition sample_tx : TxData :=
  DynamicFee (DynamicFeeTx.mk 42161 7 1 100 21000 (Some 0x64) 5 [1; 2] [(5, [6])] 1 123 456).

Lemma sample_in_range : in_range sample_tx.
Proof. simpl. repeat split; try lia; repeat constructor; unfold is_byte; try lia; try done. Qed.

Definition sample_legacy : TxData := Legacy (LegacyTx.mk 0 1 21000 None 0 [] 0 0 0).

Lemma binary_roundtrip_witness :
  exists b, MarshalBinary (NewTx sample_tx) = Some (Ok b) /\ UnmarshalBinary (NewTx sample_legacy) b = Ok (setDecoded (NewTx sample_legacy) sample_tx (len b)).
Proof.
  destruct (binary_roundtrip sample_tx sample_in_range ltac:(by vm_compute)) as (b & E & _ & H). exists b.
  split; [exact E|exact (H (NewTx sample_legacy))].
Defined.

Lemma binary_canonical_witness :
  exists b tx, UnmarshalBinary (NewTx sample_legacy) b = Ok tx /\ MarshalBinary tx = Some (Ok b).
Proof.
  assert (exists b tx, UnmarshalBinary (NewTx sample_legacy) b = Ok tx /\ Forall is_byte b /\ len b < two64) as (b1 & tx & E & Hb & Hl).
  { eexists (DynamicFeeTxType :: encode (tx_item sample_tx)), _. split; [by vm_compute|]. split; [|by vm_compute].
    constructor; [by vm_compute|]. apply tx_item_bytes; [apply sample_in_range|by vm_compute]. }
  exists b1, tx. split; [exact E|].
  exact (proj1 (proj2 (proj2 (binary_canonical (HS := {| keccak256 l := len l |}) b1 (NewTx sample_legacy) tx Hb Hl E)))).
Defined.

Lemma rlp_roundtrip_witness :
  exists b, EncodeRLP (NewTx sample_tx) = Some (Ok b)
    /\ exists m s', DecodeRLP (NewTx sample_legacy) (Reset b (len b) 0) = (Ok (setDecoded (NewTx sample_legacy) sample_tx m), s').
Proof.
  assert (len (encode (tx_item sample_tx)) < MaxBuffer) as Hl by by vm_compute.
  destruct (rlp_roundtrip sample_tx (NewTx sample_legacy) (Reset [] 0 0) [] sample_in_range Hl) as (b & E & _). exists b. split; [exact E|].
  destruct (rlp_roundtrip sample_tx (NewTx sample_legacy) (Reset b (len b) 0) [] sample_in_range Hl) as (b' & E' & H). rewrite E in E'. injection E' as <-.
  assert (Forall is_byte b /\ len b < two64) as [Hb Hb'].
  { vm_compute in E. injection E as <-. split; [repeat constructor; unfold is_byte; lia|by vm_compute]. }
  destruct H as (m & s' & _ & D & _); [|rewrite Reset_input, app_nil_r; reflexivity|apply Reset_readable|].
  { clear E. apply Reset_ready; [exact Hb|exact Hb'|by vm_compute]. }
  exists (len m), s'. exact D.
Defined.

Definition sample_tx' : TxData :=
  DynamicFee (DynamicFeeTx.mk 1 7 1 100 21000 (Some 0x64) 5 [1; 2] [(5, [6])] 0 77 88).

Lemma signed_bytes_determine_witness :
  42161 = 42161 /\ unsigned 42161 sample_tx = unsigned 42161 sample_tx'.
Proof.
  assert (in_range sample_tx') as Hr by (simpl; repeat split; try lia; repeat constructor; unfold is_byte; try lia; try done).
  apply (signed_bytes_determine 42161 sample_tx 42161 sample_tx' sample_in_range Hr); [lia|lia|by vm_compute|reflexivity].
Defined.

Lemma effective_tip_and_price_witness :
  EffectiveGasTip sample_tx (Some 60) = Ok 1 /\ effectiveGasPrice sample_tx (Some 60) = 60 + 1.
Proof.
  pose proof (effective_tip_and_price sample_tx 60 sample_in_range ltac:(by vm_compute) ltac:(by vm_compute) ltac:(by vm_compute)) as H.
  destruct (EffectiveGasTip sample_tx (Some 60)) as [tip|] eqn:E; [|vm_compute in E; discriminate E].
  destruct H as (_ & Ht & Hp). vm_compute in Ht. subst tip. split; [reflexivity|exact Hp].
Defined.
