(* ===== verification/TrieKeys.v ===== *)
(** The three encodings of trie keys, [trie/encoding.go].

    A key is a list of bytes; in HEX encoding each element is a nibble, and 16 at the end
    is the terminator.  [None] is an index out of range. *)

From stdpp Require Import base list numbers option.
From S2P Require Import Prelude.
Open Scope Z_scope.

Definition hasTerm (s : list Z) : bool := match list.last s with Some x => x =? 16 | None => false end.

(** [a<<4 | b] on bytes. *)
Definition join_nibbles (a b : Z) : Z := Z.lor (Z.shiftl a 4 mod 256) b.

(** The bytes from [bytes] on are overwritten. *)
Fixpoint decodeNibbles (nibbles bytes : list Z) : option (list Z) :=
  match nibbles, bytes with
  | [], _ => Some bytes
  | a :: b :: nibbles, _ :: bytes => cons (join_nibbles a b) <$> decodeNibbles nibbles bytes
  | _, _ => None
  end.

Definition hexToCompact (hex : list Z) : option (list Z) :=
  let terminator := if hasTerm hex then 1 else 0 in
  let hex := if hasTerm hex then removelast hex else hex in
  let buf := replicate (length hex / 2) 0 in
  let buf0 := Z.shiftl terminator 5 in
  if Nat.odd (length hex) then
    match hex with
    | h :: hex => cons (Z.lor (Z.lor buf0 (Z.shiftl 1 4)) h) <$> decodeNibbles hex buf
    | [] => None
    end
  else cons buf0 <$> decodeNibbles hex buf.

Fixpoint keybytes_nibbles (str : list Z) : list Z :=
  match str with
  | [] => []
  | b :: str => b / 16 :: b mod 16 :: keybytes_nibbles str
  end.
Definition keybytesToHex (str : list Z) : list Z := keybytes_nibbles str ++ [16].

(** [dst] without the part the nibbles overwrite is not returned. *)
Definition writeHexKey (dst key : list Z) : option (list Z) :=
  match key with
  | [] => None
  | _ => if (length dst <? 2 * length key)%nat then None else Some (keybytes_nibbles key)
  end.

Definition compactToHex (compact : list Z) : list Z :=
  match compact with
  | [] => compact
  | _ =>
      let base := keybytesToHex compact in
      let base := if default 0 (base !! 0%nat) <? 2 then removelast base else base in
      let chop := 2 - Z.land (default 0 (base !! 0%nat)) 1 in
      drop (Z.to_nat chop) base
  end.

Definition hexToKeybytes (hex : list Z) : option (list Z) :=
  let hex := if hasTerm hex then removelast hex else hex in
  if Nat.odd (length hex) then None
  else decodeNibbles hex (replicate (length hex / 2) 0).

(** The loop writes position [bi] after it has read [ni] and [ni + 1]. *)
Fixpoint compact_loop (fuel : nat) (hexLen bi ni : nat) (hex : list Z) : option (list Z) :=
  match fuel with
  | O => None
  | S fuel =>
      if (ni <? hexLen)%nat then
        a ← hex !! ni;
        b ← hex !! S ni;
        if (bi <? length hex)%nat then
          compact_loop fuel hexLen (S bi) (S (S ni)) (<[bi := join_nibbles a b]> hex)
        else None
      else Some hex
  end.

Definition hexToCompactInPlace (hex : list Z) : option (list Z) :=
  let term := hasTerm hex in
  let firstByte := if term then Z.shiftl 1 5 else 0 in
  let hexLen := if term then (length hex - 1)%nat else length hex in
  let odd := Nat.odd hexLen in
  firstByte ← (if odd then h ← hex !! 0%nat; Some (Z.lor (Z.lor firstByte (Z.shiftl 1 4)) h)
               else Some firstByte);
  hex ← compact_loop (S hexLen) hexLen 1 (if odd then 1 else 0)%nat hex;
  if (0 <? length hex)%nat then Some (take (hexLen / 2 + 1) (<[0%nat := firstByte]> hex)) else None.

Fixpoint prefixLen (a b : list Z) : nat :=
  match a, b with
  | x :: a, y :: b => if x =? y then S (prefixLen a b) else 0
  | _, _ => 0
  end.

(** ** Valid keys *)

Definition is_nibble (x : Z) : Prop := 0 <= x < 16.

(** Nibbles with an optional terminator at the end. *)
Definition nibbles_of (hex : list Z) : list Z := if hasTerm hex then removelast hex else hex.
Definition hex_key (hex : list Z) : Prop := Forall is_nibble (nibbles_of hex).

Lemma hasTerm_snoc l x : hasTerm (l ++ [x]) = (x =? 16).
Proof. unfold hasTerm. by rewrite last_snoc. Qed.

Lemma hasTerm_nibbles l : Forall is_nibble l -> hasTerm l = false.
Proof.
  intros Hl. unfold hasTerm. destruct (list.last l) as [x|] eqn:E; [|done].
  apply last_Some in E as [l' ->]. apply Forall_app in Hl as [_ Hx]. inversion_clear Hx as [|? ? H _].
  unfold is_nibble in H. apply Z.eqb_neq. lia.
Qed.

Lemma hasTerm_split hex : hasTerm hex = true -> hex = removelast hex ++ [16].
Proof.
  unfold hasTerm. destruct (list.last hex) as [x|] eqn:E; [|done]. apply last_Some in E as [l ->].
  intros ->%Z.eqb_eq. by rewrite removelast_last.
Qed.

Lemma hex_key_cases hex : hex_key hex ->
  exists l, Forall is_nibble l /\ nibbles_of hex = l /\
    (hex = l /\ hasTerm hex = false \/ hex = l ++ [16] /\ hasTerm hex = true).
Proof.
  unfold hex_key, nibbles_of. intros H. destruct (hasTerm hex) eqn:E.
  - apply hasTerm_split in E as E'. exists (removelast hex). auto.
  - exists hex. auto.
Qed.

Lemma join_nibbles_arith a b : is_nibble a -> is_nibble b -> join_nibbles a b = a * 16 + b.
Proof.
  unfold is_nibble, join_nibbles. intros Ha Hb.
  rewrite Z.shiftl_mul_pow2, Z.mod_small by lia.
  change (2 ^ 4) with 16. assert (Z.land (a * 16) b = 0) as H0.
  { apply Z.bits_inj'. intros n Hn. rewrite Z.land_spec, Z.bits_0. destruct (Z.lt_ge_cases n 4).
    - change 16 with (2 ^ 4). by rewrite Z.mul_pow2_bits_low.
    - replace b with (b mod 2 ^ 4) by (apply Z.mod_small; lia).
      by rewrite Z.mod_pow2_bits_high, andb_false_r. }
  by rewrite <- Z.lxor_lor, Z.add_nocarry_lxor.
Qed.

Lemma join_div_mod b : is_byte b -> join_nibbles (b / 16) (b mod 16) = b.
Proof. intros Hb. unfold is_byte in Hb. rewrite join_nibbles_arith; unfold is_nibble; Z.to_euclidean_division_equations; lia. Qed.

Lemma keybytes_nibbles_ok k : Forall is_byte k -> Forall is_nibble (keybytes_nibbles k).
Proof.
  induction 1 as [|b k Hb _ IH]; simpl; [constructor|]. unfold is_byte in Hb.
  repeat constructor; try done; unfold is_nibble; Z.to_euclidean_division_equations; lia.
Qed.

Lemma keybytes_nibbles_length k : length (keybytes_nibbles k) = (2 * length k)%nat.
Proof. induction k as [|b k IH]; simpl; lia. Qed.

Lemma decodeNibbles_keybytes k n : Forall is_byte k ->
  decodeNibbles (keybytes_nibbles k) (replicate (length k + n) 0) = Some (k ++ replicate n 0).
Proof.
  induction 1 as [|b k Hb _ IH]; simpl; [by destruct n|]. rewrite IH. simpl. by rewrite join_div_mod.
Qed.

(** Every even list of nibbles is the nibbles of its bytes. *)
Lemma even_nibbles l : Forall is_nibble l -> Nat.odd (length l) = false ->
  exists k, Forall is_byte k /\ l = keybytes_nibbles k.
Proof.
  remember (length l) as n eqn:En. revert l En.
  induction (lt_wf n) as [n _ IH]. intros [|a [|b l]] En Hl Ho; [by exists []|by subst|].
  inversion_clear Hl as [|? ? Ha Hl']. inversion_clear Hl' as [|? ? Hb Hl].
  destruct (IH (length l) ltac:(simpl in En; lia) l eq_refl Hl) as (k & Hk & ->); [by subst|].
  exists (a * 16 + b :: k). unfold is_nibble in *. split; [constructor; [unfold is_byte; lia|done]|].
  simpl. f_equal; [|f_equal]; Z.to_euclidean_division_equations; lia.
Qed.

Definition flag (term : bool) : Z := if term then 1 else 0.

(** What [hexToCompact] returns, by the parity of the key. *)
Lemma hexToCompact_even (term : bool) k : Forall is_byte k ->
  hexToCompact (keybytes_nibbles k ++ (if term then [16] else [])) = Some (32 * flag term :: k).
Proof.
  intros Hk. pose proof (keybytes_nibbles_ok k Hk) as Hn. unfold hexToCompact.
  assert (Nat.odd (length (keybytes_nibbles k)) = false) as Ho
    by (rewrite keybytes_nibbles_length; by rewrite Nat.odd_mul).
  assert (length (keybytes_nibbles k) / 2 = length k + 0)%nat as Hd
    by (rewrite keybytes_nibbles_length; rewrite Nat.mul_comm, Nat.div_mul; lia).
  pose proof (decodeNibbles_keybytes k 0 Hk) as Hdec. rewrite app_nil_r in Hdec.
  destruct term; [rewrite hasTerm_snoc, removelast_last|rewrite app_nil_r, hasTerm_nibbles by done];
    cbn [Z.eqb Pos.eqb]; by rewrite Ho, Hd, Hdec.
Qed.

Lemma hexToCompact_odd (term : bool) h k : is_nibble h -> Forall is_byte k ->
  hexToCompact (h :: keybytes_nibbles k ++ (if term then [16] else [])) = Some (32 * flag term + 16 + h :: k).
Proof.
  intros Hh Hk. pose proof (keybytes_nibbles_ok k Hk) as Hn.
  assert (Forall is_nibble (h :: keybytes_nibbles k)) as Hhn by by constructor. unfold hexToCompact.
  assert (Nat.odd (length (h :: keybytes_nibbles k)) = true) as Ho.
  { change (Nat.odd (S (length (keybytes_nibbles k))) = true). rewrite Nat.odd_succ, keybytes_nibbles_length.
    apply Nat.even_mul. }
  assert (length (h :: keybytes_nibbles k) / 2 = length k + 0)%nat as Hd.
  { change (S (length (keybytes_nibbles k)) / 2 = length k + 0)%nat. rewrite keybytes_nibbles_length.
    replace (S (2 * length k)) with (1 + length k * 2)%nat by lia. rewrite Nat.div_add by lia. simpl. lia. }
  pose proof (decodeNibbles_keybytes k 0 Hk) as Hdec. rewrite app_nil_r in Hdec.
  rewrite app_comm_cons.
  assert (forall f, f = 0 \/ f = 1 -> Z.lor (Z.lor (Z.shiftl f 5) (Z.shiftl 1 4)) h = 32 * f + 16 + h) as Hl.
  { intros f [->| ->]; [change (Z.lor (Z.shiftl 0 5) (Z.shiftl 1 4)) with (Z.shiftl 1 4 mod 256)
      |change (Z.lor (Z.shiftl 1 5) (Z.shiftl 1 4)) with (Z.shiftl 3 4 mod 256)];
      change (Z.lor (Z.shiftl ?a 4 mod 256) h) with (join_nibbles a h);
      rewrite join_nibbles_arith by (unfold is_nibble in *; lia); lia. }
  destruct term; [rewrite hasTerm_snoc, removelast_last|rewrite app_nil_r, hasTerm_nibbles by done];
    cbn [Z.eqb Pos.eqb]; rewrite Ho, Hd, Hdec; cbn [fmap option_fmap option_map flag]; f_equal; f_equal;
    apply Hl; auto.
Qed.

(** Every hex key is one of the four forms. *)
Lemma hex_key_form hex : hex_key hex ->
  exists (term : bool) (k : list Z), Forall is_byte k /\
    let tail := if term then [16] else [] in
    (hex = keybytes_nibbles k ++ tail \/ exists h, is_nibble h /\ hex = h :: keybytes_nibbles k ++ tail).
Proof.
  intros (l & Hl & _ & Hc)%hex_key_cases.
  assert (exists term : bool, hex = l ++ (if term then [16] else [])) as (term & ->).
  { destruct Hc as [[-> _]|[-> _]]; [exists false; by rewrite app_nil_r|by exists true]. }
  destruct (Nat.odd (length l)) eqn:Ho.
  - destruct l as [|h l]; [done|]. inversion_clear Hl as [|? ? Hh Hl'].
    assert (Nat.odd (length l) = false) as Ho'
      by (change (Nat.odd (S (length l)) = true) in Ho; rewrite Nat.odd_succ in Ho; rewrite <- Nat.negb_even, Ho; done).
    destruct (even_nibbles l Hl' Ho') as (k & Hk & ->). exists term, k. split; [done|]. right. by exists h.
  - destruct (even_nibbles l Hl Ho) as (k & Hk & ->). exists term, k. split; [done|]. by left.
Qed.

(** A compact key: a flag nibble below four, and a zero nibble after an even one. *)
Definition compact_key (c : list Z) : Prop :=
  match c with
  | x :: k => 0 <= x < 64 /\ ((x / 16) mod 2 = 0 -> x mod 16 = 0) /\ Forall is_byte k
  | [] => False
  end.

Lemma compactToHex_flags (term odd : bool) h k : is_nibble h -> Forall is_byte k ->
  compactToHex (32 * flag term + 16 * flag odd + h :: k)
  = (if odd then [h] else []) ++ keybytes_nibbles k ++ (if term then [16] else []).
Proof.
  intros Hh Hk. unfold is_nibble in Hh. unfold compactToHex, keybytesToHex. simpl keybytes_nibbles.
  assert ((32 * flag term + 16 * flag odd + h) / 16 = 2 * flag term + flag odd) as ->
    by (destruct term, odd; simpl; Z.to_euclidean_division_equations; lia).
  assert ((32 * flag term + 16 * flag odd + h) mod 16 = h) as ->
    by (destruct term, odd; simpl; Z.to_euclidean_division_equations; lia).
  rewrite <- !app_comm_cons. destruct term; simpl lookup.
  - destruct odd; simpl; rewrite ?app_nil_r; done.
  - rewrite (app_comm_cons _ _ h), (app_comm_cons _ _ (2 * flag false + flag odd)), removelast_last.
    destruct odd; simpl; rewrite ?app_nil_r, ?removelast_last; by destruct (keybytes_nibbles k).
Qed.

Lemma hexToCompact_form (hex : list Z) : hex_key hex ->
  exists (term odd : bool) h k, is_nibble h /\ Forall is_byte k /\ (odd = false -> h = 0)
    /\ hex = (if odd then [h] else []) ++ keybytes_nibbles k ++ (if term then [16] else [])
    /\ hexToCompact hex = Some (32 * flag term + 16 * flag odd + h :: k).
Proof.
  intros (term & k & Hk & [->|(h & Hh & ->)])%hex_key_form.
  - exists term, false, 0, k. split; [unfold is_nibble; lia|]. split; [done|]. split; [done|]. split; [done|].
    rewrite hexToCompact_even by done. simpl. repeat f_equal. lia.
  - exists term, true, h, k. split; [done|]. split; [done|]. split; [done|]. split; [done|].
    by rewrite hexToCompact_odd.
Qed.

(** ** In place *)

Fixpoint pairs (l : list Z) : list Z :=
  match l with
  | a :: b :: l => join_nibbles a b :: pairs l
  | _ => []
  end.

Lemma pairs_decode m l : length l = (2 * m)%nat -> decodeNibbles l (replicate m 0) = Some (pairs l).
Proof.
  revert l. induction m as [|m IH]; intros [|a [|b l]] Hl; simpl in *; try lia; [done|].
  by rewrite IH by lia.
Qed.

Lemma pairs_length m l : length l = (2 * m)%nat -> length (pairs l) = m.
Proof.
  revert l. induction m as [|m IH]; intros [|a [|b l]] Hl; simpl in *; try lia. rewrite IH; lia.
Qed.

Lemma compact_loop_spec m fuel bi ni hex :
  (m < fuel)%nat -> (bi <= S ni)%nat -> (ni + 2 * m <= length hex)%nat ->
  exists hex', compact_loop fuel (ni + 2 * m) bi ni hex = Some hex' /\ length hex' = length hex /\
    take (bi + m) hex' = take bi hex ++ pairs (take (2 * m) (drop ni hex)).
Proof.
  revert fuel bi ni hex. induction m as [|m IH]; intros fuel bi ni hex Hf Hb Hl; (destruct fuel as [|fuel]; [lia|]).
  - exists hex. cbn [compact_loop]. replace (ni <? ni + 2 * 0)%nat with false by (symmetry; apply Nat.ltb_ge; lia).
    rewrite Nat.add_0_r. simpl. by rewrite app_nil_r.
  - cbn [compact_loop]. replace (ni <? ni + 2 * S m)%nat with true by (symmetry; apply Nat.ltb_lt; lia).
    destruct (lookup_lt_is_Some_2 hex ni ltac:(lia)) as [a Ha].
    destruct (lookup_lt_is_Some_2 hex (S ni) ltac:(lia)) as [b Hbb]. rewrite Ha, Hbb. cbn [mbind option_bind].
    replace (bi <? length hex)%nat with true by (symmetry; apply Nat.ltb_lt; lia).
    destruct (IH fuel (S bi) (S (S ni)) (<[bi := join_nibbles a b]> hex)) as (hex' & E & El & Et);
      [lia..|rewrite length_insert; lia|].
    replace (ni + 2 * S m)%nat with (S (S ni) + 2 * m)%nat by lia. exists hex'. split; [done|].
    rewrite length_insert in El. split; [done|].
    replace (bi + S m)%nat with (S bi + m)%nat by lia. rewrite Et, drop_insert_lt by lia.
    rewrite (take_S_r _ bi (join_nibbles a b)) by (apply list_lookup_insert_eq; lia).
    rewrite take_insert_ge by lia. rewrite <- app_assoc. f_equal.
    rewrite (drop_S hex a ni Ha), (drop_S hex b (S ni) Hbb).
    replace (2 * S m)%nat with (S (S (2 * m))) by lia. done.
Qed.

Lemma hexToCompactInPlace_eq hex : hex <> [] -> hexToCompactInPlace hex = hexToCompact hex.
Proof.
  intros Hne. unfold hexToCompactInPlace, hexToCompact.
  set (l := if hasTerm hex then removelast hex else hex).
  assert (exists tail, hex = l ++ tail) as (tail & Et).
  { unfold l. destruct (hasTerm hex) eqn:E; [exists [16]; by apply hasTerm_split|exists []; by rewrite app_nil_r]. }
  assert ((if hasTerm hex then (length hex - 1)%nat else length hex) = length l) as ->.
  { unfold l. destruct (hasTerm hex) eqn:E; [|done]. rewrite (hasTerm_split hex E) at 1.
    rewrite length_app. simpl. lia. }
  assert ((if hasTerm hex then Z.shiftl 1 5 else 0) = Z.shiftl (if hasTerm hex then 1 else 0) 5) as ->
    by by destruct (hasTerm hex).
  set (buf0 := Z.shiftl (if hasTerm hex then 1 else 0) 5). clearbody l buf0.
  assert (0 < length hex)%nat as Hpos by (destruct hex; [done|simpl; lia]).
  pose proof (Nat.div_mod_eq (length l) 2) as Hdiv. set (m := (length l / 2)%nat) in *.
  assert (length l <= length hex)%nat as Hle by (rewrite Et, length_app; lia).
  assert (forall first hex' rest, (m < length hex)%nat -> length hex' = length hex ->
    take (1 + m) hex' = take 1 hex ++ rest ->
    (if (0 <? length hex')%nat then Some (take (m + 1) (<[0%nat:=first]> hex')) else None)
    = Some (first :: rest)) as Hfin.
  { intros first hex' rest Hm El Etk. rewrite (proj2 (Nat.ltb_lt _ _)) by lia. f_equal.
    destruct hex' as [|x hex']; [simpl in El; lia|]. destruct hex as [|y hex]; [done|].
    replace (m + 1)%nat with (S m) by lia. simpl in *. by simplify_eq. }
  destruct (Nat.odd (length l)) eqn:Ho.
  - assert (length l mod 2 = 1)%nat as Hmod.
    { apply Nat.odd_spec in Ho as [q ->]. rewrite Nat.add_comm, Nat.mul_comm, Nat.Div0.mod_add. done. }
    destruct l as [|h l]; [simpl in Hmod; done|]. simpl length in Hdiv, Hmod, Hle.
    rewrite Et at 1. simpl lookup. cbn [mbind option_bind].
    destruct (compact_loop_spec m (S (length (h :: l))) 1 1 hex) as (hex' & E & El & Etk); [simpl; lia..|].
    replace (length (h :: l)) with (1 + 2 * m)%nat at 2 by (simpl; lia). rewrite E. cbn [mbind option_bind].
    assert (take (2 * m) (drop 1 hex) = l) as Edrop.
    { rewrite Et. change (drop 1 ((h :: l) ++ tail)) with (l ++ tail). rewrite take_app_le by lia. apply take_ge. lia. }
    rewrite Edrop in Etk. rewrite (Hfin _ _ _ ltac:(lia) El Etk).
    by rewrite (pairs_decode m) by lia.
  - assert (length l mod 2 = 0)%nat as Hmod.
    { rewrite <- Nat.negb_even in Ho. apply negb_false_iff, Nat.even_spec in Ho as [q ->].
      by rewrite Nat.mul_comm, Nat.Div0.mod_mul. }
    cbn [mbind option_bind].
    destruct (compact_loop_spec m (S (length l)) 1 0 hex) as (hex' & E & El & Etk); [lia..|].
    replace (length l) with (0 + 2 * m)%nat at 2 by lia. rewrite E. cbn [mbind option_bind].
    assert (take (2 * m) (drop 0 hex) = l) as Edrop.
    { rewrite Et, drop_0. rewrite take_app_le by lia. apply take_ge. lia. }
    rewrite Edrop in Etk. rewrite (Hfin _ _ _ ltac:(lia) El Etk).
    by rewrite (pairs_decode m) by lia.
Qed.

Lemma prefixLen_le a b : (prefixLen a b <= length a)%nat /\ (prefixLen a b <= length b)%nat.
Proof.
  revert b. induction a as [|x a IH]; intros [|y b]; simpl; try lia. case_match; [|lia].
  specialize (IH b). lia.
Qed.

Lemma prefixLen_take a b : take (prefixLen a b) a = take (prefixLen a b) b.
Proof.
  revert b. induction a as [|x a IH]; intros [|y b]; simpl; try done.
  destruct (Z.eqb_spec x y) as [->|]; [|done]. simpl. by rewrite IH.
Qed.

Lemma prefixLen_differ a b x y :
  a !! prefixLen a b = Some x -> b !! prefixLen a b = Some y -> x <> y.
Proof.
  revert b. induction a as [|x' a IH]; intros [|y' b]; simpl; try done.
  destruct (Z.eqb_spec x' y') as [->|]; [apply IH|]. simpl. intros. by simplify_eq.
Qed.

(** ** What the encodings promise *)

(** HEX and COMPACT encoding are two forms of the same keys: [compactToHex] undoes
    [hexToCompact] on every list of nibbles with an optional terminator, and
    [hexToCompact] undoes [compactToHex] on every compact key; the two functions are
    inverse bijections. *)
Theorem compact_roundtrip :
  (forall hex, hex_key hex -> exists c, hexToCompact hex = Some c /\ compact_key c /\ compactToHex c = hex)
  /\ (forall c, compact_key c -> hex_key (compactToHex c) /\ hexToCompact (compactToHex c) = Some c).
Proof.
  split.
  - intros hex (term & odd & h & k & Hh & Hk & H0 & -> & E)%hexToCompact_form. eexists. split; [exact E|].
    split; [|by apply compactToHex_flags]. unfold is_nibble in Hh. simpl.
    split; [destruct term, odd; simpl; lia|]. split; [|done].
    destruct odd; [|rewrite H0 by done]; destruct term; simpl; Z.to_euclidean_division_equations; lia.
  - intros [|x k]; [done|]. intros (Hx & Ho & Hk). set (h := x mod 16).
    assert (exists term odd : bool, x = 32 * flag term + 16 * flag odd + h) as (term & odd & Ex).
    { exists (32 <=? x), (Z.odd (x / 16)).
      pose proof (Zmod_odd (x / 16)) as Hodd. unfold flag, h.
      destruct (Z.leb_spec 32 x), (Z.odd (x / 16)); Z.to_euclidean_division_equations; lia. }
    assert (is_nibble h) as Hh by (unfold h, is_nibble; apply Z.mod_pos_bound; lia).
    assert (odd = false -> h = 0) as H0.
    { intros ->. apply Ho. rewrite Ex. unfold is_nibble in Hh. destruct term; simpl;
        Z.to_euclidean_division_equations; lia. }
    clearbody h. subst x. rewrite compactToHex_flags by done. pose proof (keybytes_nibbles_ok k Hk) as Hn.
    split.
    + unfold hex_key, nibbles_of. rewrite app_assoc.
      assert (Forall is_nibble ((if odd then [h] else []) ++ keybytes_nibbles k)) as Hf
        by (apply Forall_app; split; [destruct odd; [by apply Forall_singleton|constructor]|done]).
      destruct term; [rewrite hasTerm_snoc, removelast_last|rewrite app_nil_r, hasTerm_nibbles]; done.
    + destruct odd; simpl app; [by rewrite hexToCompact_odd by done|].
      rewrite hexToCompact_even by done. rewrite H0 by done. simpl. repeat f_equal. lia.
Qed.

(** Compacting a key in its own buffer, where every byte written overwrites nibbles
    already read, gives what compacting it into a new buffer gives. *)
Theorem compact_in_place hex : hex <> [] ->
  hexToCompactInPlace hex = hexToCompact hex.
Proof. apply hexToCompactInPlace_eq. Qed.

Lemma compact_in_place_witness :
  hexToCompactInPlace [0xa; 1; 2; 3; 4; 16] = hexToCompact [0xa; 1; 2; 3; 4; 16]
  /\ hexToCompact [0xa; 1; 2; 3; 4; 16] = Some [0x3a; 0x12; 0x34].
Proof. split; [by apply (compact_in_place [0xa; 1; 2; 3; 4; 16])|reflexivity]. Defined.

Lemma hexToKeybytes_keybytesToHex k : Forall is_byte k -> hexToKeybytes (keybytesToHex k) = Some k.
Proof.
  intros Hk. unfold hexToKeybytes, keybytesToHex. rewrite hasTerm_snoc, removelast_last. cbn [Z.eqb Pos.eqb].
  rewrite keybytes_nibbles_length. rewrite Nat.odd_mul. cbn [Nat.odd Nat.even negb andb].
  rewrite Nat.mul_comm, Nat.div_mul by lia. pose proof (decodeNibbles_keybytes k 0 Hk) as E.
  by rewrite app_nil_r, Nat.add_0_r in E.
Qed.
