(* ===== verification/TrieNode.v ===== *)
(** Trie nodes and their encoding: [trie/node.go] and [trie/node_enc.go].

    A node is a tree; [nilNode] is the nil interface.  The key of a short node is in HEX
    encoding in memory and in COMPACT encoding in a node that is ready to be encoded.
    Decoding calls itself on nodes embedded in their parent, which are shorter than the
    slice they are in; the length of the slice is the fuel. *)

From stdpp Require Import base list numbers option.
From S2P Require Import Prelude Rlp TrieKeys.
Open Scope Z_scope.
Open Scope go_scope.

Record nodeFlag := mkFlag { flag_hash : option (list Z); dirty : bool }.

Inductive node :=
| nilNode
| valueNode (v : list Z)
| shortNode (Key : list Z) (Val : node) (flags : nodeFlag)
| fullNode (Children : list node) (flags : nodeFlag)
| hashNode (h : list Z).

Definition is_nil (n : node) : bool := match n with nilNode => true | _ => false end.

(** [cache]: nil has none, the call panics. *)
Definition cache (n : node) : option (option (list Z) * bool) :=
  match n with
  | fullNode _ f | shortNode _ _ f => Some (flag_hash f, dirty f)
  | hashNode _ | valueNode _ => Some (None, true)
  | nilNode => None
  end.

(** ** Encoding, node_enc.go *)

Definition EmptyString : list Z := [0x80].

(** The loop over the children in [fullNode.encode]. *)
Definition encode_loop (enc : node -> encBuffer -> option encBuffer) (cs : list node) (w : encBuffer) : option encBuffer :=
  foldl (fun ow c => w ← ow; enc c w) (Some w) cs.

(** A nil child is written as the empty string by its parent. *)
Fixpoint encode_node (n : node) (w : encBuffer) : option encBuffer :=
  match n with
  | nilNode => Some (write EmptyString w)
  | valueNode v => Some (writeBytes v w)
  | hashNode h => Some (writeBytes h w)
  | shortNode key val _ =>
      let '(offset, w) := list_ w in
      let w := writeBytes key w in
      w ← encode_node val w;
      listEnd offset w
  | fullNode children _ =>
      let '(offset, w) := list_ w in
      w ← encode_loop encode_node children w;
      listEnd offset w
  end.

Definition nodeToBytes (n : node) : option (list Z) :=
  w ← encode_node n newEncBuffer; Some (makeBytes w).

(** The encoders the hasher uses: children are already encoded or hashed. *)
Definition fullnode_child (i : nat) (c : list Z) (w : encBuffer) : encBuffer :=
  match c with
  | [] => write EmptyString w
  | _ => if (i =? 16)%nat || (32 <=? len c) then writeBytes c w else write c w
  end.
Definition fullnodeEncoder_encode (children : list (list Z)) (w : encBuffer) : option encBuffer :=
  let '(offset, w) := list_ w in
  listEnd offset (foldl (fun w '(i, c) => fullnode_child i c w) w (imap pair children)).

(** [Val = nil] in the source is the empty list here; the hasher never returns it. *)
Definition extNodeEncoder_encode (key val : list Z) (w : encBuffer) : option encBuffer :=
  let '(offset, w) := list_ w in
  let w := writeBytes key w in
  let w := match val with
           | [] => write EmptyString w
           | _ => if len val <? 32 then write val w else writeBytes val w
           end in
  listEnd offset w.

Definition leafNodeEncoder_encode (key val : list Z) (w : encBuffer) : option encBuffer :=
  let '(offset, w) := list_ w in
  listEnd offset (writeBytes val (writeBytes key w)).

(** ** Decoding, node.go *)

Inductive decode_ctx := ctx_short | ctx_full | ctx_val | ctx_child (i : nat).
Inductive node_error :=
| UnexpectedEOF
| decode_error (e : rlpError)
| invalid_number_of_elements (c : Z)
| rlp_error (e : rlpError)
| invalid_value_node (e : rlpError)
| oversized_embedded (size : Z)
| invalid_string_size (size : Z)
| decodeError (what : node_error) (stack : list decode_ctx).

Definition wrapError {A} (r : result node_error A) (ctx : decode_ctx) : result node_error A :=
  match r with
  | Ok a => Ok a
  | Err (decodeError what stack) => Err (decodeError what (stack ++ [ctx]))
  | Err e => Err (decodeError e [ctx])
  end.

(** A call that ran out of fuel is [None]. *)
Definition decoding A := option (result node_error A).

Section decode.
(** The decoder of embedded nodes. *)
Variable decodeEmbedded : list Z -> decoding node.

Definition decodeRef (buf : list Z) : decoding (node * list Z) :=
  match Split buf with
  | Err e => Some (Err (rlp_error e))
  | Ok (kind, val, rest) =>
      match kind with
      | List =>
          let size := len buf - len rest in
          if 32 <? size then Some (Err (oversized_embedded size))
          else
            n ← decodeEmbedded buf;
            Some (let! n := n in Ok (n, rest))
      | String =>
          if len val =? 0 then Some (Ok (nilNode, rest))
          else if len val =? 32 then Some (Ok (hashNode val, rest))
          else Some (Err (invalid_string_size (len val)))
      | Byte => Some (Err (invalid_string_size (len val)))
      end
  end.

Definition decodeShort (hash : option (list Z)) (elems : list Z) : decoding node :=
  match SplitString elems with
  | Err e => Some (Err (rlp_error e))
  | Ok (kbuf, rest) =>
      let flag := mkFlag hash false in
      let key := compactToHex kbuf in
      if hasTerm key then
        match SplitString rest with
        | Err e => Some (Err (invalid_value_node e))
        | Ok (val, _) => Some (Ok (shortNode key (valueNode val) flag))
        end
      else
        r ← decodeRef rest;
        Some (let! '(r, _) := wrapError r ctx_val in Ok (shortNode key r flag))
  end.

(** The children from index [i] on. *)
Fixpoint decode_children (count i : nat) (elems : list Z) : decoding (list node * list Z) :=
  match count with
  | O => Some (Ok ([], elems))
  | S count =>
      r ← decodeRef elems;
      match wrapError r (ctx_child i) with
      | Err e => Some (Err e)
      | Ok (cld, rest) =>
          cs ← decode_children count (S i) rest;
          Some (let! '(cs, elems) := cs in Ok (cld :: cs, elems))
      end
  end.

Definition decodeFull (hash : option (list Z)) (elems : list Z) : decoding node :=
  r ← decode_children 16 0 elems;
  match r with
  | Err e => Some (Err e)
  | Ok (children, elems) =>
      match SplitString elems with
      | Err e => Some (Err (rlp_error e))
      | Ok (val, _) =>
          let last := match val with [] => nilNode | _ => valueNode val end in
          Some (Ok (fullNode (children ++ [last]) (mkFlag hash false)))
      end
  end.
End decode.

Definition count_or_zero (elems : list Z) : option Z :=
  c ← CountValues elems; Some (match c with Ok c => c | Err _ => 0 end).

Fixpoint decode_fuel (fuel : nat) (hash : option (list Z)) (buf : list Z) : decoding node :=
  match fuel with
  | O => None
  | S fuel =>
      if len buf =? 0 then Some (Err UnexpectedEOF)
      else
        match SplitList buf with
        | Err e => Some (Err (decode_error e))
        | Ok (elems, _) =>
            c ← count_or_zero elems;
            if c =? 2 then r ← decodeShort (decode_fuel fuel None) hash elems; Some (wrapError r ctx_short)
            else if c =? 17 then r ← decodeFull (decode_fuel fuel None) hash elems; Some (wrapError r ctx_full)
            else Some (Err (invalid_number_of_elements c))
        end
  end.
Definition decodeNodeUnsafe (hash : option (list Z)) (buf : list Z) : decoding node :=
  decode_fuel (S (length buf)) hash buf.
(** [decodeNode] copies the slice first. *)
Definition decodeNode (hash : option (list Z)) (buf : list Z) : decoding node := decodeNodeUnsafe hash buf.

Lemma node_ind' (P : node -> Prop) :
  P nilNode -> (forall v, P (valueNode v)) -> (forall k v f, P v -> P (shortNode k v f)) ->
  (forall cs f, Forall P cs -> P (fullNode cs f)) -> (forall h, P (hashNode h)) -> forall n, P n.
Proof.
  intros Hn Hv Hs Hf Hh. fix IH 1. intros [|v|k v f|cs f|h]; [done|apply Hv|apply Hs, IH| |apply Hh].
  apply Hf. induction cs; constructor; auto.
Qed.

(** ** The encoding as a function *)

Fixpoint enc (n : node) : list Z :=
  match n with
  | nilNode => EmptyString
  | valueNode v => encode_string v
  | hashNode h => encode_string h
  | shortNode key val _ => encode_list (encode_string key ++ enc val)
  | fullNode children _ => encode_list (concat (map enc children))
  end.

Lemma encode_node_writes n : len (enc n) < two64 -> writes (encode_node n) (enc n).
Proof.
  induction n as [|v|k v f IH|cs f IH|h] using node_ind'; intros Hl.
  - apply writes_write.
  - apply writes_bytes.
  - simpl enc in *. pose proof (encode_list_le (encode_string k ++ enc v)) as Hle.
    rewrite len_app in Hle. pose proof (len_nonneg (encode_string k)). pose proof (len_nonneg (enc v)).
    pose proof (writes_bind (fun w => Some (writeBytes k w)) (encode_node v) _ _ (writes_bytes k) ltac:(apply IH; lia)) as Hw.
    intros w. exact (writes_in_list _ _ Hw ltac:(rewrite len_app; lia) w).
  - simpl enc in *. pose proof (encode_list_le (concat (map enc cs))) as Hle.
    intros w. refine (writes_in_list (encode_loop encode_node cs) (concat (map enc cs)) _ ltac:(lia) w).
    apply writes_loop. apply Forall_forall. intros c Hc. rewrite Forall_forall in IH. apply IH; [done|].
    pose proof (concat_le enc cs c (proj2 (list_elem_of_In _ _) Hc)). lia.
  - apply writes_bytes.
Qed.

Lemma nodeToBytes_enc n : len (enc n) < two64 -> nodeToBytes n = Some (enc n).
Proof. intros Hl. by apply writes_makeBytes, encode_node_writes. Qed.

(** ** Nodes that are ready to be stored *)

(** The keys in COMPACT encoding, as the committer leaves them. *)
Fixpoint compacted (n : node) : node :=
  match n with
  | shortNode key val f => shortNode (default [] (hexToCompact key)) (compacted val) f
  | fullNode children f => fullNode (map compacted children) f
  | _ => n
  end.
Definition enc_stored (n : node) : list Z := enc (compacted n).

Fixpoint plain (n : node) : node :=
  match n with
  | shortNode key val f => shortNode key (plain val) (mkFlag None false)
  | fullNode children f => fullNode (map plain children) (mkFlag None false)
  | _ => n
  end.
Definition loaded (hash : option (list Z)) (n : node) : node :=
  match plain n with
  | shortNode key val _ => shortNode key val (mkFlag hash false)
  | fullNode children _ => fullNode children (mkFlag hash false)
  | n => n
  end.

Definition value_slot (n : node) : Prop :=
  match n with nilNode => True | valueNode v => v <> [] /\ Forall is_byte v | _ => False end.

(** A leaf, an extension or a full node whose children are references. *)
Inductive storable : node -> Prop :=
| storable_leaf k v f : hex_key k -> hasTerm k = true -> Forall is_byte v ->
    storable (shortNode k (valueNode v) f)
| storable_ext k c f : hex_key k -> hasTerm k = false -> reference_ok c ->
    storable (shortNode k c f)
| storable_full cs last f : length cs = 16%nat -> Forall reference_ok cs -> value_slot last ->
    storable (fullNode (cs ++ [last]) f)
(** Nothing, a hash, or a node small enough to be embedded. *)
with reference_ok : node -> Prop :=
| reference_nil : reference_ok nilNode
| reference_hash h : len h = 32 -> Forall is_byte h -> reference_ok (hashNode h)
| reference_embedded n : storable n -> len (enc_stored n) <= 32 -> reference_ok n.

Lemma hexToCompact_bytes k : hex_key k -> Forall is_byte (default [] (hexToCompact k)).
Proof.
  intros (term & odd & h & ks & Hh & Hks & H0 & _ & ->)%hexToCompact_form. simpl. constructor; [|done].
  unfold is_nibble, is_byte in *. destruct term, odd; simpl; lia.
Qed.

Lemma compactToHex_stored k : hex_key k -> compactToHex (default [] (hexToCompact k)) = k.
Proof.
  intros (term & odd & h & ks & Hh & Hks & H0 & -> & ->)%hexToCompact_form. by apply compactToHex_flags.
Qed.

(** Every encoding is one value. *)
Lemma enc_value n : exists k c, kind_ok k c /\ enc n = encode_value k c /\ (k = List <-> match n with shortNode _ _ _ | fullNode _ _ => True | _ => False end).
Proof.
  assert (forall s, exists k c, kind_ok k c /\ encode_string s = encode_value k c /\ (k = List <-> False)) as Hs.
  { intros s. destruct (encode_string_value s) as (k & Hk & Hn & E). by exists k, s. }
  destruct n as [|v|k v f|cs f|h]; simpl; [by exists String, []|apply Hs| | |apply Hs];
    by eexists List, _.
Qed.

Lemma enc_stored_child_le cs c : c ∈ cs ->
  len (enc_stored c) <= len (concat (map enc (map compacted cs))).
Proof. intros Hc. apply (concat_le enc (map compacted cs) (compacted c)). apply list_elem_of_fmap. by exists c. Qed.

Lemma concat_bytes l : Forall (fun n => Forall is_byte (enc n)) l -> Forall is_byte (concat (map enc l)).
Proof. induction 1; simpl; [constructor|]. by apply Forall_app. Qed.

(** What can occur in a node that is stored. *)
Definition occurs (n : node) : Prop :=
  storable n \/ reference_ok n \/ match n with nilNode => True | valueNode v => Forall is_byte v | _ => False end.

Lemma storable_short k v f : storable (shortNode k v f) -> hex_key k /\ occurs v.
Proof. intros H. inversion H; subst; (split; [done|]); right; auto. Qed.
Lemma storable_full_children cs f : storable (fullNode cs f) -> Forall occurs cs.
Proof.
  intros H. inversion H as [| |cs' l' f' Hn Hc Hv]; subst. apply Forall_app; split.
  - eapply Forall_impl; [|exact Hc]. intros c ?. right. by left.
  - apply Forall_singleton. right. right. destruct l'; simpl in *; [done|by destruct Hv|done..].
Qed.
Lemma occurs_storable n : occurs n -> match n with shortNode _ _ _ | fullNode _ _ => True | _ => False end -> storable n.
Proof. intros [Hs|[Hs|Hs]]; [done| |]; destruct n; try done; by inversion Hs. Qed.

Lemma storable_bytes n : occurs n -> len (enc_stored n) < two64 -> Forall is_byte (enc_stored n).
Proof.
  unfold enc_stored. induction n as [|v|k v f IH|cs f IH|h] using node_ind'; intros Hs Hl; simpl in *.
  - apply Forall_singleton. unfold is_byte. lia.
  - pose proof (encode_string_le v). apply encode_string_bytes; [lia|].
    destruct Hs as [Hs|[Hs|Hs]]; [inversion Hs|inversion Hs; subst; by inversion H0|done].
  - apply occurs_storable in Hs; [|done]. apply storable_short in Hs as [Hk Hv].
    pose proof (encode_list_le (encode_string (default [] (hexToCompact k)) ++ enc (compacted v))) as Hle.
    apply encode_list_bytes; [lia|]. rewrite len_app in Hle.
    pose proof (len_nonneg (enc (compacted v))). pose proof (len_nonneg (encode_string (default [] (hexToCompact k)))).
    pose proof (encode_string_le (default [] (hexToCompact k))).
    apply Forall_app; split; [apply encode_string_bytes; [lia|by apply hexToCompact_bytes]|apply IH; [done|lia]].
  - apply occurs_storable in Hs; [|done]. apply storable_full_children in Hs.
    pose proof (encode_list_le (concat (map enc (map compacted cs)))) as Hle.
    apply encode_list_bytes; [lia|]. apply concat_bytes.
    assert (Forall (fun c => len (enc (compacted c)) < two64) cs) as Hb.
    { apply list.Forall_forall. intros c Hc. pose proof (enc_stored_child_le cs c Hc). unfold enc_stored in *. lia. }
    clear -IH Hs Hb. induction cs as [|c cs IHc]; simpl; [constructor|].
    inversion_clear IH; inversion_clear Hs; inversion_clear Hb. constructor; auto.
  - pose proof (encode_string_le h). apply encode_string_bytes; [lia|].
    destruct Hs as [Hs|[Hs|Hs]]; [inversion Hs|inversion Hs; subst; [done|by inversion H0]|done].
Qed.

(** ** Decoding what was encoded *)

Lemma SplitString_encode s rest : Forall is_byte (encode_string s ++ rest) -> len (encode_string s ++ rest) < two64 ->
  SplitString (encode_string s ++ rest) = Ok (s, rest).
Proof. intros Hb Hl. by apply SplitString_ok. Qed.

Lemma SplitList_encode c rest : Forall is_byte (encode_list c ++ rest) -> len (encode_list c ++ rest) < two64 ->
  Split (encode_list c ++ rest) = Ok (List, c, rest) /\ SplitList (encode_list c ++ rest) = Ok (c, rest).
Proof.
  intros Hb Hl. assert (Split (encode_list c ++ rest) = Ok (List, c, rest)) as E by (by apply Split_complete).
  split; [done|]. unfold SplitList. by rewrite E.
Qed.

Lemma Split_string_value s rest : (length s <> 1)%nat -> Forall is_byte (encode_string s ++ rest) ->
  len (encode_string s ++ rest) < two64 -> Split (encode_string s ++ rest) = Ok (String, s, rest).
Proof.
  intros Hs Hb Hl. apply Split_complete; [done|done| |]; destruct s as [|x [|]]; done.
Qed.

Lemma count_elems ns : Forall is_byte (concat (map enc ns)) -> len (concat (map enc ns)) < two64 ->
  count_or_zero (concat (map enc ns)) = Some (Z.of_nat (length ns)).
Proof.
  intros Hb Hl. unfold count_or_zero.
  destruct (count_values_spec (length (concat (map enc ns))) (concat (map enc ns)) Hb Hl (le_n _)) as (r & E & Hr).
  unfold CountValues. rewrite E. cbn [mbind option_bind].
  assert (r = Ok (Z.of_nat (length ns))) as ->; [|done]. apply Hr.
  clear. induction ns as [|n ns (vs & Hvs & Ev & El)]; [by exists []|].
  destruct (enc_value n) as (k & c & Hk & E & _). exists ((k, c) :: vs).
  split; [by constructor|]. split; [|simpl; lia]. unfold encode_values in *. simpl. by rewrite E, Ev.
Qed.

Lemma encode_list_nonempty c : 1 <= len (encode_list c).
Proof.
  unfold encode_list. destruct (puthead_cons 0xC0 0xF7 (len c)) as (x & h & ->). rewrite len_app, len_cons.
  pose proof (len_nonneg h). pose proof (len_nonneg c). lia.
Qed.

Lemma encode_list_lt c : len c < len (encode_list c).
Proof.
  unfold encode_list. destruct (puthead_cons 0xC0 0xF7 (len c)) as (x & h & ->). rewrite len_app, len_cons.
  pose proof (len_nonneg h). lia.
Qed.

(** A fuel that is enough for a node decodes it, whatever follows it. *)
Definition decodes (fuel : nat) (n : node) : Prop :=
  forall hash rest, Forall is_byte (enc_stored n ++ rest) -> len (enc_stored n ++ rest) < two64 ->
  decode_fuel fuel hash (enc_stored n ++ rest) = Some (Ok (loaded hash n)).

Lemma plain_loaded n : storable n -> loaded None n = plain n.
Proof. by destruct 1. Qed.

Lemma decodeRef_child fuel c rest :
  reference_ok c -> (storable c -> decodes fuel c) ->
  Forall is_byte (enc_stored c ++ rest) -> len (enc_stored c ++ rest) < two64 ->
  decodeRef (decode_fuel fuel None) (enc_stored c ++ rest) = Some (Ok (plain c, rest)).
Proof.
  intros Hc IH Hb Hl. unfold decodeRef. destruct Hc as [|h Hh Hbh|c Hs H32].
  - change (enc_stored nilNode) with (encode_string []) in *. by rewrite (Split_string_value []).
  - change (enc_stored (hashNode h)) with (encode_string h) in *.
    rewrite (Split_string_value h) by (unfold len in *; lia || done).
    rewrite (proj2 (Z.eqb_neq _ _)), (proj2 (Z.eqb_eq _ _)) by lia. done.
  - pose proof (IH Hs None rest Hb Hl) as E. rewrite plain_loaded in E by done.
    assert (exists content, enc_stored c = encode_list content) as (content & Ec) by (destruct Hs; by eexists).
    rewrite Ec in Hb, Hl, E |- *. rewrite (proj1 (SplitList_encode _ _ Hb Hl)).
    rewrite len_app, <- Ec. rewrite (proj2 (Z.ltb_ge _ _)) by lia. rewrite Ec, E. done.
Qed.

Lemma decode_children_ok fuel cs i rest :
  Forall reference_ok cs -> Forall (fun c => storable c -> decodes fuel c) cs ->
  Forall is_byte (concat (map enc (map compacted cs)) ++ rest) ->
  len (concat (map enc (map compacted cs)) ++ rest) < two64 ->
  decode_children (decode_fuel fuel None) (length cs) i (concat (map enc (map compacted cs)) ++ rest)
  = Some (Ok (map plain cs, rest)).
Proof.
  intros Hr Hd. revert i. induction cs as [|c cs IH]; intros i Hb Hl; [done|].
  inversion_clear Hr as [|? ? Hc Hr']. inversion_clear Hd as [|? ? Hdc Hd'].
  simpl concat in *. rewrite <- app_assoc in *. cbn [length decode_children].
  rewrite (decodeRef_child fuel c) by done. cbn [mbind option_bind wrapError].
  apply Forall_app in Hb as [_ Hb]. rewrite len_app in Hl. pose proof (len_nonneg (enc (compacted c))).
  rewrite IH by (done || lia). done.
Qed.

Lemma decode_fuel_list fuel hash content rest :
  Forall is_byte (encode_list content ++ rest) -> len (encode_list content ++ rest) < two64 ->
  decode_fuel (S fuel) hash (encode_list content ++ rest) =
    c ← count_or_zero content;
    if c =? 2 then r ← decodeShort (decode_fuel fuel None) hash content; Some (wrapError r ctx_short)
    else if c =? 17 then r ← decodeFull (decode_fuel fuel None) hash content; Some (wrapError r ctx_full)
    else Some (Err (invalid_number_of_elements c)).
Proof.
  intros Hb Hl. cbn [decode_fuel]. pose proof (encode_list_nonempty content). pose proof (len_nonneg rest).
  rewrite (proj2 (Z.eqb_neq _ 0)) by (rewrite len_app; lia). by rewrite (proj2 (SplitList_encode _ _ Hb Hl)).
Qed.

Lemma length_len (a b : list Z) : (length a < length b)%nat <-> len a < len b.
Proof. unfold len. lia. Qed.

Lemma decodeShort_stored fuel hash k v f :
  storable (shortNode k v f) -> (storable v -> decodes fuel v) ->
  Forall is_byte (encode_string (default [] (hexToCompact k)) ++ enc_stored v) ->
  len (encode_string (default [] (hexToCompact k)) ++ enc_stored v) < two64 ->
  decodeShort (decode_fuel fuel None) hash (encode_string (default [] (hexToCompact k)) ++ enc_stored v)
  = Some (Ok (loaded hash (shortNode k v f))).
Proof.
  intros Hs IH Hb Hl. unfold decodeShort. rewrite SplitString_encode by done.
  destruct (storable_short k v f Hs) as [Hk _].
  rewrite compactToHex_stored by done.
  rewrite len_app in Hl. apply Forall_app in Hb as [_ Hb].
  pose proof (len_nonneg (encode_string (default [] (hexToCompact k)))).
  inversion Hs as [k' v' f' _ Ht Hv| k' c f' _ Ht Hc|]; subst; rewrite Ht.
  - change (enc_stored (valueNode v')) with (encode_string v') in *. rewrite <- (app_nil_r (encode_string v')).
    rewrite SplitString_encode by (rewrite app_nil_r; done || lia). done.
  - rewrite <- (app_nil_r (enc_stored v)).
    rewrite (decodeRef_child fuel v) by (rewrite ?app_nil_r; done || lia). done.
Qed.

Lemma decodeFull_stored fuel hash cs last f :
  storable (fullNode (cs ++ [last]) f) -> length cs = 16%nat -> Forall reference_ok cs -> value_slot last ->
  Forall (fun c => storable c -> decodes fuel c) cs ->
  Forall is_byte (concat (map enc (map compacted (cs ++ [last])))) ->
  len (concat (map enc (map compacted (cs ++ [last])))) < two64 ->
  decodeFull (decode_fuel fuel None) hash (concat (map enc (map compacted (cs ++ [last]))))
  = Some (Ok (loaded hash (fullNode (cs ++ [last]) f))).
Proof.
  intros Hs Hn Hc Hv Hd. rewrite !map_app, concat_app. simpl concat. rewrite app_nil_r. intros Hb Hl.
  unfold decodeFull. rewrite <- Hn at 1. rewrite decode_children_ok by done. cbn [mbind option_bind].
  apply Forall_app in Hb as [_ Hb]. rewrite len_app in Hl.
  pose proof (len_nonneg (concat (map enc (map compacted cs)))).
  unfold loaded. simpl plain. rewrite map_app. simpl map. destruct last as [|v| | |]; try done.
  - change (enc (compacted (valueNode v))) with (encode_string v) in *. rewrite <- (app_nil_r (encode_string v)).
    rewrite SplitString_encode by (rewrite app_nil_r; done || lia). destruct Hv as [Hv _]. by destruct v.
Qed.

(** The content of a node in front of a slice. *)
Lemma content_bounds content rest :
  Forall is_byte (encode_list content ++ rest) -> len (encode_list content ++ rest) < two64 ->
  Forall is_byte content /\ len content < two64.
Proof.
  intros Hb Hl. apply Forall_app in Hb as [Hb _]. apply Forall_app in Hb as [_ Hb]. split; [done|].
  rewrite len_app in Hl. pose proof (len_nonneg rest). pose proof (encode_list_lt content). lia.
Qed.

Lemma decode_stored n : forall fuel, storable n -> (length (enc_stored n) <= fuel)%nat -> decodes fuel n.
Proof.
  induction n as [|v|k v f IH|cs f IH|h] using node_ind'; intros fuel Hs Hf hash rest Hb Hl; try by inversion Hs.
  - set (content := encode_string (default [] (hexToCompact k)) ++ enc_stored v).
    change (enc_stored (shortNode k v f)) with (encode_list content) in *.
    pose proof (encode_list_lt content) as Hlt. destruct fuel as [|fuel]; [unfold len in *; lia|].
    rewrite decode_fuel_list by done. destruct (content_bounds content rest Hb Hl) as [Hbc Hlc].
    pose proof (count_elems [valueNode (default [] (hexToCompact k)); compacted v]) as E.
    assert (concat (map enc [valueNode (default [] (hexToCompact k)); compacted v]) = content) as Ec
      by (unfold content; simpl; by rewrite app_nil_r).
    rewrite Ec in E. rewrite E by done. cbn [mbind option_bind length].
    change (Z.of_nat 2 =? 2) with true. cbv iota.
    unfold content. rewrite (decodeShort_stored fuel hash k v f); [done|done| |done|done].
    intros Hsv. apply IH; [done|].
    assert (len (enc_stored v) <= len content) by (unfold content; rewrite len_app;
      pose proof (len_nonneg (encode_string (default [] (hexToCompact k)))); lia).
    clearbody content. unfold len in *. lia.
  - set (content := concat (map enc (map compacted cs))).
    change (enc_stored (fullNode cs f)) with (encode_list content) in *.
    pose proof (encode_list_lt content) as Hlt. destruct fuel as [|fuel]; [unfold len in *; lia|].
    rewrite decode_fuel_list by done. destruct (content_bounds content rest Hb Hl) as [Hbc Hlc].
    inversion Hs as [| |cs' last f' Hn Hc Hv]; subst.
    assert (count_or_zero content = Some 17) as ->.
    { unfold content. rewrite count_elems by done. rewrite map_app, length_app, length_map, Hn. done. }
    cbn [mbind option_bind]. change (17 =? 2) with false. change (17 =? 17) with true. cbv iota.
    unfold content. rewrite (decodeFull_stored fuel hash cs' last f); try done.
    apply Forall_app in IH as [IH _]. rewrite list.Forall_forall in IH |- *. intros c Hin Hsc.
    apply IH; [done..|]. pose proof (enc_stored_child_le (cs' ++ [last]) c ltac:(apply elem_of_app; by left)).
    fold content in H. clearbody content. unfold len in *. lia.
Qed.

(** ** What decoding returns *)

(** The shape of nodes: a leaf's key ends with the terminator and its value is a value,
    the key of an extension has no terminator, and a full node has sixteen children and
    a value slot. *)
Inductive node_wf : node -> Prop :=
| wf_nil : node_wf nilNode
| wf_hash h : node_wf (hashNode h)
| wf_leaf l v f : Forall is_nibble l -> node_wf (shortNode (l ++ [16]) (valueNode v) f)
| wf_ext k c f : Forall is_nibble k -> node_wf c -> node_wf (shortNode k c f)
| wf_full cs last f : length cs = 16%nat -> Forall node_wf cs ->
    match last with nilNode | valueNode _ => True | _ => False end ->
    node_wf (fullNode (cs ++ [last]) f).

Definition resolved (n : node) : Prop := match n with shortNode _ _ _ | fullNode _ _ => True | _ => False end.

(** A decoding that returns, and a well-formed node if it succeeds. *)
Definition decodes_wf (r : decoding node) : Prop :=
  exists r', r = Some r' /\ forall n, r' = Ok n -> node_wf n /\ resolved n.

Lemma hex_key_app (term : bool) l : Forall is_nibble l -> hex_key (l ++ (if term then [16] else [])).
Proof.
  intros Hl. unfold hex_key, nibbles_of.
  destruct term; [by rewrite hasTerm_snoc, removelast_last|by rewrite app_nil_r, hasTerm_nibbles].
Qed.

Lemma compactToHex_cases x c : exists (term : bool) n, (n <= 2)%nat /\
  compactToHex (x :: c) = drop n (keybytes_nibbles (x :: c)) ++ (if term then [16] else []).
Proof.
  unfold compactToHex, keybytesToHex. set (l := keybytes_nibbles (x :: c)).
  assert (exists term : bool,
    (if default 0 ((l ++ [16]) !! 0%nat) <? 2 then removelast (l ++ [16]) else l ++ [16])
    = l ++ (if term then [16] else [])) as (term & ->).
  { case_match; [exists false|by exists true]. by rewrite removelast_last, app_nil_r. }
  set (chop := Z.land _ 1).
  assert (0 <= chop <= 1) as Hchop.
  { unfold chop. change 1 with (Z.ones 1) at 1 2. rewrite Z.land_ones by lia. change (2 ^ 1) with 2.
    Z.to_euclidean_division_equations. lia. }
  exists term, (Z.to_nat (2 - chop)). split; [lia|]. rewrite drop_app_le; [done|]. unfold l. simpl. lia.
Qed.

Lemma compactToHex_hex c : Forall is_byte c -> hex_key (compactToHex c).
Proof.
  intros Hc. destruct c as [|x c]; [constructor|].
  destruct (compactToHex_cases x c) as (term & n & _ & ->). apply hex_key_app, Forall_drop.
  by apply keybytes_nibbles_ok.
Qed.

Lemma Split_rest b k c rest : Forall is_byte b -> len b < two64 -> Split b = Ok (k, c, rest) ->
  Forall is_byte c /\ Forall is_byte rest /\ len rest <= len b /\ len c <= len b /\ (k = List -> len c < len b).
Proof.
  intros Hb Hl H. apply Split_sound in H as [E _]; [|done..]. rewrite E in Hb. apply Forall_app in Hb as [Hb Hr].
  assert (Forall is_byte c) as Hc.
  { destruct k; simpl in Hb; [done| |]; unfold encode_list in Hb; by apply Forall_app in Hb as [_ Hb]. }
  rewrite E, len_app. pose proof (len_nonneg (encode_value k c)). pose proof (len_nonneg rest).
  assert (len c <= len (encode_value k c)).
  { destruct k; simpl; [lia|rewrite len_app; pose proof (len_nonneg (puthead 128 183 (len c))); lia|apply encode_list_le]. }
  split_and!; try done; try lia. intros ->. simpl. pose proof (encode_list_lt c). lia.
Qed.

Lemma SplitString_rest b c rest : Forall is_byte b -> len b < two64 -> SplitString b = Ok (c, rest) ->
  Forall is_byte c /\ Forall is_byte rest /\ len rest <= len b.
Proof.
  intros Hb Hl ([[k c'] r'] & Hs & E)%result_bind_Ok. apply Split_rest in Hs as (? & ? & ? & _); [|done..].
  destruct k; by simplify_eq.
Qed.

Lemma decodes_wf_wrap r ctx : decodes_wf (Some r) -> decodes_wf (Some (wrapError r ctx)).
Proof.
  intros (r' & [= ->] & H). exists (wrapError r' ctx). split; [done|]. intros n E. apply H.
  destruct r' as [|e]; [done|]. by destruct e.
Qed.

Section wf.
Variable dec : list Z -> decoding node.
Variable bound : Z.
Hypothesis dec_wf : forall b, Forall is_byte b -> len b < bound -> decodes_wf (dec b).
Hypothesis bound_u64 : bound <= two64.

Lemma decodeRef_wf b : Forall is_byte b -> len b < bound ->
  exists r, decodeRef dec b = Some r /\ forall n rest, r = Ok (n, rest) ->
    node_wf n /\ Forall is_byte rest /\ len rest <= len b.
Proof.
  intros Hb Hl. unfold decodeRef. destruct (Split b) as [[[k v] rest]|e] eqn:E; [|by eexists].
  apply Split_rest in E as (Hv & Hr & Hlr & _); [|done|lia].
  destruct k; [by eexists| |].
  - destruct (len v =? 0); [eexists; split; [done|]; intros ? ? [= <- <-]; split_and!; by try constructor|].
    destruct (len v =? 32); [eexists; split; [done|]; intros ? ? [= <- <-]; split_and!; by try constructor|].
    by eexists.
  - destruct (32 <? len b - len rest); [by eexists|].
    destruct (dec_wf b Hb Hl) as (r & -> & Hn). simpl. eexists. split; [done|].
    intros n rest' E. destruct r; simplify_eq/=. by destruct (Hn n eq_refl).
Qed.

Lemma decodeShort_wf hash b : Forall is_byte b -> len b < bound -> decodes_wf (decodeShort dec hash b).
Proof.
  intros Hb Hl. unfold decodeShort. destruct (SplitString b) as [[kbuf rest]|e] eqn:E; [|by eexists].
  apply SplitString_rest in E as (Hk & Hr & Hlr); [|done|lia].
  apply compactToHex_hex in Hk as (l & Hln & _ & Hc)%hex_key_cases.
  destruct (hasTerm (compactToHex kbuf)) eqn:Ht.
  - destruct (SplitString rest) as [[v ?]|e] eqn:E'; [|by eexists]. eexists. split; [done|]. intros n [= <-].
    destruct Hc as [[_ ?]|[-> _]]; [done|]. split; [by constructor|done].
  - destruct (decodeRef_wf rest Hr ltac:(lia)) as (r & -> & Hn). simpl. eexists. split; [done|].
    intros n E'. destruct r as [[n' rest']|e]; [|by destruct e]. simplify_eq/=.
    destruct (Hn n' rest' eq_refl) as (? & _). destruct Hc as [[-> _]|[_ ?]]; [|done]. split; [by apply wf_ext|done].
Qed.

Lemma decode_children_wf count i b : Forall is_byte b -> len b < bound ->
  exists r, decode_children dec count i b = Some r /\ forall cs rest, r = Ok (cs, rest) ->
    length cs = count /\ Forall node_wf cs /\ Forall is_byte rest /\ len rest <= len b.
Proof.
  revert i b. induction count as [|count IH]; intros i b Hb Hl; simpl.
  - eexists. split; [done|]. by intros ? ? [= <- <-].
  - destruct (decodeRef_wf b Hb Hl) as (r & -> & Hn). simpl.
    destruct r as [[n rest]|e]; simpl; [|destruct e; by eexists].
    destruct (Hn n rest eq_refl) as (Hwf & Hr & Hlr).
    destruct (IH (S i) rest Hr ltac:(lia)) as (r & -> & Hcs). simpl. eexists. split; [done|].
    intros cs rest' E. destruct r as [[cs' rest'']|]; simplify_eq/=.
    destruct (Hcs cs' rest' eq_refl) as (? & ? & ? & ?). split_and!; [lia|by constructor|done|lia].
Qed.

Lemma decodeFull_wf hash b : Forall is_byte b -> len b < bound -> decodes_wf (decodeFull dec hash b).
Proof.
  intros Hb Hl. unfold decodeFull. destruct (decode_children_wf 16 0 b Hb Hl) as (r & -> & Hcs). simpl.
  destruct r as [[cs rest]|e]; [|by eexists]. destruct (Hcs cs rest eq_refl) as (Hn & Hwf & Hr & Hlr).
  destruct (SplitString rest) as [[v ?]|e]; [|by eexists]. eexists. split; [done|]. intros n [= <-].
  split; [|done]. apply wf_full; [done..|]. by destruct v.
Qed.
End wf.

Lemma decode_fuel_wf fuel hash b : Forall is_byte b -> len b < two64 -> len b < Z.of_nat fuel ->
  decodes_wf (decode_fuel fuel hash b).
Proof.
  revert hash b. induction fuel as [|fuel IH]; intros hash b Hb Hl Hf; [pose proof (len_nonneg b); lia|].
  cbn [decode_fuel]. case_match; [by eexists|]. destruct (SplitList b) as [[elems rest]|e] eqn:E; [|by eexists].
  unfold SplitList in E. apply result_bind_Ok in E as ([[k c'] r'] & Hs & E).
  apply Split_rest in Hs as (Hc & _ & _ & _ & Hlt); [|done..]. destruct k; simplify_eq/=.
  specialize (Hlt eq_refl).
  destruct (count_values_spec (length elems) elems Hc ltac:(lia) (le_n _)) as (rc & Ec & _).
  unfold count_or_zero, CountValues. rewrite Ec. cbn [mbind option_bind].
  assert (forall e, Forall is_byte e -> len e < len b -> decodes_wf (decode_fuel fuel None e)) as Hdec
    by (intros; apply IH; [done|lia..]).
  set (c := match rc with Ok c => c | Err _ => 0 end). clearbody c.
  destruct (c =? 2); [|destruct (c =? 17); [|by eexists]].
  - destruct (decodeShort_wf _ (len b) Hdec ltac:(lia) hash elems Hc Hlt) as (r & -> & Hn).
    apply decodes_wf_wrap. by exists r.
  - destruct (decodeFull_wf _ (len b) Hdec ltac:(lia) hash elems Hc Hlt) as (r & -> & Hn).
    apply decodes_wf_wrap. by exists r.
Qed.

(** ** What the encoding of nodes promises *)

(** C27. Decoding the stored form of a node, in which keys are compact, large children
    are hashes and small ones are embedded, gives the node back, with the hash it was
    asked for and clean flags, whatever bytes follow it. *)
Theorem node_roundtrip hash n rest : storable n -> Forall is_byte rest ->
  len (enc_stored n ++ rest) < two64 ->
  nodeToBytes (compacted n) = Some (enc_stored n)
  /\ decodeNodeUnsafe hash (enc_stored n ++ rest) = Some (Ok (loaded hash n)).
Proof.
  intros Hs Hr Hl. pose proof Hl as Hl'. rewrite len_app in Hl'. pose proof (len_nonneg rest).
  assert (Forall is_byte (enc_stored n)) by (apply storable_bytes; [by left|lia]).
  split; [apply nodeToBytes_enc; unfold enc_stored in *; lia|]. apply decode_stored; [done|rewrite length_app; lia|by apply Forall_app|done].
Qed.

Definition sample_leaf : node := shortNode [6; 1; 16] (valueNode [0x62]) (mkFlag None true).

Lemma node_roundtrip_witness :
  len (enc_stored sample_leaf) = 5 /\
  decodeNodeUnsafe None (enc_stored sample_leaf) = Some (Ok (loaded None sample_leaf)).
Proof.
  split; [reflexivity|]. rewrite <- (app_nil_r (enc_stored sample_leaf)). apply node_roundtrip.
  - apply storable_leaf; [|reflexivity|repeat constructor; done].
    unfold hex_key. simpl. repeat constructor; done.
  - constructor.
  - vm_compute. done.
Defined.

(** C28. Decoding a node terminates on every byte slice, and what it returns is well
    formed: leaves end with the terminator and hold a value, extensions do not, and full
    nodes have sixteen children and a value slot. *)
Theorem decodeNode_total_wf hash b : Forall is_byte b -> len b < two64 ->
  exists r, decodeNodeUnsafe hash b = Some r /\ forall n, r = Ok n -> node_wf n /\ resolved n.
Proof. intros Hb Hl. apply decode_fuel_wf; [done|done|]. unfold len. lia. Qed.

Lemma decodeNode_total_wf_witness :
  exists r, decodeNodeUnsafe None [0xc4; 0x80; 0xc2; 0x20; 0x05] = Some r /\ forall n, r = Ok n -> node_wf n /\ resolved n.
Proof. apply decodeNode_total_wf; [repeat constructor; vm_compute; intuition congruence|vm_compute; done]. Defined.

(** An embedded node of 32 bytes is accepted, although the error message of [decodeRef]
    asks for fewer bytes than a hash has. *)
Definition embedded32 : node := shortNode [1; 2; 16] (valueNode (replicate 27 7)) (mkFlag None true).
Example embedded_of_hash_length :
  len (enc_stored embedded32) = 32 /\
  decodeNodeUnsafe None (enc_stored (shortNode [5] embedded32 (mkFlag None true)))
  = Some (Ok (loaded None (shortNode [5] embedded32 (mkFlag None true)))).
Proof. vm_compute. done. Qed.
