(* ===== verification/Trie.v ===== *)
(** The Merkle Patricia trie: [trie/trie.go], [trie/tracer.go] and [trie/trie_reader.go].

    The operations run in a monad over the two tracers; their outcome is a value, an
    error, a panic or the exhaustion of the fuel.  The store behind the reader is a
    parameter: a partial function from path and hash to a blob.

    Nodes are values here and pointers in the source.  The source changes a full node
    in place once the change of its child has succeeded, and it is then reached from its
    parent, which is rebuilt or changed in the same way; the one place where an error
    follows such a change is the last step of [delete], and there the error carries the
    node as it was left behind. *)

From stdpp Require Import base gmap list numbers option.
From S2P Require Import Prelude Rlp TrieKeys TrieNode.
Open Scope Z_scope.

(** ** Tracers, tracer.go *)

Abbreviation path := (list Z) (only parsing).

Record opTracer := mkOpTracer { inserts : gset (list Z); deletes : gset (list Z) }.

Definition newOpTracer : opTracer := mkOpTracer ∅ ∅.

Definition onInsert (p : path) (t : opTracer) : opTracer :=
  if decide (p ∈ deletes t) then mkOpTracer (inserts t) (deletes t ∖ {[p]})
  else mkOpTracer (inserts t ∪ {[p]}) (deletes t).

Definition onDelete (p : path) (t : opTracer) : opTracer :=
  if decide (p ∈ inserts t) then mkOpTracer (inserts t ∖ {[p]}) (deletes t)
  else mkOpTracer (inserts t) (deletes t ∪ {[p]}).

(** [PrevalueTracer] *)
Abbreviation prevalues := (gmap (list Z) (list Z)) (only parsing).
Definition PrevalueTracer_Put (p : path) (val : list Z) (t : prevalues) : prevalues := <[p := val]> t.
Definition PrevalueTracer_Get (p : path) (t : prevalues) : list Z := default [] (t !! p).
Definition PrevalueTracer_HasList (l : list path) (t : prevalues) : list bool :=
  map (fun p => bool_decide (is_Some (t !! p))) l.

Record tracers := mkTracers { ops : opTracer; prev : prevalues }.

(** ** The monad *)

Inductive outcome (E A : Type) :=
| Ret (a : A)
| Throw (e : E)
| Panic
| NoFuel.
Arguments Ret {E A} a.
Arguments Throw {E A} e.
Arguments Panic {E A}.
Arguments NoFuel {E A}.

Definition TM (E A : Type) := tracers -> outcome E A * tracers.

Definition tm_ret {E A} (a : A) : TM E A := fun t => (Ret a, t).
Definition tm_throw {E A} (e : E) : TM E A := fun t => (Throw e, t).
Definition tm_panic {E A} : TM E A := fun t => (Panic, t).
Definition tm_bind {E A B} (m : TM E A) (k : A -> TM E B) : TM E B :=
  fun t =>
    match m t with
    | (Ret a, t) => k a t
    | (Throw e, t) => (Throw e, t)
    | (Panic, t) => (Panic, t)
    | (NoFuel, t) => (NoFuel, t)
    end.
(** An error is seen by the caller, which adds what it leaves behind. *)
Definition tm_map_err {E F A} (f : E -> F) (m : TM E A) : TM F A :=
  fun t =>
    match m t with
    | (Ret a, t) => (Ret a, t)
    | (Throw e, t) => (Throw (f e), t)
    | (Panic, t) => (Panic, t)
    | (NoFuel, t) => (NoFuel, t)
    end.
Definition tm_option {E A} (o : option A) : TM E A := match o with Some a => tm_ret a | None => tm_panic end.
Definition trace (f : opTracer -> opTracer) {E} : TM E unit :=
  fun t => (Ret tt, mkTracers (f (ops t)) (prev t)).

Lemma tm_bind_Ret {E A B} (m : TM E A) (k : A -> TM E B) t b t' :
  tm_bind m k t = (Ret b, t') <-> exists a t1, m t = (Ret a, t1) /\ k a t1 = (Ret b, t').
Proof.
  unfold tm_bind. destruct (m t) as [[a| | |] t1]; split.
  1: intros H; by exists a, t1.
  1: intros (? & ? & ? & ?); by simplify_eq.
  all: try done; intros (? & ? & ? & ?); by simplify_eq.
Qed.

Lemma tm_map_err_Ret {E F A} (f : E -> F) (m : TM E A) t a t' :
  tm_map_err f m t = (Ret a, t') <-> m t = (Ret a, t').
Proof. unfold tm_map_err. destruct (m t) as [[ | | |] ?]; split; intros; by simplify_eq. Qed.

Lemma tm_option_Ret {E A} (o : option A) t a t' :
  @tm_option E A o t = (Ret a, t') <-> o = Some a /\ t = t'.
Proof. destruct o; simpl; unfold tm_ret, tm_panic; split; [by intros [= -> ->]|by intros [[= ->] ->]|done|by intros []]. Qed.

Lemma tm_ret_Ret {E A} (a b : A) t t' : @tm_ret E A a t = (Ret b, t') <-> a = b /\ t = t'.
Proof. unfold tm_ret. split; [by intros [= -> ->]|by intros [-> ->]]. Qed.

Lemma tm_bind_Throw {E A B} (m : TM E A) (k : A -> TM E B) t e t' :
  tm_bind m k t = (Throw e, t') <->
  m t = (Throw e, t') \/ exists a t1, m t = (Ret a, t1) /\ k a t1 = (Throw e, t').
Proof.
  unfold tm_bind. destruct (m t) as [[a| | |] t1]; split.
  1: intros H; right; by exists a, t1.
  1: intros [?|(? & ? & ? & ?)]; by simplify_eq.
  1: intros [= -> ->]; by left.
  all: try done; intros [?|(? & ? & ? & ?)]; by simplify_eq.
Qed.

Lemma tm_map_err_Throw {E F A} (f : E -> F) (m : TM E A) t e' t' :
  tm_map_err f m t = (Throw e', t') <-> exists e, m t = (Throw e, t') /\ e' = f e.
Proof.
  unfold tm_map_err. destruct (m t) as [[ |e| |] ?]; split;
    [done|by intros (? & ? & ?)|intros [= <- <-]; by exists e|by intros (? & ? & ->); simplify_eq|
     done|by intros (? & ? & ?)|done|by intros (? & ? & ?)].
Qed.

Lemma tm_option_Throw {E A} (o : option A) t e t' : @tm_option E A o t <> (Throw e, t').
Proof. by destruct o. Qed.

Declare Scope trie_scope.
Notation "'let^' x := m 'in' k" := (tm_bind m (fun x => k))
  (at level 10, x name, m at level 100, k at level 200) : trie_scope.
Notation "'let^' ' p := m 'in' k" := (tm_bind m (fun x => match x with p => k end))
  (at level 10, p pattern, m at level 100, k at level 200) : trie_scope.
Open Scope trie_scope.

(** ** The reader, trie_reader.go *)

Inductive trie_error :=
| MissingNode (nodePath : path) (nodeHash : list Z)
| DecodeError (e : node_error)
| ErrCommitted.

Definition BytesToHash (b : list Z) : list Z :=
  let b := if 32 <? len b then drop (length b - 32) b else b in
  replicate (32 - length b) 0 ++ b.

Definition newFlag : nodeFlag := mkFlag None true.

(** [bytes.HasPrefix] *)
Definition HasPrefix (s prefix : list Z) : bool := bool_decide (take (length prefix) s = prefix).

(** An element of an array or a slice; an index out of range panics. *)
Definition at_index {A} (l : list A) (i : Z) : option A := if i <? 0 then None else l !! Z.to_nat i.
Definition set_index {A} (l : list A) (i : Z) (x : A) : option (list A) :=
  if (i <? 0) || (Z.of_nat (length l) <=? i) then None else Some (<[Z.to_nat i := x]> l).

Section trie.
Variable database : list Z -> list Z -> option (list Z).

(** [Reader.Node] *)
Definition Node (p : path) (hash : list Z) : result trie_error (list Z) :=
  match database p hash with
  | None | Some [] => Err (MissingNode p hash)
  | Some blob => Ok blob
  end.

Definition resolveAndTrack (n : list Z) (prefix : path) : TM trie_error node :=
  fun t =>
    match Node prefix (BytesToHash n) with
    | Err e => (Throw e, t)
    | Ok blob =>
        let t := mkTracers (ops t) (PrevalueTracer_Put prefix blob (prev t)) in
        match decodeNodeUnsafe (Some n) blob with
        | None => (NoFuel, t)
        | Some (Err e) => (Throw (DecodeError e), t)
        | Some (Ok n) => (Ret n, t)
        end
    end.

Definition resolve (n : node) (prefix : path) : TM trie_error node :=
  match n with
  | hashNode h => resolveAndTrack h prefix
  | _ => tm_ret n
  end.

(** ** Lookup *)

Fixpoint get (fuel : nat) (origNode : node) (key : list Z) (pos : nat) : TM trie_error (option (list Z) * node * bool) :=
  match fuel with
  | O => fun t => (NoFuel, t)
  | S fuel =>
      match origNode with
      | nilNode => tm_ret (None, nilNode, false)
      | valueNode v => tm_ret (Some v, origNode, false)
      | shortNode k v f =>
          if (length key <? pos)%nat then tm_panic
          else if negb (HasPrefix (drop pos key) k) then tm_ret (None, origNode, false)
          else
            let^ '(value, newnode, didResolve) := get fuel v key (pos + length k) in
            tm_ret (value, if didResolve then shortNode k newnode f else origNode, didResolve)
      | fullNode cs f =>
          let^ i := tm_option (key !! pos) in
          let^ child := tm_option (at_index cs i) in
          let^ '(value, newnode, didResolve) := get fuel child key (S pos) in
          if didResolve then
            let^ cs := tm_option (set_index cs i newnode) in tm_ret (value, fullNode cs f, didResolve)
          else tm_ret (value, origNode, didResolve)
      | hashNode h =>
          let^ child := resolveAndTrack h (take pos key) in
          let^ '(value, newnode, _) := get fuel child key pos in
          tm_ret (value, newnode, true)
      end
  end.

(** ** Insertion *)

Fixpoint insert (fuel : nat) (n : node) (prefix key : list Z) (value : node) : TM trie_error (bool * node) :=
  match fuel with
  | O => fun t => (NoFuel, t)
  | S fuel =>
      match key with
      | [] =>
          match n with
          | valueNode v =>
              match value with
              | valueNode v' => tm_ret (negb (bool_decide (v = v')), value)
              | _ => tm_panic
              end
          | _ => tm_ret (true, value)
          end
      | key0 :: keytl =>
          match n with
          | shortNode k v f =>
              let matchlen := prefixLen key k in
              if (matchlen =? length k)%nat then
                let^ '(dirty, nn) := insert fuel v (prefix ++ take matchlen key) (drop matchlen key) value in
                if negb dirty then tm_ret (false, n) else tm_ret (true, shortNode k nn newFlag)
              else
                let children := replicate 17 nilNode in
                let^ ki := tm_option (k !! matchlen) in
                let^ '(_, c) := insert fuel nilNode (prefix ++ take (S matchlen) k) (drop (S matchlen) k) v in
                let^ children := tm_option (set_index children ki c) in
                let^ keyi := tm_option (key !! matchlen) in
                let^ '(_, c) := insert fuel nilNode (prefix ++ take (S matchlen) key) (drop (S matchlen) key) value in
                let^ children := tm_option (set_index children keyi c) in
                let branch := fullNode children newFlag in
                if (matchlen =? 0)%nat then tm_ret (true, branch)
                else
                  let^ _ := trace (onInsert (prefix ++ take matchlen key)) in
                  tm_ret (true, shortNode (take matchlen key) branch newFlag)
          | fullNode cs f =>
              let^ child := tm_option (at_index cs key0) in
              let^ '(dirty, nn) := insert fuel child (prefix ++ [key0]) keytl value in
              if negb dirty then tm_ret (false, n)
              else let^ cs := tm_option (set_index cs key0 nn) in tm_ret (true, fullNode cs newFlag)
          | nilNode =>
              let^ _ := trace (onInsert prefix) in
              tm_ret (true, shortNode key value newFlag)
          | hashNode h =>
              let^ rn := resolveAndTrack h prefix in
              let^ '(dirty, nn) := insert fuel rn prefix key value in
              if negb dirty then tm_ret (false, rn) else tm_ret (true, nn)
          | valueNode _ => tm_panic
          end
      end
  end.

(** ** Deletion *)

(** The loop of the reduction: the index of the only child, -2 for several children and
    -1 for none. *)
Fixpoint only_child (cs : list node) (i pos : Z) : Z :=
  match cs with
  | [] => pos
  | cld :: cs =>
      if is_nil cld then only_child cs (i + 1) pos
      else if pos =? -1 then only_child cs (i + 1) i
      else -2
  end.

(** What is left when the child at [key0] of a full node is gone. *)
Definition reduce (cs : list node) (prefix : list Z) : TM (trie_error * node) (bool * node) :=
  let n := fullNode cs newFlag in
  let pos := only_child cs 0 (-1) in
  if 0 <=? pos then
    let^ child := tm_option (at_index cs pos) in
    if pos =? 16 then tm_ret (true, shortNode [pos] child newFlag)
    else
      let^ cnode := tm_map_err (fun e => (e, n)) (resolve child (prefix ++ [pos])) in
      match cnode with
      | shortNode k v _ =>
          let^ _ := trace (onDelete (prefix ++ [pos])) in
          tm_ret (true, shortNode (pos :: k) v newFlag)
      | _ => tm_ret (true, shortNode [pos] child newFlag)
      end
  else tm_ret (true, n).

Fixpoint delete (fuel : nat) (n : node) (prefix key : list Z) : TM (trie_error * node) (bool * node) :=
  match fuel with
  | O => fun t => (NoFuel, t)
  | S fuel =>
      match n with
      | shortNode k v f =>
          let matchlen := prefixLen key k in
          if (matchlen <? length k)%nat then tm_ret (false, n)
          else if (matchlen =? length key)%nat then
            let^ _ := trace (onDelete prefix) in tm_ret (true, nilNode)
          else
            let^ '(dirty, child) :=
              tm_map_err (fun '(e, v) => (e, shortNode k v f))
                (delete fuel v (prefix ++ take (length k) key) (drop (length k) key)) in
            if negb dirty then tm_ret (false, n)
            else
              match child with
              | shortNode ck cv _ =>
                  let^ _ := trace (onDelete (prefix ++ k)) in
                  tm_ret (true, shortNode (k ++ ck) cv newFlag)
              | _ => tm_ret (true, shortNode k child newFlag)
              end
      | fullNode cs f =>
          match key with
          | [] => tm_panic
          | key0 :: keytl =>
              let^ child := tm_option (at_index cs key0) in
              let^ '(dirty, nn) :=
                tm_map_err (fun '(e, v) => (e, fullNode (default cs (set_index cs key0 v)) f))
                  (delete fuel child (prefix ++ [key0]) keytl) in
              if negb dirty then tm_ret (false, n)
              else
                let^ cs := tm_option (set_index cs key0 nn) in
                if is_nil nn then reduce cs prefix else tm_ret (true, fullNode cs newFlag)
          end
      | valueNode _ => tm_ret (true, nilNode)
      | nilNode => tm_ret (false, nilNode)
      | hashNode h =>
          let^ rn := tm_map_err (fun e => (e, n)) (resolveAndTrack h prefix) in
          let^ '(dirty, nn) := tm_map_err (fun '(e, _) => (e, n)) (delete fuel rn prefix key) in
          if negb dirty then tm_ret (false, rn) else tm_ret (true, nn)
      end
  end.

(** ** The trie object *)

Record Trie := mkTrie {
  root : node;
  committed : bool;
  unhashed : Z;
  uncommitted : Z;
  tr : tracers }.

(** Each call consumes a key element or resolves a hash, or it ends. *)
Definition fuel_for (key : list Z) : nat := 2 * length key + 2.

Definition EmptyRootHash : list Z :=
  [0x56; 0xe8; 0x1f; 0x17; 0x1b; 0xcc; 0x55; 0xa6; 0xff; 0x83; 0x45; 0xe6; 0x92; 0xc0; 0xf8; 0x6e;
   0x5b; 0x48; 0xe0; 0x1b; 0x99; 0x6c; 0xad; 0xc0; 0x01; 0x62; 0x2f; 0xb5; 0xe3; 0x63; 0xb4; 0x21].

Definition New (rootHash : list Z) : outcome trie_error Trie :=
  let t := mkTracers newOpTracer ∅ in
  if bool_decide (rootHash = replicate 32 0) || bool_decide (rootHash = EmptyRootHash)
  then Ret (mkTrie nilNode false 0 0 t)
  else
    match resolveAndTrack rootHash [] t with
    | (Ret rootnode, t) => Ret (mkTrie rootnode false 0 0 t)
    | (Throw e, _) => Throw e
    | (Panic, _) => Panic
    | (NoFuel, _) => NoFuel
    end.

Definition set_root (n : node) (trc : tracers) (t : Trie) : Trie :=
  mkTrie n (committed t) (unhashed t) (uncommitted t) trc.

Definition Get (key : list Z) (t : Trie) : outcome trie_error (option (list Z)) * Trie :=
  if committed t then (Throw ErrCommitted, t)
  else
    match get (fuel_for (keybytesToHex key)) (root t) (keybytesToHex key) 0 (tr t) with
    | (Ret (value, newroot, didResolve), trc) =>
        (Ret value, set_root (if didResolve then newroot else root t) trc t)
    | (Throw e, trc) => (Throw e, set_root (root t) trc t)
    | (Panic, trc) => (Panic, set_root (root t) trc t)
    | (NoFuel, trc) => (NoFuel, set_root (root t) trc t)
    end.

(** The root after a change; after an error it is what the change left behind. *)
Definition changed (t : Trie) (r : outcome (trie_error * node) (bool * node) * tracers) : outcome trie_error unit * Trie :=
  match r with
  | (Ret (_, n), trc) => (Ret tt, set_root n trc t)
  | (Throw (e, n), trc) => (Throw e, set_root n trc t)
  | (Panic, trc) => (Panic, set_root (root t) trc t)
  | (NoFuel, trc) => (NoFuel, set_root (root t) trc t)
  end.

Definition count_change (t : Trie) : Trie :=
  mkTrie (root t) (committed t) (unhashed t + 1) (uncommitted t + 1) (tr t).

Definition insert_root (k : list Z) (value : list Z) (t : Trie) : outcome trie_error unit * Trie :=
  changed t (tm_map_err (fun e => (e, root t)) (insert (fuel_for k) (root t) [] k (valueNode value)) (tr t)).
Definition delete_root (k : list Z) (t : Trie) : outcome trie_error unit * Trie :=
  changed t (delete (fuel_for k) (root t) [] k (tr t)).

Definition update (key value : list Z) (t : Trie) : outcome trie_error unit * Trie :=
  let t := count_change t in
  let k := keybytesToHex key in
  match value with
  | [] => delete_root k t
  | _ => insert_root k value t
  end.

Definition Update (key value : list Z) (t : Trie) : outcome trie_error unit * Trie :=
  if committed t then (Throw ErrCommitted, t) else update key value t.

Definition Delete (key : list Z) (t : Trie) : outcome trie_error unit * Trie :=
  if committed t then (Throw ErrCommitted, t)
  else delete_root (keybytesToHex key) (count_change t).

(** [deletedNodes]: the deleted paths that were in the database. *)
Definition deletedNodes (t : Trie) : list path :=
  let list_ := elements (deletes (ops (tr t))) in
  let flags := PrevalueTracer_HasList list_ (prev (tr t)) in
  map fst (filter (fun '(_, f) => f = true) (zip list_ flags)).

(** [Witness] *)
Definition Witness (t : Trie) : prevalues := prev (tr t).
End trie.
