(* ===== verification/TrieMap.v ===== *)
(** The trie as a map from keys.

    [finds] is the reference: what is stored under a key below a node, resolving hashes
    through the store.  It is a relation, because a corrupt store could contain a cycle
    of extensions with empty keys.  Lookup computes it, and an insertion or a deletion
    changes it at its key and nowhere else. *)

From stdpp Require Import base gmap list numbers option.
From S2P Require Import Prelude Rlp TrieKeys TrieNode Trie.
Open Scope Z_scope.

(** ** Keys and prefixes *)

(** A key, and what is left of one on the way down. *)
Definition full_key (k : list Z) : Prop := exists l, Forall is_nibble l /\ k = l ++ [16].
Definition rest_key (k : list Z) : Prop := k = [] \/ full_key k.

Lemma full_key_keybytes key : Forall is_byte key -> full_key (keybytesToHex key).
Proof. intros H. exists (keybytes_nibbles key). split; [by apply keybytes_nibbles_ok|done]. Qed.

Lemma full_key_cons x k : full_key (x :: k) ->
  (x = 16 /\ k = []) \/ (is_nibble x /\ full_key k).
Proof.
  intros ([|y l] & Hl & E); simplify_eq/=; [by left|]. inversion_clear Hl. right. split; [done|]. by exists l.
Qed.

Lemma full_key_nil : ~ full_key [].
Proof. intros ([|? ?] & _ & E); done. Qed.

(** Removing nibbles from a key leaves a key; removing a whole key leaves nothing. *)
Lemma full_key_app_nibbles K k : Forall is_nibble K -> full_key (K ++ k) -> full_key k.
Proof.
  induction 1 as [|x K Hx _ IH]; simpl; [done|]. intros [[-> _]|[_ H]]%full_key_cons; [|auto].
  unfold is_nibble in Hx. lia.
Qed.

Lemma full_key_app_full K k : full_key K -> full_key (K ++ k) -> k = [].
Proof.
  intros (l & Hl & ->). induction Hl as [|x l Hx _ IH]; simpl.
  - intros [[_ ->]|[Hn _]]%full_key_cons; [done|]. unfold is_nibble in Hn. lia.
  - intros [[-> _]|[_ H]]%full_key_cons; [unfold is_nibble in Hx; lia|auto].
Qed.

Lemma HasPrefix_app K k : HasPrefix (K ++ k) K = true.
Proof. unfold HasPrefix. apply bool_decide_eq_true. by rewrite take_app_length. Qed.

Lemma prefix_cases k K : (exists t, k = K ++ t) \/ HasPrefix k K = false.
Proof.
  unfold HasPrefix. destruct (bool_decide_reflect (take (length K) k = K)) as [E|]; [|by right].
  left. exists (drop (length K) k). by rewrite <- E at 1; rewrite take_drop.
Qed.

Lemma HasPrefix_false k K : HasPrefix k K = false <-> forall t, k <> K ++ t.
Proof.
  split.
  - intros H t ->. by rewrite HasPrefix_app in H.
  - intros H. destruct (prefix_cases k K) as [[t ->]|]; [|done]. by destruct (H t).
Qed.

(** Where two keys part. *)
Lemma prefixLen_split a b :
  let m := prefixLen a b in
  exists pre a' b', a = pre ++ a' /\ b = pre ++ b' /\ length pre = m /\
    match a', b' with x :: _, y :: _ => x <> y | _, _ => True end.
Proof.
  intros m. exists (take m a), (drop m a), (drop m b). unfold m.
  rewrite take_drop, prefixLen_take, take_drop. destruct (prefixLen_le a b) as [Ha Hb].
  split; [done|]. split; [done|]. split; [rewrite length_take; lia|].
  destruct (drop (prefixLen a b) a) as [|x a'] eqn:Ea; [done|].
  destruct (drop (prefixLen a b) b) as [|y b'] eqn:Eb; [done|].
  apply (prefixLen_differ a b).
  - by rewrite <- (Nat.add_0_r (prefixLen a b)), <- lookup_drop, Ea.
  - by rewrite <- (Nat.add_0_r (prefixLen a b)), <- lookup_drop, Eb.
Qed.

(** ** Well-formed nodes, by position *)

Definition slot (n : node) : Prop := match n with nilNode | valueNode _ => True | _ => False end.

(** The node at a position from which [k] leads on: the value when nothing is left. *)
Definition node_at (k : list Z) (n : node) : Prop := match k with [] => slot n | _ => node_wf n end.

Lemma wf_full_iff cs f : node_wf (fullNode cs f) <->
  length cs = 17%nat /\ (forall i c, (i < 16)%nat -> cs !! i = Some c -> node_wf c) /\
  (forall c, cs !! 16%nat = Some c -> slot c).
Proof.
  split.
  - intros H. inversion H as [| | | |cs' last f' Hn Hc Hs]; subst. split; [rewrite length_app; simpl; lia|]. split.
    + intros i c Hi Hl. rewrite lookup_app_l in Hl by lia. by eapply list.Forall_lookup_1 in Hl.
    + intros c Hl. rewrite lookup_app_r in Hl by lia. rewrite Hn in Hl. by simplify_eq/=.
  - intros (Hn & Hc & Hs). destruct (lookup_lt_is_Some_2 cs 16%nat ltac:(lia)) as [last Hlast].
    rewrite <- (take_drop 16 cs). rewrite (drop_S cs last 16 Hlast).
    rewrite (drop_ge cs 17) by lia. apply wf_full; [rewrite length_take; lia| |by apply (Hs last)].
    apply list.Forall_lookup. intros i c Hl. apply lookup_take_Some in Hl as [Hl Hi]. by eapply Hc.
Qed.

Lemma wf_short_iff K c f : node_wf (shortNode K c f) <->
  (full_key K /\ exists v, c = valueNode v) \/ (Forall is_nibble K /\ node_wf c).
Proof.
  split.
  - intros H. inversion H; subst; [left; split; [by eexists|by eexists]|by right].
  - intros [[(l & Hl & ->) [v ->]]|[Hk Hc]]; by constructor.
Qed.

(** The child a key leads to below a short node. *)
Lemma short_child K c f k : node_wf (shortNode K c f) -> full_key (K ++ k) -> rest_key k /\ node_at k c.
Proof.
  intros [[Hk [v ->]]|[Hk Hc]]%wf_short_iff Hf.
  - rewrite (full_key_app_full K k) by done. split; [by left|done].
  - apply full_key_app_nibbles in Hf; [|done]. split; [by right|].
    destruct k; [by apply full_key_nil in Hf|done].
Qed.

Lemma at_index_lookup {A} (l : list A) i x : 0 <= i -> at_index l i = Some x <-> l !! Z.to_nat i = Some x.
Proof. intros Hi. unfold at_index. by rewrite (proj2 (Z.ltb_ge _ _)). Qed.

Lemma full_child cs f x k : node_wf (fullNode cs f) -> full_key (x :: k) ->
  exists c, at_index cs x = Some c /\ 0 <= x < 17 /\ rest_key k /\ node_at k c.
Proof.
  intros (Hn & Hc & Hs)%wf_full_iff [[-> ->]|[Hx Hk]]%full_key_cons.
  - destruct (lookup_lt_is_Some_2 cs 16%nat ltac:(lia)) as [c Hl]. exists c.
    split; [done|]. split; [lia|]. split; [by left|by apply Hs].
  - unfold is_nibble in Hx. destruct (lookup_lt_is_Some_2 cs (Z.to_nat x) ltac:(lia)) as [c Hl]. exists c.
    split; [by apply at_index_lookup; [lia|]|]. split; [lia|]. split; [by right|].
    destruct k; [by apply full_key_nil in Hk|]. apply (Hc (Z.to_nat x)); [lia|done].
Qed.

Lemma set_index_Some {A} (l : list A) i x : 0 <= i < Z.of_nat (length l) ->
  set_index l i x = Some (<[Z.to_nat i := x]> l).
Proof. intros Hi. unfold set_index. by rewrite (proj2 (Z.ltb_ge _ _)), (proj2 (Z.leb_gt _ _)) by lia. Qed.

Lemma wf_full_insert cs f f' x k c : node_wf (fullNode cs f) -> full_key (x :: k) -> node_at k c ->
  node_wf (fullNode (<[Z.to_nat x := c]> cs) f').
Proof.
  intros (Hn & Hc & Hs)%wf_full_iff Hk Ha. apply wf_full_iff. rewrite length_insert. split; [done|].
  apply full_key_cons in Hk as [[-> ->]|[Hx Hk]].
  - split.
    + intros i c' Hi. rewrite list_lookup_insert_ne by lia. by apply Hc.
    + intros c'. change (Z.to_nat 16) with 16%nat. rewrite list_lookup_insert_eq by lia. by intros [= <-].
  - unfold is_nibble in Hx. split.
    + intros i c' Hi. destruct (decide (i = Z.to_nat x)) as [->|]; [|rewrite list_lookup_insert_ne by done; by apply Hc].
      rewrite list_lookup_insert_eq by lia. intros [= <-]. destruct k; [by apply full_key_nil in Hk|done].
    + intros c'. rewrite list_lookup_insert_ne by lia. apply Hs.
Qed.

Section finds.
Variable database : list Z -> list Z -> option (list Z).
Hypothesis database_bytes : forall p h b, database p h = Some b -> Forall is_byte b /\ len b < two64.

(** The node a hash stands for at a path. *)
Definition load (p h : list Z) : result trie_error node :=
  match Node database p (BytesToHash h) with
  | Err e => Err e
  | Ok blob =>
      match decodeNodeUnsafe (Some h) blob with
      | Some (Ok n) => Ok n
      | Some (Err e) => Err (DecodeError e)
      | None => Err ErrCommitted
      end
  end.

Lemma Node_bytes p h blob : Node database p h = Ok blob -> Forall is_byte blob /\ len blob < two64.
Proof.
  unfold Node. destruct (database p h) as [[|x b]|] eqn:E; [done| |done]. intros [= <-].
  by apply database_bytes in E.
Qed.

Lemma load_wf p h n : load p h = Ok n -> node_wf n /\ resolved n.
Proof.
  unfold load. destruct (Node database p (BytesToHash h)) as [blob|] eqn:E; [|done].
  apply Node_bytes in E as [Hb Hl].
  destruct (decode_fuel_wf (S (length blob)) (Some h) blob Hb Hl ltac:(unfold len; lia)) as (r & E & Hr).
  unfold decodeNodeUnsafe. rewrite E. destruct r; [|done]. intros [= <-]. by apply Hr.
Qed.

Lemma resolveAndTrack_load p h t : exists t',
  resolveAndTrack database h p t = (match load p h with Ok n => Ret n | Err e => Throw e end, t').
Proof.
  unfold resolveAndTrack, load. destruct (Node database p (BytesToHash h)) as [blob|] eqn:E; [|by eexists].
  apply Node_bytes in E as [Hb Hl].
  destruct (decode_fuel_wf (S (length blob)) (Some h) blob Hb Hl ltac:(unfold len; lia)) as (r & E & Hr).
  unfold decodeNodeUnsafe. rewrite E. destruct r; by eexists.
Qed.

Inductive finds : list Z -> node -> list Z -> result trie_error (option (list Z)) -> Prop :=
| finds_nil p k : finds p nilNode k (Ok None)
| finds_value p v : finds p (valueNode v) [] (Ok (Some v))
| finds_miss p K c f k : HasPrefix k K = false -> finds p (shortNode K c f) k (Ok None)
| finds_short p K c f k r : finds (p ++ K) c k r -> finds p (shortNode K c f) (K ++ k) r
| finds_full p cs f x c k r : at_index cs x = Some c -> finds (p ++ [x]) c k r -> finds p (fullNode cs f) (x :: k) r
| finds_missing p h k e : load p h = Err e -> finds p (hashNode h) k (Err e)
| finds_hash p h n k r : load p h = Ok n -> finds p n k r -> finds p (hashNode h) k r.

Lemma finds_nil_iff p k r : finds p nilNode k r <-> r = Ok None.
Proof. split; [by inversion 1|intros ->; constructor]. Qed.

Lemma finds_value_iff p v r : finds p (valueNode v) [] r <-> r = Ok (Some v).
Proof. split; [by inversion 1|intros ->; constructor]. Qed.

Lemma finds_short_iff p K c f k r : finds p (shortNode K c f) (K ++ k) r <-> finds (p ++ K) c k r.
Proof.
  split; [|by constructor]. inversion 1 as [| |? ? ? ? ? Hp|? ? ? ? k' ? Hf E1 E2 E3| | |]; subst.
  - by rewrite HasPrefix_app in Hp.
  - by apply app_inv_head in E3 as ->.
Qed.

Lemma finds_miss_iff p K c f k r : HasPrefix k K = false -> finds p (shortNode K c f) k r <-> r = Ok None.
Proof.
  intros Hp. split; [|intros ->; by constructor].
  inversion 1; subst; [done|]. by rewrite HasPrefix_app in Hp.
Qed.

Lemma finds_full_iff p cs f x c k r : at_index cs x = Some c ->
  finds p (fullNode cs f) (x :: k) r <-> finds (p ++ [x]) c k r.
Proof. intros E. split; [inversion 1; by simplify_eq|]. by apply finds_full. Qed.

Lemma finds_hash_iff p h k r : finds p (hashNode h) k r <->
  match load p h with Ok n => finds p n k r | Err e => r = Err e end.
Proof.
  split.
  - inversion 1 as [| | | | |? ? ? ? E|? ? ? ? ? E]; subst; by rewrite E.
  - destruct (load p h) eqn:E; [by apply finds_hash|intros ->; by apply finds_missing].
Qed.

(** ** Short nodes with possibly empty keys *)

Definition prepend (K : list Z) (c : node) : node := match K with [] => c | _ => shortNode K c newFlag end.

Lemma finds_prepend_iff p K c k r : finds p (prepend K c) (K ++ k) r <-> finds (p ++ K) c k r.
Proof. destruct K; [simpl; by rewrite app_nil_r|]. apply finds_short_iff. Qed.

Lemma finds_prepend_miss p K c k r : HasPrefix k K = false -> finds p (prepend K c) k r <-> r = Ok None.
Proof. destruct K as [|x K]; [|apply finds_miss_iff]. intros H. change (HasPrefix ([] ++ k) [] = false) in H. by rewrite HasPrefix_app in H. Qed.

(** ** Changes at one key *)

(** [n'] maps [key] to [o] and agrees with [n] elsewhere. *)
Definition updates (p : list Z) (n n' : node) (key : list Z) (o : option (list Z)) : Prop :=
  forall k r, rest_key k -> (k = [] <-> key = []) ->
  finds p n' k r <-> (if decide (k = key) then r = Ok o else finds p n k r).

(** Below a common prefix. *)
Lemma updates_prepend p K c c' f f' k o :
  full_key (K ++ k) -> node_wf (shortNode K c f) -> updates (p ++ K) c c' k o ->
  updates p (shortNode K c f) (shortNode K c' f') (K ++ k) o.
Proof.
  intros Hf Hwf Hu k' r Hk Hkind.
  destruct Hk as [->|Hk']; [exfalso; apply (full_key_nil); by rewrite (proj1 Hkind eq_refl) in Hf|].
  destruct (prefix_cases k' K) as [[t ->]|Hm].
  - rewrite finds_short_iff. destruct (short_child K c f k Hwf Hf) as [Hr Hc].
    destruct (short_child K c f t Hwf Hk') as [Hr' _].
    rewrite (Hu t r); [|done|].
    + destruct (decide (t = k)) as [->|Hne]; [by rewrite decide_True|].
      rewrite decide_False; [by rewrite finds_short_iff|]. intros E. by apply app_inv_head in E.
    + apply wf_short_iff in Hwf as [[Hfull _]|[Hn _]].
      * rewrite (full_key_app_full K k), (full_key_app_full K t) by done. done.
      * apply full_key_app_nibbles in Hf, Hk'; [|done..]. split; intros ->; by apply full_key_nil in Hf || by apply full_key_nil in Hk'.
  - rewrite finds_miss_iff by done. rewrite decide_False; [by rewrite finds_miss_iff|]. intros ->. by rewrite HasPrefix_app in Hm.
Qed.

Lemma updates_full p cs f f' x k c c' o :
  full_key (x :: k) -> node_wf (fullNode cs f) -> at_index cs x = Some c -> updates (p ++ [x]) c c' k o ->
  updates p (fullNode cs f) (fullNode (<[Z.to_nat x := c']> cs) f') (x :: k) o.
Proof.
  intros Hf Hwf Hc Hu k' r Hk Hkind.
  destruct Hk as [->|Hk']; [by pose proof (proj1 Hkind eq_refl)|].
  destruct k' as [|y k']; [by apply full_key_nil in Hk'|].
  destruct (full_child cs f x k Hwf Hf) as (c0 & E & Hx & Hr & _). simplify_eq.
  destruct (full_child cs f y k' Hwf Hk') as (d & Ed & Hy & Hr' & _).
  pose proof Hwf as (Hn & _)%wf_full_iff.
  destruct (decide (y = x)) as [->|Hne].
  - simplify_eq. rewrite (finds_full_iff p (<[Z.to_nat x:=c']> cs) f' x c');
      [|apply at_index_lookup; [lia|apply list_lookup_insert_eq; lia]].
    rewrite (Hu k' r); [|done|].
    + destruct (decide (k' = k)) as [->|Hk]; [by rewrite decide_True|].
      rewrite decide_False; [by rewrite (finds_full_iff p cs f x c)|]. congruence.
    + apply full_key_cons in Hf as [[-> ->]|[Hx' Hfk]]; apply full_key_cons in Hk' as [[E' ->]|[Hx'' Hfk']]; try done;
        unfold is_nibble in *; try lia. split; intros ->; by apply full_key_nil in Hfk || by apply full_key_nil in Hfk'.
  - rewrite decide_False by congruence.
    rewrite (finds_full_iff p (<[Z.to_nat x:=c']> cs) f' y d);
      [by rewrite (finds_full_iff p cs f y d)|].
    apply at_index_lookup; [lia|]. rewrite list_lookup_insert_ne by lia. by apply at_index_lookup in Ed; [|lia].
Qed.

Lemma updates_hash p h n n' k o : load p h = Ok n -> updates p n n' k o -> updates p (hashNode h) n' k o.
Proof.
  intros E Hu k' r Hk Hkind. rewrite (Hu k' r) by done. case_decide; [done|].
  by rewrite finds_hash_iff, E.
Qed.
Lemma finds_concat p K K' c f f' g k r :
  finds p (shortNode (K ++ K') c f) k r <-> finds p (shortNode K (shortNode K' c g) f') k r.
Proof.
  destruct (prefix_cases k K) as [[t ->]|Hm].
  - rewrite finds_short_iff. destruct (prefix_cases t K') as [[u ->]|Hm].
    + rewrite finds_short_iff, app_assoc, finds_short_iff. by rewrite <- app_assoc.
    + rewrite !finds_miss_iff; [done|done|]. apply HasPrefix_false. intros u E.
      rewrite <- app_assoc in E. apply app_inv_head in E as ->. by rewrite HasPrefix_app in Hm.
  - rewrite !finds_miss_iff; [done|done|]. apply HasPrefix_false. intros u ->.
    rewrite <- app_assoc in Hm. by rewrite HasPrefix_app in Hm.
Qed.

Lemma updates_same p n1 n n1' n' k o :
  (forall k r, finds p n1 k r <-> finds p n k r) -> (forall k r, finds p n1' k r <-> finds p n' k r) ->
  updates p n1 n1' k o -> updates p n n' k o.
Proof.
  intros H H' Hu k' r Hk Hkind. rewrite <- H'. rewrite (Hu k' r) by done. case_decide; [done|apply H].
Qed.

(** ** Insertion *)

Lemma insert_nil fuel p k value t : exists t',
  insert database (S fuel) nilNode p k value t = (Ret (true, prepend k value), t').
Proof. destruct k; by eexists. Qed.

(** The two children of a new branch. *)
Definition branch_children (a : Z) (ca : node) (b : Z) (cb : node) : list node :=
  <[Z.to_nat b := cb]> (<[Z.to_nat a := ca]> (replicate 17 nilNode)).

Lemma branch_lookup a ca b cb x : 0 <= a < 17 -> 0 <= b < 17 -> 0 <= x < 17 -> a <> b ->
  at_index (branch_children a ca b cb) x = Some (if x =? b then cb else if x =? a then ca else nilNode).
Proof.
  intros Ha Hb Hx Hne. apply at_index_lookup; [lia|]. unfold branch_children.
  destruct (Z.eqb_spec x b) as [->|]; [apply list_lookup_insert_eq; rewrite length_insert, length_replicate; lia|].
  rewrite list_lookup_insert_ne by lia.
  destruct (Z.eqb_spec x a) as [->|]; [apply list_lookup_insert_eq; rewrite length_replicate; lia|].
  rewrite list_lookup_insert_ne by lia. apply lookup_replicate. split; [done|lia].
Qed.

Definition child_ok (x : Z) (c : node) : Prop := 0 <= x < 17 /\ (if x =? 16 then slot c else node_wf c).

Lemma prepend_child_ok a K c f : node_wf (shortNode (a :: K) c f) -> child_ok a (prepend K c).
Proof.
  intros [[Hk [v ->]]|[Hk Hc]]%wf_short_iff; unfold child_ok.
  - apply full_key_cons in Hk as [[-> ->]|[Ha Hk]]; [by split; [lia|]|]. unfold is_nibble in Ha.
    rewrite (proj2 (Z.eqb_neq _ _)) by lia. split; [lia|]. destruct K; [by apply full_key_nil in Hk|].
    apply wf_short_iff. left. eauto.
  - inversion_clear Hk as [|? ? Ha HK]. unfold is_nibble in Ha.
    rewrite (proj2 (Z.eqb_neq _ _)) by lia. split; [lia|]. destruct K; [done|]. apply wf_short_iff. by right.
Qed.

Lemma branch_wf a ca b cb f : child_ok a ca -> child_ok b cb -> a <> b ->
  node_wf (fullNode (branch_children a ca b cb) f).
Proof.
  intros [Ha Hca] [Hb Hcb] Hne. apply wf_full_iff.
  split; [unfold branch_children; by rewrite !length_insert, length_replicate|].
  assert (forall i c, (i < 17)%nat -> branch_children a ca b cb !! i = Some c -> child_ok (Z.of_nat i) c) as H.
  { intros i c Hi Hl. assert (at_index (branch_children a ca b cb) (Z.of_nat i) = Some c) as E
      by (apply at_index_lookup; [lia|by rewrite Nat2Z.id]).
    rewrite branch_lookup in E by lia. split; [lia|].
    destruct (Z.eqb_spec (Z.of_nat i) b) as [->|]; simplify_eq; [done|].
    destruct (Z.eqb_spec (Z.of_nat i) a) as [->|]; simplify_eq; [done|]. destruct (Z.of_nat i =? 16); constructor. }
  split; intros.
  - destruct (H i c ltac:(lia) H1) as [_ Hc]. by rewrite (proj2 (Z.eqb_neq _ _)) in Hc by lia.
  - destruct (H 16%nat c ltac:(lia) H0) as [_ Hc]. done.
Qed.

Lemma branch_updates p a K c f b k v :
  full_key (b :: k) -> a <> b -> node_wf (shortNode (a :: K) c f) ->
  updates p (shortNode (a :: K) c f)
    (fullNode (branch_children a (prepend K c) b (prepend k (valueNode v))) newFlag) (b :: k) (Some v).
Proof.
  intros Hk Hne Hwf k' r Hk' Hkind. destruct Hk' as [->|Hk']; [by pose proof (proj1 Hkind eq_refl)|].
  destruct k' as [|y k']; [by apply full_key_nil in Hk'|].
  pose proof (prepend_child_ok a K c f Hwf) as [Ha _].
  assert (forall x l, full_key (x :: l) -> 0 <= x < 17) as Hr
    by (intros x l [[-> _]|[Hx _]]%full_key_cons; unfold is_nibble in *; lia).
  pose proof (Hr _ _ Hk) as Hb. pose proof (Hr _ _ Hk') as Hy.
  rewrite (finds_full_iff p _ newFlag y _ k' r (branch_lookup a _ b _ y Ha Hb Hy Hne)).
  destruct (Z.eqb_spec y b) as [->|Hyb].
  - assert (HasPrefix (b :: k') (a :: K) = false) as Hm by (apply HasPrefix_false; intros u E; by simplify_eq/=).
    destruct (prefix_cases k' k) as [[t ->]|Hmk].
    + rewrite finds_prepend_iff.
      assert (t = []) as ->.
      { apply (full_key_app_full (b :: k)); [done|by rewrite <- app_comm_cons]. }
      rewrite app_nil_r, decide_True by done. apply finds_value_iff.
    + rewrite finds_prepend_miss by done. rewrite decide_False; [by rewrite finds_miss_iff|].
      intros E. simplify_eq. pose proof (HasPrefix_app k []) as Hp. rewrite app_nil_r in Hp. congruence.
  - rewrite decide_False by congruence. destruct (Z.eqb_spec y a) as [->|Hya].
    + destruct (prefix_cases k' K) as [[t ->]|Hm].
      * rewrite finds_prepend_iff, app_comm_cons, finds_short_iff. by rewrite <- app_assoc.
      * rewrite finds_prepend_miss, finds_miss_iff; [done| |done]. apply HasPrefix_false. intros u E.
        rewrite <- app_comm_cons in E. injection E as ->. by rewrite HasPrefix_app in Hm.
    + rewrite finds_nil_iff, finds_miss_iff; [done|]. apply HasPrefix_false. intros u E. by simplify_eq/=.
Qed.

(** An insertion that succeeds. *)
Definition inserted (p : list Z) (n : node) (key v : list Z) (d : bool) (n' : node) : Prop :=
  node_at key n' /\ updates p n n' key (Some v) /\ (d = false -> updates p n n key (Some v)).

Lemma insert_value_at fuel n p v : forall d n' t t',
  insert database (S fuel) n p [] (valueNode v) t = (Ret (d, n'), t') -> node_at [] n -> inserted p n [] v d n'.
Proof.
  intros d n' t t' E Hn.
  assert (n' = valueNode v /\ (d = false -> n = valueNode v)) as [-> Hd].
  { destruct n; unfold tm_ret in E; simpl in E, Hn; try done; unfold tm_ret in E; simplify_eq/=; [done|].
    split; [done|]. intros H. apply negb_false_iff, bool_decide_eq_true in H as ->. done. }
  assert (updates p n (valueNode v) [] (Some v)) as Hu.
  { intros k r _ Hk. rewrite (proj2 Hk eq_refl), decide_True by done. apply finds_value_iff. }
  split; [done|]. split; [done|]. intros Hdf. by rewrite (Hd Hdf) at 1 2; rewrite (Hd Hdf) in Hu.
Qed.

(** Where a key leaves the key of a short node. *)
Lemma part_point K c f key : full_key key -> node_wf (shortNode K c f) -> prefixLen key K <> length K ->
  exists pre a K' b k', K = pre ++ a :: K' /\ key = pre ++ b :: k' /\ length pre = prefixLen key K /\ a <> b
    /\ Forall is_nibble pre /\ node_wf (shortNode (a :: K') c newFlag) /\ full_key (b :: k').
Proof.
  intros Hk Hwf Hm. destruct (prefixLen_split key K) as (pre & key' & K' & Ek & EK & Elen & Hne).
  destruct K' as [|a K']; [exfalso; apply Hm; rewrite <- Elen; by rewrite EK, app_nil_r|].
  assert (Forall is_nibble pre) as Hpre.
  { apply wf_short_iff in Hwf as [[(l & Hl & El) _]|[Hn _]].
    - rewrite EK in El. destruct (exists_last (l:=a :: K') ltac:(done)) as (l' & x & Ex). rewrite Ex, app_assoc in El.
      apply app_inj_tail in El as [El _]. rewrite <- El in Hl. by apply Forall_app in Hl as [? _].
    - rewrite EK in Hn. by apply Forall_app in Hn as [? _]. }
  destruct key' as [|b k']; [rewrite Ek in Hk; apply full_key_app_nibbles in Hk; [by apply full_key_nil in Hk|done]|].
  exists pre, a, K', b, k'. do 3 (split; [done|]); split; [by intros ->|]; split; [done|]; split; [|rewrite Ek in Hk; by apply full_key_app_nibbles in Hk].
  apply wf_short_iff in Hwf as [[HK Hv]|[HK Hc]]; apply wf_short_iff.
  - left. split; [|done]. rewrite EK in HK. by apply full_key_app_nibbles in HK.
  - right. rewrite EK in HK. by apply Forall_app in HK as [_ ?].
Qed.

(** The node an insertion builds there. *)
Definition parted pre a K' c b k' v : node :=
  prepend pre (fullNode (branch_children a (prepend K' c) b (prepend k' (valueNode v))) newFlag).

Lemma parted_spec p pre a K' c f b k' v :
  full_key (pre ++ b :: k') -> a <> b -> Forall is_nibble pre ->
  node_wf (shortNode (a :: K') c newFlag) -> full_key (b :: k') ->
  node_wf (parted pre a K' c b k' v) /\
  updates p (shortNode (pre ++ a :: K') c f) (parted pre a K' c b k' v) (pre ++ b :: k') (Some v).
Proof.
  intros Hk Hne Hpre Hwf' Hk'. unfold parted.
  assert (node_wf (fullNode (branch_children a (prepend K' c) b (prepend k' (valueNode v))) newFlag)) as Hbr.
  { apply branch_wf; [by apply (prepend_child_ok a K' c newFlag)| |done].
    apply (prepend_child_ok b k' (valueNode v) newFlag). apply wf_short_iff. left. eauto. }
  split; [destruct pre; [done|]; apply wf_short_iff; by right|].
  pose proof (branch_updates (p ++ pre) a K' c newFlag b k' v Hk' Hne Hwf') as Hu.
  destruct pre as [|x pre].
  - rewrite app_nil_r in Hu. eapply updates_same; [|done|exact Hu].
    intros k r. destruct (prefix_cases k (a :: K')) as [[u ->]|Hmi]; [by rewrite !finds_short_iff|by rewrite !finds_miss_iff].
  - assert (node_wf (shortNode (x :: pre) (shortNode (a :: K') c newFlag) newFlag)) as Hwfs
      by (apply wf_short_iff; by right).
    eapply updates_same; [|done|exact (updates_prepend p (x :: pre) _ _ newFlag newFlag _ _ Hk Hwfs Hu)].
    intros k r. symmetry. apply finds_concat.
Qed.

Lemma take_prefixLen_prefix a b : prefixLen a b = length b -> exists t, a = b ++ t.
Proof.
  intros E. destruct (prefixLen_split a b) as (pre & a' & b' & -> & Eb & El & _). exists a'.
  f_equal. subst b. rewrite length_app in E. destruct b'; [by rewrite app_nil_r|simpl in E; lia].
Qed.

(** Inversion of a run that returned, for the operations. *)
Ltac run_inv :=
  repeat match goal with
  | H : tm_bind _ _ _ = (Ret _, _) |- _ => apply tm_bind_Ret in H as (? & ? & ? & H)
  | H : tm_option _ _ = (Ret _, _) |- _ => apply tm_option_Ret in H as [? ?]
  | H : tm_map_err _ _ _ = (Ret _, _) |- _ => apply tm_map_err_Ret in H
  | H : tm_ret _ _ = (Ret _, _) |- _ => apply tm_ret_Ret in H as [? ?]
  | H : trace _ _ = (Ret _, _) |- _ => unfold trace in H
  | H : resolveAndTrack _ _ _ _ = (Ret _, _) |- _ =>
      let t := fresh in let E := fresh in
      match type of H with resolveAndTrack _ ?h ?p ?t0 = _ => destruct (resolveAndTrack_load p h t0) as [t E] end;
      rewrite E in H; clear E; destruct (load _ _) eqn:?
  | p : _ * _ |- _ => destruct p
  end; simplify_eq.

Lemma insert_nil_inv fuel p k c t d n' t' :
  insert database fuel nilNode p k c t = (Ret (d, n'), t') -> n' = prepend k c.
Proof. destruct fuel; [done|]. destruct k; cbn [insert]; intros E; by run_inv. Qed.

Lemma set_index_inv {A} (l : list A) i x l' : set_index l i x = Some l' -> l' = <[Z.to_nat i := x]> l.
Proof. unfold set_index. case_match; [done|]. by intros [= <-]. Qed.

Lemma inserted_dirty p n key v n' : node_at key n' -> updates p n n' key (Some v) -> inserted p n key v true n'.
Proof. intros. split; [done|]. split; [done|]. by intros ?. Qed.

Lemma insert_empty p key v : full_key key -> inserted p nilNode key v true (shortNode key (valueNode v) newFlag).
Proof.
  intros Hk. apply inserted_dirty.
  - destruct key; [by apply full_key_nil in Hk|]. apply wf_short_iff. left. eauto.
  - intros k r Hr Hkind. destruct Hr as [->|Hr]; [rewrite (proj1 Hkind eq_refl) in Hk; by apply full_key_nil in Hk|].
    destruct (prefix_cases k key) as [[t ->]|Hm].
    + rewrite (full_key_app_full key t) by done. rewrite finds_short_iff, app_nil_r, decide_True by done.
      apply finds_value_iff.
    + rewrite finds_miss_iff by done. rewrite decide_False; [by rewrite finds_nil_iff|].
      intros ->. pose proof (HasPrefix_app key []) as Hp. rewrite app_nil_r in Hp. congruence.
Qed.

Lemma part_range a K c b k f : node_wf (shortNode (a :: K) c f) -> full_key (b :: k) -> 0 <= a < 17 /\ 0 <= b < 17.
Proof.
  intros Hwf Hk. split; [apply (prepend_child_ok a K c f Hwf)|].
  apply full_key_cons in Hk as [[-> _]|[Hb _]]; unfold is_nibble in *; lia.
Qed.

Lemma insert_nil_eval fuel p k c t : (1 <= fuel)%nat -> exists t',
  insert database fuel nilNode p k c t = (Ret (true, prepend k c), t').
Proof. intros Hf. destruct fuel; [lia|]. destruct k; by eexists. Qed.

(** The run of an insertion that parts from the key of a short node. *)
Lemma insert_branch_eval fuel p pre a K' c f b k' v t : (1 <= fuel)%nat -> a <> b ->
  0 <= a < 17 -> 0 <= b < 17 -> length pre = prefixLen (pre ++ b :: k') (pre ++ a :: K') ->
  exists t', insert database (S fuel) (shortNode (pre ++ a :: K') c f) p (pre ++ b :: k') (valueNode v) t
    = (Ret (true, parted pre a K' c b k' v), t').
Proof.
  intros Hf Hne Ha Hb El. remember (pre ++ b :: k') as key eqn:Ek. remember (pre ++ a :: K') as K eqn:EK.
  assert (K !! length pre = Some a) as Ea by (rewrite EK; by apply list_lookup_middle).
  assert (key !! length pre = Some b) as Eb by (rewrite Ek; by apply list_lookup_middle).
  assert (drop (S (length pre)) K = K') as EdK.
  { rewrite EK. replace (S (length pre)) with (length pre + 1)%nat by lia. by rewrite drop_app_add. }
  assert (drop (S (length pre)) key = k') as Edk.
  { rewrite Ek. replace (S (length pre)) with (length pre + 1)%nat by lia. by rewrite drop_app_add. }
  assert (take (length pre) key = pre) as Et by (rewrite Ek; by rewrite take_app_length).
  assert (length pre < length K)%nat as Hlt by (by apply lookup_lt_Some in Ea).
  clear Ek. destruct key as [|key0 keytl]; [done|]. cbn [insert]. rewrite <- El, (proj2 (Nat.eqb_neq _ _)) by lia.
  rewrite Ea, Eb, EdK, Edk, Et. cbn [tm_option]. unfold tm_bind at 1. unfold tm_ret at 1.
  destruct (insert_nil_eval fuel (p ++ take (S (length pre)) K) K' c t Hf) as [t1 E1].
  unfold tm_bind at 1. rewrite E1. rewrite set_index_Some by (rewrite length_replicate; lia).
  cbn [tm_option]. unfold tm_bind at 1. unfold tm_ret at 1. unfold tm_bind at 1. unfold tm_ret at 1.
  destruct (insert_nil_eval fuel (p ++ take (S (length pre)) (key0 :: keytl)) k' (valueNode v) t1 Hf) as [t2 E2].
  unfold tm_bind at 1. rewrite E2. rewrite set_index_Some by (rewrite length_insert, length_replicate; lia).
  cbn [tm_option]. unfold tm_bind at 1. unfold tm_ret at 1. fold (branch_children a (prepend K' c) b (prepend k' (valueNode v))).
  unfold parted. destruct pre; by eexists.
Qed.

Lemma insert_branch_run fuel p K c f key v t d n' t' :
  full_key key -> node_wf (shortNode K c f) -> prefixLen key K <> length K ->
  insert database (S fuel) (shortNode K c f) p key (valueNode v) t = (Ret (d, n'), t') ->
  inserted p (shortNode K c f) key v d n'.
Proof.
  intros Hk Hwf Hm E.
  destruct (part_point K c f key Hk Hwf Hm) as (pre & a & K' & b & k' & EK & Ek & El & Hne & Hpre & Hwf' & Hk').
  destruct (part_range a K' c b k' newFlag Hwf' Hk') as [Ha Hb].
  destruct fuel as [|fuel].
  { destruct key as [|key0 keytl]; [by destruct pre|]. cbn [insert] in E. rewrite (proj2 (Nat.eqb_neq _ _) Hm) in E.
    by run_inv. }
  rewrite EK, Ek in *. destruct (insert_branch_eval (S fuel) p pre a K' c f b k' v t ltac:(lia) Hne Ha Hb El) as [t2 E2].
  rewrite E2 in E. simplify_eq. destruct (parted_spec p pre a K' c f b k' v Hk Hne Hpre Hwf' Hk') as [Hw Hu].
  apply inserted_dirty; [|done]. by destruct pre.
Qed.

(** A short node whose child was replaced. *)
Lemma short_rebuild p K c c' f f' k v : node_wf (shortNode K c f) -> full_key (K ++ k) ->
  node_at k c' -> updates p c c' k (Some v) -> node_wf (shortNode K c' f').
Proof.
  intros [[HK _]|[HK _]]%wf_short_iff Hf Hc Hu; apply wf_short_iff.
  - left. split; [done|]. rewrite (full_key_app_full K k) in Hc, Hu by done.
    destruct c' as [|w| | |]; try done; [|by exists w].
    assert (finds p nilNode [] (Ok None)) as Hn by constructor.
    apply (Hu [] (Ok None) ltac:(by left) ltac:(done)) in Hn. by rewrite decide_True in Hn.
  - right. split; [done|]. apply full_key_app_nibbles in Hf; [|done].
    by destruct k; [apply full_key_nil in Hf|].
Qed.

Lemma insert_spec fuel : forall n p key v t d n' t',
  insert database fuel n p key (valueNode v) t = (Ret (d, n'), t') ->
  rest_key key -> node_at key n -> inserted p n key v d n'.
Proof.
  induction fuel as [|fuel IH]; intros n p key v t d n' t' E Hk Hn; [done|].
  destruct Hk as [->|Hk]; [by eapply insert_value_at|].
  destruct key as [|key0 keytl]; [by apply full_key_nil in Hk|]. simpl in Hn.
  destruct n as [|w|K c f|cs f|h]; [|inversion Hn| | |].
  - cbn [insert] in E. run_inv. by apply insert_empty.
  - destruct (decide (prefixLen (key0 :: keytl) K = length K)) as [Em|Hm]; [|by eapply insert_branch_run].
    cbn [insert] in E. rewrite Em, Nat.eqb_refl in E.
    destruct (take_prefixLen_prefix _ _ Em) as [k' Ek]. rewrite Ek in Hk, E |- *.
    rewrite take_app_length, drop_app_length in E.
    destruct (short_child K c f k' Hn Hk) as [Hr Hc].
    run_inv. apply IH in H as (Hc' & Hu & Hd); [|done..].
    destruct b; simpl in E; run_inv.
    + apply inserted_dirty; [rewrite <- Ek; by eapply (short_rebuild _ _ _ _ f)|by apply updates_prepend].
    + split; [by rewrite <- Ek|]. split; [|intros _]; by apply updates_prepend, Hd.
  - destruct (full_child cs f key0 keytl Hn Hk) as (c & Ec & Hx & Hr & Hc).
    cbn [insert] in E. rewrite Ec in E. run_inv. apply IH in H0 as (Hc' & Hu & Hd); [|done..].
    destruct b; simpl in E; run_inv.
    + apply set_index_inv in H as ->. apply inserted_dirty; [by eapply wf_full_insert|by eapply updates_full].
    + assert (updates p (fullNode cs f) (fullNode cs f) (key0 :: keytl) (Some v)) as Hs.
      { pose proof (updates_full p cs f f key0 keytl _ _ (Some v) Hk Hn Ec (Hd eq_refl)) as Hs.
        apply at_index_lookup in Ec; [|lia]. by rewrite list_insert_id in Hs. }
      by split.
  - cbn [insert] in E. run_inv. destruct (load_wf _ _ _ Heqr) as [Hwf _].
    apply IH in H0 as (Hc' & Hu & Hd); [|by right|done].
    destruct b; simpl in E; run_inv.
    + apply inserted_dirty; [done|by eapply updates_hash].
    + assert (updates p n' n' (key0 :: keytl) (Some v)) as Ha by by apply Hd.
      split; [done|]. split; [by eapply updates_hash|]. intros _ k r Hrk Hkind.
      rewrite finds_hash_iff, Heqr. rewrite (Ha k r) by done. case_decide; [done|by rewrite finds_hash_iff, Heqr].
Qed.

(** ** Deletion *)

Lemma updates_absent p n key : (forall r, finds p n key r <-> r = Ok None) -> updates p n n key None.
Proof. intros H k r _ _. case_decide as E; [subst; apply H|done]. Qed.

Lemma updates_trans p n n1 n' key o : full_key key -> updates p n n1 key o ->
  (forall k r, full_key k -> finds p n' k r <-> finds p n1 k r) -> updates p n n' key o.
Proof.
  intros Hf Hu H k r Hk Hkind.
  destruct Hk as [->|Hk]; [rewrite (proj1 Hkind eq_refl) in Hf; by apply full_key_nil in Hf|].
  rewrite H by done. apply Hu; [by right|done].
Qed.

Lemma only_child_from cs i pos q : only_child cs i pos = q -> 0 <= q -> 0 <= i -> pos = -1 \/ 0 <= pos < i ->
  (0 <= pos /\ q = pos /\ Forall (fun c => c = nilNode) cs) \/
  (pos = -1 /\ exists j c, cs !! j = Some c /\ c <> nilNode /\ q = i + Z.of_nat j /\
    forall j' c', cs !! j' = Some c' -> j' <> j -> c' = nilNode).
Proof.
  revert i pos. induction cs as [|c cs IH]; simpl; intros i pos E Hq Hi Hpos; [left; split; [lia|]; by subst|].
  destruct c; simpl in E.
  1: destruct (IH (i + 1) pos E Hq ltac:(lia) ltac:(lia)) as [(H1 & H2 & H3)|(H1 & j & c & Hl & Hc & H2 & H3)];
    [left; by split_and!; [| |constructor]|right; split; [done|]; exists (S j), c; split_and!; [done|done|lia|]].
  1: intros [|j'] c' Hl' Hne; [by simplify_eq/=|]; apply (H3 j'); [done|lia].
  all: destruct (Z.eqb_spec pos (-1)) as [Hp|Hp]; [subst pos|lia].
  all: destruct (IH (i + 1) i E Hq ltac:(lia) ltac:(lia)) as [(H1 & H2 & H3)|(H1 & _)]; [|lia].
  all: right; split; [done|]; exists 0%nat; eexists; split; [done|]; split; [done|]; split; [lia|].
  all: intros [|j'] c' Hl' Hne; [done|]; by eapply list.Forall_lookup_1 in H3.
Qed.

Lemma only_child_spec cs : 0 <= only_child cs 0 (-1) ->
  exists c, at_index cs (only_child cs 0 (-1)) = Some c /\ c <> nilNode /\
    forall x c', at_index cs x = Some c' -> x <> only_child cs 0 (-1) -> c' = nilNode.
Proof.
  intros Hq. destruct (only_child_from cs 0 (-1) _ eq_refl Hq ltac:(lia) ltac:(lia)) as [(? & _)|(_ & j & c & Hl & Hc & E & Ho)]; [lia|].
  rewrite E. exists c. split; [apply at_index_lookup; [lia|by rewrite Z.add_0_l, Nat2Z.id]|]. split; [done|].
  intros x c' Hx Hne. unfold at_index in Hx. destruct (Z.ltb_spec x 0); [done|]. apply (Ho (Z.to_nat x)); [done|lia].
Qed.

(** A full node with one child finds what a short node with that child's nibble finds. *)
Lemma finds_only p cs f x c g : at_index cs x = Some c -> node_wf (fullNode cs f) ->
  (forall y c', at_index cs y = Some c' -> y <> x -> c' = nilNode) ->
  forall k r, full_key k -> finds p (shortNode [x] c g) k r <-> finds p (fullNode cs f) k r.
Proof.
  intros Hx Hwf Ho k r Hk. destruct k as [|y k]; [by apply full_key_nil in Hk|].
  destruct (full_child cs f y k Hwf Hk) as (c' & Ec & _). rewrite (finds_full_iff p cs f y c') by done.
  destruct (decide (y = x)) as [->|Hne].
  - simplify_eq. change (x :: k) with ([x] ++ k). apply finds_short_iff.
  - rewrite (Ho y c' Ec Hne), finds_nil_iff. apply finds_miss_iff. apply HasPrefix_false. intros u E. by simplify_eq/=.
Qed.

Lemma short_prefix_wf K ck cv f : Forall is_nibble K -> node_wf (shortNode ck cv f) -> node_wf (shortNode (K ++ ck) cv newFlag).
Proof.
  intros HK [[(l & Hl & ->) Hv]|[Hck Hc]]%wf_short_iff; apply wf_short_iff.
  - left. split; [|done]. exists (K ++ l). split; [by apply Forall_app|by rewrite app_assoc].
  - right. split; [by apply Forall_app|done].
Qed.

Lemma load_finds p n t n' t' : resolve database n p t = (Ret n', t') -> (forall k r, finds p n k r <-> finds p n' k r)
  /\ (node_wf n -> node_wf n').
Proof.
  destruct n; simpl; intros E; run_inv; try done. apply load_wf in Heqr as H. destruct H as [Hw _].
  split; [|done]. intros k r. by rewrite finds_hash_iff, Heqr.
Qed.

Lemma reduce_spec cs f p t d n' t' : reduce database cs p t = (Ret (d, n'), t') -> node_wf (fullNode cs f) ->
  d = true /\ node_wf n' /\ forall k r, full_key k -> finds p n' k r <-> finds p (fullNode cs f) k r.
Proof.
  intros E Hwf. unfold reduce in E. set (x := only_child cs 0 (-1)) in *.
  assert (node_wf (fullNode cs newFlag)) as Hwf' by by apply wf_full_iff, (wf_full_iff cs f).
  destruct (Z.leb_spec 0 x); [|run_inv; split; [done|]; split; [done|]; intros [|y k] r Hk;
    [by apply full_key_nil in Hk|]; destruct (full_child cs f y k Hwf Hk) as (c & Ec & _);
    by rewrite !(finds_full_iff _ _ _ _ c)].
  destruct (only_child_spec cs H) as (c & Ec & Hc & Ho). fold x in Ec, Ho. rewrite Ec in E. clearbody x.
  pose proof (finds_only p cs f x c newFlag Ec Hwf Ho) as Hf.
  pose proof Hwf as (Hn & Hw & Hs)%wf_full_iff. apply at_index_lookup in Ec as Ec'; [|done].
  apply lookup_lt_Some in Ec' as Hx.
  destruct (Z.eqb_spec x 16) as [->|Hne].
  - pose proof (Hs c Ec') as Hsc. assert (exists v, c = valueNode v) as [v ->] by (destruct c; try done; by eexists).
    run_inv. split; [done|]. split; [|done]. apply wf_short_iff. left. split; [by exists []|by eexists].
  - assert (node_wf c) as Hcw by (apply (Hw (Z.to_nat x)); [lia|done]).
    assert (Forall is_nibble [x]) as Hnx by (apply Forall_singleton; unfold is_nibble; lia).
    assert (node_wf (shortNode [x] c newFlag)) as Hcs by (apply wf_short_iff; by right).
    run_inv. apply load_finds in H1 as [Hl Hlw]. specialize (Hlw Hcw).
    match type of E with (match ?y with _ => _ end) _ = _ => destruct y as [| |K2 c2 f2| |] end;
      run_inv; try (split; [done|]; split; done).
    split; [done|]. split; [by apply (short_prefix_wf [x] _ _ f2)|]. intros k r Hk. rewrite <- Hf by done.
    change (x :: K2) with ([x] ++ K2). rewrite (finds_concat p [x] K2 c2 newFlag newFlag f2).
    destruct (prefix_cases k [x]) as [[u ->]|Hm]; [|by rewrite !finds_miss_iff].
    rewrite !finds_short_iff. symmetry. apply Hl.
Qed.

(** A deletion that succeeds. *)
Definition deleted (p : list Z) (n : node) (key : list Z) (d : bool) (n' : node) : Prop :=
  node_at key n' /\ updates p n n' key None /\ (d = false -> updates p n n key None).

Lemma deleted_dirty p n key n' : node_at key n' -> updates p n n' key None -> deleted p n key true n'.
Proof. intros. split; [done|]. split; [done|]. by intros ?. Qed.
Lemma deleted_clean p n key : node_at key n -> updates p n n key None -> deleted p n key false n.
Proof. by intros. Qed.

Lemma full_node_at key n : full_key key -> node_at key n = node_wf n.
Proof. destruct key; [by intros ?%full_key_nil|done]. Qed.

(** Below the key of an extension, the merge of two short nodes included. *)
Lemma delete_short_child p K c f k c' : full_key k -> node_wf (shortNode K c f) -> full_key (K ++ k) ->
  node_wf c' -> updates (p ++ K) c c' k None ->
  deleted p (shortNode K c f) (K ++ k) true
    match c' with
    | shortNode ck cv _ => shortNode (K ++ ck) cv newFlag
    | _ => shortNode K c' newFlag
    end.
Proof.
  intros Hk Hwf Hf Hc' Hu.
  assert (Forall is_nibble K) as HK.
  { apply wf_short_iff in Hwf as [[HK _]|[HK _]]; [|done].
    rewrite (full_key_app_full K k) in Hk by done. by apply full_key_nil in Hk. }
  assert (updates p (shortNode K c f) (shortNode K c' newFlag) (K ++ k) None) as Hu' by by apply updates_prepend.
  assert (node_wf (shortNode K c' newFlag)) as Hw' by (apply wf_short_iff; by right).
  destruct c' as [|v|ck cv cf|cs cf|h]; try (apply deleted_dirty; [by rewrite full_node_at|done]).
  apply deleted_dirty; [rewrite full_node_at by done; by eapply short_prefix_wf|].
  eapply updates_trans; [done|exact Hu'|]. intros k0 r _. apply finds_concat.
Qed.

Lemma delete_short_miss p K c f key : full_key key -> node_wf (shortNode K c f) ->
  (prefixLen key K < length K)%nat -> deleted p (shortNode K c f) key false (shortNode K c f).
Proof.
  intros Hk Hwf Hm. apply deleted_clean; [by rewrite full_node_at|]. apply updates_absent. intros r.
  apply finds_miss_iff. apply HasPrefix_false. intros u ->.
  assert (prefixLen (K ++ u) K = length K); [|lia]. clear. induction K as [|x K IH]; simpl; [by destruct u|].
  by rewrite Z.eqb_refl, IH.
Qed.

Lemma delete_short_whole p key c f : full_key key -> deleted p (shortNode key c f) key true nilNode.
Proof.
  intros Hk. apply deleted_dirty; [rewrite full_node_at by done; constructor|].
  intros k r Hr Hkind. rewrite finds_nil_iff. case_decide as E; [done|].
  destruct Hr as [->|Hr]; [by rewrite (proj1 Hkind eq_refl) in E|].
  rewrite finds_miss_iff; [done|]. apply HasPrefix_false. intros u ->.
  rewrite (full_key_app_full key u), app_nil_r in E by done. done.
Qed.

Lemma delete_spec fuel : forall n p key t d n' t',
  delete database fuel n p key t = (Ret (d, n'), t') ->
  rest_key key -> node_at key n -> deleted p n key d n'.
Proof.
  induction fuel as [|fuel IH]; intros n p key t d n' t' E Hk Hn; [done|].
  destruct Hk as [->|Hk].
  { destruct n; cbn [delete] in E; try done; run_inv; [apply deleted_clean|apply deleted_dirty]; try done.
    - by apply updates_absent, finds_nil_iff.
    - intros k r _ Hkind. rewrite (proj2 Hkind eq_refl), decide_True by done. apply finds_nil_iff. }
  rewrite full_node_at in Hn by done.
  destruct n as [|w|K c f|cs f|h]; [|inversion Hn| | |]; cbn [delete] in E.
  - run_inv. apply deleted_clean; [by rewrite full_node_at|]. apply updates_absent. intros r. apply finds_nil_iff.
  - destruct (Nat.ltb_spec (prefixLen key K) (length K)); [run_inv; by apply delete_short_miss|].
    pose proof (prefixLen_le key K) as [_ Hle]. destruct (take_prefixLen_prefix key K ltac:(lia)) as [k ->].
    assert (prefixLen (K ++ k) K = length K) as Em by lia. rewrite Em, length_app in E.
    destruct (Nat.eqb_spec (length K) (length K + length k)) as [Hlen|Hlen].
    + assert (k = []) as -> by (destruct k; simpl in *; [done|lia]). rewrite app_nil_r in *.
      run_inv. by apply delete_short_whole.
    + rewrite take_app_length, drop_app_length in E. destruct (short_child K c f k Hn Hk) as [Hr Hc].
      assert (full_key k) as Hfk by (destruct Hr as [->|]; simpl in *; [lia|done]).
      run_inv. apply IH in H0 as (Hc' & Hu & Hd); [|done..]. rewrite full_node_at in Hc' by done.
      destruct b; simpl in E.
      * pose proof (delete_short_child p K _ f k _ Hfk Hn Hk Hc' Hu) as Hd'.
        match type of E with (match ?y with _ => _ end) _ = _ => destruct y end; run_inv; exact Hd'.
      * run_inv. apply deleted_clean; [by rewrite full_node_at|]. apply updates_prepend; [done..|by apply Hd].
  - destruct key as [|key0 keytl]; [by apply full_key_nil in Hk|].
    destruct (full_child cs f key0 keytl Hn Hk) as (c & Ec & Hx & Hr & Hc). rewrite Ec in E.
    run_inv. apply IH in H0 as (Hc' & Hu & Hd); [|done..].
    destruct b; simpl in E; run_inv.
    + apply set_index_inv in H as ->.
      pose proof (updates_full p cs f newFlag key0 keytl _ _ None Hk Hn Ec Hu) as Hu'.
      pose proof (wf_full_insert cs f newFlag key0 keytl _ Hn Hk Hc') as Hw'.
      destruct (is_nil n); [|run_inv; by apply deleted_dirty].
      eapply reduce_spec in E as (-> & Hw & Hf); [|exact Hw']. apply deleted_dirty; [done|]. by eapply updates_trans.
    + apply deleted_clean; [done|].
      pose proof (updates_full p cs f f key0 keytl _ _ None Hk Hn Ec (Hd eq_refl)) as Hs.
      apply at_index_lookup in Ec; [|lia]. by rewrite list_insert_id in Hs.
  - run_inv. destruct (load_wf _ _ _ Heqr) as [Hwf _].
    match goal with H : delete _ _ _ _ _ _ = _ |- _ => apply IH in H as (Hc' & Hu & Hd); [|by right|by rewrite full_node_at] end.
    destruct b; simpl in E; run_inv.
    + apply deleted_dirty; [done|by eapply updates_hash].
    + split; [by rewrite full_node_at|]. pose proof (Hd eq_refl) as Ha.
      split; [by eapply updates_hash|]. intros _ k r Hrk Hkind.
      rewrite finds_hash_iff, Heqr. rewrite (Ha k r) by done. case_decide; [done|by rewrite finds_hash_iff, Heqr].
Qed.

(** A deletion that fails leaves the node as it was, or without the key. *)
Definition left_behind (p : list Z) (n : node) (key : list Z) (n' : node) : Prop :=
  node_at key n' /\ (n' = n \/ updates p n n' key None).

Ltac throw_inv :=
  repeat match goal with
  | H : tm_bind _ _ _ = (Throw _, _) |- _ => apply tm_bind_Throw in H as [H|(? & ? & ? & H)]
  | H : tm_option _ _ = (Throw _, _) |- _ => by apply tm_option_Throw in H
  | H : tm_map_err _ _ _ = (Throw _, _) |- _ => apply tm_map_err_Throw in H as (? & H & ?)
  | H : tm_ret _ _ = (Throw _, _) |- _ => done
  | H : trace _ _ = (Throw _, _) |- _ => done
  | H : (if ?b then tm_ret _ else tm_ret _) _ = (Throw _, _) |- _ => by destruct b
  | p : _ * _ |- _ => destruct p
  end; run_inv.

Lemma reduce_fails cs p t e n' t' : reduce database cs p t = (Throw (e, n'), t') -> n' = fullNode cs newFlag.
Proof.
  unfold reduce. intros E. destruct (0 <=? only_child cs 0 (-1)); [|done]. throw_inv.
  destruct (only_child cs 0 (-1) =? 16); [done|]. throw_inv; [done|].
  match type of E with (match ?y with _ => _ end) _ = _ => destruct y end; by throw_inv.
Qed.

Lemma delete_fails fuel : forall n p key t e n' t',
  delete database fuel n p key t = (Throw (e, n'), t') ->
  rest_key key -> node_at key n -> left_behind p n key n'.
Proof.
  induction fuel as [|fuel IH]; intros n p key t e n' t' E Hk Hn; [done|].
  destruct Hk as [->|Hk]; [by destruct n|].
  rewrite full_node_at in Hn by done. unfold left_behind. rewrite full_node_at by done.
  destruct n as [|w|K c f|cs f|h]; [done|done| | |]; cbn [delete] in E.
  - destruct (Nat.ltb_spec (prefixLen key K) (length K)); [done|].
    pose proof (prefixLen_le key K) as [_ Hle]. destruct (take_prefixLen_prefix key K ltac:(lia)) as [k ->].
    assert (prefixLen (K ++ k) K = length K) as Em by lia. rewrite Em, length_app in E.
    destruct (Nat.eqb_spec (length K) (length K + length k)) as [|Hlen]; [by throw_inv|].
    rewrite take_app_length, drop_app_length in E. destruct (short_child K c f k Hn Hk) as [Hr Hc].
    assert (full_key k) as Hfk by (destruct Hr as [->|]; simpl in *; [lia|done]).
    throw_inv.
    + apply IH in E as [Hc' Hu]; [|done..]. rewrite full_node_at in Hc' by done. split.
      * apply wf_short_iff. apply wf_short_iff in Hn as [[HK _]|[HK _]]; [|by right].
        rewrite (full_key_app_full K k) in Hfk by done. by apply full_key_nil in Hfk.
      * destruct Hu as [->|Hu]; [by left|right]. by apply updates_prepend.
    + destruct b; simpl in E; [|done].
      match type of E with (match ?y with _ => _ end) _ = _ => destruct y end; by throw_inv.
  - destruct key as [|key0 keytl]; [by apply full_key_nil in Hk|].
    destruct (full_child cs f key0 keytl Hn Hk) as (c & Ec & Hx & Hr & Hc). rewrite Ec in E.
    pose proof Hn as (Hlen & _)%wf_full_iff.
    throw_inv.
    + apply IH in E as [Hc' Hu]; [|done..]. rewrite set_index_Some by lia. simpl. split; [by eapply wf_full_insert|].
      destruct Hu as [->|Hu]; [left|right; by eapply updates_full].
      apply at_index_lookup in Ec; [|lia]. by rewrite list_insert_id.
    + destruct b; simpl in E; [|done]. throw_inv.
      match goal with H : delete _ _ _ _ _ _ = _ |- _ => apply delete_spec in H as (Hc' & Hu & _); [|done..] end.
      match goal with H : set_index _ _ _ = _ |- _ => apply set_index_inv in H as -> end.
      destruct (is_nil _); [|done]. apply reduce_fails in E as ->. split; [by eapply wf_full_insert|right; by eapply updates_full].
  - throw_inv; (split; [done|]; by left).
Qed.

(** ** Lookup *)

Definition same_contents (p : list Z) (n n' : node) : Prop := forall k r, finds p n' k r <-> finds p n k r.

(** What [get] returns, and that the nodes it resolved on the way change nothing. *)
Definition got (p : list Z) (n : node) (k : list Z) (r : outcome trie_error (option (list Z) * node * bool)) : Prop :=
  match r with
  | Ret (v, n', did) =>
      finds p n k (Ok v) /\ node_at k n' /\ same_contents p n n' /\ (did = false -> n' = n)
  | Throw e => finds p n k (Err e)
  | _ => True
  end.

Lemma same_short p K c c' f : same_contents (p ++ K) c c' ->
  same_contents p (shortNode K c f) (shortNode K c' f).
Proof.
  intros H k r. destruct (prefix_cases k K) as [[u ->]|Hm]; [rewrite !finds_short_iff; apply H|by rewrite !finds_miss_iff].
Qed.

Lemma same_full p cs f x c c' : 0 <= x < Z.of_nat (length cs) -> at_index cs x = Some c ->
  same_contents (p ++ [x]) c c' -> same_contents p (fullNode cs f) (fullNode (<[Z.to_nat x := c']> cs) f).
Proof.
  intros Hx Hc H k r. destruct k as [|y k]; [by split; inversion 1|].
  destruct (decide (y = x)) as [->|Hne].
  - rewrite (finds_full_iff p cs f x c) by done. rewrite (finds_full_iff p _ f x c'); [apply H|].
    apply at_index_lookup; [lia|]. apply list_lookup_insert_eq. lia.
  - assert (at_index (<[Z.to_nat x := c']> cs) y = at_index cs y) as E.
    { unfold at_index. destruct (Z.ltb_spec y 0); [done|]. by rewrite list_lookup_insert_ne by lia. }
    destruct (at_index cs y) as [d|] eqn:Ed; [by rewrite !(finds_full_iff p _ f y d)|].
    split; inversion 1; simplify_eq; congruence.
Qed.

Lemma get_spec fuel : forall n p k t, rest_key k -> node_at k n ->
  got p n k (fst (get database fuel n (p ++ k) (length p) t)).
Proof.
  induction fuel as [|fuel IH]; intros n p k t Hk Hn; [done|].
  assert (same_contents p n n) as Hrefl by done.
  destruct n as [|v|K c f|cs f|h]; cbn [get].
  - simpl. split; [constructor|]. done.
  - destruct k; [|inversion Hn]. simpl. split; [constructor|]. done.
  - destruct Hk as [->|Hk]; [done|]. rewrite full_node_at in Hn by done.
    rewrite (proj2 (Nat.ltb_ge _ _)) by (rewrite length_app; lia). rewrite drop_app_length.
    destruct (prefix_cases k K) as [[u ->]|Hm];
      [rewrite HasPrefix_app|rewrite Hm; simpl; rewrite full_node_at by done; split; [by constructor|done]].
    destruct (short_child K c f u Hn Hk) as [Hr Hc]. specialize (IH c (p ++ K) u t Hr Hc).
    rewrite <- app_assoc, length_app in IH. simpl. unfold tm_bind.
    destruct (get database fuel c (p ++ K ++ u) (length p + length K) t) as [[[[v n'] did]|e| |] t1]; simpl in IH |- *;
      [|by constructor|done|done].
    destruct IH as (Hf & Hn' & Hs & Hd). rewrite full_node_at by done. split; [by constructor|].
    destruct did; [|done]. split; [|split; [by apply same_short|done]].
    apply wf_short_iff. apply wf_short_iff in Hn as [[HK [w ->]]|[HK _]].
    + rewrite (full_key_app_full K u) in Hn' by done. left. split; [done|].
      destruct n'; try done; [|by eexists].
      assert (finds (p ++ K) nilNode [] (Ok None)) as Hx by constructor. apply Hs in Hx. by inversion Hx.
    + right. split; [done|]. apply full_key_app_nibbles in Hk; [|done]. by rewrite full_node_at in Hn'.
  - destruct k as [|x k]; [done|]. destruct Hk as [|Hk]; [done|]. simpl in Hn.
    destruct (full_child cs f x k Hn Hk) as (c & Ec & Hx & Hr & Hc).
    rewrite list_lookup_middle by done. cbn [tm_option]. unfold tm_bind at 1. unfold tm_ret at 1.
    rewrite Ec. cbn [tm_option]. unfold tm_bind at 1. unfold tm_ret at 1.
    specialize (IH c (p ++ [x]) k t Hr Hc). rewrite <- app_assoc, length_app, Nat.add_1_r in IH. simpl app in IH.
    unfold tm_bind at 1.
    destruct (get database fuel c (p ++ x :: k) (S (length p)) t) as [[[[v n'] did]|e| |] t1]; simpl in IH |- *;
      [|by eapply finds_full|done|done].
    destruct IH as (Hf & Hn' & Hs & Hd). pose proof Hn as (Hlen & _)%wf_full_iff.
    destruct did; [|by split; [eapply finds_full|]]. rewrite set_index_Some by lia. simpl.
    split; [by eapply finds_full|]. split; [by eapply wf_full_insert|]. split; [by eapply same_full; [lia| |]|done].
  - destruct Hk as [->|Hk]; [done|]. rewrite take_app_length. unfold tm_bind at 1.
    destruct (resolveAndTrack_load p h t) as [t1 E]. rewrite E. destruct (load p h) as [n|e] eqn:El; [|by constructor].
    destruct (load_wf p h n El) as [Hwf _].
    specialize (IH n p k t1 ltac:(by right) ltac:(by rewrite full_node_at)). unfold tm_bind.
    destruct (get database fuel n (p ++ k) (length p) t1) as [[[[v n'] did]|e| |] t2]; simpl in IH |- *;
      [|by eapply finds_hash|done|done].
    destruct IH as (Hf & Hn' & Hs & _). split; [by eapply finds_hash|]. split; [done|]. split; [|done].
    intros k0 r. rewrite (Hs k0 r). by rewrite finds_hash_iff, El.
Qed.

Lemma finds_unique p n k r r' : finds p n k r -> finds p n k r' -> r = r'.
Proof.
  intros H. revert r'. induction H as [| | | |p cs f x c k r Hc H IH|p h k e He|p h n k r Hn H IH]; intros r' H'.
  - by apply finds_nil_iff in H'.
  - by apply finds_value_iff in H'.
  - by apply finds_miss_iff in H'.
  - apply finds_short_iff in H'. auto.
  - apply (finds_full_iff p cs f x c) in H'; auto.
  - apply finds_hash_iff in H'. by rewrite He in H'.
  - apply finds_hash_iff in H'. rewrite Hn in H'. auto.
Qed.

(** ** Termination *)

(** No extension has an empty key. *)
Inductive sane : node -> Prop :=
| sane_nil : sane nilNode
| sane_value v : sane (valueNode v)
| sane_hash h : sane (hashNode h)
| sane_short K c f : K <> [] -> sane c -> sane (shortNode K c f)
| sane_full cs f : Forall sane cs -> sane (fullNode cs f).
Hypothesis load_sane : forall p h n, load p h = Ok n -> sane n.

Definition cost (n : node) (k : list Z) : nat :=
  2 * length k + match n with hashNode _ => 2 | _ => 1 end.

Lemma cost_short K c k : K <> [] -> (cost c k < 2 * length (K ++ k) + 1)%nat.
Proof. intros HK. unfold cost. rewrite length_app. destruct K; [done|]. simpl. destruct c; lia. Qed.
Lemma cost_cons c x k : (cost c k < 2 * length (x :: k) + 1)%nat.
Proof. unfold cost. simpl. destruct c; lia. Qed.
Lemma cost_resolved n k : resolved n -> cost n k = (2 * length k + 1)%nat.
Proof. by destruct n. Qed.

Definition returns {E A} (r : outcome E A * tracers) : Prop :=
  match fst r with Ret _ | Throw _ => True | _ => False end.

Lemma returns_bind {E A B} (m : TM E A) (f : A -> TM E B) t :
  returns (m t) -> (forall a t1, m t = (Ret a, t1) -> returns (f a t1)) -> returns (tm_bind m f t).
Proof. unfold tm_bind, returns. destruct (m t) as [[a|e| |] t1]; simpl; try done. intros _ H. by apply H. Qed.

Lemma returns_map_err {E F A} (f : E -> F) (m : TM E A) t : returns (m t) -> returns (tm_map_err f m t).
Proof. unfold tm_map_err, returns. by destruct (m t) as [[a|e| |] t1]. Qed.

Lemma returns_option {E A B} (o : option A) a (f : A -> TM E B) t : o = Some a -> returns (f a t) ->
  returns (tm_bind (tm_option o) f t).
Proof. by intros ->. Qed.

Lemma returns_resolve p h t : returns (resolveAndTrack database h p t).
Proof. destruct (resolveAndTrack_load p h t) as [t' ->]. unfold returns. simpl. by destruct (load p h). Qed.

Lemma resolve_Ret p h t n t' : resolveAndTrack database h p t = (Ret n, t') -> load p h = Ok n.
Proof. intros E. by run_inv. Qed.

Lemma sane_child cs f x c : sane (fullNode cs f) -> at_index cs x = Some c -> sane c.
Proof.
  intros Hs Hx. unfold at_index in Hx. case_match; [done|]. inversion Hs; subst.
  by eapply list.Forall_lookup_1.
Qed.

Lemma get_returns fuel : forall n p k t, rest_key k -> node_at k n -> sane n -> (cost n k <= fuel)%nat ->
  returns (get database fuel n (p ++ k) (length p) t).
Proof.
  induction fuel as [|fuel IH]; intros n p k t Hk Hn Hs Hf; [unfold cost in Hf; destruct n; lia|].
  destruct n as [|v|K c f|cs f|h]; cbn [get]; [done|done| | |].
  - destruct Hk as [->|Hk]; [done|]. rewrite full_node_at in Hn by done.
    rewrite (proj2 (Nat.ltb_ge _ _)) by (rewrite length_app; lia). rewrite drop_app_length.
    destruct (prefix_cases k K) as [[u ->]|Hm]; [rewrite HasPrefix_app|by rewrite Hm].
    destruct (short_child K c f u Hn Hk) as [Hr Hc]. inversion Hs; subst. simpl.
    pose proof (cost_short K c u ltac:(done)).
    apply returns_bind; [|by intros [[? ?] ?] ? _].
    rewrite app_assoc, <- length_app. apply IH; try done. unfold cost in *. lia.
  - destruct k as [|x k]; [done|]. destruct Hk as [|Hk]; [done|]. simpl in Hn.
    destruct (full_child cs f x k Hn Hk) as (c & Ec & Hx & Hr & Hc). pose proof Hn as (Hlen & _)%wf_full_iff.
    eapply returns_option; [by rewrite list_lookup_middle|]. eapply returns_option; [done|].
    pose proof (cost_cons c x k). apply returns_bind.
    + replace (p ++ x :: k) with ((p ++ [x]) ++ k) by by rewrite <- app_assoc.
      replace (S (length p)) with (length (p ++ [x])) by (rewrite length_app; simpl; lia).
      apply IH; try done; [by eapply sane_child|unfold cost in *; lia].
    + intros [[v n'] did] t1 _. destruct did; [|done]. eapply returns_option; [by rewrite set_index_Some by lia|done].
  - destruct Hk as [->|Hk]; [done|]. rewrite take_app_length. apply returns_bind; [apply returns_resolve|].
    intros n t1 E%resolve_Ret. destruct (load_wf p h n E) as [Hwf Hres].
    apply returns_bind; [|by intros [[? ?] ?] ? _].
    apply IH; [by right|by rewrite full_node_at|by eapply load_sane|]. rewrite cost_resolved by done. unfold cost in Hf. lia.
Qed.

Lemma insert_nil_returns fuel p k c t : (1 <= fuel)%nat -> returns (insert database fuel nilNode p k c t).
Proof. intros Hf. destruct fuel; [lia|]. by destruct k. Qed.

Lemma returns_set {E} (cs : list node) x c (f : list node -> TM E (bool * node)) t :
  0 <= x < Z.of_nat (length cs) -> (forall cs', returns (f cs' t)) ->
  returns (tm_bind (tm_option (set_index cs x c)) f t).
Proof. intros Hx H. eapply returns_option; [by rewrite set_index_Some by lia|apply H]. Qed.

Lemma insert_returns fuel : forall n p k v t, rest_key k -> node_at k n -> sane n -> (cost n k <= fuel)%nat ->
  returns (insert database fuel n p k (valueNode v) t).
Proof.
  induction fuel as [|fuel IH]; intros n p k v t Hk Hn Hs Hf; [unfold cost in Hf; destruct n; lia|].
  destruct Hk as [->|Hk]; [by destruct n|]. destruct k as [|k0 ktl]; [by apply full_key_nil in Hk|].
  assert (1 <= fuel)%nat as Hf1 by (unfold cost in Hf; simpl in Hf; destruct n; lia).
  destruct n as [|w|K c f|cs f|h]; [done|inversion Hn| |cbn [insert]..].
  - simpl in Hn. destruct (decide (prefixLen (k0 :: ktl) K = length K)) as [Em|Hm].
    + cbn [insert]. rewrite Em, Nat.eqb_refl. destruct (take_prefixLen_prefix _ _ Em) as [u Eu]. rewrite Eu in Hk, Hf |- *.
      rewrite take_app_length, drop_app_length. destruct (short_child K c f u Hn Hk) as [Hr Hc].
      inversion Hs; subst. pose proof (cost_short K c u ltac:(done)).
      apply returns_bind; [apply IH; try done; unfold cost in *; lia|]. intros [d nn] ? _. by destruct d.
    + destruct (part_point K c f _ Hk Hn Hm) as (pre & a & K' & b & k' & EK & Ek & El & Hne & Hpre & Hwf' & Hk').
      destruct (part_range a K' c b k' newFlag Hwf' Hk') as [Ha Hb]. rewrite EK, Ek in *.
      by destruct (insert_branch_eval fuel p pre a K' c f b k' v t Hf1 Hne Ha Hb El) as [t' ->].
  - destruct (full_child cs f k0 ktl Hn Hk) as (c & Ec & Hx & Hr & Hc). pose proof Hn as (Hlen & _)%wf_full_iff.
    eapply returns_option; [done|]. pose proof (cost_cons c k0 ktl). apply returns_bind.
    + apply IH; try done; [by eapply sane_child|unfold cost in *; lia].
    + intros [d nn] t1 _. destruct d; [|done]. simpl. apply returns_set; [lia|done].
  - apply returns_bind; [apply returns_resolve|]. intros n t1 E%resolve_Ret.
    destruct (load_wf p h n E) as [Hwf Hres].
    apply returns_bind; [|by intros [d nn] ? _; destruct d].
    apply IH; [by right|done|by eapply load_sane|]. rewrite cost_resolved by done. unfold cost in Hf. lia.
Qed.

Lemma returns_reduce cs p t : returns (reduce database cs p t).
Proof.
  unfold reduce. destruct (Z.leb_spec 0 (only_child cs 0 (-1))); [|done].
  destruct (only_child_spec cs H) as (c & Ec & _). eapply returns_option; [done|].
  case_match; [done|]. apply returns_bind; [|by intros [] ? _].
  apply returns_map_err. destruct c; try done. apply returns_resolve.
Qed.

Lemma delete_returns fuel : forall n p k t, rest_key k -> node_at k n -> sane n -> (cost n k <= fuel)%nat ->
  returns (delete database fuel n p k t).
Proof.
  induction fuel as [|fuel IH]; intros n p k t Hk Hn Hs Hf; [unfold cost in Hf; destruct n; lia|].
  destruct Hk as [->|Hk]; [by destruct n|]. rewrite full_node_at in Hn by done.
  destruct n as [|w|K c f|cs f|h]; cbn [delete]; [done|done| | |].
  - destruct (Nat.ltb_spec (prefixLen k K) (length K)); [done|].
    pose proof (prefixLen_le k K) as [_ Hle]. destruct (take_prefixLen_prefix k K ltac:(lia)) as [u ->].
    assert (prefixLen (K ++ u) K = length K) as -> by lia.
    destruct (length K =? length (K ++ u))%nat; [done|].
    rewrite take_app_length, drop_app_length. destruct (short_child K c f u Hn Hk) as [Hr Hc].
    inversion Hs; subst. pose proof (cost_short K c u ltac:(done)).
    apply returns_bind; [apply returns_map_err, IH; try done; unfold cost in *; lia|].
    intros [d nn] ? _. destruct d; [|done]. by destruct nn.
  - destruct k as [|k0 ktl]; [by apply full_key_nil in Hk|].
    destruct (full_child cs f k0 ktl Hn Hk) as (c & Ec & Hx & Hr & Hc). pose proof Hn as (Hlen & _)%wf_full_iff.
    eapply returns_option; [done|]. pose proof (cost_cons c k0 ktl). apply returns_bind.
    + apply returns_map_err, IH; try done; [by eapply sane_child|unfold cost in *; lia].
    + intros [d nn] t1 _. destruct d; [|done]. simpl. apply returns_set; [lia|]. intros cs'.
      destruct (is_nil nn); [apply returns_reduce|done].
  - apply returns_bind; [apply returns_map_err, returns_resolve|]. intros n t1 E%tm_map_err_Ret%resolve_Ret.
    destruct (load_wf p h n E) as [Hwf Hres].
    apply returns_bind; [|by intros [d nn] ? _; destruct d].
    apply returns_map_err, IH; [by right|by rewrite full_node_at|by eapply load_sane|].
    rewrite cost_resolved by done. unfold cost in Hf. lia.
Qed.

(** ** No operation creates an extension with an empty key *)

Lemma sane_set cs f f' x c cs' : sane (fullNode cs f) -> sane c -> set_index cs x c = Some cs' -> sane (fullNode cs' f').
Proof. intros Hs Hc ->%set_index_inv. constructor. inversion Hs; subst. by apply list.Forall_insert. Qed.

Lemma sane_reflag K c f f' : sane (shortNode K c f) -> sane (shortNode K c f').
Proof. inversion 1; by constructor. Qed.

Lemma sane_empty : sane (fullNode (replicate 17 nilNode) newFlag).
Proof. constructor. apply Forall_replicate. constructor. Qed.

Ltac dirty_cases :=
  match goal with
  | E : (if negb ?b then _ else _) _ = (Ret _, _) |- _ => destruct b; simpl in E; run_inv
  | E : (if ?b then _ else _) _ = (Ret _, _) |- _ => destruct b; run_inv
  end.

Lemma get_sane fuel : forall n key pos t v n' did t', sane n ->
  get database fuel n key pos t = (Ret (v, n', did), t') -> sane n'.
Proof.
  induction fuel as [|fuel IH]; intros n key pos t v n' did t' Hs E; [done|].
  destruct n as [|w|K c f|cs f|h]; cbn [get] in E; [by run_inv|by run_inv| | |].
  - destruct (length key <? pos)%nat; [done|]. destruct (HasPrefix _ _); simpl in E; [|by run_inv].
    inversion Hs; subst. run_inv. case_match; [|done]. constructor; [done|]. by eapply IH.
  - run_inv. dirty_cases; [|done]. eapply (sane_set cs f f); [done| |done]. eapply IH; [|done]. by eapply sane_child.
  - run_inv. eapply IH; [|done]. by eapply load_sane.
Qed.

Lemma insert_sane fuel : forall n p key c t d n' t', sane n -> sane c ->
  insert database fuel n p key c t = (Ret (d, n'), t') -> sane n'.
Proof.
  induction fuel as [|fuel IH]; intros n p key c t d n' t' Hs Hc E; [done|].
  destruct key as [|k0 ktl].
  { destruct n; cbn [insert] in E; try (by run_inv). destruct c; try done. by run_inv. }
  destruct n as [|w|K c' f|cs f|h]; cbn [insert] in E; [by run_inv; constructor|done| | |].
  - inversion Hs; subst. destruct (Nat.eqb_spec (prefixLen (k0 :: ktl) K) (length K)).
    + run_inv. dirty_cases; [|done]. constructor; [done|]. eapply IH; [| |eassumption]; done.
    + run_inv.
      assert (sane nilNode) as Hnil by constructor.
      match goal with
      | H1 : insert _ _ _ _ _ c' _ = _, H2 : insert _ _ _ _ _ c _ = _,
        H3 : set_index (replicate 17 nilNode) _ _ = Some ?cs, H4 : set_index ?cs _ _ = Some ?cs' |- _ =>
          apply IH in H1; [|done..]; apply IH in H2; [|done..];
          pose proof (sane_set _ _ newFlag _ _ _ sane_empty H1 H3) as Hs1;
          pose proof (sane_set _ _ newFlag _ _ _ Hs1 H2 H4) as Hs2
      end.
      destruct (Nat.eqb_spec (prefixLen (k0 :: ktl) K) 0); run_inv; [done|]. constructor; [|done].
      destruct (prefixLen (k0 :: ktl) K); done.
  - run_inv. dirty_cases; [|done]. eapply sane_set; [done| |done]. eapply IH; [| |eassumption]; [by eapply sane_child|done].
  - run_inv. match goal with H : load _ _ = Ok _ |- _ => apply load_sane in H end. dirty_cases; [|done]. eapply IH; [| |eassumption]; done.
Qed.

Lemma resolve_sane n p t n' t' : sane n -> resolve database n p t = (Ret n', t') -> sane n'.
Proof. destruct n; simpl; intros Hs E; run_inv; try done. by eapply load_sane. Qed.

Lemma reduce_sane cs f p t d n' t' : sane (fullNode cs f) -> reduce database cs p t = (Ret (d, n'), t') -> sane n'.
Proof.
  intros Hs E. unfold reduce in E. assert (sane (fullNode cs newFlag)) as Hs' by (inversion Hs; by constructor).
  destruct (0 <=? only_child cs 0 (-1)); [|by run_inv]. run_inv.
  match goal with H : at_index _ _ = Some _ |- _ => apply (sane_child cs f) in H; [|done] end.
  dirty_cases; [by constructor|].
  match goal with H : resolve _ _ _ _ = _ |- _ => apply resolve_sane in H; [|done] end.
  match type of E with (match ?y with _ => _ end) _ = _ => destruct y end; run_inv; constructor; try done.
  match goal with H : sane (shortNode _ _ _) |- _ => by inversion H end.
Qed.

Lemma merge_sane K f c t t' d n' p : K <> [] -> sane c ->
  match c with
  | shortNode ck cv _ => let^ _ := trace (onDelete p) in @tm_ret (trie_error * node) _ (true, shortNode (K ++ ck) cv f)
  | _ => tm_ret (true, shortNode K c f)
  end t = (Ret (d, n'), t') -> sane n'.
Proof.
  intros HK Hs E. destruct c; run_inv; constructor; try done; [by destruct K|by inversion Hs].
Qed.

Lemma delete_sane fuel : forall n p key t d n' t', sane n ->
  delete database fuel n p key t = (Ret (d, n'), t') -> sane n'.
Proof.
  induction fuel as [|fuel IH]; intros n p key t d n' t' Hs E; [done|].
  destruct n as [|w|K c f|cs f|h]; cbn [delete] in E; [by run_inv|run_inv; constructor| | |].
  - destruct (prefixLen key K <? length K)%nat; [by run_inv|].
    destruct (prefixLen key K =? length key)%nat; [run_inv; constructor|].
    inversion Hs; subst. run_inv. dirty_cases; [|done].
    match goal with H : delete _ _ _ _ _ _ = _ |- _ => apply IH in H; [|done] end.
    eapply merge_sane; [| |exact E]; done.
  - destruct key as [|k0 ktl]; [done|]. run_inv. dirty_cases; [|done].
    match goal with H : at_index _ _ = Some _ |- _ => apply (sane_child cs f) in H; [|done] end.
    match goal with H : delete _ _ _ _ _ _ = _ |- _ => apply IH in H; [|done] end.
    match goal with H : set_index _ _ _ = _, H' : sane ?n |- _ =>
      apply (sane_set cs f newFlag) in H; [|done|done] end.
    destruct (is_nil _); [by eapply reduce_sane|by run_inv].
  - run_inv. match goal with H : load _ _ = Ok _ |- _ => apply load_sane in H end.
    dirty_cases; [|done]. eapply IH; [|eassumption]; done.
Qed.

Lemma delete_fails_sane fuel : forall n p key t e n' t', sane n ->
  delete database fuel n p key t = (Throw (e, n'), t') -> sane n'.
Proof.
  induction fuel as [|fuel IH]; intros n p key t e n' t' Hs E; [done|].
  destruct n as [|w|K c f|cs f|h]; cbn [delete] in E; [done|done| | |].
  - destruct (prefixLen key K <? length K)%nat; [done|].
    destruct (prefixLen key K =? length key)%nat; [by throw_inv|].
    inversion Hs; subst. throw_inv; [constructor; [done|]; eapply IH; [|eassumption]; done|].
    match goal with E : (if negb ?b then _ else _) _ = _ |- _ => destruct b; [|done] end. simpl in E.
    match type of E with (match ?y with _ => _ end) _ = _ => destruct y end; by throw_inv.
  - destruct key as [|k0 ktl]; [done|]. throw_inv.
    + match goal with H : at_index _ _ = Some _ |- _ => apply (sane_child cs f) in H; [|done] end.
      apply IH in E; [|done]. destruct (set_index cs k0 n) eqn:Es; simpl; [by eapply (sane_set cs f f)|done].
    + match goal with E : (if negb ?b then _ else _) _ = _ |- _ => destruct b; [|done] end. simpl in E. throw_inv.
      match goal with H : at_index _ _ = Some _ |- _ => apply (sane_child cs f) in H; [|done] end.
      match goal with H : delete _ _ _ _ _ _ = _ |- _ => apply delete_sane in H; [|done] end.
      match goal with H : set_index _ _ _ = _ |- _ => apply (sane_set cs f newFlag) in H; [|done|done] end.
      destruct (is_nil _); [|done]. by apply reduce_fails in E as ->.
  - throw_inv; constructor.
Qed.

(** ** The trie object *)

Definition trie_ok (t : Trie) : Prop := node_wf (root t) /\ sane (root t).

(** What [Get] reports for what is found. *)
Definition reported (r : result trie_error (option (list Z))) : outcome trie_error (option (list Z)) :=
  match r with Ok v => Ret v | Err e => Throw e end.

Lemma full_key_rest k : full_key k -> rest_key k.
Proof. by right. Qed.

Lemma Get_finds key t : trie_ok t -> committed t = false -> Forall is_byte key ->
  trie_ok (snd (Get database key t)) /\ same_contents [] (root t) (root (snd (Get database key t))) /\
  committed (snd (Get database key t)) = false /\
  exists r, fst (Get database key t) = reported r /\ finds [] (root t) (keybytesToHex key) r.
Proof.
  intros [Hwf Hs] Hc Hb. pose proof (full_key_keybytes key Hb) as Hk. unfold Get. rewrite Hc.
  set (k := keybytesToHex key) in *.
  assert (node_at k (root t)) as Hn by by rewrite full_node_at.
  pose proof (get_spec (fuel_for k) (root t) [] k (tr t) ltac:(by right) Hn) as Hg.
  pose proof (get_returns (fuel_for k) (root t) [] k (tr t) ltac:(by right) Hn Hs
    ltac:(unfold cost, fuel_for; destruct (root t); lia)) as Hr.
  simpl in Hg, Hr. unfold returns in Hr.
  destruct (get database (fuel_for k) (root t) k 0 (tr t)) as [[[[v n'] did]|e| |] trc] eqn:E; simpl in *; try done.
  - destruct Hg as (Hf & Hn' & Hsame & Hd). rewrite full_node_at in Hn' by done.
    split; [|split; [|split; [done|by exists (Ok v)]]].
    + destruct did; simpl; [|done]. split; [done|]. simpl. by eapply get_sane.
    + by destruct did.
  - split; [done|]. split; [done|]. split; [done|]. by exists (Err e).
Qed.

Lemma Get_reported key t r : trie_ok t -> committed t = false -> Forall is_byte key ->
  finds [] (root t) (keybytesToHex key) r -> fst (Get database key t) = reported r.
Proof.
  intros Hok Hc Hb Hf. destruct (Get_finds key t Hok Hc Hb) as (_ & _ & _ & r' & -> & Hf').
  by rewrite (finds_unique _ _ _ _ _ Hf Hf').
Qed.

Lemma Get_same key t t' : trie_ok t -> committed t = false -> trie_ok t' -> committed t' = false -> Forall is_byte key ->
  (forall r, finds [] (root t) (keybytesToHex key) r -> finds [] (root t') (keybytesToHex key) r) ->
  fst (Get database key t') = fst (Get database key t).
Proof.
  intros Hok Hc Hok' Hc' Hb H. destruct (Get_finds key t Hok Hc Hb) as (_ & _ & _ & r & -> & Hf).
  apply Get_reported; auto.
Qed.

Lemma keybytesToHex_inj a b : Forall is_byte a -> Forall is_byte b -> keybytesToHex a = keybytesToHex b -> a = b.
Proof.
  intros Ha Hb E. pose proof (hexToKeybytes_keybytesToHex a Ha) as Ea.
  rewrite E, hexToKeybytes_keybytesToHex in Ea by done. by simplify_eq.
Qed.

(** A change of the root that succeeds or leaves something behind. *)
Lemma updates_Get key t t' o : trie_ok t -> committed t = false -> trie_ok t' -> committed t' = false -> Forall is_byte key ->
  updates [] (root t) (root t') (keybytesToHex key) o ->
  forall key', Forall is_byte key' ->
    fst (Get database key' t') = if decide (key' = key) then Ret o else fst (Get database key' t).
Proof.
  intros Hok Hc Hok' Hc' Hb Hu key' Hb'.
  pose proof (full_key_keybytes key Hb) as Hk. pose proof (full_key_keybytes key' Hb') as Hk'.
  assert (keybytesToHex key' = [] <-> keybytesToHex key = []) as Hkind.
  { split; intros E; rewrite E in *; by (apply full_key_nil in Hk || apply full_key_nil in Hk'). }
  case_decide as E.
  - subst. change (Ret o) with (reported (Ok o)). apply Get_reported; [done..|].
    apply Hu; [by right|done|]. by rewrite decide_True.
  - apply Get_same; [done..|]. intros r Hr. apply Hu; [by right|done|].
    rewrite decide_False; [done|]. intros E'. by apply keybytesToHex_inj in E'.
Qed.

Lemma insert_root_spec key value t : trie_ok t -> Forall is_byte key ->
  let '(r, t') := insert_root database (keybytesToHex key) value t in
  trie_ok t' /\ committed t' = committed t /\
  match r with
  | Ret _ => updates [] (root t) (root t') (keybytesToHex key) (Some value)
  | Throw _ => root t' = root t
  | _ => False
  end.
Proof.
  intros [Hwf Hs] Hb. pose proof (full_key_keybytes key Hb) as Hk. unfold insert_root. set (k := keybytesToHex key) in *.
  assert (node_at k (root t)) as Hn by by rewrite full_node_at.
  pose proof (insert_returns (fuel_for k) (root t) [] k value (tr t) ltac:(by right) Hn Hs
    ltac:(unfold cost, fuel_for; destruct (root t); lia)) as Hr.
  unfold returns in Hr. unfold tm_map_err.
  destruct (insert database (fuel_for k) (root t) [] k (valueNode value) (tr t)) as [[[d n']|e| |] trc] eqn:E; simpl in *; try done.
  pose proof (insert_spec _ _ _ _ _ _ _ _ _ E ltac:(by right) Hn) as (Hn' & Hu & _). rewrite full_node_at in Hn' by done.
  split; [|done]. split; [done|]. simpl. eapply insert_sane; [| |exact E]; [done|constructor].
Qed.

Lemma delete_root_spec key t : trie_ok t -> Forall is_byte key ->
  let '(r, t') := delete_root database (keybytesToHex key) t in
  trie_ok t' /\ committed t' = committed t /\
  match r with
  | Ret _ => updates [] (root t) (root t') (keybytesToHex key) None
  | Throw _ => root t' = root t \/ updates [] (root t) (root t') (keybytesToHex key) None
  | _ => False
  end.
Proof.
  intros [Hwf Hs] Hb. pose proof (full_key_keybytes key Hb) as Hk. unfold delete_root. set (k := keybytesToHex key) in *.
  assert (node_at k (root t)) as Hn by by rewrite full_node_at.
  pose proof (delete_returns (fuel_for k) (root t) [] k (tr t) ltac:(by right) Hn Hs
    ltac:(unfold cost, fuel_for; destruct (root t); lia)) as Hr.
  unfold returns in Hr.
  destruct (delete database (fuel_for k) (root t) [] k (tr t)) as [[[d n']|[e n']| |] trc] eqn:E; simpl in *; try done.
  - pose proof (delete_spec _ _ _ _ _ _ _ _ E ltac:(by right) Hn) as (Hn' & Hu & _). rewrite full_node_at in Hn' by done.
    split; [|done]. split; [done|]. by eapply delete_sane.
  - pose proof (delete_fails _ _ _ _ _ _ _ _ E ltac:(by right) Hn) as (Hn' & Hu). rewrite full_node_at in Hn' by done.
    split; [|done]. split; [done|]. by eapply delete_fails_sane.
Qed.
End finds.
