(* ===== verification/TrieTheorems.v ===== *)
(** What the trie promises to its users, in terms of its own operations, with concrete
    stores and tries. *)

From stdpp Require Import base gmap list numbers option.
From S2P Require Import Prelude Rlp TrieKeys TrieNode Trie TrieMap.
Open Scope Z_scope.

(** A store whose blobs are byte slices and whose nodes have no extension with an empty
    key, like every store that was written by the trie. *)
Class GoodStore (database : list Z -> list Z -> option (list Z)) : Prop := {
  store_bytes : forall p h b, database p h = Some b -> Forall is_byte b /\ len b < two64;
  store_sane : forall p h n, load database p h = Ok n -> sane n }.

Section theorems.
Context (database : list Z -> list Z -> option (list Z)) `{!GoodStore database}.

(** C26. A trie is a map. After [Update], which never panics and always ends, [Get]
    returns the new value at the key, or nothing if the value was empty, and at every
    other key it returns what it returned before, errors of the store included. An
    update that fails changes no other key, and an insertion that fails changes
    nothing. *)
Theorem update_get key value t : trie_ok t -> committed t = false -> Forall is_byte key ->
  let '(r, t') := Update database key value t in
  trie_ok t' /\ committed t' = false /\
  match r with
  | Ret _ =>
      forall key', Forall is_byte key' ->
        fst (Get database key' t') =
          if decide (key' = key) then Ret (match value with [] => None | _ => Some value end)
          else fst (Get database key' t)
  | Throw _ =>
      (forall key', Forall is_byte key' -> key' <> key -> fst (Get database key' t') = fst (Get database key' t))
      /\ (value <> [] -> root t' = root t)
  | _ => False
  end.
Proof.
  intros Hok Hc Hb. unfold Update. rewrite Hc. unfold update.
  assert (trie_ok (count_change t)) as Hok1 by exact Hok.
  pose proof (store_bytes (database:=database)) as Hsb. pose proof (store_sane (database:=database)) as Hss.
  assert (forall key', fst (Get database key' (count_change t)) = fst (Get database key' t)) as Hcount.
  { intros key'. unfold Get. simpl. destruct (committed t); [done|].
    by destruct (get database _ (root t) _ _ (tr t)) as [[[[? ?] ?]| | |] ?]. }
  destruct value as [|v0 vtl].
  - pose proof (delete_root_spec database Hsb Hss key (count_change t) Hok1 Hb) as H.
    destruct (delete_root database (keybytesToHex key) (count_change t)) as [r t'].
    destruct H as (Hok' & Hc' & H). simpl in Hc'. rewrite Hc in Hc'. split; [done|]. split; [done|].
    destruct r as [u|e| |]; try done.
    + intros key' Hb'. rewrite <- Hcount. by apply (updates_Get database Hsb Hss).
    + split; [|done]. intros key' Hb' Hne. rewrite <- Hcount. destruct H as [E|H].
      * apply (Get_same database Hsb Hss); try done. intros r. by rewrite E.
      * rewrite (updates_Get database Hsb Hss key (count_change t) t' None Hok1 Hc Hok' Hc' Hb H key' Hb').
        by rewrite decide_False.
  - pose proof (insert_root_spec database Hsb Hss key (v0 :: vtl) (count_change t) Hok1 Hb) as H.
    destruct (insert_root database (keybytesToHex key) (v0 :: vtl) (count_change t)) as [r t'].
    destruct H as (Hok' & Hc' & H). simpl in Hc'. rewrite Hc in Hc'. split; [done|]. split; [done|].
    destruct r as [u|e| |]; try done.
    + intros key' Hb'. rewrite <- Hcount. by apply (updates_Get database Hsb Hss).
    + split; [|done]. intros key' Hb' Hne. rewrite <- Hcount.
      apply (Get_same database Hsb Hss); try done. intros r. by rewrite H.
Qed.

(** [Get] terminates without panicking on every well-formed trie, and resolving
    nodes on the way is invisible: the trie it leaves maps every key as before. *)
Theorem get_returns_and_preserves key t : trie_ok t -> committed t = false -> Forall is_byte key ->
  let '(r, t') := Get database key t in
  (exists x, r = reported x) /\ trie_ok t' /\ committed t' = false
  /\ forall key', Forall is_byte key' -> fst (Get database key' t') = fst (Get database key' t).
Proof.
  intros Hok Hc Hb. pose proof (store_bytes (database:=database)) as Hsb. pose proof (store_sane (database:=database)) as Hss.
  pose proof (Get_finds database Hsb Hss key t Hok Hc Hb) as (Hok' & Hs & Hc' & x & E & _).
  destruct (Get database key t) as [r t']. simpl in *.
  split; [by exists x|]. split; [done|]. split; [done|]. intros key' Hb'.
  apply (Get_same database Hsb Hss); try done. intros y Hy. by apply Hs.
Qed.
End theorems.

(** ** A concrete store *)

Definition leaf_of (k v : list Z) : node := shortNode k (valueNode v) newFlag.

(** Below nibble 1 there is a hash the store does not have, below 2 an embedded leaf. *)
Definition sample_root : node :=
  fullNode ([nilNode; hashNode (replicate 32 0xaa); leaf_of [3; 16] [0x62]] ++ replicate 13 nilNode ++ [nilNode]) newFlag.
Definition sample_blob : list Z := enc_stored sample_root.
Definition sample_hash : list Z := replicate 32 0xbb.
Definition sample_store (p h : list Z) : option (list Z) :=
  if decide (p = []) then Some sample_blob else None.

#[global] Instance sample_store_good : GoodStore sample_store.
Proof.
  split; unfold sample_store.
  - intros p h b. case_decide; [|done]. intros [= <-]. split; [|vm_compute; done].
    apply (bool_decide_unpack (Forall is_byte sample_blob)). vm_compute. exact I.
  - intros p h n. unfold load, Node. case_decide; [|done]. intros E.
    assert (n = loaded (Some h) sample_root) as ->; [|vm_compute; repeat constructor; done].
    destruct (sample_blob) as [|x l] eqn:Eb; [done|]. rewrite <- Eb in E. vm_compute in E. by simplify_eq.
Qed.

Definition sample_trie : Trie := mkTrie (hashNode sample_hash) false 0 0 (mkTracers newOpTracer ∅).

Lemma sample_trie_ok : trie_ok sample_trie.
Proof. split; constructor. Qed.

Lemma update_get_witness :
  let t' := snd (Update sample_store [0x24] [7] sample_trie) in
  fst (Update sample_store [0x24] [7] sample_trie) = Ret tt
  /\ fst (Get sample_store [0x24] t') = Ret (Some [7])
  /\ fst (Get sample_store [0x23] t') = Ret (Some [0x62])
  /\ fst (Get sample_store [0x12] t') = Throw (MissingNode [1] (replicate 32 0xaa)).
Proof.
  pose proof (update_get sample_store [0x24] [7] sample_trie sample_trie_ok eq_refl
    ltac:(repeat constructor; lia)) as H.
  assert (fst (Update sample_store [0x24] [7] sample_trie) = Ret tt) as E by (vm_compute; reflexivity).
  destruct (Update sample_store [0x24] [7] sample_trie) as [r t']. simpl in E |- *. subst r.
  destruct H as (_ & _ & H). split; [done|].
  rewrite !H by (repeat constructor; lia). vm_compute. auto.
Defined.

Lemma get_returns_and_preserves_witness :
  fst (Get sample_store [0x23] sample_trie) = Ret (Some [0x62])
  /\ fst (Get sample_store [0x23] (snd (Get sample_store [0x23] sample_trie))) = Ret (Some [0x62]).
Proof.
  pose proof (get_returns_and_preserves sample_store [0x23] sample_trie sample_trie_ok eq_refl
    ltac:(repeat constructor; lia)) as H.
  assert (fst (Get sample_store [0x23] sample_trie) = Ret (Some [0x62])) as E by (vm_compute; reflexivity).
  split; [done|]. revert H E. generalize (fst (Get sample_store [0x23] sample_trie)) as r0.
  intros r0. destruct (Get sample_store [0x23] sample_trie) as [r t']. intros (_ & _ & _ & H) E. simpl.
  rewrite H by (repeat constructor; lia). vm_compute. reflexivity.
Defined.

(** A clean branch with a leaf and a sibling the store does not have. *)
Definition torn_trie : Trie :=
  mkTrie
    (shortNode [1]
      (fullNode ([nilNode; nilNode; leaf_of [3; 0; 16] [0x62]; nilNode; hashNode (replicate 32 0xaa)]
                 ++ replicate 11 nilNode ++ [nilNode]) (mkFlag (Some [1]) false))
      (mkFlag (Some [2]) false))
    false 0 0 (mkTracers newOpTracer ∅).

(** A deletion that fails while it loads the last sibling has already removed the key:
    [Get] no longer finds it, while the nodes above still carry their old hash. *)
Example failed_delete_loses_key :
  let '(r, t') := Delete (fun _ _ => None) [0x12; 0x30] torn_trie in
  r = Throw (MissingNode [1; 4] (replicate 32 0xaa))
  /\ fst (Get (fun _ _ => None) [0x12; 0x30] torn_trie) = Ret (Some [0x62])
  /\ fst (Get (fun _ _ => None) [0x12; 0x30] t') = Ret None
  /\ cache (root t') = cache (root torn_trie).
Proof. vm_compute. auto. Qed.
