(* ===== verification/Evm.v ===== *)
(** The virtual machine: errors, contracts, the machine state and the monad its
    handlers run in.

    [core/vm/errors.go], [core/vm/contract.go], [core/vm/contract_arbitrum.go],
    [core/vm/gas.go] and the mutable part of [core/vm/evm.go]'s [EVM].  A handler may
    change the EVM (with the state database in it), the contract and the memory,
    return an error, or panic: [VM A] is [vst -> option (result vmError A * vst)],
    where [None] is the panic.  Tracers are left out: they observe. *)

From stdpp Require Import base gmap list numbers option strings.
From S2P Require Import Prelude Params MultiGas Uint256 VmCore JumpDest AccessList State.
Open Scope Z_scope.

(** ** Errors *)

Inductive vmError :=
| ErrOutOfGas
| ErrCodeStoreOutOfGas
| ErrDepth
| ErrInsufficientBalance
| ErrContractAddressCollision
| ErrExecutionReverted
| ErrMaxCodeSizeExceeded
| ErrMaxInitCodeSizeExceeded (size : Z)
| ErrInvalidJump
| ErrWriteProtection
| ErrReturnDataOutOfBounds
| ErrGasUintOverflow
| ErrInvalidCode
| ErrNonceUintOverflow
| errStopToken
| ErrStackUnderflow (stackLen required : Z)
| ErrStackOverflow (stackLen limit : Z)
| ErrInvalidOpCode (opcode : Z)
| errReentrancySentry
| ErrWrapOutOfGas (cause : vmError)
| ErrOther (code : Z).

(** ** Contracts *)

Record Contract := mkContract {
  caller : Z;
  address : Z;
  delegateOrCallcode : bool;
  code_part : CodeContract;
  Input : list Z;
  IsDeployment : bool;
  IsSystemCall : bool;
  Gas : Z;
  value : Z;
  UsedMultiGas : MultiGas;
  RetainedMultiGas : MultiGas
}.

Definition set_Gas (v : Z) (c : Contract) : Contract :=
  mkContract (caller c) (address c) (delegateOrCallcode c) (code_part c) (Input c)
    (IsDeployment c) (IsSystemCall c) v (value c) (UsedMultiGas c) (RetainedMultiGas c).
Definition set_UsedMultiGas (v : MultiGas) (c : Contract) : Contract :=
  mkContract (caller c) (address c) (delegateOrCallcode c) (code_part c) (Input c)
    (IsDeployment c) (IsSystemCall c) (Gas c) (value c) v (RetainedMultiGas c).
Definition set_RetainedMultiGas (v : MultiGas) (c : Contract) : Contract :=
  mkContract (caller c) (address c) (delegateOrCallcode c) (code_part c) (Input c)
    (IsDeployment c) (IsSystemCall c) (Gas c) (value c) (UsedMultiGas c) v.
Definition set_Input (v : list Z) (c : Contract) : Contract :=
  mkContract (caller c) (address c) (delegateOrCallcode c) (code_part c) v
    (IsDeployment c) (IsSystemCall c) (Gas c) (value c) (UsedMultiGas c) (RetainedMultiGas c).
Definition set_delegateOrCallcode (v : bool) (c : Contract) : Contract :=
  mkContract (caller c) (address c) v (code_part c) (Input c)
    (IsDeployment c) (IsSystemCall c) (Gas c) (value c) (UsedMultiGas c) (RetainedMultiGas c).
Definition set_IsDeployment (v : bool) (c : Contract) : Contract :=
  mkContract (caller c) (address c) (delegateOrCallcode c) (code_part c) (Input c)
    v (IsSystemCall c) (Gas c) (value c) (UsedMultiGas c) (RetainedMultiGas c).
Definition set_IsSystemCall (v : bool) (c : Contract) : Contract :=
  mkContract (caller c) (address c) (delegateOrCallcode c) (code_part c) (Input c)
    (IsDeployment c) v (Gas c) (value c) (UsedMultiGas c) (RetainedMultiGas c).
Definition set_code_part (v : CodeContract) (c : Contract) : Contract :=
  mkContract (caller c) (address c) (delegateOrCallcode c) v (Input c)
    (IsDeployment c) (IsSystemCall c) (Gas c) (value c) (UsedMultiGas c) (RetainedMultiGas c).

Definition NewContract (caller address value gas : Z) : Contract :=
  mkContract caller address false (mkCodeContract [] 0 None) [] false false gas value
    ZeroGas ZeroGas.

Definition Code (c : Contract) : list Z := cc_Code (code_part c).

(** [STOP] past the end of the code. *)
Definition GetOp (c : Contract) (n : Z) : Z :=
  if n <? Z.of_nat (length (Code c)) then default 0 (Code c !! Z.to_nat n) else 0.

Definition useGas (gas : Z) (c : Contract) : bool * Contract :=
  if Gas c <? gas then (false, c) else (true, set_Gas (Gas c - gas) c).

Definition RefundGas (gas : Z) (c : Contract) : Contract :=
  if gas =? 0 then c else set_Gas (u64 (Gas c + gas)) c.

Definition SetCallCode (hash : Z) (code : list Z) (c : Contract) : Contract :=
  set_code_part (mkCodeContract code hash (cc_analysis (code_part c))) c.

Definition UseMultiGas (multiGas : MultiGas) (c : Contract) : bool * Contract :=
  let '(ok, c) := useGas (SingleGas multiGas) c in
  if ok then (true, set_UsedMultiGas (SaturatingAddInto (UsedMultiGas c) multiGas) c)
  else (false, c).

Definition GetTotalUsedMultiGas (c : Contract) : MultiGas :=
  let '(total, underflow) := SafeSub (UsedMultiGas c) (RetainedMultiGas c) in
  if underflow then SaturatingSub (UsedMultiGas c) (RetainedMultiGas c) else total.

(** [Err] is [ErrOutOfGas]; the gas is gone in that case too. *)
Definition BurnGas (amount : Z) (c : Contract) : bool * Contract :=
  if Gas c <? amount then (false, set_Gas 0 c) else (true, set_Gas (Gas c - amount) c).

(** ** The machine state *)

Record EVM := mkEVM {
  evm_StateDB : StateDB;
  jumpDests : JumpDests;
  callGasTemp : Z;
  depth : Z;
  readOnly : bool;
  returnData : list Z;
  abort : bool
}.

Definition set_StateDB (v : StateDB) (e : EVM) : EVM :=
  mkEVM v (jumpDests e) (callGasTemp e) (depth e) (readOnly e) (returnData e) (abort e).
Definition set_jumpDests (v : JumpDests) (e : EVM) : EVM :=
  mkEVM (evm_StateDB e) v (callGasTemp e) (depth e) (readOnly e) (returnData e) (abort e).
Definition set_callGasTemp (v : Z) (e : EVM) : EVM :=
  mkEVM (evm_StateDB e) (jumpDests e) v (depth e) (readOnly e) (returnData e) (abort e).
Definition set_depth (v : Z) (e : EVM) : EVM :=
  mkEVM (evm_StateDB e) (jumpDests e) (callGasTemp e) v (readOnly e) (returnData e) (abort e).
Definition set_readOnly (v : bool) (e : EVM) : EVM :=
  mkEVM (evm_StateDB e) (jumpDests e) (callGasTemp e) (depth e) v (returnData e) (abort e).
Definition set_returnData (v : list Z) (e : EVM) : EVM :=
  mkEVM (evm_StateDB e) (jumpDests e) (callGasTemp e) (depth e) (readOnly e) v (abort e).

(** The configuration an EVM is created with. *)
Class Chain := {
  chainRules : Rules;
  chainConfig : ArbitrumChainParams
}.

Record vst := mkVst {
  v_evm : EVM;
  v_contract : Contract;
  v_memory : Memory.t
}.

(** ** The monad *)

Definition VM (A : Type) : Type := vst -> option (result vmError A * vst).

Definition vm_ret {A} (a : A) : VM A := fun s => Some (Ok a, s).
Definition vm_throw {A} (e : vmError) : VM A := fun s => Some (Err e, s).
Definition vm_bind {A B} (m : VM A) (k : A -> VM B) : VM B := fun s =>
  match m s with
  | None => None
  | Some (Err e, s') => Some (Err e, s')
  | Some (Ok a, s') => k a s'
  end.

Declare Scope vm_scope.
Delimit Scope vm_scope with vm.
Open Scope vm_scope.
Notation "'let*' x := m 'in' k" := (vm_bind m (fun x => k))
  (at level 10, x name, m at level 100, k at level 200) : vm_scope.
Notation "'let*' ' p := m 'in' k" := (vm_bind m (fun x => match x with p => k end))
  (at level 10, p pattern, m at level 100, k at level 200) : vm_scope.
Notation "m ;;* k" := (vm_bind m (fun _ => k)) (at level 100, right associativity) : vm_scope.

(** An operation that may panic. *)
Definition or_panic {A} (o : option A) : VM A := fun s =>
  match o with Some a => Some (Ok a, s) | None => None end.
Definition throw_if (b : bool) (e : vmError) : VM unit := if b then vm_throw e else vm_ret tt.

Definition get_evm : VM EVM := fun s => Some (Ok (v_evm s), s).
Definition put_evm (e : EVM) : VM unit := fun s =>
  Some (Ok tt, mkVst e (v_contract s) (v_memory s)).
Definition get_contract : VM Contract := fun s => Some (Ok (v_contract s), s).
Definition put_contract (c : Contract) : VM unit := fun s =>
  Some (Ok tt, mkVst (v_evm s) c (v_memory s)).
Definition get_memory : VM Memory.t := fun s => Some (Ok (v_memory s), s).
Definition put_memory (m : Memory.t) : VM unit := fun s =>
  Some (Ok tt, mkVst (v_evm s) (v_contract s) m).

(** Calls on [evm.StateDB]: reading, updating with a result, updating with a
    possible panic. *)
Definition db_get {A} (f : StateDB -> A) : VM A := fun s => Some (Ok (f (evm_StateDB (v_evm s))), s).
Definition db_do {A} (f : StateDB -> A * StateDB) : VM A := fun s =>
  let '(a, db) := f (evm_StateDB (v_evm s)) in
  Some (Ok a, mkVst (set_StateDB db (v_evm s)) (v_contract s) (v_memory s)).
Definition db_try (f : StateDB -> option StateDB) : VM unit := fun s =>
  match f (evm_StateDB (v_evm s)) with
  | None => None
  | Some db => Some (Ok tt, mkVst (set_StateDB db (v_evm s)) (v_contract s) (v_memory s))
  end.
Definition db_put (f : StateDB -> StateDB) : VM unit := db_do (fun s => (tt, f s)).

(** ** core/vm/gas.go *)

Definition GasQuickStep : Z := 2.
Definition GasFastestStep : Z := 3.
Definition GasFastishStep : Z := 4.
Definition GasFastStep : Z := 5.
Definition GasMidStep : Z := 8.
Definition GasSlowStep : Z := 10.
Definition GasExtStep : Z := 20.

Section Gas.
Context {U : U256.Ops}.

Definition callGas (isEip150 : bool) (availableGas base callCost : Z) : result vmError Z :=
  let gas := let availableGas := u64 (availableGas - base) in availableGas - availableGas / 64 in
  if isEip150 && (negb (U256.IsUint64 callCost) || (gas <? U256.Uint64 callCost)) then Ok gas
  else if negb (U256.IsUint64 callCost) then Err ErrGasUintOverflow
  else Ok (U256.Uint64 callCost).

End Gas.

Definition SELFDESTRUCT : Z := 0xff.

Definition addConstantMultiGas (usedMultiGas : MultiGas) (cost op : Z) : MultiGas :=
  if (op =? SELFDESTRUCT) && (cost =? SelfdestructGasEIP150) then
    let g := SaturatingIncrementInto usedMultiGas ResourceKindComputation WarmStorageReadCostEIP2929 in
    SaturatingIncrementInto g ResourceKindStorageAccessWrite (cost - WarmStorageReadCostEIP2929)
  else SaturatingIncrementInto usedMultiGas ResourceKindComputation cost.

(** [types.ParseDelegation]: the target of an EIP-7702 delegation designator,
    the prefix 0xef0100 followed by an address. *)
Definition DelegationPrefix : list Z := [0xef; 0x01; 0x00].

Definition ParseDelegation (b : list Z) : option Z :=
  if Nat.eqb (length b) 23 && bool_decide (take 3 b = DelegationPrefix)
  then Some (U256.be_value (drop 3 b)) else None.
