(* ===== verification/VmGas.v ===== *)
(** Dynamic gas: [core/vm/gas_table.go], [core/vm/operations_acl.go] and
    [core/vm/operations_acl_arbitrum.go].  A gas function reads the stack, may change the
    EVM, the contract and the memory's gas memo, and returns the multi-dimensional
    cost or an error. *)

From stdpp Require Import base gmap list numbers option strings.
From S2P Require Import Prelude Params MultiGas Uint256 VmCore JumpDest AccessList State Evm.
Open Scope Z_scope.
Open Scope vm_scope.

Section GasTable.
Context {U : U256.Ops} {HS : Hasher} {R : Reader} {CH : Chain}.

Definition gasFunc := Stack.t -> Z -> VM MultiGas.

Definition back (st : Stack.t) (n : nat) : VM Z := or_panic (Stack.Back st n).

(** [if multiGas, overflow = multiGas.SafeIncrement(..); overflow] *)
Definition safe_increment (g : MultiGas) (k : ResourceKind) (amount : Z) : VM MultiGas :=
  let '(g', overflow) := SafeIncrement g k amount in
  if overflow then vm_throw ErrGasUintOverflow else vm_ret g'.

Definition safe_add (g x : MultiGas) : VM MultiGas :=
  let '(g', overflow) := SafeAdd g x in
  if overflow then vm_throw ErrGasUintOverflow else vm_ret g'.

(** A flagged uint64 result. *)
Definition no_overflow (r : Z * bool) : VM Z :=
  if snd r then vm_throw ErrGasUintOverflow else vm_ret (fst r).

Definition vm_result {A} (r : result vmError A) : VM A :=
  match r with Ok a => vm_ret a | Err e => vm_throw e end.

(** ** Memory *)

Definition memoryGasCost (newMemSize : Z) : VM MultiGas :=
  if newMemSize =? 0 then vm_ret ZeroGas
  else if 0x1FFFFFFFE0 <? newMemSize then vm_throw ErrGasUintOverflow
  else
    let newMemSizeWords := toWordSize newMemSize in
    let newMemSize := u64 (newMemSizeWords * 32) in
    let* mem := get_memory in
    if Memory.Len mem <? newMemSize then
      let square := u64 (newMemSizeWords * newMemSizeWords) in
      let linCoef := u64 (newMemSizeWords * MemoryGas) in
      let quadCoef := square / QuadCoeffDiv in
      let newTotalFee := u64 (linCoef + quadCoef) in
      let fee := u64 (newTotalFee - Memory.lastGasCost mem) in
      put_memory (Memory.mk (Memory.store mem) newTotalFee) ;;*
      vm_ret (ComputationGas fee)
    else vm_ret ZeroGas.

Definition memoryCopierGas (stackpos : nat) : gasFunc := fun stack memorySize =>
  let* multiGas := memoryGasCost memorySize in
  let* size := back stack stackpos in
  let* words := no_overflow (U256.Uint64WithOverflow size) in
  let* wordCopyGas := no_overflow (GoMath.SafeMul (toWordSize words) CopyGas) in
  let dim := if Nat.eqb stackpos 3 then ResourceKindStorageAccessRead else ResourceKindComputation in
  safe_increment multiGas dim wordCopyGas.

Definition gasCallDataCopy : gasFunc := memoryCopierGas 2.
Definition gasCodeCopy : gasFunc := memoryCopierGas 2.
Definition gasMcopy : gasFunc := memoryCopierGas 2.
Definition gasExtCodeCopy : gasFunc := memoryCopierGas 3.
Definition gasReturnDataCopy : gasFunc := memoryCopierGas 2.

Definition pureMemoryGascost : gasFunc := fun _ memorySize => memoryGasCost memorySize.
Definition gasReturn : gasFunc := pureMemoryGascost.
Definition gasRevert : gasFunc := pureMemoryGascost.
Definition gasMLoad : gasFunc := pureMemoryGascost.
Definition gasMStore8 : gasFunc := pureMemoryGascost.
Definition gasMStore : gasFunc := pureMemoryGascost.
Definition gasCreate : gasFunc := pureMemoryGascost.

(** ** SSTORE *)

Definition gasSStore : gasFunc := fun stack _ =>
  let* y := back stack 1 in
  let* x := back stack 0 in
  let* c := get_contract in
  let* '(current, original) := db_do (GetStateAndCommittedState (address c) (U256.Bytes32 x)) in
  if IsPetersburg chainRules || negb (IsConstantinople chainRules) then
    if (current =? 0) && negb (U256.Sign y =? 0) then vm_ret (StorageGrowthGas SstoreSetGas)
    else if negb (current =? 0) && (U256.Sign y =? 0) then
      db_put (AddRefund SstoreRefundGas) ;;* vm_ret (StorageAccessWriteGas SstoreClearGas)
    else vm_ret (StorageAccessWriteGas SstoreResetGas)
  else
    let value := U256.Bytes32 y in
    if current =? value then vm_ret (StorageAccessReadGas NetSstoreNoopGas)
    else if original =? current then
      if original =? 0 then vm_ret (StorageGrowthGas NetSstoreInitGas)
      else
        (if value =? 0 then db_put (AddRefund NetSstoreClearRefund) else vm_ret tt) ;;*
        vm_ret (StorageAccessWriteGas NetSstoreCleanGas)
    else
      (if negb (original =? 0) then
         if current =? 0 then db_try (SubRefund NetSstoreClearRefund)
         else if value =? 0 then db_put (AddRefund NetSstoreClearRefund)
         else vm_ret tt
       else vm_ret tt) ;;*
      (if original =? value then
         if original =? 0 then db_put (AddRefund NetSstoreResetClearRefund)
         else db_put (AddRefund NetSstoreResetRefund)
       else vm_ret tt) ;;*
      vm_ret (StorageAccessWriteGas NetSstoreDirtyGas).

Definition gasSStoreEIP2200 : gasFunc := fun stack _ =>
  let* c := get_contract in
  throw_if (Gas c <=? SstoreSentryGasEIP2200) errReentrancySentry ;;*
  let* y := back stack 1 in
  let* x := back stack 0 in
  let* '(current, original) := db_do (GetStateAndCommittedState (address c) (U256.Bytes32 x)) in
  let value := U256.Bytes32 y in
  if current =? value then vm_ret (StorageAccessReadGas SloadGasEIP2200)
  else if original =? current then
    if original =? 0 then vm_ret (StorageGrowthGas SstoreSetGasEIP2200)
    else
      (if value =? 0 then db_put (AddRefund SstoreClearsScheduleRefundEIP2200) else vm_ret tt) ;;*
      vm_ret (StorageAccessWriteGas SstoreResetGasEIP2200)
  else
    (if negb (original =? 0) then
       if current =? 0 then db_try (SubRefund SstoreClearsScheduleRefundEIP2200)
       else if value =? 0 then db_put (AddRefund SstoreClearsScheduleRefundEIP2200)
       else vm_ret tt
     else vm_ret tt) ;;*
    (if original =? value then
       if original =? 0 then db_put (AddRefund (SstoreSetGasEIP2200 - SloadGasEIP2200))
       else db_put (AddRefund (SstoreResetGasEIP2200 - SloadGasEIP2200))
     else vm_ret tt) ;;*
    vm_ret (StorageAccessWriteGas SloadGasEIP2200).

(** The presence of a slot; adding it when it is missing. *)
Definition slot_present (addr slot : Z) : VM (bool * bool) :=
  let* r := db_get (SlotInAccessList addr slot) in or_panic r.
Definition add_slot (addr slot : Z) : VM unit := db_try (AddSlotToAccessList addr slot).

Definition makeGasSStoreFunc (clearingRefund : Z) : gasFunc := fun stack _ =>
  let* c := get_contract in
  throw_if (Gas c <=? SstoreSentryGasEIP2200) errReentrancySentry ;;*
  let* y := back stack 1 in
  let* x := or_panic (Stack.peek stack) in
  let slot := U256.Bytes32 x in
  let* '(current, original) := db_do (GetStateAndCommittedState (address c) slot) in
  let* '(_, slotPresent) := slot_present (address c) slot in
  let* multiGas :=
    (if negb slotPresent then
       add_slot (address c) slot ;;*
       vm_ret (SaturatingIncrement ZeroGas ResourceKindStorageAccessRead ColdSloadCostEIP2929)
     else vm_ret ZeroGas) in
  let value := U256.Bytes32 y in
  if current =? value then
    vm_ret (SaturatingIncrement multiGas ResourceKindComputation WarmStorageReadCostEIP2929)
  else if original =? current then
    if original =? 0 then
      vm_ret (SaturatingIncrement multiGas ResourceKindStorageGrowth SstoreSetGasEIP2200)
    else
      (if value =? 0 then db_put (AddRefund clearingRefund) else vm_ret tt) ;;*
      vm_ret (SaturatingIncrement multiGas ResourceKindStorageAccessWrite
                (SstoreResetGasEIP2200 - ColdSloadCostEIP2929))
  else
    (if negb (original =? 0) then
       if current =? 0 then db_try (SubRefund clearingRefund)
       else if value =? 0 then db_put (AddRefund clearingRefund)
       else vm_ret tt
     else vm_ret tt) ;;*
    (if original =? value then
       if original =? 0 then
         db_put (AddRefund (SstoreSetGasEIP2200 - WarmStorageReadCostEIP2929))
       else db_put (AddRefund ((SstoreResetGasEIP2200 - ColdSloadCostEIP2929)
                               - WarmStorageReadCostEIP2929))
     else vm_ret tt) ;;*
    vm_ret (SaturatingIncrement multiGas ResourceKindComputation WarmStorageReadCostEIP2929).

Definition gasSStoreEIP2929 : gasFunc := makeGasSStoreFunc SstoreClearsScheduleRefundEIP2200.
Definition gasSStoreEIP3529 : gasFunc := makeGasSStoreFunc SstoreClearsScheduleRefundEIP3529.

(** ** Logs, hashing, creation, exponentiation *)

Definition makeGasLog (n : Z) : gasFunc := fun stack memorySize =>
  let* size := back stack 1 in
  let* requestedSize := no_overflow (U256.Uint64WithOverflow size) in
  let* multiGas := memoryGasCost memorySize in
  let* multiGas := safe_increment multiGas ResourceKindComputation LogGas in
  let* topicHistTotal := no_overflow (GoMath.SafeMul n LogTopicHistoryGas) in
  let* topicCompTotal := no_overflow (GoMath.SafeMul n LogTopicComputationGas) in
  let* multiGas := safe_increment multiGas ResourceKindHistoryGrowth topicHistTotal in
  let* multiGas := safe_increment multiGas ResourceKindComputation topicCompTotal in
  let* dataHist := no_overflow (GoMath.SafeMul requestedSize LogDataGas) in
  safe_increment multiGas ResourceKindHistoryGrowth dataHist.

(** Memory expansion and [Keccak256WordGas] per word of the operand at [pos]. *)
Definition gas_hash_words (pos : nat) : gasFunc := fun stack memorySize =>
  let* multiGas := memoryGasCost memorySize in
  let* size := back stack pos in
  let* wordGas := no_overflow (U256.Uint64WithOverflow size) in
  let* wordGas := no_overflow (GoMath.SafeMul (toWordSize wordGas) Keccak256WordGas) in
  safe_increment multiGas ResourceKindComputation wordGas.

Definition gasKeccak256 : gasFunc := gas_hash_words 1.
Definition gasCreate2 : gasFunc := gas_hash_words 2.

Definition gas_initcode (perWord : Z) : gasFunc := fun stack memorySize =>
  let* multiGas := memoryGasCost memorySize in
  let* size := back stack 2 in
  let* size := no_overflow (U256.Uint64WithOverflow size) in
  throw_if (MaxInitCodeSize chainConfig <? size) (ErrMaxInitCodeSizeExceeded size) ;;*
  let moreGas := u64 (perWord * (u64 (size + 31) / 32)) in
  safe_increment multiGas ResourceKindComputation moreGas.

Definition gasCreateEip3860 : gasFunc := gas_initcode InitCodeWordGas.
Definition gasCreate2Eip3860 : gasFunc := gas_initcode (InitCodeWordGas + Keccak256WordGas).

Definition gas_exp (perByte : Z) : gasFunc := fun stack _ =>
  let* e := back stack 1 in
  let expByteLen := (U256.BitLen e + 7) / 8 in
  let* gas := no_overflow (GoMath.SafeAdd (u64 (expByteLen * perByte)) ExpGas) in
  vm_ret (ComputationGas gas).

Definition gasExpFrontier : gasFunc := gas_exp ExpByteFrontier.
Definition gasExpEIP158 : gasFunc := gas_exp ExpByteEIP158.

(** ** Calls *)

(** The end of every call cost: the gas to forward, by the 63/64 rule. *)
Definition forward_gas (stack : Stack.t) (multiGas : MultiGas) : VM MultiGas :=
  let* c := get_contract in
  let* requested := back stack 0 in
  let* temp := vm_result (callGas (IsEIP150 chainRules) (Gas c) (SingleGas multiGas) requested) in
  let* e := get_evm in
  put_evm (set_callGasTemp temp e) ;;*
  safe_increment multiGas ResourceKindComputation temp.

Definition gasCall : gasFunc := fun stack memorySize =>
  let* v := back stack 2 in
  let transfersValue := negb (U256.IsZero v) in
  let* a := back stack 1 in
  let address := U256.Bytes20 a in
  let* multiGas :=
    (if IsEIP158 chainRules then
       if transfersValue then
         let* empty := db_do (Empty address) in
         vm_ret (if empty : bool then SaturatingIncrement ZeroGas ResourceKindStorageGrowth CallNewAccountGas
                 else ZeroGas)
       else vm_ret ZeroGas
     else
       let* exist := db_do (Exist address) in
       vm_ret (if negb exist then SaturatingIncrement ZeroGas ResourceKindStorageGrowth CallNewAccountGas
               else ZeroGas)) in
  let multiGas :=
    if transfersValue && negb (IsEIP4762 chainRules)
    then SaturatingIncrement multiGas ResourceKindComputation CallValueTransferGas else multiGas in
  let* memoryMultiGas := memoryGasCost memorySize in
  let* multiGas := safe_add multiGas memoryMultiGas in
  forward_gas stack multiGas.

Definition gasCallCode : gasFunc := fun stack memorySize =>
  let* memoryMultiGas := memoryGasCost memorySize in
  let* v := back stack 2 in
  let multiGas :=
    if negb (U256.Sign v =? 0) && negb (IsEIP4762 chainRules)
    then SaturatingIncrement ZeroGas ResourceKindComputation CallValueTransferGas else ZeroGas in
  let* multiGas := safe_add multiGas memoryMultiGas in
  forward_gas stack multiGas.

Definition gasDelegateCall : gasFunc := fun stack memorySize =>
  let* multiGas := memoryGasCost memorySize in forward_gas stack multiGas.
Definition gasStaticCall : gasFunc := fun stack memorySize =>
  let* multiGas := memoryGasCost memorySize in forward_gas stack multiGas.

Definition gasSelfdestruct : gasFunc := fun stack _ =>
  let* c := get_contract in
  let* multiGas :=
    (if IsEIP150 chainRules then
       let multiGas := SaturatingIncrement ZeroGas ResourceKindStorageAccessWrite SelfdestructGasEIP150 in
       let* a := back stack 0 in
       let addr := U256.Bytes20 a in
       if IsEIP158 chainRules then
         let* empty := db_do (Empty addr) in
         if empty : bool then
           let* balance := db_do (GetBalance (address c)) in
           vm_ret (if negb (U256.Sign balance =? 0)
                   then SaturatingIncrement multiGas ResourceKindStorageGrowth CreateBySelfdestructGas
                   else multiGas)
         else vm_ret multiGas
       else
         let* exist := db_do (Exist addr) in
         vm_ret (if negb exist
                 then SaturatingIncrement multiGas ResourceKindStorageGrowth CreateBySelfdestructGas
                 else multiGas)
     else vm_ret ZeroGas) in
  let* destructed := db_do (HasSelfDestructed (address c)) in
  (if negb destructed then db_put (AddRefund SelfdestructRefundGas) else vm_ret tt) ;;*
  vm_ret multiGas.

(** ** EIP-2929, EIP-3529 and EIP-7702 *)

Definition gasSLoadEIP2929 : gasFunc := fun stack _ =>
  let* loc := or_panic (Stack.peek stack) in
  let* c := get_contract in
  let slot := U256.Bytes32 loc in
  let* '(_, slotPresent) := slot_present (address c) slot in
  if negb slotPresent then
    add_slot (address c) slot ;;*
    or_panic (MultiGasFromPairs
      [(ResourceKindStorageAccessRead, ColdSloadCostEIP2929 - WarmStorageReadCostEIP2929);
       (ResourceKindComputation, WarmStorageReadCostEIP2929)])
  else vm_ret (ComputationGas WarmStorageReadCostEIP2929).

Definition address_present (addr : Z) : VM bool := db_get (AddressInAccessList addr).
Definition add_address (addr : Z) : VM unit := db_put (AddAddressToAccessList addr).

Definition gasExtCodeCopyEIP2929 : gasFunc := fun stack memorySize =>
  let* multiGas := gasExtCodeCopy stack memorySize in
  let* a := or_panic (Stack.peek stack) in
  let addr := U256.Bytes20 a in
  let* present := address_present addr in
  if negb present then
    add_address addr ;;*
    safe_increment multiGas ResourceKindStorageAccessRead
      (ColdAccountAccessCostEIP2929 - WarmStorageReadCostEIP2929)
  else vm_ret multiGas.

Definition gasEip2929AccountCheck : gasFunc := fun stack _ =>
  let* a := or_panic (Stack.peek stack) in
  let addr := U256.Bytes20 a in
  let* present := address_present addr in
  if negb present then
    add_address addr ;;*
    vm_ret (StorageAccessReadGas (ColdAccountAccessCostEIP2929 - WarmStorageReadCostEIP2929))
  else vm_ret ZeroGas.

(** [if !contract.UseMultiGas(..) { return ErrOutOfGas }] *)
Definition use_multi_gas (g : MultiGas) : VM unit :=
  let* c := get_contract in
  let '(ok, c) := UseMultiGas g c in
  put_contract c ;;* throw_if (negb ok) ErrOutOfGas.

Definition makeCallVariantGasCallEIP2929 (oldCalculator : gasFunc) (addressPosition : nat) : gasFunc :=
  fun stack memorySize =>
  let* a := back stack addressPosition in
  let addr := U256.Bytes20 a in
  let* warmAccess := address_present addr in
  let coldCost := ColdAccountAccessCostEIP2929 - WarmStorageReadCostEIP2929 in
  (if negb warmAccess then
     add_address addr ;;* use_multi_gas (StorageAccessReadGas coldCost)
   else vm_ret tt) ;;*
  let* multiGas := oldCalculator stack memorySize in
  if warmAccess then vm_ret multiGas
  else
    let* c := get_contract in
    let c := set_Gas (u64 (Gas c + coldCost)) c in
    put_contract (set_RetainedMultiGas
      (SaturatingIncrementInto (RetainedMultiGas c) ResourceKindStorageAccessRead coldCost) c) ;;*
    safe_increment multiGas ResourceKindStorageAccessRead coldCost.

Definition gasCallEIP2929 : gasFunc := makeCallVariantGasCallEIP2929 gasCall 1.
Definition gasDelegateCallEIP2929 : gasFunc := makeCallVariantGasCallEIP2929 gasDelegateCall 1.
Definition gasStaticCallEIP2929 : gasFunc := makeCallVariantGasCallEIP2929 gasStaticCall 1.
Definition gasCallCodeEIP2929 : gasFunc := makeCallVariantGasCallEIP2929 gasCallCode 1.

Definition makeSelfdestructGasFn (refundsEnabled : bool) : gasFunc := fun stack _ =>
  let* a := or_panic (Stack.peek stack) in
  let addr := U256.Bytes20 a in
  let* c := get_contract in
  let* present := address_present addr in
  let* multiGas :=
    (if negb present then
       add_address addr ;;*
       vm_ret (SaturatingIncrement ZeroGas ResourceKindStorageAccessRead ColdAccountAccessCostEIP2929)
     else vm_ret ZeroGas) in
  let* empty := db_do (Empty addr) in
  let* multiGas :=
    (if empty : bool then
       let* balance := db_do (GetBalance (address c)) in
       vm_ret (if negb (U256.Sign balance =? 0)
               then SaturatingIncrement multiGas ResourceKindStorageGrowth CreateBySelfdestructGas
               else multiGas)
     else vm_ret multiGas) in
  (if refundsEnabled then
     let* destructed := db_do (HasSelfDestructed (address c)) in
     if negb destructed then db_put (AddRefund SelfdestructRefundGas) else vm_ret tt
   else vm_ret tt) ;;*
  vm_ret multiGas.

Definition gasSelfdestructEIP2929 : gasFunc := makeSelfdestructGasFn true.
Definition gasSelfdestructEIP3529 : gasFunc := makeSelfdestructGasFn false.

Definition makeCallVariantGasCallEIP7702 (oldCalculator : gasFunc) : gasFunc :=
  fun stack memorySize =>
  let* a := back stack 1 in
  let addr := U256.Bytes20 a in
  let* present := address_present addr in
  let* multiGas :=
    (if negb present then
       add_address addr ;;*
       let coldCost := ColdAccountAccessCostEIP2929 - WarmStorageReadCostEIP2929 in
       use_multi_gas (StorageAccessReadGas coldCost) ;;*
       vm_ret (SaturatingIncrement ZeroGas ResourceKindStorageAccessRead coldCost)
     else vm_ret ZeroGas) in
  let* code := db_do (GetCode addr) in
  let* multiGas :=
    match ParseDelegation code with
    | Some target =>
        let* warm := address_present target in
        let* cost :=
          (if warm : bool then vm_ret WarmStorageReadCostEIP2929
           else add_address target ;;* vm_ret ColdAccountAccessCostEIP2929) in
        use_multi_gas (StorageAccessReadGas cost) ;;*
        vm_ret (SaturatingIncrement multiGas ResourceKindStorageAccessRead cost)
    | None => vm_ret multiGas
    end in
  let* multiOld := oldCalculator stack memorySize in
  let* c := get_contract in
  let c := set_Gas (u64 (Gas c + SingleGas multiGas)) c in
  put_contract (set_RetainedMultiGas (SaturatingAddInto (RetainedMultiGas c) multiGas) c) ;;*
  safe_add multiGas multiOld.

Definition gasCallEIP7702 : gasFunc := makeCallVariantGasCallEIP7702 gasCall.
Definition gasDelegateCallEIP7702 : gasFunc := makeCallVariantGasCallEIP7702 gasDelegateCall.
Definition gasStaticCallEIP7702 : gasFunc := makeCallVariantGasCallEIP7702 gasStaticCall.
Definition gasCallCodeEIP7702 : gasFunc := makeCallVariantGasCallEIP7702 gasCallCode.

(** ** Costs charged to wasm programs *)

Definition WasmStateLoadCost (program key : Z) : VM MultiGas :=
  let* '(_, slotPresent) := slot_present program key in
  if negb slotPresent then
    add_slot program key ;;*
    or_panic (MultiGasFromPairs
      [(ResourceKindStorageAccessRead, ColdSloadCostEIP2929 - WarmStorageReadCostEIP2929);
       (ResourceKindComputation, WarmStorageReadCostEIP2929)])
  else vm_ret (ComputationGas WarmStorageReadCostEIP2929).

(** Panics when the program's address is not in the access list. *)
Definition WasmStateStoreCost (program key value : Z) : VM MultiGas :=
  let clearingRefund := SstoreClearsScheduleRefundEIP3529 in
  let* current := db_do (GetState program key) in
  let* '(addrPresent, slotPresent) := slot_present program key in
  let* cost :=
    (if negb slotPresent then
       add_slot program key ;;*
       or_panic (if addrPresent : bool
                 then Some (SaturatingIncrementInto ZeroGas ResourceKindStorageAccessRead
                              ColdSloadCostEIP2929)
                 else None)
     else vm_ret ZeroGas) in
  if current =? value then
    vm_ret (SaturatingIncrement cost ResourceKindComputation WarmStorageReadCostEIP2929)
  else
    let* '(_, original) := db_do (GetStateAndCommittedState program key) in
    if original =? current then
      if original =? 0 then
        vm_ret (SaturatingIncrement cost ResourceKindStorageGrowth SstoreSetGasEIP2200)
      else
        (if value =? 0 then db_put (AddRefund clearingRefund) else vm_ret tt) ;;*
        vm_ret (SaturatingIncrement cost ResourceKindStorageAccessWrite
                  (SstoreResetGasEIP2200 - ColdSloadCostEIP2929))
    else
      (if negb (original =? 0) then
         if current =? 0 then db_try (SubRefund clearingRefund)
         else if value =? 0 then db_put (AddRefund clearingRefund)
         else vm_ret tt
       else vm_ret tt) ;;*
      (if original =? value then
         if original =? 0 then
           db_put (AddRefund (SstoreSetGasEIP2200 - WarmStorageReadCostEIP2929))
         else db_put (AddRefund ((SstoreResetGasEIP2200 - ColdSloadCostEIP2929)
                                 - WarmStorageReadCostEIP2929))
       else vm_ret tt) ;;*
      vm_ret (SaturatingIncrement cost ResourceKindComputation WarmStorageReadCostEIP2929).

(** The cost and whether it ran out of the budget: the cost accumulated so far is
    returned in both cases. *)
Definition wasm_apply (budget : Z) (total : MultiGas) (k : ResourceKind) (amount : Z) :
    MultiGas * bool :=
  let total := SaturatingIncrementInto total k amount in (total, budget <? SingleGas total).

Definition WasmCallCost (contract value budget : Z) : VM (MultiGas * bool) :=
  let apply := wasm_apply budget in
  let '(total, out) := apply ZeroGas ResourceKindComputation WarmStorageReadCostEIP2929 in
  if out then vm_ret (total, true)
  else
    let* warmAccess := address_present contract in
    let coldCost := ColdAccountAccessCostEIP2929 - WarmStorageReadCostEIP2929 in
    let* '(total, out) :=
      (if negb warmAccess then
         add_address contract ;;* vm_ret (apply total ResourceKindStorageAccessRead coldCost)
       else vm_ret (total, false)) in
    if out : bool then vm_ret (total, true)
    else
      let transfersValue := negb (U256.Sign value =? 0) in
      let* '(total, out) :=
        (if transfersValue then
           let* empty := db_do (Empty contract) in
           vm_ret (if empty : bool then apply total ResourceKindStorageGrowth CallNewAccountGas
                   else (total, false))
         else vm_ret (total, false)) in
      if out : bool then vm_ret (total, true)
      else if transfersValue then
        vm_ret (apply total ResourceKindComputation CallValueTransferGas)
      else vm_ret (total, false).

Definition WasmAccountTouchCost (cfg : ArbitrumChainParams) (addr : Z) (withCode : bool) : VM MultiGas :=
  let cost :=
    if withCode then
      let extCodeCost := u64 (MaxCodeSize cfg / DefaultMaxCodeSize * ExtcodeSizeGasEIP150) in
      SaturatingIncrementInto ZeroGas ResourceKindStorageAccessRead extCodeCost
    else ZeroGas in
  let* present := address_present addr in
  if negb present then
    add_address addr ;;*
    let* cold := or_panic (MultiGasFromPairs
      [(ResourceKindStorageAccessRead, ColdAccountAccessCostEIP2929 - WarmStorageReadCostEIP2929);
       (ResourceKindComputation, WarmStorageReadCostEIP2929)]) in
    vm_ret (SaturatingAdd cost cold)
  else vm_ret (SaturatingIncrement cost ResourceKindComputation WarmStorageReadCostEIP2929).

Definition WasmLogCost (numTopics dataBytes : Z) : MultiGas :=
  let bloomHistoryGrowthCost := u64 (LogTopicHistoryGas * numTopics) in
  let payloadHistoryGrowthCost := u64 (LogDataGas * dataBytes) in
  HistoryGrowthGas (u64 (bloomHistoryGrowthCost + payloadHistoryGrowthCost)).

End GasTable.
