(* ===== verification/SstoreRefund.v ===== *)
(** The refund counter and SSTORE.

    The net gas metering of SSTORE subtracts a clearing refund when a slot that
    was cleared in this transaction is written again, and [SubRefund] panics if
    the counter would go below zero.  [gas_table.go] claims "We can prove that
    refund counter will never go below 0": this file proves it.  The counter
    covers one clearing refund for every slot that held a value at the start of
    the transaction and is zero now; every SSTORE, every other operation and
    every revert keeps that. *)

From stdpp Require Import base gmap list numbers option sets strings.
From S2P Require Import Prelude Params MultiGas Uint256 VmCore JumpDest AccessList State.
From S2P Require Import StateRevert Evm VmGas.
Open Scope Z_scope.
Open Scope vm_scope.

Section Refund.
Context {U : U256.Ops} {L : U256.Laws U} {HS : Hasher} {R : Reader} {CH : Chain}.

(** ** Slots *)

(** The value of a slot, and its value before the transaction. *)
Definition slot_value (s : StateDB) (a k : Z) : Z :=
  match acct s a with Some o => current (stateObjectsDestruct s) o k | None => 0 end.
Definition slot_origin (s : StateDB) (a k : Z) : Z :=
  match acct s a with Some o => committed (stateObjectsDestruct s) o k | None => 0 end.

(** The slot was cleared in this transaction. *)
Definition cleared (s : StateDB) (x : Z * Z) : bool :=
  negb (slot_origin s x.1 x.2 =? 0) && (slot_value s x.1 x.2 =? 0).

Definition count (P : Z * Z -> bool) (X : list (Z * Z)) : Z :=
  Z.of_nat (length (List.filter P X)).

(** The counter holds a clearing refund for every cleared slot. *)
Definition covers (c : Z) (s : StateDB) : Prop :=
  forall X, NoDup X -> c * count (cleared s) X <= refund s.

Lemma count_nonneg P X : 0 <= count P X.
Proof. unfold count. lia. Qed.

Lemma count_ext P Q X : (forall x, x ∈ X -> P x = Q x) -> count P X = count Q X.
Proof.
  intros H. unfold count. do 2 f_equal. apply List.filter_ext_in. intros x Hx. apply H.
  by apply list_elem_of_In.
Qed.

Lemma count_cons P x X : count P (x :: X) = (if P x then 1 else 0) + count P X.
Proof. unfold count. simpl. destruct (P x); simpl; lia. Qed.

(** Changing a predicate at one point. *)
Lemma count_update P Q x X :
  NoDup X -> (forall y, y <> x -> Q y = P y) ->
  count Q X = count P X + (if decide (x ∈ X) then (if Q x then 1 else 0) - (if P x then 1 else 0) else 0).
Proof.
  intros Hnd Hne. induction Hnd as [|y X Hy Hnd IH].
  - rewrite decide_False by (by intros ?%elem_of_nil). unfold count; simpl. lia.
  - rewrite !count_cons, IH. destruct (decide (y = x)) as [->|Hyx].
    + rewrite decide_False by done. rewrite decide_True by (by left). lia.
    + rewrite (Hne y) by done. destruct (decide (x ∈ X)).
      * rewrite decide_True by (by right). lia.
      * rewrite decide_False; [lia|]. intros [->|]%elem_of_cons; done.
Qed.

Lemma covers_update c s s' x :
  0 <= c -> covers c s -> (forall y, y <> x -> cleared s' y = cleared s y) ->
  refund s + c * ((if cleared s' x then 1 else 0) - (if cleared s x then 1 else 0)) <= refund s' ->
  covers c s'.
Proof.
  intros Hc Hcov Hne Hr X Hnd. rewrite (count_update (cleared s) (cleared s') x X Hnd Hne).
  destruct (decide (x ∈ X)) as [Hin|Hin].
  - specialize (Hcov X Hnd). destruct (cleared s' x), (cleared s x); lia.
  - specialize (Hcov (x :: X) ltac:(by constructor)). rewrite count_cons in Hcov.
    destruct (cleared s' x), (cleared s x); nia.
Qed.

Lemma covers_mono c s s' :
  0 <= c -> covers c s -> (forall y, cleared s' y = cleared s y) -> refund s <= refund s' -> covers c s'.
Proof.
  intros Hc Hcov Hsame Hr X Hnd. rewrite (count_ext _ (cleared s)) by (intros; apply Hsame).
  specialize (Hcov X Hnd). lia.
Qed.

Lemma covers_one c s x : 0 <= c -> covers c s -> cleared s x = true -> c <= refund s.
Proof.
  intros Hc Hcov Hx. specialize (Hcov [x] (NoDup_singleton x)).
  rewrite count_cons, Hx in Hcov. unfold count in Hcov. simpl in Hcov. lia.
Qed.

(** ** Equivalent states *)

Lemma equiv_slots s1 s2 a k :
  equiv s1 s2 -> slot_value s1 a k = slot_value s2 a k /\ slot_origin s1 a k = slot_origin s2 a k.
Proof.
  intros Hq. pose proof (equiv_acct _ _ a Hq) as Ha. unfold slot_value, slot_origin.
  rewrite <- (re_destruct _ _ (eq_rest _ _ Hq)).
  destruct (acct s1 a), (acct s2 a); try done. by destruct Ha.
Qed.

Lemma equiv_covers c s1 s2 : equiv s1 s2 -> covers c s1 -> covers c s2.
Proof.
  intros Hq Hcov X Hnd. rewrite <- (re_refund _ _ (eq_rest _ _ Hq)).
  rewrite (count_ext _ (cleared s1)); [by apply Hcov|]. intros [a k] _. unfold cleared; simpl.
  by destruct (equiv_slots _ _ a k Hq) as [-> ->].
Qed.

(** States with the same slots and refund. *)
Definition slots_eq (s s' : StateDB) : Prop :=
  refund s' = refund s
  /\ forall a k, slot_value s' a k = slot_value s a k /\ slot_origin s' a k = slot_origin s a k.

Lemma slots_eq_refl s : slots_eq s s.
Proof. done. Qed.

Lemma slots_eq_trans s1 s2 s3 : slots_eq s1 s2 -> slots_eq s2 s3 -> slots_eq s1 s3.
Proof.
  intros [R1 S1] [R2 S2]. split; [congruence|]. intros a k.
  destruct (S1 a k), (S2 a k). split; congruence.
Qed.

Lemma equiv_slots_eq s s' : equiv s' s -> slots_eq s s'.
Proof.
  intros Hq. split; [by apply re_refund, eq_rest|]. intros a k. by apply equiv_slots.
Qed.

Lemma slots_eq_cleared s s' x : slots_eq s s' -> cleared s' x = cleared s x.
Proof. intros [_ H]. unfold cleared. by destruct (H x.1 x.2) as [-> ->]. Qed.

(** Same accounts up to the parts a slot does not depend on. *)
Definition same_storage (o o' : stateObject) : Prop :=
  so_address o' = so_address o /\ pendingStorage o' = pendingStorage o
  /\ originStorage o' = originStorage o /\ dirtyStorage o' = dirtyStorage o.

Lemma slots_eq_object s s' a o o' :
  refund s' = refund s -> stateObjectsDestruct s' = stateObjectsDestruct s -> acct s a = Some o ->
  same_storage o o' -> stateObjects s' = <[a := o']> (stateObjects s) -> slots_eq s s'.
Proof.
  intros Hr Hd Ha (E1 & E2 & E3 & E4) Ho. split; [done|]. intros b k.
  unfold slot_value, slot_origin. rewrite (acct_update s s' a o' b Ho Hd), Hd.
  case_decide as Hb; [|done]. subst b. rewrite Ha. unfold current, committed.
  by rewrite E1, E2, E3, E4.
Qed.

Lemma slots_eq_rest s s' :
  refund s' = refund s -> stateObjectsDestruct s' = stateObjectsDestruct s ->
  stateObjects s' = stateObjects s -> slots_eq s s'.
Proof.
  intros Hr Hd Ho. split; [done|]. intros a k. unfold slot_value, slot_origin, acct.
  by rewrite Hd, Ho.
Qed.

(** ** Reading and writing a slot *)

(** What survives a read of the state: the slots, the refund and the account. *)
Record reads (a : Z) (s s' : StateDB) : Prop := {
  rd_slots : slots_eq s s';
  rd_exists : is_Some (acct s a) -> is_Some (acct s' a)
}.

Lemma GetStateAndCommittedState_reads a k s p s' :
  is_Some (acct s a) -> GetStateAndCommittedState a k s = (p, s') ->
  p = (slot_value s a k, slot_origin s a k) /\ reads a s s' /\ al s' = al s.
Proof.
  intros [o Ho]. unfold GetStateAndCommittedState.
  destruct (getStateObject a s) as [r s1] eqn:E.
  apply getStateObject_reloads in E as (-> & Hr & Hl). rewrite Ho in *.
  destruct (obj_getState o k s1) as [[v o'] s2] eqn:E2.
  apply obj_getState_spec in E2 as (-> & Hq & _ & [e ->]). intros [= <- <-].
  assert (stateObjectsDestruct s1 = stateObjectsDestruct s) as Hd
    by (by destruct Hr as (m & e' & -> & _)).
  rewrite Hd in *. unfold slot_value, slot_origin. rewrite Ho. split; [done|].
  assert (equiv (write_back a o' (set_dbErr e s1)) s) as Heq.
  { split.
    - destruct Hr as (m & e' & -> & _). by split.
    - intros b. rewrite (acct_update s1 _ a o'); [|done..]. simpl. rewrite Hd.
      case_decide; [subst; rewrite Ho; by constructor|].
      rewrite (reloads_acct s s1) by done. reflexivity. }
  split; [|by destruct Hr as (m & e' & -> & _)]. split.
  - by apply equiv_slots_eq.
  - intros _. pose proof (equiv_acct _ _ a Heq) as Ha. rewrite Ho in Ha.
    destruct (acct (write_back a o' (set_dbErr e s1)) a); [eauto|done].
Qed.

Lemma SetState_slots a k v s :
  is_Some (acct s a) ->
  let s' := snd (SetState a k v s) in
  refund s' = refund s /\ al s' = al s
  /\ forall b j, slot_origin s' b j = slot_origin s b j
       /\ slot_value s' b j = if decide ((b, j) = (a, k)) then v else slot_value s b j.
Proof.
  intros [o Ho]. unfold SetState, getOrNewStateObject.
  destruct (getStateObject a s) as [r s1] eqn:E.
  apply getStateObject_reloads in E as (-> & Hr & Hl). rewrite Ho in *.
  unfold obj_SetState. destruct (obj_getState o k s1) as [[p o'] s2] eqn:E2.
  apply obj_getState_spec in E2 as (-> & Hq & Hdirty & [e ->]).
  assert (stateObjectsDestruct s1 = stateObjectsDestruct s /\ refund s1 = refund s /\ al s1 = al s)
    as (Hd & Hrf & Hal) by (by destruct Hr as (m & e' & -> & _)).
  rewrite Hd in *. set (D := stateObjectsDestruct s) in *.
  assert (forall t o2, stateObjects t = <[a := o2]> (stateObjects s1) ->
    stateObjectsDestruct t = D -> (forall j, committed D o2 j = committed D o j) ->
    (forall j, current D o2 j = if decide (j = k) then v else current D o j) ->
    forall b j, slot_origin t b j = slot_origin s b j
      /\ slot_value t b j = if decide ((b, j) = (a, k)) then v else slot_value s b j) as Hfin.
  { intros t o2 Ht HtD Hco Hcu b j. unfold slot_origin, slot_value.
    rewrite (acct_update s1 t a o2 b Ht) by (by rewrite HtD, Hd). rewrite HtD.
    destruct (decide (a = b)) as [<-|Hab].
    - rewrite Ho. fold D. split; [apply Hco|]. rewrite Hcu.
      destruct (decide (j = k)) as [->|]; [by rewrite decide_True|].
      by rewrite decide_False by congruence.
    - rewrite (reloads_acct s s1) by done. fold D.
      by rewrite decide_False by congruence. }
  destruct (Z.eqb_spec (current D o k) v) as [Hv|Hv]; simpl.
  - split; [done|]. split; [done|]. eapply Hfin; [done|done|by destruct Hq|].
    intros j. rewrite (oe_current _ _ _ Hq). case_decide; by subst.
  - split; [done|]. split; [done|].
    apply (Hfin _ (obj_setState k v (committed D o k) o')); [done|done| |].
    + intros j. rewrite <- (oe_committed _ _ _ Hq j). unfold obj_setState.
      by destruct (v =? committed D o k).
    + intros j. rewrite current_setState.
      destruct (decide (k = j)) as [->|Hkj].
      * rewrite decide_True by done. rewrite (oe_committed _ _ _ Hq).
        by destruct (Z.eqb_spec v (committed D o j)).
      * rewrite decide_False by congruence. by apply oe_current.
Qed.

(** ** The gas functions *)

Definition db (v : vst) : StateDB := evm_StateDB (v_evm v).
Definition upd (v : vst) (s : StateDB) : vst := mkVst (set_StateDB s (v_evm v)) (v_contract v) (v_memory v).

(** The outcome of charging for a write of [y] to slot [k] of [a]. *)
Record charged (c a k y : Z) (v v' : vst) : Prop := {
  ch_contract : v_contract v' = v_contract v;
  ch_slots b j : slot_value (db v') b j = slot_value (db v) b j
                 /\ slot_origin (db v') b j = slot_origin (db v) b j;
  ch_exists : is_Some (acct (db v') a);
  ch_good : good (db v) (db v');
  ch_refund : refund (db v)
    + c * ((if negb (slot_origin (db v) a k =? 0) && (y =? 0) then 1 else 0)
           - (if cleared (db v) (a, k) then 1 else 0)) <= refund (db v');
  ch_range : is_u64 (refund (db v'))
}.

(** What the caller of SSTORE provides: the account exists, the refund counter
    covers the cleared slots and is far from 2^64. *)
Record chargeable (c a : Z) (v : vst) : Prop := {
  cg_exists : is_Some (acct (db v) a);
  cg_wf : wf_state (db v);
  cg_covers : covers c (db v);
  cg_nonneg : 0 <= refund (db v);
  cg_bound : refund (db v) + c + 20000 < two64
}.

(** A state that only got a new refund counter and journal. *)
Lemma set_refund_slots r j s b k :
  slot_value (set_refund r (set_jrnl j s)) b k = slot_value s b k
  /\ slot_origin (set_refund r (set_jrnl j s)) b k = slot_origin s b k
  /\ acct (set_refund r (set_jrnl j s)) b = acct s b.
Proof. done. Qed.

(** From a state that was only read, whose refund counter was then changed. *)
Lemma charged_intro c a k y v s1 s2 :
  chargeable c a v -> reads a (db v) s1 -> good (db v) s2 ->
  stateObjects s2 = stateObjects s1 -> stateObjectsDestruct s2 = stateObjectsDestruct s1 ->
  is_u64 (refund s2) ->
  refund (db v) + c * ((if negb (slot_origin (db v) a k =? 0) && (y =? 0) then 1 else 0)
                       - (if cleared (db v) (a, k) then 1 else 0)) <= refund s2 ->
  charged c a k y v (upd v s2).
Proof.
  intros Hcg Hrd Hg Ho Hd Hu Hr. destruct Hrd as [[Hrf Hs] Hex].
  split; change (db (upd v s2)) with s2.
  - done.
  - intros b j. destruct (Hs b j) as [<- <-]. unfold slot_value, slot_origin, acct.
    by rewrite Ho, Hd.
  - unfold acct. rewrite Ho, Hd. apply Hex, Hcg.
  - done.
  - done.
  - done.
Qed.

Lemma good_refund s s1 r :
  good s s1 -> good s (set_refund r (journal_append (refundChange (refund s1)) s1)).
Proof.
  intros Hg. eapply good_trans; [done|]. destruct Hg as [_ Hwf].
  eapply (good_entry _ _ _ (refundChange (refund s1)));
    [by apply journals_append|done|by eapply wf_same|done|by split|done].
Qed.

(** Reading the slot and its presence in the access list, adding it if missing. *)
Lemma SlotInAccessList_wf a k s : AccessList.wf (al s) -> exists r, SlotInAccessList a k s = Some r.
Proof.
  intros Hwf. unfold SlotInAccessList, AccessList.Contains.
  destruct (AccessList.addresses (al s) !! a) as [i|] eqn:Ei; [|by eexists].
  destruct (Z.eqb_spec i (-1)); [by eexists|].
  destruct (AccessList.wf_slot_at _ _ _ Hwf Ei n) as (m & -> & _). by eexists.
Qed.

Lemma AddSlotToAccessList_reads a k s :
  AccessList.wf (al s) -> exists s', AddSlotToAccessList a k s = Some s'
    /\ AccessList.wf (al s') /\ refund s' = refund s /\ stateObjects s' = stateObjects s
    /\ stateObjectsDestruct s' = stateObjectsDestruct s.
Proof.
  intros Hwf. unfold AddSlotToAccessList.
  destruct (AccessList.AddSlot_wf (al s) a k Hwf) as (l & [am sm] & -> & Hl).
  cbn [mbind option_bind]. eexists. split; [done|]. by destruct am, sm.
Qed.

(** Every slot that is dirty and originally set is cleared exactly when its value is 0. *)
Lemma cleared_spec s a k o :
  slot_origin s a k = o -> cleared s (a, k) = negb (o =? 0) && (slot_value s a k =? 0).
Proof. intros <-. done. Qed.

Ltac vm_run :=
  cbn [vm_bind vm_ret vm_throw throw_if or_panic get_contract get_evm get_memory put_evm
       put_contract put_memory db_get db_do db_put db_try back fst snd negb andb] in *.

(** The clauses of net metering, from the values read. *)
Lemma net_refund_cases c e1 e2 a k y v s1 (k2 : VM MultiGas) g :
  0 <= c -> 0 <= e1 <= 20000 -> 0 <= e2 <= 20000 ->
  chargeable c a v -> reads a (db v) s1 -> good (db v) s1 -> refund s1 = refund (db v) ->
  slot_value (db v) a k <> y -> slot_origin (db v) a k <> slot_value (db v) a k ->
  k2 = vm_ret g ->
  exists v',
    (((if negb (slot_origin (db v) a k =? 0) then
         if slot_value (db v) a k =? 0 then db_try (SubRefund c)
         else if y =? 0 then db_put (AddRefund c) else vm_ret tt
       else vm_ret tt) ;;*
      (if slot_origin (db v) a k =? y then
         if slot_origin (db v) a k =? 0 then db_put (AddRefund e1) else db_put (AddRefund e2)
       else vm_ret tt) ;;* k2) (upd v s1) = Some (Ok g, v'))
    /\ charged c a k y v v'.
Proof.
  intros Hc He1 He2 Hcg Hrd Hal Hrf Hvy Hov ->.
  pose proof (cg_nonneg _ _ _ Hcg) as H0. pose proof (cg_bound _ _ _ Hcg) as Hb.
  pose proof (cleared_spec (db v) a k _ eq_refl) as Hcl.
  pose proof (covers_one c (db v) (a, k) Hc (cg_covers _ _ _ Hcg)) as Hone.
  pose proof (fun s2 => charged_intro c a k y v s1 s2 Hcg Hrd) as Hin.
  set (o := slot_origin (db v) a k) in *. set (cur := slot_value (db v) a k) in *.
  rewrite Hcl in *. clear Hcl. revert Hone Hin.
  unfold vm_bind, db_put, db_do, db_try, vm_ret, AddRefund, SubRefund; simpl.
  destruct (Z.eqb_spec o 0) as [Ho0|Ho0], (Z.eqb_spec cur 0) as [Hc0|Hc0],
    (Z.eqb_spec y 0) as [Hy0|Hy0], (Z.eqb_spec o y) as [Hoy|Hoy]; try congruence;
    simpl; intros Hone Hin; try (specialize (Hone eq_refl));
    try (destruct (Z.ltb_spec (refund s1) c); [lia|]); simpl;
    eexists; (split; [reflexivity|]); apply Hin; try reflexivity; simpl; try (by repeat apply good_refund);
    rewrite ?Hrf; unfold is_u64, u64; rewrite ?Z.mod_small; lia.
Qed.

(** The clause for a slot that was not changed yet. *)
Lemma clean_refund_cases c a k y v s1 (k2 : VM MultiGas) g :
  0 <= c -> chargeable c a v -> reads a (db v) s1 -> good (db v) s1 ->
  refund s1 = refund (db v) ->
  slot_value (db v) a k <> y -> slot_origin (db v) a k = slot_value (db v) a k ->
  slot_origin (db v) a k <> 0 -> k2 = vm_ret g ->
  exists v', ((if y =? 0 then db_put (AddRefund c) else vm_ret tt) ;;* k2) (upd v s1) = Some (Ok g, v')
    /\ charged c a k y v v'.
Proof.
  intros Hc Hcg Hrd Hal Hrf Hvy Hov Ho0 ->.
  pose proof (cg_nonneg _ _ _ Hcg) as H0. pose proof (cg_bound _ _ _ Hcg) as Hb.
  pose proof (cleared_spec (db v) a k _ eq_refl) as Hcl.
  pose proof (fun s2 => charged_intro c a k y v s1 s2 Hcg Hrd) as Hin.
  rewrite <- Hov in Hcl. set (o := slot_origin (db v) a k) in *.
  rewrite Hcl in *. clear Hcl. revert Hin.
  unfold vm_bind, db_put, db_do, vm_ret, AddRefund; simpl.
  destruct (Z.eqb_spec o 0); [done|]. destruct (Z.eqb_spec y 0); simpl; intros Hin;
    eexists; (split; [reflexivity|]); apply Hin; try reflexivity; simpl; try (by repeat apply good_refund);
    rewrite ?Hrf; unfold is_u64, u64; rewrite ?Z.mod_small; lia.
Qed.

(** The clauses without a change of the refund counter. *)
Lemma no_refund_case c a k y v s1 g :
  0 <= c -> chargeable c a v -> reads a (db v) s1 -> good (db v) s1 ->
  refund s1 = refund (db v) ->
  slot_value (db v) a k = y \/ slot_origin (db v) a k = 0 ->
  exists v', vm_ret (A := MultiGas) g (upd v s1) = Some (Ok g, v') /\ charged c a k y v v'.
Proof.
  intros Hc Hcg Hrd Hal Hrf Hvy. pose proof (cg_nonneg _ _ _ Hcg) as H0.
  pose proof (cg_bound _ _ _ Hcg) as Hb. eexists. split; [reflexivity|].
  apply (charged_intro c a k y v s1 s1 Hcg Hrd Hal); try reflexivity; rewrite ?Hrf.
  - unfold is_u64. lia.
  - rewrite (cleared_spec (db v) a k _ eq_refl).
    destruct Hvy as [-> | ->]; simpl; [|lia].
    destruct (negb _ && _); lia.
Qed.

(** All clauses together, as every version of SSTORE combines them. *)
Lemma net_metering c e1 e2 a k y v s1 (g1 g2 g3 g4 : MultiGas) :
  0 <= c -> 0 <= e1 <= 20000 -> 0 <= e2 <= 20000 ->
  chargeable c a v -> reads a (db v) s1 -> good (db v) s1 -> refund s1 = refund (db v) ->
  exists g v',
    (if slot_value (db v) a k =? y then vm_ret g1
     else if slot_origin (db v) a k =? slot_value (db v) a k then
       if slot_origin (db v) a k =? 0 then vm_ret g2
       else (if y =? 0 then db_put (AddRefund c) else vm_ret tt) ;;* vm_ret g3
     else
       (if negb (slot_origin (db v) a k =? 0) then
          if slot_value (db v) a k =? 0 then db_try (SubRefund c)
          else if y =? 0 then db_put (AddRefund c) else vm_ret tt
        else vm_ret tt) ;;*
       (if slot_origin (db v) a k =? y then
          if slot_origin (db v) a k =? 0 then db_put (AddRefund e1) else db_put (AddRefund e2)
        else vm_ret tt) ;;* vm_ret g4) (upd v s1) = Some (Ok g, v')
    /\ charged c a k y v v'.
Proof.
  intros Hc He1 He2 Hcg Hrd Hal Hrf.
  destruct (Z.eqb_spec (slot_value (db v) a k) y) as [E1|E1].
  { exists g1. apply no_refund_case; auto. }
  destruct (Z.eqb_spec (slot_origin (db v) a k) (slot_value (db v) a k)) as [E2|E2].
  - destruct (Z.eqb_spec (slot_origin (db v) a k) 0) as [E3|E3].
    + exists g2. apply no_refund_case; auto.
    + exists g3. by apply (clean_refund_cases c a k y v s1).
  - exists g4. by apply (net_refund_cases c e1 e2 a k y v s1).
Qed.

Lemma reads_trans a s1 s2 s3 :
  reads a s1 s2 -> refund s3 = refund s2 -> stateObjects s3 = stateObjects s2 ->
  stateObjectsDestruct s3 = stateObjectsDestruct s2 -> reads a s1 s3.
Proof.
  intros [Hs Hex] Hr Ho Hd. split.
  - eapply slots_eq_trans; [done|]. by apply slots_eq_rest.
  - intros He. unfold acct. rewrite Ho, Hd. by apply Hex.
Qed.

Lemma vm_bind_ok {A B} (m : VM A) (k : A -> VM B) v a v' :
  m v = Some (Ok a, v') -> vm_bind m k v = k a v'.
Proof. unfold vm_bind. by intros ->. Qed.

Ltac vm_next := erewrite vm_bind_ok; [|reflexivity].

Lemma read_slot_ok a k v :
  is_Some (acct (db v) a) -> wf_state (db v) ->
  exists s1, db_do (GetStateAndCommittedState a k) v
      = Some (Ok (slot_value (db v) a k, slot_origin (db v) a k), upd v s1)
    /\ reads a (db v) s1 /\ good (db v) s1.
Proof.
  intros Hex Hwf. unfold db_do. fold (db v).
  pose proof (GetStateAndCommittedState_good a k (db v) Hwf) as Hg.
  destruct (GetStateAndCommittedState a k (db v)) as [p s1] eqn:E.
  apply GetStateAndCommittedState_reads in E as (-> & Hrd & _); [|done].
  exists s1. done.
Qed.

(** EIP-2929 and EIP-3529. *)
Lemma makeGasSStoreFunc_charged c v x y st ms :
  0 <= c -> is_u256 x -> is_u256 y -> chargeable c (address (v_contract v)) v ->
  SstoreSentryGasEIP2200 < Gas (v_contract v) ->
  exists g v', makeGasSStoreFunc c (x :: y :: st) ms v = Some (Ok g, v')
    /\ charged c (address (v_contract v)) x y v v'.
Proof.
  intros Hc Hx Hy Hcg Hgas. set (a := address (v_contract v)) in *.
  unfold makeGasSStoreFunc. vm_next.
  unfold throw_if. destruct (Z.leb_spec (Gas (v_contract v)) SstoreSentryGasEIP2200); [lia|].
  do 3 vm_next. rewrite !U256.Bytes32_spec by done. fold a.
  destruct (read_slot_ok a x v (cg_exists _ _ _ Hcg) (cg_wf _ _ _ Hcg)) as (s1 & E & Hrd & Hg).
  erewrite vm_bind_ok; [|exact E]. pose proof (ws_al _ (proj2 Hg)) as Hal.
  destruct (SlotInAccessList_wf a x s1 Hal) as [[ap sp] Esl].
  erewrite (vm_bind_ok (slot_present a x) _ (upd v s1) (ap, sp) (upd v s1)).
  2:{ unfold slot_present, vm_bind, db_get. change (evm_StateDB (v_evm (upd v s1))) with s1.
      by rewrite Esl. }
  destruct sp; cbn [negb].
  - vm_next. apply (net_metering c _ _ a x y v s1); auto; [vm_compute; intuition congruence..|].
    by destruct Hrd as [[-> _] _].
  - destruct (AddSlotToAccessList_reads a x s1 Hal) as (s2 & E2 & Hwf2 & Hr2 & Ho2 & Hd2).
    erewrite (vm_bind_ok _ _ (upd v s1) _ (upd v s2)).
    2:{ unfold vm_bind, add_slot, db_try. change (evm_StateDB (v_evm (upd v s1))) with s1.
        by rewrite E2. }
    pose proof (reads_trans a _ _ _ Hrd Hr2 Ho2 Hd2) as Hrd2.
    assert (good (db v) s2) as Hg2
      by (eapply good_trans; [done|]; eapply AddSlotToAccessList_good; [apply Hg|done]).
    apply (net_metering c _ _ a x y v s2); auto; [vm_compute; intuition congruence..|].
    by destruct Hrd2 as [[-> _] _].
Qed.

(** EIP-2200. *)
Lemma gasSStoreEIP2200_charged v x y st ms :
  let c := SstoreClearsScheduleRefundEIP2200 in
  is_u256 x -> is_u256 y -> chargeable c (address (v_contract v)) v ->
  SstoreSentryGasEIP2200 < Gas (v_contract v) ->
  exists g v', gasSStoreEIP2200 (x :: y :: st) ms v = Some (Ok g, v')
    /\ charged c (address (v_contract v)) x y v v'.
Proof.
  intros c Hx Hy Hcg Hgas. unfold gasSStoreEIP2200. vm_next.
  unfold throw_if. destruct (Z.leb_spec (Gas (v_contract v)) SstoreSentryGasEIP2200); [lia|].
  do 3 vm_next. rewrite !U256.Bytes32_spec by done.
  destruct (read_slot_ok (address (v_contract v)) x v (cg_exists _ _ _ Hcg) (cg_wf _ _ _ Hcg))
    as (s1 & E & Hrd & Hg).
  erewrite vm_bind_ok; [|exact E].
  apply (net_metering c _ _ _ x y v s1); auto; [vm_compute; intuition congruence..|].
  by destruct Hrd as [[-> _] _].
Qed.

(** EIP-1283, the rules of Constantinople before Petersburg removed them. *)
Lemma gasSStore_charged v x y st ms :
  let c := NetSstoreClearRefund in
  IsPetersburg chainRules = false -> IsConstantinople chainRules = true ->
  is_u256 x -> is_u256 y -> chargeable c (address (v_contract v)) v ->
  exists g v', gasSStore (x :: y :: st) ms v = Some (Ok g, v')
    /\ charged c (address (v_contract v)) x y v v'.
Proof.
  intros c HP HC Hx Hy Hcg. unfold gasSStore. do 3 vm_next. rewrite !U256.Bytes32_spec by done.
  destruct (read_slot_ok (address (v_contract v)) x v (cg_exists _ _ _ Hcg) (cg_wf _ _ _ Hcg))
    as (s1 & E & Hrd & Hg).
  erewrite vm_bind_ok; [|exact E]. rewrite HP, HC. cbn [negb orb].
  apply (net_metering c _ _ _ x y v s1); auto; [vm_compute; intuition congruence..|].
  by destruct Hrd as [[-> _] _].
Qed.

(** ** The instruction, and the rest of a transaction *)

(** The gas function and the write of SSTORE. *)
Definition sstore (f : gasFunc) (st : Stack.t) : VM MultiGas :=
  let* g := f st 0 in
  let* x := back st 0 in
  let* y := back st 1 in
  let* c := get_contract in
  let* _ := db_do (SetState (address c) (U256.Bytes32 x) (U256.Bytes32 y)) in
  vm_ret g.

Definition charges (c : Z) (f : gasFunc) : Prop :=
  forall v x y st ms, is_u256 x -> is_u256 y -> chargeable c (address (v_contract v)) v ->
    SstoreSentryGasEIP2200 < Gas (v_contract v) ->
    exists g v', f (x :: y :: st) ms v = Some (Ok g, v')
      /\ charged c (address (v_contract v)) x y v v'.

Lemma sstore_covers c f v x y st :
  0 <= c -> charges c f -> is_u256 x -> is_u256 y -> chargeable c (address (v_contract v)) v ->
  SstoreSentryGasEIP2200 < Gas (v_contract v) ->
  exists g v', sstore f (x :: y :: st) v = Some (Ok g, v')
    /\ v_contract v' = v_contract v /\ covers c (db v') /\ is_u64 (refund (db v'))
    /\ good (db v) (db v').
Proof.
  intros Hc Hf Hx Hy Hcg Hgas. set (a := address (v_contract v)) in *.
  destruct (Hf v x y st 0 Hx Hy Hcg Hgas) as (g & v1 & E1 & Hch).
  unfold sstore. erewrite vm_bind_ok; [|exact E1]. do 3 vm_next.
  rewrite (ch_contract _ _ _ _ _ _ Hch), !U256.Bytes32_spec by done. fold a.
  destruct (SetState_slots a x y (db v1) (ch_exists _ _ _ _ _ _ Hch)) as (Hr & Hal & Hs).
  set (s2 := snd (SetState a x y (db v1))) in *.
  exists g, (upd v1 s2). split; [|split; [|split; [|split]]].
  - erewrite (vm_bind_ok _ _ _ (fst (SetState a x y (db v1))) (upd v1 s2)); [done|].
    unfold db_do. fold (db v1). unfold s2. by destruct (SetState a x y (db v1)).
  - simpl. apply Hch.
  - change (db (upd v1 s2)) with s2.
    apply (covers_update c (db v) s2 (a, x) Hc (cg_covers _ _ _ Hcg)).
    + intros [b j] Hne. unfold cleared; simpl. destruct (Hs b j) as [-> ->].
      rewrite decide_False by congruence. by destruct (ch_slots _ _ _ _ _ _ Hch b j) as [-> ->].
    + rewrite Hr. etrans; [|apply (ch_refund _ _ _ _ _ _ Hch)].
      assert (cleared s2 (a, x) = negb (slot_origin (db v) a x =? 0) && (y =? 0)) as ->; [|apply Z.le_refl].
      unfold cleared; simpl. destruct (Hs a x) as [-> ->]. rewrite decide_True by done.
      by destruct (ch_slots _ _ _ _ _ _ Hch a x) as [_ ->].
  - change (db (upd v1 s2)) with s2. rewrite Hr. apply Hch.
  - change (db (upd v1 s2)) with s2. pose proof (ch_good _ _ _ _ _ _ Hch) as Hg.
    eapply good_trans; [done|]. apply SetState_good, Hg.
Qed.

(** ** The other operations *)

Definition same_slots (D : gmap Z stateObject) (o o' : stateObject) : Prop :=
  forall k, current D o' k = current D o k /\ committed D o' k = committed D o k.

(** An account keeps its slots; one that appears has no changed slot. *)
Definition kept (D : gmap Z stateObject) (o o' : option stateObject) : Prop :=
  match o, o' with
  | Some o, Some o' => same_slots D o o'
  | None, Some o' => forall k, current D o' k = committed D o' k
  | None, None => True
  | Some _, None => False
  end.

Record keeps (s s' : StateDB) : Prop := {
  kp_refund : refund s' = refund s;
  kp_destruct : stateObjectsDestruct s' = stateObjectsDestruct s;
  kp_acct a : kept (stateObjectsDestruct s) (acct s a) (acct s' a)
}.

Lemma kept_refl D o : kept D o o.
Proof. by destruct o. Qed.

Lemma kept_trans D o1 o2 o3 : kept D o1 o2 -> kept D o2 o3 -> kept D o1 o3.
Proof.
  destruct o1, o2, o3; simpl; try done.
  - intros H1 H2 k. destruct (H1 k), (H2 k). split; congruence.
  - intros H1 H2 k. destruct (H2 k) as [-> ->]. apply H1.
Qed.

Lemma keeps_trans s1 s2 s3 : keeps s1 s2 -> keeps s2 s3 -> keeps s1 s3.
Proof.
  intros [R1 D1 A1] [R2 D2 A2]. split; [congruence..|]. intros a.
  eapply kept_trans; [apply A1|]. rewrite <- D1. apply A2.
Qed.

Lemma keeps_same s s' :
  refund s' = refund s -> stateObjectsDestruct s' = stateObjectsDestruct s ->
  stateObjects s' = stateObjects s -> keeps s s'.
Proof.
  intros Hr Hd Ho. split; [done..|]. intros a. unfold acct. rewrite Hd, Ho. apply kept_refl.
Qed.

Lemma keeps_refl s : keeps s s.
Proof. by apply keeps_same. Qed.

Lemma keeps_cleared s s' x : keeps s s' -> cleared s' x = cleared s x.
Proof.
  intros [_ Hd Ha]. specialize (Ha x.1). unfold cleared, slot_origin, slot_value. rewrite Hd.
  destruct (acct s x.1), (acct s' x.1); simpl in Ha; try done.
  - by destruct (Ha x.2) as [-> ->].
  - rewrite Ha. by destruct (_ =? 0).
Qed.

Lemma obj_equiv_same_slots D o o' : obj_equiv D o' o -> same_slots D o o'.
Proof. intros []. done. Qed.

(** A changed account. *)
Lemma keeps_object s a o s' o' :
  acct s a = Some o -> refund s' = refund s -> stateObjectsDestruct s' = stateObjectsDestruct s ->
  stateObjects s' = <[a := o']> (stateObjects s) -> same_slots (stateObjectsDestruct s) o o' ->
  keeps s s'.
Proof.
  intros Ha Hr Hd Ho Hs. split; [done..|]. intros b. rewrite (acct_update s s' a o') by done.
  case_decide; [subst b; by rewrite Ha|apply kept_refl].
Qed.

(** A new account. *)
Lemma keeps_new s a s' o' :
  acct s a = None -> refund s' = refund s -> stateObjectsDestruct s' = stateObjectsDestruct s ->
  stateObjects s' = <[a := o']> (stateObjects s) -> dirtyStorage o' = ∅ -> keeps s s'.
Proof.
  intros Ha Hr Hd Ho Hs. split; [done..|]. intros b. rewrite (acct_update s s' a o') by done.
  case_decide; [subst b; rewrite Ha|apply kept_refl]. intros k. unfold current.
  by rewrite Hs, lookup_empty.
Qed.

Lemma getStateObject_keeps a s r s1 :
  getStateObject a s = (r, s1) -> keeps s s1 /\ r = acct s1 a /\ r = acct s a.
Proof.
  intros E. apply getStateObject_reloads in E as (-> & Hr & _).
  assert (forall b, acct s1 b = acct s b) as Hac by (intros; by apply reloads_acct). split; [|split; [by rewrite Hac|done]].
  destruct Hr as (m & e & -> & _). split; [done..|]. intros b. rewrite Hac. apply kept_refl.
Qed.

Lemma createObject_keeps a s o s1 :
  acct s a = None -> createObject a s = (o, s1) -> keeps s s1 /\ acct s1 a = Some o.
Proof.
  intros Ha [= <- <-]. split; [by eapply keeps_new|]. apply acct_live. simpl. by rewrite lookup_insert_eq.
Qed.

Lemma getOrNewStateObject_keeps a s o s1 :
  getOrNewStateObject a s = (o, s1) -> keeps s s1 /\ acct s1 a = Some o.
Proof.
  unfold getOrNewStateObject. destruct (getStateObject a s) as [[r|] s2] eqn:E;
    apply getStateObject_keeps in E as (Hk & Hr & _).
  - by intros [= <- <-].
  - intros E. apply createObject_keeps in E as [Hk2 Ha]; [|done].
    split; [by eapply keeps_trans|done].
Qed.


Ltac keep_object :=
  match goal with
  | |- context [getStateObject ?a ?s] =>
      let r := fresh "r" in let s1 := fresh "t" in let E := fresh "E" in
      destruct (getStateObject a s) as [[r|] s1] eqn:E;
      apply getStateObject_keeps in E as (? & ? & ?)
  | |- context [getOrNewStateObject ?a ?s] =>
      let r := fresh "r" in let s1 := fresh "t" in let E := fresh "E" in
      destruct (getOrNewStateObject a s) as [r s1] eqn:E;
      apply getOrNewStateObject_keeps in E as [? ?]
  end.

Ltac keep_done :=
  first [ assumption
        | eapply keeps_trans; [eassumption|];
          first [ by apply keeps_same
                | eapply keeps_object; [eauto|reflexivity|reflexivity|reflexivity|done] ] ].

(** The operations other than those SSTORE is made of. *)
Definition quiet (o : op) : Prop :=
  match o with OSetState _ _ _ | OAddRefund _ | OSubRefund _ => False | _ => True end.

Lemma GetCode_keeps a s : keeps s (snd (GetCode a s)).
Proof.
  unfold GetCode. keep_object; [|keep_done]. unfold obj_Code.
  case_bool_decide; cbn [negb]; [|keep_done]. destruct (_ =? EmptyCodeHash); [keep_done|].
  destruct (r_Code _ _) as [code err].
  unfold setError. destruct err, (dbErr t) eqn:He; case_bool_decide; simpl; rewrite ?He; simpl; keep_done.
Qed.

Lemma GetCodeSize_keeps a s : keeps s (snd (GetCodeSize a s)).
Proof.
  unfold GetCodeSize. keep_object; [|keep_done]. unfold obj_CodeSize.
  case_bool_decide; cbn [negb]; [|keep_done]. destruct (_ =? EmptyCodeHash); [keep_done|].
  destruct (r_CodeSize _ _) as [n err].
  unfold setError. destruct err, (dbErr t) eqn:He, (n =? 0); simpl; rewrite ?He; simpl; keep_done.
Qed.

Lemma cached_slot_keeps s a o s1 o' s2 :
  keeps s s1 -> acct s1 a = Some o -> obj_equiv (stateObjectsDestruct s1) o' o ->
  (exists e, s2 = set_dbErr e s1) -> keeps s (write_back a o' s2).
Proof.
  intros Hk Ha Hq [e ->]. eapply keeps_trans; [done|].
  eapply (keeps_object s1 a o _ o'); [done|done|done|done|]. by apply obj_equiv_same_slots.
Qed.

Lemma GetState_keeps a k s : keeps s (snd (GetState a k s)).
Proof.
  unfold GetState. keep_object; [|keep_done]. unfold obj_GetState.
  destruct (obj_getState r k t) as [[[v v'] o'] s2] eqn:E2.
  apply obj_getState_spec in E2 as (_ & Hq & _ & He). by eapply cached_slot_keeps.
Qed.

Lemma GetCommittedState_keeps a k s : keeps s (snd (GetCommittedState a k s)).
Proof.
  unfold GetCommittedState. keep_object; [|keep_done].
  destruct (obj_GetCommittedState r k t) as [[v o'] s2] eqn:E2.
  apply obj_GetCommittedState_spec in E2 as (_ & Hq & _ & He). by eapply cached_slot_keeps.
Qed.

Lemma GetStateAndCommittedState_keeps a k s : keeps s (snd (GetStateAndCommittedState a k s)).
Proof.
  unfold GetStateAndCommittedState. keep_object; [|keep_done].
  destruct (obj_getState r k t) as [[v o'] s2] eqn:E2.
  apply obj_getState_spec in E2 as (_ & Hq & _ & He). by eapply cached_slot_keeps.
Qed.

Lemma AddBalance_keeps a v s : keeps s (snd (AddBalance a v s)).
Proof.
  unfold AddBalance. keep_object. unfold obj_AddBalance, obj_touch, touchChange_.
  destruct (U256.IsZero v); [|keep_done]. destruct (empty_ r); [|keep_done].
  destruct (_ =? ripemd); keep_done.
Qed.

Lemma SelfDestruct_keeps a s : keeps s (snd (SelfDestruct a s)).
Proof.
  unfold SelfDestruct. keep_object; [|keep_done].
  destruct (U256.IsZero _), (selfDestructed r) eqn:Hd; simpl; rewrite ?Hd; keep_done.
Qed.

Lemma exec_keeps o s s1 : allowed o s -> quiet o -> exec o s = Some s1 -> keeps s s1.
Proof.
  intros Hal Hq He. destruct o; cbn [exec] in He; try (injection He as <-); simpl in Hal;
    try done;
    try (first [apply GetCode_keeps | apply GetCodeSize_keeps | apply GetState_keeps
      | apply GetCommittedState_keeps | apply GetStateAndCommittedState_keeps
      | apply AddBalance_keeps | apply SelfDestruct_keeps]);
    try (by apply keeps_same);
    try (unfold Exist, Empty, GetBalance, GetNonce, GetStorageRoot, GetCodeHash,
           HasSelfDestructed, SetBalance, SetNonce, SetCode; keep_object; keep_done).
  - unfold SubBalance. keep_object. destruct (U256.IsZero v); keep_done.
  - unfold ExpectBalanceBurn in He. destruct (_ <? 0); simplify_eq. by apply keeps_same.
  - unfold ExpectBalanceMint in He. destruct (_ <? 0); simplify_eq. by apply keeps_same.
  - unfold SelfDestruct6780. keep_object; [|keep_done]. destruct (newContract r); [|keep_done].
    pose proof (SelfDestruct_keeps a t). destruct (SelfDestruct a t). by eapply keeps_trans.
  - unfold SetTransientState. destruct (_ =? v); [apply keeps_refl|by apply keeps_same].
  - unfold CreateAccount. destruct (createObject a s) as [o s1] eqn:E.
    by apply createObject_keeps in E as [? _].
  - revert He. unfold CreateContract. keep_object; [|done].
    destruct (newContract r); intros [= <-]; keep_done.
  - unfold CreateZombieIfDeleted. keep_object; [keep_done|].
    destruct (stateObjectsDestruct t !! a); [|keep_done].
    eapply keeps_trans; [done|]. by eapply keeps_new.
  - unfold AddPreimage. destruct (preimages s !! h); by apply keeps_same.
  - unfold AddAddressToAccessList. destruct (AccessList.AddAddress _ _) as [l []]; by apply keeps_same.
  - revert He. unfold AddSlotToAccessList. destruct (AccessList.AddSlot _ _ _) as [[l [[] []]]|]; simpl;
      intros [= <-]; by apply keeps_same.
  - unfold ActivateWasm. repeat case_match; by apply keeps_same.
Qed.


(** ** Transactions *)

(** The versions of SSTORE with a refund for clearing a slot net of the
    transaction, with that refund. *)
Inductive sstore_version : Z -> gasFunc -> Prop :=
| sstore_1283 : IsPetersburg chainRules = false -> IsConstantinople chainRules = true ->
    sstore_version NetSstoreClearRefund gasSStore
| sstore_2200 : sstore_version SstoreClearsScheduleRefundEIP2200 gasSStoreEIP2200
| sstore_2929 : sstore_version SstoreClearsScheduleRefundEIP2200 gasSStoreEIP2929
| sstore_3529 : sstore_version SstoreClearsScheduleRefundEIP3529 gasSStoreEIP3529.

Lemma sstore_version_charges c f : sstore_version c f -> 0 <= c /\ charges c f.
Proof.
  intros [HP HC| | |]; (split; [by vm_compute|]); intros v x y st ms Hx Hy Hcg Hgas.
  - by apply gasSStore_charged.
  - by apply gasSStoreEIP2200_charged.
  - by apply makeGasSStoreFunc_charged.
  - by apply makeGasSStoreFunc_charged.
Qed.

(** A contract that runs SSTORE: its account exists, it has more gas than the
    reentrancy sentry, and the refund counter is far from 2^64. *)
Record may_store (c : Z) (v : vst) : Prop := {
  ms_exists : is_Some (acct (db v) (address (v_contract v)));
  ms_gas : SstoreSentryGasEIP2200 < Gas (v_contract v);
  ms_bound : refund (db v) + c + 20000 < two64
}.

(** The states of one transaction, with the snapshots that are still valid.  It
    starts when no slot differs from its committed value; SSTORE, any other
    operation, refunds of other origin, snapshots and reverts follow. *)
Inductive tx_history (c : Z) (f : gasFunc) : StateDB -> list (Z * StateDB) -> Prop :=
| tx_begin s : reach s [] -> refund s = 0 -> (forall x, cleared s x = false) -> tx_history c f s []
| tx_sstore v gs x y st g v' : tx_history c f (db v) gs -> is_u256 x -> is_u256 y -> may_store c v ->
    sstore f (x :: y :: st) v = Some (Ok g, v') -> tx_history c f (db v') gs
| tx_op s gs o s1 : tx_history c f s gs -> quiet o -> allowed o s -> exec o s = Some s1 ->
    tx_history c f s1 gs
| tx_refund s gs g : tx_history c f s gs -> 0 <= g -> refund s + g < two64 ->
    tx_history c f (AddRefund g s) gs
| tx_snapshot s gs i s1 : tx_history c f s gs -> Snapshot s = (i, s1) ->
    tx_history c f s1 (gs ++ [(i, s)])
| tx_revert s gs1 i g gs2 s1 : tx_history c f s (gs1 ++ (i, g) :: gs2) ->
    RevertToSnapshot i s = Some s1 -> tx_history c f s1 gs1.

Definition covered (c : Z) (s : StateDB) : Prop := covers c s /\ 0 <= refund s.

Lemma covered_keeps c s s' : 0 <= c -> keeps s s' -> covered c s -> covered c s'.
Proof.
  intros Hc Hk [Hcov H0]. split; [|by rewrite (kp_refund _ _ Hk)].
  apply (covers_mono c s s' Hc Hcov); [intros; by apply keeps_cleared|].
  by rewrite (kp_refund _ _ Hk).
Qed.

Lemma covered_begin c s : refund s = 0 -> (forall x, cleared s x = false) -> covered c s.
Proof.
  intros Hr Hcl. split; [|lia]. intros X _. rewrite (count_ext _ (fun _ => false)) by auto.
  unfold count. rewrite Hr. induction X; simpl; lia.
Qed.

Lemma covered_refund c s g :
  0 <= c -> 0 <= g -> refund s + g < two64 -> covered c s -> covered c (AddRefund g s).
Proof.
  intros Hc Hg Hb [Hcov H0].
  assert (refund (AddRefund g s) = refund s + g) as Hr
    by (simpl; unfold u64; rewrite Z.mod_small; lia).
  split; [|lia]. apply (covers_mono c s _ Hc Hcov); [done|lia].
Qed.

Lemma chargeable_intro c v gs :
  invariant (db v) gs -> covered c (db v) -> may_store c v -> chargeable c (address (v_contract v)) v.
Proof. intros [Hwf _ _] [Hcov H0] [He _ Hb]. by split. Qed.

(** The counter covers the cleared slots in every state of a transaction and in
    every state it may be reverted to. *)
Lemma tx_history_covered c f s gs :
  sstore_version c f -> tx_history c f s gs ->
  invariant s gs /\ covered c s /\ Forall (fun ig => covered c ig.2) gs.
Proof.
  intros [Hc Hf]%sstore_version_charges.
  induction 1 as [s Hr H0 Hcl|v gs x y st g v' _ (Hinv & Hcov & Hgs) Hx Hy Hms E
    |s gs o s1 _ (Hinv & Hcov & Hgs) Hq Hal He|s gs g _ (Hinv & Hcov & Hgs) Hg Hb
    |s gs i s1 _ (Hinv & Hcov & Hgs) E|s gs1 i g gs2 s1 _ (Hinv & Hcov & Hgs) E].
  - split; [by apply reach_invariant|]. split; [by apply covered_begin|constructor].
  - destruct (sstore_covers c f v x y st Hc Hf Hx Hy (chargeable_intro _ _ _ Hinv Hcov Hms)
      (ms_gas _ _ Hms)) as (g' & v2 & E2 & _ & Hcov2 & [H0 _] & Hgood). simplify_eq.
    split; [by eapply invariant_good|]. done.
  - split; [eapply invariant_good; [done|]; eapply exec_good; [apply Hinv|done..]|].
    split; [|done]. eapply covered_keeps; [done| |done]. by eapply exec_keeps.
  - split; [eapply invariant_good; [done|]; apply AddRefund_good, Hinv|].
    split; [by apply covered_refund|done].
  - split; [by eapply invariant_snapshot|]. split.
    + injection E as _ <-. done.
    + apply Forall_app. split; [done|]. by constructor.
  - destruct (invariant_revert _ _ _ _ _ Hinv) as (t & Ht & Heq & _ & Hinv'). simplify_eq.
    apply Forall_app in Hgs as [Hgs1 [[Hcg H0] _]%Forall_cons]. split; [done|]. split; [|done].
    split; [by eapply equiv_covers|]. by rewrite (re_refund _ _ (eq_rest _ _ Heq)).
Qed.
End Refund.

(** * Properties *)

(** C9. The comment of [gasSStore] "We can prove that refund counter will never go
    below 0", proved: in any transaction made of SSTOREs under one version of net gas
    metering, other state operations, snapshots and reverts, the gas function of a
    further SSTORE on any slot does not panic in [SubRefund] (nor anywhere else) and
    returns a cost, and the counter then still covers one clearing refund for every
    slot cleared so far. *)
Theorem refund_counter_never_negative {U : U256.Ops} {L : U256.Laws U} {HS : Hasher} {R : Reader}
    {CH : Chain} (c : Z) (f : gasFunc) (v : vst) (gs : list (Z * StateDB)) (x y : Z) (st : Stack.t)
  (Hver : sstore_version c f) (Htx : tx_history c f (db v) gs) (Hx : is_u256 x) (Hy : is_u256 y)
  (Hms : may_store c v) :
  (exists g v1, f (x :: y :: st) 0 v = Some (Ok g, v1) /\ 0 <= refund (db v1))
  /\ exists g v', sstore f (x :: y :: st) v = Some (Ok g, v') /\ covered c (db v').
Proof.
  destruct (tx_history_covered c f _ gs Hver Htx) as (Hinv & Hcov & _).
  apply sstore_version_charges in Hver as [Hc Hf].
  pose proof (chargeable_intro _ _ _ Hinv Hcov Hms) as Hcg. destruct Hms as [_ Hgas _]. split.
  - destruct (Hf v x y st 0 Hx Hy Hcg Hgas) as (g & v1 & E & Hch). exists g, v1.
    split; [done|]. apply Hch.
  - destruct (sstore_covers c f v x y st Hc Hf Hx Hy Hcg Hgas) as (g & v' & E & _ & Hcv & [H0 _] & _).
    exists g, v'. done.
Qed.

(** The rules of a recent ArbOS. *)
Definition toy_chain : Chain := {|
  chainRules := mkRules true true true true true 42161 60 true true true true true false
    true true true true true true true true true true false false false;
  chainConfig := mkArbitrumChainParams true false false 60 0 0 0 0 0
|}.

Lemma cleared_new {HS : Hasher} {R : Reader} x : cleared NewWithReader x = false.
Proof.
  unfold cleared, slot_origin, slot_value, acct, acct_in, base_acct. simpl.
  destruct (r_Account x.1) as [[a|]|]; [|done..].
  unfold current. simpl. rewrite lookup_empty.
  destruct (Z.eqb_spec (committed ∅ (newObject x.1 (Some a)) x.2) 0); simpl; [done|].
  by apply Z.eqb_neq.
Qed.

(** The account of the toy database runs on this machine. *)
Definition toy_vm {HS : Hasher} {R : Reader} : vst :=
  mkVst (mkEVM NewWithReader ∅ 0 0 false [] false) (NewContract 9 5 0 100000) Memory.NewMemory.

Lemma refund_counter_never_negative_witness :
  let U := U256.reference in let HS := toy_hasher in let R := toy_reader in let CH := toy_chain in
  exists g1 v1, sstore gasSStoreEIP3529 [1; 0] toy_vm = Some (Ok g1, v1)
    /\ refund (db v1) = SstoreClearsScheduleRefundEIP3529
    /\ exists g2 v2, sstore gasSStoreEIP3529 [1; 7] v1 = Some (Ok g2, v2) /\ covered 4800 (db v2).
Proof.
  intros U HS R CH.
  destruct (sstore gasSStoreEIP3529 [1; 0] toy_vm) as [[[g1|e] v1]|] eqn:E1;
    [|vm_compute in E1; discriminate..].
  exists g1, v1. split; [done|].
  assert (tx_history SstoreClearsScheduleRefundEIP3529 gasSStoreEIP3529 (db v1) []) as Htx.
  { apply (tx_sstore _ _ toy_vm [] 1 0 [] g1 v1); [|by vm_compute|by vm_compute| |exact E1].
    - apply tx_begin; [apply reach_new|done|intros x; apply cleared_new].
    - split; [|by vm_compute..]. vm_compute. eauto. }
  assert (refund (db v1) = SstoreClearsScheduleRefundEIP3529) as Hr
    by (vm_compute in E1; injection E1 as _ <-; reflexivity).
  split; [exact Hr|].
  apply (refund_counter_never_negative SstoreClearsScheduleRefundEIP3529 gasSStoreEIP3529 v1 [] 1 7 []
    sstore_3529 Htx); [by vm_compute..|].
  split; [| |rewrite Hr; by vm_compute];
    vm_compute in E1; injection E1 as _ <-; vm_compute; eauto.
Defined.
