(* ===== verification/Instructions.v ===== *)
(** The instructions: [core/vm/instructions.go] and the instructions that
    [core/vm/eips.go] adds.

    An instruction gets the program counter and the stack and returns [Next] with
    new ones, or [Halt] with the return data and the error it stops with
    ([errStopToken] included).  Instructions that call other contracts take the calls
    as an argument, the record [calls]; [Interpreter.v] ties the knot. *)

From stdpp Require Import base gmap list numbers option strings.
From S2P Require Import Prelude Params MultiGas Uint256 VmCore JumpDest AccessList State Evm VmGas.
Open Scope Z_scope.
Open Scope vm_scope.

(** ** The environment

    The block and transaction context, the configuration, and the
    [TxProcessingHook] a chain installs; the hook is an interface, whose methods may
    use the EVM. *)

Class Env := {
  ChainID : Z;
  Coinbase : Z;
  GasLimit : Z;
  ctx_BlockNumber : Z;
  Time : Z;
  Difficulty : Z;
  BaseFee : Z;
  BlobBaseFee : Z;
  Random : Z;
  Origin : Z;
  BlobHashes : list Z;
  EnablePreimageRecording : bool;
  GasPriceOp : EVM -> Z * EVM;
  L1BlockNumber : EVM -> result vmError Z * EVM;
  L1BlockHash : Z -> EVM -> result vmError Z * EVM;
  ExecuteWASM : Contract -> list Z -> EVM -> option (list Z * option vmError * Contract * EVM)
}.

(** ** Runs

    The interpreter recurses on calls: its definitions take fuel, and running out of
    it is a result of its own, apart from the panic. *)

Inductive run (A : Type) : Type :=
| Done (a : A)
| Panics
| NoFuel.
Arguments Done {A} a.
Arguments Panics {A}.
Arguments NoFuel {A}.

Definition IM (A : Type) : Type := vst -> run (result vmError A * vst).

Definition lift {A} (m : VM A) : IM A := fun s =>
  match m s with Some r => Done r | None => Panics end.

Definition im_bind {A B} (m : IM A) (k : A -> IM B) : IM B := fun s =>
  match m s with
  | Done (Ok a, s') => k a s'
  | Done (Err e, s') => Done (Err e, s')
  | Panics => Panics
  | NoFuel => NoFuel
  end.

Notation "'let+' x := m 'in' k" := (im_bind m (fun x => k))
  (at level 10, x name, m at level 100, k at level 200) : vm_scope.
Notation "'let+' ' p := m 'in' k" := (im_bind m (fun x => match x with p => k end))
  (at level 10, p pattern, m at level 100, k at level 200) : vm_scope.

Inductive outcome :=
| Next (pc : Z) (st : Stack.t)
| Halt (ret : list Z) (err : vmError).

Definition executionFunc : Type := Z -> Stack.t -> IM outcome.

(** The results of the calls of [EVM]. *)
Record call_result := mkCallResult {
  cr_ret : list Z;
  leftOverGas : Z;
  usedMultiGas : MultiGas;
  cr_err : option vmError
}.

Record calls := {
  c_Call : Z -> Z -> list Z -> Z -> Z -> EVM -> run (call_result * EVM);
  c_CallCode : Z -> Z -> list Z -> Z -> Z -> EVM -> run (call_result * EVM);
  c_DelegateCall : Z -> Z -> Z -> list Z -> Z -> Z -> EVM -> run (call_result * EVM);
  c_StaticCall : Z -> Z -> list Z -> Z -> EVM -> run (call_result * EVM);
  c_Create : Z -> list Z -> Z -> Z -> EVM -> run (call_result * Z * EVM);
  c_Create2 : Z -> list Z -> Z -> Z -> Z -> EVM -> run (call_result * Z * EVM)
}.

(** ** Stylus code prefixes, core/state/statedb_arbitrum.go *)

Definition StylusDiscriminant : list Z := [0xEF; 0xF0; 0x00].
Definition StylusFragmentsDiscriminant : list Z := [0xEF; 0xF0; 0x01].
Definition StylusRootDiscriminant : list Z := [0xEF; 0xF0; 0x02].

Definition has_discriminant (d b : list Z) : bool :=
  (Nat.ltb (length d) (length b)) && bool_decide (take (length d) b = d).

Definition IsStylusClassicProgramPrefix (b : list Z) : bool := has_discriminant StylusDiscriminant b.
Definition IsStylusFragmentPrefix (b : list Z) : bool := has_discriminant StylusFragmentsDiscriminant b.
Definition IsStylusRootProgramPrefix (b : list Z) : bool := has_discriminant StylusRootDiscriminant b.

Definition IsStylusDeployableProgramPrefix (b : list Z) (arbosVersion : Z) : bool :=
  if arbosVersion <? ArbosVersion_Stylus then false
  else if arbosVersion <? ArbosVersion_StylusContractLimit then IsStylusClassicProgramPrefix b
  else IsStylusClassicProgramPrefix b || IsStylusRootProgramPrefix b.

Definition IsStylusComponentPrefix (b : list Z) (arbosVersion : Z) : bool :=
  if arbosVersion <? ArbosVersion_StylusContractLimit then
    IsStylusDeployableProgramPrefix b arbosVersion
  else IsStylusDeployableProgramPrefix b arbosVersion || IsStylusFragmentPrefix b.

Section Instructions.
Context {U : U256.Ops} {HS : Hasher} {R : Reader} {CH : Chain} {EN : Env}.

(** ** Stack access *)

Definition pop (st : Stack.t) : VM (Z * Stack.t) := or_panic (Stack.pop st).
Definition peek (st : Stack.t) : VM Z := or_panic (Stack.peek st).
Definition next (pc : Z) (st : Stack.t) : VM outcome := vm_ret (Next pc st).

(** Writing through the pointer that [peek] returned. *)
Definition put_top (pc v : Z) (st : Stack.t) : VM outcome :=
  let* st := or_panic (Stack.set_top v st) in next pc st.

(** [x := pop(); y := peek(); y.F(x, y)], and likewise with one and three operands. *)
Definition binop (f : Z -> Z -> Z) : executionFunc := fun pc st => lift (
  let* '(x, st) := pop st in
  let* y := peek st in
  put_top pc (f x y) st).

Definition unop (f : Z -> Z) : executionFunc := fun pc st => lift (
  let* x := peek st in put_top pc (f x) st).

Definition triop (f : Z -> Z -> Z -> Z) : executionFunc := fun pc st => lift (
  let* '(x, st) := pop st in
  let* '(y, st) := pop st in
  let* z := peek st in
  put_top pc (f x y z) st).

(** [SetOne] or [Clear]. *)
Definition bool_word (b : bool) : Z := if b then 1 else 0.

Definition push_word (v : Z) : executionFunc := fun pc st => lift (next pc (Stack.push v st)).

(** ** Arithmetic, comparison and bit operations *)

Definition opAdd : executionFunc := binop U256.Add.
Definition opSub : executionFunc := binop U256.Sub.
Definition opMul : executionFunc := binop U256.Mul.
Definition opDiv : executionFunc := binop U256.Div.
Definition opSdiv : executionFunc := binop U256.SDiv.
Definition opMod : executionFunc := binop U256.Mod.
Definition opSmod : executionFunc := binop U256.SMod.
Definition opExp : executionFunc := binop U256.Exp.
Definition opSignExtend : executionFunc := binop (fun back num => U256.ExtendSign num back).
Definition opNot : executionFunc := unop U256.Not.
Definition opLt : executionFunc := binop (fun x y => bool_word (U256.Lt x y)).
Definition opGt : executionFunc := binop (fun x y => bool_word (U256.Gt x y)).
Definition opSlt : executionFunc := binop (fun x y => bool_word (U256.Slt x y)).
Definition opSgt : executionFunc := binop (fun x y => bool_word (U256.Sgt x y)).
Definition opEq : executionFunc := binop (fun x y => bool_word (U256.Eq x y)).
Definition opIszero : executionFunc := unop (fun x => bool_word (U256.IsZero x)).
Definition opAnd : executionFunc := binop U256.And.
Definition opOr : executionFunc := binop U256.Or.
Definition opXor : executionFunc := binop U256.Xor.
Definition opByte : executionFunc := binop (fun th val => U256.Byte val th).
Definition opAddmod : executionFunc := triop U256.AddMod.
Definition opMulmod : executionFunc := triop U256.MulMod.

Definition opSHL : executionFunc := binop (fun shift value =>
  if U256.LtUint64 shift 256 then U256.Lsh value (U256.Uint64 shift) else 0).
Definition opSHR : executionFunc := binop (fun shift value =>
  if U256.LtUint64 shift 256 then U256.Rsh value (U256.Uint64 shift) else 0).
Definition opSAR : executionFunc := binop (fun shift value =>
  if U256.GtUint64 shift 256 then
    if 0 <=? U256.Sign value then 0 else U256.SetAllOne
  else U256.SRsh value (U256.Uint64 shift)).
Definition opCLZ : executionFunc := unop (fun x => U256.SetUint64 (u64 (256 - U256.BitLen x))).

Definition opKeccak256 : executionFunc := fun pc st => lift (
  let* '(offset, st) := pop st in
  let* size := peek st in
  let* mem := get_memory in
  let* data := or_panic (Memory.GetPtr mem (U256.Uint64 offset) (U256.Uint64 size)) in
  let hash := keccak256 data in
  (if EnablePreimageRecording then db_put (AddPreimage hash data) else vm_ret tt) ;;*
  put_top pc hash st).

(** ** The environment *)

Definition opAddress : executionFunc := fun pc st => lift (
  let* c := get_contract in next pc (Stack.push (address c) st)).
Definition opBalance : executionFunc := fun pc st => lift (
  let* slot := peek st in
  let* balance := db_do (GetBalance (U256.Bytes20 slot)) in
  put_top pc balance st).
Definition opOrigin : executionFunc := push_word Origin.
Definition opCaller : executionFunc := fun pc st => lift (
  let* c := get_contract in next pc (Stack.push (caller c) st)).
Definition opCallValue : executionFunc := fun pc st => lift (
  let* c := get_contract in next pc (Stack.push (value c) st)).

Definition opCallDataLoad : executionFunc := fun pc st => lift (
  let* x := peek st in
  let '(offset, overflow) := U256.Uint64WithOverflow x in
  if negb overflow then
    let* c := get_contract in
    let* data := or_panic (getData (Input c) offset 32) in
    put_top pc (U256.SetBytes data) st
  else put_top pc 0 st).
Definition opCallDataSize : executionFunc := fun pc st => lift (
  let* c := get_contract in
  next pc (Stack.push (U256.SetUint64 (Z.of_nat (length (Input c)))) st)).

(** The offset of a copy, [MaxUint64] when it does not fit. *)
Definition data_offset (x : Z) : Z :=
  let '(offset64, overflow) := U256.Uint64WithOverflow x in
  if overflow then MaxUint64 else offset64.

Definition memory_set (offset size : Z) (v : list Z) : VM unit :=
  let* mem := get_memory in
  let* mem := or_panic (Memory.Set_ mem offset size v) in
  put_memory mem.

(** The copy instructions: memory offset, data offset and length from the stack. *)
Definition copy_from (source : VM (list Z)) (pc : Z) (st : Stack.t) : VM outcome :=
  let* '(memOffset, st) := pop st in
  let* '(dataOffset, st) := pop st in
  let* '(length, st) := pop st in
  let* data := source in
  let* part := or_panic (getData data (data_offset dataOffset) (U256.Uint64 length)) in
  memory_set (U256.Uint64 memOffset) (U256.Uint64 length) part ;;*
  next pc st.

Definition opCallDataCopy : executionFunc := fun pc st =>
  lift (copy_from (let* c := get_contract in vm_ret (Input c)) pc st).
Definition opCodeCopy : executionFunc := fun pc st =>
  lift (copy_from (let* c := get_contract in vm_ret (Code c)) pc st).
Definition opExtCodeCopy : executionFunc := fun pc st => lift (
  let* '(a, st) := pop st in
  copy_from (db_do (GetCode (U256.Bytes20 a))) pc st).

Definition opReturnDataSize : executionFunc := fun pc st => lift (
  let* e := get_evm in
  next pc (Stack.push (U256.SetUint64 (Z.of_nat (length (returnData e)))) st)).

Definition opReturnDataCopy : executionFunc := fun pc st => lift (
  let* '(memOffset, st) := pop st in
  let* '(dataOffset, st) := pop st in
  let* '(len, st) := pop st in
  let '(offset64, overflow) := U256.Uint64WithOverflow dataOffset in
  if overflow then vm_throw ErrReturnDataOutOfBounds
  else
    let '(end64, overflow) := U256.Uint64WithOverflow (U256.Add dataOffset len) in
    let* e := get_evm in
    if overflow || (Z.of_nat (length (returnData e)) <? end64) then vm_throw ErrReturnDataOutOfBounds
    else if end64 <? offset64 then or_panic None
    else
      memory_set (U256.Uint64 memOffset) (U256.Uint64 len) (slice offset64 end64 (returnData e)) ;;*
      next pc st).

Definition opExtCodeSize : executionFunc := fun pc st => lift (
  let* slot := peek st in
  let* n := db_do (GetCodeSize (U256.Bytes20 slot)) in
  put_top pc (U256.SetUint64 n) st).
Definition opCodeSize : executionFunc := fun pc st => lift (
  let* c := get_contract in
  next pc (Stack.push (U256.SetUint64 (Z.of_nat (length (Code c)))) st)).
Definition opExtCodeHash : executionFunc := fun pc st => lift (
  let* slot := peek st in
  let addr := U256.Bytes20 slot in
  let* empty := db_do (Empty addr) in
  if empty : bool then put_top pc 0 st
  else
    let* hash := db_do (GetCodeHash addr) in put_top pc hash st).

(** A call of the hook. *)
Definition hook {A} (f : EVM -> A * EVM) : VM A :=
  let* e := get_evm in
  let '(a, e) := f e in
  put_evm e ;;* vm_ret a.
Definition hook_err {A} (f : EVM -> result vmError A * EVM) : VM A :=
  let* r := hook f in vm_result r.

(** [uint256.FromBig] keeps the low 256 bits. *)
Definition FromBig (x : Z) : Z := U256.wrap x.

Definition opGasprice : executionFunc := fun pc st => lift (
  let* p := hook GasPriceOp in next pc (Stack.push (FromBig p) st)).

Definition opBlockhash : executionFunc := fun pc st => lift (
  let* num := peek st in
  let '(num64, overflow) := U256.Uint64WithOverflow num in
  if overflow then put_top pc 0 st
  else
    let* upper := hook_err L1BlockNumber in
    let lower := if upper <? 257 then 0 else u64 (upper - 256) in
    if (lower <=? num64) && (num64 <? upper) then
      let* h := hook_err (L1BlockHash num64) in put_top pc h st
    else put_top pc 0 st).

Definition opCoinbase : executionFunc := push_word Coinbase.
Definition opTimestamp : executionFunc := push_word (U256.SetUint64 Time).
Definition opNumber : executionFunc := fun pc st => lift (
  let* bnum := hook_err L1BlockNumber in next pc (Stack.push (FromBig bnum) st)).
Definition opDifficulty : executionFunc := push_word (FromBig Difficulty).
Definition opRandom : executionFunc := push_word Random.
Definition opGasLimit : executionFunc := push_word (U256.SetUint64 GasLimit).
Definition opChainID : executionFunc := push_word (FromBig ChainID).
Definition opBaseFee : executionFunc := push_word (FromBig BaseFee).
Definition opSelfBalance : executionFunc := fun pc st => lift (
  let* c := get_contract in
  let* balance := db_do (GetBalance (address c)) in
  next pc (Stack.push balance st)).
Definition opBlobHash : executionFunc := unop (fun index =>
  if U256.LtUint64 index (Z.of_nat (length BlobHashes))
  then default 0 (BlobHashes !! Z.to_nat (U256.Uint64 index)) else 0).
(** The error of [opBlobBaseFee] on Arbitrum is not one of the package's. *)
Definition errBlobBaseFee : vmError := ErrOther 0.
Definition opBlobBaseFee : executionFunc := fun pc st =>
  if IsArbitrum chainRules then lift (vm_throw errBlobBaseFee)
  else push_word (FromBig BlobBaseFee) pc st.

(** ** Stack, memory, storage and control flow *)

Definition opPop : executionFunc := fun pc st => lift (
  let* '(_, st) := pop st in next pc st).
Definition opMload : executionFunc := fun pc st => lift (
  let* v := peek st in
  let* mem := get_memory in
  let* data := or_panic (Memory.GetPtr mem (U256.Uint64 v) 32) in
  put_top pc (U256.SetBytes data) st).
Definition opMstore : executionFunc := fun pc st => lift (
  let* '(mStart, st) := pop st in
  let* '(val, st) := pop st in
  let* mem := get_memory in
  let* mem := or_panic (Memory.Set32 mem (U256.Uint64 mStart) val) in
  put_memory mem ;;* next pc st).
Definition opMstore8 : executionFunc := fun pc st => lift (
  let* '(off, st) := pop st in
  let* '(val, st) := pop st in
  let* mem := get_memory in
  let* mem := or_panic (Memory.SetByte mem (U256.Uint64 off) (U256.Uint64 val mod 256)) in
  put_memory mem ;;* next pc st).
Definition opMcopy : executionFunc := fun pc st => lift (
  let* '(dst, st) := pop st in
  let* '(src, st) := pop st in
  let* '(length, st) := pop st in
  let* mem := get_memory in
  let* mem := or_panic (Memory.Copy mem (U256.Uint64 dst) (U256.Uint64 src) (U256.Uint64 length)) in
  put_memory mem ;;* next pc st).

Definition opSload : executionFunc := fun pc st => lift (
  let* loc := peek st in
  let* c := get_contract in
  let* val := db_do (GetState (address c) (U256.Bytes32 loc)) in
  put_top pc val st).
Definition write_protection : VM unit :=
  let* e := get_evm in throw_if (readOnly e) ErrWriteProtection.
Definition opSstore : executionFunc := fun pc st => lift (
  write_protection ;;*
  let* '(loc, st) := pop st in
  let* '(val, st) := pop st in
  let* c := get_contract in
  let* _ := db_do (SetState (address c) (U256.Bytes32 loc) (U256.Bytes32 val)) in
  next pc st).
Definition opTload : executionFunc := fun pc st => lift (
  let* loc := peek st in
  let* c := get_contract in
  let* val := db_get (GetTransientState (address c) (U256.Bytes32 loc)) in
  put_top pc val st).
Definition opTstore : executionFunc := fun pc st => lift (
  write_protection ;;*
  let* '(loc, st) := pop st in
  let* '(val, st) := pop st in
  let* c := get_contract in
  db_put (SetTransientState (address c) (U256.Bytes32 loc) (U256.Bytes32 val)) ;;*
  next pc st).

(** [validJumpdest] caches the analysis in the contract and in the EVM. *)
Definition valid_jump (pos : Z) : VM bool :=
  let* c := get_contract in
  let* e := get_evm in
  let* '(ok, part, dests) := or_panic (validJumpdest (code_part c) (jumpDests e) pos) in
  put_contract (set_code_part part c) ;;* put_evm (set_jumpDests dests e) ;;* vm_ret ok.
Definition jump_to (pos : Z) (st : Stack.t) : VM outcome :=
  let* ok := valid_jump pos in
  if negb ok then vm_throw ErrInvalidJump else next (u64 (U256.Uint64 pos - 1)) st.
Definition opJump : executionFunc := fun pc st => lift (
  let* e := get_evm in
  if abort e then vm_throw errStopToken
  else let* '(pos, st) := pop st in jump_to pos st).
Definition opJumpi : executionFunc := fun pc st => lift (
  let* e := get_evm in
  if abort e then vm_throw errStopToken
  else
    let* '(pos, st) := pop st in
    let* '(cond, st) := pop st in
    if negb (U256.IsZero cond) then jump_to pos st else next pc st).
Definition opJumpdest : executionFunc := fun pc st => lift (next pc st).
Definition opPc : executionFunc := fun pc st =>
  lift (next pc (Stack.push (U256.SetUint64 pc) st)).
Definition opMsize : executionFunc := fun pc st => lift (
  let* mem := get_memory in next pc (Stack.push (U256.SetUint64 (Memory.Len mem)) st)).
Definition opGas : executionFunc := fun pc st => lift (
  let* c := get_contract in next pc (Stack.push (U256.SetUint64 (Gas c)) st)).

Definition makeSwap (n : nat) : executionFunc := fun pc st => lift (
  let* st := or_panic (Stack.swap n st) in next pc st).
Definition makeDup (size : nat) : executionFunc := fun pc st => lift (
  let* st := or_panic (Stack.dup size st) in next pc st).

Definition code_at (code : list Z) (i : Z) : Z := default 0 (code !! Z.to_nat i).

Definition opPush0 : executionFunc := push_word 0.
Definition opPush1 : executionFunc := fun pc st => lift (
  let* c := get_contract in
  let codeLen := Z.of_nat (length (Code c)) in
  let pc := u64 (pc + 1) in
  next pc (Stack.push (if pc <? codeLen then U256.SetUint64 (code_at (Code c) pc) else 0) st)).
Definition opPush2 : executionFunc := fun pc st => lift (
  let* c := get_contract in
  let codeLen := Z.of_nat (length (Code c)) in
  let integer :=
    if u64 (pc + 2) <? codeLen then U256.SetBytes (slice (u64 (pc + 1)) (u64 (pc + 3)) (Code c))
    else if u64 (pc + 1) <? codeLen then U256.SetUint64 (Z.shiftl (code_at (Code c) (u64 (pc + 1))) 8)
    else 0 in
  next (u64 (pc + 2)) (Stack.push integer st)).
Definition makePush (size : Z) (pushByteSize : Z) : executionFunc := fun pc st => lift (
  let* c := get_contract in
  let codeLen := Z.of_nat (length (Code c)) in
  let start := Z.min codeLen (to_int (u64 (pc + 1))) in
  let end_ := Z.min codeLen (start + pushByteSize) in
  let a := U256.SetBytes (slice start end_ (Code c)) in
  let missing := pushByteSize - (end_ - start) in
  let a := if 0 <? missing then U256.Lsh a (8 * missing) else a in
  next (u64 (pc + size)) (Stack.push a st)).

Definition halt (ret : list Z) (e : vmError) : VM outcome := vm_ret (Halt ret e).

Definition opReturn : executionFunc := fun pc st => lift (
  let* '(offset, st) := pop st in
  let* '(size, st) := pop st in
  let* mem := get_memory in
  let* ret := or_panic (Memory.GetCopy mem (U256.Uint64 offset) (U256.Uint64 size)) in
  halt ret errStopToken).
Definition put_returnData (v : list Z) : VM unit :=
  let* e := get_evm in put_evm (set_returnData v e).
Definition opRevert : executionFunc := fun pc st => lift (
  let* '(offset, st) := pop st in
  let* '(size, st) := pop st in
  let* mem := get_memory in
  let* ret := or_panic (Memory.GetCopy mem (U256.Uint64 offset) (U256.Uint64 size)) in
  put_returnData ret ;;* halt ret ErrExecutionReverted).
Definition opUndefined : executionFunc := fun pc st => lift (
  let* c := get_contract in
  let* op := or_panic (Code c !! Z.to_nat pc) in
  vm_throw (ErrInvalidOpCode op)).
Definition opStop : executionFunc := fun pc st => lift (halt [] errStopToken).

(** ** Self-destruct and logs *)

Definition opSelfdestruct : executionFunc := fun pc st => lift (
  write_protection ;;*
  let* '(beneficiary, st) := pop st in
  let* c := get_contract in
  let* balance := db_do (GetBalance (address c)) in
  let* _ := db_do (AddBalance (U256.Bytes20 beneficiary) balance) in
  let* _ := db_do (SelfDestruct (address c)) in
  (if U256.Bytes20 beneficiary =? address c then db_try (ExpectBalanceBurn balance) else vm_ret tt) ;;*
  halt [] errStopToken).

Definition opSelfdestruct6780 : executionFunc := fun pc st => lift (
  write_protection ;;*
  let* c := get_contract in
  let* code := db_do (GetCode (address c)) in
  if IsStylusComponentPrefix code (ArbOSVersion chainRules) then vm_throw ErrExecutionReverted
  else
    let* '(beneficiary, st) := pop st in
    let* balance := db_do (GetBalance (address c)) in
    let* _ := db_do (SubBalance (address c) balance) in
    let* _ := db_do (AddBalance (U256.Bytes20 beneficiary) balance) in
    let* _ := db_do (SelfDestruct6780 (address c)) in
    (if U256.Bytes20 beneficiary =? address c then
       let* left := db_do (GetBalance (address c)) in
       if U256.Sign left =? 0 then db_try (ExpectBalanceBurn balance) else vm_ret tt
     else vm_ret tt) ;;*
    halt [] errStopToken).

Fixpoint pop_topics (n : nat) (st : Stack.t) : VM (list Z * Stack.t) :=
  match n with
  | O => vm_ret ([], st)
  | S n =>
      let* '(x, st) := pop st in
      let* '(topics, st) := pop_topics n st in
      vm_ret (U256.Bytes32 x :: topics, st)
  end.
Definition makeLog (size : nat) : executionFunc := fun pc st => lift (
  write_protection ;;*
  let* '(mStart, st) := pop st in
  let* '(mSize, st) := pop st in
  let* '(topics, st) := pop_topics size st in
  let* mem := get_memory in
  let* d := or_panic (Memory.GetCopy mem (U256.Uint64 mStart) (U256.Uint64 mSize)) in
  let* c := get_contract in
  db_put (AddLog (mkLog (address c) topics d (u64 ctx_BlockNumber) 0 0 0 0 0)) ;;*
  next pc st).

(** ** Calls *)

(** Running one of the calls of [EVM]. *)
Definition on_evm {A} (f : EVM -> run (A * EVM)) : IM A := fun s =>
  match f (v_evm s) with
  | Done (a, e) => Done (Ok a, mkVst e (v_contract s) (v_memory s))
  | Panics => Panics
  | NoFuel => NoFuel
  end.

Definition add_used (g : MultiGas) (c : Contract) : Contract :=
  set_UsedMultiGas (SaturatingAddInto (UsedMultiGas c) g) c.
Definition add_retained (gas : Z) (c : Contract) : Contract :=
  set_RetainedMultiGas (SaturatingIncrementInto (RetainedMultiGas c) ResourceKindComputation gas) c.

(** [err == nil || err == ErrExecutionReverted]. *)
Definition keeps_data (err : option vmError) : bool :=
  match err with None | Some ErrExecutionReverted => true | _ => false end.

(** The common end of the four call instructions. *)
Definition after_call (pc : Z) (st : Stack.t) (retOffset retSize gas : Z) (r : call_result) : VM outcome :=
  let st := Stack.push (bool_word (match cr_err r with None => true | Some _ => false end)) st in
  (if keeps_data (cr_err r)
   then memory_set (U256.Uint64 retOffset) (U256.Uint64 retSize) (cr_ret r) else vm_ret tt) ;;*
  let* c := get_contract in
  put_contract (add_retained gas (add_used (usedMultiGas r) (RefundGas (leftOverGas r) c))) ;;*
  put_returnData (cr_ret r) ;;*
  next pc st.

(** The arguments in memory. *)
Definition call_args (inOffset inSize : Z) : VM (list Z) :=
  let* mem := get_memory in
  or_panic (Memory.GetPtr mem (U256.Uint64 inOffset) (U256.Uint64 inSize)).

Definition with_stipend (value gas : Z) : Z :=
  if negb (U256.IsZero value) then u64 (gas + CallStipend) else gas.

Definition opCall (cs : calls) : executionFunc := fun pc st =>
  let+ '(_, st) := lift (pop st) in
  let+ e := lift get_evm in
  let gas := callGasTemp e in
  let+ '(addr, st) := lift (pop st) in
  let+ '(value, st) := lift (pop st) in
  let+ '(inOffset, st) := lift (pop st) in
  let+ '(inSize, st) := lift (pop st) in
  let+ '(retOffset, st) := lift (pop st) in
  let+ '(retSize, st) := lift (pop st) in
  let toAddr := U256.Bytes20 addr in
  let+ args := lift (call_args inOffset inSize) in
  let+ _ := lift (throw_if (readOnly e && negb (U256.IsZero value)) ErrWriteProtection) in
  let gas := with_stipend value gas in
  let+ c := lift get_contract in
  let+ r := on_evm (c_Call cs (address c) toAddr args gas value) in
  lift (after_call pc st retOffset retSize gas r).

Definition opCallCode (cs : calls) : executionFunc := fun pc st =>
  let+ '(_, st) := lift (pop st) in
  let+ e := lift get_evm in
  let gas := callGasTemp e in
  let+ '(addr, st) := lift (pop st) in
  let+ '(value, st) := lift (pop st) in
  let+ '(inOffset, st) := lift (pop st) in
  let+ '(inSize, st) := lift (pop st) in
  let+ '(retOffset, st) := lift (pop st) in
  let+ '(retSize, st) := lift (pop st) in
  let toAddr := U256.Bytes20 addr in
  let+ args := lift (call_args inOffset inSize) in
  let gas := with_stipend value gas in
  let+ c := lift get_contract in
  let+ r := on_evm (c_CallCode cs (address c) toAddr args gas value) in
  lift (after_call pc st retOffset retSize gas r).

Definition opDelegateCall (cs : calls) : executionFunc := fun pc st =>
  let+ '(_, st) := lift (pop st) in
  let+ e := lift get_evm in
  let gas := callGasTemp e in
  let+ '(addr, st) := lift (pop st) in
  let+ '(inOffset, st) := lift (pop st) in
  let+ '(inSize, st) := lift (pop st) in
  let+ '(retOffset, st) := lift (pop st) in
  let+ '(retSize, st) := lift (pop st) in
  let toAddr := U256.Bytes20 addr in
  let+ args := lift (call_args inOffset inSize) in
  let+ c := lift get_contract in
  let+ r := on_evm (c_DelegateCall cs (caller c) (address c) toAddr args gas (value c)) in
  lift (after_call pc st retOffset retSize gas r).

Definition opStaticCall (cs : calls) : executionFunc := fun pc st =>
  let+ '(_, st) := lift (pop st) in
  let+ e := lift get_evm in
  let gas := callGasTemp e in
  let+ '(addr, st) := lift (pop st) in
  let+ '(inOffset, st) := lift (pop st) in
  let+ '(inSize, st) := lift (pop st) in
  let+ '(retOffset, st) := lift (pop st) in
  let+ '(retSize, st) := lift (pop st) in
  let toAddr := U256.Bytes20 addr in
  let+ args := lift (call_args inOffset inSize) in
  let+ c := lift get_contract in
  let+ r := on_evm (c_StaticCall cs (address c) toAddr args gas) in
  lift (after_call pc st retOffset retSize gas r).

(** ** Creation *)

Definition all_but_one_64th (gas : Z) : Z := u64 (gas - gas / 64).

(** [contract.UseMultiGas(multigas.ComputationGas(gas))], result ignored. *)
Definition charge_computation (gas : Z) : VM unit :=
  let* c := get_contract in
  put_contract (snd (UseMultiGas (ComputationGas gas) c)).

(** The common end of CREATE and CREATE2. *)
Definition after_create (pc : Z) (st : Stack.t) (stackvalue gas : Z) (r : call_result) : VM outcome :=
  let st := Stack.push stackvalue st in
  let* c := get_contract in
  put_contract (add_used (usedMultiGas r) (add_retained gas (RefundGas (leftOverGas r) c))) ;;*
  put_returnData (match cr_err r with Some ErrExecutionReverted => cr_ret r | _ => [] end) ;;*
  next pc st.

Definition is_code_store_oog (err : option vmError) : bool :=
  match err with Some ErrCodeStoreOutOfGas => true | _ => false end.

Definition opCreate (cs : calls) : executionFunc := fun pc st =>
  let+ _ := lift write_protection in
  let+ '(value, st) := lift (pop st) in
  let+ '(offset, st) := lift (pop st) in
  let+ '(size, st) := lift (pop st) in
  let+ mem := lift get_memory in
  let+ input := lift (or_panic (Memory.GetCopy mem (U256.Uint64 offset) (U256.Uint64 size))) in
  let+ c := lift get_contract in
  let gas := if IsEIP150 chainRules then all_but_one_64th (Gas c) else Gas c in
  let+ _ := lift (charge_computation gas) in
  let+ '(r, addr) := on_evm (c_Create cs (address c) input gas value) in
  let stackvalue :=
    if IsHomestead chainRules && is_code_store_oog (cr_err r) then 0
    else match cr_err r with
         | None => addr
         | Some _ => if is_code_store_oog (cr_err r) then addr else 0
         end in
  lift (after_create pc st stackvalue gas r).

Definition opCreate2 (cs : calls) : executionFunc := fun pc st =>
  let+ _ := lift write_protection in
  let+ '(endowment, st) := lift (pop st) in
  let+ '(offset, st) := lift (pop st) in
  let+ '(size, st) := lift (pop st) in
  let+ '(salt, st) := lift (pop st) in
  let+ mem := lift get_memory in
  let+ input := lift (or_panic (Memory.GetCopy mem (U256.Uint64 offset) (U256.Uint64 size))) in
  let+ c := lift get_contract in
  let gas := all_but_one_64th (Gas c) in
  let+ _ := lift (charge_computation gas) in
  let+ '(r, addr) := on_evm (c_Create2 cs (address c) input gas endowment salt) in
  let stackvalue := match cr_err r with None => addr | Some _ => 0 end in
  lift (after_create pc st stackvalue gas r).

End Instructions.
