(* ===== verification/JumpTable.v ===== *)
(** The jump tables: [core/vm/opcodes.go], [core/vm/jump_table.go] and the fork
    activators of [core/vm/eips.go].

    A table is a map from the opcodes to their operations, where a missing entry is
    the undefined operation that fills the table in the code.  The Verkle tables
    ([enable4762]) are not modelled. *)

From stdpp Require Import base gmap list numbers option strings.
From S2P Require Import Prelude Params MultiGas Uint256 VmCore JumpDest AccessList State Evm VmGas.
From S2P Require Import Instructions.
Import Stack(minStack, maxStack, minDupStack, maxDupStack, minSwapStack, maxSwapStack).
Open Scope Z_scope.

(** ** Opcodes *)

Definition STOP : Z := 0x00.
Definition ADD : Z := 0x01.
Definition MUL : Z := 0x02.
Definition SUB : Z := 0x03.
Definition DIV : Z := 0x04.
Definition SDIV : Z := 0x05.
Definition MOD : Z := 0x06.
Definition SMOD : Z := 0x07.
Definition ADDMOD : Z := 0x08.
Definition MULMOD : Z := 0x09.
Definition EXP : Z := 0x0a.
Definition SIGNEXTEND : Z := 0x0b.
Definition LT : Z := 0x10.
Definition GT : Z := 0x11.
Definition SLT : Z := 0x12.
Definition SGT : Z := 0x13.
Definition EQ : Z := 0x14.
Definition ISZERO : Z := 0x15.
Definition AND : Z := 0x16.
Definition OR : Z := 0x17.
Definition XOR : Z := 0x18.
Definition NOT : Z := 0x19.
Definition BYTE : Z := 0x1a.
Definition SHL : Z := 0x1b.
Definition SHR : Z := 0x1c.
Definition SAR : Z := 0x1d.
Definition CLZ : Z := 0x1e.
Definition KECCAK256 : Z := 0x20.
Definition ADDRESS : Z := 0x30.
Definition BALANCE : Z := 0x31.
Definition ORIGIN : Z := 0x32.
Definition CALLER : Z := 0x33.
Definition CALLVALUE : Z := 0x34.
Definition CALLDATALOAD : Z := 0x35.
Definition CALLDATASIZE : Z := 0x36.
Definition CALLDATACOPY : Z := 0x37.
Definition CODESIZE : Z := 0x38.
Definition CODECOPY : Z := 0x39.
Definition GASPRICE : Z := 0x3a.
Definition EXTCODESIZE : Z := 0x3b.
Definition EXTCODECOPY : Z := 0x3c.
Definition RETURNDATASIZE : Z := 0x3d.
Definition RETURNDATACOPY : Z := 0x3e.
Definition EXTCODEHASH : Z := 0x3f.
Definition BLOCKHASH : Z := 0x40.
Definition COINBASE : Z := 0x41.
Definition TIMESTAMP : Z := 0x42.
Definition NUMBER : Z := 0x43.
Definition DIFFICULTY : Z := 0x44.
Definition RANDOM : Z := 0x44.
Definition PREVRANDAO : Z := 0x44.
Definition GASLIMIT : Z := 0x45.
Definition CHAINID : Z := 0x46.
Definition SELFBALANCE : Z := 0x47.
Definition BASEFEE : Z := 0x48.
Definition BLOBHASH : Z := 0x49.
Definition BLOBBASEFEE : Z := 0x4a.
Definition POP : Z := 0x50.
Definition MLOAD : Z := 0x51.
Definition MSTORE : Z := 0x52.
Definition MSTORE8 : Z := 0x53.
Definition SLOAD : Z := 0x54.
Definition SSTORE : Z := 0x55.
Definition JUMP : Z := 0x56.
Definition JUMPI : Z := 0x57.
Definition PC : Z := 0x58.
Definition MSIZE : Z := 0x59.
Definition GAS : Z := 0x5a.
Definition TLOAD : Z := 0x5c.
Definition TSTORE : Z := 0x5d.
Definition MCOPY : Z := 0x5e.
Definition PUSH0 : Z := 0x5f.
Definition PUSH2 : Z := 0x61.
Definition PUSH3 : Z := 0x62.
Definition PUSH4 : Z := 0x63.
Definition PUSH5 : Z := 0x64.
Definition PUSH6 : Z := 0x65.
Definition PUSH7 : Z := 0x66.
Definition PUSH8 : Z := 0x67.
Definition PUSH9 : Z := 0x68.
Definition PUSH10 : Z := 0x69.
Definition PUSH11 : Z := 0x6a.
Definition PUSH12 : Z := 0x6b.
Definition PUSH13 : Z := 0x6c.
Definition PUSH14 : Z := 0x6d.
Definition PUSH15 : Z := 0x6e.
Definition PUSH16 : Z := 0x6f.
Definition PUSH17 : Z := 0x70.
Definition PUSH18 : Z := 0x71.
Definition PUSH19 : Z := 0x72.
Definition PUSH20 : Z := 0x73.
Definition PUSH21 : Z := 0x74.
Definition PUSH22 : Z := 0x75.
Definition PUSH23 : Z := 0x76.
Definition PUSH24 : Z := 0x77.
Definition PUSH25 : Z := 0x78.
Definition PUSH26 : Z := 0x79.
Definition PUSH27 : Z := 0x7a.
Definition PUSH28 : Z := 0x7b.
Definition PUSH29 : Z := 0x7c.
Definition PUSH30 : Z := 0x7d.
Definition PUSH31 : Z := 0x7e.
Definition DUP1 : Z := 0x80.
Definition DUP2 : Z := 0x81.
Definition DUP3 : Z := 0x82.
Definition DUP4 : Z := 0x83.
Definition DUP5 : Z := 0x84.
Definition DUP6 : Z := 0x85.
Definition DUP7 : Z := 0x86.
Definition DUP8 : Z := 0x87.
Definition DUP9 : Z := 0x88.
Definition DUP10 : Z := 0x89.
Definition DUP11 : Z := 0x8a.
Definition DUP12 : Z := 0x8b.
Definition DUP13 : Z := 0x8c.
Definition DUP14 : Z := 0x8d.
Definition DUP15 : Z := 0x8e.
Definition DUP16 : Z := 0x8f.
Definition SWAP1 : Z := 0x90.
Definition SWAP2 : Z := 0x91.
Definition SWAP3 : Z := 0x92.
Definition SWAP4 : Z := 0x93.
Definition SWAP5 : Z := 0x94.
Definition SWAP6 : Z := 0x95.
Definition SWAP7 : Z := 0x96.
Definition SWAP8 : Z := 0x97.
Definition SWAP9 : Z := 0x98.
Definition SWAP10 : Z := 0x99.
Definition SWAP11 : Z := 0x9a.
Definition SWAP12 : Z := 0x9b.
Definition SWAP13 : Z := 0x9c.
Definition SWAP14 : Z := 0x9d.
Definition SWAP15 : Z := 0x9e.
Definition SWAP16 : Z := 0x9f.
Definition LOG0 : Z := 0xa0.
Definition LOG1 : Z := 0xa1.
Definition LOG2 : Z := 0xa2.
Definition LOG3 : Z := 0xa3.
Definition LOG4 : Z := 0xa4.
Definition CREATE : Z := 0xf0.
Definition CALL : Z := 0xf1.
Definition CALLCODE : Z := 0xf2.
Definition RETURN : Z := 0xf3.
Definition DELEGATECALL : Z := 0xf4.
Definition CREATE2 : Z := 0xf5.
Definition STATICCALL : Z := 0xfa.
Definition REVERT : Z := 0xfd.
Definition INVALID : Z := 0xfe.

Section JumpTable.
Context {U : U256.Ops} {HS : Hasher} {R : Reader} {CH : Chain} {EN : Env}.

Record operation := mkOp {
  execute : calls -> executionFunc;
  constantGas : Z;
  dynamicGas : option gasFunc;
  minStackOf : Z;
  maxStackOf : Z;
  memorySize : option memorySizeFunc
}.

Definition set_constantGas (v : Z) (o : operation) : operation :=
  mkOp (execute o) v (dynamicGas o) (minStackOf o) (maxStackOf o) (memorySize o).
Definition set_dynamicGas (v : gasFunc) (o : operation) : operation :=
  mkOp (execute o) (constantGas o) (Some v) (minStackOf o) (maxStackOf o) (memorySize o).

Definition JumpTable : Type := gmap Z operation.

(** An instruction that calls nothing. *)
Definition plain (f : executionFunc) : calls -> executionFunc := fun _ => f.

Definition undefined_operation : operation :=
  mkOp (plain opUndefined) 0 None 0 (maxStack 0 0) None.

Definition lookup_op (jt : JumpTable) (op : Z) : operation := default undefined_operation (jt !! op).

(** [validate]: an operation with a memory size has a dynamic gas function. *)
Definition valid_operation (o : operation) : bool :=
  match memorySize o, dynamicGas o with Some _, None => false | _, _ => true end.
Definition validate (jt : JumpTable) : option JumpTable :=
  if forallb (fun i => valid_operation (lookup_op jt (Z.of_nat i))) (seq 0 256) then Some jt else None.

(** ** Frontier *)

Definition frontier_arithmetic : list (Z * operation) := [
    (STOP, mkOp (plain opStop) 0 None (minStack 0 0) (maxStack 0 0) None);
    (ADD, mkOp (plain opAdd) GasFastestStep None (minStack 2 1) (maxStack 2 1) None);
    (MUL, mkOp (plain opMul) GasFastStep None (minStack 2 1) (maxStack 2 1) None);
    (SUB, mkOp (plain opSub) GasFastestStep None (minStack 2 1) (maxStack 2 1) None);
    (DIV, mkOp (plain opDiv) GasFastStep None (minStack 2 1) (maxStack 2 1) None);
    (SDIV, mkOp (plain opSdiv) GasFastStep None (minStack 2 1) (maxStack 2 1) None);
    (MOD, mkOp (plain opMod) GasFastStep None (minStack 2 1) (maxStack 2 1) None);
    (SMOD, mkOp (plain opSmod) GasFastStep None (minStack 2 1) (maxStack 2 1) None);
    (ADDMOD, mkOp (plain opAddmod) GasMidStep None (minStack 3 1) (maxStack 3 1) None);
    (MULMOD, mkOp (plain opMulmod) GasMidStep None (minStack 3 1) (maxStack 3 1) None);
    (EXP, mkOp (plain opExp) 0 (Some gasExpFrontier) (minStack 2 1) (maxStack 2 1) None);
    (SIGNEXTEND, mkOp (plain opSignExtend) GasFastStep None (minStack 2 1) (maxStack 2 1) None);
    (LT, mkOp (plain opLt) GasFastestStep None (minStack 2 1) (maxStack 2 1) None);
    (GT, mkOp (plain opGt) GasFastestStep None (minStack 2 1) (maxStack 2 1) None);
    (SLT, mkOp (plain opSlt) GasFastestStep None (minStack 2 1) (maxStack 2 1) None);
    (SGT, mkOp (plain opSgt) GasFastestStep None (minStack 2 1) (maxStack 2 1) None);
    (EQ, mkOp (plain opEq) GasFastestStep None (minStack 2 1) (maxStack 2 1) None);
    (ISZERO, mkOp (plain opIszero) GasFastestStep None (minStack 1 1) (maxStack 1 1) None);
    (AND, mkOp (plain opAnd) GasFastestStep None (minStack 2 1) (maxStack 2 1) None);
    (XOR, mkOp (plain opXor) GasFastestStep None (minStack 2 1) (maxStack 2 1) None);
    (OR, mkOp (plain opOr) GasFastestStep None (minStack 2 1) (maxStack 2 1) None);
    (NOT, mkOp (plain opNot) GasFastestStep None (minStack 1 1) (maxStack 1 1) None);
    (BYTE, mkOp (plain opByte) GasFastestStep None (minStack 2 1) (maxStack 2 1) None);
    (KECCAK256, mkOp (plain opKeccak256) Keccak256Gas (Some gasKeccak256) (minStack 2 1) (maxStack 2 1) (Some memoryKeccak256))].

Definition frontier_environment : list (Z * operation) := [
    (ADDRESS, mkOp (plain opAddress) GasQuickStep None (minStack 0 1) (maxStack 0 1) None);
    (BALANCE, mkOp (plain opBalance) BalanceGasFrontier None (minStack 1 1) (maxStack 1 1) None);
    (ORIGIN, mkOp (plain opOrigin) GasQuickStep None (minStack 0 1) (maxStack 0 1) None);
    (CALLER, mkOp (plain opCaller) GasQuickStep None (minStack 0 1) (maxStack 0 1) None);
    (CALLVALUE, mkOp (plain opCallValue) GasQuickStep None (minStack 0 1) (maxStack 0 1) None);
    (CALLDATALOAD, mkOp (plain opCallDataLoad) GasFastestStep None (minStack 1 1) (maxStack 1 1) None);
    (CALLDATASIZE, mkOp (plain opCallDataSize) GasQuickStep None (minStack 0 1) (maxStack 0 1) None);
    (CALLDATACOPY, mkOp (plain opCallDataCopy) GasFastestStep (Some gasCallDataCopy) (minStack 3 0) (maxStack 3 0) (Some memoryCallDataCopy));
    (CODESIZE, mkOp (plain opCodeSize) GasQuickStep None (minStack 0 1) (maxStack 0 1) None);
    (CODECOPY, mkOp (plain opCodeCopy) GasFastestStep (Some gasCodeCopy) (minStack 3 0) (maxStack 3 0) (Some memoryCodeCopy));
    (GASPRICE, mkOp (plain opGasprice) GasQuickStep None (minStack 0 1) (maxStack 0 1) None);
    (EXTCODESIZE, mkOp (plain opExtCodeSize) ExtcodeSizeGasFrontier None (minStack 1 1) (maxStack 1 1) None);
    (EXTCODECOPY, mkOp (plain opExtCodeCopy) ExtcodeCopyBaseFrontier (Some gasExtCodeCopy) (minStack 4 0) (maxStack 4 0) (Some memoryExtCodeCopy));
    (BLOCKHASH, mkOp (plain opBlockhash) GasExtStep None (minStack 1 1) (maxStack 1 1) None);
    (COINBASE, mkOp (plain opCoinbase) GasQuickStep None (minStack 0 1) (maxStack 0 1) None);
    (TIMESTAMP, mkOp (plain opTimestamp) GasQuickStep None (minStack 0 1) (maxStack 0 1) None);
    (NUMBER, mkOp (plain opNumber) GasQuickStep None (minStack 0 1) (maxStack 0 1) None);
    (DIFFICULTY, mkOp (plain opDifficulty) GasQuickStep None (minStack 0 1) (maxStack 0 1) None);
    (GASLIMIT, mkOp (plain opGasLimit) GasQuickStep None (minStack 0 1) (maxStack 0 1) None)].

Definition frontier_memory : list (Z * operation) := [
    (POP, mkOp (plain opPop) GasQuickStep None (minStack 1 0) (maxStack 1 0) None);
    (MLOAD, mkOp (plain opMload) GasFastestStep (Some gasMLoad) (minStack 1 1) (maxStack 1 1) (Some memoryMLoad));
    (MSTORE, mkOp (plain opMstore) GasFastestStep (Some gasMStore) (minStack 2 0) (maxStack 2 0) (Some memoryMStore));
    (MSTORE8, mkOp (plain opMstore8) GasFastestStep (Some gasMStore8) (minStack 2 0) (maxStack 2 0) (Some memoryMStore8));
    (SLOAD, mkOp (plain opSload) SloadGasFrontier None (minStack 1 1) (maxStack 1 1) None);
    (SSTORE, mkOp (plain opSstore) 0 (Some gasSStore) (minStack 2 0) (maxStack 2 0) None);
    (JUMP, mkOp (plain opJump) GasMidStep None (minStack 1 0) (maxStack 1 0) None);
    (JUMPI, mkOp (plain opJumpi) GasSlowStep None (minStack 2 0) (maxStack 2 0) None);
    (PC, mkOp (plain opPc) GasQuickStep None (minStack 0 1) (maxStack 0 1) None);
    (MSIZE, mkOp (plain opMsize) GasQuickStep None (minStack 0 1) (maxStack 0 1) None);
    (GAS, mkOp (plain opGas) GasQuickStep None (minStack 0 1) (maxStack 0 1) None);
    (JUMPDEST, mkOp (plain opJumpdest) JumpdestGas None (minStack 0 0) (maxStack 0 0) None)].

Definition frontier_push1 : list (Z * operation) := [
    (PUSH1, mkOp (plain opPush1) GasFastestStep None (minStack 0 1) (maxStack 0 1) None);
    (PUSH2, mkOp (plain opPush2) GasFastestStep None (minStack 0 1) (maxStack 0 1) None);
    (PUSH3, mkOp (plain (makePush 3 3)) GasFastestStep None (minStack 0 1) (maxStack 0 1) None);
    (PUSH4, mkOp (plain (makePush 4 4)) GasFastestStep None (minStack 0 1) (maxStack 0 1) None);
    (PUSH5, mkOp (plain (makePush 5 5)) GasFastestStep None (minStack 0 1) (maxStack 0 1) None);
    (PUSH6, mkOp (plain (makePush 6 6)) GasFastestStep None (minStack 0 1) (maxStack 0 1) None);
    (PUSH7, mkOp (plain (makePush 7 7)) GasFastestStep None (minStack 0 1) (maxStack 0 1) None);
    (PUSH8, mkOp (plain (makePush 8 8)) GasFastestStep None (minStack 0 1) (maxStack 0 1) None);
    (PUSH9, mkOp (plain (makePush 9 9)) GasFastestStep None (minStack 0 1) (maxStack 0 1) None);
    (PUSH10, mkOp (plain (makePush 10 10)) GasFastestStep None (minStack 0 1) (maxStack 0 1) None);
    (PUSH11, mkOp (plain (makePush 11 11)) GasFastestStep None (minStack 0 1) (maxStack 0 1) None);
    (PUSH12, mkOp (plain (makePush 12 12)) GasFastestStep None (minStack 0 1) (maxStack 0 1) None);
    (PUSH13, mkOp (plain (makePush 13 13)) GasFastestStep None (minStack 0 1) (maxStack 0 1) None);
    (PUSH14, mkOp (plain (makePush 14 14)) GasFastestStep None (minStack 0 1) (maxStack 0 1) None);
    (PUSH15, mkOp (plain (makePush 15 15)) GasFastestStep None (minStack 0 1) (maxStack 0 1) None);
    (PUSH16, mkOp (plain (makePush 16 16)) GasFastestStep None (minStack 0 1) (maxStack 0 1) None)].

Definition frontier_push17 : list (Z * operation) := [
    (PUSH17, mkOp (plain (makePush 17 17)) GasFastestStep None (minStack 0 1) (maxStack 0 1) None);
    (PUSH18, mkOp (plain (makePush 18 18)) GasFastestStep None (minStack 0 1) (maxStack 0 1) None);
    (PUSH19, mkOp (plain (makePush 19 19)) GasFastestStep None (minStack 0 1) (maxStack 0 1) None);
    (PUSH20, mkOp (plain (makePush 20 20)) GasFastestStep None (minStack 0 1) (maxStack 0 1) None);
    (PUSH21, mkOp (plain (makePush 21 21)) GasFastestStep None (minStack 0 1) (maxStack 0 1) None);
    (PUSH22, mkOp (plain (makePush 22 22)) GasFastestStep None (minStack 0 1) (maxStack 0 1) None);
    (PUSH23, mkOp (plain (makePush 23 23)) GasFastestStep None (minStack 0 1) (maxStack 0 1) None);
    (PUSH24, mkOp (plain (makePush 24 24)) GasFastestStep None (minStack 0 1) (maxStack 0 1) None);
    (PUSH25, mkOp (plain (makePush 25 25)) GasFastestStep None (minStack 0 1) (maxStack 0 1) None);
    (PUSH26, mkOp (plain (makePush 26 26)) GasFastestStep None (minStack 0 1) (maxStack 0 1) None);
    (PUSH27, mkOp (plain (makePush 27 27)) GasFastestStep None (minStack 0 1) (maxStack 0 1) None);
    (PUSH28, mkOp (plain (makePush 28 28)) GasFastestStep None (minStack 0 1) (maxStack 0 1) None);
    (PUSH29, mkOp (plain (makePush 29 29)) GasFastestStep None (minStack 0 1) (maxStack 0 1) None);
    (PUSH30, mkOp (plain (makePush 30 30)) GasFastestStep None (minStack 0 1) (maxStack 0 1) None);
    (PUSH31, mkOp (plain (makePush 31 31)) GasFastestStep None (minStack 0 1) (maxStack 0 1) None);
    (PUSH32, mkOp (plain (makePush 32 32)) GasFastestStep None (minStack 0 1) (maxStack 0 1) None)].

Definition frontier_dup : list (Z * operation) := [
    (DUP1, mkOp (plain (makeDup 1)) GasFastestStep None (minDupStack 1) (maxDupStack 1) None);
    (DUP2, mkOp (plain (makeDup 2)) GasFastestStep None (minDupStack 2) (maxDupStack 2) None);
    (DUP3, mkOp (plain (makeDup 3)) GasFastestStep None (minDupStack 3) (maxDupStack 3) None);
    (DUP4, mkOp (plain (makeDup 4)) GasFastestStep None (minDupStack 4) (maxDupStack 4) None);
    (DUP5, mkOp (plain (makeDup 5)) GasFastestStep None (minDupStack 5) (maxDupStack 5) None);
    (DUP6, mkOp (plain (makeDup 6)) GasFastestStep None (minDupStack 6) (maxDupStack 6) None);
    (DUP7, mkOp (plain (makeDup 7)) GasFastestStep None (minDupStack 7) (maxDupStack 7) None);
    (DUP8, mkOp (plain (makeDup 8)) GasFastestStep None (minDupStack 8) (maxDupStack 8) None);
    (DUP9, mkOp (plain (makeDup 9)) GasFastestStep None (minDupStack 9) (maxDupStack 9) None);
    (DUP10, mkOp (plain (makeDup 10)) GasFastestStep None (minDupStack 10) (maxDupStack 10) None);
    (DUP11, mkOp (plain (makeDup 11)) GasFastestStep None (minDupStack 11) (maxDupStack 11) None);
    (DUP12, mkOp (plain (makeDup 12)) GasFastestStep None (minDupStack 12) (maxDupStack 12) None);
    (DUP13, mkOp (plain (makeDup 13)) GasFastestStep None (minDupStack 13) (maxDupStack 13) None);
    (DUP14, mkOp (plain (makeDup 14)) GasFastestStep None (minDupStack 14) (maxDupStack 14) None);
    (DUP15, mkOp (plain (makeDup 15)) GasFastestStep None (minDupStack 15) (maxDupStack 15) None);
    (DUP16, mkOp (plain (makeDup 16)) GasFastestStep None (minDupStack 16) (maxDupStack 16) None)].

Definition frontier_swap : list (Z * operation) := [
    (SWAP1, mkOp (plain (makeSwap 1)) GasFastestStep None (minSwapStack 2) (maxSwapStack 2) None);
    (SWAP2, mkOp (plain (makeSwap 2)) GasFastestStep None (minSwapStack 3) (maxSwapStack 3) None);
    (SWAP3, mkOp (plain (makeSwap 3)) GasFastestStep None (minSwapStack 4) (maxSwapStack 4) None);
    (SWAP4, mkOp (plain (makeSwap 4)) GasFastestStep None (minSwapStack 5) (maxSwapStack 5) None);
    (SWAP5, mkOp (plain (makeSwap 5)) GasFastestStep None (minSwapStack 6) (maxSwapStack 6) None);
    (SWAP6, mkOp (plain (makeSwap 6)) GasFastestStep None (minSwapStack 7) (maxSwapStack 7) None);
    (SWAP7, mkOp (plain (makeSwap 7)) GasFastestStep None (minSwapStack 8) (maxSwapStack 8) None);
    (SWAP8, mkOp (plain (makeSwap 8)) GasFastestStep None (minSwapStack 9) (maxSwapStack 9) None);
    (SWAP9, mkOp (plain (makeSwap 9)) GasFastestStep None (minSwapStack 10) (maxSwapStack 10) None);
    (SWAP10, mkOp (plain (makeSwap 10)) GasFastestStep None (minSwapStack 11) (maxSwapStack 11) None);
    (SWAP11, mkOp (plain (makeSwap 11)) GasFastestStep None (minSwapStack 12) (maxSwapStack 12) None);
    (SWAP12, mkOp (plain (makeSwap 12)) GasFastestStep None (minSwapStack 13) (maxSwapStack 13) None);
    (SWAP13, mkOp (plain (makeSwap 13)) GasFastestStep None (minSwapStack 14) (maxSwapStack 14) None);
    (SWAP14, mkOp (plain (makeSwap 14)) GasFastestStep None (minSwapStack 15) (maxSwapStack 15) None);
    (SWAP15, mkOp (plain (makeSwap 15)) GasFastestStep None (minSwapStack 16) (maxSwapStack 16) None);
    (SWAP16, mkOp (plain (makeSwap 16)) GasFastestStep None (minSwapStack 17) (maxSwapStack 17) None)].

Definition frontier_system : list (Z * operation) := [
    (LOG0, mkOp (plain (makeLog 0)) 0 (Some (makeGasLog 0)) (minStack 2 0) (maxStack 2 0) (Some memoryLog));
    (LOG1, mkOp (plain (makeLog 1)) 0 (Some (makeGasLog 1)) (minStack 3 0) (maxStack 3 0) (Some memoryLog));
    (LOG2, mkOp (plain (makeLog 2)) 0 (Some (makeGasLog 2)) (minStack 4 0) (maxStack 4 0) (Some memoryLog));
    (LOG3, mkOp (plain (makeLog 3)) 0 (Some (makeGasLog 3)) (minStack 5 0) (maxStack 5 0) (Some memoryLog));
    (LOG4, mkOp (plain (makeLog 4)) 0 (Some (makeGasLog 4)) (minStack 6 0) (maxStack 6 0) (Some memoryLog));
    (CREATE, mkOp opCreate CreateGas (Some gasCreate) (minStack 3 1) (maxStack 3 1) (Some memoryCreate));
    (CALL, mkOp opCall CallGasFrontier (Some gasCall) (minStack 7 1) (maxStack 7 1) (Some memoryCall));
    (CALLCODE, mkOp opCallCode CallGasFrontier (Some gasCallCode) (minStack 7 1) (maxStack 7 1) (Some memoryCall));
    (RETURN, mkOp (plain opReturn) 0 (Some gasReturn) (minStack 2 0) (maxStack 2 0) (Some memoryReturn));
    (SELFDESTRUCT, mkOp (plain opSelfdestruct) 0 (Some gasSelfdestruct) (minStack 1 0) (maxStack 1 0) None);
    (INVALID, mkOp (plain opUndefined) 0 None (minStack 0 0) (maxStack 0 0) None)].

Definition frontier_operations : list (Z * operation) :=
  frontier_arithmetic ++ frontier_environment ++ frontier_memory ++ frontier_push1 ++ frontier_push17
  ++ frontier_dup ++ frontier_swap ++ frontier_system.

Definition newFrontierInstructionSet : JumpTable := list_to_map frontier_operations.

(** ** The activators *)

Definition set_op (op : Z) (o : operation) (jt : JumpTable) : JumpTable := <[op := o]> jt.
Definition set_gas (op v : Z) (jt : JumpTable) : JumpTable := alter (set_constantGas v) op jt.
Definition set_dynamic (op : Z) (f : gasFunc) (jt : JumpTable) : JumpTable :=
  alter (set_dynamicGas f) op jt.

Definition newHomesteadInstructionSet : JumpTable :=
  set_op DELEGATECALL
    (mkOp opDelegateCall CallGasFrontier (Some gasDelegateCall) (minStack 6 1) (maxStack 6 1)
       (Some memoryDelegateCall)) newFrontierInstructionSet.

Definition newTangerineWhistleInstructionSet : JumpTable :=
  let jt := newHomesteadInstructionSet in
  let jt := set_gas BALANCE BalanceGasEIP150 jt in
  let jt := set_gas EXTCODESIZE ExtcodeSizeGasEIP150 jt in
  let jt := set_gas SLOAD SloadGasEIP150 jt in
  let jt := set_gas EXTCODECOPY ExtcodeCopyBaseEIP150 jt in
  let jt := set_gas CALL CallGasEIP150 jt in
  let jt := set_gas CALLCODE CallGasEIP150 jt in
  set_gas DELEGATECALL CallGasEIP150 jt.

Definition newSpuriousDragonInstructionSet : JumpTable :=
  set_dynamic EXP gasExpEIP158 newTangerineWhistleInstructionSet.

Definition newByzantiumInstructionSet : JumpTable :=
  let jt := newSpuriousDragonInstructionSet in
  let jt := set_op STATICCALL
    (mkOp opStaticCall CallGasEIP150 (Some gasStaticCall) (minStack 6 1) (maxStack 6 1)
       (Some memoryStaticCall)) jt in
  let jt := set_op RETURNDATASIZE
    (mkOp (plain opReturnDataSize) GasQuickStep None (minStack 0 1) (maxStack 0 1) None) jt in
  let jt := set_op RETURNDATACOPY
    (mkOp (plain opReturnDataCopy) GasFastestStep (Some gasReturnDataCopy) (minStack 3 0)
       (maxStack 3 0) (Some memoryReturnDataCopy)) jt in
  set_op REVERT
    (mkOp (plain opRevert) 0 (Some gasRevert) (minStack 2 0) (maxStack 2 0) (Some memoryRevert)) jt.

Definition newConstantinopleInstructionSet : JumpTable :=
  let jt := newByzantiumInstructionSet in
  let jt := set_op SHL (mkOp (plain opSHL) GasFastestStep None (minStack 2 1) (maxStack 2 1) None) jt in
  let jt := set_op SHR (mkOp (plain opSHR) GasFastestStep None (minStack 2 1) (maxStack 2 1) None) jt in
  let jt := set_op SAR (mkOp (plain opSAR) GasFastestStep None (minStack 2 1) (maxStack 2 1) None) jt in
  let jt := set_op EXTCODEHASH
    (mkOp (plain opExtCodeHash) ExtcodeHashGasConstantinople None (minStack 1 1) (maxStack 1 1) None) jt in
  set_op CREATE2
    (mkOp opCreate2 Create2Gas (Some gasCreate2) (minStack 4 1) (maxStack 4 1) (Some memoryCreate2)) jt.

Definition enable1884 (jt : JumpTable) : JumpTable :=
  let jt := set_gas SLOAD SloadGasEIP1884 jt in
  let jt := set_gas BALANCE BalanceGasEIP1884 jt in
  let jt := set_gas EXTCODEHASH ExtcodeHashGasEIP1884 jt in
  set_op SELFBALANCE (mkOp (plain opSelfBalance) GasFastStep None (minStack 0 1) (maxStack 0 1) None) jt.

Definition enable1344 (jt : JumpTable) : JumpTable :=
  set_op CHAINID (mkOp (plain opChainID) GasQuickStep None (minStack 0 1) (maxStack 0 1) None) jt.

Definition enable2200 (jt : JumpTable) : JumpTable :=
  set_dynamic SSTORE gasSStoreEIP2200 (set_gas SLOAD SloadGasEIP2200 jt).

Definition enable2929 (jt : JumpTable) : JumpTable :=
  let jt := set_dynamic SSTORE gasSStoreEIP2929 jt in
  let jt := set_dynamic SLOAD gasSLoadEIP2929 (set_gas SLOAD 0 jt) in
  let jt := set_dynamic EXTCODECOPY gasExtCodeCopyEIP2929
              (set_gas EXTCODECOPY WarmStorageReadCostEIP2929 jt) in
  let jt := set_dynamic EXTCODESIZE gasEip2929AccountCheck
              (set_gas EXTCODESIZE WarmStorageReadCostEIP2929 jt) in
  let jt := set_dynamic EXTCODEHASH gasEip2929AccountCheck
              (set_gas EXTCODEHASH WarmStorageReadCostEIP2929 jt) in
  let jt := set_dynamic BALANCE gasEip2929AccountCheck
              (set_gas BALANCE WarmStorageReadCostEIP2929 jt) in
  let jt := set_dynamic CALL gasCallEIP2929 (set_gas CALL WarmStorageReadCostEIP2929 jt) in
  let jt := set_dynamic CALLCODE gasCallCodeEIP2929 (set_gas CALLCODE WarmStorageReadCostEIP2929 jt) in
  let jt := set_dynamic STATICCALL gasStaticCallEIP2929
              (set_gas STATICCALL WarmStorageReadCostEIP2929 jt) in
  let jt := set_dynamic DELEGATECALL gasDelegateCallEIP2929
              (set_gas DELEGATECALL WarmStorageReadCostEIP2929 jt) in
  set_dynamic SELFDESTRUCT gasSelfdestructEIP2929 (set_gas SELFDESTRUCT SelfdestructGasEIP150 jt).

Definition enable3529 (jt : JumpTable) : JumpTable :=
  set_dynamic SELFDESTRUCT gasSelfdestructEIP3529 (set_dynamic SSTORE gasSStoreEIP3529 jt).

Definition enable3198 (jt : JumpTable) : JumpTable :=
  set_op BASEFEE (mkOp (plain opBaseFee) GasQuickStep None (minStack 0 1) (maxStack 0 1) None) jt.

Definition enable1153 (jt : JumpTable) : JumpTable :=
  set_op TSTORE
    (mkOp (plain opTstore) WarmStorageReadCostEIP2929 None (minStack 2 0) (maxStack 2 0) None)
    (set_op TLOAD
      (mkOp (plain opTload) WarmStorageReadCostEIP2929 None (minStack 1 1) (maxStack 1 1) None) jt).

Definition enable3855 (jt : JumpTable) : JumpTable :=
  set_op PUSH0 (mkOp (plain opPush0) GasQuickStep None (minStack 0 1) (maxStack 0 1) None) jt.

Definition enable3860 (jt : JumpTable) : JumpTable :=
  set_dynamic CREATE2 gasCreate2Eip3860 (set_dynamic CREATE gasCreateEip3860 jt).

Definition enable5656 (jt : JumpTable) : JumpTable :=
  set_op MCOPY
    (mkOp (plain opMcopy) GasFastestStep (Some gasMcopy) (minStack 3 0) (maxStack 3 0)
       (Some memoryMcopy)) jt.

Definition enable4844 (jt : JumpTable) : JumpTable :=
  set_op BLOBHASH (mkOp (plain opBlobHash) GasFastestStep None (minStack 1 1) (maxStack 1 1) None) jt.

Definition enable7939 (jt : JumpTable) : JumpTable :=
  set_op CLZ (mkOp (plain opCLZ) GasFastStep None (minStack 1 1) (maxStack 1 1) None) jt.

Definition enable7516 (jt : JumpTable) : JumpTable :=
  set_op BLOBBASEFEE (mkOp (plain opBlobBaseFee) GasQuickStep None (minStack 0 1) (maxStack 0 1) None) jt.

Definition enable6780 (jt : JumpTable) : JumpTable :=
  set_op SELFDESTRUCT
    (mkOp (plain opSelfdestruct6780) SelfdestructGasEIP150 (Some gasSelfdestructEIP3529)
       (minStack 1 0) (maxStack 1 0) None) jt.

Definition enable7702 (jt : JumpTable) : JumpTable :=
  let jt := set_dynamic CALL gasCallEIP7702 jt in
  let jt := set_dynamic CALLCODE gasCallCodeEIP7702 jt in
  let jt := set_dynamic STATICCALL gasStaticCallEIP7702 jt in
  set_dynamic DELEGATECALL gasDelegateCallEIP7702 jt.

(** ** The forks *)

Definition newIstanbulInstructionSet : JumpTable :=
  enable2200 (enable1884 (enable1344 newConstantinopleInstructionSet)).
Definition newBerlinInstructionSet : JumpTable := enable2929 newIstanbulInstructionSet.
Definition newLondonInstructionSet : JumpTable := enable3198 (enable3529 newBerlinInstructionSet).
Definition newMergeInstructionSet : JumpTable :=
  set_op PREVRANDAO (mkOp (plain opRandom) GasQuickStep None (minStack 0 1) (maxStack 0 1) None)
    newLondonInstructionSet.
Definition newShanghaiInstructionSet : JumpTable := enable3860 (enable3855 newMergeInstructionSet).
Definition newCancunInstructionSet : JumpTable :=
  enable6780 (enable5656 (enable1153 (enable7516 (enable4844 newShanghaiInstructionSet)))).
Definition newPragueInstructionSet : JumpTable := enable7702 newCancunInstructionSet.
Definition newOsakaInstructionSet : JumpTable := enable7939 newPragueInstructionSet.

(** The table [NewEVM] selects; a chain with the Verkle rules and without Osaka is
    not modelled. *)
Definition select_table (r : Rules) : JumpTable :=
  if IsOsaka r then newOsakaInstructionSet
  else if IsPrague r then newPragueInstructionSet
  else if IsCancun r then newCancunInstructionSet
  else if IsShanghai r then newShanghaiInstructionSet
  else if IsMerge r then newMergeInstructionSet
  else if IsLondon r then newLondonInstructionSet
  else if IsBerlin r then newBerlinInstructionSet
  else if IsIstanbul r then newIstanbulInstructionSet
  else if IsConstantinople r then newConstantinopleInstructionSet
  else if IsByzantium r then newByzantiumInstructionSet
  else if IsEIP158 r then newSpuriousDragonInstructionSet
  else if IsEIP150 r then newTangerineWhistleInstructionSet
  else if IsHomestead r then newHomesteadInstructionSet
  else newFrontierInstructionSet.

End JumpTable.
