(* ===== verification/Interpreter.v ===== *)
(** The interpreter and the calls: [core/vm/interpreter.go], [core/vm/evm.go] and
    [RunPrecompiledContract] of [core/vm/contracts.go].

    [Run] executes a contract; its instructions may run the calls of [EVM], which run
    contracts in turn.  [Run] takes fuel: a call gets one unit less than its
    caller, and a contract run with fuel [n] executes at most [n] instructions.  The
    branches for the Verkle rules (EIP-4762) are left
    out: the model is of chains without them.  Tracers and the address filter observe
    and are left out too, as are [PushContract] and [PopContract] of the processing hook,
    which only tell it what runs. *)

From stdpp Require Import base gmap list numbers option strings.
From S2P Require Import Prelude Params MultiGas Uint256 VmCore JumpDest AccessList State Evm VmGas.
From S2P Require Import Instructions JumpTable.
Open Scope Z_scope.
Open Scope vm_scope.

(** ** Precompiled contracts

    [PrecompiledContract] and [AdvancedPrecompile] are interfaces; [None] is a panic. *)

Record AdvancedPrecompileCall := mkAdvancedPrecompileCall {
  PrecompileAddress : Z;
  ActingAsAddress : Z;
  apc_Caller : Z;
  apc_Value : Z;
  apc_ReadOnly : bool
}.

Inductive PrecompiledContract :=
| Basic (RequiredGas : list Z -> option Z) (run_precompile : list Z -> option (list Z * option vmError))
| Advanced (RunAdvanced : list Z -> Z -> AdvancedPrecompileCall -> EVM -> option (call_result * EVM)).

Class Precompiles := precompile : Z -> option PrecompiledContract.

Definition RunPrecompiledContract (p : PrecompiledContract) (input : list Z) (suppliedGas : Z)
    (advancedInfo : AdvancedPrecompileCall) (e : EVM) : option (call_result * EVM) :=
  match p with
  | Advanced RunAdvanced => RunAdvanced input suppliedGas advancedInfo e
  | Basic RequiredGas run_precompile =>
      gasCost ← RequiredGas input;
      if suppliedGas <? gasCost then
        Some (mkCallResult [] 0 (ComputationGas suppliedGas) (Some ErrOutOfGas), e)
      else
        '(output, err) ← run_precompile input;
        Some (mkCallResult output (suppliedGas - gasCost) (ComputationGas gasCost) err, e)
  end.

Definition SystemAddress : Z := 0xfffffffffffffffffffffffffffffffffffffffe.
Definition isSystemCall (caller : Z) : bool := caller =? SystemAddress.

(** ** Addresses of new contracts, crypto/crypto.go *)

(** The RLP encoding of an unsigned integer. *)
Definition rlp_uint64 (i : Z) : list Z :=
  if i =? 0 then [0x80]
  else if i <? 128 then [i]
  else
    let s := Z.log2 i / 8 + 1 in
    0x80 + s :: U256.be_bytes (Z.to_nat s) i.

Definition low_160 (hash : Z) : Z := hash mod 2 ^ 160.

Section Interpreter.
Context {U : U256.Ops} {HS : Hasher} {R : Reader} {CH : Chain} {EN : Env} {PC : Precompiles}.

Definition CreateAddress (b nonce : Z) : Z :=
  let payload := 0x94 :: U256.be_bytes 20 b ++ rlp_uint64 nonce in
  low_160 (keccak256 (0xc0 + Z.of_nat (length payload) :: payload)).

Definition CreateAddress2 (b salt inithash : Z) : Z :=
  low_160 (keccak256 (0xff :: U256.be_bytes 20 b ++ U256.be_bytes 32 salt ++ U256.be_bytes 32 inithash)).

(** ** The loop *)

(** [fmt.Errorf("%w: %v", ErrOutOfGas, err)] *)
Definition wrap_oog {A} (m : VM A) : VM A := fun s =>
  match m s with
  | Some (Err e, s') => Some (Err (ErrWrapOutOfGas e), s')
  | r => r
  end.

Definition check_stack (o : operation) (st : Stack.t) : VM unit :=
  let sLen := Stack.len st in
  if sLen <? minStackOf o then vm_throw (ErrStackUnderflow sLen (minStackOf o))
  else if maxStackOf o <? sLen then vm_throw (ErrStackOverflow sLen (maxStackOf o))
  else vm_ret tt.

(** [if contract.Gas < cost { return nil, ErrOutOfGas } else { contract.Gas -= cost }] *)
Definition deduct (cost : Z) : VM unit :=
  let* c := get_contract in
  if Gas c <? cost then vm_throw ErrOutOfGas else put_contract (set_Gas (Gas c - cost) c).

Definition charge_constant (o : operation) (op : Z) : VM unit :=
  deduct (constantGas o) ;;*
  let* c := get_contract in
  put_contract (set_UsedMultiGas (addConstantMultiGas (UsedMultiGas c) (constantGas o) op) c).

(** The new memory size, in whole words. *)
Definition memory_size (o : operation) (st : Stack.t) : VM Z :=
  match memorySize o with
  | None => vm_ret 0
  | Some f =>
      let* '(memSize, overflow) := or_panic (f st) in
      if overflow then vm_throw ErrGasUintOverflow
      else no_overflow (GoMath.SafeMul (toWordSize memSize) 32)
  end.

(** The dynamic cost and the memory size. *)
Definition charge_dynamic (o : operation) (st : Stack.t) : VM Z :=
  match dynamicGas o with
  | None => vm_ret 0
  | Some f =>
      let* size := memory_size o st in
      let* multigasDynamicCost := wrap_oog (f st size) in
      deduct (SingleGas multigasDynamicCost) ;;*
      let* c := get_contract in
      put_contract (add_used multigasDynamicCost c) ;;*
      vm_ret size
  end.

Definition resize_memory (size : Z) : VM unit :=
  if 0 <? size then let* mem := get_memory in put_memory (Memory.Resize mem size) else vm_ret tt.

(** What an iteration of the loop does before it executes the operation. *)
Definition prepare_op (o : operation) (op : Z) (st : Stack.t) : VM unit :=
  check_stack o st ;;*
  charge_constant o op ;;*
  let* size := charge_dynamic o st in
  resize_memory size.

Definition step (cs : calls) (pc : Z) (st : Stack.t) : IM outcome :=
  let+ c := lift get_contract in
  let op := GetOp c pc in
  let o := lookup_op (select_table chainRules) op in
  let+ _ := lift (prepare_op o op st) in
  execute o cs pc st.

(** The loop, with the return data and the error it breaks with. *)
Fixpoint loop (cs : calls) (n : nat) (pc : Z) (st : Stack.t) (s : vst) :
    run (list Z * vmError * vst) :=
  match n with
  | O => NoFuel
  | S n =>
      match step cs pc st s with
      | Done (Ok (Next pc st), s) => loop cs n (u64 (pc + 1)) st s
      | Done (Ok (Halt ret err), s) => Done (ret, err, s)
      | Done (Err err, s) => Done ([], err, s)
      | Panics => Panics
      | NoFuel => NoFuel
      end
  end.

Definition final_error (err : vmError) : option vmError :=
  match err with errStopToken => None | _ => Some err end.

Definition run_result : Type := list Z * option vmError * Contract * EVM.

(** The body of [Run] between its first and its deferred statements. *)
Definition run_body (cs : calls) (n : nat) (contract : Contract) (input : list Z) (e : EVM) :
    run run_result :=
  match Code contract with
  | [] => Done ([], None, contract, e)
  | _ =>
      let contract := set_Input input contract in
      if IsArbitrum chainRules
         && IsStylusDeployableProgramPrefix (Code contract) (ArbOSVersion chainRules)
      then match ExecuteWASM contract input e with
           | Some r => Done r
           | None => Panics
           end
      else
        match loop cs n 0 [] (mkVst e contract Memory.NewMemory) with
        | Done (ret, err, s) => Done (ret, final_error err, v_contract s, v_evm s)
        | Panics => Panics
        | NoFuel => NoFuel
        end
  end.

Definition run_with (cs : calls) (n : nat) (contract : Contract) (input : list Z) (ro : bool)
    (e : EVM) : run run_result :=
  let e := set_depth (depth e + 1) e in
  let sets := ro && negb (readOnly e) in
  let e := if sets then set_readOnly true e else e in
  let e := set_returnData [] e in
  match run_body cs n contract input e with
  | Done (ret, err, c, e) =>
      let e := if sets then set_readOnly false e else e in
      Done (ret, err, c, set_depth (depth e - 1) e)
  | Panics => Panics
  | NoFuel => NoFuel
  end.

(** ** The calls *)

Definition with_db {A} (f : StateDB -> A * StateDB) (e : EVM) : A * EVM :=
  let '(a, db) := f (evm_StateDB e) in (a, set_StateDB db e).

(** core/evm.go *)
Definition CanTransfer (addr amount : Z) (s : StateDB) : bool * StateDB :=
  let '(balance, s) := GetBalance addr s in (0 <=? U256.Cmp balance amount, s).
Definition Transfer (sender recipient amount : Z) (s : StateDB) : StateDB :=
  snd (AddBalance recipient amount (snd (SubBalance sender amount s))).

Definition is_precompile (addr : Z) : bool :=
  match precompile addr with Some _ => true | None => false end.

Definition resolveCode (addr : Z) (s : StateDB) : list Z * StateDB :=
  let '(code, s) := GetCode addr s in
  if negb (IsPrague chainRules) then (code, s)
  else
    match ParseDelegation code with
    | Some target =>
        if is_precompile target && (ArbosVersion_50 <=? ArbOSVersion chainRules) then ([], s)
        else GetCode target s
    | None => (code, s)
    end.

Definition resolveCodeHash (addr : Z) (s : StateDB) : Z * StateDB :=
  if IsPrague chainRules then
    let '(code, s) := GetCode addr s in
    match ParseDelegation code with
    | Some target => GetCodeHash target s
    | None => GetCodeHash addr s
    end
  else GetCodeHash addr s.

Section Calls.
Variable Run : Contract -> list Z -> bool -> EVM -> run run_result.

(** The results without execution. *)
Definition failed (gas : Z) (err : vmError) (e : EVM) : run (call_result * EVM) :=
  Done (mkCallResult [] gas ZeroGas (Some err), e).

(** The common end of the calls: an error reverts the state and, unless it is a
    revert, consumes the gas. *)
Definition end_call (snapshot : Z) (ret : list Z) (gas : Z) (used : MultiGas) (err : option vmError)
    (e : EVM) : run (call_result * EVM) :=
  match err with
  | None => Done (mkCallResult ret gas used None, e)
  | Some err =>
      match RevertToSnapshot snapshot (evm_StateDB e) with
      | None => Panics
      | Some db =>
          let e := set_StateDB db e in
          match err with
          | ErrExecutionReverted => Done (mkCallResult ret gas used (Some err), e)
          | _ =>
              Done (mkCallResult ret 0 (SaturatingIncrementInto used ResourceKindComputation gas)
                      (Some err), e)
          end
      end
  end.

Definition run_precompiled (snapshot : Z) (p : PrecompiledContract) (input : list Z) (gas : Z)
    (info : AdvancedPrecompileCall) (e : EVM) : run (call_result * EVM) :=
  match RunPrecompiledContract p input gas info e with
  | None => Panics
  | Some (r, e) =>
      end_call snapshot (cr_ret r) (leftOverGas r) (SaturatingAddInto ZeroGas (usedMultiGas r))
        (cr_err r) e
  end.

Definition run_contract (snapshot : Z) (contract : Contract) (input : list Z) (ro : bool) (e : EVM) :
    run (call_result * EVM) :=
  match Run contract input ro e with
  | Panics => Panics
  | NoFuel => NoFuel
  | Done (ret, err, contract, e) =>
      end_call snapshot ret (Gas contract)
        (SaturatingAddInto ZeroGas (GetTotalUsedMultiGas contract)) err e
  end.

(** The contract of a frame, with the code of [addr]. *)
Definition code_contract (addr : Z) (c : Contract) (e : EVM) : Contract * EVM :=
  let '(hash, e) := with_db (resolveCodeHash addr) e in
  let '(code, e) := with_db (resolveCode addr) e in
  (SetCallCode hash code c, e).

Definition Call (caller addr : Z) (input : list Z) (gas value : Z) (e : EVM) : run (call_result * EVM) :=
  if CallCreateDepth <? depth e then failed gas ErrDepth e
  else
    let '(can, e) :=
      if negb (U256.IsZero value) then with_db (CanTransfer caller value) e else (true, e) in
    if negb can then failed gas ErrInsufficientBalance e
    else
      let '(snapshot, e) := with_db Snapshot e in
      let '(existing, e) := with_db (Exist addr) e in
      if negb existing && negb (is_precompile addr) && IsEIP158 chainRules && U256.IsZero value then
        Done (mkCallResult [] gas ZeroGas None, e)
      else
        let e := if existing then e else set_StateDB (CreateAccount addr (evm_StateDB e)) e in
        let e := set_StateDB (Transfer caller addr value (evm_StateDB e)) e in
        match precompile addr with
        | Some p =>
            run_precompiled snapshot p input gas
              (mkAdvancedPrecompileCall addr addr caller value false) e
        | None =>
            let '(code, e) := with_db (resolveCode addr) e in
            match code with
            | [] => end_call snapshot [] gas ZeroGas None e
            | _ =>
                let contract := set_IsSystemCall (isSystemCall caller)
                                  (NewContract caller addr value gas) in
                let '(hash, e) := with_db (resolveCodeHash addr) e in
                run_contract snapshot (SetCallCode hash code contract) input false e
            end
        end.

Definition CallCode (caller addr : Z) (input : list Z) (gas value : Z) (e : EVM) :
    run (call_result * EVM) :=
  if CallCreateDepth <? depth e then failed gas ErrDepth e
  else
    let '(can, e) := with_db (CanTransfer caller value) e in
    if negb can then failed gas ErrInsufficientBalance e
    else
      let '(snapshot, e) := with_db Snapshot e in
      match precompile addr with
      | Some p =>
          run_precompiled snapshot p input gas
            (mkAdvancedPrecompileCall addr caller caller value false) e
      | None =>
          let '(contract, e) := code_contract addr (NewContract caller caller value gas) e in
          run_contract snapshot (set_delegateOrCallcode true contract) input false e
      end.

Definition DelegateCall (originCaller caller addr : Z) (input : list Z) (gas value : Z) (e : EVM) :
    run (call_result * EVM) :=
  if CallCreateDepth <? depth e then failed gas ErrDepth e
  else
    let '(snapshot, e) := with_db Snapshot e in
    match precompile addr with
    | Some p =>
        run_precompiled snapshot p input gas
          (mkAdvancedPrecompileCall addr caller originCaller value false) e
    | None =>
        let '(contract, e) := code_contract addr (NewContract originCaller caller value gas) e in
        run_contract snapshot (set_delegateOrCallcode true contract) input false e
    end.

Definition StaticCall (caller addr : Z) (input : list Z) (gas : Z) (e : EVM) : run (call_result * EVM) :=
  if CallCreateDepth <? depth e then failed gas ErrDepth e
  else
    let '(snapshot, e) := with_db Snapshot e in
    let '(_, e) := with_db (AddBalance addr 0) e in
    match precompile addr with
    | Some p =>
        run_precompiled snapshot p input gas (mkAdvancedPrecompileCall addr addr caller 0 true) e
    | None =>
        let '(contract, e) := code_contract addr (NewContract caller addr 0 gas) e in
        run_contract snapshot contract input true e
    end.

(** ** Creation *)

Definition initNewContract (contract : Contract) (address : Z) (e : EVM) : run run_result :=
  match Run contract [] false e with
  | Done (ret, None, contract, e) =>
      let len := Z.of_nat (length ret) in
      if IsEIP158 chainRules && (MaxCodeSize chainConfig <? len) then
        Done (ret, Some ErrMaxCodeSizeExceeded, contract, e)
      else if match ret with b :: _ => b =? 0xEF | [] => false end && IsLondon chainRules
              && negb (IsArbitrum chainRules
                       && IsStylusComponentPrefix ret (ArbOSVersion chainRules))
      then Done (ret, Some ErrInvalidCode, contract, e)
      else
        let createDataGas := u64 (len * CreateDataGas) in
        let '(ok, contract) := UseMultiGas (StorageGrowthGas createDataGas) contract in
        if negb ok then Done (ret, Some ErrCodeStoreOutOfGas, contract, e)
        else
          let e := if 0 <? len then snd (with_db (SetCode address ret) e) else e in
          Done (ret, None, contract, e)
  | r => r
  end.

Definition create_failed (gas : Z) (used : MultiGas) (err : vmError) (e : EVM) :
    run (call_result * Z * EVM) :=
  Done (mkCallResult [] gas used (Some err), 0, e).

(** An address where a contract exists: non-zero nonce, code or storage. *)
Definition collision (address : Z) (s : StateDB) : bool * StateDB :=
  let '(contractHash, s) := GetCodeHash address s in
  let '(storageRoot, s) := GetStorageRoot address s in
  let '(nonce, s) := GetNonce address s in
  (negb (nonce =? 0)
   || (negb (contractHash =? 0) && negb (contractHash =? EmptyCodeHash))
   || (negb (storageRoot =? 0) && negb (storageRoot =? EmptyRootHash)), s).

(** The end of [create]. *)
Definition end_create (snapshot address : Z) (r : run_result) : run (call_result * Z * EVM) :=
  let '(ret, err, contract, e) := r in
  match err with
  | None => Done (mkCallResult ret (Gas contract) (GetTotalUsedMultiGas contract) None, address, e)
  | Some er =>
      if IsHomestead chainRules || negb (is_code_store_oog err) then
        match RevertToSnapshot snapshot (evm_StateDB e) with
        | None => Panics
        | Some db =>
            let contract :=
              match er with
              | ErrExecutionReverted => contract
              | _ => snd (UseMultiGas (ComputationGas (Gas contract)) contract)
              end in
            Done (mkCallResult ret (Gas contract) (GetTotalUsedMultiGas contract) err, address,
                  set_StateDB db e)
        end
      else Done (mkCallResult ret (Gas contract) (GetTotalUsedMultiGas contract) err, address, e)
  end.

(** The part of [create] after the snapshot. *)
Definition deploy (snapshot caller : Z) (code : list Z) (gas value address : Z) (e : EVM) :
    run (call_result * Z * EVM) :=
  let '(existing, e) := with_db (Exist address) e in
  let e := if existing then e else set_StateDB (CreateAccount address (evm_StateDB e)) e in
  match CreateContract address (evm_StateDB e) with
  | None => Panics
  | Some db =>
      let e := set_StateDB db e in
      let e := if IsEIP158 chainRules then set_StateDB (SetNonce address 1 (evm_StateDB e)) e else e in
      let e := set_StateDB (Transfer caller address value (evm_StateDB e)) e in
      let contract := set_IsDeployment true (SetCallCode 0 code (NewContract caller address value gas)) in
      match initNewContract contract address e with
      | Panics => Panics
      | NoFuel => NoFuel
      | Done r => end_create snapshot address r
      end
  end.

Definition create (caller : Z) (code : list Z) (gas value address : Z) (e : EVM) :
    run (call_result * Z * EVM) :=
  if CallCreateDepth <? depth e then create_failed gas ZeroGas ErrDepth e
  else
    let '(can, e) := with_db (CanTransfer caller value) e in
    if negb can then create_failed gas ZeroGas ErrInsufficientBalance e
    else
      let '(nonce, e) := with_db (GetNonce caller) e in
      if u64 (nonce + 1) <? nonce then create_failed gas ZeroGas ErrNonceUintOverflow e
      else
        let e := set_StateDB (SetNonce caller (u64 (nonce + 1)) (evm_StateDB e)) e in
        let e := if IsEIP2929 chainRules
                 then set_StateDB (AddAddressToAccessList address (evm_StateDB e)) e else e in
        let '(exists_, e) := with_db (collision address) e in
        if exists_ : bool then create_failed 0 (ComputationGas gas) ErrContractAddressCollision e
        else
          let '(snapshot, e) := with_db Snapshot e in
          deploy snapshot caller code gas value address e.

Definition Create (caller : Z) (code : list Z) (gas value : Z) (e : EVM) : run (call_result * Z * EVM) :=
  let '(nonce, e) := with_db (GetNonce caller) e in
  create caller code gas value (CreateAddress caller nonce) e.

Definition Create2 (caller : Z) (code : list Z) (gas endowment salt : Z) (e : EVM) :
    run (call_result * Z * EVM) :=
  let inithash := keccak256 code in
  create caller code gas endowment (CreateAddress2 caller (U256.Bytes32 salt) inithash) e.

Definition calls_of : calls := {|
  c_Call := Call;
  c_CallCode := CallCode;
  c_DelegateCall := DelegateCall;
  c_StaticCall := StaticCall;
  c_Create := Create;
  c_Create2 := Create2
|}.

End Calls.

(** ** Tying the knot *)

Fixpoint Run (fuel : nat) (contract : Contract) (input : list Z) (ro : bool) (e : EVM) :
    run run_result :=
  match fuel with
  | O => NoFuel
  | S fuel => run_with (calls_of (Run fuel)) (S fuel) contract input ro e
  end.

End Interpreter.
