(* ===== verification/FuelMono.v ===== *)
(** More fuel does not change a result: every definition of the interpreter is
    monotone in the calls it is given and in its fuel. *)

From stdpp Require Import base gmap list numbers option strings.
From S2P Require Import Prelude Params MultiGas Uint256 VmCore JumpDest AccessList State Evm VmGas.
From S2P Require Import Instructions JumpTable Interpreter.
Open Scope Z_scope.
Open Scope vm_scope.

(** [run_le x y]: [y] is [x], unless [x] ran out of fuel. *)
Definition run_le {A} (x y : run A) : Prop := x = NoFuel \/ x = y.

Lemma run_le_refl {A} (x : run A) : run_le x x.
Proof. by right. Qed.

#[global] Instance run_le_preorder A : PreOrder (@run_le A).
Proof.
  split; [exact run_le_refl|]. intros x y z [->| ->]; [by left|]. intros [->| ->]; [by left|by right].
Qed.

Lemma run_le_done {A} (x y : run A) : run_le x y -> x <> NoFuel -> y = x.
Proof. by intros [?| ->]. Qed.

Definition im_le {A} (m m' : IM A) : Prop := forall s, run_le (m s) (m' s).

Lemma im_le_refl {A} (m : IM A) : im_le m m.
Proof. intros s. apply run_le_refl. Qed.

Lemma im_bind_le {A B} (m m' : IM A) (k k' : A -> IM B) :
  im_le m m' -> (forall a, im_le (k a) (k' a)) -> im_le (im_bind m k) (im_bind m' k').
Proof.
  intros Hm Hk s. unfold im_bind. destruct (Hm s) as [->| ->]; [by left|].
  destruct (m' s) as [[[a|e] s']| |]; try apply run_le_refl. apply Hk.
Qed.

Lemma on_evm_le {A} (f g : EVM -> run (A * EVM)) : (forall e, run_le (f e) (g e)) -> im_le (on_evm f) (on_evm g).
Proof. intros H s. unfold on_evm. destruct (H (v_evm s)) as [->| ->]; [by left|apply run_le_refl]. Qed.

(** A result that is inspected. *)
Lemma run_le_case {A B} (x y : run A) (f g : A -> run B) :
  run_le x y -> (forall a, run_le (f a) (g a)) ->
  run_le (match x with Done a => f a | Panics => Panics | NoFuel => NoFuel end)
         (match y with Done a => g a | Panics => Panics | NoFuel => NoFuel end).
Proof. intros [->| ->] H; [by left|]. destruct y; [apply H|by right..]. Qed.

Record calls_le (cs cs' : calls) : Prop := {
  le_Call a b i g v e : run_le (c_Call cs a b i g v e) (c_Call cs' a b i g v e);
  le_CallCode a b i g v e : run_le (c_CallCode cs a b i g v e) (c_CallCode cs' a b i g v e);
  le_DelegateCall a b c i g v e : run_le (c_DelegateCall cs a b c i g v e) (c_DelegateCall cs' a b c i g v e);
  le_StaticCall a b i g e : run_le (c_StaticCall cs a b i g e) (c_StaticCall cs' a b i g e);
  le_Create a i g v e : run_le (c_Create cs a i g v e) (c_Create cs' a i g v e);
  le_Create2 a i g v t e : run_le (c_Create2 cs a i g v t e) (c_Create2 cs' a i g v t e)
}.

Definition exec_mono (ex : calls -> executionFunc) : Prop :=
  forall cs cs', calls_le cs cs' -> forall pc st, im_le (ex cs pc st) (ex cs' pc st).

Section Fuel.
Context {U : U256.Ops} {HS : Hasher} {R : Reader} {CH : Chain} {EN : Env} {PC : Precompiles}.

Lemma mono_plain f : exec_mono (plain f).
Proof. intros cs cs' _ pc st. apply im_le_refl. Qed.

Ltac mono_tac :=
  intros cs cs' Hle pc st;
  repeat (first [ apply im_le_refl
                | apply im_bind_le; [first [apply im_le_refl | apply on_evm_le; intros; by apply Hle]|intros ?]
                | match goal with |- im_le (let '(_, _) := ?x in _) _ => destruct x end ]; lazy zeta).

Lemma mono_opCall : exec_mono opCall.
Proof. unfold opCall. mono_tac. Qed.
Lemma mono_opCallCode : exec_mono opCallCode.
Proof. unfold opCallCode. mono_tac. Qed.
Lemma mono_opDelegateCall : exec_mono opDelegateCall.
Proof. unfold opDelegateCall. mono_tac. Qed.
Lemma mono_opStaticCall : exec_mono opStaticCall.
Proof. unfold opStaticCall. mono_tac. Qed.
Lemma mono_opCreate : exec_mono opCreate.
Proof. unfold opCreate. mono_tac. Qed.
Lemma mono_opCreate2 : exec_mono opCreate2.
Proof. unfold opCreate2. mono_tac. Qed.

(** ** The loop *)

(** The tables the interpreter uses have monotone instructions. *)
Context (table_mono : forall op, exec_mono (execute (lookup_op (select_table chainRules) op))).

Lemma step_le cs cs' pc st : calls_le cs cs' -> im_le (step cs pc st) (step cs' pc st).
Proof.
  intros Hle. unfold step. apply im_bind_le; [apply im_le_refl|intros c]. lazy zeta.
  apply im_bind_le; [apply im_le_refl|intros _]. by apply table_mono.
Qed.

Lemma loop_le cs cs' n n' pc st s :
  calls_le cs cs' -> (n <= n')%nat -> run_le (loop cs n pc st s) (loop cs' n' pc st s).
Proof.
  intros Hle. revert n' pc st s. induction n as [|n IH]; intros [|n'] pc st s Hn; simpl;
    [by left|by left|lia|].
  destruct (step_le cs cs' pc st Hle s) as [->| ->]; [by left|].
  destruct (step cs' pc st s) as [[[[pc' st'|ret err]|err] s']| |]; try apply run_le_refl.
  apply IH. lia.
Qed.

Lemma run_body_le cs cs' n n' c input e :
  calls_le cs cs' -> (n <= n')%nat -> run_le (run_body cs n c input e) (run_body cs' n' c input e).
Proof.
  intros Hle Hn. unfold run_body. destruct (Code c); [apply run_le_refl|].
  destruct (_ && _); [apply run_le_refl|]. apply run_le_case; [by apply loop_le|].
  intros [[ret err] s]. apply run_le_refl.
Qed.

Lemma run_with_le cs cs' n n' c input ro e :
  calls_le cs cs' -> (n <= n')%nat -> run_le (run_with cs n c input ro e) (run_with cs' n' c input ro e).
Proof.
  intros Hle Hn. unfold run_with. apply run_le_case; [by apply run_body_le|].
  intros [[[ret err] c'] e']. apply run_le_refl.
Qed.

(** ** The calls *)

Section Calls.
Context (Run1 Run2 : Contract -> list Z -> bool -> EVM -> run run_result).
Hypothesis run_mono : forall c input ro e, run_le (Run1 c input ro e) (Run2 c input ro e).

Lemma run_contract_le snapshot c input ro e :
  run_le (run_contract Run1 snapshot c input ro e) (run_contract Run2 snapshot c input ro e).
Proof.
  unfold run_contract. destruct (run_mono c input ro e) as [->| ->]; [by left|apply run_le_refl].
Qed.

Lemma initNewContract_le c a e : run_le (initNewContract Run1 c a e) (initNewContract Run2 c a e).
Proof.
  unfold initNewContract. destruct (run_mono c [] false e) as [->| ->]; [by left|apply run_le_refl].
Qed.

Lemma deploy_le snapshot a code g v b e :
  run_le (deploy Run1 snapshot a code g v b e) (deploy Run2 snapshot a code g v b e).
Proof.
  unfold deploy. destruct (with_db _ _). destruct (CreateContract _ _); [|apply run_le_refl]. lazy zeta.
  match goal with |- context [initNewContract Run1 ?c ?a ?e] =>
    destruct (initNewContract_le c a e) as [->| ->] end; [by left|apply run_le_refl].
Qed.

Ltac le_step :=
  match goal with
  | |- run_le ?x ?x => apply run_le_refl
  | |- run_le (run_contract _ _ _ _ _ _) _ => apply run_contract_le
  | |- run_le (deploy _ _ _ _ _ _ _ _) _ => apply deploy_le
  | |- run_le (if ?b then _ else _) _ => destruct b
  | |- run_le (match precompile ?a with _ => _ end) _ => destruct (precompile a)
  | |- run_le (let '(_, _) := (if ?b then _ else _) in _) _ => destruct b
  | |- context [with_db ?f ?e] => destruct (with_db f e) as [? ?]
  | |- context [code_contract ?a ?c ?e] => destruct (code_contract a c e) as [? ?]
  | |- run_le (match ?l with [] => _ | _ => _ end) _ => destruct l
  end.

Lemma create_le a code g v b e : run_le (create Run1 a code g v b e) (create Run2 a code g v b e).
Proof. unfold create. repeat (le_step; lazy zeta). Qed.

Lemma calls_of_le : calls_le (calls_of Run1) (calls_of Run2).
Proof.
  split; intros; cbn [calls_of c_Call c_CallCode c_DelegateCall c_StaticCall c_Create c_Create2].
  - unfold Call. repeat (le_step; lazy zeta).
  - unfold CallCode. repeat (le_step; lazy zeta).
  - unfold DelegateCall. repeat (le_step; lazy zeta).
  - unfold StaticCall. repeat (le_step; lazy zeta).
  - unfold Create. le_step. apply create_le.
  - unfold Create2. lazy zeta. apply create_le.
Qed.
End Calls.

Lemma Run_le n n' c input ro e : (n <= n')%nat -> run_le (Run n c input ro e) (Run n' c input ro e).
Proof.
  revert n' c input ro e. induction n as [|n IH]; intros [|n'] c input ro e Hn; simpl;
    [by left|by left|lia|].
  apply run_with_le; [|done]. apply calls_of_le. intros. apply IH. lia.
Qed.
End Fuel.
