(* ===== verification/GasAccounting.v ===== *)
(** Gas accounting of the virtual machine: bills, and what the gas functions charge.

    A frame of the interpreter keeps three accounts: the gas left, the multi-dimensional
    gas used, and the part of that which was only lent (gas handed to calls, and the
    access costs the call wrappers charge twice).  A [bill] is what a step adds to the
    last two, a vector of nine non-negative amounts; the operations on the accounts
    saturate, and so does [add_bill]. *)

From stdpp Require Import base gmap list numbers option strings.
From S2P Require Import Prelude Params MultiGas Uint256 VmCore JumpDest AccessList State Evm VmGas.
Open Scope Z_scope.
Open Scope vm_scope.

(** ** Bills *)

Abbreviation bill := (list Z) (only parsing).

Definition is_bill (d : bill) : Prop := length d = NumResourceKind /\ Forall (fun x => 0 <= x) d.

Definition no_bill : bill := replicate NumResourceKind 0.
Definition bill_of (k : ResourceKind) (a : Z) : bill := <[kind_index k := a]> no_bill.
Definition badd (d1 d2 : bill) : bill := zip_with Z.add d1 d2.
Definition amount (d : bill) (k : ResourceKind) : Z := default 0 (d !! kind_index k).
Definition ble (d1 d2 : bill) : Prop := forall k, amount d1 k <= amount d2 k.

Definition clamp_add (a x : Z) : Z := Z.min MaxUint64 (a + x).
Definition add_bill (z : MultiGas) (d : bill) : MultiGas :=
  mkMultiGas (zip_with clamp_add (gas z) d) (clamp_add (total z) (sumZ d)) (MultiGas.refund z).

(** A bill that a multi-gas value carries exactly. *)
Record gas_ok (g : MultiGas) : Prop := {
  go_wf : wf g;
  go_exact : exact g;
  go_refund : MultiGas.refund g = 0
}.

Lemma gas_ok_bill g : gas_ok g -> is_bill (gas g).
Proof.
  intros [[Hl Hg _ _] _ _]. split; [done|]. eapply Forall_impl; [done|]. intros x [? _]. done.
Qed.

Lemma gas_ok_single g : gas_ok g -> SingleGas g = total g.
Proof.
  intros [[_ _ Ht _] _ Hr]. unfold SingleGas. rewrite Hr, Z.sub_0_r. by apply u64_small.
Qed.

Lemma gas_ok_total g : gas_ok g -> 0 <= total g < two64 /\ total g = sumZ (gas g).
Proof. intros [[_ _ Ht _] He _]. done. Qed.

Lemma no_bill_is_bill : is_bill no_bill.
Proof. split; [done|]. by apply Forall_replicate. Qed.

Lemma bill_of_is_bill k a : 0 <= a -> is_bill (bill_of k a).
Proof.
  intros Ha. split; [unfold bill_of; by rewrite length_insert|].
  apply Forall_insert; [apply no_bill_is_bill|done].
Qed.

Lemma badd_is_bill d1 d2 : is_bill d1 -> is_bill d2 -> is_bill (badd d1 d2).
Proof.
  intros [L1 F1] [L2 F2]. split; [unfold badd; rewrite length_zip_with; lia|].
  unfold badd. clear L1 L2. revert d2 F2. induction F1; intros d2 F2; [constructor|].
  destruct F2; simpl; constructor; [lia|auto].
Qed.

Lemma sumZ_badd d1 d2 : length d1 = length d2 -> sumZ (badd d1 d2) = sumZ d1 + sumZ d2.
Proof.
  revert d2. induction d1 as [|x d1 IH]; intros [|y d2] Hl; simplify_eq/=; [done|].
  unfold sumZ, badd in *; simpl. rewrite IH by done. lia.
Qed.

Lemma sumZ_badd_bill d1 d2 : is_bill d1 -> is_bill d2 -> sumZ (badd d1 d2) = sumZ d1 + sumZ d2.
Proof. intros [L1 _] [L2 _]. apply sumZ_badd. congruence. Qed.

Lemma sumZ_bill_of k a : sumZ (bill_of k a) = a.
Proof. destruct k; unfold bill_of, sumZ; simpl; lia. Qed.

Lemma sumZ_bill_nonneg d : is_bill d -> 0 <= sumZ d.
Proof. intros [_ H]. by apply sumZ_nonneg. Qed.

Lemma amount_badd d1 d2 k : is_bill d1 -> is_bill d2 -> amount (badd d1 d2) k = amount d1 k + amount d2 k.
Proof.
  intros [L1 _] [L2 _]. unfold amount, badd. rewrite lookup_zip_with.
  destruct (lookup_lt_is_Some_2 d1 (kind_index k)) as [x ->]; [rewrite L1; apply kind_index_lt|].
  destruct (lookup_lt_is_Some_2 d2 (kind_index k)) as [y ->]; [rewrite L2; apply kind_index_lt|].
  done.
Qed.

Lemma amount_bill_of k a k' : amount (bill_of k a) k' = if decide (k = k') then a else 0.
Proof. destruct k, k'; done. Qed.

Lemma amount_nonneg d k : is_bill d -> 0 <= amount d k.
Proof.
  intros [L F]. unfold amount. destruct (d !! kind_index k) eqn:E; simpl; [|lia].
  by apply (Forall_lookup_1 _ _ _ _ F E).
Qed.

Lemma amount_le_sum d k : is_bill d -> amount d k <= sumZ d.
Proof.
  intros [L F]. unfold amount. destruct (d !! kind_index k) eqn:E; simpl.
  - by eapply sumZ_lookup_le.
  - by apply sumZ_nonneg.
Qed.

Lemma amount_no_bill k : amount no_bill k = 0.
Proof. by destruct k. Qed.

(** *** Ordering *)

Lemma ble_refl d : ble d d.
Proof. intros k. lia. Qed.

Lemma ble_no_bill d : is_bill d -> ble no_bill d.
Proof. intros H k. rewrite amount_no_bill. by apply amount_nonneg. Qed.

Lemma ble_badd d1 d2 r1 r2 : is_bill d1 -> is_bill d2 -> is_bill r1 -> is_bill r2 ->
  ble r1 d1 -> ble r2 d2 -> ble (badd r1 r2) (badd d1 d2).
Proof. intros ? ? ? ? H1 H2 k. rewrite !amount_badd by done. specialize (H1 k). specialize (H2 k). lia. Qed.

(** Two bills with the same amounts are the same. *)
Lemma bill_eq d1 d2 : is_bill d1 -> is_bill d2 -> (forall k, amount d1 k = amount d2 k) -> d1 = d2.
Proof.
  intros [L1 _] [L2 _] H.
  do 9 (destruct d1 as [|? d1]; [discriminate|]). do 9 (destruct d2 as [|? d2]; [discriminate|]).
  destruct d1, d2; try discriminate.
  pose proof (fun k => H k) as Hk. unfold amount in Hk.
  pose proof (Hk ResourceKindUnknown). pose proof (Hk ResourceKindComputation).
  pose proof (Hk ResourceKindHistoryGrowth). pose proof (Hk ResourceKindStorageAccessRead).
  pose proof (Hk ResourceKindStorageAccessWrite). pose proof (Hk ResourceKindStorageGrowth).
  pose proof (Hk ResourceKindSingleDim). pose proof (Hk ResourceKindL2Calldata).
  pose proof (Hk ResourceKindWasmComputation). simpl in *. congruence.
Qed.

(** ** The accounts and bills *)

Lemma clamp_add_assoc a x y : 0 <= y -> clamp_add (clamp_add a x) y = clamp_add a (x + y).
Proof. unfold clamp_add. lia. Qed.

Lemma add_bill_badd z d1 d2 : is_bill d1 -> is_bill d2 ->
  add_bill (add_bill z d1) d2 = add_bill z (badd d1 d2).
Proof.
  intros H1 H2. unfold add_bill; simpl. rewrite sumZ_badd_bill by done.
  rewrite clamp_add_assoc by (by apply sumZ_bill_nonneg). f_equal.
  destruct H1 as [L1 _], H2 as [L2 F2]. assert (length d1 = length d2) as L by congruence.
  clear L1 L2. generalize (gas z) as l. revert d2 L F2. unfold badd.
  induction d1 as [|x d1 IH]; intros [|y d2] L F2 [|a l]; simplify_eq/=; try done.
  inversion_clear F2. rewrite clamp_add_assoc by done. f_equal. by apply IH.
Qed.

Lemma saturatingScalarAdd_clamp a x : is_u64 a -> is_u64 x -> fst (saturatingScalarAdd a x) = clamp_add a x.
Proof. intros Ha Hx. by rewrite saturatingScalarAdd_spec. Qed.

Lemma SaturatingAddInto_bill z g : wf z -> gas_ok g -> SaturatingAddInto z g = add_bill z (gas g).
Proof.
  intros [Lz Fz Tz Rz] [[Lg Fg Tg Rg] Eg R0]. unfold SaturatingAddInto, add_bill; simpl.
  rewrite (saturatingScalarAdd_clamp (total z)), (saturatingScalarAdd_clamp (MultiGas.refund z)) by done.
  f_equal.
  - clear - Fz Fg Lz Lg. assert (length (gas z) = length (gas g)) as L by congruence. clear Lz Lg.
    revert L Fz Fg. generalize (gas z) as l1, (gas g) as l2.
    induction l1 as [|a l1 IH]; intros [|x l2] L F1 F2; simplify_eq/=; [done|].
    inversion_clear F1. inversion_clear F2. rewrite saturatingScalarAdd_clamp by done.
    f_equal. by apply IH.
  - by rewrite <- Eg.
  - rewrite R0. unfold clamp_add. unfold_u64. lia.
Qed.

Lemma SaturatingIncrementInto_bill z k a : wf z -> is_u64 a ->
  SaturatingIncrementInto z k a = add_bill z (bill_of k a).
Proof.
  intros Hz Ha. unfold SaturatingIncrementInto, add_bill; simpl.
  rewrite saturatingScalarAdd_clamp by (done || by apply wf_Get).
  rewrite saturatingScalarAdd_clamp by (done || apply Hz). rewrite sumZ_bill_of. f_equal.
  apply list_eq. intros i. rewrite lookup_zip_with. unfold bill_of.
  pose proof (wf_lookup z k Hz) as Hk. destruct Hz as [Lz Fz _ _].
  destruct (decide (i = kind_index k)) as [->|Hi].
  - rewrite !list_lookup_insert_eq by (rewrite ?Lz; apply kind_index_lt). by rewrite Hk.
  - rewrite !list_lookup_insert_ne by done. destruct (gas z !! i) as [x|] eqn:E; [|done]. simpl.
    assert (is_u64 x) as Hx by (by apply (Forall_lookup_1 _ _ _ _ Fz E)).
    assert ((i < NumResourceKind)%nat) as Hi' by (rewrite <- Lz; by eapply lookup_lt_Some).
    unfold no_bill. rewrite lookup_replicate_2 by done. simpl. f_equal.
    unfold clamp_add. unfold_u64. lia.
Qed.

Lemma add_bill_wf z d : wf z -> is_bill d -> wf (add_bill z d).
Proof.
  intros [Lz Fz Tz Rz] [Ld Fd]. split; simpl; [|..|done].
  - rewrite length_zip_with. lia.
  - clear Lz Ld. revert d Fd. induction Fz as [|a l Ha Fz IH]; intros d Fd; [constructor|].
    destruct Fd; simpl; constructor; [|by apply IH]. unfold clamp_add. unfold_u64. lia.
  - apply sumZ_nonneg in Fd. unfold clamp_add. unfold_u64. lia.
Qed.

Lemma add_no_bill z : wf z -> add_bill z no_bill = z.
Proof.
  intros Hz. change no_bill with (bill_of ResourceKindUnknown 0).
  pose proof (wf_Get z ResourceKindUnknown Hz) as HG. pose proof (wf_total z Hz) as HT.
  rewrite <- (SaturatingIncrementInto_bill z ResourceKindUnknown 0) by done.
  unfold SaturatingIncrementInto. rewrite !saturatingScalarAdd_clamp by done.
  simpl. unfold clamp_add. unfold_u64. rewrite !Z.add_0_r, !Z.min_r by lia.
  rewrite list_insert_id by (by apply (wf_lookup z ResourceKindUnknown)). by destruct z.
Qed.

(** An account that started empty and did not saturate holds the bill itself. *)
Lemma add_bill_zero d : is_bill d -> sumZ d < two64 ->
  add_bill ZeroGas d = mkMultiGas d (sumZ d) 0 /\ gas_ok (add_bill ZeroGas d).
Proof.
  intros Hd Hs. assert (add_bill ZeroGas d = mkMultiGas d (sumZ d) 0) as E.
  { assert (total (add_bill ZeroGas d) = sumZ d) as Ht.
    { pose proof (sumZ_bill_nonneg d Hd). cbn [add_bill total]. unfold clamp_add.
      change (total ZeroGas) with 0. unfold MaxUint64. lia. }
    rewrite <- Ht at 1. unfold add_bill. f_equal.
    assert (Forall (fun x => 0 <= x < two64) d) as F.
    { apply Forall_forall. intros x Hx. apply list_elem_of_lookup in Hx as [i Hi].
      destruct Hd as [_ F]. pose proof (sumZ_lookup_le d i x F Hi).
      pose proof (Forall_lookup_1 _ _ _ _ F Hi). cbv beta in *. lia. }
    destruct Hd as [Ld _]. clear - Ld F. apply list_eq. intros i. rewrite lookup_zip_with.
    destruct (d !! i) as [x|] eqn:E.
    - assert ((i < NumResourceKind)%nat) as Hi by (rewrite <- Ld; by eapply lookup_lt_Some).
      unfold ZeroGas; cbn [gas]. rewrite lookup_replicate_2 by done. simpl. f_equal. unfold clamp_add.
      pose proof (Forall_lookup_1 _ _ _ _ F E) as Hx. simpl in Hx. unfold_u64. lia.
    - by destruct (gas ZeroGas !! i). }
  split; [done|]. split; [apply add_bill_wf; [apply ZeroGas_wf|done]|by rewrite E|by rewrite E].
Qed.

(** ** What a computation yields

    [yields P m]: [m] leaves the three accounts of the contract as they are, and a
    result without error satisfies [P]. *)

Definition same_accounts (c c' : Contract) : Prop :=
  Gas c' = Gas c /\ UsedMultiGas c' = UsedMultiGas c /\ RetainedMultiGas c' = RetainedMultiGas c.

#[global] Instance same_accounts_equivalence : Equivalence same_accounts.
Proof.
  unfold same_accounts. split; [done| |].
  - intros c c' (? & ? & ?). done.
  - intros c1 c2 c3 (? & ? & ?) (? & ? & ?). split_and!; congruence.
Qed.

Definition yields {A} (P : A -> Prop) (m : VM A) : Prop :=
  forall s r s', m s = Some (r, s') ->
    same_accounts (v_contract s) (v_contract s') /\ forall a, r = Ok a -> P a.

Abbreviation quiet_vm := (yields (fun _ => True)).

Lemma yields_bind {A B} (P : A -> Prop) (Q : B -> Prop) (m : VM A) (k : A -> VM B) :
  yields P m -> (forall a, P a -> yields Q (k a)) -> yields Q (vm_bind m k).
Proof.
  intros Hm Hk s r s'. unfold vm_bind. destruct (m s) as [[[a|e] s1]|] eqn:E; [| |done].
  - intros Ek. apply Hm in E as [H1 HP]. destruct (Hk a (HP a eq_refl) _ _ _ Ek) as [H2 HQ].
    split; [by etrans|done].
  - intros [= <- <-]. apply Hm in E as [H1 _]. by split.
Qed.

Lemma yields_weaken {A} (P Q : A -> Prop) m : (forall a, P a -> Q a) -> yields P m -> yields Q m.
Proof. intros HPQ Hm s r s' E. destruct (Hm _ _ _ E). eauto. Qed.

Lemma yields_ret {A} (P : A -> Prop) a : P a -> yields P (vm_ret a).
Proof. intros HP s r s' [= <- <-]. split; [done|]. by intros ? [= <-]. Qed.

Lemma yields_throw {A} (P : A -> Prop) e : yields P (vm_throw e).
Proof. intros s r s' [= <- <-]. done. Qed.

Lemma yields_or_panic {A} (P : A -> Prop) o : (forall a, o = Some a -> P a) -> yields P (or_panic o).
Proof. intros HP s r s'. unfold or_panic. destruct o; [|done]. intros [= <- <-]. split; [done|]. intros ? [= <-]. eauto. Qed.

Lemma quiet_db_do {A} (f : StateDB -> A * StateDB) : quiet_vm (db_do f).
Proof. intros s r s'. unfold db_do. destruct (f _). by intros [= <- <-]. Qed.

Lemma quiet_db_put (f : StateDB -> StateDB) : quiet_vm (db_put f).
Proof. apply quiet_db_do. Qed.

Lemma quiet_db_try f : quiet_vm (db_try f).
Proof. intros s r s'. unfold db_try. destruct (f _); [|done]. by intros [= <- <-]. Qed.

Lemma quiet_db_get {A} (f : StateDB -> A) : quiet_vm (db_get f).
Proof. intros s r s' [= <- <-]. done. Qed.

Lemma quiet_get_evm : quiet_vm get_evm.
Proof. intros s r s' [= <- <-]. done. Qed.
Lemma quiet_put_evm e : quiet_vm (put_evm e).
Proof. intros s r s' [= <- <-]. done. Qed.
Lemma quiet_get_contract : quiet_vm get_contract.
Proof. intros s r s' [= <- <-]. done. Qed.
Lemma quiet_get_memory : quiet_vm get_memory.
Proof. intros s r s' [= <- <-]. done. Qed.
Lemma quiet_put_memory m : quiet_vm (put_memory m).
Proof. intros s r s' [= <- <-]. done. Qed.
Lemma quiet_throw_if b e : quiet_vm (throw_if b e).
Proof. destruct b; [apply yields_throw|by apply yields_ret]. Qed.
Lemma quiet_or_panic {A} (o : option A) : quiet_vm (or_panic o).
Proof. by apply yields_or_panic. Qed.

Create HintDb vm discriminated.
#[export] Hint Resolve quiet_db_do quiet_db_put quiet_db_try quiet_db_get quiet_get_evm quiet_put_evm
  quiet_get_contract quiet_get_memory quiet_put_memory quiet_throw_if quiet_or_panic yields_throw : vm.

(** Computations built of quiet ones. *)
Ltac quiet_step :=
  first
    [ solve [auto with vm nocore]
    | apply yields_ret; exact I
    | eapply (yields_bind (fun _ => True)); [|intros ? _]
    | progress cbv beta
    | match goal with |- yields _ (match ?x with _ => _ end) => destruct x end
    | match goal with |- yields _ (let '(_, _) := ?x in _) => destruct x end ].
Ltac quiet_tac := repeat quiet_step.

(** ** Gas values *)

Lemma new_gas_ok k a : is_u64 a -> gas_ok (NewMultiGas k a).
Proof. intros Ha. split; [by apply NewMultiGas_wf|by apply NewMultiGas_exact|done]. Qed.

Lemma zero_gas_ok : gas_ok ZeroGas.
Proof. by apply (new_gas_ok ResourceKindUnknown 0). Qed.

Lemma new_gas_bill k a : gas (NewMultiGas k a) = bill_of k a.
Proof. done. Qed.

(** A value with one counter increased by an amount that fits. *)
Lemma increment_ok g k a g' :
  gas_ok g -> is_u64 a -> total g + a < two64 ->
  g' = mkMultiGas (<[kind_index k := Get g k + a]> (gas g)) (total g + a) (MultiGas.refund g) ->
  gas_ok g' /\ total g' = total g + a /\ forall k', Get g' k' = Get g k' + if decide (k = k') then a else 0.
Proof.
  intros [Hwf Hex Hr] Ha Hs ->. pose proof (wf_Get g k Hwf) as HG.
  pose proof (wf_lookup g k Hwf) as Hk. pose proof (wf_total g Hwf) as HT.
  assert (sumZ (<[kind_index k := Get g k + a]> (gas g)) = total g + a) as Hsum.
  { rewrite (sumZ_insert _ _ _ _ Hk). unfold exact in Hex. lia. }
  assert (Get g k <= total g) as Hle.
  { unfold exact in Hex. rewrite Hex. eapply sumZ_lookup_le; [by apply wf_nonneg|done]. }
  split; [|split; [done|]].
  - split; [|by unfold exact; simpl|done]. apply wf_update; [done|..]; unfold_u64; lia.
  - intros k'. unfold Get; simpl. case_decide as Hkk.
    + subst k'. by rewrite list_lookup_insert_eq by (destruct Hwf as [-> _ _ _]; apply kind_index_lt).
    + rewrite list_lookup_insert_ne; [lia|]. intros E. by apply kind_index_inj in E.
Qed.

Lemma SafeIncrement_ok g k a g' :
  gas_ok g -> is_u64 a -> SafeIncrement g k a = (g', false) ->
  gas_ok g' /\ total g' = total g + a /\ forall k', Get g' k' = Get g k' + if decide (k = k') then a else 0.
Proof.
  intros Hg Ha. pose proof (go_wf g Hg) as Hwf. unfold SafeIncrement.
  rewrite !saturatingScalarAdd_spec by (done || apply Hwf || by apply wf_Get).
  destruct (Z.leb_spec two64 (Get g k + a)); [done|].
  destruct (Z.leb_spec two64 (total g + a)); [done|]. intros [= <-].
  apply (increment_ok g k a); [done|done|lia|]. unfold MaxUint64. by rewrite !Z.min_r by lia.
Qed.

Lemma SaturatingIncrement_ok g k a :
  gas_ok g -> is_u64 a -> total g + a < two64 ->
  let g' := SaturatingIncrement g k a in
  gas_ok g' /\ total g' = total g + a /\ forall k', Get g' k' = Get g k' + if decide (k = k') then a else 0.
Proof.
  intros Hg Ha Hs. pose proof (go_wf g Hg) as Hwf. apply (increment_ok g k a); [done..|].
  unfold SaturatingIncrement. rewrite !saturatingScalarAdd_spec by (done || apply Hwf || by apply wf_Get).
  assert (Get g k <= total g) as Hle.
  { pose proof (go_exact g Hg) as Hex. unfold exact in Hex. rewrite Hex.
    eapply sumZ_lookup_le; [by apply wf_nonneg|by apply wf_lookup]. }
  simpl. unfold MaxUint64. by rewrite !Z.min_r by lia.
Qed.

Lemma zip_clamp_small l1 l2 :
  Forall (fun x => 0 <= x) l1 -> Forall (fun x => 0 <= x) l2 -> sumZ l1 + sumZ l2 < two64 ->
  zip_with clamp_add l1 l2 = badd l1 l2.
Proof.
  intros F1. revert l2. induction F1 as [|a l1 Ha F1 IH]; intros l2 F2 Hs; [done|].
  destruct F2 as [|b l2 Hb F2]; [done|]. apply sumZ_nonneg in F1 as H1. apply sumZ_nonneg in F2 as H2.
  unfold sumZ, badd in *; simpl in *. rewrite IH by (done || lia). f_equal.
  unfold clamp_add, MaxUint64. lia.
Qed.

Lemma SafeAdd_ok g x g' :
  gas_ok g -> gas_ok x -> SafeAdd g x = (g', false) ->
  gas_ok g' /\ total g' = total g + total x /\ forall k, Get g' k = Get g k + Get x k.
Proof.
  intros Hg Hx E. pose proof (go_wf g Hg) as Hwf. pose proof (go_wf x Hx) as Hwx.
  assert (add_fits g x) as (Hk & Ht & _) by (apply SafeAdd_fits; [done..|by rewrite E]).
  apply SafeAdd_saturating in E as ->. pose proof (wf_total g Hwf). pose proof (wf_total x Hwx).
  assert (total (SaturatingAdd g x) = total g + total x) as Et.
  { unfold SaturatingAdd; simpl. rewrite saturatingScalarAdd_spec by done. simpl. unfold_u64. lia. }
  assert (forall k, Get (SaturatingAdd g x) k = Get g k + Get x k) as Ek.
  { intros k. rewrite SaturatingAdd_Get by done. specialize (Hk k). unfold_u64. lia. }
  split; [|done]. split.
  - by apply SaturatingAdd_wf.
  - unfold exact. rewrite Et. change (SaturatingAdd g x) with (SaturatingAddInto g x).
    rewrite SaturatingAddInto_bill by done. pose proof (go_exact g Hg) as Eg. pose proof (go_exact x Hx) as Ex.
    unfold exact in Eg, Ex. simpl. rewrite zip_clamp_small; [|by apply wf_nonneg..|lia].
    rewrite sumZ_badd by (by rewrite (wf_length g Hwf), (wf_length x Hwx)). lia.
  - unfold SaturatingAdd; simpl. by rewrite (go_refund g Hg), (go_refund x Hx).
Qed.

(** ** The gas functions *)

Definition gas_at (lo : Z) (g : MultiGas) : Prop := gas_ok g /\ lo <= total g.

(** A gas function that leaves the accounts alone and charges at least [lo]. *)
Definition pure_gas (lo : Z) (f : gasFunc) : Prop := forall st ms, yields (gas_at lo) (f st ms).

Lemma gas_at_new lo k a : is_u64 a -> lo <= a -> gas_at lo (NewMultiGas k a).
Proof. intros Ha Hlo. split; [by apply new_gas_ok|done]. Qed.

Lemma gas_at_zero : gas_at 0 ZeroGas.
Proof. split; [apply zero_gas_ok|done]. Qed.

Lemma gas_at_ok lo g : gas_at lo g -> gas_ok g.
Proof. by intros []. Qed.

Lemma gas_ok_at g : gas_ok g -> gas_at 0 g.
Proof. intros Hg. split; [done|]. pose proof (gas_ok_total g Hg). lia. Qed.

Lemma gas_at_weaken lo lo' g : gas_at lo g -> lo' <= lo -> gas_at lo' g.
Proof. intros [] ?. split; [done|lia]. Qed.

Lemma yields_safe_increment lo g k a : gas_at lo g -> is_u64 a ->
  yields (gas_at (lo + a)) (safe_increment g k a).
Proof.
  intros [Hg Hlo] Ha. unfold safe_increment. destruct (SafeIncrement g k a) as [g' []] eqn:E.
  - apply yields_throw.
  - apply yields_ret. apply SafeIncrement_ok in E as (H1 & H2 & _); [|done..]. split; [done|lia].
Qed.

Lemma yields_safe_add lo g x : gas_at lo g -> gas_ok x -> yields (gas_at lo) (safe_add g x).
Proof.
  intros [Hg Hlo] Hx. unfold safe_add. destruct (SafeAdd g x) as [g' []] eqn:E.
  - apply yields_throw.
  - apply yields_ret. apply SafeAdd_ok in E as (H1 & H2 & _); [|done..]. split; [done|].
    pose proof (gas_ok_total x Hx). lia.
Qed.

Lemma gas_at_saturating lo g k a : gas_at lo g -> is_u64 a -> total g + a < two64 ->
  gas_at (lo + a) (SaturatingIncrement g k a).
Proof.
  intros [Hg Hlo] Ha Hs. destruct (SaturatingIncrement_ok g k a Hg Ha Hs) as (H1 & H2 & _).
  split; [done|lia].
Qed.

Lemma yields_mul x y : yields is_u64 (no_overflow (GoMath.SafeMul x y)).
Proof.
  unfold no_overflow, GoMath.SafeMul, Mul64. simpl. destruct (negb _); [apply yields_throw|].
  apply yields_ret, u64_range.
Qed.

Lemma yields_add x y : is_u64 x -> is_u64 y ->
  yields (fun z => is_u64 z /\ z = x + y) (no_overflow (GoMath.SafeAdd x y)).
Proof.
  intros Hx Hy. unfold no_overflow. rewrite GoMath.SafeAdd_spec by done.
  destruct (Z.ltb_spec (x + y) two64); simpl; [|apply yields_throw].
  apply yields_ret. rewrite u64_small; go_lia.
Qed.

Lemma quiet_no_overflow r : quiet_vm (no_overflow r).
Proof. unfold no_overflow. destruct (snd r); [apply yields_throw|by apply yields_ret]. Qed.
Lemma quiet_vm_result {A} (r : result vmError A) : quiet_vm (vm_result r).
Proof. destruct r; [by apply yields_ret|apply yields_throw]. Qed.
Lemma quiet_back st n : quiet_vm (back st n).
Proof. apply quiet_or_panic. Qed.
Lemma quiet_slot_present {HS : Hasher} {R : Reader} a k : quiet_vm (slot_present a k).
Proof. unfold slot_present. quiet_tac. Qed.
Lemma quiet_add_slot {HS : Hasher} {R : Reader} a k : quiet_vm (add_slot a k).
Proof. apply quiet_db_try. Qed.
Lemma quiet_address_present {HS : Hasher} {R : Reader} a : quiet_vm (address_present a).
Proof. apply quiet_db_get. Qed.
Lemma quiet_add_address {HS : Hasher} {R : Reader} a : quiet_vm (add_address a).
Proof. apply quiet_db_put. Qed.
#[export] Hint Resolve quiet_no_overflow quiet_vm_result quiet_back quiet_slot_present quiet_add_slot
  quiet_address_present quiet_add_address : vm.

Lemma yields_memoryGasCost n : yields (gas_at 0) (memoryGasCost n).
Proof.
  unfold memoryGasCost. destruct (n =? 0); [apply yields_ret, gas_at_zero|].
  destruct (_ <? n); [apply yields_throw|].
  eapply (yields_bind (fun _ => True)); [auto with vm|intros mem _].
  destruct (_ <? _); [|apply yields_ret, gas_at_zero].
  eapply (yields_bind (fun _ => True)); [auto with vm|intros _ _].
  apply yields_ret, gas_at_new; [apply u64_range|]. apply u64_range.
Qed.

(** One step through a gas function: constants by computation, the rest by the lemmas
    above. *)
Ltac const_range := first [by vm_compute | by (vm_compute; split; congruence)
                           | by (vm_compute; intuition congruence)].
Ltac gas_value :=
  first
    [ assumption
    | eapply gas_at_weaken; [eassumption|lia]
    | apply gas_at_new; const_range
    | eapply gas_at_weaken; [apply gas_at_zero|const_range] ].

Ltac bind_gas P := eapply (yields_bind P).
Ltac gas_step :=
  first
    [ apply yields_throw
    | apply yields_ret; gas_value
    | bind_gas (gas_at 0); [apply yields_memoryGasCost|intros ? ?]
    | bind_gas (fun _ : Z => True); [solve [auto with vm nocore]|intros ? _]
    | bind_gas (fun _ : unit => True); [solve [auto with vm nocore | quiet_tac]|intros ? _]
    | eapply (yields_bind (fun _ => True)); [solve [auto with vm nocore]|intros ? _]
    | match goal with |- yields _ (match ?x with _ => _ end) => destruct x end
    | match goal with |- yields _ (if ?x then _ else _) => destruct x end ].
Ltac gas_tac := repeat gas_step.

Section GasFunctions.
Context {U : U256.Ops} {L : U256.Laws U} {HS : Hasher} {R : Reader} {CH : Chain}.

Lemma pure_memory : pure_gas 0 pureMemoryGascost.
Proof. intros st ms. apply yields_memoryGasCost. Qed.

Lemma pure_memoryCopierGas n : pure_gas 0 (memoryCopierGas n).
Proof.
  intros st ms. unfold memoryCopierGas. gas_step. do 2 gas_step.
  eapply yields_bind; [apply yields_mul|intros w Hw].
  eapply yields_weaken; [|by apply yields_safe_increment]. intros g Hg.
  eapply gas_at_weaken; [done|]. destruct Hw. lia.
Qed.

Lemma pure_gasSStore : pure_gas 1 gasSStore.
Proof. intros st ms. unfold gasSStore. gas_tac. Qed.

Lemma pure_gasSStoreEIP2200 : pure_gas 1 gasSStoreEIP2200.
Proof. intros st ms. unfold gasSStoreEIP2200. gas_tac. Qed.

Lemma pure_makeGasSStoreFunc c : pure_gas 1 (makeGasSStoreFunc c).
Proof.
  intros st ms. unfold makeGasSStoreFunc. do 4 gas_step.
  eapply (yields_bind (fun _ => True)); [auto with vm|intros [cur orig] _].
  eapply (yields_bind (fun _ => True)); [auto with vm|intros [ap sp] _].
  eapply (yields_bind (fun g => gas_at 0 g /\ total g <= ColdSloadCostEIP2929)).
  { destruct sp; cbn [negb]; [apply yields_ret; split; [apply gas_at_zero|const_range]|].
    bind_gas (fun _ : unit => True); [auto with vm|intros _ _]. apply yields_ret.
    split; [|const_range].
    apply (gas_at_new 0 ResourceKindStorageAccessRead ColdSloadCostEIP2929); const_range. }
  intros g [Hg Ht].
  assert (forall k x, 0 <= x <= 20000 -> 1 <= x -> gas_at 1 (SaturatingIncrement g k x)) as Hs.
  { intros k x Ha H1. eapply gas_at_weaken; [apply (gas_at_saturating 0); [done|..]|lia].
    - unfold is_u64. lia.
    - change ColdSloadCostEIP2929 with 2100 in Ht. lia. }
  repeat first [apply yields_ret; apply Hs; const_range | gas_step].
Qed.

Lemma pure_makeGasLog n : pure_gas 1 (makeGasLog n).
Proof.
  intros st ms. unfold makeGasLog. do 3 gas_step.
  eapply yields_bind; [by apply yields_safe_increment|intros g1 Hg1].
  eapply yields_bind; [apply yields_mul|intros w1 Hw1].
  eapply yields_bind; [apply yields_mul|intros w2 Hw2].
  eapply yields_bind; [by apply yields_safe_increment|intros g2 Hg2].
  eapply yields_bind; [by apply yields_safe_increment|intros g3 Hg3].
  eapply yields_bind; [apply yields_mul|intros w3 Hw3].
  eapply yields_weaken; [|by apply yields_safe_increment]. intros g Hg.
  eapply gas_at_weaken; [done|]. destruct Hw1, Hw2, Hw3. change LogGas with 375. lia.
Qed.

Lemma pure_gas_hash_words n : pure_gas 0 (gas_hash_words n).
Proof.
  intros st ms. unfold gas_hash_words. do 3 gas_step.
  eapply yields_bind; [apply yields_mul|intros w Hw].
  eapply yields_weaken; [|by apply yields_safe_increment]. intros g Hg.
  eapply gas_at_weaken; [done|]. destruct Hw. lia.
Qed.

Lemma pure_gas_initcode n : pure_gas 0 (gas_initcode n).
Proof.
  intros st ms. unfold gas_initcode. do 4 gas_step.
  eapply yields_weaken; [|apply yields_safe_increment; [done|apply u64_range]]. intros g Hg.
  eapply gas_at_weaken; [done|]. apply u64_range.
Qed.

Lemma pure_gas_exp n : pure_gas 10 (gas_exp n).
Proof.
  intros st ms. unfold gas_exp. gas_step.
  eapply yields_bind; [apply yields_add; [apply u64_range|const_range]|].
  intros w [Hw ->]. apply yields_ret. apply gas_at_new; [done|].
  match goal with |- _ <= u64 ?x + _ => pose proof (u64_range x) as [? _] end.
  change ExpGas with 10. lia.
Qed.

Lemma pure_gasSelfdestruct : pure_gas 0 gasSelfdestruct.
Proof.
  intros st ms. unfold gasSelfdestruct. gas_step.
  eapply (yields_bind (gas_at 0)).
  - destruct (IsEIP150 chainRules); [|gas_step]. gas_step.
    assert (gas_at 0 (SaturatingIncrement ZeroGas ResourceKindStorageAccessWrite SelfdestructGasEIP150)) as H1
      by (split; [apply (SaturatingIncrement_ok ZeroGas); [apply zero_gas_ok|const_range..]|const_range]).
    assert (gas_at 0 (SaturatingIncrement (SaturatingIncrement ZeroGas ResourceKindStorageAccessWrite
      SelfdestructGasEIP150) ResourceKindStorageGrowth CreateBySelfdestructGas)) as H2
      by (split; [apply SaturatingIncrement_ok; [apply H1|const_range..]|const_range]).
    repeat first [apply yields_ret; destruct (negb _); assumption | gas_step].
  - intros g Hg. gas_tac.
Qed.

Lemma pure_gasSLoadEIP2929 : pure_gas 1 gasSLoadEIP2929.
Proof.
  intros st ms. unfold gasSLoadEIP2929. do 2 gas_step.
  eapply (yields_bind (fun _ => True)); [auto with vm|intros [ap sp] _].
  destruct sp; cbn [negb]; [gas_step|]. gas_step.
  apply yields_or_panic. intros g Hg. vm_compute in Hg. injection Hg as <-.
  split; [|by simpl]. split; [|done..].
  split; [done| |unfold is_u64; simpl; lia..]. simpl. repeat constructor; unfold is_u64; lia.
Qed.

Lemma pure_gasExtCodeCopyEIP2929 : pure_gas 0 gasExtCodeCopyEIP2929.
Proof.
  intros st ms. unfold gasExtCodeCopyEIP2929.
  eapply yields_bind; [apply pure_memoryCopierGas|intros g Hg]. do 2 gas_step.
  destruct (negb _); [|gas_step]. gas_step.
  eapply yields_weaken; [|apply yields_safe_increment; [done|const_range]]. intros g' Hg'.
  eapply gas_at_weaken; [done|const_range].
Qed.

Lemma pure_gasEip2929AccountCheck : pure_gas 0 gasEip2929AccountCheck.
Proof. intros st ms. unfold gasEip2929AccountCheck. gas_tac. Qed.

Lemma pure_makeSelfdestructGasFn b : pure_gas 0 (makeSelfdestructGasFn b).
Proof.
  intros st ms. unfold makeSelfdestructGasFn. do 3 gas_step.
  eapply (yields_bind (fun g => gas_at 0 g /\ total g <= ColdAccountAccessCostEIP2929)).
  { destruct (negb _); [|apply yields_ret; split; [apply gas_at_zero|const_range]].
    gas_step. apply yields_ret. split; [|const_range].
    split; [|const_range]. apply (SaturatingIncrement_ok ZeroGas); [apply zero_gas_ok|const_range..]. }
  intros g [Hg Ht]. eapply (yields_bind (fun _ => True)); [auto with vm|intros empty _].
  eapply (yields_bind (gas_at 0)).
  - destruct empty; [|gas_step]. gas_step. apply yields_ret. destruct (negb _); [|done].
    eapply gas_at_weaken; [apply (gas_at_saturating 0); [done|const_range|]|const_range].
    change ColdAccountAccessCostEIP2929 with 2600 in Ht. change CreateBySelfdestructGas with 25000. lia.
  - intros g' Hg'. eapply (yields_bind (fun _ => True)); [quiet_tac|intros _ _]. gas_step.
Qed.

End GasFunctions.
