(* ===== verification/CallGas.v ===== *)
(** What the gas functions of the call instructions charge and promise.

    The EIP-2929 and EIP-7702 wrappers charge the cold access, compute the gas to
    forward, and give the charge back to have the interpreter charge it again: the gas
    account is restored, and the bill goes to both the used and the retained account. *)

From stdpp Require Import base gmap list numbers option strings.
From S2P Require Import Prelude Params MultiGas Uint256 VmCore JumpDest AccessList State Evm VmGas.
From S2P Require Import GasAccounting.
Open Scope Z_scope.
Open Scope vm_scope.

(** ** Movements between the accounts *)

Record contract_wf (c : Contract) : Prop := {
  cw_gas : is_u64 (Gas c);
  cw_used : wf (UsedMultiGas c);
  cw_retained : wf (RetainedMultiGas c)
}.

Record moves (c c' : Contract) (d r : list Z) : Prop := {
  mv_bill : is_bill d;
  mv_rbill : is_bill r;
  mv_used : UsedMultiGas c' = add_bill (UsedMultiGas c) d;
  mv_retained : RetainedMultiGas c' = add_bill (RetainedMultiGas c) r;
  mv_gas : Gas c' = Gas c - sumZ d + sumZ r
}.

Lemma sumZ_no_bill : sumZ no_bill = 0.
Proof. done. Qed.

Lemma moves_same c c' : contract_wf c -> same_accounts c c' -> moves c c' no_bill no_bill.
Proof.
  intros [Hg Hu Hr] (E1 & E2 & E3). split; try apply no_bill_is_bill.
  - by rewrite add_no_bill.
  - by rewrite add_no_bill.
  - rewrite sumZ_no_bill. lia.
Qed.

Lemma moves_trans c1 c2 c3 d1 r1 d2 r2 :
  moves c1 c2 d1 r1 -> moves c2 c3 d2 r2 -> moves c1 c3 (badd d1 d2) (badd r1 r2).
Proof.
  intros [D1 R1 U1 T1 G1] [D2 R2 U2 T2 G2]. split; try by apply badd_is_bill.
  - by rewrite U2, U1, add_bill_badd.
  - by rewrite T2, T1, add_bill_badd.
  - rewrite !sumZ_badd_bill by done. lia.
Qed.

Lemma badd_no_bill_l d : is_bill d -> badd no_bill d = d.
Proof.
  intros Hd. apply bill_eq; [by apply badd_is_bill; [apply no_bill_is_bill|]|done|].
  intros k. rewrite amount_badd, amount_no_bill by (done || apply no_bill_is_bill). lia.
Qed.

Lemma badd_no_bill_r d : is_bill d -> badd d no_bill = d.
Proof.
  intros Hd. apply bill_eq; [by apply badd_is_bill; [|apply no_bill_is_bill]|done|].
  intros k. rewrite amount_badd, amount_no_bill by (done || apply no_bill_is_bill). lia.
Qed.

(** A step between contracts with the same accounts. *)
Lemma moves_same_l c c1 c2 d r : same_accounts c c1 -> moves c1 c2 d r -> moves c c2 d r.
Proof. intros (E1 & E2 & E3) []. split; congruence. Qed.

Lemma moves_same_r c c1 c2 d r : moves c c1 d r -> same_accounts c1 c2 -> moves c c2 d r.
Proof. intros [] (E1 & E2 & E3). split; congruence. Qed.

Lemma moves_wf c c' d r : contract_wf c -> moves c c' d r -> 0 <= Gas c' <= Gas c -> contract_wf c'.
Proof.
  intros [Hg Hu Hr] [D1 R1 U1 T1 G1] Hb. split.
  - unfold is_u64 in *. lia.
  - rewrite U1. by apply add_bill_wf.
  - rewrite T1. by apply add_bill_wf.
Qed.

Lemma same_accounts_wf c c' : contract_wf c -> same_accounts c c' -> contract_wf c'.
Proof. intros [] (E1 & E2 & E3). split; congruence. Qed.

(** Charging a gas value. *)
Lemma UseMultiGas_moves g c : contract_wf c -> gas_ok g ->
  if Gas c <? total g then UseMultiGas g c = (false, c)
  else exists c', UseMultiGas g c = (true, c') /\ moves c c' (gas g) no_bill
         /\ contract_wf c' /\ code_part c' = code_part c /\ Gas c' = Gas c - total g.
Proof.
  intros Hc Hg. pose proof (gas_ok_single g Hg) as Hs. pose proof (gas_ok_total g Hg) as [Ht He].
  unfold UseMultiGas, useGas. rewrite Hs. destruct (Z.ltb_spec (Gas c) (total g)) as [Hl|Hl]; [done|].
  eexists. split; [reflexivity|].
  assert (moves c (set_UsedMultiGas (SaturatingAddInto (UsedMultiGas (set_Gas (Gas c - total g) c)) g)
    (set_Gas (Gas c - total g) c)) (gas g) no_bill) as Hm.
  { split; cbn [set_UsedMultiGas set_Gas UsedMultiGas RetainedMultiGas Gas].
    - by apply gas_ok_bill.
    - apply no_bill_is_bill.
    - apply SaturatingAddInto_bill; [apply Hc|done].
    - by rewrite add_no_bill by apply Hc.
    - rewrite sumZ_no_bill. lia. }
  split; [done|]. split; [|done]. eapply moves_wf; [done|done|]. simpl. lia.
Qed.

(** Crediting gas back and retaining the same. *)
Lemma retain_moves c c' x :
  contract_wf c -> is_bill x -> Gas c + sumZ x < two64 ->
  Gas c' = u64 (Gas c + sumZ x) -> UsedMultiGas c' = UsedMultiGas c ->
  RetainedMultiGas c' = add_bill (RetainedMultiGas c) x -> moves c c' no_bill x.
Proof.
  intros [Hg Hu Hr] Hx Hs Eg Eu Er. pose proof (sumZ_bill_nonneg x Hx). split; try done.
  - apply no_bill_is_bill.
  - by rewrite add_no_bill by congruence.
  - rewrite Eg, sumZ_no_bill, u64_small by (unfold is_u64 in *; lia). lia.
Qed.

Lemma badd_comm d1 d2 : badd d1 d2 = badd d2 d1.
Proof. unfold badd. apply zip_with_flip || (revert d2; induction d1; intros []; simpl; f_equal; auto with lia). Qed.

Section CallGas.
Context {U : U256.Ops} {L : U256.Laws U} {HS : Hasher} {R : Reader} {CH : Chain}.

(** ** The gas functions of the calls before the wrappers *)

Lemma callGas_range b avail base cost g : callGas b avail base cost = Ok g -> is_u64 g.
Proof.
  unfold callGas. set (a := u64 (avail - base)). pose proof (u64_range (avail - base)) as Ha.
  fold a in Ha. destruct (_ && _).
  - intros [= <-]. go_lia.
  - destruct (negb _); [done|]. intros [= <-]. apply U256.Uint64_range.
Qed.

Lemma forward_gas_spec stack g s r s' :
  gas_ok g -> forward_gas stack g s = Some (r, s') ->
  same_accounts (v_contract s) (v_contract s')
  /\ forall g', r = Ok g' ->
     gas_ok g' /\ is_u64 (callGasTemp (v_evm s'))
     /\ Get g' ResourceKindComputation = Get g ResourceKindComputation + callGasTemp (v_evm s')
     /\ total g' = total g + callGasTemp (v_evm s')
     /\ exists req, Stack.Back stack 0 = Some req
          /\ callGas (IsEIP150 chainRules) (Gas (v_contract s)) (SingleGas g) req
             = Ok (callGasTemp (v_evm s')).
Proof.
  intros Hg. unfold forward_gas, vm_bind, get_contract, back, or_panic, get_evm, put_evm, vm_result.
  destruct (Stack.Back stack 0) as [req|]; [|done].
  destruct (callGas _ _ _ _) as [t|e] eqn:Et; [|by intros [= <- <-]].
  unfold vm_ret. pose proof (callGas_range _ _ _ _ _ Et) as Ht. unfold safe_increment.
  destruct (SafeIncrement g _ _) as [g1 []] eqn:E; [by intros [= <- <-]|].
  intros [= <- <-]. split; [done|]. intros g' [= <-].
  apply SafeIncrement_ok in E as (H1 & H2 & H3); [|done..].
  split; [done|]. split; [done|]. split; [by rewrite H3, decide_True|]. split; [done|].
  exists req. done.
Qed.

(** The gas a call with value must leave for the callee. *)
Definition stipend (st : Stack.t) : Z :=
  match (st : list Z) !! 2%nat with
  | Some v => if negb (U256.IsZero v) then CallStipend else 0
  | None => 0
  end.
Definition no_stipend (_ : Stack.t) : Z := 0.

(** What the gas function of a call does to the accounts [c] and the gas to forward. *)
Definition call_result_ok (stip : Z) (c c' : Contract) (temp : Z) (r : result vmError MultiGas) : Prop :=
  match r with
  | Ok g => exists d, moves c c' d d /\ sumZ d <= Gas c /\ gas_ok g /\ is_u64 temp
              /\ temp + stip <= Get g ResourceKindComputation
  | Err _ => exists d r, moves c c' d r /\ ble r d /\ sumZ r <= Gas c /\ 0 <= Gas c' <= Gas c
  end.

Lemma err_same stip c c' t e : contract_wf c -> same_accounts c c' -> call_result_ok stip c c' t (Err e).
Proof.
  intros Hc Hs. exists no_bill, no_bill. pose proof (cw_gas _ Hc) as [? _].
  split; [by apply moves_same|]. split; [apply ble_refl|]. destruct Hs as (-> & _).
  rewrite sumZ_no_bill. lia.
Qed.

Definition call_cost (stip : Stack.t -> Z) (f : gasFunc) : Prop :=
  forall st ms s r s', contract_wf (v_contract s) -> f st ms s = Some (r, s') ->
    call_result_ok (stip st) (v_contract s) (v_contract s') (callGasTemp (v_evm s')) r.

Lemma forward_cost stip stack g s0 s r s' :
  contract_wf (v_contract s0) -> same_accounts (v_contract s0) (v_contract s) -> gas_ok g ->
  stip <= Get g ResourceKindComputation ->
  forward_gas stack g s = Some (r, s') ->
  call_result_ok stip (v_contract s0) (v_contract s') (callGasTemp (v_evm s')) r.
Proof.
  intros Hc H0 Hg Hs E. apply forward_gas_spec in E as [H1 HP]; [|done].
  assert (same_accounts (v_contract s0) (v_contract s')) as H2 by (by etrans).
  pose proof (moves_same _ _ Hc H2) as Hm. destruct r as [g'|e]; simpl.
  - destruct (HP g' eq_refl) as (Hg' & Ht & Hk & _). exists no_bill. split; [done|].
    rewrite sumZ_no_bill. destruct Hc as [[? ?] _ _]. split; [done|]. split; [done|]. split; [done|]. lia.
  - by apply (err_same stip _ _ (callGasTemp (v_evm s')) e).
Qed.

(** A prefix that leaves the accounts alone. *)
Lemma yields_then {A} (P : A -> Prop) (m : VM A) (k : A -> VM MultiGas) stip s0 s r s' :
  contract_wf (v_contract s0) -> same_accounts (v_contract s0) (v_contract s) ->
  yields P m -> vm_bind m k s = Some (r, s') ->
  (forall a s1, P a -> same_accounts (v_contract s0) (v_contract s1) -> k a s1 = Some (r, s') ->
     call_result_ok stip (v_contract s0) (v_contract s') (callGasTemp (v_evm s')) r) ->
  call_result_ok stip (v_contract s0) (v_contract s') (callGasTemp (v_evm s')) r.
Proof.
  intros Hc H0 Hm E Hk. unfold vm_bind in E. destruct (m s) as [[[a|e] s1]|] eqn:Em; [| |done].
  - destruct (Hm _ _ _ Em) as [H1 HP]. eapply Hk; [by apply HP| |done]. by etrans.
  - injection E as <- <-. destruct (Hm _ _ _ Em) as [H1 _]. apply err_same; [done|]. by etrans.
Qed.

Lemma transfer_cost_ok g : gas_ok g -> total g <= CallNewAccountGas ->
  let g' := SaturatingIncrement g ResourceKindComputation CallValueTransferGas in
  gas_ok g' /\ CallStipend <= Get g' ResourceKindComputation.
Proof.
  intros Hg Ht g'. change CallNewAccountGas with 25000 in Ht.
  destruct (SaturatingIncrement_ok g ResourceKindComputation CallValueTransferGas Hg) as (H1 & _ & H3).
  - const_range.
  - change CallValueTransferGas with 9000. lia.
  - split; [done|]. unfold g'. rewrite H3, decide_True by done.
    pose proof (wf_Get g ResourceKindComputation (go_wf g Hg)) as [? _].
    change CallStipend with 2300. change CallValueTransferGas with 9000. lia.
Qed.

Lemma new_account_ok : let g := SaturatingIncrement ZeroGas ResourceKindStorageGrowth CallNewAccountGas in
  gas_ok g /\ total g <= CallNewAccountGas.
Proof.
  destruct (SaturatingIncrement_ok ZeroGas ResourceKindStorageGrowth CallNewAccountGas) as (H1 & H2 & _);
    [apply zero_gas_ok|const_range..|]. split; [done|]. rewrite H2. const_range.
Qed.

Lemma safe_add_keeps g m stip : gas_ok g -> gas_at 0 m -> stip <= Get g ResourceKindComputation ->
  yields (fun g' => gas_ok g' /\ stip <= Get g' ResourceKindComputation) (safe_add g m).
Proof.
  intros Hg [Hm _] Hs. unfold safe_add. destruct (SafeAdd g m) as [g' []] eqn:E; [apply yields_throw|].
  apply yields_ret. apply SafeAdd_ok in E as (H1 & _ & H3); [|done..]. split; [done|]. rewrite H3.
  pose proof (wf_Get m ResourceKindComputation (go_wf m Hm)) as [? _]. lia.
Qed.

Context (no_verkle : IsEIP4762 chainRules = false).

Lemma stipend_at st v : Stack.Back st 2 = Some v ->
  stipend st = if negb (U256.IsZero v) then CallStipend else 0.
Proof. unfold stipend, Stack.Back. by intros ->. Qed.

(** The gas before the memory cost, with the stipend provided for. *)
Lemma value_cost_ok g st v :
  gas_ok g -> total g <= CallNewAccountGas -> Stack.Back st 2 = Some v ->
  let g' := if negb (U256.IsZero v) then SaturatingIncrement g ResourceKindComputation CallValueTransferGas
            else g in
  gas_ok g' /\ stipend st <= Get g' ResourceKindComputation.
Proof.
  intros Hg Ht Hv. rewrite (stipend_at _ _ Hv). destruct (negb _); [by apply transfer_cost_ok|].
  split; [done|]. apply (wf_Get g ResourceKindComputation (go_wf g Hg)).
Qed.

Definition new_account (g : MultiGas) : Prop := gas_ok g /\ total g <= CallNewAccountGas.

Lemma new_account_gas (b : bool) :
  new_account (if b then SaturatingIncrement ZeroGas ResourceKindStorageGrowth CallNewAccountGas else ZeroGas).
Proof. destruct b; [apply new_account_ok|]. split; [apply zero_gas_ok|const_range]. Qed.

Lemma gasCall_cost : call_cost stipend gasCall.
Proof.
  intros st ms s r s' Hc E. assert (same_accounts (v_contract s) (v_contract s)) as H0 by done.
  unfold gasCall in E.
  eapply (yields_then (fun v => Stack.Back st 2 = Some v)); [done..| |exact E|].
  { apply yields_or_panic. by intros ? ->. }
  clear E. intros v s1 Hv S1 E.
  eapply (yields_then (fun _ => True)); [done|exact S1|apply quiet_back|exact E|].
  clear E. intros a s2 _ S2 E.
  eapply (yields_then new_account); [done|exact S2| |exact E|].
  { destruct (IsEIP158 chainRules).
    - destruct (negb _); [|apply yields_ret, (new_account_gas false)].
      eapply (yields_bind (fun _ => True)); [auto with vm|intros e _]. apply yields_ret, new_account_gas.
    - eapply (yields_bind (fun _ => True)); [auto with vm|intros e _]. apply yields_ret, new_account_gas. }
  clear E. intros g s3 [Hg Ht] S3 E.
  eapply (yields_then (gas_at 0)); [done|exact S3|apply yields_memoryGasCost|exact E|].
  clear E. intros m s4 Hm S4 E. rewrite no_verkle, andb_true_r in E.
  destruct (value_cost_ok g st v Hg Ht Hv) as [Hg2 Hs2].
  eapply (yields_then _ (safe_add _ _)); [done|exact S4|by apply safe_add_keeps|exact E|].
  clear E. intros g2 s5 [Hg3 Hs3] S5 E. by eapply forward_cost.
Qed.

Lemma gasCallCode_cost : call_cost stipend gasCallCode.
Proof.
  intros st ms s r s' Hc E. assert (same_accounts (v_contract s) (v_contract s)) as H0 by done.
  unfold gasCallCode in E.
  eapply (yields_then (gas_at 0)); [done..|apply yields_memoryGasCost|exact E|].
  clear E. intros m s1 Hm S1 E.
  eapply (yields_then (fun v => Stack.Back st 2 = Some v)); [done|exact S1| |exact E|].
  { apply yields_or_panic. by intros ? ->. }
  clear E. intros v s2 Hv S2 E. rewrite no_verkle, andb_true_r, U256.Sign_IsZero in E.
  destruct (value_cost_ok ZeroGas st v zero_gas_ok ltac:(const_range) Hv) as [Hg2 Hs2].
  eapply (yields_then _ (safe_add _ _)); [done|exact S2|by apply safe_add_keeps|exact E|].
  clear E. intros g2 s3 [Hg3 Hs3] S3 E. by eapply forward_cost.
Qed.

Lemma gasDelegateCall_cost : call_cost no_stipend gasDelegateCall.
Proof.
  intros st ms s r s' Hc E. assert (same_accounts (v_contract s) (v_contract s)) as H0 by done.
  unfold gasDelegateCall in E.
  eapply (yields_then (gas_at 0)); [done..|apply yields_memoryGasCost|exact E|].
  clear E. intros m s1 [Hm _] S1 E. eapply forward_cost; [done..| |exact E].
  apply (wf_Get m ResourceKindComputation (go_wf m Hm)).
Qed.

Lemma gasStaticCall_cost : call_cost no_stipend gasStaticCall.
Proof. exact gasDelegateCall_cost. Qed.

(** ** The wrappers *)

(** The contract after charges [d0] that are to be given back. *)
Record charged_before (c0 c : Contract) (d0 : list Z) : Prop := {
  cb_start : contract_wf c0;
  cb_moves : moves c0 c d0 no_bill;
  cb_wf : contract_wf c
}.

Lemma err_before stip c0 c d0 t e : charged_before c0 c d0 -> call_result_ok stip c0 c t (Err e).
Proof.
  intros [H0 Hm Hc]. exists d0, no_bill. pose proof (cw_gas _ Hc) as [? _]. pose proof (cw_gas _ H0) as [? _].
  pose proof (mv_gas _ _ _ _ Hm) as Hg. pose proof (sumZ_bill_nonneg d0 (mv_bill _ _ _ _ Hm)).
  rewrite sumZ_no_bill in *. split; [done|]. split; [apply ble_no_bill, Hm|]. lia.
Qed.

Lemma before_then {A} (P : A -> Prop) (m : VM A) (k : A -> VM MultiGas) stip c0 d0 s r s' :
  charged_before c0 (v_contract s) d0 -> yields P m -> vm_bind m k s = Some (r, s') ->
  (forall a s1, P a -> charged_before c0 (v_contract s1) d0 -> k a s1 = Some (r, s') ->
     call_result_ok stip c0 (v_contract s') (callGasTemp (v_evm s')) r) ->
  call_result_ok stip c0 (v_contract s') (callGasTemp (v_evm s')) r.
Proof.
  intros [H0 Hm0 Hc] Hm E Hk. unfold vm_bind in E.
  assert (forall s1, same_accounts (v_contract s) (v_contract s1) ->
    charged_before c0 (v_contract s1) d0) as Hs
    by (intros s1 H1; split; [done|by eapply moves_same_r|by eapply same_accounts_wf]).
  destruct (m s) as [[[a|e] s1]|] eqn:Em; [| |done].
  - destruct (Hm _ _ _ Em) as [H1 HP]. eapply Hk; [by apply HP|by apply Hs|done].
  - injection E as <- <-. destruct (Hm _ _ _ Em) as [H1 _]. by eapply err_before, Hs.
Qed.

Lemma before_charge g (k : unit -> VM MultiGas) stip c0 d0 s r s' :
  charged_before c0 (v_contract s) d0 -> gas_ok g -> vm_bind (use_multi_gas g) k s = Some (r, s') ->
  (forall s1, charged_before c0 (v_contract s1) (badd d0 (gas g)) -> k tt s1 = Some (r, s') ->
     call_result_ok stip c0 (v_contract s') (callGasTemp (v_evm s')) r) ->
  call_result_ok stip c0 (v_contract s') (callGasTemp (v_evm s')) r.
Proof.
  intros [H0 Hm0 Hc] Hg E Hk. pose proof (UseMultiGas_moves g _ Hc Hg) as Hu.
  unfold use_multi_gas, vm_bind, get_contract in E.
  destruct (Z.ltb_spec (Gas (v_contract s)) (total g)).
  - rewrite Hu in E. simpl in E. injection E as <- <-. by eapply err_before.
  - destruct Hu as (c' & Hu & Hm & Hc' & _). rewrite Hu in E. simpl in E.
    eapply Hk; [|exact E]. split; [done| |done]. simpl.
    rewrite <- (badd_no_bill_l no_bill no_bill_is_bill). by eapply moves_trans.
Qed.

Lemma before_old stip old st ms (k : MultiGas -> VM MultiGas) c0 d0 s r s' :
  charged_before c0 (v_contract s) d0 -> call_cost stip old ->
  vm_bind (old st ms) k s = Some (r, s') ->
  (forall g s1 d, moves c0 (v_contract s1) (badd d0 d) d -> contract_wf (v_contract s1) ->
     is_bill d0 -> is_bill d -> sumZ d0 + sumZ d <= Gas c0 -> Gas (v_contract s1) = Gas c0 - sumZ d0 ->
     gas_ok g -> is_u64 (callGasTemp (v_evm s1)) ->
     callGasTemp (v_evm s1) + stip st <= Get g ResourceKindComputation -> k g s1 = Some (r, s') ->
     call_result_ok (stip st) c0 (v_contract s') (callGasTemp (v_evm s')) r) ->
  call_result_ok (stip st) c0 (v_contract s') (callGasTemp (v_evm s')) r.
Proof.
  intros [H0 Hm0 Hc] Hold E Hk. unfold vm_bind in E.
  destruct (old st ms s) as [[res s1]|] eqn:Eo; [|done].
  pose proof (Hold _ _ _ _ _ Hc Eo) as Hres.
  pose proof (mv_gas _ _ _ _ Hm0) as G0. rewrite sumZ_no_bill in G0.
  pose proof (sumZ_bill_nonneg d0 (mv_bill _ _ _ _ Hm0)) as Hd0.
  destruct res as [g|e]; simpl in Hres.
  - destruct Hres as (d & Hm & Hs & Hg & Ht & Hst).
    pose proof (moves_trans _ _ _ _ _ _ _ Hm0 Hm) as Hm2.
    rewrite (badd_no_bill_l d) in Hm2 by apply Hm. pose proof (mv_gas _ _ _ _ Hm) as G1.
    eapply (Hk g s1 d); try done; try apply Hm0; try apply Hm; try lia.
    eapply moves_wf; [exact Hc|exact Hm|]. pose proof (cw_gas _ Hc) as Hu. unfold is_u64 in Hu. lia.
  - injection E as <- <-. destruct Hres as (d & x & Hm & Hle & Hs & Hg). exists (badd d0 d), x.
    pose proof (moves_trans _ _ _ _ _ _ _ Hm0 Hm) as Hm2. rewrite (badd_no_bill_l x) in Hm2 by apply Hm.
    split; [done|]. split; [|lia]. rewrite <- (badd_no_bill_l x) by apply Hm.
    apply ble_badd; try apply Hm0; try apply Hm; try done. apply ble_no_bill, Hm0.
Qed.

Lemma before_start c : contract_wf c -> charged_before c c no_bill.
Proof. intros Hc. split; [done|by apply moves_same|done]. Qed.

(** Giving the charges back. *)
Lemma give_back c0 c c' d0 d :
  contract_wf c0 -> moves c0 c (badd d0 d) d -> contract_wf c -> is_bill d0 -> is_bill d ->
  sumZ d0 + sumZ d <= Gas c0 -> Gas c = Gas c0 - sumZ d0 ->
  Gas c' = u64 (Gas c + sumZ d0) -> UsedMultiGas c' = UsedMultiGas c ->
  RetainedMultiGas c' = add_bill (RetainedMultiGas c) d0 ->
  moves c0 c' (badd d0 d) (badd d0 d) /\ sumZ (badd d0 d) <= Gas c0.
Proof.
  intros H0 Hm Hc Hd0 Hd Hs Hg Eg Eu Er. pose proof (cw_gas _ H0) as [? ?].
  assert (moves c c' no_bill d0) as Hm2 by (apply retain_moves; try done; lia).
  pose proof (moves_trans _ _ _ _ _ _ _ Hm Hm2) as Hm3.
  rewrite badd_no_bill_r in Hm3 by (by apply badd_is_bill). rewrite (badd_comm d d0) in Hm3.
  split; [done|]. by rewrite sumZ_badd_bill.
Qed.

Definition cold_cost : Z := ColdAccountAccessCostEIP2929 - WarmStorageReadCostEIP2929.

Lemma vm_bind_assoc {A B C} (m : VM A) (k : A -> VM B) (h : B -> VM C) s :
  vm_bind (vm_bind m k) h s = vm_bind m (fun a => vm_bind (k a) h) s.
Proof. unfold vm_bind. by destruct (m s) as [[[]]|]. Qed.

(** The final increment of a wrapper keeps what the call needs. *)
Lemma add_read_cost g a s r s' x :
  gas_ok g -> is_u64 a -> x <= Get g ResourceKindComputation ->
  safe_increment g ResourceKindStorageAccessRead a s = Some (r, s') ->
  s' = s /\ forall g', r = Ok g' -> gas_ok g' /\ x <= Get g' ResourceKindComputation.
Proof.
  intros Hg Ha Hs. unfold safe_increment. destruct (SafeIncrement _ _ _) as [g1 []] eqn:E.
  - by intros [= <- <-].
  - intros [= <- <-]. split; [done|]. intros g' [= <-].
    apply SafeIncrement_ok in E as (H1 & _ & H3); [|done..]. split; [done|]. rewrite H3. simpl. lia.
Qed.

Lemma add_gas_cost m g s r s' x :
  gas_ok m -> gas_ok g -> x <= Get g ResourceKindComputation ->
  safe_add m g s = Some (r, s') ->
  s' = s /\ forall g', r = Ok g' -> gas_ok g' /\ x <= Get g' ResourceKindComputation.
Proof.
  intros Hm Hg Hs. unfold safe_add. destruct (SafeAdd _ _) as [g1 []] eqn:E.
  - by intros [= <- <-].
  - intros [= <- <-]. split; [done|]. intros g' [= <-].
    apply SafeAdd_ok in E as (H1 & _ & H3); [|done..]. split; [done|]. rewrite H3.
    pose proof (wf_Get m ResourceKindComputation (go_wf m Hm)) as [? _]. lia.
Qed.

(** The result of a wrapper, once everything charged was given back. *)
Lemma wrapper_result stip c0 c temp (r : result vmError MultiGas) D :
  moves c0 c D D -> contract_wf c0 -> sumZ D <= Gas c0 -> is_u64 temp ->
  (forall g, r = Ok g -> gas_ok g /\ temp + stip <= Get g ResourceKindComputation) ->
  call_result_ok stip c0 c temp r.
Proof.
  intros Hm Hc Hs Ht Hok. destruct r as [g|e]; simpl.
  - destruct (Hok g eq_refl). by exists D.
  - exists D, D. pose proof (mv_gas _ _ _ _ Hm). pose proof (cw_gas _ Hc) as [? _].
    split; [done|]. split; [apply ble_refl|]. lia.
Qed.

Lemma call_cost_2929 stip old pos : call_cost stip old -> call_cost stip (makeCallVariantGasCallEIP2929 old pos).
Proof.
  intros Hold st ms s r s' Hc E. unfold makeCallVariantGasCallEIP2929 in E.
  eapply (before_then (fun _ => True)); [by apply before_start|apply quiet_back|exact E|].
  clear E. intros a s1 _ B1 E.
  eapply (before_then (fun _ => True)); [exact B1|apply quiet_address_present|exact E|].
  clear E. intros warm s2 _ B2 E. destruct warm; cbn [negb] in E.
  - eapply (before_then (fun _ => True)); [exact B2|by apply yields_ret|exact E|].
    clear E. intros [] s3 _ B3 E. eapply before_old; [exact B3|exact Hold|exact E|].
    clear E. intros g s4 d Hm Hc4 Hd0 Hd Hs Hg Hok Ht Hst E. injection E as <- <-.
    rewrite badd_no_bill_l in Hm by done. rewrite sumZ_no_bill in Hs. by exists d.
  - fold cold_cost in E. cbv beta in E. rewrite vm_bind_assoc in E.
    eapply (before_then (fun _ => True)); [exact B2|apply quiet_add_address|exact E|].
    clear E. intros [] s3 _ B3 E.
    eapply (before_charge (StorageAccessReadGas cold_cost));
      [exact B3|apply new_gas_ok; const_range|exact E|].
    clear E. intros s4 B4 E. eapply before_old; [exact B4|exact Hold|exact E|].
    clear E. intros g s5 d Hm Hc5 Hd0 Hd Hs Hg Hok Ht Hst E.
    change (gas (StorageAccessReadGas cold_cost)) with (bill_of ResourceKindStorageAccessRead cold_cost) in *.
    rewrite badd_no_bill_l in * by (apply bill_of_is_bill; const_range). rewrite sumZ_bill_of in *.
    unfold vm_bind, get_contract, put_contract in E. simpl in E.
    eapply add_read_cost in E as [-> HP]; [|done|const_range|exact Hst].
    destruct (give_back (v_contract s) (v_contract s5)
      (set_RetainedMultiGas (SaturatingIncrementInto (RetainedMultiGas (v_contract s5))
         ResourceKindStorageAccessRead cold_cost) (set_Gas (u64 (Gas (v_contract s5) + cold_cost)) (v_contract s5)))
      (bill_of ResourceKindStorageAccessRead cold_cost) d) as [Hm2 Hs2]; try done; try (by rewrite sumZ_bill_of).
    + by apply SaturatingIncrementInto_bill; [apply Hc5|const_range].
    + by eapply wrapper_result.
Qed.

(** What the EIP-7702 wrapper accumulates is what it charged. *)
Record accumulated (m : MultiGas) (d0 : list Z) (bound : Z) : Prop := {
  ac_ok : gas_ok m;
  ac_gas : gas m = d0;
  ac_bound : total m <= bound
}.

Lemma accumulated_zero : accumulated ZeroGas no_bill 0.
Proof. split; [apply zero_gas_ok|done|const_range]. Qed.

Lemma accumulated_add m d0 n a :
  accumulated m d0 n -> 0 <= a <= ColdAccountAccessCostEIP2929 -> n <= ColdAccountAccessCostEIP2929 ->
  accumulated (SaturatingIncrement m ResourceKindStorageAccessRead a)
    (badd d0 (gas (StorageAccessReadGas a))) (n + a).
Proof.
  change ColdAccountAccessCostEIP2929 with 2600. intros [Hm Hg Hb] Ha Hn.
  destruct (SaturatingIncrement_ok m ResourceKindStorageAccessRead a Hm) as (H1 & H2 & H3);
    [unfold is_u64; lia|lia|]. pose proof (gas_ok_bill _ Hm) as Hbm. rewrite Hg in Hbm.
  assert (is_bill (gas (StorageAccessReadGas a))) as Hba by (apply bill_of_is_bill; lia).
  split; [done| |lia]. apply bill_eq; [by apply gas_ok_bill|by apply badd_is_bill|].
  intros k. rewrite amount_badd by done.
  change (gas (StorageAccessReadGas a)) with (bill_of ResourceKindStorageAccessRead a).
  rewrite amount_bill_of. change (amount (gas ?g) k) with (Get g k). rewrite H3, <- Hg. done.
Qed.

Lemma tail_7702 stip old st ms m d0 n c0 s r s' :
  contract_wf c0 -> charged_before c0 (v_contract s) d0 -> accumulated m d0 n -> call_cost stip old ->
  vm_bind (old st ms) (fun multiOld =>
    let* c := get_contract in
    let c := set_Gas (u64 (Gas c + SingleGas m)) c in
    put_contract (set_RetainedMultiGas (SaturatingAddInto (RetainedMultiGas c) m) c) ;;*
    safe_add m multiOld) s = Some (r, s') ->
  call_result_ok (stip st) c0 (v_contract s') (callGasTemp (v_evm s')) r.
Proof.
  intros H0 B [Hm Hg _] Hold E. eapply before_old; [exact B|exact Hold|exact E|].
  clear E. intros g s5 d Hmv Hc5 Hd0 Hd Hs Hgas Hok Ht Hst E.
  unfold vm_bind, get_contract, put_contract in E. rewrite (gas_ok_single m Hm) in E. simpl in E.
  eapply add_gas_cost in E as [-> HP]; [|done|done|exact Hst].
  pose proof (gas_ok_total m Hm) as [_ Htot]. rewrite Hg in Htot.
  destruct (give_back c0 (v_contract s5)
    (set_RetainedMultiGas (SaturatingAddInto (RetainedMultiGas (v_contract s5)) m)
      (set_Gas (u64 (Gas (v_contract s5) + total m)) (v_contract s5))) d0 d)
    as [Hm2 Hs2]; try done; try (by rewrite <- Htot).
  - cbn [set_RetainedMultiGas RetainedMultiGas]. rewrite <- Hg. apply SaturatingAddInto_bill; [apply Hc5|done].
  - by eapply wrapper_result.
Qed.

Lemma call_cost_7702 stip old : call_cost stip old -> call_cost stip (makeCallVariantGasCallEIP7702 old).
Proof.
  intros Hold st ms s r s' Hc E. unfold makeCallVariantGasCallEIP7702 in E.
  eapply (before_then (fun _ => True)); [by apply before_start|apply quiet_back|exact E|].
  clear E. intros a s1 _ B1 E.
  eapply (before_then (fun _ => True)); [exact B1|apply quiet_address_present|exact E|].
  clear E. intros present s2 _ B2 E.
  (* from the code of the callee on *)
  assert (forall m d0 n s3, charged_before (v_contract s) (v_contract s3) d0 -> accumulated m d0 n ->
    n <= ColdAccountAccessCostEIP2929 ->
    vm_bind (db_do (GetCode (U256.Bytes20 a))) (fun code =>
      let* multiGas :=
        match ParseDelegation code with
        | Some target =>
            let* warm := address_present target in
            let* cost :=
              (if warm : bool then vm_ret WarmStorageReadCostEIP2929
               else add_address target ;;* vm_ret ColdAccountAccessCostEIP2929) in
            use_multi_gas (StorageAccessReadGas cost) ;;*
            vm_ret (SaturatingIncrement m ResourceKindStorageAccessRead cost)
        | None => vm_ret m
        end in
      let* multiOld := old st ms in
      let* c := get_contract in
      let c := set_Gas (u64 (Gas c + SingleGas multiGas)) c in
      put_contract (set_RetainedMultiGas (SaturatingAddInto (RetainedMultiGas c) multiGas) c) ;;*
      safe_add multiGas multiOld) s3 = Some (r, s') ->
    call_result_ok (stip st) (v_contract s) (v_contract s') (callGasTemp (v_evm s')) r) as Hrest.
  { intros m d0 n s3 B3 Hacc Hn E3.
    eapply (before_then (fun _ => True)); [exact B3|apply quiet_db_do|exact E3|].
    clear E3. intros code s4 _ B4 E3. cbv beta in E3. destruct (ParseDelegation code) as [target|].
    - rewrite vm_bind_assoc in E3.
      eapply (before_then (fun _ => True)); [exact B4|apply quiet_address_present|exact E3|].
      clear E3. intros warm s5 _ B5 E3. cbv beta in E3. rewrite vm_bind_assoc in E3.
      eapply (before_then (fun cost => 0 <= cost <= ColdAccountAccessCostEIP2929)); [exact B5| |exact E3|].
      { destruct warm; [apply yields_ret; const_range|].
        eapply (yields_bind (fun _ => True)); [apply quiet_add_address|intros _ _].
        apply yields_ret. const_range. }
      clear E3. intros cost s6 Hcost B6 E3. cbv beta in E3. rewrite vm_bind_assoc in E3.
      eapply (before_charge (StorageAccessReadGas cost)); [exact B6| |exact E3|].
      { apply new_gas_ok. change ColdAccountAccessCostEIP2929 with 2600 in Hcost. unfold is_u64. lia. }
      clear E3. intros s7 B7 E3. eapply tail_7702; [done|exact B7|by apply accumulated_add|done|exact E3].
    - eapply tail_7702; [done|exact B4|done|done|exact E3]. }
  cbv beta in E. destruct present; cbn [negb] in E.
  - eapply Hrest; [exact B2|apply accumulated_zero|const_range|exact E].
  - rewrite vm_bind_assoc in E.
    eapply (before_then (fun _ => True)); [exact B2|apply quiet_add_address|exact E|].
    clear E. intros [] s3 _ B3 E. cbv beta in E. rewrite vm_bind_assoc in E. fold cold_cost in E.
    eapply (before_charge (StorageAccessReadGas cold_cost)); [exact B3|apply new_gas_ok; const_range|exact E|].
    clear E. intros s4 B4 E.
    eapply (Hrest _ _ (0 + cold_cost)); [exact B4| |const_range|exact E].
    apply accumulated_add; [apply accumulated_zero|const_range..].
Qed.
End CallGas.
