(* ===== verification/GasConservation.v ===== *)
(** Gas conservation and termination of the interpreter.

    For every contract, input and state: with as much fuel as gas, [Run] does not run
    out of fuel, and the multi-dimensional gas it reports adds up exactly to the gas it
    consumed.  The proof classifies the entries of the jump tables (what their gas
    function charges, what their instruction does to the accounts), shows that a step
    moves gas between the accounts without creating or losing any, and follows the loop
    and the calls. *)

From stdpp Require Import base gmap list numbers option strings fin_maps.
From S2P Require Import Prelude Params MultiGas Uint256 VmCore JumpDest AccessList State Evm VmGas.
From S2P Require Import Instructions JumpTable Interpreter GasAccounting CallGas.
Open Scope Z_scope.
Open Scope vm_scope.

(** ** Computations that charge *)

(** [charges_bill Q m]: [m] adds a bill to the used account and takes its sum from the
    gas; a result without error and the bill satisfy [Q]. *)
Definition charges_bill {A} (Q : A -> list Z -> Prop) (m : VM A) : Prop :=
  forall s r s', contract_wf (v_contract s) -> m s = Some (r, s') ->
    exists d, moves (v_contract s) (v_contract s') d no_bill /\ 0 <= Gas (v_contract s')
      /\ forall a, r = Ok a -> Q a d.

Lemma charged_wf c c' d : contract_wf c -> moves c c' d no_bill -> 0 <= Gas c' -> contract_wf c'.
Proof.
  intros Hc Hm H0. eapply moves_wf; [done|done|]. pose proof (mv_gas _ _ _ _ Hm) as Hg.
  rewrite sumZ_no_bill in Hg. pose proof (sumZ_bill_nonneg d (mv_bill _ _ _ _ Hm)). lia.
Qed.

Lemma charges_bind {A B} (Q1 : A -> list Z -> Prop) (Q : B -> list Z -> Prop) (m : VM A) (k : A -> VM B) :
  charges_bill Q1 m ->
  (forall a d1, is_bill d1 -> Q1 a d1 -> charges_bill (fun b d2 => Q b (badd d1 d2)) (k a)) ->
  charges_bill Q (vm_bind m k).
Proof.
  intros Hm Hk s r s' Hc E. unfold vm_bind in E. destruct (m s) as [[[a|e] s1]|] eqn:Em; [| |done];
    destruct (Hm _ _ _ Hc Em) as (d1 & M1 & G1 & HQ).
  - pose proof (charged_wf _ _ _ Hc M1 G1) as Hc1.
    destruct (Hk a d1 (mv_bill _ _ _ _ M1) (HQ a eq_refl) _ _ _ Hc1 E) as (d2 & M2 & G2 & HQ2).
    exists (badd d1 d2). split; [|done]. rewrite <- (badd_no_bill_l no_bill no_bill_is_bill).
    by eapply moves_trans.
  - injection E as <- <-. exists d1. done.
Qed.

Lemma charges_yields {A} (P : A -> Prop) (m : VM A) :
  yields P m -> charges_bill (fun a d => P a /\ d = no_bill) m.
Proof.
  intros Hm s r s' Hc E. destruct (Hm _ _ _ E) as [Hs HP]. exists no_bill.
  split; [by apply moves_same|]. split; [|eauto]. destruct Hs as (-> & _). apply (cw_gas _ Hc).
Qed.

Lemma charges_weaken {A} (Q Q' : A -> list Z -> Prop) m :
  (forall a d, is_bill d -> Q a d -> Q' a d) -> charges_bill Q m -> charges_bill Q' m.
Proof.
  intros HQ Hm s r s' Hc E. destruct (Hm _ _ _ Hc E) as (d & M & G & H). exists d.
  split; [done|]. split; [done|]. intros a Ha. apply HQ; [apply M|by apply H].
Qed.

(** Deducting a cost and recording it. *)
Lemma charges_deduct (x : Z) (f : MultiGas -> MultiGas) d :
  is_bill d -> sumZ d = x -> (forall z, wf z -> f z = add_bill z d) ->
  charges_bill (fun _ d' => d' = d)
    (deduct x ;;* (let* c := get_contract in put_contract (set_UsedMultiGas (f (UsedMultiGas c)) c))).
Proof.
  intros Hd Hx Hf s r s' Hc. unfold deduct, vm_bind, get_contract, put_contract, vm_throw.
  destruct (Z.ltb_spec (Gas (v_contract s)) x) as [Hl|Hl].
  - intros [= <- <-]. exists no_bill. split; [by apply moves_same|].
    split; [apply (cw_gas _ Hc)|done].
  - intros [= <- <-]. exists d. cbn [v_contract]. split; [|split; [simpl; lia|done]]. split; simpl.
    + done.
    + apply no_bill_is_bill.
    + apply Hf, Hc.
    + by rewrite add_no_bill by apply Hc.
    + rewrite Z.add_0_r. lia.
Qed.

(** The constant cost: SELFDESTRUCT splits it between two resources. *)
Definition constant_bill (cost op : Z) : list Z :=
  if (op =? SELFDESTRUCT) && (cost =? SelfdestructGasEIP150)
  then badd (bill_of ResourceKindComputation WarmStorageReadCostEIP2929)
         (bill_of ResourceKindStorageAccessWrite (cost - WarmStorageReadCostEIP2929))
  else bill_of ResourceKindComputation cost.

Lemma constant_bill_ok cost op : is_u64 cost ->
  is_bill (constant_bill cost op) /\ sumZ (constant_bill cost op) = cost
  /\ forall z, wf z -> addConstantMultiGas z cost op = add_bill z (constant_bill cost op).
Proof.
  intros Hc. unfold constant_bill, addConstantMultiGas.
  destruct ((op =? SELFDESTRUCT) && (cost =? SelfdestructGasEIP150)) eqn:E.
  - apply andb_true_iff in E as [_ E%Z.eqb_eq]. rewrite E. clear.
    set (x := WarmStorageReadCostEIP2929). set (y := SelfdestructGasEIP150 - x).
    assert (is_u64 x /\ is_u64 y /\ x + y = SelfdestructGasEIP150) as (Hx & Hy & Hxy)
      by (unfold is_u64; vm_compute; intuition congruence).
    clearbody x y.
    pose proof (bill_of_is_bill ResourceKindComputation x (proj1 Hx)) as B1.
    pose proof (bill_of_is_bill ResourceKindStorageAccessWrite y (proj1 Hy)) as B2.
    split; [by apply badd_is_bill|]. split; [by rewrite sumZ_badd_bill, !sumZ_bill_of|].
    intros z Hz. rewrite (SaturatingIncrementInto_bill z) by done.
    rewrite SaturatingIncrementInto_bill by (done || by apply add_bill_wf).
    by rewrite add_bill_badd.
  - split; [apply bill_of_is_bill, Hc|]. split; [apply sumZ_bill_of|].
    intros z Hz. by apply SaturatingIncrementInto_bill.
Qed.

Section Quiet.
Context {U : U256.Ops} {L : U256.Laws U} {HS : Hasher} {R : Reader} {CH : Chain} {EN : Env}
  {PC : Precompiles}.

Lemma charges_constant o op : is_u64 (constantGas o) ->
  charges_bill (fun _ d => d = constant_bill (constantGas o) op) (charge_constant o op).
Proof.
  intros Hc. destruct (constant_bill_ok (constantGas o) op Hc) as (H1 & H2 & H3).
  exact (charges_deduct _ (fun z => addConstantMultiGas z (constantGas o) op) _ H1 H2 H3).
Qed.

Lemma quiet_check_stack o st : quiet_vm (check_stack o st).
Proof. unfold check_stack. quiet_tac. Qed.

Lemma quiet_memory_size o st : quiet_vm (memory_size o st).
Proof. unfold memory_size. quiet_tac. Qed.

Lemma quiet_resize_memory n : quiet_vm (resize_memory n).
Proof. unfold resize_memory. quiet_tac. Qed.

Lemma yields_wrap_oog {A} (P : A -> Prop) m : yields P m -> yields P (wrap_oog m).
Proof.
  intros Hm s r s'. unfold wrap_oog. destruct (m s) as [[[a|e] s1]|] eqn:E; [| |done];
    intros [= <- <-]; destruct (Hm _ _ _ E); by split.
Qed.

(** ** Entries whose gas function leaves the accounts alone *)

Definition dynamic_ok (lo : Z) (f : option gasFunc) : Prop :=
  0 <= lo /\ match f with None => lo = 0 | Some f => pure_gas lo f end.

Lemma charges_dynamic lo o st : dynamic_ok lo (dynamicGas o) ->
  charges_bill (fun _ d => lo <= sumZ d) (charge_dynamic o st).
Proof.
  intros [Hlo Hf]. unfold charge_dynamic. destruct (dynamicGas o) as [f|].
  - eapply charges_bind; [by apply charges_yields, quiet_memory_size|].
    intros size d1 _ [_ ->].
    eapply charges_bind; [apply charges_yields, yields_wrap_oog, Hf|].
    intros g d2 _ [[Hg Hl] ->].
    assert (charges_bill (fun (_ : Z) d => d = gas g)
      (deduct (SingleGas g) ;;* (let* c := get_contract in put_contract (add_used g c) ;;* vm_ret size))) as Hd.
    { pose proof (gas_ok_total g Hg) as [_ He].
      pose proof (charges_deduct (SingleGas g) (fun z => SaturatingAddInto z g) (gas g) (gas_ok_bill g Hg)
        ltac:(by rewrite gas_ok_single) (fun z Hz => SaturatingAddInto_bill z g Hz Hg)) as Hcd.
      intros s r s' Hc E. unfold deduct, vm_bind, get_contract, put_contract, vm_throw, vm_ret in *.
      specialize (Hcd s). cbn [v_contract] in *.
      destruct (Gas (v_contract s) <? SingleGas g) eqn:Eg.
      - injection E as <- <-. destruct (Hcd _ _ Hc eq_refl) as (d & ? & ? & ?). by exists d.
      - injection E as <- <-. destruct (Hcd _ _ Hc eq_refl) as (d & ? & ? & HQ).
        exists d. split; [done|]. split; [done|]. intros _ _. by apply (HQ tt). }
    eapply charges_weaken; [|exact Hd]. intros _ d Hb ->.
    rewrite !badd_no_bill_l by (done || apply no_bill_is_bill || (rewrite badd_no_bill_l; done)).
    pose proof (gas_ok_total g Hg) as [_ <-]. done.
  - eapply charges_weaken; [|apply charges_yields; by apply yields_ret].
    intros _ d _ [_ ->]. by rewrite Hf.
Qed.

Lemma charges_prepare lo o op st : is_u64 (constantGas o) -> dynamic_ok lo (dynamicGas o) ->
  charges_bill (fun _ d => constantGas o + lo <= sumZ d) (prepare_op o op st).
Proof.
  intros Hc Hd. unfold prepare_op.
  eapply charges_bind; [apply charges_yields, quiet_check_stack|]. intros _ d0 _ [_ ->].
  eapply charges_bind; [by apply charges_constant|]. intros _ d1 Hb1 ->.
  eapply charges_bind; [by apply charges_dynamic|]. intros size d2 Hb2 H2.
  eapply charges_weaken; [|apply charges_yields, quiet_resize_memory].
  intros _ d Hb [_ ->]. destruct (constant_bill_ok (constantGas o) op Hc) as (_ & Hs & _).
  rewrite (badd_no_bill_r d2), (badd_no_bill_l (badd _ d2)) by (done || by apply badd_is_bill).
  rewrite sumZ_badd_bill by done. cbv beta in *. lia.
Qed.

(** ** Instructions that leave the accounts alone *)

Definition is_halt (o : outcome) : Prop := match o with Halt _ _ => True | Next _ _ => False end.

Definition quiet_exec (P : outcome -> Prop) (f : executionFunc) : Prop :=
  forall pc st, exists m, f pc st = lift m /\ yields P m.

Lemma quiet_pop st : quiet_vm (pop st).
Proof. apply quiet_or_panic. Qed.
Lemma quiet_peek st : quiet_vm (peek st).
Proof. apply quiet_or_panic. Qed.
Lemma quiet_next pc st : quiet_vm (next pc st).
Proof. by apply yields_ret. Qed.
Lemma quiet_put_top pc v st : quiet_vm (put_top pc v st).
Proof. unfold put_top. eapply (yields_bind (fun _ => True)); [apply quiet_or_panic|intros; apply quiet_next]. Qed.
Lemma quiet_memory_set o n v : quiet_vm (memory_set o n v).
Proof. unfold memory_set. quiet_tac. Qed.
Lemma quiet_hook {A} (f : EVM -> A * EVM) : quiet_vm (hook f).
Proof. unfold hook. quiet_tac. Qed.
Lemma quiet_hook_err {A} (f : EVM -> result vmError A * EVM) : quiet_vm (hook_err f).
Proof. unfold hook_err. eapply (yields_bind (fun _ => True)); [apply quiet_hook|intros; apply quiet_vm_result]. Qed.
Lemma quiet_write_protection : quiet_vm write_protection.
Proof. unfold write_protection. quiet_tac. Qed.
Lemma quiet_valid_jump pos : quiet_vm (valid_jump pos).
Proof.
  intros s r s'. unfold valid_jump, vm_bind, get_contract, get_evm, or_panic, put_contract, put_evm, vm_ret.
  destruct (validJumpdest _ _ _) as [[[ok part] dests]|]; [|done]. by intros [= <- <-].
Qed.
Lemma quiet_pop_topics n st : quiet_vm (pop_topics n st).
Proof.
  revert st. induction n as [|n IH]; intros st; simpl; [by apply yields_ret|].
  eapply (yields_bind (fun _ => True)); [apply quiet_pop|intros [x st'] _].
  eapply (yields_bind (fun _ => True)); [apply IH|intros [ts st2] _]. by apply yields_ret.
Qed.
Lemma quiet_put_returnData v : quiet_vm (put_returnData v).
Proof. unfold put_returnData. quiet_tac. Qed.
Lemma halt_yields ret e : yields is_halt (halt ret e).
Proof. by apply yields_ret. Qed.
Lemma quiet_copy_from m pc st : quiet_vm m -> quiet_vm (copy_from m pc st).
Proof.
  intros Hm. unfold copy_from. do 3 (eapply (yields_bind (fun _ => True)); [apply quiet_pop|intros [? ?] _]).
  eapply (yields_bind (fun _ => True)); [exact Hm|intros ? _].
  eapply (yields_bind (fun _ => True)); [apply quiet_or_panic|intros ? _].
  eapply (yields_bind (fun _ => True)); [apply quiet_memory_set|intros ? _]. apply quiet_next.
Qed.

End Quiet.

Create HintDb exec discriminated.
#[export] Hint Resolve quiet_db_do quiet_db_put quiet_db_try quiet_db_get quiet_get_evm quiet_put_evm
  quiet_get_contract quiet_get_memory quiet_put_memory quiet_throw_if quiet_or_panic yields_throw
  quiet_pop quiet_peek quiet_next quiet_put_top quiet_memory_set quiet_hook quiet_hook_err
  quiet_write_protection quiet_valid_jump quiet_pop_topics quiet_put_returnData halt_yields : exec.

Ltac exec_step :=
  first
    [ solve [auto with exec nocore]
    | apply yields_ret; exact I
    | apply quiet_copy_from
    | eapply (yields_bind (fun _ => True)); [|intros ? _]
    | match goal with
      | |- yields _ (match ?x with _ => _ end) => destruct x
      | |- yields _ (if ?x then _ else _) => destruct x
      end
    | progress lazy zeta ].
Ltac exec_tac := intros pc st; eexists; (split; [reflexivity|]); solve [repeat exec_step].

Section Conservation.
Context {U : U256.Ops} {L : U256.Laws U} {HS : Hasher} {R : Reader} {CH : Chain} {EN : Env}
  {PC : Precompiles}.

Lemma quiet_binop f : quiet_exec (fun _ => True) (binop f).
Proof. exec_tac. Qed.
Lemma quiet_unop f : quiet_exec (fun _ => True) (unop f).
Proof. exec_tac. Qed.
Lemma quiet_triop f : quiet_exec (fun _ => True) (triop f).
Proof. exec_tac. Qed.
Lemma quiet_push_word v : quiet_exec (fun _ => True) (push_word v).
Proof. exec_tac. Qed.
Lemma quiet_opJump : quiet_exec (fun _ => True) opJump.
Proof. exec_tac. Qed.
Lemma quiet_opJumpi : quiet_exec (fun _ => True) opJumpi.
Proof. exec_tac. Qed.
Lemma quiet_opBlobBaseFee : quiet_exec (fun _ => True) opBlobBaseFee.
Proof.
  intros pc st. unfold opBlobBaseFee. destruct (IsArbitrum chainRules).
  - eexists. split; [reflexivity|]. apply yields_throw.
  - apply quiet_push_word.
Qed.
Lemma quiet_makeLog n : quiet_exec (fun _ => True) (makeLog n).
Proof. exec_tac. Qed.

Lemma halt_opReturn : quiet_exec is_halt opReturn.
Proof. exec_tac. Qed.
Lemma halt_opRevert : quiet_exec is_halt opRevert.
Proof. exec_tac. Qed.
Lemma halt_opUndefined : quiet_exec is_halt opUndefined.
Proof. exec_tac. Qed.
Lemma halt_opStop : quiet_exec is_halt opStop.
Proof. exec_tac. Qed.
Lemma halt_opSelfdestruct : quiet_exec is_halt opSelfdestruct.
Proof. exec_tac. Qed.
Lemma halt_opSelfdestruct6780 : quiet_exec is_halt opSelfdestruct6780.
Proof. exec_tac. Qed.

(** ** Steps *)

(** The bound on the gas of a run, under which no account saturates. *)
Definition gas_limit : Z := 2147483648.

Definition run_post {A} (P : A -> Prop) (x : run A) : Prop :=
  match x with Done a => P a | Panics => True | NoFuel => False end.

(** A step bills [d] and retains [r] of it. *)
Definition stepped (c c' : Contract) (progress : Z) : Prop :=
  exists d r, moves c c' d r /\ ble r d /\ sumZ r <= 2 * Gas c
    /\ 0 <= Gas c' /\ Gas c' + progress <= Gas c.

Definition progress_of (r : result vmError outcome) : Z :=
  match r with Ok (Next _ _) => 1 | _ => 0 end.

(** The result of a call that was given [gas]. *)
Record result_ok (gas : Z) (r : call_result) : Prop := {
  ro_left : 0 <= leftOverGas r;
  ro_used : gas_ok (usedMultiGas r);
  ro_sum : total (usedMultiGas r) + leftOverGas r = gas
}.

Record calls_ok (cs : calls) (N : Z) : Prop := {
  ok_Call a b i gas v e : 0 <= gas < N -> run_post (fun x => result_ok gas x.1) (c_Call cs a b i gas v e);
  ok_CallCode a b i gas v e : 0 <= gas < N -> run_post (fun x => result_ok gas x.1) (c_CallCode cs a b i gas v e);
  ok_DelegateCall a b c i gas v e : 0 <= gas < N ->
    run_post (fun x => result_ok gas x.1) (c_DelegateCall cs a b c i gas v e);
  ok_StaticCall a b i gas e : 0 <= gas < N -> run_post (fun x => result_ok gas x.1) (c_StaticCall cs a b i gas e);
  ok_Create a i gas v e : 0 <= gas < N -> run_post (fun x => result_ok gas x.1.1) (c_Create cs a i gas v e);
  ok_Create2 a i gas v t e : 0 <= gas < N -> run_post (fun x => result_ok gas x.1.1) (c_Create2 cs a i gas v t e)
}.

Definition run_op (o : operation) (cs : calls) (op pc : Z) (st : Stack.t) : IM outcome :=
  im_bind (lift (prepare_op o op st)) (fun _ => execute o cs pc st).

Definition entry_steps (o : operation) : Prop :=
  forall cs N op pc st s, calls_ok cs N -> N <= gas_limit -> contract_wf (v_contract s) ->
    Gas (v_contract s) <= N ->
    run_post (fun x => stepped (v_contract s) (v_contract x.2) (progress_of x.1)) (run_op o cs op pc st s).

Lemma stepped_charge c c' d p :
  moves c c' d no_bill -> 0 <= Gas c -> 0 <= Gas c' -> p <= sumZ d -> stepped c c' p.
Proof.
  intros Hm H0 H1 Hp. exists d, no_bill. pose proof (mv_gas _ _ _ _ Hm) as Hg.
  rewrite sumZ_no_bill in *. split; [done|]. split; [apply ble_no_bill, Hm|]. lia.
Qed.

Lemma plain_entry lo (P : outcome -> Prop) f o :
  execute o = plain f -> quiet_exec P f -> is_u64 (constantGas o) -> dynamic_ok lo (dynamicGas o) ->
  (forall x, P x -> is_halt x) \/ 1 <= constantGas o + lo -> entry_steps o.
Proof.
  intros Hex Hq Hc Hd Hpr cs N op pc st s _ _ Hwf _. unfold run_op, im_bind, lift. rewrite Hex.
  pose proof (charges_prepare lo o op st Hc Hd s) as Hprep.
  destruct (prepare_op o op st s) as [[[u|e] s1]|]; [| |done];
    destruct (Hprep _ _ Hwf eq_refl) as (d & Hm & H0 & HQ); pose proof (cw_gas _ Hwf) as [Hg0 _].
  - unfold plain. destruct (Hq pc st) as (m & -> & Hy). unfold lift.
    destruct (m s1) as [[r s2]|] eqn:Em; [|done]. simpl. destruct (Hy _ _ _ Em) as [Hs HP].
    assert (moves (v_contract s) (v_contract s2) d no_bill) as Hm2 by (by eapply moves_same_r).
    eapply stepped_charge; [exact Hm2|done| |].
    + destruct Hs as (-> & _). done.
    + specialize (HQ u eq_refl). pose proof (sumZ_bill_nonneg d (mv_bill _ _ _ _ Hm)).
      destruct r as [[pc' st'|ret err]|err]; simpl; [|done|done].
      destruct Hpr as [Hpr|Hpr]; [|lia]. by destruct (Hpr _ (HP _ eq_refl)).
  - simpl. by eapply stepped_charge; [exact Hm|done|done|apply sumZ_bill_nonneg, Hm].
Qed.

(** ** Calls *)

(** What the gas charged for a call provides: [x] is the gas the callee gets. *)
Definition provides (c c' : Contract) (cost x : Z) : Prop :=
  exists d r, moves c c' d r /\ 0 <= Gas c' /\ sumZ r <= Gas c
    /\ ble (badd r (bill_of ResourceKindComputation x)) d /\ cost + x + sumZ r <= sumZ d.

Lemma stepped_same c c' p : contract_wf c -> same_accounts c c' -> p <= 0 -> stepped c c' p.
Proof.
  intros Hc Hs Hp. pose proof (cw_gas _ Hc) as [? _].
  eapply stepped_charge; [by apply moves_same|done| |by rewrite sumZ_no_bill].
  destruct Hs as (-> & _). done.
Qed.

Lemma vm_bind_inv {A B} (m : VM A) (k : A -> VM B) s r s' :
  vm_bind m k s = Some (r, s') ->
  (exists a s1, m s = Some (Ok a, s1) /\ k a s1 = Some (r, s'))
  \/ (exists e, m s = Some (Err e, s') /\ r = Err e).
Proof.
  unfold vm_bind. destruct (m s) as [[[a|e] s1]|]; [| |done].
  - left. eauto.
  - intros [= <- <-]. right. eauto.
Qed.

(** The charge for the dynamic part of a call, from [c1] where the constant part was
    charged already. *)
Lemma call_dynamic stip f o st s r s' :
  dynamicGas o = Some f -> call_cost stip f -> (forall st, 0 <= stip st) ->
  contract_wf (v_contract s) -> charge_dynamic o st s = Some (r, s') ->
  match r with
  | Ok _ => is_u64 (callGasTemp (v_evm s'))
      /\ provides (v_contract s) (v_contract s') 0 (callGasTemp (v_evm s') + stip st)
  | Err _ => stepped (v_contract s) (v_contract s') 0
  end.
Proof.
  intros Hf Hcost Hstip Hc E. unfold charge_dynamic in E. rewrite Hf in E.
  apply vm_bind_inv in E as [(size & s1 & E1 & E)|(e & E1 & ->)];
    destruct (quiet_memory_size o st _ _ _ E1) as [S1 _]; [|by apply stepped_same].
  pose proof (same_accounts_wf _ _ Hc S1) as Hc1.
  apply vm_bind_inv in E as [(g & s2 & E2 & E)|(e & E2 & ->)]; unfold wrap_oog in E2;
    destruct (f st size s1) as [[[g1|e1] s3]|] eqn:Ef; try done; injection E2 as ? <-; subst;
    pose proof (Hcost _ _ _ _ _ Hc1 Ef) as Hres; simpl in Hres.
  - destruct Hres as (d & Hm & Hs & Hg & Ht & Hx). apply (moves_same_l _ _ _ _ _ S1) in Hm.
    destruct S1 as (G1 & _). rewrite G1 in Hs. pose proof (mv_gas _ _ _ _ Hm) as Hgas.
    pose proof (gas_ok_single g Hg) as Hsg. pose proof (gas_ok_total g Hg) as [Hgt Hge].
    unfold deduct, vm_bind, get_contract, put_contract, vm_throw, vm_ret in E. rewrite Hsg in E.
    pose proof (cw_gas _ Hc) as [? ?].
    destruct (Z.ltb_spec (Gas (v_contract s3)) (total g)) as [Hl|Hl]; injection E as <- <-.
    + exists d, d. split; [done|]. split; [apply ble_refl|]. lia.
    + cbn [v_evm v_contract]. split; [done|].
      set (c4 := add_used g (set_Gas (Gas (v_contract s3) - total g) (v_contract s3))).
      assert (contract_wf (v_contract s3)) as Hc3 by (eapply moves_wf; [exact Hc|done|lia]).
      assert (moves (v_contract s3) c4 (gas g) no_bill) as Hm4.
      { split; [by apply gas_ok_bill|apply no_bill_is_bill| | |].
        - apply SaturatingAddInto_bill; [apply Hc3|done].
        - by rewrite add_no_bill by apply Hc3.
        - rewrite sumZ_no_bill. cbn [c4 add_used set_UsedMultiGas set_Gas Gas]. lia. }
      pose proof (moves_trans _ _ _ _ _ _ _ Hm Hm4) as Hm5.
      pose proof (mv_bill _ _ _ _ Hm) as Hd. pose proof (gas_ok_bill g Hg) as Hgb.
      rewrite (badd_no_bill_r d Hd) in Hm5. exists (badd d (gas g)), d.
      set (x := callGasTemp (v_evm s3) + stip st) in *.
      assert (0 <= x) as Hx0 by (unfold x; specialize (Hstip st); unfold is_u64 in Ht; lia).
      assert (x <= sumZ (gas g)) as Hxs.
      { etrans; [exact Hx|]. by apply (amount_le_sum (gas g) ResourceKindComputation). }
      split; [done|]. split; [simpl; lia|]. split; [lia|]. split.
      * intros k. rewrite !amount_badd by (done || by apply bill_of_is_bill).
        rewrite amount_bill_of. pose proof (amount_nonneg (gas g) k Hgb).
        case_decide as Hk; [|lia]. subst k. change (Get g ?k) with (amount (gas g) k) in Hx. lia.
      * rewrite sumZ_badd_bill by done. lia.
  - destruct Hres as (d & r0 & Hm & Hle & Hs & Hg). apply (moves_same_l _ _ _ _ _ S1) in Hm.
    destruct S1 as (G1 & _). rewrite G1 in Hs, Hg. exists d, r0. pose proof (cw_gas _ Hc) as [? ?].
    split; [done|]. split; [done|]. lia.
Qed.

Lemma call_prepare stip f o op st s r s' :
  dynamicGas o = Some f -> call_cost stip f -> (forall st, 0 <= stip st) -> is_u64 (constantGas o) ->
  contract_wf (v_contract s) -> prepare_op o op st s = Some (r, s') ->
  match r with
  | Ok _ => is_u64 (callGasTemp (v_evm s'))
      /\ provides (v_contract s) (v_contract s') (constantGas o) (callGasTemp (v_evm s') + stip st)
  | Err _ => stepped (v_contract s) (v_contract s') 0
  end.
Proof.
  intros Hf Hcost Hstip Hcg Hc E. unfold prepare_op in E.
  apply vm_bind_inv in E as [(u & s1 & E1 & E)|(e & E1 & ->)];
    destruct (quiet_check_stack o st _ _ _ E1) as [S1 _]; [|by apply stepped_same].
  pose proof (same_accounts_wf _ _ Hc S1) as Hc1. pose proof (cw_gas _ Hc) as [? ?].
  destruct (constant_bill_ok (constantGas o) op Hcg) as (Hb & Hbs & _).
  apply vm_bind_inv in E as [(u2 & s2 & E2 & E)|(e & E2 & ->)];
    destruct (charges_constant o op Hcg _ _ _ Hc1 E2) as (d1 & M1 & G2 & HQ).
  2:{ apply (moves_same_l _ _ _ _ _ S1) in M1.
      by eapply stepped_charge; [exact M1|done|done|apply sumZ_bill_nonneg, M1]. }
  rewrite (HQ u2 eq_refl) in M1. clear HQ.
  pose proof (charged_wf _ _ _ Hc1 M1 G2) as Hc2. apply (moves_same_l _ _ _ _ _ S1) in M1.
  pose proof (mv_gas _ _ _ _ M1) as Hg2. rewrite sumZ_no_bill in Hg2.
  pose proof (sumZ_bill_nonneg _ Hb) as Hb0.
  apply vm_bind_inv in E as [(size & s3 & E3 & E)|(e & E3 & ->)];
    pose proof (call_dynamic _ _ _ _ _ _ _ Hf Hcost Hstip Hc2 E3) as Hd; simpl in Hd.
  - destruct Hd as [Ht (d & r0 & M2 & G3 & Hs & Hle & Hsum)].
    assert (same_accounts (v_contract s3) (v_contract s') /\ r = Ok tt
      /\ callGasTemp (v_evm s') = callGasTemp (v_evm s3)) as (S4 & -> & ->).
    { revert E. unfold resize_memory. destruct (0 <? size).
      - unfold vm_bind, get_memory, put_memory. by intros [= <- <-].
      - by intros [= <- <-]. }
    split; [done|]. pose proof (moves_same_r _ _ _ _ _ M2 S4) as M3.
    pose proof (moves_trans _ _ _ _ _ _ _ M1 M3) as M4.
    rewrite (badd_no_bill_l r0) in M4 by apply M2. exists (badd (constant_bill (constantGas o) op) d), r0.
    destruct S4 as (G4 & _). split; [done|]. split; [lia|]. split; [lia|]. split.
    + intros k. rewrite (amount_badd _ d) by (done || apply M2). pose proof (amount_nonneg _ k Hb).
      specialize (Hle k). lia.
    + rewrite sumZ_badd_bill by (done || apply M2). lia.
  - destruct Hd as (d & r0 & M2 & Hle & Hs & G3 & Hp).
    pose proof (moves_trans _ _ _ _ _ _ _ M1 M2) as M4. rewrite (badd_no_bill_l r0) in M4 by apply M2.
    exists (badd (constant_bill (constantGas o) op) d), r0.
    split; [done|]. split; [|lia]. intros k. rewrite (amount_badd _ d) by (done || apply M2).
    pose proof (amount_nonneg _ k Hb). specialize (Hle k). lia.
Qed.

(** The accounts after a call instruction that gave [x] to the callee. *)
Definition exec_result (c c' : Contract) (x : Z) (r : result vmError outcome) : Prop :=
  match r with
  | Err _ => same_accounts c c'
  | Ok _ => exists u, gas_ok u /\ total u <= x /\ moves c c' (gas u) (bill_of ResourceKindComputation x)
  end.

Definition call_exec (stip : Stack.t -> Z) (ex : calls -> executionFunc) : Prop :=
  forall cs N pc st s, calls_ok cs N -> N <= gas_limit -> contract_wf (v_contract s) ->
    Gas (v_contract s) <= gas_limit -> is_u64 (callGasTemp (v_evm s)) ->
    callGasTemp (v_evm s) + stip st < N ->
    run_post (fun y => exec_result (v_contract s) (v_contract y.2) (callGasTemp (v_evm s) + stip st) y.1)
      (ex cs pc st s).

(** Refunding what a callee left, adding what it used, and retaining what it got. *)
Lemma settle_moves c x left u c' :
  contract_wf c -> Gas c <= gas_limit -> 0 <= x <= gas_limit -> 0 <= left -> gas_ok u -> total u + left = x ->
  Gas c' = u64 (Gas c + left) \/ left = 0 /\ Gas c' = Gas c ->
  UsedMultiGas c' = SaturatingAddInto (UsedMultiGas c) u ->
  RetainedMultiGas c' = SaturatingIncrementInto (RetainedMultiGas c) ResourceKindComputation x ->
  moves c c' (gas u) (bill_of ResourceKindComputation x).
Proof.
  unfold gas_limit. intros [Hg Hu Hr] Hlim Hx Hleft Huok Hsum HG HU HR.
  pose proof (gas_ok_total u Huok) as [Ht He]. unfold is_u64 in Hg. split.
  - by apply gas_ok_bill.
  - apply bill_of_is_bill. lia.
  - rewrite HU. by apply SaturatingAddInto_bill.
  - rewrite HR. apply SaturatingIncrementInto_bill; [done|]. unfold is_u64. lia.
  - rewrite sumZ_bill_of. destruct HG as [->|[-> ->]]; [|lia].
    rewrite u64_small by (unfold is_u64; lia). lia.
Qed.

Lemma RefundGas_gas left c : Gas (RefundGas left c) = u64 (Gas c + left) \/ left = 0 /\ Gas (RefundGas left c) = Gas c.
Proof. unfold RefundGas. destruct (Z.eqb_spec left 0); [by right|by left]. Qed.

Lemma RefundGas_accounts left c : UsedMultiGas (RefundGas left c) = UsedMultiGas c
  /\ RetainedMultiGas (RefundGas left c) = RetainedMultiGas c.
Proof. unfold RefundGas. by destruct (left =? 0). Qed.

Lemma after_call_result pc st ro rs x r s res s' :
  contract_wf (v_contract s) -> Gas (v_contract s) <= gas_limit -> 0 <= x <= gas_limit ->
  result_ok x r -> after_call pc st ro rs x r s = Some (res, s') ->
  exec_result (v_contract s) (v_contract s') x res.
Proof.
  intros Hc Hlim Hx [Hl Hu Hsum] E. unfold after_call in E.
  set (m1 := if keeps_data (cr_err r) then memory_set _ _ _ else vm_ret tt) in E.
  assert (quiet_vm m1) as Hq by (unfold m1; destruct (keeps_data _); [apply quiet_memory_set|by apply yields_ret]).
  apply vm_bind_inv in E as [(u & s1 & E1 & E)|(e & E1 & ->)]; destruct (Hq _ _ _ E1) as [S1 _]; [|done].
  unfold vm_bind, get_contract, put_contract, put_returnData, get_evm, put_evm, next, vm_ret in E.
  injection E as <- <-. cbn [v_contract]. exists (usedMultiGas r).
  split; [done|]. split; [lia|]. eapply moves_same_l; [exact S1|].
  pose proof (same_accounts_wf _ _ Hc S1) as Hc1. destruct S1 as (G1 & _).
  destruct (RefundGas_accounts (leftOverGas r) (v_contract s1)) as [R1 R2].
  eapply settle_moves; try done; [by rewrite G1|apply RefundGas_gas| |].
  - cbn [add_retained add_used set_RetainedMultiGas set_UsedMultiGas UsedMultiGas]. by rewrite R1.
  - cbn [add_retained add_used set_RetainedMultiGas set_UsedMultiGas RetainedMultiGas]. by rewrite R2.
Qed.

(** The end of a call instruction, from the call on. *)
Lemma call_end (call : EVM -> run (call_result * EVM)) pc st ro rs x s :
  contract_wf (v_contract s) -> Gas (v_contract s) <= gas_limit -> 0 <= x <= gas_limit ->
  run_post (fun y => result_ok x y.1) (call (v_evm s)) ->
  run_post (fun y => exec_result (v_contract s) (v_contract y.2) x y.1)
    (im_bind (on_evm call) (fun r => lift (after_call pc st ro rs x r)) s).
Proof.
  intros Hc Hlim Hx Hcall. unfold im_bind, on_evm, lift.
  destruct (call (v_evm s)) as [[r e]| |]; [|done|done]. simpl in Hcall |- *.
  destruct (after_call _ _ _ _ _ _ _) as [[res s2]|] eqn:E; [|done]. simpl.
  by eapply after_call_result in E.
Qed.

(** Computations that only read the machine. *)
Definition reads {A} (m : VM A) : Prop := forall s r s', m s = Some (r, s') -> s' = s.

Lemma reads_or_panic {A} (o : option A) : reads (or_panic o).
Proof. intros s r s'. unfold or_panic. destruct o; [|done]. by intros [= <- <-]. Qed.
Lemma reads_call_args a b : reads (call_args a b).
Proof. intros s r s'. unfold call_args, vm_bind, get_memory. apply reads_or_panic. Qed.
Lemma reads_throw_if b e : reads (throw_if b e).
Proof. intros s r s'. unfold throw_if. destruct b; by intros [= <- <-]. Qed.
Lemma reads_write_protection : reads write_protection.
Proof. intros s r s'. unfold write_protection, vm_bind, get_evm. apply reads_throw_if. Qed.

Lemma im_reads {A B} (m : VM A) (k : A -> IM B) s (P : result vmError B * vst -> Prop) :
  reads m -> (forall a, run_post P (k a s)) -> (forall e, P (Err e, s)) ->
  run_post P (im_bind (lift m) k s).
Proof.
  intros Hm Hk He. unfold im_bind, lift. destruct (m s) as [[[a|e] s1]|] eqn:E; [| |done];
    apply Hm in E as ->; [apply Hk|apply He].
Qed.

Lemma stipend_nonneg st : 0 <= stipend st.
Proof. unfold stipend. destruct (_ !! _) as [v|]; [|done]. by destruct (negb _). Qed.

Lemma with_stipend_eq st v t : (st : list Z) !! 2%nat = Some v -> is_u64 t -> t + stipend st < gas_limit ->
  with_stipend v t = t + stipend st.
Proof.
  unfold stipend, with_stipend, gas_limit. intros -> Ht. destruct (negb _); intros Hb; [|lia].
  apply u64_small. unfold is_u64 in *. change CallStipend with 2300 in *. lia.
Qed.

Lemma exec_opCall : call_exec stipend opCall.
Proof.
  intros cs N pc st s Hcs HN Hc Hlim Ht Hx. pose proof (stipend_nonneg st) as Hs0.
  pose proof (with_stipend_eq st) as Hst. set (x := callGasTemp (v_evm s) + stipend st) in *.
  assert (0 <= x < N) as Hx0 by (unfold x in *; unfold is_u64 in Ht; lia).
  unfold opCall. do 7 (destruct st as [|? st]; [exact I|]).
  specialize (Hst _ (callGasTemp (v_evm s)) eq_refl Ht ltac:(fold x; lia)). fold x in Hst.
  apply (im_reads (call_args _ _)); [apply reads_call_args| |done]. intros args.
  apply (im_reads (throw_if _ _)); [apply reads_throw_if| |done]. intros _.
  cbn [v_evm] in *. rewrite Hst. apply call_end; [done|done|lia|]. by apply (ok_Call cs N).
Qed.

Lemma exec_opCallCode : call_exec stipend opCallCode.
Proof.
  intros cs N pc st s Hcs HN Hc Hlim Ht Hx. pose proof (stipend_nonneg st) as Hs0.
  pose proof (with_stipend_eq st) as Hst. set (x := callGasTemp (v_evm s) + stipend st) in *.
  assert (0 <= x < N) as Hx0 by (unfold x in *; unfold is_u64 in Ht; lia).
  unfold opCallCode. do 7 (destruct st as [|? st]; [exact I|]).
  specialize (Hst _ (callGasTemp (v_evm s)) eq_refl Ht ltac:(fold x; lia)). fold x in Hst.
  apply (im_reads (call_args _ _)); [apply reads_call_args| |done]. intros args.
  cbn [v_evm] in *. rewrite Hst. apply call_end; [done|done|lia|]. by apply (ok_CallCode cs N).
Qed.

Lemma exec_opDelegateCall : call_exec no_stipend opDelegateCall.
Proof.
  intros cs N pc st s Hcs HN Hc Hlim Ht Hx. unfold no_stipend in *. rewrite Z.add_0_r in *.
  unfold opDelegateCall. do 6 (destruct st as [|? st]; [exact I|]).
  apply (im_reads (call_args _ _)); [apply reads_call_args| |done]. intros args.
  unfold is_u64 in Ht. apply call_end; [done|done|lia|]. apply (ok_DelegateCall cs N); [done|]. simpl in *. lia.
Qed.

Lemma exec_opStaticCall : call_exec no_stipend opStaticCall.
Proof.
  intros cs N pc st s Hcs HN Hc Hlim Ht Hx. unfold no_stipend in *. rewrite Z.add_0_r in *.
  unfold opStaticCall. do 6 (destruct st as [|? st]; [exact I|]).
  apply (im_reads (call_args _ _)); [apply reads_call_args| |done]. intros args.
  unfold is_u64 in Ht. apply call_end; [done|done|lia|]. apply (ok_StaticCall cs N); [done|]. simpl in *. lia.
Qed.

(** The entry of a call instruction. *)
Lemma call_entry stip f ex o :
  execute o = ex -> dynamicGas o = Some f -> call_cost stip f -> (forall st, 0 <= stip st) ->
  call_exec stip ex -> is_u64 (constantGas o) -> 1 <= constantGas o -> entry_steps o.
Proof.
  intros Hex Hf Hcost Hstip Hexec Hc H1 cs N op pc st s Hcs HN Hwf Hlim. unfold run_op, im_bind, lift.
  rewrite Hex. pose proof (call_prepare stip f o op st s) as Hprep.
  destruct (prepare_op o op st s) as [[[u|e] s1]|]; [| |done];
    specialize (Hprep _ _ Hf Hcost Hstip Hc Hwf eq_refl); simpl in Hprep; [|done].
  destruct Hprep as [Ht (d & r & Hm & H0 & Hr & Hle & Hsum)].
  set (x := callGasTemp (v_evm s1) + stip st) in *.
  assert (0 <= x) as Hx0 by (unfold x; specialize (Hstip st); unfold is_u64 in Ht; lia).
  pose proof (mv_gas _ _ _ _ Hm) as Hg. pose proof (cw_gas _ Hwf) as [Hg0 _].
  pose proof (sumZ_bill_nonneg r (mv_rbill _ _ _ _ Hm)) as Hr0.
  assert (contract_wf (v_contract s1)) as Hwf1 by (eapply moves_wf; [exact Hwf|exact Hm|lia]).
  pose proof (Hexec cs N pc st s1 Hcs HN Hwf1 ltac:(lia) Ht ltac:(fold x; lia)) as Hpost.
  destruct (ex cs pc st s1) as [[res s2]| |]; [|done|done]. simpl in Hpost |- *. fold x in Hpost.
  pose proof (mv_bill _ _ _ _ Hm) as Hd. pose proof (mv_rbill _ _ _ _ Hm) as Hrb.
  destruct res as [out|e]; simpl in Hpost.
  - destruct Hpost as (v & Hv & Htot & Hm2). pose proof (moves_trans _ _ _ _ _ _ _ Hm Hm2) as Hm3.
    pose proof (gas_ok_bill v Hv) as Hvb. pose proof (gas_ok_total v Hv) as [Hv0 Hve].
    pose proof (bill_of_is_bill ResourceKindComputation x Hx0) as Hxb.
    exists (badd d (gas v)), (badd r (bill_of ResourceKindComputation x)).
    pose proof (mv_gas _ _ _ _ Hm2) as Hg2. rewrite sumZ_bill_of in Hg2.
    split; [done|]. split.
    + intros k. specialize (Hle k). rewrite (amount_badd d) by done. pose proof (amount_nonneg _ k Hvb). lia.
    + rewrite sumZ_badd_bill, sumZ_bill_of by done.
      assert (progress_of (Ok out) <= 1) by (destruct out; simpl; lia). lia.
  - exists d, r. destruct Hpost as (E1 & E2 & E3). split; [by eapply moves_same_r|]. split.
    + intros k. specialize (Hle k). rewrite amount_badd in Hle by (done || by apply bill_of_is_bill).
      pose proof (amount_nonneg _ k (bill_of_is_bill ResourceKindComputation x Hx0)). lia.
    + rewrite E1. simpl. lia.
Qed.

(** ** Creation *)

(** Reading and charging the gas of the new contract. *)
Lemma charge_computation_moves gas s :
  contract_wf (v_contract s) -> 0 <= gas <= Gas (v_contract s) ->
  exists c', charge_computation gas s = Some (Ok tt, mkVst (v_evm s) c' (v_memory s))
    /\ moves (v_contract s) c' (bill_of ResourceKindComputation gas) no_bill
    /\ contract_wf c' /\ Gas c' = Gas (v_contract s) - gas.
Proof.
  intros Hc Hg. pose proof (cw_gas _ Hc) as Hu. unfold is_u64 in Hu.
  assert (gas_ok (ComputationGas gas)) as Hok by (apply new_gas_ok; unfold is_u64; lia).
  pose proof (UseMultiGas_moves (ComputationGas gas) (v_contract s) Hc Hok) as H.
  change (total (ComputationGas gas)) with gas in H. rewrite (proj2 (Z.ltb_ge _ _)) in H by lia.
  destruct H as (c' & E & Hm & Hw & _ & Hg'). exists c'. split; [|done].
  unfold charge_computation, vm_bind, get_contract, put_contract. by rewrite E.
Qed.

Definition created (c c' : Contract) (r : result vmError outcome) : Prop :=
  match r with
  | Err _ => same_accounts c c'
  | Ok _ => exists d x, moves c c' d (bill_of ResourceKindComputation x)
      /\ ble (bill_of ResourceKindComputation x) d /\ 0 <= x <= Gas c /\ 0 <= Gas c' <= Gas c
  end.

Lemma create_end (call : EVM -> run (call_result * Z * EVM)) (value : call_result -> Z -> Z) pc st x s :
  contract_wf (v_contract s) -> Gas (v_contract s) <= gas_limit -> 0 <= x <= Gas (v_contract s) ->
  (forall e : EVM, run_post (fun y => result_ok x y.1.1) (call e)) ->
  run_post (fun y => created (v_contract s) (v_contract y.2) y.1)
    (im_bind (lift (charge_computation x)) (fun _ =>
       im_bind (on_evm call) (fun ra => let '(r, addr) := ra in
         lift (after_create pc st (value r addr) x r))) s).
Proof.
  intros Hc Hlim Hx Hcall. destruct (charge_computation_moves x s Hc Hx) as (c1 & E1 & M1 & W1 & G1).
  unfold im_bind at 1, lift at 1. rewrite E1. unfold im_bind, on_evm, lift. cbn [v_evm v_contract].
  specialize (Hcall (v_evm s)). destruct (call (v_evm s)) as [[[r addr] e]| |]; [|done|done].
  simpl in Hcall |- *. destruct Hcall as [Hl Hu Hsum].
  unfold after_create, vm_bind, get_contract, put_contract, put_returnData, get_evm, put_evm, next, vm_ret.
  cbn [run_post created v_contract fst snd].
  destruct (RefundGas_accounts (leftOverGas r) c1) as [R1 R2].
  pose proof (gas_ok_total _ Hu) as [Hu0 Hue].
  set (c2 := add_used (usedMultiGas r) (add_retained x (RefundGas (leftOverGas r) c1))).
  assert (moves c1 c2 (gas (usedMultiGas r)) (bill_of ResourceKindComputation x)) as M2.
  { eapply (settle_moves _ _ (leftOverGas r)); try done; try lia.
    - apply RefundGas_gas.
    - unfold c2. cbn [add_retained add_used set_RetainedMultiGas set_UsedMultiGas UsedMultiGas]. by rewrite R1.
    - unfold c2. cbn [add_retained add_used set_RetainedMultiGas set_UsedMultiGas RetainedMultiGas]. by rewrite R2. }
  pose proof (moves_trans _ _ _ _ _ _ _ M1 M2) as M3.
  rewrite badd_no_bill_l in M3 by apply M2.
  exists (badd (bill_of ResourceKindComputation x) (gas (usedMultiGas r))), x.
  pose proof (mv_gas _ _ _ _ M2) as G2. rewrite sumZ_bill_of in G2.
  split; [done|].
  split; [|change (0 <= x <= Gas (v_contract s) /\ 0 <= Gas c2 <= Gas (v_contract s)); lia].
  intros k. rewrite amount_badd by (apply M1 || apply M2).
  pose proof (amount_nonneg _ k (mv_bill _ _ _ _ M2)). lia.
Qed.

Definition create_exec (ex : calls -> executionFunc) : Prop :=
  forall cs N pc st s, calls_ok cs N -> N <= gas_limit -> contract_wf (v_contract s) ->
    Gas (v_contract s) < N ->
    run_post (fun y => created (v_contract s) (v_contract y.2) y.1) (ex cs pc st s).

Lemma all_but_one_64th_range gas : is_u64 gas -> 0 <= all_but_one_64th gas <= gas.
Proof.
  intros Hg. unfold all_but_one_64th. unfold is_u64 in Hg. assert (0 <= gas / 64 <= gas) by go_lia.
  rewrite u64_small by (unfold is_u64; lia). lia.
Qed.

Lemma exec_opCreate : create_exec opCreate.
Proof.
  intros cs N pc st s Hcs HN Hc Hlt. unfold opCreate.
  apply (im_reads write_protection); [apply reads_write_protection| |done]. intros _.
  do 3 (destruct st as [|? st]; [exact I|]).
  apply (im_reads (or_panic (Memory.GetCopy _ _ _))); [apply reads_or_panic| |done]. intros input.
  set (c := v_contract s) in *. pose proof (cw_gas _ Hc) as Hu.
  set (x := if IsEIP150 chainRules then all_but_one_64th (Gas c) else Gas c).
  assert (0 <= x <= Gas c) as Hx.
  { unfold x. destruct (IsEIP150 chainRules); [by apply all_but_one_64th_range|]. unfold is_u64 in Hu. lia. }
  eapply (create_end _ (fun r addr => if IsHomestead chainRules && is_code_store_oog (cr_err r) then 0
    else match cr_err r with
         | None => addr
         | Some _ => if is_code_store_oog (cr_err r) then addr else 0
         end)); [done|fold c; lia|done|].
  intros e. apply (ok_Create cs N); [done|fold c; fold x; lia].
Qed.

Lemma exec_opCreate2 : create_exec opCreate2.
Proof.
  intros cs N pc st s Hcs HN Hc Hlt. unfold opCreate2.
  apply (im_reads write_protection); [apply reads_write_protection| |done]. intros _.
  do 4 (destruct st as [|? st]; [exact I|]).
  apply (im_reads (or_panic (Memory.GetCopy _ _ _))); [apply reads_or_panic| |done]. intros input.
  set (c := v_contract s) in *. pose proof (cw_gas _ Hc) as Hu.
  pose proof (all_but_one_64th_range (Gas c) Hu) as Hx.
  eapply (create_end _ (fun r addr => match cr_err r with None => addr | Some _ => 0 end));
    [done|fold c; lia|done|].
  intros e. apply (ok_Create2 cs N); [done|fold c; lia].
Qed.

Lemma create_entry lo ex o :
  execute o = ex -> create_exec ex -> is_u64 (constantGas o) -> dynamic_ok lo (dynamicGas o) ->
  1 <= constantGas o -> entry_steps o.
Proof.
  intros Hex Hexec Hc Hd H1 cs N op pc st s Hcs HN Hwf Hlim. unfold run_op, im_bind, lift. rewrite Hex.
  pose proof (charges_prepare lo o op st Hc Hd s) as Hprep. pose proof (proj1 Hd) as Hlo.
  destruct (prepare_op o op st s) as [[[u|e] s1]|]; [| |done];
    destruct (Hprep _ _ Hwf eq_refl) as (d & Hm & H0 & HQ); pose proof (cw_gas _ Hwf) as [Hg0 _].
  - specialize (HQ u eq_refl). cbv beta in HQ. pose proof (mv_gas _ _ _ _ Hm) as Hg. rewrite sumZ_no_bill in Hg.
    pose proof (charged_wf _ _ _ Hwf Hm H0) as Hwf1.
    pose proof (Hexec cs N pc st s1 Hcs HN Hwf1 ltac:(lia)) as Hpost.
    destruct (ex cs pc st s1) as [[res s2]| |]; [|done|done]. simpl in Hpost |- *.
    pose proof (mv_bill _ _ _ _ Hm) as Hdb. destruct res as [out|e]; simpl in Hpost.
    + destruct Hpost as (d2 & x & Hm2 & Hle & Hx & Hg2). pose proof (moves_trans _ _ _ _ _ _ _ Hm Hm2) as Hm3.
      rewrite badd_no_bill_l in Hm3 by apply Hm2.
      exists (badd d d2), (bill_of ResourceKindComputation x). rewrite sumZ_bill_of.
      assert (progress_of (Ok out) <= 1) by (destruct out; simpl; lia).
      split; [done|]. split; [|lia]. intros k. rewrite amount_badd by (done || apply Hm2).
      specialize (Hle k). pose proof (amount_nonneg _ k Hdb). lia.
    + pose proof (moves_same_r _ _ _ _ _ Hm Hpost) as Hm2. destruct Hpost as (E1 & _).
      eapply stepped_charge; [exact Hm2|done| |]; simpl; [lia|by apply sumZ_bill_nonneg].
  - simpl. by eapply stepped_charge; [exact Hm|done|done|apply sumZ_bill_nonneg, Hm].
Qed.
End Conservation.
