(* ===== verification/GasTables.v ===== *)
(** Every entry of every jump table moves gas the way the conservation theorem needs.

    An opcode has a class, fixed by what its instruction may do to the accounts; an
    entry is well formed when its instruction is of the class of its opcode and its
    costs fit the class.  The activators of the forks change instructions and costs and
    keep the tables well formed. *)

From stdpp Require Import base gmap list numbers option strings fin_maps.
From S2P Require Import Prelude Params MultiGas Uint256 VmCore JumpDest AccessList State Evm VmGas.
From S2P Require Import Instructions JumpTable Interpreter FuelMono GasAccounting CallGas.
From S2P Require Import GasConservation.
Open Scope Z_scope.
Open Scope vm_scope.

Inductive exec_class :=
| Running
| Halting
| Calling (stip : Stack.t -> Z)
| Creating.

Section Tables.
Context {U : U256.Ops} {L : U256.Laws U} {HS : Hasher} {R : Reader} {CH : Chain} {EN : Env}
  {PC : Precompiles}.
Context (no_verkle : IsEIP4762 chainRules = false).

Definition class_of (op : Z) : exec_class :=
  if existsb (Z.eqb op) [STOP; RETURN; REVERT; SELFDESTRUCT; INVALID] then Halting
  else if existsb (Z.eqb op) [CALL; CALLCODE] then Calling stipend
  else if existsb (Z.eqb op) [DELEGATECALL; STATICCALL] then Calling no_stipend
  else if existsb (Z.eqb op) [CREATE; CREATE2] then Creating
  else Running.

Definition exec_ok (k : exec_class) (ex : calls -> executionFunc) : Prop :=
  match k with
  | Running => exists f, ex = plain f /\ quiet_exec (fun _ => True) f
  | Halting => exists f, ex = plain f /\ quiet_exec is_halt f
  | Calling stip => call_exec stip ex /\ exec_mono ex /\ forall st, 0 <= stip st
  | Creating => create_exec ex /\ exec_mono ex
  end.

(** The constant and the dynamic cost of an entry. *)
Definition cost_ok (k : exec_class) (cost : Z) (dyn : option gasFunc) : Prop :=
  is_u64 cost /\
  match k with
  | Running => exists lo, dynamic_ok lo dyn /\ 1 <= cost + lo
  | Halting => exists lo, dynamic_ok lo dyn
  | Calling stip => 1 <= cost /\ exists f, dyn = Some f /\ call_cost stip f
  | Creating => 1 <= cost /\ exists lo, dynamic_ok lo dyn
  end.

Definition entry_ok (op : Z) (o : operation) : Prop :=
  exec_ok (class_of op) (execute o) /\ cost_ok (class_of op) (constantGas o) (dynamicGas o).

Definition table_ok (jt : gmap Z operation) : Prop := map_Forall entry_ok jt.

Lemma entry_ok_steps op o : entry_ok op o -> entry_steps o.
Proof.
  intros [Hex [Hc Hcost]]. destruct (class_of op) as [| |stip|]; simpl in Hex, Hcost.
  - destruct Hex as (f & E & Hq), Hcost as (lo & Hd & H1). by eapply plain_entry; eauto.
  - destruct Hex as (f & E & Hq), Hcost as (lo & Hd). eapply plain_entry; eauto.
  - destruct Hex as (Hq & _ & Hs), Hcost as (H1 & f & Hf & Hcc). by eapply call_entry; eauto.
  - destruct Hex as [Hex _], Hcost as (H1 & lo & Hd). by eapply create_entry; eauto.
Qed.

Lemma entry_ok_mono op o : entry_ok op o -> exec_mono (execute o).
Proof.
  intros [Hex _]. destruct (class_of op); simpl in Hex.
  - destruct Hex as (f & -> & _). apply mono_plain.
  - destruct Hex as (f & -> & _). apply mono_plain.
  - apply Hex.
  - apply Hex.
Qed.

Lemma undefined_entry : entry_steps undefined_operation.
Proof.
  eapply (plain_entry 0 is_halt opUndefined); [done|apply halt_opUndefined|by simpl|done|by left].
Qed.

Lemma lookup_op_steps (jt : JumpTable) op : table_ok jt -> entry_steps (lookup_op jt op).
Proof.
  intros Hjt. unfold lookup_op. destruct (jt !! op) as [o|] eqn:E; simpl; [|apply undefined_entry].
  apply (entry_ok_steps op). exact (Hjt op o E).
Qed.

Lemma lookup_op_mono (jt : JumpTable) op : table_ok jt -> exec_mono (execute (lookup_op jt op)).
Proof.
  intros Hjt. unfold lookup_op. destruct (jt !! op) as [o|] eqn:E; simpl; [|apply mono_plain].
  apply (entry_ok_mono op o). exact (Hjt op o E).
Qed.

(** ** Changing a table *)

Lemma set_op_ok op o jt : entry_ok op o -> table_ok jt -> table_ok (set_op op o jt).
Proof. intros Ho Hjt. by apply map_Forall_insert_2. Qed.

Lemma alter_ok f op (jt : gmap Z operation) :
  table_ok jt -> (forall o, entry_ok op o -> entry_ok op (f o)) -> table_ok (alter f op jt).
Proof.
  intros Hjt Hf i o. destruct (decide (i = op)) as [->|Hi].
  - rewrite (lookup_alter_eq). intros (o' & Ho' & ->)%fmap_Some. apply Hf. exact (Hjt op o' Ho').
  - rewrite (lookup_alter_ne) by done. apply Hjt.
Qed.

Lemma alter2_ok f g op (jt : gmap Z operation) :
  table_ok jt -> (forall o, entry_ok op o -> entry_ok op (f (g o))) ->
  table_ok (alter f op (alter g op jt)).
Proof.
  intros Hjt Hf i o. destruct (decide (i = op)) as [->|Hi].
  - rewrite !lookup_alter_eq. intros (o1 & (o' & Ho' & ->)%fmap_Some & ->)%fmap_Some.
    apply Hf. exact (Hjt op o' Ho').
  - rewrite !lookup_alter_ne by done. apply Hjt.
Qed.

Lemma set_gas_ok op v jt : is_u64 v -> 1 <= v -> table_ok jt -> table_ok (set_gas op v jt).
Proof.
  intros Hv H1 Hjt. apply alter_ok; [done|]. intros o [Hex [Hc Hcost]]. split; [done|].
  split; [done|]. cbn [set_constantGas constantGas dynamicGas].
  destruct (class_of op); try tauto. destruct Hcost as (lo & [Hlo Hd] & _). exists lo. split; [done|lia].
Qed.

(** A dynamic cost for an entry with a constant cost of any value. *)
Definition dynamic_fits (k : exec_class) (f : gasFunc) : Prop :=
  match k with
  | Running => pure_gas 1 f
  | Halting | Creating => pure_gas 0 f
  | Calling stip => call_cost stip f
  end.

Lemma set_dynamic_ok op f jt : dynamic_fits (class_of op) f -> table_ok jt -> table_ok (set_dynamic op f jt).
Proof.
  intros Hf Hjt. apply alter_ok; [done|]. intros o [Hex [Hc Hcost]]. split; [done|].
  split; [done|]. unfold is_u64 in Hc. cbn [set_dynamicGas constantGas dynamicGas] in *.
  destruct (class_of op); simpl in Hf.
  - exists 1. split; [by split|lia].
  - exists 0. by split.
  - destruct Hcost. eauto.
  - destruct Hcost. split; [done|]. exists 0. by split.
Qed.

Lemma reprice_ok op v f jt :
  cost_ok (class_of op) v (Some f) -> table_ok jt -> table_ok (set_dynamic op f (set_gas op v jt)).
Proof.
  intros Hf Hjt. apply alter2_ok; [done|]. intros o [Hex _]. by split.
Qed.

(** ** Frontier *)

Ltac exec_ok_tac :=
  lazymatch goal with
  | |- exists f, _ = plain f /\ _ =>
      eexists; split; [reflexivity|];
      first [ apply quiet_binop | apply quiet_unop | apply quiet_triop | apply quiet_push_word
            | apply quiet_opJump | apply quiet_opJumpi | apply quiet_opBlobBaseFee | apply quiet_makeLog
            | apply halt_opReturn | apply halt_opRevert | apply halt_opUndefined | apply halt_opStop
            | apply halt_opSelfdestruct | apply halt_opSelfdestruct6780
            | exec_tac ]
  | |- call_exec _ opCall /\ _ =>
      split; [apply exec_opCall|split; [apply mono_opCall|apply stipend_nonneg]]
  | |- call_exec _ opCallCode /\ _ =>
      split; [apply exec_opCallCode|split; [apply mono_opCallCode|apply stipend_nonneg]]
  | |- call_exec _ opDelegateCall /\ _ =>
      split; [apply exec_opDelegateCall|split; [apply mono_opDelegateCall|done]]
  | |- call_exec _ opStaticCall /\ _ =>
      split; [apply exec_opStaticCall|split; [apply mono_opStaticCall|done]]
  | |- create_exec opCreate /\ _ => split; [apply exec_opCreate|apply mono_opCreate]
  | |- create_exec opCreate2 /\ _ => split; [apply exec_opCreate2|apply mono_opCreate2]
  end.

Lemma dynamic_none : dynamic_ok 0 None.
Proof. done. Qed.
Lemma dynamic_some lo f : 0 <= lo -> pure_gas lo f -> dynamic_ok lo (Some f).
Proof. by split. Qed.

Ltac pure_tac :=
  lazymatch goal with
  | |- pure_gas _ pureMemoryGascost => apply pure_memory
  | |- pure_gas _ (memoryCopierGas _) => apply pure_memoryCopierGas
  | |- pure_gas _ gasSStore => apply pure_gasSStore
  | |- pure_gas _ gasSStoreEIP2200 => apply pure_gasSStoreEIP2200
  | |- pure_gas _ (makeGasSStoreFunc _) => apply pure_makeGasSStoreFunc
  | |- pure_gas _ (makeGasLog _) => apply pure_makeGasLog
  | |- pure_gas _ (gas_hash_words _) => apply pure_gas_hash_words
  | |- pure_gas _ (gas_initcode _) => apply pure_gas_initcode
  | |- pure_gas _ (gas_exp _) => apply pure_gas_exp
  | |- pure_gas _ gasSelfdestruct => apply pure_gasSelfdestruct
  | |- pure_gas _ gasSLoadEIP2929 => apply pure_gasSLoadEIP2929
  | |- pure_gas _ gasExtCodeCopyEIP2929 => apply pure_gasExtCodeCopyEIP2929
  | |- pure_gas _ gasEip2929AccountCheck => apply pure_gasEip2929AccountCheck
  | |- pure_gas _ (makeSelfdestructGasFn _) => apply pure_makeSelfdestructGasFn
  | _ =>
      progress unfold gasCallDataCopy, gasCodeCopy, gasMcopy, gasExtCodeCopy, gasReturnDataCopy, gasReturn,
        gasRevert, gasMLoad, gasMStore8, gasMStore, gasCreate, gasSStoreEIP2929, gasSStoreEIP3529,
        gasKeccak256, gasCreate2, gasCreateEip3860, gasCreate2Eip3860, gasExpFrontier, gasExpEIP158,
        gasSelfdestructEIP2929, gasSelfdestructEIP3529; pure_tac
  end.
Ltac dynamic_tac :=
  first [ apply dynamic_none | apply dynamic_some; [|pure_tac]; const_range ].
Ltac call_tac :=
  lazymatch goal with
  | |- call_cost _ gasCall => by apply gasCall_cost
  | |- call_cost _ gasCallCode => by apply gasCallCode_cost
  | |- call_cost _ gasDelegateCall => apply gasDelegateCall_cost
  | |- call_cost _ gasStaticCall => apply gasStaticCall_cost
  | |- call_cost _ (makeCallVariantGasCallEIP2929 _ _) => apply call_cost_2929; call_tac
  | |- call_cost _ (makeCallVariantGasCallEIP7702 _) => apply call_cost_7702; call_tac
  | _ =>
      progress unfold gasCallEIP2929, gasDelegateCallEIP2929, gasStaticCallEIP2929, gasCallCodeEIP2929,
        gasCallEIP7702, gasDelegateCallEIP7702, gasStaticCallEIP7702, gasCallCodeEIP7702; call_tac
  end.
Ltac cost_tac :=
  split; [const_range|];
  lazymatch goal with
  | |- exists lo, dynamic_ok lo _ /\ _ => eexists; split; [dynamic_tac|const_range]
  | |- exists lo, dynamic_ok lo _ => eexists; dynamic_tac
  | |- _ /\ exists lo, dynamic_ok lo _ => split; [const_range|eexists; dynamic_tac]
  | |- _ /\ exists f, _ = Some f /\ _ => split; [const_range|eexists; split; [reflexivity|call_tac]]
  end.
Ltac class_tac op :=
  first [ change (class_of op) with Running | change (class_of op) with Halting
        | change (class_of op) with (Calling stipend) | change (class_of op) with (Calling no_stipend)
        | change (class_of op) with Creating ].
Ltac entry_tac :=
  match goal with
  | |- entry_ok ?op _ =>
      unfold entry_ok; class_tac op; cbn [exec_ok cost_ok execute constantGas dynamicGas];
      split; [exec_ok_tac|cost_tac]
  end.

Ltac entries_tac := repeat (apply Forall_cons_2; [entry_tac|]); apply Forall_nil_2.

Lemma frontier_entries : Forall (fun '(op, o) => entry_ok op o) frontier_operations.
Proof.
  unfold frontier_operations. repeat (apply Forall_app; split).
  - unfold frontier_arithmetic. entries_tac.
  - unfold frontier_environment. entries_tac.
  - unfold frontier_memory. entries_tac.
  - unfold frontier_push1. entries_tac.
  - unfold frontier_push17. entries_tac.
  - unfold frontier_dup. entries_tac.
  - unfold frontier_swap. entries_tac.
  - unfold frontier_system. entries_tac.
Qed.

Lemma frontier_ok : table_ok newFrontierInstructionSet.
Proof.
  intros op o H%elem_of_list_to_map_2. pose proof frontier_entries as HF. rewrite Forall_forall in HF.
  exact (HF _ H).
Qed.

(** ** The activators *)

Ltac table_tac :=
  repeat lazymatch goal with
    | |- table_ok (set_dynamic ?op _ (set_gas ?op _ _)) =>
        apply reprice_ok; [class_tac op; unfold cost_ok; cost_tac|]
    | |- table_ok (set_dynamic ?op _ _) =>
        apply set_dynamic_ok;
          [class_tac op; cbn [dynamic_fits];
           lazymatch goal with |- pure_gas _ _ => pure_tac | _ => call_tac end|]
    | |- table_ok (set_gas _ _ _) => apply set_gas_ok; [const_range|const_range|]
    | |- table_ok (set_op _ _ _) => apply set_op_ok; [entry_tac|]
    | H : table_ok ?jt |- table_ok ?jt => exact H
    end.

Lemma homestead_ok : table_ok newHomesteadInstructionSet.
Proof. pose proof frontier_ok. unfold newHomesteadInstructionSet. table_tac. Qed.
Lemma tangerine_ok : table_ok newTangerineWhistleInstructionSet.
Proof. pose proof homestead_ok. unfold newTangerineWhistleInstructionSet. table_tac. Qed.
Lemma spurious_ok : table_ok newSpuriousDragonInstructionSet.
Proof.
  pose proof tangerine_ok. unfold newSpuriousDragonInstructionSet.
  apply set_dynamic_ok; [|done]. change (class_of EXP) with Running. intros st ms.
  eapply yields_weaken; [|apply pure_gas_exp]. intros g Hg. eapply gas_at_weaken; [done|lia].
Qed.
Lemma byzantium_ok : table_ok newByzantiumInstructionSet.
Proof. pose proof spurious_ok. unfold newByzantiumInstructionSet. table_tac. Qed.
Lemma constantinople_ok : table_ok newConstantinopleInstructionSet.
Proof. pose proof byzantium_ok. unfold newConstantinopleInstructionSet. table_tac. Qed.
Lemma istanbul_ok : table_ok newIstanbulInstructionSet.
Proof.
  pose proof constantinople_ok. unfold newIstanbulInstructionSet, enable2200, enable1884, enable1344.
  table_tac.
Qed.
Lemma berlin_ok : table_ok newBerlinInstructionSet.
Proof. pose proof istanbul_ok. unfold newBerlinInstructionSet, enable2929. table_tac. Qed.
Lemma london_ok : table_ok newLondonInstructionSet.
Proof. pose proof berlin_ok. unfold newLondonInstructionSet, enable3198, enable3529. table_tac. Qed.
Lemma merge_ok : table_ok newMergeInstructionSet.
Proof. pose proof london_ok. unfold newMergeInstructionSet. table_tac. Qed.
Lemma shanghai_ok : table_ok newShanghaiInstructionSet.
Proof. pose proof merge_ok. unfold newShanghaiInstructionSet, enable3860, enable3855. table_tac. Qed.
Lemma cancun_ok : table_ok newCancunInstructionSet.
Proof.
  pose proof shanghai_ok.
  unfold newCancunInstructionSet, enable6780, enable5656, enable1153, enable7516, enable4844. table_tac.
Qed.
Lemma prague_ok : table_ok newPragueInstructionSet.
Proof. pose proof cancun_ok. unfold newPragueInstructionSet, enable7702. table_tac. Qed.
Lemma osaka_ok : table_ok newOsakaInstructionSet.
Proof. pose proof prague_ok. unfold newOsakaInstructionSet, enable7939. table_tac. Qed.

Lemma select_table_ok : table_ok (select_table chainRules).
Proof.
  pose proof frontier_ok. pose proof homestead_ok. pose proof tangerine_ok. pose proof spurious_ok.
  pose proof byzantium_ok. pose proof constantinople_ok. pose proof istanbul_ok. pose proof berlin_ok.
  pose proof london_ok. pose proof merge_ok. pose proof shanghai_ok. pose proof cancun_ok.
  pose proof prague_ok. pose proof osaka_ok. unfold select_table.
  repeat match goal with |- table_ok (if ?b then _ else _) => destruct b end; assumption.
Qed.
End Tables.
