(* ===== verification/GasRun.v ===== *)
(** Gas conservation and termination of the interpreter, from the loop to the calls.

    A frame accumulates the bills of its steps; because every step but the last costs
    at least one unit of gas, a frame runs out of steps before it runs out of fuel, and
    the bills stay below the width of the accounts.  The calls then return the gas of
    the frame, and the proof ties the knot by induction on the fuel. *)

From stdpp Require Import base gmap list numbers option strings.
From S2P Require Import Prelude Params MultiGas Uint256 VmCore JumpDest AccessList State Evm VmGas.
From S2P Require Import Instructions JumpTable Interpreter GasAccounting CallGas GasConservation.
From S2P Require Import GasTables.
Open Scope Z_scope.
Open Scope vm_scope.

(** ** Frames *)

(** From [c] to [c'] the bills are [d], [r] of it lent, and the accounts of a contract
    with the gas of [c] do not saturate. *)
Definition frame_moves (c c' : Contract) (d r : list Z) : Prop :=
  moves c c' d r /\ ble r d /\ sumZ d <= 3 * Gas c * (Gas c + 1) + (Gas c - Gas c')
    /\ 0 <= Gas c' <= Gas c.

Definition frame_ok (c c' : Contract) : Prop := exists d r, frame_moves c c' d r.

Lemma ble_Forall2 r d : is_bill r -> is_bill d -> ble r d -> Forall2 Z.le r d.
Proof.
  intros [L1 _] [L2 _] H. unfold NumResourceKind in *.
  do 9 (destruct r as [|? r]; [discriminate|]). do 9 (destruct d as [|? d]; [discriminate|]).
  destruct r, d; try discriminate. unfold ble, amount in H.
  repeat constructor;
    [ apply (H ResourceKindUnknown) | apply (H ResourceKindComputation)
    | apply (H ResourceKindHistoryGrowth) | apply (H ResourceKindStorageAccessRead)
    | apply (H ResourceKindStorageAccessWrite) | apply (H ResourceKindStorageGrowth)
    | apply (H ResourceKindSingleDim) | apply (H ResourceKindL2Calldata)
    | apply (H ResourceKindWasmComputation) ].
Qed.

Lemma is_bill_u64 d : is_bill d -> sumZ d < two64 -> Forall is_u64 d.
Proof.
  intros [_ F] Hs. apply Forall_forall. intros x Hx. apply list_elem_of_lookup in Hx as [i Hi].
  pose proof (sumZ_lookup_le d i x F Hi). pose proof (Forall_lookup_1 _ _ _ _ F Hi) as H0.
  cbv beta in H0. unfold is_u64. lia.
Qed.

Lemma sub_bill d r : Forall is_u64 d -> Forall is_u64 r -> Forall2 Z.le r d ->
  sumZ (saturating_zip saturatingScalarSub d r) = sumZ d - sumZ r.
Proof.
  intros Hd Hr H. induction H as [|y x r d Hle H IH]; [done|].
  inversion_clear Hd as [|? ? Hx Hd']. inversion_clear Hr as [|? ? Hy Hr']. simpl.
  rewrite saturatingScalarSub_spec by done. specialize (IH Hd' Hr'). unfold sumZ in *. simpl. lia.
Qed.

Lemma GetTotalUsedMultiGas_sub c : GetTotalUsedMultiGas c = SaturatingSub (UsedMultiGas c) (RetainedMultiGas c).
Proof.
  unfold GetTotalUsedMultiGas. destruct (SafeSub _ _) as [t []] eqn:E; [done|]. by apply SafeSub_saturating.
Qed.

(** What a frame that started with empty accounts reports. *)
Lemma total_used c c' :
  UsedMultiGas c = ZeroGas -> RetainedMultiGas c = ZeroGas -> 0 <= Gas c <= gas_limit -> frame_ok c c' ->
  gas_ok (GetTotalUsedMultiGas c') /\ total (GetTotalUsedMultiGas c') + Gas c' = Gas c.
Proof.
  unfold gas_limit. intros HU HR Hg (d & r & [Hd Hr EU ER EG] & Hle & Hsum & ?).
  rewrite GetTotalUsedMultiGas_sub, EU, ER, HU, HR.
  assert (3 * Gas c * (Gas c + 1) <= 3 * 2147483648 * (2147483648 + 1)) as Hb
    by (apply Z.mul_le_mono_nonneg; lia).
  pose proof (ble_Forall2 r d Hr Hd Hle) as HF.
  assert (sumZ r <= sumZ d) as Hrd.
  { clear - HF. induction HF; unfold sumZ in *; simpl; lia. }
  destruct (add_bill_zero d Hd) as [-> _]; [lia|]. destruct (add_bill_zero r Hr) as [-> _]; [lia|].
  pose proof (is_bill_u64 d Hd) as Ud. pose proof (is_bill_u64 r Hr) as Ur.
  pose proof (sumZ_bill_nonneg d Hd). pose proof (sumZ_bill_nonneg r Hr).
  specialize (Ud ltac:(lia)). specialize (Ur ltac:(lia)).
  assert (wf (mkMultiGas d (sumZ d) 0)) as Wd by (split; [apply Hd|done|unfold is_u64; simpl; lia|done]).
  assert (wf (mkMultiGas r (sumZ r) 0)) as Wr by (split; [apply Hr|done|unfold is_u64; simpl; lia|done]).
  pose proof (SaturatingSub_wf _ _ Wd Wr) as W.
  pose proof (sub_bill d r Ud Ur HF) as Hs.
  assert (total (SaturatingSub (mkMultiGas d (sumZ d) 0) (mkMultiGas r (sumZ r) 0)) = sumZ d - sumZ r
    /\ gas (SaturatingSub (mkMultiGas d (sumZ d) 0) (mkMultiGas r (sumZ r) 0))
       = saturating_zip saturatingScalarSub d r
    /\ MultiGas.refund (SaturatingSub (mkMultiGas d (sumZ d) 0) (mkMultiGas r (sumZ r) 0)) = 0) as (Et & Eg & Er).
  { unfold SaturatingSub, recomputeTotal. cbn [gas].
    rewrite recompute_loop_spec; [|unfold is_u64; lia|apply saturating_zip_u64; auto with go].
    cbn [fst total gas MultiGas.refund]. rewrite Hs. split; [|done]. unfold MaxUint64. lia. }
  split; [split|].
  - done.
  - unfold exact. rewrite Et, Eg. lia.
  - exact Er.
  - rewrite Et. lia.
Qed.

Section Run.
Context {U : U256.Ops} {L : U256.Laws U} {HS : Hasher} {R : Reader} {CH : Chain} {EN : Env}
  {PC : Precompiles}.
Context (no_verkle : IsEIP4762 chainRules = false).

(** What the chain's extensions promise: the [TxProcessingHook] accounts for the gas a
    WASM program takes the way the interpreter does, and a precompiled contract never
    charges more than it was given. *)
Class GasHooks := {
  wasm_accounts c input e ret err c' e' :
    contract_wf c -> Gas c <= gas_limit -> ExecuteWASM c input e = Some (ret, err, c', e') ->
    frame_ok c c';
  basic_gas a rg f input g : precompile a = Some (Basic rg f) -> rg input = Some g -> is_u64 g;
  advanced_gas a f input gas info e r e' :
    precompile a = Some (Advanced f) -> 0 <= gas <= gas_limit -> f input gas info e = Some (r, e') ->
    result_ok gas r
}.
Context {GH : GasHooks}.

(** ** The loop *)

Lemma step_stepped cs N pc st s :
  calls_ok cs N -> N <= gas_limit -> contract_wf (v_contract s) -> Gas (v_contract s) <= N ->
  run_post (fun x => stepped (v_contract s) (v_contract x.2) (progress_of x.1)) (step cs pc st s).
Proof.
  intros. change (step cs pc st s) with
    (run_op (lookup_op (select_table chainRules) (GetOp (v_contract s) pc)) cs
       (GetOp (v_contract s) pc) pc st s).
  eapply lookup_op_steps; try done. by apply select_table_ok.
Qed.

(** What the loop did so far, from [c0] on. *)
Definition loop_moves (c0 c : Contract) (steps : Z) : Prop :=
  exists d r, moves c0 c d r /\ ble r d /\ sumZ d <= 3 * Gas c0 * steps /\ 0 <= Gas c <= Gas c0.

Lemma loop_moves_step c0 c c' k p :
  loop_moves c0 c k -> stepped c c' p -> loop_moves c0 c' (k + 1) /\ Gas c' + p <= Gas c.
Proof.
  intros (d1 & r1 & M1 & L1 & B1 & G1) (d2 & r2 & M2 & L2 & S2 & G2 & P2). split; [|done].
  exists (badd d1 d2), (badd r1 r2). pose proof (mv_gas _ _ _ _ M2) as E2.
  pose proof (sumZ_bill_nonneg r2 (mv_rbill _ _ _ _ M2)) as Hr.
  pose proof (sumZ_bill_nonneg d2 (mv_bill _ _ _ _ M2)) as Hd.
  assert (Gas c' <= Gas c) as Hle by (apply ble_Forall2 in L2; [|apply M2..];
    assert (sumZ r2 <= sumZ d2) by (clear - L2; induction L2; unfold sumZ in *; simpl; lia); lia).
  split; [by eapply moves_trans|]. split; [apply ble_badd; done || apply M1 || apply M2|].
  rewrite sumZ_badd_bill by (apply M1 || apply M2).
  split; [|lia]. rewrite Z.mul_add_distr_l. lia.
Qed.

Lemma loop_frame cs N c0 n pc st s k :
  calls_ok cs N -> N <= gas_limit -> contract_wf c0 -> Gas c0 <= N ->
  loop_moves c0 (v_contract s) k -> k + Gas (v_contract s) <= Gas c0 -> Gas (v_contract s) < Z.of_nat n ->
  run_post (fun x => frame_ok c0 (v_contract x.2)) (loop cs n pc st s).
Proof.
  intros Hcs HN Hc0 HG. revert pc st s k. induction n as [|n IH]; intros pc st s k Hl Hk Hn; simpl.
  { destruct Hl as (d & r & _ & _ & _ & ?). lia. }
  assert (contract_wf (v_contract s)) as Hc by (destruct Hl as (d & r & M & _ & _ & ?); by eapply moves_wf).
  assert (0 <= Gas (v_contract s) <= Gas c0) as Hg by (by destruct Hl as (d & r & _ & _ & _ & ?)).
  pose proof (step_stepped cs N pc st s Hcs HN Hc ltac:(lia)) as Hs.
  destruct (step cs pc st s) as [[res s']| |]; [|done|done]. simpl in Hs.
  destruct (loop_moves_step _ _ _ _ _ Hl Hs) as [Hl' Hp].
  destruct res as [[pc' st'|ret err]|err]; simpl in Hp.
  - apply (IH _ _ _ (k + 1)); [done|lia|lia].
  - destruct Hl' as (d & r & M & Hle & B & G). exists d, r. split; [done|]. split; [done|]. split; [|done].
    assert (3 * Gas c0 * (k + 1) <= 3 * Gas c0 * (Gas c0 + 1)) by (apply Z.mul_le_mono_nonneg_l; lia).
    cbn [snd] in *. lia.
  - destruct Hl' as (d & r & M & Hle & B & G). exists d, r. split; [done|]. split; [done|]. split; [|done].
    assert (3 * Gas c0 * (k + 1) <= 3 * Gas c0 * (Gas c0 + 1)) by (apply Z.mul_le_mono_nonneg_l; lia).
    cbn [snd] in *. lia.
Qed.

Lemma frame_same c c' : contract_wf c -> same_accounts c c' -> frame_ok c c'.
Proof.
  intros Hc Hs. pose proof (cw_gas _ Hc) as [H0 _]. exists no_bill, no_bill.
  split; [by apply moves_same|]. split; [apply ble_refl|]. destruct Hs as (-> & _).
  rewrite sumZ_no_bill. split; [|lia].
  assert (0 <= 3 * Gas c * (Gas c + 1)) by (apply Z.mul_nonneg_nonneg; lia). lia.
Qed.

Lemma frame_same_l c c1 c' : same_accounts c c1 -> frame_ok c1 c' -> frame_ok c c'.
Proof.
  intros Hs (d & r & M & Hle & B & G). exists d, r. split; [by eapply moves_same_l|].
  destruct Hs as (E & _). by rewrite E in *.
Qed.

Lemma run_body_frame cs n c input e :
  calls_ok cs (Gas c) -> contract_wf c -> Gas c <= gas_limit -> Gas c < Z.of_nat n ->
  run_post (fun x => frame_ok c x.1.2) (run_body cs n c input e).
Proof.
  intros Hcs Hc Hlim Hn. unfold run_body. destruct (Code c) as [|b code]; [by apply frame_same|].
  destruct (_ && _).
  - destruct (ExecuteWASM _ _ _) as [[[[ret err] c'] e']|] eqn:E; [|done]. simpl.
    apply (frame_same_l _ (set_Input input c)); [done|]. eapply wasm_accounts; [| |exact E]; [|done].
    by eapply same_accounts_wf.
  - pose proof (loop_frame cs (Gas c) c n 0 [] (mkVst e (set_Input input c) Memory.NewMemory) 0) as Hl.
    cbn [v_contract] in Hl. destruct (loop _ _ _ _ _) as [[[ret err] s]| |]; simpl in *;
      (apply Hl || (exfalso; apply Hl)); try done; try lia;
      pose proof (cw_gas _ Hc) as [H0 _]; exists no_bill, no_bill; (split; [by apply moves_same|]);
      (split; [apply ble_refl|]); rewrite sumZ_no_bill; simpl; lia.
Qed.

Lemma run_with_frame cs n c input ro e :
  calls_ok cs (Gas c) -> contract_wf c -> Gas c <= gas_limit -> Gas c < Z.of_nat n ->
  run_post (fun x => frame_ok c x.1.2) (run_with cs n c input ro e).
Proof.
  intros Hcs Hc Hlim Hn. unfold run_with.
  pose proof (run_body_frame cs n c input
    (set_returnData [] (if ro && negb (readOnly (set_depth (depth e + 1) e))
       then set_readOnly true (set_depth (depth e + 1) e) else set_depth (depth e + 1) e)) Hcs Hc Hlim Hn) as H.
  destruct (run_body _ _ _ _ _) as [[[[ret err] c'] e']| |]; done.
Qed.

(** ** The calls *)

Lemma absorb_used u : gas_ok u -> SaturatingAddInto ZeroGas u = u.
Proof.
  intros Hu. rewrite SaturatingAddInto_bill by (apply ZeroGas_wf || done).
  pose proof (gas_ok_total u Hu) as [Ht He].
  destruct (add_bill_zero (gas u) (gas_ok_bill u Hu)) as [-> _]; [lia|].
  destruct u as [g t r], Hu as [_ _ Hr]. simpl in *. by subst.
Qed.

Lemma failed_ok gas err e : 0 <= gas -> run_post (fun x => result_ok gas x.1) (failed gas err e).
Proof. intros Hg. split; simpl; [done|apply zero_gas_ok|done]. Qed.

Lemma end_call_ok snapshot ret gas used err e G :
  gas_ok used -> 0 <= gas -> total used + gas = G -> G <= gas_limit ->
  run_post (fun x => result_ok G x.1) (end_call snapshot ret gas used err e).
Proof.
  unfold gas_limit. intros Hu H0 HG Hlim. pose proof (gas_ok_total used Hu) as [Ht _]. unfold end_call.
  destruct err as [err|]; [|by split].
  destruct (RevertToSnapshot _ _); [|done].
  assert (gas_ok (SaturatingIncrementInto used ResourceKindComputation gas)
    /\ total (SaturatingIncrementInto used ResourceKindComputation gas) = total used + gas) as [H1 H2].
  { change (SaturatingIncrementInto used ?k ?a) with (SaturatingIncrement used k a).
    destruct (SaturatingIncrement_ok used ResourceKindComputation gas Hu) as (H1 & H2 & _);
      [unfold is_u64; lia|lia|done]. }
  destruct err; split; cbn [fst leftOverGas usedMultiGas]; try done; lia.
Qed.

Lemma RunPrecompiledContract_ok a p input gas info e r e' :
  precompile a = Some p -> 0 <= gas <= gas_limit ->
  RunPrecompiledContract p input gas info e = Some (r, e') -> result_ok gas r.
Proof.
  unfold gas_limit. intros Hp Hg. destruct p as [rg f|f]; simpl.
  - pose proof (fun g => basic_gas _ _ _ input g Hp) as Hr. destruct (rg input) as [g|]; [|done].
    specialize (Hr g eq_refl). unfold is_u64 in Hr. simpl mbind. destruct (Z.ltb_spec gas g).
    + intros [= <- <-]. split; cbn [leftOverGas usedMultiGas]; [done|apply new_gas_ok; unfold is_u64; lia|].
      change (total (ComputationGas gas)) with gas. lia.
    + destruct (f input) as [[output err]|]; [|done]. intros [= <- <-].
      split; cbn [leftOverGas usedMultiGas]; [lia|apply new_gas_ok; unfold is_u64; lia|].
      change (total (ComputationGas g)) with g. lia.
  - intros E. by eapply advanced_gas.
Qed.

Lemma run_precompiled_ok a p snapshot input gas info e :
  precompile a = Some p -> 0 <= gas <= gas_limit ->
  run_post (fun x => result_ok gas x.1) (run_precompiled snapshot p input gas info e).
Proof.
  intros Hp Hg. unfold run_precompiled. destruct (RunPrecompiledContract _ _ _ _ _) as [[r e']|] eqn:E; [|done].
  destruct (RunPrecompiledContract_ok _ _ _ _ _ _ _ _ Hp Hg E) as [Hl Hu Hs].
  rewrite absorb_used by done. apply end_call_ok; try done. lia.
Qed.

(** A contract of a new frame. *)
Record fresh (c : Contract) (gas : Z) : Prop := {
  fr_gas : Gas c = gas;
  fr_used : UsedMultiGas c = ZeroGas;
  fr_retained : RetainedMultiGas c = ZeroGas
}.

Lemma fresh_wf c gas : fresh c gas -> 0 <= gas <= gas_limit -> contract_wf c.
Proof.
  unfold gas_limit. intros [Eg Eu Er] Hg. split; rewrite ?Eg, ?Eu, ?Er; try apply ZeroGas_wf.
  unfold is_u64. lia.
Qed.

Section Calls.
Context (Run : Contract -> list Z -> bool -> EVM -> run run_result) (N : Z).
Hypothesis run_frame : forall c input ro e, contract_wf c -> Gas c < N ->
  run_post (fun x => frame_ok c x.1.2) (Run c input ro e).
Hypothesis N_limit : N <= gas_limit.

Lemma run_contract_ok snapshot c input ro e gas :
  fresh c gas -> 0 <= gas < N ->
  run_post (fun x => result_ok gas x.1) (run_contract Run snapshot c input ro e).
Proof.
  intros Hf Hg. pose proof (fresh_wf _ _ Hf ltac:(lia)) as Hc. destruct Hf as [Eg Eu Er].
  unfold run_contract. pose proof (run_frame c input ro e Hc ltac:(lia)) as Hr.
  destruct (Run c input ro e) as [[[[ret err] c'] e']| |]; [|done|done]. simpl in Hr.
  destruct (total_used c c' Eu Er ltac:(lia) Hr) as [Hu Ht].
  rewrite absorb_used by done. apply end_call_ok; [done| |lia|lia].
  by destruct Hr as (d & r & _ & _ & _ & ? & _).
Qed.

(** Splitting the state operations a call does first. *)
Ltac db_step :=
  match goal with
  | |- context [with_db ?f ?e] => destruct (with_db f e) as [? ?]
  | |- context [code_contract ?a ?c ?e] => unfold code_contract
  end.
Ltac call_step :=
  match goal with
  | |- run_post _ (if ?b then _ else _) => destruct b
  | |- run_post _ (failed _ _ _) => apply failed_ok; lia
  | |- run_post _ (run_precompiled _ _ _ _ _ _) => eapply run_precompiled_ok; [eassumption|lia]
  | |- run_post _ (run_contract _ _ _ _ _ _) => apply run_contract_ok; [done|lia]
  | |- run_post _ (end_call _ _ _ _ _ _) => apply end_call_ok; [apply zero_gas_ok|lia|done|lia]
  | |- run_post _ (Done _) => split; simpl; [lia|apply zero_gas_ok|done]
  | |- run_post _ (match precompile ?a with _ => _ end) => destruct (precompile a) eqn:?
  | |- run_post _ (match ?l with [] => _ | _ => _ end) => destruct l
  | |- run_post _ (let '(_, _) := (if ?b then _ else _) in _) => destruct b
  | _ => db_step
  end.
Ltac call_ok := intros Hg; cbv zeta; repeat call_step.

Lemma Call_ok a b i gas v e : 0 <= gas < N -> run_post (fun x => result_ok gas x.1) (Call Run a b i gas v e).
Proof. unfold Call. call_ok. Qed.
Lemma CallCode_ok a b i gas v e :
  0 <= gas < N -> run_post (fun x => result_ok gas x.1) (CallCode Run a b i gas v e).
Proof. unfold CallCode. call_ok. Qed.
Lemma DelegateCall_ok a b c i gas v e :
  0 <= gas < N -> run_post (fun x => result_ok gas x.1) (DelegateCall Run a b c i gas v e).
Proof. unfold DelegateCall. call_ok. Qed.
Lemma StaticCall_ok a b i gas e :
  0 <= gas < N -> run_post (fun x => result_ok gas x.1) (StaticCall Run a b i gas e).
Proof. unfold StaticCall. call_ok. Qed.

(** ** Creation *)

Lemma frame_use g c c' :
  contract_wf c -> frame_ok c c' -> gas_ok g -> frame_ok c (snd (UseMultiGas g c')).
Proof.
  intros Hc (d & r & M & Hle & B & G) Hg. assert (contract_wf c') as Hc' by (by eapply moves_wf).
  pose proof (UseMultiGas_moves g c' Hc' Hg) as Hu. pose proof (gas_ok_total g Hg) as [H0 He].
  destruct (Z.ltb_spec (Gas c') (total g)); [rewrite Hu; by exists d, r|].
  destruct Hu as (c2 & -> & M2 & _ & _ & G2). cbn [snd]. exists (badd d (gas g)), r.
  pose proof (moves_trans _ _ _ _ _ _ _ M M2) as M3. rewrite badd_no_bill_r in M3 by apply M.
  pose proof (gas_ok_bill g Hg) as Hb.
  split; [done|]. split; [|rewrite sumZ_badd_bill by (apply M || done); lia].
  intros k. rewrite amount_badd by (apply M || done). specialize (Hle k).
  pose proof (amount_nonneg _ k Hb). lia.
Qed.

Lemma initNewContract_frame c a e :
  contract_wf c -> Gas c < N -> run_post (fun x => frame_ok c x.1.2) (initNewContract Run c a e).
Proof.
  intros Hc HN. unfold initNewContract. pose proof (run_frame c [] false e Hc HN) as Hr.
  destruct (Run c [] false e) as [[[[ret err] c'] e']| |]; [|done|done]. simpl in Hr.
  destruct err as [err|]; [done|]. cbv zeta. do 2 (case_match; [done|]).
  pose proof (frame_use (StorageGrowthGas (u64 (Z.of_nat (length ret) * CreateDataGas))) c c' Hc Hr) as Hu.
  destruct (UseMultiGas _ _) as [ok c2]. simpl in Hu.
  specialize (Hu ltac:(apply new_gas_ok, u64_range)). by destruct ok.
Qed.

Lemma used_result_ok c c' ret err gas :
  fresh c gas -> 0 <= gas <= gas_limit -> frame_ok c c' ->
  result_ok gas (mkCallResult ret (Gas c') (GetTotalUsedMultiGas c') err).
Proof.
  intros [Eg Eu Er] Hg Hf. destruct (total_used c c' Eu Er ltac:(lia) Hf) as [Hu Ht].
  split; simpl; [|done|lia]. by destruct Hf as (d & r & _ & _ & _ & ? & _).
Qed.

Lemma end_create_ok c gas snapshot a x :
  fresh c gas -> 0 <= gas <= gas_limit -> frame_ok c x.1.2 ->
  run_post (fun y => result_ok gas y.1.1) (end_create snapshot a x).
Proof.
  intros Hf Hg Hx. destruct x as [[[ret err] c'] e']. simpl in Hx. unfold end_create.
  destruct err as [er|]; [|by eapply used_result_ok]. destruct (_ || _); [|by eapply used_result_ok].
  destruct (RevertToSnapshot _ _); [|done]. pose proof (fresh_wf _ _ Hf Hg) as Hc.
  assert (frame_ok c (snd (UseMultiGas (ComputationGas (Gas c')) c'))) as Hu.
  { apply frame_use; [done|done|]. apply new_gas_ok. destruct Hx as (d & r & _ & _ & _ & ?).
    pose proof (cw_gas _ Hc). unfold is_u64 in *. lia. }
  destruct er; by eapply used_result_ok.
Qed.

Lemma deploy_ok snapshot caller code gas v a e :
  0 <= gas < N -> run_post (fun y => result_ok gas y.1.1) (deploy Run snapshot caller code gas v a e).
Proof.
  intros Hg. unfold deploy. db_step. destruct (CreateContract _ _); [|done]. cbv zeta.
  match goal with |- context [initNewContract Run ?c ?a ?e] => set (c0 := c); set (e1 := e) end.
  assert (fresh c0 gas) as Hf by done. pose proof (fresh_wf _ _ Hf ltac:(lia)) as Hc.
  pose proof (initNewContract_frame c0 a e1 Hc ltac:(simpl; lia)) as Hi.
  destruct (initNewContract Run c0 a e1) as [x| |]; [|done|done].
  eapply end_create_ok; [done|lia|done].
Qed.

Lemma create_failed_ok left used err e gas :
  gas_ok used -> 0 <= left -> total used + left = gas ->
  run_post (fun y => result_ok gas y.1.1) (create_failed left used err e).
Proof. by split. Qed.

Lemma create_ok caller code gas v a e :
  0 <= gas < N -> run_post (fun y => result_ok gas y.1.1) (create Run caller code gas v a e).
Proof.
  intros Hg. unfold create.
  repeat first
    [ match goal with
      | |- run_post _ (create_failed _ ZeroGas _ _) => apply create_failed_ok; [apply zero_gas_ok|lia|done]
      | |- run_post _ (create_failed _ (ComputationGas _) _ _) =>
          apply create_failed_ok; [apply new_gas_ok; unfold gas_limit, is_u64 in *; lia|lia|]
      | |- run_post _ (deploy _ _ _ _ _ _ _ _) => by apply deploy_ok
      end
    | call_step | progress cbv zeta ].
  change (total (ComputationGas gas)) with gas. lia.
Qed.

Lemma calls_of_ok : calls_ok (calls_of Run) N.
Proof.
  split; simpl; intros.
  - by apply Call_ok.
  - by apply CallCode_ok.
  - by apply DelegateCall_ok.
  - by apply StaticCall_ok.
  - unfold Create. db_step. by apply create_ok.
  - unfold Create2. by apply create_ok.
Qed.
End Calls.

(** ** The knot *)

Lemma calls_ok_le cs N N' : calls_ok cs N -> N' <= N -> calls_ok cs N'.
Proof. intros [] Hle. split; intros; eauto with lia. Qed.

Lemma Run_frame fuel c input ro e :
  contract_wf c -> Gas c < Z.of_nat fuel -> Gas c <= gas_limit ->
  run_post (fun x => frame_ok c x.1.2) (Run fuel c input ro e).
Proof.
  revert c input ro e. induction fuel as [|fuel IH]; intros c input ro e Hc Hf Hlim.
  { pose proof (cw_gas _ Hc) as [? _]. lia. }
  simpl. apply run_with_frame; [|done..]. apply calls_of_ok; [|lia].
  intros c1 input1 ro1 e1 Hc1 Hl. apply IH; [done|lia|lia].
Qed.
End Run.
