(* ===== verification/GasTheorems.v ===== *)
(** What the interpreter guarantees about gas: the calls come to an end, and what the ones
    that return used and what they leave add up to what they were given. *)

From stdpp Require Import base gmap list numbers option strings.
From S2P Require Import Prelude Params MultiGas Uint256 VmCore JumpDest AccessList State.
From S2P Require Import StateRevert Evm VmGas SstoreRefund Instructions JumpTable Interpreter.
From S2P Require Import FuelMono GasAccounting CallGas GasConservation GasTables GasRun.
Open Scope Z_scope.

(** A result that accounts for the gas of the call. *)
Definition gas_accounted (gas : Z) (r : call_result) : Prop :=
  0 <= leftOverGas r <= gas
  /\ total (usedMultiGas r) = sumZ (MultiGas.gas (usedMultiGas r))
  /\ SingleGas (usedMultiGas r) + leftOverGas r = gas.

Lemma result_ok_accounted gas r : result_ok gas r -> gas_accounted gas r.
Proof.
  intros [Hl Hu Hs]. pose proof (gas_ok_total _ Hu) as [Ht He]. pose proof (gas_ok_single _ Hu) as Hsg.
  split; [lia|]. split; [done|]. lia.
Qed.

(** [terminates_with P x]: the computation [x] comes to an end, for it never lacks fuel, and
    when that end is a result and not a panic of the program the result satisfies [P]. *)
Definition terminates_with {A} (P : A -> Prop) (x : run A) : Prop :=
  match x with Done a => P a | Panics => True | NoFuel => False end.

Lemma terminates_weaken {A} (P Q : A -> Prop) x : (forall a, P a -> Q a) -> run_post P x -> terminates_with Q x.
Proof. destruct x; simpl; auto. Qed.

Section Theorems.
Context {U : U256.Ops} {L : U256.Laws U} {HS : Hasher} {R : Reader} {CH : Chain} {EN : Env}
  {PC : Precompiles} {GH : GasHooks}.

(** The calls of a machine with more fuel than gas. *)
Lemma calls_below fuel gas : IsEIP4762 chainRules = false -> 0 <= gas < gas_limit -> gas < Z.of_nat fuel ->
  calls_ok (calls_of (Run fuel)) (gas + 1).
Proof.
  intros no_verkle Hg Hf. apply calls_of_ok; [|lia].
  intros c input ro e Hc Hl. apply Run_frame; try done; lia.
Qed.

(** C1.  Gas is conserved by the message calls, and they terminate: with more fuel than
    gas, [Call], [CallCode], [DelegateCall] and [StaticCall] never run out of fuel, whatever
    contracts they run and in whatever state; and whenever they return, with a result or an
    error of the machine rather than a Go panic, the gas left is at most the gas given, the
    dimensions of the multi-dimensional gas used add up to its total, and that total
    and the gas left add up to the gas given.  That they do not panic is not claimed.  The gas
    is below [gas_limit], 2^31, so that no account saturates; the chain is without the Verkle
    rules; and the hooks and precompiled contracts of the chain account for the gas they
    take, class [GasHooks]. *)
Theorem message_calls_conserve_gas fuel gas (no_verkle : IsEIP4762 chainRules = false) :
  0 <= gas < gas_limit -> gas < Z.of_nat fuel ->
  forall caller addr input v e,
    terminates_with (fun x => gas_accounted gas x.1) (Call (Run fuel) caller addr input gas v e)
    /\ terminates_with (fun x => gas_accounted gas x.1) (CallCode (Run fuel) caller addr input gas v e)
    /\ (forall origin,
          terminates_with (fun x => gas_accounted gas x.1) (DelegateCall (Run fuel) origin caller addr input gas v e))
    /\ terminates_with (fun x => gas_accounted gas x.1) (StaticCall (Run fuel) caller addr input gas e).
Proof.
  intros Hg Hf caller addr input v e. pose proof (calls_below fuel gas no_verkle Hg Hf) as Hok.
  repeat split; intros; (eapply terminates_weaken; [intros a; apply result_ok_accounted|]);
    [apply (ok_Call _ _ Hok)|apply (ok_CallCode _ _ Hok)|apply (ok_DelegateCall _ _ Hok)
    |apply (ok_StaticCall _ _ Hok)]; lia.
Qed.

(** C3.  Gas is conserved by contract creation, and it terminates: with more fuel than
    gas, [Create] and [Create2] never run out of fuel, and whenever they return, without a Go
    panic, the gas is accounted for, whether the constructor succeeds, fails, collides with an
    existing contract or cannot pay for the code.  As for the calls, the gas is below
    [gas_limit], 2^31, the chain is without the Verkle rules and its hooks account for their
    gas. *)
Theorem creations_conserve_gas fuel gas (no_verkle : IsEIP4762 chainRules = false) :
  0 <= gas < gas_limit -> gas < Z.of_nat fuel ->
  forall caller code v e,
    terminates_with (fun x => gas_accounted gas x.1.1) (Create (Run fuel) caller code gas v e)
    /\ (forall salt,
          terminates_with (fun x => gas_accounted gas x.1.1) (Create2 (Run fuel) caller code gas v salt e)).
Proof.
  intros Hg Hf caller code v e.
  pose proof (calls_below fuel gas no_verkle Hg Hf) as Hok.
  split; intros; (eapply terminates_weaken; [intros a; apply result_ok_accounted|]);
    [apply (ok_Create _ _ Hok)|apply (ok_Create2 _ _ Hok)]; lia.
Qed.

(** C2.  The fuel of the model is only a device: two runs of a contract with any fuels
    above its gas have the same outcome, a result or a panic and never exhaustion. *)
Theorem interpreter_terminates fuel fuel' c input ro e (no_verkle : IsEIP4762 chainRules = false) :
  contract_wf c -> Gas c <= gas_limit -> Gas c < Z.of_nat fuel -> Gas c < Z.of_nat fuel' ->
  Run fuel c input ro e = Run fuel' c input ro e /\ Run fuel c input ro e <> NoFuel.
Proof.
  intros Hc Hlim Hf Hf'.
  assert (forall n, Gas c < Z.of_nat n -> Run n c input ro e <> NoFuel) as Hne.
  { intros n Hn E. pose proof (Run_frame no_verkle n c input ro e Hc Hn Hlim) as H. by rewrite E in H. }
  assert (forall op, exec_mono (execute (lookup_op (select_table chainRules) op))) as Hmono
    by (intros op; by apply lookup_op_mono, select_table_ok).
  split; [|by apply Hne]. destruct (Nat.le_gt_cases fuel fuel') as [Hle|Hle].
  - symmetry. eapply run_le_done; [by apply Run_le|by apply Hne].
  - eapply run_le_done; [apply Run_le; [done|lia]|by apply Hne].
Qed.
End Theorems.

(** ** A concrete machine

    Account 5 adds two numbers and returns the sum; account 6 calls account 5, stores
    the flag of the call and returns; account 8 is a precompiled identity that
    charges 15. *)

Module ToyMachine.

Definition add_code : list Z := [0x60; 5; 0x60; 3; 0x01; 0x60; 0; 0x52; 0x60; 32; 0x60; 0; 0xf3].
Definition call_code : list Z :=
  [0x60; 32; 0x60; 0; 0x60; 0; 0x60; 0; 0x60; 0; 0x60; 5; 0x60; 100; 0xf1;
   0x60; 0; 0x52; 0x60; 32; 0x60; 0; 0xf3].

#[export] Instance U : U256.Ops := U256.reference.
#[export] Instance UL : U256.Laws U := U256.reference_laws.
#[export] Instance HS : Hasher := toy_hasher.
#[export] Instance CH : Chain := toy_chain.
#[export] Instance R : Reader := {|
  r_Account a := if (a =? 5) || (a =? 6) then Ok (Some (mkAccount 1 100 7 1003)) else Ok None;
  r_Storage _ _ := Ok 0;
  r_Code a _ := if a =? 5 then (add_code, None) else if a =? 6 then (call_code, None) else ([], None);
  r_CodeSize a _ := if a =? 5 then (13, None) else if a =? 6 then (23, None) else (0, None);
  db_ActivatedAsm _ _ := [];
  LocalTarget := "amd64"%string
|}.
#[export] Instance EN : Env := {|
  ChainID := 42161; Coinbase := 0; GasLimit := 0; ctx_BlockNumber := 7; Time := 0; Difficulty := 0;
  BaseFee := 0; BlobBaseFee := 0; Random := 0; Origin := 0; BlobHashes := [];
  EnablePreimageRecording := false;
  GasPriceOp e := (0, e); L1BlockNumber e := (Ok 7, e); L1BlockHash n e := (Ok n, e);
  ExecuteWASM c _ e := Some ([], None, c, e)
|}.
#[export] Instance PC : Precompiles := fun a =>
  if a =? 8 then Some (Basic (fun _ => Some 15) (fun input => Some (input, None))) else None.

#[export] Instance GH : GasHooks.
Proof.
  split.
  - intros c input e ret err c' e' Hc _ [= <- <- <- <-]. by apply frame_same.
  - intros a rg f input g E Eg. unfold precompile, PC in E. destruct (a =? 8); [|done].
    injection E as <- _. by injection Eg as <-.
  - intros a f input gas info e r e' E. unfold precompile, PC in E. by destruct (a =? 8).
Defined.

Definition machine : EVM := mkEVM NewWithReader ∅ 0 0 false [] false.

End ToyMachine.

Section Witnesses.
Import ToyMachine.

(** Account 9 calls account 6 with 4000 gas. *)
Lemma message_calls_conserve_gas_witness :
  exists r e, Call (Run 4001) 9 6 [] 4000 0 machine = Done (r, e)
    /\ cr_err r = None /\ gas_accounted 4000 r.
Proof.
  destruct (message_calls_conserve_gas (CH := ToyMachine.CH) 4001 4000 eq_refl ltac:(done) ltac:(done) 9 6 [] 0 machine) as [H _].
  destruct (Call (Run 4001) 9 6 [] 4000 0 machine) as [[r e]| |] eqn:E; [|vm_compute in E; discriminate..].
  exists r, e. split; [done|]. split; [|exact H]. vm_compute in E. by injection E as <- _.
Defined.

(** Account 5 creates a contract whose constructor returns a word of code. *)
Lemma creations_conserve_gas_witness :
  exists r a e, Create (Run (Z.to_nat 8001)) 5 add_code 8000 0 machine = Done (r, a, e)
    /\ cr_err r = None /\ gas_accounted 8000 r.
Proof.
  destruct (creations_conserve_gas (CH := ToyMachine.CH) (Z.to_nat 8001) 8000 eq_refl ltac:(done) ltac:(done) 5 add_code 0 machine) as [H _].
  destruct (Create (Run (Z.to_nat 8001)) 5 add_code 8000 0 machine) as [[[r a] e]| |] eqn:E;
    [|vm_compute in E; discriminate..].
  exists r, a, e. split; [done|]. split; [|exact H]. vm_compute in E. by injection E as <- _.
Defined.

Lemma interpreter_terminates_witness :
  let c := SetCallCode 1003 add_code (NewContract 9 5 0 100) in
  Run 101 c [] false machine = Run 2000 c [] false machine /\ Run 101 c [] false machine <> NoFuel.
Proof.
  intros c. apply interpreter_terminates; try done. split; [by vm_compute|apply ZeroGas_wf..].
Defined.
End Witnesses.
