(* ===== verification/OpGuards.v ===== *)
(** The guards of the interpreter: what the loop checks before it executes an instruction is
    enough for the instruction.

    The jump tables of all forks are compared with what each opcode takes from the stack
    and puts on it ([pops], [pushes]) and with the memory it touches: after [prepare_op] no
    instruction indexes outside the stack, the memory, the code or another slice. *)

From stdpp Require Import base gmap list numbers option strings.
From S2P Require Import Prelude Params MultiGas Uint256 VmCore JumpDest AccessList State Evm VmGas.
From S2P Require Import Instructions JumpTable Interpreter GasTheorems.
Open Scope Z_scope.
Open Scope vm_scope.

(** ** What the opcodes do to the stack *)

Definition one_of (op : Z) (l : list Z) : bool := existsb (Z.eqb op) l.

(** The words an instruction takes, the ones it looks at included; *)
Definition pops (op : Z) : nat :=
  if (DUP1 <=? op) && (op <=? DUP16) then Z.to_nat (op - DUP1 + 1)
  else if (SWAP1 <=? op) && (op <=? SWAP16) then Z.to_nat (op - SWAP1 + 2)
  else if (LOG0 <=? op) && (op <=? LOG4) then Z.to_nat (op - LOG0 + 2)
  else if one_of op [ISZERO; NOT; CLZ; BALANCE; CALLDATALOAD; EXTCODESIZE; EXTCODEHASH; BLOCKHASH; BLOBHASH; POP; MLOAD;
                     SLOAD; TLOAD; JUMP; SELFDESTRUCT] then 1
  else if one_of op [ADD; MUL; SUB; DIV; SDIV; MOD; SMOD; EXP; SIGNEXTEND; LT; GT; SLT; SGT; EQ; AND; OR; XOR; BYTE; SHL;
                     SHR; SAR; KECCAK256; MSTORE; MSTORE8; SSTORE; TSTORE; JUMPI; RETURN; REVERT] then 2
  else if one_of op [ADDMOD; MULMOD; CALLDATACOPY; CODECOPY; RETURNDATACOPY; MCOPY; CREATE] then 3
  else if one_of op [EXTCODECOPY; CREATE2] then 4
  else if one_of op [DELEGATECALL; STATICCALL] then 6
  else if one_of op [CALL; CALLCODE] then 7
  else 0.

(** and the ones it puts there. *)
Definition pushes (op : Z) : nat :=
  if (DUP1 <=? op) && (op <=? DUP16) then Z.to_nat (op - DUP1 + 2)
  else if (SWAP1 <=? op) && (op <=? SWAP16) then Z.to_nat (op - SWAP1 + 2)
  else if (LOG0 <=? op) && (op <=? LOG4) then 0
  else if one_of op [STOP; CALLDATACOPY; CODECOPY; EXTCODECOPY; RETURNDATACOPY; POP; MSTORE; MSTORE8; SSTORE; TSTORE; MCOPY;
                     JUMP; JUMPI; JUMPDEST; RETURN; REVERT; SELFDESTRUCT; INVALID] then 0
  else 1.

(** The instructions that touch the memory. *)
Definition uses_memory (op : Z) : bool :=
  ((LOG0 <=? op) && (op <=? LOG4))
  || one_of op [KECCAK256; CALLDATACOPY; CODECOPY; EXTCODECOPY; RETURNDATACOPY; MLOAD; MSTORE; MSTORE8; MCOPY; CREATE; CREATE2;
                CALL; CALLCODE; DELEGATECALL; STATICCALL; RETURN; REVERT].

(** ** The machine *)

Definition small (l : list Z) : Prop := Z.of_nat (length l) < 2 ^ 63.

(** The types of what is read from the database and of the objects loaded from it. *)
Class TypedReader (R : Reader) : Prop := {
  typed_code a h : small (fst (r_Code a h));
  typed_account a acct : r_Account a = Ok (Some acct) -> 0 <= Balance acct
}.

Definition object_typed (so : stateObject) : Prop := small (so_code so) /\ 0 <= Balance (so_data so).
Definition objects_typed (db : StateDB) : Prop := map_Forall (fun _ so => object_typed so) (stateObjects db).

(** What the instructions rely on: cached analyses belong to the codes, byte slices have a length of type [int], and the
    objects of the state are typed; *)
Record running (codes : gmap Z (list Z)) (s : vst) : Prop := {
  rn_code : contract_coherent codes (code_part (v_contract s));
  rn_dests : cache_coherent codes (jumpDests (v_evm s));
  rn_small : small (Code (v_contract s)) /\ small (Input (v_contract s)) /\ small (returnData (v_evm s));
  rn_objects : objects_typed (evm_StateDB (v_evm s))
}.

(** and the gas functions also on the access list. *)
Record machine_ok (codes : gmap Z (list Z)) (s : vst) : Prop := {
  mo_running : running codes s;
  mo_access : AccessList.wf (al (evm_StateDB (v_evm s)))
}.

(** ** Computations that do not panic *)

Definition wp {A} (m : VM A) (s : vst) (Q : A -> vst -> Prop) : Prop :=
  match m s with None => False | Some (Ok a, s') => Q a s' | Some (Err _, _) => True end.

Lemma wp_vm_bind {A B} (m : VM A) (k : A -> VM B) s Q : wp m s (fun a s' => wp (k a) s' Q) -> wp (vm_bind m k) s Q.
Proof. unfold wp, vm_bind. by destruct (m s) as [[[a|e] s']|]. Qed.

Lemma wp_mono {A} (m : VM A) s (Q Q' : A -> vst -> Prop) : wp m s Q -> (forall a s', Q a s' -> Q' a s') -> wp m s Q'.
Proof. unfold wp. destruct (m s) as [[[a|e] s']|]; auto. Qed.

Lemma wp_throw_if b e s (Q : unit -> vst -> Prop) : (b = false -> Q tt s) -> wp (throw_if b e) s Q.
Proof. unfold throw_if. destruct b; [done|]. intros H. by apply H. Qed.

Lemma wp_or_panic {A} (o : option A) s (Q : A -> vst -> Prop) : (exists a, o = Some a /\ Q a s) -> wp (or_panic o) s Q.
Proof. by intros (a & -> & H). Qed.

Lemma wp_db_do {A} (f : StateDB -> A * StateDB) s (Q : A -> vst -> Prop) :
  (forall a db, f (evm_StateDB (v_evm s)) = (a, db) -> Q a (mkVst (set_StateDB db (v_evm s)) (v_contract s) (v_memory s))) ->
  wp (db_do f) s Q.
Proof. unfold wp, db_do. destruct (f _) as [a db] eqn:E. intros H. by apply H. Qed.

(** What the gas functions leave as it is: the code with its analyses, the input and the return data, the memory. *)
Definition frame (s s' : vst) : Prop :=
  code_part (v_contract s') = code_part (v_contract s) /\ Input (v_contract s') = Input (v_contract s)
  /\ returnData (v_evm s') = returnData (v_evm s) /\ jumpDests (v_evm s') = jumpDests (v_evm s)
  /\ Memory.store (v_memory s') = Memory.store (v_memory s)
  /\ (objects_typed (evm_StateDB (v_evm s)) -> objects_typed (evm_StateDB (v_evm s'))).

#[export] Instance frame_preorder : PreOrder frame.
Proof.
  split; [intros s; unfold frame; tauto|].
  intros s1 s2 s3 (A1 & B1 & C1 & D1 & E1 & F1) (A2 & B2 & C2 & D2 & E2 & F2). split_and!; try congruence. auto.
Qed.

Definition tame {A} (m : VM A) : Prop := forall s, wp m s (fun _ s' => frame s s').

Lemma tame_bind {A B} (m : VM A) (k : A -> VM B) : tame m -> (forall a, tame (k a)) -> tame (vm_bind m k).
Proof.
  intros Hm Hk s. apply wp_vm_bind. eapply wp_mono; [apply Hm|]. intros a s1 H1. eapply wp_mono; [apply Hk|].
  intros b s2 H2. by transitivity s1.
Qed.

Lemma tame_ret {A} (a : A) : tame (vm_ret a).
Proof. intros s. by apply frame_preorder. Qed.
Lemma tame_throw {A} e : tame (vm_throw (A := A) e).
Proof. done. Qed.
Lemma tame_throw_if b e : tame (throw_if b e).
Proof. intros s. apply wp_throw_if. by intros _. Qed.
Lemma tame_get_evm : tame get_evm.
Proof. intros s. by apply frame_preorder. Qed.
Lemma tame_get_contract : tame get_contract.
Proof. intros s. by apply frame_preorder. Qed.
Lemma tame_get_memory : tame get_memory.
Proof. intros s. by apply frame_preorder. Qed.
Lemma tame_db_get {A} (f : StateDB -> A) : tame (db_get f).
Proof. intros s. by apply frame_preorder. Qed.

Definition keeps_objects {A} (f : StateDB -> A * StateDB) : Prop :=
  forall db a db', f db = (a, db') -> objects_typed db -> objects_typed db'.

Lemma tame_db_do {A} (f : StateDB -> A * StateDB) : keeps_objects f -> tame (db_do f).
Proof. intros Hf s. apply wp_db_do. intros a db E. split_and!; try done. by apply (Hf _ a). Qed.
Lemma tame_db_put f : keeps_objects (fun db => (tt, f db)) -> tame (db_put f).
Proof. apply tame_db_do. Qed.

Lemma tame_back st n : (n < length st)%nat -> tame (back st n).
Proof.
  intros Hn s. apply wp_or_panic. destruct (lookup_lt_is_Some_2 st n Hn) as [x Hx]. exists x. split; [done|by apply frame_preorder].
Qed.
Lemma tame_peek st : (0 < length st)%nat -> tame (or_panic (Stack.peek st)).
Proof. apply (tame_back st 0). Qed.

Lemma tame_no_overflow r : tame (no_overflow r).
Proof. unfold no_overflow. case_match; [apply tame_throw|apply tame_ret]. Qed.
Lemma tame_safe_increment g k a : tame (safe_increment g k a).
Proof. unfold safe_increment. case_match. case_match; [apply tame_throw|apply tame_ret]. Qed.
Lemma tame_safe_add g x : tame (safe_add g x).
Proof. unfold safe_add. case_match. case_match; [apply tame_throw|apply tame_ret]. Qed.
Lemma tame_vm_result {A} (r : result vmError A) : tame (vm_result r).
Proof. destruct r; [apply tame_ret|apply tame_throw]. Qed.

Lemma tame_memoryGasCost size : tame (memoryGasCost size).
Proof.
  intros s. unfold memoryGasCost. case_match; [by apply frame_preorder|]. case_match; [done|].
  apply wp_vm_bind. unfold wp, get_memory. cbv zeta.
  destruct (Memory.Len (v_memory s) <? _); [|by apply frame_preorder]. by split_and!.
Qed.

(** *** The state *)

Section Objects.
Context {U : U256.Ops} {R : Reader} {TR : TypedReader R} {HS : Hasher}.

Lemma objects_insert a so db : objects_typed db -> object_typed so -> objects_typed (set_stateObjects (<[a := so]> (stateObjects db)) db).
Proof. intros Hdb Hso. by apply map_Forall_insert_2. Qed.

Lemma setError_typed e db : objects_typed db -> objects_typed (setError e db).
Proof. unfold setError. by case_match. Qed.

Lemma getStateObject_typed a db o db' : getStateObject a db = (o, db') -> objects_typed db ->
  objects_typed db' /\ match o with Some so => object_typed so | None => True end.
Proof.
  unfold getStateObject. intros H Hdb. destruct (stateObjects db !! a) as [so|] eqn:E.
  { injection H as <- <-. split; [done|exact (Hdb a so E)]. }
  destruct (stateObjectsDestruct db !! a); [by injection H as <- <-|].
  destruct (r_Account a) as [[acct|]|e] eqn:Ea; injection H as <- <-; [|done|split; [by apply setError_typed|done]].
  assert (object_typed (newObject a (Some acct))) as Ho by (split; [by vm_compute|by apply typed_account in Ea]).
  split; [by apply objects_insert|done].
Qed.

Lemma keeps_Exist a : keeps_objects (Exist a).
Proof.
  intros db b db' H Hdb. unfold Exist in H. destruct (getStateObject a db) as [[so|] db1] eqn:E; injection H as <- <-;
    by destruct (getStateObject_typed _ _ _ _ E Hdb).
Qed.
Lemma keeps_Empty a : keeps_objects (Empty a).
Proof.
  intros db b db' H Hdb. unfold Empty in H. destruct (getStateObject a db) as [[so|] db1] eqn:E; injection H as <- <-;
    by destruct (getStateObject_typed _ _ _ _ E Hdb).
Qed.
Lemma GetBalance_typed a db b db' : GetBalance a db = (b, db') -> objects_typed db -> objects_typed db' /\ 0 <= b.
Proof.
  unfold GetBalance. intros H Hdb. destruct (getStateObject a db) as [[so|] db1] eqn:E; injection H as <- <-;
    destruct (getStateObject_typed _ _ _ _ E Hdb) as [H1 H2]; split; (done || apply H2).
Qed.
Lemma keeps_GetBalance a : keeps_objects (GetBalance a).
Proof. intros db b db' H Hdb. by destruct (GetBalance_typed _ _ _ _ H Hdb). Qed.

Lemma GetCode_typed a db c db' : GetCode a db = (c, db') -> objects_typed db -> objects_typed db' /\ small c.
Proof.
  unfold GetCode. intros H Hdb. destruct (getStateObject a db) as [[so|] db1] eqn:E;
    destruct (getStateObject_typed _ _ _ _ E Hdb) as [H1 H2]; [|by injection H as <- <-].
  destruct H2 as [Hc Hb]. unfold obj_Code, write_back in H.
  destruct (negb _); [injection H as <- <-; split; [by apply objects_insert|done]|].
  destruct (CodeHash (so_data so) =? EmptyCodeHash); [injection H as <- <-; split; [by apply objects_insert|by vm_compute]|].
  pose proof (typed_code (so_address so) (CodeHash (so_data so))) as Ht.
  destruct (r_Code (so_address so) (CodeHash (so_data so))) as [code err]. simpl in Ht.
  injection H as <- <-. split; [|done]. apply objects_insert; [|by split].
  destruct err, (bool_decide (code = [])); cbv zeta; by repeat apply setError_typed.
Qed.
Lemma keeps_GetCode a : keeps_objects (GetCode a).
Proof. intros db c db' H Hdb. by destruct (GetCode_typed _ _ _ _ H Hdb). Qed.
Lemma keeps_HasSelfDestructed a : keeps_objects (HasSelfDestructed a).
Proof.
  intros db b db' H Hdb. unfold HasSelfDestructed in H. destruct (getStateObject a db) as [[so|] db1] eqn:E; injection H as <- <-;
    by destruct (getStateObject_typed _ _ _ _ E Hdb).
Qed.
Lemma keeps_AddRefund g : keeps_objects (fun db => (tt, AddRefund g db)).
Proof. by intros db [] db' [= <-] Hdb. Qed.
Lemma keeps_AddAddress a : keeps_objects (fun db => (tt, AddAddressToAccessList a db)).
Proof. intros db [] db' [= <-] Hdb. unfold AddAddressToAccessList. by repeat case_match. Qed.
End Objects.

(** *** The gas functions *)

Create HintDb tame discriminated.
#[export] Hint Resolve tame_ret tame_throw tame_throw_if tame_get_evm tame_get_contract tame_get_memory tame_db_get
  tame_no_overflow tame_safe_increment tame_safe_add tame_vm_result tame_memoryGasCost keeps_Exist keeps_Empty
  keeps_GetBalance keeps_GetCode keeps_HasSelfDestructed keeps_AddRefund keeps_AddAddress : tame.

Ltac tame_step :=
  first
    [ solve [auto with tame nocore]
    | apply tame_back; lia
    | apply tame_peek; lia
    | apply tame_db_do; solve [auto with tame nocore]
    | apply tame_db_put; solve [auto with tame nocore]
    | apply tame_bind; [|intros ?]
    | progress cbv beta zeta
    | match goal with |- tame (match ?x with _ => _ end) => destruct x end
    | match goal with |- tame (let '(_, _) := ?x in _) => destruct x end ].
Ltac tame_tac := repeat tame_step.

(** The largest memory that is paid for. *)
Definition memory_limit : Z := 0x1FFFFFFFE0.

(** A computation that fails when the memory would exceed it. *)
Definition limits {A} (size : Z) (m : VM A) : Prop := forall s a s', m s = Some (Ok a, s') -> size <= memory_limit.

Lemma limits_bind_l {A B} size (m : VM A) (k : A -> VM B) : limits size m -> limits size (vm_bind m k).
Proof. intros Hm s b s'. unfold vm_bind. destruct (m s) as [[[a|e] s1]|] eqn:E; [|done..]. intros _. by apply Hm in E. Qed.
Lemma limits_bind_r {A B} size (m : VM A) (k : A -> VM B) : (forall a, limits size (k a)) -> limits size (vm_bind m k).
Proof. intros Hk s b s'. unfold vm_bind. destruct (m s) as [[[a|e] s1]|] eqn:E; [|done..]. apply Hk. Qed.
Lemma limits_memoryGasCost size : limits size (memoryGasCost size).
Proof.
  intros s a s'. unfold memoryGasCost, memory_limit. destruct (Z.eqb_spec size 0); [lia|].
  destruct (Z.ltb_spec 0x1FFFFFFFE0 size); [done|lia].
Qed.

Ltac limits_tac :=
  first
    [ apply limits_memoryGasCost
    | apply limits_bind_l; limits_tac
    | apply limits_bind_r; intros ?; limits_tac
    | progress cbv beta zeta; limits_tac
    | match goal with |- limits _ (match ?x with _ => _ end) => destruct x; limits_tac end ].

Section GasFunctions.
Context {U : U256.Ops} {L : U256.Laws U} {HS : Hasher} {R : Reader} {TR : TypedReader R} {CH : Chain}.

(** A gas function for an instruction that takes [n] words and touches the memory, or does not. *)
Definition memory_gas (n : nat) (f : gasFunc) : Prop :=
  (forall st size, (n <= length st)%nat -> tame (f st size)) /\ forall st size, limits size (f st size).
Definition plain_gas (n : nat) (f : gasFunc) : Prop := forall st size s, (n <= length st)%nat ->
  AccessList.wf (al (evm_StateDB (v_evm s))) -> wp (f st size) s (fun _ s' => frame s s').

Lemma plain_tame n f : (forall st size, (n <= length st)%nat -> tame (f st size)) -> plain_gas n f.
Proof. intros Hf st size s Hn _. by apply Hf. Qed.

Lemma memory_pure n : memory_gas n pureMemoryGascost.
Proof. split; intros; [apply tame_memoryGasCost|apply limits_memoryGasCost]. Qed.
Lemma memory_copier n pos : (pos < n)%nat -> memory_gas n (memoryCopierGas pos).
Proof. intros Hp. split; intros; unfold memoryCopierGas; [tame_tac|limits_tac]. Qed.
Lemma memory_log n k : (2 <= n)%nat -> memory_gas n (makeGasLog k).
Proof. intros Hp. split; intros; unfold makeGasLog; [tame_tac|limits_tac]. Qed.
Lemma memory_hash_words n pos : (pos < n)%nat -> memory_gas n (gas_hash_words pos).
Proof. intros Hp. split; intros; unfold gas_hash_words; [tame_tac|limits_tac]. Qed.
Lemma memory_initcode n w : (2 < n)%nat -> memory_gas n (gas_initcode w).
Proof. intros Hp. split; intros; unfold gas_initcode; [tame_tac|limits_tac]. Qed.
Lemma memory_extcodecopy n : (3 < n)%nat -> memory_gas n gasExtCodeCopyEIP2929.
Proof.
  intros Hp. split; intros; unfold gasExtCodeCopyEIP2929, address_present, add_address.
  - apply tame_bind; [by apply (proj1 (memory_copier n 3 Hp))|intros ?]. tame_tac.
  - apply limits_bind_l. by apply (memory_copier n 3 Hp).
Qed.

Lemma plain_exp n w : (1 < n)%nat -> plain_gas n (gas_exp w).
Proof. intros Hp. apply plain_tame. intros. unfold gas_exp. tame_tac. Qed.
Lemma plain_account n : (0 < n)%nat -> plain_gas n gasEip2929AccountCheck.
Proof. intros Hp. apply plain_tame. intros. unfold gasEip2929AccountCheck, address_present, add_address. tame_tac. Qed.
Lemma plain_selfdestruct n : (0 < n)%nat -> plain_gas n gasSelfdestruct.
Proof. intros Hp. apply plain_tame. intros. unfold gasSelfdestruct. tame_tac. Qed.
Lemma plain_selfdestruct_2929 n b : (0 < n)%nat -> plain_gas n (makeSelfdestructGasFn b).
Proof. intros Hp. apply plain_tame. intros. unfold makeSelfdestructGasFn, address_present, add_address. tame_tac. Qed.

Lemma plain_sload n : (0 < n)%nat -> plain_gas n gasSLoadEIP2929.
Proof.
  intros Hp st size s Hn Hal. unfold gasSLoadEIP2929. apply wp_vm_bind, wp_or_panic.
  destruct (lookup_lt_is_Some_2 st 0) as [x Hx]; [lia|]. exists x. split; [done|].
  apply wp_vm_bind. unfold wp at 1, get_contract. apply wp_vm_bind. unfold slot_present. apply wp_vm_bind.
  unfold wp at 1, db_get. apply wp_or_panic. unfold SlotInAccessList.
  set (a := address (v_contract s)). set (k := U256.Bytes32 x). set (l := al (evm_StateDB (v_evm s))) in *.
  assert (exists r, AccessList.Contains l a k = Some r) as [[r present] Hr].
  { unfold AccessList.Contains. destruct (AccessList.addresses l !! a) as [i|] eqn:E; [|by eexists]. destruct (Z.eqb_spec i (-1)); [by eexists|].
    destruct (AccessList.wf_slot_at _ _ _ Hal E) as (m & -> & _); [done|]. by eexists. }
  exists (r, present). split; [exact Hr|]. destruct present; cbn [negb]; [by apply frame_preorder|].
  apply wp_vm_bind. unfold add_slot, wp at 1, db_try, AddSlotToAccessList.
  destruct (AccessList.AddSlot_wf l a k Hal) as (l' & [add1 add2] & Ea & _). subst l. rewrite Ea. cbn [mbind option_bind].
  apply wp_or_panic. eexists. split; [by vm_compute|]. by destruct add1, add2; split_and!.
Qed.

(** *** The costs of calls *)

Lemma tame_forward_gas n st g : (1 <= n)%nat -> (n <= length st)%nat -> tame (forward_gas st g).
Proof.
  intros Hn Hl. unfold forward_gas. apply tame_bind; [apply tame_get_contract|intros c].
  apply tame_bind; [apply tame_back; lia|intros x]. apply tame_bind; [apply tame_vm_result|intros t].
  intros s. apply wp_vm_bind. unfold wp at 1, get_evm. apply wp_vm_bind. unfold wp at 1, put_evm.
  eapply wp_mono; [apply tame_safe_increment|]. intros g' s' H. etransitivity; [|exact H]. by split_and!.
Qed.
#[local] Hint Resolve tame_forward_gas : tame.

Lemma memory_call n : (2 < n)%nat -> memory_gas n gasCall.
Proof.
  intros Hp. split; intros; unfold gasCall; [|limits_tac].
  repeat first [apply (tame_forward_gas n); lia | tame_step].
Qed.
Lemma memory_callcode n : (2 < n)%nat -> memory_gas n gasCallCode.
Proof.
  intros Hp. split; intros; unfold gasCallCode; [|limits_tac].
  repeat first [apply (tame_forward_gas n); lia | tame_step].
Qed.
Lemma memory_delegatecall n : (1 < n)%nat -> memory_gas n gasDelegateCall.
Proof.
  intros Hp. split; intros; unfold gasDelegateCall; [|limits_tac].
  repeat first [apply (tame_forward_gas n); lia | tame_step].
Qed.
Lemma memory_staticcall n : (1 < n)%nat -> memory_gas n gasStaticCall.
Proof.
  intros Hp. split; intros; unfold gasStaticCall; [|limits_tac].
  repeat first [apply (tame_forward_gas n); lia | tame_step].
Qed.

Lemma tame_use_multi_gas g : tame (use_multi_gas g).
Proof.
  intros s. unfold use_multi_gas. apply wp_vm_bind. unfold wp at 1, get_contract.
  assert (forall ok c, UseMultiGas g (v_contract s) = (ok, c) ->
    code_part c = code_part (v_contract s) /\ Input c = Input (v_contract s)) as Hc.
  { intros ok c. unfold UseMultiGas, useGas. destruct (Gas (v_contract s) <? _); by intros [= <- <-]. }
  destruct (UseMultiGas g (v_contract s)) as [ok c]. destruct (Hc ok c eq_refl). apply wp_vm_bind.
  unfold wp at 1, put_contract. apply wp_throw_if. intros _. by split_and!.
Qed.

(** Reading the contract and writing it with other gas accounts. *)
Lemma tame_recharge (k : Contract -> VM MultiGas) :
  (forall c, exists c' k', k c = (put_contract c' ;;* k') /\ code_part c' = code_part c /\ Input c' = Input c /\ tame k') ->
  tame (vm_bind get_contract k).
Proof.
  intros Hk s. apply wp_vm_bind. unfold wp at 1, get_contract.
  destruct (Hk (v_contract s)) as (c' & k' & -> & E1 & E2 & Hk'). apply wp_vm_bind. unfold wp at 1, put_contract.
  eapply wp_mono; [apply Hk'|]. intros g s' H. etransitivity; [|exact H]. by split_and!.
Qed.
Ltac recharge_step :=
  apply tame_recharge; intros ?; eexists _, _; split; [reflexivity|];
  split; [done|]; split; [done|]; first [apply tame_safe_increment|apply tame_safe_add].

Lemma memory_call_2929 n f : (1 < n)%nat -> memory_gas n f -> memory_gas n (makeCallVariantGasCallEIP2929 f 1).
Proof.
  intros Hn [Hf Hl]. split; intros; unfold makeCallVariantGasCallEIP2929, address_present, add_address.
  - repeat first [apply tame_use_multi_gas | by apply Hf | recharge_step | tame_step].
  - apply limits_bind_r. intros ?. apply limits_bind_r. intros ?. apply limits_bind_r. intros ?. by apply limits_bind_l.
Qed.
Lemma memory_call_7702 n f : (1 < n)%nat -> memory_gas n f -> memory_gas n (makeCallVariantGasCallEIP7702 f).
Proof.
  intros Hn [Hf Hl]. split; intros; unfold makeCallVariantGasCallEIP7702, address_present, add_address.
  - repeat first [apply tame_use_multi_gas | by apply Hf | recharge_step | tame_step].
  - do 5 (apply limits_bind_r; intros ?). by apply limits_bind_l.
Qed.
End GasFunctions.

(** ** Memory *)

(** The range that starts at [o] and has [n] bytes lies in the memory. *)
Definition fits (o n : Z) (m : Memory.t) : Prop :=
  is_u64 o /\ 0 <= n <= memory_limit /\ (n = 0 \/ o + n <= memory_limit /\ o + n <= Memory.Len m).

Lemma fits_range o n m : fits o n m -> n <> 0 -> exists d, Memory.range m o n = Some d.
Proof.
  intros (Ho & Hn & [?|[Hl Hm]]) Hn0; [done|]. unfold Memory.range, memory_limit, is_u64 in *.
  rewrite u64_small by (unfold is_u64; lia).
  destruct (Z.ltb_spec (o + n) o), (Z.ltb_spec (Memory.Len m) (o + n)); try lia. by eexists.
Qed.
Lemma fits_GetPtr o n m : fits o n m -> exists d, Memory.GetPtr m o n = Some d.
Proof. intros H. unfold Memory.GetPtr. destruct (Z.eqb_spec n 0); [by eexists|by apply fits_range]. Qed.
Lemma fits_GetCopy o n m : fits o n m -> exists d, Memory.GetCopy m o n = Some d.
Proof. apply fits_GetPtr. Qed.
Lemma fits_Set o n v m : fits o n m -> exists m', Memory.Set_ m o n v = Some m'.
Proof.
  intros (Ho & Hn & H). unfold Memory.Set_, memory_limit, is_u64 in *. destruct (Z.ltb_spec 0 n); [|by eexists].
  destruct H as [?|[Hl Hm]]; [lia|]. rewrite u64_small by (unfold is_u64; lia).
  destruct (Z.ltb_spec (Memory.Len m) (o + n)), (Z.ltb_spec (o + n) o); try lia. by eexists.
Qed.
Lemma fits_Copy dst src n m : fits dst n m -> fits src n m -> exists m', Memory.Copy m dst src n = Some m'.
Proof.
  intros Hd Hs. unfold Memory.Copy. destruct (Z.eqb_spec n 0); [by eexists|].
  destruct (fits_range src n m Hs n0) as [d ->]. cbn [mbind option_bind].
  destruct Hd as (Ho & Hn & [?|[Hl Hm]]); [lia|]. destruct (Z.ltb_spec (Memory.Len m) dst); [lia|]. by eexists.
Qed.

Lemma getData_some data start n : small data -> is_u64 start -> 0 <= n <= memory_limit -> exists d, getData data start n = Some d.
Proof.
  unfold small, memory_limit, is_u64. intros Hd Hs Hn. unfold getData.
  set (len := Z.of_nat (length data)) in *. cbv zeta.
  assert (0 <= len) by lia. set (st := if len <? start then len else start).
  assert (0 <= st <= len) as Hst by (subst st; destruct (Z.ltb_spec len start); lia).
  rewrite u64_small by (unfold is_u64; lia).
  destruct (Z.ltb_spec len (st + n)); case_match eqn:E; try (apply Z.ltb_lt in E; lia); by eexists.
Qed.

Section Execution.
Context {U : U256.Ops} {L : U256.Laws U} {HS : Hasher} {R : Reader} {TR : TypedReader R} {CH : Chain} {EN : Env}.

Lemma Uint64_u64 x : is_u256 x -> is_u64 (U256.Uint64 x).
Proof. intros Hx. rewrite U256.Uint64_spec by done. apply u64_range. Qed.

Lemma size_fits off l sz m : is_u256 off -> is_u256 l -> calcMemSize64 off l = (sz, false) ->
  sz <= memory_limit -> sz <= Memory.Len m -> fits (U256.Uint64 off) (U256.Uint64 l) m.
Proof.
  intros Ho Hl E Hs Hm. destruct (calcMemSize64_ok off l sz Ho Hl E) as (Hsz & El & H). rewrite El.
  split; [by apply Uint64_u64|]. unfold is_u64, is_u256, memory_limit in *.
  destruct H as [->|(Eo & Hou & ->)]; [split; [lia|by left]|]. rewrite Eo. split; [lia|right; lia].
Qed.

Lemma uint_fits off n sz m : is_u256 off -> 0 < n <= 32 -> calcMemSize64WithUint off n = (sz, false) ->
  sz <= memory_limit -> sz <= Memory.Len m -> fits (U256.Uint64 off) n m.
Proof.
  intros Ho Hn E Hs Hm. unfold calcMemSize64WithUint in E. destruct (Z.eqb_spec n 0); [lia|].
  rewrite U256.Uint64WithOverflow_spec in E by done. pose proof (Uint64_u64 off Ho) as Hu.
  rewrite U256.Uint64_spec in * by done. unfold is_u256 in Ho.
  destruct (Z.ltb_spec off two64); cbn [negb] in E; [|done]. rewrite Z.mod_small in * by lia.
  unfold fits, is_u64, memory_limit in *. injection E as <- E. apply Z.ltb_ge in E.
  assert (u64 (off + n) = off + n) as Eu by go_lia. rewrite Eu in *. split; [done|]. split; [lia|right; lia].
Qed.

(** The memory function of an instruction, for a memory that was paid for and resized. *)
Definition mem_ready (mf : option memorySizeFunc) (st : Stack.t) (m : Memory.t) : Prop :=
  match mf with
  | None => True
  | Some f => exists sz, f st = Some (sz, false) /\ sz <= memory_limit /\ sz <= Memory.Len m
  end.

Lemma call_fits ro rl io il a b c d st m : mem_ready (Some (memsize_call ro rl io il)) st m ->
  Stack.Back st ro = Some a -> Stack.Back st rl = Some b -> Stack.Back st io = Some c -> Stack.Back st il = Some d ->
  is_u256 a -> is_u256 b -> is_u256 c -> is_u256 d ->
  fits (U256.Uint64 a) (U256.Uint64 b) m /\ fits (U256.Uint64 c) (U256.Uint64 d) m.
Proof.
  intros (sz & E & Hs & Hm) Ha Hb Hc Hd ????. unfold memsize_call, memsize_at in E.
  rewrite Ha, Hb in E. cbn [mbind option_bind] in E. destruct (calcMemSize64 a b) as [x o1] eqn:E1. destruct o1; [done|].
  rewrite Hc, Hd in E. cbn [mbind option_bind] in E. destruct (calcMemSize64 c d) as [y o2] eqn:E2. destruct o2; [done|].
  destruct (Z.ltb_spec y x); injection E as <-; split;
    (eapply size_fits; [done|done|done|lia|lia]).
Qed.

(** ** Instructions *)

Definition iwp {A} (m : IM A) (s : vst) (Q : A -> vst -> Prop) : Prop :=
  match m s with Panics => False | NoFuel => True | Done (Ok a, s') => Q a s' | Done (Err _, _) => True end.

Lemma iwp_lift {A} (m : VM A) s Q : wp m s Q -> iwp (lift m) s Q.
Proof. unfold iwp, lift, wp. by destruct (m s) as [[[a|e] s']|]. Qed.
Lemma iwp_bind {A B} (m : IM A) (k : A -> IM B) s Q : iwp m s (fun a s' => iwp (k a) s' Q) -> iwp (im_bind m k) s Q.
Proof. unfold iwp, im_bind. by destruct (m s) as [[[a|e] s']| |]. Qed.
Lemma iwp_on_evm {A} (f : EVM -> run (A * EVM)) s (Q : A -> vst -> Prop) : f (v_evm s) <> Panics ->
  (forall a e, Q a (mkVst e (v_contract s) (v_memory s))) -> iwp (on_evm f) s Q.
Proof. intros Hf HQ. unfold iwp, on_evm. destruct (f (v_evm s)) as [[a e]| |]; [apply HQ|done|done]. Qed.

(** The calls that an instruction may make do not panic. *)
Record calls_return (cs : calls) : Prop := {
  cr_Call a b i g v e : c_Call cs a b i g v e <> Panics;
  cr_CallCode a b i g v e : c_CallCode cs a b i g v e <> Panics;
  cr_DelegateCall o a b i g v e : c_DelegateCall cs o a b i g v e <> Panics;
  cr_StaticCall a b i g e : c_StaticCall cs a b i g e <> Panics;
  cr_Create a i g v e : c_Create cs a i g v e <> Panics;
  cr_Create2 a i g v x e : c_Create2 cs a i g v x e <> Panics
}.

(** An instruction that takes [n] words and puts [a]. *)
Definition height (n a : nat) (st : Stack.t) (o : outcome) : Prop :=
  match o with Next _ st' => (length st' + n = length st + a)%nat | Halt _ _ => True end.
Definition exec_guarded (n a : nat) (mf : option memorySizeFunc) (ex : calls -> executionFunc) : Prop :=
  forall codes cs pc st s, running codes s -> calls_return cs -> Forall is_u256 st -> (n <= length st)%nat ->
    mem_ready mf st (v_memory s) -> iwp (ex cs pc st) s (fun o _ => height n a st o).

Lemma wp_pop x st s (Q : Z * Stack.t -> vst -> Prop) : Q (x, st) s -> wp (pop (x :: st)) s Q.
Proof. done. Qed.
Lemma wp_peek x st s (Q : Z -> vst -> Prop) : Q x s -> wp (peek (x :: st)) s Q.
Proof. done. Qed.
Lemma wp_put_top pc v x st s (Q : outcome -> vst -> Prop) : Q (Next pc (v :: st)) s -> wp (put_top pc v (x :: st)) s Q.
Proof. done. Qed.
Lemma wp_next pc st s (Q : outcome -> vst -> Prop) : Q (Next pc st) s -> wp (next pc st) s Q.
Proof. done. Qed.
Lemma wp_halt r e s (Q : outcome -> vst -> Prop) : Q (Halt r e) s -> wp (halt r e) s Q.
Proof. done. Qed.
Lemma wp_vm_ret {A} (a : A) s (Q : A -> vst -> Prop) : Q a s -> wp (vm_ret a) s Q.
Proof. done. Qed.
Lemma wp_vm_throw {A} e s (Q : A -> vst -> Prop) : wp (vm_throw e) s Q.
Proof. done. Qed.
Lemma wp_get_evm s (Q : EVM -> vst -> Prop) : Q (v_evm s) s -> wp get_evm s Q.
Proof. done. Qed.
Lemma wp_get_contract s (Q : Contract -> vst -> Prop) : Q (v_contract s) s -> wp get_contract s Q.
Proof. done. Qed.
Lemma wp_get_memory s (Q : Memory.t -> vst -> Prop) : Q (v_memory s) s -> wp get_memory s Q.
Proof. done. Qed.
Lemma wp_put_evm e s (Q : unit -> vst -> Prop) : Q tt (mkVst e (v_contract s) (v_memory s)) -> wp (put_evm e) s Q.
Proof. done. Qed.
Lemma wp_put_contract c s (Q : unit -> vst -> Prop) : Q tt (mkVst (v_evm s) c (v_memory s)) -> wp (put_contract c) s Q.
Proof. done. Qed.
Lemma wp_put_memory m s (Q : unit -> vst -> Prop) : Q tt (mkVst (v_evm s) (v_contract s) m) -> wp (put_memory m) s Q.
Proof. done. Qed.
Lemma wp_db_get {A} (f : StateDB -> A) s (Q : A -> vst -> Prop) : (forall a, Q a s) -> wp (db_get f) s Q.
Proof. intros H. apply H. Qed.
Lemma wp_db_put f s (Q : unit -> vst -> Prop) :
  (forall db, Q tt (mkVst (set_StateDB db (v_evm s)) (v_contract s) (v_memory s))) -> wp (db_put f) s Q.
Proof. intros H. apply H. Qed.
Lemma wp_hook {A} (f : EVM -> A * EVM) s (Q : A -> vst -> Prop) :
  (forall a e, Q a (mkVst e (v_contract s) (v_memory s))) -> wp (hook f) s Q.
Proof. intros H. unfold hook. apply wp_vm_bind, wp_get_evm. destruct (f (v_evm s)) as [a e]. apply wp_vm_bind, wp_put_evm, H. Qed.
Lemma wp_vm_result {A} (r : result vmError A) s (Q : A -> vst -> Prop) : (forall a, Q a s) -> wp (vm_result r) s Q.
Proof. intros H. destruct r; [apply H|done]. Qed.
Lemma wp_hook_err {A} (f : EVM -> result vmError A * EVM) s (Q : A -> vst -> Prop) :
  (forall a e, Q a (mkVst e (v_contract s) (v_memory s))) -> wp (hook_err f) s Q.
Proof. intros H. apply wp_vm_bind, wp_hook. intros r e. apply wp_vm_result. intros a. apply H. Qed.

(** Go over the steps of an instruction on a stack that is long enough. *)
Ltac wp_step :=
  lazymatch goal with
  | |- iwp (im_bind _ _) _ _ => apply iwp_bind
  | |- iwp (lift _) _ _ => apply iwp_lift
  | |- wp (vm_bind _ _) _ _ => apply wp_vm_bind
  | |- wp (pop (_ :: _)) _ _ => apply wp_pop
  | |- wp (peek (_ :: _)) _ _ => apply wp_peek
  | |- wp (put_top _ _ (_ :: _)) _ _ => apply wp_put_top
  | |- wp (next _ _) _ _ => apply wp_next
  | |- wp (halt _ _) _ _ => apply wp_halt
  | |- wp (vm_ret _) _ _ => apply wp_vm_ret
  | |- wp (vm_throw _) _ _ => exact I
  | |- wp get_evm _ _ => apply wp_get_evm
  | |- wp get_contract _ _ => apply wp_get_contract
  | |- wp get_memory _ _ => apply wp_get_memory
  | |- wp (put_evm _) _ _ => apply wp_put_evm
  | |- wp (put_contract _) _ _ => apply wp_put_contract
  | |- wp (put_memory _) _ _ => apply wp_put_memory
  | |- wp (db_get _) _ _ => apply wp_db_get; intros ?
  | |- wp (db_put _) _ _ => apply wp_db_put; intros ?
  | |- wp (hook _) _ _ => apply wp_hook; intros ? ?
  | |- wp (hook_err _) _ _ => apply wp_hook_err; intros ? ?
  | |- wp (throw_if _ _) _ _ => apply wp_throw_if; intros _
  | |- wp (db_do _) _ _ => apply wp_db_do; intros ? ? _
  | |- wp (let '(_, _) := ?x in _) _ _ => destruct x
  | |- wp (if ?b then _ else _) _ _ => destruct b
  | |- height _ _ _ _ => exact I || (cbn [height length Stack.push]; lia)
  end; cbv beta zeta iota.
Ltac wp_tac := repeat wp_step.

Ltac op_intros :=
  let codes := fresh "codes" in let cs := fresh "cs" in let pc := fresh "pc" in let st := fresh "st" in
  let s := fresh "s" in let Hr := fresh "Hr" in let Hcs := fresh "Hcs" in let Hw := fresh "Hw" in
  let Hn := fresh "Hn" in let Hm := fresh "Hm" in
  intros codes cs pc st s Hr Hcs Hw Hn Hm; cbn [length] in Hn;
  repeat (lazymatch type of Hn with (S _ <= _)%nat => destruct st as [|? st]; [cbn [length] in Hn; lia|]; cbn [length] in Hn; apply le_S_n in Hn end);
  clear Hn; decompose_Forall_hyps.

(** *** On the stack *)

Lemma safe_binop f : exec_guarded 2 1 None (plain (binop f)).
Proof. op_intros. unfold plain, binop. wp_tac. Qed.
Lemma safe_unop f : exec_guarded 1 1 None (plain (unop f)).
Proof. op_intros. unfold plain, unop. wp_tac. Qed.
Lemma safe_triop f : exec_guarded 3 1 None (plain (triop f)).
Proof. op_intros. unfold plain, triop. wp_tac. Qed.
Lemma safe_push_word v : exec_guarded 0 1 None (plain (push_word v)).
Proof. op_intros. unfold plain, push_word. wp_tac. Qed.
Lemma safe_makePush n m : exec_guarded 0 1 None (plain (makePush n m)).
Proof. op_intros. unfold plain, makePush. wp_tac. Qed.
Lemma safe_makeSwap n : exec_guarded (S n) (S n) None (plain (makeSwap n)).
Proof.
  intros codes cs pc st s Hr Hcs Hw Hn Hm. unfold plain, makeSwap. wp_step. wp_step. apply wp_or_panic.
  unfold Stack.swap, Stack.Back. destruct (lookup_lt_is_Some_2 st 0) as [x Hx]; [lia|].
  destruct (lookup_lt_is_Some_2 st n) as [y Hy]; [lia|]. rewrite Hx, Hy. eexists. split; [reflexivity|].
  wp_step. cbn [height]. rewrite !length_insert. lia.
Qed.
Lemma safe_makeDup n : exec_guarded (S n) (S (S n)) None (plain (makeDup (S n))).
Proof.
  intros codes cs pc st s Hr Hcs Hw Hn Hm. unfold plain, makeDup. wp_step. wp_step. apply wp_or_panic.
  unfold Stack.dup, Stack.Back. destruct (lookup_lt_is_Some_2 st n) as [y Hy]; [lia|]. rewrite Hy. eexists. split; [reflexivity|].
  wp_step. wp_tac.
Qed.

(** *** With memory *)

(** The range of the operands [x] and [y] after a memory function has been evaluated. *)
Ltac mem_fits Hm x y :=
  let sz := fresh "sz" in let E := fresh "E" in let Hs := fresh "Hs" in let Hf := fresh "Hf" in
  destruct Hm as (sz & E & Hs & Hm); cbn in E; injection E as E;
  pose proof (size_fits x y sz _ ltac:(assumption) ltac:(assumption) E Hs Hm) as Hf.

Lemma safe_opKeccak256 : exec_guarded 2 1 (Some memoryKeccak256) (plain opKeccak256).
Proof.
  op_intros. mem_fits Hm z z0. unfold plain, opKeccak256. wp_tac. apply wp_or_panic.
  destruct (fits_GetPtr _ _ _ Hf) as [d ->]. eexists. split; [done|]. wp_tac.
Qed.

Lemma safe_return : exec_guarded 2 0 (Some memoryReturn) (plain opReturn).
Proof.
  op_intros. mem_fits Hm z z0. unfold plain, opReturn. wp_tac. apply wp_or_panic.
  destruct (fits_GetCopy _ _ _ Hf) as [d ->]. eexists. split; [done|]. wp_tac.
Qed.
Lemma safe_revert : exec_guarded 2 0 (Some memoryRevert) (plain opRevert).
Proof.
  op_intros. mem_fits Hm z z0. unfold plain, opRevert, put_returnData. wp_tac. apply wp_or_panic.
  destruct (fits_GetCopy _ _ _ Hf) as [d ->]. eexists. split; [done|]. wp_tac.
Qed.

Lemma pop_topics_wp n st s (Q : list Z * Stack.t -> vst -> Prop) : (n <= length st)%nat ->
  (forall topics, Q (topics, drop n st) s) -> wp (pop_topics n st) s Q.
Proof.
  revert st Q. induction n as [|n IH]; intros st Q Hn HQ; [apply HQ|].
  destruct st as [|x st]; [cbn in Hn; lia|]. cbn [pop_topics]. wp_step. wp_step. apply wp_vm_bind.
  apply IH; [cbn in Hn; lia|]. intros topics. wp_step. apply HQ.
Qed.
Lemma safe_makeLog n : exec_guarded (2 + n) 0 (Some memoryLog) (plain (makeLog n)).
Proof.
  intros codes cs pc st s Hr Hcs Hw Hn Hm. destruct st as [|x [|y st]]; try (cbn in Hn; lia). decompose_Forall_hyps.
  mem_fits Hm x y. unfold plain, makeLog, write_protection. wp_tac. apply pop_topics_wp; [cbn in Hn; lia|].
  intros topics. wp_tac. apply wp_or_panic. destruct (fits_GetCopy _ _ _ Hf) as [d ->]. eexists. split; [done|]. wp_tac.
  cbn [height length]. rewrite length_drop. cbn in Hn. lia.
Qed.

Lemma memory_set_wp o n v s (Q : unit -> vst -> Prop) : fits o n (v_memory s) ->
  (forall m, Q tt (mkVst (v_evm s) (v_contract s) m)) -> wp (memory_set o n v) s Q.
Proof.
  intros Hf HQ. unfold memory_set. wp_tac. apply wp_or_panic. destruct (fits_Set o n v _ Hf) as [m ->]. eexists.
  split; [done|]. wp_tac. apply HQ.
Qed.

Lemma data_offset_u64 x : is_u256 x -> is_u64 (data_offset x).
Proof.
  intros Hx. unfold data_offset. rewrite U256.Uint64WithOverflow_spec by done.
  destruct (negb _); [unfold is_u64, MaxUint64; lia|apply u64_range].
Qed.

Lemma copy_from_wp source pc x y z st s (Q : outcome -> vst -> Prop) : is_u256 y ->
  fits (U256.Uint64 x) (U256.Uint64 z) (v_memory s) ->
  wp source s (fun data s' => small data /\ v_memory s' = v_memory s) -> (forall s', Q (Next pc st) s') ->
  wp (copy_from source pc (x :: y :: z :: st)) s Q.
Proof.
  intros Hy Hf Hsrc HQ. unfold copy_from. wp_tac. eapply wp_mono; [exact Hsrc|]. intros data s' (Hd & Em).
  wp_tac. apply wp_or_panic. destruct (getData_some data (data_offset y) (U256.Uint64 z) Hd) as [d ->];
    [by apply data_offset_u64|apply Hf|]. eexists. split; [done|]. wp_step. apply memory_set_wp; [by rewrite Em|].
  intros m. wp_step. apply HQ.
Qed.

Lemma safe_opCallDataCopy : exec_guarded 3 0 (Some memoryCallDataCopy) (plain opCallDataCopy).
Proof.
  op_intros. mem_fits Hm z z1. unfold plain, opCallDataCopy. wp_step. apply copy_from_wp; [done|done| |].
  - wp_tac. split; [apply Hr|done].
  - intros s'. wp_tac.
Qed.
Lemma safe_opCodeCopy : exec_guarded 3 0 (Some memoryCodeCopy) (plain opCodeCopy).
Proof.
  op_intros. mem_fits Hm z z1. unfold plain, opCodeCopy. wp_step. apply copy_from_wp; [done|done| |].
  - wp_tac. split; [apply Hr|done].
  - intros s'. wp_tac.
Qed.

Lemma GetCode_wp a s (Q : list Z -> vst -> Prop) : objects_typed (evm_StateDB (v_evm s)) ->
  (forall c db, small c -> objects_typed db -> Q c (mkVst (set_StateDB db (v_evm s)) (v_contract s) (v_memory s))) ->
  wp (db_do (GetCode a)) s Q.
Proof. intros Ho HQ. apply wp_db_do. intros c db E. destruct (GetCode_typed _ _ _ _ E Ho). by apply HQ. Qed.
Lemma GetBalance_wp a s (Q : Z -> vst -> Prop) : objects_typed (evm_StateDB (v_evm s)) ->
  (forall b db, 0 <= b -> objects_typed db -> Q b (mkVst (set_StateDB db (v_evm s)) (v_contract s) (v_memory s))) ->
  wp (db_do (GetBalance a)) s Q.
Proof. intros Ho HQ. apply wp_db_do. intros b db E. destruct (GetBalance_typed _ _ _ _ E Ho). by apply HQ. Qed.

Lemma safe_opExtCodeCopy : exec_guarded 4 0 (Some memoryExtCodeCopy) (plain opExtCodeCopy).
Proof.
  op_intros. mem_fits Hm z0 z2. unfold plain, opExtCodeCopy. do 3 wp_step. apply copy_from_wp; [done|done| |].
  - apply GetCode_wp; [apply Hr|]. by intros c db Hc _.
  - intros s'. wp_tac.
Qed.

Lemma safe_opReturnDataCopy : exec_guarded 3 0 (Some memoryReturnDataCopy) (plain opReturnDataCopy).
Proof.
  op_intros. mem_fits Hm z z1. destruct (calcMemSize64_ok z z1 _ ltac:(assumption) ltac:(assumption) E) as (_ & El & _).
  destruct Hf as (Hz & Hl & Hf). unfold plain, opReturnDataCopy. do 7 wp_step.
  rewrite U256.Uint64WithOverflow_spec by done. destruct (Z.ltb_spec z0 two64) as [Hz0|]; cbn [negb]; cbv beta iota; [|by wp_step].
  assert (U256.Add z0 z1 = z0 + z1) as ->.
  { rewrite U256.Add_spec by done. unfold U256.wrap, memory_limit, is_u256 in *. rewrite El in *. apply Z.mod_small. lia. }
  unfold is_u256, memory_limit in *.
  rewrite U256.Uint64WithOverflow_spec by (unfold is_u256; lia). destruct (Z.ltb_spec (z0 + z1) two64); cbn [negb]; cbv beta iota;
    [|do 2 wp_step; cbn [orb]; by wp_step].
  rewrite !Z.mod_small by lia. do 2 wp_step. cbn [orb]. wp_step; [by wp_step|].
  destruct (Z.ltb_spec (z0 + z1) z0); [lia|]. wp_step. apply memory_set_wp; [done|]. intros m. wp_tac.
Qed.

Lemma safe_opMload : exec_guarded 1 1 (Some memoryMLoad) (plain opMload).
Proof.
  op_intros. destruct Hm as (sz & E & Hs & Hm). cbn in E. injection E as E.
  pose proof (uint_fits z 32 sz _ ltac:(assumption) ltac:(lia) E Hs Hm) as Hf.
  unfold plain, opMload. wp_tac. apply wp_or_panic. destruct (fits_GetPtr _ _ _ Hf) as [d ->]. eexists. split; [done|]. wp_tac.
Qed.
Lemma safe_opMstore : exec_guarded 2 0 (Some memoryMStore) (plain opMstore).
Proof.
  op_intros. destruct Hm as (sz & E & Hs & Hm). cbn in E. injection E as E.
  destruct (uint_fits z 32 sz _ ltac:(assumption) ltac:(lia) E Hs Hm) as (Ho & _ & [?|[Hl Hf]]); [lia|].
  unfold plain, opMstore. wp_tac. apply wp_or_panic. unfold Memory.Set32, is_u64, memory_limit in *.
  rewrite u64_small by (unfold is_u64; lia).
  destruct (Z.ltb_spec (Memory.Len (v_memory s)) (U256.Uint64 z + 32)); [lia|].
  destruct (Z.ltb_spec (Memory.Len (v_memory s)) (U256.Uint64 z)); [lia|]. cbv zeta.
  destruct (Z.ltb_spec (Memory.Len (v_memory s) - U256.Uint64 z) 32); [lia|]. eexists. split; [done|]. wp_tac.
Qed.
Lemma safe_opMstore8 : exec_guarded 2 0 (Some memoryMStore8) (plain opMstore8).
Proof.
  op_intros. destruct Hm as (sz & E & Hs & Hm). cbn in E. injection E as E.
  destruct (uint_fits z 1 sz _ ltac:(assumption) ltac:(lia) E Hs Hm) as (Ho & _ & [?|[Hl Hf]]); [lia|].
  unfold plain, opMstore8. wp_tac. apply wp_or_panic. unfold Memory.SetByte.
  destruct (Z.leb_spec (Memory.Len (v_memory s)) (U256.Uint64 z)); [lia|]. eexists. split; [done|]. wp_tac.
Qed.
Lemma safe_opMcopy : exec_guarded 3 0 (Some memoryMcopy) (plain opMcopy).
Proof.
  op_intros. destruct Hm as (sz & E & Hs & Hm). cbn in E. injection E as E. rewrite U256.Gt_spec in E by done.
  set (big := if z <? z0 then z0 else z) in *.
  assert (is_u256 big) as Hb by (subst big; by destruct (z <? z0)).
  pose proof (size_fits big z1 sz _ Hb ltac:(assumption) E Hs Hm) as Hf.
  destruct (calcMemSize64_ok big z1 _ Hb ltac:(assumption) E) as (_ & El & Hbig).
  assert (forall x, is_u256 x -> x <= big -> fits (U256.Uint64 x) (U256.Uint64 z1) (v_memory s)) as Hall.
  { intros x Hx Hle. destruct Hf as (Hf1 & Hf2 & Hf3). split; [by apply Uint64_u64|]. split; [done|].
    rewrite El in *. destruct Hbig as [->|(Eb & Hu & _)]; [by left|]. destruct Hf3 as [->|[H4 H5]]; [by left|]. right.
    rewrite Eb in *. rewrite U256.Uint64_spec by done. unfold is_u64, is_u256 in *. rewrite Z.mod_small by lia. lia. }
  unfold plain, opMcopy. wp_tac. apply wp_or_panic.
  destruct (fits_Copy (U256.Uint64 z) (U256.Uint64 z0) (U256.Uint64 z1) (v_memory s)) as [m ->];
    [apply Hall; [done|subst big; destruct (Z.ltb_spec z z0); lia]..|]. eexists. split; [done|]. wp_tac.
Qed.

(** *** Environment, storage and control flow *)

Lemma safe_opCallDataLoad : exec_guarded 1 1 None (plain opCallDataLoad).
Proof.
  op_intros. unfold plain, opCallDataLoad. do 3 wp_step. rewrite U256.Uint64WithOverflow_spec by done. cbv beta iota.
  destruct (negb (negb _)); wp_tac. apply wp_or_panic.
  destruct (getData_some (Input (v_contract s)) (z mod two64) 32) as [d ->]; [apply Hr|apply u64_range|unfold memory_limit; lia|].
  eexists. split; [done|]. wp_tac.
Qed.

Lemma valid_jump_wp codes pos s (Q : bool -> vst -> Prop) : running codes s -> is_u256 pos -> (forall b s', Q b s') -> wp (valid_jump pos) s Q.
Proof.
  intros Hr Hp HQ. unfold valid_jump. wp_tac. apply wp_or_panic.
  destruct (validJumpdest_correct codes (code_part (v_contract s)) (jumpDests (v_evm s)) pos) as (b & c' & j' & E & _);
    [apply Hr|apply Hr|done| |].
  { destruct (rn_small _ _ Hr) as [Hc _]. unfold small, Code in Hc. lia. }
  exists (b, c', j'). split; [exact E|]. wp_tac. apply HQ.
Qed.
Lemma safe_opJump : exec_guarded 1 0 None (plain opJump).
Proof.
  op_intros. unfold plain, opJump, jump_to. wp_tac.
  eapply valid_jump_wp; [done|done|]. intros b s'. wp_tac.
Qed.
Lemma safe_opJumpi : exec_guarded 2 0 None (plain opJumpi).
Proof.
  op_intros. unfold plain, opJumpi, jump_to. wp_tac.
  eapply valid_jump_wp; [done|done|]. intros b s'. wp_tac.
Qed.

Lemma db_try_wp f s (Q : unit -> vst -> Prop) : f (evm_StateDB (v_evm s)) <> None -> (forall s', Q tt s') -> wp (db_try f) s Q.
Proof. intros Hf HQ. unfold wp, db_try. destruct (f _); [apply HQ|done]. Qed.
Lemma burn_some b db : 0 <= b -> ExpectBalanceBurn b db <> None.
Proof. intros Hb. unfold ExpectBalanceBurn. by rewrite (proj2 (Z.ltb_ge _ _)). Qed.
(** The same with the types of codes and balances. *)
Ltac typed_step :=
  first
    [ apply GetBalance_wp; [eassumption|intros ? ? ? ?]
    | apply GetCode_wp; [eassumption|intros ? ? ? ?]
    | apply db_try_wp; [by apply burn_some|intros ?]
    | wp_step ].
Ltac typed_tac Hr := pose proof (rn_objects _ _ Hr); repeat typed_step.

Lemma safe_opSelfdestruct : exec_guarded 1 0 None (plain opSelfdestruct).
Proof. op_intros. unfold plain, opSelfdestruct, write_protection. typed_tac Hr. Qed.
Lemma safe_opSelfdestruct6780 : exec_guarded 1 0 None (plain opSelfdestruct6780).
Proof. op_intros. unfold plain, opSelfdestruct6780, write_protection. typed_tac Hr. Qed.

(** *** Calls and creations *)

Lemma call_args_wp o n s (Q : list Z -> vst -> Prop) : fits (U256.Uint64 o) (U256.Uint64 n) (v_memory s) ->
  (forall d, Q d s) -> wp (call_args o n) s Q.
Proof.
  intros Hf HQ. unfold call_args. wp_tac. apply wp_or_panic. destruct (fits_GetPtr _ _ _ Hf) as [d ->]. by exists d.
Qed.

Lemma after_call_wp pc st o n gas r s (Q : outcome -> vst -> Prop) : fits (U256.Uint64 o) (U256.Uint64 n) (v_memory s) ->
  (forall v s', Q (Next pc (v :: st)) s') -> wp (after_call pc st o n gas r) s Q.
Proof.
  intros Hf HQ. unfold after_call, put_returnData. cbv zeta. wp_step. destruct (keeps_data (cr_err r)).
  - apply memory_set_wp; [done|]. intros m. wp_tac. apply HQ.
  - wp_tac. apply HQ.
Qed.

Ltac call_step Hcs :=
  first
    [ apply call_args_wp; [assumption|intros ?]
    | apply iwp_on_evm; [apply Hcs|intros ? ?]
    | apply after_call_wp; [assumption|intros ? ?; cbn [height length]; lia]
    | wp_step ].

Lemma safe_opCall : exec_guarded 7 1 (Some memoryCall) opCall.
Proof.
  op_intros. destruct (call_fits 5 6 3 4 z4 z5 z2 z3 _ _ Hm eq_refl eq_refl eq_refl eq_refl) as [Hout Hin]; try assumption.
  unfold opCall. repeat call_step Hcs.
Qed.
Lemma safe_opCallCode : exec_guarded 7 1 (Some memoryCall) opCallCode.
Proof.
  op_intros. destruct (call_fits 5 6 3 4 z4 z5 z2 z3 _ _ Hm eq_refl eq_refl eq_refl eq_refl) as [Hout Hin]; try assumption.
  unfold opCallCode. repeat call_step Hcs.
Qed.
Lemma safe_opDelegateCall : exec_guarded 6 1 (Some memoryDelegateCall) opDelegateCall.
Proof.
  op_intros. destruct (call_fits 4 5 2 3 z3 z4 z1 z2 _ _ Hm eq_refl eq_refl eq_refl eq_refl) as [Hout Hin]; try assumption.
  unfold opDelegateCall. repeat call_step Hcs.
Qed.
Lemma safe_opStaticCall : exec_guarded 6 1 (Some memoryStaticCall) opStaticCall.
Proof.
  op_intros. destruct (call_fits 4 5 2 3 z3 z4 z1 z2 _ _ Hm eq_refl eq_refl eq_refl eq_refl) as [Hout Hin]; try assumption.
  unfold opStaticCall. repeat call_step Hcs.
Qed.

Lemma input_wp o n s (Q : list Z -> vst -> Prop) : fits (U256.Uint64 o) (U256.Uint64 n) (v_memory s) ->
  (forall d, Q d s) -> wp (or_panic (Memory.GetCopy (v_memory s) (U256.Uint64 o) (U256.Uint64 n))) s Q.
Proof. intros Hf HQ. apply wp_or_panic. destruct (fits_GetCopy _ _ _ Hf) as [d ->]. by exists d. Qed.

Ltac create_step Hcs :=
  first
    [ apply input_wp; [assumption|intros ?]
    | apply iwp_on_evm; [apply Hcs|intros [? ?] ?]
    | wp_step ].

Lemma safe_opCreate : exec_guarded 3 1 (Some memoryCreate) opCreate.
Proof.
  op_intros. mem_fits Hm z0 z1. unfold opCreate, write_protection, charge_computation, after_create, put_returnData.
  repeat create_step Hcs.
Qed.
Lemma safe_opCreate2 : exec_guarded 4 1 (Some memoryCreate2) opCreate2.
Proof.
  op_intros. mem_fits Hm z0 z1. unfold opCreate2, write_protection, charge_computation, after_create, put_returnData.
  repeat create_step Hcs.
Qed.

(** *** Memory sizes *)

Lemma calcMemSize64WithUint_u64 off n : is_u64 (fst (calcMemSize64WithUint off n)).
Proof. unfold calcMemSize64WithUint. repeat case_match; apply u64_range || done. Qed.
Lemma calcMemSize64_u64 off l : is_u64 (fst (calcMemSize64 off l)).
Proof. unfold calcMemSize64. case_match; [done|apply calcMemSize64WithUint_u64]. Qed.

(** A memory function that finds its operands on a stack of [n] words. *)
Definition sized (n : nat) (f : memorySizeFunc) : Prop :=
  forall st, (n <= length st)%nat -> exists size overflow, f st = Some (size, overflow) /\ is_u64 size.

Lemma sized_at n o l : (o < n)%nat -> (l < n)%nat -> sized n (memsize_at o l).
Proof.
  intros Ho Hl st Hn. unfold memsize_at, Stack.Back. destruct (lookup_lt_is_Some_2 st o) as [x Hx]; [lia|].
  destruct (lookup_lt_is_Some_2 st l) as [y Hy]; [lia|]. rewrite Hx, Hy. cbn [mbind option_bind].
  pose proof (calcMemSize64_u64 x y). destruct (calcMemSize64 x y). by eexists _, _.
Qed.
Lemma sized_call n ro rl io il : (ro < n)%nat -> (rl < n)%nat -> (io < n)%nat -> (il < n)%nat -> sized n (memsize_call ro rl io il).
Proof.
  intros H1 H2 H3 H4 st Hn. unfold memsize_call.
  destruct (sized_at n ro rl H1 H2 st Hn) as (x & ox & -> & Hx), (sized_at n io il H3 H4 st Hn) as (y & oy & -> & Hy).
  cbn [mbind option_bind]. destruct ox, oy; try by eexists _, _. destruct (y <? x); by eexists _, _.
Qed.
Lemma sized_word n k : (0 < n)%nat -> sized n (fun st => off ← Stack.Back st 0; Some (calcMemSize64WithUint off k)).
Proof.
  intros H0 st Hn. unfold Stack.Back. destruct (lookup_lt_is_Some_2 st 0) as [x Hx]; [lia|]. rewrite Hx.
  cbn [mbind option_bind]. pose proof (calcMemSize64WithUint_u64 x k). destruct (calcMemSize64WithUint x k). by eexists _, _.
Qed.
Lemma sized_mcopy : sized 3 memoryMcopy.
Proof.
  intros st Hn. destruct st as [|x [|y [|z st]]]; try (cbn in Hn; lia). unfold memoryMcopy. cbn.
  pose proof (calcMemSize64_u64 (if U256.Gt y x then y else x) z). destruct (calcMemSize64 _ z). by eexists _, _.
Qed.

(** ** The jump tables *)

(** An entry fits its opcode: its limits of the stack are those of the opcode, the memory it announces is charged for,
    its gas function reads only the words that are there, and its instruction is safe with them. *)
Record entry_guarded (op : Z) (o : operation) : Prop := {
  eg_min : minStackOf o = Z.of_nat (pops op);
  eg_max : maxStackOf o = Stack.StackLimit + Z.of_nat (pops op) - Z.of_nat (pushes op);
  eg_memory : match memorySize o with None => uses_memory op = false | Some f => uses_memory op = true
    /\ sized (pops op) f end;
  eg_gas : match dynamicGas o with
    | None => uses_memory op = false
    | Some f => op <> SSTORE -> (if uses_memory op then memory_gas else plain_gas) (pops op) f
    end;
  eg_exec : exec_guarded (pops op) (pushes op) (memorySize o) (execute o) \/ (op <> STOP /\ execute o = plain opUndefined)
}.

Definition table_guarded (jt : JumpTable) : Prop := map_Forall entry_guarded (jt : gmap Z operation).

Lemma guarded_set_op op o jt : entry_guarded op o -> table_guarded jt -> table_guarded (set_op op o jt).
Proof. intros Ho Hjt. by apply map_Forall_insert_2. Qed.

Lemma guarded_alter f op (jt : gmap Z operation) : table_guarded jt ->
  (forall o, entry_guarded op o -> entry_guarded op (f o)) -> table_guarded (alter f op jt).
Proof.
  intros Hjt Hf i o. destruct (decide (i = op)) as [->|Hi].
  - rewrite lookup_alter_eq. intros (o' & Ho' & ->)%fmap_Some. apply Hf. exact (Hjt op o' Ho').
  - rewrite lookup_alter_ne by done. apply Hjt.
Qed.

Lemma guarded_set_gas op v jt : table_guarded jt -> table_guarded (set_gas op v jt).
Proof. intros Hjt. apply guarded_alter; [done|]. by intros o []. Qed.

Lemma guarded_set_dynamic op f jt : (op <> SSTORE -> (if uses_memory op then memory_gas else plain_gas) (pops op) f) ->
  table_guarded jt -> table_guarded (set_dynamic op f jt).
Proof. intros Hf Hjt. apply guarded_alter; [done|]. by intros o []. Qed.

(** *** Every entry *)

Lemma safe_opBlobBaseFee : exec_guarded 0 1 None (plain opBlobBaseFee).
Proof. op_intros. unfold plain, opBlobBaseFee, push_word. destruct (IsArbitrum chainRules); wp_tac. Qed.

Ltac memsize_tac :=
  first [ apply sized_at; lia | apply sized_call; lia | apply sized_word; lia | apply sized_mcopy ].
Ltac gas_tac :=
  first
    [ apply memory_pure | apply memory_copier; lia | apply memory_log; lia | apply memory_hash_words; lia
    | apply memory_initcode; lia | apply memory_extcodecopy; lia | apply plain_exp; lia | apply plain_account; lia
    | apply plain_selfdestruct; lia | apply plain_selfdestruct_2929; lia | apply plain_sload; lia
    | apply memory_call; lia | apply memory_callcode; lia | apply memory_delegatecall; lia | apply memory_staticcall; lia
    | apply memory_call_2929; [lia|gas_tac] | apply memory_call_7702; [lia|gas_tac] ].
Ltac head_of t := lazymatch t with ?f _ => head_of f | _ => t end.
Ltac op_tac :=
  lazymatch goal with
  | |- exec_guarded _ _ _ (plain (makePush _ _)) => apply safe_makePush
  | |- exec_guarded _ _ _ (plain (makeSwap _)) => apply safe_makeSwap
  | |- exec_guarded _ _ _ (plain (makeDup _)) => apply safe_makeDup
  | |- exec_guarded _ _ _ (plain (makeLog ?n)) => apply (safe_makeLog n)
  | |- exec_guarded _ _ _ opCall => apply safe_opCall
  | |- exec_guarded _ _ _ opCallCode => apply safe_opCallCode
  | |- exec_guarded _ _ _ opDelegateCall => apply safe_opDelegateCall
  | |- exec_guarded _ _ _ opStaticCall => apply safe_opStaticCall
  | |- exec_guarded _ _ _ opCreate => apply safe_opCreate
  | |- exec_guarded _ _ _ opCreate2 => apply safe_opCreate2
  | |- exec_guarded _ _ (Some _) _ =>
      first
        [ apply safe_opKeccak256 | apply safe_return | apply safe_revert | apply safe_opCallDataCopy | apply safe_opCodeCopy
        | apply safe_opExtCodeCopy | apply safe_opReturnDataCopy | apply safe_opMload | apply safe_opMstore
        | apply safe_opMstore8 | apply safe_opMcopy ]
  | |- exec_guarded _ _ _ (plain ?f) =>
      first
        [ apply safe_opJump | apply safe_opJumpi | apply safe_opCallDataLoad | apply safe_opSelfdestruct
        | apply safe_opSelfdestruct6780 | apply safe_opBlobBaseFee
        | apply safe_binop | apply safe_unop | apply safe_triop | apply safe_push_word
        | op_intros; let h := head_of f in unfold plain, h, write_protection; wp_tac ]
  end.
Ltac shape_tac op :=
  let n := eval vm_compute in (pops op) in change (pops op) with n in *;
  let a := eval vm_compute in (pushes op) in change (pushes op) with a in *;
  let b := eval vm_compute in (uses_memory op) in change (uses_memory op) with b in *.
Ltac entry_tac :=
  match goal with
  | |- entry_guarded ?op _ =>
      split; cbn [minStackOf maxStackOf memorySize dynamicGas execute];
      [ reflexivity
      | reflexivity
      | shape_tac op; first [done | split; [done|memsize_tac]]
      | shape_tac op; first [done | let Hne := fresh in intros Hne; exfalso; by apply Hne | intros _; cbv beta iota; gas_tac]
      | first [right; split; [done|reflexivity] | left; shape_tac op; op_tac] ]
  end.
Ltac entries_tac := repeat (apply Forall_cons_2; [entry_tac|]); apply Forall_nil_2.

Lemma frontier_guarded_entries : Forall (fun '(op, o) => entry_guarded op o) frontier_operations.
Proof.
  unfold frontier_operations. repeat (apply Forall_app; split).
  - unfold frontier_arithmetic. entries_tac.
  - unfold frontier_environment. entries_tac.
  - unfold frontier_memory. entries_tac.
  - unfold frontier_push1. entries_tac.
  - unfold frontier_push17. entries_tac.
  - unfold frontier_dup. entries_tac.
  - unfold frontier_swap. entries_tac.
  - unfold frontier_system. entries_tac.
Qed.

Lemma frontier_guarded : table_guarded newFrontierInstructionSet.
Proof.
  intros op o H%elem_of_list_to_map_2. pose proof frontier_guarded_entries as HF. rewrite Forall_forall in HF.
  exact (HF _ H).
Qed.

(** The activators. *)
Ltac table_tac :=
  repeat lazymatch goal with
    | |- table_guarded (set_dynamic ?op _ _) =>
        apply guarded_set_dynamic;
          [shape_tac op; first [let Hne := fresh in intros Hne; exfalso; by apply Hne | intros _; cbv beta iota; gas_tac]|]
    | |- table_guarded (set_gas _ _ _) => apply guarded_set_gas
    | |- table_guarded (set_op _ _ _) => apply guarded_set_op; [entry_tac|]
    | H : table_guarded ?jt |- table_guarded ?jt => exact H
    end.

Lemma homestead_guarded : table_guarded newHomesteadInstructionSet.
Proof. pose proof frontier_guarded. unfold newHomesteadInstructionSet. table_tac. Qed.
Lemma tangerine_guarded : table_guarded newTangerineWhistleInstructionSet.
Proof. pose proof homestead_guarded. unfold newTangerineWhistleInstructionSet. table_tac. Qed.
Lemma spurious_guarded : table_guarded newSpuriousDragonInstructionSet.
Proof. pose proof tangerine_guarded. unfold newSpuriousDragonInstructionSet. table_tac. Qed.
Lemma byzantium_guarded : table_guarded newByzantiumInstructionSet.
Proof. pose proof spurious_guarded. unfold newByzantiumInstructionSet. table_tac. Qed.
Lemma constantinople_guarded : table_guarded newConstantinopleInstructionSet.
Proof. pose proof byzantium_guarded. unfold newConstantinopleInstructionSet. table_tac. Qed.
Lemma istanbul_guarded : table_guarded newIstanbulInstructionSet.
Proof.
  pose proof constantinople_guarded. unfold newIstanbulInstructionSet, enable2200, enable1884, enable1344. table_tac.
Qed.
Lemma berlin_guarded : table_guarded newBerlinInstructionSet.
Proof. pose proof istanbul_guarded. unfold newBerlinInstructionSet, enable2929. table_tac. Qed.
Lemma london_guarded : table_guarded newLondonInstructionSet.
Proof. pose proof berlin_guarded. unfold newLondonInstructionSet, enable3198, enable3529. table_tac. Qed.
Lemma merge_guarded : table_guarded newMergeInstructionSet.
Proof. pose proof london_guarded. unfold newMergeInstructionSet. table_tac. Qed.
Lemma shanghai_guarded : table_guarded newShanghaiInstructionSet.
Proof. pose proof merge_guarded. unfold newShanghaiInstructionSet, enable3860, enable3855. table_tac. Qed.
Lemma cancun_guarded : table_guarded newCancunInstructionSet.
Proof.
  pose proof shanghai_guarded.
  unfold newCancunInstructionSet, enable6780, enable5656, enable1153, enable7516, enable4844. table_tac.
Qed.
Lemma prague_guarded : table_guarded newPragueInstructionSet.
Proof. pose proof cancun_guarded. unfold newPragueInstructionSet, enable7702. table_tac. Qed.
Lemma osaka_guarded : table_guarded newOsakaInstructionSet.
Proof. pose proof prague_guarded. unfold newOsakaInstructionSet, enable7939. table_tac. Qed.

Lemma select_table_guarded : table_guarded (select_table chainRules).
Proof.
  pose proof frontier_guarded. pose proof homestead_guarded. pose proof tangerine_guarded. pose proof spurious_guarded.
  pose proof byzantium_guarded. pose proof constantinople_guarded. pose proof istanbul_guarded. pose proof berlin_guarded.
  pose proof london_guarded. pose proof merge_guarded. pose proof shanghai_guarded. pose proof cancun_guarded.
  pose proof prague_guarded. pose proof osaka_guarded. unfold select_table.
  repeat match goal with |- table_guarded (if ?b then _ else _) => destruct b end; assumption.
Qed.

(** Every table has STOP, which the interpreter reads past the end of the code. *)
Lemma stop_defined : exists o, (select_table chainRules : gmap Z operation) !! STOP = Some o.
Proof.
  unfold select_table.
  repeat match goal with |- exists _, (if ?b then _ else _) !! _ = _ => destruct b end; eexists; reflexivity.
Qed.

(** ** A step of the loop *)

Lemma running_frame codes s s' : frame s s' -> running codes s -> running codes s'.
Proof.
  intros (E1 & E2 & E3 & E4 & E5 & E6) [H1 H2 H3 H4]. split; [by rewrite E1|by rewrite E4| |by apply E6].
  unfold Code in *. by rewrite E1, E2, E3.
Qed.

Lemma tame_deduct cost : tame (deduct cost).
Proof.
  intros s. unfold deduct. wp_step. wp_step. destruct (_ <? cost); [done|]. by split_and!.
Qed.

Lemma check_stack_wp o st s (Q : unit -> vst -> Prop) : (minStackOf o <= Stack.len st <= maxStackOf o -> Q tt s) -> wp (check_stack o st) s Q.
Proof.
  unfold check_stack. intros HQ. cbv zeta. destruct (Z.ltb_spec (Stack.len st) (minStackOf o)); [done|].
  destruct (Z.ltb_spec (maxStackOf o) (Stack.len st)); [done|]. by apply HQ.
Qed.

Lemma charge_constant_wp o op s (Q : unit -> vst -> Prop) : (forall s', frame s s' -> v_memory s' = v_memory s ->
    al (evm_StateDB (v_evm s')) = al (evm_StateDB (v_evm s)) -> Q tt s') -> wp (charge_constant o op) s Q.
Proof.
  intros HQ. unfold charge_constant, deduct. do 3 wp_step. destruct (_ <? constantGas o); [done|]. wp_tac.
  apply HQ; [by split_and!|done|done].
Qed.

(** The memory that is asked for, rounded up to whole words. *)
Lemma memory_size_wp o n st s (Q : Z -> vst -> Prop) : match memorySize o with Some f => sized n f | None => True end ->
  (n <= length st)%nat ->
  (forall size, match memorySize o with Some f => exists sz, f st = Some (sz, false) /\ sz <= size | None => True end -> Q size s) ->
  wp (memory_size o st) s Q.
Proof.
  intros Hf Hn HQ. unfold memory_size. destruct (memorySize o) as [f|]; [|by apply HQ].
  destruct (Hf st Hn) as (sz & overflow & E & Hsz). apply wp_vm_bind, wp_or_panic. exists (sz, overflow). split; [exact E|].
  cbv beta iota. destruct overflow; [done|]. unfold no_overflow. rewrite toWordSize_spec by done.
  assert (is_u64 ((sz + 31) / 32)) as Hw.
  { unfold is_u64 in *. split; [apply Z.div_pos; lia|]. apply Z.div_lt_upper_bound; lia. }
  rewrite GoMath.SafeMul_spec by done. cbn [fst snd]. destruct (Z.ltb_spec ((sz + 31) / 32 * 32) two64); cbn [negb]; [|done].
  apply HQ. exists sz. split; [done|]. rewrite u64_small; unfold is_u64 in *; [|lia].
  pose proof (Z.div_mod (sz + 31) 32 ltac:(lia)). pose proof (Z.mod_pos_bound (sz + 31) 32 ltac:(lia)). lia.
Qed.

Lemma wrap_oog_wp {A} (m : VM A) s (Q : A -> vst -> Prop) : wp m s Q -> wp (wrap_oog m) s Q.
Proof. unfold wp, wrap_oog. by destruct (m s) as [[[a|e] s']|]. Qed.

Lemma wp_limits {A} size (m : VM A) s (Q : A -> vst -> Prop) : limits size m -> wp m s Q -> wp m s (fun a s' => Q a s' /\ size <= memory_limit).
Proof. unfold wp. intros Hl. destruct (m s) as [[[a|e] s']|] eqn:E; [|done..]. intros H. split; [done|by apply Hl in E]. Qed.

Lemma charge_dynamic_wp op o st s : entry_guarded op o -> op <> SSTORE -> (pops op <= length st)%nat ->
  AccessList.wf (al (evm_StateDB (v_evm s))) ->
  wp (charge_dynamic o st) s (fun size s' => frame s s' /\ match memorySize o with
    | Some f => exists sz, f st = Some (sz, false) /\ sz <= size <= memory_limit
    | None => True end).
Proof.
  intros [_ _ Hmem Hgas _] Hop Hn Hal. unfold charge_dynamic. destruct (dynamicGas o) as [f|].
  2:{ destruct (memorySize o); [destruct Hmem; congruence|]. split; [by apply frame_preorder|done]. }
  specialize (Hgas Hop). apply wp_vm_bind. apply (memory_size_wp o (pops op)); [by destruct (memorySize o); [apply Hmem|]|done|].
  intros size Hsize. apply wp_vm_bind, wrap_oog_wp.
  assert (wp (f st size) s (fun _ s' => frame s s' /\ (uses_memory op = true -> size <= memory_limit))) as Hf.
  { destruct (uses_memory op).
    - destruct Hgas as [Ht Hl]. eapply wp_mono; [apply (wp_limits size); [apply Hl|by apply Ht]|]. intros ? ? [? ?]. by split.
    - eapply wp_mono; [by apply Hgas|]. by intros. }
  eapply wp_mono; [exact Hf|]. intros g s1 [Hf1 Hl1]. apply wp_vm_bind. eapply wp_mono; [apply tame_deduct|].
  intros [] s2 Hf2. wp_tac. split.
  - transitivity s1; [done|]. transitivity s2; [done|]. by split_and!.
  - destruct (memorySize o) as [mf|]; [|done]. destruct Hmem as [Hu _], Hsize as (sz & E & Hle). exists sz.
    split; [done|]. split; [done|by apply Hl1].
Qed.

Lemma resize_memory_wp codes mf st size s (Q : unit -> vst -> Prop) : running codes s ->
  match mf with Some f => exists sz, f st = Some (sz, false) /\ sz <= size <= memory_limit | None => True end ->
  (forall s', running codes s' -> code_part (v_contract s') = code_part (v_contract s) -> mem_ready mf st (v_memory s') -> Q tt s') ->
  wp (resize_memory size) s Q.
Proof.
  intros Hr Hs HQ. unfold resize_memory. destruct (Z.ltb_spec 0 size).
  - wp_tac. apply HQ; [by destruct Hr|done|]. destruct mf as [f|]; [|done]. destruct Hs as (sz & E & Hle). exists sz.
    split; [done|]. cbn [v_memory]. rewrite MemoryFacts.Resize_Len. lia.
  - apply HQ; [done|done|]. destruct mf as [f|]; [|done]. destruct Hs as (sz & E & Hle). exists sz. split; [done|].
    unfold Memory.Len. lia.
Qed.

(** What precedes an instruction does not panic, and leaves it what it needs. *)
Lemma prepare_op_wp codes op o st s : entry_guarded op o -> op <> SSTORE -> machine_ok codes s ->
  wp (prepare_op o op st) s (fun _ s' => running codes s' /\ code_part (v_contract s') = code_part (v_contract s)
    /\ minStackOf o <= Stack.len st <= maxStackOf o /\ mem_ready (memorySize o) st (v_memory s')).
Proof.
  intros He Hop [Hr Hal]. unfold prepare_op. wp_step. apply check_stack_wp. intros Hst. wp_step. apply charge_constant_wp.
  intros s1 Hf1 Em Eal. wp_step. assert ((pops op <= length st)%nat) as Hn.
  { rewrite (eg_min _ _ He) in Hst. unfold Stack.len in Hst. lia. }
  eapply wp_mono; [apply (charge_dynamic_wp op); [done|done|done|by rewrite Eal]|]. intros size s2 [Hf2 Hsize].
  assert (frame s s2) as Hf by (by transitivity s1).
  eapply resize_memory_wp; [by eapply running_frame|exact Hsize|]. intros s3 Hr3 E3 Hm3.
  split; [done|]. split; [|done]. rewrite E3. apply Hf.
Qed.

(** An opcode without an entry is reported as invalid. *)
Lemma GetOp_lookup c pc : GetOp c pc <> STOP -> is_Some (Code c !! Z.to_nat pc).
Proof.
  unfold GetOp. destruct (Z.ltb_spec pc (Z.of_nat (length (Code c)))); [|done]. intros Hop.
  destruct (Code c !! Z.to_nat pc) eqn:E; [by eexists|done].
Qed.
Lemma undefined_iwp pc st c s (Q : outcome -> vst -> Prop) : GetOp c pc <> STOP -> code_part (v_contract s) = code_part c ->
  iwp (opUndefined pc st) s Q.
Proof.
  intros Hop Ec. unfold opUndefined. wp_tac. apply wp_or_panic. destruct (GetOp_lookup c pc Hop) as [x Hx].
  exists x. unfold Code in *. rewrite Ec. by split.
Qed.
Lemma undefined_prepare op st s : wp (prepare_op undefined_operation op st) s (fun _ s' => code_part (v_contract s') = code_part (v_contract s)).
Proof.
  unfold prepare_op. wp_step. apply check_stack_wp. intros _. wp_step. apply charge_constant_wp. intros s1 Hf _ _.
  wp_tac. unfold charge_dynamic, resize_memory. cbn. apply Hf.
Qed.

End Execution.

(** ** A concrete step *)

Section Witness.
Import ToyMachine.

#[local] Instance toy_typed : TypedReader ToyMachine.R.
Proof.
  split.
  - intros a h. cbn. destruct (a =? 5); [by vm_compute|]. destruct (a =? 6); by vm_compute.
  - intros a acct. cbn. destruct ((a =? 5) || (a =? 6)); [|done]. by intros [= <-].
Defined.

Definition no_calls : calls := {|
  c_Call _ _ _ _ _ _ := NoFuel; c_CallCode _ _ _ _ _ _ := NoFuel; c_DelegateCall _ _ _ _ _ _ _ := NoFuel;
  c_StaticCall _ _ _ _ _ := NoFuel; c_Create _ _ _ _ _ := NoFuel; c_Create2 _ _ _ _ _ _ := NoFuel
|}.

Definition storing : vst :=
  mkVst ToyMachine.machine (SetCallCode 0 [0x52; 0x53] (NewContract 9 5 0 100)) Memory.NewMemory.

End Witness.
