(* ===== verification/TxGas.v ===== *)
(** The gas a transaction pays before it runs, and the gas pool of a block: the first part
    of [core/state_transition.go] and [core/gaspool.go]. *)

From stdpp Require Import base gmap list numbers option strings.
From S2P Require Import Prelude Params MultiGas Uint256 VmCore JumpDest AccessList State Evm VmGas.
From S2P Require Import GasAccounting TxTypes.
Open Scope Z_scope.
Open Scope go_scope.

(** ** Errors

    Those of [core/error.go]; some have the names of errors of the virtual machine. *)

Module TxError.

Inductive t :=
| ErrNonceTooHigh (address tx state : Z)
| ErrNonceTooLow (address tx state : Z)
| ErrNonceMax (address nonce : Z)
| ErrGasLimitReached
| ErrInsufficientFundsForTransfer (address : Z)
| ErrMaxInitCodeSizeExceeded (size limit : Z)
| ErrInsufficientFunds (address : Z)
| ErrGasUintOverflow
| ErrIntrinsicGas (have want : Z)
| ErrFloorDataGas (have want : Z)
| ErrTipAboveFeeCap (address tip cap : Z)
| ErrTipVeryHigh (address bits : Z)
| ErrFeeCapVeryHigh (address bits : Z)
| ErrFeeCapTooLow (address cap baseFee : Z)
| ErrSenderNoEOA (address len : Z)
| ErrBlobFeeCapTooLow (address cap blobBaseFee : Z)
| ErrMissingBlobHashes
| ErrTooManyBlobs
| ErrBlobTxCreate
| ErrInvalidBlobHash (index : nat)
| ErrEmptyAuthList (sender : Z)
| ErrSetCodeTxCreate (sender : Z)
| ErrGasLimitTooHigh (cap tx : Z)
| ErrHook (code : Z).

End TxError.

(** ** The gas pool *)

Module GasPool.

(** [None] is the panic. *)
Definition AddGas (gp amount : Z) : option Z :=
  if u64 (MaxUint64 - amount) <? gp then None else Some (u64 (gp + amount)).

Definition SubGas (gp amount : Z) : result TxError.t Z :=
  if gp <? amount then Err TxError.ErrGasLimitReached else Ok (u64 (gp - amount)).

Lemma AddGas_exact gp amount : is_u64 gp -> is_u64 amount -> gp + amount < two64 ->
  AddGas gp amount = Some (gp + amount).
Proof.
  intros. unfold AddGas. rewrite !u64_small by go_lia. destruct (Z.ltb_spec (MaxUint64 - amount) gp); [go_lia|done].
Qed.

Lemma SubGas_ok gp amount gp' : is_u64 gp -> is_u64 amount ->
  SubGas gp amount = Ok gp' -> gp' = gp - amount /\ amount <= gp.
Proof.
  intros Hg Ha. unfold SubGas. destruct (Z.ltb_spec gp amount); [done|]. intros [= <-].
  split; [apply u64_small; go_lia|done].
Qed.

End GasPool.

(** ** Intrinsic gas *)

Definition CountZero (data : list Z) : Z := Z.of_nat (length (base.filter (fun b => b = 0) data)).

Definition toWordSize (size : Z) : Z :=
  if MaxUint64 - 31 <? size then MaxUint64 / 32 + 1 else u64 (size + 31) / 32.

(** [if (math.MaxUint64-gas.SingleGas())/price < count { return ErrGasUintOverflow }] and
    then the increment by [count*price]. *)
Definition add_checked (gas : MultiGas) (kind : ResourceKind) (count price : Z) : result TxError.t MultiGas :=
  if (MaxUint64 - SingleGas gas) / price <? count then Err TxError.ErrGasUintOverflow
  else Ok (SaturatingIncrementInto gas kind (u64 (count * price))).

(** The part of the data. *)
Definition data_gas (data : list Z) (isContractCreation isEIP2028 isEIP3860 : bool) (gas : MultiGas) :
    result TxError.t MultiGas :=
  let dataLen := Z.of_nat (length data) in
  if 0 <? dataLen then
    let z := CountZero data in
    let nz := u64 (dataLen - z) in
    let nonZeroGas := if isEIP2028 then TxDataNonZeroGasEIP2028 else TxDataNonZeroGasFrontier in
    let! gas := add_checked gas ResourceKindL2Calldata nz nonZeroGas in
    let! gas := add_checked gas ResourceKindL2Calldata z TxDataZeroGas in
    if isContractCreation && isEIP3860 then
      add_checked gas ResourceKindComputation (toWordSize dataLen) InitCodeWordGas
    else Ok gas
  else Ok gas.

Definition IntrinsicMultiGas {Auth} (data : list Z) (accessList : option (list AccessTuple))
    (authList : option (list Auth)) (isContractCreation isHomestead isEIP2028 isEIP3860 : bool) :
    result TxError.t MultiGas :=
  let gas :=
    SaturatingIncrementInto ZeroGas ResourceKindComputation
      (if isContractCreation && isHomestead then TxGasContractCreation else TxGas) in
  let! gas := data_gas data isContractCreation isEIP2028 isEIP3860 gas in
  let gas :=
    match accessList with
    | Some al =>
        let gas := SaturatingIncrementInto gas ResourceKindStorageAccessRead
                     (u64 (Z.of_nat (length al) * TxAccessListAddressGas)) in
        SaturatingIncrementInto gas ResourceKindStorageAccessRead
          (u64 (u64 (StorageKeys al) * TxAccessListStorageKeyGas))
    | None => gas
    end in
  let gas :=
    match authList with
    | Some auths =>
        SaturatingIncrementInto gas ResourceKindStorageGrowth
          (u64 (Z.of_nat (length auths) * CallNewAccountGas))
    | None => gas
    end in
  Ok gas.

Definition IntrinsicGas {Auth} (data : list Z) (accessList : option (list AccessTuple))
    (authList : option (list Auth)) (isContractCreation isHomestead isEIP2028 isEIP3860 : bool) :
    result TxError.t Z :=
  let! multiGas :=
    IntrinsicMultiGas data accessList authList isContractCreation isHomestead isEIP2028 isEIP3860 in
  Ok (SingleGas multiGas).

Definition FloorDataGas (data : list Z) : result TxError.t Z :=
  let z := CountZero data in
  let nz := u64 (Z.of_nat (length data) - z) in
  let tokens := u64 (u64 (nz * TxTokenPerNonZeroByte) + z) in
  if (MaxUint64 - TxGas) / TxCostFloorPerToken <? tokens then Err TxError.ErrGasUintOverflow
  else Ok (u64 (TxGas + u64 (tokens * TxCostFloorPerToken))).

Example transfer_gas : IntrinsicGas (Auth := unit) [] None None false true true true = Ok 21000.
Proof. done. Qed.
Example creation_gas :
  IntrinsicGas (Auth := unit) [0; 1; 2] (Some [(5, [1; 2])]) None true true true true
  = Ok (53000 + 4 + 2 * 16 + 2 + 2400 + 2 * 1900).
Proof. by vm_compute. Qed.
Example floor_gas : FloorDataGas [0; 1; 2] = Ok (21000 + 9 * 10).
Proof. by vm_compute. Qed.

(** ** Exactness *)

(** [g'] is [g] with [a] more of kind [k]. *)
Definition incremented (g : MultiGas) (k : ResourceKind) (a : Z) (g' : MultiGas) : Prop :=
  gas_ok g' /\ total g' = total g + a /\ forall k', Get g' k' = Get g k' + if decide (k = k') then a else 0.

Lemma increment_into g k a : gas_ok g -> is_u64 a -> total g + a < two64 ->
  incremented g k a (SaturatingIncrementInto g k a).
Proof. intros. by apply SaturatingIncrement_ok. Qed.

Lemma add_checked_spec g k count price : gas_ok g -> 0 <= count -> 0 < price ->
  (total g + count * price < two64 -> exists g', add_checked g k count price = Ok g' /\ incremented g k (count * price) g')
  /\ (two64 <= total g + count * price -> add_checked g k count price = Err TxError.ErrGasUintOverflow).
Proof.
  intros Hg Hc Hp. pose proof (gas_ok_total g Hg) as [Ht _]. unfold add_checked. rewrite gas_ok_single by done.
  assert ((MaxUint64 - total g) / price < count <-> two64 <= total g + count * price) as Hiff.
  { unfold MaxUint64. split; intros H.
    - pose proof (Z.mul_succ_div_gt (18446744073709551615 - total g) price Hp). nia.
    - apply Z.div_lt_upper_bound; lia. }
  destruct (Z.ltb_spec ((MaxUint64 - total g) / price) count) as [H|H].
  { apply Hiff in H. split; [lia|done]. }
  assert (total g + count * price < two64) as Hs by (apply Z.lt_nge; intros Hn; apply Hiff in Hn; lia).
  split; [intros _|lia].
  assert (is_u64 (count * price)) as Hu by (unfold is_u64; nia).
  eexists. split; [done|]. rewrite u64_small by done. by apply increment_into.
Qed.

Lemma CountZero_range data : 0 <= CountZero data <= Z.of_nat (length data).
Proof. unfold CountZero. pose proof (length_filter (fun b : Z => b = 0) data). lia. Qed.

Definition calldata_gas (data : list Z) (isEIP2028 : bool) : Z :=
  (Z.of_nat (length data) - CountZero data) * (if isEIP2028 then TxDataNonZeroGasEIP2028 else TxDataNonZeroGasFrontier)
  + CountZero data * TxDataZeroGas.

Definition initcode_gas (data : list Z) (charged : bool) : Z :=
  if charged then (Z.of_nat (length data) + 31) / 32 * InitCodeWordGas else 0.

(** Two increments of the same or of different kinds, read by a kind. *)
Ltac read_kinds :=
  repeat match goal with H : forall k', Get _ k' = _ |- _ => rewrite H; clear H end;
  repeat (rewrite decide_True by done || rewrite decide_False by done).

Lemma data_gas_spec data creation b2028 b3860 g :
  Z.of_nat (length data) < two64 / 2 -> gas_ok g ->
  let calldata := calldata_gas data b2028 in
  let initcode := initcode_gas data (creation && b3860) in
  (two64 <= total g + calldata + initcode ->
     data_gas data creation b2028 b3860 g = Err TxError.ErrGasUintOverflow)
  /\ (total g + calldata + initcode < two64 -> exists g',
       data_gas data creation b2028 b3860 g = Ok g' /\ gas_ok g' /\ total g' = total g + calldata + initcode
       /\ forall k, Get g' k = Get g k + (if decide (ResourceKindL2Calldata = k) then calldata else 0)
                             + (if decide (ResourceKindComputation = k) then initcode else 0)).
Proof.
  intros Hlen Hg. cbv zeta. change (two64 / 2) with 9223372036854775808 in Hlen.
  pose proof (gas_ok_total g Hg) as [Ht _].
  pose proof (CountZero_range data) as Hz. unfold data_gas, calldata_gas, initcode_gas.
  set (len := Z.of_nat (length data)) in *. set (z := CountZero data) in *.
  assert (0 <= len) as Hl0 by (unfold len; lia).
  assert ((if b2028 then TxDataNonZeroGasEIP2028 else TxDataNonZeroGasFrontier) = 16
    \/ (if b2028 then TxDataNonZeroGasEIP2028 else TxDataNonZeroGasFrontier) = 68) as Hprice
    by (destruct b2028; [by left|by right]).
  set (price := if b2028 then TxDataNonZeroGasEIP2028 else TxDataNonZeroGasFrontier) in *.
  assert (toWordSize len = (len + 31) / 32) as Ew.
  { unfold toWordSize. destruct (Z.ltb_spec (MaxUint64 - 31) len); go_lia. }
  assert (u64 (len - z) = len - z) as Enz by (apply u64_small; unfold is_u64; lia).
  destruct (Z.ltb_spec 0 len) as [Hpos|Hpos]; cbv zeta.
  2:{ assert (len = 0) as E0 by lia. assert (z = 0) as -> by lia. rewrite E0.
      replace ((0 - 0) * price + 0 * TxDataZeroGas) with 0 by lia.
      replace (if creation && b3860 then (0 + 31) / 32 * InitCodeWordGas else 0) with 0 by (by destruct (_ && _)).
      split; [lia|]. intros _. exists g. split; [done|]. split; [done|]. split; [lia|].
      intros k. repeat case_decide; lia. }
  rewrite Enz, Ew.
  assert (0 <= (if creation && b3860 then (len + 31) / 32 * InitCodeWordGas else 0)) as Hinit.
  { destruct (creation && b3860); [|done]. unfold InitCodeWordGas. pose proof (Z.div_pos (len + 31) 32). lia. }
  destruct (add_checked_spec g ResourceKindL2Calldata (len - z) price) as [Hok Herr]; [done|lia|lia|].
  unfold TxDataZeroGas in *.
  destruct (Z.lt_ge_cases (total g + (len - z) * price) two64) as [H1|H1].
  2:{ rewrite (Herr H1). split; [done|]. intros. lia. }
  destruct (Hok H1) as (g1 & E1 & Hg1 & T1 & K1). rewrite E1. cbn [result_bind]. clear Hok Herr.
  destruct (add_checked_spec g1 ResourceKindL2Calldata z 4) as [Hok Herr]; [done|lia|lia|].
  destruct (Z.lt_ge_cases (total g1 + z * 4) two64) as [H2|H2].
  2:{ rewrite (Herr H2). split; [done|]. intros. lia. }
  destruct (Hok H2) as (g2 & E2 & Hg2 & T2 & K2). rewrite E2. cbn [result_bind]. clear Hok Herr.
  destruct (creation && b3860).
  2:{ split; [lia|]. intros _. exists g2. split; [done|]. split; [done|]. split; [lia|].
      intros k. rewrite K2, K1. repeat case_decide; lia. }
  destruct (add_checked_spec g2 ResourceKindComputation ((len + 31) / 32) InitCodeWordGas) as [Hok Herr];
    [done|apply Z.div_pos; lia|done|].
  split; intros Hs.
  - apply Herr. lia.
  - destruct Hok as (g3 & E3 & Hg3 & T3 & K3); [lia|]. exists g3. split; [done|]. split; [done|]. split; [lia|].
    intros k. rewrite K3, K2, K1. repeat case_decide; lia.
Qed.

Definition base_gas (creation homestead : bool) : Z :=
  if creation && homestead then TxGasContractCreation else TxGas.

(** What the access list and the authorizations cost. *)
Definition access_gas (al : option (list AccessTuple)) : Z :=
  match al with
  | Some al => Z.of_nat (length al) * TxAccessListAddressGas + StorageKeys al * TxAccessListStorageKeyGas
  | None => 0
  end.
Definition authorization_gas {Auth} (auths : option (list Auth)) : Z :=
  match auths with Some auths => Z.of_nat (length auths) * CallNewAccountGas | None => 0 end.

Lemma StorageKeys_nonneg al : 0 <= StorageKeys al.
Proof.
  unfold StorageKeys. assert (forall n, 0 <= n -> 0 <= foldl (fun sum tuple => sum + Z.of_nat (length (snd tuple))) n al)
    as H; [|by apply H].
  induction al as [|t al IH]; intros n Hn; simpl; [done|]. apply IH. lia.
Qed.

Lemma increment_twice g k a b : gas_ok g -> is_u64 a -> is_u64 b -> total g + a + b < two64 ->
  incremented g k (a + b) (SaturatingIncrementInto (SaturatingIncrementInto g k a) k b).
Proof.
  intros Hg Ha Hb Hs. assert (total g + a < two64) as Hs1 by go_lia.
  destruct (increment_into g k a Hg Ha Hs1) as (H1 & T1 & K1).
  destruct (increment_into (SaturatingIncrementInto g k a) k b) as (H2 & T2 & K2); [done|done|lia|].
  split; [done|]. split; [lia|]. intros k'. rewrite K2, K1. case_decide; lia.
Qed.

Lemma incremented_zero g k : gas_ok g -> incremented g k 0 g.
Proof. intros Hg. split; [done|]. split; [lia|]. intros k'. case_decide; lia. Qed.

Lemma access_gas_nonneg al : 0 <= access_gas al.
Proof.
  destruct al as [al|]; simpl; [|done]. pose proof (StorageKeys_nonneg al).
  unfold TxAccessListAddressGas, TxAccessListStorageKeyGas. lia.
Qed.

Lemma authorization_gas_nonneg {Auth} (auths : option (list Auth)) : 0 <= authorization_gas auths.
Proof. destruct auths; simpl; [unfold CallNewAccountGas; lia|done]. Qed.

Lemma access_step al g : gas_ok g -> total g + access_gas al < two64 ->
  incremented g ResourceKindStorageAccessRead (access_gas al)
    (match al with
     | Some al =>
         SaturatingIncrementInto
           (SaturatingIncrementInto g ResourceKindStorageAccessRead
              (u64 (Z.of_nat (length al) * TxAccessListAddressGas)))
           ResourceKindStorageAccessRead (u64 (u64 (StorageKeys al) * TxAccessListStorageKeyGas))
     | None => g
     end).
Proof.
  intros Hg. pose proof (gas_ok_total g Hg) as [Ht _]. destruct al as [al|]; simpl; [|intros; by apply incremented_zero].
  pose proof (StorageKeys_nonneg al). unfold TxAccessListAddressGas, TxAccessListStorageKeyGas. intros Hs.
  rewrite (u64_small (StorageKeys al)) by (unfold is_u64; lia).
  rewrite !u64_small by (unfold is_u64; lia). apply increment_twice; unfold is_u64; done || lia.
Qed.

Lemma authorization_step {Auth} (auths : option (list Auth)) g :
  gas_ok g -> total g + authorization_gas auths < two64 ->
  incremented g ResourceKindStorageGrowth (authorization_gas auths)
    (match auths with
     | Some auths =>
         SaturatingIncrementInto g ResourceKindStorageGrowth (u64 (Z.of_nat (length auths) * CallNewAccountGas))
     | None => g
     end).
Proof.
  intros Hg. pose proof (gas_ok_total g Hg) as [Ht _]. destruct auths as [l|]; simpl; [|intros; by apply incremented_zero].
  unfold CallNewAccountGas. intros Hs. rewrite u64_small by (unfold is_u64; lia).
  apply increment_into; unfold is_u64; done || lia.
Qed.

(** C8.  Intrinsic gas is exact: it is the base cost, 16 (before Istanbul 68) for each
    non-zero and 4 for each zero byte of data, 2 for each word of init code from Shanghai
    on, 2400 and 1900 for each address and key of the access list, and 25000 for each
    authorization; each part is booked under its own kind of resource.  The error is
    returned exactly when the base cost and that of the data leave uint64. *)
Theorem IntrinsicGas_exact {Auth} data al (auths : option (list Auth)) creation homestead b2028 b3860 :
  Z.of_nat (length data) < two64 / 2 ->
  let computation := base_gas creation homestead + initcode_gas data (creation && b3860) in
  let calldata := calldata_gas data b2028 in
  let gas := IntrinsicMultiGas data al auths creation homestead b2028 b3860 in
  (gas = Err TxError.ErrGasUintOverflow <-> two64 <= computation + calldata)
  /\ let sum := computation + calldata + access_gas al + authorization_gas auths in
     (sum < two64 ->
      exists g, gas = Ok g /\ gas_ok g
        /\ Get g ResourceKindComputation = computation /\ Get g ResourceKindL2Calldata = calldata
        /\ Get g ResourceKindStorageAccessRead = access_gas al
        /\ Get g ResourceKindStorageGrowth = authorization_gas auths
        /\ IntrinsicGas data al auths creation homestead b2028 b3860 = Ok sum).
Proof.
  intros Hlen. cbv zeta. unfold IntrinsicGas, IntrinsicMultiGas. fold (base_gas creation homestead).
  assert (0 <= base_gas creation homestead <= 53000) as Hb by (unfold base_gas; by destruct (_ && _)).
  destruct (increment_into ZeroGas ResourceKindComputation (base_gas creation homestead)) as (H0 & T0 & K0);
    [apply zero_gas_ok|unfold is_u64; lia|change (total ZeroGas) with 0; lia|].
  change (total ZeroGas) with 0 in T0.
  set (g0 := SaturatingIncrementInto ZeroGas _ _) in *.
  destruct (data_gas_spec data creation b2028 b3860 g0 Hlen H0) as [Herr Hok].
  destruct (Z.lt_ge_cases (total g0 + calldata_gas data b2028 + initcode_gas data (creation && b3860)) two64) as [Hs|Hs].
  2:{ rewrite (Herr Hs). cbn [result_bind]. split; [by split; [lia|]|]. intros Hsum. exfalso.
      pose proof (access_gas_nonneg al). pose proof (authorization_gas_nonneg auths). lia. }
  destruct (Hok Hs) as (g1 & -> & H1 & T1 & K1). cbn [result_bind]. clear Herr Hok.
  split; [split; [done|lia]|]. intros Hsum.
  pose proof (access_gas_nonneg al) as Ha. pose proof (authorization_gas_nonneg auths) as Hu.
  destruct (access_step al g1 H1) as (H2 & T2 & K2); [lia|].
  set (g2 := match al with Some _ => _ | None => g1 end) in *.
  destruct (authorization_step auths g2 H2) as (H3 & T3 & K3); [lia|].
  set (g3 := match auths with Some _ => _ | None => g2 end) in *.
  exists g3. split; [done|]. split; [done|]. rewrite !K3, !K2, !K1, !K0.
  assert (forall k, Get ZeroGas k = 0) as Hz by (intros k; by destruct k).
  rewrite !Hz. split_and!; try (repeat case_decide; congruence || lia).
  cbn [result_bind]. rewrite gas_ok_single by done. f_equal. lia.
Qed.

(** A creation with three bytes of data and an access list. *)
Lemma IntrinsicGas_exact_witness :
  IntrinsicGas (Auth := unit) [0; 1; 2] (Some [(5, [1; 2])]) None true true true true = Ok 59238.
Proof.
  destruct (IntrinsicGas_exact (Auth := unit) [0; 1; 2] (Some [(5, [1; 2])]) None true true true true
    ltac:(done)) as [_ H].
  destruct (H ltac:(by vm_compute)) as (g & _ & _ & _ & _ & _ & _ & E). rewrite E. by vm_compute.
Defined.

(** ** The floor *)

Lemma FloorDataGas_exact data : Z.of_nat (length data) < two64 / 8 ->
  let tokens := 4 * (Z.of_nat (length data) - CountZero data) + CountZero data in
  FloorDataGas data = if two64 <=? 21000 + 10 * tokens then Err TxError.ErrGasUintOverflow
                      else Ok (21000 + 10 * tokens).
Proof.
  intros Hlen. cbv zeta. change (two64 / 8) with 2305843009213693952 in Hlen.
  pose proof (CountZero_range data) as Hz. unfold FloorDataGas, TxTokenPerNonZeroByte, TxGas, TxCostFloorPerToken.
  set (len := Z.of_nat (length data)) in *. set (z := CountZero data) in *.
  rewrite (u64_small (len - z)) by (unfold is_u64; lia).
  rewrite (u64_small ((len - z) * 4)) by (unfold is_u64; lia).
  rewrite (u64_small ((len - z) * 4 + z)) by (unfold is_u64; lia).
  change ((MaxUint64 - 21000) / 10) with 1844674407370953061.
  destruct (Z.ltb_spec 1844674407370953061 ((len - z) * 4 + z)), (Z.leb_spec two64 (21000 + 10 * (4 * (len - z) + z)));
    try lia; [done|]. f_equal.
  rewrite (u64_small (((len - z) * 4 + z) * 10)) by (unfold is_u64; lia).
  rewrite u64_small by (unfold is_u64; lia). lia.
Qed.
