(* ===== verification/StateTransition.v ===== *)
(** The state transition: [core/state_transition.go], with the hook of
    [core/vm/evm_arbitrum.go] and the addresses of the precompiled contracts.

    A transition threads the gas pool, the message (whose price the first step may
    lower), the gas left, the EVM with its state database, and the state of the
    processing hook; a computation may end in an error, panic, or run out of the
    fuel that the calls take.  What the calls do to the hook is left out: the methods
    that read its state answer the same before and after them.  Tracers are left out,
    and so are the branches for the Verkle rules (EIP-4762). *)

From stdpp Require Import base gmap list numbers option strings.
From S2P Require Import Prelude Params ChainConfig MultiGas Uint256 VmCore JumpDest AccessList State.
From S2P Require Import Evm VmGas Instructions JumpTable Interpreter TxTypes TxGas.
Open Scope Z_scope.

(** ** Messages *)

Inductive messageRunMode :=
| messageCommitMode
| messageGasEstimationMode
| messageEthcallMode
| messageReplayMode
| messageRecordingMode
| messageSequencingMode
| messageDelayedSequencingMode.

#[global] Instance messageRunMode_eq_dec : EqDecision messageRunMode.
Proof. solve_decision. Defined.

Record MessageRunContext := mkMessageRunContext {
  runMode : messageRunMode;
  wasmCacheTag : Z;
  wasmTargets : list string
}.

Section RunContext.
Context {R : Reader}.

Definition NewMessageCommitContext (wasmTargets : list string) : MessageRunContext :=
  mkMessageRunContext messageCommitMode 1 (match wasmTargets with [] => [LocalTarget] | l => l end).
Definition NewMessageSequencingContext (targets : list string) : MessageRunContext :=
  let ctx := NewMessageCommitContext targets in
  mkMessageRunContext messageSequencingMode (wasmCacheTag ctx) (wasmTargets ctx).
Definition NewMessageDelayedSequencingContext (targets : list string) : MessageRunContext :=
  let ctx := NewMessageCommitContext targets in
  mkMessageRunContext messageDelayedSequencingMode (wasmCacheTag ctx) (wasmTargets ctx).
Definition NewMessageReplayContext : MessageRunContext :=
  mkMessageRunContext messageReplayMode 0 [LocalTarget].
Definition NewMessageRecordingContext (targets : list string) : MessageRunContext :=
  mkMessageRunContext messageRecordingMode 0 (match targets with [] => [LocalTarget] | l => l end).
Definition NewMessagePrefetchContext : MessageRunContext := NewMessageReplayContext.
Definition NewMessageEthcallContext : MessageRunContext :=
  mkMessageRunContext messageEthcallMode 0 [LocalTarget].
Definition NewMessageGasEstimationContext : MessageRunContext :=
  mkMessageRunContext messageGasEstimationMode 0 [LocalTarget].

End RunContext.

Definition in_mode (c : MessageRunContext) (m : messageRunMode) : bool := bool_decide (runMode c = m).

Definition IsSequencing (c : MessageRunContext) : bool := in_mode c messageSequencingMode.
Definition IsDelayedSequencing (c : MessageRunContext) : bool := in_mode c messageDelayedSequencingMode.
Definition IsCommitMode (c : MessageRunContext) : bool :=
  in_mode c messageCommitMode || in_mode c messageSequencingMode || in_mode c messageDelayedSequencingMode.
Definition IsExecutedOnChain (c : MessageRunContext) : bool :=
  IsCommitMode c || in_mode c messageReplayMode || in_mode c messageRecordingMode.
Definition IsGasEstimation (c : MessageRunContext) : bool := in_mode c messageGasEstimationMode.
Definition IsNonMutating (c : MessageRunContext) : bool :=
  in_mode c messageGasEstimationMode || in_mode c messageEthcallMode.
Definition IsEthcall (c : MessageRunContext) : bool := in_mode c messageEthcallMode.
Definition IsRecording (c : MessageRunContext) : bool := in_mode c messageRecordingMode.

(** A nil pointer or slice is [None] where the code looks at it; [Tx] is left out. *)
Record Message := mkMessage {
  TxRunContext : MessageRunContext;
  msg_To : option Z;
  msg_From : Z;
  msg_Nonce : Z;
  msg_Value : Z;
  msg_GasLimit : Z;
  GasPrice : Z;
  GasFeeCap : option Z;
  GasTipCap : option Z;
  msg_Data : list Z;
  msg_AccessList : option (list (Z * list Z));
  BlobGasFeeCap : option Z;
  msg_BlobHashes : option (list Z);
  SetCodeAuthorizations : option (list SetCodeAuthorization);
  SkipNonceChecks : bool;
  SkipTransactionChecks : bool;
  SkipL1Charging : bool
}.

(** [msg.GasPrice] and [msg.GasTipCap] are assigned to. *)
Definition set_price (price : Z) (tip : option Z) (m : Message) : Message :=
  mkMessage (TxRunContext m) (msg_To m) (msg_From m) (msg_Nonce m) (msg_Value m) (msg_GasLimit m)
    price (GasFeeCap m) tip (msg_Data m) (msg_AccessList m) (BlobGasFeeCap m) (msg_BlobHashes m)
    (SetCodeAuthorizations m) (SkipNonceChecks m) (SkipTransactionChecks m) (SkipL1Charging m).

Record ExecutionResult := mkExecutionResult {
  UsedGas : Z;
  MaxUsedGas : Z;
  res_Err : option vmError;
  ReturnData : list Z;
  TopLevelDeployed : option Z;
  res_UsedMultiGas : MultiGas
}.

Definition Failed (r : ExecutionResult) : bool := match res_Err r with Some _ => true | None => false end.
Definition Return (r : ExecutionResult) : list Z := if Failed r then [] else ReturnData r.
Definition Revert (r : ExecutionResult) : list Z :=
  match res_Err r with Some ErrExecutionReverted => ReturnData r | _ => [] end.

(** ** The environment of a transaction *)

(** The configuration and context that [Env] and [Chain] leave out. *)
Class TxEnv := {
  config : ChainConfig;
  isMerge : bool;
  ctx_ArbOSVersion : Z;
  NoBaseFee : bool;
  (** The tables of addresses that the chain of an Arbitrum node fills, by the
      version they start from. *)
  arbitrum_precompiles : Z -> list Z
}.

(** [SetCodeAuthorization.Authority]: the account that signed, recovered by the
    elliptic-curve library; [None] is an invalid signature. *)
Class Signatures := Authority : SetCodeAuthorization -> option Z.

(** [TxProcessingHook]: what the chain does before, during and after a transaction, over
    a state of its own. *)
Class TxProcessingHook := {
  hook : Type;
  StartTxHook : hook -> EVM -> (bool * MultiGas * option vmError * list Z) * hook * EVM;
  GasChargingHook : Z -> Z -> hook -> EVM -> result TxError.t (Z * MultiGas) * Z * hook * EVM;
  RevertedTxHook : Z -> MultiGas -> hook -> EVM -> (MultiGas * option vmError) * Z * hook * EVM;
  HeldGas : hook -> Z;
  NonrefundableGas : hook -> Z;
  CollectTips : hook -> bool;
  PosterGas : hook -> Z;
  IsCalldataPricingIncreaseEnabled : hook -> bool;
  EndTxHook : Z -> MultiGas -> bool -> hook -> EVM -> hook * EVM
}.

(** The hook of a chain without ArbOS. *)
Definition DefaultTxProcessor {EN : Env} : TxProcessingHook := {|
  hook := unit;
  StartTxHook h e := ((false, ZeroGas, None, []), h, e);
  GasChargingHook gasRemaining _ h e := (Ok (Coinbase, ZeroGas), gasRemaining, h, e);
  RevertedTxHook gasRemaining usedMultiGas h e := ((usedMultiGas, None), gasRemaining, h, e);
  HeldGas _ := 0;
  NonrefundableGas _ := 0;
  CollectTips _ := true;
  PosterGas _ := 0;
  IsCalldataPricingIncreaseEnabled _ := true;
  EndTxHook _ _ _ h e := (h, e)
|}.

(** ** The precompiled contracts of a fork *)

Definition addresses_to (n : nat) : list Z := map (fun i => Z.of_nat i) (seq 1 n).

Definition PrecompiledAddressesHomestead : list Z := addresses_to 4.
Definition PrecompiledAddressesByzantium : list Z := addresses_to 8.
Definition PrecompiledAddressesIstanbul : list Z := addresses_to 9.
Definition PrecompiledAddressesBerlin : list Z := addresses_to 9.
Definition PrecompiledAddressesCancun : list Z := addresses_to 10.
Definition PrecompiledAddressesPrague : list Z := addresses_to 17.
Definition PrecompiledAddressesOsaka : list Z := addresses_to 17 ++ [0x100].

Definition ActivePrecompiles {TE : TxEnv} (rules : Rules) : list Z :=
  if IsGreaterEqual60 rules then arbitrum_precompiles 60
  else if IsDia rules then arbitrum_precompiles 50
  else if IsGreaterEqual41 rules then arbitrum_precompiles 41
  else if IsStylus rules then arbitrum_precompiles 30
  else if IsArbitrum rules then arbitrum_precompiles 0
  else if IsOsaka rules then PrecompiledAddressesOsaka
  else if IsPrague rules then PrecompiledAddressesPrague
  else if IsCancun rules then PrecompiledAddressesCancun
  else if IsBerlin rules then PrecompiledAddressesBerlin
  else if IsIstanbul rules then PrecompiledAddressesIstanbul
  else if IsByzantium rules then PrecompiledAddressesByzantium
  else PrecompiledAddressesHomestead.

(** ** The monad *)

Section Transition.
Context {U : U256.Ops} {HS : Hasher} {R : Reader} {CH : Chain} {EN : Env} {PC : Precompiles}
  {TE : TxEnv} {SG : Signatures} {TH : TxProcessingHook}.

Record stateTransition := mkStateTransition {
  gp : Z;
  msg : Message;
  gasRemaining : Z;
  initialGas : Z;
  st_evm : EVM;
  st_hook : hook
}.

Definition newStateTransition (e : EVM) (h : hook) (m : Message) (pool : Z) : stateTransition :=
  mkStateTransition pool m 0 0 e h.

Definition set_gp (v : Z) (s : stateTransition) : stateTransition :=
  mkStateTransition v (msg s) (gasRemaining s) (initialGas s) (st_evm s) (st_hook s).
Definition set_msg (v : Message) (s : stateTransition) : stateTransition :=
  mkStateTransition (gp s) v (gasRemaining s) (initialGas s) (st_evm s) (st_hook s).
Definition set_gasRemaining (v : Z) (s : stateTransition) : stateTransition :=
  mkStateTransition (gp s) (msg s) v (initialGas s) (st_evm s) (st_hook s).
Definition set_initialGas (v : Z) (s : stateTransition) : stateTransition :=
  mkStateTransition (gp s) (msg s) (gasRemaining s) v (st_evm s) (st_hook s).
Definition set_evm (v : EVM) (s : stateTransition) : stateTransition :=
  mkStateTransition (gp s) (msg s) (gasRemaining s) (initialGas s) v (st_hook s).
Definition set_hook (v : hook) (s : stateTransition) : stateTransition :=
  mkStateTransition (gp s) (msg s) (gasRemaining s) (initialGas s) (st_evm s) v.

Definition TX (A : Type) : Type := stateTransition -> run (result TxError.t A * stateTransition).

Definition tx_ret {A} (a : A) : TX A := fun s => Done (Ok a, s).
Definition tx_throw {A} (e : TxError.t) : TX A := fun s => Done (Err e, s).
Definition tx_panic {A} : TX A := fun _ => Panics.
Definition tx_bind {A B} (m : TX A) (k : A -> TX B) : TX B := fun s =>
  match m s with
  | Done (Ok a, s') => k a s'
  | Done (Err e, s') => Done (Err e, s')
  | Panics => Panics
  | NoFuel => NoFuel
  end.

Notation "'do' x <- m ; k" := (tx_bind m (fun x => k))
  (at level 10, x name, m at level 100, k at level 200).
Notation "'do' ' p <- m ; k" := (tx_bind m (fun x => match x with p => k end))
  (at level 10, p pattern, m at level 100, k at level 200).
Notation "m ;; k" := (tx_bind m (fun _ => k)) (at level 100, right associativity).

Definition get {A} (f : stateTransition -> A) : TX A := fun s => Done (Ok (f s), s).
Definition put (f : stateTransition -> stateTransition) : TX unit := fun s => Done (Ok tt, f s).
Definition refuse_if (b : bool) (e : TxError.t) : TX unit := if b then tx_throw e else tx_ret tt.
(** A pointer that is followed. *)
Definition deref {A} (o : option A) : TX A := match o with Some a => tx_ret a | None => tx_panic end.
Definition tx_result {A} (r : result TxError.t A) : TX A :=
  match r with Ok a => tx_ret a | Err e => tx_throw e end.

(** A method of the state database. *)
Definition state_do {A} (f : StateDB -> A * StateDB) : TX A := fun s =>
  let '(a, e) := with_db f (st_evm s) in Done (Ok a, set_evm e s).
Definition state_put (f : StateDB -> StateDB) : TX unit := state_do (fun db => (tt, f db)).
Definition state_try (f : StateDB -> option StateDB) : TX unit := fun s =>
  match f (evm_StateDB (st_evm s)) with
  | Some db => Done (Ok tt, set_evm (set_StateDB db (st_evm s)) s)
  | None => Panics
  end.
(** A method of the hook. *)
Definition hook_do {A} (f : hook -> EVM -> A * hook * EVM) : TX A := fun s =>
  let '(a, h, e) := f (st_hook s) (st_evm s) in Done (Ok a, set_hook h (set_evm e s)).
Definition hook_get {A} (f : hook -> A) : TX A := get (fun s => f (st_hook s)).
(** A call of the EVM. *)
Definition evm_do {A} (f : EVM -> run (A * EVM)) : TX A := fun s =>
  match f (st_evm s) with
  | Done (a, e) => Done (Ok a, set_evm e s)
  | Panics => Panics
  | NoFuel => NoFuel
  end.

(** ** Buying gas *)

Definition big_BitLen (x : Z) : Z := if x =? 0 then 0 else Z.log2 (Z.abs x) + 1.

Definition to (m : Message) : Z := default 0 (msg_To m).

Definition blobGasUsed (m : Message) : Z :=
  u64 (Z.of_nat (length (default [] (msg_BlobHashes m))) * BlobTxBlobGasPerBlob).

Definition is_cancun : bool := Config.IsCancun config (Some ctx_BlockNumber) Time ctx_ArbOSVersion.
Definition is_osaka : bool := Config.IsOsaka config (Some ctx_BlockNumber) Time ctx_ArbOSVersion.
Definition is_london : bool := Config.IsLondon config (Some ctx_BlockNumber).

(** The value of the gas, and what the sender has to own. *)
Definition gas_value (m : Message) : TX (Z * Z) :=
  let mgval := msg_GasLimit m * GasPrice m in
  let balanceCheck :=
    match GasFeeCap m with Some cap => msg_GasLimit m * cap | None => mgval end + msg_Value m in
  if is_cancun && (0 <? blobGasUsed m) then
    do cap <- deref (BlobGasFeeCap m);
    tx_ret (mgval + blobGasUsed m * BlobBaseFee, balanceCheck + blobGasUsed m * cap)
  else tx_ret (mgval, balanceCheck).

Definition buyGas : TX unit :=
  do m <- get msg;
  do ' (mgval, balanceCheck) <- gas_value m;
  let '(balanceCheckU256, overflow) := U256.FromBig balanceCheck in
  refuse_if overflow (TxError.ErrInsufficientFunds (msg_From m)) ;;
  do have <- state_do (GetBalance (msg_From m));
  refuse_if (U256.Cmp have balanceCheckU256 <? 0) (TxError.ErrInsufficientFunds (msg_From m)) ;;
  do pool <- get gp;
  do pool <- tx_result (GasPool.SubGas pool (msg_GasLimit m));
  put (set_gp pool) ;;
  put (set_gasRemaining (msg_GasLimit m)) ;;
  put (set_initialGas (msg_GasLimit m)) ;;
  let '(mgvalU256, _) := U256.FromBig mgval in
  do _ <- state_do (SubBalance (msg_From m) mgvalU256);
  tx_ret tt.

(** ** The checks before *)

Definition check_nonce (m : Message) : TX unit :=
  if SkipNonceChecks m then tx_ret tt
  else
    do stNonce <- state_do (GetNonce (msg_From m));
    if stNonce <? msg_Nonce m then tx_throw (TxError.ErrNonceTooHigh (msg_From m) (msg_Nonce m) stNonce)
    else if msg_Nonce m <? stNonce then tx_throw (TxError.ErrNonceTooLow (msg_From m) (msg_Nonce m) stNonce)
    else refuse_if (u64 (stNonce + 1) <? stNonce) (TxError.ErrNonceMax (msg_From m) stNonce).

Definition is_delegation (code : list Z) : bool :=
  match ParseDelegation code with Some _ => true | None => false end.

Definition check_sender (m : Message) : TX unit :=
  if SkipTransactionChecks m then tx_ret tt
  else
    refuse_if (negb (Config.IsArbitrum config) && is_osaka && (MaxTxGasRenamedForNitroMerges <? msg_GasLimit m))
      (TxError.ErrGasLimitTooHigh MaxTxGasRenamedForNitroMerges (msg_GasLimit m)) ;;
    do code <- state_do (GetCode (msg_From m));
    refuse_if ((0 <? Z.of_nat (length code)) && negb (is_delegation code))
      (TxError.ErrSenderNoEOA (msg_From m) (Z.of_nat (length code))).

(** [NoBaseFee && msg.GasFeeCap.BitLen() == 0 && msg.GasTipCap.BitLen() == 0] *)
Definition skip_fee_check (m : Message) : TX bool :=
  if NoBaseFee then
    do cap <- deref (GasFeeCap m);
    if big_BitLen cap =? 0 then do tip <- deref (GasTipCap m); tx_ret (big_BitLen tip =? 0)
    else tx_ret false
  else tx_ret false.

Definition check_fees (m : Message) : TX unit :=
  if is_london then
    do skip <- skip_fee_check m;
    if skip : bool then tx_ret tt
    else
      do cap <- deref (GasFeeCap m);
      refuse_if (256 <? big_BitLen cap) (TxError.ErrFeeCapVeryHigh (msg_From m) (big_BitLen cap)) ;;
      do tip <- deref (GasTipCap m);
      refuse_if (256 <? big_BitLen tip) (TxError.ErrTipVeryHigh (msg_From m) (big_BitLen tip)) ;;
      refuse_if (cap <? tip) (TxError.ErrTipAboveFeeCap (msg_From m) tip cap) ;;
      refuse_if (cap <? BaseFee) (TxError.ErrFeeCapTooLow (msg_From m) cap BaseFee)
  else tx_ret tt.

(** [kzg4844.IsValidVersionedHash] of a hash. *)
Definition IsValidVersionedHash (h : Z) : bool := Z.shiftr h 248 =? 1.

Fixpoint check_hashes (i : nat) (hashes : list Z) : TX unit :=
  match hashes with
  | [] => tx_ret tt
  | hash :: hashes =>
      refuse_if (negb (IsValidVersionedHash hash)) (TxError.ErrInvalidBlobHash i) ;;
      check_hashes (S i) hashes
  end.

Definition check_blobs (m : Message) : TX unit :=
  match msg_BlobHashes m with
  | None => tx_ret tt
  | Some hashes =>
      match msg_To m with
      | None => tx_throw TxError.ErrBlobTxCreate
      | Some _ =>
          refuse_if (Nat.eqb (length hashes) 0) TxError.ErrMissingBlobHashes ;;
          refuse_if (is_osaka && (BlobTxMaxBlobs <? Z.of_nat (length hashes))) TxError.ErrTooManyBlobs ;;
          check_hashes 0 hashes
      end
  end.

Definition check_blob_fee (m : Message) : TX unit :=
  if is_cancun && (0 <? blobGasUsed m) then
    do skip <- (if NoBaseFee then do cap <- deref (BlobGasFeeCap m); tx_ret (big_BitLen cap =? 0)
                else tx_ret false);
    if skip : bool then tx_ret tt
    else
      do cap <- deref (BlobGasFeeCap m);
      refuse_if (cap <? BlobBaseFee) (TxError.ErrBlobFeeCapTooLow (msg_From m) cap BlobBaseFee)
  else tx_ret tt.

Definition check_authorizations (m : Message) : TX unit :=
  match SetCodeAuthorizations m with
  | None => tx_ret tt
  | Some auths =>
      match msg_To m with
      | None => tx_throw (TxError.ErrSetCodeTxCreate (msg_From m))
      | Some _ => refuse_if (Nat.eqb (length auths) 0) (TxError.ErrEmptyAuthList (msg_From m))
      end
  end.

Definition preCheck : TX unit :=
  do m <- get msg;
  check_nonce m ;;
  check_sender m ;;
  check_fees m ;;
  check_blobs m ;;
  check_blob_fee m ;;
  check_authorizations m ;;
  buyGas.

(** ** Authorizations *)

Inductive authError :=
| ErrAuthorizationWrongChainID
| ErrAuthorizationNonceOverflow
| ErrAuthorizationInvalidSignature
| ErrAuthorizationDestinationHasCode
| ErrAuthorizationNonceMismatch.

(** The error and the authority of the Go function; a nil chain id panics. *)
Definition validateAuthorization (auth : SetCodeAuthorization) : TX (result authError Z) :=
  do wrong <- (if U256.IsZero (auth_ChainID auth) then tx_ret false
               else do id <- deref (cfg_ChainID config);
                    tx_ret (negb (U256.CmpBig (auth_ChainID auth) id =? 0)));
  if wrong : bool then tx_ret (Err ErrAuthorizationWrongChainID)
  else if u64 (auth_Nonce auth + 1) <? auth_Nonce auth then tx_ret (Err ErrAuthorizationNonceOverflow)
  else
    match Authority auth with
    | None => tx_ret (Err ErrAuthorizationInvalidSignature)
    | Some authority =>
        state_put (AddAddressToAccessList authority) ;;
        do code <- state_do (GetCode authority);
        if negb (Nat.eqb (length code) 0) && negb (is_delegation code) then
          tx_ret (Err ErrAuthorizationDestinationHasCode)
        else
          do have <- state_do (GetNonce authority);
          if negb (have =? auth_Nonce auth) then tx_ret (Err ErrAuthorizationNonceMismatch)
          else tx_ret (Ok authority)
    end.

Definition AddressToDelegation (addr : Z) : list Z := DelegationPrefix ++ U256.be_bytes 20 addr.

Definition applyAuthorization (auth : SetCodeAuthorization) : TX (result authError unit) :=
  do r <- validateAuthorization auth;
  match r with
  | Err e => tx_ret (Err e)
  | Ok authority =>
      do existing <- state_do (Exist authority);
      (if existing : bool then state_put (AddRefund (CallNewAccountGas - TxAuthTupleGas)) else tx_ret tt) ;;
      state_put (SetNonce authority (u64 (auth_Nonce auth + 1))) ;;
      do _ <- state_do (SetCode authority
                 (if auth_Address auth =? 0 then [] else AddressToDelegation (auth_Address auth)));
      tx_ret (Ok tt)
  end.

(** Invalid authorizations are skipped. *)
Fixpoint apply_authorizations (auths : list SetCodeAuthorization) : TX unit :=
  match auths with
  | [] => tx_ret tt
  | auth :: auths => applyAuthorization auth ;; apply_authorizations auths
  end.

(** ** Settling *)

Definition gasUsed (s : stateTransition) : Z := u64 (initialGas s - gasRemaining s).

Definition calcHeldGasRefund : TX Z := hook_get HeldGas.

Definition calcRefund : TX Z :=
  do nonrefundable <- hook_get NonrefundableGas;
  do used <- get gasUsed;
  if nonrefundable <? used then
    let refund := u64 (used - nonrefundable) / (if negb is_london then RefundQuotient else RefundQuotientEIP3529) in
    (* the counter is a uint64 *)
    do counter <- get (fun s => u64 (GetRefund (evm_StateDB (st_evm s))));
    tx_ret (if counter <? refund then counter else refund)
  else tx_ret 0.

Definition returnGas : TX unit :=
  do m <- get msg;
  do remaining <- get gasRemaining;
  let '(price, overflow) := U256.FromBig (GasPrice m) in
  if overflow then tx_panic
  else
    do _ <- state_do (AddBalance (msg_From m) (U256.Mul (U256.SetUint64 remaining) price));
    do pool <- get gp;
    do pool <- deref (GasPool.AddGas pool remaining);
    put (set_gp pool).

(** ** Execution *)

Variable fuel : nat.

Definition rules : Rules :=
  Config.Rules config (Some ctx_BlockNumber) isMerge Time ctx_ArbOSVersion.

(** Tips are dropped when the chain does not collect them. *)
Definition drop_tip : TX unit :=
  do collect <- hook_get CollectTips;
  do m <- get msg;
  if negb collect && (BaseFee <? GasPrice m) then put (set_msg (set_price BaseFee (Some 0) m)) else tx_ret tt.

Definition floor_applies : TX bool :=
  do increase <- hook_get IsCalldataPricingIncreaseEnabled;
  tx_ret (IsPrague rules && increase).

(** The floor of the data, which the gas limit has to cover; 0 when it does not apply. *)
Definition check_floor (m : Message) : TX Z :=
  do applies <- floor_applies;
  if applies : bool then
    do floorDataGas <- tx_result (FloorDataGas (msg_Data m));
    refuse_if (msg_GasLimit m <? floorDataGas) (TxError.ErrFloorDataGas (msg_GasLimit m) floorDataGas) ;;
    tx_ret floorDataGas
  else tx_ret 0.

(** The intrinsic gas and the floor, and the charge of the hook: the gas used so far, the
    floor and the recipient of the tip. *)
Definition charge_intrinsic : TX (MultiGas * Z * Z) :=
  do m <- get msg;
  do iMultiGas <- tx_result
    (IntrinsicMultiGas (msg_Data m) (msg_AccessList m) (SetCodeAuthorizations m)
       (match msg_To m with None => true | Some _ => false end)
       (IsHomestead rules) (IsIstanbul rules) (IsShanghai rules));
  let iGas := SingleGas iMultiGas in
  do remaining <- get gasRemaining;
  refuse_if (remaining <? iGas) (TxError.ErrIntrinsicGas remaining iGas) ;;
  do floorDataGas <- check_floor m;
  put (set_gasRemaining (u64 (remaining - iGas))) ;;
  let usedMultiGas := SaturatingAdd ZeroGas iMultiGas in
  do remaining <- get gasRemaining;
  do ' (charged, remaining) <- hook_do (fun h e =>
    let '(r, remaining, h, e) := GasChargingHook remaining iGas h e in ((r, remaining), h, e));
  put (set_gasRemaining remaining) ;;
  do ' (tipReceipient, multiGas) <- tx_result charged;
  tx_ret (SaturatingAdd usedMultiGas multiGas, floorDataGas, tipReceipient).

(** The value of the message, which the sender must be able to transfer. *)
Definition check_value : TX Z :=
  do m <- get msg;
  let '(value, overflow) := U256.FromBig (msg_Value m) in
  refuse_if overflow (TxError.ErrInsufficientFundsForTransfer (msg_From m)) ;;
  (if negb (U256.IsZero value) then
     do can <- state_do (CanTransfer (msg_From m) value);
     refuse_if (negb can) (TxError.ErrInsufficientFundsForTransfer (msg_From m))
   else tx_ret tt) ;;
  let limit := i64 (MaxInitCodeSize (arbitrum config)) in
  refuse_if (IsShanghai rules && (match msg_To m with None => true | Some _ => false end)
             && (limit <? Z.of_nat (length (msg_Data m))))
    (TxError.ErrMaxInitCodeSizeExceeded (Z.of_nat (length (msg_Data m))) limit) ;;
  tx_ret value.

(** The creation or the call of the message: the data it returns, its error, the
    contract it deploys and the gas it used. *)
Definition run_message (value : Z) : TX (list Z * option vmError * option Z * MultiGas) :=
  do m <- get msg;
  match msg_To m with
  | None =>
      do remaining <- get gasRemaining;
      do ' (r, addr) <- evm_do (fun e =>
        match Create (Run fuel) (msg_From m) (msg_Data m) remaining value e with
        | Done (r, addr, e) => Done ((r, addr), e)
        | Panics => Panics
        | NoFuel => NoFuel
        end);
      put (set_gasRemaining (leftOverGas r)) ;;
      tx_ret (cr_ret r, cr_err r, Some addr, usedMultiGas r)
  | Some dst =>
      do nonce <- state_do (GetNonce (msg_From m));
      state_put (SetNonce (msg_From m) (u64 (nonce + 1))) ;;
      apply_authorizations (default [] (SetCodeAuthorizations m)) ;;
      do code <- state_do (GetCode dst);
      (match ParseDelegation code with
       | Some addr => state_put (AddAddressToAccessList addr)
       | None => tx_ret tt
       end) ;;
      do remaining <- get gasRemaining;
      do r <- evm_do (Call (Run fuel) (msg_From m) (to m) (msg_Data m) remaining value);
      put (set_gasRemaining (leftOverGas r)) ;;
      tx_ret (cr_ret r, cr_err r, None, usedMultiGas r)
  end.

(** The refunds and the floor after the execution: the gas used and its peak. *)
Definition settle (usedMultiGas : MultiGas) (floorDataGas : Z) : TX (MultiGas * Z) :=
  do held <- calcHeldGasRefund;
  do remaining <- get gasRemaining;
  put (set_gasRemaining (u64 (remaining + held))) ;;
  do peakGasUsed <- get gasUsed;
  do refund <- calcRefund;
  do remaining <- get gasRemaining;
  put (set_gasRemaining (u64 (remaining + refund))) ;;
  let usedMultiGas := WithRefund usedMultiGas refund in
  do applies <- floor_applies;
  if applies : bool then
    do used <- get gasUsed;
    let peak := if peakGasUsed <? floorDataGas then floorDataGas else peakGasUsed in
    if used <? floorDataGas then
      let usedMultiGas := SaturatingIncrement usedMultiGas ResourceKindL2Calldata
                            (u64 (floorDataGas - SingleGas usedMultiGas)) in
      do gas <- get initialGas;
      put (set_gasRemaining (u64 (gas - floorDataGas))) ;;
      tx_ret (usedMultiGas, peak)
    else tx_ret (usedMultiGas, peak)
  else tx_ret (usedMultiGas, peakGasUsed).

(** [NoBaseFee && msg.GasFeeCap.Sign() == 0 && msg.GasTipCap.Sign() == 0] *)
Definition skip_tip (m : Message) : TX bool :=
  if NoBaseFee then
    do cap <- deref (GasFeeCap m);
    if cap =? 0 then do tip <- deref (GasTipCap m); tx_ret (tip =? 0) else tx_ret false
  else tx_ret false.

(** The tip for the gas used, that of the poster excepted. *)
Definition pay_tip (tipReceipient : Z) : TX unit :=
  do m <- get msg;
  let effectiveTip := if IsLondon rules then GasPrice m - BaseFee else GasPrice m in
  let '(effectiveTipU256, _) := U256.FromBig effectiveTip in
  do used <- get gasUsed;
  do skip <- skip_tip m;
  if skip : bool then tx_ret tt
  else
    do posterGas <- hook_get PosterGas;
    let computeGasUsed := if posterGas <? used then u64 (used - posterGas) else 0 in
    do _ <- state_do (AddBalance tipReceipient (U256.Mul (U256.SetUint64 computeGasUsed) effectiveTipU256));
    tx_ret tt.

Definition prepare_state (m : Message) : TX unit :=
  state_try (Prepare rules (msg_From m) Coinbase (msg_To m) (ActivePrecompiles rules)
               (default [] (msg_AccessList m))).

(** Transactions known to revert are not run. *)
Definition run_unless_reverted (usedMultiGas : MultiGas) (value : Z) :
    TX (list Z * option vmError * option Z * MultiGas) :=
  do remaining <- get gasRemaining;
  do ' ((usedMultiGas, vmerr), remaining) <- hook_do (fun h e =>
    let '(r, remaining, h, e) := RevertedTxHook remaining usedMultiGas h e in ((r, remaining), h, e));
  put (set_gasRemaining remaining) ;;
  match vmerr with
  | Some err => tx_ret ([], Some err, None, usedMultiGas)
  | None =>
      do ' (ret, vmerr, deployed, multiGas) <- run_message value;
      tx_ret (ret, vmerr, deployed, SaturatingAdd usedMultiGas multiGas)
  end.

Definition execute_message : TX ExecutionResult :=
  drop_tip ;;
  preCheck ;;
  do ' (usedMultiGas, floorDataGas, tipReceipient) <- charge_intrinsic;
  do value <- check_value;
  do m <- get msg;
  prepare_state m ;;
  do ' (ret, vmerr, deployedContract, usedMultiGas) <- run_unless_reverted usedMultiGas value;
  do ' (usedMultiGas, peakGasUsed) <- settle usedMultiGas floorDataGas;
  returnGas ;;
  do used <- get gasUsed;
  pay_tip tipReceipient ;;
  do remaining <- get gasRemaining;
  do _ <- hook_do (fun h e =>
    let '(h, e) := EndTxHook remaining usedMultiGas (match vmerr with None => true | Some _ => false end) h e in
    (tt, h, e));
  tx_ret (mkExecutionResult used peakGasUsed vmerr ret deployedContract usedMultiGas).

Definition execute : TX ExecutionResult :=
  do ' (endTxNow, startHookUsedMultiGas, err, returnData) <- hook_do StartTxHook;
  let single := SingleGas startHookUsedMultiGas in
  if endTxNow : bool then tx_ret (mkExecutionResult single single err returnData None startHookUsedMultiGas)
  else execute_message.

Definition ApplyMessage (e : EVM) (h : hook) (m : Message) (pool : Z) :
    run (result TxError.t ExecutionResult * stateTransition) :=
  execute (newStateTransition e h m pool).

End Transition.
