(* ===== verification/StateTransitionGas.v ===== *)
(** Gas in a state transition: what a message pays, what it gets back, and what the block
    is charged, add up. *)

From stdpp Require Import base gmap list numbers option strings.
From S2P Require Import Prelude Params ChainConfig ChainPresets MultiGas Uint256 VmCore JumpDest AccessList State.
From S2P Require Import StateRevert Evm VmGas SstoreRefund Instructions JumpTable Interpreter.
From S2P Require Import FuelMono GasAccounting CallGas GasConservation GasTables GasRun GasTheorems TxTypes TxGas StateTransition.
Open Scope Z_scope.

(** ** Adding exact multi-gas values *)

Lemma SaturatingAdd_ok g x : gas_ok g -> gas_ok x -> total g + total x < two64 ->
  gas_ok (SaturatingAdd g x) /\ total (SaturatingAdd g x) = total g + total x.
Proof.
  intros Hg Hx Hs. pose proof (gas_ok_total g Hg) as [Tg Eg]. pose proof (gas_ok_total x Hx) as [Tx Ex].
  pose proof (go_wf g Hg) as Hwg. pose proof (go_wf x Hx) as Hwx.
  assert (total (SaturatingAdd g x) = total g + total x) as Et.
  { unfold SaturatingAdd; simpl. rewrite saturatingScalarAdd_spec by done. simpl. unfold_u64. lia. }
  split; [|done]. split.
  - by apply SaturatingAdd_wf.
  - unfold exact. rewrite Et. change (SaturatingAdd g x) with (SaturatingAddInto g x).
    rewrite SaturatingAddInto_bill by done. simpl. rewrite zip_clamp_small; [|by apply wf_nonneg..|lia].
    rewrite sumZ_badd by (by rewrite (wf_length g Hwg), (wf_length x Hwx)). lia.
  - unfold SaturatingAdd; simpl. by rewrite (go_refund g Hg), (go_refund x Hx).
Qed.

(** ** Weakest preconditions *)

Section Wp.
Context {U : U256.Ops} {HS : Hasher} {R : Reader} {CH : Chain} {EN : Env} {PC : Precompiles}
  {TE : TxEnv} {SG : Signatures} {TH : TxProcessingHook}.

(** Run from [s], [m] does not run out of fuel; a result satisfies [Q], an error [E]. *)
Definition wp {A} (m : TX A) (Q : A -> stateTransition -> Prop) (E : TxError.t -> stateTransition -> Prop)
    (s : stateTransition) : Prop :=
  match m s with
  | Done (Ok a, s') => Q a s'
  | Done (Err e, s') => E e s'
  | Panics => True
  | NoFuel => False
  end.

Lemma wp_weaken {A} (m : TX A) (Q Q' : A -> stateTransition -> Prop) (E E' : TxError.t -> stateTransition -> Prop) s :
  wp m Q E s -> (forall a s', Q a s' -> Q' a s') -> (forall e s', E e s' -> E' e s') -> wp m Q' E' s.
Proof. unfold wp. destruct (m s) as [[[a|e] s']| |]; auto. Qed.

Lemma wp_bind {A B} (m : TX A) (k : A -> TX B) Q E s :
  wp m (fun a s' => wp (k a) Q E s') E s -> wp (tx_bind m k) Q E s.
Proof. unfold wp, tx_bind. by destruct (m s) as [[[a|e] s']| |]. Qed.

Lemma wp_ret {A} (a : A) (Q : A -> stateTransition -> Prop) E s : Q a s -> wp (tx_ret a) Q E s.
Proof. done. Qed.
Lemma wp_throw {A} e (Q : A -> stateTransition -> Prop) (E : TxError.t -> stateTransition -> Prop) s :
  E e s -> wp (tx_throw e) Q E s.
Proof. done. Qed.
Lemma wp_panic {A} (Q : A -> stateTransition -> Prop) E s : wp tx_panic Q E s.
Proof. done. Qed.
Lemma wp_get {A} (f : stateTransition -> A) (Q : A -> stateTransition -> Prop) E s : Q (f s) s -> wp (get f) Q E s.
Proof. done. Qed.
Lemma wp_put f (Q : unit -> stateTransition -> Prop) E s : Q tt (f s) -> wp (put f) Q E s.
Proof. done. Qed.
Lemma wp_hook_get {A} (f : hook -> A) (Q : A -> stateTransition -> Prop) E s : Q (f (st_hook s)) s -> wp (hook_get f) Q E s.
Proof. done. Qed.
Lemma wp_refuse_if b e (Q : unit -> stateTransition -> Prop) (E : TxError.t -> stateTransition -> Prop) s :
  (b = true -> E e s) -> (b = false -> Q tt s) -> wp (refuse_if b e) Q E s.
Proof. destruct b; unfold wp; simpl; auto. Qed.
Lemma wp_deref {A} (o : option A) (Q : A -> stateTransition -> Prop) E s :
  (forall a, o = Some a -> Q a s) -> wp (deref o) Q E s.
Proof. destruct o; unfold wp; simpl; auto. Qed.
Lemma wp_result {A} (r : result TxError.t A) (Q : A -> stateTransition -> Prop) (E : TxError.t -> stateTransition -> Prop) s :
  match r with Ok a => Q a s | Err e => E e s end -> wp (tx_result r) Q E s.
Proof. by destruct r. Qed.
Lemma wp_state_do {A} (f : StateDB -> A * StateDB) (Q : A -> stateTransition -> Prop) E s :
  (forall a e, Q a (set_evm e s)) -> wp (state_do f) Q E s.
Proof. intros H. unfold wp, state_do, with_db. destruct (f _). apply H. Qed.
Lemma wp_state_try f (Q : unit -> stateTransition -> Prop) E s :
  (forall e, Q tt (set_evm e s)) -> wp (state_try f) Q E s.
Proof. intros H. unfold wp, state_try. destruct (f _); auto. Qed.

Lemma wp_hook_do {A} (f : hook -> EVM -> A * hook * EVM) (Q : A -> stateTransition -> Prop) E s :
  (forall a h e, f (st_hook s) (st_evm s) = (a, h, e) -> Q a (set_hook h (set_evm e s))) -> wp (hook_do f) Q E s.
Proof. intros H. unfold wp, hook_do. destruct (f _ _) as [[a h] e] eqn:E'. auto. Qed.

(** ** Computations that only change the EVM *)

Definition evm_only {A} (m : TX A) : Prop := forall s,
  wp m (fun _ s' => s' = set_evm (st_evm s') s) (fun _ s' => s' = set_evm (st_evm s') s) s.

Lemma wp_evm_only {A} (m : TX A) (Q : A -> stateTransition -> Prop) (E : TxError.t -> stateTransition -> Prop) s :
  evm_only m -> (forall a e, Q a (set_evm e s)) -> (forall x e, E x (set_evm e s)) -> wp m Q E s.
Proof.
  intros Hm HQ HE. eapply wp_weaken; [apply Hm|simpl..]; intros ? ? ->; auto.
Qed.

Lemma set_evm_self s : s = set_evm (st_evm s) s.
Proof. by destruct s. Qed.

Lemma evm_only_ret {A} (a : A) : evm_only (tx_ret a).
Proof. intros s. apply set_evm_self. Qed.
Lemma evm_only_throw {A} e : evm_only (tx_throw (A := A) e).
Proof. intros s. apply set_evm_self. Qed.
Lemma evm_only_panic {A} : evm_only (tx_panic (A := A)).
Proof. done. Qed.
Lemma evm_only_get {A} (f : stateTransition -> A) : evm_only (get f).
Proof. intros s. apply set_evm_self. Qed.
Lemma evm_only_hook_get {A} (f : hook -> A) : evm_only (hook_get f).
Proof. intros s. apply set_evm_self. Qed.
Lemma evm_only_refuse_if b e : evm_only (refuse_if b e).
Proof. destruct b; [apply evm_only_throw|apply evm_only_ret]. Qed.
Lemma evm_only_deref {A} (o : option A) : evm_only (deref o).
Proof. destruct o; [apply evm_only_ret|done]. Qed.
Lemma evm_only_result {A} (r : result TxError.t A) : evm_only (tx_result r).
Proof. destruct r; [apply evm_only_ret|apply evm_only_throw]. Qed.
Lemma evm_only_state_do {A} (f : StateDB -> A * StateDB) : evm_only (state_do f).
Proof. intros s. by apply wp_state_do. Qed.
Lemma evm_only_state_put f : evm_only (state_put f).
Proof. apply evm_only_state_do. Qed.
Lemma evm_only_state_try f : evm_only (state_try f).
Proof. intros s. by apply wp_state_try. Qed.
Lemma evm_only_bind {A B} (m : TX A) (k : A -> TX B) :
  evm_only m -> (forall a, evm_only (k a)) -> evm_only (tx_bind m k).
Proof.
  intros Hm Hk s. apply wp_bind. eapply wp_evm_only; [done|intros a e|done].
  eapply wp_weaken; [apply Hk|simpl..]; intros ? ? ->; done.
Qed.
End Wp.

Create HintDb evm_only discriminated.
#[export] Hint Resolve evm_only_ret evm_only_throw evm_only_panic evm_only_get evm_only_hook_get
  evm_only_refuse_if evm_only_deref evm_only_result evm_only_state_do evm_only_state_put
  evm_only_state_try : evm_only.

Ltac evm_only_step :=
  first
    [ solve [auto with evm_only nocore]
    | match goal with
      | |- evm_only (tx_bind _ _) => apply evm_only_bind; [|intros ?]
      | |- evm_only (if ?b then _ else _) => destruct b
      | |- evm_only (match ?x with _ => _ end) => destruct x
      | |- evm_only (let '(_, _) := ?x in _) => destruct x
      end ].
Ltac evm_only_tac := repeat evm_only_step.

Section Frames.
Context {U : U256.Ops} {HS : Hasher} {R : Reader} {CH : Chain} {EN : Env} {PC : Precompiles}
  {TE : TxEnv} {SG : Signatures} {TH : TxProcessingHook}.

Lemma gas_value_only m : evm_only (gas_value m).
Proof. unfold gas_value. evm_only_tac. Qed.
Lemma check_nonce_only m : evm_only (check_nonce m).
Proof. unfold check_nonce. evm_only_tac. Qed.
Lemma check_sender_only m : evm_only (check_sender m).
Proof. unfold check_sender. evm_only_tac. Qed.
Lemma check_fees_only m : evm_only (check_fees m).
Proof. unfold check_fees, skip_fee_check. evm_only_tac. Qed.
Lemma check_hashes_only i l : evm_only (check_hashes i l).
Proof. revert i. induction l; intros i; cbn [check_hashes]; evm_only_tac. Qed.
Lemma check_blobs_only m : evm_only (check_blobs m).
Proof. unfold check_blobs. evm_only_tac. apply check_hashes_only. Qed.
Lemma check_blob_fee_only m : evm_only (check_blob_fee m).
Proof. unfold check_blob_fee. evm_only_tac. Qed.
Lemma check_authorizations_only m : evm_only (check_authorizations m).
Proof. unfold check_authorizations. evm_only_tac. Qed.
Lemma validateAuthorization_only a : evm_only (validateAuthorization a).
Proof. unfold validateAuthorization. evm_only_tac. Qed.
Lemma applyAuthorization_only a : evm_only (applyAuthorization a).
Proof. unfold applyAuthorization. apply evm_only_bind; [apply validateAuthorization_only|]. intros r. evm_only_tac. Qed.
Lemma apply_authorizations_only l : evm_only (apply_authorizations l).
Proof. induction l; cbn [apply_authorizations]; evm_only_tac; apply applyAuthorization_only. Qed.
Lemma check_value_only : evm_only check_value.
Proof. unfold check_value. evm_only_tac. Qed.
Lemma prepare_state_only m : evm_only (prepare_state m).
Proof. unfold prepare_state. evm_only_tac. Qed.
Lemma pay_tip_only a : evm_only (pay_tip a).
Proof. unfold pay_tip, skip_tip. evm_only_tac. Qed.
Lemma floor_applies_only : evm_only floor_applies.
Proof. unfold floor_applies. evm_only_tac. Qed.
End Frames.

#[export] Hint Resolve gas_value_only check_nonce_only check_sender_only check_fees_only check_blobs_only
  check_blob_fee_only check_authorizations_only apply_authorizations_only check_value_only
  prepare_state_only pay_tip_only floor_applies_only : evm_only.

Ltac tx_simpl :=
  cbn [gp msg gasRemaining initialGas st_evm st_hook set_gp set_msg set_gasRemaining set_initialGas set_evm set_hook fst snd].

(** One step of a weakest precondition; [Q] and [E] of a computation that only changes
    the EVM are asked of every EVM. *)
Ltac wp_step :=
  match goal with
  | |- wp (tx_bind _ _) _ _ _ => apply wp_bind
  | |- wp (tx_ret _) _ _ _ => apply wp_ret
  | |- wp (tx_throw _) _ _ _ => apply wp_throw
  | |- wp tx_panic _ _ _ => apply wp_panic
  | |- wp (get _) _ _ _ => apply wp_get
  | |- wp (put _) _ _ _ => apply wp_put
  | |- wp (hook_get _) _ _ _ => apply wp_hook_get
  | |- wp (refuse_if _ _) _ _ _ => apply wp_refuse_if; intros ?
  | |- wp (deref _) _ _ _ => apply wp_deref; intros ? ?
  | |- wp (tx_result _) _ _ _ => apply wp_result
  | |- wp (state_do _) _ _ _ => apply wp_state_do; intros ? ?
  | |- wp (state_put _) _ _ _ => apply wp_state_do; intros ? ?
  | |- wp (state_try _) _ _ _ => apply wp_state_try; intros ?
  | |- wp ?m _ _ _ => apply wp_evm_only; [solve [auto with evm_only nocore]|intros ? ?..]
  end; tx_simpl.

(** ** The laws of a hook

    What the processing hook of a chain promises: the gas it takes before the execution it
    bills or gives back as held gas, it moves gas to the bill of a transaction that is
    not run, and it does not change its mind on the floor. *)

Class HookLaws {TH : TxProcessingHook} : Prop := {
  hl_nonrefundable h : 0 <= NonrefundableGas h;
  hl_start h e r h' e' : StartTxHook h e = (r, h', e') ->
    IsCalldataPricingIncreaseEnabled h' = IsCalldataPricingIncreaseEnabled h;
  hl_charge gas iGas h e r gas' h' e' : is_u64 gas ->
    GasChargingHook gas iGas h e = (r, gas', h', e') ->
    IsCalldataPricingIncreaseEnabled h' = IsCalldataPricingIncreaseEnabled h
    /\ match r with
       | Ok (_, used) => gas_ok used /\ 0 <= gas' /\ 0 <= HeldGas h' /\ gas' + HeldGas h' + total used = gas
       | Err _ => True
       end;
  hl_reverted gas used h e used' err gas' h' e' : is_u64 gas -> gas_ok used ->
    RevertedTxHook gas used h e = ((used', err), gas', h', e') ->
    IsCalldataPricingIncreaseEnabled h' = IsCalldataPricingIncreaseEnabled h
    /\ HeldGas h' = HeldGas h
    /\ gas_ok used' /\ 0 <= gas' /\ gas' + total used' = gas + total used
}.
Arguments HookLaws : clear implicits.

#[global] Instance default_hook_laws {EN : Env} : HookLaws DefaultTxProcessor.
Proof.
  split; simpl; [done|..].
  - by intros ????? [= _ <- _].
  - intros ???????? Hg [= <- <- <- _]. split; [done|]. split; [apply zero_gas_ok|].
    change (total ZeroGas) with 0. unfold is_u64 in *. lia.
  - intros ????????? Hg Hu [= <- <- <- <- _]. unfold is_u64 in *. split_and!; done || lia.
Qed.

Section Conservation.
Context {U : U256.Ops} {L : U256.Laws U} {HS : Hasher} {R : Reader} {CH : Chain} {EN : Env}
  {PC : Precompiles} {GH : GasHooks} {TE : TxEnv} {SG : Signatures} {TH : TxProcessingHook} {HL : HookLaws TH}.
Context (no_verkle : IsEIP4762 chainRules = false).

(** ** Buying gas *)

Definition bought (s s' : stateTransition) : Prop :=
  let limit := msg_GasLimit (msg s) in
  gp s' = gp s - limit /\ limit <= gp s /\ gasRemaining s' = limit /\ initialGas s' = limit
  /\ msg s' = msg s /\ st_hook s' = st_hook s.

Lemma buyGas_spec s : is_u64 (gp s) -> is_u64 (msg_GasLimit (msg s)) ->
  wp buyGas (fun _ => bought s) (fun _ s' => gp s' = gp s) s.
Proof.
  intros Hp Hm. unfold buyGas. do 3 wp_step. wp_step; [|done]. destruct a as [mgval check].
  destruct (U256.FromBig check) as [checkU over]. destruct (U256.FromBig mgval) as [mgvalU ?].
  repeat first [done | wp_step].
  destruct (GasPool.SubGas _ _) as [pool|] eqn:Hs; [|done]. apply GasPool.SubGas_ok in Hs as [-> Hle]; [|done..].
  repeat first [done | wp_step].
Qed.

Lemma preCheck_spec s : is_u64 (gp s) -> is_u64 (msg_GasLimit (msg s)) ->
  wp preCheck (fun _ => bought s) (fun _ s' => gp s' = gp s) s.
Proof.
  intros Hp Hm. unfold preCheck. wp_step. wp_step.
  do 6 (wp_step; wp_step; [|done]). by apply (buyGas_spec (set_evm _ s)).
Qed.

(** ** The charge before the execution *)

(** The gas is left, held by the hook, or billed. *)
Record paid (limit : Z) (used : MultiGas) (s : stateTransition) : Prop := {
  pd_used : gas_ok used;
  pd_left : 0 <= gasRemaining s;
  pd_held : 0 <= HeldGas (st_hook s);
  pd_sum : gasRemaining s + HeldGas (st_hook s) + total used = limit;
  pd_initial : initialGas s = limit
}.

Lemma paid_evm limit used e s : paid limit used s -> paid limit used (set_evm e s).
Proof. by intros [????]; split. Qed.

(** The floor of a message, 0 when it does not apply. *)
Definition floor_of (m : Message) (h : hook) : Z :=
  if IsPrague rules && IsCalldataPricingIncreaseEnabled h
  then match FloorDataGas (msg_Data m) with Ok f => f | Err _ => 0 end else 0.

(** A bill whose total has not saturated is exact. *)
Record billed (g : MultiGas) : Prop := {
  bl_wf : wf g;
  bl_consistent : consistent g;
  bl_refund : MultiGas.refund g = 0
}.

Lemma billed_zero : billed ZeroGas.
Proof. split; [apply zero_gas_ok|by vm_compute|done]. Qed.

Lemma billed_increment g k a : billed g -> is_u64 a -> billed (SaturatingIncrementInto g k a).
Proof.
  intros [Hw Hc Hr] Ha. change (billed (SaturatingIncrement g k a)).
  split; [by apply SaturatingIncrement_wf|by apply SaturatingIncrement_consistent|done].
Qed.

Lemma billed_exact g : billed g -> SingleGas g < gas_limit -> gas_ok g /\ SingleGas g = total g.
Proof.
  intros [Hw Hc Hr] Hs. assert (SingleGas g = total g) as E.
  { unfold SingleGas. rewrite Hr, Z.sub_0_r. apply u64_small, Hw. }
  split; [|done]. split; [done| |done]. unfold consistent, exact, MaxUint64, gas_limit in *. lia.
Qed.

Lemma add_checked_billed g k count price g' : billed g -> add_checked g k count price = Ok g' -> billed g'.
Proof.
  intros Hg. unfold add_checked. destruct (_ <? _); [done|]. intros [= <-].
  apply billed_increment; [done|apply u64_range].
Qed.

Lemma data_gas_billed data c b1 b2 g g' : billed g -> data_gas data c b1 b2 g = Ok g' -> billed g'.
Proof.
  intros Hg. unfold data_gas. destruct (0 <? _); [|by intros [= <-]].
  rewrite result_bind_Ok. intros (g1 & H1 & H). rewrite result_bind_Ok in H. destruct H as (g2 & H2 & H).
  apply add_checked_billed in H1; [|done]. apply add_checked_billed in H2; [|done].
  destruct (c && b2); [by eapply add_checked_billed|by injection H as <-].
Qed.

Lemma IntrinsicMultiGas_billed {Auth} data al (auths : option (list Auth)) c b1 b2 b3 g :
  IntrinsicMultiGas data al auths c b1 b2 b3 = Ok g -> billed g.
Proof.
  unfold IntrinsicMultiGas. rewrite result_bind_Ok. intros (g1 & H1 & [= <-]).
  apply data_gas_billed in H1; [|apply billed_increment; [apply billed_zero|by destruct (_ && _)]].
  destruct al, auths; repeat (apply billed_increment; [|apply u64_range]); done.
Qed.

Lemma check_floor_spec m s : 0 <= msg_GasLimit m ->
  wp (check_floor m)
    (fun f s' => s' = s /\ f = floor_of m (st_hook s) /\ 0 <= f <= msg_GasLimit m)
    (fun _ s' => s' = s) s.
Proof.
  intros Hm. unfold check_floor, floor_applies, floor_of. do 4 wp_step.
  destruct (IsPrague rules && _); [|by wp_step]. do 2 wp_step.
  destruct (FloorDataGas (msg_Data m)) as [f|] eqn:Hf; [|done]. wp_step. wp_step; [done|]. wp_step.
  split; [done|]. split; [done|]. split; [|by apply Z.ltb_ge].
  unfold FloorDataGas in Hf. destruct (_ <? _); [done|]. injection Hf as <-. apply u64_range.
Qed.

Lemma charge_intrinsic_spec s limit :
  gasRemaining s = limit -> initialGas s = limit -> msg_GasLimit (msg s) = limit -> 0 <= limit < gas_limit ->
  wp charge_intrinsic
    (fun r s' => let '(used, floor, _) := r in
       paid limit used s' /\ gp s' = gp s /\ msg s' = msg s
       /\ floor = floor_of (msg s) (st_hook s) /\ 0 <= floor <= limit
       /\ IsCalldataPricingIncreaseEnabled (st_hook s') = IsCalldataPricingIncreaseEnabled (st_hook s))
    (fun _ s' => gp s' = gp s) s.
Proof.
  intros Hr Hi Hm Hl. unfold charge_intrinsic. do 4 wp_step.
  destruct (IntrinsicMultiGas _ _ _ _ _ _ _) as [ig|] eqn:Hig; [|done].
  apply IntrinsicMultiGas_billed in Hig. do 3 wp_step. wp_step; [done|].
  match goal with H : (_ <? _) = false |- _ => apply Z.ltb_ge in H; rename H into Hle end.
  destruct (billed_exact ig Hig) as [Hok Es]; [lia|]. pose proof (gas_ok_total ig Hok) as [Ht _].
  wp_step. eapply wp_weaken; [apply check_floor_spec; lia| |by intros ? ? ->].
  intros floor s1 (-> & -> & Hfl). rewrite Hm in Hfl. do 4 wp_step.
  wp_step. apply wp_hook_do. intros a h e Hh. tx_simpl. cbn [gasRemaining st_hook set_gasRemaining] in Hh.
  destruct (GasChargingHook _ _ _ _) as [[[r left] h'] e'] eqn:Hc. injection Hh as <- <- <-.
  apply hl_charge in Hc as [Hflag Hcase]; [|apply u64_range]. do 3 wp_step.
  destruct r as [[tip mg]|]; [|done]. destruct Hcase as (Hmg & Hl0 & Hh0 & Hsum).
  rewrite u64_small in Hsum by (unfold is_u64, gas_limit in *; lia). wp_step.
  pose proof (gas_ok_total mg Hmg) as [Tmg _].
  destruct (SaturatingAdd_ok ZeroGas ig zero_gas_ok Hok) as [H1 T1]; [change (total ZeroGas) with 0; lia|].
  change (total ZeroGas) with 0 in T1.
  destruct (SaturatingAdd_ok (SaturatingAdd ZeroGas ig) mg H1 Hmg) as [H2 T2]; [unfold gas_limit in *; lia|].
  split; [split; tx_simpl; done || lia|]. done.
Qed.

(** ** The execution *)

(** What [run_message] makes of the gas [g]. *)
Definition ran (g : Z) (s : stateTransition) (used : MultiGas) (s' : stateTransition) : Prop :=
  gas_ok used /\ 0 <= gasRemaining s' /\ total used + gasRemaining s' = g
  /\ gp s' = gp s /\ msg s' = msg s /\ initialGas s' = initialGas s /\ st_hook s' = st_hook s.

Lemma wp_evm_do {A} (f : EVM -> run (A * EVM)) (P : A * EVM -> Prop) (Q : A -> stateTransition -> Prop) E s :
  run_post P (f (st_evm s)) -> (forall a e, P (a, e) -> Q a (set_evm e s)) -> wp (evm_do f) Q E s.
Proof. unfold wp, evm_do, run_post. destruct (f _) as [[a e]| |]; auto. Qed.

Section Run.
Context (fuel : nat).

Lemma run_message_spec value s g :
  gasRemaining s = g -> 0 <= g < gas_limit -> g < Z.of_nat fuel ->
  wp (run_message fuel value) (fun r s' => let '(_, _, _, used) := r in ran g s used s')
    (fun _ s' => gp s' = gp s) s.
Proof.
  intros Hg Hl Hf. pose proof (calls_below fuel g no_verkle Hl Hf) as Hok.
  unfold run_message. do 2 wp_step. destruct (msg_To (msg s)) as [dst|].
  - do 4 wp_step. wp_step. wp_step; [|done]. do 2 wp_step. wp_step.
    apply wp_evm_only; [destruct (ParseDelegation _); auto with evm_only nocore|intros _ e4|done].
    do 3 wp_step. rewrite Hg. eapply wp_evm_do; [apply (ok_Call _ _ Hok); lia|].
    intros r e5 [Hr0 Hru Hrs]. do 2 wp_step. wp_step. unfold ran; tx_simpl. split_and!; done.
  - do 3 wp_step. rewrite Hg.
    eapply (wp_evm_do _ (fun x => result_ok g x.1.1)).
    { pose proof (ok_Create _ _ Hok (msg_From (msg s)) (msg_Data (msg s)) g value (st_evm s)) as Hc.
      change (c_Create (calls_of (Run fuel))) with (Create (Run fuel)) in Hc.
      destruct (Create _ _ _ _ _ _) as [[[r a] e]| |]; simpl in *; [apply Hc; lia|done|apply Hc; lia]. }
    intros [r addr] e5 [Hr0 Hru Hrs]. do 2 wp_step. wp_step. unfold ran; tx_simpl. split_and!; done.
Qed.

Lemma run_unless_reverted_spec used value s limit :
  paid limit used s -> 0 <= limit < gas_limit -> limit < Z.of_nat fuel ->
  wp (run_unless_reverted fuel used value)
    (fun r s' => let '(_, _, _, used') := r in
       paid limit used' s' /\ gp s' = gp s /\ msg s' = msg s
       /\ IsCalldataPricingIncreaseEnabled (st_hook s') = IsCalldataPricingIncreaseEnabled (st_hook s))
    (fun _ s' => gp s' = gp s) s.
Proof.
  intros [Hu Hl0 Hh0 Hsum Hi] Hl Hf. pose proof (gas_ok_total used Hu) as [Tu _].
  unfold run_unless_reverted. do 3 wp_step. apply wp_hook_do. intros a h e Hh.
  destruct (RevertedTxHook _ _ _ _) as [[[[used' err] left] h'] e'] eqn:Hr. injection Hh as <- <- <-.
  apply hl_reverted in Hr as (Hflag & Hheld & Hu' & Hl' & Hs'); [|unfold is_u64, gas_limit in *; lia|done].
  pose proof (gas_ok_total used' Hu') as [Tu' _]. do 2 wp_step. destruct err as [err|].
  - wp_step. split; [split; tx_simpl; rewrite ?Hheld; done || lia|]. done.
  - wp_step. eapply wp_weaken; [apply (run_message_spec value _ left); [done|lia|lia]| |done].
    intros [[[ret verr] dep] mg] s' (Hmg & H0 & Hs & Egp & Emsg & Ei & Eh). wp_step.
    pose proof (gas_ok_total mg Hmg) as [Tm _].
    destruct (SaturatingAdd_ok used' mg Hu' Hmg) as [H2 T2]; [unfold gas_limit in *; lia|].
    tx_simpl. rewrite Egp, Emsg, Eh. split; [|done]. split; rewrite ?Eh; tx_simpl; rewrite ?Hheld; try done; try lia.
    by rewrite Ei.
Qed.

(** ** The refund and the floor *)

Definition refund_quotient : Z := if is_london then RefundQuotientEIP3529 else RefundQuotient.

Lemma calcRefund_spec s : 0 <= gasRemaining s <= initialGas s -> initialGas s < gas_limit ->
  wp calcRefund (fun r s' => s' = s /\ 0 <= r /\ r * refund_quotient <= initialGas s - gasRemaining s)
    (fun _ _ => False) s.
Proof.
  intros Hr Hi. pose proof (hl_nonrefundable (st_hook s)) as Hn. unfold calcRefund. do 4 wp_step.
  unfold gasUsed. rewrite (u64_small (initialGas s - gasRemaining s)) by (unfold is_u64, gas_limit in *; lia).
  set (used := initialGas s - gasRemaining s). destruct (Z.ltb_spec (NonrefundableGas (st_hook s)) used) as [Hu|Hu].
  2:{ wp_step. split; [done|]. subst used. lia. }
  do 2 wp_step.
  rewrite (u64_small (used - _)) by (subst used; unfold is_u64, gas_limit in *; lia).
  replace (if negb is_london then RefundQuotient else RefundQuotientEIP3529) with refund_quotient
    by (unfold refund_quotient; by destruct is_london).
  assert (0 < refund_quotient) as Hq by (unfold refund_quotient; by destruct is_london).
  pose proof (u64_range (GetRefund (evm_StateDB (st_evm s)))) as Hc. unfold is_u64 in Hc.
  set (counter := u64 _) in *. set (x := used - NonrefundableGas (st_hook s)).
  pose proof (Z.mul_div_le x refund_quotient Hq) as Hdiv.
  assert (0 <= x / refund_quotient) as Hx by (apply Z.div_pos; lia).
  wp_step. destruct (Z.ltb_spec counter (x / refund_quotient)); (split; [done|]; split; [lia|nia]).
Qed.

(** What [settle] leaves of the gas limit. *)
Record settled_gas (limit floor peak : Z) (used : MultiGas) (s : stateTransition) : Prop := {
  sg_left : 0 <= gasRemaining s <= limit;
  sg_initial : initialGas s = limit;
  sg_single : SingleGas used = limit - gasRemaining s;
  sg_floor : floor <= limit - gasRemaining s;
  sg_peak : limit - gasRemaining s <= peak <= limit;
  sg_refund : 0 <= MultiGas.refund used /\ MultiGas.refund used * refund_quotient <= peak;
  sg_gain : peak <= limit - gasRemaining s + MultiGas.refund used
}.

Lemma settle_spec used floor s limit :
  paid limit used s -> 0 <= limit < gas_limit -> 0 <= floor <= limit ->
  (IsPrague rules && IsCalldataPricingIncreaseEnabled (st_hook s) = false -> floor = 0) ->
  wp (settle used floor)
    (fun r s' => settled_gas limit floor (snd r) (fst r) s' /\ gp s' = gp s /\ msg s' = msg s)
    (fun _ _ => False) s.
Proof.
  intros [Hu Hl0 Hh0 Hsum Hi] Hl Hf Hflag. pose proof (gas_ok_total used Hu) as [Tu _].
  assert (0 < refund_quotient) as Hq by (unfold refund_quotient; by destruct is_london).
  unfold settle, calcHeldGasRefund. do 9 wp_step.
  set (rem := gasRemaining s + HeldGas (st_hook s)) in *.
  assert (forall x : Z, 0 <= x <= limit -> u64 x = x) as Eu
    by (intros; apply u64_small; unfold is_u64, gas_limit in *; lia).
  rewrite (Eu rem) by lia.
  assert (gasUsed (set_gasRemaining rem s) = total used) as Epeak
    by (unfold gasUsed; tx_simpl; rewrite Hi, Eu; lia).
  rewrite Epeak. eapply wp_weaken; [apply calcRefund_spec; tx_simpl; lia| |done].
  intros r s' (-> & Hr0 & Hrq). tx_simpl. cbn [gasRemaining initialGas set_gasRemaining] in Hrq.
  assert (r <= total used) as Hrt by nia.
  do 4 wp_step. rewrite (Eu (rem + r)) by lia. unfold floor_applies. do 4 wp_step.
  assert (SingleGas (WithRefund used r) = total used - r) as Es
    by (unfold SingleGas, WithRefund; simpl; apply Eu; lia).
  assert (gasUsed (set_gasRemaining (rem + r) (set_gasRemaining rem s)) = total used - r) as Eused
    by (unfold gasUsed; tx_simpl; rewrite Hi, Eu; lia).
  destruct (IsPrague rules && _) eqn:Happ.
  - do 2 wp_step. rewrite Eused, Es. destruct (Z.ltb_spec (total used - r) floor) as [Hlt|Hge].
    + do 4 wp_step. rewrite Hi, !Eu by lia. wp_step. split; [|done].
      assert (SingleGas (SaturatingIncrement (WithRefund used r) ResourceKindL2Calldata (floor - (total used - r)))
        = floor) as Ei.
      { unfold SingleGas, SaturatingIncrement; simpl. rewrite saturatingScalarAdd_spec by (unfold is_u64, gas_limit in *; lia).
        simpl. rewrite Z.min_r by (unfold MaxUint64, gas_limit in *; lia). rewrite <- (Eu floor) at 2 by lia. f_equal. lia. }
      split; tx_simpl; rewrite ?Ei; try done; try lia.
      all: destruct (Z.ltb_spec (total used) floor); simpl; try lia; split; try lia; nia.
    + wp_step. split; [|done]. split; tx_simpl; rewrite ?Es; try done; try lia.
      all: destruct (Z.ltb_spec (total used) floor); simpl; try lia; split; try lia; nia.
  - rewrite (Hflag eq_refl). wp_step. split; [|done].
    split; tx_simpl; rewrite ?Es; simpl; try done; try lia.
Qed.

Lemma returnGas_spec s : is_u64 (gp s) -> is_u64 (gasRemaining s) -> gp s + gasRemaining s < two64 ->
  wp returnGas
    (fun _ s' => exists e, s' = set_gp (gp s + gasRemaining s) (set_evm e s)) (fun _ _ => False) s.
Proof.
  intros Hp Hr Hs. unfold returnGas. do 4 wp_step. destruct (U256.FromBig _) as [price [|]]; [wp_step|].
  repeat wp_step. rewrite GasPool.AddGas_exact in * by done. simplify_eq. by eexists.
Qed.

Lemma pay_tip_spec a s : wp (pay_tip a) (fun _ s' => exists e, s' = set_evm e s) (fun _ _ => False) s.
Proof.
  unfold pay_tip, skip_tip. do 2 wp_step. destruct (U256.FromBig _) as [tip ?]. do 3 wp_step.
  assert (forall b : bool, wp
    (if b then tx_ret tt
     else tx_bind (hook_get PosterGas) (fun posterGas =>
          let computeGasUsed := if posterGas <? gasUsed s then u64 (gasUsed s - posterGas) else 0 in
          tx_bind (state_do (AddBalance a (U256.Mul (U256.SetUint64 computeGasUsed) tip))) (fun _ => tx_ret tt)))
    (fun _ s' => exists e, s' = set_evm e s) (fun _ _ => False) s) as Hpay.
  { intros [|]; [wp_step; exists (st_evm s); apply set_evm_self|]. do 5 wp_step. by eexists. }
  destruct NoBaseFee; [|wp_step; apply (Hpay false)]. do 2 wp_step.
  destruct (_ =? 0); [|wp_step; apply (Hpay false)]. do 2 wp_step. wp_step. apply Hpay.
Qed.

(** ** The transition *)

(** What a transition did with the gas limit of its message. *)
Record gas_settled (limit floor pool : Z) (r : ExecutionResult) (s : stateTransition) : Prop := {
  gs_used : 0 <= UsedGas r <= MaxUsedGas r /\ MaxUsedGas r <= limit;
  gs_dimensions : SingleGas (res_UsedMultiGas r) = UsedGas r;
  gs_pool : gp s = pool - UsedGas r;
  gs_left : gasRemaining s = limit - UsedGas r;
  gs_floor : floor <= UsedGas r;
  gs_refund : MultiGas.refund (res_UsedMultiGas r) * refund_quotient <= MaxUsedGas r;
  gs_gain : MaxUsedGas r <= UsedGas r + MultiGas.refund (res_UsedMultiGas r);
  gs_room : limit <= pool
}.

(** The pool after an error: untouched, or without the limit if the gas was bought. *)
Definition pool_after_error (limit pool : Z) (s : stateTransition) : Prop :=
  gp s = pool \/ gp s = pool - limit.

Lemma drop_tip_spec s :
  wp drop_tip (fun _ s' => exists price tip, s' = s \/ s' = set_msg (set_price price tip (msg s)) s)
    (fun _ _ => False) s.
Proof.
  unfold drop_tip. do 4 wp_step. destruct (_ && _); wp_step; [|exists 0, None; by left].
  exists BaseFee, (Some 0). by right.
Qed.

Lemma execute_message_spec s :
  let limit := msg_GasLimit (msg s) in
  0 <= limit < gas_limit -> limit < Z.of_nat fuel -> is_u64 (gp s) ->
  wp (execute_message fuel) (gas_settled limit (floor_of (msg s) (st_hook s)) (gp s))
    (fun _ => pool_after_error limit (gp s)) s.
Proof.
  intros limit Hl Hf Hp. unfold execute_message.
  wp_step. eapply wp_weaken; [apply drop_tip_spec| |done]. intros _ s1 (price & tip & Hs1).
  assert (msg_GasLimit (msg s1) = limit /\ gp s1 = gp s /\ st_hook s1 = st_hook s /\ msg_Data (msg s1) = msg_Data (msg s))
    as (Em & Egp & Eh & Ed) by (by destruct Hs1 as [-> | ->]).
  assert (floor_of (msg s1) (st_hook s1) = floor_of (msg s) (st_hook s)) as Efl
    by (unfold floor_of; by rewrite Eh, Ed).
  wp_step. eapply wp_weaken;
    [apply preCheck_spec; [by rewrite Egp|rewrite Em; unfold is_u64, gas_limit in *; lia]| |].
  2:{ intros ? s' E. left. congruence. }
  intros _ s2 (Ep2 & Hle & Er2 & Ei2 & Em2 & Eh2). rewrite Em in *. rewrite Egp in *.
  wp_step. eapply wp_weaken; [apply (charge_intrinsic_spec s2 limit); [done|done|by rewrite Em2|done]| |].
  2:{ intros ? s' E. right. congruence. }
  intros [[used floor] tipTo] s3 (Hpaid & Ep3 & Em3 & Efloor & Hfloor & Eflag).
  rewrite Em2, Eh2, Efl in Efloor.
  assert (IsPrague rules && IsCalldataPricingIncreaseEnabled (st_hook s3) = false -> floor = 0) as Hzero.
  { intros E. rewrite Efloor. unfold floor_of. by rewrite <- Eh, <- Eh2, <- Eflag, E. }
  clear Hs1 Em3. assert (gp s3 = gp s - limit) as Ep by congruence.
  do 2 wp_step; [|right; done]. do 3 wp_step. wp_step; [|right; done].
  wp_step. eapply wp_weaken; [apply run_unless_reverted_spec; [apply paid_evm, paid_evm, Hpaid|done|done]| |].
  2:{ intros ? s' E. right. rewrite E. done. }
  intros [[[ret vmerr] dep] used2] s4 (Hpaid4 & Ep4 & Em4 & Eflag4).
  wp_step. eapply wp_weaken; [apply (settle_spec used2 floor s4 limit); [done|done|by rewrite Efloor in *|]| |done].
  { rewrite Eflag4. exact Hzero. }
  intros [used3 peak] s5 ([Hleft Hinit Hsingle Hfl Hpk [Hr0 Hrq] Hgain] & Ep5 & Em5).
  cbn [fst snd] in *. assert (gp s5 = gp s - limit) as Ep5' by (rewrite Ep5, Ep4; exact Ep).
  wp_step. eapply wp_weaken; [apply returnGas_spec| |done]; [unfold is_u64, gas_limit in *; lia..|].
  intros _ s6 [e6 ->]. do 3 wp_step.
  assert (gasUsed (set_gp (gp s5 + gasRemaining s5) (set_evm e6 s5)) = limit - gasRemaining s5) as ->.
  { unfold gasUsed; tx_simpl. rewrite Hinit. apply u64_small. unfold is_u64, gas_limit in *; lia. }
  eapply wp_weaken; [apply pay_tip_spec| |done]. intros _ s7 [e7 ->]. do 2 wp_step.
  wp_step. apply wp_hook_do. intros ? h8 e8 _. wp_step. subst floor.
  split; cbn [UsedGas MaxUsedGas res_UsedMultiGas]; tx_simpl; try done; try lia.
Qed.

(** The hook ends the transaction before it starts: a transaction of ArbOS itself. *)
Definition ends_at_start (s : stateTransition) : bool :=
  let '(r, _, _) := StartTxHook (st_hook s) (st_evm s) in let '(ends, _, _, _) := r in ends.

(** The gas the hook bills then. *)
Definition start_gas (s : stateTransition) : MultiGas :=
  let '(r, _, _) := StartTxHook (st_hook s) (st_evm s) in let '(_, used, _, _) := r in used.

(** What a transition did, whether or not the hook ended it. *)
Definition transition_settled (s : stateTransition) (r : ExecutionResult) (s' : stateTransition) : Prop :=
  if ends_at_start s
  then res_UsedMultiGas r = start_gas s /\ UsedGas r = SingleGas (start_gas s) /\ gp s' = gp s
  else gas_settled (msg_GasLimit (msg s)) (floor_of (msg s) (st_hook s)) (gp s) r s'.

Lemma execute_spec s :
  let limit := msg_GasLimit (msg s) in
  0 <= limit < gas_limit -> limit < Z.of_nat fuel -> is_u64 (gp s) ->
  wp (execute fuel) (transition_settled s) (fun _ => pool_after_error limit (gp s)) s.
Proof.
  intros limit Hl Hf Hp. unfold execute, transition_settled, ends_at_start, start_gas. wp_step.
  apply wp_hook_do. intros a h e Hs. rewrite Hs.
  pose proof (hl_start _ _ _ _ _ Hs) as Hflag. destruct a as [[[ends mg] err] ret].
  destruct ends; [by wp_step|]. eapply wp_weaken;
    [apply (execute_message_spec (set_hook h (set_evm e s))); done| |done].
  intros r s' H. unfold floor_of in *. tx_simpl. by rewrite <- Hflag.
Qed.

(** C4.  A state transition terminates, and its gas adds up: with more fuel than the gas limit
    it never runs out of fuel, and whenever it ends without a Go panic its result is one of
    three.  The hook of the chain ended the transaction before it started: the gas used is
    what the hook billed, and the pool of the block is untouched.  The message was executed:
    the gas used is at most its peak, which is at most the gas limit; its dimensions, less the
    refund, add up to it; the block's pool is charged the gas used and nothing else; the gas
    used is not below the floor of the data; the refund is at most a fifth (before London a
    half) of the peak, and lowers the gas used by no more than itself.  An error: the pool is
    as it was, or charged with the whole limit when the gas had been bought.  The gas limit is
    below 2^31 and the chain without the Verkle rules; the processing hook keeps [HookLaws],
    that it bills or holds the gas it takes, and the hooks of the interpreter [GasHooks]. *)
Theorem transition_conserves_gas s :
  let limit := msg_GasLimit (msg s) in
  0 <= limit < gas_limit -> limit < Z.of_nat fuel -> is_u64 (gp s) ->
  terminates_with (fun x => match x with
    | (Ok r, s') => transition_settled s r s'
    | (Err _, s') => pool_after_error limit (gp s) s'
    end) (execute fuel s).
Proof.
  intros limit Hl Hf Hp. pose proof (execute_spec s Hl Hf Hp) as H.
  unfold wp, terminates_with in *. by destruct (execute fuel s) as [[[|] ?]| |].
Qed.
End Run.
End Conservation.

(** ** A concrete transaction

    On a chain with every fork up to Osaka, account 9 calls account 6, which calls
    account 5 and returns; it sends 100 bytes of data, whose floor is not reached. *)

Module TxMachine.
Import ToyMachine.

#[export] Instance TE : TxEnv := {|
  config := MergedTestChainConfig; isMerge := true; ctx_ArbOSVersion := 0; NoBaseFee := false;
  arbitrum_precompiles _ := []
|}.
#[export] Instance CH : Chain := {| chainRules := rules; chainConfig := arbitrum config |}.
#[export] Instance R : Reader := {|
  r_Account a := if a =? 9 then Ok (Some (mkAccount 3 1000000000 7 (keccak256 []))) else r_Account a;
  r_Storage := r_Storage;
  r_Code := r_Code;
  r_CodeSize := r_CodeSize;
  db_ActivatedAsm := db_ActivatedAsm;
  LocalTarget := LocalTarget
|}.
#[export] Instance SG : Signatures := fun _ => None.
#[export] Instance TH : TxProcessingHook := DefaultTxProcessor.

Definition call_message (data : list Z) : Message :=
  mkMessage NewMessageReplayContext (Some 6) 9 3 0 100000 2 (Some 2) (Some 1) data None None None None
    false false false.

Definition start (data : list Z) : stateTransition :=
  newStateTransition (mkEVM NewWithReader ∅ 0 0 false [] false) tt (call_message data) 30000000.

End TxMachine.

Section TxWitness.
Import ToyMachine TxMachine.

Lemma transition_conserves_gas_witness :
  exists r s', execute (Z.to_nat 100001) (start (replicate 100 1)) = Done (Ok r, s')
    /\ res_Err r = None /\ gas_settled 100000 25000 30000000 r s' /\ gp s' = 30000000 - UsedGas r.
Proof.
  pose proof (transition_conserves_gas (CH := TxMachine.CH) (R := TxMachine.R) eq_refl (Z.to_nat 100001)
    (start (replicate 100 1)) ltac:(done) ltac:(done) ltac:(done)) as H.
  destruct (execute _ _) as [[[r|] s']| |] eqn:E; [|vm_compute in E; discriminate..].
  exists r, s'. split; [done|]. split; [vm_compute in E; by injection E as <- _|].
  split; [exact H|apply H].
Defined.
End TxWitness.
