(* ===== verification/StateTransitionChecks.v ===== *)
(** What [preCheck] accepts: the consensus rules a message has to satisfy before it is
    applied, and what buying its gas costs. *)

From stdpp Require Import base gmap list numbers option strings.
From S2P Require Import Prelude Params ChainConfig ChainPresets Uint256 VmCore JumpDest AccessList State.
From S2P Require Import StateRevert StateFinalise Evm VmGas Instructions JumpTable Interpreter TxTypes TxGas StateTransition.
From S2P Require Import GasTheorems StateTransitionGas.
Open Scope Z_scope.

(** ** Acceptance

    [passes m s P Q]: from [s], [m] returns exactly when [P] holds, and then with a result
    and a state that satisfy [Q]. *)

Section Passes.
Context {TH : TxProcessingHook}.

Definition passes {A} (m : TX A) (s : stateTransition) (P : Prop) (Q : A -> stateTransition -> Prop) : Prop :=
  (P -> exists a s', m s = Done (Ok a, s') /\ Q a s') /\ (forall a s', m s = Done (Ok a, s') -> P).

Lemma passes_bind {A B} (m : TX A) (k : A -> TX B) s P P' Q Q' :
  passes m s P Q -> (forall a s', Q a s' -> passes (k a) s' P' Q') -> passes (tx_bind m k) s (P /\ P') Q'.
Proof.
  intros [Hm1 Hm2] Hk. unfold tx_bind. split.
  - intros [HP HP']. destruct (Hm1 HP) as (a & s' & -> & HQ). by apply (Hk a s' HQ).
  - intros b s2. destruct (m s) as [[[a|e] s']| |] eqn:Em; [|done..]. intros Eb.
    pose proof (Hm2 a s' eq_refl) as HP. split; [done|]. destruct (Hm1 HP) as (a' & s'' & Ea & HQ).
    simplify_eq. by apply (Hk a' s'' HQ) in Eb.
Qed.

Lemma passes_equiv {A} (m : TX A) s P P' (Q : A -> stateTransition -> Prop) :
  passes m s P Q -> (P <-> P') -> passes m s P' Q.
Proof. intros [H1 H2] H. split; [intros ?; apply H1; by apply H|]. intros. apply H. eauto. Qed.

Lemma passes_weaken {A} (m : TX A) s P (Q Q' : A -> stateTransition -> Prop) :
  passes m s P Q -> (forall a s', Q a s' -> Q' a s') -> passes m s P Q'.
Proof. intros [H1 H2] H. split; [|done]. intros HP. destruct (H1 HP) as (a & s' & ? & ?). eauto. Qed.

Lemma passes_ret {A} (a : A) s (Q : A -> stateTransition -> Prop) : Q a s -> passes (tx_ret a) s True Q.
Proof. intros. split; [|done]. intros _. by exists a, s. Qed.

Lemma passes_throw {A} e s (Q : A -> stateTransition -> Prop) : passes (tx_throw e) s False Q.
Proof. done. Qed.

Lemma passes_refuse b e s : passes (refuse_if b e) s (b = false) (fun _ s' => s' = s).
Proof. destruct b; [apply (passes_equiv _ _ False); [done|done]|]. split; [|done]. intros _. by exists tt, s. Qed.

Lemma passes_deref {A} (o : option A) s : passes (deref o) s (o <> None) (fun a s' => o = Some a /\ s' = s).
Proof.
  destruct o as [a|]; [|by split; [intros []|]]. split; [|done]. intros _. by exists a, s.
Qed.

Lemma passes_get {A} (f : stateTransition -> A) s : passes (get f) s True (fun a s' => a = f s /\ s' = s).
Proof. split; [|done]. intros _. by exists (f s), s. Qed.

Lemma passes_put f s : passes (put f) s True (fun _ s' => s' = f s).
Proof. split; [|done]. intros _. by exists tt, (f s). Qed.

Lemma passes_state_do {A} (f : StateDB -> A * StateDB) s :
  passes (state_do f) s True
    (fun a s' => exists e, s' = set_evm e s /\ (a, evm_StateDB e) = f (evm_StateDB (st_evm s))).
Proof.
  unfold passes, state_do, with_db. cbv beta. destruct (f _) as [a db] eqn:Ef. split; [|done]. intros _.
  exists a, (set_evm (set_StateDB db (st_evm s)) s). split; [done|]. by eexists.
Qed.
End Passes.

(** ** Reading accounts *)

Section Reads.
Context {U : U256.Ops} {HS : Hasher} {R : Reader}.

Definition nonce_of (s : StateDB) (a : Z) : Z :=
  match acct s a with Some o => Nonce (so_data o) | None => 0 end.

(** The code of an object, loaded or not. *)
Definition code_value (o : stateObject) : list Z :=
  if negb (bool_decide (so_code o = [])) then so_code o
  else if CodeHash (so_data o) =? EmptyCodeHash then []
  else fst (r_Code (so_address o) (CodeHash (so_data o))).

Definition code_at (s : StateDB) (a : Z) : list Z :=
  match acct s a with Some o => code_value o | None => [] end.

Lemma GetBalance_reads a s b s' : GetBalance a s = (b, s') -> b = balance_of s a /\ reloads s s'.
Proof.
  unfold GetBalance, balance_of. destruct (getStateObject a s) as [r s1] eqn:E.
  apply getStateObject_reloads in E as (-> & Hr & _). destruct (acct s a); by intros [= <- <-].
Qed.

Lemma GetNonce_reads a s n s' : GetNonce a s = (n, s') -> n = nonce_of s a /\ reloads s s'.
Proof.
  unfold GetNonce, nonce_of. destruct (getStateObject a s) as [r s1] eqn:E.
  apply getStateObject_reloads in E as (-> & Hr & _). destruct (acct s a); by intros [= <- <-].
Qed.

Lemma reloads_balance s s' a : reloads s s' -> balance_of s' a = balance_of s a.
Proof. intros H. unfold balance_of. by rewrite (reloads_acct s). Qed.

Lemma reloads_code s s' a : reloads s s' -> code_at s' a = code_at s a.
Proof. intros H. unfold code_at. by rewrite (reloads_acct s). Qed.

Lemma setError_acct e s a : acct (setError e s) a = acct s a.
Proof. unfold setError. by destruct (dbErr s). Qed.

Lemma obj_Code_value o s c o' s' : obj_Code o s = (c, o', s') ->
  c = code_value o /\ so_data o' = so_data o /\ forall a, acct s' a = acct s a.
Proof.
  unfold obj_Code, code_value. destruct (negb _); [by intros [= <- <- <-]|].
  destruct (_ =? _); [by intros [= <- <- <-]|].
  destruct (r_Code _ _) as [code err]. intros [= <- <- <-]. split; [done|]. split; [done|].
  intros a. case_bool_decide; destruct err; by rewrite ?setError_acct.
Qed.

(** [GetCode] may cache the code; balances stay as they are. *)
Lemma GetCode_reads a s c s' : GetCode a s = (c, s') ->
  c = code_at s a /\ forall b, balance_of s' b = balance_of s b.
Proof.
  unfold GetCode, code_at. destruct (getStateObject a s) as [r s1] eqn:E.
  apply getStateObject_reloads in E as (-> & Hr & _). destruct (acct s a) as [o|] eqn:Ha.
  2:{ intros [= <- <-]. split; [done|]. intros b. by apply reloads_balance. }
  destruct (obj_Code o s1) as [[c1 o1] s2] eqn:Ec. apply obj_Code_value in Ec as (-> & Hd & Hs).
  intros [= <- <-]. split; [done|]. intros b.
  assert (forall b, balance_of s2 b = balance_of s b) as H2
    by (intros b'; unfold balance_of; by rewrite Hs, (reloads_acct s)).
  rewrite <- H2. unfold balance_of. rewrite (acct_update s2 _ a o1) by done. case_decide; [|done]. subst b.
  rewrite Hs, (reloads_acct s), Ha by done. by rewrite Hd.
Qed.
End Reads.

(** ** The rules *)

Section Rules.
Context {U : U256.Ops} {L : U256.Laws U} {HS : Hasher} {R : Reader} {CH : Chain} {EN : Env}
  {PC : Precompiles} {TE : TxEnv} {SG : Signatures} {TH : TxProcessingHook}.

Definition db (s : stateTransition) : StateDB := evm_StateDB (st_evm s).

(** States that differ in what is cached of the accounts. *)
Definition seen (s s' : stateTransition) : Prop :=
  exists e, s' = set_evm e s /\ forall b, balance_of (evm_StateDB e) b = balance_of (db s) b.

Definition rule_nonce (m : Message) (s : stateTransition) : Prop :=
  SkipNonceChecks m = true \/ (nonce_of (db s) (msg_From m) = msg_Nonce m /\ msg_Nonce m < MaxUint64).

Lemma check_nonce_passes m s : is_u64 (msg_Nonce m) ->
  passes (check_nonce m) s (rule_nonce m s) (fun _ s' => exists e, s' = set_evm e s /\ reloads (db s) (evm_StateDB e)).
Proof.
  intros Hm. unfold check_nonce, rule_nonce. destruct (SkipNonceChecks m).
  { eapply passes_equiv; [apply passes_ret|naive_solver]. exists (st_evm s). split; [apply set_evm_self|].
    exists (stateObjects (db s)), (dbErr (db s)). split; [by unfold db; destruct (evm_StateDB _)|done]. }
  eapply passes_equiv.
  - eapply passes_bind; [apply passes_state_do|]. intros n s' (e & -> & E). symmetry in E.
    apply GetNonce_reads in E as [-> Hr]. set (n := nonce_of _ _).
    apply (passes_equiv _ _ (n = msg_Nonce m /\ msg_Nonce m < MaxUint64)); [|done].
    destruct (Z.ltb_spec n (msg_Nonce m)); [eapply passes_equiv; [apply passes_throw|lia]|].
    destruct (Z.ltb_spec (msg_Nonce m) n); [eapply passes_equiv; [apply passes_throw|lia]|].
    assert (n = msg_Nonce m) as -> by lia.
    eapply passes_weaken; [eapply passes_equiv; [apply passes_refuse|]|].
    + unfold u64, is_u64, MaxUint64 in *. rewrite Z.ltb_ge. split; [|go_lia]. intros H1. split; [done|go_lia].
    + intros _ s' ->. by exists e.
  - naive_solver.
Qed.

Definition rule_sender (m : Message) (s : stateTransition) : Prop :=
  SkipTransactionChecks m = true
  \/ ((Config.IsArbitrum config = false -> is_osaka = true -> msg_GasLimit m <= MaxTxGasRenamedForNitroMerges)
      /\ (code_at (db s) (msg_From m) = [] \/ is_delegation (code_at (db s) (msg_From m)) = true)).

Lemma check_sender_passes m s : passes (check_sender m) s (rule_sender m s) (fun _ => seen s).
Proof.
  unfold check_sender, rule_sender. destruct (SkipTransactionChecks m).
  { eapply passes_equiv; [apply passes_ret|naive_solver]. exists (st_evm s). split; [apply set_evm_self|done]. }
  eapply passes_equiv.
  - eapply passes_bind; [apply passes_refuse|]. intros _ s' ->.
    eapply passes_bind; [apply passes_state_do|]. intros c s' (e & -> & E). symmetry in E.
    apply GetCode_reads in E as [-> Hb]. eapply passes_weaken; [apply passes_refuse|].
    intros _ s' ->. by exists e.
  - fold (db s). set (c := code_at (db s) (msg_From m)).
    destruct (Config.IsArbitrum config), is_osaka, (Z.ltb_spec MaxTxGasRenamedForNitroMerges (msg_GasLimit m));
      destruct (is_delegation c), c; simpl; naive_solver lia.
Qed.

Lemma big_BitLen_256 x : (256 <? big_BitLen x) = false <-> Z.abs x < two256.
Proof.
  unfold big_BitLen. rewrite Z.ltb_ge. destruct (Z.eqb_spec x 0) as [->|Hx]; [by vm_compute|].
  change two256 with (2 ^ 256). rewrite (Z.log2_lt_pow2 (Z.abs x) 256) by lia. lia.
Qed.

Lemma big_BitLen_0 x : (big_BitLen x =? 0) = true <-> x = 0.
Proof.
  unfold big_BitLen. destruct (Z.eqb_spec x 0) as [->|Hx]; [done|]. rewrite Z.eqb_eq.
  pose proof (Z.log2_nonneg (Z.abs x)). lia.
Qed.

(** The caps are in order and cover the base fee. *)
Definition fees_in_order (m : Message) : Prop :=
  exists cap tip, GasFeeCap m = Some cap /\ GasTipCap m = Some tip
    /\ Z.abs cap < two256 /\ Z.abs tip < two256 /\ tip <= cap /\ BaseFee <= cap.

Definition rule_fees (m : Message) : Prop :=
  is_london = false
  \/ (NoBaseFee = true /\ GasFeeCap m = Some 0 /\ GasTipCap m = Some 0)
  \/ fees_in_order m.

Lemma passes_seq {A B} (m : TX A) (k : A -> TX B) s P P' Q :
  passes m s P (fun _ s' => s' = s) -> (forall a, passes (k a) s P' Q) -> passes (tx_bind m k) s (P /\ P') Q.
Proof. intros Hm Hk. eapply passes_bind; [done|]. intros a s' ->. apply Hk. Qed.

(** What follows a check may rely on it. *)
Lemma passes_check {B} b e (k : unit -> TX B) s P Q :
  (b = false -> passes (k tt) s P Q) -> passes (tx_bind (refuse_if b e) k) s (b = false /\ P) Q.
Proof.
  intros Hk. destruct b; [by split; [intros []|]|].
  eapply passes_equiv; [by apply Hk|tauto].
Qed.

(** A known result. *)
Lemma passes_value {A B} (m : TX A) (k : A -> TX B) s s1 a P Q :
  m s = Done (Ok a, s1) -> passes (k a) s1 P Q -> passes (tx_bind m k) s P Q.
Proof. intros Hm Hk. unfold passes, tx_bind in *. by rewrite Hm. Qed.

Lemma passes_panics {A} (m : TX A) s (P : Prop) Q : m s = Panics -> ~ P -> passes m s P Q.
Proof. intros Hm HP. split; [done|]. intros a s'. by rewrite Hm. Qed.

Lemma check_fees_tail m s :
  passes
    (tx_bind (deref (GasFeeCap m)) (fun cap =>
     tx_bind (refuse_if (256 <? big_BitLen cap) (TxError.ErrFeeCapVeryHigh (msg_From m) (big_BitLen cap))) (fun _ =>
     tx_bind (deref (GasTipCap m)) (fun tip =>
     tx_bind (refuse_if (256 <? big_BitLen tip) (TxError.ErrTipVeryHigh (msg_From m) (big_BitLen tip))) (fun _ =>
     tx_bind (refuse_if (cap <? tip) (TxError.ErrTipAboveFeeCap (msg_From m) tip cap)) (fun _ =>
     refuse_if (cap <? BaseFee) (TxError.ErrFeeCapTooLow (msg_From m) cap BaseFee)))))))
    s (fees_in_order m) (fun _ s' => s' = s).
Proof.
  unfold fees_in_order. destruct (GasFeeCap m) as [cap|].
  2:{ apply passes_panics; [done|]. by intros (? & ? & ? & _). }
  eapply passes_value; [done|]. destruct (GasTipCap m) as [tip|].
  2:{ eapply passes_equiv; [eapply passes_seq; [apply passes_refuse|intros _; by apply (passes_panics _ _ False); [|tauto]]|].
      split; [tauto|]. by intros (? & ? & _ & ? & _). }
  eapply passes_equiv.
  - eapply passes_seq; [apply passes_refuse|intros _]. eapply passes_value; [done|].
    eapply passes_seq; [apply passes_refuse|intros _]. eapply passes_seq; [apply passes_refuse|intros _].
    apply passes_refuse.
  - rewrite !big_BitLen_256, !Z.ltb_ge. split; [naive_solver|].
    intros (? & ? & [= <-] & [= <-] & ?). tauto.
Qed.

Lemma check_fees_passes m s : passes (check_fees m) s (rule_fees m) (fun _ s' => s' = s).
Proof.
  unfold check_fees, rule_fees. destruct is_london.
  2:{ eapply passes_equiv; [by apply passes_ret|]. tauto. }
  pose proof (check_fees_tail m s) as Htail. unfold skip_fee_check. destruct NoBaseFee.
  2:{ eapply passes_value; [done|]. eapply passes_equiv; [apply Htail|]. naive_solver. }
  destruct (GasFeeCap m) as [cap|] eqn:Ecap.
  2:{ apply passes_panics; [done|]. unfold fees_in_order. rewrite Ecap. naive_solver. }
  destruct (big_BitLen cap =? 0) eqn:E0.
  - pose proof E0 as E0'. apply big_BitLen_0 in E0' as ->. destruct (GasTipCap m) as [tip|] eqn:Etip.
    2:{ apply passes_panics; [done|]. unfold fees_in_order. rewrite Etip. naive_solver. }
    eapply (passes_value _ _ _ _ (big_BitLen tip =? 0)); [done|]. destruct (big_BitLen tip =? 0) eqn:E1.
    + apply big_BitLen_0 in E1 as ->. eapply passes_equiv; [by apply passes_ret|]. tauto.
    + eapply passes_equiv; [apply Htail|]. split; [tauto|].
      intros [?|[(_ & _ & [= ->])|?]]; [done|done|done].
  - eapply (passes_value _ _ _ _ false); [unfold tx_bind; simpl; by rewrite E0|].
    eapply passes_equiv; [apply Htail|]. split; [tauto|]. intros [?|[(_ & [= ->] & _)|?]]; done.
Qed.

Definition rule_blobs (m : Message) : Prop :=
  match msg_BlobHashes m with
  | None => True
  | Some hashes =>
      msg_To m <> None /\ hashes <> [] /\ (is_osaka = true -> Z.of_nat (length hashes) <= BlobTxMaxBlobs)
      /\ Forall (fun h => IsValidVersionedHash h = true) hashes
  end.

Lemma check_hashes_passes i hashes s :
  passes (check_hashes i hashes) s (Forall (fun h => IsValidVersionedHash h = true) hashes) (fun _ s' => s' = s).
Proof.
  revert i. induction hashes as [|h hashes IH]; intros i; cbn [check_hashes].
  - eapply passes_equiv; [by apply passes_ret|]. split; [constructor|done].
  - eapply passes_equiv; [eapply passes_seq; [apply passes_refuse|intros _; apply IH]|].
    rewrite Forall_cons, negb_false_iff. done.
Qed.

Lemma check_blobs_passes m s : passes (check_blobs m) s (rule_blobs m) (fun _ s' => s' = s).
Proof.
  unfold check_blobs, rule_blobs. destruct (msg_BlobHashes m) as [hashes|]; [|by apply passes_ret].
  destruct (msg_To m) as [dst|]; [|eapply passes_equiv; [apply passes_throw|naive_solver]].
  eapply passes_equiv.
  - eapply passes_seq; [apply passes_refuse|intros _]. eapply passes_seq; [apply passes_refuse|intros _].
    apply check_hashes_passes.
  - destruct hashes; simpl; [naive_solver|].
    destruct is_osaka; simpl; rewrite ?Z.ltb_ge; naive_solver.
Qed.

Definition rule_blob_fee (m : Message) : Prop :=
  is_cancun = false \/ blobGasUsed m <= 0
  \/ exists cap, BlobGasFeeCap m = Some cap /\ ((NoBaseFee = true /\ cap = 0) \/ BlobBaseFee <= cap).

Lemma check_blob_fee_passes m s : passes (check_blob_fee m) s (rule_blob_fee m) (fun _ s' => s' = s).
Proof.
  unfold check_blob_fee, rule_blob_fee. destruct is_cancun; simpl.
  2:{ eapply passes_equiv; [by apply passes_ret|tauto]. }
  destruct (Z.ltb_spec 0 (blobGasUsed m)) as [Hpos|Hpos].
  2:{ eapply passes_equiv; [by apply passes_ret|tauto]. }
  destruct (BlobGasFeeCap m) as [cap|].
  2:{ destruct NoBaseFee; apply passes_panics; try done; naive_solver lia. }
  destruct NoBaseFee.
  - eapply (passes_value _ _ _ _ (big_BitLen cap =? 0)); [done|]. destruct (big_BitLen cap =? 0) eqn:E0.
    + apply big_BitLen_0 in E0 as ->. eapply passes_equiv; [by apply passes_ret|naive_solver].
    + eapply passes_value; [done|]. eapply passes_equiv; [apply passes_refuse|]. rewrite Z.ltb_ge.
      split; [naive_solver|]. intros [?|[?|(? & [= <-] & [[_ ->]|?])]]; done || lia.
  - eapply passes_value; [done|]. eapply passes_value; [done|]. eapply passes_equiv; [apply passes_refuse|].
    rewrite Z.ltb_ge. split; [naive_solver|]. intros [?|[?|(? & [= <-] & [[? _]|?])]]; done || lia.
Qed.

Definition rule_authorizations (m : Message) : Prop :=
  match SetCodeAuthorizations m with None => True | Some auths => msg_To m <> None /\ auths <> [] end.

Lemma check_authorizations_passes m s :
  passes (check_authorizations m) s (rule_authorizations m) (fun _ s' => s' = s).
Proof.
  unfold check_authorizations, rule_authorizations. destruct (SetCodeAuthorizations m) as [auths|]; [|by apply passes_ret].
  destruct (msg_To m); [|eapply passes_equiv; [apply passes_throw|naive_solver]].
  eapply passes_equiv; [apply passes_refuse|]. destruct auths; naive_solver.
Qed.


(** The amounts are those of a decoded message. *)
Record typed (m : Message) : Prop := {
  ty_nonce : is_u64 (msg_Nonce m);
  ty_limit : is_u64 (msg_GasLimit m);
  ty_value : 0 <= msg_Value m;
  ty_price : 0 <= GasPrice m;
  ty_cap : 0 <= default 0 (GasFeeCap m);
  ty_blob_cap : 0 <= default 0 (BlobGasFeeCap m)
}.

Definition buys_blobs (m : Message) : bool := is_cancun && (0 <? blobGasUsed m).

(** What the sender has to own, and what is taken from it. *)
Definition funds_needed (m : Message) : Z :=
  msg_GasLimit m * default (GasPrice m) (GasFeeCap m) + msg_Value m
  + (if buys_blobs m then blobGasUsed m * default 0 (BlobGasFeeCap m) else 0).
Definition gas_charged (m : Message) : Z :=
  msg_GasLimit m * GasPrice m + (if buys_blobs m then blobGasUsed m * BlobBaseFee else 0).

Definition rule_funds (m : Message) (s : stateTransition) : Prop :=
  (buys_blobs m = true -> BlobGasFeeCap m <> None)
  /\ funds_needed m <= balance_of (db s) (msg_From m) /\ msg_GasLimit m <= gp s.

(** The message pays no more than it offers. *)
Definition within_caps (m : Message) : Prop :=
  GasPrice m <= default (GasPrice m) (GasFeeCap m)
  /\ (buys_blobs m = true -> BlobBaseFee <= default 0 (BlobGasFeeCap m)).

Definition gas_bought (m : Message) (s s' : stateTransition) : Prop :=
  gp s' = gp s - msg_GasLimit m /\ gasRemaining s' = msg_GasLimit m /\ initialGas s' = msg_GasLimit m
  /\ msg s' = msg s
  /\ (within_caps m ->
      balance_of (db s') (msg_From m) = balance_of (db s) (msg_From m) - gas_charged m
      /\ msg_Value m <= balance_of (db s') (msg_From m)
      /\ forall a, a <> msg_From m -> balance_of (db s') a = balance_of (db s) a).

Lemma blobGasUsed_nonneg m : 0 <= blobGasUsed m.
Proof. apply u64_range. Qed.

Lemma amounts_nonneg m : typed m -> 0 <= BlobBaseFee -> 0 <= funds_needed m /\ 0 <= gas_charged m.
Proof.
  intros [_ Hl Hv Hp Hc Hb] HB. pose proof (blobGasUsed_nonneg m).
  unfold funds_needed, gas_charged, is_u64 in *.
  assert (0 <= default (GasPrice m) (GasFeeCap m)) by (by destruct (GasFeeCap m)).
  destruct (buys_blobs m); nia.
Qed.

Lemma charged_within m : typed m -> within_caps m -> gas_charged m + msg_Value m <= funds_needed m.
Proof.
  intros [_ Hl Hv Hp Hc Hb] [H1 H2]. pose proof (blobGasUsed_nonneg m).
  unfold funds_needed, gas_charged, is_u64 in *. destruct (buys_blobs m); [specialize (H2 eq_refl)|]; nia.
Qed.

Lemma gas_value_spec m s : (buys_blobs m = true -> BlobGasFeeCap m <> None) ->
  gas_value m s = Done (Ok (gas_charged m, funds_needed m), s).
Proof.
  unfold gas_value, gas_charged, funds_needed. fold (buys_blobs m). intros Hb.
  destruct (buys_blobs m).
  - destruct (BlobGasFeeCap m); [|by destruct (Hb eq_refl)]. unfold deref, tx_bind, tx_ret. destruct (GasFeeCap m); simpl; do 4 f_equal; lia.
  - unfold tx_ret. destruct (GasFeeCap m); simpl; do 4 f_equal; lia.
Qed.

Lemma gas_value_panics m s : ~ (buys_blobs m = true -> BlobGasFeeCap m <> None) -> gas_value m s = Panics.
Proof.
  unfold gas_value. fold (buys_blobs m). destruct (buys_blobs m); [|intros H; by destruct H].
  destruct (BlobGasFeeCap m); [intros H; by destruct H|done].
Qed.

Lemma balance_set_gp v s a : balance_of (db (set_gp v s)) a = balance_of (db s) a.
Proof. done. Qed.

(** What follows the checks of [buyGas] takes the gas off the pool and its value off the
    sender's balance. *)
Lemma pay_spec m s0 s e' v pool :
  s = set_evm e' s0 -> reloads (db s0) (evm_StateDB e') -> is_u256 (balance_of (db s0) (msg_From m)) ->
  is_u256 v ->
  let s1 := set_initialGas (msg_GasLimit m) (set_gasRemaining (msg_GasLimit m) (set_gp pool s)) in
  passes (tx_bind (state_do (SubBalance (msg_From m) v)) (fun _ => tx_ret tt)) s1 True
    (fun _ s' => gp s' = pool /\ gasRemaining s' = msg_GasLimit m /\ initialGas s' = msg_GasLimit m /\ msg s' = msg s0
       /\ (v <= balance_of (db s0) (msg_From m) ->
           balance_of (db s') (msg_From m) = balance_of (db s0) (msg_From m) - v
           /\ forall a, a <> msg_From m -> balance_of (db s') a = balance_of (db s0) a)).
Proof.
  intros -> Hr Hbal Hv s1.
  pose proof (fun a => reloads_balance _ _ a Hr) as Hsame.
  eapply passes_equiv; [eapply (passes_bind _ _ _ True True); [apply passes_state_do|]|tauto].
  intros prev s' (e & -> & E). apply passes_ret. simpl. split_and!; try done. intros Hle.
  unfold db; simpl. apply (f_equal snd) in E. simpl in E. rewrite E.
  destruct (SubBalance_balance (msg_From m) v (evm_StateDB e')) as (_ & H1 & H2); rewrite ?Hsame; try done.
  split; [by rewrite H1, Hsame|]. intros a Ha. rewrite H2 by done. apply Hsame.
Qed.

Lemma funds_check have need : is_u256 have -> 0 <= need -> (two256 <=? need) = false ->
  (U256.Cmp have (U256.wrap need) <? 0) = false <-> need <= have.
Proof.
  intros Hh Hn Hf. apply Z.leb_gt in Hf. unfold U256.wrap. rewrite Z.mod_small by done.
  rewrite U256.Cmp_spec by (done || by split). destruct (Z.ltb_spec have need), (Z.eqb_spec have need); simpl; split; done || lia.
Qed.

Lemma buyGas_passes m s : typed m -> 0 <= BlobBaseFee -> msg s = m -> is_u64 (gp s) ->
  is_u256 (balance_of (db s) (msg_From m)) ->
  passes buyGas s (rule_funds m s) (fun _ => gas_bought m s).
Proof.
  intros Hm HB Hmsg Hgp Hbal. unfold buyGas, rule_funds.
  eapply passes_value; [by rewrite <- Hmsg|]. rewrite Hmsg.
  destruct (amounts_nonneg m Hm HB) as [Hneed Hcharged].
  destruct (decide (buys_blobs m = true -> BlobGasFeeCap m <> None)) as [Hcap|Hcap].
  2:{ apply passes_panics; [unfold tx_bind; by rewrite gas_value_panics|]. by intros []. }
  eapply passes_value; [by apply gas_value_spec|]. cbv beta iota.
  rewrite !U256.FromBig_spec by done.
  eapply passes_equiv.
  - apply passes_check. intros Hfits.
    eapply passes_bind; [apply passes_state_do|]. intros have s1 (e & -> & E). symmetry in E.
    apply GetBalance_reads in E as [-> Hr].
    apply passes_check. intros Hfunds. eapply passes_value; [done|]. simpl gp.
    eapply (passes_bind _ _ _ (msg_GasLimit m <= gp s) _ (fun pool s' => pool = gp s - msg_GasLimit m /\ s' = set_evm e s)).
    { unfold GasPool.SubGas. destruct (Z.ltb_spec (gp s) (msg_GasLimit m)).
      - eapply passes_equiv; [apply passes_throw|lia].
      - eapply passes_equiv; [apply passes_ret|done]. split; [|done]. destruct Hm. apply u64_small. go_lia. }
    intros pool s1 (-> & ->).
    do 3 (eapply passes_value; [done|]). cbv zeta.
    eapply passes_weaken; [eapply (pay_spec m s); [done|done|done|by apply Z.mod_pos_bound]|].
    intros _ s' (H1 & H2 & H3 & H4 & H5). split_and!; [exact H1|exact H2|exact H3|by rewrite H4|].
    intros Hw. pose proof (charged_within m Hm Hw).
    apply funds_check in Hfunds; [|done..]. apply Z.leb_gt in Hfits. fold (db s) in Hfunds.
    pose proof (ty_value m Hm). unfold U256.wrap in H5. rewrite Z.mod_small in H5 by lia.
    destruct H5 as [H5 H6]; [lia|]. split_and!; [done|rewrite H5; lia|done].
  - split; [intros (Hfits & _ & Hfunds & Hpool & _)|intros (_ & Hneed' & Hpool)].
    + apply funds_check in Hfunds; [|done..]. tauto.
    + assert ((two256 <=? funds_needed m) = false) as Hfits
        by (apply Z.leb_gt; unfold is_u256 in Hbal; lia).
      split; [done|]. rewrite funds_check by done. tauto.
Qed.

(** The rules of a message, over the state it is applied to. *)
Record accepted (m : Message) (s : stateTransition) : Prop := {
  ok_nonce : rule_nonce m s;
  ok_sender : rule_sender m s;
  ok_fees : rule_fees m;
  ok_blobs : rule_blobs m;
  ok_blob_fee : rule_blob_fee m;
  ok_authorizations : rule_authorizations m;
  ok_funds : rule_funds m s
}.

Lemma seen_trans s s1 s2 : seen s s1 -> seen s1 s2 -> seen s s2.
Proof.
  intros (e1 & -> & H1) (e2 & -> & H2). exists e2. split; [done|]. intros b. by rewrite H2, <- H1.
Qed.

Lemma seen_rule_funds m s s1 : seen s s1 -> rule_funds m s1 <-> rule_funds m s.
Proof. intros (e & -> & H). unfold rule_funds, db in *. simpl. by rewrite H. Qed.

Lemma seen_gas_bought m s s1 s2 : seen s s1 -> gas_bought m s1 s2 -> gas_bought m s s2.
Proof.
  intros (e & -> & H) (H1 & H2 & H3 & H4 & H5). split_and!; try done. intros Hw.
  destruct (H5 Hw) as (A & B & C). unfold db in *. simpl in *. rewrite <- (H (msg_From m)). split_and!; [done..|].
  intros a Ha. rewrite <- H. by apply C.
Qed.

Lemma preCheck_passes m s : typed m -> 0 <= BlobBaseFee -> msg s = m -> is_u64 (gp s) ->
  is_u256 (balance_of (db s) (msg_From m)) ->
  passes preCheck s (accepted m s) (fun _ => gas_bought m s).
Proof.
  intros Hm HB Hmsg Hgp Hbal. unfold preCheck.
  eapply passes_value; [by rewrite <- Hmsg|]. rewrite Hmsg.
  eapply passes_equiv.
  - eapply passes_bind; [apply check_nonce_passes, Hm|]. intros ? s1 (e1 & -> & Hr).
    eapply (passes_bind _ _ _ (rule_sender m s)).
    { eapply passes_equiv; [apply check_sender_passes|]. unfold rule_sender, db. simpl.
      by rewrite (reloads_code (evm_StateDB (st_evm s))). }
    intros ? s2 Hseen2.
    assert (seen s s2) as Hseen.
    { apply (seen_trans _ (set_evm e1 s)); [|exact Hseen2]. exists e1. split; [done|]. intros b. by apply reloads_balance. }
    eapply passes_seq; [apply check_fees_passes|intros _]. eapply passes_seq; [apply check_blobs_passes|intros _].
    eapply passes_seq; [apply check_blob_fee_passes|intros _].
    eapply passes_seq; [apply check_authorizations_passes|intros _].
    eapply passes_weaken; [eapply passes_equiv; [eapply (buyGas_passes m s2)|by apply seen_rule_funds]|].
    1-5: destruct Hseen as (e & -> & He); try done. { unfold db. simpl. by rewrite He. }
    intros ? s3. by apply seen_gas_bought.
  - split; [intros (? & ? & ? & ? & ? & ? & ?); by constructor|intros []; tauto].
Qed.

(** C7. A message is accepted before execution exactly when it satisfies the rules: its nonce is the
    sender's and below 2^64-1; the sender has no code but a delegation and, on Osaka, the gas limit is within
    the cap; the fee caps fit 256 bits, are in order and cover the base fee; the blob hashes are present,
    few enough, versioned and paid for; an authorization list has entries and a destination; the sender owns
    the gas at its cap, the blob gas at its cap and the value, and the pool has the gas.  The sender then
    pays for the gas limit at the price, and still owns the value. *)
Theorem preCheck_accepts m s : typed m -> 0 <= BlobBaseFee -> msg s = m -> is_u64 (gp s) ->
  is_u256 (balance_of (db s) (msg_From m)) ->
  ((exists s', preCheck s = Done (Ok tt, s')) <-> accepted m s)
  /\ forall s', preCheck s = Done (Ok tt, s') -> gas_bought m s s'.
Proof.
  intros Hm HB Hmsg Hgp Hbal. destruct (preCheck_passes m s Hm HB Hmsg Hgp Hbal) as [H1 H2]. split.
  - split; [intros (s' & E); by apply H2 in E|]. intros H. destruct (H1 H) as ([] & s' & E & _). by exists s'.
  - intros s' E. destruct (H1 (H2 _ _ E)) as ([] & s1 & E1 & Hb). rewrite E in E1. by injection E1 as <-.
Qed.

End Rules.

Section ChecksWitness.
Import ToyMachine TxMachine.

(** The message of the machine is accepted, and costs its sender 200000. *)
Lemma preCheck_accepts_witness :
  exists s', preCheck (R := TxMachine.R) (start []) = Done (Ok tt, s')
    /\ accepted (R := TxMachine.R) (call_message []) (start [])
    /\ balance_of (db s') 9 = 1000000000 - 200000 /\ gp s' = 30000000 - 100000.
Proof.
  pose proof (preCheck_accepts (R := TxMachine.R) (call_message []) (start [])
    ltac:(constructor; unfold is_u64; simpl; lia) ltac:(done) eq_refl ltac:(by vm_compute) ltac:(by vm_compute)) as [H1 H2].
  destruct (preCheck (start [])) as [[[[]|] s']| |] eqn:E; [|vm_compute in E; discriminate..].
  exists s'. split; [done|]. destruct (H2 s' eq_refl) as (Hg & _ & _ & _ & Hw). split; [apply H1; by exists s'|].
  split; [|exact Hg]. destruct Hw as [Hb _]; [split; vm_compute; intros; discriminate|]. etransitivity; [exact Hb|]. by vm_compute.
Defined.
End ChecksWitness.
