(* ===== verification/Signers.v ===== *)
(** The signers, [core/types/transaction_signing.go] and [arbitrum_signer.go], the
    signatures of authorizations, [core/types/tx_setcode.go], and the checks of
    [crypto/crypto.go] on signature values.

    The elliptic curve is the class [Crypto]: signing and recovering the public key, by
    the library [libsecp256k1]. *)

From stdpp Require Import base gmap list numbers option strings.
From S2P Require Import State.
From S2P Require Import Prelude Params Uint256 ChainConfig Rlp RlpStream RlpValues RlpCodec TxTypes Transaction TxEncoding.
Import U256(be_value, be_bytes, be_bytes_length, be_bytes_byte, be_value_bytes, be_value_bound, be_bytes_value, be_value_snoc).
Open Scope Z_scope.
Open Scope stream_scope.
Open Scope go_scope.

(** ** The curve *)

(** [crypto.Sign] and [crypto.Ecrecover] of a hash; an uncompressed public key is the
    byte 4 and its coordinates. *)
Class Crypto := {
  PrivateKey : Type;
  Sign : Z -> PrivateKey -> option (list Z);
  Ecrecover : Z -> list Z -> option (list Z);
  FromECDSAPub : PrivateKey -> list Z
}.

Definition secp256k1N : Z := 0xFFFFFFFFFFFFFFFFFFFFFFFFFFFFFFFEBAAEDCE6AF48A03BBFD25E8CD0364141.
Definition secp256k1halfN : Z := secp256k1N / 2.
Definition SignatureLength : Z := 65.

(** What the documentation of the library says: a signature is [R || S || V] with [V]
    0 or 1 and the lower one of the two values of [S], and the key that made a signature
    is the one that is recovered. *)
Class CryptoLaws (C : Crypto) := {
  Sign_shape h k sig : Sign h k = Some sig -> exists r s v, sig = be_bytes 32 r ++ be_bytes 32 s ++ [v]
    /\ 1 <= r < secp256k1N /\ 1 <= s <= secp256k1halfN /\ (v = 0 \/ v = 1);
  Sign_recover h k sig : Sign h k = Some sig -> Ecrecover h sig = Some (FromECDSAPub k);
  pubkey_uncompressed k : exists p, FromECDSAPub k = 4 :: p
}.

Definition ValidateSignatureValues (v r s : Z) (homestead : bool) : bool :=
  if (r <? 1) || (s <? 1) then false
  else if homestead && (secp256k1halfN <? s) then false
  else (r <? secp256k1N) && (s <? secp256k1N) && ((v =? 0) || (v =? 1)).

(** [(r, s, v)]; [None] is the panic on a wrong length. *)
Definition decodeSignature (sig : list Z) : option (Z * Z * Z) :=
  if negb (len sig =? SignatureLength) then None
  else Some (be_value (take 32 sig), be_value (take 32 (drop 32 sig)), (default 0 (sig !! 64%nat) + 27) mod 256).

(** ** Sets of transaction types *)

Definition txtypeSet_set (txType : Z) (v : Z * Z) : Z * Z :=
  let bit := Z.shiftl 1 (txType mod 64) in
  if txType / 64 =? 0 then (Z.lor v.1 bit, v.2) else (v.1, Z.lor v.2 bit).

Definition txtypeSet_has (txType : Z) (v : Z * Z) : bool :=
  if 128 <=? txType then false
  else
    let word := if txType / 64 =? 0 then v.1 else v.2 in
    negb (Z.land word (Z.shiftl 1 (txType mod 64)) =? 0).

(** ** Constructors *)

Definition NewEIP155Signer (chainId : option Z) : Signer := EIP155Signer (default 0 chainId).

Definition newModernSigner (chainID : option Z) (fork : Fork) : Signer :=
  let chainID := default 0 chainID in
  let since (f : Fork) := fork_number f <=? fork_number fork in
  let legacy :=
    if since SpuriousDragon then NewEIP155Signer (Some chainID)
    else if since Homestead then HomesteadSigner
    else FrontierSigner in
  let types := txtypeSet_set LegacyTxType (0, 0) in
  let types := if since Berlin then txtypeSet_set AccessListTxType types else types in
  let types := if since London then txtypeSet_set DynamicFeeTxType types else types in
  let types := if since Cancun then txtypeSet_set BlobTxType types else types in
  let types := if since Prague then txtypeSet_set SetCodeTxType types else types in
  modernSigner types chainID legacy.

Definition NewPragueSigner (chainId : option Z) : Signer := newModernSigner chainId Prague.
Definition NewCancunSigner (chainId : option Z) : Signer := newModernSigner chainId Cancun.
Definition NewLondonSigner (chainId : option Z) : Signer := newModernSigner chainId London.
Definition NewEIP2930Signer (chainId : option Z) : Signer := newModernSigner chainId Berlin.
Definition NewArbitrumSigner (signer : Signer) : Signer := arbitrumSigner signer.

Definition MakeSigner (config : ChainConfig) (blockNumber : option Z) (blockTime arbosVersion : Z) : Signer :=
  let id := cfg_ChainID config in
  let signer :=
    if Config.IsPrague config blockNumber blockTime arbosVersion then NewPragueSigner id
    else if Config.IsCancun config blockNumber blockTime 0 then NewCancunSigner id
    else if Config.IsLondon config blockNumber then NewLondonSigner id
    else if Config.IsBerlin config blockNumber then NewEIP2930Signer id
    else if Config.IsEIP155 config blockNumber then NewEIP155Signer id
    else if Config.IsHomestead config blockNumber then HomesteadSigner
    else FrontierSigner in
  if Config.IsArbitrum config then NewArbitrumSigner signer else signer.

Definition latestSignerImpl (config : ChainConfig) : Signer :=
  match cfg_ChainID config with
  | None => HomesteadSigner
  | Some id =>
      let id := Some id in
      if bool_decide (is_Some (PragueTime config)) then NewPragueSigner id
      else if bool_decide (is_Some (CancunTime config)) then NewCancunSigner id
      else if bool_decide (is_Some (LondonBlock config)) then NewLondonSigner id
      else if bool_decide (is_Some (BerlinBlock config)) then NewEIP2930Signer id
      else if bool_decide (is_Some (EIP155Block config)) then NewEIP155Signer id
      else HomesteadSigner
  end.

Definition LatestSigner (config : ChainConfig) : Signer := NewArbitrumSigner (latestSignerImpl config).

Definition latestSignerForChainIDImpl (chainID : option Z) : Signer :=
  match chainID with
  | Some id => NewPragueSigner (Some id)
  | None => HomesteadSigner
  end.

Definition LatestSignerForChainID (chainID : option Z) : Signer := NewArbitrumSigner (latestSignerForChainIDImpl chainID).

(** ** The methods of a signer *)

Fixpoint signer_ChainID (s : Signer) : option Z :=
  match s with
  | FrontierSigner | HomesteadSigner => None
  | EIP155Signer chainId => Some chainId
  | modernSigner _ chainID _ => Some chainID
  | arbitrumSigner s => signer_ChainID s
  end.

(** [s.Equal(s2)], or [s2.Equal(s)] when [swap]: an [arbitrumSigner] asks the other way
    round. *)
Fixpoint Equal_dir (swap : bool) (s s2 : Signer) : bool :=
  match s, s2 with
  | FrontierSigner, FrontierSigner => true
  | HomesteadSigner, HomesteadSigner => true
  | EIP155Signer c, EIP155Signer c2 => c =? c2
  | modernSigner types c legacy, modernSigner types2 c2 legacy2 =>
      (c =? c2) && bool_decide (types = types2) && Equal_dir swap legacy legacy2
  | arbitrumSigner s, arbitrumSigner s2 => Equal_dir (negb swap) s s2
  | _, _ => false
  end.
Definition Equal : Signer -> Signer -> bool := Equal_dir false.

Definition Protected (d : TxData) : bool :=
  match d with
  | Legacy tx => isProtectedV (LegacyTx.V tx)
  | _ => true
  end.

(** The transaction that [arbitrumSigner] makes of a legacy one of before Nitro. *)
Definition fakeTx (tx : ArbitrumLegacyTxData.t) : TxData := Legacy (ArbitrumLegacyTxData.LegacyTx_ tx).

Definition frontier_sig_fields := (u64_codec ,, c_big ,, u64_codec ,, to_codec ,, c_big ,, c_bytes ,, f_nil)%fields.

Section Signing.
Context {HS : Hasher} {C : Crypto}.

Definition frontier_hash (d : TxData) : Z :=
  rlpHash (encode_any (sig_list frontier_sig_fields
    (nonce d, (gasPrice d, (gas d, (to d, (value d, (data d, tt)))))))).

Fixpoint signer_Hash (s : Signer) (d : TxData) : Z :=
  match s with
  | FrontierSigner | HomesteadSigner => frontier_hash d
  | EIP155Signer chainId => sigHash chainId d
  | modernSigner _ chainID _ => sigHash chainID d
  | arbitrumSigner s => signer_Hash s (match d with ArbLegacy tx => fakeTx tx | _ => d end)
  end.

(** The address of a public key: the last 20 bytes of its hash. *)
Definition key_address (pub : list Z) : Z := keccak256 (drop 1 pub) mod 2 ^ 160.
Definition PubkeyToAddress (k : PrivateKey) : Z := key_address (FromECDSAPub k).

(** The recovery of [recoverPlain] and [Authority]. *)
Definition recover_address (sighash : Z) (sig : list Z) : result txError Z :=
  match Ecrecover sighash sig with
  | None => Err ErrRecovery
  | Some pub =>
      match pub with
      | 4 :: _ => Ok (key_address pub)
      | _ => Err ErrInvalidPublicKey
      end
  end.

Definition recoverPlain (sighash R S Vb : Z) (homestead : bool) : result txError Z :=
  if 8 <? BitLen Vb then Err ErrInvalidSig
  else
    let V := (u64 (Z.abs Vb) - 27) mod 256 in
    if negb (ValidateSignatureValues V R S homestead) then Err ErrInvalidSig
    else recover_address sighash (be_bytes 32 R ++ be_bytes 32 S ++ [V]).

(** The sender by the rules of Frontier and Homestead. *)
Definition plain_sender (homestead : bool) (d : TxData) : result txError Z :=
  if negb (txType d =? LegacyTxType) then Err ErrTxTypeNotSupported
  else let '(v, r, s) := rawSignatureValues d in recoverPlain (frontier_hash d) r s v homestead.

Definition eip155_Sender (chainId : Z) (d : TxData) : result txError Z :=
  if negb (txType d =? LegacyTxType) then Err ErrTxTypeNotSupported
  else if negb (Protected d) then plain_sender true d
  else if negb (chainID d =? chainId) then Err (ErrInvalidChainId (chainID d) chainId)
  else
    let '(v, r, s) := rawSignatureValues d in
    recoverPlain (sigHash chainId d) r s (v - chainId * 2 - 8) true.

(** [legacy] and [inner] stand for the methods of the signer inside. *)
Definition modern_Sender (txtypes : Z * Z) (chainId : Z) (legacy : TxData -> result txError Z) (d : TxData) : result txError Z :=
  if negb (txtypeSet_has (txType d) txtypes) then Err ErrTxTypeNotSupported
  else if txType d =? LegacyTxType then legacy d
  else if negb (chainID d =? chainId) then Err (ErrInvalidChainId (chainID d) chainId)
  else
    let '(v, r, s) := rawSignatureValues d in
    recoverPlain (sigHash chainId d) r s (v + 27) true.

Definition arbitrum_Sender (inner : TxData -> result txError Z) (d : TxData) : result txError Z :=
  match d with
  | Unsigned tx => Ok (ArbitrumUnsignedTx.From tx)
  | Contract_ tx => Ok (ArbitrumContractTx.From tx)
  | Deposit tx => Ok (ArbitrumDepositTx.From tx)
  | Internal _ => Ok ArbosAddress
  | Retry tx => Ok (ArbitrumRetryTx.From tx)
  | SubmitRetryable tx => Ok (ArbitrumSubmitRetryableTx.From tx)
  | ArbLegacy tx =>
      match ArbitrumLegacyTxData.Sender tx with
      | Some from => Ok from
      | None => inner (fakeTx tx)
      end
  | _ => inner d
  end.

Fixpoint signer_Sender (s : Signer) (d : TxData) : result txError Z :=
  match s with
  | FrontierSigner => plain_sender false d
  | HomesteadSigner => plain_sender true d
  | EIP155Signer chainId => eip155_Sender chainId d
  | modernSigner txtypes chainId legacy => modern_Sender txtypes chainId (signer_Sender legacy) d
  | arbitrumSigner s => arbitrum_Sender (signer_Sender s) d
  end.

(** [(R, S, V)]; [None] is the panic of [decodeSignature]. *)
Definition plain_values (d : TxData) (sig : list Z) : option (result txError (Z * Z * Z)) :=
  if negb (txType d =? LegacyTxType) then Some (Err ErrTxTypeNotSupported)
  else rsv ← decodeSignature sig; Some (Ok rsv).

Definition eip155_SignatureValues (chainId : Z) (d : TxData) (sig : list Z) : option (result txError (Z * Z * Z)) :=
  if negb (txType d =? LegacyTxType) then Some (Err ErrTxTypeNotSupported)
  else
    '(r, s, v) ← decodeSignature sig;
    let v := if chainId =? 0 then v else (default 0 (sig !! 64%nat) + 35) mod 256 + chainId * 2 in
    Some (Ok (r, s, v)).

Definition modern_SignatureValues (txtypes : Z * Z) (chainId : Z)
    (legacy : TxData -> list Z -> option (result txError (Z * Z * Z))) (d : TxData) (sig : list Z)
  : option (result txError (Z * Z * Z)) :=
  if negb (txtypeSet_has (txType d) txtypes) then Some (Err ErrTxTypeNotSupported)
  else if txType d =? LegacyTxType then legacy d sig
  else if negb (chainID d =? 0) && negb (chainID d =? chainId) then Some (Err (ErrInvalidChainId (chainID d) chainId))
  else
    '(r, s, _) ← decodeSignature sig;
    Some (Ok (r, s, default 0 (sig !! 64%nat))).

Definition arbitrum_SignatureValues (inner : TxData -> list Z -> option (result txError (Z * Z * Z))) (d : TxData)
    (sig : list Z) : option (result txError (Z * Z * Z)) :=
  match d with
  | Unsigned _ | Contract_ _ | Deposit _ | Internal _ | Retry _ | SubmitRetryable _ => Some (Ok (0, 0, 0))
  | ArbLegacy tx => inner (fakeTx tx) sig
  | _ => inner d sig
  end.

Fixpoint SignatureValues (s : Signer) (d : TxData) (sig : list Z) : option (result txError (Z * Z * Z)) :=
  match s with
  | FrontierSigner | HomesteadSigner => plain_values d sig
  | EIP155Signer chainId => eip155_SignatureValues chainId d sig
  | modernSigner txtypes chainId legacy => modern_SignatureValues txtypes chainId (SignatureValues legacy) d sig
  | arbitrumSigner s => arbitrum_SignatureValues (SignatureValues s) d sig
  end.

(** ** Signing *)

(** The copy has no caches.  A signer without chain id signs no type that stores one. *)
Definition WithSignature (tx : Transaction) (signer : Signer) (sig : list Z) : option (result txError Transaction) :=
  rsv ← SignatureValues signer (inner tx) sig;
  match rsv with
  | Err e => Some (Err e)
  | Ok (r, s, v) =>
      cpy ← setSignatureValues (default 0 (signer_ChainID signer)) v r s (inner tx);
      Some (Ok (NewTx cpy))
  end.

Definition SignTx (tx : Transaction) (s : Signer) (prv : PrivateKey) : option (result txError Transaction) :=
  match Sign (signer_Hash s (inner tx)) prv with
  | None => Some (Err ErrSigning)
  | Some sig => WithSignature tx s sig
  end.

Definition SignNewTx (prv : PrivateKey) (s : Signer) (txdata : TxData) : option (result txError Transaction) :=
  SignTx (NewTx txdata) s prv.

(** [None] is also the panic on an error. *)
Definition MustSignNewTx (prv : PrivateKey) (s : Signer) (txdata : TxData) : option Transaction :=
  r ← SignNewTx prv s txdata;
  match r with Ok tx => Some tx | Err _ => None end.

(** ** The sender and its cache *)

Definition store_from (s : Signer) (a : Z) (tx : Transaction) : Transaction :=
  mkTransaction (inner tx) (calldataUnits tx) (tx_hash tx) (tx_size tx) (Some (s, a)).

Definition compute_sender (signer : Signer) (tx : Transaction) : result txError Z * Transaction :=
  match signer_Sender signer (inner tx) with
  | Err e => (Err e, tx)
  | Ok addr => (Ok addr, store_from signer addr tx)
  end.

Definition Sender (signer : Signer) (tx : Transaction) : result txError Z * Transaction :=
  match from tx with
  | Some (cached, addr) => if Equal cached signer then (Ok addr, tx) else compute_sender signer tx
  | None => compute_sender signer tx
  end.

(** ** Authorizations *)

Definition auth_sig_fields := (c_u256 ,, address_codec ,, u64_codec ,, f_nil)%fields.

Definition auth_SigHash (a : SetCodeAuthorization) : Z :=
  prefixedRlpHash 0x05 (encode_any (sig_list auth_sig_fields (auth_ChainID a, (auth_Address a, (auth_Nonce a, tt))))).

Definition auth_Authority (a : SetCodeAuthorization) : result txError Z :=
  if negb (ValidateSignatureValues (auth_V a) (auth_R a) (auth_S a) true) then Err ErrInvalidSig
  else recover_address (auth_SigHash a) (be_bytes 32 (auth_R a) ++ be_bytes 32 (auth_S a) ++ [auth_V a]).

(** [None] is the panic of [decodeSignature]; 32 bytes fit a word. *)
Definition SignSetCode (prv : PrivateKey) (auth : SetCodeAuthorization) : option (result txError SetCodeAuthorization) :=
  match Sign (auth_SigHash auth) prv with
  | None => Some (Err ErrSigning)
  | Some sig =>
      '(r, s, _) ← decodeSignature sig;
      Some (Ok (mkSetCodeAuthorization (auth_ChainID auth) (auth_Address auth) (auth_Nonce auth)
        (default 0 (sig !! 64%nat)) r s))
  end.

End Signing.
