(* ===== verification/SignerTheorems.v ===== *)
(** Theorems on signers: the sender of a signed transaction is the owner of the key, a
    signature is for one chain and has one form, and the caches of a transaction never
    change an answer. *)

From stdpp Require Import base gmap list numbers option strings.
From S2P Require Import State.
From S2P Require Import Prelude Params Uint256 ChainConfig Rlp RlpStream RlpValues RlpCodec TxTypes Transaction TxEncoding Signers.
Import U256(be_value, be_bytes, be_bytes_length, be_bytes_byte, be_value_bytes, be_value_bound, be_bytes_value, be_value_snoc).
Open Scope Z_scope.
Open Scope go_scope.

(** ** Notions *)

(** The signers that the constructors make for the chain id of a real chain. *)
Fixpoint wf_signer (s : Signer) : Prop :=
  match s with
  | FrontierSigner | HomesteadSigner => True
  | EIP155Signer c => 0 < c
  | modernSigner _ c legacy => 0 < c < two256 /\ legacy = EIP155Signer c
  | arbitrumSigner s => wf_signer s
  end.

(** The transactions that a signer signs: of a type it knows, whose chain id is its own
    or not yet given, and whose sender is not written in the transaction. *)
Fixpoint signable (s : Signer) (d : TxData) : Prop :=
  match s with
  | FrontierSigner | HomesteadSigner | EIP155Signer _ => is_legacy d = true
  | modernSigner types c _ =>
      txtypeSet_has (txType d) types = true /\ is_arb d = false
      /\ (is_legacy d = true \/ chainID d = 0 \/ chainID d = c)
  | arbitrumSigner s =>
      match d with
      | ArbLegacy tx => ArbitrumLegacyTxData.Sender tx = None /\ signable s (fakeTx tx)
      | _ => is_arb d = false /\ signable s d
      end
  end.

(** The signers of Homestead and later, which reject the higher value of [S]. *)
Fixpoint homestead_rules (s : Signer) : Prop :=
  match s with
  | FrontierSigner => False
  | HomesteadSigner | EIP155Signer _ => True
  | modernSigner _ _ s | arbitrumSigner s => homestead_rules s
  end.

Definition low_s (d : TxData) : Prop :=
  let '(_, r, s) := rawSignatureValues d in 1 <= r < secp256k1N /\ 1 <= s <= secp256k1halfN.

(** ** Helpers *)

Lemma is_legacy_type d : (txType d =? LegacyTxType) = is_legacy d.
Proof. by destruct d. Qed.

Lemma secp_bounds : 0 < secp256k1halfN /\ secp256k1halfN < secp256k1N /\ secp256k1N < two256
  /\ secp256k1N = 2 * secp256k1halfN + 1.
Proof. by vm_compute. Qed.

Lemma Validate_spec v r s h : ValidateSignatureValues v r s h = true <->
  1 <= r < secp256k1N /\ 1 <= s < secp256k1N /\ (h = true -> s <= secp256k1halfN) /\ (v = 0 \/ v = 1).
Proof.
  unfold ValidateSignatureValues. pose proof secp_bounds as (H0 & H1 & _).
  remember secp256k1halfN as hN. remember secp256k1N as N. clear HeqhN HeqN.
  destruct (Z.ltb_spec r 1); simpl; [split; [done|lia]|]. destruct (Z.ltb_spec s 1); simpl; [split; [done|lia]|].
  destruct h; simpl.
  - destruct (Z.ltb_spec hN s); [split; [done|intros (_ & _ & H' & _); specialize (H' eq_refl); lia]|].
    rewrite !andb_true_iff, orb_true_iff, !Z.ltb_lt, !Z.eqb_eq. split; [intros ((? & ?) & ?)|intros (? & ? & ? & ?)]; repeat split; lia || done.
  - rewrite !andb_true_iff, orb_true_iff, !Z.ltb_lt, !Z.eqb_eq. split; [intros ((? & ?) & ?)|intros (? & ? & ? & ?)]; repeat split; lia || done.
Qed.

(** Unfolds a method of a known signer. *)
Ltac signer_methods :=
  cbn [signer_Sender SignatureValues];
  unfold eip155_Sender, modern_Sender, arbitrum_Sender, eip155_SignatureValues, modern_SignatureValues, arbitrum_SignatureValues.

Section Signing.
Context {HS : Hasher} {C : Crypto}.

(** The transaction that [setSignatureValues] returns, when it does not panic. *)
Ltac signature_set :=
  cbn [setSignatureValues]; unfold set_setCode_signature; try case_match; cbn [mbind option_bind]; intros [= <-];
  unfold set_legacy_signature, set_accessList_signature, set_dynamicFee_signature, set_blob_signature.

Lemma sigHash_set c c' v r s d d' : setSignatureValues c' v r s d = Some d' -> sigHash c d' = sigHash c d.
Proof. destruct d; signature_set; reflexivity. Qed.

Lemma frontier_hash_set c v r s d d' : setSignatureValues c v r s d = Some d' -> frontier_hash d' = frontier_hash d.
Proof. destruct d; signature_set; reflexivity. Qed.

Lemma type_set c v r s d d' : setSignatureValues c v r s d = Some d' ->
  txType d' = txType d /\ is_arb d' = is_arb d /\ is_legacy d' = is_legacy d.
Proof. destruct d; signature_set; done. Qed.

Lemma raw_set c v r s d d' : is_arb d = false -> is_u256 v -> is_u256 r -> is_u256 s ->
  setSignatureValues c v r s d = Some d' -> rawSignatureValues d' = (v, r, s).
Proof.
  intros Ha Hv Hr Hs. destruct d; try discriminate Ha; signature_set; tx_methods; simpl; try done;
    unfold u256; by rewrite !Z.mod_small by (unfold is_u256 in *; lia).
Qed.

Lemma legacy_set c v r s d d' : is_legacy d = true -> setSignatureValues c v r s d = Some d' ->
  rawSignatureValues d' = (v, r, s) /\ is_legacy d' = true /\ Protected d' = isProtectedV v /\ chainID d' = deriveChainId v.
Proof. destruct d; try done. by intros _ [= <-]. Qed.

Lemma chainID_set c v r s d d' : is_arb d = false -> is_legacy d = false -> 0 <= c < two256 ->
  setSignatureValues c v r s d = Some d' -> chainID d' = c.
Proof.
  intros Ha Hl Hc. destruct d; try discriminate; signature_set; tx_methods; simpl; try done.
  unfold u256. by rewrite Z.mod_small.
Qed.

Lemma set_some c v r s d : 0 <= c < two256 -> exists d', setSignatureValues c v r s d = Some d'.
Proof.
  intros Hc. destruct d; simpl; try by eexists. unfold set_setCode_signature. destruct (Z.leb_spec two256 c); [lia|]. by eexists.
Qed.

(** A signature of the library, read by [decodeSignature], is one that recovers the key. *)
Lemma Sign_decode {CL : CryptoLaws C} h k sig : Sign h k = Some sig -> exists r s v,
  decodeSignature sig = Some (r, s, v + 27) /\ sig !! 64%nat = Some v /\ (v = 0 \/ v = 1)
  /\ 1 <= r < secp256k1N /\ 1 <= s <= secp256k1halfN
  /\ (forall hs, recoverPlain h r s (v + 27) hs = Ok (PubkeyToAddress k))
  /\ recover_address h (be_bytes 32 r ++ be_bytes 32 s ++ [v]) = Ok (PubkeyToAddress k).
Proof.
  intros E. destruct (Sign_shape _ _ _ E) as (r & s & v & -> & Hr & Hs & Hv). exists r, s, v.
  pose proof secp_bounds as (_ & Hb & Hb2 & _). remember secp256k1halfN as hN eqn:HhN. remember secp256k1N as N eqn:HN.
  assert (recover_address h (be_bytes 32 r ++ be_bytes 32 s ++ [v]) = Ok (PubkeyToAddress k)) as Hrec.
  { unfold recover_address. rewrite (Sign_recover _ _ _ E). unfold PubkeyToAddress.
    destruct (pubkey_uncompressed k) as [p ->]. done. }
  split_and!; try done; try lia.
  - unfold decodeSignature, SignatureLength.
    rewrite !len_app. unfold len at 1 2. rewrite !be_bytes_length. cbn [negb len length Z.of_nat Nat.add Z.eqb]. simpl (negb _).
    rewrite take_app_length' by by rewrite be_bytes_length. rewrite drop_app_length' by by rewrite be_bytes_length.
    rewrite take_app_length' by by rewrite be_bytes_length.
    rewrite !be_value_bytes. rewrite !lookup_app_r by (rewrite ?be_bytes_length; lia). rewrite !be_bytes_length. simpl (default _ _).
    change (256 ^ Z.of_nat 32) with two256. rewrite !(Z.mod_small _ two256), Z.mod_small by lia. done.
  - intros hs. unfold recoverPlain.
    destruct (Z.ltb_spec 8 (BitLen (v + 27))) as [H|_]; [destruct Hv as [-> | ->]; by vm_compute in H|].
    cbv zeta. assert ((u64 (Z.abs (v + 27)) - 27) mod 256 = v) as -> by (destruct Hv as [-> | ->]; by vm_compute).
    rewrite (proj2 (Validate_spec v r s hs)); [done|]. rewrite <- HhN, <- HN. repeat split; lia || done.
Qed.

Lemma eip155_sender c c0 d r sv v d' A : 0 < c -> is_legacy d = true -> v = 0 \/ v = 1 ->
  recoverPlain (sigHash c d) r sv (v + 27) true = A ->
  setSignatureValues c0 ((v + 35) mod 256 + c * 2) r sv d = Some d' ->
  signer_Sender (EIP155Signer c) d' = A.
Proof.
  intros Hc Hl Hv Hrec E.
  assert ((v + 35) mod 256 + c * 2 = v + 35 + 2 * c) as HV by (rewrite Z.mod_small; lia). rewrite HV in E.
  destruct (eip155_v c v Hc Hv) as [Hp Hd]. rewrite <- (sigHash_set c _ _ _ _ _ _ E) in Hrec.
  destruct (legacy_set _ _ _ _ _ _ Hl E) as (Eraw & El & Ep & Ec). signer_methods.
  rewrite is_legacy_type, El, Ep, Hp, Ec, Hd, Z.eqb_refl, Eraw. cbn [negb].
  by replace (v + 35 + 2 * c - c * 2 - 8) with (v + 27) by lia.
Qed.

Lemma modern_sender types c legacy d r sv v d' A : 0 < c < two256 -> is_arb d = false -> is_legacy d = false ->
  txtypeSet_has (txType d) types = true -> is_u256 r -> is_u256 sv -> is_u256 v ->
  recoverPlain (sigHash c d) r sv (v + 27) true = A ->
  setSignatureValues c v r sv d = Some d' -> signer_Sender (modernSigner types c legacy) d' = A.
Proof.
  intros Hc Ha Hl Ht Hr Hs Hv Hrec E. destruct (type_set _ _ _ _ _ _ E) as (Et & Ea & El).
  rewrite <- (sigHash_set c _ _ _ _ _ _ E) in Hrec. signer_methods.
  rewrite is_legacy_type, Et, Ht, El, Hl, (chainID_set c v r sv d d') by (done || lia).
  by rewrite Z.eqb_refl, (raw_set c v r sv d d').
Qed.

Lemma eip155_values c d sig r sv w v : 0 < c -> is_legacy d = true -> decodeSignature sig = Some (r, sv, w) ->
  sig !! 64%nat = Some v ->
  SignatureValues (EIP155Signer c) d sig = Some (Ok (r, sv, (v + 35) mod 256 + c * 2)).
Proof.
  intros Hc Hl Ed E64. signer_methods. rewrite is_legacy_type, Hl, Ed, E64. simpl.
  by rewrite (proj2 (Z.eqb_neq c 0)) by lia.
Qed.

Lemma modern_legacy types c legacy d sig : txtypeSet_has (txType d) types = true -> is_legacy d = true ->
  SignatureValues (modernSigner types c legacy) d sig = SignatureValues legacy d sig
  /\ signer_Sender (modernSigner types c legacy) d = signer_Sender legacy d.
Proof. intros Ht El. signer_methods. by rewrite Ht, is_legacy_type, El. Qed.

Lemma arbitrum_ethereum s d sig : is_arb d = false ->
  SignatureValues (arbitrumSigner s) d sig = SignatureValues s d sig
  /\ signer_Sender (arbitrumSigner s) d = signer_Sender s d.
Proof. by destruct d. Qed.

(** What the sender of a signed transaction is asked for. *)
Lemma signed_sender {CL : CryptoLaws C} s d k sig : wf_signer s -> signable s d -> Sign (signer_Hash s d) k = Some sig ->
  exists r sv v d', SignatureValues s d sig = Some (Ok (r, sv, v))
    /\ setSignatureValues (default 0 (signer_ChainID s)) v r sv d = Some d'
    /\ signer_Sender s d' = Ok (PubkeyToAddress k).
Proof.
  intros Hwf Hs E. destruct (Sign_decode _ _ _ E) as (r & sv & v & Ed & E64 & Hv & Hr & Hsv & Hrec & _).
  pose proof secp_bounds as (_ & Hb & Hb2 & _).
  assert (is_u256 r /\ is_u256 sv /\ is_u256 v) as (Hr' & Hsv' & Hv').
  { remember secp256k1halfN as hN eqn:HhN. remember secp256k1N as N eqn:HN. unfold is_u256. lia. }
  clear E Hr Hsv Hb Hb2. exists r, sv.
  revert d Hs Hwf Hrec. induction s as [| |c|types c legacy IH|s IH]; intros d Hs Hwf Hrec; simpl in Hs, Hrec.
  - destruct d; try done. exists (v + 27). eexists. cbn. rewrite Ed. split; [reflexivity|]. split; [reflexivity|]. exact (Hrec false).
  - destruct d; try done. exists (v + 27). eexists. cbn. rewrite Ed. split; [reflexivity|]. split; [reflexivity|]. exact (Hrec true).
  - simpl in Hwf. destruct d as [tx| | | | | | | | | | |]; try done. eexists _, _.
    split; [exact (eip155_values c (Legacy tx) sig _ _ _ _ Hwf eq_refl Ed E64)|]. split; [reflexivity|].
    exact (eip155_sender c c (Legacy tx) r sv v _ _ Hwf eq_refl Hv (Hrec true) eq_refl).
  - destruct Hwf as [Hc ->], Hs as (Ht & Ha & Hid). destruct (is_legacy d) eqn:El.
    + destruct (set_some c ((v + 35) mod 256 + c * 2) r sv d ltac:(lia)) as [d' E']. eexists _, d'.
      destruct (type_set _ _ _ _ _ _ E') as (Et & _ & El').
      split; [rewrite (proj1 (modern_legacy _ _ _ _ _ Ht El)); exact (eip155_values c d sig _ _ _ _ (proj1 Hc) El Ed E64)|].
      split; [exact E'|]. rewrite <- Et in Ht. rewrite El in El'. rewrite (proj2 (modern_legacy _ _ _ _ [] Ht El')).
      exact (eip155_sender c c d r sv v d' _ (proj1 Hc) El Hv (Hrec true) E').
    + destruct (set_some c v r sv d ltac:(lia)) as [d' E']. exists v, d'. cbn [SignatureValues]; unfold modern_SignatureValues. rewrite Ht, is_legacy_type, El, Ed, E64.
      assert (negb (chainID d =? 0) && negb (chainID d =? c) = false) as ->.
      { destruct Hid as [|[-> | ->]]; [done| |]; rewrite Z.eqb_refl; [done|apply andb_false_r]. }
      split; [done|]. split; [exact E'|].
      exact (modern_sender types c _ d r sv v d' _ Hc Ha El Ht Hr' Hsv' Hv' (Hrec true) E').
  - destruct (is_arb d) eqn:Ea.
    2:{ assert (signable s d /\ forall hs, recoverPlain (signer_Hash s d) r sv (v + 27) hs = Ok (PubkeyToAddress k)) as [Hs' Hrec'].
        { split; [by destruct d; try done; destruct Hs|]. by destruct d. }
        destruct (IH _ Hs' Hwf Hrec') as (v' & d' & Ev & Es & Hd).
        exists v', d'. rewrite (proj1 (arbitrum_ethereum _ _ _ Ea)). split; [exact Ev|]. split; [exact Es|].
        destruct (type_set _ _ _ _ _ _ Es) as (_ & Ea' & _). rewrite Ea in Ea'. by rewrite (proj2 (arbitrum_ethereum _ _ [] Ea')). }
    destruct d as [| | | | | | | | | | |tx]; try done; try (by destruct Hs).
    destruct Hs as [Hn Hs]. destruct (IH _ Hs Hwf Hrec) as (v' & d' & Ev & Es & Hd). injection Es as <-.
    exists v'. eexists. split; [exact Ev|]. split; [reflexivity|]. simpl. rewrite Hn. exact Hd.
Qed.

(** ** Acceptance *)

Lemma recoverPlain_valid h r s v hs a : recoverPlain h r s v hs = Ok a ->
  1 <= r < secp256k1N /\ 1 <= s < secp256k1N /\ (hs = true -> s <= secp256k1halfN).
Proof.
  unfold recoverPlain. destruct (8 <? BitLen v); [done|]. cbv zeta.
  destruct (ValidateSignatureValues _ r s hs) eqn:E; [|done]. apply Validate_spec in E. tauto.
Qed.

Lemma plain_low_s d a : plain_sender true d = Ok a -> low_s d.
Proof.
  unfold plain_sender, low_s. destruct (negb _); [done|]. destruct (rawSignatureValues d) as [[v r] s].
  intros H%recoverPlain_valid. destruct H as (? & ? & H). specialize (H eq_refl). lia.
Qed.

Lemma accepted_low_s s d a : homestead_rules s -> is_arb d = false -> signer_Sender s d = Ok a -> low_s d.
Proof.
  induction s as [| |c|types c legacy IH|s IH]; intros Hh Ha; signer_methods.
  - done.
  - apply plain_low_s.
  - destruct (negb (txType d =? _)); [done|]. destruct (negb (Protected d)); [apply plain_low_s|].
    destruct (negb (chainID d =? c)); [done|]. unfold low_s. destruct (rawSignatureValues d) as [[v r] s].
    intros H%recoverPlain_valid. destruct H as (? & ? & H). specialize (H eq_refl). lia.
  - destruct (negb (txtypeSet_has _ _)); [done|]. destruct (txType d =? _); [exact (IH Hh Ha)|].
    destruct (negb (chainID d =? c)); [done|]. unfold low_s. destruct (rawSignatureValues d) as [[v r] s].
    intros H%recoverPlain_valid. destruct H as (? & ? & H). specialize (H eq_refl). lia.
  - pose proof (proj2 (arbitrum_ethereum s d [] Ha)) as E. cbn [signer_Sender] in E; unfold arbitrum_Sender in E. rewrite E. exact (IH Hh Ha).
Qed.

(** A signer with a chain id accepts the transactions of that chain and legacy ones
    without replay protection. *)
Lemma accepted_chain s c d a : wf_signer s -> signer_ChainID s = Some c -> is_arb d = false ->
  signer_Sender s d = Ok a -> chainID d = c \/ is_legacy d = true /\ Protected d = false.
Proof.
  induction s as [| |c'|types c' legacy IH|s IH]; intros Hwf Hc Ha; signer_methods.
  - done.
  - done.
  - injection Hc as ->. rewrite is_legacy_type. destruct (is_legacy d) eqn:El; [|done]. simpl.
    destruct (Protected d); [|by right]. destruct (Z.eqb_spec (chainID d) c); [by left|done].
  - destruct Hwf as [Hb ->]. injection Hc as ->. destruct (negb _); [done|]. destruct (txType d =? _).
    + apply IH; simpl; [lia|done|done].
    + destruct (Z.eqb_spec (chainID d) c); [by left|done].
  - pose proof (proj2 (arbitrum_ethereum s d [] Ha)) as E. cbn [signer_Sender] in E; unfold arbitrum_Sender in E. rewrite E. exact (IH Hwf Hc Ha).
Qed.

Lemma legacy_values s c d sig r sv v : wf_signer s -> signer_ChainID s = Some c -> is_legacy d = true ->
  SignatureValues s d sig = Some (Ok (r, sv, v)) -> 0 < c /\ v = (default 0 (sig !! 64%nat) + 35) mod 256 + c * 2.
Proof.
  induction s as [| |c'|types c' legacy IH|s IH]; intros Hwf Hc Hl; signer_methods.
  - done.
  - done.
  - injection Hc as ->. rewrite is_legacy_type, Hl. simpl. simpl in Hwf. rewrite (proj2 (Z.eqb_neq c 0)) by lia.
    destruct (decodeSignature sig) as [[[r' s'] v']|]; [|done]. by intros [= <- <- <-].
  - destruct Hwf as [Hb ->]. injection Hc as ->. rewrite is_legacy_type, Hl. destruct (negb _); [done|].
    apply IH; simpl; [lia|done|done].
  - destruct d; try done. apply IH; done.
Qed.

Lemma signed_protected {CL : CryptoLaws C} s c d h k sig r sv v c0 d' : wf_signer s -> signer_ChainID s = Some c ->
  Sign h k = Some sig -> SignatureValues s d sig = Some (Ok (r, sv, v)) -> setSignatureValues c0 v r sv d = Some d' ->
  Protected d' = true.
Proof.
  intros Hwf Hc E Ev Es. destruct (is_legacy d) eqn:El.
  - destruct (legacy_values _ _ _ _ _ _ _ Hwf Hc El Ev) as [Hpos ->].
    destruct (Sign_decode _ _ _ E) as (? & ? & v0 & _ & E64 & Hv & _). rewrite E64 in Es. simpl in Es.
    destruct (legacy_set _ _ _ _ _ _ El Es) as (_ & _ & -> & _). rewrite Z.mod_small by lia.
    replace (v0 + 35 + c * 2) with (v0 + 35 + 2 * c) by lia. by apply eip155_v.
  - destruct (type_set _ _ _ _ _ _ Es) as (_ & _ & El'). rewrite El in El'. by destruct d'.
Qed.

(** ** Signing and recovering *)

Lemma SignTx_signed {CL : CryptoLaws C} s tx k : wf_signer s -> signable s (inner tx) ->
  Sign (signer_Hash s (inner tx)) k <> None ->
  exists d', SignTx tx s k = Some (Ok (NewTx d')) /\ signer_Sender s d' = Ok (PubkeyToAddress k)
    /\ (exists c v r sv, setSignatureValues c v r sv (inner tx) = Some d')
    /\ (is_Some (signer_ChainID s) -> Protected d' = true).
Proof.
  intros Hwf Hs Hk. destruct (Sign _ k) as [sig|] eqn:E; [|done].
  destruct (signed_sender s _ k sig Hwf Hs E) as (r & sv & v & d' & Ev & Es & Ea). exists d'.
  unfold SignTx, WithSignature. rewrite E, Ev. simpl. rewrite Es. simpl. split; [done|]. split; [exact Ea|].
  split; [by exists (default 0 (signer_ChainID s)), v, r, sv|].
  intros [c Hc]. exact (signed_protected s c _ _ _ _ _ _ _ _ _ Hwf Hc E Ev Es).
Qed.

Lemma unsigned_set c0 c v r s d d' : setSignatureValues c v r s d = Some d' ->
  unsigned c0 d' = unsigned c0 d /\ BlobTxSidecar_ d' = BlobTxSidecar_ d.
Proof. destruct d; signature_set; done. Qed.

(** C22. A signed transaction comes from the owner of the key: signing with any of the signers of the chain a
    transaction they support succeeds, the sender recovered from the result is the address of the key, and nothing
    but the signature and the chain id of the transaction has changed. *)
Theorem signed_transaction_sender {CL : CryptoLaws C} s tx k : wf_signer s -> signable s (inner tx) ->
  Sign (signer_Hash s (inner tx)) k <> None ->
  exists tx', SignTx tx s k = Some (Ok tx') /\ fst (Sender s tx') = Ok (PubkeyToAddress k)
    /\ unsigned 0 (inner tx') = unsigned 0 (inner tx) /\ BlobTxSidecar_ (inner tx') = BlobTxSidecar_ (inner tx).
Proof.
  intros Hwf Hs Hk. destruct (SignTx_signed s tx k Hwf Hs Hk) as (d' & E & Ea & (c & v & r & sv & Es) & _).
  exists (NewTx d'). split; [done|]. split; [unfold Sender, compute_sender; simpl; by rewrite Ea|].
  exact (unsigned_set 0 _ _ _ _ _ _ Es).
Qed.

(** C23. A transaction signed for one chain is rejected on every other: a signer with another chain id returns an
    error for what the signer of a chain has signed. *)
Theorem replay_protection {CL : CryptoLaws C} s s' c c' tx k : wf_signer s -> wf_signer s' ->
  signer_ChainID s = Some c -> signer_ChainID s' = Some c' -> c <> c' ->
  is_arb (inner tx) = false -> signable s (inner tx) -> Sign (signer_Hash s (inner tx)) k <> None ->
  exists tx', SignTx tx s k = Some (Ok tx') /\ exists e, fst (Sender s' tx') = Err e.
Proof.
  intros Hwf Hwf' Hc Hc' Hne Ha Hs Hk. destruct (SignTx_signed s tx k Hwf Hs Hk) as (d' & E & Ea & (c0 & v & r & sv & Es) & Hp).
  exists (NewTx d'). split; [done|]. destruct (type_set _ _ _ _ _ _ Es) as (_ & Ha' & _). rewrite Ha in Ha'.
  specialize (Hp ltac:(by eexists)). unfold Sender, compute_sender. simpl.
  destruct (signer_Sender s' d') as [a|e] eqn:E'; [exfalso|by exists e].
  pose proof (accepted_chain s c d' _ Hwf Hc Ha' Ea) as H. pose proof (accepted_chain s' c' d' _ Hwf' Hc' Ha' E') as H'.
  rewrite Hp in H, H'. destruct H as [H|[_ H]]; [|done]. destruct H' as [H'|[_ H']]; [|done]. congruence.
Qed.

(** Signatures are not malleable since Homestead: an accepted transaction has [1 <= R < N] and [1 <= S <= N/2], and
    the transaction with the other root [N - S] of its signature is rejected, whatever its [V] and [R]. *)
Theorem signature_not_malleable s d a v r sv : homestead_rules s -> is_arb d = false -> signer_Sender s d = Ok a ->
  rawSignatureValues d = (v, r, sv) ->
  1 <= r < secp256k1N /\ 1 <= sv <= secp256k1halfN
  /\ (forall c v' r' d', is_u256 v' -> is_u256 r' -> setSignatureValues c v' r' (secp256k1N - sv) d = Some d' ->
        exists e, signer_Sender s d' = Err e).
Proof.
  intros Hh Ha E Er. pose proof (accepted_low_s s d a Hh Ha E) as Hl. unfold low_s in Hl. rewrite Er in Hl.
  destruct Hl as [Hr Hs]. split; [done|]. split; [done|]. intros c v' r' d' Hv' Hr' Es.
  destruct (signer_Sender s d') as [a'|e] eqn:E'; [exfalso|by exists e].
  destruct (type_set _ _ _ _ _ _ Es) as (_ & Ha' & _). rewrite Ha in Ha'.
  pose proof (accepted_low_s s d' a' Hh Ha' E') as Hl'. pose proof secp_bounds as (H0 & H1 & H2 & H3).
  unfold low_s in Hl'. rewrite (raw_set c v' r' (secp256k1N - sv) d d') in Hl'; try done.
  - remember secp256k1halfN as hN. remember secp256k1N as N. lia.
  - remember secp256k1halfN as hN. remember secp256k1N as N. unfold is_u256. lia.
Qed.

(** ** The caches of a transaction *)

Lemma Equal_dir_eq sw s : forall s2, Equal_dir sw s s2 = true <-> s = s2.
Proof.
  revert sw. induction s as [| |c|types c legacy IH|s IH]; intros sw s2; destruct s2; simpl; try (split; [discriminate|by intros [=]]); try done.
  - rewrite Z.eqb_eq. split; [by intros ->|by intros [= ->]].
  - rewrite !andb_true_iff, Z.eqb_eq, bool_decide_eq_true, IH. split; [by intros [[-> ->] ->]|by intros [= -> -> ->]].
  - rewrite IH. split; [by intros ->|by intros [= ->]].
Qed.

Lemma Sender_sidecar s sc b : signer_Sender s (Blob (BlobTx.set_sidecar sc b)) = signer_Sender s (Blob b).
Proof. induction s as [| |c|types c legacy IH|s IH]; [done..| |exact IH]. by destruct b. Qed.

Lemma computed_hash_sidecar sc b : computed_hash (Blob (BlobTx.set_sidecar sc b)) = computed_hash (Blob b).
Proof. cbn [computed_hash inner_rlp txType]. by rewrite Encode_set_sidecar. Qed.

(** The life of a transaction: how it comes to be, the methods that fill its caches
    or carry them over to a copy, and decoding into it before its hash and sender were asked for. *)
Inductive tx_history : Transaction -> Prop :=
| history_new d : tx_history (NewTx d)
| history_unmarshalled tx0 b tx : tx_history tx0 -> tx_hash tx0 = None -> from tx0 = None ->
    UnmarshalBinary tx0 b = Ok tx -> tx_history tx
| history_decoded tx0 s tx s' : tx_history tx0 -> tx_hash tx0 = None -> from tx0 = None ->
    DecodeRLP tx0 s = (Ok tx, s') -> tx_history tx
| history_signed tx s sig tx' : tx_history tx -> WithSignature tx s sig = Some (Ok tx') -> tx_history tx'
| history_hash tx : tx_history tx -> tx_history (snd (Hash tx))
| history_size tx : tx_history tx -> tx_history (snd (Size tx))
| history_sender tx s : tx_history tx -> tx_history (snd (Sender s tx))
| history_units tx level units : tx_history tx -> tx_history (SetCachedCalldataUnits level units tx)
| history_without tx : tx_history tx -> tx_history (WithoutBlobTxSidecar tx)
| history_with tx sc : tx_history tx -> tx_history (WithBlobTxSidecar sc tx).

Definition caches_ok (tx : Transaction) : Prop :=
  (forall h, tx_hash tx = Some h -> h = computed_hash (inner tx))
  /\ (forall s a, from tx = Some (s, a) -> signer_Sender s (inner tx) = Ok a).

Lemma Sender_ok s tx : caches_ok tx ->
  fst (Sender s tx) = signer_Sender s (inner tx) /\ caches_ok (snd (Sender s tx)) /\ inner (snd (Sender s tx)) = inner tx.
Proof.
  intros [Hh Hf].
  assert (fst (compute_sender s tx) = signer_Sender s (inner tx) /\ caches_ok (snd (compute_sender s tx))
    /\ inner (snd (compute_sender s tx)) = inner tx) as Hc.
  { unfold compute_sender. destruct (signer_Sender s (inner tx)) as [a|e] eqn:E; simpl; [|by repeat split].
    split; [done|]. split; [split; [exact Hh|]|done]. simpl. intros ? ? [= <- <-]. exact E. }
  unfold Sender. destruct (from tx) as [[c a]|] eqn:Ef; [|exact Hc]. destruct (Equal c s) eqn:Eq; [|exact Hc].
  apply Equal_dir_eq in Eq as ->. simpl. rewrite (Hf _ _ eq_refl). split; [done|]. split; [split; [done|]|done]. by rewrite Ef.
Qed.

Lemma Hash_ok tx : caches_ok tx ->
  fst (Hash tx) = computed_hash (inner tx) /\ caches_ok (snd (Hash tx)) /\ inner (snd (Hash tx)) = inner tx.
Proof.
  intros [Hh Hf]. unfold Hash. destruct (tx_hash tx) as [h|] eqn:E; simpl; [split; [by apply Hh|]; split; [split; [by rewrite E|done]|done]|].
  split; [done|]. split; [split; [by intros ? [= <-]|exact Hf]|done].
Qed.

Lemma sidecar_caches_ok sc b units h size f : caches_ok (mkTransaction (Blob b) units h size f) ->
  forall size' units', caches_ok (mkTransaction (Blob (BlobTx.set_sidecar sc b)) units' h size' f).
Proof.
  intros [Hh Hf] size' units'. split; cbn [tx_hash inner from]; intros.
  - rewrite computed_hash_sidecar. by apply Hh.
  - rewrite Sender_sidecar. by apply Hf.
Qed.

Lemma setDecoded_caches_ok tx d size : tx_hash tx = None -> from tx = None -> caches_ok (setDecoded tx d size).
Proof. intros Hh Hf. split; cbn [setDecoded tx_hash from]; rewrite ?Hh, ?Hf; by intros. Qed.

Lemma history_caches_ok tx : tx_history tx -> caches_ok tx.
Proof.
  induction 1 as [d|tx0 b tx _ _ Hh Hf E|tx0 st tx st' _ _ Hh Hf E|tx s sig tx' _ _ E|tx _ IH|tx _ IH|tx s _ IH|tx l u _ IH|tx _ IH|tx sc _ IH].
  - by apply setDecoded_caches_ok.
  - unfold UnmarshalBinary in E. destruct b as [|b0 b]; [|destruct (_ <? _)];
      apply result_bind_Ok in E as (d & _ & [= <-]); by apply setDecoded_caches_ok.
  - unfold DecodeRLP in E. destruct (stream_Kind st) as [[[[| |] n]|] s1]; try discriminate E.
    + destruct (_ <? _); [discriminate E|]. destruct (ReadBytes n s1) as [[b|] s2]; [|discriminate E].
      injection E as E _. apply result_bind_Ok in E as (d & _ & [= <-]). by apply setDecoded_caches_ok.
    + destruct (decode_val _ s1) as [[v|] s2]; [|discriminate E]. injection E as <- _. by apply setDecoded_caches_ok.
  - unfold WithSignature in E. destruct (SignatureValues s _ sig) as [[[[r sv] v]|e]|]; simpl in E; [|discriminate E..].
    destruct (setSignatureValues _ v r sv _) as [d|]; simpl in E; [|discriminate E]. injection E as <-.
    split; simpl; [by intros ? [=]|by intros ? ? [=]].
  - exact (proj1 (proj2 (Hash_ok tx IH))).
  - unfold Size. destruct (0 <? tx_size tx); [exact IH|]. exact IH.
  - exact (proj1 (proj2 (Sender_ok s tx IH))).
  - exact IH.
  - unfold WithoutBlobTxSidecar. destruct tx as [d units h size f]. simpl. destruct d as [| | |b| | | | | | | |]; try exact IH.
    destruct (BlobTx.Sidecar b); [|exact IH]. exact (sidecar_caches_ok None _ _ _ _ _ IH _ _).
  - unfold WithBlobTxSidecar. destruct tx as [d units h size f]. simpl. destruct d as [| | |b| | | | | | | |]; try exact IH.
    exact (sidecar_caches_ok (Some sc) _ _ _ _ _ IH _ _).
Qed.

(** C24. The caches of a transaction never change an answer, unless it is decoded into after they were filled: whatever
    was asked of it before and in whichever order, also through copies with and without sidecar and under other signers,
    its sender is the one the signer recovers from its content and its hash is the hash of its content.  Decoding into a
    transaction is part of the histories as long as its hash and sender have not been asked for; after that the code
    keeps the old ones (Example [redecoded_is_stale]). *)
Theorem caches_are_coherent s tx : tx_history tx ->
  fst (Sender s tx) = signer_Sender s (inner tx) /\ fst (Hash tx) = computed_hash (inner tx)
  /\ inner (snd (Sender s tx)) = inner tx /\ inner (snd (Hash tx)) = inner tx.
Proof.
  intros H%history_caches_ok. destruct (Sender_ok s tx H) as (? & _ & ?), (Hash_ok tx H) as (? & _ & ?). done.
Qed.

(** [setDecoded] does not clear the caches: decoding a transaction into one whose hash and sender were asked for
    before leaves those of the old content. *)
Lemma redecoded_keeps_caches tx b tx' : UnmarshalBinary tx b = Ok tx' -> tx_hash tx' = tx_hash tx /\ from tx' = from tx.
Proof.
  unfold UnmarshalBinary. destruct b as [|b0 b]; [|destruct (_ <? _)]; intros (d & _ & [= <-])%result_bind_Ok; done.
Qed.

(** ** Authorizations *)

(** A signed authorization names its signer: [SignSetCode] keeps the chain id, the address and the nonce, and the
    authority recovered from the result is the address of the key. *)
Theorem authority_is_signer {CL : CryptoLaws C} k auth : Sign (auth_SigHash auth) k <> None ->
  exists auth', SignSetCode k auth = Some (Ok auth') /\ auth_Authority auth' = Ok (PubkeyToAddress k)
    /\ auth_ChainID auth' = auth_ChainID auth /\ auth_Address auth' = auth_Address auth /\ auth_Nonce auth' = auth_Nonce auth.
Proof.
  intros Hk. unfold SignSetCode. destruct (Sign _ k) as [sig|] eqn:E; [|done].
  destruct (Sign_decode _ _ _ E) as (r & s & v & Ed & E64 & Hv & Hr & Hs & _ & Hrec). rewrite Ed. simpl. rewrite E64. simpl.
  eexists. split; [done|]. split; [|done]. unfold auth_Authority. cbn [auth_V auth_R auth_S].
  rewrite (proj2 (Validate_spec v r s true)); [exact Hrec|]. pose proof secp_bounds as (H0 & H1 & _).
  remember secp256k1halfN as hN. remember secp256k1N as N. repeat split; lia || done.
Qed.

End Signing.

(** ** The signers of a configuration *)

Lemma modern_wf id fork : 0 < id < two256 -> fork_number SpuriousDragon <= fork_number fork ->
  wf_signer (newModernSigner (Some id) fork) /\ homestead_rules (newModernSigner (Some id) fork)
  /\ signer_ChainID (newModernSigner (Some id) fork) = Some id.
Proof.
  intros Hid Hf. unfold newModernSigner. cbv zeta. rewrite (proj2 (Z.leb_le (fork_number SpuriousDragon) _) Hf).
  simpl. done.
Qed.

Lemma MakeSigner_wf config num time version id : cfg_ChainID config = Some id -> 0 < id < two256 ->
  wf_signer (MakeSigner config num time version).
Proof.
  intros E Hid. unfold MakeSigner. rewrite E. destruct (Config.IsArbitrum config); simpl; repeat case_match;
    try (apply modern_wf; [done|by vm_compute]); simpl; lia || done.
Qed.

Lemma LatestSigner_wf config : (forall id, cfg_ChainID config = Some id -> 0 < id < two256) -> wf_signer (LatestSigner config).
Proof.
  intros Hid. unfold LatestSigner, latestSignerImpl. simpl. destruct (cfg_ChainID config) as [id|]; [|done].
  specialize (Hid id eq_refl). repeat case_match; try (apply modern_wf; [done|by vm_compute]); simpl; lia || done.
Qed.

Lemma LatestSignerForChainID_wf id : 0 < id < two256 -> wf_signer (LatestSignerForChainID (Some id)).
Proof. intros H. by apply modern_wf. Qed.

(** ** A concrete signature scheme

    Nothing is secret: the key is read off [R] and the hash. *)

Definition toy_pub (k : Z) : list Z := 4 :: be_bytes 32 (k mod (secp256k1N - 1)).

#[local] Instance toy_crypto : Crypto := {|
  PrivateKey := Z;
  Sign h k := Some (be_bytes 32 (1 + (k + h) mod (secp256k1N - 1)) ++ be_bytes 32 1 ++ [0]);
  Ecrecover h sig := Some (toy_pub (be_value (take 32 sig) - 1 - h));
  FromECDSAPub k := toy_pub k
|}.

#[local] Instance toy_laws : CryptoLaws toy_crypto.
Proof.
  pose proof secp_bounds as (H0 & H1 & H2 & _). split.
  - intros h k sig E. cbn [Sign toy_crypto] in E. apply (inj Some) in E as <-. exists (1 + (k + h) mod (secp256k1N - 1)), 1, 0.
    pose proof (Z.mod_pos_bound (k + h) (secp256k1N - 1)) as Hm.
    remember secp256k1halfN as hN. remember secp256k1N as N. repeat split; try lia.
  - intros h k sig E. cbn [Sign toy_crypto] in E. apply (inj Some) in E as <-. cbn [Ecrecover FromECDSAPub toy_crypto]. unfold toy_pub.
    rewrite take_app_length' by by rewrite be_bytes_length. rewrite be_value_bytes.
    change (256 ^ Z.of_nat 32) with two256. pose proof (Z.mod_pos_bound (k + h) (secp256k1N - 1)) as Hm.
    remember secp256k1halfN as hN. remember secp256k1N as N. rewrite (Z.mod_small (1 + _) two256) by lia.
    do 3 f_equal. replace (1 + (k + h) mod (N - 1) - 1 - h) with ((k + h) mod (N - 1) - h) by lia.
    rewrite Zminus_mod_idemp_l. f_equal. lia.
  - intros k. by eexists.
Qed.

#[local] Instance toy_hasher : Hasher := {| keccak256 l := foldl (fun h b => (h * 31 + b) mod two256) 7 l |}.

Definition toy_key : @PrivateKey toy_crypto := 1234.

Definition sample_new_tx : Transaction :=
  NewTx (DynamicFee (DynamicFeeTx.mk 0 7 1 100 21000 (Some 0x64) 5 [1; 2] [] 0 0 0)).

(** Arbitrum One, and Ethereum for the replay. *)
Definition arbitrum_signer : Signer := LatestSignerForChainID (Some 42161).
Definition ethereum_signer : Signer := NewPragueSigner (Some 1).

Lemma sample_signable : wf_signer arbitrum_signer /\ signable arbitrum_signer (inner sample_new_tx)
  /\ Sign (signer_Hash arbitrum_signer (inner sample_new_tx)) toy_key <> None.
Proof.
  split; [by apply LatestSignerForChainID_wf|]. split; [|done]. simpl. split; [done|]. split; [by vm_compute|]. split; [done|]. by right; left.
Qed.

Lemma signed_transaction_sender_witness : exists tx', SignTx sample_new_tx arbitrum_signer toy_key = Some (Ok tx')
  /\ fst (Sender arbitrum_signer tx') = Ok (PubkeyToAddress toy_key).
Proof.
  destruct (signed_transaction_sender arbitrum_signer sample_new_tx toy_key (proj1 sample_signable)
    (proj1 (proj2 sample_signable)) (proj2 (proj2 sample_signable))) as (tx' & E & Ea & _).
  exists tx'. split; [exact E|exact Ea].
Defined.

Lemma replay_protection_witness : exists tx', SignTx sample_new_tx arbitrum_signer toy_key = Some (Ok tx')
  /\ exists e, fst (Sender ethereum_signer tx') = Err e.
Proof.
  apply (replay_protection arbitrum_signer ethereum_signer 42161 1 sample_new_tx toy_key); [apply sample_signable| |done..| |apply sample_signable|done].
  - by apply modern_wf.
  - apply sample_signable.
Defined.

Lemma signature_not_malleable_witness : exists d a, signer_Sender arbitrum_signer d = Ok a /\ chainID d = 42161
  /\ (forall d', setSignatureValues 42161 1 5 (secp256k1N - 1) d = Some d' -> exists e, signer_Sender arbitrum_signer d' = Err e).
Proof.
  destruct (SignTx sample_new_tx arbitrum_signer toy_key) as [[tx|]|] eqn:E; [|vm_compute in E; discriminate E..].
  assert (is_arb (inner tx) = false /\ chainID (inner tx) = 42161 /\ (exists v r, rawSignatureValues (inner tx) = (v, r, 1))
    /\ exists a, signer_Sender arbitrum_signer (inner tx) = Ok a) as (Ha & Hc & (v & r & Er) & a & Ea).
  { vm_compute in E. injection E as <-. split; [done|]. split; [done|]. split; [by eexists _, _|]. by eexists; vm_compute. }
  exists (inner tx), a. split; [exact Ea|]. split; [exact Hc|].
  refine (fun d' => proj2 (proj2 (signature_not_malleable arbitrum_signer (inner tx) a v r 1 _ Ha Ea Er)) 42161 1 5 d' _ _); by vm_compute.
Defined.

Lemma caches_are_coherent_witness : let tx := snd (Hash (snd (Sender arbitrum_signer sample_new_tx))) in
  fst (Sender ethereum_signer tx) = signer_Sender ethereum_signer (inner tx) /\ fst (Hash tx) = computed_hash (inner tx).
Proof.
  intros tx. assert (tx_history tx) as H by (apply history_hash, history_sender, history_new).
  destruct (caches_are_coherent ethereum_signer tx H) as (Hs & Hh & _). split; [exact Hs|exact Hh].
Defined.

(** A signed transaction whose hash and sender were asked for, and the encoding of another one decoded into it: the
    hash is still that of the first, and the sender is found although the content is for another chain and unsigned. *)
Example redecoded_is_stale : exists tx b tx', SignTx sample_new_tx arbitrum_signer toy_key = Some (Ok tx)
  /\ let used := snd (Hash (snd (Sender arbitrum_signer tx))) in
     MarshalBinary sample_new_tx = Some (Ok b) /\ UnmarshalBinary used b = Ok tx'
     /\ inner tx' = inner sample_new_tx
     /\ fst (Hash tx') = computed_hash (inner tx) /\ fst (Hash tx') <> computed_hash (inner tx')
     /\ fst (Sender arbitrum_signer tx') = Ok (PubkeyToAddress toy_key)
     /\ signer_Sender arbitrum_signer (inner tx') = Err (ErrInvalidChainId 0 42161).
Proof.
  eexists _, _, _. split; [by vm_compute|]. cbv zeta. split; [by vm_compute|]. split; [by vm_compute|].
  split; [by vm_compute|]. split; [by vm_compute|]. split; [by vm_compute|]. split; by vm_compute.
Qed.

Lemma authority_is_signer_witness : exists auth', SignSetCode toy_key (mkSetCodeAuthorization 42161 0x64 3 0 0 0) = Some (Ok auth')
  /\ auth_Authority auth' = Ok (PubkeyToAddress toy_key).
Proof.
  destruct (authority_is_signer toy_key (mkSetCodeAuthorization 42161 0x64 3 0 0 0) ltac:(done)) as (auth' & E & Ea & _).
  exists auth'. split; [exact E|exact Ea].
Defined.

(** With a chain id of zero, which is what [NewEIP155Signer] makes of nil, the signature covers the fields of EIP-155
    and the sender is recovered from the hash without them. *)
Example zero_chain_id_signer : exists tx, SignTx (NewTx (Legacy (LegacyTx.mk 7 1 21000 None 5 [] 0 0 0))) (NewEIP155Signer None) toy_key = Some (Ok tx)
  /\ exists a, fst (Sender (NewEIP155Signer None) tx) = Ok a /\ a <> PubkeyToAddress toy_key.
Proof. eexists. split; [by vm_compute|]. eexists. split; [by vm_compute|]. by vm_compute. Qed.
