(* ===== verification/Messages.v ===== *)
(** Messages from transactions: [TransactionToMessage] of [core/state_transition.go], and
    the recovered authority of an authorization as what the state transition asks for. *)

From stdpp Require Import base gmap list numbers option strings.
From S2P Require Import State.
From S2P Require Import Prelude Params Uint256 VmCore TxTypes StateTransition.
From S2P Require Import Transaction TxEncoding Signers SignerTheorems.
Open Scope Z_scope.
Open Scope go_scope.

Section Messages.
Context {HS : Hasher} {C : Crypto}.

#[global] Instance recovered_authority : Signatures := fun auth =>
  match auth_Authority auth with Ok a => Some a | Err _ => None end.

(** The price of the message: the fee cap is the pointer that is compared with. *)
Definition message_price (d : TxData) (baseFee : option Z) : Z :=
  match baseFee with
  | None => gasPrice d
  | Some baseFee =>
      let price := gasTipCap d + baseFee in
      if gasFeeCap d <? price then gasFeeCap d else price
  end.

(** The message comes back with the error too. *)
Definition TransactionToMessage (tx : Transaction) (s : Signer) (baseFee : option Z) (runCtx : MessageRunContext)
  : Message * option txError * Transaction :=
  let d := inner tx in
  let '(sender, tx) := Sender s tx in
  (mkMessage runCtx (to d) (match sender with Ok a => a | Err _ => 0 end) (nonce d) (value d) (gas d)
     (message_price d baseFee) (Some (gasFeeCap d)) (Some (gasTipCap d)) (data d) (accessList d) (Transaction.BlobGasFeeCap d)
     (BlobHashes d) (authorizations d) (skipNonceChecks d) (skipTransactionChecks d) false,
   match sender with Ok _ => None | Err e => Some e end, tx).

(** The transaction types whose price is not settled between bidders: Arbitrum's own,
    apart from the legacy ones. *)
Definition has_fees (d : TxData) : bool :=
  match d with
  | Legacy _ | AccessListed _ | DynamicFee _ | Blob _ | SetCode _ | ArbLegacy _ => true
  | _ => false
  end.

Lemma message_price_bound d baseFee : message_price d (Some baseFee) <= gasFeeCap d
  /\ message_price d (Some baseFee) <= gasTipCap d + baseFee.
Proof. unfold message_price. destruct (Z.ltb_spec (gasFeeCap d) (gasTipCap d + baseFee)); lia. Qed.

Lemma message_price_effective d baseFee : has_fees d = true -> 0 <= baseFee ->
  message_price d (Some baseFee) = effectiveGasPrice d (Some baseFee).
Proof.
  intros Hf Hb. unfold message_price.
  destruct d; try discriminate Hf; tx_methods; unfold tip_price; repeat match goal with |- context [?a <? ?b] => destruct (Z.ltb_spec a b) end; lia.
Qed.

(** The message of a transaction is the transaction: it comes with no error exactly when the signer recovers a
    sender, which is then its sender, its price is never above the fee cap nor above the tip and the base fee, and is
    the effective price of the transaction, whether the fee cap covers the base fee or not. *)
Theorem message_of_transaction tx s baseFee runCtx : tx_history tx -> 0 <= baseFee -> has_fees (inner tx) = true ->
  let '(msg, err, tx') := TransactionToMessage tx s (Some baseFee) runCtx in
  match signer_Sender s (inner tx) with
  | Ok a => err = None /\ msg_From msg = a
  | Err e => err = Some e
  end
  /\ GasPrice msg <= gasFeeCap (inner tx) /\ GasPrice msg <= gasTipCap (inner tx) + baseFee
  /\ GasPrice msg = effectiveGasPrice (inner tx) (Some baseFee)
  /\ inner tx' = inner tx.
Proof.
  intros H%history_caches_ok Hb Hf. destruct (Sender_ok s tx H) as (Ef & _ & Ei). unfold TransactionToMessage.
  destruct (Sender s tx) as [sender tx']. simpl in Ef, Ei. subst sender.
  pose proof (message_price_bound (inner tx) baseFee) as [H1 H2].
  pose proof (message_price_effective (inner tx) baseFee Hf Hb) as H3.
  split; [by destruct (signer_Sender s (inner tx))|done].
Qed.

End Messages.

#[local] Instance toy_crypto : Crypto := {|
  PrivateKey := unit; Sign h k := None; Ecrecover h sig := Some (4 :: sig); FromECDSAPub k := [4] |}.
#[local] Instance toy_hasher : Hasher := {| keccak256 l := Rlp.len l |}.

Lemma message_of_transaction_witness :
  GasPrice (fst (fst (TransactionToMessage (NewTx sample_tx) (NewPragueSigner (Some 42161)) (Some 60)
    (mkMessageRunContext messageCommitMode 1 [])))) = 61.
Proof.
  pose proof (message_of_transaction (NewTx sample_tx) (NewPragueSigner (Some 42161)) 60
    (mkMessageRunContext messageCommitMode 1 []) (history_new _) ltac:(by vm_compute) eq_refl) as H.
  destruct (TransactionToMessage _ _ _ _) as [[msg err] tx']. simpl.
  destruct H as (_ & _ & _ & Hp & _). rewrite Hp. by vm_compute.
Defined.
