(* ===== verification/Blake2.v ===== *)
(** The compression function of BLAKE2b, [crypto/blake2b], as RFC 7693 defines it and as
    the portable code computes it.

    The sixteen words of the working vector are a list; the code keeps them in sixteen
    variables. *)

From stdpp Require Import base list numbers sets.
From S2P Require Import Prelude.
Open Scope Z_scope.

Definition iv : list Z :=
  [0x6a09e667f3bcc908; 0xbb67ae8584caa73b; 0x3c6ef372fe94f82b; 0xa54ff53a5f1d36f1;
   0x510e527fade682d1; 0x9b05688c2b3e6c1f; 0x1f83d9abfb41bd6b; 0x5be0cd19137e2179].

Definition precomputed : list (list nat) :=
  [[0; 2; 4; 6; 1; 3; 5; 7; 8; 10; 12; 14; 9; 11; 13; 15];
   [14; 4; 9; 13; 10; 8; 15; 6; 1; 0; 11; 5; 12; 2; 7; 3];
   [11; 12; 5; 15; 8; 0; 2; 13; 10; 3; 7; 9; 14; 6; 1; 4];
   [7; 3; 13; 11; 9; 1; 12; 14; 2; 5; 4; 15; 6; 10; 0; 8];
   [9; 5; 2; 10; 0; 7; 4; 15; 14; 11; 6; 3; 1; 12; 8; 13];
   [2; 6; 0; 8; 12; 10; 11; 3; 4; 7; 15; 1; 13; 5; 14; 9];
   [12; 1; 14; 4; 5; 15; 13; 10; 0; 6; 9; 8; 7; 3; 2; 11];
   [13; 7; 12; 3; 11; 14; 1; 9; 5; 15; 8; 2; 0; 4; 6; 10];
   [6; 14; 11; 0; 15; 9; 3; 8; 12; 13; 1; 10; 2; 7; 4; 5];
   [10; 8; 7; 1; 2; 4; 6; 5; 15; 9; 3; 13; 11; 14; 12; 0]]%nat.

Definition word (v : list Z) (i : nat) : Z := default 0 (v !! i).

(** [bits.RotateLeft64] *)
Definition RotateLeft64 (x k : Z) : Z :=
  let s := k mod 64 in Z.lor (u64 (Z.shiftl x s)) (Z.shiftr x (64 - s)).

(** The four words that a step changes. *)
Record quad := mkQuad { qa : nat; qb : nat; qc : nat; qd : nat }.

Definition put4 (q : quad) (w : Z * Z * Z * Z) (v : list Z) : list Z :=
  let '(a, b, c, d) := w in <[qa q := a]> (<[qb q := b]> (<[qc q := c]> (<[qd q := d]> v))).

(** Seven statements of the loop, on the variables [a], [b], [c] and [d]; they all come in
    this form, with the rotations 32 and 24 or 16 and 63. *)
Definition half_values (q : quad) (r1 r2 x : Z) (v : list Z) : Z * Z * Z * Z :=
  let a := u64 (word v (qa q) + x) in
  let a := u64 (a + word v (qb q)) in
  let d := Z.lxor (word v (qd q)) a in
  let d := RotateLeft64 d (- r1) in
  let c := u64 (word v (qc q) + d) in
  let b := Z.lxor (word v (qb q)) c in
  let b := RotateLeft64 b (- r2) in
  (a, b, c, d).
Definition half (q : quad) (r1 r2 x : Z) (v : list Z) : list Z := put4 q (half_values q r1 r2 x v) v.

Definition col0 := mkQuad 0 4 8 12.
Definition col1 := mkQuad 1 5 9 13.
Definition col2 := mkQuad 2 6 10 14.
Definition col3 := mkQuad 3 7 11 15.
Definition diag0 := mkQuad 0 5 10 15.
Definition diag1 := mkQuad 1 6 11 12.
Definition diag2 := mkQuad 2 7 8 13.
Definition diag3 := mkQuad 3 4 9 14.

(** One round of the loop: the halves of the four columns, then of the four diagonals. *)
Definition round_halves (q0 q1 q2 q3 : quad) (m : nat -> Z) (j : nat) (v : list Z) : list Z :=
  let v := half q0 32 24 (m j) v in
  let v := half q1 32 24 (m (j + 1)%nat) v in
  let v := half q2 32 24 (m (j + 2)%nat) v in
  let v := half q3 32 24 (m (j + 3)%nat) v in
  let v := half q0 16 63 (m (j + 4)%nat) v in
  let v := half q1 16 63 (m (j + 5)%nat) v in
  let v := half q2 16 63 (m (j + 6)%nat) v in
  half q3 16 63 (m (j + 7)%nat) v.

Definition round (m : list Z) (i : nat) (v : list Z) : list Z :=
  let s := default [] (precomputed !! (i mod 10)%nat) in
  let ms j := word m (default 0%nat (s !! j)) in
  round_halves diag0 diag1 diag2 diag3 ms 8 (round_halves col0 col1 col2 col3 ms 0 v).

(** The loop from the round [i] on. *)
Fixpoint rounds_from (body : nat -> list Z -> list Z) (i n : nat) (v : list Z) : list Z :=
  match n with
  | O => v
  | S n => rounds_from body (S i) n (body i v)
  end.

(** The vector before the rounds, and what is added to the state after them. *)
Definition start_vector (h : list Z) (c0 c1 flag : Z) : list Z :=
  h ++ [word iv 0; word iv 1; word iv 2; word iv 3; Z.lxor (word iv 4) c0; Z.lxor (word iv 5) c1;
    Z.lxor (word iv 6) flag; word iv 7].
Definition fold_state (h v : list Z) : list Z :=
  map (fun i => Z.lxor (word h i) (Z.lxor (word v i) (word v (i + 8)%nat))) (seq 0 8).

Definition fGeneric (h m : list Z) (c0 c1 flag : Z) (rounds : Z) : list Z :=
  fold_state h (rounds_from (round m) 0 (Z.to_nat rounds) (start_vector h c0 c1 flag)).

Definition F (h m : list Z) (c : Z * Z) (final : bool) (rounds : Z) : list Z :=
  fGeneric h m c.1 c.2 (if final then 0xFFFFFFFFFFFFFFFF else 0) rounds.

(** ** RFC 7693 *)

Module Rfc.
Definition SIGMA : list (list nat) :=
  [[0; 1; 2; 3; 4; 5; 6; 7; 8; 9; 10; 11; 12; 13; 14; 15];
   [14; 10; 4; 8; 9; 15; 13; 6; 1; 12; 0; 2; 11; 7; 5; 3];
   [11; 8; 12; 0; 5; 2; 15; 13; 10; 14; 3; 6; 7; 1; 9; 4];
   [7; 9; 3; 1; 13; 12; 11; 14; 2; 6; 5; 10; 4; 0; 15; 8];
   [9; 0; 5; 7; 2; 4; 10; 15; 14; 1; 11; 12; 6; 8; 3; 13];
   [2; 12; 6; 10; 0; 11; 8; 3; 4; 13; 7; 5; 15; 14; 1; 9];
   [12; 5; 1; 15; 14; 13; 4; 10; 0; 7; 6; 3; 9; 2; 8; 11];
   [13; 11; 7; 14; 12; 1; 3; 9; 5; 0; 15; 4; 8; 6; 2; 10];
   [6; 15; 14; 9; 11; 3; 0; 8; 12; 2; 13; 7; 1; 4; 10; 5];
   [10; 2; 8; 4; 7; 6; 1; 5; 15; 11; 9; 14; 3; 12; 13; 0]]%nat.

(** Rotation to the right of a word. *)
Definition rotr (x k : Z) : Z := Z.lor (Z.shiftr x k) (Z.shiftl x (64 - k) mod 2 ^ 64).

(** Section 3.1, the mixing function, on two words of the message. *)
Definition G (a b c d : nat) (x y : Z) (v : list Z) : list Z :=
  let v := <[a := (word v a + word v b + x) mod 2 ^ 64]> v in
  let v := <[d := rotr (Z.lxor (word v d) (word v a)) 32]> v in
  let v := <[c := (word v c + word v d) mod 2 ^ 64]> v in
  let v := <[b := rotr (Z.lxor (word v b) (word v c)) 24]> v in
  let v := <[a := (word v a + word v b + y) mod 2 ^ 64]> v in
  let v := <[d := rotr (Z.lxor (word v d) (word v a)) 16]> v in
  let v := <[c := (word v c + word v d) mod 2 ^ 64]> v in
  <[b := rotr (Z.lxor (word v b) (word v c)) 63]> v.

(** Section 3.2, one round. *)
Definition mix (m : list Z) (s : list nat) (v : list Z) : list Z :=
  let ms j := word m (default 0%nat (s !! j)) in
  let v := G 0 4 8 12 (ms 0%nat) (ms 1%nat) v in
  let v := G 1 5 9 13 (ms 2%nat) (ms 3%nat) v in
  let v := G 2 6 10 14 (ms 4%nat) (ms 5%nat) v in
  let v := G 3 7 11 15 (ms 6%nat) (ms 7%nat) v in
  let v := G 0 5 10 15 (ms 8%nat) (ms 9%nat) v in
  let v := G 1 6 11 12 (ms 10%nat) (ms 11%nat) v in
  let v := G 2 7 8 13 (ms 12%nat) (ms 13%nat) v in
  G 3 4 9 14 (ms 14%nat) (ms 15%nat) v.

(** The compression of a block [m] into the state [h] at the offset [t]. *)
Definition F (h m : list Z) (t : Z) (final : bool) (rounds : nat) : list Z :=
  let v := h ++ iv in
  let v := <[12%nat := Z.lxor (word v 12) (t mod 2 ^ 64)]> v in
  let v := <[13%nat := Z.lxor (word v 13) (t / 2 ^ 64)]> v in
  let v := if final then <[14%nat := Z.lxor (word v 14) (2 ^ 64 - 1)]> v else v in
  let v := foldl (fun v i => mix m (default [] (SIGMA !! (i mod 10)%nat)) v) v (seq 0 rounds) in
  map (fun i => Z.lxor (Z.lxor (word h i) (word v i)) (word v (i + 8)%nat)) (seq 0 8).
End Rfc.

(** ** The code computes the function of the RFC *)

Definition indices (q : quad) : list nat := [qa q; qb q; qc q; qd q].
Definition apart (p q : quad) : Prop := forall i, i ∈ indices p -> i ∉ indices q.

Lemma word_insert_ne v i j x : i <> j -> word (<[i := x]> v) j = word v j.
Proof. intros H. unfold word. by rewrite list_lookup_insert_ne. Qed.
Lemma word_insert v i x : (i < length v)%nat -> word (<[i := x]> v) i = x.
Proof. intros H. unfold word. by rewrite list_lookup_insert_eq. Qed.

Lemma put4_length q w v : length (put4 q w v) = length v.
Proof. destruct w as [[[??]?]?]. simpl. by rewrite !length_insert. Qed.

Lemma word_put4_ne q w v j : j ∉ indices q -> word (put4 q w v) j = word v j.
Proof.
  destruct w as [[[??]?]?]. unfold indices. intros H. simpl. rewrite !not_elem_of_cons in H.
  destruct H as (? & ? & ? & ? & _). by rewrite !word_insert_ne by done.
Qed.

Lemma half_values_put4 p q r1 r2 x w v : apart p q -> half_values p r1 r2 x (put4 q w v) = half_values p r1 r2 x v.
Proof.
  intros H. unfold half_values. rewrite !word_put4_ne; [done|..]; apply H; unfold indices; set_solver.
Qed.

Lemma insert_put4 q w v i x : i ∉ indices q -> <[i := x]> (put4 q w v) = put4 q w (<[i := x]> v).
Proof.
  destruct w as [[[??]?]?]. unfold indices. rewrite !not_elem_of_cons. intros (? & ? & ? & ? & _). simpl.
  rewrite (list_insert_insert_ne _ i (qa q)) by done. rewrite (list_insert_insert_ne _ i (qb q)) by done.
  rewrite (list_insert_insert_ne _ i (qc q)) by done. by rewrite (list_insert_insert_ne _ i (qd q)) by done.
Qed.

(** Steps on different words commute. *)
Lemma half_comm p q r1 r2 x s1 s2 y v : apart p q -> apart q p ->
  half p r1 r2 x (half q s1 s2 y v) = half q s1 s2 y (half p r1 r2 x v).
Proof.
  intros H1 H2. unfold half. rewrite !half_values_put4 by done. generalize (half_values p r1 r2 x v), (half_values q s1 s2 y v).
  intros [[[a b] c] d] w. simpl. rewrite !insert_put4; [done|..]; apply H1; unfold indices; set_solver.
Qed.

Definition both (q : quad) (x y : Z) (v : list Z) : list Z := half q 16 63 y (half q 32 24 x v).

Definition all_apart (q0 q1 q2 q3 : quad) : Prop :=
  (apart q0 q1 /\ apart q1 q0) /\ (apart q0 q2 /\ apart q2 q0) /\ (apart q0 q3 /\ apart q3 q0)
  /\ (apart q1 q2 /\ apart q2 q1) /\ (apart q1 q3 /\ apart q3 q1) /\ (apart q2 q3 /\ apart q3 q2).

(** The halves of four columns are interleaved in the code. *)
Lemma round_halves_both q0 q1 q2 q3 m j v : all_apart q0 q1 q2 q3 ->
  round_halves q0 q1 q2 q3 m j v =
  both q3 (m (j + 3)%nat) (m (j + 7)%nat) (both q2 (m (j + 2)%nat) (m (j + 6)%nat)
    (both q1 (m (j + 1)%nat) (m (j + 5)%nat) (both q0 (m j) (m (j + 4)%nat) v))).
Proof.
  intros ([??] & [??] & [??] & [??] & [??] & [??]). unfold round_halves, both.
  rewrite (half_comm q0 q3), (half_comm q0 q2), (half_comm q0 q1) by done.
  rewrite (half_comm q1 q3), (half_comm q1 q2) by done. by rewrite (half_comm q2 q3) by done.
Qed.

Lemma rotate_rotr x k : 0 < k < 64 -> RotateLeft64 x (- k) = Rfc.rotr x k.
Proof.
  intros H. unfold RotateLeft64, Rfc.rotr, u64. replace (- k mod 64) with (64 - k).
  - rewrite Z.lor_comm. by replace (64 - (64 - k)) with k by lia.
  - replace (- k) with (64 - k + (-1) * 64) by lia. rewrite Z.mod_add by lia. by rewrite Z.mod_small by lia.
Qed.

Lemma add_three a b x : u64 (u64 (a + x) + b) = (a + b + x) mod 2 ^ 64.
Proof. unfold u64. change 18446744073709551616 with (2 ^ 64). rewrite Zplus_mod_idemp_l. f_equal. lia. Qed.

(** A half of the mixing function, in the order of the RFC. *)
Definition half_rfc (q : quad) (r1 r2 x : Z) (v : list Z) : list Z :=
  let '(mkQuad a b c d) := q in
  let v := <[a := (word v a + word v b + x) mod 2 ^ 64]> v in
  let v := <[d := Rfc.rotr (Z.lxor (word v d) (word v a)) r1]> v in
  let v := <[c := (word v c + word v d) mod 2 ^ 64]> v in
  <[b := Rfc.rotr (Z.lxor (word v b) (word v c)) r2]> v.

Definition quads : list quad := [col0; col1; col2; col3; diag0; diag1; diag2; diag3].

Lemma sixteen (v : list Z) : length v = 16%nat -> exists x0 x1 x2 x3 x4 x5 x6 x7 x8 x9 x10 x11 x12 x13 x14 x15,
  v = [x0; x1; x2; x3; x4; x5; x6; x7; x8; x9; x10; x11; x12; x13; x14; x15].
Proof. intros H. do 16 (destruct v as [|? v]; [discriminate H|]). destruct v; [|discriminate H]. by repeat eexists. Qed.

Lemma half_half_rfc q r1 r2 x v : length v = 16%nat -> q ∈ quads -> 0 < r1 < 64 -> 0 < r2 < 64 ->
  half q r1 r2 x v = half_rfc q r1 r2 x v.
Proof.
  intros (x0 & x1 & x2 & x3 & x4 & x5 & x6 & x7 & x8 & x9 & x10 & x11 & x12 & x13 & x14 & x15 & ->)%sixteen Hq H1 H2.
  unfold half, half_values. rewrite !rotate_rotr, !add_three by done. change (u64 ?x) with (x mod 2 ^ 64).
  unfold quads in Hq. rewrite !elem_of_cons in Hq.
  repeat (destruct Hq as [-> | Hq]; [reflexivity|]). by apply elem_of_nil in Hq.
Qed.

Lemma half_length q r1 r2 x v : length (half q r1 r2 x v) = length v.
Proof. apply put4_length. Qed.
Lemma both_length q x y v : length (both q x y v) = length v.
Proof. unfold both. by rewrite !half_length. Qed.

Lemma both_G q x y v : length v = 16%nat -> q ∈ quads -> both q x y v = Rfc.G (qa q) (qb q) (qc q) (qd q) x y v.
Proof.
  intros Hl Hq. unfold both. rewrite (half_half_rfc q 32 24 x v) by done.
  rewrite half_half_rfc; [by destruct q| |done..].
  rewrite <- half_half_rfc by done. by rewrite half_length.
Qed.

Lemma quads_apart : all_apart col0 col1 col2 col3 /\ all_apart diag0 diag1 diag2 diag3.
Proof.
  unfold all_apart, apart. split_and!; intros i Hi; unfold indices in *; simpl in *; set_unfold; lia.
Qed.

(** The position of a word of the schedule in that of the RFC. *)
Definition perm (j : nat) : nat := default 0%nat ([0; 2; 4; 6; 1; 3; 5; 7; 8; 10; 12; 14; 9; 11; 13; 15]%nat !! j).

Lemma schedule i j : (i < 10)%nat -> (j < 16)%nat ->
  default 0%nat (default [] (precomputed !! i) !! j) = default 0%nat (default [] (Rfc.SIGMA !! i) !! perm j).
Proof.
  intros Hi Hj. do 10 (destruct i as [|i]; [do 16 (destruct j as [|j]; [reflexivity|]); lia|]). lia.
Qed.

Lemma quads_in : Forall (fun q => q ∈ quads) quads.
Proof. by apply Forall_forall. Qed.

Lemma round_both (ms ms' : nat -> Z) v : (forall j, (j < 16)%nat -> ms j = ms' (perm j)) -> length v = 16%nat ->
  round_halves diag0 diag1 diag2 diag3 ms 8 (round_halves col0 col1 col2 col3 ms 0 v) =
  Rfc.G 3 4 9 14 (ms' 14%nat) (ms' 15%nat) (Rfc.G 2 7 8 13 (ms' 12%nat) (ms' 13%nat)
    (Rfc.G 1 6 11 12 (ms' 10%nat) (ms' 11%nat) (Rfc.G 0 5 10 15 (ms' 8%nat) (ms' 9%nat)
    (Rfc.G 3 7 11 15 (ms' 6%nat) (ms' 7%nat) (Rfc.G 2 6 10 14 (ms' 4%nat) (ms' 5%nat)
    (Rfc.G 1 5 9 13 (ms' 2%nat) (ms' 3%nat) (Rfc.G 0 4 8 12 (ms' 0%nat) (ms' 1%nat) v))))))).
Proof.
  intros Hms Hl. destruct quads_apart as [Hc Hd]. rewrite !round_halves_both by done.
  pose proof quads_in as Hq. unfold quads in Hq at 2. rewrite !Forall_cons in Hq. destruct_and! Hq.
  rewrite !both_G by (rewrite ?both_length; done). by rewrite !Hms by lia.
Qed.

Lemma round_mix m i v : length v = 16%nat ->
  round m i v = Rfc.mix m (default [] (Rfc.SIGMA !! (i mod 10)%nat)) v.
Proof.
  intros Hl. unfold round, Rfc.mix.
  apply (round_both _ (fun j => word m (default 0%nat (default [] (Rfc.SIGMA !! (i mod 10)%nat) !! j)))); [|done].
  intros j Hj. rewrite schedule; [done| |done]. by apply Nat.mod_upper_bound.
Qed.

Lemma G_length a b c d x y v : length (Rfc.G a b c d x y v) = length v.
Proof. unfold Rfc.G. by rewrite !length_insert. Qed.
Lemma mix_length m s v : length (Rfc.mix m s v) = length v.
Proof. unfold Rfc.mix. by rewrite !G_length. Qed.

Lemma rounds_foldl (f : nat -> list Z -> list Z) (g : list Z -> nat -> list Z) n :
  (forall i v, length v = 16%nat -> f i v = g v i /\ length (g v i) = 16%nat) ->
  forall i v, length v = 16%nat -> rounds_from f i n v = foldl g v (seq i n).
Proof.
  intros H. induction n as [|n IH]; intros i v Hl; [done|]. destruct (H i v Hl) as [E Hg].
  simpl. rewrite E. by apply IH.
Qed.

Lemma rounds_mix m n i v : length v = 16%nat ->
  rounds_from (round m) i n v = foldl (fun v i => Rfc.mix m (default [] (Rfc.SIGMA !! (i mod 10)%nat)) v) v (seq i n).
Proof.
  apply rounds_foldl. intros k w Hw. split; [by apply round_mix|]. by rewrite mix_length.
Qed.

(** C14. The compression function of BLAKE2b, whose loop interleaves the halves of the mixing function and reads the
    message through a permuted schedule, computes the function of RFC 7693 for every state, block, offset, number of
    rounds and final flag. *)
Theorem blake2b_is_rfc7693 h m c0 c1 final rounds : length h = 8%nat -> is_u64 c0 -> is_u64 c1 ->
  F h m (c0, c1) final rounds = Rfc.F h m (c0 + c1 * 2 ^ 64) final (Z.to_nat rounds).
Proof.
  intros Hh H0 H1. unfold F, fGeneric, Rfc.F, fold_state.
  do 8 (destruct h as [|? h]; [discriminate Hh|]). destruct h; [|discriminate Hh].
  replace ((c0 + c1 * 2 ^ 64) mod 2 ^ 64) with c0 by (rewrite Z.mod_add by done; symmetry; by apply Z.mod_small).
  replace ((c0 + c1 * 2 ^ 64) / 2 ^ 64) with c1
    by (rewrite Z.div_add by done; rewrite (Z.div_small c0) by (unfold is_u64 in *; done); lia).
  rewrite rounds_mix by done.
  assert (forall b : bool, start_vector [z; z0; z1; z2; z3; z4; z5; z6] c0 c1 (if b then 0xFFFFFFFFFFFFFFFF else 0) =
    let v := [z; z0; z1; z2; z3; z4; z5; z6] ++ iv in
    let v := <[12%nat := Z.lxor (word v 12) c0]> v in
    let v := <[13%nat := Z.lxor (word v 13) c1]> v in
    if b then <[14%nat := Z.lxor (word v 14) (2 ^ 64 - 1)]> v else v) as -> by (by intros [|]).
  apply map_ext. intros i. by rewrite Z.lxor_assoc.
Qed.

(** The digest of [abc]: the state of an unkeyed hash of 64 bytes, and its only block. *)
Definition abc_state : list Z := <[0%nat := Z.lxor (word iv 0) 0x01010040]> iv.
Definition abc_block : list Z := 0x636261 :: replicate 15 0.

Example abc_digest : word (F abc_state abc_block (3, 0) true 12) 0 = 0x0d4d1c983fa580ba
  /\ word (F abc_state abc_block (3, 0) true 12) 7 = 0x239900d4ed8623b9.
Proof. vm_compute. split; reflexivity. Qed.

Lemma blake2b_is_rfc7693_witness : word (Rfc.F abc_state abc_block 3 true 12) 0 = 0x0d4d1c983fa580ba.
Proof.
  pose proof (blake2b_is_rfc7693 abc_state abc_block 3 0 true 12 eq_refl ltac:(done) ltac:(done)) as H.
  change (3 + 0 * 2 ^ 64) with 3 in H. change (Z.to_nat 12) with 12%nat in H. rewrite <- H. by vm_compute.
Defined.
