(* ===== verification/Precompiles.v ===== *)
(** The precompiled contracts of Ethereum: [core/vm/contracts.go], with the prices of
    [params/protocol_params.go].

    A contract is a price and a run, where [None] is a panic: indexing and slicing are
    checked against the length of the slice, as if no slice had spare capacity.  The hash
    functions and the curves are parameters, class [Libraries]; the compression function of
    BLAKE2b is modelled.  The tables of an Arbitrum chain are filled by the node. *)

From stdpp Require Import base gmap list numbers option strings.
From S2P Require Import State.
From S2P Require Import Prelude Params Uint256 VmCore Evm Interpreter TxTypes StateTransition Blake2 RlpValues.
From S2P Require Import Transaction Signers.
Import U256(be_value, be_bytes).
Open Scope Z_scope.
Open Scope go_scope.

(** ** Prices *)


Definition Bls12381G1MultiExpDiscountTable : list Z :=
  [1000; 949; 848; 797; 764; 750; 738; 728; 719; 712; 705; 698; 692; 687; 682; 677; 673; 669; 665; 661; 658; 654;
   651; 648; 645; 642; 640; 637; 635; 632; 630; 627; 625; 623; 621; 619; 617; 615; 613; 611; 609; 608; 606; 604;
   603; 601; 599; 598; 596; 595; 593; 592; 591; 589; 588; 586; 585; 584; 582; 581; 580; 579; 577; 576; 575; 574;
   573; 572; 570; 569; 568; 567; 566; 565; 564; 563; 562; 561; 560; 559; 558; 557; 556; 555; 554; 553; 552; 551;
   550; 549; 548; 547; 547; 546; 545; 544; 543; 542; 541; 540; 540; 539; 538; 537; 536; 536; 535; 534; 533; 532;
   532; 531; 530; 529; 528; 528; 527; 526; 525; 525; 524; 523; 522; 522; 521; 520; 520; 519].

Definition Bls12381G2MultiExpDiscountTable : list Z :=
  [1000; 1000; 923; 884; 855; 832; 812; 796; 782; 770; 759; 749; 740; 732; 724; 717; 711; 704; 699; 693; 688;
   683; 679; 674; 670; 666; 663; 659; 655; 652; 649; 646; 643; 640; 637; 634; 632; 629; 627; 624; 622; 620; 618;
   615; 613; 611; 609; 607; 606; 604; 602; 600; 598; 597; 595; 593; 592; 590; 589; 587; 586; 584; 583; 582; 580;
   579; 578; 576; 575; 574; 573; 571; 570; 569; 568; 567; 566; 565; 563; 562; 561; 560; 559; 558; 557; 556; 555;
   554; 553; 552; 552; 551; 550; 549; 548; 547; 546; 545; 545; 544; 543; 542; 541; 541; 540; 539; 538; 537; 537;
   536; 535; 535; 534; 533; 532; 532; 531; 530; 530; 529; 528; 528; 527; 526; 526; 525; 524; 524].

(** ** The libraries *)

(** The points of the two curves and their operations; a point that is not on the curve
    or not encoded properly is not read.  [Exp] is the exponentiation of big integers. *)
Class Libraries := {
  sha256 : list Z -> list Z;
  ripemd160 : list Z -> list Z;
  Exp : Z -> Z -> Z -> Z;
  bn_G1 : Type;
  bn_G2 : Type;
  bn_UnmarshalG1 : list Z -> option bn_G1;
  bn_UnmarshalG2 : list Z -> option bn_G2;
  bn_Add : bn_G1 -> bn_G1 -> bn_G1;
  bn_ScalarMult : bn_G1 -> Z -> bn_G1;
  bn_Marshal : bn_G1 -> list Z;
  bn_PairingCheck : list bn_G1 -> list bn_G2 -> bool;
  fp : Type;
  fp_Element : list Z -> option fp;
  fp_PutElement : fp -> list Z;
  G1_IsOnCurve : fp * fp -> bool;
  G1_IsInSubGroup : fp * fp -> bool;
  G1_Add : fp * fp -> fp * fp -> fp * fp;
  G1_MultiExp : list (fp * fp) -> list Z -> fp * fp;
  G2_IsOnCurve : (fp * fp) * (fp * fp) -> bool;
  G2_IsInSubGroup : (fp * fp) * (fp * fp) -> bool;
  G2_Add : (fp * fp) * (fp * fp) -> (fp * fp) * (fp * fp) -> (fp * fp) * (fp * fp);
  G2_MultiExp : list ((fp * fp) * (fp * fp)) -> list Z -> (fp * fp) * (fp * fp);
  bls_PairingCheck : list (fp * fp) -> list ((fp * fp) * (fp * fp)) -> option bool;
  MapToG1 : fp -> fp * fp;
  MapToG2 : fp * fp -> (fp * fp) * (fp * fp);
  kzg_VerifyProof : list Z -> list Z -> list Z -> list Z -> bool;
  secp256r1_Verify : list Z -> Z -> Z -> Z -> Z -> bool
}.

Inductive precompileError :=
| ErrModexpTooLong
| ErrBn256Point
| errBadPairingInput
| errBlake2FInvalidInputLength
| errBlake2FInvalidFinalFlag
| errBLS12381InvalidInputLength
| errBLS12381InvalidFieldElementTopBytes
| ErrFieldElement
| ErrNotOnCurve
| errBLS12381G1PointSubgroup
| errBLS12381G2PointSubgroup
| errBlobVerifyInvalidInputLength
| errBlobVerifyMismatchedVersion
| errBlobVerifyKZGProof
| ErrPointLength
| ErrFieldElementLength.

Definition error_code (e : precompileError) : Z :=
  match e with
  | ErrModexpTooLong => 0 | ErrBn256Point => 1 | errBadPairingInput => 2 | errBlake2FInvalidInputLength => 3
  | errBlake2FInvalidFinalFlag => 4 | errBLS12381InvalidInputLength => 5 | errBLS12381InvalidFieldElementTopBytes => 6
  | ErrFieldElement => 7 | ErrNotOnCurve => 8 | errBLS12381G1PointSubgroup => 9 | errBLS12381G2PointSubgroup => 10
  | errBlobVerifyInvalidInputLength => 11 | errBlobVerifyMismatchedVersion => 12 | errBlobVerifyKZGProof => 13
  | ErrPointLength => 14 | ErrFieldElementLength => 15
  end.

(** ** Computations that panic or return an error *)

Definition PR (A : Type) : Type := option (result precompileError A).

Definition pr_ok {A} (a : A) : PR A := Some (Ok a).
Definition pr_err {A} (e : precompileError) : PR A := Some (Err e).
Definition pr_bind {A B} (m : PR A) (k : A -> PR B) : PR B :=
  match m with None => None | Some (Err e) => Some (Err e) | Some (Ok a) => k a end.
Notation "'let?' x := m 'in' k" := (pr_bind m (fun x => k))
  (at level 10, x name, m at level 100, k at level 200).
(** A step that may only panic. *)
Definition pr_some {A} (o : option A) : PR A := Ok <$> o.

(** What a run returns. *)
Definition output (r : PR (list Z)) : option (list Z * option vmError) :=
  match r with
  | None => None
  | Some (Ok b) => Some (b, None)
  | Some (Err e) => Some ([], Some (ErrOther (error_code e)))
  end.

Definition size (input : list Z) : Z := Z.of_nat (length input).

(** [s[a:b]], [s[i]] and [copy] of a slice into an array of [n] bytes. *)
Definition subslice (s : list Z) (a b : Z) : option (list Z) :=
  if (0 <=? a) && (a <=? b) && (b <=? size s) then Some (slice a b s) else None.
Definition at_index (s : list Z) (i : Z) : option Z := if 0 <=? i then s !! Z.to_nat i else None.
Definition copy_array (n : nat) (src : list Z) : list Z := take n src ++ replicate (n - length src) 0.

Definition LeftPadBytes (slice : list Z) (l : Z) : list Z :=
  if l <=? size slice then slice else replicate (Z.to_nat l - length slice) 0 ++ slice.

(** The price by the word. *)
Definition word_gas (perWord base : Z) (input : list Z) : Z := u64 (u64 ((size input + 31) / 32 * perWord) + base).

(** ** Multi-precision exponentiation: the price *)

(** [bits.Mul64] and [bits.Add64], with the carry first. *)
Definition Mul64 (x y : Z) : Z * Z := (x * y / two64, u64 (x * y)).
Definition Add64 (x y : Z) : Z * Z := (u64 (x + y), (x + y) / two64).

Definition byzantiumMultComplexity (x : Z) : Z :=
  if x <=? 64 then u64 (x * x)
  else if x <=? 1024 then u64 (u64 (u64 (x * x) / 4 + u64 (96 * x)) - 3072)
  else
    let '(carry, xSqr) := Mul64 x x in
    if negb (carry =? 0) then MaxUint64
    else
      let xSqr := Z.shiftr xSqr 4 in
      let x480 := u64 (x * 480) in
      let x480 := u64 (x480 - 199680) in
      let '(sum, carry) := Add64 xSqr x480 in
      if negb (carry =? 0) then MaxUint64 else sum.

Definition berlinMultComplexity (x : Z) : Z :=
  let '(x, carry) := Add64 x 7 in
  if negb (carry =? 0) then MaxUint64
  else
    let x := x / 8 in
    let '(carry, x) := Mul64 x x in
    if negb (carry =? 0) then MaxUint64 else x.

Definition osakaMultComplexity (x : Z) : Z :=
  if x <=? 32 then 16
  else
    let '(carry, result) := Mul64 (berlinMultComplexity x) 2 in
    if negb (carry =? 0) then MaxUint64 else result.

Definition modexpIterationCount (expLen expHead multiplier : Z) : Z :=
  let long :=
    if 32 <? expLen then
      let '(carry, count) := Mul64 (expLen - 32) multiplier in
      if 0 <? carry then None else Some count
    else Some 0 in
  match long with
  | None => MaxUint64
  | Some iterationCount =>
      let bitLen := RlpValues.BitLen expHead in
      if 0 <? bitLen then
        let '(count, carry) := Add64 iterationCount (bitLen - 1) in
        if 0 <? carry then MaxUint64 else Z.max count 1
      else Z.max iterationCount 1
  end.

(** The price of a complexity and a number of iterations. *)
Definition byzantiumModexpGas (baseLen expLen modLen expHead : Z) : Z :=
  let multComplexity := byzantiumMultComplexity (Z.max baseLen modLen) in
  if multComplexity =? MaxUint64 then MaxUint64
  else
    let '(carry, gas) := Mul64 (modexpIterationCount expLen expHead 8) multComplexity in
    let gas := gas / 20 in
    if negb (carry =? 0) then MaxUint64 else gas.

Definition berlinModexpGas (baseLen expLen modLen expHead : Z) : Z :=
  let multComplexity := berlinMultComplexity (Z.max baseLen modLen) in
  if multComplexity =? MaxUint64 then MaxUint64
  else
    let '(carry, gas) := Mul64 (modexpIterationCount expLen expHead 8) multComplexity in
    let gas := gas / 3 in
    if negb (carry =? 0) then MaxUint64 else Z.max gas 200.

Definition osakaModexpGas (baseLen expLen modLen expHead : Z) : Z :=
  let multComplexity := osakaMultComplexity (Z.max baseLen modLen) in
  if multComplexity =? MaxUint64 then MaxUint64
  else
    let '(carry, gas) := Mul64 (modexpIterationCount expLen expHead 16) multComplexity in
    if negb (carry =? 0) then MaxUint64 else Z.max gas 500.

Record bigModExp := mkBigModExp { eip2565 : bool; eip7823 : bool; eip7883 : bool }.

Definition capped (x : Z) : Z := if x <? two64 then x else MaxUint64.

Definition after_header (input : list Z) : option (list Z) :=
  if 96 <? size input then subslice input 96 (size input) else Some [].

Definition bigModExp_RequiredGas (c : bigModExp) (input : list Z) : option Z :=
  baseLenBytes ← getData input 0 32;
  expLenBytes ← getData input 32 32;
  modLenBytes ← getData input 64 32;
  let baseLen := capped (be_value baseLenBytes) in
  let expLen := capped (be_value expLenBytes) in
  let modLen := capped (be_value modLenBytes) in
  input ← after_header input;
  expHead ← (if baseLen <? size input then
               head ← getData input baseLen (if 32 <? expLen then 32 else expLen); Some (be_value head)
             else Some 0);
  Some (if eip7883 c then osakaModexpGas baseLen expLen modLen expHead
        else if eip2565 c then berlinModexpGas baseLen expLen modLen expHead
        else byzantiumModexpGas baseLen expLen modLen expHead).

(** ** The runs *)

Section Runs.
Context {LB : Libraries}.

(** [big.Int.Bytes] *)
Definition big_bytes (x : Z) : list Z := int_content x.

Definition bigModExp_Run (c : bigModExp) (input : list Z) : option (list Z * option vmError) :=
  baseLenBytes ← getData input 0 32;
  expLenBytes ← getData input 32 32;
  modLenBytes ← getData input 64 32;
  let baseLenBig := be_value baseLenBytes in
  let expLenBig := be_value expLenBytes in
  let modLenBig := be_value modLenBytes in
  let baseLen := u64 baseLenBig in
  let expLen := u64 expLenBig in
  let modLen := u64 modLenBig in
  let inputLenOverflow := 64 <? Z.max (Z.max (RlpValues.BitLen baseLenBig) (RlpValues.BitLen expLenBig)) (RlpValues.BitLen modLenBig) in
  input ← after_header input;
  if eip7823 c && (inputLenOverflow || (1024 <? Z.max (Z.max baseLen expLen) modLen)) then output (pr_err ErrModexpTooLong)
  else if (baseLen =? 0) && (modLen =? 0) then output (pr_ok [])
  else
    base ← getData input 0 baseLen;
    exp ← getData input baseLen expLen;
    mod_ ← getData input (u64 (baseLen + expLen)) modLen;
    let base := be_value base in
    let exp := be_value exp in
    let mod_ := be_value mod_ in
    if RlpValues.BitLen mod_ =? 0 then output (pr_ok (LeftPadBytes [] (to_int modLen)))
    else
      let v := if RlpValues.BitLen base =? 1 then big_bytes (base mod mod_) else big_bytes (Exp base exp mod_) in
      output (pr_ok (LeftPadBytes v (to_int modLen))).

Definition sha256hash_Run (input : list Z) := output (pr_ok (sha256 input)).
Definition ripemd160hash_Run (input : list Z) := output (pr_ok (LeftPadBytes (ripemd160 input) 32)).
Definition dataCopy_Run (input : list Z) := output (pr_ok input).

(** *** bn256 *)

Definition newCurvePoint (blob : list Z) : PR bn_G1 :=
  match bn_UnmarshalG1 blob with Some p => pr_ok p | None => pr_err ErrBn256Point end.
Definition newTwistPoint (blob : list Z) : PR bn_G2 :=
  match bn_UnmarshalG2 blob with Some p => pr_ok p | None => pr_err ErrBn256Point end.

Definition runBn256Add (input : list Z) : option (list Z * option vmError) :=
  output (let? b := pr_some (getData input 0 64) in
          let? x := newCurvePoint b in
          let? b := pr_some (getData input 64 64) in
          let? y := newCurvePoint b in
          pr_ok (bn_Marshal (bn_Add x y))).

Definition runBn256ScalarMul (input : list Z) : option (list Z * option vmError) :=
  output (let? b := pr_some (getData input 0 64) in
          let? p := newCurvePoint b in
          let? s := pr_some (getData input 64 32) in
          pr_ok (bn_Marshal (bn_ScalarMult p (be_value s)))).

Definition true32Byte : list Z := replicate 31 0 ++ [1].
Definition false32Byte : list Z := replicate 32 0.

(** The loops over the input: [n] iterations, the first one at [off] and each [width] after the last. *)
Fixpoint read_chunks {A} (read : list Z -> Z -> PR A) (width : Z) (input : list Z) (n : nat) (off : Z) : PR (list A) :=
  match n with
  | O => pr_ok []
  | S n =>
      let? a := read input off in
      let? rest := read_chunks read width input n (off + width) in
      pr_ok (a :: rest)
  end.

Definition read_bn_pair (input : list Z) (i : Z) : PR (bn_G1 * bn_G2) :=
  let? b := pr_some (subslice input i (i + 64)) in
  let? c := newCurvePoint b in
  let? b := pr_some (subslice input (i + 64) (i + 192)) in
  let? t := newTwistPoint b in
  pr_ok (c, t).

(** The loop runs while [i < len(input)]. *)
Definition runBn256Pairing (input : list Z) : option (list Z * option vmError) :=
  if 0 <? size input mod 192 then output (pr_err errBadPairingInput)
  else
    output (let? pairs := read_chunks read_bn_pair 192 input (Z.to_nat ((size input + 191) / 192)) 0 in
            pr_ok (if bn_PairingCheck (map fst pairs) (map snd pairs) then true32Byte else false32Byte)).

(** *** BLAKE2b *)

Definition blake2FInputLength : Z := 213.

Definition le_value (b : list Z) : Z := be_value (reverse b).
Definition le_bytes (n : nat) (x : Z) : list Z := reverse (be_bytes n x).

(** [binary.LittleEndian.Uint64(input[off:off+8])], and [n] of them in a row. *)
Definition word_at (input : list Z) (off : Z) : option Z := b ← subslice input off (off + 8); Some (le_value b).
Definition words_at (input : list Z) (offset : Z) (n : nat) : option (list Z) :=
  mapM (fun i => word_at input (offset + Z.of_nat i * 8)) (seq 0 n).

(** [binary.BigEndian.Uint32] *)
Definition be_uint32 (b : list Z) : Z := be_value b mod 2 ^ 32.

Definition blake2F_RequiredGas (input : list Z) : option Z :=
  if negb (size input =? blake2FInputLength) then Some 0
  else b ← subslice input 0 4; Some (be_uint32 b).

Definition blake2F_Run (input : list Z) : option (list Z * option vmError) :=
  if negb (size input =? blake2FInputLength) then output (pr_err errBlake2FInvalidInputLength)
  else
    flag ← at_index input 212;
    if negb (flag =? 0) && negb (flag =? 1) then output (pr_err errBlake2FInvalidFinalFlag)
    else
      rounds ← subslice input 0 4;
      h ← words_at input 4 8;
      m ← words_at input 68 16;
      t0 ← word_at input 196;
      t1 ← word_at input 204;
      output (pr_ok (concat (map (le_bytes 8) (F h m (t0, t1) (flag =? 1) (be_uint32 rounds))))).

(** *** BLS12-381 *)

(** The loop over the first [n] bytes stops at one that is not zero. *)
Fixpoint top_bytes (b : list Z) (i : Z) (n : nat) : PR unit :=
  match n with
  | O => pr_ok tt
  | S n =>
      let? x := pr_some (at_index b i) in
      if negb (x =? 0) then pr_err errBLS12381InvalidFieldElementTopBytes else top_bytes b (i + 1) n
  end.

Definition decodeBLS12381FieldElement (b : list Z) : PR fp :=
  if negb (size b =? 64) then pr_err ErrFieldElementLength
  else
    let? _ := top_bytes b 0 16 in
    let? rest := pr_some (subslice b 16 (size b)) in
    match fp_Element (copy_array 48 rest) with Some x => pr_ok x | None => pr_err ErrFieldElement end.

(** The field element in [b[i:j]]. *)
Definition element_at (b : list Z) (i j : Z) : PR fp :=
  let? part := pr_some (subslice b i j) in decodeBLS12381FieldElement part.

Definition decodePointG1 (b : list Z) : PR (fp * fp) :=
  if negb (size b =? 128) then pr_err ErrPointLength
  else
    let? x := element_at b 0 64 in
    let? y := element_at b 64 (size b) in
    if G1_IsOnCurve (x, y) then pr_ok (x, y) else pr_err ErrNotOnCurve.

Definition decodePointG2 (b : list Z) : PR ((fp * fp) * (fp * fp)) :=
  if negb (size b =? 256) then pr_err ErrPointLength
  else
    let? x0 := element_at b 0 64 in
    let? x1 := element_at b 64 128 in
    let? y0 := element_at b 128 192 in
    let? y1 := element_at b 192 (size b) in
    if G2_IsOnCurve ((x0, x1), (y0, y1)) then pr_ok ((x0, x1), (y0, y1)) else pr_err ErrNotOnCurve.

Definition encode_fp (x : fp) : list Z := replicate 16 0 ++ fp_PutElement x.
Definition encodePointG1 (p : fp * fp) : list Z := encode_fp p.1 ++ encode_fp p.2.
Definition encodePointG2 (p : (fp * fp) * (fp * fp)) : list Z :=
  encode_fp p.1.1 ++ encode_fp p.1.2 ++ encode_fp p.2.1 ++ encode_fp p.2.2.

(** What [decode] reads in [input[i:j]]. *)
Definition decode_at {A} (decode : list Z -> PR A) (input : list Z) (i j : Z) : PR A :=
  let? b := pr_some (subslice input i j) in decode b.

Definition bls12381G1Add_Run (input : list Z) : option (list Z * option vmError) :=
  if negb (size input =? 256) then output (pr_err errBLS12381InvalidInputLength)
  else output (let? p0 := decode_at decodePointG1 input 0 128 in
               let? p1 := decode_at decodePointG1 input 128 (size input) in
               pr_ok (encodePointG1 (G1_Add p0 p1))).

Definition bls12381G2Add_Run (input : list Z) : option (list Z * option vmError) :=
  if negb (size input =? 512) then output (pr_err errBLS12381InvalidInputLength)
  else output (let? p0 := decode_at decodePointG2 input 0 256 in
               let? p1 := decode_at decodePointG2 input 256 (size input) in
               pr_ok (encodePointG2 (G2_Add p0 p1))).

(** The price of [k] pairs of a point and a scalar. *)
Definition multiexp_gas (table : list Z) (mulGas k : Z) : option Z :=
  if k =? 0 then Some 0
  else
    let dLen := size table in
    discount ← at_index table (if k <? dLen then k - 1 else dLen - 1);
    Some (u64 (u64 (k * mulGas) * discount) / 1000).

Definition bls12381G1MultiExp_RequiredGas (input : list Z) : option Z :=
  multiexp_gas Bls12381G1MultiExpDiscountTable Bls12381G1MulGas (size input / 160).
Definition bls12381G2MultiExp_RequiredGas (input : list Z) : option Z :=
  multiexp_gas Bls12381G2MultiExpDiscountTable Bls12381G2MulGas (size input / 288).

(** A point of [width] bytes in its subgroup and a scalar; the field of the scalars reduces it. *)
Definition read_scalar_pair {A} (decode : list Z -> PR A) (in_subgroup : A -> bool)
    (e : precompileError) (width : Z) (input : list Z) (off : Z) : PR (A * Z) :=
  let? p := decode_at decode input off (off + width) in
  if negb (in_subgroup p) then pr_err e
  else
    let? s := pr_some (subslice input (off + width) (off + width + 32)) in
    pr_ok (p, be_value s).

Definition bls12381G1MultiExp_Run (input : list Z) : option (list Z * option vmError) :=
  let k := Z.to_nat (size input / 160) in
  if (size input =? 0) || negb (size input mod 160 =? 0) then output (pr_err errBLS12381InvalidInputLength)
  else output (let? pairs := read_chunks (read_scalar_pair decodePointG1 G1_IsInSubGroup errBLS12381G1PointSubgroup 128)
                                160 input k 0 in
               pr_ok (encodePointG1 (G1_MultiExp (map fst pairs) (map snd pairs)))).

Definition bls12381G2MultiExp_Run (input : list Z) : option (list Z * option vmError) :=
  let k := Z.to_nat (size input / 288) in
  if (size input =? 0) || negb (size input mod 288 =? 0) then output (pr_err errBLS12381InvalidInputLength)
  else output (let? pairs := read_chunks (read_scalar_pair decodePointG2 G2_IsInSubGroup errBLS12381G2PointSubgroup 256)
                                288 input k 0 in
               pr_ok (encodePointG2 (G2_MultiExp (map fst pairs) (map snd pairs)))).

Definition read_bls_pair (input : list Z) (off : Z) : PR ((fp * fp) * ((fp * fp) * (fp * fp))) :=
  let? p1 := decode_at decodePointG1 input off (off + 128) in
  let? p2 := decode_at decodePointG2 input (off + 128) (off + 384) in
  if negb (G1_IsInSubGroup p1) then pr_err errBLS12381G1PointSubgroup
  else if negb (G2_IsInSubGroup p2) then pr_err errBLS12381G2PointSubgroup
  else pr_ok (p1, p2).

(** An error of the pairing is a check that fails. *)
Definition bls12381Pairing_Run (input : list Z) : option (list Z * option vmError) :=
  let k := Z.to_nat (size input / 384) in
  if (size input =? 0) || negb (size input mod 384 =? 0) then output (pr_err errBLS12381InvalidInputLength)
  else output (let? pairs := read_chunks read_bls_pair 384 input k 0 in
               pr_ok (match bls_PairingCheck (map fst pairs) (map snd pairs) with
                      | Some true => true32Byte
                      | _ => false32Byte
                      end)).

Definition bls12381MapG1_Run (input : list Z) : option (list Z * option vmError) :=
  if negb (size input =? 64) then output (pr_err errBLS12381InvalidInputLength)
  else output (let? fe := decodeBLS12381FieldElement input in pr_ok (encodePointG1 (MapToG1 fe))).

Definition bls12381MapG2_Run (input : list Z) : option (list Z * option vmError) :=
  if negb (size input =? 128) then output (pr_err errBLS12381InvalidInputLength)
  else output (let? c0 := element_at input 0 64 in
               let? c1 := element_at input 64 (size input) in
               pr_ok (encodePointG2 (MapToG2 (c0, c1)))).

(** *** Blobs *)

Definition blobCommitmentVersionKZG : Z := 0x01.
Definition blobPrecompileReturnValue : list Z :=
  be_bytes 64 0x000000000000000000000000000000000000000000000000000000000000100073eda753299d7d483339d80809a1d80553bda402fffe5bfeffffffff00000001.

Definition kZGToVersionedHash (kzg : list Z) : list Z := <[0%nat := blobCommitmentVersionKZG]> (sha256 kzg).

(** [copy(a[:], input[i:])] into an array of [n] bytes. *)
Definition copy_input (input : list Z) (i : Z) (n : nat) : option (list Z) :=
  b ← subslice input i (size input); Some (copy_array n b).

Definition kzgPointEvaluation_Run (input : list Z) : option (list Z * option vmError) :=
  if negb (size input =? 192) then output (pr_err errBlobVerifyInvalidInputLength)
  else
    versionedHash ← copy_input input 0 32;
    point ← copy_input input 32 32;
    claim ← copy_input input 64 32;
    commitment ← copy_input input 96 48;
    if negb (bool_decide (kZGToVersionedHash commitment = versionedHash)) then output (pr_err errBlobVerifyMismatchedVersion)
    else
      proof ← copy_input input 144 48;
      if kzg_VerifyProof commitment point claim proof then output (pr_ok blobPrecompileReturnValue)
      else output (pr_err errBlobVerifyKZGProof).

(** *** P256 *)

(** The version of ArbOS is set in the contract before every run; zero outside Arbitrum. *)
Definition p256Verify_RequiredGas (arbosVersion : Z) (input : list Z) : option Z :=
  Some (if negb (arbosVersion =? 0) && (arbosVersion <? ArbosVersion_50) then 3450 else P256VerifyGas).

Definition p256Verify_Run (input : list Z) : option (list Z * option vmError) :=
  if negb (size input =? 160) then output (pr_ok [])
  else
    hash ← subslice input 0 32;
    r ← subslice input 32 64;
    s ← subslice input 64 96;
    x ← subslice input 96 128;
    y ← subslice input 128 160;
    output (pr_ok (if secp256r1_Verify hash (be_value r) (be_value s) (be_value x) (be_value y) then true32Byte else [])).

(** *** Recovery of a signer *)

Definition ecrecover_Run {HS : Hasher} {C : Crypto} (input : list Z) : option (list Z * option vmError) :=
  let input := RightPadBytes input 128 in
  rBytes ← subslice input 64 96;
  sBytes ← subslice input 96 128;
  v ← at_index input 63;
  zeros ← subslice input 32 63;
  let r := be_value rBytes in
  let s := be_value sBytes in
  let v := (v - 27) mod 256 in
  if existsb (fun x => negb (x =? 0)) zeros || negb (ValidateSignatureValues v r s false)
  then output (pr_ok [])
  else
    sig ← subslice input 64 128;
    hash ← subslice input 0 32;
    match Ecrecover (be_value hash) (sig ++ [v]) with
    | None => output (pr_ok [])
    | Some pubKey =>
        key ← subslice pubKey 1 (size pubKey);
        output (pr_ok (LeftPadBytes (drop 12 (be_bytes 32 (keccak256 key))) 32))
    end.
End Runs.

(** ** The contracts and the tables of the forks *)

Section Tables.
Context {LB : Libraries} {HS : Hasher} {C : Crypto}.

Definition ecrecover := Basic (fun _ => Some EcrecoverGas) ecrecover_Run.
Definition sha256hash := Basic (fun input => Some (word_gas Sha256PerWordGas Sha256BaseGas input)) sha256hash_Run.
Definition ripemd160hash := Basic (fun input => Some (word_gas Ripemd160PerWordGas Ripemd160BaseGas input)) ripemd160hash_Run.
Definition dataCopy := Basic (fun input => Some (word_gas IdentityPerWordGas IdentityBaseGas input)) dataCopy_Run.
Definition bigModExp_contract (c : bigModExp) := Basic (bigModExp_RequiredGas c) (bigModExp_Run c).
Definition bn256AddByzantium := Basic (fun _ => Some Bn256AddGasByzantium) runBn256Add.
Definition bn256AddIstanbul := Basic (fun _ => Some Bn256AddGasIstanbul) runBn256Add.
Definition bn256ScalarMulByzantium := Basic (fun _ => Some Bn256ScalarMulGasByzantium) runBn256ScalarMul.
Definition bn256ScalarMulIstanbul := Basic (fun _ => Some Bn256ScalarMulGasIstanbul) runBn256ScalarMul.

(** The price of pairs of points. *)
Definition pairing_gas (base perPair width : Z) (input : list Z) : Z :=
  u64 (base + u64 (size input / width * perPair)).
Definition bn256PairingByzantium :=
  Basic (fun input => Some (pairing_gas Bn256PairingBaseGasByzantium Bn256PairingPerPointGasByzantium 192 input)) runBn256Pairing.
Definition bn256PairingIstanbul :=
  Basic (fun input => Some (pairing_gas Bn256PairingBaseGasIstanbul Bn256PairingPerPointGasIstanbul 192 input)) runBn256Pairing.

Definition blake2F := Basic blake2F_RequiredGas blake2F_Run.
Definition kzgPointEvaluation := Basic (fun _ => Some BlobTxPointEvaluationPrecompileGas) kzgPointEvaluation_Run.
Definition bls12381G1Add := Basic (fun _ => Some Bls12381G1AddGas) bls12381G1Add_Run.
Definition bls12381G1MultiExp := Basic bls12381G1MultiExp_RequiredGas bls12381G1MultiExp_Run.
Definition bls12381G2Add := Basic (fun _ => Some Bls12381G2AddGas) bls12381G2Add_Run.
Definition bls12381G2MultiExp := Basic bls12381G2MultiExp_RequiredGas bls12381G2MultiExp_Run.
Definition bls12381Pairing := Basic (fun input => Some (pairing_gas Bls12381PairingBaseGas Bls12381PairingPerPairGas 384 input)) bls12381Pairing_Run.
Definition bls12381MapG1 := Basic (fun _ => Some Bls12381MapG1Gas) bls12381MapG1_Run.
Definition bls12381MapG2 := Basic (fun _ => Some Bls12381MapG2Gas) bls12381MapG2_Run.
Definition p256Verify (arbosVersion : Z) := Basic (p256Verify_RequiredGas arbosVersion) p256Verify_Run.

Definition PrecompiledContracts : Type := list (Z * PrecompiledContract).

Definition PrecompiledContractsHomestead : PrecompiledContracts :=
  [(0x1, ecrecover);
   (0x2, sha256hash);
   (0x3, ripemd160hash);
   (0x4, dataCopy)].

Definition PrecompiledContractsByzantium : PrecompiledContracts :=
  [(0x1, ecrecover);
   (0x2, sha256hash);
   (0x3, ripemd160hash);
   (0x4, dataCopy);
   (0x5, bigModExp_contract (mkBigModExp false false false));
   (0x6, bn256AddByzantium);
   (0x7, bn256ScalarMulByzantium);
   (0x8, bn256PairingByzantium)].

Definition PrecompiledContractsIstanbul : PrecompiledContracts :=
  [(0x1, ecrecover);
   (0x2, sha256hash);
   (0x3, ripemd160hash);
   (0x4, dataCopy);
   (0x5, bigModExp_contract (mkBigModExp false false false));
   (0x6, bn256AddIstanbul);
   (0x7, bn256ScalarMulIstanbul);
   (0x8, bn256PairingIstanbul);
   (0x9, blake2F)].

Definition PrecompiledContractsBerlin : PrecompiledContracts :=
  [(0x1, ecrecover);
   (0x2, sha256hash);
   (0x3, ripemd160hash);
   (0x4, dataCopy);
   (0x5, bigModExp_contract (mkBigModExp true false false));
   (0x6, bn256AddIstanbul);
   (0x7, bn256ScalarMulIstanbul);
   (0x8, bn256PairingIstanbul);
   (0x9, blake2F)].

Definition PrecompiledContractsCancun : PrecompiledContracts :=
  [(0x1, ecrecover);
   (0x2, sha256hash);
   (0x3, ripemd160hash);
   (0x4, dataCopy);
   (0x5, bigModExp_contract (mkBigModExp true false false));
   (0x6, bn256AddIstanbul);
   (0x7, bn256ScalarMulIstanbul);
   (0x8, bn256PairingIstanbul);
   (0x9, blake2F);
   (0xa, kzgPointEvaluation)].

Definition PrecompiledContractsPrague : PrecompiledContracts :=
  [(0x1, ecrecover);
   (0x2, sha256hash);
   (0x3, ripemd160hash);
   (0x4, dataCopy);
   (0x5, bigModExp_contract (mkBigModExp true false false));
   (0x6, bn256AddIstanbul);
   (0x7, bn256ScalarMulIstanbul);
   (0x8, bn256PairingIstanbul);
   (0x9, blake2F);
   (0xa, kzgPointEvaluation);
   (0xb, bls12381G1Add);
   (0xc, bls12381G1MultiExp);
   (0xd, bls12381G2Add);
   (0xe, bls12381G2MultiExp);
   (0xf, bls12381Pairing);
   (0x10, bls12381MapG1);
   (0x11, bls12381MapG2)].

Definition PrecompiledContractsVerkle : PrecompiledContracts := PrecompiledContractsBerlin.

Definition PrecompiledContractsOsaka (arbosVersion : Z) : PrecompiledContracts :=
  [(0x1, ecrecover);
   (0x2, sha256hash);
   (0x3, ripemd160hash);
   (0x4, dataCopy);
   (0x5, bigModExp_contract (mkBigModExp true true true));
   (0x6, bn256AddIstanbul);
   (0x7, bn256ScalarMulIstanbul);
   (0x8, bn256PairingIstanbul);
   (0x9, blake2F);
   (0xa, kzgPointEvaluation);
   (0xb, bls12381G1Add);
   (0xc, bls12381G1MultiExp);
   (0xd, bls12381G2Add);
   (0xe, bls12381G2MultiExp);
   (0xf, bls12381Pairing);
   (0x10, bls12381MapG1);
   (0x11, bls12381MapG2);
   (0x100, p256Verify arbosVersion)].

(** [arbitrum_contracts] are the tables of an Arbitrum chain, by the version they start from. *)
Definition activePrecompiledContracts (arbitrum_contracts : Z -> PrecompiledContracts) (arbosVersion : Z) (rules : Rules)
  : PrecompiledContracts :=
  if IsGreaterEqual60 rules then arbitrum_contracts 60
  else if IsDia rules then arbitrum_contracts 50
  else if IsGreaterEqual41 rules then arbitrum_contracts 41
  else if IsStylus rules then arbitrum_contracts 30
  else if IsArbitrum rules then arbitrum_contracts 0
  else if IsVerkle rules then PrecompiledContractsVerkle
  else if IsOsaka rules then PrecompiledContractsOsaka arbosVersion
  else if IsPrague rules then PrecompiledContractsPrague
  else if IsCancun rules then PrecompiledContractsCancun
  else if IsBerlin rules then PrecompiledContractsBerlin
  else if IsIstanbul rules then PrecompiledContractsIstanbul
  else if IsByzantium rules then PrecompiledContractsByzantium
  else PrecompiledContractsHomestead.

(** [evm.precompile]: the contract at an address. *)
Fixpoint find_contract (a : Z) (cs : PrecompiledContracts) : option PrecompiledContract :=
  match cs with
  | [] => None
  | (b, p) :: cs => if a =? b then Some p else find_contract a cs
  end.

Definition active_contracts (arbitrum_contracts : Z -> PrecompiledContracts) (arbosVersion : Z) (rules : Rules) : Precompiles :=
  fun a => find_contract a (activePrecompiledContracts arbitrum_contracts arbosVersion rules).
End Tables.
