(* ===== verification/ModExp.v ===== *)
(** The precompiled exponentiation: its price is the formula of the EIPs whenever it can
    be paid, and its run computes the power. *)

From stdpp Require Import base list numbers option.
From S2P Require Import State.
From S2P Require Import Prelude Params Uint256 VmCore Evm Interpreter Rlp RlpValues Precompiles.
Import U256(be_value, be_bytes, be_bytes_length, be_value_bound, be_bytes_value, be_value_snoc).
Open Scope Z_scope.

(** ** The formulas of EIP-198, EIP-2565 and EIP-7883, over unbounded integers *)

Definition complexity198 (x : Z) : Z :=
  if x <=? 64 then x * x
  else if x <=? 1024 then x * x / 4 + 96 * x - 3072
  else x * x / 16 + 480 * x - 199680.
Definition complexity2565 (x : Z) : Z := (x + 7) / 8 * ((x + 7) / 8).
Definition complexity7883 (x : Z) : Z := if x <=? 32 then 16 else 2 * complexity2565 x.

Definition iterations (multiplier expLen expHead : Z) : Z :=
  Z.max 1 ((if 32 <? expLen then multiplier * (expLen - 32) else 0) + (if expHead =? 0 then 0 else Z.log2 expHead)).

Definition eip_gas (c : bigModExp) (baseLen expLen modLen expHead : Z) : Z :=
  let x := Z.max baseLen modLen in
  if eip7883 c then Z.max 500 (complexity7883 x * iterations 16 expLen expHead)
  else if eip2565 c then Z.max 200 (complexity2565 x * iterations 8 expLen expHead / 3)
  else complexity198 x * iterations 8 expLen expHead / 20.

(** Prices that could be paid: far above any gas limit. *)
Definition payable : Z := 2 ^ 59.

(** ** The arithmetic of words *)

Lemma Mul64_spec x y : 0 <= x -> 0 <= y ->
  let '(carry, p) := Mul64 x y in (carry = 0 /\ p = x * y /\ x * y < two64) \/ (carry <> 0 /\ 0 < carry /\ two64 <= x * y).
Proof.
  intros Hx Hy. unfold Mul64. destruct (Z.lt_ge_cases (x * y) two64) as [H|H]; [left|right].
  - rewrite Z.div_small by nia. split_and!; [done| |done]. apply u64_small. unfold is_u64. nia.
  - assert (1 <= x * y / two64) by (apply Z.div_le_lower_bound; lia). lia.
Qed.

Lemma Add64_spec x y : is_u64 x -> is_u64 y ->
  let '(s, carry) := Add64 x y in (carry = 0 /\ s = x + y /\ x + y < two64) \/ (carry <> 0 /\ 0 < carry /\ two64 <= x + y).
Proof.
  unfold is_u64. intros Hx Hy. unfold Add64. destruct (Z.lt_ge_cases (x + y) two64) as [H|H]; [left|right].
  - rewrite Z.div_small by lia. split_and!; [done| |done]. apply u64_small. unfold is_u64. lia.
  - assert (1 <= (x + y) / two64) by (apply Z.div_le_lower_bound; lia). lia.
Qed.

Lemma byzantium_spec x : is_u64 x ->
  byzantiumMultComplexity x = MaxUint64 \/ (byzantiumMultComplexity x = complexity198 x /\ x < 2 ^ 32).
Proof.
  unfold is_u64. intros Hx. unfold byzantiumMultComplexity, complexity198.
  destruct (Z.leb_spec x 64); [right; rewrite u64_small by (unfold is_u64; nia); lia|].
  destruct (Z.leb_spec x 1024).
  - right. rewrite (u64_small (x * x)), (u64_small (96 * x)) by (unfold is_u64; nia).
    assert (0 <= x * x / 4 < 2 ^ 20) by (split; [apply Z.div_pos|apply Z.div_lt_upper_bound]; nia).
    rewrite (u64_small (x * x / 4 + 96 * x)) by (unfold is_u64; lia).
    rewrite u64_small by (unfold is_u64; lia). lia.
  - pose proof (Mul64_spec x x ltac:(lia) ltac:(lia)) as Hm. destruct (Mul64 x x) as [carry sq].
    destruct Hm as [(-> & -> & Hm)|(Hc & _ & _)]; simpl negb; cbv iota.
    2:{ left. by rewrite (proj2 (Z.eqb_neq carry 0) Hc). }
    assert (x < 2 ^ 32) by nia. rewrite Z.shiftr_div_pow2 by done. change (2 ^ 4) with 16.
    rewrite (u64_small (x * 480)) by (unfold is_u64; lia). rewrite (u64_small (x * 480 - 199680)) by (unfold is_u64; lia).
    assert (0 <= x * x / 16 < 2 ^ 60) by (split; [apply Z.div_pos|apply Z.div_lt_upper_bound]; nia).
    pose proof (Add64_spec (x * x / 16) (x * 480 - 199680) ltac:(unfold is_u64; lia) ltac:(unfold is_u64; lia)) as Ha.
    destruct (Add64 _ _) as [sum c]. destruct Ha as [(-> & -> & _)|(_ & _ & ?)]; [|lia]. right. simpl. lia.
Qed.

Lemma berlin_spec x : is_u64 x ->
  berlinMultComplexity x = MaxUint64 \/ (berlinMultComplexity x = complexity2565 x /\ x < 2 ^ 35).
Proof.
  intros Hx. unfold berlinMultComplexity, complexity2565.
  pose proof (Add64_spec x 7 Hx ltac:(done)) as Ha. destruct (Add64 x 7) as [s carry].
  destruct Ha as [(-> & -> & Ha)|(Hc & _)]; [|left; by rewrite (proj2 (Z.eqb_neq carry 0) Hc)].
  simpl negb; cbv iota. unfold is_u64 in Hx. assert (0 <= (x + 7) / 8) by (apply Z.div_pos; lia).
  pose proof (Mul64_spec ((x + 7) / 8) ((x + 7) / 8) ltac:(done) ltac:(done)) as Hm. destruct (Mul64 _ _) as [c p].
  destruct Hm as [(-> & -> & Hm)|(Hc & _)]; [|left; by rewrite (proj2 (Z.eqb_neq c 0) Hc)].
  right. split; [done|]. assert ((x + 7) / 8 < 2 ^ 32) as Hq by nia.
  pose proof (Z.mod_pos_bound (x + 7) 8). pose proof (Z.div_mod (x + 7) 8 ltac:(done)). lia.
Qed.

Lemma osaka_spec x : is_u64 x ->
  osakaMultComplexity x = MaxUint64 \/ (osakaMultComplexity x = complexity7883 x /\ x < 2 ^ 35).
Proof.
  intros Hx. unfold osakaMultComplexity, complexity7883. destruct (Z.leb_spec x 32); [right; lia|].
  destruct (berlin_spec x Hx) as [-> | [-> Hb]]; [by left|].
  assert (0 <= complexity2565 x) by (unfold complexity2565; apply Z.square_nonneg).
  pose proof (Mul64_spec (complexity2565 x) 2 ltac:(done) ltac:(done)) as Hm. destruct (Mul64 _ _) as [c p].
  destruct Hm as [(-> & -> & Hm)|(Hc & _)]; [|left; by rewrite (proj2 (Z.eqb_neq c 0) Hc)].
  right. simpl. lia.
Qed.

Lemma BitLen_log2 x : 0 <= x -> (BitLen x = 0 /\ x = 0) \/ (BitLen x = Z.log2 x + 1 /\ 0 < x).
Proof.
  intros Hx. unfold BitLen. destruct (Z.eqb_spec x 0); [by left|]. right. rewrite Z.abs_eq by done. lia.
Qed.

Lemma iteration_spec el head k : is_u64 el -> 0 <= head < two256 -> 0 < k <= 16 ->
  let n := modexpIterationCount el head k in
  1 <= n <= MaxUint64 /\ (n = iterations k el head \/ (n = MaxUint64 /\ 2 ^ 60 < el)).
Proof.
  unfold is_u64. intros Hel Hh Hk. unfold modexpIterationCount, iterations. cbv zeta.
  assert (0 <= Z.log2 head < 256) as Hlog.
  { split; [apply Z.log2_nonneg|]. destruct (Z.eq_dec head 0) as [-> |]; [done|]. apply Z.log2_lt_pow2; lia. }
  assert (exists o, (if 32 <? el then let '(carry, count) := Mul64 (el - 32) k in if 0 <? carry then None else Some count
                     else Some 0) = o
    /\ match o with
       | None => 2 ^ 60 <= el - 32
       | Some n => n = (if 32 <? el then k * (el - 32) else 0) /\ 0 <= n < two64
       end) as (o & -> & Ho).
  { eexists. split; [reflexivity|]. destruct (Z.ltb_spec 32 el); [|done].
    pose proof (Mul64_spec (el - 32) k ltac:(lia) ltac:(lia)) as Hm. destruct (Mul64 _ _) as [carry p].
    destruct Hm as [(-> & -> & Hm)|(_ & Hc & Hm)]; simpl; [split; nia|].
    rewrite (proj2 (Z.ltb_lt 0 carry) Hc). nia. }
  destruct o as [n|]; [|unfold MaxUint64 in *; lia].
  destruct Ho as [En Hn]. rewrite <- En.
  destruct (BitLen_log2 head ltac:(lia)) as [[-> ->]|[-> Hpos]]; [simpl; unfold MaxUint64; lia|].
  rewrite (proj2 (Z.ltb_lt 0 (Z.log2 head + 1))) by lia. rewrite (proj2 (Z.eqb_neq head 0)) by lia.
  replace (Z.log2 head + 1 - 1) with (Z.log2 head) by lia.
  pose proof (Add64_spec n (Z.log2 head) ltac:(unfold is_u64; lia) ltac:(unfold is_u64; lia)) as Ha.
  destruct (Add64 _ _) as [s c]. destruct Ha as [(-> & -> & Ha)|(_ & Hc & Ha)]; simpl.
  - unfold MaxUint64; lia.
  - rewrite (proj2 (Z.ltb_lt 0 c) Hc). split; [unfold MaxUint64; lia|]. right. split; [done|].
    destruct (Z.ltb_spec 32 el); [|lia]. nia.
Qed.

(** ** The price *)

(** A price that can be paid comes from a product that did not overflow. *)
Lemma product_spec el head k cx carry p div : is_u64 el -> 0 <= head < two256 -> 8 <= k <= 16 -> 1 <= div <= 20 ->
  0 <= cx -> Mul64 (modexpIterationCount el head k) cx = (carry, p) ->
  (if negb (carry =? 0) then MaxUint64 else p / div) < payable ->
  carry = 0 /\ p / div = cx * iterations k el head / div /\ (cx = 0 \/ el < 2 ^ 62).
Proof.
  intros Hel Hh Hk Hd Hcx Em Hp. pose proof (iteration_spec el head k Hel Hh ltac:(lia)) as (Hn & Hit).
  pose proof (Mul64_spec (modexpIterationCount el head k) cx ltac:(lia) Hcx) as Hm. rewrite Em in Hm.
  set (n := modexpIterationCount el head k) in *. unfold payable in *.
  destruct Hm as [(-> & -> & Hm)|(Hc & _)].
  2:{ rewrite (proj2 (Z.eqb_neq carry 0) Hc) in Hp. simpl in Hp. unfold MaxUint64 in Hp. lia. }
  simpl in Hp. split; [done|]. destruct (Z.eq_dec cx 0) as [->|H0].
  { rewrite Z.mul_0_r, Z.mul_0_l. split; [done|by left]. }
  assert (n * cx < div * 2 ^ 59) as Hlt.
  { pose proof (Z.mul_succ_div_gt (n * cx) div ltac:(lia)). nia. }
  assert (n < 20 * 2 ^ 59) as Hn' by nia.
  destruct Hit as [E|[E _]]; [|exfalso; unfold MaxUint64 in *; lia].
  rewrite <- E. split; [f_equal; lia|]. right. rewrite E in Hn'. unfold iterations in Hn'.
  assert (0 <= (if head =? 0 then 0 else Z.log2 head)) by (destruct (head =? 0); [done|apply Z.log2_nonneg]).
  destruct (Z.ltb_spec 32 el); lia.
Qed.

Lemma complexity_pos x : 0 < x -> 0 < complexity198 x /\ 0 < complexity2565 x /\ 0 < complexity7883 x.
Proof.
  intros Hx. assert (0 < complexity2565 x) as H2.
  { unfold complexity2565. assert (1 <= (x + 7) / 8) by (apply Z.div_le_lower_bound; lia). nia. }
  split_and!; [|done|unfold complexity7883; destruct (x <=? 32); lia].
  unfold complexity198. destruct (Z.leb_spec x 64); [nia|]. destruct (Z.leb_spec x 1024).
  - assert (0 <= x * x / 4) by (apply Z.div_pos; nia). lia.
  - assert (0 <= x * x / 16) by (apply Z.div_pos; nia). lia.
Qed.

Definition modexp_price (c : bigModExp) (bl el ml head : Z) : Z :=
  if eip7883 c then osakaModexpGas bl el ml head
  else if eip2565 c then berlinModexpGas bl el ml head
  else byzantiumModexpGas bl el ml head.

Lemma price_spec c bl el ml head : is_u64 bl -> is_u64 el -> is_u64 ml -> 0 <= head < two256 ->
  modexp_price c bl el ml head < payable ->
  modexp_price c bl el ml head = eip_gas c bl el ml head
  /\ Z.max bl ml < 2 ^ 35 /\ ((eip7883 c = false /\ Z.max bl ml = 0) \/ el < 2 ^ 62).
Proof.
  intros Hbl Hel Hml Hh. unfold modexp_price, eip_gas. set (x := Z.max bl ml).
  assert (is_u64 x) as Hx by (unfold is_u64, x in *; lia).
  assert (0 <= x) as Hx0 by (unfold is_u64 in *; lia).
  assert (x = 0 \/ 0 < complexity198 x /\ 0 < complexity2565 x /\ 0 < complexity7883 x) as Hpos
    by (destruct (Z.eq_dec x 0); [by left|right; apply complexity_pos; lia]).
  destruct (eip7883 c); [|destruct (eip2565 c)].
  - unfold osakaModexpGas. fold x. destruct (osaka_spec x Hx) as [-> |[-> Hb]]; [unfold payable, MaxUint64; simpl; lia|].
    assert (0 <= complexity7883 x) as Hc by (unfold complexity7883, complexity2565; case_match; [lia|pose proof (Z.square_nonneg ((x + 7) / 8)); lia]).
    case_match; [unfold payable, MaxUint64; lia|].
    destruct (Mul64 _ _) as [carry p] eqn:Em. intros Hp.
    destruct (product_spec el head 16 _ carry p 1 Hel Hh ltac:(lia) ltac:(lia) Hc Em) as (-> & E & Hel').
    { rewrite Z.div_1_r. destruct (negb (carry =? 0)); [done|unfold payable in *; lia]. }
    rewrite !Z.div_1_r in E. simpl. rewrite E. split; [lia|]. split; [lia|].
    right. destruct Hel' as [E0|]; [|done]. unfold complexity7883 in E0.
    destruct (Z.leb_spec x 32); [done|]. destruct Hpos as [|(_ & ? & _)]; lia.
  - unfold berlinModexpGas. fold x. destruct (berlin_spec x Hx) as [-> |[-> Hb]]; [unfold payable, MaxUint64; simpl; lia|].
    assert (0 <= complexity2565 x) as Hc by apply Z.square_nonneg.
    case_match; [unfold payable, MaxUint64; lia|].
    destruct (Mul64 _ _) as [carry p] eqn:Em. intros Hp.
    destruct (product_spec el head 8 _ carry p 3 Hel Hh ltac:(lia) ltac:(lia) Hc Em) as (-> & E & Hel').
    { destruct (negb (carry =? 0)); [done|unfold payable in *; lia]. }
    simpl. rewrite E. split; [lia|]. split; [lia|].
    destruct Hel' as [E0|]; [left|by right]. split; [done|]. destruct Hpos as [|(_ & ? & _)]; [done|]. lia.
  - unfold byzantiumModexpGas. fold x. destruct (byzantium_spec x Hx) as [-> |[-> Hb]]; [unfold payable, MaxUint64; simpl; lia|].
    assert (0 <= complexity198 x) as Hc.
    { destruct Hpos as [-> |(? & _)]; [done|lia]. }
    case_match; [unfold payable, MaxUint64; lia|].
    destruct (Mul64 _ _) as [carry p] eqn:Em. intros Hp.
    destruct (product_spec el head 8 _ carry p 20 Hel Hh ltac:(lia) ltac:(lia) Hc Em Hp) as (-> & E & Hel').
    simpl. rewrite E. split; [lia|]. split; [lia|].
    destruct Hel' as [E0|]; [left|by right]. split; [done|]. destruct Hpos as [|(? & _)]; [done|]. lia.
Qed.

(** ** The operands *)

(** The bytes of an input from an offset, as if zeros followed it. *)
Definition operand (input : list Z) (start len : Z) : list Z :=
  let b := take (Z.to_nat len) (drop (Z.to_nat start) input) in b ++ replicate (Z.to_nat len - length b) 0.

Lemma operand_length input start len : length (operand input start len) = Z.to_nat len.
Proof. unfold operand. rewrite length_app, length_replicate, length_take. lia. Qed.

Lemma operand_bytes input start len : Forall is_byte input -> Forall is_byte (operand input start len).
Proof.
  intros H. unfold operand. apply Forall_app_2; [by apply Forall_take, Forall_drop|]. by apply Forall_replicate.
Qed.

Lemma getData_operand input start len : 0 <= start -> 0 <= len < 2 ^ 63 -> start + len < two64 -> size input < 2 ^ 63 ->
  getData input start len = Some (operand input start len).
Proof.
  intros Hs Hl Ho Hi. unfold getData. fold (size input). assert (0 <= size input) by (unfold size; lia).
  set (st := if size input <? start then size input else start).
  assert (st = Z.min start (size input)) as Est by (subst st; destruct (Z.ltb_spec (size input) start); lia).
  rewrite (u64_small (st + len)) by (unfold is_u64; lia).
  set (en := if size input <? st + len then _ else _).
  assert (en = Z.min (st + len) (size input)) as Een by (subst en; destruct (Z.ltb_spec (size input) (st + len)); lia).
  rewrite (proj2 (Z.ltb_ge en st)) by lia. f_equal.
  assert (to_int len = len) as -> by (unfold to_int; rewrite (proj2 (Z.ltb_lt _ _)); [done|change (two64 / 2) with (2 ^ 63); lia]).
  assert (slice st en input = take (Z.to_nat len) (drop (Z.to_nat start) input)) as ->.
  { unfold slice. destruct (Z.le_gt_cases start (size input)) as [Hle|Hgt].
    - rewrite Est, Z.min_l by done.
      destruct (Z.le_gt_cases (start + len) (size input)).
      + do 2 f_equal. lia.
      + rewrite !take_ge; [done|rewrite length_drop; unfold size in *; lia..].
    - rewrite !drop_ge by (unfold size in *; lia). by rewrite !take_nil. }
  unfold RightPadBytes, operand. set (b := take _ _).
  assert (length b <= Z.to_nat len)%nat by (subst b; rewrite length_take; lia).
  destruct (Z.leb_spec len (Z.of_nat (length b))); [|done].
  replace (Z.to_nat len - length b)%nat with 0%nat by lia. by rewrite app_nil_r.
Qed.

Lemma be_value_zeros n bs : be_value (replicate n 0 ++ bs) = be_value bs.
Proof.
  unfold be_value. rewrite foldl_app. f_equal. induction n as [|n IH]; [done|]. exact IH.
Qed.

Lemma be_value_all_zeros n : be_value (replicate n 0) = 0.
Proof. pose proof (be_value_zeros n []) as H. by rewrite app_nil_r in H. Qed.

(** Padding the bytes of a number to a length. *)
Lemma LeftPad_be_bytes v l : 0 <= l < 2 ^ 63 -> 0 <= v < 256 ^ l ->
  LeftPadBytes (big_bytes v) (to_int l) = be_bytes (Z.to_nat l) v.
Proof.
  intros Hl Hv. assert (to_int l = l) as ->
    by (unfold to_int; rewrite (proj2 (Z.ltb_lt _ _)); [done|change (two64 / 2) with (2 ^ 63); lia]).
  pose proof (int_content_length v l Hv ltac:(lia)) as Hlen. unfold big_bytes, LeftPadBytes, size. unfold len in Hlen.
  assert (replicate (Z.to_nat l - length (int_content v)) 0 ++ int_content v = be_bytes (Z.to_nat l) v) as E.
  { pose proof (be_bytes_value (replicate (Z.to_nat l - length (int_content v)) 0 ++ int_content v)) as H.
    rewrite be_value_zeros, int_content_value, length_app, length_replicate in H by lia.
    replace (Z.to_nat l - length (int_content v) + length (int_content v))%nat with (Z.to_nat l) in H by lia.
    rewrite <- H; [done|]. apply Forall_app_2; [by apply Forall_replicate|apply int_content_bytes]. }
  destruct (Z.leb_spec l (Z.of_nat (length (int_content v)))); [|exact E].
  rewrite <- E. replace (Z.to_nat l - length (int_content v))%nat with 0%nat by lia. done.
Qed.

(** ** The contract *)

(** What the package of big integers promises. *)
Class LibraryLaws (LB : Libraries) : Prop := {
  Exp_spec b e m : 0 <= b -> 0 <= e -> 0 < m -> Exp b e m = b ^ e mod m
}.

Section Contract.
Context {LB : Libraries} {LL : LibraryLaws LB}.

Definition length_at (input : list Z) (i : Z) : Z := be_value (operand input (32 * i) 32).

(** The head of the exponent that the price looks at. *)
Definition exponent_head (input : list Z) : Z :=
  be_value (operand (drop 96 input) (length_at input 0) (Z.min 32 (length_at input 1))).

(** The result by EIP-198 and the limit of EIP-7823. *)
Definition modexp_result (c : bigModExp) (input : list Z) : option (list Z * option vmError) :=
  let bl := length_at input 0 in
  let el := length_at input 1 in
  let ml := length_at input 2 in
  if eip7823 c && (1024 <? Z.max (Z.max bl el) ml) then output (pr_err ErrModexpTooLong)
  else
    let data := drop 96 input in
    let b := be_value (operand data 0 bl) in
    let e := be_value (operand data bl el) in
    let m := be_value (operand data (bl + el) ml) in
    output (pr_ok (be_bytes (Z.to_nat ml) (if m =? 0 then 0 else b ^ e mod m))).

Lemma length_at_bound input i : Forall is_byte input -> 0 <= length_at input i < two256.
Proof.
  intros H. pose proof (be_value_bound _ (operand_bytes input (32 * i) 32 H)) as Hb.
  by rewrite operand_length in Hb.
Qed.

Lemma get_header input : size input < 2 ^ 63 ->
  getData input 0 32 = Some (operand input (32 * 0) 32) /\ getData input 32 32 = Some (operand input (32 * 1) 32)
  /\ getData input 64 32 = Some (operand input (32 * 2) 32).
Proof. intros Hs. split_and!; by rewrite getData_operand by lia. Qed.

Lemma after_header_drop input : after_header input = Some (drop 96 input).
Proof.
  unfold after_header, subslice, slice. destruct (Z.ltb_spec 96 (size input)).
  - rewrite (proj2 (Z.leb_le 96 (size input))), (proj2 (Z.leb_le (size input) (size input))) by lia. simpl.
    rewrite take_ge; [done|]. rewrite length_drop. unfold size in *. lia.
  - rewrite drop_ge; [done|]. unfold size in *. lia.
Qed.

Lemma size_drop input : size (drop 96 input) <= size input.
Proof. unfold size. rewrite length_drop. lia. Qed.

Lemma RequiredGas_price c input : Forall is_byte input -> size input < 2 ^ 63 ->
  exists head, bigModExp_RequiredGas c input = Some
    (modexp_price c (capped (length_at input 0)) (capped (length_at input 1)) (capped (length_at input 2)) head)
  /\ 0 <= head < two256 /\ (length_at input 0 < two64 -> head = exponent_head input).
Proof.
  intros Hb Hs. unfold bigModExp_RequiredGas.
  destruct (get_header input Hs) as (-> & -> & ->). cbn [mbind option_bind]. cbv zeta.
  fold (length_at input 0) (length_at input 1) (length_at input 2). rewrite after_header_drop. cbn [mbind option_bind].
  set (data := drop 96 input). pose proof (size_drop input) as Hd. fold data in Hd.
  pose proof (length_at_bound input 0 Hb). pose proof (length_at_bound input 1 Hb).
  assert (Forall is_byte data) as Hbd by (by apply Forall_drop).
  set (k := if 32 <? capped (length_at input 1) then 32 else capped (length_at input 1)).
  assert (k = Z.min 32 (length_at input 1)) as Ek.
  { subst k. unfold capped. destruct (Z.ltb_spec (length_at input 1) two64);
      repeat match goal with |- context [?a <? ?b] => destruct (Z.ltb_spec a b) end; unfold MaxUint64 in *; lia. }
  assert (forall st, be_value (operand data st k) < two256) as Hk.
  { intros st. pose proof (be_value_bound _ (operand_bytes data st k Hbd)) as Hv. rewrite operand_length in Hv.
    eapply Z.lt_le_trans; [apply Hv|]. change two256 with (256 ^ 32). apply Z.pow_le_mono_r; lia. }
  destruct (Z.ltb_spec (capped (length_at input 0)) (size data)) as [Hlt|Hge].
  - assert (capped (length_at input 0) = length_at input 0) as ->
      by (unfold capped, MaxUint64 in *; destruct (Z.ltb_spec (length_at input 0) two64); lia).
    assert (length_at input 0 < size data) by (unfold capped, MaxUint64 in *; destruct (Z.ltb_spec (length_at input 0) two64); lia).
    rewrite getData_operand by lia. eexists. split; [reflexivity|].
    split; [split; [|apply Hk]; apply be_value_bound, operand_bytes, Hbd|]. intros _. by rewrite Ek.
  - eexists. split; [reflexivity|]. split; [done|]. intros Hl. unfold capped in Hge. rewrite (proj2 (Z.ltb_lt _ _) Hl) in Hge.
    unfold exponent_head, operand. fold data. rewrite drop_ge by (unfold size in *; lia). rewrite take_nil.
    symmetry. apply be_value_all_zeros.
Qed.

Lemma BitLen_zero x : 0 <= x -> (RlpValues.BitLen x =? 0) = (x =? 0).
Proof. intros Hx. destruct (BitLen_log2 x Hx) as [[-> ->]|[-> H]]; [done|]. pose proof (Z.log2_nonneg x). lia. Qed.

Lemma BitLen_one x : 0 <= x -> (RlpValues.BitLen x =? 1) = (x =? 1).
Proof.
  intros Hx. destruct (BitLen_log2 x Hx) as [[-> ->]|[-> H]]; [done|].
  destruct (Z.eqb_spec x 1) as [->|H1]; [done|]. pose proof (Z.log2_le_mono 2 x ltac:(lia)). change (Z.log2 2) with 1 in *. lia.
Qed.

Lemma BitLen_64 x : 0 <= x -> (64 <? RlpValues.BitLen x) = (two64 <=? x).
Proof.
  intros Hx. destruct (BitLen_log2 x Hx) as [[-> ->]|[-> H]]; [done|].
  pose proof (Z.log2_lt_pow2 x 64 H) as Hl. change (2 ^ 64) with two64 in Hl.
  destruct (Z.ltb_spec 64 (Z.log2 x + 1)), (Z.leb_spec two64 x); lia.
Qed.

(** The lengths of a result that was refused: the largest one is above the limit, also when it is no word. *)
Lemma too_long_spec b e m : 0 <= b -> 0 <= e -> 0 <= m ->
  (64 <? Z.max (Z.max (RlpValues.BitLen b) (RlpValues.BitLen e)) (RlpValues.BitLen m))
  || (1024 <? Z.max (Z.max (u64 b) (u64 e)) (u64 m)) = (1024 <? Z.max (Z.max b e) m).
Proof.
  intros Hb He Hm.
  pose proof (BitLen_64 b Hb) as Lb. pose proof (BitLen_64 e He) as Le. pose proof (BitLen_64 m Hm) as Lm.
  destruct (Z.ltb_spec 64 (Z.max (Z.max (RlpValues.BitLen b) (RlpValues.BitLen e)) (RlpValues.BitLen m))); simpl.
  - symmetry. apply Z.ltb_lt. destruct (Z.leb_spec two64 b), (Z.leb_spec two64 e), (Z.leb_spec two64 m); lia.
  - rewrite !u64_small; [done|unfold is_u64..];
      destruct (Z.leb_spec two64 b), (Z.leb_spec two64 e), (Z.leb_spec two64 m); lia.
Qed.

Lemma power_bytes b e m l : 0 <= b -> 0 <= e -> 0 <= m < 256 ^ l -> 0 <= l < 2 ^ 63 ->
  (if RlpValues.BitLen m =? 0 then output (pr_ok (LeftPadBytes [] (to_int l)))
   else let v := if RlpValues.BitLen b =? 1 then big_bytes (b mod m) else big_bytes (Exp b e m) in
     output (pr_ok (LeftPadBytes v (to_int l))))
  = output (pr_ok (be_bytes (Z.to_nat l) (if m =? 0 then 0 else b ^ e mod m))).
Proof.
  intros Hb He Hm Hl. rewrite BitLen_zero, BitLen_one by lia. cbv zeta. destruct (Z.eqb_spec m 0) as [->|H0].
  - do 2 f_equal. apply (LeftPad_be_bytes 0 l Hl). lia.
  - assert (forall x, LeftPadBytes (big_bytes (x mod m)) (to_int l) = be_bytes (Z.to_nat l) (x mod m)) as Hx.
    { intros x. pose proof (Z.mod_pos_bound x m ltac:(lia)). apply LeftPad_be_bytes; [done|lia]. }
    destruct (Z.eqb_spec b 1) as [->|].
    + rewrite Z.pow_1_l by done. by rewrite Hx.
    + rewrite Exp_spec by lia. by rewrite Hx.
Qed.

(** The run of a call that was paid for. *)
Lemma run_spec c input g : Forall is_byte input -> size input < 2 ^ 63 ->
  bigModExp_RequiredGas c input = Some g -> g < payable ->
  g = eip_gas c (length_at input 0) (length_at input 1) (length_at input 2) (exponent_head input)
  /\ bigModExp_Run c input = modexp_result c input.
Proof.
  intros Hb Hs Eg Hg. destruct (RequiredGas_price c input Hb Hs) as (head & E & Hh & Ehead). rewrite E in Eg.
  injection Eg as <-. clear E.
  pose proof (length_at_bound input 0 Hb) as H0. pose proof (length_at_bound input 1 Hb) as H1.
  pose proof (length_at_bound input 2 Hb) as H2.
  assert (forall x, 0 <= x -> is_u64 (capped x)) as Hc.
  { intros x Hx. unfold capped, is_u64. destruct (Z.ltb_spec x two64); unfold MaxUint64; lia. }
  destruct (price_spec c _ _ _ _ (Hc _ (proj1 H0)) (Hc _ (proj1 H1)) (Hc _ (proj1 H2)) Hh Hg) as (Ep & Hm & Hel).
  assert (forall x, 0 <= x -> capped x < 2 ^ 62 -> capped x = x /\ u64 x = x /\ x < 2 ^ 62) as Hsmall.
  { intros x Hx. unfold capped. destruct (Z.ltb_spec x two64); [|unfold MaxUint64; lia]. intros.
    split_and!; [done|apply u64_small; unfold is_u64; lia|done]. }
  destruct (Hsmall (length_at input 0)) as (Ec0 & Eu0 & Hl0); [lia..|].
  destruct (Hsmall (length_at input 2)) as (Ec2 & Eu2 & Hl2); [lia..|].
  rewrite Ec0, Ec2 in *. specialize (Ehead ltac:(lia)). subst head. split.
  - rewrite Ep. destruct Hel as [[E7 Ez]|Hel].
    + unfold eip_gas. rewrite E7, Ez. done.
    + destruct (Hsmall (length_at input 1)) as (Ec1 & _); [lia..|]. by rewrite Ec1.
  - unfold bigModExp_Run, modexp_result. destruct (get_header input Hs) as (-> & -> & ->).
    cbn [mbind option_bind]. cbv zeta.
    fold (length_at input 0) (length_at input 1) (length_at input 2). rewrite after_header_drop. cbn [mbind option_bind].
    rewrite too_long_spec by lia. destruct (eip7823 c && _); [done|]. rewrite Eu0, Eu2.
    pose proof (size_drop input) as Hd. set (data := drop 96 input) in *.
    assert (Forall is_byte data) as Hbd by (by apply Forall_drop).
    assert (forall st l, 0 <= be_value (operand data st l) < 256 ^ Z.of_nat (Z.to_nat l)) as Hop.
    { intros st l. pose proof (be_value_bound _ (operand_bytes data st l Hbd)) as H. by rewrite operand_length in H. }
    destruct (Z.eqb_spec (length_at input 0) 0) as [Z0|N0], (Z.eqb_spec (length_at input 2) 0) as [Z2|N2]; simpl andb;
      cbv iota; [rewrite Z2; done|..].
    all: assert (length_at input 1 < 2 ^ 62) as Hl1 by (destruct Hel as [[_ ?]|Hel]; [lia|]; by apply (Hsmall (length_at input 1)); lia).
    all: destruct (Hsmall (length_at input 1)) as (_ & -> & _); [lia|unfold capped; destruct (Z.ltb_spec (length_at input 1) two64); lia|].
    all: rewrite (u64_small (length_at input 0 + length_at input 1)) by (unfold is_u64; lia).
    all: rewrite !getData_operand by lia; simpl mbind.
    all: apply power_bytes; [apply Hop|apply Hop| |lia].
    all: pose proof (Hop (length_at input 0 + length_at input 1) (length_at input 2)) as Hx; rewrite Z2Nat.id in Hx by lia; exact Hx.
Qed.

(** C13. The precompiled exponentiation, under each of its three price lists, has a price for every input, and when it
    is below 2^59 it is the formula of the EIP over unbounded integers, none of whose steps has overflowed, and the
    run, which does not panic, returns the power modulo the modulus in as many bytes as the modulus has; the operands
    are read as if zeros followed the input, a modulus of zero gives zeros, and under EIP-7823 a length above 1024
    bytes is an error. *)
Theorem modexp_computes_power c input : Forall is_byte input -> size input < 2 ^ 63 ->
  exists g, bigModExp_RequiredGas c input = Some g
    /\ (g < payable ->
        g = eip_gas c (length_at input 0) (length_at input 1) (length_at input 2) (exponent_head input)
        /\ bigModExp_Run c input = modexp_result c input).
Proof.
  intros Hb Hs. destruct (RequiredGas_price c input Hb Hs) as (head & E & _). eexists. split; [exact E|].
  by apply run_spec.
Qed.
End Contract.

(** ** A concrete library

    The exponentiation of the integers; curves with one point. *)

Module ToyLibraries.
#[export] Instance LB : Libraries := {|
  sha256 _ := replicate 32 1; ripemd160 _ := replicate 20 2; Exp b e m := b ^ e mod m;
  bn_G1 := unit; bn_G2 := unit; bn_UnmarshalG1 _ := Some tt; bn_UnmarshalG2 _ := Some tt; bn_Add _ _ := tt;
  bn_ScalarMult _ _ := tt; bn_Marshal _ := replicate 64 0; bn_PairingCheck _ _ := true;
  fp := Z; fp_Element b := Some (be_value b); fp_PutElement x := be_bytes 48 x;
  G1_IsOnCurve _ := true; G1_IsInSubGroup _ := true; G1_Add p _ := p; G1_MultiExp _ _ := (0, 0);
  G2_IsOnCurve _ := true; G2_IsInSubGroup _ := true; G2_Add p _ := p; G2_MultiExp _ _ := ((0, 0), (0, 0));
  bls_PairingCheck _ _ := Some true; MapToG1 x := (x, x); MapToG2 x := (x, x);
  kzg_VerifyProof _ _ _ _ := true; secp256r1_Verify _ _ _ _ _ := true
|}.
#[export] Instance LL : LibraryLaws LB.
Proof. by split. Qed.
End ToyLibraries.

Section ModExpWitness.
Import ToyLibraries.

(** The lengths 1, 1 and 2, then the numbers 3, 200 and 768, whose last byte is missing. *)
Definition modexp_input : list Z := be_bytes 32 1 ++ be_bytes 32 1 ++ be_bytes 32 2 ++ [3; 200; 3].

Lemma modexp_computes_power_witness : bigModExp_Run (mkBigModExp true false false) modexp_input
  = Some (be_bytes 2 (3 ^ 200 mod 768), None).
Proof.
  destruct (modexp_computes_power (mkBigModExp true false false) modexp_input ltac:(repeat constructor; by vm_compute)
    ltac:(by vm_compute)) as (g & Eg & H). destruct H as [_ E]; [vm_compute in Eg; by injection Eg as <-|].
  rewrite E. by vm_compute.
Defined.
End ModExpWitness.
