(* ===== verification/PrecompileTheorems.v ===== *)
(** The precompiled contracts as the interpreter uses them: the addresses that are warm are
    those of the contracts, prices are words, paid calls return, and [ecrecover] agrees
    with the signers. *)

From stdpp Require Import base gmap list numbers option sets strings.
From S2P Require Import State.
From S2P Require Import Prelude Params Uint256 VmCore Evm Instructions Interpreter MultiGas GasAccounting CallGas GasConservation GasRun TxTypes StateTransition Blake2.
From S2P Require Import RlpValues Transaction Signers SignerTheorems Precompiles ModExp.
Import U256(be_value, be_bytes, be_bytes_length, be_value_bytes, be_value_bound, be_bytes_value).
Open Scope Z_scope.

Section Theorems.
Context {LB : Libraries} {HS : Hasher} {C : Crypto}.

Lemma find_contract_domain a cs : is_Some (find_contract a cs) <-> a ∈ map fst cs.
Proof.
  induction cs as [|[b p] cs IH]; simpl; [split; [by intros []|by intros ?%elem_of_nil]|].
  rewrite elem_of_cons. destruct (Z.eqb_spec a b) as [->|]; [split; [by left|by eexists]|]. rewrite IH. tauto.
Qed.

(** The accounts that a transaction finds warm because they are precompiled are exactly those whose calls run a
    precompiled contract, under the rules of every fork except Verkle; for an Arbitrum chain, provided that the node
    has filled its lists of addresses from its tables. *)
Theorem active_precompiles_agree {TE : TxEnv} (arbitrum_contracts : Z -> PrecompiledContracts) version rules :
  IsVerkle rules = false -> (forall v, arbitrum_precompiles v = map fst (arbitrum_contracts v)) ->
  forall a, a ∈ ActivePrecompiles rules <-> is_Some (active_contracts arbitrum_contracts version rules a).
Proof.
  intros Hv Ha a. unfold active_contracts. rewrite find_contract_domain.
  unfold ActivePrecompiles, activePrecompiledContracts. rewrite Hv, !Ha. by repeat case_match.
Qed.

(** ** Prices *)

Lemma multiexp_gas_u64 table g k x : multiexp_gas table g k = Some x -> is_u64 x.
Proof.
  unfold multiexp_gas. destruct (k =? 0); [by intros [= <-]|]. cbv zeta.
  destruct (at_index _ _) as [d|]; [|done]. intros [= <-]. set (y := u64 _). assert (is_u64 y) as Hx by apply u64_range.
  clearbody y. unfold is_u64 in *. pose proof (Z.div_pos y 1000 ltac:(lia) ltac:(done)).
  pose proof (Z.div_le_upper_bound y 1000 y). lia.
Qed.

Lemma div_u64 p d : is_u64 p -> 0 < d -> is_u64 (p / d).
Proof.
  unfold is_u64. intros Hp Hd. pose proof (Z.div_pos p d ltac:(lia) Hd). pose proof (Z.div_le_upper_bound p d p Hd). nia.
Qed.

Lemma modexp_gas_u64 c input g : bigModExp_RequiredGas c input = Some g -> is_u64 g.
Proof.
  unfold bigModExp_RequiredGas. rewrite !bind_Some. intros (b0 & _ & H). rewrite bind_Some in H. destruct H as (b1 & _ & H).
  rewrite bind_Some in H. destruct H as (b2 & _ & H). cbv zeta in H. rewrite bind_Some in H. destruct H as (data & _ & H).
  rewrite bind_Some in H. destruct H as (head & _ & [= <-]).
  unfold osakaModexpGas, berlinModexpGas, byzantiumModexpGas, Mul64. cbv zeta.
  assert (forall x, is_u64 (Z.max (u64 x) 500) /\ is_u64 (Z.max (u64 x / 3) 200) /\ is_u64 (u64 x / 20)) as H.
  { intros x. pose proof (u64_range x) as Hx. pose proof (div_u64 (u64 x) 3 Hx). pose proof (div_u64 (u64 x) 20 Hx).
    unfold is_u64 in *. lia. }
  destruct (eip7883 c); [|destruct (eip2565 c)]; repeat case_match; done || apply H.
Qed.

(** ** Indexing and slicing never panic *)

Lemma size_nonneg b : 0 <= size b.
Proof. unfold size. lia. Qed.

Lemma subslice_ok b i j : 0 <= i <= j -> j <= size b -> subslice b i j = Some (slice i j b).
Proof.
  intros Hi Hj. unfold subslice. by rewrite (proj2 (Z.leb_le 0 i)), (proj2 (Z.leb_le i j)), (proj2 (Z.leb_le j (size b))) by lia.
Qed.

Lemma size_slice b i j : 0 <= i <= j -> j <= size b -> size (slice i j b) = j - i.
Proof. intros Hi Hj. unfold size, slice in *. rewrite length_take, length_drop. lia. Qed.

Lemma at_index_ok b i : 0 <= i < size b -> is_Some (at_index b i).
Proof.
  intros Hi. unfold at_index. rewrite (proj2 (Z.leb_le 0 i)) by lia. apply lookup_lt_is_Some. unfold size in Hi. lia.
Qed.

Lemma output_ok r : is_Some r -> is_Some (output r).
Proof. intros [[a|e] ->]; by eexists. Qed.

Lemma pr_ok_ok {A} (a : A) : is_Some (pr_ok a).
Proof. by eexists. Qed.
Lemma pr_err_ok {A} e : is_Some (pr_err (A := A) e).
Proof. by eexists. Qed.
Lemma pr_some_ok {A} (o : option A) : is_Some o -> is_Some (pr_some o).
Proof. intros [a ->]. by eexists. Qed.

Lemma pr_bind_ok {A B} (m : PR A) (k : A -> PR B) : is_Some m -> (forall a, is_Some (k a)) -> is_Some (pr_bind m k).
Proof. intros [[a|e] ->] Hk; simpl; [apply Hk|by eexists]. Qed.

Lemma pr_slice_ok {A} b i j (k : list Z -> PR A) : 0 <= i <= j -> j <= size b ->
  (size (slice i j b) = j - i -> is_Some (k (slice i j b))) -> is_Some (pr_bind (pr_some (subslice b i j)) k).
Proof. intros Hi Hj Hk. rewrite subslice_ok by done. simpl. by apply Hk, size_slice. Qed.

Lemma slice_ok {A} b i j (k : list Z -> option A) : 0 <= i <= j -> j <= size b ->
  (size (slice i j b) = j - i -> is_Some (k (slice i j b))) -> is_Some (subslice b i j ≫= k).
Proof. intros Hi Hj Hk. rewrite subslice_ok by done. simpl. by apply Hk, size_slice. Qed.

Lemma getData_ok b i l : 0 <= i <= 2 ^ 32 -> 0 <= l <= 2 ^ 32 -> is_Some (getData b i l).
Proof.
  intros Hi Hl. unfold getData. cbv zeta. fold (size b). pose proof (size_nonneg b).
  set (st := if size b <? i then size b else i).
  assert (0 <= st <= i /\ st <= size b) as Hst by (subst st; destruct (Z.ltb_spec (size b) i); lia). clearbody st.
  rewrite (u64_small (st + l)) by (unfold is_u64; lia).
  rewrite (proj2 (Z.ltb_ge _ st)); [by eexists|]. destruct (Z.ltb_spec (size b) (st + l)); lia.
Qed.

Lemma top_bytes_ok b n : forall i, 0 <= i -> i + Z.of_nat n <= size b -> is_Some (top_bytes b i n).
Proof.
  induction n as [|n IH]; intros i Hi Hn; [by eexists|]. cbn [top_bytes].
  apply pr_bind_ok; [apply pr_some_ok, at_index_ok; lia|]. intros x. destruct (negb _); [by eexists|apply IH; lia].
Qed.

Lemma decode_element_ok b : is_Some (decodeBLS12381FieldElement b).
Proof.
  unfold decodeBLS12381FieldElement. destruct (Z.eqb_spec (size b) 64) as [E|]; [simpl negb; cbv iota|by eexists].
  apply pr_bind_ok; [apply top_bytes_ok; lia|]. intros _. apply pr_slice_ok; [lia..|]. intros _.
  destruct (fp_Element _); by eexists.
Qed.

Lemma decode_at_ok {A} (decode : list Z -> PR A) b i j : 0 <= i <= j -> j <= size b ->
  (forall b', is_Some (decode b')) -> is_Some (decode_at decode b i j).
Proof. intros Hi Hj Hd. unfold decode_at. apply pr_slice_ok; [done..|]. intros _. apply Hd. Qed.

Lemma element_at_ok b i j : 0 <= i <= j -> j <= size b -> is_Some (element_at b i j).
Proof. intros Hi Hj. apply (decode_at_ok decodeBLS12381FieldElement); try done. apply decode_element_ok. Qed.

Lemma decodePointG1_ok b : is_Some (decodePointG1 b).
Proof.
  unfold decodePointG1. destruct (Z.eqb_spec (size b) 128) as [E|]; [simpl negb; cbv iota|by eexists].
  repeat (apply pr_bind_ok; [apply element_at_ok; lia|intros ?]). destruct (G1_IsOnCurve _); by eexists.
Qed.

Lemma decodePointG2_ok b : is_Some (decodePointG2 b).
Proof.
  unfold decodePointG2. destruct (Z.eqb_spec (size b) 256) as [E|]; [simpl negb; cbv iota|by eexists].
  repeat (apply pr_bind_ok; [apply element_at_ok; lia|intros ?]). destruct (G2_IsOnCurve _); by eexists.
Qed.

Lemma read_chunks_ok {A} (read : list Z -> Z -> PR A) width b n : forall off, 0 < width ->
  0 <= off -> off + Z.of_nat n * width <= size b ->
  (forall i, 0 <= i -> i + width <= size b -> is_Some (read b i)) -> is_Some (read_chunks read width b n off).
Proof.
  induction n as [|n IH]; intros off Hw Ho Hn Hr; [by eexists|]. cbn [read_chunks].
  apply pr_bind_ok; [apply Hr; nia|]. intros a. apply pr_bind_ok; [apply IH; done || nia|]. intros rest. by eexists.
Qed.

(** A loop over chunks that fill the input. *)
Lemma chunks_ok {A} (read : list Z -> Z -> PR A) width b : 0 < width ->
  (forall i, 0 <= i -> i + width <= size b -> is_Some (read b i)) ->
  is_Some (read_chunks read width b (Z.to_nat (size b / width)) 0).
Proof.
  intros Hw Hr. pose proof (size_nonneg b). pose proof (Z.mul_div_le (size b) width Hw).
  pose proof (Z.div_pos (size b) width ltac:(lia) Hw). apply read_chunks_ok; try done. rewrite Z2Nat.id by lia. lia.
Qed.

Lemma read_scalar_pair_ok {A} (decode : list Z -> PR A) sub e width b i : 0 <= width -> (forall b', is_Some (decode b')) ->
  0 <= i -> i + (width + 32) <= size b -> is_Some (read_scalar_pair decode sub e width b i).
Proof.
  intros Hw Hd Hi Hs. unfold read_scalar_pair. apply pr_bind_ok; [by apply decode_at_ok; lia || done|]. intros p.
  destruct (negb _); [by eexists|]. apply pr_slice_ok; [lia..|]. intros _. by eexists.
Qed.

Lemma word_at_ok b i : 0 <= i -> i + 8 <= size b -> is_Some (word_at b i).
Proof. intros Hi Hs. unfold word_at. apply slice_ok; [lia..|]. intros _. by eexists. Qed.

Lemma words_at_ok b off n : 0 <= off -> off + Z.of_nat n * 8 <= size b -> is_Some (words_at b off n).
Proof.
  intros Ho Hs. unfold words_at. apply mapM_is_Some_2, Forall_forall. intros i Hi%elem_of_seq. apply word_at_ok; lia.
Qed.

Create HintDb precompiles discriminated.
#[local] Hint Resolve pr_ok_ok pr_err_ok decode_element_ok decodePointG1_ok decodePointG2_ok : precompiles.

(** A step of a run: the next slice, index or decoder is inside the input. *)
Ltac run_step :=
  match goal with
  | |- is_Some (output (if ?b then _ else _)) => destruct b
  | |- is_Some (output _) => apply output_ok
  | |- is_Some (pr_bind (pr_some (subslice _ _ _)) _) => apply pr_slice_ok; [lia..|intros ?]
  | |- is_Some (pr_bind (pr_some (getData _ _ _)) _) => apply pr_bind_ok; [by apply pr_some_ok, getData_ok|intros ?]
  | |- is_Some (pr_bind (decode_at _ _ _ _) _) =>
      apply pr_bind_ok; [apply decode_at_ok; [lia..|intros ?; auto with precompiles nocore]|intros ?]
  | |- is_Some (pr_bind (element_at _ _ _) _) => apply pr_bind_ok; [apply element_at_ok; lia|intros ?]
  | |- is_Some (pr_bind (newCurvePoint _) _) => apply pr_bind_ok; [unfold newCurvePoint; by case_match|intros ?]
  | |- is_Some (pr_bind (newTwistPoint _) _) => apply pr_bind_ok; [unfold newTwistPoint; by case_match|intros ?]
  | |- is_Some (subslice _ _ _ ≫= _) => apply slice_ok; [lia..|intros ?]
  | |- is_Some (copy_input _ _ _ ≫= _) => unfold copy_input at 1; rewrite subslice_ok by lia; cbn [mbind option_bind]
  | |- is_Some (if ?b then _ else _) => destruct b
  | |- is_Some _ => solve [auto with precompiles nocore]
  end.

Lemma bn_pairing_runs input : is_Some (runBn256Pairing input).
Proof.
  unfold runBn256Pairing. destruct (Z.ltb_spec 0 (size input mod 192)); [by eexists|].
  pose proof (size_nonneg input). pose proof (Z.mod_pos_bound (size input) 192 ltac:(done)).
  assert ((size input + 191) / 192 = size input / 192) as ->.
  { pose proof (Z.div_mod (size input) 192 ltac:(done)) as E. set (q := size input / 192) in *.
    replace (size input + 191) with (191 + q * 192) by lia. by rewrite Z.div_add. }
  apply output_ok, pr_bind_ok; [|intros ?; by eexists]. apply chunks_ok; [done|].
  intros i Hi Hs. unfold read_bn_pair. repeat run_step.
Qed.

Lemma blake2F_runs_on input : is_Some (blake2F_Run input).
Proof.
  unfold blake2F_Run, blake2FInputLength. destruct (Z.eqb_spec (size input) 213) as [E|]; [simpl negb; cbv iota|by eexists].
  destruct (at_index_ok input 212 ltac:(lia)) as [flag ->]. cbn [mbind option_bind].
  destruct (_ && _); [by eexists|]. run_step.
  destruct (words_at_ok input 4 8) as [h ->]; [lia..|]. destruct (words_at_ok input 68 16) as [m ->]; [lia..|].
  destruct (word_at_ok input 196) as [t0 ->]; [lia..|]. destruct (word_at_ok input 204) as [t1 ->]; [lia..|]. by eexists.
Qed.

Lemma multiexp_runs {A} (read : list Z -> Z -> PR A) width input (f : list A -> PR (list Z)) : 0 < width ->
  (forall i, 0 <= i -> i + width <= size input -> is_Some (read input i)) -> (forall l, is_Some (f l)) ->
  is_Some (if (size input =? 0) || negb (size input mod width =? 0) then output (pr_err errBLS12381InvalidInputLength)
           else output (pr_bind (read_chunks read width input (Z.to_nat (size input / width)) 0) f)).
Proof.
  intros Hw Hr Hf. destruct (_ || _); [by eexists|]. apply output_ok, pr_bind_ok; [by apply chunks_ok|exact Hf].
Qed.

(** What the recovery of a key promises: a key is not empty. *)
Class RecoversKeys := recovered_key h sig pub : Ecrecover h sig = Some pub -> pub <> [].
Context {RK : RecoversKeys}.

Lemma ecrecover_Run_returns input : is_Some (ecrecover_Run input).
Proof.
  unfold ecrecover_Run. cbv zeta. assert (128 <= size (RightPadBytes input 128)) as Hs.
  { unfold RightPadBytes, size. destruct (Z.leb_spec 128 (Z.of_nat (length input))); [done|].
    rewrite length_app, length_replicate. lia. }
  set (b := RightPadBytes input 128) in *. clearbody b. do 2 run_step.
  destruct (at_index_ok b 63 ltac:(lia)) as [v ->]. cbn [mbind option_bind]. run_step. run_step; [by eexists|]. do 2 run_step.
  destruct (Ecrecover _ _) as [pub|] eqn:E; [|by eexists]. apply recovered_key in E.
  apply slice_ok; [|done|intros _; by eexists]. destruct pub; [done|]. unfold size. simpl. lia.
Qed.

(** ** The contracts *)

(** A contract that has a price, a word, for every input, and whose run returns when it can be paid for. *)
Definition well_priced (p : PrecompiledContract) : Prop :=
  match p with
  | Basic RequiredGas run =>
      (forall input g, RequiredGas input = Some g -> is_u64 g)
      /\ (forall input, Forall is_byte input -> size input < 2 ^ 63 ->
           exists g, RequiredGas input = Some g /\ (g < payable -> is_Some (run input)))
  | Advanced _ => False
  end.

Context {LL : LibraryLaws LB}.

Lemma modexp_well_priced c : well_priced (bigModExp_contract c).
Proof.
  split; [apply modexp_gas_u64|]. intros input Hb Hs. destruct (RequiredGas_price c input Hb Hs) as (head & E & _).
  eexists. split; [exact E|]. intros Hp. destruct (run_spec c input _ Hb Hs E Hp) as [_ ->].
  unfold modexp_result. destruct (_ && _); by eexists.
Qed.

Lemma well_priced_intro rg run : (forall input g, rg input = Some g -> is_u64 g) ->
  (forall input, is_Some (rg input)) -> (forall input, is_Some (run input)) -> well_priced (Basic rg run).
Proof. intros Hu Hg Hr. split; [done|]. intros input _ _. destruct (Hg input) as [g E]. by exists g. Qed.

Lemma priced_contract rg run : (forall input, is_u64 (rg input)) -> (forall input, is_Some (run input)) ->
  well_priced (Basic (fun input => Some (rg input)) run).
Proof. intros Hu Hr. apply well_priced_intro; [by intros input g [= <-]|by eexists|done]. Qed.

Lemma multiexp_gas_ok table g input width : 0 < width -> 0 < size table -> is_Some (multiexp_gas table g (size input / width)).
Proof.
  intros Hw Ht. unfold multiexp_gas. pose proof (size_nonneg input). pose proof (Z.div_pos (size input) width ltac:(lia) Hw).
  destruct (Z.eqb_spec (size input / width) 0); [by eexists|]. cbv zeta.
  destruct (at_index_ok table (if size input / width <? size table then size input / width - 1 else size table - 1)) as [d ->];
    [destruct (Z.ltb_spec (size input / width) (size table)); lia|by eexists].
Qed.

(** The contracts of a fixed or linear price. *)
Lemma table_well_priced version : Forall well_priced
  [ecrecover; sha256hash; ripemd160hash; dataCopy; bn256AddByzantium; bn256AddIstanbul; bn256ScalarMulByzantium;
   bn256ScalarMulIstanbul; bn256PairingByzantium; bn256PairingIstanbul; kzgPointEvaluation; bls12381G1Add;
   bls12381G2Add; bls12381Pairing; bls12381MapG1; bls12381MapG2; p256Verify version].
Proof.
  repeat (apply Forall_cons; split); [..|constructor]; apply priced_contract; intros input;
    try (apply u64_range || apply ecrecover_Run_returns || apply bn_pairing_runs || done).
  all: try solve [by apply output_ok, pr_ok_ok].
  1-4: unfold runBn256Add, runBn256ScalarMul; repeat run_step.
  - unfold kzgPointEvaluation_Run. destruct (Z.eqb_spec (size input) 192); [simpl negb; cbv iota|by eexists].
    repeat run_step.
  - unfold bls12381G1Add_Run. destruct (Z.eqb_spec (size input) 256); [simpl negb; cbv iota|by eexists]. repeat run_step.
  - unfold bls12381G2Add_Run. destruct (Z.eqb_spec (size input) 512); [simpl negb; cbv iota|by eexists]. repeat run_step.
  - apply multiexp_runs; [done| |auto with precompiles nocore]. intros i Hi Hs. unfold read_bls_pair. repeat run_step.
  - unfold bls12381MapG1_Run. destruct (Z.eqb_spec (size input) 64); [simpl negb; cbv iota|by eexists].
    apply output_ok, pr_bind_ok; [apply decode_element_ok|intros ?; by eexists].
  - unfold bls12381MapG2_Run. destruct (Z.eqb_spec (size input) 128); [simpl negb; cbv iota|by eexists]. repeat run_step.
  - unfold p256Verify_RequiredGas. by destruct (_ && _).
  - unfold p256Verify_Run. destruct (Z.eqb_spec (size input) 160); [simpl negb; cbv iota|by eexists]. repeat run_step.
Qed.

Lemma blake2F_well_priced : well_priced blake2F.
Proof.
  unfold blake2F. apply well_priced_intro; unfold blake2F_RequiredGas, blake2FInputLength; [..|apply blake2F_runs_on].
  - intros input g. destruct (negb _); [by intros [= <-]|]. rewrite bind_Some. intros (b & _ & [= <-]). unfold be_uint32.
    pose proof (Z.mod_pos_bound (be_value b) (2 ^ 32)). unfold is_u64. lia.
  - intros input. destruct (Z.eqb_spec (size input) 213); [simpl negb; cbv iota|by eexists]. run_step. by eexists.
Qed.

Lemma multiexp_well_priced : well_priced bls12381G1MultiExp /\ well_priced bls12381G2MultiExp.
Proof.
  split; apply well_priced_intro; try (intros input g; apply multiexp_gas_u64); try (intros input; by apply multiexp_gas_ok).
  all: intros input; apply multiexp_runs; [done| |auto with precompiles nocore]; intros i Hi Hs.
  all: apply read_scalar_pair_ok; auto with precompiles nocore; lia.
Qed.

(** Rules of a chain without ArbOS. *)
Definition ethereum_rules (rules : Rules) : Prop :=
  IsGreaterEqual60 rules = false /\ IsDia rules = false /\ IsGreaterEqual41 rules = false /\ IsStylus rules = false
  /\ IsArbitrum rules = false.

Lemma find_contract_in a p cs : find_contract a cs = Some p -> p ∈ map snd cs.
Proof.
  induction cs as [|[b q] cs IH]; simpl; [done|]. destruct (a =? b); [intros [= ->]; left|intros H; right; auto].
Qed.

Lemma active_well_priced arbitrum_contracts version rules a p : ethereum_rules rules ->
  active_contracts arbitrum_contracts version rules a = Some p -> well_priced p.
Proof.
  intros (H1 & H2 & H3 & H4 & H5) Hp%find_contract_in. unfold activePrecompiledContracts in Hp.
  rewrite H1, H2, H3, H4, H5 in Hp. pose proof (table_well_priced version) as Ht.
  rewrite !Forall_cons in Ht. destruct_and! Ht.
  repeat match type of Hp with context [if ?b then _ else _] => destruct b end.
  all: simpl in Hp; rewrite ?elem_of_cons in Hp;
    repeat (destruct Hp as [-> | Hp];
      [done || apply modexp_well_priced || apply blake2F_well_priced || apply multiexp_well_priced|]);
    by apply elem_of_nil in Hp.
Qed.

(** C12. A call of a precompiled contract of Ethereum, under the rules of every fork and on every input, with gas below
    2^59, returns: its price is a word, and neither the price nor the run, when it can be paid for, indexes or slices
    outside the input or another slice, whatever the library functions answer; the state is left alone; above the gas the
    call fails with all of it used, and otherwise the price is used and the rest is left.  Of the libraries it is only
    asked that a recovered key is not empty and that big integers are exponentiated ([RecoversKeys], [LibraryLaws]). *)
Theorem precompile_calls_return arbitrum_contracts version rules a p input gas info e : ethereum_rules rules ->
  active_contracts arbitrum_contracts version rules a = Some p ->
  Forall is_byte input -> size input < 2 ^ 63 -> 0 <= gas < payable ->
  exists price r, is_u64 price /\ RunPrecompiledContract p input gas info e = Some (r, e)
    /\ SingleGas (usedMultiGas r) + leftOverGas r = gas
    /\ (if gas <? price then leftOverGas r = 0 /\ cr_err r = Some ErrOutOfGas else leftOverGas r = gas - price).
Proof.
  intros Hr Hp Hb Hs Hg. pose proof (active_well_priced _ _ _ _ _ Hr Hp) as Hw.
  destruct p as [rg run|]; [|done]. destruct Hw as [Hu Hret]. destruct (Hret input Hb Hs) as (g & Eg & Hrun).
  specialize (Hu input g Eg). unfold RunPrecompiledContract. rewrite Eg. cbn [mbind option_bind]. exists g.
  assert (forall x, is_u64 x -> SingleGas (ComputationGas x) = x) as Hsg.
  { intros x Hx. by apply gas_ok_single, new_gas_ok. }
  unfold payable in *. destruct (Z.ltb_spec gas g) as [Hlt|Hge].
  - eexists. split; [done|]. split; [done|]. cbn [leftOverGas usedMultiGas]. rewrite Hsg by (unfold is_u64; lia). by split; [lia|].
  - destruct Hrun as [[out err] ->]; [lia|]. eexists. split; [done|]. split; [done|].
    cbn [leftOverGas usedMultiGas]. rewrite Hsg by done. unfold is_u64 in Hu. lia.
Qed.

(** ** The laws of the interpreter for these contracts *)

(** With the contracts of Ethereum the hypothesis on prices of the gas theorems holds; there is no advanced contract. *)
Lemma ethereum_gas_hooks {EN : Env} arbitrum_contracts version rules : ethereum_rules rules ->
  (forall c input e ret err c' e', contract_wf c -> Gas c <= gas_limit ->
    ExecuteWASM c input e = Some (ret, err, c', e') -> frame_ok c c') ->
  GasHooks (PC := active_contracts arbitrum_contracts version rules).
Proof.
  intros Hr Hw. split; [exact Hw|..].
  - intros a rg f input g Hp%active_well_priced; [|done]. apply Hp.
  - intros a f input gas info e r e' Hp%active_well_priced; done.
Qed.

(** ** Recovering a signer *)

Context {CL : CryptoLaws C}.

Lemma drop_be_bytes n k x : drop k (be_bytes (k + n) x) = be_bytes n x.
Proof. rewrite RlpCodec.be_bytes_app. rewrite drop_app_length'; [done|]. by rewrite be_bytes_length. Qed.

(** The parts of an input of [ecrecover]. *)
Lemma input_parts bh z w br bs tail : length bh = 32%nat -> length z = 31%nat -> length br = 32%nat -> length bs = 32%nat ->
  let input := bh ++ z ++ w :: br ++ bs ++ tail in
  RightPadBytes input 128 = input /\ subslice input 0 32 = Some bh /\ subslice input 32 63 = Some z
  /\ at_index input 63 = Some w /\ subslice input 64 96 = Some br /\ subslice input 96 128 = Some bs
  /\ subslice input 64 128 = Some (br ++ bs).
Proof.
  intros Hh Hz Hr Hs input.
  assert (drop 32 input = z ++ w :: br ++ bs ++ tail) as E32 by (by apply drop_app_length').
  assert (drop 64 input = br ++ bs ++ tail) as E64.
  { replace 64%nat with (32 + 32)%nat by done. rewrite <- drop_drop, E32. rewrite drop_app_ge by lia. by rewrite Hz. }
  assert (drop 96 input = bs ++ tail) as E96.
  { replace 96%nat with (64 + 32)%nat by done. rewrite <- drop_drop, E64. by apply drop_app_length'. }
  assert (128 <= size input) as Hsize
    by (unfold input, size; rewrite !length_app; simpl; rewrite !length_app; lia).
  rewrite !subslice_ok by lia. unfold slice, at_index.
  change (Z.to_nat (32 - 0)) with 32%nat. change (Z.to_nat (63 - 32)) with 31%nat. change (Z.to_nat (96 - 64)) with 32%nat.
  change (Z.to_nat (128 - 96)) with 32%nat. change (Z.to_nat (128 - 64)) with 64%nat. change (Z.to_nat 0) with 0%nat.
  change (Z.to_nat 32) with 32%nat. change (Z.to_nat 64) with 64%nat. change (Z.to_nat 96) with 96%nat.
  rewrite E32, E64, E96. split_and!; try (f_equal; by apply take_app_length').
  - unfold RightPadBytes. rewrite (proj2 (Z.leb_le _ _)); [done|].
    exact Hsize.
  - unfold input. rewrite lookup_app_r by lia. rewrite lookup_app_r by lia. by rewrite Hh, Hz.
  - f_equal. rewrite app_assoc. apply take_app_length'. rewrite length_app. lia.
Qed.

(** C15. The contract [ecrecover], given the hash that a key has signed and the signature in the form of its input,
    whatever follows it, returns the address of the key, which is the one the signers of transactions recover. *)
Theorem ecrecover_finds_signer h k sig tail : 0 <= h < two256 -> Sign h k = Some sig ->
  ecrecover_Run (be_bytes 32 h ++ replicate 31 0 ++ [default 0 (sig !! 64%nat) + 27] ++ take 64 sig ++ tail)
  = Some (replicate 12 0 ++ be_bytes 20 (PubkeyToAddress k), None).
Proof.
  intros Hh Hsig. destruct (Sign_shape h k sig Hsig) as (r & s & v & E & Hr & Hs & Hv).
  pose proof (Sign_recover h k _ Hsig) as Hrec. rewrite E in *. destruct secp_bounds as (_ & HN & HN' & _).
  assert (forall x, 0 <= x < two256 -> be_value (be_bytes 32 x) = x) as Hbe
    by (intros x Hx; rewrite be_value_bytes; by apply Z.mod_small).
  pose proof (be_bytes_length 32 h) as Lh. pose proof (be_bytes_length 32 r) as Lr. pose proof (be_bytes_length 32 s) as Ls.
  pose proof (Hbe h Hh) as Vh. pose proof (Hbe r ltac:(lia)) as Vr. pose proof (Hbe s ltac:(lia)) as Vs.
  set (bh := be_bytes 32 h) in *. set (br := be_bytes 32 r) in *. set (bs := be_bytes 32 s) in *. clearbody bh br bs.
  replace (default 0 ((br ++ bs ++ [v]) !! 64%nat)) with v
    by (rewrite lookup_app_r by lia; rewrite lookup_app_r by lia; by rewrite Lr, Ls).
  replace (take 64 (br ++ bs ++ [v])) with (br ++ bs) by (rewrite app_assoc, take_app_length'; [done|rewrite length_app; lia]).
  rewrite <- app_assoc. simpl app.
  destruct (input_parts bh (replicate 31 0) (v + 27) br bs tail Lh eq_refl Lr Ls) as (P1 & P2 & P3 & P4 & P5 & P6 & P7).
  simpl app in *. unfold ecrecover_Run. rewrite P1, P2, P3, P4, P5, P6, P7. cbn [mbind option_bind]. cbv zeta. rewrite Vh, Vr, Vs.
  replace ((v + 27 - 27) mod 256) with v by (destruct Hv as [-> | ->]; done).
  simpl existsb. rewrite (proj2 (Validate_spec v r s false)) by (split_and!; lia || done).
  simpl orb. cbv iota. rewrite <- app_assoc, Hrec. destruct (pubkey_uncompressed k) as [pub Epub].
  unfold PubkeyToAddress, key_address. rewrite Epub. rewrite subslice_ok by (unfold size; cbn [length]; lia). cbn [mbind option_bind].
  assert (slice 1 (size (4 :: pub)) (4 :: pub) = pub) as ->.
  { unfold slice. change (Z.to_nat 1) with 1%nat. cbn [drop]. rewrite take_ge; [done|]. unfold size. rewrite drop_0. cbn [length]. lia. }
  unfold output, pr_ok. do 2 f_equal.
  rewrite (drop_be_bytes 20 12). rewrite <- (RlpCodec.be_bytes_mod 20). unfold LeftPadBytes, size. rewrite be_bytes_length.
  exact eq_refl.
Qed.
End Theorems.

(** ** Concrete calls *)

Section Witnesses.
Import ToyLibraries.

(** Verkle takes the contracts of Berlin, but the warm addresses of the latest fork. *)
Definition verkle_rules : Rules :=
  mkRules false false false false false 1 0 true true true true true true true true true true true true true true true
    true true true true.

Example verkle_warm_addresses {TE : TxEnv} {HS : Hasher} {C : Crypto} contracts version :
  IsVerkle verkle_rules = true /\ 0x0a ∈ ActivePrecompiles verkle_rules
  /\ active_contracts contracts version verkle_rules 0x0a = None.
Proof. split_and!; [done| |done]. apply list_elem_of_In. vm_compute. tauto. Qed.

Definition prague_rules : Rules :=
  mkRules false false false false false 1 0 true true true true true false true true true true true true true true true
    true false false false.

#[local] Instance toy_keys : RecoversKeys (C := toy_crypto).
Proof. intros h sig pub [= <-]. done. Qed.

(** The fifth test vector of EIP-152: twelve rounds on the only block of [abc]. *)
Definition eip152_input : list Z :=
  be_bytes 4 12 ++ concat (map (le_bytes 8) (abc_state ++ abc_block)) ++ le_bytes 8 3 ++ le_bytes 8 0 ++ [1].

Lemma precompile_calls_return_witness : exists r, RunPrecompiledContract blake2F
    eip152_input 1000 (mkAdvancedPrecompileCall 9 9 0 0 false) (mkEVM NewWithReader ∅ 0 0 false [] false)
    = Some (r, mkEVM NewWithReader ∅ 0 0 false [] false) /\ leftOverGas r = 988.
Proof.
  destruct (precompile_calls_return (HS := toy_hasher) (C := toy_crypto) (fun _ => []) 0 prague_rules 9
    blake2F eip152_input 1000 (mkAdvancedPrecompileCall 9 9 0 0 false)
    (mkEVM NewWithReader ∅ 0 0 false [] false)) as (price & r & _ & E & _).
  - done.
  - done.
  - repeat constructor; by vm_compute.
  - by vm_compute.
  - by vm_compute.
  - exists r. split; [exact E|]. vm_compute in E. injection E as E. by rewrite <- E.
Defined.

Definition toy_signature : list Z := default [] (Sign (Crypto := toy_crypto) 99 toy_key).

Lemma ecrecover_finds_signer_witness :
  ecrecover_Run (HS := toy_hasher) (C := toy_crypto)
    (be_bytes 32 99 ++ replicate 31 0 ++ [default 0 (toy_signature !! 64%nat) + 27] ++ take 64 toy_signature ++ [1; 2])
  = Some (replicate 12 0 ++ be_bytes 20 (PubkeyToAddress (HS := toy_hasher) toy_key), None).
Proof.
  apply (ecrecover_finds_signer (HS := toy_hasher) (CL := toy_laws) 99 toy_key toy_signature [1; 2]); by vm_compute.
Defined.

(** The result of that vector. *)
Example blake2F_runs : option_map (fun r => take 8 r.1) (blake2F_Run eip152_input)
    = Some [0xba; 0x80; 0xa5; 0x3f; 0x98; 0x1c; 0x4d; 0x0d] /\ blake2F_RequiredGas eip152_input = Some 12.
Proof. vm_compute. split; reflexivity. Qed.
End Witnesses.
