(* ===== verification/Lru.v ===== *)
(** The least-recently-used caches: [common/lru/basiclru.go], [lru.go], [blob_lru.go].

    The order of use is kept in a circular doubly-linked list threaded through the
    items, so the model has a heap of list elements and the pointers between them; a
    null pointer that is followed panics.  [entries] is what such a cache promises: a
    list of pairs, the most recently used one first.  The mutex of a [Cache] makes its
    operations atomic and is not modelled. *)

From stdpp Require Import base gmap numbers option sets fin_maps list.
From S2P Require Import Prelude.
Open Scope Z_scope.

(** ** The linked list *)

Module Ring.
Section Ring.
Context {K : Type} `{!Inhabited K}.

(** The address of an element is its position in the heap; the root of the list is
    the element 0, and [None] the null pointer. *)
Record listElem := mkElem { next : option nat; prev : option nat; v : K }.
Abbreviation heap := (list listElem).
Definition root : option nat := Some 0%nat.

Definition load (p : option nat) (h : heap) : option listElem := a ← p; h !! a.
Definition modify (p : option nat) (f : listElem -> listElem) (h : heap) : option heap :=
  a ← p; x ← h !! a; Some (<[a := f x]> h).
Definition set_next (p q : option nat) : heap -> option heap := modify p (fun x => mkElem q (prev x) (v x)).
Definition set_prev (p q : option nat) : heap -> option heap := modify p (fun x => mkElem (next x) q (v x)).
Definition set_v (p : option nat) (k : K) : heap -> option heap := modify p (fun x => mkElem (next x) (prev x) k).

(** [new(listElem[K])] *)
Definition new_elem (h : heap) : option nat * heap := (Some (length h), h ++ [mkElem None None inhabitant]).

Definition init (h : heap) : option heap := h ← set_next root root h; set_prev root root h.
Definition newList : heap := [mkElem root root inhabitant].

Definition pushElem (e : option nat) (h : heap) : option heap :=
  h ← set_prev e root h;
  r ← load root h;
  h ← set_next e (next r) h;
  h ← set_next root e h;
  x ← load e h;
  set_prev (next x) e h.

Definition unlink (e : option nat) (h : heap) : option heap :=
  x ← load e h;
  h ← set_next (prev x) (next x) h;
  x ← load e h;
  set_prev (next x) (prev x) h.

Definition moveToFront (e : option nat) (h : heap) : option heap := h ← unlink e h; pushElem e h.

Definition remove (e : option nat) (h : heap) : option heap :=
  h ← unlink e h; h ← set_next e None h; set_prev e None h.

Definition last (h : heap) : option (option nat) :=
  r ← load root h;
  if decide (prev r = root) then Some None else Some (prev r).

Definition removeLast (h : heap) : option (option nat * heap) :=
  e ← last h;
  match e with None => Some (None, h) | Some _ => h ← remove e h; Some (e, h) end.

(** The list has at most as many elements as the heap. *)
Fixpoint appendTo_from (fuel : nat) (e : option nat) (h : heap) (slice : list K) : option (list K) :=
  match fuel with
  | O => None
  | S fuel =>
      if decide (e = root) then Some slice
      else x ← load e h; appendTo_from fuel (prev x) h (slice ++ [v x])
  end.
Definition appendTo (h : heap) (slice : list K) : option (list K) :=
  r ← load root h; appendTo_from (length h) (prev r) h slice.

(** *** What a heap that holds a list looks like *)

Definition nx (h : heap) (a : nat) : option nat := x ← h !! a; next x.
Definition pv (h : heap) (a : nat) : option nat := x ← h !! a; prev x.
Definition vl (h : heap) (a : nat) : option K := v <$> h !! a.

Definition link (h : heap) (a b : nat) : Prop := nx h a = Some b /\ pv h b = Some a.

(** From [a] over the elements [ls] to [b]; [front] stops at the last of them. *)
Fixpoint path (h : heap) (a : nat) (ls : list nat) (b : nat) : Prop :=
  match ls with [] => link h a b | x :: ls => link h a x /\ path h x ls b end.
Fixpoint front (h : heap) (a : nat) (ls : list nat) (p : nat) : Prop :=
  match ls with [] => p = a | x :: ls => link h a x /\ front h x ls p end.

Definition ring (h : heap) (ls : list nat) : Prop := path h 0%nat ls 0%nat /\ NoDup (0%nat :: ls).

Lemma nx_dom h a b : nx h a = Some b -> (a < length h)%nat.
Proof. unfold nx. destruct (h !! a) eqn:E; [|done]. intros _. by eapply lookup_lt_Some. Qed.
Lemma pv_dom h a b : pv h a = Some b -> (a < length h)%nat.
Proof. unfold pv. destruct (h !! a) eqn:E; [|done]. intros _. by eapply lookup_lt_Some. Qed.

Lemma path_app h a l1 x l2 b : path h a (l1 ++ x :: l2) b <-> path h a l1 x /\ path h x l2 b.
Proof. revert a. induction l1 as [|y l1 IH]; intros a; simpl; [done|]. rewrite IH. naive_solver. Qed.

Lemma path_front h a ls b : path h a ls b <-> exists p, front h a ls p /\ link h p b.
Proof. revert a. induction ls as [|y ls IH]; intros a; simpl; [naive_solver|]. rewrite IH. naive_solver. Qed.

Lemma front_last h a ls p : front h a ls p -> p ∈ a :: ls.
Proof.
  revert a. induction ls as [|y ls IH]; intros a; simpl.
  - intros ->. by left.
  - intros [_ Hf]. right. by apply IH.
Qed.

Lemma path_dom h a ls b : path h a ls b -> Forall (fun x => (x < length h)%nat) (a :: ls).
Proof.
  revert a. induction ls as [|y ls IH]; intros a; simpl.
  - intros [Hn _]. constructor; [by eapply nx_dom|done].
  - intros [[Hn _] Hp]. constructor; [by eapply nx_dom|by apply IH].
Qed.

(** A path reads the [next] of all but its end and the [prev] of all but its start. *)
Lemma path_frame h h' a ls b : (forall x, x ∈ a :: ls -> nx h' x = nx h x) ->
  (forall x, x ∈ ls ++ [b] -> pv h' x = pv h x) -> path h a ls b -> path h' a ls b.
Proof.
  revert a. induction ls as [|y ls IH]; intros a Hn Hp; simpl; unfold link.
  - rewrite Hn, Hp by set_solver. done.
  - rewrite Hn, Hp by set_solver. intros [Hl Hpa]. split; [done|].
    apply IH; set_solver.
Qed.

Lemma front_frame h h' a ls p : (forall x, x ∈ a :: ls -> x <> p -> nx h' x = nx h x) -> NoDup (a :: ls) ->
  (forall x, x ∈ ls -> pv h' x = pv h x) -> front h a ls p -> front h' a ls p.
Proof.
  revert a. induction ls as [|y ls IH]; intros a Hn Hnd Hp; simpl; [done|].
  intros [Hl Hf]. pose proof (front_last _ _ _ _ Hf) as Hin.
  apply NoDup_cons in Hnd as [Ha Hnd]. split.
  - unfold link. rewrite Hn, Hp by set_solver. done.
  - apply IH; [|done| |done]; set_solver.
Qed.

(** The pointers after one assignment. *)
Lemma modify_spec a f h : (a < length h)%nat -> exists h', modify (Some a) f h = Some h' /\ length h' = length h
  /\ forall b, h' !! b = if decide (b = a) then f <$> h !! a else h !! b.
Proof.
  intros Ha. unfold modify. simpl. destruct (lookup_lt_is_Some_2 h a Ha) as [x Hx]. rewrite Hx. simpl.
  eexists. split; [reflexivity|]. split; [by rewrite length_insert|].
  intros b. destruct (decide (b = a)) as [->|]; [by rewrite list_lookup_insert_eq|by rewrite list_lookup_insert_ne].
Qed.

Ltac field_spec lem :=
  intros Ha; unfold set_next, set_prev, set_v; destruct (modify_spec _ lem _ Ha) as (h' & -> & Hl & Hh);
  exists h'; split; [done|]; split; [done|];
  repeat split; intros b; unfold nx, pv, vl; rewrite Hh;
  (destruct (decide (b = _)) as [->|]; [|done]);
  destruct (lookup_lt_is_Some_2 _ _ Ha) as [x Hx]; by rewrite Hx.

Lemma set_next_spec a q h : (a < length h)%nat -> exists h', set_next (Some a) q h = Some h' /\ length h' = length h
  /\ (forall b, nx h' b = if decide (b = a) then q else nx h b)
  /\ (forall b, pv h' b = pv h b) /\ (forall b, vl h' b = vl h b).
Proof. field_spec (fun x => mkElem q (prev x) (v x)). Qed.

Lemma set_prev_spec a q h : (a < length h)%nat -> exists h', set_prev (Some a) q h = Some h' /\ length h' = length h
  /\ (forall b, nx h' b = nx h b)
  /\ (forall b, pv h' b = if decide (b = a) then q else pv h b) /\ (forall b, vl h' b = vl h b).
Proof. field_spec (fun x => mkElem (next x) q (v x)). Qed.

Lemma set_v_spec a k h : (a < length h)%nat -> exists h', set_v (Some a) k h = Some h' /\ length h' = length h
  /\ (forall b, nx h' b = nx h b)
  /\ (forall b, pv h' b = pv h b) /\ (forall b, vl h' b = if decide (b = a) then Some k else vl h b).
Proof. field_spec (fun x => mkElem (next x) (prev x) k). Qed.

Lemma load_spec a h : (a < length h)%nat ->
  exists x, load (Some a) h = Some x /\ next x = nx h a /\ prev x = pv h a /\ vl h a = Some (v x).
Proof.
  intros Ha. unfold load, nx, pv, vl. simpl. destruct (lookup_lt_is_Some_2 h a Ha) as [x ->]. by exists x.
Qed.

(** *** The operations on a ring *)

Ltac step_in := cbn [mbind option_bind].
Ltac next_write :=
  match goal with
  | |- context [set_next (Some ?a) ?q ?h] =>
      let H := fresh "Hs" in let h' := fresh "h" in
      destruct (set_next_spec a q h) as (h' & H & ? & ? & ? & ?); [lia|rewrite H; clear H; step_in]
  | |- context [set_prev (Some ?a) ?q ?h] =>
      let H := fresh "Hs" in let h' := fresh "h" in
      destruct (set_prev_spec a q h) as (h' & H & ? & ? & ? & ?); [lia|rewrite H; clear H; step_in]
  end.

Ltac next_load :=
  match goal with
  | |- context [load (Some ?a) ?h] =>
      let H := fresh "Hs" in let x := fresh "el" in let Hn := fresh "Hn" in let Hp := fresh "Hp" in
      destruct (load_spec a h) as (x & H & Hn & Hp & ?); [lia|rewrite H; clear H; step_in; rewrite ?Hn, ?Hp; clear Hn Hp]
  end.

(** Read a pointer through the assignments made so far. *)
Ltac read_through := repeat match goal with H : forall b, ?f b = _ |- _ => progress rewrite ?H end.
Ltac read_fields := read_through; repeat (first [rewrite decide_True by congruence | rewrite decide_False by congruence]).

(** The pointers after [pushElem]. *)
Lemma pushElem_fields e f h : e <> 0%nat -> (e < length h)%nat -> (f < length h)%nat -> f <> e -> nx h 0 = Some f ->
  exists h', pushElem (Some e) h = Some h' /\ length h' = length h
  /\ (forall b, nx h' b = if decide (b = 0%nat) then Some e else if decide (b = e) then Some f else nx h b)
  /\ (forall b, pv h' b = if decide (b = f) then Some e else if decide (b = e) then Some 0%nat else pv h b)
  /\ (forall b, vl h' b = vl h b).
Proof.
  intros He0 He Hf Hfe H0. unfold pushElem, root. next_write. next_load.
  assert (nx h0 0 = Some f) as -> by (by read_through).
  next_write. next_write. next_load.
  assert (nx h2 e = Some f) as -> by (by read_fields).
  next_write. eexists. split; [reflexivity|]. split; [congruence|].
  split_and!; intros b; read_through; repeat case_decide; congruence.
Qed.

(** An element that is not on the list becomes its first. *)
Lemma pushElem_ring e ls h : ring h ls -> e ∉ 0%nat :: ls -> (e < length h)%nat ->
  exists h', pushElem (Some e) h = Some h' /\ length h' = length h /\ ring h' (e :: ls) /\ (forall b, vl h' b = vl h b).
Proof.
  intros [Hp Hnd] He Hlt. assert (e <> 0%nat) as He0 by set_solver.
  assert (exists f, nx h 0 = Some f /\ f <> e /\ (f < length h)%nat /\ pv h f = Some 0%nat
    /\ (f = 0%nat /\ ls = [] \/ exists ls', ls = f :: ls' /\ path h f ls' 0%nat)) as (f & H0 & Hfe & Hf & Hpf & Hls).
  { destruct ls as [|x ls]; simpl in Hp.
    - destruct Hp as [Hn Hpv]. exists 0%nat. split_and!; auto. by eapply pv_dom.
    - destruct Hp as [[Hn Hpv] Hp]. exists x. split_and!; [done|set_solver|by eapply pv_dom|done|right; by eexists]. }
  destruct (pushElem_fields e f h He0 Hlt Hf Hfe H0) as (h' & -> & Hl & Hnx & Hpv & Hvl).
  exists h'. split_and!; [done|done| |done].
  split; [|apply NoDup_cons in Hnd as [? ?]; rewrite !NoDup_cons; set_solver].
  simpl. split; [split; rewrite ?Hnx, ?Hpv; by read_fields|].
  destruct Hls as [[-> ->]|(ls' & -> & Hp')]; simpl.
  - split; rewrite ?Hnx, ?Hpv; by read_fields.
  - split; [split; rewrite ?Hnx, ?Hpv; by read_fields|].
    rewrite !NoDup_cons in Hnd. destruct Hnd as (? & ? & ?).
    revert Hp'. apply path_frame; intros x Hx.
    + rewrite Hnx, !decide_False; [done|set_solver..].
    + rewrite Hpv, !decide_False; [done|set_solver..].
Qed.

(** An element of the list is passed over by its neighbours. *)
Lemma unlink_ring e l1 l2 h : ring h (l1 ++ e :: l2) ->
  exists h', unlink (Some e) h = Some h' /\ length h' = length h /\ ring h' (l1 ++ l2) /\ (forall b, vl h' b = vl h b).
Proof.
  intros [Hp Hnd]. pose proof (path_dom _ _ _ _ Hp) as Hdom. apply path_app in Hp as [Hp1 Hp2].
  apply path_front in Hp1 as (p & Hf & Hnp & Hpe).
  assert (exists s, nx h e = Some s /\ pv h s = Some e
    /\ (s = 0%nat /\ l2 = [] \/ exists l3, l2 = s :: l3 /\ path h s l3 0%nat)) as (s & Hne & Hps & Hl2).
  { destruct l2 as [|x l2]; simpl in Hp2; destruct Hp2.
    - exists 0%nat. auto.
    - exists x. unfold link in *. naive_solver. }
  pose proof (front_last _ _ _ _ Hf) as Hpin.
  rewrite NoDup_cons, NoDup_app, NoDup_cons in Hnd. destruct Hnd as (H0 & Hnd1 & H12 & He2 & Hnd2).
  rewrite elem_of_app, elem_of_cons in H0.
  assert (p <> e) by (intros ->; set_solver).
  assert (s <> e) by (destruct Hl2 as [[-> ->]|(l3 & -> & _)]; set_solver).
  unfold unlink. assert (e < length h)%nat by by eapply nx_dom.
  assert (p < length h)%nat by by eapply nx_dom. assert (s < length h)%nat by by eapply pv_dom.
  next_load. rewrite Hne, Hpe. next_write. next_load.
  assert (nx h0 e = Some s) as -> by (by read_fields). assert (pv h0 e = Some p) as -> by (by read_fields).
  next_write. eexists. split; [reflexivity|]. split; [congruence|].
  split; [|intros b; by read_through].
  split; [|rewrite NoDup_cons, NoDup_app; set_solver].
  assert (front h1 0 l1 p) as Hf1.
  { revert Hf. apply front_frame; [..|constructor; set_solver|]; intros x Hx; read_through.
    - intros. by rewrite decide_False.
    - rewrite decide_False; [done|]. destruct Hl2 as [[-> ->]|(l3 & -> & _)]; set_solver. }
  assert (link h1 p s) as Hps1 by (split; read_fields; done).
  destruct Hl2 as [[-> ->]|(l3 & -> & Hp3)].
  - rewrite app_nil_r. apply path_front. by exists p.
  - apply path_app. split; [apply path_front; by exists p|].
    apply NoDup_cons in Hnd2 as [? ?].
    revert Hp3. apply path_frame; intros x Hx; read_through; rewrite decide_False; try done; set_solver.
Qed.

Lemma ring_frame h h' ls : (forall x, x ∈ 0%nat :: ls -> nx h' x = nx h x /\ pv h' x = pv h x) -> ring h ls -> ring h' ls.
Proof.
  intros Heq [Hp Hnd]. split; [|done]. revert Hp. apply path_frame; intros x Hx; apply Heq; [done|].
  apply elem_of_app in Hx as [Hx|Hx]; [by right|apply list_elem_of_singleton in Hx as ->; by left].
Qed.

Lemma remove_ring e l1 l2 h : ring h (l1 ++ e :: l2) ->
  exists h', remove (Some e) h = Some h' /\ length h' = length h /\ ring h' (l1 ++ l2) /\ (forall b, vl h' b = vl h b).
Proof.
  intros Hr. pose proof Hr as [Hp Hnd]. pose proof (path_dom _ _ _ _ Hp) as Hdom.
  rewrite Forall_forall in Hdom. assert (e < length h)%nat by (apply Hdom; set_solver).
  destruct (unlink_ring _ _ _ _ Hr) as (h1 & Hu & Hl1 & Hr1 & Hv1). unfold remove. rewrite Hu. step_in.
  next_write. next_write. eexists. split; [reflexivity|]. split; [congruence|].
  split; [|intros b; by read_through].
  rewrite NoDup_cons, NoDup_app, NoDup_cons in Hnd.
  revert Hr1. apply ring_frame; intros x Hx; read_through; rewrite !decide_False; try done; set_solver.
Qed.

Lemma last_ring h ls : ring h ls -> last h = Some (list.last ls).
Proof.
  intros [Hp Hnd]. unfold last, root. pose proof (path_dom _ _ _ _ Hp) as Hdom. inversion_clear Hdom.
  next_load. destruct ls as [|e ls' _] using rev_ind.
  - destruct Hp as [_ Hpv]. by rewrite Hpv, decide_True.
  - rewrite last_snoc. apply path_app in Hp as [_ [_ Hpv]]. rewrite Hpv.
    rewrite decide_False; [done|]. intros [= ->]. rewrite NoDup_cons in Hnd. set_solver.
Qed.

Lemma removeLast_ring ls e h : ring h (ls ++ [e]) ->
  exists h', removeLast h = Some (Some e, h') /\ length h' = length h /\ ring h' ls /\ (forall b, vl h' b = vl h b).
Proof.
  intros Hr. unfold removeLast. rewrite (last_ring _ _ Hr), last_snoc. step_in.
  destruct (remove_ring _ _ _ _ Hr) as (h' & -> & Hl & Hr' & Hv). rewrite app_nil_r in Hr'. by exists h'.
Qed.

Lemma appendTo_path h ls fuel e slice : path h 0%nat ls e -> 0%nat ∉ ls -> (length ls < fuel)%nat ->
  exists ks, Forall2 (fun a k => vl h a = Some k) ls ks
    /\ appendTo_from fuel (pv h e) h slice = Some (slice ++ reverse ks).
Proof.
  revert fuel e slice. induction ls as [|a ls IH] using rev_ind; intros fuel e slice Hp H0 Hf.
  - destruct Hp as [_ ->]. destruct fuel; [simpl in Hf; lia|]. exists []. simpl. by rewrite app_nil_r.
  - apply path_app in Hp as [Hp [Hn Hpe]]. rewrite length_app in Hf. simpl in Hf.
    destruct fuel as [|fuel]; [lia|]. rewrite Hpe. unfold root. cbn [appendTo_from]. unfold root.
    rewrite decide_False by (intros [= ->]; set_solver).
    assert (a < length h)%nat by by eapply nx_dom. next_load.
    destruct (IH fuel a (slice ++ [v el]) Hp) as (ks & Hks & ->); [set_solver|lia|].
    exists (ks ++ [v el]). split; [apply Forall2_app; auto|]. by rewrite reverse_snoc, <- app_assoc.
Qed.

Lemma ring_length h ls : ring h ls -> (length ls < length h)%nat.
Proof.
  intros [Hp Hnd]. pose proof (path_dom _ _ _ _ Hp) as Hdom.
  assert (length (0%nat :: ls) <= length (seq 0 (length h)))%nat as Hle.
  { apply submseteq_length, NoDup_submseteq; [done|]. intros x Hx. rewrite Forall_forall in Hdom.
    apply elem_of_seq. specialize (Hdom x Hx). lia. }
  rewrite length_seq in Hle. simpl in Hle. lia.
Qed.

(** [appendTo] lists the elements from the last to the first and does not run out of fuel. *)
Lemma appendTo_ring h ls slice : ring h ls -> exists ks, Forall2 (fun a k => vl h a = Some k) ls ks
  /\ appendTo h slice = Some (slice ++ reverse ks).
Proof.
  intros Hr. pose proof (ring_length _ _ Hr). destruct Hr as [Hp Hnd]. apply NoDup_cons in Hnd as [H0 _].
  unfold appendTo, root. next_load. by apply appendTo_path.
Qed.

Lemma init_ring h : (0 < length h)%nat -> exists h', init h = Some h' /\ length h' = length h /\ ring h' []
  /\ (forall b, vl h' b = vl h b).
Proof.
  intros Hl. unfold init, root. next_write. next_write. eexists. split; [reflexivity|]. split; [congruence|].
  split; [|intros b; by read_through].
  split; [split; by read_fields|apply NoDup_singleton].
Qed.

Lemma newList_ring : ring newList [].
Proof. split; [done|apply NoDup_singleton]. Qed.

(** A new element is not on any list. *)
Lemma new_elem_ring h ls : ring h ls -> exists h', new_elem h = (Some (length h), h') /\ ring h' ls
  /\ length h' = S (length h) /\ (length h ∉ 0%nat :: ls) /\ (forall b, (b < length h)%nat -> vl h' b = vl h b).
Proof.
  intros Hr. pose proof Hr as [Hp Hnd]. pose proof (path_dom _ _ _ _ Hp) as Hdom. rewrite Forall_forall in Hdom.
  eexists. split; [reflexivity|]. split_and!.
  - revert Hr. apply ring_frame. intros x Hx. unfold nx, pv. by rewrite lookup_app_l by by apply Hdom.
  - rewrite length_app. simpl. lia.
  - intros Hin. apply Hdom in Hin. lia.
  - intros b Hb. unfold vl. by rewrite lookup_app_l.
Qed.

Lemma set_v_ring e k h ls : ring h ls -> (e < length h)%nat -> exists h', set_v (Some e) k h = Some h' /\ ring h' ls
  /\ length h' = length h /\ (forall b, vl h' b = if decide (b = e) then Some k else vl h b).
Proof.
  intros Hr He. destruct (set_v_spec e k h He) as (h' & -> & Hl & Hn & Hp & Hv). eexists. split_and!; [done| |done|done].
  revert Hr. apply ring_frame. by intros x _.
Qed.

Lemma moveToFront_ring e l1 l2 h : ring h (l1 ++ e :: l2) ->
  exists h', moveToFront (Some e) h = Some h' /\ ring h' (e :: l1 ++ l2) /\ (forall b, vl h' b = vl h b).
Proof.
  intros Hr. pose proof Hr as [Hp Hnd]. pose proof (path_dom _ _ _ _ Hp) as Hdom. rewrite Forall_forall in Hdom.
  destruct (unlink_ring _ _ _ _ Hr) as (h1 & Hu & Hl1 & Hr1 & Hv1). unfold moveToFront. rewrite Hu. step_in.
  rewrite NoDup_cons, NoDup_app, NoDup_cons in Hnd.
  destruct (pushElem_ring e (l1 ++ l2) h1) as (h2 & -> & _ & Hr2 & Hv2); [done|set_solver| |].
  - rewrite Hl1. apply Hdom. set_solver.
  - exists h2. split_and!; [done|done|]. intros b. by rewrite Hv2.
Qed.

End Ring.
Arguments listElem : clear implicits.
#[global] Arguments load : simpl never.
#[global] Arguments set_v : simpl never.
#[global] Arguments pushElem : simpl never.
#[global] Arguments new_elem : simpl never.
End Ring.

(** ** The cache *)

Module BasicLRU.
Section Cache.
Context {K V : Type} `{Countable K} `{!Inhabited K, !Inhabited V}.

Record cacheItem := mkItem { elem : option nat; value : V }.
Record t := mkLru { list_ : list (Ring.listElem K); items : gmap K cacheItem; cap : Z }.

Definition NewBasicLRU (capacity : Z) : t :=
  mkLru Ring.newList ∅ (if capacity <=? 0 then 1 else capacity).

Definition set_list (l : list (Ring.listElem K)) (c : t) : t := mkLru l (items c) (cap c).
Definition set_items (m : gmap K cacheItem) (c : t) : t := mkLru (list_ c) m (cap c).

Definition Len (c : t) : Z := Z.of_nat (size (items c)).
Definition Capacity (c : t) : Z := cap c.
Definition Contains (key : K) (c : t) : bool := bool_decide (is_Some (items c !! key)).
Definition Peek (key : K) (c : t) : option V := value <$> items c !! key.

(** [c.items[key].value], the zero value for a key that is absent. *)
Definition value_of (key : K) (c : t) : V := default inhabitant (Peek key c).

(** The item that had to make room, if any. *)
Definition Add3 (key : K) (val : V) (c : t) : option (option (K * V) * t) :=
  match items c !! key with
  | Some item =>
      h ← Ring.moveToFront (elem item) (list_ c);
      Some (None, mkLru h (<[key := mkItem (elem item) val]> (items c)) (cap c))
  | None =>
      '(evicted, el, h, m) ←
        (if cap c <=? Len c then
           '(el, h) ← Ring.removeLast (list_ c);
           e ← Ring.load el h;
           let ek := Ring.v e in
           Some (Some (ek, value_of ek c), el, h, delete ek (items c))
         else let '(el, h) := Ring.new_elem (list_ c) in Some (None, el, h, items c));
      h ← Ring.set_v el key h;
      h ← Ring.pushElem el h;
      Some (evicted, mkLru h (<[key := mkItem el val]> m) (cap c))
  end.

Definition Add (key : K) (val : V) (c : t) : option (bool * t) :=
  '(evicted, c) ← Add3 key val c; Some (bool_decide (is_Some evicted), c).

Definition Get (key : K) (c : t) : option (option V * t) :=
  match items c !! key with
  | None => Some (None, c)
  | Some item => h ← Ring.moveToFront (elem item) (list_ c); Some (Some (value item), set_list h c)
  end.

Definition GetOldest (c : t) : option (option (K * V)) :=
  lastElem ← Ring.last (list_ c);
  match lastElem with
  | None => Some None
  | Some _ => e ← Ring.load lastElem (list_ c); Some (Some (Ring.v e, value_of (Ring.v e) c))
  end.

Definition Purge (c : t) : option t := h ← Ring.init (list_ c); Some (mkLru h ∅ (cap c)).

Definition Remove (key : K) (c : t) : option (bool * t) :=
  match items c !! key with
  | None => Some (false, c)
  | Some item => h ← Ring.remove (elem item) (list_ c); Some (true, mkLru h (delete key (items c)) (cap c))
  end.

Definition RemoveOldest (c : t) : option (option (K * V) * t) :=
  lastElem ← Ring.last (list_ c);
  match lastElem with
  | None => Some (None, c)
  | Some _ =>
      e ← Ring.load lastElem (list_ c);
      h ← Ring.remove lastElem (list_ c);
      Some (Some (Ring.v e, value_of (Ring.v e) c), mkLru h (delete (Ring.v e) (items c)) (cap c))
  end.

Definition Keys (c : t) : option (list K) := Ring.appendTo (list_ c) [].

(** ** What a cache promises

    The entries in the order of their last use, with the most recent one first. *)

Abbreviation entries := (list (K * V)).

Definition find (key : K) (l : entries) : option V :=
  foldr (fun p rest => if decide (p.1 = key) then Some p.2 else rest) None l.
Definition without (key : K) (l : entries) : entries := filter (fun p => p.1 <> key) l.
Definition touch (key : K) (val : V) (l : entries) : entries := (key, val) :: without key l.

Inductive op :=
| OpAdd (key : K) (val : V)
| OpGet (key : K)
| OpPeek (key : K)
| OpContains (key : K)
| OpRemove (key : K)
| OpRemoveOldest
| OpGetOldest
| OpPurge
| OpLen
| OpKeys.

Inductive answer :=
| AnsEntry (e : option (K * V))
| AnsValue (o : option V)
| AnsBool (b : bool)
| AnsLen (n : Z)
| AnsKeys (ks : list K)
| AnsUnit.

Definition step (o : op) (c : t) : option (answer * t) :=
  match o with
  | OpAdd k x => '(e, c) ← Add3 k x c; Some (AnsEntry e, c)
  | OpGet k => '(o, c) ← Get k c; Some (AnsValue o, c)
  | OpPeek k => Some (AnsValue (Peek k c), c)
  | OpContains k => Some (AnsBool (Contains k c), c)
  | OpRemove k => '(b, c) ← Remove k c; Some (AnsBool b, c)
  | OpRemoveOldest => '(e, c) ← RemoveOldest c; Some (AnsEntry e, c)
  | OpGetOldest => e ← GetOldest c; Some (AnsEntry e, c)
  | OpPurge => c ← Purge c; Some (AnsUnit, c)
  | OpLen => Some (AnsLen (Len c), c)
  | OpKeys => ks ← Keys c; Some (AnsKeys ks, c)
  end.

Definition spec_step (cap : Z) (o : op) (l : entries) : answer * entries :=
  match o with
  | OpAdd k x =>
      match find k l with
      | Some _ => (AnsEntry None, touch k x l)
      | None =>
          if cap <=? Z.of_nat (length l) then (AnsEntry (list.last l), (k, x) :: removelast l)
          else (AnsEntry None, (k, x) :: l)
      end
  | OpGet k => (AnsValue (find k l), match find k l with Some x => touch k x l | None => l end)
  | OpPeek k => (AnsValue (find k l), l)
  | OpContains k => (AnsBool (bool_decide (is_Some (find k l))), l)
  | OpRemove k => (AnsBool (bool_decide (is_Some (find k l))), without k l)
  | OpRemoveOldest => (AnsEntry (list.last l), removelast l)
  | OpGetOldest => (AnsEntry (list.last l), l)
  | OpPurge => (AnsUnit, [])
  | OpLen => (AnsLen (Z.of_nat (length l)), l)
  | OpKeys => (AnsKeys (reverse l.*1), l)
  end.

Fixpoint run (os : list op) (c : t) : option (list answer * t) :=
  match os with
  | [] => Some ([], c)
  | o :: os => '(a, c) ← step o c; '(answers, c) ← run os c; Some (a :: answers, c)
  end.

Fixpoint spec_run (cap : Z) (os : list op) (l : entries) : list answer * entries :=
  match os with
  | [] => ([], l)
  | o :: os => let '(a, l) := spec_step cap o l in let '(answers, l) := spec_run cap os l in (a :: answers, l)
  end.

(** ** Refinement *)

Definition elem_ok (h : list (Ring.listElem K)) (m : gmap K cacheItem) (e : nat) (kv : K * V) : Prop :=
  Ring.vl h e = Some kv.1 /\ m !! kv.1 = Some (mkItem (Some e) kv.2).

Record rep (c : t) (l : entries) : Prop := {
  rep_list : exists ls, Ring.ring (list_ c) ls /\ Forall2 (elem_ok (list_ c) (items c)) ls l;
  rep_dom : forall k, is_Some (items c !! k) -> k ∈ l.*1;
  rep_nodup : NoDup l.*1;
  rep_cap : 1 <= cap c;
  rep_len : Z.of_nat (length l) <= cap c
}.

Lemma elems_frame h m h' m' ls l : Forall2 (elem_ok h m) ls l ->
  (forall e, e ∈ ls -> Ring.vl h' e = Ring.vl h e) -> (forall k, k ∈ l.*1 -> m' !! k = m !! k) ->
  Forall2 (elem_ok h' m') ls l.
Proof.
  induction 1 as [|e kv ls l [He Hm] _ IH]; intros Hv Hk; constructor.
  - split; [rewrite Hv; [done|by left]|rewrite Hk; [done|by left]].
  - apply IH; [intros a Ha; apply Hv; by right|intros k Hin; apply Hk; by right].
Qed.

Lemma rep_new capacity : rep (NewBasicLRU capacity) [].
Proof.
  split; simpl; [|by intros k [x Hx]; rewrite lookup_empty in Hx|constructor|case_match; lia|case_match; lia].
  exists []. split; [apply Ring.newList_ring|constructor].
Qed.

Lemma find_app k l1 l2 : k ∉ l1.*1 -> find k (l1 ++ l2) = find k l2.
Proof.
  induction l1 as [|[k' x] l1 IH]; intros Hk; [done|]. csimpl in Hk. apply not_elem_of_cons in Hk as [Hne Hk].
  simpl. rewrite decide_False by done. by apply IH.
Qed.

Lemma find_None k l : find k l = None <-> k ∉ l.*1.
Proof.
  induction l as [|[k' x] l IH]; csimpl; [split; [set_solver|done]|]. case_decide; set_solver.
Qed.

Lemma without_none k l : k ∉ l.*1 -> without k l = l.
Proof.
  induction l as [|[k' x] l IH]; intros Hk; [done|]. csimpl in Hk. unfold without. rewrite filter_cons.
  rewrite decide_True by set_solver. f_equal. apply IH. set_solver.
Qed.

Lemma without_split k x l1 l2 : k ∉ l1.*1 -> k ∉ l2.*1 -> without k (l1 ++ (k, x) :: l2) = l1 ++ l2.
Proof.
  intros H1 H2. unfold without. rewrite filter_app, filter_cons, decide_False by (simpl; tauto).
  f_equal; by apply without_none.
Qed.

(** An item of the cache, its element in the list and its entry. *)
Lemma rep_item c l k it : rep c l -> items c !! k = Some it ->
  exists l1 l2 ls1 ls2 e, l = l1 ++ (k, value it) :: l2 /\ elem it = Some e
    /\ (k ∉ l1.*1) /\ (k ∉ l2.*1) /\ NoDup (l1 ++ l2).*1
    /\ Ring.ring (list_ c) (ls1 ++ e :: ls2) /\ Ring.vl (list_ c) e = Some k
    /\ Forall2 (elem_ok (list_ c) (items c)) ls1 l1 /\ Forall2 (elem_ok (list_ c) (items c)) ls2 l2.
Proof.
  intros [(ls & Hr & Hl) Hdom Hnd _ _] Hk.
  assert (k ∈ l.*1) as Hin by (apply Hdom; by eexists).
  apply list_elem_of_fmap in Hin as ([k' x] & -> & Hin). apply list_elem_of_split in Hin as (l1 & l2 & ->).
  apply Forall2_app_inv_r in Hl as (ls1 & ls2' & Hl1 & Hl2 & ->).
  apply Forall2_cons_inv_r in Hl2 as (e & ls2 & [Hv Hm] & Hl2 & ->). simpl in *. simplify_eq/=.
  rewrite fmap_app in Hnd. csimpl in Hnd. rewrite NoDup_app, NoDup_cons in Hnd. destruct Hnd as (Hn1 & H12 & Hn2 & Hn3).
  exists l1, l2, ls1, ls2, e. split_and!; try done.
  - intros Hin. specialize (H12 k' Hin). set_solver.
  - rewrite fmap_app. apply NoDup_app. split_and!; [done| |done]. intros y Hy Hy2. apply (H12 y Hy). by right.
Qed.

Lemma rep_absent c l k : rep c l -> items c !! k = None -> k ∉ l.*1.
Proof.
  intros [(ls & Hr & Hl) _ _ _ _] Hk Hin. apply list_elem_of_fmap in Hin as ([k' x] & -> & Hin).
  apply list_elem_of_lookup in Hin as [i Hi]. destruct (Forall2_lookup_r _ _ _ _ _ Hl Hi) as (e & _ & [_ Hm]).
  simpl in *. congruence.
Qed.

Lemma rep_find c l k : rep c l -> Peek k c = find k l.
Proof.
  intros Hr. unfold Peek. destruct (items c !! k) as [it|] eqn:Hk.
  - destruct (rep_item _ _ _ _ Hr Hk) as (l1 & l2 & ls1 & ls2 & e & -> & _ & H1 & _).
    rewrite find_app by done. simpl. by rewrite decide_True.
  - symmetry. by apply find_None, (rep_absent c).
Qed.

Lemma rep_Len c l : rep c l -> Len c = Z.of_nat (length l).
Proof.
  intros Hr. unfold Len. f_equal. rewrite <- size_dom.
  assert (dom (items c) = list_to_set (l.*1)) as ->.
  { apply set_eq. intros k. rewrite elem_of_dom, elem_of_list_to_set. split; [apply (rep_dom _ _ Hr)|].
    intros Hin. destruct (items c !! k) eqn:E; [by eexists|]. by apply (rep_absent _ _ _ Hr) in E. }
  rewrite size_list_to_set by apply Hr. apply length_fmap.
Qed.

Lemma elem_not_in h m k e ls l : Forall2 (elem_ok h m) ls l -> Ring.vl h e = Some k -> k ∉ l.*1 -> e ∉ ls.
Proof.
  intros Hl Hv Hk He. apply list_elem_of_lookup in He as [i Hi].
  destruct (Forall2_lookup_l _ _ _ _ _ Hl Hi) as ([k' x] & Hx & [Hv' _]).
  simpl in Hv'. assert (k' = k) as -> by congruence.
  apply Hk. apply list_elem_of_fmap. exists (k, x). split; [done|by eapply list_elem_of_lookup_2].
Qed.

(** The item of [k] has gone from both structures. *)
Lemma rep_delete c l1 l2 k x ls1 ls2 h : rep c (l1 ++ (k, x) :: l2) -> k ∉ l1.*1 -> k ∉ l2.*1 ->
  Forall2 (elem_ok (list_ c) (items c)) ls1 l1 -> Forall2 (elem_ok (list_ c) (items c)) ls2 l2 ->
  Ring.ring h (ls1 ++ ls2) -> (forall b, Ring.vl h b = Ring.vl (list_ c) b) ->
  rep (mkLru h (delete k (items c)) (cap c)) (l1 ++ l2).
Proof.
  intros [_ Hdom Hnd Hcap Hlen] H1 H2 Hl1 Hl2 Hr Hv. split; simpl.
  - exists (ls1 ++ ls2). split; [done|]. apply (elems_frame (list_ c) (items c)); [by apply Forall2_app|done|].
    intros k' Hk'. rewrite fmap_app, elem_of_app in Hk'. apply lookup_delete_ne. set_solver.
  - intros k' [y Hy]. apply lookup_delete_Some in Hy as [Hne Hy].
    specialize (Hdom k' (ex_intro _ _ Hy)). rewrite fmap_app, elem_of_app in *. csimpl in *. set_solver.
  - rewrite fmap_app in *. csimpl in *. rewrite NoDup_app, NoDup_cons in *. set_solver.
  - done.
  - rewrite length_app in *. simpl in *. lia.
Qed.

(** [k] gets the element [e] at the front, where its old one, if any, has been taken out. *)
Lemma rep_insert h0 m l k x ls h e capacity : Forall2 (elem_ok h0 m) ls l -> NoDup l.*1 -> k ∉ l.*1 ->
  (forall y, is_Some (m !! y) -> y = k \/ y ∈ l.*1) -> Z.of_nat (length l) < capacity -> 1 <= capacity ->
  Ring.ring h (e :: ls) -> Ring.vl h e = Some k -> (forall b, b ∈ ls -> Ring.vl h b = Ring.vl h0 b) ->
  rep (mkLru h (<[k := mkItem (Some e) x]> m) capacity) ((k, x) :: l).
Proof.
  intros Hl Hnd Hk Hdom Hlen Hcap Hr He Hv. split; simpl.
  - exists (e :: ls). split; [done|]. constructor; [split; [done|by rewrite lookup_insert_eq]|].
    apply (elems_frame h0 m); [done|done|]. intros k' Hk'. apply lookup_insert_ne. set_solver.
  - intros k' [y Hy]. csimpl. rewrite elem_of_cons. destruct (decide (k' = k)) as [->|Hne]; [by left|right].
    rewrite lookup_insert_ne in Hy by done. destruct (Hdom k' (ex_intro _ _ Hy)); [done|done].
  - csimpl. by constructor.
  - done.
  - lia.
Qed.

Lemma find_split k x l1 l2 : k ∉ l1.*1 -> find k (l1 ++ (k, x) :: l2) = Some x.
Proof. intros Hk. rewrite find_app by done. simpl. by rewrite decide_True. Qed.

(** A key that is used again moves to the front, possibly with a new value. *)
Lemma rep_reuse c l k it x : rep c l -> items c !! k = Some it ->
  exists h, Ring.moveToFront (elem it) (list_ c) = Some h
    /\ rep (mkLru h (<[k := mkItem (elem it) x]> (items c)) (cap c)) (touch k x l).
Proof.
  intros Hrep Hk. destruct (rep_item _ _ _ _ Hrep Hk) as (l1 & l2 & ls1 & ls2 & e & -> & He & H1 & H2 & Hnd & Hr & Hve & Hl1 & Hl2).
  rewrite He. destruct (Ring.moveToFront_ring _ _ _ _ Hr) as (h & -> & Hr' & Hv). exists h. split; [done|].
  unfold touch. rewrite without_split by done.
  pose proof (rep_cap _ _ Hrep). pose proof (rep_len _ _ Hrep) as Hlen. rewrite length_app in Hlen. simpl in Hlen.
  apply (rep_insert (list_ c) (items c) _ _ _ (ls1 ++ ls2)); try done.
  - by apply Forall2_app.
  - rewrite fmap_app, elem_of_app. tauto.
  - intros y Hy. apply (rep_dom _ _ Hrep) in Hy. rewrite fmap_app, elem_of_app in *. csimpl in Hy. set_solver.
  - rewrite length_app. lia.
  - by rewrite Hv.
Qed.

Lemma rep_last c l kv : rep c (l ++ [kv]) -> exists ls e, Ring.ring (list_ c) (ls ++ [e])
  /\ Ring.vl (list_ c) e = Some kv.1 /\ items c !! kv.1 = Some (mkItem (Some e) kv.2)
  /\ (kv.1 ∉ l.*1) /\ NoDup l.*1 /\ Forall2 (elem_ok (list_ c) (items c)) ls l.
Proof.
  intros [(ls' & Hr & Hl) _ Hnd _ _]. apply Forall2_app_inv_r in Hl as (ls & ls2 & Hl1 & Hl2 & ->).
  apply Forall2_cons_inv_r in Hl2 as (e & ls3 & [Hv Hm] & Hl3 & ->). apply Forall2_nil_inv_r in Hl3 as ->.
  exists ls, e. rewrite fmap_app, NoDup_app in Hnd. csimpl in Hnd. destruct Hnd as (Hn & Hin & _).
  split_and!; try done. intros H'. apply (Hin _ H'). by left.
Qed.

Lemma rep_evict c l kv : rep c (l ++ [kv]) -> exists e el h, Ring.removeLast (list_ c) = Some (Some e, h)
  /\ Ring.remove (Some e) (list_ c) = Some h /\ Ring.last (list_ c) = Some (Some e)
  /\ Ring.load (Some e) h = Some el /\ Ring.v el = kv.1 /\ value_of kv.1 c = kv.2
  /\ (exists el0, Ring.load (Some e) (list_ c) = Some el0 /\ Ring.v el0 = kv.1)
  /\ (e < length h)%nat
  /\ e <> 0%nat /\ Ring.vl h e = Some kv.1 /\ (kv.1 ∉ l.*1)
  /\ rep (mkLru h (delete kv.1 (items c)) (cap c)) l.
Proof.
  intros Hrep. destruct (rep_last _ _ _ Hrep) as (ls & e & Hr & Hv & Hm & Hk & Hnd & Hl).
  destruct (Ring.remove_ring _ _ _ _ Hr) as (h & Hrm & Hlen & Hr' & Hv').
  rewrite app_nil_r in Hr'. pose proof (Ring.last_ring _ _ Hr) as Hlast. rewrite last_snoc in Hlast.
  assert (e < length (list_ c))%nat as He.
  { destruct (decide (e < length (list_ c))%nat); [done|]. unfold Ring.vl in Hv. by rewrite lookup_ge_None_2 in Hv by lia. }
  destruct (Ring.load_spec e (list_ c) He) as (el0 & Hl0 & _ & _ & Hv0).
  destruct (Ring.load_spec e h) as (el & Hl1 & _ & _ & Hv1); [lia|].
  exists e, el, h. unfold Ring.removeLast. rewrite Hlast. cbn [mbind option_bind]. rewrite Hrm. cbn [mbind option_bind].
  pose proof (Hv' e) as Hve. split_and!; try done; try congruence.
  - unfold value_of, Peek. by rewrite Hm.
  - exists el0. split; congruence.
  - destruct Hr as [_ Hnd']. rewrite NoDup_cons in Hnd'. set_solver.
  - destruct kv as [k x]. replace l with (l ++ []) by apply app_nil_r.
    apply (rep_delete c l [] k x ls []); simpl; try done; [set_solver|by rewrite app_nil_r].
Qed.

(** A new entry in an element that is on no list. *)
Lemma rep_push k x l h m capacity e : rep (mkLru h m capacity) l -> k ∉ l.*1 -> Z.of_nat (length l) < capacity ->
  e <> 0%nat -> (e < length h)%nat -> (forall ls, Ring.ring h ls -> Forall2 (elem_ok h m) ls l -> e ∉ ls) ->
  exists h1 h2, Ring.set_v (Some e) k h = Some h1 /\ Ring.pushElem (Some e) h1 = Some h2
    /\ rep (mkLru h2 (<[k := mkItem (Some e) x]> m) capacity) ((k, x) :: l).
Proof.
  intros Hrep Hk Hlen H0 He Hout. destruct Hrep as [(ls & Hr & Hl) Hdom Hnd Hcap _]. simpl in *.
  destruct (Ring.set_v_ring e k h ls Hr He) as (h1 & Hs & Hr1 & Hl1 & Hv1).
  specialize (Hout ls Hr Hl).
  destruct (Ring.pushElem_ring e ls h1) as (h2 & Hp & _ & Hr2 & Hv2); [done|set_solver|by rewrite Hl1|].
  exists h1, h2. split_and!; [done..|]. apply (rep_insert h m _ _ _ ls); try done.
  - intros y Hy. right. by apply Hdom.
  - rewrite Hv2, Hv1. by rewrite decide_True.
  - intros b Hb. rewrite Hv2, Hv1, decide_False; [done|]. intros ->. done.
Qed.

(** The element of a fresh entry is not one of those in use. *)
Lemma rep_new_elem c l : rep c l -> exists h, Ring.new_elem (list_ c) = (Some (length (list_ c)), h)
  /\ length (list_ c) <> 0%nat /\ (length (list_ c) < length h)%nat /\ rep (mkLru h (items c) (cap c)) l
  /\ (forall ls, Ring.ring h ls -> Forall2 (elem_ok h (items c)) ls l -> length (list_ c) ∉ ls).
Proof.
  intros [(ls & Hr & Hl) Hdom Hnd Hcap Hlen].
  destruct (Ring.new_elem_ring _ _ Hr) as (h & Hn & Hr' & Hlh & Hout & Hv). exists h. split_and!; [done|set_solver|lia| |].
  - split; simpl; try done. exists ls. split; [done|]. apply (elems_frame (list_ c) (items c)); [done| |done].
    intros e He. apply Hv. destruct Hr as [Hp _]. pose proof (Ring.path_dom _ _ _ _ Hp) as Hd.
    rewrite Forall_forall in Hd. apply Hd. by right.
  - intros ls' _ Hl'. assert (ls' = ls) as ->; [|set_solver].
    revert Hl' Hl. generalize (length (list_ c)). clear. intros _ H1 H2. revert ls H2.
    induction H1 as [|a kv ls' l [_ Ha] _ IH]; intros ls H2; inversion H2 as [|b ? ? ? [_ Hb]]; subst; [done|].
    f_equal; [congruence|by apply IH].
Qed.

(** Each operation behaves like its counterpart on the entries. *)
Definition refines (c : t) (l : entries) (r : option (answer * t)) (s : answer * entries) : Prop :=
  exists c', r = Some (s.1, c') /\ rep c' s.2 /\ cap c' = cap c.

Lemma find_item c l k : rep c l -> find k l = value <$> items c !! k.
Proof. intros Hr. symmetry. by apply rep_find. Qed.

Lemma Add3_refines c l k x : rep c l -> refines c l (step (OpAdd k x) c) (spec_step (cap c) (OpAdd k x) l).
Proof.
  intros Hr. unfold refines. simpl. unfold Add3. rewrite (find_item c) by done.
  destruct (items c !! k) as [it|] eqn:Hk; simpl.
  - destruct (rep_reuse _ _ _ _ x Hr Hk) as (h & -> & Hr'). by eexists.
  - pose proof (rep_absent _ _ _ Hr Hk) as Hkl. rewrite (rep_Len c l) by done.
    destruct (Z.leb_spec (cap c) (Z.of_nat (length l))) as [Hfull|Hroom].
    + pose proof (rep_cap _ _ Hr). pose proof (rep_len _ _ Hr) as Hlen.
      destruct l as [|kv l _] using rev_ind; [simpl in *; lia|].
      destruct (rep_evict _ _ _ Hr) as (e & el & h & -> & _ & _ & Hld & Hkv & Hval & _ & Hlt & He0 & Hve & Hkvl & Hr').
      simpl. rewrite Hld. simpl. rewrite Hkv, Hval. rewrite last_snoc, removelast_last.
      rewrite length_app in Hlen. simpl in Hlen. rewrite fmap_app, elem_of_app in Hkl.
      destruct (rep_push k x _ _ _ _ e Hr') as (h1 & h2 & -> & Hp & Hr2); [tauto|lia|done|done| |].
      { intros ls _ Hl. by apply (elem_not_in _ _ _ _ _ _ Hl Hve). }
      simpl. rewrite Hp. destruct kv. by eexists.
    + destruct (rep_new_elem _ _ Hr) as (h & Hnew & H0 & Hlt & Hr' & Hout). injection Hnew as <-. simpl.
      destruct (rep_push k x _ _ _ _ _ Hr' Hkl Hroom H0 Hlt Hout) as (h1 & h2 & -> & Hp & Hr2).
      simpl. rewrite Hp. by eexists.
Qed.

Lemma Get_refines c l k : rep c l -> refines c l (step (OpGet k) c) (spec_step (cap c) (OpGet k) l).
Proof.
  intros Hr. unfold refines. simpl. unfold Get. rewrite (find_item c) by done.
  destruct (items c !! k) as [it|] eqn:Hk; simpl; [|by exists c].
  destruct (rep_reuse _ _ _ _ (value it) Hr Hk) as (h & -> & Hr'). simpl.
  exists (set_list h c). split_and!; [done| |done]. unfold set_list.
  rewrite insert_id in Hr' by (rewrite Hk; by destruct it). done.
Qed.

Lemma Remove_refines c l k : rep c l -> refines c l (step (OpRemove k) c) (spec_step (cap c) (OpRemove k) l).
Proof.
  intros Hr. unfold refines. simpl. unfold Remove. rewrite (find_item c) by done.
  destruct (items c !! k) as [it|] eqn:Hk; simpl.
  - destruct (rep_item _ _ _ _ Hr Hk) as (l1 & l2 & ls1 & ls2 & e & -> & -> & H1 & H2 & _ & Hring & _ & Hl1 & Hl2).
    destruct (Ring.remove_ring _ _ _ _ Hring) as (h & -> & _ & Hr' & Hv). rewrite without_split by done.
    eexists. split_and!; [done|by eapply rep_delete|done].
  - rewrite without_none by by eapply rep_absent. exists c. done.
Qed.

Lemma oldest_refines c l : rep c l -> refines c l (step OpRemoveOldest c) (spec_step (cap c) OpRemoveOldest l)
  /\ refines c l (step OpGetOldest c) (spec_step (cap c) OpGetOldest l).
Proof.
  intros Hr. unfold refines. simpl. unfold RemoveOldest, GetOldest.
  destruct l as [|kv l _] using rev_ind.
  - destruct Hr as [(ls & Hring & Hl) ? ? ? ?]. pose proof Hl as Hl'. apply Forall2_nil_inv_r in Hl' as ->.
    rewrite (Ring.last_ring _ _ Hring). simpl. split; exists c; split_and!; try done; split; try done; by exists [].
  - destruct (rep_evict _ _ _ Hr) as (e & el & h & _ & Hrm & -> & _ & _ & Hval & (el0 & Hld & Hkv) & _ & _ & _ & _ & Hr').
    simpl. rewrite Hld. simpl. rewrite Hrm. simpl. rewrite Hkv, Hval, last_snoc, removelast_last.
    destruct kv. split; eexists; split_and!; done.
Qed.

Lemma Keys_refines c l : rep c l -> refines c l (step OpKeys c) (spec_step (cap c) OpKeys l).
Proof.
  intros Hr. unfold refines. simpl. unfold Keys. pose proof Hr as [(ls & Hring & Hl) ? ? ? ?].
  destruct (Ring.appendTo_ring _ _ [] Hring) as (ks & Hks & ->). simpl. exists c. split_and!; [|done|done].
  do 3 f_equal. f_equal. clear -Hl Hks. revert ks Hks. induction Hl as [|a kv ls l [Hv _] _ IH]; intros ks Hks.
  - by apply Forall2_nil_inv_l in Hks as ->.
  - apply Forall2_cons_inv_l in Hks as (k & ks' & Hk & Hks & ->). csimpl. f_equal; [congruence|by apply IH].
Qed.

Lemma Purge_refines c l : rep c l -> refines c l (step OpPurge c) (spec_step (cap c) OpPurge l).
Proof.
  intros [(ls & [Hp _] & _) _ _ Hcap _]. unfold refines. simpl. unfold Purge. pose proof (Ring.path_dom _ _ _ _ Hp) as Hd.
  apply Forall_cons in Hd as [Hd _].
  destruct (Ring.init_ring _ Hd) as (h & -> & _ & Hr & _). simpl. eexists. split_and!; [done| |done].
  split; simpl; [exists []; by split|by intros k [x Hx]; rewrite lookup_empty in Hx|constructor|done|lia].
Qed.

Lemma step_refines o c l : rep c l -> refines c l (step o c) (spec_step (cap c) o l).
Proof.
  intros Hr. destruct o;
    auto using Add3_refines, Get_refines, Remove_refines, Keys_refines, Purge_refines;
    try (by apply oldest_refines); unfold refines; simpl; exists c; split_and!; try done.
  - by rewrite (rep_find c l).
  - unfold Contains. rewrite (find_item c) by done. do 3 f_equal. by destruct (items c !! key).
  - by rewrite (rep_Len c l).
Qed.

Lemma run_refines os c l : rep c l -> exists c', run os c = Some ((spec_run (cap c) os l).1, c')
  /\ rep c' (spec_run (cap c) os l).2 /\ cap c' = cap c.
Proof.
  revert c l. induction os as [|o os IH]; intros c l Hr; [by exists c|]. simpl.
  destruct (step_refines o c l Hr) as (c1 & -> & Hr1 & Hcap). simpl.
  destruct (spec_step (cap c) o l) as [a l1]. simpl in *.
  destruct (IH c1 l1 Hr1) as (c2 & -> & Hr2 & Hcap2). simpl. rewrite Hcap in *.
  destruct (spec_run (cap c) os l1) as [answers l2]. exists c2. split_and!; congruence || done.
Qed.

(** ** Which entries a cache keeps

    The history lists every key that was added, by its last use. *)

Definition keeps (o : op) : Prop :=
  match o with OpRemove _ | OpRemoveOldest | OpPurge => False | _ => True end.

Definition use (capacity : nat) (hist : entries) (o : op) : entries :=
  match o with
  | OpAdd k x => touch k x hist
  | OpGet k => match find k (take capacity hist) with Some x => touch k x hist | None => hist end
  | _ => hist
  end.
Definition history (capacity : nat) (os : list op) : entries := foldl (use capacity) [] os.

Lemma without_in k l y : y ∈ (without k l).*1 <-> y ∈ l.*1 /\ y <> k.
Proof.
  rewrite !list_elem_of_fmap. unfold without. setoid_rewrite list_elem_of_filter. split.
  - intros (p & -> & Hne & Hin). split; [by exists p|done].
  - intros [(p & -> & Hin) Hne]. by exists p.
Qed.

Lemma without_nodup k l : NoDup l.*1 -> NoDup (without k l).*1.
Proof.
  induction l as [|p l IH]; intros Hnd; [constructor|]. csimpl in Hnd. apply NoDup_cons in Hnd as [Hp Hnd].
  unfold without in *. rewrite filter_cons. case_decide as Hd; [|auto]. csimpl. constructor; [|auto].
  intros Hin. apply Hp. by apply (without_in k l) in Hin as [? _].
Qed.

Lemma touch_nodup k x l : NoDup l.*1 -> NoDup (touch k x l).*1.
Proof.
  intros Hnd. unfold touch. csimpl. constructor; [|by apply without_nodup]. rewrite without_in. tauto.
Qed.

Lemma touch_take_in n k x l : NoDup l.*1 -> k ∈ (take n l).*1 -> touch k x (take n l) = take n (touch k x l).
Proof.
  intros Hnd Hin. unfold touch.
  assert (exists y l1 l2, take n l = l1 ++ (k, y) :: l2) as (y & l1 & l2 & Hl).
  { apply list_elem_of_fmap in Hin as ([k' y] & Hk & Hin). simpl in Hk. subst k'.
    apply list_elem_of_split in Hin as (l1 & l2 & ->). by exists y, l1, l2. }
  rewrite <- (take_drop n l) in Hnd |- * at 2. rewrite Hl in *.
  assert (length (l1 ++ (k, y) :: l2) <= n)%nat as Hlen by (rewrite <- Hl, length_take; lia).
  assert (drop n l = [] \/ length (l1 ++ (k, y) :: l2) = n)%nat as Hn.
  { destruct (decide (n <= length l))%nat; [right; rewrite <- Hl, length_take; lia|left; apply drop_ge; lia]. }
  rewrite <- app_assoc in *. simpl in *. rewrite fmap_app in Hnd. csimpl in Hnd. rewrite fmap_app in Hnd.
  rewrite NoDup_app, NoDup_cons, NoDup_app in Hnd. destruct Hnd as (_ & H1 & Hk & _).
  assert (k ∉ l1.*1) by (intros Hi; apply (H1 _ Hi); by left).
  rewrite elem_of_app in Hk. rewrite !without_split by (rewrite ?fmap_app, ?elem_of_app; tauto).
  rewrite length_app in *. simpl in *. destruct n; [lia|]. simpl. f_equal.
  rewrite app_assoc, take_app. destruct Hn as [->|Hn].
  - rewrite take_nil, app_nil_r, take_ge by (rewrite length_app; lia). done.
  - rewrite take_ge by (rewrite length_app; lia). rewrite length_app.
    replace (n - _)%nat with 0%nat by lia. by rewrite take_0, app_nil_r.
Qed.

Lemma take_removelast {A} (n : nat) (l : list A) : removelast (take (S n) l) = take (length (take (S n) l) - 1) l.
Proof.
  rewrite length_take. destruct (decide (S n <= length l)%nat).
  - destruct (lookup_lt_is_Some_2 l n) as [x Hx]; [lia|]. rewrite (take_S_r _ _ x) by done.
    rewrite removelast_last. f_equal. lia.
  - rewrite take_ge, Nat.min_r by lia. clear. induction l as [|a l _] using rev_ind; [done|].
    rewrite removelast_last, length_app, take_app_le by (simpl; lia). simpl. rewrite take_ge by lia. done.
Qed.

Lemma without_take n k l : k ∉ (take n l).*1 -> take n (without k l) = take n l.
Proof.
  revert n. induction l as [|p l IH]; intros [|n] Hk; try done. csimpl in Hk. apply not_elem_of_cons in Hk as [Hne Hk].
  unfold without in *. rewrite filter_cons, decide_True by done. simpl. f_equal. by apply IH.
Qed.

Lemma touch_take_out n k x l : NoDup l.*1 -> k ∉ (take (S n) l).*1 ->
  (if decide (S n <= length (take (S n) l))%nat then (k, x) :: removelast (take (S n) l) else (k, x) :: take (S n) l)
  = take (S n) (touch k x l).
Proof.
  intros Hnd Hk. unfold touch. simpl. case_decide as Hlen; f_equal.
  - rewrite take_removelast. replace (length (take (S n) l) - 1)%nat with n by (rewrite length_take in *; lia).
    rewrite without_take; [done|]. intros Hin. apply Hk. rewrite fmap_take in *.
    destruct (decide (n <= length l.*1))%nat; [|rewrite take_ge in * by lia; done].
    replace (S n) with (n + 1)%nat by lia. rewrite <- take_take_drop. apply elem_of_app. by left.
  - rewrite length_take in Hlen. rewrite take_ge in * by lia. rewrite without_none by done. rewrite take_ge; [done|lia].
Qed.

Lemma use_nodup n l o : NoDup l.*1 -> NoDup (use n l o).*1.
Proof. intros Hnd. destruct o; cbn [use]; try done; [|destruct (find key (take n l)); [|done]]; by apply touch_nodup. Qed.

Lemma spec_step_use n o l : keeps o -> NoDup l.*1 ->
  (spec_step (Z.of_nat (S n)) o (take (S n) l)).2 = take (S n) (use (S n) l o).
Proof.
  intros Ho Hnd. destruct o; try done; cbn [spec_step use snd].
  - pose proof (touch_take_out n key val l Hnd) as Hout. pose proof (touch_take_in (S n) key val l Hnd) as Hin.
    destruct (find key (take (S n) l)) eqn:E; cbn [snd].
    + apply Hin. destruct (decide (key ∈ (take (S n) l).*1)) as [|Hn]; [done|]. apply find_None in Hn. congruence.
    + rewrite <- Hout by by apply find_None. case_decide; destruct (Z.leb_spec (Z.of_nat (S n)) (Z.of_nat (length (take (S n) l)))); lia || reflexivity.
  - destruct (find key (take (S n) l)) eqn:E; cbn [snd]; [|done].
    apply touch_take_in; [done|]. destruct (decide (key ∈ (take (S n) l).*1)) as [|Hn]; [done|].
    apply find_None in Hn. congruence.
Qed.

Lemma spec_run_history n os l : Forall keeps os -> NoDup l.*1 ->
  (spec_run (Z.of_nat (S n)) os (take (S n) l)).2 = take (S n) (foldl (use (S n)) l os).
Proof.
  intros Hos. revert l. induction Hos as [|o os Ho _ IH]; intros l Hnd; [done|]. cbn [spec_run].
  pose proof (spec_step_use n o l Ho Hnd) as Hs. destruct (spec_step _ o _) as [a l1]. cbn [snd] in Hs. subst l1.
  specialize (IH (use (S n) l o) (use_nodup _ _ _ Hnd)). destruct (spec_run _ os _) as [an l2]. exact IH.
Qed.

(** C35. The list threaded through the items of a cache never loses or corrupts a pointer: whatever operations are
    performed on a new cache, none of them panics, each answers what it would on a plain list of entries in the order
    of their last use, and as long as nothing is removed explicitly the cache holds exactly the [cap] entries that
    were used last, with their latest values. *)
Theorem lru_keeps_most_recent (capacity : Z) (os : list op) :
  exists c, run os (NewBasicLRU capacity) = Some ((spec_run (Z.max 1 capacity) os []).1, c)
    /\ Z.of_nat (size (items c)) <= Z.max 1 capacity
    /\ (Forall keeps os -> let n := Z.to_nat (Z.max 1 capacity) in
          forall k, Peek k c = find k (take n (history n os))).
Proof.
  destruct (run_refines os _ _ (rep_new capacity)) as (c & Hrun & Hr & Hcap).
  assert (cap (NewBasicLRU capacity) = Z.max 1 capacity) as E by (simpl; case_match; lia). rewrite E in *.
  exists c. split_and!; [done| |].
  - change (Z.of_nat (size (items c))) with (Len c). rewrite (rep_Len _ _ Hr). pose proof (rep_len _ _ Hr). lia.
  - intros Hos n k. rewrite (rep_find _ _ _ Hr). f_equal. unfold history, n.
    assert (exists m, Z.to_nat (Z.max 1 capacity) = S m /\ Z.max 1 capacity = Z.of_nat (S m)) as (m & -> & ->).
    { exists (pred (Z.to_nat (Z.max 1 capacity))). lia. }
    symmetry. rewrite <- (spec_run_history m os []); [by rewrite take_nil|done|constructor].
Qed.

End Cache.
End BasicLRU.

(** ** A cache bounded by the size of its values *)

Module SizeConstrainedCache.
Import BasicLRU.
Section Sized.
Context {K : Type} `{Countable K} `{!Inhabited K}.
Abbreviation bytes := (list Z).
Abbreviation len v := (Z.of_nat (length v)).

Record t := mkSized { size : Z; maxSize : Z; lru : BasicLRU.t (K:=K) (V:=bytes) }.

Definition MaxInt : Z := 2 ^ 63 - 1.

Definition NewSizeConstrainedCache (maxSize : Z) : t := mkSized 0 maxSize (NewBasicLRU MaxInt).

(** The loop removes an item each time or ends; the first component of its result is
    [evicted], the last one the size that is left. *)
Fixpoint make_room (fuel : nat) (evicted : bool) (targetSize maxSize : Z) (c : BasicLRU.t (K:=K) (V:=bytes)) :
    option (bool * Z * BasicLRU.t) :=
  match fuel with
  | O => None
  | S fuel =>
      if maxSize <? targetSize then
        '(removed, c) ← RemoveOldest c;
        match removed with
        | None => Some (true, targetSize, c)
        | Some (_, v) => make_room fuel true (u64 (targetSize - len v)) maxSize c
        end
      else Some (evicted, targetSize, c)
  end.

Definition Add (key : K) (value : bytes) (c : t) : option (bool * t) :=
  '(evicted, sz, l) ←
    (if Contains key (lru c) then Some (false, size c, lru c)
     else make_room (S (S (Z.to_nat (Len (lru c))))) false (u64 (size c + len value)) (maxSize c) (lru c));
  '(_, l) ← BasicLRU.Add key value l;
  Some (evicted, mkSized sz (maxSize c) l).

Definition Get (key : K) (c : t) : option (option bytes * t) :=
  '(v, l) ← BasicLRU.Get key (lru c); Some (v, mkSized (size c) (maxSize c) l).

Definition Remove (key : K) (c : t) : option t :=
  match Peek key (lru c) with
  | Some v => '(_, l) ← BasicLRU.Remove key (lru c); Some (mkSized (u64 (size c - len v)) (maxSize c) l)
  | None => Some c
  end.

Definition Clear (c : t) : option t := l ← Purge (lru c); Some (mkSized 0 (maxSize c) l).

Definition total (l : list (K * bytes)) : Z := sumZ (map (fun p => len p.2) l).

Record sized (c : t) (l : list (K * bytes)) : Prop := {
  sized_rep : rep (lru c) l;
  sized_cap : cap (lru c) = MaxInt;
  sized_size : size c = total l
}.

Lemma total_nonneg l : 0 <= total l.
Proof. apply sumZ_nonneg, Forall_map, Forall_true. intros. simpl. lia. Qed.

Lemma total_app l1 l2 : total (l1 ++ l2) = total l1 + total l2.
Proof. unfold total. by rewrite map_app, sumZ_app. Qed.

Lemma total_cons kv l : total (kv :: l) = len kv.2 + total l.
Proof. done. Qed.

Lemma total_without k v l : NoDup l.*1 -> find k l = Some v -> total (without k l) = total l - len v.
Proof.
  intros Hnd Hf. assert (exists l1 l2, l = l1 ++ (k, v) :: l2 /\ (k ∉ l1.*1)) as (l1 & l2 & -> & H1).
  { clear Hnd. induction l as [|[k' x] l IH]; [done|]. simpl in Hf. case_decide as Hk; simplify_eq/=.
    - exists [], l. split; [done|]. set_solver.
    - destruct (IH Hf) as (l1 & l2 & -> & Hn). exists ((k', x) :: l1), l2. split; [done|]. csimpl. set_solver. }
  rewrite fmap_app in Hnd. csimpl in Hnd. rewrite NoDup_app, NoDup_cons in Hnd. destruct Hnd as (_ & _ & H2 & _).
  rewrite without_split by done. rewrite !total_app, total_cons. simpl. lia.
Qed.

Lemma make_room_spec fuel ev0 n target max c l : rep c l -> (length l < fuel)%nat -> 0 <= n ->
  target = total l + n -> is_u64 target ->
  exists ev l' c', make_room fuel ev0 target max c = Some (ev, total l' + n, c') /\ rep c' l' /\ cap c' = cap c
    /\ (exists dropped, l = l' ++ dropped /\ (ev = false -> ev0 = false /\ dropped = []))
    /\ (total l' + n <= max \/ l' = []).
Proof.
  revert ev0 target c l. induction fuel as [|fuel IH]; intros ev0 target c l Hr Hf Hn -> Ht; [lia|]. simpl.
  destruct (Z.ltb_spec max (total l + n)) as [Hlt|Hle].
  - destruct (oldest_refines _ _ Hr) as [(c1 & Hst & Hr1 & Hcap) _]. simpl in Hst, Hr1.
    destruct (RemoveOldest c) as [[removed c2]|] eqn:Hro; [|done]. simpl in Hst. injection Hst as -> ->. simpl.
    destruct l as [|[k v] l _] using rev_ind.
    + simpl. exists true, [], c1. split_and!; [done..| |by right]. exists []. done.
    + rewrite last_snoc. rewrite removelast_last in Hr1. rewrite length_app in Hf. simpl in Hf.
      rewrite total_app, total_cons in *. simpl in *. change (total []) with 0 in *. pose proof (total_nonneg l).
      assert (Hu : u64 (total l + (len v + 0) + n - len v) = total l + n) by (rewrite u64_small; unfold is_u64 in *; lia).
      rewrite Hu.
      destruct (IH true (total l + n) c1 l Hr1) as (ev & l' & c' & -> & Hr' & Hcap' & (dr & -> & Hev) & Hmax);
        [lia|lia|done|unfold is_u64 in *; lia|].
      exists ev, l', c'. split_and!; [done|done|congruence| |done].
      exists (dr ++ [(k, v)]). split; [by rewrite app_assoc|]. intros ->. by destruct (Hev eq_refl).
  - exists ev0, l, c. split_and!; [done..| |by left]. exists []. by rewrite app_nil_r.
Qed.

(** Adding to a cache terminates, keeps [size] the sum of the sizes of the values, evicts only the entries that were
    used the longest ago, and leaves at most [maxSize] bytes unless the new value alone is larger. *)
Theorem sized_Add (key : K) (value : bytes) (c : t) (l : list (K * bytes)) :
  sized c l -> is_u64 (size c + len value) -> Z.of_nat (length l) < MaxInt ->
  (forall old, find key l = Some old -> length old = length value) ->
  exists evicted c' kept dropped, Add key value c = Some (evicted, c') /\ l = kept ++ dropped
    /\ sized c' (touch key value kept) /\ maxSize c' = maxSize c
    /\ (evicted = false -> dropped = [])
    /\ (size c <= maxSize c -> len value <= maxSize c -> size c' <= maxSize c).
Proof.
  intros [Hr Hcap Hsize] Hu Hlen Hsame. unfold Add.
  destruct (step_refines (OpContains key) _ _ Hr) as (c0 & Hc & _). simpl in Hc. injection Hc as Hc _. rewrite Hc.
  assert (forall l' c', rep c' l' -> cap c' = MaxInt -> Z.of_nat (length l') < MaxInt ->
    exists ev c'', BasicLRU.Add key value c' = Some (ev, c'') /\ rep c'' (touch key value l') /\ cap c'' = MaxInt) as Hadd.
  { intros l' c' Hr' Hcap' Hl'. destruct (step_refines (OpAdd key value) _ _ Hr') as (c'' & Hst & Hr'' & Hcap'').
    cbn [step spec_step] in *. rewrite Hcap' in *.
    assert ((match find key l' with Some _ => (AnsEntry None, touch key value l')
             | None => if MaxInt <=? Z.of_nat (length l') then (AnsEntry (list.last l'), (key, value) :: removelast l')
                       else (AnsEntry None, (key, value) :: l') end : answer (K:=K) (V:=bytes) * list (K * bytes)).2 = touch key value l') as E.
    { destruct (find key l') eqn:Hf; [done|]. destruct (Z.leb_spec MaxInt (Z.of_nat (length l'))); [lia|].
      simpl. unfold touch. by rewrite without_none by by apply find_None. }
    rewrite E in Hr''. unfold BasicLRU.Add.
    destruct (Add3 key value c') as [[ev c3]|]; simpl in *; [|done]. simplify_eq. by eexists _, _. }
  case_bool_decide as Hin.
  - destruct Hin as [old Hf]. simpl. destruct (Hadd l (lru c) Hr Hcap Hlen) as (ev & c' & -> & Hr' & Hcap').
    simpl. exists false. eexists _, l, []. split; [done|]. rewrite app_nil_r. split_and!; try done. split; try done.
    simpl. unfold touch. rewrite total_cons, (total_without key old) by (apply Hr || done).
    rewrite (Hsame old Hf). simpl. lia.
  - rewrite (rep_Len _ _ Hr).
    destruct (make_room_spec (S (S (Z.to_nat (Z.of_nat (length l))))) false (len value) (u64 (size c + len value)) (maxSize c) _ _ Hr)
      as (ev & l' & c1 & -> & Hr1 & Hcap1 & (dr & -> & Hev) & Hmax);
      [lia|lia|rewrite u64_small by done; lia|apply u64_range|].
    rewrite length_app in Hlen. simpl. destruct (Hadd l' c1 Hr1) as (ev' & c' & -> & Hr' & Hcap'); [congruence|lia|].
    simpl. exists ev. eexists _, l', dr. split; [done|]. split_and!; try done.
    + split; try done. simpl. unfold touch. rewrite without_none, total_cons; [simpl; lia|].
      intros Hk. apply Hin. destruct (find key (l' ++ dr)) eqn:E; [done|]. apply find_None in E. rewrite fmap_app in E. set_solver.
    + intros E. by apply Hev.
    + simpl. intros _ Hv. destruct Hmax as [Hm | ->]; [lia|]. change (total []) with 0. lia.
Qed.

(** Removing an entry takes its size off. *)
Lemma sized_Remove key c l : sized c l -> is_u64 (size c) -> exists c', Remove key c = Some c' /\ sized c' (without key l).
Proof.
  intros [Hr Hcap Hsize] Hu. unfold Remove. rewrite (rep_find _ _ _ Hr).
  destruct (find key l) as [v|] eqn:Hf.
  - destruct (Remove_refines _ _ key Hr) as (c' & Hst & Hr' & Hcap'). simpl in *.
    destruct (BasicLRU.Remove key (lru c)) as [[b c1]|]; simpl in *; [|done]. simplify_eq/=.
    eexists. split; [done|]. split; simpl; [done|congruence|].
    pose proof (total_without key v l (rep_nodup _ _ Hr) Hf) as Ht. pose proof (total_nonneg (without key l)).
    rewrite u64_small; [lia|unfold is_u64 in *; lia].
  - exists c. split; [done|]. rewrite without_none by by apply find_None. by split.
Qed.

(** [Add] reports an eviction when the first value of an empty cache is too large, and keeps that value. *)
Example oversized_value : forall k : K, let c := NewSizeConstrainedCache 1 in
  exists c', Add k [0; 0] c = Some (true, c') /\ size c' = 2 /\ Peek k (lru c') = Some [0; 0].
Proof.
  intros k c. unfold Add, c. simpl. unfold Contains. simpl. rewrite lookup_empty. simpl.
  unfold BasicLRU.Add, Add3. simpl. rewrite lookup_empty. simpl. eexists. split; [reflexivity|].
  split; [done|]. unfold Peek. simpl. by rewrite lookup_insert_eq.
Qed.

End Sized.
End SizeConstrainedCache.

Example cache_of_two :
  fst <$> BasicLRU.run [BasicLRU.OpAdd 1 10; BasicLRU.OpAdd 2 20; BasicLRU.OpGet 1; BasicLRU.OpAdd 3 30; BasicLRU.OpKeys; BasicLRU.OpGet 2]
      (BasicLRU.NewBasicLRU 2 : BasicLRU.t (K:=Z) (V:=Z))
  = Some [BasicLRU.AnsEntry None; BasicLRU.AnsEntry None; BasicLRU.AnsValue (Some 10); BasicLRU.AnsEntry (Some (2, 20));
          BasicLRU.AnsKeys [1; 3]; BasicLRU.AnsValue None].
Proof. vm_compute. reflexivity. Qed.

(** ** The interface that the clients of a cache use

    A cache may forget entries; it never makes one up. *)

Class Cache (T K V : Type) := {
  cache_get : K -> T -> option (option V * T);
  cache_add : K -> V -> T -> option (bool * T);
  holds : T -> K -> V -> Prop;
  cache_ok : T -> Prop
}.

Class CacheLaws {T K V} (C : Cache T K V) : Prop := {
  cache_get_law k c : cache_ok c -> exists o c', cache_get k c = Some (o, c') /\ cache_ok c'
    /\ (forall v, o = Some v -> holds c k v) /\ (forall k' v, holds c' k' v -> holds c k' v);
  cache_add_law k v c : cache_ok c -> exists e c', cache_add k v c = Some (e, c') /\ cache_ok c'
    /\ (forall k' v', holds c' k' v' -> (k' = k /\ v' = v) \/ holds c k' v')
}.

Section LruCache.
Context {K V : Type} `{Countable K} `{!Inhabited K, !Inhabited V}.

#[global] Instance lru_cache : Cache (BasicLRU.t (K:=K) (V:=V)) K V := {|
  cache_get := BasicLRU.Get;
  cache_add := BasicLRU.Add;
  holds c k v := BasicLRU.Peek k c = Some v;
  cache_ok c := exists l, BasicLRU.rep c l
|}.

Lemma find_without (k k' : K) (l : list (K * V)) v : BasicLRU.find k' (BasicLRU.without k l) = Some v -> BasicLRU.find k' l = Some v.
Proof.
  induction l as [|[y x] l IH]; [done|]. unfold BasicLRU.without in *. rewrite filter_cons. simpl.
  destruct (decide (y = k')) as [->|]; case_decide; simpl; rewrite ?decide_True, ?decide_False by done; auto.
  intros Hf. exfalso. assert (k = k') as -> by (destruct (decide (k' = k)); [done|tauto]).
  assert (BasicLRU.find k' (BasicLRU.without k' l) = None) as E by (apply BasicLRU.find_None; rewrite BasicLRU.without_in; tauto).
  unfold BasicLRU.without in E. congruence.
Qed.

Lemma find_touch (k k' : K) x (l : list (K * V)) v : BasicLRU.find k' (BasicLRU.touch k x l) = Some v ->
  (k' = k /\ v = x) \/ BasicLRU.find k' l = Some v.
Proof. unfold BasicLRU.touch. simpl. case_decide; [naive_solver|]. intros Hf. right. by eapply find_without. Qed.

Lemma find_removelast (k : K) (l : list (K * V)) v : BasicLRU.find k (removelast l) = Some v -> BasicLRU.find k l = Some v.
Proof.
  induction l as [|[y x] [|p l] IH]; [done|done|].
  change (removelast ((y, x) :: p :: l)) with ((y, x) :: removelast (p :: l)).
  unfold BasicLRU.find. cbn [foldr fst snd]. destruct (decide (y = k)); [done|]. apply IH.
Qed.

#[global] Instance lru_cache_laws : CacheLaws lru_cache.
Proof.
  split; intros.
  - destruct H0 as [l Hr]. destruct (BasicLRU.Get_refines _ _ k Hr) as (c' & Hst & Hr' & _). simpl in *.
    destruct (BasicLRU.Get k c) as [[o c1]|]; simpl in *; [|done]. simplify_eq/=.
    eexists _, _. split_and!; [done|by eexists| |].
    + intros v Hf. by rewrite (BasicLRU.rep_find _ _ _ Hr).
    + intros k' v. rewrite (BasicLRU.rep_find _ _ _ Hr), (BasicLRU.rep_find _ _ _ Hr').
      destruct (BasicLRU.find k l) eqn:E; [|done]. intros Hf. apply find_touch in Hf as [[-> ->]|]; done.
  - destruct H0 as [l Hr]. destruct (BasicLRU.Add3_refines _ _ k v Hr) as (c' & Hst & Hr' & _).
    cbn [BasicLRU.step] in Hst. unfold cache_add, lru_cache, BasicLRU.Add.
    destruct (BasicLRU.Add3 k v c) as [[o c1]|]; simpl in *; [|done]. simplify_eq/=.
    eexists _, _. split_and!; [done|by eexists|].
    intros k' v'. rewrite (BasicLRU.rep_find _ _ _ Hr), (BasicLRU.rep_find _ _ _ Hr'). intros Hf.
    destruct (BasicLRU.find k l); [by apply find_touch in Hf|].
    case_match; simpl in Hf; (case_decide; [left; naive_solver|right]); [by apply find_removelast|done].
Qed.

End LruCache.
