(* ===== verification/Clique.v ===== *)
(** The proof-of-authority engine: [consensus/clique/snapshot.go] and [clique.go].

    A [Snapshot] is the state of the vote on who may sign.  The engine keeps two caches
    and a database of snapshots; its methods return [None] when they panic.  The caches
    are used through the interface of [Lru].  The database is a map whose operations do
    not fail, the encoding of a snapshot as JSON is left out, and so are log messages
    and the sealing of blocks, which panics. *)

From stdpp Require Import base gmap list numbers option sorting strings.
From S2P Require Import AccessList State.
From S2P Require Import Prelude Params Uint256 ChainConfig Header FeeMarket Difficulty Consensus Rlp RlpCodec TxTypes.
From S2P Require Import Transaction Signers Lru.
Import U256(be_value, be_bytes).
Open Scope Z_scope.

Record CliqueConfig := mkCliqueConfig { Period : Z; Epoch : Z }.

Definition checkpointInterval : Z := 1024.
Definition inmemorySnapshots : Z := 128.
Definition inmemorySignatures : Z := 4096.
Definition epochLength : Z := 30000.
Definition FullImmutabilityThreshold : Z := 90000.
Definition AddressLength : Z := 20.
Definition extraVanity : nat := 32.
Definition extraSeal : nat := 65.
(** A nonce is the integer of its eight bytes. *)
Definition nonceAuthVote : Z := 0xffffffffffffffff.
Definition nonceDropVote : Z := 0.
Definition uncleHash : Z := EmptyUncleHash.
Definition diffInTurn : Z := 2.
Definition diffNoTurn : Z := 1.

Inductive cliqueError :=
| errUnknownBlock
| errInvalidCheckpointBeneficiary
| errInvalidVote
| errInvalidCheckpointVote
| errMissingVanity
| errMissingSignature
| errExtraSigners
| errInvalidCheckpointSigners
| errMismatchingCheckpointSigners
| errInvalidMixDigest
| errInvalidUncleHash
| errInvalidDifficulty
| errWrongDifficulty
| errInvalidTimestamp
| errInvalidVotingChain
| errUnauthorizedSigner
| errRecentlySigned
| errRecovery
| errUncles
| errHeader (e : headerError).

(** ** Snapshots *)

Record Vote := mkVote { vote_Signer : Z; vote_Block : Z; vote_Address : Z; vote_Authorize : bool }.
Record Tally := mkTally { tally_Authorize : bool; tally_Votes : Z }.

Record Snapshot := mkSnapshot {
  snap_Number : Z;
  snap_Hash : Z;
  snap_Signers : gset Z;
  snap_Recents : gmap Z Z;
  snap_Votes : list Vote;
  snap_Tally : gmap Z Tally
}.

Definition set_Signers (g : gset Z) (s : Snapshot) : Snapshot :=
  mkSnapshot (snap_Number s) (snap_Hash s) g (snap_Recents s) (snap_Votes s) (snap_Tally s).
Definition set_Recents (r : gmap Z Z) (s : Snapshot) : Snapshot :=
  mkSnapshot (snap_Number s) (snap_Hash s) (snap_Signers s) r (snap_Votes s) (snap_Tally s).
Definition set_Votes (v : list Vote) (t : gmap Z Tally) (s : Snapshot) : Snapshot :=
  mkSnapshot (snap_Number s) (snap_Hash s) (snap_Signers s) (snap_Recents s) v t.

Definition newSnapshot (number hash : Z) (signers : list Z) : Snapshot :=
  mkSnapshot number hash (list_to_set signers) ∅ [] ∅.

Definition validVote (address : Z) (authorize : bool) (s : Snapshot) : bool :=
  let signer := bool_decide (address ∈ snap_Signers s) in
  (signer && negb authorize) || (negb signer && authorize).

Definition cast (address : Z) (authorize : bool) (s : Snapshot) : bool * gmap Z Tally :=
  if negb (validVote address authorize s) then (false, snap_Tally s)
  else
    (true, <[address := match snap_Tally s !! address with
                        | Some old => mkTally (tally_Authorize old) (tally_Votes old + 1)
                        | None => mkTally authorize 1
                        end]> (snap_Tally s)).

Definition uncast (address : Z) (authorize : bool) (t : gmap Z Tally) : bool * gmap Z Tally :=
  match t !! address with
  | None => (false, t)
  | Some tally =>
      if negb (eqb (tally_Authorize tally) authorize) then (false, t)
      else if 1 <? tally_Votes tally
      then (true, <[address := mkTally (tally_Authorize tally) (tally_Votes tally - 1)]> t)
      else (true, delete address t)
  end.

Definition uncast_vote (vote : Vote) (t : gmap Z Tally) : gmap Z Tally :=
  snd (uncast (vote_Address vote) (vote_Authorize vote) t).

(** The number of blocks among which a signer may sign one. *)
Definition signer_limit (s : Snapshot) : Z := Z.of_nat (base.size (snap_Signers s)) / 2 + 1.

(** The oldest signer may sign again. *)
Definition shift_recents (number : Z) (s : Snapshot) : Snapshot :=
  if signer_limit s <=? number then set_Recents (delete (number - signer_limit s) (snap_Recents s)) s else s.

(** The first vote of [signer] on [address] is taken back. *)
Fixpoint discard_previous (signer address : Z) (votes : list Vote) (t : gmap Z Tally) : list Vote * gmap Z Tally :=
  match votes with
  | [] => ([], t)
  | vote :: votes =>
      if (vote_Signer vote =? signer) && (vote_Address vote =? address) then (votes, uncast_vote vote t)
      else let '(votes, t) := discard_previous signer address votes t in (vote :: votes, t)
  end.

(** All votes of [signer] are taken back. *)
Fixpoint discard_cast_by (signer : Z) (votes : list Vote) (t : gmap Z Tally) : list Vote * gmap Z Tally :=
  match votes with
  | [] => ([], t)
  | vote :: votes =>
      if vote_Signer vote =? signer then discard_cast_by signer votes (uncast_vote vote t)
      else let '(votes, t) := discard_cast_by signer votes t in (vote :: votes, t)
  end.

(** The votes on [address] are dropped from the list. *)
Definition discard_about (address : Z) (votes : list Vote) : list Vote :=
  filter (fun vote => vote_Address vote <> address) votes.

Definition vote_of_nonce (nonce : Z) : option bool :=
  if nonce =? nonceAuthVote then Some true else if nonce =? nonceDropVote then Some false else None.

(** The steps of the loop of [apply]: at a checkpoint the votes are reset, *)
Definition reset_votes (config : CliqueConfig) (number : Z) (s : Snapshot) : Snapshot :=
  if number mod Epoch config =? 0 then set_Votes [] ∅ s else s.

(** the vote of the signer is counted, *)
Definition count_vote (number signer address : Z) (authorize : bool) (s : Snapshot) : Snapshot :=
  let '(votes, t) := discard_previous signer address (snap_Votes s) (snap_Tally s) in
  let s := set_Votes votes t s in
  let '(done, t) := cast address authorize s in
  if done then set_Votes (votes ++ [mkVote signer number address authorize]) t s else s.

(** and a vote that passed changes the list of signers. *)
Definition pass_vote (number address : Z) (s : Snapshot) : Snapshot :=
  match snap_Tally s !! address with
  | None => s
  | Some tally =>
      if Z.of_nat (base.size (snap_Signers s)) / 2 <? tally_Votes tally then
        let s :=
          if tally_Authorize tally then set_Signers ({[address]} ∪ snap_Signers s) s
          else
            let s := shift_recents number (set_Signers (snap_Signers s ∖ {[address]}) s) in
            let '(votes, t) := discard_cast_by address (snap_Votes s) (snap_Tally s) in
            set_Votes votes t s in
        set_Votes (discard_about address (snap_Votes s)) (delete address (snap_Tally s)) s
      else s
  end.

(** The part of an iteration that follows the recovery of the signer. *)
Definition apply_signed (number signer : Z) (header : Header) (s : Snapshot) : result cliqueError Snapshot :=
  if negb (bool_decide (signer ∈ snap_Signers s)) then Err errUnauthorizedSigner
  else if bool_decide (map_Exists (fun _ recent => recent = signer) (snap_Recents s)) then Err errRecentlySigned
  else
    let s := set_Recents (<[number := signer]> (snap_Recents s)) s in
    match vote_of_nonce (Header.Nonce header) with
    | None => Err errInvalidVote
    | Some authorize =>
        Ok (pass_vote number (Coinbase header) (count_vote number signer (Coinbase header) authorize s))
    end.

Definition signers (s : Snapshot) : list Z := merge_sort Z.le (elements (snap_Signers s)).

Fixpoint signer_offset (signer : Z) (l : list Z) : Z :=
  match l with [] => 0 | x :: l => if x =? signer then 0 else 1 + signer_offset signer l end.

(** The remainder by the number of signers panics if there are none. *)
Definition inturn (number signer : Z) (s : Snapshot) : option bool :=
  let l := signers s in
  if Z.of_nat (length l) =? 0 then None
  else Some (number mod Z.of_nat (length l) =? signer_offset signer l).

Definition calcDifficulty (signer : Z) (s : Snapshot) : option Z :=
  turn ← inturn (u64 (snap_Number s + 1)) signer s;
  Some (if turn : bool then diffInTurn else diffNoTurn).

(** ** The engine *)

(** [consensus.ChainHeaderReader]: the header on the canonical chain at a height. *)
Record ChainHeaderReader := mkChainHeaderReader { reader : ChainReader; GetHeaderByNumber : Z -> option Header }.

Section Engine.
Context {HS : Hasher} {C : Crypto} {HH : HeaderHash}.
Context {RC SC : Type} {RCache : Cache RC Z Snapshot} {SCache : Cache SC Z Z}.
(** The clock, the global cutoff of [arb_types.go] and the choice of a random element. *)
Context (unixNow legacyZeroBaseFeeUntil : Z) (choose : list Z -> Z).

Record Clique := mkClique {
  config : CliqueConfig;
  db : gmap Z Snapshot;
  recents : RC;
  signatures : SC;
  proposals : gmap Z bool;
  signer : Z;
  fakeDiff : bool
}.

Definition set_recents (r : RC) (c : Clique) : Clique :=
  mkClique (config c) (db c) r (signatures c) (proposals c) (signer c) (fakeDiff c).
Definition set_signatures (g : SC) (c : Clique) : Clique :=
  mkClique (config c) (db c) (recents c) g (proposals c) (signer c) (fakeDiff c).

(** A method: a panic, or an error or a value, and the engine after it. *)
Definition M (A : Type) : Type := Clique -> option (result cliqueError A * Clique).
Definition cm_ret {A} (a : A) : M A := fun c => Some (Ok a, c).
Definition cm_throw {A} (e : cliqueError) : M A := fun c => Some (Err e, c).
Definition cm_panic {A} : M A := fun _ => None.
Definition cm_bind {A B} (m : M A) (k : A -> M B) : M B := fun c =>
  match m c with
  | None => None
  | Some (Err e, c) => Some (Err e, c)
  | Some (Ok a, c) => k a c
  end.
Definition cm_lift {A} (o : option (result cliqueError A)) : M A := fun c => r ← o; Some (r, c).
Definition cm_get : M Clique := fun c => Some (Ok c, c).
Definition cm_put (c : Clique) : M unit := fun _ => Some (Ok tt, c).

Declare Scope clique_scope.
Delimit Scope clique_scope with clique.
Notation "'let^' x := m 'in' k" := (cm_bind m (fun x => k))
  (at level 10, x name, m at level 100, k at level 200) : clique_scope.
Notation "'let^' ' p := m 'in' k" := (cm_bind m (fun x => match x with p => k end))
  (at level 10, p pattern, m at level 100, k at level 200) : clique_scope.
Open Scope clique_scope.

Definition New (conf : CliqueConfig) (database : gmap Z Snapshot) (empty : Z -> RC) (empty_sigs : Z -> SC) : Clique :=
  mkClique (if Epoch conf =? 0 then mkCliqueConfig (Period conf) epochLength else conf) database
    (empty inmemorySnapshots) (empty_sigs inmemorySignatures) ∅ 0 false.

(** *** The seal *)

Definition sig_header_fields :=
  (hash_codec ,, hash_codec ,, address_codec ,, hash_codec ,, hash_codec ,, hash_codec ,, c_fixed 256 ,, c_big ,, c_big ,,
   u64_codec ,, u64_codec ,, u64_codec ,, c_bytes ,, c_fixed 32 ,, c_array 8 ,, f_nil)%fields.
Definition sig_header_fields_london :=
  (hash_codec ,, hash_codec ,, address_codec ,, hash_codec ,, hash_codec ,, hash_codec ,, c_fixed 256 ,, c_big ,, c_big ,,
   u64_codec ,, u64_codec ,, u64_codec ,, c_bytes ,, c_fixed 32 ,, c_array 8 ,, c_big ,, f_nil)%fields.

(** The extra data without the signature; a shorter one panics. *)
Definition unsealed_extra (h : Header) : option (list Z) :=
  if (length (Extra h) <? extraSeal)%nat then None else Some (take (length (Extra h) - extraSeal) (Extra h)).

Definition absent {A} (o : option A) : bool := match o with None => true | Some _ => false end.

Definition encodeSigHeader (h : Header) : option (list Z) :=
  extra ← unsealed_extra h;
  if negb (absent (WithdrawalsHash h) && absent (ExcessBlobGas h) && absent (BlobGasUsed h) && absent (ParentBeaconRoot h))
  then None
  else
    match BaseFee h with
    | None =>
        encode_any (sig_list sig_header_fields
          (ParentHash h, (UncleHash h, (Coinbase h, (Header.Root h, (TxHash h, (ReceiptHash h, (Header.Bloom h,
           (Header.Difficulty h, (Number h, (Header.GasLimit h, (Header.GasUsed h, (Header.Time h, (extra, (MixDigest h,
           (Header.Nonce h, tt))))))))))))))))
    | Some fee =>
        encode_any (sig_list sig_header_fields_london
          (ParentHash h, (UncleHash h, (Coinbase h, (Header.Root h, (TxHash h, (ReceiptHash h, (Header.Bloom h,
           (Header.Difficulty h, (Number h, (Header.GasLimit h, (Header.GasUsed h, (Header.Time h, (extra, (MixDigest h,
           (Header.Nonce h, (fee, tt)))))))))))))))))
    end.

Definition CliqueRLP : Header -> option (list Z) := encodeSigHeader.
Definition SealHash (h : Header) : option Z := b ← encodeSigHeader h; Some (keccak256 b).

(** What [ecrecover] computes when the signature is not cached. *)
Definition recover_signer (h : Header) : option (result cliqueError Z) :=
  if (length (Extra h) <? extraSeal)%nat then Some (Err errMissingSignature)
  else
    hash ← SealHash h;
    Some (match Ecrecover hash (drop (length (Extra h) - extraSeal) (Extra h)) with
          | None => Err errRecovery
          | Some pubkey => Ok (key_address pubkey)
          end).

Definition ecrecover (h : Header) : M Z := fun c =>
  '(known, sigs) ← cache_get (header_hash h) (signatures c);
  let c := set_signatures sigs c in
  match known with
  | Some address => Some (Ok address, c)
  | None =>
      r ← recover_signer h;
      match r with
      | Err e => Some (Err e, c)
      | Ok signer =>
          '(_, sigs) ← cache_add (header_hash h) signer (signatures c);
          Some (Ok signer, set_signatures sigs c)
      end
  end.

Definition Author (h : Header) : M Z := ecrecover h.

(** *** Applying headers to a snapshot *)

(** Both the epoch and the number of a header are positive when they are used. *)
Definition apply_header (h : Header) (s : Snapshot) : M Snapshot :=
  let number := u64 (Number h) in
  let^ c := cm_get in
  if Epoch (config c) =? 0 then cm_panic
  else
    let s := shift_recents number (reset_votes (config c) number s) in
    let^ signer := ecrecover h in
    cm_lift (Some (apply_signed number signer h s)).

Fixpoint apply_headers (hs : list Header) (s : Snapshot) : M Snapshot :=
  match hs with
  | [] => cm_ret s
  | h :: hs => let^ s := apply_header h s in apply_headers hs s
  end.

Fixpoint contiguous (hs : list Header) : bool :=
  match hs with
  | h1 :: (h2 :: _) as hs => (u64 (Number h2) =? u64 (u64 (Number h1) + 1)) && contiguous hs
  | _ => true
  end.

Definition apply (hs : list Header) (s : Snapshot) : M Snapshot :=
  match hs, last hs with
  | h :: _, Some l =>
      if negb (contiguous hs) || negb (u64 (Number h) =? u64 (snap_Number s + 1)) then cm_throw errInvalidVotingChain
      else
        let^ s := apply_headers hs s in
        cm_ret (mkSnapshot (u64 (snap_Number s + Z.of_nat (length hs))) (header_hash l)
                  (snap_Signers s) (snap_Recents s) (snap_Votes s) (snap_Tally s))
  | _, _ => cm_ret s
  end.

(** *** Finding the snapshot of a block *)

(** The signers in the extra data of a checkpoint; a negative length panics. *)
Definition checkpoint_signers (h : Header) : option (list Z) :=
  let n := Z.quot (Z.of_nat (length (Extra h)) - Z.of_nat extraVanity - Z.of_nat extraSeal) AddressLength in
  if n <? 0 then None
  else Some (map (fun i => be_value (take 20 (drop (extraVanity + i * 20) (Extra h)))) (seq 0 (Z.to_nat n))).

Definition store (s : Snapshot) : M unit :=
  let^ c := cm_get in
  cm_put (mkClique (config c) (<[snap_Hash s := s]> (db c)) (recents c) (signatures c) (proposals c) (signer c) (fakeDiff c)).

Definition recent_snapshot (hash : Z) : M (option Snapshot) := fun c =>
  '(s, r) ← cache_get hash (recents c); Some (Ok s, set_recents r c).
Definition add_recent (s : Snapshot) : M unit := fun c =>
  '(_, r) ← cache_add (snap_Hash s) s (recents c); Some (Ok tt, set_recents r c).

(** The snapshot in memory, on disk, or of a checkpoint that is trusted after walking
    back over [n] headers. *)
Definition stored_snapshot (chain : ChainHeaderReader) (n number hash : Z) : M (option Snapshot) :=
  let^ s := recent_snapshot hash in
  match s with
  | Some s => cm_ret (Some s)
  | None =>
      let^ c := cm_get in
      match (if number mod checkpointInterval =? 0 then db c !! hash else None) with
      | Some s => cm_ret (Some s)
      | None =>
          if negb (number =? 0) && (Epoch (config c) =? 0) then cm_panic
          else if (number =? 0) || ((number mod Epoch (config c) =? 0)
                    && ((FullImmutabilityThreshold <? n) || absent (GetHeaderByNumber chain (u64 (number - 1))))) then
            match GetHeaderByNumber chain number with
            | None => cm_ret None
            | Some checkpoint =>
                match checkpoint_signers checkpoint with
                | None => cm_panic
                | Some l =>
                    let s := newSnapshot number (header_hash checkpoint) l in
                    let^ _ := store s in
                    cm_ret (Some s)
                end
            end
          else cm_ret None
      end
  end.

(** The header of a block on the way back and the parents that are left. *)
Definition previous_header (chain : ChainHeaderReader) (number hash : Z) (parents : list Header) :
    option (Header * list Header) :=
  match last parents with
  | Some h =>
      if negb (header_hash h =? hash) || negb (u64 (Number h) =? number) then None
      else Some (h, removelast parents)
  | None => h ← GetHeader (reader chain) hash number; Some (h, [])
  end.

(** The loop; [headers] are those it has gone over, from the last to the first. *)
Fixpoint search_snapshot (fuel : nat) (chain : ChainHeaderReader) (number hash : Z) (parents headers : list Header) :
    M (Snapshot * list Header) :=
  match fuel with
  | O => cm_panic
  | S fuel =>
      let^ found := stored_snapshot chain (Z.of_nat (length headers)) number hash in
      match found with
      | Some s => cm_ret (s, reverse headers)
      | None =>
          match previous_header chain number hash parents with
          | None => cm_throw (errHeader ErrUnknownAncestor)
          | Some (h, parents) =>
              search_snapshot fuel chain (u64 (number - 1)) (ParentHash h) parents (headers ++ [h])
          end
      end
  end.

Definition search_fuel (number : Z) : nat := S (S (Z.to_nat number)).

Definition snapshot (chain : ChainHeaderReader) (number hash : Z) (parents : list Header) : M Snapshot :=
  let^ '(s, headers) := search_snapshot (search_fuel number) chain number hash parents [] in
  let^ s := apply headers s in
  let^ _ := add_recent s in
  let^ _ := (if (snap_Number s mod checkpointInterval =? 0) && (0 <? Z.of_nat (length headers)) then store s
             else cm_ret tt) in
  cm_ret s.

(** *** Verification *)

Definition refuse_if (b : bool) (e : cliqueError) : M unit := if b then cm_throw e else cm_ret tt.
Definition run_check (r : checked) : M unit :=
  match r with None => cm_panic | Some None => cm_ret tt | Some (Some e) => cm_throw (errHeader e) end.

Definition verifySeal (s : Snapshot) (h : Header) : M unit :=
  let number := u64 (Number h) in
  let^ _ := refuse_if (number =? 0) errUnknownBlock in
  let^ who := ecrecover h in
  let^ _ := refuse_if (negb (bool_decide (who ∈ snap_Signers s))) errUnauthorizedSigner in
  let^ _ := refuse_if (bool_decide (map_Exists (fun seen recent => recent = who /\ u64 (number - signer_limit s) < seen)
                                      (snap_Recents s))) errRecentlySigned in
  let^ c := cm_get in
  if fakeDiff c then cm_ret tt
  else
    match inturn number who s with
    | None => cm_panic
    | Some turn =>
        refuse_if (negb (Header.Difficulty h =? if turn then diffInTurn else diffNoTurn)) errWrongDifficulty
    end.

(** The parent: the last of the batch, or the stored one. *)
Definition parent_header (chain : ChainHeaderReader) (h : Header) (parents : list Header) : option Header :=
  match last parents with
  | Some p => Some p
  | None => GetHeader (reader chain) (ParentHash h) (u64 (u64 (Number h) - 1))
  end.

Definition signer_bytes (s : Snapshot) : list Z := concat (map (be_bytes 20) (signers s)).

Definition middle_extra (h : Header) : list Z :=
  drop extraVanity (take (length (Extra h) - extraSeal) (Extra h)).

Definition verifyCascadingFields (chain : ChainHeaderReader) (h : Header) (parents : list Header) : M unit :=
  let number := u64 (Number h) in
  let cfg := chain_Config (reader chain) in
  if number =? 0 then cm_ret tt
  else
    match parent_header chain h parents with
    | None => cm_throw (errHeader ErrUnknownAncestor)
    | Some parent =>
        let^ c := cm_get in
        let^ _ := refuse_if (negb (u64 (Number parent) =? number - 1) || negb (header_hash parent =? ParentHash h))
                    (errHeader ErrUnknownAncestor) in
        let^ _ := refuse_if (Header.Time h <? u64 (Header.Time parent + Period (config c))) errInvalidTimestamp in
        let^ _ := refuse_if (Header.GasLimit h <? Header.GasUsed h)
                    (errHeader (ErrGasUsedTooHigh (Header.GasUsed h) (Header.GasLimit h))) in
        let^ _ :=
          (if negb (Config.IsLondon cfg (Some (Number h))) then
             match BaseFee h with
             | Some fee => cm_throw (errHeader (ErrBaseFeeBeforeFork fee))
             | None => run_check (VerifyGaslimit (Header.GasLimit parent) (Header.GasLimit h))
             end
           else run_check (VerifyEIP1559Header cfg parent h)) in
        let^ s := snapshot chain (number - 1) (ParentHash h) parents in
        let^ c := cm_get in
        let^ _ := refuse_if ((number mod Epoch (config c) =? 0)
                             && negb (bool_decide (middle_extra h = signer_bytes s))) errMismatchingCheckpointSigners in
        verifySeal s h
    end.

Definition verifyHeader (chain : ChainHeaderReader) (h : Header) (parents : list Header) : M unit :=
  let number := u64 (Number h) in
  let cfg := chain_Config (reader chain) in
  let^ c := cm_get in
  let^ _ := refuse_if (u64 unixNow <? Header.Time h) (errHeader ErrFutureBlock) in
  let^ _ := (if Epoch (config c) =? 0 then cm_panic else cm_ret tt) in
  let checkpoint := number mod Epoch (config c) =? 0 in
  let^ _ := refuse_if (checkpoint && negb (Coinbase h =? 0)) errInvalidCheckpointBeneficiary in
  let^ _ := refuse_if (negb (Header.Nonce h =? nonceAuthVote) && negb (Header.Nonce h =? nonceDropVote)) errInvalidVote in
  let^ _ := refuse_if (checkpoint && negb (Header.Nonce h =? nonceDropVote)) errInvalidCheckpointVote in
  let^ _ := refuse_if (length (Extra h) <? extraVanity)%nat errMissingVanity in
  let^ _ := refuse_if (length (Extra h) <? extraVanity + extraSeal)%nat errMissingSignature in
  let signersBytes := Z.of_nat (length (Extra h)) - Z.of_nat extraVanity - Z.of_nat extraSeal in
  let^ _ := refuse_if (negb checkpoint && negb (signersBytes =? 0)) errExtraSigners in
  let^ _ := refuse_if (checkpoint && negb (signersBytes mod AddressLength =? 0)) errInvalidCheckpointSigners in
  let^ _ := refuse_if (negb (forallb (Z.eqb 0) (MixDigest h))) errInvalidMixDigest in
  let^ _ := refuse_if (negb (UncleHash h =? uncleHash)) errInvalidUncleHash in
  let^ _ := refuse_if ((0 <? number) && negb (Header.Difficulty h =? diffInTurn) && negb (Header.Difficulty h =? diffNoTurn))
              errInvalidDifficulty in
  let^ _ := refuse_if (MaxGasLimit <? Header.GasLimit h) (errHeader (ErrGasLimitTooBig (Header.GasLimit h))) in
  let version := arbosVersion legacyZeroBaseFeeUntil h in
  let^ _ := refuse_if (Config.IsShanghai cfg (Some (Number h)) (Header.Time h) version) (errHeader (ErrUnsupportedFork "shanghai")) in
  let^ _ := run_check (no_field "withdrawalsHash" (WithdrawalsHash h)) in
  let^ _ := refuse_if (Config.IsCancun cfg (Some (Number h)) (Header.Time h) version) (errHeader (ErrUnsupportedFork "cancun")) in
  let^ _ := run_check (no_field "excessBlobGas" (ExcessBlobGas h)) in
  let^ _ := run_check (no_field "blobGasUsed" (Header.BlobGasUsed h)) in
  let^ _ := run_check (no_field "parentBeaconRoot" (ParentBeaconRoot h)) in
  verifyCascadingFields chain h parents.

Definition VerifyHeader (chain : ChainHeaderReader) (h : Header) : M unit := verifyHeader chain h [].

(** The results of a batch, each header with those before it. *)
Fixpoint verify_each (chain : ChainHeaderReader) (before todo : list Header) (c : Clique) :
    option (list (result cliqueError unit) * Clique) :=
  match todo with
  | [] => Some ([], c)
  | h :: todo =>
      '(r, c) ← verifyHeader chain h before c;
      '(rs, c) ← verify_each chain (before ++ [h]) todo c;
      Some (r :: rs, c)
  end.
Definition VerifyHeaders (chain : ChainHeaderReader) (headers : list Header) (c : Clique) := verify_each chain [] headers c.

Definition VerifyUncles (block : Block) : result cliqueError unit :=
  if (0 <? length (b_Uncles (block_body block)))%nat then Err errUncles else Ok tt.

(** *** Preparing a header *)

(** The vote to cast: one of the proposals that make sense. *)
Definition pick_vote (c : Clique) (s : Snapshot) : Z * Z :=
  match filter (fun '(address, authorize) => validVote address authorize s = true) (map_to_list (proposals c)) with
  | [] => (0, 0)
  | l => let address := choose (map fst l) in
         (address, if default false (proposals c !! address) then nonceAuthVote else nonceDropVote)
  end.

Definition prepared (h : Header) (coinbase nonce difficulty time : Z) (extra : list Z) : Header :=
  mkHeader (ParentHash h) (UncleHash h) coinbase (Header.Root h) (TxHash h) (ReceiptHash h) (Header.Bloom h) difficulty
    (Number h) (Header.GasLimit h) (Header.GasUsed h) time extra (replicate 32 0) nonce (BaseFee h) (WithdrawalsHash h)
    (Header.BlobGasUsed h) (ExcessBlobGas h) (ParentBeaconRoot h) (RequestsHash h).

Definition prepared_extra (h : Header) (checkpoint : list Z) : list Z :=
  take extraVanity (Extra h ++ replicate (extraVanity - length (Extra h)) 0) ++ checkpoint ++ replicate extraSeal 0.

Definition Prepare (chain : ChainHeaderReader) (h : Header) : M Header :=
  let number := u64 (Number h) in
  let^ s := snapshot chain (u64 (number - 1)) (ParentHash h) [] in
  let^ c := cm_get in
  if Epoch (config c) =? 0 then cm_panic
  else
    let checkpoint := number mod Epoch (config c) =? 0 in
    let '(coinbase, nonce) := if checkpoint then (0, 0) else pick_vote c s in
    match calcDifficulty (signer c) s with
    | None => cm_panic
    | Some difficulty =>
        match GetHeader (reader chain) (ParentHash h) (u64 (number - 1)) with
        | None => cm_throw (errHeader ErrUnknownAncestor)
        | Some parent =>
            let time := Z.max (u64 (Header.Time parent + Period (config c))) (u64 unixNow) in
            cm_ret (prepared h coinbase nonce difficulty time (prepared_extra h (if checkpoint then signer_bytes s else [])))
        end
    end.

Definition Authorize (who : Z) (c : Clique) : Clique :=
  mkClique (config c) (db c) (recents c) (signatures c) (proposals c) who (fakeDiff c).

Definition CalcDifficulty (chain : ChainHeaderReader) (parent : Header) (c : Clique) : option (option Z * Clique) :=
  match snapshot chain (u64 (Number parent)) (header_hash parent) [] c with
  | None => None
  | Some (Err _, c) => Some (None, c)
  | Some (Ok s, c) => d ← calcDifficulty (signer c) s; Some (Some d, c)
  end.

(** There are no rewards. *)
Definition Finalize (h : Header) (body : Body) (s : StateDB) : StateDB := s.

End Engine.
