(* ===== verification/CliqueTheorems.v ===== *)
(** What the votes and seals of [Clique] guarantee: the tally counts the votes, a signer
    is added or removed only by more than half of the signers, nobody signs more than one
    block in a window, and the snapshots the engine finds are those that replaying the
    headers gives. *)

From stdpp Require Import base gmap list numbers option sorting sets fin_maps strings.
From S2P Require Import AccessList State.
From S2P Require Import Prelude Params Uint256 ChainConfig Header FeeMarket Difficulty Consensus Rlp RlpCodec TxTypes.
From S2P Require Import Transaction Signers Lru Clique.
Open Scope Z_scope.

(** ** The tally *)

Definition votes_on (a : Z) (votes : list Vote) : list Vote := filter (fun v => vote_Address v = a) votes.
Definition count (a : Z) (votes : list Vote) : Z := Z.of_nat (length (votes_on a votes)).

(** A vote on [a] can only be to add it if it does not sign, and to remove it if it does. *)
Definition proposal (G : gset Z) (a : Z) : bool := negb (bool_decide (a ∈ G)).

Definition tally_for (G : gset Z) (votes : list Vote) (a : Z) : option Tally :=
  if count a votes =? 0 then None else Some (mkTally (proposal G a) (count a votes)).

Definition tallies (G : gset Z) (votes : list Vote) (t : gmap Z Tally) : Prop := forall a, t !! a = tally_for G votes a.

Record votes_ok (s : Snapshot) : Prop := {
  vo_votes : forall v, v ∈ snap_Votes s ->
    vote_Signer v ∈ snap_Signers s /\ vote_Authorize v = proposal (snap_Signers s) (vote_Address v);
  vo_nodup : NoDup (map (fun v => (vote_Signer v, vote_Address v)) (snap_Votes s));
  vo_tally : tallies (snap_Signers s) (snap_Votes s) (snap_Tally s)
}.

Lemma votes_count_app a l1 l2 : count a (l1 ++ l2) = count a l1 + count a l2.
Proof. unfold count, votes_on. rewrite filter_app, length_app. lia. Qed.

Lemma votes_count_cons a v l : count a (v :: l) = (if decide (vote_Address v = a) then 1 else 0) + count a l.
Proof. unfold count, votes_on. rewrite filter_cons. case_decide; simpl; lia. Qed.

Lemma votes_count_nonneg a l : 0 <= count a l.
Proof. unfold count. lia. Qed.

Lemma votes_count_perm a l1 l2 : l1 ≡ₚ l2 -> count a l1 = count a l2.
Proof. intros Hp. unfold count, votes_on. by rewrite Hp. Qed.

Lemma tallies_perm G l1 l2 t : l1 ≡ₚ l2 -> tallies G l1 t -> tallies G l2 t.
Proof. intros Hp Ht a. rewrite Ht. unfold tally_for. by rewrite (votes_count_perm a _ _ Hp). Qed.

(** Taking back a vote that was counted. *)
Lemma uncast_tallies G v votes t : vote_Authorize v = proposal G (vote_Address v) ->
  tallies G (v :: votes) t -> tallies G votes (uncast_vote v t).
Proof.
  intros Hv Ht a. pose proof (votes_count_nonneg a votes). pose proof (votes_count_nonneg (vote_Address v) votes).
  unfold uncast_vote, uncast. rewrite (Ht (vote_Address v)). unfold tally_for at 1. rewrite votes_count_cons, decide_True by done.
  destruct (Z.eqb_spec (1 + count (vote_Address v) votes) 0); [lia|]. simpl. rewrite Hv, eqb_reflx. simpl.
  unfold tally_for. destruct (Z.ltb_spec 1 (1 + count (vote_Address v) votes)) as [Hlt|Hle]; simpl.
  - destruct (decide (a = vote_Address v)) as [->|Hne].
    + rewrite lookup_insert_eq. destruct (Z.eqb_spec (count (vote_Address v) votes) 0); [lia|]. do 2 f_equal. lia.
    + rewrite lookup_insert_ne by done. rewrite Ht. unfold tally_for. by rewrite votes_count_cons, decide_False.
  - destruct (decide (a = vote_Address v)) as [->|Hne].
    + rewrite lookup_delete_eq. by destruct (Z.eqb_spec (count (vote_Address v) votes) 0); [|lia].
    + rewrite lookup_delete_ne by done. rewrite Ht. unfold tally_for. by rewrite votes_count_cons, decide_False.
Qed.

Lemma discard_previous_spec signer address votes t :
  (forall v, v ∈ votes -> ~ (vote_Signer v = signer /\ vote_Address v = address))
    /\ discard_previous signer address votes t = (votes, t)
  \/ exists l1 v l2, votes = l1 ++ v :: l2 /\ vote_Signer v = signer /\ vote_Address v = address
    /\ discard_previous signer address votes t = (l1 ++ l2, uncast_vote v t).
Proof.
  induction votes as [|v votes IH]; simpl; [left; split; [set_solver|done]|].
  destruct (Z.eqb_spec (vote_Signer v) signer), (Z.eqb_spec (vote_Address v) address); simpl.
  1: right; by exists [], v, votes.
  all: destruct IH as [[Hn ->]|(l1 & w & l2 & -> & Hs & Ha & ->)];
    [left; split; [|done]; intros w Hw; apply elem_of_cons in Hw as [->|Hw]; [tauto|by apply Hn]
    |right; by exists (v :: l1), w, l2].
Qed.

Lemma discard_cast_by_spec signer votes t : discard_cast_by signer votes t =
  (filter (fun v => vote_Signer v <> signer) votes,
   foldl (fun t v => uncast_vote v t) t (filter (fun v => vote_Signer v = signer) votes)).
Proof.
  revert t. induction votes as [|v votes IH]; intros t; [done|]. simpl. rewrite !filter_cons.
  destruct (Z.eqb_spec (vote_Signer v) signer).
  - rewrite IH. by rewrite decide_False, decide_True by tauto.
  - rewrite IH. by rewrite decide_True, decide_False by tauto.
Qed.

Lemma uncast_all_tallies G gone votes t : (forall v, v ∈ gone -> vote_Authorize v = proposal G (vote_Address v)) ->
  tallies G (gone ++ votes) t -> tallies G votes (foldl (fun t v => uncast_vote v t) t gone).
Proof.
  revert t. induction gone as [|v gone IH]; intros t Hv Ht; simpl; [done|].
  apply IH; [intros w Hw; apply Hv; by right|]. apply uncast_tallies; [apply Hv; by left|done].
Qed.

Lemma filter_split {A} (P : A -> Prop) `{!forall x, Decision (P x)} (l : list A) :
  l ≡ₚ filter P l ++ filter (fun x => ~ P x) l.
Proof.
  induction l as [|x l IH]; [done|]. rewrite !filter_cons. destruct (decide (P x)).
  - rewrite decide_False by tauto. simpl. by f_equiv.
  - rewrite decide_True by done. rewrite <- Permutation_middle. by f_equiv.
Qed.

(** ** Counting a vote *)

Lemma uncast_one_ok s l1 v l2 : votes_ok s -> snap_Votes s = l1 ++ v :: l2 ->
  votes_ok (set_Votes (l1 ++ l2) (uncast_vote v (snap_Tally s)) s).
Proof.
  intros [Hv Hnd Ht] E. rewrite E in *. split; simpl.
  - intros w Hw. apply Hv. rewrite elem_of_app, elem_of_cons in *. tauto.
  - rewrite map_app in *. simpl in Hnd. rewrite NoDup_app, NoDup_cons in *.
    destruct Hnd as (H1 & H12 & _ & H2). split_and!; [done| |done]. intros x Hx Hx2. apply (H12 x Hx). by right.
  - apply uncast_tallies; [apply Hv; set_solver|]. eapply tallies_perm; [|done]. by rewrite Permutation_middle.
Qed.

Lemma cast_ok number signer address authorize s : votes_ok s -> signer ∈ snap_Signers s ->
  (forall v, v ∈ snap_Votes s -> ~ (vote_Signer v = signer /\ vote_Address v = address)) ->
  let '(done, t) := cast address authorize s in
  votes_ok (if done then set_Votes (snap_Votes s ++ [mkVote signer number address authorize]) t s else s).
Proof.
  intros Hok Hs Hnew. destruct Hok as [Hv Hnd Ht]. unfold cast.
  destruct (validVote address authorize s) eqn:Hvalid; simpl; [|by split].
  assert (authorize = proposal (snap_Signers s) address) as Hauth.
  { unfold validVote in Hvalid. unfold proposal. by destruct (bool_decide _), authorize. }
  split; simpl.
  - intros v Hin. apply elem_of_app in Hin as [Hin|Hin]; [by apply Hv|]. by apply list_elem_of_singleton in Hin as ->.
  - rewrite map_app, NoDup_app. split_and!; [done| |apply NoDup_singleton].
    intros p Hp Hp2. simpl in Hp2. apply list_elem_of_singleton in Hp2 as ->.
    apply list_elem_of_fmap in Hp as (v & [= -> ->] & Hin). by apply (Hnew v Hin).
  - intros a. unfold tally_for. rewrite votes_count_app, votes_count_cons. change (count a []) with 0. simpl.
    pose proof (votes_count_nonneg a (snap_Votes s)).
    destruct (decide (a = address)) as [->|Hne].
    + rewrite lookup_insert_eq, decide_True by done. destruct (Z.eqb_spec (count address (snap_Votes s) + (1 + 0)) 0); [lia|].
      rewrite Ht. unfold tally_for. destruct (Z.eqb_spec (count address (snap_Votes s)) 0) as [E|E].
      * rewrite E, Hauth. done.
      * simpl. do 2 f_equal. 
    + rewrite lookup_insert_ne, decide_False by done. rewrite Ht. unfold tally_for.
      by replace (count a (snap_Votes s) + (0 + 0)) with (count a (snap_Votes s)) by lia.
Qed.

Lemma count_vote_ok number signer address authorize s : votes_ok s -> signer ∈ snap_Signers s ->
  votes_ok (count_vote number signer address authorize s).
Proof.
  intros Hok Hs. unfold count_vote.
  destruct (discard_previous_spec signer address (snap_Votes s) (snap_Tally s))
    as [[Hnew ->]|(l1 & v & l2 & E & <- & <- & ->)].
  - replace (set_Votes (snap_Votes s) (snap_Tally s) s) with s by by destruct s.
    pose proof (cast_ok number signer address authorize s Hok Hs Hnew) as Hc.
    destruct (cast address authorize s). exact Hc.
  - pose proof (uncast_one_ok s l1 v l2 Hok E) as Hok1.
    pose proof (cast_ok number (vote_Signer v) (vote_Address v) authorize _ Hok1 Hs) as Hc.
    destruct (cast _ _ _). apply Hc. simpl. intros w Hw [Es Ea].
    destruct Hok as [_ Hnd _]. rewrite E, map_app in Hnd. simpl in Hnd. rewrite NoDup_app, NoDup_cons in Hnd.
    destruct Hnd as (_ & H12 & Hv2 & _).
    assert (forall l, w ∈ l -> (vote_Signer v, vote_Address v) ∈ map (fun v => (vote_Signer v, vote_Address v)) l) as Hin.
    { intros l Hl. apply list_elem_of_fmap. exists w. by rewrite Es, Ea. }
    apply elem_of_app in Hw as [Hw|Hw]; [apply (H12 _ (Hin _ Hw)); by left|by apply Hv2, Hin].
Qed.

Lemma count_vote_signers number signer address authorize s :
  snap_Signers (count_vote number signer address authorize s) = snap_Signers s
  /\ snap_Recents (count_vote number signer address authorize s) = snap_Recents s.
Proof. unfold count_vote. destruct (discard_previous _ _ _ _), (cast _ _ _) as [[] ?]; done. Qed.

Lemma count_vote_votes number signer address authorize s v : v ∈ snap_Votes (count_vote number signer address authorize s) ->
  v ∈ snap_Votes s \/ v = mkVote signer number address authorize.
Proof.
  unfold count_vote. destruct (discard_previous_spec signer address (snap_Votes s) (snap_Tally s))
    as [[Hnew ->]|(l1 & w & l2 & E & <- & <- & ->)]; destruct (cast _ _ _) as [[] ?]; simpl;
    rewrite ?E, ?elem_of_app, ?elem_of_cons, ?elem_of_nil; naive_solver.
Qed.

(** ** Passing a vote *)

Lemma discard_about_ok G s address G' votes t :
  votes_ok (set_Votes votes t s) -> snap_Signers s = G ->
  (forall v, v ∈ votes -> vote_Signer v ∈ G') -> (forall a, a <> address -> proposal G' a = proposal G a) ->
  tallies G' (discard_about address votes) (delete address t) /\
  (forall v, v ∈ discard_about address votes -> vote_Signer v ∈ G' /\ vote_Authorize v = proposal G' (vote_Address v)) /\
  NoDup (map (fun v => (vote_Signer v, vote_Address v)) (discard_about address votes)).
Proof.
  intros [Hv Hnd Ht] HG Hin Hprop. simpl in *. rewrite HG in *. split_and!.
  - intros a. unfold tally_for, discard_about. destruct (decide (a = address)) as [->|Hne].
    + rewrite lookup_delete_eq. assert (count address (filter (fun v => vote_Address v <> address) votes) = 0) as ->; [|done].
      unfold count, votes_on. rewrite list_filter_filter. 
      rewrite (list_filter_iff _ (fun _ => False)) by naive_solver. clear. by induction votes.
    + rewrite lookup_delete_ne by done. rewrite Ht. unfold tally_for. rewrite Hprop by done.
      assert (count a (filter (fun v => vote_Address v <> address) votes) = count a votes) as ->; [|done].
      unfold count, votes_on. rewrite list_filter_filter. do 2 f_equal. apply list_filter_iff. naive_solver.
  - intros v Hd. unfold discard_about in Hd. apply list_elem_of_filter in Hd as [Hne Hd].
    split; [by apply Hin|]. rewrite Hprop by done. by apply Hv.
  - unfold discard_about. clear -Hnd. induction votes as [|v votes IH]; [constructor|].
    simpl in Hnd. apply NoDup_cons in Hnd as [Hv Hnd]. rewrite filter_cons. case_decide; [|by apply IH].
    simpl. constructor; [|by apply IH]. intros Hin. apply Hv. apply list_elem_of_fmap in Hin as (w & E & Hw).
    apply list_elem_of_filter in Hw as [_ Hw]. apply list_elem_of_fmap. by exists w.
Qed.

Lemma shift_recents_same number s : snap_Signers (shift_recents number s) = snap_Signers s
  /\ snap_Votes (shift_recents number s) = snap_Votes s /\ snap_Tally (shift_recents number s) = snap_Tally s
  /\ snap_Number (shift_recents number s) = snap_Number s.
Proof. unfold shift_recents. by case_match. Qed.

Lemma filter_nodup_map {A B} (f : A -> B) (P : A -> Prop) `{!forall x, Decision (P x)} l :
  NoDup (map f l) -> NoDup (map f (filter P l)).
Proof.
  induction l as [|x l IH]; [done|]. simpl. intros Hnd. apply NoDup_cons in Hnd as [Hx Hnd].
  rewrite filter_cons. case_decide; [|by apply IH]. simpl. constructor; [|by apply IH].
  intros Hin. apply Hx. apply list_elem_of_fmap in Hin as (w & E & Hw).
  apply list_elem_of_filter in Hw as [_ Hw]. apply list_elem_of_fmap. by exists w.
Qed.

Lemma pass_vote_ok number address s : votes_ok s -> votes_ok (pass_vote number address s).
Proof.
  intros Hok. unfold pass_vote. destruct (snap_Tally s !! address) as [tally|] eqn:Et; [|done].
  case_match eqn:Hmaj; [|done]. destruct (tally_Authorize tally) eqn:Ha.
  - assert (votes_ok (set_Votes (snap_Votes s) (snap_Tally s) s)) as Hok' by by destruct s.
    destruct (discard_about_ok (snap_Signers s) s address ({[address]} ∪ snap_Signers s) _ _ Hok' eq_refl) as (H1 & H2 & H3).
    + intros v Hv. apply (vo_votes _ Hok) in Hv as [Hv _]. set_solver.
    + intros a Hne. unfold proposal. f_equal. apply bool_decide_ext. set_solver.
    + by split.
  - set (s1 := shift_recents number (set_Signers (snap_Signers s ∖ {[address]}) s)).
    destruct (shift_recents_same number (set_Signers (snap_Signers s ∖ {[address]}) s)) as (E1 & E2 & E3 & _).
    fold s1 in E1, E2, E3. rewrite discard_cast_by_spec, E2, E3. simpl in E1, E2, E3.
    set (kept := filter (fun v => vote_Signer v <> address) (snap_Votes s)).
    set (gone := filter (fun v => vote_Signer v = address) (snap_Votes s)).
    set (t := foldl (fun t v => uncast_vote v t) (snap_Tally s) gone).
    assert (votes_ok (set_Votes kept t s)) as Hok'.
    { destruct Hok as [Hv Hnd Ht]. split; simpl.
      - intros v Hin. apply list_elem_of_filter in Hin as [_ Hin]. by apply Hv.
      - by apply filter_nodup_map.
      - apply uncast_all_tallies; [intros v Hin; apply list_elem_of_filter in Hin as [_ Hin]; by apply Hv|].
        eapply tallies_perm; [|done]. apply (filter_split (fun v => vote_Signer v = address)). }
    destruct (discard_about_ok (snap_Signers s) s address (snap_Signers s ∖ {[address]}) _ _ Hok' eq_refl) as (H1 & H2 & H3).
    + intros v Hin. apply list_elem_of_filter in Hin as [Hne Hin]. apply (vo_votes _ Hok) in Hin as [Hin _]. set_solver.
    + intros a Hne. unfold proposal. f_equal. apply bool_decide_ext. set_solver.
    + split; simpl; rewrite ?E1; done.
Qed.

(** Who voted for the proposal on an address. *)
Definition voters (a : Z) (votes : list Vote) : gset Z := list_to_set (map vote_Signer (votes_on a votes)).

Lemma voters_count s a : votes_ok s -> Z.of_nat (base.size (voters a (snap_Votes s))) = count a (snap_Votes s)
  /\ voters a (snap_Votes s) ⊆ snap_Signers s.
Proof.
  intros [Hv Hnd _]. unfold voters, count. split.
  - rewrite size_list_to_set, length_map; [done|].
    assert (forall l, (forall v, v ∈ l -> vote_Address v = a) -> NoDup (map (fun v => (vote_Signer v, vote_Address v)) l) ->
      NoDup (map vote_Signer l)) as Hl.
    { induction l as [|v l IH]; intros Ha Hn; [constructor|]. simpl in *. apply NoDup_cons in Hn as [Hv1 Hn]. constructor.
      - intros Hin. apply Hv1. apply list_elem_of_fmap in Hin as (w & E & Hw). apply list_elem_of_fmap. exists w.
        rewrite E, !Ha; [done|by right|by left].
      - apply IH; [intros w Hw; apply Ha; by right|done]. }
    apply Hl; [intros v Hin; by apply list_elem_of_filter in Hin as [? _]|by apply filter_nodup_map].
  - intros x Hx. apply elem_of_list_to_set, list_elem_of_fmap in Hx as (v & -> & Hin).
    apply list_elem_of_filter in Hin as [_ Hin]. by apply Hv.
Qed.

Lemma pass_vote_majority number address s : votes_ok s ->
  snap_Signers (pass_vote number address s) = snap_Signers s
  \/ (Z.of_nat (base.size (snap_Signers s)) < 2 * Z.of_nat (base.size (voters address (snap_Votes s)))
      /\ snap_Signers (pass_vote number address s)
         = if bool_decide (address ∈ snap_Signers s) then snap_Signers s ∖ {[address]} else {[address]} ∪ snap_Signers s).
Proof.
  intros Hok. unfold pass_vote. destruct (snap_Tally s !! address) as [tally|] eqn:Et; [|by left].
  destruct (Z.ltb_spec (Z.of_nat (base.size (snap_Signers s)) / 2) (tally_Votes tally)) as [Hmaj|]; [|by left]. right.
  rewrite (vo_tally _ Hok) in Et. unfold tally_for in Et. case_match; simplify_eq/=.
  destruct (voters_count s address Hok) as [Hc _]. split; [rewrite Hc; Z.to_euclidean_division_equations; lia|].
  unfold proposal. case_bool_decide; simpl; [|done].
  destruct (discard_cast_by _ _ _). simpl. by rewrite (proj1 (shift_recents_same _ _)).
Qed.

(** ** Replaying headers *)

Section Replay.
Context {HH : HeaderHash} (config : CliqueConfig).

(** One header, signed by [who], on top of a snapshot. *)
Definition advance (h : Header) (who : Z) (s : Snapshot) : result cliqueError Snapshot :=
  let number := u64 (Number h) in
  match apply_signed number who h (shift_recents number (reset_votes config number s)) with
  | Err e => Err e
  | Ok s => Ok (mkSnapshot number (header_hash h) (snap_Signers s) (snap_Recents s) (snap_Votes s) (snap_Tally s))
  end.

(** A chain of headers with their signers, on snapshots that all satisfy [P]. *)
Inductive replay (P : Snapshot -> Prop) : Snapshot -> list (Header * Z) -> Snapshot -> Prop :=
| replay_nil s : P s -> replay P s [] s
| replay_cons s h who s1 tr s2 :
    P s -> u64 (Number h) = snap_Number s + 1 -> advance h who s = Ok s1 -> replay P s1 tr s2 ->
    replay P s ((h, who) :: tr) s2.

Lemma reset_votes_ok number s : votes_ok s -> votes_ok (reset_votes config number s).
Proof.
  intros Hok. unfold reset_votes. case_match; [|done].
  split; simpl; [set_solver|constructor|]. intros a. by rewrite lookup_empty.
Qed.

Lemma reset_votes_same number s : snap_Signers (reset_votes config number s) = snap_Signers s
  /\ snap_Recents (reset_votes config number s) = snap_Recents s
  /\ (forall v, v ∈ snap_Votes (reset_votes config number s) -> v ∈ snap_Votes s).
Proof. unfold reset_votes. case_match; set_solver. Qed.

Lemma set_Recents_ok r s : votes_ok s -> votes_ok (set_Recents r s).
Proof. intros [H1 H2 H3]. by split. Qed.

Lemma shift_recents_ok number s : votes_ok s -> votes_ok (shift_recents number s).
Proof. unfold shift_recents. case_match; [apply set_Recents_ok|done]. Qed.

(** What an accepted header went through. *)
Lemma advance_inv h who s s' : advance h who s = Ok s' ->
  let number := u64 (Number h) in
  let s0 := shift_recents number (reset_votes config number s) in
  exists authorize, vote_of_nonce (Header.Nonce h) = Some authorize
  /\ who ∈ snap_Signers s
  /\ (forall k, snap_Recents s0 !! k <> Some who)
  /\ let s1 := set_Recents (<[number := who]> (snap_Recents s0)) s0 in
     let s2 := count_vote number who (Coinbase h) authorize s1 in
     let s3 := pass_vote number (Coinbase h) s2 in
     s' = mkSnapshot number (header_hash h) (snap_Signers s3) (snap_Recents s3) (snap_Votes s3) (snap_Tally s3).
Proof.
  unfold advance, apply_signed. intros H.
  destruct (shift_recents_same (u64 (Number h)) (reset_votes config (u64 (Number h)) s)) as [E _].
  rewrite E, (proj1 (reset_votes_same _ s)) in H.
  case_bool_decide as Hin; [|done]. simpl in H. case_bool_decide as Hrec; [done|].
  destruct (vote_of_nonce (Header.Nonce h)) as [authorize|]; [|done]. injection H as <-.
  exists authorize. split_and!; [done|done| |done]. intros k Hk. apply Hrec. by exists k, who.
Qed.

Lemma advance_votes_ok h who s s' : votes_ok s -> advance h who s = Ok s' -> votes_ok s'.
Proof.
  intros Hok Ha. destruct (advance_inv _ _ _ _ Ha) as (authorize & _ & Hin & _ & ->).
  set (s0 := shift_recents _ _). assert (votes_ok s0) as H0 by by apply shift_recents_ok, reset_votes_ok.
  assert (who ∈ snap_Signers s0) as Hin0.
  { unfold s0. by rewrite (proj1 (shift_recents_same _ _)), (proj1 (reset_votes_same _ _)). }
  set (s1 := set_Recents _ _). assert (votes_ok s1) as H1 by by apply set_Recents_ok.
  pose proof (pass_vote_ok (u64 (Number h)) (Coinbase h) _
    (count_vote_ok (u64 (Number h)) who (Coinbase h) authorize s1 H1 Hin0)) as [Ha1 Ha2 Ha3]. by split.
Qed.

Lemma replay_votes_ok P s tr s' : votes_ok s -> replay P s tr s' -> votes_ok s'.
Proof. intros Hok. induction 1 as [|s h who s1 tr s2 _ _ Ha _ IH]; [done|]. by apply IH, (advance_votes_ok h who s). Qed.

Lemma newSnapshot_ok number hash l : votes_ok (newSnapshot number hash l).
Proof. split; simpl; [set_solver|constructor|]. intros a. by rewrite lookup_empty. Qed.

(** C33. The signers change only by the vote of more than half of them: along any chain of accepted headers from a
    checkpoint, every header is by a current signer; the votes kept are by current signers, at most one for each
    account, to add accounts that do not sign and to remove those that do, and the tally of an account is their
    number; and a header leaves the signers as they are or adds or removes exactly its beneficiary, when strictly
    more than half of the signers have voted for that in the current epoch, the one of this header included. *)
Theorem signers_change_by_majority number hash l tr s h who s' :
  replay (fun _ => True) (newSnapshot number hash l) tr s -> advance h who s = Ok s' ->
  votes_ok s /\ who ∈ snap_Signers s /\
  (snap_Signers s' = snap_Signers s
   \/ exists V : gset Z, V ⊆ snap_Signers s
      /\ Z.of_nat (base.size (snap_Signers s)) < 2 * Z.of_nat (base.size V)
      /\ (forall x, x ∈ V -> x = who \/ exists v, v ∈ snap_Votes s /\ vote_Signer v = x /\ vote_Address v = Coinbase h)
      /\ snap_Signers s' = if bool_decide (Coinbase h ∈ snap_Signers s) then snap_Signers s ∖ {[Coinbase h]}
                           else {[Coinbase h]} ∪ snap_Signers s).
Proof.
  intros Hr Ha. pose proof (replay_votes_ok _ _ _ _ (newSnapshot_ok _ _ _) Hr) as Hok.
  split; [done|]. destruct (advance_inv _ _ _ _ Ha) as (authorize & _ & Hin & _ & ->). split; [done|]. simpl.
  set (s0 := shift_recents _ _). assert (votes_ok s0) as H0 by by apply shift_recents_ok, reset_votes_ok.
  assert (snap_Signers s0 = snap_Signers s) as E0.
  { unfold s0. by rewrite (proj1 (shift_recents_same _ _)), (proj1 (reset_votes_same _ _)). }
  set (s1 := set_Recents _ _). assert (votes_ok s1) as H1 by by apply set_Recents_ok.
  set (s2 := count_vote _ _ _ _ _).
  assert (snap_Signers s2 = snap_Signers s) as E2.
  { unfold s2. rewrite (proj1 (count_vote_signers _ _ _ _ _)). exact E0. }
  assert (votes_ok s2) as H2 by (apply count_vote_ok; [done|by rewrite <- E0 in Hin]).
  destruct (pass_vote_majority (u64 (Number h)) (Coinbase h) s2 H2) as [->|[Hmaj ->]]; rewrite E2 in *; [by left|right].
  exists (voters (Coinbase h) (snap_Votes s2)). split_and!; [|done| |done].
  - destruct (voters_count s2 (Coinbase h) H2) as [_ Hsub]. by rewrite E2 in Hsub.
  - intros x Hx. apply elem_of_list_to_set, list_elem_of_fmap in Hx as (v & -> & Hv).
    apply list_elem_of_filter in Hv as [Hv1 Hv]. apply count_vote_votes in Hv as [Hv| ->]; [right|by left].
    exists v. split_and!; try done. simpl in Hv. unfold s0 in Hv.
    rewrite (proj1 (proj2 (shift_recents_same _ _))) in Hv. by apply reset_votes_same in Hv.
Qed.

(** ** Recent signers *)

Lemma shift_recents_lookup number s k w :
  (snap_Recents (shift_recents number s) !! k = Some w -> snap_Recents s !! k = Some w /\ k <> number - signer_limit s)
  /\ (snap_Recents s !! k = Some w -> k = number - signer_limit s \/ snap_Recents (shift_recents number s) !! k = Some w)
  \/ number < signer_limit s /\ snap_Recents (shift_recents number s) = snap_Recents s.
Proof.
  unfold shift_recents. destruct (Z.leb_spec (signer_limit s) number); [left|by right]. simpl.
  rewrite lookup_delete_Some. split; [naive_solver|].
  intros Hk. destruct (decide (k = number - signer_limit s)) as [|Hne]; [by left|right]. by split; [intros E; apply Hne|].
Qed.

Lemma shift_recents_keeps number s k w : snap_Recents s !! k = Some w -> k <> number - signer_limit s ->
  snap_Recents (shift_recents number s) !! k = Some w.
Proof.
  intros Hk Hne. destruct (shift_recents_lookup number s k w) as [[_ H]|[_ ->]]; [|done]. by destruct (H Hk).
Qed.

Lemma shift_recents_sub number s k w : snap_Recents (shift_recents number s) !! k = Some w -> snap_Recents s !! k = Some w.
Proof.
  intros Hk. destruct (shift_recents_lookup number s k w) as [[H _]|[_ <-]]; [|done]. by apply H.
Qed.

(** [pass_vote] only touches the recent signers when a signer is removed. *)
Lemma pass_vote_recents number address s :
  snap_Recents (pass_vote number address s) = snap_Recents s
    /\ snap_Signers s ⊆ snap_Signers (pass_vote number address s)
  \/ snap_Signers (pass_vote number address s) = snap_Signers s ∖ {[address]}
    /\ snap_Recents (pass_vote number address s)
       = snap_Recents (shift_recents number (set_Signers (snap_Signers (pass_vote number address s)) s)).
Proof.
  unfold pass_vote. destruct (snap_Tally s !! address); [|left; done]. case_match; [|left; done].
  case_match; simpl; [left; split; [done|set_solver]|right].
  destruct (discard_cast_by _ _ _). simpl. by rewrite (proj1 (shift_recents_same _ _)).
Qed.

Lemma signer_limit_pos s : 1 <= signer_limit s.
Proof. unfold signer_limit. Z.to_euclidean_division_equations; lia. Qed.

Lemma signer_limit_mono s s' : (base.size (snap_Signers s) <= base.size (snap_Signers s'))%nat -> signer_limit s <= signer_limit s'.
Proof. unfold signer_limit. intros. Z.to_euclidean_division_equations; lia. Qed.

Lemma signer_limit_same s s' : snap_Signers s = snap_Signers s' -> signer_limit s = signer_limit s'.
Proof. unfold signer_limit. by intros ->. Qed.

Lemma size_minus_one (X : gset Z) a : (base.size X <= base.size (X ∖ {[a]}) + 1)%nat.
Proof.
  rewrite <- (size_singleton (C:=gset Z) a), <- size_union by set_solver. apply subseteq_size.
  intros x Hx. destruct (decide (x = a)); set_solver.
Qed.

(** The recent signers after a header: those before it and its own, and those that leave
    are as far back as the window is long, before or after the header. *)
Lemma advance_recents h who s s' : advance h who s = Ok s' -> let number := u64 (Number h) in
  snap_Recents s' !! number = Some who
  /\ (forall k w, snap_Recents s' !! k = Some w -> k = number \/ snap_Recents s !! k = Some w)
  /\ (forall k w, snap_Recents s !! k = Some w -> k <> number -> k <> number - signer_limit s ->
        k <> number - signer_limit s' -> snap_Recents s' !! k = Some w)
  /\ (forall k, snap_Recents s !! k = Some who -> k = number - signer_limit s)
  /\ (forall k, is_Some (snap_Recents s' !! k) -> k <> number ->
        (signer_limit s <= number -> k <> number - signer_limit s)
        /\ (signer_limit s <= signer_limit s' \/ (signer_limit s' <= number -> k <> number - signer_limit s')))
  /\ signer_limit s - 1 <= signer_limit s'.
Proof.
  intros Ha. destruct (advance_inv _ _ _ _ Ha) as (authorize & _ & Hin & Hno & ->). cbv zeta.
  cbn [snap_Recents snap_Signers].
  set (number := u64 (Number h)) in *. set (s0 := reset_votes config number s) in *.
  assert (snap_Recents s0 = snap_Recents s /\ signer_limit s0 = signer_limit s) as [Er El].
  { unfold signer_limit, s0. by destruct (reset_votes_same number s) as (-> & -> & _). }
  set (s1 := set_Recents _ _). set (s2 := count_vote number who (Coinbase h) authorize s1).
  assert (snap_Recents s2 = <[number := who]> (snap_Recents (shift_recents number s0))) as E2.
  { unfold s2. by rewrite (proj2 (count_vote_signers _ _ _ _ _)). }
  set (s3 := pass_vote number (Coinbase h) s2).
  change (signer_limit (mkSnapshot _ _ _ _ _ _)) with (signer_limit s3).
  assert ((forall k w, snap_Recents s3 !! k = Some w -> snap_Recents s2 !! k = Some w)
    /\ (forall k w, snap_Recents s2 !! k = Some w -> k <> number - signer_limit s3 -> snap_Recents s3 !! k = Some w)) as [Hsub Hkeep].
  { destruct (pass_vote_recents number (Coinbase h) s2) as [[E _]|[_ E]]; fold s3 in E; rewrite E; [done|].
    split; intros k w Hk; [by apply (shift_recents_sub _ _ _ _ Hk)|].
    intros Hne. apply shift_recents_keeps; [done|]. by rewrite (signer_limit_same _ s3). }
  assert (signer_limit s2 = signer_limit s0) as El2.
  { apply signer_limit_same. unfold s2. rewrite (proj1 (count_vote_signers _ _ _ _ _)). apply shift_recents_same. }
  pose proof (signer_limit_pos s3). rewrite E2 in *. rewrite <- Er, <- El. split_and!.
  - apply Hkeep; [by rewrite lookup_insert_eq|lia].
  - intros k w Hk. apply Hsub in Hk. destruct (decide (k = number)) as [|Hne]; [by left|right].
    rewrite lookup_insert_ne in Hk by done. by apply (shift_recents_sub number).
  - intros k w Hk Hn H1 H2. apply Hkeep; [|done]. rewrite lookup_insert_ne by done. by apply shift_recents_keeps.
  - intros k Hk. destruct (decide (k = number - signer_limit s0)) as [|Hne]; [done|].
    exfalso. apply (Hno k). by apply shift_recents_keeps.
  - intros k [w Hk] Hne. split.
    + intros Hle Hk0. apply Hsub in Hk. rewrite lookup_insert_ne in Hk by done.
      destruct (shift_recents_lookup number s0 k w) as [[H1 _]|[H1 _]]; [by destruct (H1 Hk)|lia].
    + destruct (pass_vote_recents number (Coinbase h) s2) as [[_ E]|[_ E]]; fold s3 in E.
      * left. rewrite <- El2. by apply signer_limit_mono, subseteq_size.
      * right. intros Hle Hk0. rewrite E in Hk.
        destruct (shift_recents_lookup number (set_Signers (snap_Signers s3) s2) k w) as [[H1 _]|[H1 _]];
          [by destruct (H1 Hk)|]. change (number < signer_limit s3) in H1. lia.
  - rewrite <- El2. destruct (pass_vote_recents number (Coinbase h) s2) as [[_ E]|[E _]]; fold s3 in E.
    + pose proof (signer_limit_mono _ _ (subseteq_size _ _ E)). lia.
    + unfold signer_limit. rewrite E.
      pose proof (size_minus_one (snap_Signers s2) (Coinbase h)). Z.to_euclidean_division_equations; lia.
Qed.

Lemma advance_number h who s s' : advance h who s = Ok s' -> snap_Number s' = u64 (Number h) /\ snap_Hash s' = header_hash h.
Proof. intros Ha. by destruct (advance_inv _ _ _ _ Ha) as (authorize & _ & _ & _ & ->). Qed.

(** The recent signers are those of the window before the next header. *)
Definition in_window (s : Snapshot) : Prop :=
  forall k, is_Some (snap_Recents s !! k) -> 0 <= k <= snap_Number s /\ snap_Number s + 1 - signer_limit s <= k.

Lemma advance_window h who s s' : 0 <= snap_Number s -> in_window s -> u64 (Number h) = snap_Number s + 1 ->
  advance h who s = Ok s' -> in_window s'.
Proof.
  intros Hs Hw Hnum Ha k Hk. pose proof (advance_recents _ _ _ _ Ha) as H. cbv zeta in H.
  destruct H as (_ & Hsub & _ & _ & Hout & Hlim). rewrite Hnum in *.
  destruct (advance_number h who s s' Ha) as [En _]. rewrite En, Hnum. pose proof (signer_limit_pos s').
  destruct (decide (k = snap_Number s + 1)) as [->|Hne]; [lia|].
  destruct (Hout k Hk Hne) as [H1 H2]. destruct Hk as [w Hk]. apply Hsub in Hk as [Hk|Hk]; [done|].
  destruct (Hw k (ex_intro _ w Hk)) as [Hk0 Hk1].
  destruct (decide (signer_limit s <= snap_Number s + 1)) as [Hle|Hgt].
  - specialize (H1 Hle). destruct H2 as [H2|H2]; [lia|].
    destruct (decide (signer_limit s' <= snap_Number s + 1)) as [Hle'|]; [specialize (H2 Hle')|]; lia.
  - destruct H2 as [H2|H2]; [lia|].
    destruct (decide (signer_limit s' <= snap_Number s + 1)) as [Hle'|]; [specialize (H2 Hle')|]; lia.
Qed.

Definition at_least (m : Z) (s : Snapshot) : Prop := m <= Z.of_nat (base.size (snap_Signers s)).

Lemma at_least_limit m s : at_least m s -> m / 2 + 1 <= signer_limit s.
Proof. unfold at_least, signer_limit. intros. Z.to_euclidean_division_equations; lia. Qed.

Lemma replay_head P s tr s' : replay P s tr s' -> P s.
Proof. by destruct 1. Qed.

(** A signer stays among the recent ones for half as many headers as there are signers. *)
Lemma replay_recent m s tr s' n w : replay (at_least m) s tr s' -> snap_Recents s !! n = Some w -> n <= snap_Number s ->
  n <= snap_Number s' /\ at_least m s' /\ (snap_Recents s' !! n = Some w \/ m / 2 + 1 <= snap_Number s' - n).
Proof.
  intros Hr. induction Hr as [s Hm|s h who s1 tr s2 Hm Hnum Ha Hr IH]; intros Hn Hle; [by split_and!; [| |left]|].
  destruct (advance_number _ _ _ _ Ha) as [En _]. destruct (advance_recents _ _ _ _ Ha) as (_ & _ & Hkeep & _).
  pose proof (at_least_limit _ _ Hm). pose proof (at_least_limit _ _ (replay_head _ _ _ _ Hr)).
  destruct (decide (m / 2 + 1 <= snap_Number s1 - n)) as [Hfar|Hnear].
  - assert (forall s tr s', replay (at_least m) s tr s' -> snap_Number s <= snap_Number s' /\ at_least m s') as Hmono.
    { clear. induction 1 as [|s h who s1 tr s2 _ Hnum Ha _ IH]; [done|].
      destruct (advance_number _ _ _ _ Ha) as [En _]. destruct IH. split; [lia|done]. }
    destruct (Hmono _ _ _ Hr). split_and!; [lia|done|right; lia].
  - apply IH; [|lia]. apply Hkeep; [done|lia|lia|lia].
Qed.

(** C34. Nobody can sign too often: along any chain of accepted headers on which there are always at least [m]
    signers, two headers by the same signer are more than [m / 2] blocks apart, even when signers are added and
    removed in between; so a minority of the signers cannot produce the majority of the blocks. *)
Theorem signers_wait_their_turn m h1 h2 who s0 s1 tr s2 s3 :
  advance h1 who s0 = Ok s1 -> replay (at_least m) s1 tr s2 ->
  u64 (Number h2) = snap_Number s2 + 1 -> advance h2 who s2 = Ok s3 ->
  m / 2 < u64 (Number h2) - u64 (Number h1).
Proof.
  intros Ha1 Hr Hnum Ha2. destruct (advance_recents _ _ _ _ Ha1) as (Hn & _).
  destruct (advance_number _ _ _ _ Ha1) as [En _].
  destruct (replay_recent _ _ _ _ _ _ Hr Hn) as (Hle & Hm & [Hrec|Hfar]); [lia| |lia].
  destruct (advance_recents _ _ _ _ Ha2) as (_ & _ & _ & Hwait & _). apply Hwait in Hrec.
  pose proof (at_least_limit _ _ Hm). lia.
Qed.

End Replay.

(** ** Examples *)

Definition vote_header (number coinbase nonce : Z) : Header :=
  mkHeader (number - 1) EmptyUncleHash coinbase 0 0 0 [] 2 number 30000000 0 number (replicate 97 0) (replicate 32 0) nonce
    None None None None None None.
Definition sample_config : CliqueConfig := mkCliqueConfig 1 100.
#[local] Instance number_hash : HeaderHash := Number.

Definition after (h : Header) (who : Z) (s : Snapshot) : Snapshot :=
  match advance sample_config h who s with Ok s => s | Err _ => s end.
Definition sample_genesis : Snapshot := newSnapshot 0 0 [1; 2; 3].

(** Two of three signers add a fourth. *)
Lemma signers_change_by_majority_witness :
  let h1 := vote_header 1 4 nonceAuthVote in
  let h2 := vote_header 2 4 nonceAuthVote in
  let s1 := after h1 1 sample_genesis in
  let s2 := after h2 2 s1 in
  elements (snap_Signers s2) ≡ₚ [1; 2; 3; 4] /\ snap_Votes s2 = [] /\ votes_ok s1 /\ 2 ∈ snap_Signers s1.
Proof.
  intros h1 h2 s1 s2.
  assert (advance sample_config h1 1 sample_genesis = Ok s1) as E1 by (vm_compute; reflexivity).
  assert (advance sample_config h2 2 s1 = Ok s2) as E2 by (vm_compute; reflexivity).
  destruct (signers_change_by_majority sample_config 0 0 [1; 2; 3] [(h1, 1)] s1 h2 2 s2) as (Hok & Hin & _); [|exact E2|].
  - eapply replay_cons; [exact I|vm_compute; reflexivity|exact E1|by apply replay_nil].
  - split; [apply (bool_decide_unpack _); vm_compute; exact I|]. split; [vm_compute; reflexivity|]. by split.
Defined.

(** The first signer may sign the third block again. *)
Lemma signers_wait_their_turn_witness :
  let h1 := vote_header 1 0 nonceDropVote in
  let h2 := vote_header 2 0 nonceDropVote in
  let h3 := vote_header 3 0 nonceDropVote in
  let s1 := after h1 1 sample_genesis in
  let s2 := after h2 2 s1 in
  advance sample_config h3 1 s2 = Ok (after h3 1 s2) /\ 3 / 2 < u64 (Number h3) - u64 (Number h1).
Proof.
  intros h1 h2 h3 s1 s2.
  assert (advance sample_config h1 1 sample_genesis = Ok s1) as E1 by (vm_compute; reflexivity).
  assert (advance sample_config h2 2 s1 = Ok s2) as E2 by (vm_compute; reflexivity).
  assert (advance sample_config h3 1 s2 = Ok (after h3 1 s2)) as E3 by (vm_compute; reflexivity).
  split; [exact E3|].
  apply (signers_wait_their_turn sample_config 3 h1 h3 1 sample_genesis s1 [(h2, 2)] s2 (after h3 1 s2));
    [exact E1| |vm_compute; reflexivity|exact E3].
  eapply replay_cons; [|vm_compute; reflexivity|exact E2|apply replay_nil];
    unfold at_least; vm_compute; discriminate.
Defined.
