(* ===== verification/CliqueSnapshots.v ===== *)
(** How the engine of [Clique] finds snapshots: through its caches, its database and the
    headers of the chain, it only ever returns what replaying verified headers from a
    checkpoint gives, and a header it verifies extends that replay. *)

From stdpp Require Import base gmap list numbers option sorting sets fin_maps strings.
From S2P Require Import AccessList State.
From S2P Require Import Prelude Params Uint256 ChainConfig ChainPresets Header FeeMarket Difficulty Consensus Rlp RlpCodec TxTypes.
From S2P Require Import RlpValues TxEncoding Transaction Signers Lru Clique CliqueTheorems.
Open Scope Z_scope.

(** ** Headers whose seal can be computed *)

(** The fields have the types of the Go struct; the numbers of unbounded size are not negative and, as
    [Header.SanityCheck] demands, of bounded size; and there is none of the fields that came after the merge. *)
Record sealable (h : Header) : Prop := {
  sl_withdrawals : WithdrawalsHash h = None;
  sl_excess : ExcessBlobGas h = None;
  sl_used : BlobGasUsed h = None;
  sl_beacon : ParentBeaconRoot h = None;
  sl_hashes : Forall is_u256 [ParentHash h; UncleHash h; Header.Root h; TxHash h; ReceiptHash h];
  sl_coinbase : 0 <= Coinbase h < 2 ^ 160;
  sl_bloom : length (Header.Bloom h) = 256%nat /\ Forall is_byte (Header.Bloom h);
  sl_digest : length (MixDigest h) = 32%nat /\ Forall is_byte (MixDigest h);
  sl_words : Forall is_u64 [Header.GasLimit h; Header.GasUsed h; Header.Time h; Header.Nonce h];
  sl_numbers : Forall is_u256 [Header.Difficulty h; Number h; default 0 (BaseFee h)];
  sl_extra : Forall is_byte (Extra h) /\ len (Extra h) < 2 ^ 32
}.

Lemma puthead_small s l n : is_u64 n -> len (puthead s l n) <= 9.
Proof.
  intros Hn. unfold puthead. case_match; [unfold len; simpl; lia|].
  rewrite len_cons. pose proof (putint_length n Hn). unfold len. lia.
Qed.

Lemma encode_string_bound n s : len s <= n -> n < 2 ^ 40 -> len (encode_string s) <= n + 9.
Proof.
  intros Hs Hn. pose proof (len_nonneg s). pose proof (puthead_small 0x80 0xB7 (len s) ltac:(unfold is_u64; lia)).
  pose proof (puthead_small 0x80 0xB7 1 ltac:(unfold is_u64; lia)).
  unfold encode_string. destruct s as [|x [|]]; [|case_match; [lia|]|]; rewrite len_app; lia.
Qed.

Lemma encode_list_bound n c : len c <= n -> n < 2 ^ 40 -> len (encode_list c) <= n + 9.
Proof.
  intros Hc Hn. pose proof (len_nonneg c). pose proof (puthead_small 0xC0 0xF7 (len c) ltac:(unfold is_u64; lia)).
  unfold encode_list. rewrite len_app. lia.
Qed.

Lemma int_bound x : is_u256 x -> len (encode_string (int_content x)) <= 41.
Proof. intros Hx. apply (encode_string_bound 32); [|lia]. apply int_content_length; [exact Hx|lia]. Qed.

Lemma array_bound n x : (n <= 32)%nat -> len (encode_string (U256.be_bytes n x)) <= 41.
Proof. intros Hn. apply (encode_string_bound 32); [|lia]. unfold len. rewrite U256.be_bytes_length. lia. Qed.

Lemma fixed_bound b : (length b <= 256)%nat -> len (encode_string b) <= 265.
Proof. intros Hn. apply (encode_string_bound 256); [unfold len|]; lia. Qed.

Lemma encode_some {A} (f : fields A) `{!FieldsLaws f} a : f_ok f a -> short (c_item (c_struct f) a) ->
  encode_any (sig_list f a) <> None.
Proof. intros Ha Hs. unfold sig_list, encode_any. by rewrite (Encode_item (c_struct f)). Qed.

Lemma encodeSigHeader_some h : sealable h -> (extraSeal <= length (Extra h))%nat -> encodeSigHeader h <> None.
Proof.
  intros [Hw He Hu Hb Hh Hc (Hbl & Hbb) (Hd & Hdb) Hws Hn (Hx & Hxl)] Hs. unfold encodeSigHeader, unsealed_extra.
  rewrite (proj2 (Nat.ltb_ge _ _)) by done. cbn [mbind option_bind]. rewrite Hw, He, Hu, Hb. cbn [absent andb negb].
  set (extra := take _ _).
  assert (Forall is_byte extra /\ len (encode_string extra) <= 2 ^ 32 + 9) as (Hxb & Hxs).
  { split; [by apply Forall_take|]. apply encode_string_bound; [|lia]. unfold extra, len in *. rewrite length_take. lia. }
  decompose_Forall_hyps.
  assert (forall x, is_u64 x -> is_u256 x) as Hword by (unfold is_u64, is_u256; lia).
  destruct (BaseFee h) as [fee|]; apply encode_some; try apply _; cycle 1.
  2, 4: cbn; change (256 ^ Z.of_nat 32) with two256; change (256 ^ Z.of_nat 20) with (2 ^ 160);
    change (256 ^ Z.of_nat 8) with two64; change (2 ^ 64) with two64; simpl in *; unfold is_u64, is_u256 in *; tauto.
  all: unfold short; eapply Z.le_lt_trans; [apply (encode_list_bound (2 ^ 39)); [|lia]|lia].
  all: cbn -[encode_string int_content U256.be_bytes].
  all: rewrite ?len_app; pose proof (fixed_bound (Header.Bloom h) ltac:(lia)); pose proof (fixed_bound (MixDigest h) ltac:(lia));
    repeat match goal with
    | |- context [len (encode_string (U256.be_bytes ?n ?x))] =>
        pose proof (array_bound n x ltac:(lia)); generalize dependent (len (encode_string (U256.be_bytes n x))); intros
    | |- context [len (encode_string (int_content ?x))] =>
        pose proof (int_bound x ltac:(first [assumption|by apply Hword]));
        generalize dependent (len (encode_string (int_content x))); intros
    end; change (len []) with 0; lia.
Qed.

(** ** Finding a snapshot *)

Section Engine.
Context {HS : Hasher} {C : Crypto} {HH : HeaderHash}.
Context {RC SC : Type} {RCache : Cache RC Z Snapshot} {SCache : Cache SC Z Z} {RLaws : CacheLaws RCache} {SLaws : CacheLaws SCache}.
Context (legacy unixNow : Z) (cfg : CliqueConfig) (chain : ChainHeaderReader).
(** The headers in play, on which the hash is free of collisions and can be computed. *)
Context (known : Header -> Prop).

Abbreviation Engine := (Clique (RC := RC) (SC := SC)).

Record chain_ok : Prop := {
  known_distinct h1 h2 : known h1 -> known h2 -> header_hash h1 = header_hash h2 -> h1 = h2;
  known_number h : known h -> u64 (Number h) < MaxUint64;
  stored_known hash n h : GetHeader (reader chain) hash n = Some h ->
    known h /\ header_hash h = hash /\ u64 (Number h) = n;
  canonical_known n h : GetHeaderByNumber chain n = Some h -> known h /\ u64 (Number h) = n;
  genesis_stored : GetHeaderByNumber chain 0 <> None
}.

(** What keeps the engine from panicking: the headers in play can be sealed, also those a batch brings along as parents,
    the checkpoints of the canonical chain have room for the vanity and the seal, and the configuration is one that
    [New] has completed. *)
Record safe_chain : Prop := {
  known_sealable h : known h -> sealable h;
  checkpoint_long n h : GetHeaderByNumber chain n = Some h -> n mod Epoch cfg = 0 ->
    (extraVanity + extraSeal <= length (Extra h))%nat;
  completed : exists conf database (empty : Z -> RC) (empty_sigs : Z -> SC),
    is_u64 (Epoch conf) /\ cfg = config (New conf database empty empty_sigs)
}.

(** A snapshot taken from the extra data of the genesis block or of a checkpoint. *)
Definition root_snapshot (s : Snapshot) : Prop :=
  exists n h l, GetHeaderByNumber chain n = Some h /\ n mod Epoch cfg = 0 /\ checkpoint_signers h = Some l
    /\ s = newSnapshot n (header_hash h) l.

(** The snapshots that replaying headers gives. *)
Inductive is_snapshot : Snapshot -> Prop :=
| snapshot_root s : root_snapshot s -> is_snapshot s
| snapshot_next s h who s' :
    is_snapshot s -> known h -> u64 (Number h) = snap_Number s + 1 ->
    (ParentHash h = snap_Hash s \/ root_snapshot s) ->
    recover_signer h = Some (Ok who) -> advance cfg h who s = Ok s' -> is_snapshot s'.

(** The caches and the database only hold what they should. *)
Record coherent (c : Engine) : Prop := {
  co_config : config c = cfg;
  co_recents_ok : cache_ok (recents c);
  co_signatures_ok : cache_ok (signatures c);
  co_recents k s : holds (recents c) k s -> snap_Hash s = k /\ is_snapshot s;
  co_db k s : db c !! k = Some s -> snap_Hash s = k /\ is_snapshot s;
  co_signatures h who : known h -> holds (signatures c) (header_hash h) who -> recover_signer h = Some (Ok who)
}.

Lemma recover_safe h : safe_chain -> known h -> recover_signer h <> None.
Proof.
  intros Hsafe Hk. unfold recover_signer. destruct (Nat.ltb_spec (length (Extra h)) extraSeal) as [|Hl]; [done|].
  unfold SealHash. pose proof (encodeSigHeader_some h (known_sealable Hsafe h Hk) Hl) as He.
  by destruct (encodeSigHeader h).
Qed.

Lemma checkpoint_safe n h : safe_chain -> GetHeaderByNumber chain n = Some h -> n mod Epoch cfg = 0 -> checkpoint_signers h <> None.
Proof.
  intros Hsafe Hh Hn. pose proof (checkpoint_long Hsafe n h Hh Hn) as Hl. unfold checkpoint_signers.
  rewrite (proj2 (Z.ltb_ge _ _)); [done|]. apply Z.quot_pos; [lia|done].
Qed.

Lemma epoch_safe : safe_chain -> Epoch cfg <> 0.
Proof.
  intros [_ _ (conf & db' & e & es & _ & ->)]. unfold New. simpl. destruct (Z.eqb_spec (Epoch conf) 0); [done|by simpl].
Qed.

(** A method that panics only on an unsafe chain, keeps the engine coherent and whose result satisfies [Q]. *)
Definition runs {A} (m : M A) (c : Engine) (Q : result cliqueError A -> Prop) : Prop :=
  match m c with Some (r, c') => coherent c' /\ Q r | None => ~ safe_chain end.

Lemma runs_panic {A} c (Q : result cliqueError A -> Prop) : ~ safe_chain -> runs cm_panic c Q.
Proof. done. Qed.

Lemma runs_bind {A B} (m : M A) (k : A -> M B) c Q1 Q : runs m c Q1 ->
  (forall a c', coherent c' -> Q1 (Ok a) -> runs (k a) c' Q) -> (forall e, Q1 (Err e) -> Q (Err e)) ->
  runs (cm_bind m k) c Q.
Proof.
  unfold runs, cm_bind. intros Hm Hk He. destruct (m c) as [[[a|e] c']|]; [|by destruct Hm; split; [|apply He]|done].
  destruct Hm as [Hc Hr]. by apply Hk.
Qed.

Lemma runs_ret {A} (a : A) c (Q : result cliqueError A -> Prop) : coherent c -> Q (Ok a) -> runs (cm_ret a) c Q.
Proof. by split. Qed.

Lemma runs_throw {A} e c (Q : result cliqueError A -> Prop) : coherent c -> Q (Err e) -> runs (cm_throw e) c Q.
Proof. by split. Qed.

Lemma runs_get c (Q : result cliqueError Engine -> Prop) : coherent c -> Q (Ok c) -> runs cm_get c Q.
Proof. by split. Qed.

Lemma runs_weaken {A} (m : M A) c (Q Q' : result cliqueError A -> Prop) : runs m c Q -> (forall r, Q r -> Q' r) -> runs m c Q'.
Proof. unfold runs. destruct (m c) as [[r c']|]; [|done]. intros [Hc Hr] HQ. auto. Qed.

Lemma runs_result {A} (m : M A) c (Q : result cliqueError A -> Prop) r c' : runs m c Q -> m c = Some (r, c') -> coherent c' /\ Q r.
Proof. unfold runs. intros Hm E. by rewrite E in Hm. Qed.

Context (CH : chain_ok).

(** The cache of signatures does not change what is recovered. *)
Lemma ecrecover_runs h c : coherent c -> known h -> runs (ecrecover h) c (fun r => recover_signer h = Some r).
Proof.
  intros Hc Hk. unfold runs, ecrecover.
  destruct (cache_get_law (header_hash h) (signatures c)) as (o & g & Hg & Hgok & Hhit & Hsub); [apply Hc|].
  rewrite Hg. cbn [mbind option_bind].
  assert (coherent (set_signatures g c)) as Hc'.
  { destruct Hc. split; try done. intros h' who' Hk' Hh. by eapply co_signatures0, Hsub. }
  destruct o as [who|].
  - split; [done|]. apply Hc; [done|]. by apply Hhit.
  - destruct (recover_signer h) as [r|] eqn:Hr; [|intros Hsafe; by destruct (recover_safe h Hsafe Hk)]. cbn [mbind option_bind].
    destruct r as [who|e]; [|by split].
    destruct (cache_add_law (header_hash h) who g Hgok) as (ev & g' & Ha & Haok & Hsub').
    simpl. rewrite Ha. simpl. split; [|done].
    destruct Hc'. split; try done. intros h' who' Hk' Hh. apply Hsub' in Hh as [[Eh ->]|Hh].
    + by rewrite (known_distinct CH h' h Hk' Hk Eh).
    + by apply co_signatures0.
Qed.

(** ** Applying headers *)

(** Each header names the one before it. *)
Fixpoint headers_link (hash : Z) (hs : list Header) : Prop :=
  match hs with [] => True | h :: hs => ParentHash h = hash /\ headers_link (header_hash h) hs end.

Definition set_position (n hash : Z) (s : Snapshot) : Snapshot :=
  mkSnapshot n hash (snap_Signers s) (snap_Recents s) (snap_Votes s) (snap_Tally s).

Lemma apply_signed_number number who h s s' : apply_signed number who h s = Ok s' -> snap_Number s' = snap_Number s.
Proof.
  unfold apply_signed. destruct (bool_decide _); [|done]. destruct (bool_decide _); [done|].
  destruct (vote_of_nonce _) as [a|]; [|done]. intros [= <-].
  set (s1 := set_Recents _ s). change (snap_Number s) with (snap_Number s1). generalize s1. clear. intros s.
  assert (snap_Number (count_vote number who (Coinbase h) a s) = snap_Number s) as E.
  { unfold count_vote. destruct (discard_previous _ _ _ _) as [v t], (cast _ _ _) as [[] ?]; done. }
  rewrite <- E. generalize (count_vote number who (Coinbase h) a s). clear. intros s. unfold pass_vote.
  destruct (snap_Tally s !! _) as [t|]; [|done]. destruct (_ <? _); [|done]. destruct (tally_Authorize t); [done|].
  destruct (discard_cast_by _ _ _). simpl. by rewrite (proj2 (proj2 (proj2 (shift_recents_same _ _)))).
Qed.

Lemma apply_header_runs h s c : coherent c -> known h ->
  runs (apply_header h s) c (fun r => match r with
    | Ok s' => exists who, recover_signer h = Some (Ok who)
                 /\ advance cfg h who s = Ok (set_position (u64 (Number h)) (header_hash h) s')
                 /\ snap_Number s' = snap_Number s
    | Err _ => True end).
Proof.
  intros Hc Hk. unfold apply_header. eapply runs_bind; [apply (runs_get _ (fun r => r = Ok c)); done| |done].
  intros c0 c' Hc' [= ->]. rewrite (co_config _ Hc).
  destruct (Z.eqb_spec (Epoch cfg) 0) as [E|_]; [apply runs_panic; intros Hsafe; by destruct (epoch_safe Hsafe)|].
  eapply runs_bind; [by apply ecrecover_runs| |done]. intros who c1 Hc1 Hr.
  unfold runs, cm_lift. simpl. split; [done|].
  destruct (apply_signed _ _ _ _) as [s1|] eqn:E; [|done]. exists who. split; [done|]. split; cycle 1.
  { apply apply_signed_number in E. rewrite E, (proj2 (proj2 (proj2 (shift_recents_same _ _)))).
    unfold reset_votes. by case_match. }
  unfold advance. cbv zeta.
  match goal with |- context [apply_signed ?a ?b ?d ?e] => change (apply_signed a b d e) with (apply_signed (u64 (Number h)) who h (shift_recents (u64 (Number h)) (reset_votes cfg (u64 (Number h)) s))) end. by rewrite E.
Qed.

(** The number and hash of a snapshot play no part in applying a header. *)
Lemma advance_position h who n hash s : advance cfg h who (set_position n hash s) = advance cfg h who s.
Proof.
  unfold advance, apply_signed. cbv zeta. set (number := u64 (Number h)).
  assert (shift_recents number (reset_votes cfg number (set_position n hash s))
    = set_position n hash (shift_recents number (reset_votes cfg number s))) as ->.
  { unfold shift_recents, reset_votes, signer_limit. destruct s; destruct (number mod Epoch cfg =? 0); simpl; by case_match. }
  generalize (shift_recents number (reset_votes cfg number s)). clear s. intros s. cbn [set_position snap_Signers snap_Recents].
  destruct (bool_decide (who ∈ snap_Signers s)); cbn [negb]; [|done]. destruct (bool_decide (map_Exists _ _)); [done|].
  destruct (vote_of_nonce _) as [a|]; [|done].
  set (s1 := set_Recents _ s). change (set_Recents _ (set_position n hash s)) with (set_position n hash s1).
  assert (count_vote number who (Coinbase h) a (set_position n hash s1)
    = set_position n hash (count_vote number who (Coinbase h) a s1)) as ->.
  { unfold count_vote. cbn [set_position snap_Votes snap_Tally]. destruct (discard_previous _ _ _ _) as [v t].
    unfold cast, validVote. cbn [set_position set_Votes snap_Signers snap_Tally]. cbn [set_position set_Votes snap_Signers snap_Tally]. by destruct (bool_decide _), a. }
  generalize (count_vote number who (Coinbase h) a s1). clear. intros s. unfold pass_vote. cbn [set_position snap_Tally].
  destruct (snap_Tally s !! Coinbase h) as [t|]; [|done]. cbn [set_position snap_Signers].
  case_match; [|done]. case_match; [done|]. unfold shift_recents, signer_limit. simpl. destruct (_ <=? number); simpl;
    by destruct (discard_cast_by _ _ _).
Qed.

Lemma root_number s : root_snapshot s -> 0 <= snap_Number s < MaxUint64.
Proof.
  intros (n & h & l & Hh & _ & _ & ->). destruct (canonical_known CH _ _ Hh) as [Hk <-]. simpl.
  pose proof (known_number CH h Hk). split; [apply u64_range|done].
Qed.

Lemma is_snapshot_number s : is_snapshot s -> 0 <= snap_Number s < MaxUint64.
Proof.
  induction 1 as [s Hr|s h who s' _ _ Hk _ _ _ Ha]; [by apply root_number|].
  destruct (advance_number cfg h who s s' Ha) as [-> _]. pose proof (known_number CH h Hk). split; [apply u64_range|done].
Qed.

Lemma is_snapshot_votes s : is_snapshot s -> votes_ok s.
Proof.
  induction 1 as [s (n & h & l & _ & _ & _ & ->)|s h who s' _ IH _ _ _ _ Ha]; [apply newSnapshot_ok|].
  by apply (advance_votes_ok cfg h who s).
Qed.

Lemma is_snapshot_window s : is_snapshot s -> in_window s.
Proof.
  induction 1 as [s (n & h & l & _ & _ & _ & ->)|s h who s' Hs IH _ Hn _ _ Ha].
  - intros k [w Hk]. simpl in Hk. by rewrite lookup_empty in Hk.
  - apply (advance_window cfg h who s); try done. apply (is_snapshot_number s Hs).
Qed.

Fixpoint numbered (n : Z) (hs : list Header) : Prop :=
  match hs with [] => True | h :: hs => u64 (Number h) = n + 1 /\ numbered (n + 1) hs end.

Lemma contiguous_numbered h hs : Forall known (h :: hs) -> contiguous (h :: hs) = true -> numbered (u64 (Number h)) hs.
Proof.
  revert h. induction hs as [|h' hs IH]; intros h Hk Hc; [done|]. cbn [contiguous] in Hc.
  apply andb_true_iff in Hc as [E%Z.eqb_eq Hc]. inversion Hk as [|? ? Hk1 Hk2]; subst.
  pose proof (known_number CH h Hk1). pose proof (u64_range (Number h)).
  assert (u64 (Number h') = u64 (Number h) + 1) as E'.
  { rewrite E. apply u64_small. unfold is_u64, MaxUint64 in *. lia. }
  simpl. split; [done|]. rewrite <- E'. by apply IH.
Qed.

Definition end_hash (hash : Z) (hs : list Header) : Z := match last hs with Some l => header_hash l | None => hash end.

Lemma end_hash_cons hash h hs : end_hash hash (h :: hs) = end_hash (header_hash h) hs.
Proof. unfold end_hash. rewrite last_cons. by destruct (last hs). Qed.

(** The first header names the snapshot it is applied to, unless that is a trusted root. *)
Definition links_to (s : Snapshot) (hs : list Header) : Prop :=
  match hs with
  | [] => True
  | h :: hs => (ParentHash h = snap_Hash s \/ root_snapshot s) /\ headers_link (header_hash h) hs
  end.

Lemma apply_headers_runs hs s n hash c : coherent c -> Forall known hs -> is_snapshot (set_position n hash s) ->
  numbered n hs -> links_to (set_position n hash s) hs ->
  runs (apply_headers hs s) c (fun r => match r with
    | Ok s' => is_snapshot (set_position (n + Z.of_nat (length hs)) (end_hash hash hs) s')
               /\ snap_Number s' = snap_Number s
    | Err _ => True end).
Proof.
  revert s n hash c. induction hs as [|h hs IH]; intros s n hash c Hc Hk Hs Hn Hl.
  - apply runs_ret; [done|]. cbn [length]. replace (n + Z.of_nat 0) with n by lia. split; [exact Hs|done].
  - inversion Hk as [|? ? Hk1 Hk2]; subst. destruct Hn as [Hn1 Hn2]. destruct Hl as [Hl1 Hl2]. cbn [apply_headers].
    eapply runs_bind; [by apply apply_header_runs| |done]. intros s1 c1 Hc1 (who & Hr & Ha & En). rewrite Hn1 in Ha.
    eapply runs_weaken; [apply (IH s1 (n + 1) (header_hash h) c1 Hc1 Hk2); [|done|]|].
    + apply (snapshot_next (set_position n hash s) h who); try done. by rewrite advance_position.
    + destruct hs as [|h' hs]; [done|]. simpl in *. destruct Hl2. by split; [left|].
    + intros [s'|e]; [|done]. rewrite end_hash_cons, En. cbn [length].
      by replace (n + 1 + Z.of_nat (length hs)) with (n + Z.of_nat (S (length hs))) by lia.
Qed.

Lemma apply_runs hs s c : coherent c -> Forall known hs -> is_snapshot s -> links_to s hs ->
  runs (apply hs s) c (fun r => match r with
    | Ok s' => is_snapshot s' /\ snap_Hash s' = end_hash (snap_Hash s) hs
               /\ snap_Number s' = snap_Number s + Z.of_nat (length hs) /\ (hs = [] -> s' = s)
    | Err _ => True end).
Proof.
  intros Hc Hk Hs Hl. destruct hs as [|h hs].
  { apply runs_ret; [done|]. simpl. split_and!; [done|done|lia|done]. }
  unfold apply. destruct (last (h :: hs)) as [l|] eqn:El; [|rewrite last_cons in El; by destruct (last hs)].
  destruct (negb (contiguous (h :: hs)) || negb (u64 (Number h) =? u64 (snap_Number s + 1))) eqn:Hb; [by apply runs_throw|].
  apply orb_false_iff in Hb as [Hcon%negb_false_iff Hnum%negb_false_iff]. apply Z.eqb_eq in Hnum.
  pose proof (is_snapshot_number s Hs) as Hb.
  assert (u64 (Number h) = snap_Number s + 1) as Hn1.
  { rewrite Hnum. apply u64_small. unfold is_u64, MaxUint64 in *. lia. }
  assert (numbered (snap_Number s) (h :: hs)) as Hnumbered.
  { split; [done|]. rewrite <- Hn1. by apply contiguous_numbered. }
  eapply runs_bind; [apply (apply_headers_runs (h :: hs) s (snap_Number s) (snap_Hash s) c); try done; by destruct s| |done].
  intros s1 c1 Hc1 [Hs1 En]. apply runs_ret; [done|]. cbn [snap_Hash snap_Number].
  pose proof (is_snapshot_number _ Hs1) as Hb1. cbn [set_position snap_Number] in Hb1.
  rewrite En, u64_small by (unfold is_u64, MaxUint64 in *; lia).
  assert (header_hash l = end_hash (snap_Hash s) (h :: hs)) as -> by (unfold end_hash; by rewrite El).
  by split_and!.
Qed.

(** ** Searching *)

Lemma store_runs s c : coherent c -> is_snapshot s -> runs (store s) c (fun r => r = Ok tt).
Proof.
  intros Hc Hs. unfold runs, store, cm_bind, cm_get, cm_put. simpl. split; [|done].
  destruct Hc. split; try done. simpl. intros k s' Hk. apply lookup_insert_Some in Hk as [[<- <-]|[_ Hk]]; [done|by apply co_db0].
Qed.

Lemma recent_snapshot_runs hash c : coherent c ->
  runs (recent_snapshot hash) c (fun r => match r with
    | Ok (Some s) => is_snapshot s /\ snap_Hash s = hash
    | Ok None => True
    | Err _ => False end).
Proof.
  intros Hc. unfold runs, recent_snapshot.
  destruct (cache_get_law hash (recents c)) as (o & g & -> & Hgok & Hhit & Hsub); [apply Hc|]. simpl.
  split.
  - destruct Hc. split; try done. intros k s Hh. by apply co_recents0, Hsub.
  - destruct o as [s|]; [|done]. by destruct (co_recents _ Hc hash s (Hhit s eq_refl)).
Qed.

Lemma add_recent_runs s c : coherent c -> is_snapshot s -> runs (add_recent s) c (fun r => r = Ok tt).
Proof.
  intros Hc Hs. unfold runs, add_recent.
  destruct (cache_add_law (snap_Hash s) s (recents c)) as (e & g & -> & Hgok & Hsub); [apply Hc|]. simpl.
  split; [|done]. destruct Hc. split; try done.
  intros k s' Hh. apply Hsub in Hh as [[-> ->]|Hh]; [done|by apply co_recents0].
Qed.

Definition found_at (number hash : Z) (s : Snapshot) : Prop :=
  is_snapshot s /\ (snap_Hash s = hash \/ (root_snapshot s /\ snap_Number s = number)).

Lemma stored_snapshot_runs n number hash c : coherent c ->
  runs (stored_snapshot chain n number hash) c (fun r => match r with
    | Ok (Some s) => found_at number hash s
    | Ok None => number <> 0
    | Err _ => False end).
Proof.
  intros Hc. unfold stored_snapshot. eapply runs_bind; [by apply recent_snapshot_runs| |done].
  intros [s|] c1 Hc1 Hs; [apply runs_ret; [done|]; split; [apply Hs|left; apply Hs]|]. clear Hs.
  eapply runs_bind; [apply (runs_get _ (fun r => r = Ok c1)); done| |done]. intros c2 c3 Hc3 [= ->].
  destruct (if number mod checkpointInterval =? 0 then db c1 !! hash else None) as [s|] eqn:Hdb.
  { apply runs_ret; [done|]. destruct (number mod checkpointInterval =? 0); [|done].
    destruct (co_db _ Hc1 _ _ Hdb). by split; [|left]. }
  rewrite (co_config _ Hc1).
  destruct (negb (number =? 0) && (Epoch cfg =? 0)) eqn:Hepoch.
  { apply runs_panic. intros Hsafe. apply andb_true_iff in Hepoch as [_ E%Z.eqb_eq]. by destruct (epoch_safe Hsafe). }
  assert (forall h, number mod Epoch cfg = 0 -> GetHeaderByNumber chain number = Some h ->
    runs (match checkpoint_signers h with
          | None => cm_panic
          | Some l => cm_bind (store (newSnapshot number (header_hash h) l))
                        (fun _ => cm_ret (Some (newSnapshot number (header_hash h) l)))
          end) c3 (fun r => match r with Ok (Some s) => found_at number hash s | Ok None => number <> 0 | Err _ => False end)) as Hroot.
  { intros h Hmod Hh. destruct (checkpoint_signers h) as [l|] eqn:El; [|apply runs_panic; intros Hsafe; by destruct (checkpoint_safe _ _ Hsafe Hh Hmod)].
    assert (root_snapshot (newSnapshot number (header_hash h) l)) as Hr by by exists number, h, l.
    eapply runs_bind; [apply store_runs; [done|by apply snapshot_root]| |done].
    intros [] c4 Hc4 _. apply runs_ret; [done|]. split; [by apply snapshot_root|right]. by split. }
  destruct (Z.eqb_spec number 0) as [->|Hn]; cbn [orb].
  - destruct (GetHeaderByNumber chain 0) as [h|] eqn:Hg; [|by destruct (genesis_stored CH)].
    apply Hroot; [apply Zmod_0_l|done].
  - destruct (Z.eqb_spec (number mod Epoch cfg) 0) as [Hmod|]; cbn [andb]; [|by apply runs_ret].
    destruct ((FullImmutabilityThreshold <? n) || _); [|by apply runs_ret].
    destruct (GetHeaderByNumber chain number) as [h|] eqn:Hg; [by apply Hroot|by apply runs_ret].
Qed.

Lemma removelast_sub {A} (l : list A) x : x ∈ removelast l -> x ∈ l.
Proof. destruct l as [|y l _] using rev_ind; [done|]. rewrite removelast_last, elem_of_app. by left. Qed.

Lemma previous_header_spec number hash parents h rest : Forall known parents ->
  previous_header chain number hash parents = Some (h, rest) -> known h /\ header_hash h = hash /\ Forall known rest.
Proof.
  intros Hk. unfold previous_header. destruct (last parents) as [l|] eqn:El.
  - destruct (Z.eqb_spec (header_hash l) hash) as [E|]; [|done]. simpl.
    destruct (u64 (Number l) =? number); [|done]. intros [= <- <-].
    rewrite Forall_forall in Hk. split_and!; [|done|].
    + apply Hk. apply last_Some in El as [l' ->]. apply elem_of_app. right. by apply list_elem_of_singleton.
    + apply Forall_forall. intros x Hx. by apply Hk, removelast_sub.
  - destruct (GetHeader (reader chain) hash number) as [h'|] eqn:Hg; [|done]. simpl. intros [= <- <-].
    destruct (stored_known CH _ _ _ Hg) as (? & ? & _). by split_and!.
Qed.

(** What the search has gone over leads from the block it is at to the one it started from. *)
Definition walked (hash0 number0 hash number : Z) (hs : list Header) : Prop :=
  Forall known hs /\
  match hs with
  | [] => hash = hash0 /\ number = number0
  | h :: rest => ParentHash h = hash /\ headers_link (header_hash h) rest /\ end_hash hash hs = hash0
  end.

Lemma search_snapshot_runs fuel hash0 number0 hash number parents acc c : coherent c -> Forall known parents ->
  is_u64 number -> number < Z.of_nat fuel -> walked hash0 number0 hash number (reverse acc) ->
  runs (search_snapshot fuel chain number hash parents acc) c (fun r => match r with
    | Ok (s, hs) => is_snapshot s /\ Forall known hs /\ links_to s hs
        /\ match hs with [] => found_at number0 hash0 s | _ => end_hash 0 hs = hash0 end
    | Err _ => True end).
Proof.
  revert hash number parents acc c. induction fuel as [|fuel IH]; intros hash number parents acc c Hc Hp Hn Hf [Hk Hw];
    [unfold is_u64 in Hn; lia|].
  cbn [search_snapshot]. eapply runs_bind; [by apply stored_snapshot_runs| |done].
  intros [s|] c1 Hc1 Hfound.
  - apply runs_ret; [done|]. destruct Hfound as [Hs Hat]. split; [done|]. split; [done|].
    destruct (reverse acc) as [|h hs]; [destruct Hw as [-> ->]; by repeat split|].
    destruct Hw as (Hh & Hl & He). split; [split; [|done]; destruct Hat as [->|[Hr _]]; [by left|by right]|].
    by rewrite end_hash_cons in *.
  - destruct (previous_header chain number hash parents) as [[h rest]|] eqn:Hprev; [|by apply runs_throw].
    destruct (previous_header_spec _ _ _ _ _ Hp Hprev) as (Hkh & Hh & Hrest).
    assert (u64 (number - 1) = number - 1) as -> by (apply u64_small; unfold is_u64 in *; lia).
    apply IH; [done|done|unfold is_u64 in *; lia|lia|].
    rewrite reverse_snoc. split; [by constructor|]. split; [done|]. rewrite end_hash_cons.
    destruct (reverse acc) as [|h' hs]; [destruct Hw as [<- _]; by split|].
    destruct Hw as (Hh' & Hl' & He). rewrite end_hash_cons in He.
    split; [split; [congruence|done]|by rewrite end_hash_cons].
Qed.

(** The engine finds the right snapshot. *)
Lemma snapshot_runs number hash parents c : coherent c -> Forall known parents -> is_u64 number ->
  runs (Clique.snapshot chain number hash parents) c
    (fun r => match r with Ok s => found_at number hash s | Err _ => True end).
Proof.
  intros Hc Hp Hn. unfold Clique.snapshot. eapply runs_bind.
  { apply (search_snapshot_runs _ hash number); [done|done|done| |by split].
    unfold search_fuel. unfold is_u64 in Hn. lia. }
  2: done.
  intros [s hs] c1 Hc1 (Hs & Hk & Hl & Hend).
  eapply runs_bind; [by apply apply_runs| |done]. intros s' c2 Hc2 (Hs' & Hh & _ & Hnil).
  assert (found_at number hash s') as Hfound.
  { destruct hs as [|h hs]; [by rewrite (Hnil eq_refl)|]. split; [done|left]. by rewrite Hh, end_hash_cons in *. }
  eapply runs_bind; [by apply add_recent_runs| |done]. intros [] c3 Hc3 _.
  eapply (runs_bind _ _ _ (fun r => r = Ok tt)); [|intros [] c4 Hc4 _; by apply runs_ret|done].
  destruct (_ && _); [by apply store_runs|by apply runs_ret].
Qed.

(** C31. The engine finds the right snapshot: on a coherent engine, one whose caches and database hold only what earlier
    blocks put there, and headers whose numbers are smaller than 2^64-1 and whose hashes differ, what [snapshot] returns
    is an error, or a snapshot that replaying verified headers from the genesis block or a trusted checkpoint gives, for
    the block that was asked for or for a checkpoint of the canonical chain at its height, with its tally equal to the
    votes and its recent signers within the window; and the engine it leaves is again coherent.  And it does return,
    without a panic, on a safe chain: the headers in play, those of the batch included, have none of the fields of later
    forks, which [encodeSigHeader] panics at (see [batch_panics]), the checkpoints have room for vanity and seal, and the
    configuration has been through [New]. *)
Theorem snapshot_replays_headers number hash parents (c : Engine) :
  coherent c -> Forall known parents -> is_u64 number ->
  (safe_chain -> Clique.snapshot chain number hash parents c <> None)
  /\ forall r c', Clique.snapshot chain number hash parents c = Some (r, c') ->
    coherent c' /\ match r with Ok s => found_at number hash s /\ votes_ok s /\ in_window s | Err _ => True end.
Proof.
  intros Hc Hp Hn. pose proof (snapshot_runs number hash parents c Hc Hp Hn) as Hr. split.
  - intros Hsafe E. unfold runs in Hr. by rewrite E in Hr.
  - intros r c' E. destruct (runs_result _ _ _ _ _ Hr E) as [Hc' Hs]. split; [done|]. destruct r as [s|e]; [|done].
    split; [done|]. split; [apply is_snapshot_votes, Hs|apply is_snapshot_window, Hs].
Qed.

(** ** Verification *)

Lemma is_snapshot_header s : is_snapshot s -> exists h, known h /\ header_hash h = snap_Hash s /\ u64 (Number h) = snap_Number s.
Proof.
  destruct 1 as [s (n & h & l & Hh & _ & _ & ->)|s h who s' _ Hk _ _ _ Ha].
  - destruct (canonical_known CH _ _ Hh) as [Hk Hn]. by exists h.
  - destruct (advance_number cfg h who s s' Ha) as [-> ->]. by exists h.
Qed.

Lemma bind_ok {A B} (m : M (RC := RC) (SC := SC) A) (k : A -> M B) (c : Engine) b c' : cm_bind m k c = Some (Ok b, c') ->
  exists a c1, m c = Some (Ok a, c1) /\ k a c1 = Some (Ok b, c').
Proof. unfold cm_bind. destruct (m c) as [[[a|e] c1]|]; [|done..]. intros Hk. by exists a, c1. Qed.

Lemma refuse_if_ok b e (c : Engine) u c' : refuse_if b e c = Some (Ok u, c') -> b = false /\ c' = c.
Proof. destruct b; [done|]. by intros [= _ <-]. Qed.

Lemma run_check_ok r (c : Engine) u c' : run_check r c = Some (Ok u, c') -> r = accept /\ c' = c.
Proof. destruct r as [[e|]|]; [done| |done]. by intros [= _ <-]. Qed.

(** Go over one check of an accepted header. *)
Ltac next_ok H :=
  let Hb := fresh "Hb" in let c1 := fresh "c" in
  apply bind_ok in H as ([] & c1 & Hb & H); first [apply refuse_if_ok in Hb as [Hb ->] | apply run_check_ok in Hb as [Hb ->]].

(** A seal that is accepted is that of a signer whose turn it may be. *)
Lemma verifySeal_ok s h (c c' : Engine) : coherent c -> known h -> verifySeal s h c = Some (Ok tt, c') ->
  exists who, recover_signer h = Some (Ok who) /\ who ∈ snap_Signers s
    /\ forall seen, snap_Recents s !! seen = Some who -> seen <= u64 (u64 (Number h) - signer_limit s).
Proof.
  intros Hc Hk H. unfold verifySeal in H. next_ok H.
  apply bind_ok in H as (who & c1 & Hr & H).
  destruct (runs_result _ _ _ _ _ (ecrecover_runs h c Hc Hk) Hr) as [_ Hrec].
  exists who. split; [done|]. next_ok H. next_ok H. apply negb_false_iff, bool_decide_eq_true in Hb0. split; [done|].
  apply bool_decide_eq_false in Hb1. intros seen Hseen.
  destruct (decide (seen <= u64 (u64 (Number h) - signer_limit s))); [done|]. exfalso. apply Hb1.
  exists seen, who. split; [done|]. split; [done|lia].
Qed.

(** A verified seal is one that [apply] accepts, when the window does not reach behind the genesis block. *)
Lemma sealed_advances s h (c c' : Engine) : coherent c -> known h -> is_snapshot s -> u64 (Number h) = snap_Number s + 1 ->
  vote_of_nonce (Header.Nonce h) <> None -> signer_limit s <= u64 (Number h) ->
  verifySeal s h c = Some (Ok tt, c') ->
  exists who s', recover_signer h = Some (Ok who) /\ advance cfg h who s = Ok s'.
Proof.
  intros Hc Hk Hs Hn Hnonce Hlim Hv. destruct (verifySeal_ok _ _ _ _ Hc Hk Hv) as (who & Hr & Hin & Hrec).
  pose proof (is_snapshot_number s Hs) as Hb. pose proof (signer_limit_pos s).
  rewrite u64_small in Hrec by (unfold is_u64, MaxUint64 in *; lia).
  exists who. unfold advance, apply_signed.
  destruct (shift_recents_same (u64 (Number h)) (reset_votes cfg (u64 (Number h)) s)) as [E _].
  destruct (reset_votes_same cfg (u64 (Number h)) s) as (Er & Ec & _).
  rewrite E, Er, bool_decide_eq_true_2 by done. cbn [negb].
  rewrite bool_decide_eq_false_2.
  - destruct (vote_of_nonce (Header.Nonce h)); [|done]. by eexists.
  - intros (k & w & Hk' & ->).
    destruct (shift_recents_lookup (u64 (Number h)) (reset_votes cfg (u64 (Number h)) s) k who) as [[H1 _]|[H1 _]];
      rewrite (signer_limit_same _ s) in H1 by done; [|lia].
    destruct (H1 Hk') as [Hold Hne]. rewrite Ec in Hold. apply Hrec in Hold as Hle.
    destruct (is_snapshot_window s Hs k (ex_intro _ who Hold)) as [_ Hw]. lia.
Qed.

Lemma last_known (l : list Header) h : Forall known l -> last l = Some h -> known h.
Proof.
  intros Hk Hl. rewrite Forall_forall in Hk. apply Hk. apply last_Some in Hl as [l' ->].
  apply elem_of_app. right. by apply list_elem_of_singleton.
Qed.

Lemma vote_nonce_ok nonce : negb (nonce =? nonceAuthVote) && negb (nonce =? nonceDropVote) = false -> vote_of_nonce nonce <> None.
Proof. unfold vote_of_nonce. by destruct (nonce =? nonceAuthVote), (nonce =? nonceDropVote). Qed.

(** The last part of verification: the parent, the snapshot and the seal. *)
Lemma cascading_ok h parents (c c' : Engine) : coherent c -> Forall known parents -> known h ->
  verifyCascadingFields chain h parents c = Some (Ok tt, c') -> u64 (Number h) <> 0 ->
  exists s c1 c2, is_snapshot s /\ snap_Number s + 1 = u64 (Number h) /\ (ParentHash h = snap_Hash s \/ root_snapshot s)
    /\ coherent c1 /\ verifySeal s h c1 = Some (Ok tt, c2).
Proof.
  intros Hc Hp Hk H Hn. unfold verifyCascadingFields in H. destruct (Z.eqb_spec (u64 (Number h)) 0) as [|_]; [done|].
  destruct (parent_header chain h parents) as [parent|] eqn:Hpar; [|done].
  assert (known parent) as Hkp.
  { unfold parent_header in Hpar. destruct (last parents) as [l|] eqn:El; [simplify_eq; by eapply last_known|].
    by destruct (stored_known CH _ _ _ Hpar). }
  apply bind_ok in H as (c0 & c1 & [= <- <-] & H). next_ok H. apply orb_false_iff in Hb as [Hb1%negb_false_iff Hb2%negb_false_iff].
  apply Z.eqb_eq in Hb1, Hb2. next_ok H. next_ok H.
  apply bind_ok in H as (u & c1 & Hfee & H).
  assert (c1 = c) as ->.
  { destruct (negb _); [destruct (BaseFee h); [done|]|]; by apply run_check_ok in Hfee as [_ ->]. }
  apply bind_ok in H as (s & c2 & Hsnap & H).
  assert (is_u64 (u64 (Number h) - 1)) as Hn1 by (pose proof (u64_range (Number h)); unfold is_u64 in *; lia).
  destruct (runs_result _ _ _ _ _ (snapshot_runs (u64 (Number h) - 1) (ParentHash h) parents c Hc Hp Hn1) Hsnap)
    as [Hc3 [Hs Hat]].
  apply bind_ok in H as (c4 & c5 & [= <- <-] & H). next_ok H.
  exists s, c2, c'. split_and!; [done| | |done|done].
  - destruct Hat as [Hh|[_ ->]]; [|lia]. destruct (is_snapshot_header s Hs) as (hd & Hkd & Hhd & Hnd).
    assert (hd = parent) as -> by (apply (known_distinct CH); try done; congruence). lia.
  - destruct Hat as [Hh|[Hr _]]; [by left|by right].
Qed.

(** C32. Verification is enough: a header after the genesis block that the engine verifies, on a coherent engine and
    with verified parents, carries the signature of a current signer, and [apply] will accept it on top of the snapshot
    of its parent, which makes it part of the replay; this holds from the height on at which the window of recent
    signers no longer reaches behind the genesis block. *)
Theorem verified_header_extends h parents (c c' : Engine) :
  coherent c -> Forall known parents -> known h ->
  verifyHeader unixNow legacy chain h parents c = Some (Ok tt, c') -> u64 (Number h) <> 0 ->
  exists s who, is_snapshot s /\ snap_Number s + 1 = u64 (Number h) /\ recover_signer h = Some (Ok who)
    /\ who ∈ snap_Signers s
    /\ (signer_limit s <= u64 (Number h) -> exists s', advance cfg h who s = Ok s' /\ is_snapshot s').
Proof.
  intros Hc Hp Hk H Hn. unfold verifyHeader in H.
  apply bind_ok in H as (c0 & c1 & [= <- <-] & H). next_ok H.
  apply bind_ok in H as (u & c1 & Hu & H).
  assert (c1 = c) as -> by (destruct (Epoch (config c) =? 0); [done|by injection Hu]).
  next_ok H. next_ok H. apply vote_nonce_ok in Hb1 as Hnonce. do 15 next_ok H.
  destruct (cascading_ok h parents c c' Hc Hp Hk H Hn) as (s & c1 & c2 & Hs & Hnum & Hlink & Hc1 & Hseal).
  destruct (verifySeal_ok s h c1 c2 Hc1 Hk Hseal) as (who & Hr & Hin & _). exists s, who. split_and!; try done.
  intros Hlim. destruct (sealed_advances s h c1 c2 Hc1 Hk Hs) as (who' & s' & Hr' & Ha); try done.
  assert (who' = who) as -> by congruence. exists s'. split; [done|]. by apply (snapshot_next s h who).
Qed.

End Engine.

(** ** Turns *)

Lemma signers_perm s : signers s ≡ₚ elements (snap_Signers s).
Proof. apply merge_sort_Permutation. Qed.

Lemma signer_offset_lookup who l : who ∈ l -> 0 <= signer_offset who l < Z.of_nat (length l)
  /\ l !! Z.to_nat (signer_offset who l) = Some who.
Proof.
  induction l as [|x l IH]; intros Hin; [by apply elem_of_nil in Hin|]. simpl.
  destruct (Z.eqb_spec x who) as [->|Hne]; [split; [lia|done]|].
  apply elem_of_cons in Hin as [->|Hin]; [done|]. destruct (IH Hin) as [Hb Hl]. split; [lia|].
  replace (Z.to_nat (1 + signer_offset who l)) with (S (Z.to_nat (signer_offset who l))) by lia. done.
Qed.

(** At every height exactly one of the signers is in turn; without signers the division panics. *)
Theorem one_signer_in_turn number s : snap_Signers s <> ∅ ->
  exists who, who ∈ snap_Signers s /\ forall x, x ∈ snap_Signers s -> inturn number x s = Some (bool_decide (x = who)).
Proof.
  intros Hne. set (l := signers s). assert (length l <> 0%nat) as Hlen.
  { unfold l. rewrite signers_perm. intros E%nil_length_inv. apply Hne, leibniz_equiv, elements_empty_inv. exact E. }
  destruct (lookup_lt_is_Some_2 l (Z.to_nat (number mod Z.of_nat (length l)))) as [who Hwho].
  { pose proof (Z.mod_pos_bound number (Z.of_nat (length l))). lia. }
  assert (forall x, x ∈ snap_Signers s <-> x ∈ l) as Hin.
  { intros x. unfold l. by rewrite signers_perm, elem_of_elements. }
  assert (NoDup l) as Hnd by (unfold l; rewrite signers_perm; apply NoDup_elements).
  exists who. split; [apply Hin; by eapply list_elem_of_lookup_2|]. intros x Hx. apply Hin in Hx.
  destruct (signer_offset_lookup x l Hx) as [Hb Hl]. unfold inturn. fold l.
  destruct (Z.eqb_spec (Z.of_nat (length l)) 0); [lia|]. f_equal.
  pose proof (Z.mod_pos_bound number (Z.of_nat (length l))).
  case_bool_decide as E.
  - subst x. apply Z.eqb_eq.
    assert (Z.to_nat (number mod Z.of_nat (length l)) = Z.to_nat (signer_offset who l)) by (by eapply NoDup_lookup).
    lia.
  - apply Z.eqb_neq. intros E'. apply E. rewrite E' in Hwho. congruence.
Qed.

(** ** A chain of two headers with three signers

    The last byte of the extra data stands for the signer. *)

Module ToyClique.
#[export] Instance toy_hasher : Hasher := {| keccak256 l := match l with [x] => x | _ => Rlp.len l end |}.
#[export] Instance toy_crypto : Crypto := {|
  PrivateKey := unit;
  Sign _ _ := None;
  Ecrecover _ sig := Some (4 :: option_list (last sig));
  FromECDSAPub _ := [4]
|}.
#[export] Instance toy_hash : HeaderHash := Number.

Definition toy_header (number difficulty : Z) (extra : list Z) : Header :=
  mkHeader (Z.max 0 (number - 1)) EmptyUncleHash 0 0 0 0 (replicate 256 0) difficulty number 30000000 0 (10 * number) extra
    (replicate 32 0) nonceDropVote None None None None None None.
Definition sealed (number who difficulty : Z) : Header := toy_header number difficulty (replicate 96 0 ++ [who]).
Definition genesis : Header :=
  toy_header 0 1 (replicate 32 0 ++ concat (map (U256.be_bytes 20) [1; 2; 3]) ++ replicate 65 0).
Definition h1 : Header := sealed 1 1 1.
Definition h2 : Header := sealed 2 2 1.
Definition toy_chain : ChainHeaderReader :=
  mkChainHeaderReader
    (mkChainReader NonActivatedConfig (fun hash n => if (hash =? 0) && (n =? 0) then Some genesis else None) (fun _ _ => None))
    (fun n => if n =? 0 then Some genesis else None).
Definition known (h : Header) : Prop := h = genesis \/ h = h1 \/ h = h2.

Abbreviation Sigs := (BasicLRU.t (K := Z) (V := Z)).
#[export] Instance snapshot_inhabited : Inhabited Snapshot := populate (newSnapshot 0 0 []).
Abbreviation Snaps := (BasicLRU.t (K := Z) (V := Snapshot)).
Definition toy_engine : Clique (RC := Snaps) (SC := Sigs) :=
  New sample_config ∅ BasicLRU.NewBasicLRU BasicLRU.NewBasicLRU.

Lemma toy_chain_ok : chain_ok toy_chain known.
Proof.
  split.
  - intros x y [-> | [-> | ->]] [-> | [-> | ->]]; done.
  - intros h [-> | [-> | ->]]; vm_compute; reflexivity.
  - simpl. intros hash n h. destruct (Z.eqb_spec hash 0) as [->|], (Z.eqb_spec n 0) as [->|]; simpl; [|done..].
    intros [= <-]. split; [by left|done].
  - simpl. intros n h. destruct (Z.eqb_spec n 0) as [->|]; [|done]. intros [= <-]. split; [by left|done].
  - done.
Qed.

Lemma toy_sealable h : known h -> sealable h.
Proof.
  intros [-> | [-> | ->]]; split; try done; unfold is_u64, is_u256, is_byte, len; simpl.
  all: repeat match goal with |- _ /\ _ => split | |- Forall _ _ => constructor end; try lia; try done.
Qed.

Lemma toy_chain_safe : safe_chain (RC := Snaps) (SC := Sigs) sample_config toy_chain known.
Proof.
  split; [apply toy_sealable| |].
  - simpl. intros n h. destruct (Z.eqb_spec n 0) as [->|]; [|done]. intros [= <-] _. apply Nat.leb_le. by vm_compute.
  - exists sample_config, ∅, BasicLRU.NewBasicLRU, BasicLRU.NewBasicLRU. done.
Qed.

Lemma toy_engine_coherent : coherent sample_config toy_chain known toy_engine.
Proof.
  split; [done|exists []; apply BasicLRU.rep_new|exists []; apply BasicLRU.rep_new|..].
  - intros k s Hh. by vm_compute in Hh.
  - intros k s Hh. change ((∅ : gmap Z Snapshot) !! k = Some s) in Hh. by rewrite lookup_empty in Hh.
  - intros h who _ Hh. by vm_compute in Hh.
Qed.
End ToyClique.
Import ToyClique.

Lemma snapshot_replays_headers_witness :
  exists s c', Clique.snapshot toy_chain 1 1 [h1] toy_engine = Some (Ok s, c')
    /\ found_at sample_config toy_chain known 1 1 s /\ snap_Recents s = {[1 := 1]}.
Proof.
  destruct (snapshot_replays_headers sample_config toy_chain known toy_chain_ok 1 1 [h1] toy_engine)
    as (Hsafe & Hres); [apply toy_engine_coherent|by apply Forall_singleton; right; left|by unfold is_u64|].
  destruct (Clique.snapshot toy_chain 1 1 [h1] toy_engine) as [[r c']|] eqn:E; [|by destruct (Hsafe toy_chain_safe)].
  destruct (Hres r c' eq_refl) as [_ Hr].
  assert (exists s, r = Ok s /\ snap_Recents s = {[1 := 1]}) as (s & -> & Hs).
  { vm_compute in E. injection E as <- _. eexists. split; [reflexivity|]. vm_compute. reflexivity. }
  exists s, c'. split; [done|]. split; [apply Hr|exact Hs].
Defined.

Lemma verified_header_extends_witness :
  exists s c', verifyHeader 1000 0 toy_chain h2 [h1] toy_engine = Some (Ok tt, c')
    /\ is_snapshot sample_config toy_chain known s /\ snap_Number s + 1 = 2.
Proof.
  destruct (verifyHeader 1000 0 toy_chain h2 [h1] toy_engine) as [[r c']|] eqn:E; [|by vm_compute in E].
  assert (r = Ok tt) as -> by (vm_compute in E; by injection E).
  destruct (verified_header_extends 0 1000 sample_config toy_chain known toy_chain_ok h2 [h1] toy_engine c')
    as (s & who & Hs & Hn & _).
  - apply toy_engine_coherent.
  - apply Forall_singleton. right. by left.
  - right. by right.
  - exact E.
  - by vm_compute.
  - exists s, c'. split; [done|]. split; [exact Hs|exact Hn].
Defined.

(** With four signers the window has three blocks, and at the second block [number - limit] wraps around: the seal of
    the signer of the first block is accepted although [apply] refuses the header. *)
Example early_signer_is_verified :
  let s := mkSnapshot 1 1 (list_to_set [1; 2; 3; 4]) {[1 := 1]} [] ∅ in
  let h := sealed 2 1 1 in
  fst <$> verifySeal s h toy_engine = Some (Ok tt) /\ advance sample_config h 1 s = Err errRecentlySigned.
Proof. vm_compute. split; reflexivity. Qed.

(** A sole signer can vote itself out; then the chain has no signers and the difficulty of the next block divides by
    their number. *)
Example no_signers_left :
  let h := vote_header 1 7 nonceDropVote in
  let s := newSnapshot 0 0 [7] in
  exists s', advance sample_config h 7 s = Ok s' /\ snap_Signers s' = ∅ /\ calcDifficulty 7 s' = None.
Proof. eexists. split; [vm_compute; reflexivity|]. split; vm_compute; reflexivity. Qed.

(** A batch may bring a parent that was refused: it has a withdrawals root, and looking for the snapshot of its child
    recovers its signer, which panics. *)
Example batch_panics :
  let parent := mkHeader 0 EmptyUncleHash 0 0 0 0 (replicate 256 0) 1 1 30000000 0 10 (replicate 96 0 ++ [1])
    (replicate 32 0) nonceDropVote None (Some 0) None None None None in
  fst <$> verifyHeader 1000 0 toy_chain parent [] toy_engine <> Some (Ok tt)
  /\ fst <$> verifyHeader 1000 0 toy_chain parent [] toy_engine <> None
  /\ verifyHeader 1000 0 toy_chain h2 [parent] toy_engine = None.
Proof. vm_compute. split_and!; done. Qed.
