(* ===== verification/Bloom.v ===== *)
(** Bloom filters and the search of logs: [core/types/bloom9.go], [FilterLogs] of
    [core/types/log.go], the filter on whole blocks of [eth/filters/filter.go] and
    [ORBytes] of [common/bitutil/bitutil.go].

    A filter is a list of 256 bytes, a log the record [Log] of the state. *)

From stdpp Require Import base gmap list numbers option.
From S2P Require Import Prelude Uint256 State.
Open Scope Z_scope.

Definition BloomByteLength : Z := 256.
Definition BloomBitLength : Z := 8 * BloomByteLength.

Abbreviation bloom := (list Z) (only parsing).

Definition empty_bloom : bloom := replicate 256 0.

(** [SetBytes]; [None] is the panic. *)
Definition SetBytes (d : list Z) : option bloom :=
  if BloomByteLength <? Z.of_nat (length d) then None
  else Some (replicate (256 - length d) 0 ++ d).

Definition BytesToBloom (b : list Z) : option bloom := SetBytes b.

(** [Bloom9] of the data, which it copies into a filter. *)
Definition Bloom9 (data : list Z) : option (list Z) := SetBytes data.

Definition byte_at (b : list Z) (i : nat) : Z := default 0 (b !! i).

(** The indices and values of the three bits, from the first six bytes of the hash. *)
Definition bloom_index (hashbuf : list Z) (j : nat) : nat :=
  let word := byte_at hashbuf (2 * j) * 256 + byte_at hashbuf (2 * j + 1) in
  Z.to_nat (BloomByteLength - Z.shiftr (Z.land word 0x7ff) 3 - 1).
Definition bloom_bit (hashbuf : list Z) (j : nat) : Z :=
  Z.shiftl 1 (Z.land (byte_at hashbuf (2 * j + 1)) 0x7) mod 256.

Section Filters.
Context {HS : Hasher}.

Definition bloomValues (data : list Z) : list (nat * Z) :=
  let hashbuf := take 6 (U256.be_bytes 32 (keccak256 data)) in
  map (fun j => (bloom_index hashbuf j, bloom_bit hashbuf j)) [0; 1; 2]%nat.

Definition set_bits (b : bloom) (iv : nat * Z) : bloom := <[iv.1 := Z.lor (byte_at b iv.1) iv.2]> b.

(** [Add] and [AddWithBuffer] *)
Definition Add (d : list Z) (b : bloom) : bloom := foldl set_bits b (bloomValues d).

Definition Test (topic : list Z) (b : bloom) : bool :=
  forallb (fun iv => iv.2 =? Z.land iv.2 (byte_at b iv.1)) (bloomValues topic).

Definition BloomLookup (b : bloom) (topic : list Z) : bool := Test topic b.

Definition address_bytes (a : Z) : list Z := U256.be_bytes 20 a.
Definition hash_bytes (h : Z) : list Z := U256.be_bytes 32 h.

(** What is added for a log. *)
Definition add_log (b : bloom) (log : Log) : bloom :=
  foldl (fun b t => Add (hash_bytes t) b) (Add (address_bytes (LogAddress log)) b) (Topics log).

(** [CreateBloom] of the logs of a receipt. *)
Definition CreateBloom (logs : list Log) : bloom := foldl add_log empty_bloom logs.

(** [safeORBytes] into its first argument. *)
Definition ORBytes (a b : list Z) : list Z := zip_with Z.lor a b ++ drop (length b) a.

(** [MergeBloom] of the receipts, given by their logs and filters. *)
Definition MergeBloom (receipts : list (list Log * bloom)) : bloom :=
  foldl (fun bin r => match r.1 with [] => bin | _ => ORBytes bin r.2 end) empty_bloom receipts.

(** ** Searching logs *)

(** [big.Int.Int64] *)
Definition Int64 (x : Z) : Z := let u := x mod two64 in if u <? 2 ^ 63 then u else u - two64.

Definition contains (l : list Z) (x : Z) : bool := bool_decide (x ∈ l).

(** The rules on topics, position by position; an empty rule is a wildcard. *)
Fixpoint match_topics (topics : list (list Z)) (have : list Z) : bool :=
  match topics, have with
  | [], _ => true
  | _ :: _, [] => false
  | sub :: topics, t :: have => (match sub with [] => true | _ => contains sub t end) && match_topics topics have
  end.

(** The closure [check]; a block that is no [int64] does not restrict. *)
Definition check_log (fromBlock toBlock : option Z) (addresses : list Z) (topics : list (list Z)) (log : Log) : bool :=
  if match fromBlock with Some n => (0 <=? Int64 n) && (BlockNumber log <? u64 n) | None => false end then false
  else if match toBlock with Some n => (0 <=? Int64 n) && (u64 n <? BlockNumber log) | None => false end then false
  else if match addresses with [] => false | _ => negb (contains addresses (LogAddress log)) end then false
  else if (length (Topics log) <? length topics)%nat then false
  else match_topics topics (Topics log).

Definition FilterLogs (logs : list Log) (fromBlock toBlock : option Z) (addresses : list Z) (topics : list (list Z))
  : list Log := List.filter (check_log fromBlock toBlock addresses topics) logs.

(** [bloomFilter]: whether a block with the filter may have logs for the search. *)
Definition bloomFilter (b : bloom) (addresses : list Z) (topics : list (list Z)) : bool :=
  (match addresses with [] => true | _ => existsb (fun a => BloomLookup b (address_bytes a)) addresses end)
  && forallb (fun sub => match sub with [] => true | _ => existsb (fun t => BloomLookup b (hash_bytes t)) sub end) topics.

(** ** What a filter contains *)

Definition wf_bloom (b : bloom) : Prop := length b = 256%nat.

(** The bits of a filter are those of another one, and more. *)
Definition within (b c : bloom) : Prop := forall i, Z.land (byte_at b i) (byte_at c i) = byte_at b i.

Definition bits_in (b : bloom) (iv : nat * Z) : Prop := iv.2 = Z.land iv.2 (byte_at b iv.1).

Lemma Test_spec d b : Test d b = true <-> Forall (bits_in b) (bloomValues d).
Proof.
  unfold Test. rewrite forallb_forall, List.Forall_forall. by setoid_rewrite Z.eqb_eq.
Qed.

Lemma land_within x y z : Z.land x y = x -> Z.land y z = y -> Z.land x z = x.
Proof. intros H1 H2. rewrite <- H1 at 1. by rewrite <- Z.land_assoc, H2. Qed.

Lemma within_refl b : within b b.
Proof. intros i. apply Z.land_diag. Qed.
Lemma within_trans b c d : within b c -> within c d -> within b d.
Proof. intros H1 H2 i. by eapply land_within. Qed.

Lemma bits_in_within b c iv : within b c -> bits_in b iv -> bits_in c iv.
Proof. intros H Hb. unfold bits_in in *. symmetry. by eapply land_within; [symmetry|apply H]. Qed.

Lemma Test_within d b c : within b c -> Test d b = true -> Test d c = true.
Proof. rewrite !Test_spec. intros H. apply Forall_impl. intros iv. by apply bits_in_within. Qed.

Lemma byte_at_insert b i j v : (i < length b)%nat -> byte_at (<[i := v]> b) j = if decide (i = j) then v else byte_at b j.
Proof. intros H. unfold byte_at. rewrite list_lookup_insert. by repeat case_decide; subst; try lia. Qed.

Lemma set_bits_wf b iv : wf_bloom b -> wf_bloom (set_bits b iv).
Proof. unfold wf_bloom, set_bits. by rewrite length_insert. Qed.

Lemma land_lor_l x y : Z.land x (Z.lor x y) = x.
Proof. Z.bitwise. by destruct (Z.testbit x m), (Z.testbit y m). Qed.

Lemma set_bits_within b iv : within b (set_bits b iv).
Proof.
  destruct iv as [i v]. unfold set_bits. simpl. intros j. destruct (decide (i < length b)%nat) as [Hi|Hi].
  - rewrite byte_at_insert by done. case_decide; [subst; apply land_lor_l|apply Z.land_diag].
  - rewrite list_insert_ge by lia. apply Z.land_diag.
Qed.

Lemma set_bits_in b iv : wf_bloom b -> (iv.1 < 256)%nat -> bits_in (set_bits b iv) iv.
Proof.
  intros Hb Hi. destruct iv as [i v]. unfold bits_in, set_bits. simpl in *. rewrite byte_at_insert by (rewrite Hb; done).
  rewrite decide_True by done. rewrite Z.lor_comm. by rewrite land_lor_l.
Qed.

Lemma fold_within {A} (f : bloom -> A -> bloom) l : (forall b x, wf_bloom b -> wf_bloom (f b x) /\ within b (f b x)) ->
  forall b, wf_bloom b -> wf_bloom (foldl f b l) /\ within b (foldl f b l).
Proof.
  intros Hf. induction l as [|x l IH]; intros b Hb; simpl; [split; [done|apply within_refl]|].
  destruct (Hf b x Hb) as [Hw Hi]. destruct (IH _ Hw) as [Hw' Hi']. split; [done|by eapply within_trans].
Qed.

(** What one element of the list adds is still there in the end. *)
Lemma fold_reaches {A} (f : bloom -> A -> bloom) (P : A -> bloom -> Prop) l :
  (forall b x, wf_bloom b -> wf_bloom (f b x) /\ within b (f b x) /\ P x (f b x)) ->
  (forall x b c, within b c -> P x b -> P x c) ->
  forall b, wf_bloom b -> Forall (fun x => P x (foldl f b l)) l.
Proof.
  intros Hf Hm. induction l as [|x l IH]; intros b Hb; simpl; [constructor|].
  destruct (Hf b x Hb) as (Hw & Hi & Hp). constructor; [|by apply IH].
  eapply Hm; [|exact Hp]. apply fold_within; [|done]. intros c y Hc. destruct (Hf c y Hc) as (? & ? & _). done.
Qed.

Lemma bloomValues_range d : Forall (fun iv => (iv.1 < 256)%nat) (bloomValues d).
Proof.
  apply Forall_map, Forall_forall. intros j _. simpl. unfold bloom_index. unfold BloomByteLength.
  cbv zeta. match goal with |- context [Z.shiftr ?w 3] => assert (0 <= Z.shiftr w 3) as H by (apply Z.shiftr_nonneg, Z.land_nonneg; by right) end.
  lia.
Qed.

Lemma Add_spec d b : wf_bloom b -> wf_bloom (Add d b) /\ within b (Add d b) /\ Test d (Add d b) = true.
Proof.
  intros Hb.
  assert (forall b iv, wf_bloom b -> wf_bloom (set_bits b iv) /\ within b (set_bits b iv)) as Hs.
  { intros c iv Hc. split; [by apply set_bits_wf|apply set_bits_within]. }
  destruct (fold_within set_bits (bloomValues d) Hs b Hb) as [H1 H2]. split; [done|]. split; [done|].
  apply Test_spec. unfold Add. pose proof (bloomValues_range d) as Hr. revert Hr. clear H1 H2. generalize (bloomValues d) as l.
  intros l Hr. revert b Hb. induction Hr as [|iv l Hi _ IH]; intros b Hb; simpl; [constructor|].
  constructor; [|by apply IH, set_bits_wf]. eapply bits_in_within; [|by apply set_bits_in].
  by apply fold_within, set_bits_wf.
Qed.

Lemma add_log_spec log b : wf_bloom b -> wf_bloom (add_log b log) /\ within b (add_log b log)
  /\ Test (address_bytes (LogAddress log)) (add_log b log) = true
  /\ Forall (fun t => Test (hash_bytes t) (add_log b log) = true) (Topics log).
Proof.
  intros Hb. destruct (Add_spec (address_bytes (LogAddress log)) b Hb) as (Hw & Hi & Ht). unfold add_log.
  assert (forall b t, wf_bloom b -> wf_bloom (Add (hash_bytes t) b) /\ within b (Add (hash_bytes t) b)) as Hs.
  { intros c t Hc. destruct (Add_spec (hash_bytes t) c Hc) as (? & ? & _). done. }
  destruct (fold_within _ (Topics log) Hs _ Hw) as [Hw' Hi']. split; [done|]. split; [by eapply within_trans|].
  split; [by eapply Test_within|].
  apply (fold_reaches _ (fun t c => Test (hash_bytes t) c = true)); [|intros t c c'; apply Test_within|done].
  intros c t Hc. by apply Add_spec.
Qed.

Lemma empty_wf : wf_bloom empty_bloom.
Proof. done. Qed.

Lemma CreateBloom_wf logs : wf_bloom (CreateBloom logs).
Proof.
  apply fold_within; [|done]. intros c l Hc. destruct (add_log_spec l c Hc) as (? & ? & _). done.
Qed.

(** What a search asks of one log is in the filter. *)
Definition holds_log (b : bloom) (log : Log) : Prop :=
  Test (address_bytes (LogAddress log)) b = true /\ Forall (fun t => Test (hash_bytes t) b = true) (Topics log).

Lemma holds_within b c log : within b c -> holds_log b log -> holds_log c log.
Proof.
  intros H [Ha Ht]. split; [by eapply Test_within|]. eapply Forall_impl; [|exact Ht]. intros t. exact (Test_within (hash_bytes t) b c H).
Qed.

Lemma CreateBloom_holds logs : Forall (holds_log (CreateBloom logs)) logs.
Proof.
  apply (fold_reaches add_log (fun l b => holds_log b l)); [|intros l b c; apply holds_within|done].
  intros b l Hb. destruct (add_log_spec l b Hb) as (? & ? & ?). done.
Qed.

(** ** Merging *)

Lemma ORBytes_at a b i : wf_bloom a -> wf_bloom b -> byte_at (ORBytes a b) i = Z.lor (byte_at a i) (byte_at b i).
Proof.
  intros Ha Hb. unfold ORBytes, byte_at. rewrite drop_ge, app_nil_r by (rewrite Ha, Hb; lia).
  rewrite lookup_zip_with. destruct (decide (i < 256)%nat) as [Hi|Hi].
  - destruct (lookup_lt_is_Some_2 a i) as [x ->]; [by rewrite Ha|]. destruct (lookup_lt_is_Some_2 b i) as [y ->]; [by rewrite Hb|]. done.
  - rewrite !lookup_ge_None_2 by (rewrite ?Ha, ?Hb; lia). done.
Qed.

Lemma ORBytes_wf a b : wf_bloom a -> wf_bloom b -> wf_bloom (ORBytes a b).
Proof.
  intros Ha Hb. unfold wf_bloom, ORBytes. rewrite drop_ge, app_nil_r by (rewrite Ha, Hb; lia).
  rewrite length_zip_with_l; [done|]. by rewrite Ha, Hb.
Qed.

Lemma bloom_ext a b : wf_bloom a -> wf_bloom b -> (forall i, byte_at a i = byte_at b i) -> a = b.
Proof.
  intros Ha Hb H. apply list_eq_same_length with 256%nat; [done|done|]. intros i x y Hi Hx Hy.
  specialize (H i). unfold byte_at in H. rewrite Hx, Hy in H. exact H.
Qed.

(** Adding to a union is adding to one of its parts. *)
Lemma set_bits_or a b iv : wf_bloom a -> wf_bloom b -> set_bits (ORBytes a b) iv = ORBytes a (set_bits b iv).
Proof.
  intros Ha Hb. apply bloom_ext; [by apply set_bits_wf, ORBytes_wf|by apply ORBytes_wf; [|apply set_bits_wf]|].
  intros i. rewrite ORBytes_at by (try apply set_bits_wf; done). destruct iv as [j v]. unfold set_bits. simpl.
  destruct (decide (j < 256)%nat) as [Hj|Hj].
  - rewrite !byte_at_insert by (rewrite ?ORBytes_wf, ?Hb; done). case_decide as E; [subst|by apply ORBytes_at].
    rewrite ORBytes_at by done. by rewrite Z.lor_assoc.
  - rewrite !list_insert_ge by (rewrite ?ORBytes_wf, ?Hb; lia || done). by apply ORBytes_at.
Qed.

Lemma fold_or {A} (f : bloom -> A -> bloom) l :
  (forall b x, wf_bloom b -> wf_bloom (f b x)) ->
  (forall a b x, wf_bloom a -> wf_bloom b -> f (ORBytes a b) x = ORBytes a (f b x)) ->
  forall a b, wf_bloom a -> wf_bloom b -> foldl f (ORBytes a b) l = ORBytes a (foldl f b l).
Proof.
  intros Hw Hf. induction l as [|x l IH]; intros a b Ha Hb; simpl; [done|]. rewrite Hf by done. by apply IH; [|apply Hw].
Qed.

Lemma Add_or a b d : wf_bloom a -> wf_bloom b -> Add d (ORBytes a b) = ORBytes a (Add d b).
Proof. intros Ha Hb. apply fold_or; [intros; by apply set_bits_wf|intros; by apply set_bits_or|done..]. Qed.

Lemma add_log_or a b l : wf_bloom a -> wf_bloom b -> add_log (ORBytes a b) l = ORBytes a (add_log b l).
Proof.
  intros Ha Hb. unfold add_log. rewrite Add_or by done.
  apply fold_or; [intros c t Hc; by apply Add_spec|intros; by apply Add_or|done|by apply Add_spec].
Qed.

Lemma ORBytes_empty a : wf_bloom a -> ORBytes a empty_bloom = a.
Proof.
  intros Ha. apply bloom_ext; [by apply ORBytes_wf|done|]. intros i. rewrite ORBytes_at by done.
  assert (byte_at empty_bloom i = 0) as ->; [|apply Z.lor_0_r]. unfold byte_at, empty_bloom.
  destruct (replicate 256 0 !! i) eqn:E; [|done]. by apply lookup_replicate in E as [-> _].
Qed.

Lemma CreateBloom_app l1 l2 : CreateBloom (l1 ++ l2) = ORBytes (CreateBloom l1) (CreateBloom l2).
Proof.
  unfold CreateBloom at 1. rewrite foldl_app. fold (CreateBloom l1). pose proof (CreateBloom_wf l1) as Hw.
  rewrite <- (ORBytes_empty (CreateBloom l1) Hw) at 1.
  apply fold_or; [intros b l Hb; by apply add_log_spec|intros; by apply add_log_or|done|done].
Qed.

(** The filter of a block merged from those of its receipts is the one of all its logs. *)
Lemma MergeBloom_logs (receipts : list (list Log * bloom)) : Forall (fun r => r.2 = CreateBloom r.1) receipts ->
  MergeBloom receipts = CreateBloom (concat (map fst receipts)).
Proof.
  unfold MergeBloom. change empty_bloom with (CreateBloom []) at 1. change (concat (map fst receipts)) with ([] ++ concat (map fst receipts)).
  generalize (@nil Log) as done_. induction receipts as [|[logs b] receipts IH]; intros done_ H; simpl; [by rewrite app_nil_r|].
  inversion H as [|? ? Hb Hr]; subst. simpl in Hb. subst b. rewrite app_assoc. rewrite <- IH by done. f_equal.
  destruct logs as [|l logs]; [by rewrite app_nil_r|]. by rewrite CreateBloom_app.
Qed.

Lemma contains_spec l x : contains l x = true <-> x ∈ l.
Proof. unfold contains. by rewrite bool_decide_eq_true. Qed.

Lemma match_topics_filter b topics have : Forall (fun t => Test (hash_bytes t) b = true) have ->
  match_topics topics have = true ->
  forallb (fun sub => match sub with [] => true | _ => existsb (fun t => BloomLookup b (hash_bytes t)) sub end) topics = true.
Proof.
  revert have. induction topics as [|sub topics IH]; intros [|t have] Ht Hm; try done.
  inversion Ht as [|? ? Ht1 Ht2]; subst. cbn [match_topics] in Hm. apply andb_true_iff in Hm as [Hs Hm].
  cbn [forallb]. apply andb_true_iff. split; [|by apply (IH have)].
  destruct sub as [|s sub]; [done|]. apply contains_spec in Hs. apply existsb_exists. exists t.
  split; [exact (proj1 (list_elem_of_In _ _) Hs)|exact Ht1].
Qed.

(** A search that finds something passes the filter of the logs. *)
Lemma search_passes logs fromBlock toBlock addresses topics :
  FilterLogs logs fromBlock toBlock addresses topics <> [] -> bloomFilter (CreateBloom logs) addresses topics = true.
Proof.
  intros Hne. destruct (FilterLogs logs fromBlock toBlock addresses topics) as [|log found] eqn:E; [done|clear Hne].
  assert (In log (FilterLogs logs fromBlock toBlock addresses topics)) as Hin by (rewrite E; by left). clear E.
  apply filter_In in Hin as [Hin Hc]. pose proof (proj1 (List.Forall_forall _ _) (CreateBloom_holds logs) log Hin) as [Ha Ht].
  revert Ha Ht Hc. generalize (CreateBloom logs) as b. intros b Ha Ht Hc. unfold check_log in Hc.
  repeat match type of Hc with (if ?c then false else _) = true => destruct c eqn:?; [discriminate Hc|] end.
  match goal with H : match addresses with _ => _ end = false |- _ => rename H into Eadr end.
  unfold bloomFilter. apply andb_true_iff. split; [|exact (match_topics_filter b topics _ Ht Hc)].
  destruct addresses as [|a addresses]; [done|]. apply negb_false_iff, contains_spec in Eadr. apply existsb_exists.
  exists (LogAddress log). split; [exact (proj1 (list_elem_of_In _ _) Eadr)|exact Ha].
Qed.

(** The filter of a block never hides a log: when the filters of the receipts are those of their logs, as
    [MakeReceipt] sets them, the merged filter of the block is the filter of all the logs of the block, and every
    search that finds a log in the block passes [bloomFilter]. *)
Theorem block_bloom_complete (receipts : list (list Log * bloom)) fromBlock toBlock addresses topics :
  Forall (fun r => r.2 = CreateBloom r.1) receipts ->
  let logs := concat (map fst receipts) in
  MergeBloom receipts = CreateBloom logs
  /\ (FilterLogs logs fromBlock toBlock addresses topics <> [] -> bloomFilter (MergeBloom receipts) addresses topics = true).
Proof. intros H logs. rewrite (MergeBloom_logs receipts H). split; [done|apply search_passes]. Qed.

End Filters.

Definition sample_log : Log := mkLog 0x64 [7; 8] [1; 2; 3] 5 0 0 0 0 0.

Lemma block_bloom_complete_witness :
  let HS := {| keccak256 l := foldl (fun h b => (h * 31 + b) mod two256) 7 l |} in
  bloomFilter (MergeBloom [([sample_log], CreateBloom [sample_log]); ([], empty_bloom)]) [0x64] [[]; [8; 9]] = true.
Proof.
  intros HS. refine (proj2 (block_bloom_complete [([sample_log], CreateBloom [sample_log]); ([], empty_bloom)] None None [0x64] [[]; [8; 9]] _) _).
  - repeat constructor.
  - intros E. vm_compute in E. discriminate E.
Defined.

(** [Bloom9] is documented to return the filter for the data; it returns the data, padded. *)
Example Bloom9_copies : let HS := {| keccak256 l := foldl (fun h b => (h * 31 + b) mod two256) 7 l |} in
  exists b, Bloom9 [2] = Some b /\ b = replicate 255 0 ++ [2] /\ b <> Add [2] empty_bloom.
Proof. eexists. split; [done|]. split; [done|]. vm_compute. discriminate. Qed.
