(* ===== verification/Receipts.v ===== *)
(** Receipts: [core/types/receipt.go], and the order in which [DeriveSha] of
    [core/types/hashing.go] hands a list to its hasher.

    The JSON forms and the approximate memory use are left out, and so is the form in
    the database. *)

From Stdlib Require Import Sorted.
From stdpp Require Import base gmap list numbers option strings.
From S2P Require Import State.
From S2P Require Import Prelude Params Uint256 ChainConfig MultiGas Rlp RlpStream RlpValues RlpCodec Interpreter Bloom.
From S2P Require Import TxTypes Transaction TxEncoding Signers.
Open Scope Z_scope.
Open Scope stream_scope.
Open Scope go_scope.

(** ** Data *)

Definition ReceiptStatusFailed : Z := 0.
Definition ReceiptStatusSuccessful : Z := 1.

Module Receipt.
Record t := mk {
  GasUsedForL1 : Z; MultiGasUsed : MultiGas; Type_ : Z; PostState : list Z; Status : Z; CumulativeGasUsed : Z;
  Bloom : list Z; Logs : list Log; TxHash : Z; ContractAddress : Z; GasUsed : Z; EffectiveGasPrice : option Z;
  BlobGasUsed : Z; BlobGasPrice : option Z; BlockHash : Z; BlockNumber : option Z; TransactionIndex : Z
}.
Definition zero : t := mk 0 ZeroGas 0 [] 0 0 empty_bloom [] 0 0 0 None 0 None 0 None 0.
Definition set_GasUsedForL1 (v : Z) (r : t) : t :=
  mk v (MultiGasUsed r) (Type_ r) (PostState r) (Status r) (CumulativeGasUsed r) (Bloom r) (Logs r) (TxHash r)
    (ContractAddress r) (GasUsed r) (EffectiveGasPrice r) (BlobGasUsed r) (BlobGasPrice r) (BlockHash r) (BlockNumber r)
    (TransactionIndex r).
(** The fields that are covered by consensus. *)
Definition set_consensus (type : Z) (postState : list Z) (status cumulative : Z) (bloom : list Z) (logs : list Log) (r : t) : t :=
  mk (GasUsedForL1 r) (MultiGasUsed r) type postState status cumulative bloom logs (TxHash r) (ContractAddress r)
    (GasUsed r) (EffectiveGasPrice r) (BlobGasUsed r) (BlobGasPrice r) (BlockHash r) (BlockNumber r) (TransactionIndex r).
End Receipt.

Inductive receiptError :=
| errShortTypedReceipt
| ErrReceiptTxTypeNotSupported
| ErrReceiptRlp (e : streamError)
| ErrReceiptBufferTooLarge (size : Z)
| ErrInvalidStatus (b : list Z).

(** ** The consensus encoding *)

(** A log has its consensus fields only; the others are zero when it is decoded. *)
Definition log_codec : codec (Z * (list Z * (list Z * unit))) :=
  c_ptr (c_struct (address_codec ,, c_slice hash_codec ,, c_bytes ,, f_nil)%fields).
Definition log_fields (l : Log) : Z * (list Z * (list Z * unit)) := (LogAddress l, (Topics l, (LogData l, tt))).
Definition fields_log (f : Z * (list Z * (list Z * unit))) : Log :=
  let '(a, (ts, (d, _))) := f in mkLog a ts d 0 0 0 0 0 0.

Definition bloom_codec : codec (list Z) := c_fixed 256.

Abbreviation receiptRLP := (list Z * (Z * (list Z * (list (Z * (list Z * (list Z * unit))) * unit))))%type (only parsing).

Definition receipt_codec : codec receiptRLP :=
  c_struct (c_bytes ,, u64_codec ,, bloom_codec ,, c_slice log_codec ,, f_nil)%fields.

Definition receiptStatusFailedRLP : list Z := [].
Definition receiptStatusSuccessfulRLP : list Z := [0x01].

Definition statusEncoding (r : Receipt.t) : list Z :=
  match Receipt.PostState r with
  | [] => if Receipt.Status r =? ReceiptStatusFailed then receiptStatusFailedRLP else receiptStatusSuccessfulRLP
  | _ => Receipt.PostState r
  end.

Definition receipt_data (r : Receipt.t) : receiptRLP :=
  (statusEncoding r, (Receipt.CumulativeGasUsed r, (Receipt.Bloom r, (map log_fields (Receipt.Logs r), tt)))).

(** What the reflection of [rlp.Encode] writes for the data. *)
Definition receipt_rlp (r : Receipt.t) : option (list Z) := Encode receipt_codec (receipt_data r).

Definition receipt_encodeTyped (r : Receipt.t) : option (list Z) :=
  b ← receipt_rlp r; Some (Receipt.Type_ r :: b).

Definition receipt_EncodeRLP (r : Receipt.t) : option (list Z) :=
  if Receipt.Type_ r =? LegacyTxType then receipt_rlp r
  else b ← receipt_encodeTyped r; Encode c_bytes b.

Definition receipt_MarshalBinary (r : Receipt.t) : option (list Z) :=
  if Receipt.Type_ r =? LegacyTxType then receipt_rlp r else receipt_encodeTyped r.

(** On the status and the state of the receipt that is decoded into. *)
Definition setStatus (postStateOrStatus : list Z) (r : Receipt.t) : result receiptError (list Z * Z) :=
  if bool_decide (postStateOrStatus = receiptStatusSuccessfulRLP) then Ok (Receipt.PostState r, ReceiptStatusSuccessful)
  else if bool_decide (postStateOrStatus = receiptStatusFailedRLP) then Ok (Receipt.PostState r, ReceiptStatusFailed)
  else if len postStateOrStatus =? 32 then Ok (postStateOrStatus, Receipt.Status r)
  else Err (ErrInvalidStatus postStateOrStatus).

(** The type is set before. *)
Definition setFromRLP (type : Z) (data : receiptRLP) (r : Receipt.t) : result receiptError Receipt.t :=
  let '(status, (cumulative, (bloom, (logs, _)))) := data in
  let! '(postState, status) := setStatus status r in
  Ok (Receipt.set_consensus type postState status cumulative bloom (map fields_log logs) r).

Definition receipt_decode (type : Z) (b : list Z) (r : Receipt.t) : result receiptError Receipt.t :=
  match DecodeBytes 0 (c_type receipt_codec) b with
  | Ok v => setFromRLP type (c_of receipt_codec v) r
  | Err e => Err (ErrReceiptRlp e)
  end.

Definition receipt_decodeTyped (b : list Z) (r : Receipt.t) : result receiptError Receipt.t :=
  match b with
  | [] | [_] => Err errShortTypedReceipt
  | ty :: input =>
      if (ty =? DynamicFeeTxType) || (ty =? AccessListTxType) || (ty =? BlobTxType) || (ty =? SetCodeTxType)
      then receipt_decode ty input r
      else Err ErrReceiptTxTypeNotSupported
  end.

Definition receipt_UnmarshalBinary (b : list Z) (r : Receipt.t) : result receiptError Receipt.t :=
  match b with
  | b0 :: _ => if 0x7f <? b0 then receipt_decode LegacyTxType b r else receipt_decodeTyped b r
  | [] => receipt_decodeTyped b r
  end.

Definition receipt_DecodeRLP (r : Receipt.t) (s : Stream) : result receiptError Receipt.t * Stream :=
  match stream_Kind s with
  | (Err e, s) => (Err (ErrReceiptRlp e), s)
  | (Ok (List, _), s) =>
      match decode_val (c_type receipt_codec) s with
      | (Ok v, s) => (setFromRLP LegacyTxType (c_of receipt_codec v) r, s)
      | (Err e, s) => (Err (ErrReceiptRlp e), s)
      end
  | (Ok (Byte, _), s) => (Err errShortTypedReceipt, s)
  | (Ok (String, size), s) =>
      if MaxBuffer <? size then (Err (ErrReceiptBufferTooLarge size), s)
      else
        match ReadBytes size s with
        | (Ok b, s) => (receipt_decodeTyped b r, s)
        | (Err e, s) => (Err (ErrReceiptRlp e), s)
        end
  end.

(** ** The encodings that are hashed *)

(** [EncodeIndex] of [Receipts]; a type that is not known writes its byte only. *)
Definition receipt_EncodeIndex (r : Receipt.t) : list Z :=
  let ty := Receipt.Type_ r in
  let data := default [] (receipt_rlp r) in
  if (ty =? LegacyTxType) || (ty =? ArbitrumLegacyTxType) then data
  else if bool_decide (ty ∈ [AccessListTxType; DynamicFeeTxType; BlobTxType; SetCodeTxType; ArbitrumDepositTxType;
    ArbitrumUnsignedTxType; ArbitrumContractTxType; ArbitrumRetryTxType; ArbitrumSubmitRetryableTxType;
    ArbitrumInternalTxType]) then ty :: data
  else [ty].

(** [EncodeIndex] of [Transactions]; when the payload cannot be encoded the type is written
    all the same. *)
Definition tx_EncodeIndex (tx : Transaction) : list Z :=
  if Type_ tx =? LegacyTxType then default [] (inner_rlp (inner tx))
  else
    match inner tx with
    | ArbLegacy x => default [] (Encode LegacyTx.codec_ (ArbitrumLegacyTxData.LegacyTx_ x))
    | d => match encodeTyped d with Some (Ok b) => b | _ => [txType d] end
    end.

(** The pairs of key and value that [DeriveSha] gives to the hasher, in their order, for
    the encodings of the elements. *)
Definition derive_index (i : nat) : list Z := AppendUint64 [] (Z.of_nat i).

Definition DeriveSha_updates (values : list (list Z)) : list (list Z * list Z) :=
  let n := length values in
  let update (i : nat) := (derive_index i, default [] (values !! i)) in
  map update (seq 1 (min (n - 1) 0x7f))
  ++ (if (0 <? n)%nat then [update 0%nat] else [])
  ++ map update (seq 0x80 (n - 0x80)).

(** ** The order of the keys *)

(** The lexicographic order of byte strings. *)
Fixpoint lex_lt (a b : list Z) : Prop :=
  match a, b with
  | [], _ :: _ => True
  | x :: a, y :: b => x < y \/ x = y /\ lex_lt a b
  | _, [] => False
  end.

Lemma lex_lt_be_bytes n x y : 0 <= x -> x < y -> y < 256 ^ Z.of_nat n -> lex_lt (U256.be_bytes n x) (U256.be_bytes n y).
Proof.
  revert x y. induction n as [|n IH]; intros x y Hx Hxy Hy; [change (256 ^ Z.of_nat 0) with 1 in Hy; lia|].
  rewrite !be_bytes_cons by lia. rewrite Nat2Z.inj_succ, Z.pow_succ_r in Hy by lia.
  remember (256 ^ Z.of_nat n) as P eqn:EP. assert (0 < P) as HP by (subst P; apply Z.pow_pos_nonneg; lia).
  rewrite !(Z.mod_small _ 256) by (split; [apply Z.div_pos; lia|apply Z.div_lt_upper_bound; lia]).
  cbn [lex_lt]. pose proof (Z.div_mod x P ltac:(lia)). pose proof (Z.div_mod y P ltac:(lia)).
  pose proof (Z.mod_pos_bound x P HP). pose proof (Z.mod_pos_bound y P HP).
  destruct (Z.eq_dec (x / P) (y / P)) as [E|E]; [right; split; [done|]|left; nia].
  rewrite <- (be_bytes_mod n x), <- (be_bytes_mod n y), <- EP. apply IH; [lia|nia|lia].
Qed.

Lemma AppendUint64_long i : 128 <= i < two64 -> exists k, 1 <= k <= 8 /\ 256 ^ (k - 1) <= i < 256 ^ k
  /\ AppendUint64 [] i = 0x80 + k :: U256.be_bytes (Z.to_nat k) i.
Proof.
  intros Hi. unfold AppendUint64. destruct (Z.eqb_spec i 0); [lia|]. destruct (Z.ltb_spec i 128); [lia|].
  destruct (Z.ltb_spec i (2 ^ 8)); [exists 1|destruct (Z.ltb_spec i (2 ^ 16)); [exists 2|destruct (Z.ltb_spec i (2 ^ 24)); [exists 3|
    destruct (Z.ltb_spec i (2 ^ 32)); [exists 4|destruct (Z.ltb_spec i (2 ^ 40)); [exists 5|destruct (Z.ltb_spec i (2 ^ 48)); [exists 6|
    destruct (Z.ltb_spec i (2 ^ 56)); [exists 7|exists 8]]]]]]];
    (split; [lia|]; split; [|reflexivity]; lia).
Qed.

Lemma AppendUint64_short i : 1 <= i < 128 -> AppendUint64 [] i = [i].
Proof.
  intros Hi. unfold AppendUint64. destruct (Z.eqb_spec i 0); [lia|]. destruct (Z.ltb_spec i 128); [done|lia].
Qed.

Lemma long_keys_lt i j : 128 <= i -> i < j -> j < two64 -> lex_lt (AppendUint64 [] i) (AppendUint64 [] j).
Proof.
  intros Hi Hij Hj. destruct (AppendUint64_long i) as (k & Hk & Hb & ->); [lia|].
  destruct (AppendUint64_long j) as (l & Hl & Hc & ->); [lia|]. cbn [lex_lt].
  destruct (Z.eq_dec k l) as [->|Hne].
  - right. split; [done|]. apply lex_lt_be_bytes; [lia|lia|]. rewrite Z2Nat.id by lia. lia.
  - left. destruct (Z.lt_trichotomy k l) as [H|[H|H]]; [lia|done|].
    pose proof (Z.pow_le_mono_r 256 l (k - 1) ltac:(lia) ltac:(lia)). lia.
Qed.

Lemma sorted_seq (f : nat -> list Z) a n : (forall i j, (a <= i)%nat -> (i < j)%nat -> (j < a + n)%nat -> lex_lt (f i) (f j)) ->
  StronglySorted lex_lt (map f (seq a n)).
Proof.
  revert a. induction n as [|n IH]; intros a H; simpl; [constructor|]. constructor.
  - apply IH. intros i j ? ? ?. apply H; lia.
  - apply Forall_map, Forall_forall. intros j Hj. apply list_elem_of_In, in_seq in Hj. apply H; lia.
Qed.

Lemma sorted_app (l k : list (list Z)) : StronglySorted lex_lt l -> StronglySorted lex_lt k ->
  (forall x y, x ∈ l -> y ∈ k -> lex_lt x y) -> StronglySorted lex_lt (l ++ k).
Proof.
  intros Hl Hk H. induction Hl as [|x l Hl IH Hx]; simpl; [done|]. constructor.
  - apply IH. intros y z Hy Hz. apply H; [by right|done].
  - apply Forall_app. split; [done|]. apply Forall_forall. intros z Hz. apply H; [by left|done].
Qed.

Lemma in_update (f : nat -> list Z) a n x : x ∈ map f (seq a n) -> exists i, (a <= i < a + n)%nat /\ x = f i.
Proof. intros (i & -> & Hi)%list_elem_of_fmap. exists i. split; [|done]. apply list_elem_of_In, in_seq in Hi. lia. Qed.

Lemma imap_seq {B} (f : nat -> list Z -> B) (l : list (list Z)) :
  imap f l = map (fun i => f i (default [] (l !! i))) (seq 0 (length l)).
Proof.
  revert f. induction l as [|x l IH]; intros f; [done|]. rewrite imap_cons. cbn [length seq map]. f_equal.
  rewrite IH, <- seq_shift, map_map. done.
Qed.

(** [DeriveSha] hands the elements of a list to its hasher in the order the stack trie needs: the keys, which are the
    encodings of the indices, are strictly increasing as byte strings, and every element is there exactly once, under
    the key of its index. *)
Theorem derive_order (values : list (list Z)) : Z.of_nat (length values) < two64 ->
  let updates := DeriveSha_updates values in
  StronglySorted lex_lt (map fst updates)
  /\ Permutation updates (imap (fun i v => (derive_index i, v)) values).
Proof.
  intros Hn updates. subst updates. unfold DeriveSha_updates. remember (length values) as n eqn:En. split.
  - rewrite !map_app, !map_map. cbn [fst].
    assert ((if (0 <? n)%nat then map fst [(derive_index 0, default [] (values !! 0%nat))] else []) =
      map fst (if (0 <? n)%nat then [(derive_index 0, default [] (values !! 0%nat))] else [])) as <- by by destruct (0 <? n)%nat.
    unfold derive_index. apply sorted_app; [| |].
    + apply sorted_seq. intros i j ? ? ?. rewrite !AppendUint64_short by lia. left. lia.
    + apply sorted_app.
      * destruct (0 <? n)%nat; simpl; repeat constructor.
      * apply sorted_seq. intros i j ? ? ?. apply long_keys_lt; lia.
      * intros x y Hx (j & Hj & ->)%in_update. destruct (0 <? n)%nat; [|by apply elem_of_nil in Hx].
        apply list_elem_of_singleton in Hx as ->. destruct (AppendUint64_long (Z.of_nat j)) as (k & Hk & _ & ->); [lia|]. left. simpl. lia.
    + intros x y (i & Hi & ->)%in_update Hy. rewrite AppendUint64_short by lia. apply elem_of_app in Hy as [Hy|(j & Hj & ->)%in_update].
      * destruct (0 <? n)%nat; [|by apply elem_of_nil in Hy]. apply list_elem_of_singleton in Hy as ->. left. simpl. lia.
      * destruct (AppendUint64_long (Z.of_nat j)) as (k & Hk & _ & ->); [lia|]. left. lia.
  - rewrite (imap_seq _ values), <- En.
    assert (seq 0 n ≡ₚ seq 1 (min (n - 1) 127) ++ (if (0 <? n)%nat then [0%nat] else []) ++ seq 128 (n - 128)) as ->.
    { destruct n as [|n]; [done|]. change (0 <? S n)%nat with true. cbv iota. cbn [app]. rewrite <- Permutation_middle. cbn [seq]. constructor.
      replace n with (min (S n - 1) 127 + (S n - 128))%nat at 1 by lia. rewrite seq_app. 
      destruct (decide (S n - 128 = 0)%nat) as [->|Hd]; [done|]. by replace (1 + min (S n - 1) 127)%nat with 128%nat by lia. }
    rewrite !map_app. by destruct (0 <? n)%nat.
Qed.

(** ** The binary form *)

#[export] Instance log_laws : CodecLaws log_codec := _.
#[export] Instance receipt_laws : CodecLaws receipt_codec := _.

(** The state root of a receipt, if it has one, is a hash. *)
Definition state_ok (r : Receipt.t) : Prop :=
  match Receipt.PostState r with [] => True | root => length root = 32%nat /\ Forall is_byte root end.

Definition receipt_ok (r : Receipt.t) : Prop :=
  state_ok r /\ is_u64 (Receipt.CumulativeGasUsed r) /\ length (Receipt.Bloom r) = 256%nat /\ Forall is_byte (Receipt.Bloom r)
  /\ Forall (fun l => c_ok log_codec (log_fields l)) (Receipt.Logs r).

(** What decoding the form of [r] makes of the receipt [r0]: the first field of the form is either the state root or
    the status, so that the other one stays what it was. *)
Definition read_into (r0 r : Receipt.t) : Receipt.t :=
  let '(postState, status) :=
    match Receipt.PostState r with
    | [] => (Receipt.PostState r0,
             if Receipt.Status r =? ReceiptStatusFailed then ReceiptStatusFailed else ReceiptStatusSuccessful)
    | root => (root, Receipt.Status r0)
    end in
  Receipt.set_consensus (Receipt.Type_ r) postState status (Receipt.CumulativeGasUsed r)
    (Receipt.Bloom r) (map (fun l => fields_log (log_fields l)) (Receipt.Logs r)) r0.

Definition receipt_item (r : Receipt.t) : item := c_item receipt_codec (receipt_data r).

Lemma receipt_data_ok r : receipt_ok r -> c_ok receipt_codec (receipt_data r).
Proof.
  intros (Hs & Hc & Hb & Hb' & Hl). cbn. split; [|split; [exact Hc|split; [done|split; [by apply Forall_map|done]]]].
  unfold statusEncoding, state_ok in *. destruct (Receipt.PostState r); [|by apply Hs].
  destruct (_ =? _); repeat constructor; unfold is_byte; lia.
Qed.

Lemma setFromRLP_data r0 r : receipt_ok r -> setFromRLP (Receipt.Type_ r) (receipt_data r) r0 = Ok (read_into r0 r).
Proof.
  intros (Hs & _). unfold setFromRLP, receipt_data, setStatus, statusEncoding, state_ok, read_into in *.
  destruct (Receipt.PostState r) as [|x root].
  - destruct (Receipt.Status r =? ReceiptStatusFailed); cbn [result_bind]; simpl bool_decide; cbv iota; by rewrite map_map.
  - destruct Hs as (Hl & _). rewrite !bool_decide_eq_false_2 by (intros [= -> ->]; discriminate Hl || done).
    assert (len (x :: root) = 32) as -> by (unfold len; by rewrite Hl). cbn [result_bind Z.eqb]. simpl Z.eqb. cbv iota.
    cbn [result_bind]. by rewrite map_map.
Qed.

Lemma receipt_decode_item r0 r : receipt_ok r -> short (receipt_item r) ->
  receipt_decode (Receipt.Type_ r) (encode (receipt_item r)) r0 = Ok (read_into r0 r).
Proof.
  intros Hr Hs. pose proof (receipt_data_ok r Hr) as Hd. unfold receipt_decode, receipt_item, c_item.
  rewrite DecodeBytes_value; [|apply c_wf|by apply c_to_typed|exact Hs]. rewrite c_of_to by done. by apply setFromRLP_data.
Qed.

Lemma receipt_rlp_item r : receipt_ok r -> short (receipt_item r) -> receipt_rlp r = Some (encode (receipt_item r)).
Proof. intros Hr Hs. apply Encode_item; [apply _|by apply receipt_data_ok|exact Hs]. Qed.

Definition ethereum_type (ty : Z) : Prop := 0 <= ty <= 4.
Definition arbitrum_type (ty : Z) : Prop := 0x64 <= ty <= 0x7f.

(** C25. The binary form of a receipt: what [MarshalBinary] writes for a receipt of an Ethereum transaction is read back by
    [UnmarshalBinary], into whatever receipt: the type, cumulative gas, bloom and logs are those of the receipt, the
    fields that are not covered by consensus stay as they were, and so does either the status or the state root: a
    receipt without state root gives its status, as failed or successful, and one with a state root, as made before
    Byzantium, gives that and loses its status.  The form of a receipt of an Arbitrum transaction is written too, and
    rejected when it is read. *)
Theorem receipt_roundtrip r : receipt_ok r -> len (encode (receipt_item r)) < two64 ->
  exists b, receipt_MarshalBinary r = Some b
    /\ (ethereum_type (Receipt.Type_ r) -> forall r0, receipt_UnmarshalBinary b r0 = Ok (read_into r0 r))
    /\ (arbitrum_type (Receipt.Type_ r) -> forall r0, receipt_UnmarshalBinary b r0 = Err ErrReceiptTxTypeNotSupported).
Proof.
  intros Hr Hs. pose proof (receipt_rlp_item r Hr Hs) as E. pose proof (fun r0 => receipt_decode_item r0 r Hr Hs) as D.
  assert (exists l, receipt_item r = Lst l) as [l El] by by eexists.
  destruct (encode_list_head l) as (b0 & t & Eb & Hb0). rewrite <- El in Eb.
  unfold receipt_MarshalBinary, receipt_encodeTyped. rewrite E. destruct (Z.eqb_spec (Receipt.Type_ r) LegacyTxType) as [Ht|Ht].
  - eexists. split; [done|]. rewrite Ht in *. split; [intros _|intros H; destruct H; change LegacyTxType with 0 in *; lia].
    intros r0. unfold receipt_UnmarshalBinary. rewrite Eb at 1. rewrite (proj2 (Z.ltb_lt _ _)) by lia. exact (D r0).
  - eexists. split; [reflexivity|].
    assert (forall ty x r0, ty <= 0x7f -> receipt_UnmarshalBinary (ty :: x) r0 = receipt_decodeTyped (ty :: x) r0) as HU.
    { intros ty x r0 H. unfold receipt_UnmarshalBinary. by rewrite (proj2 (Z.ltb_ge _ _)) by lia. }
    unfold receipt_decodeTyped in HU. change LegacyTxType with 0 in Ht. split; intros [H1 H2] r0.
    + rewrite HU by lia. rewrite Eb at 1. cbv iota.
      assert (Receipt.Type_ r = 1 \/ Receipt.Type_ r = 2 \/ Receipt.Type_ r = 3 \/ Receipt.Type_ r = 4) as [Ht'|[Ht'|[Ht'|Ht']]] by lia;
        rewrite Ht' in *; exact (D r0).
    + rewrite HU by lia. rewrite Eb at 1. cbv iota.
      rewrite !(proj2 (Z.eqb_neq _ _)); [done|change SetCodeTxType with 4|change BlobTxType with 3|change AccessListTxType with 1|change DynamicFeeTxType with 2]; lia.
Qed.

Definition sample_receipt (ty : Z) (root : list Z) : Receipt.t :=
  Receipt.set_consensus ty root 1 21000 empty_bloom [sample_log] Receipt.zero.

(** A receipt with a status, and one made before Byzantium, with a state root, whose status is lost. *)
Lemma receipt_roundtrip_witness :
  (exists b, receipt_MarshalBinary (sample_receipt 2 []) = Some b
    /\ option_map Receipt.Status (match receipt_UnmarshalBinary b Receipt.zero with Ok r => Some r | Err _ => None end) = Some 1)
  /\ exists b, receipt_MarshalBinary (sample_receipt 0 (replicate 32 7)) = Some b
    /\ option_map Receipt.Status (match receipt_UnmarshalBinary b Receipt.zero with Ok r => Some r | Err _ => None end) = Some 0.
Proof.
  assert (forall ty root, state_ok (sample_receipt ty root) -> receipt_ok (sample_receipt ty root)) as Hok.
  { intros ty root Hs. split; [exact Hs|]. split; [by vm_compute|]. split; [done|]. split; [apply Forall_replicate; by vm_compute|].
    constructor; [|constructor]. cbn. split; [lia|]. split; [repeat constructor; lia|]. split; [|done].
    repeat constructor; unfold is_byte; lia. }
  assert (forall r, receipt_ok r -> len (encode (receipt_item r)) < two64 -> ethereum_type (Receipt.Type_ r) ->
    exists b, receipt_MarshalBinary r = Some b /\
      option_map Receipt.Status (match receipt_UnmarshalBinary b Receipt.zero with Ok r => Some r | Err _ => None end)
      = Some (Receipt.Status (read_into Receipt.zero r))) as W.
  { intros r Hr Hs Ht. destruct (receipt_roundtrip r Hr Hs) as (b & E & H & _). exists b. split; [exact E|]. by rewrite (H Ht). }
  split; apply W; [by apply Hok|by vm_compute|by vm_compute| |by vm_compute|by vm_compute].
  apply Hok. split; [done|]. repeat constructor; by vm_compute.
Defined.

Lemma derive_order_witness : StronglySorted lex_lt (map fst (DeriveSha_updates (replicate 200 [1]))).
Proof. apply (derive_order (replicate 200 [1])). by vm_compute. Defined.
