(* ===== verification/StateProcessor.v ===== *)
(** Blocks of transactions: [core/state_processor.go], with the deposit requests of
    [core/types/deposit.go].

    One EVM and one gas pool go through the block.  What the hook of the chain says about a
    gas price, the hook that an Arbitrum chain installs
    for a message and its receipt hook, the trie root of a state without the Byzantium rules
    and the last step of the consensus engine are parameters, class [BlockEnv]; tracers,
    access events and the Verkle rules are left out. *)

From stdpp Require Import base gmap list numbers option strings.
From S2P Require Import State.
From S2P Require Import Prelude Params Uint256 ChainConfig MultiGas VmCore Header Evm Instructions Interpreter.
From S2P Require Import Consensus TxTypes TxGas StateTransition Bloom Transaction Signers Messages Receipts.
Open Scope Z_scope.
Open Scope go_scope.

Class BlockEnv {TH : TxProcessingHook} := {
  hook_GasPriceOp : Z -> EVM -> Z * EVM;
  ReadyEVMForL2 : hook -> EVM -> Message -> hook;
  FillReceiptInfo : hook -> Receipt.t -> Receipt.t;
  ExposeMultiGas : bool;
  IntermediateRoot : bool -> StateDB -> Z * StateDB;
  engine_Finalize : Header -> StateDB -> StateDB
}.
Arguments BlockEnv : clear implicits.

Inductive processError :=
| ErrMessage (e : txError)
| ErrApply (e : TxError.t)
| ErrFiltered
| ErrDepositLength (have : Z)
| ErrSystemCall (e : vmError).

(** What a block threads through its transactions. *)
Record BlockState {TH : TxProcessingHook} := mkBlockState {
  bs_gp : Z;
  bs_evm : EVM;
  bs_hook : hook;
  bs_usedGas : Z
}.
Arguments BlockState : clear implicits.

Record ProcessResult := mkProcessResult {
  pr_Receipts : list Receipt.t;
  pr_Requests : option (list (list Z));
  pr_Logs : list Log;
  pr_GasUsed : Z
}.

(** ** Deposit requests *)

Definition slice_of (data : list Z) (from n : nat) : list Z := take n (drop from data).

(** The five values of the event, each after its length; the numbers are the positions
    the code adds up. *)
Definition DepositLogToRequest (data : list Z) : result processError (list Z) :=
  if negb (Z.of_nat (length data) =? 576) then Err (ErrDepositLength (Z.of_nat (length data)))
  else
    let b := (32 * 5 + 32)%nat in
    let pubkey := slice_of data b 48 in
    let b := (b + 48 + 16 + 32)%nat in
    let withdrawalCred := slice_of data b 32 in
    let b := (b + 32 + 32)%nat in
    let amount := slice_of data b 8 in
    let b := (b + 8 + 24 + 32)%nat in
    let signature := slice_of data b 96 in
    let b := (b + 96 + 32)%nat in
    let index := slice_of data b 8 in
    Ok (pubkey ++ withdrawalCred ++ amount ++ signature ++ index).

Definition depositTopic : Z := 0x649bbc62d0e31342afea4e5cd82d4049e7e1ee912fc0889aa790803be39038c5.

Definition is_deposit (config : ChainConfig) (log : Log) : bool :=
  (LogAddress log =? DepositContractAddress config)
  && match Topics log with t :: _ => t =? depositTopic | [] => false end.

Fixpoint deposits_of (config : ChainConfig) (logs : list Log) (deposits : list Z) : result processError (list Z) :=
  match logs with
  | [] => Ok deposits
  | log :: logs =>
      if is_deposit config log then
        let! request := DepositLogToRequest (LogData log) in
        deposits_of config logs (deposits ++ request)
      else deposits_of config logs deposits
  end.

(** The first byte is the type of the request. *)
Definition ParseDepositLogs (requests : list (list Z)) (logs : list Log) (config : ChainConfig)
  : result processError (list (list Z)) :=
  let! deposits := deposits_of config logs [0] in
  Ok (if (1 <? length deposits)%nat then requests ++ [deposits] else requests).


Section Process.
Context {U : U256.Ops} {HS : Hasher} {R : Reader} {CH : Chain} {EN : Env} {PC : Precompiles} {TE : TxEnv}
  {C : Crypto} {TH : TxProcessingHook} {BE : BlockEnv TH}.

(** [evm.SetTxContext(NewEVMTxContext(msg))] *)
Definition tx_env (m : Message) : Env := {|
  ChainID := ChainID; Coinbase := Coinbase; Instructions.GasLimit := Instructions.GasLimit;
  ctx_BlockNumber := ctx_BlockNumber; Instructions.Time := Instructions.Time;
  Instructions.Difficulty := Instructions.Difficulty; Instructions.BaseFee := Instructions.BaseFee;
  BlobBaseFee := BlobBaseFee; Random := Random;
  Origin := msg_From m; Instructions.BlobHashes := default [] (msg_BlobHashes m);
  EnablePreimageRecording := EnablePreimageRecording; GasPriceOp := hook_GasPriceOp (GasPrice m); L1BlockNumber := L1BlockNumber;
  L1BlockHash := L1BlockHash; ExecuteWASM := ExecuteWASM
|}.

Definition with_gp (v : Z) (b : BlockState TH) := mkBlockState TH v (bs_evm b) (bs_hook b) (bs_usedGas b).
Definition with_evm (v : EVM) (b : BlockState TH) := mkBlockState TH (bs_gp b) v (bs_hook b) (bs_usedGas b).
Definition with_usedGas (v : Z) (b : BlockState TH) := mkBlockState TH (bs_gp b) (bs_evm b) (bs_hook b) v.
Definition on_db (f : StateDB -> StateDB) (b : BlockState TH) := with_evm (set_StateDB (f (evm_StateDB (bs_evm b))) (bs_evm b)) b.

(** ** One transaction *)

Definition MakeReceipt (r : ExecutionResult) (blockNumber blockHash blockTime : Z) (tx : Transaction) (usedGas : Z)
    (root : list Z) (b : BlockState TH) : Receipt.t * BlockState TH :=
  let d := inner tx in
  let txHash := fst (Hash tx) in
  let db := evm_StateDB (bs_evm b) in
  let '(ls, db) := GetLogs txHash blockNumber blockHash blockTime db in
  let b := on_db (fun _ => db) b in
  let receipt := Receipt.mk 0 (if ExposeMultiGas then res_UsedMultiGas r else ZeroGas) (txType d) root
    (if Failed r then ReceiptStatusFailed else ReceiptStatusSuccessful) usedGas (CreateBloom ls) ls txHash
    (default 0 (TopLevelDeployed r)) (UsedGas r) None
    (if txType d =? BlobTxType then u64 (Z.of_nat (length (default [] (BlobHashes d))) * BlobTxBlobGasPerBlob) else 0)
    (if txType d =? BlobTxType then Some BlobBaseFee else None)
    blockHash (Some blockNumber) (txIndex db) in
  (FillReceiptInfo (bs_hook b) receipt, b).

(** The filter of the caller, if any, says which results are errors. *)
Definition ApplyTransactionWithEVM (fuel : nat) (m : Message) (tx : Transaction) (blockNumber blockHash blockTime : Z)
    (resultFilter : option (ExecutionResult -> bool)) (b : BlockState TH)
  : run (result processError (Receipt.t * ExecutionResult) * BlockState TH) :=
  match ApplyMessage (EN := tx_env m) fuel (bs_evm b) (ReadyEVMForL2 (bs_hook b) (bs_evm b) m) m (bs_gp b) with
  | Panics => Panics
  | NoFuel => NoFuel
  | Done (r, st) =>
      let b := mkBlockState TH (gp st) (st_evm st) (st_hook st) (bs_usedGas b) in
      match r with
      | Err e => Done (Err (ErrApply e), b)
      | Ok r =>
          if match resultFilter with Some f => f r | None => false end then Done (Err ErrFiltered, b)
          else
            let '(root, b) :=
              if Config.IsByzantium config (Some blockNumber) then ([], on_db (Finalise true) b)
              else
                let '(root, db) := IntermediateRoot (Config.IsEIP158 config (Some blockNumber)) (evm_StateDB (bs_evm b)) in
                (U256.be_bytes 32 root, on_db (fun _ => db) b) in
            let b := with_usedGas (u64 (bs_usedGas b + UsedGas r)) b in
            let '(receipt, b) := MakeReceipt r blockNumber blockHash blockTime tx (bs_usedGas b) root b in
            Done (Ok (receipt, r), b)
      end
  end.

(** [ApplyTransactionWithResultFilter]; [ApplyTransaction] has no filter. *)
Definition ApplyTransactionWithResultFilter (fuel : nat) (header : Header) (blockHash : Z) (tx : Transaction)
    (runCtx : MessageRunContext) (resultFilter : option (ExecutionResult -> bool)) (b : BlockState TH)
  : run (result processError (Receipt.t * ExecutionResult) * BlockState TH) :=
  let signer := MakeSigner config (Some (Number header)) (Header.Time header) ctx_ArbOSVersion in
  let '(m, err, tx) := TransactionToMessage tx signer (Header.BaseFee header) runCtx in
  match err with
  | Some e => Done (Err (ErrMessage e), b)
  | None => ApplyTransactionWithEVM fuel m tx (Number header) blockHash (Header.Time header) resultFilter b
  end.

Definition ApplyTransaction (fuel : nat) (header : Header) (blockHash : Z) (tx : Transaction) (b : BlockState TH) :=
  ApplyTransactionWithResultFilter fuel header blockHash tx NewMessageReplayContext None b.

(** The loop of [Process], from the transaction with the index [i] on. *)
Fixpoint process_txs (fuel : nat) (signer : Signer) (header : Header) (blockHash : Z) (i : Z) (txs : list Transaction)
    (b : BlockState TH) : run (result processError (list Receipt.t) * BlockState TH) :=
  match txs with
  | [] => Done (Ok [], b)
  | tx :: txs =>
      let '(m, err, tx) := TransactionToMessage tx signer (Header.BaseFee header) NewMessageReplayContext in
      match err with
      | Some e => Done (Err (ErrMessage e), b)
      | None =>
          let b := on_db (SetTxContext (fst (Hash tx)) i) b in
          match ApplyTransactionWithEVM fuel m tx (Number header) blockHash (Instructions.Time) None b with
          | Panics => Panics
          | NoFuel => NoFuel
          | Done (Err e, b) => Done (Err e, b)
          | Done (Ok (receipt, _), b) =>
              match process_txs fuel signer header blockHash (i + 1) txs b with
              | Done (Ok receipts, b) => Done (Ok (receipt :: receipts), b)
              | x => x
              end
          end
      end
  end.

(** ** System calls *)

(** A call of the system address, with its own gas. *)
Definition system_call (fuel : nat) (addr : Z) (data : list Z) (b : BlockState TH)
  : run (call_result * BlockState TH) :=
  let m := mkMessage (mkMessageRunContext messageCommitMode 0 []) (Some addr) SystemAddress 0 0 30000000 0 (Some 0) (Some 0)
    data None None None None false false false in
  let b := on_db (AddAddressToAccessList addr) b in
  match Call (Run (EN := tx_env m) fuel) SystemAddress addr data 30000000 0 (bs_evm b) with
  | Panics => Panics
  | NoFuel => NoFuel
  | Done (r, e) => Done (r, with_evm e b)
  end.

Definition ProcessBeaconBlockRoot (fuel : nat) (beaconRoot : Z) (b : BlockState TH) : run (BlockState TH) :=
  match system_call fuel BeaconRootsAddress (U256.be_bytes 32 beaconRoot) b with
  | Done (_, b) => Done (on_db (Finalise true) b)
  | Panics => Panics
  | NoFuel => NoFuel
  end.

(** An error panics. *)
Definition ProcessParentBlockHash (fuel : nat) (prevHash : Z) (b : BlockState TH) : run (BlockState TH) :=
  match system_call fuel HistoryStorageAddress (U256.be_bytes 32 prevHash) b with
  | Done (r, b) => match cr_err r with Some _ => Panics | None => Done (on_db (Finalise true) b) end
  | Panics => Panics
  | NoFuel => NoFuel
  end.

Definition processRequestsSystemCall (fuel : nat) (requests : list (list Z)) (requestType addr : Z) (b : BlockState TH)
  : run (result processError (list (list Z)) * BlockState TH) :=
  match system_call fuel addr [] b with
  | Panics => Panics
  | NoFuel => NoFuel
  | Done (r, b) =>
      let b := on_db (Finalise true) b in
      match cr_err r with
      | Some e => Done (Err (ErrSystemCall e), b)
      | None =>
          match cr_ret r with
          | [] => Done (Ok requests, b)
          | ret => Done (Ok (requests ++ [requestType :: ret]), b)
          end
      end
  end.

Definition ProcessWithdrawalQueue (fuel : nat) (requests : list (list Z)) := processRequestsSystemCall fuel requests 0x01 WithdrawalQueueAddress.
Definition ProcessConsolidationQueue (fuel : nat) (requests : list (list Z)) := processRequestsSystemCall fuel requests 0x02 ConsolidationQueueAddress.

(** ** The block *)

Definition run_bind {A B} (m : run A) (k : A -> run B) : run B :=
  match m with Done a => k a | Panics => Panics | NoFuel => NoFuel end.

(** The calls before the transactions. *)
Definition process_start (fuel : nat) (header : Header) (b : BlockState TH) : run (BlockState TH) :=
  let number := Some (Number header) in
  let b := if DAOForkSupport config && bool_decide (DAOForkBlock config = number) then on_db ApplyDAOHardFork b else b in
  run_bind (match ParentBeaconRoot header with Some root => ProcessBeaconBlockRoot fuel root b | None => Done b end) (fun b =>
  if negb (Config.IsArbitrum config)
     && (Config.IsPrague config number (Header.Time header) ctx_ArbOSVersion || Config.IsVerkle config number (Header.Time header))
  then ProcessParentBlockHash fuel (ParentHash header) b else Done b).

(** The requests after them; [None] before Prague and on Arbitrum. *)
Definition process_requests (fuel : nat) (header : Header) (logs : list Log) (b : BlockState TH)
  : run (result processError (option (list (list Z))) * BlockState TH) :=
  if negb (Config.IsArbitrum config) && Config.IsPrague config (Some (Number header)) (Header.Time header) ctx_ArbOSVersion then
    match ParseDepositLogs [] logs config with
    | Err e => Done (Err e, b)
    | Ok requests =>
        run_bind (ProcessWithdrawalQueue fuel requests b) (fun '(r, b) =>
        match r with
        | Err e => Done (Err e, b)
        | Ok requests =>
            run_bind (ProcessConsolidationQueue fuel requests b) (fun '(r, b) =>
            Done (match r with Ok requests => Ok (Some requests) | Err e => Err e end, b))
        end)
    end
  else Done (Ok None, b).

(** [Process] of a block with its hash, for a fresh EVM. *)
Definition Process (fuel : nat) (header : Header) (blockHash : Z) (txs : list Transaction) (e : EVM) (h : hook)
  : run (result processError ProcessResult * BlockState TH) :=
  let b := mkBlockState TH (Header.GasLimit header) e h 0 in
  let signer := MakeSigner config (Some (Number header)) (Header.Time header) ctx_ArbOSVersion in
  run_bind (process_start fuel header b) (fun b =>
  run_bind (process_txs fuel signer header blockHash 0 txs b) (fun '(r, b) =>
  match r with
  | Err e => Done (Err e, b)
  | Ok receipts =>
      let logs := concat (map Receipt.Logs receipts) in
      run_bind (process_requests fuel header logs b) (fun '(r, b) =>
      match r with
      | Err e => Done (Err e, b)
      | Ok requests =>
          let b := on_db (engine_Finalize header) b in
          Done (Ok (mkProcessResult receipts requests logs (bs_usedGas b)), b)
      end)
  end)).

End Process.
