(* ===== verification/BlockGas.v ===== *)
(** Gas in a block: the processor returns, and the receipts, the pool and the gas used of
    the block agree. *)

From stdpp Require Import base gmap list numbers option strings.
From S2P Require Import State.
From S2P Require Import Prelude Params Uint256 ChainConfig ChainPresets MultiGas VmCore AccessList Header Evm Instructions Interpreter.
From S2P Require Import GasAccounting GasConservation GasRun GasTheorems TxTypes TxGas StateTransition StateTransitionGas.
From S2P Require Import Consensus Bloom Transaction Signers SignerTheorems Messages Receipts StateProcessor.
Open Scope Z_scope.

(** The receipt hook of the chain fills in the gas for the parent chain, and nothing else. *)
Class BlockLaws {TH : TxProcessingHook} {BE : BlockEnv TH} : Prop :=
  bl_receipt h r : exists v, FillReceiptInfo h r = Receipt.set_GasUsedForL1 v r.
Arguments BlockLaws : clear implicits.

Lemma run_bind_terminates {A B} (m : run A) (k : A -> run B) (P : A -> Prop) (Q : B -> Prop) :
  terminates_with P m -> (forall a, P a -> terminates_with Q (k a)) -> terminates_with Q (run_bind m k).
Proof. destruct m; simpl; auto. Qed.

(** The sums of the first elements of a list, each added to [n]. *)
Fixpoint running (n : Z) (l : list Z) : list Z :=
  match l with [] => [] | x :: l => n + x :: running (n + x) l end.

Lemma running_map_u64 l : forall n m, u64 n = u64 m -> map u64 (running n l) = map u64 (running m l).
Proof.
  induction l as [|x l IH]; intros n m E; [done|]. simpl.
  assert (u64 (n + x) = u64 (m + x)) as Ex by (revert E; unfold_u64; intros E; rewrite (Z.add_mod n), E, <- Z.add_mod; lia).
  f_equal; [done|by apply IH].
Qed.

Lemma running_exact l : forall n, 0 <= n -> Forall (fun x => 0 <= x) l -> n + sumZ l < two64 ->
  map u64 (running n l) = running n l.
Proof.
  induction l as [|x l IH]; intros n Hn Hl Hs; [done|]. inversion Hl as [|? ? Hx Hl']; subst. simpl.
  change (sumZ (x :: l)) with (x + sumZ l) in Hs. pose proof (sumZ_nonneg l Hl').
  f_equal; [apply u64_small; unfold is_u64; lia|apply IH; done || lia].
Qed.

Section Block.
Context {U : U256.Ops} {L : U256.Laws U} {HS : Hasher} {R : Reader} {CH : Chain} {EN : Env}
  {PC : Precompiles} {GH : GasHooks} {TE : TxEnv} {C : Crypto} {TH : TxProcessingHook} {BE : BlockEnv TH}
  {HL : HookLaws TH} {BL : BlockLaws TH BE}.
Context (no_verkle : IsEIP4762 chainRules = false).

#[local] Instance tx_env_hooks m : GasHooks (EN := tx_env m).
Proof. destruct GH. by split. Qed.

(** Executed by the signer of the block, the message of [tx] ended ([ends]) or not when it
    started; if it did, [used] is what the hook billed. *)
Definition ended_by_hook (signer : Signer) (baseFee : option Z) (tx : Transaction) (ends : bool) (used : Z) : Prop :=
  exists e h pool,
    let m := fst (fst (TransactionToMessage tx signer baseFee NewMessageReplayContext)) in
    let s := newStateTransition e (ReadyEVMForL2 h e m) m pool in
    ends = ends_at_start s /\ (ends = true -> used = SingleGas (start_gas s)).

(** What the receipt of a transaction says of it. *)
Record receipt_of (signer : Signer) (baseFee : option Z) (tx : Transaction) (ends : bool) (r : Receipt.t) : Prop := {
  ro_ended : ended_by_hook signer baseFee tx ends (Receipt.GasUsed r);
  ro_gas : if ends then is_u64 (Receipt.GasUsed r) else 0 <= Receipt.GasUsed r <= gas (inner tx);
  ro_bloom : Receipt.Bloom r = CreateBloom (Receipt.Logs r);
  ro_hash : Receipt.TxHash r = computed_hash (inner tx);
  ro_type : Receipt.Type_ r = txType (inner tx)
}.

(** What a transaction takes from the pool of the block. *)
Definition charge (ends : bool) (r : Receipt.t) : Z := if ends then 0 else Receipt.GasUsed r.
Definition charges (ended : list bool) (rs : list Receipt.t) : Z := sumZ (zip_with charge ended rs).

(** The receipts of the transactions of a block, one for each, and which of them the hook ended. *)
Inductive receipts_of (signer : Signer) (baseFee : option Z) :
    list Transaction -> list bool -> list Receipt.t -> Prop :=
| receipts_nil : receipts_of signer baseFee [] [] []
| receipts_cons tx txs ends ended r rs :
    receipt_of signer baseFee tx ends r -> receipts_of signer baseFee txs ended rs ->
    receipts_of signer baseFee (tx :: txs) (ends :: ended) (r :: rs).

(** The pool never gets above what it was, and the gas used is a uint64. *)
Definition pool_ok (limit : Z) (b : BlockState TH) : Prop := 0 <= bs_gp b <= limit /\ is_u64 (bs_usedGas b).

Definition runnable (fuel : nat) (tx : Transaction) : Prop :=
  tx_history tx /\ 0 <= gas (inner tx) < gas_limit /\ gas (inner tx) < Z.of_nat fuel.

Lemma MakeReceipt_spec r bn bh bt tx used root (b : BlockState TH) : caches_ok tx ->
  let '(receipt, b') := MakeReceipt r bn bh bt tx used root b in
  bs_gp b' = bs_gp b /\ bs_usedGas b' = bs_usedGas b
  /\ Receipt.CumulativeGasUsed receipt = used /\ Receipt.GasUsed receipt = UsedGas r
  /\ Receipt.Bloom receipt = CreateBloom (Receipt.Logs receipt)
  /\ Receipt.TxHash receipt = computed_hash (inner tx) /\ Receipt.Type_ receipt = txType (inner tx).
Proof.
  intros Hc. unfold MakeReceipt. destruct (GetLogs _ _ _ _ _) as [ls db].
  destruct (bl_receipt (BlockLaws := BL) (bs_hook (on_db (fun _ => db) b))
    (Receipt.mk 0 (if ExposeMultiGas then res_UsedMultiGas r else ZeroGas) (txType (inner tx)) root
    (if Failed r then ReceiptStatusFailed else ReceiptStatusSuccessful) used (CreateBloom ls) ls (fst (Hash tx))
    (default 0 (TopLevelDeployed r)) (UsedGas r) None
    (if txType (inner tx) =? BlobTxType then u64 (Z.of_nat (length (default [] (BlobHashes (inner tx)))) * BlobTxBlobGasPerBlob) else 0)
    (if txType (inner tx) =? BlobTxType then Some BlobBaseFee else None)
    bh (Some bn) (txIndex db))) as [v Ev].
  rewrite Ev. repeat split. exact (proj1 (Hash_ok tx Hc)).
Qed.

Lemma transaction_gas fuel signer baseFee m tx0 tx bn bh bt limit b :
  fst (fst (TransactionToMessage tx0 signer baseFee NewMessageReplayContext)) = m -> inner tx = inner tx0 ->
  caches_ok tx -> msg_GasLimit m = gas (inner tx) -> 0 <= gas (inner tx) < gas_limit -> gas (inner tx) < Z.of_nat fuel ->
  is_u64 limit -> pool_ok limit b ->
  terminates_with (fun x => match x with
    | (Ok (r, _), b') => pool_ok limit b' /\ bs_usedGas b' = Receipt.CumulativeGasUsed r
        /\ Receipt.CumulativeGasUsed r = u64 (bs_usedGas b + Receipt.GasUsed r)
        /\ exists ends, receipt_of signer baseFee tx0 ends r /\ bs_gp b' + charge ends r = bs_gp b
    | (Err _, _) => True
    end) (ApplyTransactionWithEVM fuel m tx bn bh bt None b).
Proof.
  intros Em Ein Hc Hm Hg Hf Hl (H0 & H1). unfold ApplyTransactionWithEVM.
  set (s := newStateTransition (bs_evm b) (ReadyEVMForL2 (bs_hook b) (bs_evm b) m) m (bs_gp b)).
  pose proof (execute_spec (EN := tx_env m) no_verkle fuel s) as H. cbv zeta in H.
  change (msg_GasLimit (msg s)) with (msg_GasLimit m) in H. rewrite Hm in H.
  specialize (H Hg Hf). unfold wp, ApplyMessage in *.
  change (newStateTransition _ _ m (bs_gp b)) with s.
  assert (is_u64 (gp s)) as Hgp by (change (gp s) with (bs_gp b); unfold is_u64 in *; lia). specialize (H Hgp).
  destruct (execute _ s) as [[[r|] s']| |]; [|done..].
  match goal with |- terminates_with _ (let '(_, _) := ?x in _) => assert (bs_gp x.2 = gp s' /\ bs_usedGas x.2 = bs_usedGas b) as [E1 E2] end.
  { destruct (Config.IsByzantium _ _); [done|]. by destruct (IntermediateRoot _ _). }
  destruct (if Config.IsByzantium config (Some bn) then _ else _) as [root b0]. simpl in E1, E2.
  pose proof (MakeReceipt_spec r bn bh bt tx (u64 (bs_usedGas b0 + UsedGas r)) root
    (with_usedGas (u64 (bs_usedGas b0 + UsedGas r)) b0) Hc) as Hm'.
  change (bs_usedGas (with_usedGas _ b0)) with (u64 (bs_usedGas b0 + UsedGas r)) in *.
  destruct (MakeReceipt _ _ _ _ _ _ _ _) as [receipt b1]. destruct Hm' as (G1 & G2 & G3 & G4 & G5 & G6 & G7).
  change (bs_gp (with_usedGas _ b0)) with (bs_gp b0) in G1. rewrite E2 in *. rewrite Ein in *.
  assert (ended_by_hook signer baseFee tx0 (ends_at_start s)
    (if ends_at_start s then SingleGas (start_gas s) else UsedGas r)) as He.
  { exists (bs_evm b), (bs_hook b), (bs_gp b). rewrite Em. fold s. split; [done|]. by intros ->. }
  unfold transition_settled in H. cbn [terminates_with]. unfold pool_ok. rewrite G1, G2, G3, G4, E1.
  destruct (ends_at_start s) eqn:Es.
  - destruct H as (_ & Hu & Hp). change (gp s) with (bs_gp b) in Hp. rewrite Hp.
    split; [split; [done|apply u64_range]|]. split; [done|]. split; [done|]. exists true. split; [|simpl; lia].
    split; rewrite ?G4, ?Hu; try done. apply u64_range.
  - destruct H as [[Hu0 Hu] _ Hp _ _ _ _ Hr]. change (gp s) with (bs_gp b) in *. change (msg s) with m in *. rewrite ?Hm in *. rewrite Hp.
    split; [split; [lia|apply u64_range]|]. split; [done|]. split; [done|]. exists false.
    split; [split; rewrite ?G4; try done; simpl; lia|]. simpl. rewrite G4. lia.
Qed.

Lemma TransactionToMessage_gas tx s baseFee ctx : caches_ok tx ->
  let '(m, _, tx') := TransactionToMessage tx s baseFee ctx in
  msg_GasLimit m = gas (inner tx) /\ caches_ok tx' /\ inner tx' = inner tx.
Proof.
  intros Hc. unfold TransactionToMessage. pose proof (Sender_ok s tx Hc) as (_ & H1 & H2).
  by destruct (Sender s tx) as [sender tx'].
Qed.

(** What the transactions of a block, started with [b], did to it. *)
Definition txs_done (signer : Signer) (baseFee : option Z) (txs : list Transaction) (rs : list Receipt.t)
    (b b' : BlockState TH) : Prop :=
  exists ended, receipts_of signer baseFee txs ended rs
    /\ bs_gp b' + charges ended rs = bs_gp b
    /\ map Receipt.CumulativeGasUsed rs = map u64 (running (bs_usedGas b) (map Receipt.GasUsed rs))
    /\ bs_usedGas b' = u64 (bs_usedGas b + sumZ (map Receipt.GasUsed rs)).

Lemma process_txs_gas fuel signer header bh limit txs : is_u64 limit -> Forall (runnable fuel) txs ->
  forall i b, pool_ok limit b ->
  terminates_with (fun x => match x with
    | (Ok rs, b') => pool_ok limit b' /\ txs_done signer (Header.BaseFee header) txs rs b b'
    | (Err _, _) => True
    end) (process_txs fuel signer header bh i txs b).
Proof.
  intros Hl Hr. induction Hr as [|tx txs (Hc%history_caches_ok & Hg & Hf) _ IH]; intros i b Hb.
  { simpl. split; [done|]. exists []. split; [constructor|]. change (sumZ []) with 0. rewrite !Z.add_0_r.
    split; [done|]. split; [done|]. symmetry. apply u64_small, Hb. }
  cbn [process_txs]. pose proof (TransactionToMessage_gas tx signer (Header.BaseFee header) NewMessageReplayContext Hc) as Hm.
  destruct (TransactionToMessage _ _ _ _) as [[m [e|]] tx'] eqn:Em; [done|]. destruct Hm as (Hm & Hc' & Ei).
  pose proof (transaction_gas fuel signer (Header.BaseFee header) m tx tx' (Number header) bh Instructions.Time limit
    (on_db (SetTxContext (fst (Hash tx')) i) b)) as H. rewrite Em, Ei in H. specialize (H eq_refl eq_refl Hc' Hm Hg Hf Hl Hb).
  change (bs_usedGas (on_db _ b)) with (bs_usedGas b) in H. change (bs_gp (on_db _ b)) with (bs_gp b) in H.
  destruct (ApplyTransactionWithEVM _ _ _ _ _ _ _ _) as [[[[r ?]|] b1]| |]; [|done..].
  destruct H as (Hb1 & E1 & Ec & ends & Hro & Hp). specialize (IH (i + 1) b1 Hb1).
  destruct (process_txs _ _ _ _ _ _ _) as [[[rs|] b2]| |]; [|done..]. simpl in *.
  destruct IH as (Hb2 & ended & Hrs & Hp2 & Hcum & Hused). split; [done|]. exists (ends :: ended).
  split; [by constructor|]. unfold charges in *. cbn [zip_with map running].
  change (sumZ (?x :: ?l)) with (x + sumZ l). rewrite E1, Ec in *. split; [lia|]. split.
  - f_equal. rewrite Hcum. apply running_map_u64. unfold_u64. by rewrite Z.mod_mod.
  - rewrite Hused. unfold_u64. rewrite Zplus_mod_idemp_l. f_equal. lia.
Qed.

(** ** System calls *)

Definition calls_before (header : Header) : bool :=
  bool_decide (is_Some (ParentBeaconRoot header))
  || negb (Config.IsArbitrum config)
     && (Config.IsPrague config (Some (Number header)) (Header.Time header) ctx_ArbOSVersion
         || Config.IsVerkle config (Some (Number header)) (Header.Time header)).
Definition calls_after (header : Header) : bool :=
  negb (Config.IsArbitrum config) && Config.IsPrague config (Some (Number header)) (Header.Time header) ctx_ArbOSVersion.

(** The gas of a system call of the block, if there is one. *)
Definition system_gas (header : Header) : Z := if calls_before header || calls_after header then 30000000 else -1.

(** The pool and the gas used are left alone. *)
Definition same_pool (b b' : BlockState TH) : Prop := bs_gp b' = bs_gp b /\ bs_usedGas b' = bs_usedGas b.

Lemma same_pool_trans b1 b2 b3 : same_pool b1 b2 -> same_pool b2 b3 -> same_pool b1 b3.
Proof. unfold same_pool. intros [-> ->] [-> ->]. done. Qed.

Lemma same_pool_ok limit b b' : same_pool b b' -> pool_ok limit b -> pool_ok limit b'.
Proof. unfold pool_ok. by intros [-> ->]. Qed.

Lemma system_call_ends fuel addr data b : 30000000 < Z.of_nat fuel ->
  terminates_with (fun x => same_pool b x.2) (system_call fuel addr data b).
Proof.
  intros Hf. unfold system_call.
  match goal with |- context [tx_env ?m] =>
    pose proof (calls_below (EN := tx_env m) fuel 30000000 no_verkle ltac:(unfold gas_limit; lia) Hf) as Hok end.
  pose proof (ok_Call _ _ Hok SystemAddress addr data 30000000 0
    (bs_evm (on_db (AddAddressToAccessList addr) b)) ltac:(lia)) as H.
  unfold calls_of, c_Call in H.
  destruct (Call _ _ _ _ _ _ _) as [[r e]| |]; done.
Qed.

Lemma process_start_gas fuel header b : system_gas header < Z.of_nat fuel ->
  terminates_with (same_pool b) (process_start fuel header b).
Proof.
  intros Hf. unfold process_start. unfold system_gas in Hf.
  assert (calls_before header = true -> 30000000 < Z.of_nat fuel) as Hf' by (intros E; by rewrite E in Hf).
  unfold calls_before in Hf'.
  set (b0 := if _ && _ then _ else b).
  assert (same_pool b b0) as H0 by (by subst b0; destruct (DAOForkSupport _ && _)).
  clearbody b0. apply (run_bind_terminates _ _ (same_pool b)).
  { destruct (ParentBeaconRoot header) as [root|]; [|done]. unfold ProcessBeaconBlockRoot.
    pose proof (system_call_ends fuel BeaconRootsAddress (U256.be_bytes 32 root) b0 (Hf' eq_refl)) as H.
    destruct (system_call _ _ _ _) as [[? b1]| |]; [|done..]. by eapply same_pool_trans. }
  intros b1 H1. destruct (_ && _); [|done]. specialize (Hf' (orb_true_r _)). unfold ProcessParentBlockHash.
  pose proof (system_call_ends fuel HistoryStorageAddress (U256.be_bytes 32 (ParentHash header)) b1 Hf') as H.
  destruct (system_call _ _ _ _) as [[r b2]| |]; [|done..]. destruct (cr_err r); [done|].
  by eapply same_pool_trans.
Qed.

Lemma requests_call_gas fuel requests ty addr b : 30000000 < Z.of_nat fuel ->
  terminates_with (fun x => same_pool b x.2) (processRequestsSystemCall fuel requests ty addr b).
Proof.
  intros Hf. unfold processRequestsSystemCall. pose proof (system_call_ends fuel addr [] b Hf) as H.
  destruct (system_call _ _ _ _) as [[r b1]| |]; [|done..]. destruct (cr_err r); [|destruct (cr_ret r)]; exact H.
Qed.

Lemma process_requests_gas fuel header logs b : system_gas header < Z.of_nat fuel ->
  terminates_with (fun x => same_pool b x.2) (process_requests fuel header logs b).
Proof.
  intros Hf. unfold process_requests. unfold system_gas, calls_after in Hf.
  destruct (_ && _); [|done]. rewrite orb_true_r in Hf. destruct (ParseDepositLogs _ _ _) as [reqs|]; [|done].
  eapply run_bind_terminates; [by apply requests_call_gas|]. intros [[reqs'|] b1] H1; [|done].
  eapply run_bind_terminates; [by apply requests_call_gas|]. intros [r b2] H2. by eapply same_pool_trans.
Qed.

(** The signer of the transactions of a block. *)
Definition block_signer (header : Header) : Signer :=
  MakeSigner config (Some (Number header)) (Header.Time header) ctx_ArbOSVersion.

(** What a block that was processed says of its gas, and what it [left] in its pool. *)
Record gas_adds_up (header : Header) (txs : list Transaction) (ended : list bool) (r : ProcessResult) (left : Z) : Prop := {
  ga_receipts : receipts_of (block_signer header) (Header.BaseFee header) txs ended (pr_Receipts r);
  ga_cumulative : map Receipt.CumulativeGasUsed (pr_Receipts r) = map u64 (running 0 (map Receipt.GasUsed (pr_Receipts r)));
  ga_used : pr_GasUsed r = u64 (sumZ (map Receipt.GasUsed (pr_Receipts r)));
  ga_pool : charges ended (pr_Receipts r) + left = Header.GasLimit header;
  ga_left : 0 <= left <= Header.GasLimit header;
  ga_plain : Forall (eq false) ended ->
    map Receipt.CumulativeGasUsed (pr_Receipts r) = running 0 (map Receipt.GasUsed (pr_Receipts r))
    /\ pr_GasUsed r = sumZ (map Receipt.GasUsed (pr_Receipts r)) /\ pr_GasUsed r + left = Header.GasLimit header
}.

(** Without transactions that the hook ends, the charges are the gas of the receipts. *)
Lemma charges_plain signer baseFee txs ended rs : receipts_of signer baseFee txs ended rs -> Forall (eq false) ended ->
  charges ended rs = sumZ (map Receipt.GasUsed rs) /\ Forall (fun x => 0 <= x) (map Receipt.GasUsed rs).
Proof.
  intros H. induction H as [|tx txs ends ended r rs Hr _ IH]; intros He; [by split|].
  inversion He as [|? ? <- He']; subst. destruct (IH He') as [E F]. destruct Hr as [_ Hg _ _ _].
  unfold charges in *. cbn [zip_with map charge]. change (sumZ (?x :: ?l)) with (x + sumZ l).
  split; [lia|constructor; [lia|done]].
Qed.

Lemma Process_spec fuel header blockHash txs e h :
  is_u64 (Header.GasLimit header) -> Forall (runnable fuel) txs -> system_gas header < Z.of_nat fuel ->
  terminates_with (fun x => match x with
    | (Ok r, b) => (exists ended, gas_adds_up header txs ended r (bs_gp b))
        /\ pr_Logs r = concat (map Receipt.Logs (pr_Receipts r))
    | (Err _, _) => True
    end) (Process fuel header blockHash txs e h).
Proof.
  intros Hl Hr Hf. unfold Process. eapply run_bind_terminates; [by apply process_start_gas|].
  intros b1 [E0 E1]. cbn [bs_usedGas bs_gp] in E1, E0.
  assert (pool_ok (Header.GasLimit header) b1) as Hb1 by (unfold pool_ok, is_u64 in *; rewrite E0, E1; lia).
  eapply run_bind_terminates; [by apply process_txs_gas|].
  intros [[rs|] b2]; [|done]. intros (Hb2 & ended & Hrs & Hp & Hcum & Hused). rewrite E0, E1 in *.
  eapply run_bind_terminates; [by apply process_requests_gas|]. intros [[reqs|] b3] [E3 E4]; [|done].
  cbn [terminates_with]. split; [|done]. exists ended. cbn [snd] in *.
  change (bs_gp (on_db _ b3)) with (bs_gp b3). rewrite E3.
  split; cbn [pr_Receipts pr_GasUsed]; change (bs_usedGas (on_db _ b3)) with (bs_usedGas b3); rewrite ?E4; try done; try lia.
  - apply Hb2.
  - intros Hend. destruct (charges_plain _ _ _ _ _ Hrs Hend) as [Ech Hnn]. destruct Hb2 as [Hb2 _]. unfold is_u64 in *.
    rewrite Hcum, Hused, running_exact by (done || lia). rewrite !Z.add_0_l, u64_small by (unfold is_u64; lia).
    split_and!; done || lia.
Qed.

(** C5.  The processing of a block terminates, whatever contracts the block calls and in whatever state it starts, and
    whenever it returns a result, without an error or a Go panic, its gas adds up.  There is one receipt for each
    transaction, in order, with its hash, its type and the bloom of its logs.  A transaction that the hook of the chain
    ended when it started is charged what the hook billed, and nothing to the pool; any other is charged at most its gas
    limit, from the pool.  The cumulative gas of a receipt is the sum of the charges up to it, the gas used by the block
    the sum of all of them, both as uint64; the charges to the pool and what is left in it are the gas limit of the
    block.  So in a block without transactions that the hook ended no sum wraps, and the gas used and what is left in
    the pool are the gas limit.  The fuel is above the gas limits of the transactions, each below 2^31, and the gas of
    the system calls; the chain is without the Verkle rules; its hooks keep [HookLaws], [BlockLaws] and [GasHooks]. *)
Theorem block_gas_adds_up fuel header blockHash txs e h :
  is_u64 (Header.GasLimit header) -> Forall (runnable fuel) txs -> system_gas header < Z.of_nat fuel ->
  terminates_with (fun x => match x with
    | (Ok r, b) => exists ended, gas_adds_up header txs ended r (bs_gp b)
    | (Err _, _) => True
    end) (Process fuel header blockHash txs e h).
Proof.
  intros Hl Hr Hf. pose proof (Process_spec fuel header blockHash txs e h Hl Hr Hf) as H.
  destruct (Process _ _ _ _ _ _) as [[[r|?] b]| |]; [|done..]. apply H.
Qed.
End Block.

(** ** A concrete block

    Account 6 calls account 5 and returns; two transactions of one account call it. *)

Module ToyBlock.
Import ToyMachine.

#[export] Instance TE : TxEnv := {|
  config := TestChainConfig; isMerge := false; ctx_ArbOSVersion := 0; NoBaseFee := false;
  arbitrum_precompiles _ := []
|}.
#[export] Instance CH : Chain := {| chainRules := rules; chainConfig := arbitrum config |}.
#[export] Instance R : Reader := {|
  r_Account a := if (a =? 5) || (a =? 6) then r_Account a else Ok (Some (mkAccount 3 1000000000 7 (keccak256 [])));
  r_Storage := r_Storage; r_Code := r_Code; r_CodeSize := r_CodeSize; db_ActivatedAsm := db_ActivatedAsm;
  LocalTarget := LocalTarget
|}.
#[export] Instance TH : TxProcessingHook := DefaultTxProcessor.
#[export] Instance BE : BlockEnv TH := {|
  hook_GasPriceOp price e := (price, e); ReadyEVMForL2 h _ _ := h; FillReceiptInfo _ r := r; ExposeMultiGas := true;
  IntermediateRoot _ db := (0, db); engine_Finalize _ db := db
|}.
#[export] Instance BL : BlockLaws TH BE.
Proof. intros h []. by eexists. Qed.

(** Every signature is made by one key. *)
#[export] Instance C : Crypto := {| PrivateKey := unit; Sign _ _ := None; Ecrecover _ _ := Some [4; 1]; FromECDSAPub _ := [4; 1] |}.

Definition tx (n : Z) : Transaction :=
  NewTx (DynamicFee (DynamicFeeTx.mk 1 n 0 2 100000 (Some 6) 0 [] [] 0 1 1)).
Definition header : Header :=
  mkHeader 1 0 0 0 0 0 [] 0 7 250000 0 0 [] [] 0 (Some 1) None None None None None.
Definition block (txs : list Transaction) :=
  Process (Z.to_nat 100001) header 77 txs (mkEVM NewWithReader ∅ 0 0 false [] false) tt.
End ToyBlock.

(** The same chain with a hook that, as that of an Arbitrum chain does, runs the messages to
    one address itself and bills them 700. *)
Module HookedBlock.
Import ToyMachine ToyBlock.

#[export] Instance TH : TxProcessingHook := {|
  hook := bool;
  StartTxHook h e := ((h, if h then ComputationGas 700 else ZeroGas, None, []), h, e);
  GasChargingHook gas _ h e := (Ok (Coinbase, ZeroGas), gas, h, e);
  RevertedTxHook gas used h e := ((used, None), gas, h, e);
  HeldGas _ := 0; NonrefundableGas _ := 0; CollectTips _ := true; PosterGas _ := 0;
  IsCalldataPricingIncreaseEnabled _ := true;
  EndTxHook _ _ _ h e := (h, e)
|}.
#[export] Instance HL : HookLaws TH.
Proof.
  split; simpl; [done|..].
  - by intros ????? [= _ <- _].
  - intros ???????? Hg [= <- <- <- _]. split; [done|]. split; [apply zero_gas_ok|].
    change (total ZeroGas) with 0. unfold is_u64 in *. lia.
  - intros ????????? Hg Hu [= <- <- <- <- _]. unfold is_u64 in *. split_and!; done || lia.
Qed.
#[export] Instance BE : BlockEnv TH := {|
  hook_GasPriceOp price e := (price, e); ReadyEVMForL2 _ _ m := bool_decide (msg_To m = Some 0xA4B05);
  FillReceiptInfo _ r := r; ExposeMultiGas := true;
  IntermediateRoot _ db := (0, db); engine_Finalize _ db := db
|}.
#[export] Instance BL : BlockLaws TH BE.
Proof. intros h []. by eexists. Qed.

Definition start_tx : Transaction :=
  NewTx (DynamicFee (DynamicFeeTx.mk 1 0 0 0 0 (Some 0xA4B05) 0 [] [] 0 1 1)).
Definition block (txs : list Transaction) :=
  Process (Z.to_nat 100001) header 77 txs (mkEVM NewWithReader ∅ 0 0 false [] false) false.
End HookedBlock.

Section BlockWitness.
Import ToyMachine ToyBlock HookedBlock.

(** The hook ends the first transaction, and not the second: 700 is billed beside the pool. *)
Lemma block_gas_adds_up_witness : exists r b ended, HookedBlock.block [start_tx; tx 3] = Done (Ok r, b)
  /\ gas_adds_up header [start_tx; tx 3] ended r (bs_gp b)
  /\ map Receipt.CumulativeGasUsed (pr_Receipts r) = [700; 21860]
  /\ pr_GasUsed r = 21860 /\ bs_gp b = 250000 - 21160.
Proof.
  pose proof (block_gas_adds_up (CH := ToyBlock.CH) (R := ToyBlock.R) (TH := HookedBlock.TH) (BE := HookedBlock.BE)
    eq_refl (Z.to_nat 100001) header 77 [start_tx; tx 3]
    (mkEVM NewWithReader ∅ 0 0 false [] false) false ltac:(done)
    ltac:(repeat constructor; by vm_compute) ltac:(by vm_compute)) as H.
  change (Process _ _ _ _ _ _) with (HookedBlock.block [start_tx; tx 3]) in H.
  destruct (HookedBlock.block _) as [[[r|] b]| |] eqn:E; [|vm_compute in E; discriminate E..].
  destruct H as [ended H]. exists r, b, ended. split; [done|]. split; [exact H|].
  vm_compute in E. by injection E as <- <-.
Defined.
End BlockWitness.
