(* ===== verification/BlockValidator.v ===== *)
(** The validation of a block and of its result, and the gas limit of the next one:
    [core/block_validator.go], with the hashes of lists of [core/types].

    The stored blocks, the engine, the hash of a list of headers and the root that a stack
    trie computes from the pairs it is given are parameters. *)

From stdpp Require Import base gmap list numbers option strings.
From S2P Require Import State.
From S2P Require Import Prelude Params Uint256 ChainConfig VmCore Header Evm Instructions Interpreter GasTheorems TxTypes.
From S2P Require Import StateTransition StateTransitionGas Consensus Beacon ConsensusTheorems Rlp RlpCodec Precompiles ModExp.
From S2P Require Import Bloom Transaction Signers SignerTheorems Messages Receipts StateProcessor BlockGas.
Open Scope Z_scope.

(** A block with its transactions; [HasWithdrawals] tells an empty list from none, and
    [Size] is the length of its encoding. *)
Record FullBlock := mkFullBlock {
  base : Block;
  Transactions : list Transaction;
  HasWithdrawals : bool;
  Size : Z
}.

Class ChainStore := {
  HasBlockAndState : Z -> Z -> bool;
  HasBlock : Z -> Z -> bool;
  uncles_hash : list Header -> Z;
  stack_root : list (list Z * list Z) -> Z
}.

Inductive blockError :=
| ErrBlockOversized
| ErrKnownBlock
| ErrUncles (e : headerError)
| ErrUncleRoot
| ErrTransactionRoot
| ErrMissingWithdrawals
| ErrWithdrawalsRoot
| ErrUnexpectedWithdrawals
| ErrUnexpectedSidecar (index : Z)
| ErrBlobGasMismatch
| ErrUnexpectedBlobs
| ErrUnknownParent
| ErrPrunedAncestor
| ErrNilResult
| ErrInvalidGasUsed
| ErrInvalidBloom
| ErrInvalidReceiptRoot
| ErrInvalidRequestsHash
| ErrUnexpectedRequests
| ErrInvalidRoot.

(** [None] is a panic of the engine. *)
Definition validation : Type := option (option blockError).
Definition valid : validation := Some None.
Definition refuse (b : bool) (e : blockError) (k : validation) : validation := if b then Some (Some e) else k.

Definition withdrawal_codec : codec (Z * (Z * (Z * (Z * unit)))) :=
  c_struct (u64_codec ,, u64_codec ,, address_codec ,, u64_codec ,, f_nil)%fields.
Definition withdrawal_EncodeIndex (w : Withdrawal) : list Z :=
  default [] (Encode withdrawal_codec (w_Index w, (w_Validator w, (w_Address w, (w_Amount w, tt))))).

Section Validator.
Context {U : U256.Ops} {HS : Hasher} {R : Reader} {CH : Chain} {EN : Env} {PC : Precompiles} {TE : TxEnv}
  {C : Crypto} {TH : TxProcessingHook} {BE : BlockEnv TH} {LB : Libraries} {HH : HeaderHash} {CS : ChainStore}.

(** [DeriveSha] with a stack trie. *)
Definition DeriveSha (values : list (list Z)) : Z := stack_root (DeriveSha_updates values).

Definition CalcUncleHash (uncles : list Header) : Z :=
  match uncles with [] => EmptyUncleHash | _ => uncles_hash uncles end.

(** A request without data is skipped. *)
Definition CalcRequestsHash (requests : list (list Z)) : Z :=
  U256.be_value (sha256 (concat (map (fun item => if (1 <? length item)%nat then sha256 item else []) requests))).

(** The loop over the transactions counts the blobs. *)
Fixpoint count_blobs (i blobs : Z) (txs : list Transaction) : blockError + Z :=
  match txs with
  | [] => inr blobs
  | tx :: txs =>
      match BlobTxSidecar_ (inner tx) with
      | Some _ => inl (ErrUnexpectedSidecar i)
      | None => count_blobs (i + 1) (blobs + Z.of_nat (length (default [] (BlobHashes (inner tx))))) txs
      end
  end.

Definition check_withdrawals (fb : FullBlock) (k : validation) : validation :=
  match WithdrawalsHash (block_header (base fb)) with
  | Some want =>
      refuse (negb (HasWithdrawals fb)) ErrMissingWithdrawals
      (refuse (negb (DeriveSha (map withdrawal_EncodeIndex (b_Withdrawals (block_body (base fb)))) =? want)) ErrWithdrawalsRoot k)
  | None => refuse (HasWithdrawals fb) ErrUnexpectedWithdrawals k
  end.

Definition check_blob_count (fb : FullBlock) (k : validation) : validation :=
  match count_blobs 0 0 (Transactions fb) with
  | inl e => Some (Some e)
  | inr blobs =>
      match Header.BlobGasUsed (block_header (base fb)) with
      | Some used => refuse (negb (blobs =? used / BlobTxBlobGasPerBlob)) ErrBlobGasMismatch k
      | None => refuse (0 <? blobs) ErrUnexpectedBlobs k
      end
  end.

Definition ValidateBody (engine : Engine) (chain : ChainReader) (fb : FullBlock) : validation :=
  let header := block_header (base fb) in
  let config := chain_Config chain in
  refuse (negb (Config.IsArbitrum config) && Config.IsOsaka config (Some (Number header)) (Header.Time header) 0
          && (MaxBlockSize <? Size fb)) ErrBlockOversized
  (refuse (HasBlockAndState (header_hash header) (u64 (Number header))) ErrKnownBlock
  (match VerifyUncles engine chain (base fb) with
   | None => None
   | Some (Some e) => Some (Some (ErrUncles e))
   | Some None =>
       refuse (negb (CalcUncleHash (b_Uncles (block_body (base fb))) =? UncleHash header)) ErrUncleRoot
       (refuse (negb (DeriveSha (map tx_EncodeIndex (Transactions fb)) =? Header.TxHash header)) ErrTransactionRoot
       (check_withdrawals fb (check_blob_count fb
       (let parent := u64 (u64 (Number header) - 1) in
        if negb (HasBlockAndState (ParentHash header) parent) then
          refuse (negb (HasBlock (ParentHash header) parent)) ErrUnknownParent (Some (Some ErrPrunedAncestor))
        else valid))))
   end)).

(** [rlp.Encode] of the receipt in the binary form is the element that is hashed. *)
Definition receipt_pairs (rs : list Receipt.t) : list (list Log * list Z) := map (fun r => (Receipt.Logs r, Receipt.Bloom r)) rs.

Definition check_requests (header : Header) (res : ProcessResult) (k : validation) : validation :=
  match RequestsHash header with
  | Some want => refuse (negb (CalcRequestsHash (default [] (pr_Requests res)) =? want)) ErrInvalidRequestsHash k
  | None => refuse (bool_decide (is_Some (pr_Requests res))) ErrUnexpectedRequests k
  end.

Definition ValidateState (config : ChainConfig) (fb : FullBlock) (db : StateDB) (res : option ProcessResult) (stateless : bool)
  : validation :=
  let header := block_header (base fb) in
  match res with
  | None => Some (Some ErrNilResult)
  | Some res =>
      refuse (negb (Header.GasUsed header =? pr_GasUsed res)) ErrInvalidGasUsed
      (refuse (negb (bool_decide (MergeBloom (receipt_pairs (pr_Receipts res)) = Header.Bloom header))) ErrInvalidBloom
      (if stateless then valid
       else
         refuse (negb (DeriveSha (map receipt_EncodeIndex (pr_Receipts res)) =? Header.ReceiptHash header)) ErrInvalidReceiptRoot
         (check_requests header res
         (refuse (negb (fst (IntermediateRoot (Config.IsEIP158 config (Some (Number header))) db) =? Header.Root header))
            ErrInvalidRoot valid))))
  end.

End Validator.

(** ** The gas limit of the next block *)

Definition CalcGasLimit (parentGasLimit desiredLimit : Z) : Z :=
  let delta := u64 (parentGasLimit / GasLimitBoundDivisor - 1) in
  let limit := parentGasLimit in
  let desiredLimit := if desiredLimit <? MinGasLimit then MinGasLimit else desiredLimit in
  if limit <? desiredLimit then
    let limit := u64 (parentGasLimit + delta) in
    if desiredLimit <? limit then desiredLimit else limit
  else if desiredLimit <? limit then
    let limit := u64 (parentGasLimit - delta) in
    if limit <? desiredLimit then desiredLimit else limit
  else limit.

(** ** What validation means *)

Section Theorems.
Context {U : U256.Ops} {L : U256.Laws U} {HS : Hasher} {R : Reader} {CH : Chain} {EN : Env} {PC : Precompiles}
  {GH : GasRun.GasHooks} {TE : TxEnv} {C : Crypto} {TH : TxProcessingHook} {BE : BlockEnv TH} {HL : HookLaws TH}
  {BL : BlockLaws TH BE} {LB : Libraries} {HH : HeaderHash} {CS : ChainStore}.
Context (no_verkle : IsEIP4762 chainRules = false).

Lemma refuse_valid b e k : refuse b e k = valid -> b = false /\ k = valid.
Proof. by destruct b. Qed.

Definition blobs_of (tx : Transaction) : Z := Z.of_nat (length (default [] (BlobHashes (inner tx)))).

Lemma count_blobs_ok txs : forall i n m, count_blobs i n txs = inr m ->
  m = n + sumZ (map blobs_of txs) /\ Forall (fun tx => BlobTxSidecar_ (inner tx) = None) txs.
Proof.
  induction txs as [|tx txs IH]; intros i n m; simpl.
  - intros [= <-]. split; [change (sumZ []) with 0; lia|constructor].
  - destruct (BlobTxSidecar_ (inner tx)) eqn:E; [done|]. intros [-> Hf]%IH. split; [|by constructor].
    change (sumZ (blobs_of tx :: map blobs_of txs)) with (blobs_of tx + sumZ (map blobs_of txs)). unfold blobs_of. lia.
Qed.

Lemma ValidateBody_ok engine chain fb : ValidateBody engine chain fb = valid ->
  Header.TxHash (block_header (base fb)) = DeriveSha (map tx_EncodeIndex (Transactions fb))
  /\ UncleHash (block_header (base fb)) = CalcUncleHash (b_Uncles (block_body (base fb)))
  /\ Forall (fun tx => BlobTxSidecar_ (inner tx) = None) (Transactions fb)
  /\ sumZ (map blobs_of (Transactions fb))
     = match Header.BlobGasUsed (block_header (base fb)) with Some used => used / BlobTxBlobGasPerBlob | None => 0 end
  /\ HasBlockAndState (ParentHash (block_header (base fb))) (u64 (u64 (Number (block_header (base fb))) - 1)) = true.
Proof.
  unfold ValidateBody. intros H. apply refuse_valid in H as [_ H]. apply refuse_valid in H as [_ H].
  destruct (VerifyUncles engine chain (base fb)) as [[|]|]; try discriminate H.
  apply refuse_valid in H as [Hu%negb_false_iff%Z.eqb_eq H]. apply refuse_valid in H as [Ht%negb_false_iff%Z.eqb_eq H].
  assert (check_blob_count fb (let parent := u64 (u64 (Number (block_header (base fb))) - 1) in
        if negb (HasBlockAndState (ParentHash (block_header (base fb))) parent) then
          refuse (negb (HasBlock (ParentHash (block_header (base fb))) parent)) ErrUnknownParent (Some (Some ErrPrunedAncestor))
        else valid) = valid) as Hb.
  { unfold check_withdrawals in H. destruct (WithdrawalsHash _); [apply refuse_valid in H as [_ H]|]; by apply refuse_valid in H as [_ H]. }
  clear H. unfold check_blob_count in Hb. destruct (count_blobs _ _ _) as [|n] eqn:En; [discriminate Hb|].
  apply count_blobs_ok in En as [-> Hf]. rewrite Z.add_0_l in Hb.
  assert (forall k, (if negb (HasBlockAndState (ParentHash (block_header (base fb))) k) then
          refuse (negb (HasBlock (ParentHash (block_header (base fb))) k)) ErrUnknownParent (Some (Some ErrPrunedAncestor))
        else valid) = valid -> HasBlockAndState (ParentHash (block_header (base fb))) k = true) as Hs.
  { intros k. destruct (HasBlockAndState _ k); [done|]. simpl. by destruct (HasBlock _ k). }
  assert (0 <= sumZ (map blobs_of (Transactions fb))) as Hn.
  { clear. induction (Transactions fb) as [|tx txs IH]; [done|].
    change (0 <= blobs_of tx + sumZ (map blobs_of txs)). unfold blobs_of at 1. lia. }
  destruct (Header.BlobGasUsed _); apply refuse_valid in Hb as [Hc Hb]; apply Hs in Hb; split_and!; try done; lia.
Qed.

Lemma blooms_ok signer baseFee txs ended rs : receipts_of signer baseFee txs ended rs ->
  Forall (fun r => r.2 = CreateBloom r.1) (receipt_pairs rs).
Proof. induction 1 as [|tx txs ends ended r rs [_ _ Hb _ _] _ IH]; constructor; [exact Hb|exact IH]. Qed.

(** C6. A block whose body and state are valid commits to what processing it did, when processing returned a result:
    its gas used is the uint64 sum of what the receipts charge; its bloom is the filter of all the logs of the receipts,
    so that every search that finds one of them passes it; its transaction and receipt roots are those of the
    transactions and of the receipts, one for each, and its state root that of the state that was reached; no
    transaction carries a sidecar, and the blobs are as many as its blob gas pays for.  What the transactions that the
    hook of the chain did not end charge is at most the gas limit; without transactions that it ended, as on a chain
    without ArbOS, the gas used is the exact sum and at most the gas limit.  The gas limits of the transactions are
    below 2^31 and the fuel above them, the chain is without the Verkle rules, and its hooks keep [HookLaws],
    [BlockLaws] and [GasHooks]. *)
Theorem valid_block_commits engine chain config fb fuel e h r b :
  let header := block_header (base fb) in
  let txs := Transactions fb in
  is_u64 (Header.GasLimit header) -> Forall (runnable fuel) txs -> system_gas header < Z.of_nat fuel ->
  ValidateBody engine chain fb = valid ->
  Process fuel header (header_hash header) txs e h = Done (Ok r, b) ->
  ValidateState config fb (evm_StateDB (bs_evm b)) (Some r) false = valid ->
  (exists ended,
    receipts_of (block_signer header) (Header.BaseFee header) txs ended (pr_Receipts r)
    /\ charges ended (pr_Receipts r) <= Header.GasLimit header
    /\ Header.GasUsed header = u64 (sumZ (map Receipt.GasUsed (pr_Receipts r)))
    /\ (Forall (eq false) ended -> Header.GasUsed header = sumZ (map Receipt.GasUsed (pr_Receipts r))
        /\ Header.GasUsed header <= Header.GasLimit header))
  /\ Header.Bloom header = CreateBloom (pr_Logs r)
  /\ (forall fromBlock toBlock addresses topics, FilterLogs (pr_Logs r) fromBlock toBlock addresses topics <> [] ->
      bloomFilter (Header.Bloom header) addresses topics = true)
  /\ Header.TxHash header = DeriveSha (map tx_EncodeIndex txs)
  /\ Header.ReceiptHash header = DeriveSha (map receipt_EncodeIndex (pr_Receipts r))
  /\ Header.Root header = fst (IntermediateRoot (Config.IsEIP158 config (Some (Number header))) (evm_StateDB (bs_evm b)))
  /\ Forall (fun tx => BlobTxSidecar_ (inner tx) = None) txs
  /\ sumZ (map blobs_of txs) = match Header.BlobGasUsed header with Some used => used / BlobTxBlobGasPerBlob | None => 0 end.
Proof.
  intros header txs Hl Hr Hf (Htx & _ & Hs & Hb & _)%ValidateBody_ok Ep Hv. fold header txs in Htx, Hs, Hb.
  pose proof (Process_spec no_verkle fuel header (header_hash header) txs e h Hl Hr Hf) as Hp. rewrite Ep in Hp.
  destruct Hp as ((ended & [Hrs _ Eu Hpool Hleft Hplain]) & Elogs). unfold ValidateState in Hv. fold header in Hv.
  apply refuse_valid in Hv as [Hg%negb_false_iff%Z.eqb_eq Hv]. apply refuse_valid in Hv as [Hbl%negb_false_iff%bool_decide_eq_true Hv].
  apply refuse_valid in Hv as [Hrh%negb_false_iff%Z.eqb_eq Hv].
  assert (fst (IntermediateRoot (Config.IsEIP158 config (Some (Number header))) (evm_StateDB (bs_evm b))) = Header.Root header) as Hroot.
  { unfold check_requests in Hv. destruct (RequestsHash header); apply refuse_valid in Hv as [_ Hv];
      by apply refuse_valid in Hv as [?%negb_false_iff%Z.eqb_eq _]. }
  rewrite (MergeBloom_logs _ (blooms_ok _ _ _ _ _ Hrs)) in Hbl.
  assert (map fst (receipt_pairs (pr_Receipts r)) = map Receipt.Logs (pr_Receipts r)) as El
    by (unfold receipt_pairs; rewrite map_map; done).
  rewrite El, <- Elogs in Hbl. rewrite Hg, <- Hbl. split_and!; try done; [|apply search_passes].
  exists ended. split_and!; [done|lia|done|]. intros (_ & E & ?)%Hplain. lia.
Qed.
End Theorems.

(** The gas limit chosen for the next block passes the check of headers, and moves towards the desired one, or the
    minimum if that is higher: it lies between the limit of the parent and that goal, and it is the goal or the
    largest step towards it. *)
Theorem CalcGasLimit_verified parent desired :
  MinGasLimit <= parent <= MaxGasLimit -> 0 <= desired <= MaxGasLimit ->
  let goal := Z.max desired MinGasLimit in
  let limit := CalcGasLimit parent desired in
  VerifyGaslimit parent limit = accept
  /\ Z.min parent goal <= limit <= Z.max parent goal
  /\ (limit = goal \/ Z.abs (limit - parent) = parent / GasLimitBoundDivisor - 1).
Proof.
  intros Hp Hd goal limit. change MinGasLimit with 5000 in *. change MaxGasLimit with 9223372036854775807 in *.
  assert (4 <= parent / GasLimitBoundDivisor <= parent) as Hq
    by (unfold GasLimitBoundDivisor; split; [apply Z.div_le_lower_bound|apply Z.div_le_upper_bound]; lia).
  assert (Z.min parent goal <= limit <= Z.max parent goal
    /\ (limit = goal \/ Z.abs (limit - parent) = parent / GasLimitBoundDivisor - 1)
    /\ Z.abs (limit - parent) < parent / GasLimitBoundDivisor) as (Hb & Hs & Ha).
  { subst limit. unfold CalcGasLimit. fold goal. unfold MinGasLimit in *.
    assert ((if desired <? 5000 then 5000 else desired) = goal) as -> by (subst goal; destruct (Z.ltb_spec desired 5000); lia).
    set (q := parent / GasLimitBoundDivisor) in *. cbv zeta. rewrite (u64_small (q - 1)) by (unfold is_u64; lia).
    rewrite (u64_small (parent + (q - 1))), (u64_small (parent - (q - 1))) by (unfold is_u64; lia).
    repeat match goal with |- context [?a <? ?b] => destruct (Z.ltb_spec a b) end; lia. }
  split; [|done]. destruct (VerifyGaslimit_exact parent limit) as [He _]; [unfold MaxGasLimit; lia|unfold MaxGasLimit; subst goal; lia|].
  apply He. unfold MinGasLimit. subst goal. lia.
Qed.

Lemma CalcGasLimit_verified_witness : VerifyGaslimit 30000000 (CalcGasLimit 30000000 36000000) = accept
  /\ CalcGasLimit 30000000 36000000 = 30029295.
Proof.
  split; [|by vm_compute].
  apply (CalcGasLimit_verified 30000000 36000000); unfold MinGasLimit, MaxGasLimit; lia.
Defined.

(** ** A concrete block *)

Section BlockWitness.
Import ToyMachine ToyBlock ToyLibraries.

#[local] Instance toy_hash : HeaderHash := fun _ => 77.
#[local] Instance toy_store : ChainStore := {|
  HasBlockAndState _ n := n =? 6; HasBlock _ n := n <=? 6; uncles_hash _ := 0; stack_root l := Z.of_nat (length l)
|}.

Definition toy_engine : Engine :=
  mkEngine Header.Coinbase (fun _ _ => accept) (fun _ hs => map (fun _ => accept) hs) (fun _ _ => accept)
    (fun _ h => Ok h) (fun _ _ _ s => s) (fun _ _ _ => 0).
Definition toy_chain_reader : ChainReader := mkChainReader config (fun _ _ => None) (fun _ _ => None).
Definition toy_header : Header :=
  mkHeader 1 EmptyUncleHash 0 0 2 2 empty_bloom 0 7 250000 42320 0 [] [] 0 (Some 1) None None None None None.
Definition toy_block : FullBlock := mkFullBlock (mkBlock toy_header (mkBody [] [])) [tx 3; tx 4] false 500.

Definition toy_run := Process (CH := ToyBlock.CH) (R := ToyBlock.R) (TH := ToyBlock.TH) (BE := ToyBlock.BE)
  (Z.to_nat 100001) toy_header 77 [tx 3; tx 4] (mkEVM NewWithReader ∅ 0 0 false [] false) tt.

Lemma valid_block_commits_witness : exists r b, toy_run = Done (Ok r, b)
  /\ ValidateBody toy_engine toy_chain_reader toy_block = valid
  /\ exists ended, receipts_of (block_signer toy_header) (Header.BaseFee toy_header) [tx 3; tx 4] ended (pr_Receipts r)
    /\ Header.GasUsed toy_header = u64 (sumZ (map Receipt.GasUsed (pr_Receipts r))).
Proof.
  pose proof (valid_block_commits (CH := ToyBlock.CH) (R := ToyBlock.R) (TH := ToyBlock.TH) (BE := ToyBlock.BE) eq_refl
    toy_engine toy_chain_reader config toy_block
    (Z.to_nat 100001) (mkEVM NewWithReader ∅ 0 0 false [] false) tt) as H.
  cbv zeta in H. change (block_header (base toy_block)) with toy_header in H. change (header_hash toy_header) with 77 in H.
  change (Transactions toy_block) with [tx 3; tx 4] in H. fold toy_run in H.
  assert (ValidateBody toy_engine toy_chain_reader toy_block = valid) as Hv by by vm_compute.
  assert (is_u64 (Header.GasLimit toy_header) /\ system_gas toy_header < Z.of_nat (Z.to_nat 100001)) as [Hg Hs]
    by (split; by vm_compute).
  assert (Forall (runnable (Z.to_nat 100001)) [tx 3; tx 4]) as Hr by (repeat constructor; by vm_compute).
  destruct toy_run as [[[r|] b]| |] eqn:E; [|vm_compute in E; discriminate E..].
  exists r, b. split; [exact eq_refl|]. split; [exact Hv|].
  destruct (H r b Hg Hr Hs Hv eq_refl) as [(ended & Hro & _ & Hu & _) _];
    [vm_compute in E; injection E as <- <-; by vm_compute|].
  exists ended. split; [exact Hro|exact Hu].
Defined.
End BlockWitness.
